(* ===== verification/_CoqProject ===== *)
-Q . S2P
Prelude.v
Tensor.v
Layout.v
PagedKv.v
ExecTable.v
HostKvArena.v
PageTransfer.v
LogicalKv.v
AddressSpace.v
PageTokens.v
AddressRefs.v
AddressActive.v
AddressGrowth.v
AddressCopies.v
AddressSnapshots.v
AddressRun.v
Admission.v
Scheduler.v
KvCapacity.v
Ple.v
SlotRing.v
LaneLedger.v
LaneRounds.v
HostExtents.v
ExtentPages.v
ExtentTokens.v
ExtentSlots.v
ExtentInv.v
ExtentPartition.v
ExtentRelease.v
ExtentMarks.v
ExtentFrame.v
ExtentViews.v
ExtentCopy.v
ExtentRun.v
ExtentClaims.v
ContextCost.v
PortfolioValue.v
SearchBudget.v
PressureTypes.v
CapturePlanner.v
CaptureClaims.v
StorageLayouts.v
ArtifactReader.v
ArtifactBinder.v
ArtifactLoad.v
ArtifactStream.v
ArtifactClaims.v
TypedBinding.v
ExpertBank.v
ExpertCache.v
ExpertCacheInv.v
ExpertCacheRun.v
ExpertGroups.v
ExpertCacheLayer.v
ExpertAdmit.v
ExpertSteps.v
ExpertCacheClaims.v
Unicode.v
Tokenizer.v
TokenizerLoad.v
TokenTable.v
TokenMerges.v
TokenWords.v
TokenEncode.v
TokenText.v
TokenLoaded.v
TokenDemo.v
TokenizerClaims.v
