(* ===== verification/Prelude.v ===== *)
(** * NInfer: a verification of the host-side core of the inference engine

    NInfer is a C++/CUDA inference engine for large language models. Its
    correctness on the host rests on a stack of resource managers: tensors
    over device memory, a bump allocator with its dry run, a paged pool of
    key/value pages with block tables, a pinned host arena for evicted pages,
    the scheduler that decides which request runs, the reader and loader of
    model files, and, in the Flash-Next target, the ledger of lanes and page
    groups, the ring of recurrent-state slots, the table of per-layer
    embeddings and the cache of experts on the device. This development translates
    these parts into executable definitions and proves what the rest of the
    engine relies on.

    ** How the code is represented

    - A [std::uint32_t], [std::int32_t] or [std::size_t] is a [Z]; every
      operation that can wrap is written with [wrap32], [wrap64] or [to_i32],
      and a conversion or comparison happens where the source has it.
    - A [std::vector] or [std::array] is a [list]; [vat] is [at] or a checked
      [operator[]] ([Undefined] outside), [v.[i <- x]] is an assignment.
    - A function that can throw returns [result A]; the constructors of
      [error] are the exceptions of the source, [std::terminate] included.
      Functions that throw after having changed an object are in the state
      and error monad [M S A], so that the state in which an exception leaves
      the object is part of the model.
    - Objects are records with the fields of the class; a pointer to an object
      is the identity it was constructed with ([this]), and handles and leases
      carry it as the source's owner pointers do.
    - Memory is not modelled byte by byte except where a claim is about bytes
      (the embedding gather, the device block tables, the copies of pages, the
      loading of a model file, the slots of the expert cache): an address is a
      [Z].

    ** Files

    - Prelude: errors, the two monads with a weakest-precondition calculus,
      machine integers, vectors, byte copies and the tactics and lemmas every
      component uses.
    - Tensor (src/src/core/tensor.cpp, dtype.cpp): shapes, strides and the
      addresses of elements; [make_tensor], [view], [slice], [permute].
    - Layout (src/src/core/layout.cpp, arena.cu): [LayoutBuilder],
      [WorkspaceLayoutBuilder] and [DeviceArena]. The class [Allocator] is the
      interface that target code is a template over; [run] executes one
      allocation program against any instance of it.
    - PagedKv (src/src/core/paged_kv_cache.cpp): page pools, leases,
      reservations and bundle reservations. [client_step] is the relation of
      everything client code can do with one pool.
    - ExecTable (the same source file): execution-table rows and the
      publication of block tables; [world_step] interleaves host calls with
      the asynchronous copies of the stream.
    - HostKvArena (src/src/core/host_kv_arena.cpp): the pinned arena with its
      descriptors, free extents, recipes and splits; [host_step].
    - PageTransfer (src/src/core/paged_kv_cache.cpp): the copies between the
      pages of a pool and the page records of a host allocation, as lists of
      strided copy commands. The class [CopyEngine] is what the CUDA runtime
      documents of one command, with [reference_engine] as an instance.
    - LogicalKv (src/src/runtime/logical_kv_store.h): the logical page store
      over a device pool. Its state holds the pool and the callers'
      reservations, so that the store is a client of [PagedKv] and inherits
      its accounting; [call] and [run_call] are everything that can be called.
    - Admission and Scheduler (src/src/runtime/engine/admission_policy.cpp,
      scheduler.h): FIFO head, protection epochs and grants, round and control
      membership. The request type is the class [SchedulerRequest], of which
      the engine's [RequestRecord] is an instance; [system_step] is the
      admission protocol around the scheduler.
    - KvCapacity (src/src/runtime/engine/kv_capacity.cpp): the size of the
      key/value cache.
    - Ple (ple_index.cpp, ple_table.cpp of
      src/src/targets/qwen3_8_flash_next/impl): embedding row indices, the
      sharded table, the gather and its number formats.
    - SlotRing (runtime_plan.cpp, runtime_state.cpp of the same directory):
      configuration checks, plan counts and the recurrent-state slots;
      [ring_reachable] closes the selectors under all operations.
    - LaneLedger and LaneRounds (lane_ledger.cpp of the same directory): lanes,
      reference-counted page groups with the host block tables, and the
      transactions of decode rounds, speculative rounds and prefill chunks.
      [lane_step] is the relation of all public operations; LaneRounds follows
      one decode round through [begin_round], [rollback_prepared_round] and
      [commit_round].
    - AddressSpace (runtime/logical_kv_store.h, KVAddressSpaceStore): addresses
      that map logical pages, with the objects that prepare an activation, a
      prefix fork or an active snapshot. The proofs are in PageTokens (the page
      store as a store of tokens: one per reference, active reference and
      transfer),
      AddressRefs (the invariant, inactive addresses), AddressActive
      (activation and deactivation), AddressGrowth (growth and truncation),
      AddressCopies (forks), AddressSnapshots (snapshots) and AddressRun (the
      relation of all calls and its claims).
    - HostExtents (runtime/host_kv_extent_store.h): host extents, whose pages
      are linked membership nodes, over the host arena and the page stores. The
      proofs take the state apart into tokens: ExtentPages (host replicas and
      pins on pages), ExtentTokens (nodes, extents, allocations), ExtentSlots
      (an extent as a list of slots; the loops along the nodes), ExtentInv (the
      invariant as a list of segments), ExtentPartition (splitting an extent
      into runs), ExtentRelease and ExtentMarks (collection and release of
      marked pages), ExtentFrame (what the calls of others keep), ExtentViews
      (the bytes of a page), ExtentCopy (a copy from reservation to
      publication), ExtentRun (the relation of all calls) and ExtentClaims.
    - ContextCost (runtime/engine/context_cost.cpp, context_cost_defaults.cpp,
      runtime/contract/types.h): the features of a prefill, the price of
      transfers and prefills in saturating 64-bit arithmetic with both branches
      of the preprocessor, presets, their validation and their precedence.
    - PortfolioValue (context_portfolio_value.h of the same directory): the
      value of all checkpoints before and after a change.
    - SearchBudget (materialization_budget.h, resource_search.h): the time a
      search may take, its renewals, and the ledger of visited targets.
    - PressureTypes, CapturePlanner and CaptureClaims (contract/types.h,
      shared_capture_planner.h): the breadth-first search for the best
      consequence of a shared capture. The planning session of the target
      program is the class [CaptureSession]; what its documentation promises
      is [session_laws], and [DemoSession] is an instance.
    - StorageLayouts and ArtifactReader (src/src/artifact: storage_layouts.cpp,
      reader.cpp and their headers): the formats of a model file, the sizes and
      planes of their encodings, and the checks with which a file is opened.
    - ArtifactBinder, ArtifactLoad, ArtifactStream and ArtifactClaims
      (binder.cpp, materializer.cpp): which objects go to the device, stay on
      the host or are mapped, and the pipeline of chunked reads and queued
      copies. ArtifactStream follows the stream of copies, ArtifactClaims a
      whole load.
    - TypedBinding (typed_binding.cpp): the weight views of loaded tensors.
    - ExpertBank (expert_bank.cpp of the Flash-Next target): views of the
      experts in a bank.
    - ExpertCache (expert_cache.cpp, moe.cpp of the same directory): the cache
      of experts with its worker thread. [env_step] is a step of the worker or
      of the device, and a schedule says when they happen. The proofs are in
      ExpertCacheInv (the invariant and the steps of the worker),
      ExpertCacheRun (lookup, leases and what queued kernels will write),
      ExpertGroups (the grouping of tasks), ExpertCacheLayer (download and
      delivery), ExpertAdmit (the choice of a slot, admission and waiting),
      ExpertSteps (the relation of all calls) and ExpertCacheClaims.
    - Unicode (src/text/unicode.cpp): normalization, code points and character
      classes over a class of what utf8proc promises.
    - Tokenizer and TokenizerLoad (qwen3_6/impl/frontend/tokenizer.cpp): the
      operations and the constructor. TokenTable shows that the merge table is
      a map, TokenMerges that the queue does the merges of the definition,
      TokenWords that words are matches of the regular expression, TokenEncode
      and TokenText what a text is encoded to, TokenLoaded what the
      constructor guarantees; TokenDemo has a small UTF-8 library and a
      tokenizer file for the witnesses of TokenizerClaims.

    ** What the theorems show

    The claims are numbered C1, C2, ... in the comments in front of them.

    - C1, C7 and C19, of the expert cache, under every interleaving of the
      inference thread with the worker and the device: a layer computes every
      path with exactly the expert it was routed to; waiting ends with every
      admitted expert ready; a slot that is read is never filled.
    - C2: the work of a materialization is priced by the documented formula in
      exact arithmetic, cut off at 2^64 - 1.
    - C3, C23, C25 and C40, of the host extents: releasing chosen replicas is
      exact and leaves all others at their bytes; a page copied to the host is
      found where it was written; replicas are readable and never overlap, in
      every reachable state; cleaning up never ends the process and leaks
      nothing.
    - C4, C13, C21 and C30, of the tokenizer: the ids of a text are the
      byte-pair encoding its files define, word by word of the regular
      expression; the open-addressed merge table is a map and every probe
      ends; limits give the first ids and boundaries change none; decoding
      gives the text back.
    - C5, C15, C17, C18 and C22, of model files: every object of a file that
      opens is well formed and inside the file; a written file is read back;
      the sizes of all storage layouts are exact; a load puts the bytes of
      every object where it was placed, whatever the order of the copies; the
      weight views point to the planes of their tensors.
    - C6 and C8 to C10: in every reachable state each page is in exactly one
      lease or one free run, released handles stay stale, the duplicate check and
      the bundle reservation are exact.
    - C11: published block tables reach the device under every interleaving.
    - C12: the portfolio value is the sum of the best savings, per demand
      class and per owner.
    - C14: every byte of the host arena is free or of exactly one live
      allocation.
    - C16: every operation a search is granted is predicted to end within its
      time boundary; at most one grant is made on an incomplete prediction.
    - C20: backfill grants go stale.
    - C24: automatic capacity resolution takes the most that fits, and every
      way in which it is refused is listed.
    - C26: embedding lookups stay in the table and copy the right bytes.
    - C27 and C28: the capture planner returns the best of the targets it
      assessed; it answers for every well-formed portfolio and every session
      that keeps its promises.
    - C29: recurrent state is never overwritten while it is read; it lies in
      the allocation when the sum of the slots does not wrap.
    - C31 to C33: opening a round is all or nothing, rolling it back restores the ledger,
      committing it advances exactly the accepted lanes.
    - C34: copying pages to the host and back restores them.
    - C35 to C37: the content of a referenced logical page is never lost, if
      references are taken to pages with content only;
      descriptors, replicas and reservations are accounted for; calls that
      throw or name a stale handle leave no trace.
    - C38 and C39: the reference counters of the logical pages are exactly the
      mappings of the address spaces, in every state that their calls reach
      (at least the mappings once the commit of a copy has thrown); cleaning up
      never ends the process. Both ask that no active address is truncated
      below its checkpoint requirement, which the code does not check.

    Theorems without a number complete the picture of a component: elements of
    tensors are disjoint, the dry run of a workspace sizes its arena, a planned
    host recipe is adopted as planned, no kind of unit starves, page groups
    are accounted for, reserved pages can always be materialized, splitting
    a host allocation fails only for the documented reasons, the donors of an
    admission are frozen, the two branches of the price arithmetic agree, the
    experts of a bank tile its payload, the expert cache takes the largest
    budget that fits, and it gives up the least recently used slot.

    Every theorem with hypotheses is followed by a witness that applies it to
    a concrete object.

    ** Termination and fuel

    Definitions are structurally recursive over the vectors the source
    iterates over; [take_runs] recurses over the free runs, which
    [materialize_never_fails] shows to suffice. Where a loop of the source is not structural it runs with
    fuel: [normalize_mantissa] has the ten iterations a 10-bit mantissa can
    need ([fp16_to_float_exact] covers every bit pattern), [page_runs_from] has
    one per page ([page_runs_spec] shows that no page is left out), the loops
    along the nodes of a host extent have one per page of the extent, and
    [search_loop] has one per entry of the target ledger ([search_loop] returns
    [None] only when it runs out of them, which C28 excludes). [load_span] has
    one per chunk of a span, which C18 shows to be enough; [run_end],
    [emit_run] and [group_tasks] have one per task ([grouping_ok]); and
    [wait_idle] has the twelve steps that four slots can take (C7). The loops
    of the tokenizer have one step per byte of a text, per slot of the merge
    table, and three per byte of a word for the queue of merges, which
    [append_words_ok], [find_ok] and [merge_loop_ok] show to be enough.

    ** What is not modelled

    CUDA kernels and graphs, the contents of device memory other than
    block tables, copied pages, loaded objects and expert slots, threads and
    locks of the engine core, file and network I/O, the JSON files of cost
    presets, the resource manager and the target programs, profiling and
    printing. A kernel of the expert cache is known only by what it reads: the
    weights of a slot and an input row; a group kernel reads the slot of its
    first task.
    Messages of exceptions are dropped; their types are kept. *)

From Stdlib Require Export ZArith Lia.
From stdpp Require Export tactics base numbers sets list.

Declare Scope ninfer_scope.
Delimit Scope ninfer_scope with ninfer.
#[global] Open Scope Z_scope.
#[global] Open Scope ninfer_scope.

(** * Errors

    The C++ exceptions the modelled code throws, [std::terminate] /
    [std::abort] ([Terminate]) and an access the language leaves undefined
    ([Undefined], e.g. [vector::operator[]] past the end). *)
Inductive error : Type :=
  | InvalidArgument
  | OverflowError
  | LogicError
  | OutOfRange
  | BadAlloc
  | RuntimeError
  | Terminate
  | Undefined.

#[global] Instance error_eq_dec : EqDecision error.
Proof. solve_decision. Defined.

(** A C++ call either returns a value or leaves by an exception. *)
Inductive result (A : Type) : Type :=
  | Ok (a : A)
  | Err (e : error).
Arguments Ok {A} _.
Arguments Err {A} _.

#[global] Instance result_eq_dec `{EqDecision A} : EqDecision (result A).
Proof. solve_decision. Defined.

#[global] Instance result_ret : MRet result := @Ok.
#[global] Instance result_bind : MBind result := fun A B f r =>
  match r with
  | Ok a => f a
  | Err e => Err e
  end.

(** [throw_if c e] is the source's [if (c) { throw e; }]. *)
Definition throw_if (c : bool) (e : error) : result unit :=
  if c then Err e else Ok tt.

(** * Stateful code

    A method of a class with state [S]: it runs on a state and leaves a
    state, also when it leaves by an exception, so that what an exception
    leaves behind is visible in the model. *)
Definition M (S A : Type) : Type := S -> S * result A.

#[global] Instance M_ret {S} : MRet (M S) := fun A a s => (s, Ok a).
#[global] Instance M_bind {S} : MBind (M S) := fun A B f m s =>
  match m s with
  | (s', Ok a) => f a s'
  | (s', Err e) => (s', Err e)
  end.

Definition mget {S} : M S S := fun s => (s, Ok s).
Definition mput {S} (s' : S) : M S unit := fun _ => (s', Ok tt).
Definition mmodify {S} (f : S -> S) : M S unit := fun s => (f s, Ok tt).
Definition mthrow {S A} (e : error) : M S A := fun s => (s, Err e).
Definition mlift {S A} (r : result A) : M S A := fun s => (s, r).
Definition mthrow_if {S} (c : bool) (e : error) : M S unit := mlift (throw_if c e).

(** Run a loop body on every element of a list, in order. *)
Fixpoint mfor {S A} (f : A -> M S unit) (l : list A) : M S unit :=
  match l with
  | [] => mret tt
  | x :: l' => _ ← f x; mfor f l'
  end.

Fixpoint rfor {A B} (f : B -> A -> result B) (b : B) (l : list A) : result B :=
  match l with
  | [] => Ok b
  | x :: l' => b' ← f b x; rfor f b' l'
  end.

(** * Machine integers *)
Definition U8_MAX : Z := 255.
Definition U32_MAX : Z := 4294967295.
Definition I32_MAX : Z := 2147483647.
Definition U64_MAX : Z := 18446744073709551615.
Definition I64_MAX : Z := 9223372036854775807.
(** [std::size_t] and [std::uintptr_t] on the 64-bit targets. *)
Definition SIZE_MAX : Z := U64_MAX.

Definition wrap32 (z : Z) : Z := z mod 4294967296.
Definition wrap64 (z : Z) : Z := z mod 18446744073709551616.

(** [static_cast<std::int32_t>] of an unsigned value. *)
Definition to_i32 (z : Z) : Z :=
  let w := wrap32 z in if w <=? I32_MAX then w else w - 4294967296.

Definition is_u32 (z : Z) : Prop := 0 <= z <= U32_MAX.
Definition is_u64 (z : Z) : Prop := 0 <= z <= U64_MAX.
Definition is_i32 (z : Z) : Prop := -2147483648 <= z <= I32_MAX.

(** The checked [std::size_t] arithmetic that several translation units define
    for themselves. *)
Definition checked_add_size (a b : Z) : result Z :=
  _ ← throw_if (SIZE_MAX - a <? b) OverflowError;
  Ok (a + b).

Definition checked_mul_size (a b : Z) : result Z :=
  _ ← throw_if (negb (b =? 0) && (SIZE_MAX / b <? a)) OverflowError;
  Ok (a * b).

(** * Vectors indexed by machine integers *)
Definition vget {A} (l : list A) (i : Z) : option A :=
  if 0 <=? i then l !! Z.to_nat i else None.
Definition vset {A} (l : list A) (i : Z) (x : A) : list A :=
  if 0 <=? i then <[Z.to_nat i := x]> l else l.
Definition vsize {A} (l : list A) : Z := Z.of_nat (length l).

(** [v[i]] on a [std::vector]: undefined past the end. *)
Definition vat {A} (l : list A) (i : Z) : result A :=
  match vget l i with
  | Some x => Ok x
  | None => Err Undefined
  end.

Notation "l .[ i ]" := (vget l i) (at level 1, left associativity, format "l .[ i ]") : ninfer_scope.
Notation "l .[ i <- x ]" := (vset l i x)
  (at level 1, left associativity, format "l .[ i  <-  x ]") : ninfer_scope.

(** The partition point of a range, as [std::lower_bound], [std::upper_bound]
    and [std::partition_point] find it: the longest prefix on which the test
    holds, and the rest. On a range the test partitions this is what the
    binary search returns. *)
Fixpoint span_while {A} (f : A -> bool) (l : list A) : list A * list A :=
  match l with
  | [] => ([], [])
  | x :: l' => if f x then let (p, s) := span_while f l' in (x :: p, s) else ([], l)
  end.

(** [std::find_if] with the position of the element it finds. *)
Fixpoint find_index {A} (f : A -> bool) (l : list A) : option (nat * A) :=
  match l with
  | [] => None
  | x :: l' => if f x then Some (O, x)
               else match find_index f l' with
                    | Some (i, y) => Some (S i, y)
                    | None => None
                    end
  end.

(** [v.erase(v.begin() + i)] and [v.insert(v.begin() + i, x)]. *)
Definition erase_at {A} (i : nat) (l : list A) : list A := take i l ++ drop (S i) l.
Definition insert_at {A} (i : nat) (x : A) (l : list A) : list A := take i l ++ x :: drop i l.

(** * Inversion of monadic code *)
Lemma bind_Ok {A B} (f : A -> result B) (r : result A) (b : B) :
  (r ≫= f) = Ok b <-> exists a, r = Ok a /\ f a = Ok b.
Proof. destruct r; cbn; naive_solver. Qed.

Lemma throw_if_Ok c e u : throw_if c e = Ok u <-> c = false.
Proof. destruct u, c; cbn; naive_solver. Qed.

Lemma vat_Ok {A} (l : list A) i x : vat l i = Ok x <-> l.[i] = Some x.
Proof. unfold vat. destruct (l.[i]); naive_solver. Qed.

Lemma M_bind_Ok {S A B} (f : A -> M S B) (m : M S A) s s' b :
  (m ≫= f) s = (s', Ok b) <-> exists s1 a, m s = (s1, Ok a) /\ f a s1 = (s', Ok b).
Proof.
  unfold mbind, M_bind. destruct (m s) as [s1 [a|e]]; naive_solver.
Qed.

Lemma M_bind_Err {S A B} (f : A -> M S B) (m : M S A) s s' e :
  (m ≫= f) s = (s', Err e) <->
  m s = (s', Err e) \/ exists s1 a, m s = (s1, Ok a) /\ f a s1 = (s', Err e).
Proof.
  unfold mbind, M_bind. destruct (m s) as [s1 [a|e']]; naive_solver.
Qed.

(** Run the first action of a sequence. *)
Lemma M_bind_run {S A B} (f : A -> M S B) (m : M S A) s s' a :
  m s = (s', Ok a) -> (m ≫= f) s = f a s'.
Proof. intros H. unfold mbind, M_bind. by rewrite H. Qed.

Lemma mlift_Ok {S A} (r : result A) (s s' : S) a :
  mlift r s = (s', Ok a) <-> s' = s /\ r = Ok a.
Proof. unfold mlift. naive_solver. Qed.

Lemma mthrow_if_Ok {S} c e (s s' : S) u :
  mthrow_if c e s = (s', Ok u) <-> s' = s /\ c = false.
Proof. unfold mthrow_if. rewrite mlift_Ok, throw_if_Ok. done. Qed.

Lemma mget_Ok {S} (s s' a : S) : mget s = (s', Ok a) <-> s' = s /\ a = s.
Proof. unfold mget. naive_solver. Qed.

Lemma mput_Ok {S} (s0 s s' : S) u : mput s0 s = (s', Ok u) <-> s' = s0 /\ u = tt.
Proof. unfold mput. destruct u. naive_solver. Qed.

Lemma mmodify_Ok {S} f (s s' : S) u : mmodify f s = (s', Ok u) <-> s' = f s /\ u = tt.
Proof. unfold mmodify. destruct u. naive_solver. Qed.

Lemma mret_Ok {S A} (a b : A) (s s' : S) :
  (mret a : M S A) s = (s', Ok b) <-> s' = s /\ b = a.
Proof. unfold mret, M_ret. naive_solver. Qed.

(** [simp_res] opens every successful monadic computation among the
    hypotheses and turns its guards into equations on booleans. *)
Ltac simp_res :=
  repeat match goal with
  | H : Ok _ = Ok _ |- _ => injection H as H; try subst
  | H : Err _ = Err _ |- _ => injection H as H; try subst
  | H : Ok _ = Err _ |- _ => discriminate H
  | H : Err _ = Ok _ |- _ => discriminate H
  | H : mret _ = Ok _ |- _ => injection H as H; try subst
  | H : (_ ≫= _) = Ok _ |- _ => apply bind_Ok in H as (? & ? & ?)
  | H : throw_if _ _ = Ok _ |- _ => apply throw_if_Ok in H
  | H : vat _ _ = Ok _ |- _ => apply vat_Ok in H
  | H : (_, _) = (_, _) |- _ => injection H as ??; try subst
  | H : (if ?c then Err _ else _) = Ok _ |- _ => destruct c eqn:?; [discriminate H|]
  | H : (if ?c then _ else Err _) = Ok _ |- _ => destruct c eqn:?; [|discriminate H]
  | x : unit |- _ => destruct x
  end.

(** [simp_M] opens every successful stateful computation. *)
Ltac simp_M :=
  repeat match goal with
  | H : (_ ≫= _) _ = (_, Ok _) |- _ => apply M_bind_Ok in H as (? & ? & ? & ?)
  | H : mlift _ _ = (_, Ok _) |- _ => apply mlift_Ok in H as [? H]; subst
  | H : mthrow_if _ _ _ = (_, Ok _) |- _ => apply mthrow_if_Ok in H as [? H]; subst
  | H : mget _ = (_, Ok _) |- _ => apply mget_Ok in H as [? ?]; subst
  | H : mput _ _ = (_, Ok _) |- _ => apply mput_Ok in H as [? ?]; subst
  | H : mmodify _ _ = (_, Ok _) |- _ => apply mmodify_Ok in H as [? ?]; subst
  | H : mret _ _ = (_, Ok _) |- _ => apply mret_Ok in H as [? ?]; subst
  | H : mthrow _ _ = (_, Ok _) |- _ => discriminate H
  end; simp_res.

(** Turn the boolean tests among the hypotheses into propositions. *)
Ltac simp_bool :=
  repeat match goal with
  | H : (_ && _)%bool = true |- _ => apply andb_true_iff in H as [? ?]
  | H : (_ || _)%bool = false |- _ => apply orb_false_iff in H as [? ?]
  | H : negb _ = true |- _ => apply negb_true_iff in H
  | H : negb _ = false |- _ => apply negb_false_iff in H
  | H : (_ <? _) = true |- _ => apply Z.ltb_lt in H
  | H : (_ <? _) = false |- _ => apply Z.ltb_ge in H
  | H : (_ <=? _) = true |- _ => apply Z.leb_le in H
  | H : (_ <=? _) = false |- _ => apply Z.leb_gt in H
  | H : (_ =? _) = true |- _ => apply Z.eqb_eq in H
  | H : (_ =? _) = false |- _ => apply Z.eqb_neq in H
  end.

(** Split [Forall] on explicit lists. *)
Ltac simp_forall :=
  repeat match goal with
  | H : Forall _ (_ :: _) |- _ => apply Forall_cons_1 in H as [? ?]
  | H : Forall _ [] |- _ => clear H
  | |- Forall _ (_ :: _) => apply Forall_cons_2
  | |- Forall _ [] => apply Forall_nil_2
  end.

(** * Vectors *)
Section Vectors.
Context {A : Type}.
Implicit Types (l : list A) (i j : Z) (x : A).

Lemma vget_Some_bounds l i x : l.[i] = Some x -> 0 <= i < vsize l.
Proof.
  unfold vget, vsize. case_match; [|done].
  intros ?%lookup_lt_Some. lia.
Qed.

Lemma vget_is_Some l i : 0 <= i < vsize l -> is_Some (l.[i]).
Proof.
  unfold vget, vsize. intros ?. destruct (Z.leb_spec 0 i); [|lia].
  apply lookup_lt_is_Some. lia.
Qed.

Lemma vget_None l i : l.[i] = None <-> i < 0 \/ vsize l <= i.
Proof.
  unfold vget, vsize. case_match; [rewrite lookup_ge_None|]; split; try done; lia.
Qed.

Lemma vsize_vset l i x : vsize (l.[i <- x]) = vsize l.
Proof. unfold vsize, vset. case_match; [by rewrite length_insert|done]. Qed.

Lemma length_vset l i x : length (l.[i <- x]) = length l.
Proof. unfold vset. case_match; [by rewrite length_insert|done]. Qed.

Lemma vget_vset_eq l i x : 0 <= i < vsize l -> l.[i <- x].[i] = Some x.
Proof.
  unfold vget, vset, vsize. intros ?. destruct (Z.leb_spec 0 i); [|lia].
  apply list_lookup_insert_eq. lia.
Qed.

Lemma vget_vset_ne l i j x : i <> j -> l.[i <- x].[j] = l.[j].
Proof.
  unfold vget, vset. intros ?. repeat case_match; try done.
  apply list_lookup_insert_ne. lia.
Qed.

Lemma vget_vset l i j x :
  l.[i <- x].[j] = if (i =? j) && (0 <=? i) && (i <? vsize l) then Some x else l.[j].
Proof.
  destruct (Z.eqb_spec i j) as [<-|]; cbn; [|by apply vget_vset_ne].
  destruct (Z.leb_spec 0 i), (Z.ltb_spec i (vsize l)); cbn.
  - by apply vget_vset_eq.
  - unfold vget, vset, vsize in *. destruct (Z.leb_spec 0 i); [|lia].
    by rewrite list_insert_ge by lia.
  - unfold vget, vset. destruct (Z.leb_spec 0 i); [lia|done].
  - unfold vget, vset. destruct (Z.leb_spec 0 i); [lia|done].
Qed.

Lemma vset_vset_eq l i x x' : l.[i <- x].[i <- x'] = l.[i <- x'].
Proof. unfold vset. case_match; [apply list_insert_insert_eq|done]. Qed.

Lemma vset_id l i x : l.[i] = Some x -> l.[i <- x] = l.
Proof. unfold vget, vset. case_match; [apply list_insert_id|done]. Qed.

Lemma vget_elem l i x : l.[i] = Some x -> x ∈ l.
Proof. unfold vget. case_match; [|done]. apply list_elem_of_lookup_2. Qed.

Lemma elem_vget l x : x ∈ l -> exists i, l.[i] = Some x /\ 0 <= i < vsize l.
Proof.
  intros [n Hn]%list_elem_of_lookup. exists (Z.of_nat n).
  unfold vget, vsize. apply lookup_lt_Some in Hn as Hlt.
  rewrite (proj2 (Z.leb_le 0 (Z.of_nat n))) by lia.
  rewrite Nat2Z.id. split; [done|lia].
Qed.

Lemma vec_ext l1 l2 :
  vsize l1 = vsize l2 -> (forall i, 0 <= i < vsize l1 -> l1.[i] = l2.[i]) -> l1 = l2.
Proof.
  unfold vsize. intros Hlen Hget. apply list_eq. intros n.
  destruct (decide (n < length l1)%nat).
  - specialize (Hget (Z.of_nat n)). unfold vget in Hget.
    rewrite (proj2 (Z.leb_le 0 (Z.of_nat n))), Nat2Z.id in Hget by lia.
    apply Hget. lia.
  - rewrite !lookup_ge_None_2 by lia. done.
Qed.

Lemma vsize_nonneg l : 0 <= vsize l.
Proof. unfold vsize. lia. Qed.
End Vectors.

Lemma vget_replicate {A} (n : nat) (x : A) i :
  0 <= i < Z.of_nat n -> (replicate n x).[i] = Some x.
Proof.
  intros ?. unfold vget. rewrite (proj2 (Z.leb_le 0 i)) by lia.
  apply lookup_replicate_2. lia.
Qed.

Lemma vsize_app {A} (l k : list A) : vsize (l ++ k) = vsize l + vsize k.
Proof. unfold vsize. rewrite length_app. lia. Qed.

Lemma vsize_cons {A} (x : A) (l : list A) : vsize (x :: l) = 1 + vsize l.
Proof. unfold vsize. cbn [length]. lia. Qed.

Lemma vget_cons_succ {A} (x : A) (l : list A) i : 0 < i -> (x :: l).[i] = l.[i - 1].
Proof.
  intros ?. unfold vget. rewrite (proj2 (Z.leb_le 0 i)), (proj2 (Z.leb_le 0 (i - 1))) by lia.
  by replace (Z.to_nat i) with (S (Z.to_nat (i - 1))) by lia.
Qed.

Create HintDb vec.
Create Rewrite HintDb vecrw.
#[export] Hint Rewrite @vsize_vset @length_vset @vsize_app @vsize_cons @vset_vset_eq : vecrw.
#[export] Hint Resolve vget_is_Some vget_Some_bounds vsize_nonneg : vec.

(** * Powers of two and bit masks *)

(** A positive number with no bit in common with its predecessor is a power
    of two. *)
Lemma land_pred_pow2 (v : Z) : 0 < v -> Z.land v (v - 1) = 0 -> v = 2 ^ Z.log2 v.
Proof.
  intros Hpos Hland. destruct (Z.log2_spec v Hpos) as [Hlo Hhi].
  destruct (decide (v = 2 ^ Z.log2 v)) as [|Hne]; [done|exfalso].
  assert (v <> 1) by (by intros ->).
  assert (Hbit : Z.testbit (Z.land v (v - 1)) (Z.log2 v) = true).
  { rewrite Z.land_spec, Z.bit_log2 by done. cbn.
    replace (Z.log2 v) with (Z.log2 (v - 1)); [apply Z.bit_log2; lia|].
    apply Z.log2_unique; [apply Z.log2_nonneg|lia]. }
  by rewrite Hland, Z.bits_0 in Hbit.
Qed.

(** Clearing the low [k] bits rounds down to a multiple of [2 ^ k]. *)
Lemma ldiff_ones_mul (x k : Z) : 0 <= k -> Z.ldiff x (Z.ones k) = x / 2 ^ k * 2 ^ k.
Proof.
  intros Hk. rewrite Z.ldiff_ones_r by done.
  by rewrite Z.shiftl_mul_pow2, Z.shiftr_div_pow2 by done.
Qed.

(** A 64-bit complement masks a 64-bit value like the unbounded one. *)
Lemma land_wrap64_lnot (x m : Z) :
  0 <= x <= U64_MAX -> Z.land x (wrap64 (Z.lnot m)) = Z.ldiff x m.
Proof.
  intros Hx. unfold wrap64, U64_MAX in *.
  change 18446744073709551616 with (2 ^ 64).
  rewrite <- Z.land_ones by lia. rewrite (Z.land_comm (Z.lnot m)), Z.land_assoc.
  rewrite Z.land_ones by lia. rewrite Z.mod_small by lia.
  by rewrite Z.ldiff_land.
Qed.

(** * Machine integers in range *)
Lemma wrap32_small z : 0 <= z <= U32_MAX -> wrap32 z = z.
Proof. unfold wrap32, U32_MAX. intros. apply Z.mod_small. lia. Qed.

Lemma wrap64_small z : 0 <= z <= U64_MAX -> wrap64 z = z.
Proof. unfold wrap64, U64_MAX. intros. apply Z.mod_small. lia. Qed.

Lemma to_i32_small z : 0 <= z <= I32_MAX -> to_i32 z = z.
Proof.
  intros. unfold to_i32, I32_MAX in *. rewrite wrap32_small by (unfold U32_MAX; lia).
  destruct (Z.leb_spec z 2147483647); lia.
Qed.

Lemma checked_add_size_Ok a b c : checked_add_size a b = Ok c <-> c = a + b /\ a + b <= SIZE_MAX.
Proof.
  unfold checked_add_size, throw_if. destruct (Z.ltb_spec (SIZE_MAX - a) b); cbn; split.
  - done.
  - lia.
  - intros [= <-]. lia.
  - by intros [-> _].
Qed.

Lemma checked_mul_size_Ok a b c :
  0 <= a -> 0 <= b -> checked_mul_size a b = Ok c <-> c = a * b /\ a * b <= SIZE_MAX.
Proof.
  intros Ha Hb. unfold checked_mul_size, throw_if. destruct (Z.eqb_spec b 0) as [->|Hne]; cbn.
  - rewrite Z.mul_0_r. split; [intros [= <-]|by intros [-> _]]. unfold SIZE_MAX, U64_MAX. lia.
  - destruct (Z.ltb_spec (SIZE_MAX / b) a) as [Hlt|Hge]; split.
    + done.
    + intros [_ Hle]. assert (a <= SIZE_MAX / b) by (apply Z.div_le_lower_bound; lia). lia.
    + intros [= <-]. split; [done|]. pose proof (Z.mul_div_le SIZE_MAX b ltac:(lia)). nia.
    + by intros [-> _].
Qed.

(** * Sums of integers over lists *)
Definition zsum (l : list Z) : Z := foldr Z.add 0 l.
#[global] Arguments zsum : simpl never.

Lemma zsum_cons x l : zsum (x :: l) = x + zsum l.
Proof. done. Qed.

Lemma zsum_app l k : zsum (l ++ k) = zsum l + zsum k.
Proof. induction l as [|x l IH]; [done|]. rewrite <- app_comm_cons, !zsum_cons. lia. Qed.

Lemma zsum_nonneg l : Forall (fun x => 0 <= x) l -> 0 <= zsum l.
Proof. induction 1; [done|]. rewrite zsum_cons. lia. Qed.

Lemma zsum_elem_le l x : Forall (fun y => 0 <= y) l -> x ∈ l -> x <= zsum l.
Proof.
  induction 1 as [|y l Hy Hl IH]; intros Hin; [by apply not_elem_of_nil in Hin|].
  pose proof (zsum_nonneg _ Hl). rewrite zsum_cons.
  apply elem_of_cons in Hin as [->|Hin]; [lia|]. specialize (IH Hin). lia.
Qed.

Lemma zsum_permutation l k : l ≡ₚ k -> zsum l = zsum k.
Proof. induction 1; rewrite ?zsum_cons; lia. Qed.

(** * Searches *)
Lemma span_while_spec {A} (f : A -> bool) (l p s : list A) :
  span_while f l = (p, s) ->
  l = p ++ s /\ Forall (fun x => f x = true) p /\
  match s with [] => True | x :: _ => f x = false end.
Proof.
  revert p s. induction l as [|x l IH]; intros p s H; cbn in H.
  - injection H as <- <-. split; [done|]. split; [apply Forall_nil_2|done].
  - destruct (f x) eqn:E.
    + destruct (span_while f l) as [p' s'] eqn:El. injection H as <- <-.
      destruct (IH _ _ eq_refl) as (-> & ? & ?). split; [done|]. split; [|done].
      by apply Forall_cons_2.
    + injection H as <- <-. split; [done|]. split; [apply Forall_nil_2|done].
Qed.

Lemma find_index_Some {A} (f : A -> bool) (l : list A) i x :
  find_index f l = Some (i, x) -> l !! i = Some x /\ f x = true.
Proof.
  revert i. induction l as [|y l IH]; intros i H; cbn in H; [done|].
  destruct (f y) eqn:E; [injection H as <- <-; done|].
  destruct (find_index f l) as [[j z]|]; [|done]. injection H as <- <-. by apply IH.
Qed.

Lemma find_index_None {A} (f : A -> bool) (l : list A) :
  find_index f l = None <-> Forall (fun x => f x = false) l.
Proof.
  induction l as [|y l IH]; cbn; [split; [intros; apply Forall_nil_2|done]|].
  destruct (f y) eqn:E.
  - split; [done|]. intros H. apply Forall_cons_1 in H as [H _]. congruence.
  - destruct (find_index f l) as [[j z]|].
    + split; [done|]. intros H. apply Forall_cons_1 in H as [_ H]. by apply IH in H.
    + split; [|done]. intros _. apply Forall_cons_2; [done|]. by apply IH.
Qed.

(** * An element in the middle of a vector *)
Section Middle.
Context {A : Type}.
Implicit Types (pre post l : list A) (x y : A).

Lemma lookup_split l k x :
  l !! k = Some x -> exists pre post, l = pre ++ x :: post /\ length pre = k.
Proof.
  intros H. exists (take k l), (drop (S k) l). split.
  - symmetry. by apply take_drop_middle.
  - apply length_take_le. apply lookup_lt_Some in H. lia.
Qed.

Lemma erase_at_middle pre x post : erase_at (length pre) (pre ++ x :: post) = pre ++ post.
Proof. unfold erase_at. induction pre as [|y pre IH]; cbn; [done|]. by f_equal. Qed.

Lemma insert_at_middle pre x post y :
  insert_at (S (length pre)) y (pre ++ x :: post) = pre ++ x :: y :: post.
Proof. unfold insert_at. induction pre as [|z pre IH]; cbn; [done|]. by f_equal. Qed.

Lemma insert_middle pre x post y : <[length pre := y]> (pre ++ x :: post) = pre ++ y :: post.
Proof. by rewrite insert_app_r_alt, Nat.sub_diag by done. Qed.
End Middle.

Lemma lookup_map {A B} (f : A -> B) (l : list A) i : map f l !! i = f <$> (l !! i).
Proof. apply list_lookup_fmap. Qed.

Lemma vget_map {A B} (f : A -> B) (l : list A) i : (map f l).[i] = f <$> l.[i].
Proof. unfold vget. case_match; [apply lookup_map|done]. Qed.

(** * Sums over a vector with one element replaced *)
Lemma zsum_map_vset {A} (f : A -> Z) (l : list A) i x y :
  l.[i] = Some x -> zsum (map f (l.[i <- y])) = zsum (map f l) - f x + f y.
Proof.
  unfold vget, vset. destruct (0 <=? i); [|done]. intros Hi.
  destruct (lookup_split _ _ _ Hi) as (pre & post & -> & Hlen). rewrite <- Hlen, insert_middle.
  rewrite !map_app, !zsum_app. cbn [map]. rewrite !zsum_cons. lia.
Qed.

(** * Results of loops *)

(** Run a computation on every element of a list and collect the results. *)
Fixpoint rmap {A B} (f : A -> result B) (l : list A) : result (list B) :=
  match l with
  | [] => Ok []
  | x :: l' => y ← f x; ys ← rmap f l'; Ok (y :: ys)
  end.

Lemma rmap_Ok {A B} (f : A -> result B) l k :
  rmap f l = Ok k <-> Forall2 (fun x y => f x = Ok y) l k.
Proof.
  revert k. induction l as [|x l IH]; intros k; cbn.
  - split; [intros [= <-]; constructor|by inversion_clear 1].
  - split.
    + intros H. simp_res. constructor; [done|]. by apply IH.
    + inversion_clear 1 as [|? ? ? k' Hx Hl]. rewrite Hx. cbn. apply IH in Hl. by rewrite Hl.
Qed.

Lemma rmap_total {A B} (f : A -> result B) l :
  Forall (fun x => exists y, f x = Ok y) l -> exists k, rmap f l = Ok k.
Proof.
  induction 1 as [|x l [y Hx] _ [k IH]]; cbn; [eauto|]. rewrite Hx. cbn. rewrite IH. cbn. eauto.
Qed.

(** An invariant of a loop whose body succeeds on every element. *)
Lemma mfor_total {S A} (f : A -> M S unit) (l : list A) (P : list A -> S -> Prop) s :
  P [] s ->
  (forall done x rest s, l = done ++ x :: rest -> P done s ->
    exists s', f x s = (s', Ok tt) /\ P (done ++ [x]) s') ->
  exists s', mfor f l s = (s', Ok tt) /\ P l s'.
Proof.
  intros H0 Hstep.
  enough (Hgen : forall rest done s, l = done ++ rest -> P done s ->
            exists s', mfor f rest s = (s', Ok tt) /\ P l s') by (by apply (Hgen l [])).
  clear s H0. induction rest as [|x rest IH]; intros done s Hl HP.
  - exists s. rewrite app_nil_r in Hl. by subst.
  - destruct (Hstep done x rest s Hl HP) as (s1 & Hf & HP1).
    destruct (IH (done ++ [x]) s1) as (s2 & Hm & HP2); [by rewrite <- app_assoc|done|].
    exists s2. split; [|done]. cbn. unfold mbind, M_bind. by rewrite Hf.
Qed.

(** * Byte copies

    [memcpy(dst + doff, src + soff, n)] on buffers known by their contents: an
    access outside either buffer is undefined. *)
Definition mem_slice {A} (l : list A) (off n : Z) : list A :=
  take (Z.to_nat n) (drop (Z.to_nat off) l).

Definition mem_copy {A} (dst : list A) (doff : Z) (src : list A) (soff n : Z) : result (list A) :=
  _ ← throw_if ((doff <? 0) || (soff <? 0) || (n <? 0) ||
                (vsize dst <? doff + n) || (vsize src <? soff + n)) Undefined;
  Ok (take (Z.to_nat doff) dst ++ mem_slice src soff n ++ drop (Z.to_nat (doff + n)) dst).

Lemma mem_copy_total {A} (dst : list A) doff src soff n :
  0 <= doff -> 0 <= soff -> 0 <= n -> doff + n <= vsize dst -> soff + n <= vsize src ->
  mem_copy dst doff src soff n =
    Ok (take (Z.to_nat doff) dst ++ mem_slice src soff n ++ drop (Z.to_nat (doff + n)) dst).
Proof.
  intros. unfold mem_copy.
  rewrite !(proj2 (Z.ltb_ge _ 0)), (proj2 (Z.ltb_ge (vsize dst) _)), (proj2 (Z.ltb_ge (vsize src) _))
    by lia. done.
Qed.

Lemma length_mem_slice {A} (l : list A) off n :
  0 <= off -> 0 <= n -> off + n <= vsize l -> length (mem_slice l off n) = Z.to_nat n.
Proof. intros. unfold mem_slice, vsize in *. rewrite length_take, length_drop. lia. Qed.

Section Copied.
Context {A : Type} (dst src : list A) (doff soff n : Z).
Hypothesis Hdoff : 0 <= doff.
Hypothesis Hsoff : 0 <= soff.
Hypothesis Hn : 0 <= n.
Hypothesis Hdst : doff + n <= vsize dst.
Hypothesis Hsrc : soff + n <= vsize src.

Let copied := take (Z.to_nat doff) dst ++ mem_slice src soff n ++ drop (Z.to_nat (doff + n)) dst.

Lemma vsize_copied : vsize copied = vsize dst.
Proof.
  unfold copied, vsize in *. rewrite !length_app, length_mem_slice, length_take, length_drop
    by (unfold vsize; lia). lia.
Qed.

(** The copied range reads as the source, *)
Lemma slice_copied_inside : mem_slice copied doff n = mem_slice src soff n.
Proof.
  unfold copied. unfold mem_slice at 1. rewrite drop_app_length'.
  - rewrite take_app_length'; [done|]. by rewrite length_mem_slice.
  - rewrite length_take. unfold vsize in *. lia.
Qed.

(** and a range on either side of it as before. *)
Lemma slice_copied_before off k :
  0 <= off -> 0 <= k -> off + k <= doff -> mem_slice copied off k = mem_slice dst off k.
Proof.
  intros. unfold copied, mem_slice at 1. apply list_eq. intros i.
  unfold mem_slice. destruct (decide (i < Z.to_nat k)%nat).
  - rewrite !lookup_take_lt by done. rewrite !lookup_drop.
    rewrite lookup_app_l by (rewrite length_take; unfold vsize in *; lia).
    by rewrite lookup_take_lt by lia.
  - by rewrite !lookup_take_ge by lia.
Qed.

Lemma slice_copied_after off k :
  0 <= k -> doff + n <= off -> mem_slice copied off k = mem_slice dst off k.
Proof.
  intros. enough (drop (Z.to_nat off) copied = drop (Z.to_nat off) dst) as Heq.
  { unfold mem_slice. by rewrite Heq. }
  replace (Z.to_nat off) with (Z.to_nat (doff + n) + (Z.to_nat off - Z.to_nat (doff + n)))%nat by lia.
  rewrite <- !drop_drop. f_equal. unfold copied. rewrite app_assoc, drop_app_length'; [done|].
  rewrite length_app, length_mem_slice, length_take by done. unfold vsize in *. lia.
Qed.
End Copied.

(** * Bit fields *)
Lemma lor_field a k b : 0 <= k -> 0 <= b < 2 ^ k -> Z.lor (a * 2 ^ k) b = a * 2 ^ k + b.
Proof.
  intros Hk Hb. rewrite <- Z.shiftl_mul_pow2 by done.
  assert (Hland : Z.land (Z.shiftl a k) b = 0).
  { apply Z.bits_inj'. intros n Hn. rewrite Z.land_spec, Z.bits_0.
    destruct (Z.lt_ge_cases n k).
    - by rewrite Z.shiftl_spec_low by done.
    - rewrite <- (Z.mod_small b (2 ^ k)) by done. rewrite Z.mod_pow2_bits_high by lia.
      apply andb_false_r. }
  by rewrite (Z.add_nocarry_lxor _ _ Hland), (Z.lxor_lor _ _ Hland).
Qed.


Lemma land_field x i k :
  0 <= i -> 0 <= k -> Z.land x (Z.shiftl (Z.ones k) i) = (x / 2 ^ i) mod 2 ^ k * 2 ^ i.
Proof.
  intros Hi Hk. rewrite <- Z.land_ones by done. rewrite <- Z.shiftl_mul_pow2, <- Z.shiftr_div_pow2 by done.
  apply Z.bits_inj'. intros n Hn. rewrite Z.land_spec.
  destruct (Z.lt_ge_cases n i).
  - rewrite !Z.shiftl_spec_low by done. apply andb_false_r.
  - rewrite !Z.shiftl_spec by done. rewrite Z.land_spec, Z.shiftr_spec by lia.
    by replace (n - i + i) with n by lia.
Qed.

(** * Methods of a component of the state *)
Definition mfst {S T A} (m : M S A) : M (S * T) A := fun st =>
  let '(s', r) := m (fst st) in ((s', snd st), r).
Definition msnd {S T A} (m : M T A) : M (S * T) A := fun st =>
  let '(t', r) := m (snd st) in ((fst st, t'), r).

Lemma vget_app_l {A} (l k : list A) i : i < vsize l -> (l ++ k).[i] = l.[i].
Proof.
  intros. unfold vget, vsize in *. destruct (Z.leb_spec 0 i); [|done]. apply lookup_app_l. lia.
Qed.

Lemma vget_app_r {A} (l k : list A) i : vsize l <= i -> (l ++ k).[i] = k.[i - vsize l].
Proof.
  intros. unfold vget, vsize in *. rewrite (proj2 (Z.leb_le 0 i)), (proj2 (Z.leb_le 0 (i - _))) by lia.
  rewrite lookup_app_r by lia. f_equal. lia.
Qed.

Lemma Forall_vset {A} (P : A -> Prop) l i x : Forall P l -> P x -> Forall P l.[i <- x].
Proof. intros. unfold vset. destruct (0 <=? i); [by apply Forall_insert|done]. Qed.

Lemma Forall_vget {A} (P : A -> Prop) l i x : Forall P l -> l.[i] = Some x -> P x.
Proof. intros HP H. unfold vget in H. destruct (0 <=? i); [|done]. by apply (Forall_lookup_1 _ _ _ _ HP H). Qed.

Lemma vget_ext {A} (l k : list A) : (forall i, l.[i] = k.[i]) -> l = k.
Proof.
  intros H. apply list_eq. intros i. specialize (H (Z.of_nat i)). unfold vget in H.
  by rewrite (proj2 (Z.leb_le 0 (Z.of_nat i))), !Nat2Z.id in H by lia.
Qed.

(** * Invariants of stateful code

    [keeps P m]: the state that [m] leaves, whether it returns or throws,
    satisfies [P] if the state it starts from does. *)
Definition keeps {S A} (P : S -> Prop) (m : M S A) : Prop := forall s, P s -> P (fst (m s)).

Section Keeps.
Context {S A B : Type} (P : S -> Prop).
Implicit Types (s : S) (f : A -> M S B).

Lemma after_get s (k : S -> M S B) : P (fst (k s s)) -> P (fst ((mget ≫= k) s)).
Proof. done. Qed.

Lemma after_put s s' (k : unit -> M S B) : P (fst (k tt s')) -> P (fst ((mput s' ≫= k) s)).
Proof. done. Qed.

Lemma after_throw_if s c e (k : unit -> M S B) :
  P s -> (c = false -> P (fst (k tt s))) -> P (fst ((mthrow_if c e ≫= k) s)).
Proof. intros. unfold mthrow_if, mlift, mbind, M_bind. destruct c; cbn; auto. Qed.

Lemma after_lift s (r : result A) f :
  P s -> (forall a, r = Ok a -> P (fst (f a s))) -> P (fst ((mlift r ≫= f) s)).
Proof. intros. unfold mlift, mbind, M_bind. destruct r; cbn; auto. Qed.

Lemma after_kept s (m : M S A) f :
  P s -> keeps P m -> (forall a s', P s' -> P (fst (f a s'))) -> P (fst ((m ≫= f) s)).
Proof.
  intros Hs Hm Hf. unfold mbind, M_bind. specialize (Hm s Hs). destruct (m s) as [s' [a|e]]; cbn in *; auto.
Qed.

(** [Q] is a second invariant of [m] that the continuation may use. *)
Lemma after_framed (Q : S -> Prop) s (m : M S A) f :
  P s -> Q s -> keeps P m -> keeps Q m ->
  (forall a s', P s' -> Q s' -> P (fst (f a s'))) -> P (fst ((m ≫= f) s)).
Proof.
  intros Hs Hq Hm Hmq Hf. unfold mbind, M_bind. specialize (Hm s Hs). specialize (Hmq s Hq).
  destruct (m s) as [s' [a|e]]; cbn in *; auto.
Qed.

Lemma keeps_mfor (g : A -> M S unit) l : (forall x, x ∈ l -> keeps P (g x)) -> keeps P (mfor g l).
Proof.
  intros Hg. induction l as [|x l IH]; intros s Hs; [done|]. cbn [mfor]. unfold mbind, M_bind.
  pose proof (Hg x ltac:(left) s Hs) as Hx. destruct (g x s) as [s' [u|e]]; [|done].
  apply IH; [|done]. intros y Hy. apply Hg. by right.
Qed.
End Keeps.

(** [step_M] runs one step of a computation whose final state is to satisfy a
    predicate. *)
Ltac step_M :=
  lazymatch goal with
  | |- _ (fst ((mget ≫= _) _)) => apply after_get; cbv beta
  | |- _ (fst ((mput _ ≫= _) _)) => apply after_put; cbv beta
  | |- _ (fst ((mthrow_if _ _ ≫= _) _)) => apply after_throw_if; [|intros ?; cbv beta]
  | |- _ (fst ((mlift _ ≫= _) _)) => apply after_lift; [|intros ? ?; cbv beta]
  end.

(** * Outcomes

    [wp m Q E s]: run on [s], [m] returns a value with [Q], or leaves by an
    error with [E]. *)
Definition wp {S A} (m : M S A) (Q : A -> S -> Prop) (E : error -> S -> Prop) (s : S) : Prop :=
  match m s with
  | (s', Ok a) => Q a s'
  | (s', Err e) => E e s'
  end.

Section Wp.
Context {S A B : Type}.
Implicit Types (m : M S A) (E : error -> S -> Prop) (s : S).

Lemma wp_bind m (f : A -> M S B) Q E s : wp m (fun a => wp (f a) Q E) E s -> wp (m ≫= f) Q E s.
Proof. unfold wp, mbind, M_bind. by destruct (m s) as [s' [a|e]]. Qed.

Lemma wp_conseq m (Q Q' : A -> S -> Prop) E E' s :
  wp m Q E s -> (forall a s', Q a s' -> Q' a s') -> (forall e s', E e s' -> E' e s') -> wp m Q' E' s.
Proof. unfold wp. destruct (m s) as [s' [a|e]]; auto. Qed.

Lemma wp_ret (a : A) Q E s : Q a s -> wp (mret a) Q E s.
Proof. done. Qed.

Lemma wp_throw e (Q : A -> S -> Prop) E s : E e s -> wp (mthrow e) Q E s.
Proof. done. Qed.

Lemma wp_lift (r : result A) Q E s :
  (forall a, r = Ok a -> Q a s) -> (forall e, r = Err e -> E e s) -> wp (mlift r) Q E s.
Proof. unfold wp, mlift. destruct r; auto. Qed.

Lemma wp_if (b : bool) (m1 m2 : M S A) Q E s :
  (b = true -> wp m1 Q E s) -> (b = false -> wp m2 Q E s) -> wp (if b then m1 else m2) Q E s.
Proof. destruct b; auto. Qed.
End Wp.

Lemma wp_get {S} Q E (s : S) : Q s s -> wp mget Q E s.
Proof. done. Qed.

Lemma wp_put {S} (s1 : S) Q E s : Q tt s1 -> wp (mput s1) Q E s.
Proof. done. Qed.

Lemma wp_modify {S} (f : S -> S) Q E s : Q tt (f s) -> wp (mmodify f) Q E s.
Proof. done. Qed.

Lemma wp_throw_if {S} c e Q E (s : S) : (c = false -> Q tt s) -> (c = true -> E e s) -> wp (mthrow_if c e) Q E s.
Proof. unfold wp, mthrow_if, mlift, throw_if. destruct c; auto. Qed.

(** A call whose outcome is known. *)
Lemma wp_run {S B} (m : M S B) (Q : B -> S -> Prop) E s s' a : m s = (s', Ok a) -> Q a s' -> wp m Q E s.
Proof. intros H Hq. unfold wp. by rewrite H. Qed.

(** A loop with an invariant over the elements left. *)
Lemma wp_for {S A} (f : A -> M S unit) (I : list A -> S -> Prop) E l (s : S) :
  I l s -> (forall x l' s, I (x :: l') s -> wp (f x) (fun _ => I l') E s) -> wp (mfor f l) (fun _ => I []) E s.
Proof.
  intros Hi Hf. revert s Hi. induction l as [|x l IH]; intros s Hi; [done|]. apply wp_bind.
  eapply wp_conseq; [by apply Hf| |done]. intros u s1 H1. by apply IH.
Qed.

(** A loop that keeps [J]. *)
Lemma wp_for_in {S A} (f : A -> M S unit) (J : S -> Prop) E l (s : S) :
  J s -> (forall x t, x ∈ l -> J t -> wp (f x) (fun _ => J) E t) -> wp (mfor f l) (fun _ => J) E s.
Proof.
  revert s. induction l as [|x l IH]; intros s Hj Hf; [done|]. apply wp_bind.
  eapply wp_conseq; [apply Hf; [by left|done]| |done]. intros u t Ht. apply IH; [done|]. intros y t' Hy. apply Hf. by right.
Qed.

(** A loop over a range, with an invariant on the position; and one downwards. *)
Lemma wp_for_range {S} (f : Z -> M S unit) (I : Z -> S -> Prop) E lo n (s : S) :
  0 <= n -> I lo s -> (forall p t, lo <= p < lo + n -> I p t -> wp (f p) (fun _ => I (p + 1)) E t) ->
  wp (mfor f (seqZ lo n)) (fun _ => I (lo + n)) E s.
Proof.
  intros Hn. rewrite <- (Z2Nat.id n Hn). generalize (Z.to_nat n) as d. clear n Hn. intros d. revert lo s.
  induction d as [|d IH]; intros lo s Hi Hf; [by rewrite Z.add_0_r|]. rewrite seqZ_cons by lia. apply wp_bind.
  eapply wp_conseq; [apply Hf; [lia|done]| |done]. intros u t Ht. replace (Z.pred (Z.of_nat (Datatypes.S d))) with (Z.of_nat d) by lia.
  replace (lo + Z.of_nat (Datatypes.S d)) with (Z.succ lo + Z.of_nat d) by lia. apply IH; [done|]. intros p t' Hp. apply Hf. lia.
Qed.

Lemma wp_for_down {S} (f : Z -> M S unit) (I : Z -> S -> Prop) E lo n (s : S) :
  0 <= n -> I (lo + n) s -> (forall p t, lo <= p < lo + n -> I (p + 1) t -> wp (f p) (fun _ => I p) E t) ->
  wp (mfor f (rev (seqZ lo n))) (fun _ => I lo) E s.
Proof.
  intros Hn. rewrite <- (Z2Nat.id n Hn). generalize (Z.to_nat n) as d. clear n Hn. intros d. revert s.
  induction d as [|d IH]; intros s Hi Hf; [by rewrite Z.add_0_r in Hi|]. rewrite Nat2Z.inj_succ in *. unfold Z.succ in *.
  rewrite seqZ_app, rev_app_distr by lia. change (rev (seqZ (lo + Z.of_nat d) 1)) with [lo + Z.of_nat d]. apply wp_bind.
  eapply wp_conseq; [apply Hf; [lia|]| |done]; [by rewrite <- Z.add_assoc|]. intros u t Ht. apply IH; [done|]. intros p t' Hp. apply Hf. lia.
Qed.

(** Opens the sequential structure of a goal. *)
Ltac wp_step :=
  lazymatch goal with
  | |- wp (_ ≫= _) _ _ _ => apply wp_bind; cbv beta
  | |- wp (mret _) _ _ _ => apply wp_ret
  | |- wp mget _ _ _ => apply wp_get; cbv beta
  | |- wp (mput _) _ _ _ => apply wp_put; cbv beta
  | |- wp (mmodify _) _ _ _ => apply wp_modify; cbv beta
  | |- wp (mthrow _) _ _ _ => apply wp_throw
  | |- wp (mlift _) _ _ _ => apply wp_lift; [intros ? ?|intros ? ?]
  | |- wp (mthrow_if _ _) _ _ _ => apply wp_throw_if; [let H := fresh "Hguard" in intros H|let H := fresh "Hguard" in intros H]
  end.
