(* ===== verification/Tensor.v ===== *)
(** Tensor views (src/src/core/dtype.cpp, src/src/core/tensor.h and
    src/src/core/tensor.cpp): element types and their sizes, the checked
    construction of contiguous strides, and the view, slice and permute
    operations, with the address an index denotes before and after them. *)

From S2P Require Import Prelude.

(** * Element types *)
Inductive DType : Type :=
  | BF16 | FP32 | I32 | U8 | I64 | I8 | FP16 | FP8_E4M3FN.

#[global] Instance DType_eq_dec : EqDecision DType.
Proof. solve_decision. Defined.

Definition dtype_size (d : DType) : Z :=
  match d with
  | BF16 => 2
  | FP32 => 4
  | I32 => 4
  | U8 => 1
  | I64 => 8
  | I8 => 1
  | FP16 => 2
  | FP8_E4M3FN => 1
  end.

(** * The tensor record

    [data] is an address, [0] for the null pointer; [ne] and [nb] are the
    extents and byte strides of the four dimensions, innermost first. *)
Record Tensor : Type := mkTensor {
  t_data : Z;
  t_dtype : DType;
  t_ne : list Z;
  t_nb : list Z;
}.

(** * Checked construction *)
Definition checked_mul_i64 (a b : Z) : result Z :=
  _ ← throw_if ((a <? 0) || (b <? 0)) InvalidArgument;
  _ ← throw_if (negb (b =? 0) && (I64_MAX / b <? a)) OverflowError;
  Ok (a * b).

Definition normalize_shape (shape : list Z) : result (list Z) :=
  _ ← throw_if ((vsize shape =? 0) || (4 <? vsize shape)) InvalidArgument;
  st ← rfor (fun '(out, i) dim =>
               _ ← throw_if (dim <=? 0) InvalidArgument;
               Ok (out.[i <- dim], i + 1))
            ([1; 1; 1; 1], 0) shape;
  Ok (fst st).

Definition shape_numel (shape : list Z) : result Z :=
  rfor (fun total dim =>
          _ ← throw_if (dim <=? 0) InvalidArgument;
          checked_mul_i64 total dim) 1 shape.

Definition set_contiguous_strides (t : Tensor) : result Tensor :=
  let stride := dtype_size (t_dtype t) in
  st ← rfor (fun '(stride, nb) i =>
               d ← vat (t_ne t) (i - 1);
               stride' ← checked_mul_i64 stride d;
               Ok (stride', nb.[i <- stride']))
            (stride, (t_nb t).[0 <- stride]) [1; 2; 3];
  Ok (mkTensor (t_data t) (t_dtype t) (t_ne t) (snd st)).

(** The constructor [Tensor(data, dtype, shape)]. *)
Definition make_tensor (data : Z) (dtype : DType) (shape : list Z) : result Tensor :=
  normalized ← normalize_shape shape;
  set_contiguous_strides (mkTensor data dtype normalized [0; 0; 0; 0]).

(** * Queries *)
Definition numel (t : Tensor) : result Z := shape_numel (t_ne t).

Definition bytes (t : Tensor) : result Z :=
  elements ← numel t;
  let elem_size := dtype_size (t_dtype t) in
  _ ← throw_if ((elements <? 0) || (SIZE_MAX <? elements)) OverflowError;
  _ ← throw_if (negb (elem_size =? 0) && (SIZE_MAX / elem_size <? elements)) OverflowError;
  Ok (elements * elem_size).

(** One iteration of the loop of [is_contiguous]: [inl b] returns [b] from the
    function, [inr expected] goes on with the next dimension. The
    [catch (const std::overflow_error&)] turns an overflow into [false] and
    lets any other exception escape. *)
Definition is_contiguous_step (t : Tensor) (i expected : Z) : result (bool + Z) :=
  n ← vat (t_ne t) i;
  b ← vat (t_nb t) i;
  if n <=? 0 then Ok (inl false)
  else if negb (n =? 1) && negb (b =? expected) then Ok (inl false)
  else if (i <? 3) && negb (n =? 1) then
    match checked_mul_i64 expected n with
    | Ok e => Ok (inr e)
    | Err OverflowError => Ok (inl false)
    | Err e => Err e
    end
  else Ok (inr expected).

Fixpoint is_contiguous_loop (t : Tensor) (expected : Z) (dims : list Z) : result bool :=
  match dims with
  | [] => Ok true
  | i :: dims' =>
      r ← is_contiguous_step t i expected;
      match r with
      | inl b => Ok b
      | inr e => is_contiguous_loop t e dims'
      end
  end.

Definition is_contiguous (t : Tensor) : result bool :=
  is_contiguous_loop t (dtype_size (t_dtype t)) [0; 1; 2; 3].

(** * Views *)
Definition view (t : Tensor) (shape : list Z) : result Tensor :=
  c ← is_contiguous t;
  _ ← throw_if (negb c) InvalidArgument;
  normalized ← normalize_shape shape;
  n ← shape_numel normalized;
  m ← numel t;
  _ ← throw_if (negb (n =? m)) InvalidArgument;
  make_tensor (t_data t) (t_dtype t) shape.

Definition reshape (t : Tensor) (shape : list Z) : result Tensor := view t shape.

Definition slice (t : Tensor) (dim start len : Z) : result Tensor :=
  _ ← throw_if ((dim <? 0) || (4 <=? dim)) InvalidArgument;
  n ← vat (t_ne t) dim;
  _ ← throw_if ((start <? 0) || (len <=? 0) || (n <? start) || (n - start <? len))
        InvalidArgument;
  stride ← vat (t_nb t) dim;
  offset ← checked_mul_i64 start stride;
  let data := if t_data t =? 0 then t_data t else t_data t + offset in
  Ok (mkTensor data (t_dtype t) ((t_ne t).[dim <- len]) (t_nb t)).

Definition permute_dims (order : list Z) : result (list Z) :=
  st ← rfor (fun '(seen, dims, i) dim =>
               _ ← throw_if ((dim <? 0) || (4 <=? dim)) InvalidArgument;
               s ← vat seen dim;
               _ ← throw_if s InvalidArgument;
               Ok (seen.[dim <- true], dims.[i <- dim], i + 1))
            ([false; false; false; false], [0; 1; 2; 3], 0) order;
  Ok (snd (fst st)).

Definition permute (t : Tensor) (order : list Z) : result Tensor :=
  _ ← throw_if (negb (vsize order =? 4)) InvalidArgument;
  dims ← permute_dims order;
  nes ← rfor (fun acc d => n ← vat (t_ne t) d; Ok (acc ++ [n])) [] dims;
  nbs ← rfor (fun acc d => b ← vat (t_nb t) d; Ok (acc ++ [b])) [] dims;
  Ok (mkTensor (t_data t) (t_dtype t) nes nbs).

(** * What a tensor denotes

    The address of the element with index [idx], and the indices a shape
    admits. These are specification notions: kernels use them, the host code
    above only builds the records. *)
Definition element_address (t : Tensor) (idx : list Z) : Z :=
  t_data t + zsum (zip_with Z.mul idx (t_nb t)).

Definition valid_index (t : Tensor) (idx : list Z) : Prop :=
  Forall2 (fun i n => 0 <= i < n) idx (t_ne t).

(** Four positive extents, four strides. *)
Definition tensor_wf (t : Tensor) : Prop :=
  length (t_ne t) = 4%nat /\ length (t_nb t) = 4%nat /\ Forall (fun n => 0 < n) (t_ne t).

(** * Lemmas *)
Lemma dtype_size_pos d : 0 < dtype_size d <= 8.
Proof. destruct d; cbn; lia. Qed.

Lemma checked_mul_i64_Ok a b c :
  checked_mul_i64 a b = Ok c <-> 0 <= a /\ 0 <= b /\ a * b <= I64_MAX /\ c = a * b.
Proof.
  unfold checked_mul_i64, I64_MAX. split.
  - intros H. simp_res. simp_bool. repeat split; try lia.
    destruct (Z.eqb_spec b 0) as [->|]; [lia|]. cbn in *.
    assert (a <= 9223372036854775807 / b) by lia.
    pose proof (Z.mul_div_le 9223372036854775807 b). nia.
  - intros (Ha & Hb & Hab & ->). unfold throw_if.
    destruct (Z.ltb_spec a 0), (Z.ltb_spec b 0); try lia. cbn.
    destruct (Z.eqb_spec b 0) as [->|]; [done|]. cbn.
    destruct (Z.ltb_spec (9223372036854775807 / b) a) as [Hlt|]; [|done].
    enough (a <= 9223372036854775807 / b) by lia. apply Z.div_le_lower_bound; lia.
Qed.

(** Destruct a list of known small length into its elements. *)
Ltac destruct_length l :=
  repeat (let x := fresh "n" in destruct l as [|x l]; cbn in *; try discriminate; try lia).

Lemma normalize_shape_Ok shape out :
  normalize_shape shape = Ok out ->
  out = shape ++ replicate (4 - length shape) 1 /\ length out = 4%nat /\
  Forall (fun n => 0 < n) out.
Proof.
  unfold normalize_shape. intros H. simp_res. simp_bool.
  unfold vsize in *. destruct shape as [|a [|b [|c [|d [|? ?]]]]]; try lia;
    cbn [length app replicate Nat.sub] in *; try lia; cbn in *;
    repeat (match goal with
            | H : context [throw_if (?x <=? 0) _] |- _ =>
                destruct (Z.leb_spec x 0); cbn in H; try discriminate H
            end);
    simp_res; cbn; (lazymatch goal with |- ?x = ?y /\ _ => change x with y end);
    (split; [done|split; [done|]]); repeat (apply Forall_cons_2; [lia|]); apply Forall_nil_2.
Qed.

(** The strides of a freshly constructed tensor. *)
Definition contiguous_strides (size : Z) (ne : list Z) : list Z :=
  match ne with
  | [n0; n1; n2; n3] => [size; size * n0; size * n0 * n1; size * n0 * n1 * n2]
  | _ => []
  end.

Lemma set_contiguous_strides_Ok t t' :
  length (t_ne t) = 4%nat -> length (t_nb t) = 4%nat -> set_contiguous_strides t = Ok t' ->
  t' = mkTensor (t_data t) (t_dtype t) (t_ne t)
         (contiguous_strides (dtype_size (t_dtype t)) (t_ne t)) /\
  Forall (fun b => 0 <= b <= I64_MAX) (t_nb t').
Proof.
  destruct t as [data dt ne nb]. cbn. intros Hne Hnb.
  destruct ne as [|n0 [|n1 [|n2 [|n3 [|? ?]]]]]; try discriminate.
  destruct nb as [|b0 [|b1 [|b2 [|b3 [|? ?]]]]]; try discriminate.
  unfold set_contiguous_strides. cbn. intros H. simp_res.
  repeat match goal with
  | x : (_ * _)%type |- _ => destruct x
  | H : checked_mul_i64 _ _ = Ok _ |- _ => apply checked_mul_i64_Ok in H as (? & ? & ? & ->)
  | H : _.[_] = Some _ |- _ => injection H as <-
  | H : (_ ≫= _) = Ok _ |- _ => apply bind_Ok in H as (? & ? & ?)
  | H : rfor _ _ _ = Ok _ |- _ => cbn in H
  | H : Ok _ = Ok _ |- _ => injection H as H; subst
  end.
  pose proof (dtype_size_pos dt). split; [done|]. unfold I64_MAX in *.
  lazymatch goal with |- Forall ?P (t_nb (mkTensor _ _ ?ne _)) =>
    change (Forall P (contiguous_strides (dtype_size dt) ne)) end.
  unfold contiguous_strides. repeat (apply Forall_cons_2; [lia|]). apply Forall_nil_2.
Qed.

Lemma make_tensor_Ok data dt shape t :
  make_tensor data dt shape = Ok t ->
  tensor_wf t /\ t_data t = data /\ t_dtype t = dt /\
  t_ne t = shape ++ replicate (4 - length shape) 1 /\
  t_nb t = contiguous_strides (dtype_size dt) (t_ne t) /\
  Forall (fun b => 0 <= b <= I64_MAX) (t_nb t).
Proof.
  unfold make_tensor. intros H. simp_res.
  match goal with H : normalize_shape _ = _ |- _ =>
    apply normalize_shape_Ok in H as (-> & Hlen & Hpos) end.
  match goal with H : set_contiguous_strides _ = _ |- _ =>
    apply set_contiguous_strides_Ok in H as [-> Hb]; [|done|done] end.
  cbn in *. repeat split; try done.
  revert Hlen. generalize (shape ++ replicate (4 - length shape) 1). intros ne Hne.
  destruct ne as [|? [|? [|? [|? [|? ?]]]]]; done.
Qed.

(** One dimension of the contiguity loop: a stride that matches goes on with
    the stride of the next dimension. *)
Lemma is_contiguous_step_match t i n b e :
  (t_ne t).[i] = Some n -> (t_nb t).[i] = Some b ->
  0 < n -> 0 <= e -> (n <> 1 -> b = e) -> (i < 3 -> e * n <= I64_MAX) ->
  is_contiguous_step t i e = Ok (inr (if i <? 3 then e * n else e)).
Proof.
  intros Hn Hb Hpos He Hm Hfit. unfold is_contiguous_step, vat. rewrite Hn, Hb. cbn.
  destruct (Z.leb_spec n 0); [lia|].
  destruct (Z.eqb_spec n 1) as [->|Hne1]; cbn.
  - rewrite andb_false_r. case_match; do 2 f_equal; lia.
  - rewrite (proj2 (Z.eqb_eq b e)) by auto. cbn. destruct (Z.ltb_spec i 3); [|done]. cbn.
    rewrite (proj2 (checked_mul_i64_Ok e n (e * n))) by (repeat split; auto; lia). done.
Qed.

Lemma is_contiguous_fresh t :
  tensor_wf t -> t_nb t = contiguous_strides (dtype_size (t_dtype t)) (t_ne t) ->
  Forall (fun b => 0 <= b <= I64_MAX) (t_nb t) -> is_contiguous t = Ok true.
Proof.
  intros (Hne & _ & Hpos) Hnb Hb. unfold is_contiguous.
  remember (t_ne t) as ne eqn:Ene. symmetry in Ene.
  destruct ne as [|n0 [|n1 [|n2 [|n3 [|? ?]]]]]; try discriminate.
  rewrite Hnb in Hb. cbn in Hb, Hnb. pose proof (dtype_size_pos (t_dtype t)).
  simp_forall.
  cbn [is_contiguous_loop].
  assert (Hstep : forall i n b e, [n0; n1; n2; n3].[i] = Some n ->
            (t_nb t).[i] = Some b -> 0 < n -> 0 <= e -> b = e -> (i < 3 -> e * n <= I64_MAX) ->
            is_contiguous_step t i e = Ok (inr (if i <? 3 then e * n else e))).
  { intros. apply is_contiguous_step_match with (b := b); try rewrite Ene; auto. }
  rewrite Hnb in Hstep.
  rewrite (Hstep 0 n0 _ _ eq_refl eq_refl) by (auto; lia). cbn [mbind result_bind Z.ltb Z.compare Pos.compare Pos.compare_cont].
  rewrite (Hstep 1 n1 _ _ eq_refl eq_refl) by (auto; lia). cbn [mbind result_bind Z.ltb Z.compare Pos.compare Pos.compare_cont].
  rewrite (Hstep 2 n2 _ _ eq_refl eq_refl) by (auto; lia). cbn [mbind result_bind Z.ltb Z.compare Pos.compare Pos.compare_cont].
  rewrite (Hstep 3 n3 _ _ eq_refl eq_refl) by (auto; lia). done.
Qed.

(** Every element of a constructed tensor lies in the bytes the constructor
    accounts for, and two elements never share a byte. *)
Lemma mixed_radix_bounds n0 n1 n2 n3 i0 i1 i2 i3 :
  0 <= i0 < n0 -> 0 <= i1 < n1 -> 0 <= i2 < n2 -> 0 <= i3 < n3 ->
  0 <= i0 + n0 * (i1 + n1 * (i2 + n2 * i3)) < n0 * (n1 * (n2 * n3)).
Proof.
  intros. assert (0 <= i2 + n2 * i3 < n2 * n3) by nia.
  assert (0 <= i1 + n1 * (i2 + n2 * i3) < n1 * (n2 * n3)) by nia. nia.
Qed.

Lemma mixed_radix_inj n i j k l :
  0 <= i < n -> 0 <= k < n -> i + n * j = k + n * l -> i = k /\ j = l.
Proof. intros. assert (j = l) by nia. split; [nia|done]. Qed.

Lemma element_address_fresh t i0 i1 i2 i3 n0 n1 n2 n3 :
  t_ne t = [n0; n1; n2; n3] ->
  t_nb t = contiguous_strides (dtype_size (t_dtype t)) (t_ne t) ->
  element_address t [i0; i1; i2; i3] =
    t_data t + dtype_size (t_dtype t) * (i0 + n0 * (i1 + n1 * (i2 + n2 * i3))).
Proof. intros Hne Hnb. unfold element_address. rewrite Hnb, Hne. unfold zsum. cbn. ring. Qed.

Lemma shape_numel_Ok shape n :
  shape_numel shape = Ok n -> n = foldl Z.mul 1 shape /\ Forall (fun d => 0 < d) shape.
Proof.
  unfold shape_numel. generalize 1. induction shape as [|d shape IH]; intros a H; cbn in *.
  - simp_res. auto.
  - simp_res. simp_bool.
    match goal with H : checked_mul_i64 _ _ = _ |- _ =>
      apply checked_mul_i64_Ok in H as (_ & _ & _ & ->) end.
    match goal with H : rfor _ _ _ = Ok _ |- _ => apply IH in H as [-> ?] end.
    split; [done|]. constructor; [lia|done].
Qed.

Lemma bytes_Ok t b :
  bytes t = Ok b -> b = foldl Z.mul 1 (t_ne t) * dtype_size (t_dtype t) /\ 0 <= b <= SIZE_MAX.
Proof.
  unfold bytes, numel. intros H. simp_res. simp_bool.
  match goal with H : shape_numel _ = _ |- _ => apply shape_numel_Ok in H as [-> _] end.
  pose proof (dtype_size_pos (t_dtype t)). split; [done|].
  match goal with H : negb _ && _ = false |- _ =>
    rewrite (proj2 (Z.eqb_neq _ 0)) in H by lia; cbn in H; apply Z.ltb_ge in H end.
  unfold SIZE_MAX, U64_MAX in *.
  pose proof (Z.mul_div_le 18446744073709551615 (dtype_size (t_dtype t))). nia.
Qed.

(** * Properties *)

Lemma valid_index_4 t idx :
  tensor_wf t -> valid_index t idx ->
  exists i0 i1 i2 i3 n0 n1 n2 n3, idx = [i0; i1; i2; i3] /\ t_ne t = [n0; n1; n2; n3] /\
    0 <= i0 < n0 /\ 0 <= i1 < n1 /\ 0 <= i2 < n2 /\ 0 <= i3 < n3.
Proof.
  unfold valid_index. intros (Hne & _ & _). destruct (t_ne t) as [|n0 [|n1 [|n2 [|n3 [|? ?]]]]];
    try discriminate. intros H.
  repeat (apply Forall2_cons_inv_r in H as (? & ? & ? & H & ->)).
  apply Forall2_nil_inv_r in H as ->. by do 8 eexists.
Qed.

(** A tensor built by the constructor is contiguous, all of its elements
    lie inside the [bytes()] it reports from its data pointer on, and two
    distinct indices denote byte ranges that do not overlap. *)
Theorem make_tensor_elements_disjoint data dt shape t b idx idx' :
  make_tensor data dt shape = Ok t -> bytes t = Ok b ->
  valid_index t idx -> valid_index t idx' ->
  is_contiguous t = Ok true /\
  data <= element_address t idx /\ element_address t idx + dtype_size dt <= data + b /\
  (idx <> idx' ->
   dtype_size dt <= Z.abs (element_address t idx - element_address t idx')).
Proof.
  intros Hmk Hbytes Hv Hv'. apply make_tensor_Ok in Hmk as (Hwf & Hd & Hdt & _ & Hnb & Hbb).
  rewrite <- Hdt in Hnb. split; [by apply is_contiguous_fresh|].
  apply bytes_Ok in Hbytes as [-> _].
  destruct (valid_index_4 _ _ Hwf Hv) as (i0&i1&i2&i3&n0&n1&n2&n3&->&Hne&?&?&?&?).
  destruct (valid_index_4 _ _ Hwf Hv') as (j0&j1&j2&j3&?&?&?&?&->&Hne'&?&?&?&?).
  rewrite Hne in Hne'. injection Hne' as <- <- <- <-.
  rewrite !(element_address_fresh t _ _ _ _ _ _ _ _ Hne Hnb), Hd, Hdt, Hne.
  cbn [foldl]. pose proof (dtype_size_pos dt).
  pose proof (mixed_radix_bounds n0 n1 n2 n3 i0 i1 i2 i3).
  set (a := i0 + n0 * _) in *. set (c := j0 + n0 * _).
  repeat split; [nia|nia|]. intros Hneq.
  assert (a <> c); [|nia]. intros Heq. apply Hneq.
  apply mixed_radix_inj in Heq as [<- Heq]; [|lia|lia].
  apply mixed_radix_inj in Heq as [<- Heq]; [|lia|lia].
  apply mixed_radix_inj in Heq as [<- <-]; [done|lia|lia].
Qed.

Definition witness_tensor : Tensor := mkTensor 4096 BF16 [2; 3; 1; 1] [2; 4; 12; 12].

Lemma make_tensor_elements_disjoint_witness :
  make_tensor 4096 BF16 [2; 3] = Ok witness_tensor /\
  dtype_size BF16 <= Z.abs (element_address witness_tensor [0; 1; 0; 0]
                            - element_address witness_tensor [1; 2; 0; 0]).
Proof.
  split; [reflexivity|].
  apply (make_tensor_elements_disjoint 4096 BF16 [2; 3] witness_tensor 12).
  - reflexivity.
  - reflexivity.
  - unfold valid_index; cbn; repeat (apply Forall2_cons_2; [lia|]); apply Forall2_nil_2.
  - unfold valid_index; cbn; repeat (apply Forall2_cons_2; [lia|]); apply Forall2_nil_2.
  - discriminate.
Defined.

(** A view keeps the bytes and the data pointer and is contiguous again. *)
Lemma view_Ok t shape v :
  view t shape = Ok v ->
  t_data v = t_data t /\ t_dtype v = t_dtype t /\ numel v = numel t /\ is_contiguous v = Ok true.
Proof.
  unfold view. intros H. simp_res. simp_bool. subst.
  match goal with H : normalize_shape _ = Ok _ |- _ =>
    pose proof H as Hn; apply normalize_shape_Ok in H as (-> & ? & ?) end.
  match goal with H : make_tensor _ _ _ = Ok _ |- _ => apply make_tensor_Ok in H
    as (Hwf & Hd & Hdt & Hne & Hnb & Hb) end.
  repeat split; try done.
  - unfold numel at 1. rewrite Hne. congruence.
  - apply is_contiguous_fresh; try done. by rewrite Hdt.
Qed.

(** The index of the parent that index [idx] of a slice denotes. *)
Definition shift_index (dim start : Z) (idx : list Z) : list Z :=
  match idx.[dim] with
  | Some i => idx.[dim <- i + start]
  | None => idx
  end.

Lemma shift_index_4 start x y z w :
  shift_index 0 start [x; y; z; w] = [x + start; y; z; w] /\
  shift_index 1 start [x; y; z; w] = [x; y + start; z; w] /\
  shift_index 2 start [x; y; z; w] = [x; y; z + start; w] /\
  shift_index 3 start [x; y; z; w] = [x; y; z; w + start].
Proof. done. Qed.

(** Element [idx] of [slice(dim, start, len)] of a tensor with data is
    the element of the parent shifted by [start] along [dim], an index the
    parent admits. *)
Theorem slice_denotes_parent_element t dim start len s idx :
  tensor_wf t -> t_data t <> 0 -> slice t dim start len = Ok s -> valid_index s idx ->
  valid_index t (shift_index dim start idx) /\
  element_address s idx = element_address t (shift_index dim start idx) /\
  tensor_wf s.
Proof.
  intros Hwf Hd H Hv. unfold slice in H. simp_res. simp_bool.
  match goal with H : checked_mul_i64 _ _ = Ok _ |- _ =>
    apply checked_mul_i64_Ok in H as (_ & _ & _ & ->) end.
  destruct Hwf as (Hne & Hnb & Hpos). unfold valid_index, element_address, tensor_wf in *.
  destruct t as [data dt ne nb]; cbn in *.
  rewrite (proj2 (Z.eqb_neq data 0)) by done.
  destruct ne as [|n0 [|n1 [|n2 [|n3 [|? ?]]]]]; try discriminate.
  destruct nb as [|b0 [|b1 [|b2 [|b3 [|? ?]]]]]; try discriminate.
  assert (dim = 0 \/ dim = 1 \/ dim = 2 \/ dim = 3) as Hdim by lia.
  destruct Hdim as [->|[->|[->| ->]]]; simp_forall;
    repeat match goal with H : _.[_] = Some _ |- _ => injection H as <- end;
    lazymatch type of Hv with Forall2 ?P _ ?l => let l' := eval vm_compute in l in
      change (Forall2 P idx l') in Hv; change l with l' end;
    repeat (apply Forall2_cons_inv_r in Hv as (? & ? & ? & Hv & ->));
    apply Forall2_nil_inv_r in Hv as ->;
    lazymatch goal with |- context [shift_index _ ?st [?x; ?y; ?z; ?w]] =>
      destruct (shift_index_4 st x y z w) as (Es0 & Es1 & Es2 & Es3) end;
    rewrite ?Es0, ?Es1, ?Es2, ?Es3;
    (split; [repeat (apply Forall2_cons_2; [lia|]); apply Forall2_nil_2|]);
    (split; [unfold zsum; cbn -[Z.mul Z.add]; lia|]);
    (split; [done|]); (split; [done|]); simp_forall; lia.
Qed.

Lemma slice_denotes_parent_element_witness :
  element_address (mkTensor 4100 BF16 [2; 2; 1; 1] [2; 4; 12; 12]) [1; 1; 0; 0] =
  element_address witness_tensor [1; 2; 0; 0].
Proof.
  apply (slice_denotes_parent_element witness_tensor 1 1 2
           (mkTensor 4100 BF16 [2; 2; 1; 1] [2; 4; 12; 12]) [1; 1; 0; 0]).
  - unfold tensor_wf; cbn; repeat split; simp_forall; lia.
  - discriminate.
  - reflexivity.
  - unfold valid_index; cbn; repeat (apply Forall2_cons_2; [lia|]); apply Forall2_nil_2.
Defined.

(** [gather l order] reads the positions [order] of [l], in order. *)
Definition gather (l order : list Z) : result (list Z) :=
  rfor (fun acc d => n ← vat l d; Ok (acc ++ [n])) [] order.

(** The 256 candidate orders, for a check by evaluation. *)
Definition all_orders : list (list Z) :=
  let r := [0; 1; 2; 3] in
  a ← r; b ← r; c ← r; d ← r; [[a; b; c; d]].

(** [inverse_order o] has position [o[j]] mapped back to [j]. *)
Definition inverse_order (o : list Z) : list Z :=
  foldl (fun acc '(j, d) => acc.[d <- j]) [0; 0; 0; 0] (zip [0; 1; 2; 3] o).

Definition order_check (o : list Z) : bool :=
  match permute_dims o, permute_dims (inverse_order o) with
  | Ok d, Ok d' =>
      bool_decide (d = o /\ d' = inverse_order o /\ o ≡ₚ [0; 1; 2; 3] /\
                   gather o (inverse_order o) = Ok [0; 1; 2; 3] /\
                   gather (inverse_order o) o = Ok [0; 1; 2; 3])
  | Ok _, Err _ => false
  | Err _, _ => true
  end.

Lemma all_orders_check : forallb order_check all_orders = true.
Proof. vm_compute. reflexivity. Qed.

Lemma elem_of_0123 x : 0 <= x < 4 -> x ∈ [0; 1; 2; 3].
Proof. intros. rewrite !elem_of_cons. lia. Qed.

Lemma permute_dims_Ok order dims :
  vsize order = 4 -> permute_dims order = Ok dims ->
  dims = order /\ order ∈ all_orders /\ order ≡ₚ [0; 1; 2; 3] /\
  permute_dims (inverse_order order) = Ok (inverse_order order) /\
  gather (inverse_order order) order = Ok [0; 1; 2; 3].
Proof.
  intros Hlen H.
  assert (Hin : order ∈ all_orders).
  { unfold vsize in Hlen.
    destruct order as [|a [|b [|c [|d [|? ?]]]]]; try (cbn in *; lia).
    unfold permute_dims in H. cbn [rfor] in H. simp_res.
    repeat match goal with
    | x : (_ * _)%type |- _ => destruct x
    end. simp_res. simp_bool. unfold all_orders.
    repeat setoid_rewrite list_elem_of_bind.
    exists a; split; [|apply elem_of_0123; lia]. exists b; split; [|apply elem_of_0123; lia].
    exists c; split; [|apply elem_of_0123; lia]. exists d; split; [|apply elem_of_0123; lia].
    by apply list_elem_of_singleton. }
  pose proof (proj1 (forallb_forall _ _) all_orders_check order
                    (proj1 (list_elem_of_In _ _) Hin)) as Hck.
  unfold order_check in Hck. rewrite H in Hck.
  destruct (permute_dims (inverse_order order)); [|discriminate].
  apply bool_decide_eq_true in Hck as (-> & -> & ? & ? & ?). done.
Qed.

(** The orders [permute] accepts. *)
Definition accepted_orders : list (list Z) :=
  Eval vm_compute in filter (fun o => o ≡ₚ [0; 1; 2; 3]) all_orders.

Lemma accepted_orders_spec o : o ∈ all_orders -> o ≡ₚ [0; 1; 2; 3] -> o ∈ accepted_orders.
Proof.
  intros Hin Hp. change accepted_orders with (filter (fun o => o ≡ₚ [0; 1; 2; 3]) all_orders).
  by apply list_elem_of_filter.
Qed.

(** Evaluate the [gather]s of explicit lists in the goal. *)
Ltac eval_gather :=
  repeat match goal with
  | |- context [gather ?l ?o] =>
      let r := eval vm_compute in (gather l o) in change (gather l o) with r
  end.

Lemma permute_unfold t order dims :
  vsize order = 4 -> permute_dims order = Ok dims ->
  permute t order = (nes ← gather (t_ne t) dims; nbs ← gather (t_nb t) dims;
                     Ok (mkTensor (t_data t) (t_dtype t) nes nbs)).
Proof. intros Hlen Hd. unfold permute. rewrite Hlen, Hd. done. Qed.

Lemma permute_accepted t order p :
  permute t order = Ok p -> order ∈ accepted_orders /\ permute_dims order = Ok order /\
  permute_dims (inverse_order order) = Ok (inverse_order order) /\ vsize order = 4.
Proof.
  intros H. assert (Hlen : vsize order = 4).
  { unfold permute in H. simp_res. by simp_bool. }
  destruct (permute_dims order) as [dims|] eqn:Hd.
  - destruct (permute_dims_Ok _ _ Hlen Hd) as (-> & ? & ? & ? & ?).
    eauto using accepted_orders_spec.
  - unfold permute in H. rewrite Hlen, Hd in H. discriminate H.
Qed.

(** [permute] accepts exactly permutations of the four dimensions; the
    element at the permuted index is the element of the original, and
    permuting by the inverse order gives the original tensor back. *)
Theorem permute_roundtrip t order p idx :
  tensor_wf t -> permute t order = Ok p -> valid_index t idx ->
  order ≡ₚ [0; 1; 2; 3] /\
  permute p (inverse_order order) = Ok t /\
  exists idx', gather idx order = Ok idx' /\ valid_index p idx' /\
    element_address p idx' = element_address t idx.
Proof.
  intros Hwf Hp Hv. destruct (permute_accepted _ _ _ Hp) as (Hin & Hd & Hd' & Hlen).
  destruct (permute_dims_Ok _ _ Hlen Hd) as (_ & _ & Hperm & _). split; [done|].
  rewrite (permute_unfold _ _ _ Hlen Hd) in Hp.
  destruct (valid_index_4 _ _ Hwf Hv) as (i0&i1&i2&i3&n0&n1&n2&n3&->&Hne&?&?&?&?).
  destruct Hwf as (_ & Hnb & _). clear Hv. destruct t as [data dt ne nb]. cbn in Hne, Hnb, Hp. subst ne.
  destruct nb as [|b0 [|b1 [|b2 [|b3 [|? ?]]]]]; try discriminate. clear Hnb Hlen Hd Hperm.
  repeat (apply elem_of_cons in Hin as [->|Hin]; [|]); [..|by apply not_elem_of_nil in Hin].
  all: revert Hp; eval_gather; cbn [mbind result_bind]; intros [= <-];
    (split; [by (erewrite permute_unfold; [|reflexivity|exact Hd'])|]);
    eexists; (split; [done|]); unfold valid_index, element_address, zsum; cbn -[Z.mul Z.add];
    (split; [repeat (apply Forall2_cons_2; [lia|]); apply Forall2_nil_2|lia]).
Qed.

Lemma permute_roundtrip_witness :
  permute (mkTensor 4096 BF16 [3; 2; 1; 1] [4; 2; 12; 12]) [1; 0; 2; 3] = Ok witness_tensor.
Proof.
  apply (permute_roundtrip witness_tensor [1; 0; 2; 3]
           (mkTensor 4096 BF16 [3; 2; 1; 1] [4; 2; 12; 12]) [1; 2; 0; 0]).
  - unfold tensor_wf; cbn; repeat split; simp_forall; lia.
  - reflexivity.
  - unfold valid_index; cbn; repeat (apply Forall2_cons_2; [lia|]); apply Forall2_nil_2.
Defined.
