(* ===== verification/Layout.v ===== *)
(** Backing-memory layouts (src/src/core/layout.h, src/src/core/layout.cpp)
    and the bump arena they are a dry run of (src/src/core/arena.h,
    src/src/core/arena.cu): checked offset builders with nested scopes, the
    binding of a planned region to a backing allocation, and the simulation of
    the real arena by the dry-run builder. *)

From S2P Require Import Prelude Tensor.

(** * Checked size arithmetic *)
Definition is_power_of_two (value : Z) : bool :=
  negb (value =? 0) && (Z.land value (wrap64 (value - 1)) =? 0).

Definition checked_add (a b : Z) : result Z :=
  if SIZE_MAX - a <? b then Err OverflowError else Ok (a + b).

Definition align_up (value alignment : Z) : result Z :=
  _ ← throw_if (negb (is_power_of_two alignment)) InvalidArgument;
  let mask := alignment - 1 in
  s ← checked_add value mask;
  Ok (Z.land s (wrap64 (Z.lnot mask))).

(** * Regions *)
Record DeviceSpan : Type := mkSpan { span_data : Z; span_bytes : Z }.

Record LayoutRegion : Type := mkRegion {
  r_offset : Z;
  r_bytes : Z;
  r_alignment : Z;
}.

Record TensorRegion : Type := mkTensorRegion {
  tr_region : LayoutRegion;
  tr_dtype : DType;
  tr_shape : list Z;
}.

Definition region_bind (r : LayoutRegion) (backing : DeviceSpan) : result DeviceSpan :=
  _ ← throw_if (span_data backing =? 0) InvalidArgument;
  _ ← throw_if (negb (is_power_of_two (r_alignment r))) LogicError;
  let base := span_data backing in
  _ ← throw_if (negb (wrap64 (base + r_offset r) mod r_alignment r =? 0)) InvalidArgument;
  _ ← throw_if ((span_bytes backing <? r_offset r) ||
                (span_bytes backing - r_offset r <? r_bytes r)) OutOfRange;
  Ok (mkSpan (span_data backing + r_offset r) (r_bytes r)).

Definition tensor_region_bind (r : TensorRegion) (backing : DeviceSpan) : result Tensor :=
  expected ← make_tensor 0 (tr_dtype r) (tr_shape r);
  b ← bytes expected;
  _ ← throw_if (negb (b =? r_bytes (tr_region r))) LogicError;
  s ← region_bind (tr_region r) backing;
  make_tensor (span_data s) (tr_dtype r) (tr_shape r).

(** * The layout builder *)
Record LayoutBuilder : Type := mkBuilder { cursor : Z; peak : Z }.

Definition empty_builder : LayoutBuilder := mkBuilder 0 0.

(** [cursor_ = c; if (cursor_ > peak_) { peak_ = cursor_; }] *)
Definition set_cursor (c : Z) (b : LayoutBuilder) : LayoutBuilder :=
  mkBuilder c (if peak b <? c then c else peak b).

Definition add (bytes alignment : Z) : M LayoutBuilder LayoutRegion :=
  _ ← mthrow_if (bytes =? 0) InvalidArgument;
  b ← mget;
  offset ← mlift (align_up (cursor b) alignment);
  c ← mlift (checked_add offset bytes);
  _ ← mmodify (set_cursor c);
  mret (mkRegion offset bytes alignment).

(** [std::copy(shape.begin(), shape.end(), out.shape.begin())] over the
    default shape of ones. *)
Definition copy_shape (shape : list Z) : list Z := shape ++ drop (length shape) [1; 1; 1; 1].

Definition add_tensor (dtype : DType) (shape : list Z) (alignment : Z)
  : M LayoutBuilder TensorRegion :=
  t ← mlift (make_tensor 0 dtype shape);
  n ← mlift (bytes t);
  r ← add n alignment;
  mret (mkTensorRegion r dtype (copy_shape shape)).

(** A [Scope] saves the cursor and its destructor restores it, on every way
    out of the block it guards. *)
Definition scope {A} (body : M LayoutBuilder A) : M LayoutBuilder A := fun b =>
  let saved := cursor b in
  let (b', r) := body b in
  (mkBuilder saved (peak b'), r).

Definition finish (alignment : Z) (b : LayoutBuilder) : result Z := align_up (peak b) alignment.

(** * Allocators

    Target code allocates its workspace through an interface that both the
    dry-run builder and the real arena implement, with the same nesting of
    scopes. *)
Class Allocator (S : Type) : Type := {
  a_alloc : DType -> list Z -> Z -> M S unit;
  a_alloc_bytes : Z -> Z -> M S unit;
  a_scope : M S unit -> M S unit;
}.

(** ** The dry run *)
Definition workspace_bump (bytes alignment : Z) : M LayoutBuilder unit :=
  b ← mget;
  c ← mlift (align_up (cursor b) alignment);
  _ ← mmodify (fun b => mkBuilder c (peak b));
  c' ← mlift (checked_add c bytes);
  mmodify (set_cursor c').

Definition workspace_alloc (dtype : DType) (shape : list Z) (alignment : Z)
  : M LayoutBuilder Tensor :=
  t ← mlift (make_tensor 0 dtype shape);
  b ← mget;
  c ← mlift (align_up (cursor b) alignment);
  _ ← mmodify (fun b => mkBuilder c (peak b));
  n ← mlift (bytes t);
  c' ← mlift (checked_add c n);
  _ ← mmodify (set_cursor c');
  mret t.

Definition workspace_alloc_bytes (n alignment : Z) : M LayoutBuilder DeviceSpan :=
  if n =? 0 then mret (mkSpan 0 0)
  else _ ← workspace_bump n alignment; mret (mkSpan 0 n).

Definition workspace_scope {A} (body : M LayoutBuilder A) : M LayoutBuilder A := scope body.

Definition peak_bytes (alignment : Z) (b : LayoutBuilder) : result Z := align_up (peak b) alignment.

#[export] Instance workspace_allocator : Allocator LayoutBuilder := {|
  a_alloc dt shape a := _ ← workspace_alloc dt shape a; mret tt;
  a_alloc_bytes n a := _ ← workspace_alloc_bytes n a; mret tt;
  a_scope body := workspace_scope body;
|}.

(** ** The arena *)
Record DeviceArena : Type := mkArena {
  base_ : Z;
  cap_ : Z;
  off_ : Z;
  peak_ : Z;
}.

Definition make_arena (storage : DeviceSpan) : result DeviceArena :=
  _ ← throw_if ((span_data storage =? 0) || (span_bytes storage =? 0)) InvalidArgument;
  Ok (mkArena (span_data storage) (span_bytes storage) 0 0).

Definition checked_add_uintptr (a b : Z) : result Z :=
  _ ← throw_if (U64_MAX - a <? b) OverflowError;
  Ok (a + b).

Definition align_up_addr (addr align : Z) : result Z :=
  let mask := align - 1 in
  with_mask ← checked_add_uintptr addr mask;
  Ok (Z.land with_mask (wrap64 (Z.lnot mask))).

Definition arena_alloc_bytes (bytes align : Z) : M DeviceArena DeviceSpan :=
  a ← mget;
  _ ← mthrow_if (base_ a =? 0) RuntimeError;
  _ ← mthrow_if (negb (is_power_of_two align)) InvalidArgument;
  _ ← mthrow_if (bytes =? 0) InvalidArgument;
  current_addr ← mlift (checked_add_uintptr (base_ a) (off_ a));
  aligned_addr ← mlift (align_up_addr current_addr align);
  let aligned_offset := aligned_addr - base_ a in
  _ ← mthrow_if (SIZE_MAX <? aligned_offset) OverflowError;
  _ ← mthrow_if (SIZE_MAX - aligned_offset <? bytes) OverflowError;
  let end_ := aligned_offset + bytes in
  _ ← mthrow_if (cap_ a <? end_) BadAlloc;
  _ ← mput (mkArena (base_ a) (cap_ a) end_ (if peak_ a <? end_ then end_ else peak_ a));
  mret (mkSpan (base_ a + aligned_offset) bytes).

Definition arena_alloc (dtype : DType) (shape : list Z) (align : Z) : M DeviceArena Tensor :=
  v ← mlift (make_tensor 0 dtype shape);
  n ← mlift (bytes v);
  storage ← arena_alloc_bytes n align;
  mlift (make_tensor (span_data storage) dtype shape).

Definition arena_scope {A} (body : M DeviceArena A) : M DeviceArena A := fun a =>
  let saved := off_ a in
  let (a', r) := body a in
  (if saved <=? off_ a' then mkArena (base_ a') (cap_ a') saved (peak_ a') else a', r).

Definition arena_reset (a : DeviceArena) : DeviceArena := mkArena (base_ a) (cap_ a) 0 (peak_ a).

Definition arena_reset_peak (a : DeviceArena) : DeviceArena :=
  mkArena (base_ a) (cap_ a) (off_ a) (off_ a).

#[export] Instance arena_allocator : Allocator DeviceArena := {|
  a_alloc dt shape a := _ ← arena_alloc dt shape a; mret tt;
  a_alloc_bytes n a := _ ← arena_alloc_bytes n a; mret tt;
  a_scope body := arena_scope body;
|}.

(** ** Allocation programs *)
Inductive prog : Type :=
  | PAlloc (dtype : DType) (shape : list Z) (align : Z)
  | PBytes (bytes align : Z)
  | PScope (body : list prog).

Fixpoint run {S} `{Allocator S} (p : prog) : M S unit :=
  match p with
  | PAlloc dt shape a => a_alloc dt shape a
  | PBytes n a => a_alloc_bytes n a
  | PScope body => a_scope (mfor run body)
  end.

Definition run_all {S} `{Allocator S} (ps : list prog) : M S unit := mfor run ps.

(** * Lemmas on alignment *)
Lemma is_power_of_two_spec v :
  0 <= v <= SIZE_MAX -> is_power_of_two v = true -> exists k, 0 <= k /\ v = 2 ^ k.
Proof.
  unfold is_power_of_two, SIZE_MAX, U64_MAX. intros Hv H. simp_bool.
  unfold wrap64 in *. rewrite Z.mod_small in * by lia.
  exists (Z.log2 v). split; [apply Z.log2_nonneg|]. apply land_pred_pow2; lia.
Qed.

Lemma checked_add_Ok a b c :
  checked_add a b = Ok c <-> a + b <= SIZE_MAX /\ c = a + b.
Proof.
  unfold checked_add. destruct (Z.ltb_spec (SIZE_MAX - a) b); split.
  - done.
  - lia.
  - intros [= <-]. lia.
  - by intros [_ ->].
Qed.

(** Adding the mask of a power of two and clearing it rounds up. *)
Lemma mask_round_up v k :
  0 <= k -> 0 <= v -> v + 2 ^ k - 1 <= U64_MAX ->
  Z.land (v + (2 ^ k - 1)) (wrap64 (Z.lnot (2 ^ k - 1))) = (v + 2 ^ k - 1) / 2 ^ k * 2 ^ k.
Proof.
  intros Hk Hv Hmax. assert (0 < 2 ^ k) by (apply Z.pow_pos_nonneg; lia).
  rewrite land_wrap64_lnot by lia.
  replace (2 ^ k - 1) with (Z.ones k) by (rewrite Z.ones_equiv; lia).
  rewrite ldiff_ones_mul by done. do 2 f_equal. rewrite Z.ones_equiv. lia.
Qed.

Lemma pow2_round_up v a :
  0 <= a <= SIZE_MAX -> is_power_of_two a = true -> 0 <= v -> v + a - 1 <= U64_MAX ->
  Z.land (v + (a - 1)) (wrap64 (Z.lnot (a - 1))) = (v + a - 1) / a * a.
Proof.
  intros Ha Hp Hv Hmax. apply is_power_of_two_spec in Hp as (k & Hk & ->); [|done].
  by apply mask_round_up.
Qed.

Lemma round_up_bounds v a :
  0 < a -> 0 <= v ->
  let r := (v + a - 1) / a * a in r mod a = 0 /\ v <= r < v + a.
Proof.
  intros Ha Hv r. unfold r. split; [apply Z.mod_mul; lia|].
  pose proof (Z.div_mod (v + a - 1) a). pose proof (Z.mod_pos_bound (v + a - 1) a). lia.
Qed.

Lemma align_up_Ok v a r :
  0 <= v -> 0 <= a <= SIZE_MAX -> align_up v a = Ok r ->
  0 < a /\ is_power_of_two a = true /\ r = (v + a - 1) / a * a /\
  v + a - 1 <= SIZE_MAX /\ r mod a = 0 /\ v <= r < v + a.
Proof.
  intros Hv Ha H. unfold align_up in H. simp_res. simp_bool.
  match goal with H : checked_add _ _ = Ok _ |- _ => apply checked_add_Ok in H as [? ->] end.
  match goal with H : is_power_of_two _ = true |- _ => rename H into Hp end.
  assert (0 < a).
  { pose proof Hp as Hp'. apply is_power_of_two_spec in Hp' as (k & Hk & ->); [|done].
    apply Z.pow_pos_nonneg; lia. }
  rewrite pow2_round_up by (auto; unfold SIZE_MAX in *; lia).
  destruct (round_up_bounds v a); [lia|lia|]. repeat split; auto; lia.
Qed.

(** Rounding up is translation invariant on multiples of the alignment. *)
Lemma round_up_shift base v a :
  0 < a -> base mod a = 0 -> (base + v + a - 1) / a * a = base + (v + a - 1) / a * a.
Proof.
  intros Ha Hb. apply Z.div_exact in Hb; [|lia]. rewrite Hb at 1.
  replace (a * (base / a) + v + a - 1) with ((v + a - 1) + (base / a) * a) by lia.
  rewrite Z.div_add by lia. lia.
Qed.

(** * The dry run bounds the arena *)
Definition builder_wf (b : LayoutBuilder) : Prop := 0 <= cursor b <= peak b.

(** A planned allocation the arena accepts too: a positive size, and an
    alignment the base satisfies without leaving the address space. *)
Definition align_ok (base cap a : Z) : Prop :=
  0 <= a <= SIZE_MAX /\ base mod a = 0 /\ base + cap + a <= U64_MAX.

Fixpoint prog_ok (base cap : Z) (p : prog) : Prop :=
  match p with
  | PAlloc _ _ a => align_ok base cap a
  | PBytes n a => 0 < n /\ align_ok base cap a
  | PScope body => foldr (fun q P => prog_ok base cap q /\ P) True body
  end.

Definition progs_ok (base cap : Z) (ps : list prog) : Prop :=
  foldr (fun q P => prog_ok base cap q /\ P) True ps.

Lemma prog_nested_ind (P : prog -> Prop) :
  (forall dt shape a, P (PAlloc dt shape a)) -> (forall n a, P (PBytes n a)) ->
  (forall body, Forall P body -> P (PScope body)) -> forall p, P p.
Proof.
  intros Ha Hb Hs. fix IH 1. intros [dt shape a|n a|body]; [apply Ha|apply Hb|].
  apply Hs. induction body as [|q body IHb]; constructor; [apply IH|apply IHb].
Qed.

(** The arena state that corresponds to a dry-run state. *)
Definition arena_of (base cap : Z) (b : LayoutBuilder) : DeviceArena :=
  mkArena base cap (cursor b) (peak b).

(** What a successful bump of the dry run does, for both kinds of request. *)
Definition bumped (n a : Z) (b b' : LayoutBuilder) : Prop :=
  exists c, align_up (cursor b) a = Ok c /\ c + n <= SIZE_MAX /\ b' = set_cursor (c + n) b.

Lemma workspace_alloc_bumped dt shape a b b' t :
  workspace_alloc dt shape a b = (b', Ok t) ->
  exists n, make_tensor 0 dt shape = Ok t /\ bytes t = Ok n /\ bumped n a b b'.
Proof.
  unfold workspace_alloc. intros H. simp_M.
  match goal with H : checked_add _ _ = Ok _ |- _ => apply checked_add_Ok in H as [? ->] end.
  eexists; split; [done|]. split; [done|]. by eexists.
Qed.

Lemma workspace_alloc_bytes_bumped n a b b' s :
  n <> 0 -> workspace_alloc_bytes n a b = (b', Ok s) -> bumped n a b b'.
Proof.
  intros Hn. unfold workspace_alloc_bytes. rewrite (proj2 (Z.eqb_neq n 0)) by done.
  unfold workspace_bump. intros H. simp_M.
  match goal with H : checked_add _ _ = Ok _ |- _ => apply checked_add_Ok in H as [? ->] end.
  by eexists.
Qed.

Lemma bumped_spec n a b b' :
  builder_wf b -> 0 <= n -> 0 <= a <= SIZE_MAX -> bumped n a b b' ->
  builder_wf b' /\ peak b <= peak b' /\ cursor b <= cursor b' /\ cursor b' = (cursor b + a - 1) / a * a + n /\
  0 < a /\ is_power_of_two a = true /\ cursor b + a - 1 <= SIZE_MAX /\ cursor b' <= SIZE_MAX.
Proof.
  intros Hwf Hn Ha (c & Hc & Hmax & ->). unfold builder_wf in *.
  apply align_up_Ok in Hc as (? & ? & -> & ? & ? & ?); [|lia|done].
  cbn. destruct (Z.ltb_spec (peak b) ((cursor b + a - 1) / a * a + n)); repeat split; auto; lia.
Qed.

Lemma checked_add_uintptr_eq a b : a + b <= U64_MAX -> checked_add_uintptr a b = Ok (a + b).
Proof.
  intros. unfold checked_add_uintptr, throw_if.
  by rewrite (proj2 (Z.ltb_ge (U64_MAX - a) b)) by lia.
Qed.

(** One allocation: where the dry run bumps its cursor below the capacity,
    the arena hands out the bytes and moves to the corresponding state. *)
Lemma arena_alloc_bytes_bumped base cap n a b b' :
  0 < base -> builder_wf b -> 0 < n -> align_ok base cap a -> bumped n a b b' ->
  peak b' <= cap ->
  exists s, arena_alloc_bytes n a (arena_of base cap b) = (arena_of base cap b', Ok s).
Proof.
  intros Hbase Hwf Hn (Ha & Hdiv & Hspace) Hb Hcap.
  pose proof (bumped_spec n a b b' Hwf ltac:(lia) Ha Hb) as (Hwf' & Hpk & _ & Hcur & Hpos & Hp2 & ? & ?).
  destruct Hb as (c & Hc & Hmax & ->). unfold builder_wf in *. cbn in Hcur.
  apply align_up_Ok in Hc as (_ & _ & Ec & _ & _ & Hcb); [|lia|done].
  assert (cursor b + a - 1 < cap + a) by (cbn in *; destruct (peak b <? c + n); lia).
  unfold arena_alloc_bytes, mthrow_if, mlift, throw_if, align_up_addr.
  unfold mbind, M_bind, mget, mret, M_ret, mput. cbn [arena_of base_ cap_ off_ peak_].
  rewrite (proj2 (Z.eqb_neq base 0)), Hp2, (proj2 (Z.eqb_neq n 0)) by lia. cbn [negb].
  rewrite !checked_add_uintptr_eq by lia. cbn [mbind result_bind].
  rewrite pow2_round_up by (auto; lia).
  rewrite round_up_shift by done. rewrite <- Ec.
  replace (base + c - base) with c by lia.
  assert (c + n <= cap) by (cbn in *; destruct (Z.ltb_spec (peak b) (c + n)); lia).
  rewrite (proj2 (Z.ltb_ge SIZE_MAX c)) by lia.
  rewrite (proj2 (Z.ltb_ge (SIZE_MAX - c) n)) by lia.
  rewrite (proj2 (Z.ltb_ge cap (c + n))) by lia.
  eexists. done.
Qed.

Lemma foldl_mul_pos l a : 0 < a -> Forall (fun d => 0 < d) l -> 0 < foldl Z.mul a l.
Proof. intros Ha Hl. revert a Ha. induction Hl; intros; cbn; [done|]. by apply IHHl, Z.mul_pos_pos. Qed.

Lemma bytes_pos t n : bytes t = Ok n -> 0 < n.
Proof.
  intros H. pose proof (bytes_Ok _ _ H) as [-> _]. unfold bytes, numel in H. simp_res.
  match goal with H : shape_numel _ = Ok _ |- _ => apply shape_numel_Ok in H as [_ ?] end.
  pose proof (foldl_mul_pos (t_ne t) 1 eq_refl ltac:(done)).
  pose proof (dtype_size_pos (t_dtype t)). nia.
Qed.

(** The data pointer plays no part in the checks of the constructor. *)
Lemma make_tensor_data d d' dt shape t :
  make_tensor d dt shape = Ok t ->
  make_tensor d' dt shape = Ok (mkTensor d' (t_dtype t) (t_ne t) (t_nb t)).
Proof.
  unfold make_tensor. intros H. simp_res.
  match goal with H : normalize_shape _ = _ |- _ => rewrite H end. cbn [mbind result_bind].
  unfold set_contiguous_strides in *. cbn [t_dtype t_ne t_nb t_data] in *. simp_res.
  match goal with H : rfor _ _ _ = Ok _ |- _ => rewrite H end. done.
Qed.

Lemma run_scope_Ok (body : list prog) b b' :
  run (PScope body) b = (b', Ok tt) ->
  exists b1, run_all body b = (b1, Ok tt) /\ b' = mkBuilder (cursor b) (peak b1).
Proof.
  cbn [run a_scope workspace_allocator]. unfold workspace_scope, scope.
  destruct (mfor run body b) as [b1 r] eqn:E. intros [= <- ->]. eauto.
Qed.

(** The dry run keeps its cursor below its peak, which never decreases. *)
Lemma run_mono base cap p b b' :
  prog_ok base cap p -> builder_wf b -> run p b = (b', Ok tt) ->
  builder_wf b' /\ peak b <= peak b' /\ cursor b <= cursor b'.
Proof.
  revert b b'. induction p as [dt shape a|n a|body IH] using prog_nested_ind; intros b b' Hok Hwf H.
  - cbn in H. simp_M. match goal with H : workspace_alloc _ _ _ _ = _ |- _ =>
      apply workspace_alloc_bumped in H as (n & _ & Hn & Hb) end.
    apply bytes_pos in Hn. destruct Hok as (Ha & _).
    apply bumped_spec in Hb; [|done|lia|done]. naive_solver.
  - cbn in H, Hok. simp_M. destruct Hok as (Hn & Ha & _).
    match goal with H : workspace_alloc_bytes _ _ _ = _ |- _ =>
      apply workspace_alloc_bytes_bumped in H as Hb; [|lia] end.
    apply bumped_spec in Hb; [|done|lia|done]. naive_solver.
  - apply run_scope_Ok in H as (b1 & H & ->).
    enough (builder_wf b1 /\ peak b <= peak b1 /\ cursor b <= cursor b1) by (unfold builder_wf in *; cbn in *; lia).
    cbn in Hok. revert b Hwf H. induction body as [|q body IHb]; intros b Hwf H; cbn in *; simp_M.
    + split; [done|lia].
    + apply Forall_cons_1 in IH as [IHq IHbody]. destruct Hok as [Hq Hbody].
      match goal with H : run q b = _ |- _ => apply IHq in H as (? & ? & ?); [|done|done] end.
      match goal with H : mfor _ _ _ = _ |- _ => apply IHb in H as (? & ? & ?); [|done..] end.
      split; [done|lia].
Qed.

Lemma run_all_mono base cap ps b b' :
  progs_ok base cap ps -> builder_wf b -> run_all ps b = (b', Ok tt) ->
  builder_wf b' /\ peak b <= peak b' /\ cursor b <= cursor b'.
Proof.
  revert b. induction ps as [|p ps IH]; intros b Hok Hwf H; cbn in *; simp_M.
  - split; [done|lia].
  - destruct Hok as [Hp Hps].
    match goal with H : run p b = _ |- _ => eapply run_mono in H as (? & ? & ?); [|done|done] end.
    match goal with H : mfor _ _ _ = _ |- _ => apply IH in H as (? & ? & ?); [|done..] end.
    split; [done|lia].
Qed.

Lemma mfor_cons_Ok {S A} (f : A -> M S unit) x l s s1 s2 :
  f x s = (s1, Ok tt) -> mfor f l s1 = (s2, Ok tt) -> mfor f (x :: l) s = (s2, Ok tt).
Proof. intros H1 H2. cbn. by rewrite (M_bind_run _ _ _ _ _ H1). Qed.

Lemma run_simulated base cap p b b' :
  0 < base -> prog_ok base cap p -> builder_wf b -> run p b = (b', Ok tt) -> peak b' <= cap ->
  run p (arena_of base cap b) = (arena_of base cap b', Ok tt).
Proof.
  intros Hbase. revert b b'.
  induction p as [dt shape a|n a|body IH] using prog_nested_ind; intros b b' Hok Hwf H Hcap.
  - cbn in H, Hok. simp_M. match goal with H : workspace_alloc _ _ _ _ = _ |- _ =>
      apply workspace_alloc_bumped in H as (n & Ht & Hn & Hb) end.
    pose proof (bytes_pos _ _ Hn).
    edestruct (arena_alloc_bytes_bumped base cap n a) as [s Hs]; [done..|].
    cbn [run a_alloc arena_allocator]. erewrite M_bind_run; [done|]. unfold arena_alloc.
    erewrite M_bind_run by (by apply mlift_Ok). erewrite M_bind_run by (by apply mlift_Ok).
    erewrite M_bind_run by done. apply mlift_Ok.
    by rewrite (make_tensor_data _ (span_data s) _ _ _ Ht).
  - cbn in H, Hok. simp_M. destruct Hok as (Hn & Ha).
    match goal with H : workspace_alloc_bytes _ _ _ = _ |- _ =>
      apply workspace_alloc_bytes_bumped in H as Hb; [|lia] end.
    edestruct (arena_alloc_bytes_bumped base cap n a) as [s Hs]; [done..|].
    cbn. unfold mbind, M_bind. by rewrite Hs.
  - apply run_scope_Ok in H as (b1 & H & ->). cbn in Hcap, Hok.
    assert (Hbody : run_all body (arena_of base cap b) = (arena_of base cap b1, Ok tt)).
    { cbn in Hok. revert b Hwf H. induction body as [|q body IHb];
        intros b Hwf H; [unfold run_all in *; cbn in *; by simp_M|].
      unfold run_all in H. cbn in H. simp_M. destruct Hok as [Hq Hbody].
      apply Forall_cons_1 in IH as [IHq IHbody].
      match goal with H : run q b = (?s, _) |- _ =>
        destruct (run_mono base cap q b s Hq Hwf H) as (Hwf' & Hm & _) end.
      match goal with H : mfor _ _ _ = _ |- _ =>
        pose proof (run_all_mono base cap body _ _ Hbody Hwf' H) as (? & ? & _) end.
      eapply mfor_cons_Ok; [apply IHq; [done|done|done|lia]|]. by apply IHb. }
    change (arena_scope (run_all body) (arena_of base cap b)
            = (arena_of base cap (mkBuilder (cursor b) (peak b1)), Ok tt)).
    unfold arena_scope. rewrite Hbody. cbn.
    pose proof (run_all_mono base cap body b b1 Hok Hwf H) as (? & ? & ?).
    by rewrite (proj2 (Z.leb_le (cursor b) (cursor b1))).
Qed.

Lemma run_all_simulated base cap ps b b' :
  0 < base -> progs_ok base cap ps -> builder_wf b -> run_all ps b = (b', Ok tt) ->
  peak b' <= cap -> run_all ps (arena_of base cap b) = (arena_of base cap b', Ok tt).
Proof.
  intros Hbase Hok. revert b. induction ps as [|p ps IH]; intros b Hwf H Hcap.
  - unfold run_all in *. cbn in *. by simp_M.
  - unfold run_all in H. cbn in H. simp_M. destruct Hok as [Hp Hps].
    match goal with H : run p b = (?s, _) |- _ =>
      destruct (run_mono base cap p b s Hp Hwf H) as (Hwf' & Hm & _) end.
    match goal with H : mfor _ _ _ = _ |- _ =>
      pose proof (run_all_mono base cap ps _ _ Hps Hwf' H) as (? & ? & _) end.
    eapply mfor_cons_Ok; [apply run_simulated; [done..|lia]|]. by apply IH.
Qed.

(** The dry run sizes the arena: when an allocation program, with any
    nesting of scopes, runs on the layout builder and reports [peak_bytes],
    the same program run on an arena of that capacity over an aligned base
    succeeds, and the arena's offset and peak are the builder's. *)
Theorem dry_run_sizes_arena base cap ps b total :
  0 < base -> progs_ok base cap ps ->
  run_all ps empty_builder = (b, Ok tt) -> peak_bytes 256 b = Ok total -> total <= cap ->
  run_all ps (mkArena base cap 0 0) = (mkArena base cap (cursor b) (peak b), Ok tt) /\
  peak b <= cap.
Proof.
  intros Hbase Hok Hrun Hpeak Hcap.
  assert (Hwf : builder_wf empty_builder) by (unfold builder_wf; cbn; lia).
  destruct (run_all_mono _ _ _ _ _ Hok Hwf Hrun) as (Hwf' & _).
  unfold builder_wf, peak_bytes in *.
  apply align_up_Ok in Hpeak; [|lia|unfold SIZE_MAX, U64_MAX; lia].
  split; [|lia]. by apply (run_all_simulated base cap ps empty_builder b); [..|lia].
Qed.

Definition witness_prog : list prog :=
  [PAlloc BF16 [128; 4] 256; PScope [PBytes 100 16; PAlloc FP32 [8] 64]; PBytes 700 256].

Lemma dry_run_sizes_arena_witness :
  fst (run_all witness_prog (mkArena 65536 2048 0 0)) = mkArena 65536 2048 1724 1724.
Proof.
  destruct (dry_run_sizes_arena 65536 2048 witness_prog (mkBuilder 1724 1724) 1792) as [H _].
  - lia.
  - unfold progs_ok, align_ok; cbn. repeat split; unfold SIZE_MAX, U64_MAX; try (reflexivity || lia).
  - vm_compute. reflexivity.
  - vm_compute. reflexivity.
  - lia.
  - rewrite H. reflexivity.
Defined.

(** * Sequential layouts *)
Fixpoint add_all (reqs : list (Z * Z)) : M LayoutBuilder (list LayoutRegion) :=
  match reqs with
  | [] => mret []
  | (n, a) :: reqs' => r ← add n a; rs ← add_all reqs'; mret (r :: rs)
  end.

(** Regions laid out one after the other from [lo] to [hi]. *)
Inductive laid_out : Z -> list LayoutRegion -> Z -> Prop :=
  | laid_nil lo : laid_out lo [] lo
  | laid_cons lo r rs hi :
      lo <= r_offset r -> 0 < r_alignment r -> is_power_of_two (r_alignment r) = true ->
      r_offset r mod r_alignment r = 0 -> 0 < r_bytes r ->
      laid_out (r_offset r + r_bytes r) rs hi -> laid_out lo (r :: rs) hi.

Lemma add_Ok n a b b' r :
  builder_wf b -> 0 <= n -> 0 <= a <= SIZE_MAX -> add n a b = (b', Ok r) ->
  r = mkRegion (r_offset r) n a /\ 0 < n /\ 0 < a /\ is_power_of_two a = true /\
  cursor b <= r_offset r /\ r_offset r mod a = 0 /\
  cursor b' = r_offset r + n /\ builder_wf b' /\ peak b <= peak b'.
Proof.
  intros Hwf Hn Ha H. unfold add in H. simp_M. simp_bool. unfold builder_wf in *.
  match goal with H : align_up _ _ = Ok _ |- _ =>
    apply align_up_Ok in H as (? & ? & -> & ? & ? & ?); [|lia|done] end.
  match goal with H : checked_add _ _ = Ok _ |- _ => apply checked_add_Ok in H as [? ->] end.
  cbn. destruct (Z.ltb_spec (peak b) ((cursor b + a - 1) / a * a + n)); repeat split; auto; lia.
Qed.

Lemma add_all_Ok reqs b b' rs :
  builder_wf b -> Forall (fun '(n, a) => 0 <= n /\ 0 <= a <= SIZE_MAX) reqs ->
  add_all reqs b = (b', Ok rs) ->
  laid_out (cursor b) rs (cursor b') /\ builder_wf b' /\
  Forall2 (fun '(n, a) r => r_bytes r = n /\ r_alignment r = a) reqs rs.
Proof.
  intros Hwf Hreqs. revert b rs Hwf. induction Hreqs as [|[n a] reqs [Hn Ha] Hreqs IH];
    intros b rs Hwf H; cbn in H; simp_M.
  - split; [apply laid_nil|split; [done|apply Forall2_nil_2]].
  - match goal with H : add _ _ _ = _ |- _ =>
      apply add_Ok in H as (Er & ? & ? & ? & ? & ? & Ec & Hwf' & ?); [|done..] end.
    match goal with H : add_all _ _ = _ |- _ => apply IH in H as (Hl & ? & ?); [|done] end.
    rewrite Ec in Hl. split; [|split; [done|]].
    + rewrite Er. by apply laid_cons.
    + apply Forall2_cons_2; [by rewrite Er|done].
Qed.

Lemma laid_out_bounds lo rs hi :
  laid_out lo rs hi -> lo <= hi /\
  Forall (fun r => lo <= r_offset r /\ r_offset r + r_bytes r <= hi /\ 0 < r_alignment r /\
            is_power_of_two (r_alignment r) = true /\ r_offset r mod r_alignment r = 0 /\
            0 < r_bytes r) rs.
Proof.
  induction 1 as [|lo r rs hi ? ? ? ? ? ? [IH IHf]]; [split; [lia|apply Forall_nil_2]|].
  split; [lia|]. apply Forall_cons_2; [repeat split; auto; lia|].
  eapply Forall_impl; [exact IHf|]. cbn. intros r' ?. intuition lia.
Qed.

Lemma laid_out_disjoint lo rs hi i j r r' :
  laid_out lo rs hi -> rs !! i = Some r -> rs !! j = Some r' -> (i < j)%nat ->
  r_offset r + r_bytes r <= r_offset r'.
Proof.
  intros H. revert i j. induction H as [|lo r0 rs hi ? ? ? ? ? Hl IH]; intros i j Hi Hj Hij.
  - by rewrite lookup_nil in Hi.
  - destruct i as [|i], j as [|j]; try lia; cbn in *; simplify_eq.
    + apply laid_out_bounds in Hl as [_ Hf]. rewrite Forall_lookup in Hf.
      specialize (Hf _ _ Hj). lia.
    + eapply IH; eauto. lia.
Qed.

Lemma mod_add_divides a b m : 0 < m -> a mod m = 0 -> b mod m = 0 -> (a + b) mod m = 0.
Proof.
  intros Hm Ha Hb. rewrite Z.add_mod by lia. rewrite Ha, Hb. apply Z.mod_0_l. lia.
Qed.

(** The regions of a finished layout are safe to bind: over a backing of
    [finish()] bytes whose base satisfies every requested alignment, each
    region binds to an aligned span inside the backing, and the spans of two
    different regions do not overlap. *)
Theorem layout_regions_bind_disjoint reqs b rs align total data i j r r' :
  Forall (fun '(n, a) => 0 <= n /\ 0 <= a <= SIZE_MAX) reqs -> 0 <= align <= SIZE_MAX ->
  add_all reqs empty_builder = (b, Ok rs) -> finish align b = Ok total ->
  0 < data -> data + total <= U64_MAX -> Forall (fun '(_, a) => data mod a = 0) reqs ->
  rs !! i = Some r -> rs !! j = Some r' -> (i < j)%nat ->
  region_bind r (mkSpan data total) = Ok (mkSpan (data + r_offset r) (r_bytes r)) /\
  region_bind r' (mkSpan data total) = Ok (mkSpan (data + r_offset r') (r_bytes r')) /\
  (data + r_offset r) mod r_alignment r = 0 /\
  data <= data + r_offset r /\ data + r_offset r + r_bytes r <= data + r_offset r' /\
  data + r_offset r' + r_bytes r' <= data + total.
Proof.
  intros Hreqs Halign Hadd Hfin Hdata Hmax Hdiv Hi Hj Hij.
  assert (Hwf : builder_wf empty_builder) by (unfold builder_wf; cbn; lia).
  destruct (add_all_Ok _ _ _ _ Hwf Hreqs Hadd) as (Hl & Hwf' & Hall).
  unfold builder_wf, finish in *. apply align_up_Ok in Hfin; [|lia|done].
  destruct (laid_out_bounds _ _ _ Hl) as [_ Hf]. cbn in Hf.
  assert (Hbind : forall k q, rs !! k = Some q ->
    region_bind q (mkSpan data total) = Ok (mkSpan (data + r_offset q) (r_bytes q)) /\
    (data + r_offset q) mod r_alignment q = 0 /\ 0 <= r_offset q /\
    r_offset q + r_bytes q <= total).
  { intros k q Hk. rewrite Forall_lookup in Hf. destruct (Hf _ _ Hk) as (?&?&?&Hp&?&?).
    assert (Hd : data mod r_alignment q = 0).
    { destruct (Forall2_lookup_r _ _ _ _ _ Hall Hk) as ([n a] & Hk' & _ & ->).
      rewrite Forall_lookup in Hdiv. exact (Hdiv _ _ Hk'). }
    pose proof (mod_add_divides data (r_offset q) (r_alignment q)) as Hm.
    split; [|repeat split; auto; lia]. unfold region_bind, throw_if. cbn [span_data span_bytes].
    rewrite (proj2 (Z.eqb_neq data 0)), Hp by lia. cbn [negb mbind result_bind].
    unfold wrap64, U64_MAX in *. rewrite (Z.mod_small (data + r_offset q)) by lia.
    rewrite Hm by done. cbn [negb Z.eqb mbind result_bind].
    rewrite (proj2 (Z.ltb_ge total (r_offset q))) by lia.
    by rewrite (proj2 (Z.ltb_ge (total - r_offset q) (r_bytes q))) by lia. }
  destruct (Hbind _ _ Hi) as (? & ? & ? & ?), (Hbind _ _ Hj) as (? & ? & ? & ?).
  pose proof (laid_out_disjoint _ _ _ _ _ _ _ Hl Hi Hj Hij). repeat split; auto; lia.
Qed.

Lemma layout_regions_bind_disjoint_witness :
  region_bind (mkRegion 512 200 256) (mkSpan 4096 768) = Ok (mkSpan 4608 200).
Proof.
  apply (layout_regions_bind_disjoint [(300, 64); (200, 256)] (mkBuilder 712 712)
           [mkRegion 0 300 64; mkRegion 512 200 256] 256 768 4096 0 1
           (mkRegion 0 300 64) (mkRegion 512 200 256));
    unfold SIZE_MAX, U64_MAX; try lia; try reflexivity; simp_forall; first [lia | reflexivity].
Defined.
