(* ===== verification/PagedKv.v ===== *)
(** The paged KV cache of the device (src/src/core/paged_kv_cache.h and
    src/src/core/paged_kv_cache.cpp): plane geometry and layout planning, the
    page pool with its free runs, generations, reservations and leases, the
    distinct-page validation by stamps, and bundle reservations over several
    pools. The execution tables built on top are in [ExecTable]. *)

From S2P Require Import Prelude Tensor Layout.

Definition kPagedKVPageSize : Z := 64.

(** * Geometry and layout *)
Record KVPlaneGeometry : Type := mkPlane {
  pl_dtype : DType;
  pl_leading_extent : Z;
  pl_head_extent : Z;
  pl_alignment : Z;
}.

Inductive PagedKVPlaneOrder : Type := PageMajor | HeadMajor.

Record KVPageGeometry : Type := mkGeometry {
  g_page_tokens : Z;
  g_device_plane_order : PagedKVPlaneOrder;
  g_planes : list KVPlaneGeometry;
}.

#[global] Instance KVPlaneGeometry_eq_dec : EqDecision KVPlaneGeometry.
Proof. solve_decision. Defined.
#[global] Instance PagedKVPlaneOrder_eq_dec : EqDecision PagedKVPlaneOrder.
Proof. solve_decision. Defined.
#[global] Instance KVPageGeometry_eq_dec : EqDecision KVPageGeometry.
Proof. solve_decision. Defined.

Record DeviceKVPagePoolSpec : Type := mkPoolSpec {
  ps_page_group_count : Z;
  ps_geometry : KVPageGeometry;
}.

Record KVExecutionTableSpec : Type := mkTableSpec {
  ts_logical_page_capacity : Z;
  ts_table_rows : Z;
}.

Record DeviceKVPlaneLayout : Type := mkPlaneLayout {
  dl_geometry : KVPlaneGeometry;
  dl_storage : TensorRegion;
}.

Record DeviceKVPagePoolLayout : Type := mkPoolLayout {
  pool_layout_spec : DeviceKVPagePoolSpec;
  pool_layout_planes : list DeviceKVPlaneLayout;
}.

Record KVExecutionTableLayout : Type := mkTableLayout {
  table_layout_spec : KVExecutionTableSpec;
  table_layout_block_tables : TensorRegion;
}.

Definition checked_i32 (value : Z) : result Z :=
  _ ← throw_if ((value =? 0) || (I32_MAX <? value)) InvalidArgument;
  Ok value.

Definition checked_table_bytes (spec : KVExecutionTableSpec) : result Z :=
  logical ← checked_i32 (ts_logical_page_capacity spec);
  _ ← throw_if (ts_table_rows spec <=? 0) InvalidArgument;
  let rows := ts_table_rows spec in
  _ ← throw_if (SIZE_MAX / rows / 4 <? logical) OverflowError;
  Ok (logical * rows * 4).

Definition validate_geometry (g : KVPageGeometry) : result unit :=
  _ ← throw_if (negb (g_page_tokens g =? kPagedKVPageSize)) InvalidArgument;
  _ ← throw_if (match g_planes g with [] => true | _ => false end) InvalidArgument;
  rfor (fun _ plane =>
          throw_if ((pl_leading_extent plane <=? 0) || (pl_head_extent plane <=? 0))
            InvalidArgument) tt (g_planes g).

(** [++generation; if (generation == 0) { ++generation; }] on a uint32. *)
Definition increment_generation (g : Z) : Z :=
  let g' := wrap32 (g + 1) in
  if g' =? 0 then wrap32 (g' + 1) else g'.

Definition plane_shape (order : PagedKVPlaneOrder) (plane : KVPlaneGeometry)
    (physical_pages : Z) : list Z :=
  match order with
  | PageMajor => [pl_leading_extent plane; kPagedKVPageSize; pl_head_extent plane; physical_pages]
  | HeadMajor => [pl_leading_extent plane; kPagedKVPageSize; physical_pages; pl_head_extent plane]
  end.

Fixpoint plan_planes (order : PagedKVPlaneOrder) (physical_pages : Z)
    (planes : list KVPlaneGeometry) : M LayoutBuilder (list DeviceKVPlaneLayout) :=
  match planes with
  | [] => mret []
  | plane :: planes' =>
      r ← add_tensor (pl_dtype plane) (plane_shape order plane physical_pages)
            (pl_alignment plane);
      rest ← plan_planes order physical_pages planes';
      mret (mkPlaneLayout plane r :: rest)
  end.

Definition plan_device_kv_page_pool (spec : DeviceKVPagePoolSpec)
  : M LayoutBuilder DeviceKVPagePoolLayout :=
  physical_pages ← mlift (checked_i32 (ps_page_group_count spec));
  _ ← mlift (validate_geometry (ps_geometry spec));
  planes ← plan_planes (g_device_plane_order (ps_geometry spec)) physical_pages
             (g_planes (ps_geometry spec));
  mret (mkPoolLayout spec planes).

Definition plan_kv_execution_tables (spec : KVExecutionTableSpec)
  : M LayoutBuilder KVExecutionTableLayout :=
  _ ← mlift (checked_table_bytes spec);
  logical ← mlift (checked_i32 (ts_logical_page_capacity spec));
  r ← add_tensor I32 [logical; ts_table_rows spec] 256;
  mret (mkTableLayout spec r).

Definition payload_bytes (layout : DeviceKVPagePoolLayout) : Z :=
  foldl (fun total plane => wrap64 (total + r_bytes (tr_region (dl_storage plane)))) 0
    (pool_layout_planes layout).

Definition metadata_bytes (layout : KVExecutionTableLayout) : Z :=
  r_bytes (tr_region (table_layout_block_tables layout)).

(** * Handles, leases and reservations

    An owner is the address of the pool that minted the object, [0] for the
    null pointer of a default-constructed or moved-from one. *)
Record DeviceKVPageHandle : Type := mkHandle {
  h_owner : Z;
  h_index : Z;
  h_generation : Z;
}.

Record DeviceKVPageLease : Type := mkLease {
  l_owner : Z;
  l_index : Z;
  l_generation : Z;
}.

Record DeviceKVPageReservation : Type := mkReservation {
  rs_owner : Z;
  rs_pages : Z;
}.

#[global] Instance DeviceKVPageHandle_eq_dec : EqDecision DeviceKVPageHandle.
Proof. solve_decision. Defined.
#[global] Instance DeviceKVPageLease_eq_dec : EqDecision DeviceKVPageLease.
Proof. solve_decision. Defined.

Definition null_handle : DeviceKVPageHandle := mkHandle 0 (-1) 0.
Definition null_lease : DeviceKVPageLease := mkLease 0 (-1) 0.
Definition null_reservation : DeviceKVPageReservation := mkReservation 0 0.

Definition lease_valid (l : DeviceKVPageLease) : bool := negb (l_owner l =? 0).

Definition lease_handle (l : DeviceKVPageLease) : DeviceKVPageHandle :=
  if lease_valid l then mkHandle (l_owner l) (l_index l) (l_generation l) else null_handle.

(** * The pool *)
Record FreePageRun : Type := mkRun { run_begin : Z; run_count : Z }.

Record DeviceKVPagePool : Type := mkPool {
  p_this : Z;
  p_spec : DeviceKVPagePoolSpec;
  p_planes : list Tensor;
  p_free_page_runs : list FreePageRun;
  p_page_generations : list Z;
  p_page_allocated : list bool;
  p_validation_marks : list Z;
  p_validation_stamp : Z;
  p_allocated_pages : Z;
  p_reserved_pages : Z;
}.

Definition set_runs (runs : list FreePageRun) (p : DeviceKVPagePool) : DeviceKVPagePool :=
  mkPool (p_this p) (p_spec p) (p_planes p) runs (p_page_generations p) (p_page_allocated p)
    (p_validation_marks p) (p_validation_stamp p) (p_allocated_pages p) (p_reserved_pages p).

Definition set_generations (gens : list Z) (p : DeviceKVPagePool) : DeviceKVPagePool :=
  mkPool (p_this p) (p_spec p) (p_planes p) (p_free_page_runs p) gens (p_page_allocated p)
    (p_validation_marks p) (p_validation_stamp p) (p_allocated_pages p) (p_reserved_pages p).

Definition set_page_allocated (al : list bool) (p : DeviceKVPagePool) : DeviceKVPagePool :=
  mkPool (p_this p) (p_spec p) (p_planes p) (p_free_page_runs p) (p_page_generations p) al
    (p_validation_marks p) (p_validation_stamp p) (p_allocated_pages p) (p_reserved_pages p).

Definition set_validation (marks : list Z) (stamp : Z) (p : DeviceKVPagePool)
  : DeviceKVPagePool :=
  mkPool (p_this p) (p_spec p) (p_planes p) (p_free_page_runs p) (p_page_generations p)
    (p_page_allocated p) marks stamp (p_allocated_pages p) (p_reserved_pages p).

Definition set_counts (allocated reserved : Z) (p : DeviceKVPagePool) : DeviceKVPagePool :=
  mkPool (p_this p) (p_spec p) (p_planes p) (p_free_page_runs p) (p_page_generations p)
    (p_page_allocated p) (p_validation_marks p) (p_validation_stamp p) allocated reserved.

Definition plane_order_eqb (a b : PagedKVPlaneOrder) : bool := bool_decide (a = b).

(** Bind and check one plane against the layout it was planned with. *)
Definition bind_plane (spec : DeviceKVPagePoolSpec) (physical_pages : Z) (backing : DeviceSpan)
    (planned : DeviceKVPlaneLayout) (expected : KVPlaneGeometry) : result Tensor :=
  _ ← throw_if (negb (bool_decide (dl_geometry planned = expected))) LogicError;
  plane ← tensor_region_bind (dl_storage planned) backing;
  n0 ← vat (t_ne plane) 0;
  n1 ← vat (t_ne plane) 1;
  n2 ← vat (t_ne plane) 2;
  n3 ← vat (t_ne plane) 3;
  _ ← throw_if (negb (bool_decide (t_dtype plane = pl_dtype expected)) ||
                negb (n0 =? pl_leading_extent expected) ||
                negb (n1 =? kPagedKVPageSize)) LogicError;
  _ ← match g_device_plane_order (ps_geometry spec) with
      | PageMajor =>
          throw_if (negb (n2 =? pl_head_extent expected) || negb (n3 =? physical_pages)) LogicError
      | HeadMajor =>
          throw_if (negb (n2 =? physical_pages) || negb (n3 =? pl_head_extent expected)) LogicError
      end;
  Ok plane.

(** The constructor. *)
Definition make_pool (this : Z) (backing : DeviceSpan) (layout : DeviceKVPagePoolLayout)
  : result DeviceKVPagePool :=
  let spec := pool_layout_spec layout in
  _ ← validate_geometry (ps_geometry spec);
  _ ← throw_if (negb (vsize (pool_layout_planes layout) =? vsize (g_planes (ps_geometry spec))) ||
                (vsize (pool_layout_planes layout) =? 0)) InvalidArgument;
  physical_pages ← checked_i32 (ps_page_group_count spec);
  planes ← rfor (fun acc '(planned, expected) =>
                   plane ← bind_plane spec physical_pages backing planned expected;
                   Ok (acc ++ [plane]))
             [] (zip (pool_layout_planes layout) (g_planes (ps_geometry spec)));
  let n := Z.to_nat (ps_page_group_count spec) in
  Ok (mkPool this spec planes [mkRun 0 (ps_page_group_count spec)]
        (replicate n 1) (replicate n false) (replicate n 0) 0 0 0).

Definition capacity_pages (p : DeviceKVPagePool) : Z := ps_page_group_count (p_spec p).

Definition available_pages (p : DeviceKVPagePool) : Z :=
  wrap32 (capacity_pages p - p_allocated_pages p - p_reserved_pages p).

Definition valid_handle (p : DeviceKVPagePool) (h : DeviceKVPageHandle) : bool :=
  if negb (h_owner h =? p_this p) || (h_index h <? 0) || (to_i32 (capacity_pages p) <=? h_index h)
  then false
  else match (p_page_allocated p).[h_index h], (p_page_generations p).[h_index h] with
       | Some a, Some g => a && (g =? h_generation h)
       | _, _ => false
       end.

Definition physical_index (p : DeviceKVPagePool) (h : DeviceKVPageHandle) : result Z :=
  _ ← throw_if (negb (valid_handle p h)) InvalidArgument;
  Ok (h_index h).

Definition contiguous_run_count (p : DeviceKVPagePool) (pages : list DeviceKVPageHandle)
  : result Z :=
  st ← rfor (fun '(runs, previous) page =>
               current ← physical_index p page;
               Ok (if (runs =? 0) || negb (current =? previous + 1)
                   then (wrap32 (runs + 1), current) else (runs, current)))
         (0, -2) pages;
  Ok (fst st).

(** ** Reservations *)
Definition reserve (p : DeviceKVPagePool) (pages : Z)
  : DeviceKVPagePool * option DeviceKVPageReservation :=
  if (pages =? 0) || (available_pages p <? pages) then (p, None)
  else (set_counts (p_allocated_pages p) (wrap32 (p_reserved_pages p + pages)) p,
        Some (mkReservation (p_this p) pages)).

Definition make_empty_reservation (p : DeviceKVPagePool) : DeviceKVPageReservation :=
  mkReservation (p_this p) 0.

Definition reservation_belongs_to (r : DeviceKVPageReservation) (p : DeviceKVPagePool) : bool :=
  rs_owner r =? p_this p.

Definition can_resize_reservation (p : DeviceKVPagePool) (r : DeviceKVPageReservation)
    (new_reserved_pages : Z) : bool :=
  if negb (reservation_belongs_to r p) || (p_reserved_pages p <? rs_pages r) then false
  else p_allocated_pages p + (p_reserved_pages p - rs_pages r) + new_reserved_pages
       <=? capacity_pages p.

Definition resize_reservation (p : DeviceKVPagePool) (r : DeviceKVPageReservation)
    (new_reserved_pages : Z) : result (DeviceKVPagePool * DeviceKVPageReservation) :=
  _ ← throw_if (negb (can_resize_reservation p r new_reserved_pages)) BadAlloc;
  Ok (set_counts (p_allocated_pages p)
        (wrap32 (wrap32 (p_reserved_pages p - rs_pages r) + new_reserved_pages)) p,
      mkReservation (rs_owner r) new_reserved_pages).

Definition release_reservation (p : DeviceKVPagePool) (pages : Z) : result DeviceKVPagePool :=
  _ ← throw_if (p_reserved_pages p <? pages) Terminate;
  Ok (set_counts (p_allocated_pages p) (p_reserved_pages p - pages) p).

(** [DeviceKVPageReservation::clear] and [release], on the pool that owns the
    reservation; the destructor is [release]. *)
Definition reservation_clear (p : DeviceKVPagePool) (r : DeviceKVPageReservation)
  : result (DeviceKVPagePool * DeviceKVPageReservation) :=
  if (rs_owner r =? 0) || (rs_pages r =? 0) then Ok (p, r)
  else p' ← release_reservation p (rs_pages r); Ok (p', mkReservation (rs_owner r) 0).

Definition reservation_release (p : DeviceKVPagePool) (r : DeviceKVPageReservation)
  : result (DeviceKVPagePool * DeviceKVPageReservation) :=
  if rs_owner r =? 0 then Ok (p, r)
  else p' ← release_reservation p (rs_pages r); Ok (p', null_reservation).

(** ** Free runs

    [std::upper_bound] and [std::lower_bound] run on the vector of runs, which
    the invariant below keeps sorted by [begin]. *)
Definition consume_free_run (runs : list FreePageRun) (run_index : nat) (begin count : Z)
  : result (list FreePageRun) :=
  match runs !! run_index with
  | None => Err Terminate
  | Some run =>
      _ ← throw_if (count =? 0) Terminate;
      let run_end := run_begin run + run_count run in
      let consumed_end := begin + count in
      _ ← throw_if ((begin <? run_begin run) || (run_end <? consumed_end)) Terminate;
      if (begin =? run_begin run) && (consumed_end =? run_end) then
        Ok (erase_at run_index runs)
      else if begin =? run_begin run then
        Ok (<[run_index := mkRun (run_begin run + count) (wrap32 (run_count run - count))]> runs)
      else if consumed_end =? run_end then
        Ok (<[run_index := mkRun (run_begin run) (begin - run_begin run)]> runs)
      else
        Ok (insert_at (S run_index) (mkRun consumed_end (run_end - consumed_end))
              (<[run_index := mkRun (run_begin run) (begin - run_begin run)]> runs))
  end.

Definition release_free_page (runs : list FreePageRun) (index : Z) : list FreePageRun :=
  let (before, after) := span_while (fun r => run_begin r <? index) runs in
  let joins_right := match after with
                     | next :: _ => index + 1 =? run_begin next
                     | [] => false
                     end in
  let joins_left := match last before with
                    | Some prev => run_begin prev + run_count prev =? index
                    | None => false
                    end in
  match joins_left, joins_right, last before, after with
  | true, true, Some prev, next :: after' =>
      removelast before ++
        mkRun (run_begin prev) (wrap32 (run_count prev + wrap32 (1 + run_count next))) :: after'
  | true, false, Some prev, _ =>
      removelast before ++ mkRun (run_begin prev) (wrap32 (run_count prev + 1)) :: after
  | false, true, _, next :: after' =>
      before ++ mkRun index (wrap32 (run_count next + 1)) :: after'
  | _, _, _, _ => before ++ mkRun index 1 :: after
  end.

(** ** Materialization *)

(** The contiguous run the preferred predecessor or the first fit selects:
    its position and the first page taken. *)
Definition select_preferred (runs : list FreePageRun) (preferred : option Z) (count : Z)
  : option (nat * Z) :=
  match preferred with
  | Some pref =>
      if pref <? 0 then None
      else
        let (before, _) := span_while (fun r => run_begin r <=? pref) runs in
        match last before with
        | Some candidate =>
            if (run_begin candidate <=? pref) &&
               (pref + count <=? run_begin candidate + run_count candidate)
            then Some (pred (length before), pref) else None
        | None => None
        end
  | None => None
  end.

Definition select_run (runs : list FreePageRun) (preferred : option Z) (count : Z)
  : option (nat * Z) :=
  match select_preferred runs preferred count with
  | Some s => Some s
  | None => match find_index (fun r => count <=? run_count r) runs with
            | Some (i, run) => Some (i, run_begin run)
            | None => None
            end
  end.

(** The scattered fallback: pages are taken from the first runs until enough
    are found. Reading past the last run is undefined. *)
Fixpoint take_runs (runs : list FreePageRun) (remaining : Z) : result (list Z * list FreePageRun) :=
  if remaining =? 0 then Ok ([], runs)
  else match runs with
       | [] => Err Undefined
       | run :: runs' =>
           let taken := Z.min remaining (run_count run) in
           rest ← take_runs runs' (remaining - taken);
           let pages := seqZ (run_begin run) taken ++ fst rest in
           if taken =? run_count run then Ok (pages, snd rest)
           else Ok (pages, mkRun (run_begin run + taken) (run_count run - taken) :: snd rest)
       end.

(** [append_page] on each page: a lease of the page's current generation, and
    the page marked allocated. *)
Definition append_pages (p : DeviceKVPagePool) (destination : list DeviceKVPageLease)
    (pages : list Z) : result (list DeviceKVPageLease * list bool) :=
  rfor (fun '(dest, al) page =>
          g ← vat (p_page_generations p) page;
          _ ← vat al page;
          Ok (dest ++ [mkLease (p_this p) page g], al.[page <- true]))
    (destination, p_page_allocated p) pages.

Definition leases_live (p : DeviceKVPagePool) (ls : list DeviceKVPageLease) : bool :=
  forallb (fun l => (l_owner l =? p_this p) && valid_handle p (lease_handle l)) ls.

(** [materialize]; [dest_capacity] is [destination.capacity()]. *)
Definition materialize (p : DeviceKVPagePool) (r : DeviceKVPageReservation)
    (target_page_count : Z) (destination : list DeviceKVPageLease) (dest_capacity : Z)
    (preferred_predecessor : option DeviceKVPageHandle)
  : result (DeviceKVPagePool * DeviceKVPageReservation * list DeviceKVPageLease) :=
  _ ← throw_if (negb (reservation_belongs_to r p) || (target_page_count <? vsize destination))
        InvalidArgument;
  let old_count := wrap32 (vsize destination) in
  let count := wrap32 (target_page_count - old_count) in
  _ ← throw_if ((rs_pages r <? count) || (dest_capacity <? target_page_count)) InvalidArgument;
  _ ← throw_if (negb (leases_live p destination)) InvalidArgument;
  if count =? 0 then Ok (p, r, destination) else
  _ ← throw_if (wrap32 (capacity_pages p - p_allocated_pages p) <? count) LogicError;
  preferred ← match preferred_predecessor with
              | Some h => i ← physical_index p h; Ok (Some (i + 1))
              | None => Ok (match last destination with
                            | Some l => Some (l_index l + 1)
                            | None => None
                            end)
              end;
  '(pages, runs) ← match select_run (p_free_page_runs p) preferred count with
                   | Some (k, begin) =>
                       runs ← consume_free_run (p_free_page_runs p) k begin count;
                       Ok (seqZ begin count, runs)
                   | None => take_runs (p_free_page_runs p) count
                   end;
  '(destination', allocated) ← append_pages p destination pages;
  Ok (set_counts (wrap32 (p_allocated_pages p + count)) (wrap32 (p_reserved_pages p - count))
        (set_page_allocated allocated (set_runs runs p)),
      mkReservation (rs_owner r) (wrap32 (rs_pages r - count)), destination').

Definition materialize_one (p : DeviceKVPagePool) (r : DeviceKVPageReservation)
  : result (DeviceKVPagePool * DeviceKVPageReservation * DeviceKVPageLease) :=
  _ ← throw_if (negb (reservation_belongs_to r p) || (rs_pages r =? 0)) InvalidArgument;
  match p_free_page_runs p with
  | [] => Err LogicError
  | run :: runs =>
      let page := run_begin run in
      let count := wrap32 (run_count run - 1) in
      let runs' := if count =? 0 then runs else mkRun (page + 1) count :: runs in
      _ ← vat (p_page_allocated p) page;
      g ← vat (p_page_generations p) page;
      Ok (set_counts (wrap32 (p_allocated_pages p + 1)) (wrap32 (p_reserved_pages p - 1))
            (set_page_allocated ((p_page_allocated p).[page <- true]) (set_runs runs' p)),
          mkReservation (rs_owner r) (wrap32 (rs_pages r - 1)),
          mkLease (p_this p) page g)
  end.

(** ** Release *)
Definition release_page (p : DeviceKVPagePool) (index generation : Z) : DeviceKVPagePool :=
  if (index <? 0) || (to_i32 (capacity_pages p) <=? index) then p
  else match (p_page_allocated p).[index], (p_page_generations p).[index] with
       | Some a, Some g =>
           if negb a || negb (g =? generation) then p
           else set_counts (wrap32 (p_allocated_pages p - 1)) (p_reserved_pages p)
                  (set_runs (release_free_page (p_free_page_runs p) index)
                     (set_generations ((p_page_generations p).[index <- increment_generation g])
                        (set_page_allocated ((p_page_allocated p).[index <- false]) p)))
       | _, _ => p
       end.

(** [DeviceKVPageLease::release], on the pool that owns the lease; the
    destructor is [release] too. *)
Definition lease_release (p : DeviceKVPagePool) (l : DeviceKVPageLease)
  : DeviceKVPagePool * DeviceKVPageLease * bool :=
  if negb (lease_valid l) then (p, l, false)
  else if negb (valid_handle p (mkHandle (p_this p) (l_index l) (l_generation l)))
  then (p, null_lease, false)
  else (release_page p (l_index l) (l_generation l), null_lease, true).

(** [source.resize(n)] destroys the trailing leases. *)
Definition destroy_leases (p : DeviceKVPagePool) (ls : list DeviceKVPageLease)
  : DeviceKVPagePool :=
  foldl (fun p l => fst (fst (lease_release p l))) p ls.

Definition dematerialize (p : DeviceKVPagePool) (r : DeviceKVPageReservation)
    (target_page_count : Z) (source : list DeviceKVPageLease)
  : result (DeviceKVPagePool * DeviceKVPageReservation * list DeviceKVPageLease) :=
  _ ← throw_if (negb (reservation_belongs_to r p) || (vsize source <? target_page_count))
        InvalidArgument;
  _ ← throw_if (negb (leases_live p source)) InvalidArgument;
  let released := wrap32 (vsize source - target_page_count) in
  if released =? 0 then Ok (p, r, source) else
  _ ← throw_if (U32_MAX - rs_pages r <? released) OverflowError;
  let p' := destroy_leases p (drop (Z.to_nat target_page_count) source) in
  Ok (set_counts (p_allocated_pages p') (wrap32 (p_reserved_pages p' + released)) p',
      mkReservation (rs_owner r) (wrap32 (rs_pages r + released)),
      take (Z.to_nat target_page_count) source).

Definition dematerialize_one (p : DeviceKVPagePool) (r : DeviceKVPageReservation)
    (page : DeviceKVPageLease)
  : result (DeviceKVPagePool * DeviceKVPageReservation * DeviceKVPageLease) :=
  _ ← throw_if (negb (reservation_belongs_to r p) || negb (l_owner page =? p_this p) ||
                negb (valid_handle p (lease_handle page)) || (rs_pages r =? U32_MAX))
        InvalidArgument;
  let '(p', page', ok) := lease_release p page in
  _ ← throw_if (negb ok) LogicError;
  Ok (set_counts (p_allocated_pages p') (wrap32 (p_reserved_pages p' + 1)) p',
      mkReservation (rs_owner r) (wrap32 (rs_pages r + 1)), page').

(** ** Distinct-page validation

    A mutable stamp marks the pages seen by the current call; the marks are
    cleared when the stamp wraps to zero. *)
Definition next_stamp (p : DeviceKVPagePool) : DeviceKVPagePool :=
  let stamp := wrap32 (p_validation_stamp p + 1) in
  if stamp =? 0
  then set_validation (replicate (length (p_validation_marks p)) 0) 1 p
  else set_validation (p_validation_marks p) stamp p.

Definition validate_page (page : DeviceKVPageHandle) : M DeviceKVPagePool unit :=
  p ← mget;
  index ← mlift (physical_index p page);
  m ← mlift (vat (p_validation_marks p) index);
  _ ← mthrow_if (m =? p_validation_stamp p) InvalidArgument;
  mmodify (set_validation ((p_validation_marks p).[index <- p_validation_stamp p])
             (p_validation_stamp p)).

Definition validate_distinct_pages (pages : list DeviceKVPageHandle)
  : M DeviceKVPagePool unit :=
  _ ← mmodify next_stamp;
  mfor validate_page pages.

(** ** Bundle reservation

    The pools are named by their address; [reserve_device_kv_page_bundle]
    validates every request before it reserves the first. *)
Notation pool_store := (list DeviceKVPagePool).

Definition find_pool (ps : pool_store) (id : Z) : option (nat * DeviceKVPagePool) :=
  find_index (fun p => p_this p =? id) ps.

Fixpoint bundle_validate (ps : pool_store) (seen : list Z) (requests : list (Z * Z))
  : result unit :=
  match requests with
  | [] => Ok tt
  | (id, pages) :: requests' =>
      _ ← throw_if ((id =? 0) || (pages =? 0)) InvalidArgument;
      _ ← throw_if (existsb (Z.eqb id) seen) InvalidArgument;
      match find_pool ps id with
      | None => Err Undefined
      | Some (_, p) =>
          _ ← throw_if (available_pages p <? pages) BadAlloc;
          bundle_validate ps (seen ++ [id]) requests'
      end
  end.

(** An exception in the loop destroys the reservations made so far, which
    returns their pages; the pools are then as they were. *)
Fixpoint bundle_reserve (ps : pool_store) (requests : list (Z * Z))
  : result (pool_store * list DeviceKVPageReservation) :=
  match requests with
  | [] => Ok (ps, [])
  | (id, pages) :: requests' =>
      match find_pool ps id with
      | None => Err Undefined
      | Some (k, p) =>
          match reserve p pages with
          | (_, None) => Err LogicError
          | (p', Some r) =>
              '(ps', rest) ← bundle_reserve (<[k := p']> ps) requests';
              Ok (ps', r :: rest)
          end
      end
  end.

Definition reserve_device_kv_page_bundle (requests : list (Z * Z))
  : M pool_store (list DeviceKVPageReservation) :=
  ps ← mget;
  _ ← mlift (bundle_validate ps [] requests);
  '(ps', rs) ← mlift (bundle_reserve ps requests);
  _ ← mput ps';
  mret rs.

(** * Invariants of the free runs *)

(** Runs are non-empty, lie in [lo, hi), are sorted, and two neighbours are
    separated by at least one page: the vector is maximally coalesced. *)
Fixpoint runs_ok (lo hi : Z) (runs : list FreePageRun) : Prop :=
  match runs with
  | [] => True
  | r :: rs => lo <= run_begin r /\ 0 < run_count r /\ run_begin r + run_count r <= hi /\
               runs_ok (run_begin r + run_count r + 1) hi rs
  end.

Definition in_run (q : Z) (r : FreePageRun) : bool :=
  (run_begin r <=? q) && (q <? run_begin r + run_count r).

(** A page is free when some run covers it. *)
Definition page_free (runs : list FreePageRun) (q : Z) : bool := existsb (in_run q) runs.

Definition runs_total (runs : list FreePageRun) : Z := zsum (map run_count runs).

(** The least [begin] a run after [runs] may have. *)
Definition runs_end (lo : Z) (runs : list FreePageRun) : Z :=
  foldl (fun _ r => run_begin r + run_count r + 1) lo runs.

#[global] Arguments runs_total : simpl never.
#[global] Arguments runs_end : simpl never.

Section RunLemmas.
Implicit Types (runs pre post : list FreePageRun) (r : FreePageRun).

Lemma runs_ok_mono lo lo' hi runs : lo' <= lo -> runs_ok lo hi runs -> runs_ok lo' hi runs.
Proof. destruct runs; cbn; intuition lia. Qed.

Lemma runs_end_cons lo r runs :
  runs_end lo (r :: runs) = runs_end (run_begin r + run_count r + 1) runs.
Proof. done. Qed.

Lemma runs_end_mono lo hi pre : runs_ok lo hi pre -> lo <= runs_end lo pre.
Proof.
  revert lo. induction pre as [|r pre IH]; intros lo H; [unfold runs_end; cbn; lia|].
  destruct H as (? & ? & ? & H). rewrite runs_end_cons. specialize (IH _ H). lia.
Qed.

Lemma runs_ok_app lo hi pre post :
  runs_ok lo hi (pre ++ post) <-> runs_ok lo hi pre /\ runs_ok (runs_end lo pre) hi post.
Proof.
  revert lo. induction pre as [|r pre IH]; intros lo; cbn; [tauto|]. rewrite IH, runs_end_cons. tauto.
Qed.

Lemma runs_end_app lo pre post : runs_end lo (pre ++ post) = runs_end (runs_end lo pre) post.
Proof. unfold runs_end. apply foldl_app. Qed.

Lemma page_free_app pre post q : page_free (pre ++ post) q = page_free pre q || page_free post q.
Proof. apply existsb_app. Qed.

Lemma page_free_cons r runs q : page_free (r :: runs) q = in_run q r || page_free runs q.
Proof. done. Qed.

Lemma runs_total_app pre post : runs_total (pre ++ post) = runs_total pre + runs_total post.
Proof. unfold runs_total. by rewrite map_app, zsum_app. Qed.

Lemma page_free_bounds lo hi runs q : runs_ok lo hi runs -> page_free runs q = true -> lo <= q < hi.
Proof.
  revert lo. induction runs as [|r runs IH]; intros lo H Hq; cbn in *; [done|].
  destruct H as (? & ? & ? & H). apply orb_true_iff in Hq as [Hq|Hq].
  - unfold in_run in Hq. lia.
  - specialize (IH _ H Hq). lia.
Qed.

Lemma runs_total_cons r runs : runs_total (r :: runs) = run_count r + runs_total runs.
Proof. done. Qed.

Lemma runs_total_nil : runs_total [] = 0.
Proof. done. Qed.

Lemma runs_total_bounds lo hi runs :
  runs_ok lo hi runs -> 0 <= runs_total runs /\ (lo <= hi -> runs_total runs <= hi - lo).
Proof.
  revert lo. induction runs as [|r runs IH]; intros lo H; [rewrite runs_total_nil; lia|].
  destruct H as (? & ? & ? & H). specialize (IH _ H) as [? ?]. rewrite runs_total_cons.
  destruct runs as [|r' runs']; [rewrite runs_total_nil in *; lia|].
  destruct H as (? & ? & ? & _). lia.
Qed.

(** A page that no run covers leaves room for one more. *)
Lemma runs_total_lt lo hi runs q :
  runs_ok lo hi runs -> lo <= q < hi -> page_free runs q = false ->
  runs_total runs + 1 <= hi - lo.
Proof.
  revert lo. induction runs as [|r runs IH]; intros lo H Hq Hf.
  - rewrite runs_total_nil. lia.
  - destruct H as (? & ? & ? & H). cbn in Hf. apply orb_false_iff in Hf as [Hr Hf].
    unfold in_run in Hr. rewrite runs_total_cons.
    pose proof (runs_total_bounds _ _ _ H) as [? Hle].
    destruct runs as [|r' runs']; [rewrite runs_total_nil in *; lia|].
    pose proof H as H'. destruct H' as (? & ? & ? & _).
    destruct (Z_lt_le_dec q (run_begin r)); [lia|].
    destruct (Z.eq_dec q (run_begin r + run_count r)); [lia|].
    enough (runs_total (r' :: runs') + 1 <= hi - (run_begin r + run_count r + 1)) by lia.
    apply IH; [done|lia|done].
Qed.

(** Pages before and after a run in the middle of the vector. *)
Lemma page_free_pre lo hi pre bound q :
  runs_ok lo hi pre -> runs_end lo pre <= bound + 1 -> page_free pre q = true -> q < bound.
Proof.
  revert lo. induction pre as [|r pre IH]; intros lo H Hb Hq; [done|].
  rewrite runs_end_cons in Hb. cbn in H, Hq. destruct H as (? & ? & ? & H).
  pose proof (runs_end_mono _ _ _ H).
  apply orb_true_iff in Hq as [Hq|Hq]; [unfold in_run in Hq; lia|by eapply IH].
Qed.
End RunLemmas.

(** Case analysis on which side of the middle run a page can be. *)
Ltac split_free pre post q :=
  rewrite ?page_free_app, ?page_free_cons; unfold in_run; cbn [run_begin run_count];
  destruct (page_free pre q) eqn:?, (page_free post q) eqn:?;
  repeat match goal with
  | H : forall q, page_free ?l q = true -> _, E : page_free ?l ?x = true |- _ =>
      specialize (H x E)
  end; try lia.

Lemma consume_free_run_Ok lo hi runs k r b c :
  hi <= I32_MAX -> 0 <= lo -> runs_ok lo hi runs -> runs !! k = Some r ->
  0 < c -> run_begin r <= b -> b + c <= run_begin r + run_count r ->
  exists runs', consume_free_run runs k b c = Ok runs' /\ runs_ok lo hi runs' /\
    (forall q, page_free runs' q = page_free runs q && negb ((b <=? q) && (q <? b + c))) /\
    runs_total runs' = runs_total runs - c.
Proof.
  intros Hhi Hlo0 Hok Hk Hc Hlo Hend.
  destruct (lookup_split _ _ _ Hk) as (pre & post & -> & <-).
  pose proof Hok as Hok'. apply runs_ok_app in Hok' as [Hpre Hr]. cbn in Hr.
  destruct Hr as (Hrb & Hrc & Hre & Hpost).
  pose proof (runs_end_mono _ _ _ Hpre) as Hmono.
  assert (Hpf : forall q, page_free pre q = true -> q < run_begin r)
    by (intros q; eapply page_free_pre; [done|lia]).
  assert (Hpo : forall q, page_free post q = true -> run_begin r + run_count r < q).
  { intros q Hq. pose proof (page_free_bounds _ _ _ _ Hpost Hq). lia. }
  unfold consume_free_run, throw_if. rewrite Hk, (proj2 (Z.eqb_neq c 0)) by lia.
  rewrite (proj2 (Z.ltb_ge b (run_begin r))), (proj2 (Z.ltb_ge _ (b + c))) by lia.
  unfold I32_MAX in Hhi. cbn [orb mbind result_bind].
  rewrite erase_at_middle, !insert_middle, insert_at_middle.
  destruct (Z.eqb_spec b (run_begin r)) as [Hb|Hb]; cbn [andb];
    destruct (Z.eqb_spec (b + c) (run_begin r + run_count r)) as [He|He]; cbn [andb];
    (eexists; split; [done|]; split; [apply runs_ok_app; split; [done|]|]);
    rewrite ?runs_total_app, ?runs_total_cons, ?wrap32_small by (unfold U32_MAX; lia);
    cbn [runs_ok run_begin run_count];
    try (split; [intros q; split_free pre post q|lia]).
  - eapply runs_ok_mono; [|exact Hpost]. lia.
  - repeat split; try lia. eapply runs_ok_mono; [|exact Hpost]. lia.
  - repeat split; try lia. eapply runs_ok_mono; [|exact Hpost]. lia.
  - repeat split; try lia. eapply runs_ok_mono; [|exact Hpost]. lia.
Qed.

(** Close the three conclusions on an explicit vector [pre ++ ... ++ post]. *)
Ltac finish_release pre post :=
  rewrite <- ?app_assoc; cbn [app];
  split; [|split];
  [ rewrite ?runs_ok_app; cbn [runs_ok run_begin run_count];
    rewrite ?wrap32_small by (rewrite ?wrap32_small by (unfold U32_MAX; lia); unfold U32_MAX; lia);
    repeat split; auto; try lia; (eapply runs_ok_mono; [|eassumption]; lia)
  | intros x; rewrite ?page_free_app, ?page_free_cons; unfold in_run; cbn [run_begin run_count];
    rewrite ?wrap32_small by (rewrite ?wrap32_small by (unfold U32_MAX; lia); unfold U32_MAX; lia);
    destruct (page_free pre x), (page_free post x); lia
  | rewrite ?runs_total_app, ?runs_total_cons, ?runs_total_nil; cbn [run_count];
    rewrite ?wrap32_small by (rewrite ?wrap32_small by (unfold U32_MAX; lia); unfold U32_MAX; lia);
    lia ].

Lemma release_free_page_Ok lo hi runs q :
  hi <= I32_MAX -> 0 <= lo -> runs_ok lo hi runs -> lo <= q < hi -> page_free runs q = false ->
  runs_ok lo hi (release_free_page runs q) /\
  (forall x, page_free (release_free_page runs q) x = page_free runs x || (x =? q)) /\
  runs_total (release_free_page runs q) = runs_total runs + 1.
Proof.
  intros Hhi Hlo Hok Hq Hfree. unfold release_free_page, I32_MAX in *.
  destruct (span_while _ runs) as [before after] eqn:Hs.
  apply span_while_spec in Hs as (-> & Hbefore & Hafter).
  pose proof (runs_total_bounds _ _ _ Hok) as [_ Htot].
  rewrite page_free_app in Hfree. apply orb_false_iff in Hfree as [Hfb Hfa].
  destruct (last before) as [prev|] eqn:Hl; [apply last_Some in Hl as [pre ->]|apply last_None in Hl as ->].
  - rewrite removelast_last. rewrite <- app_assoc in *. cbn [app] in *.
    apply runs_ok_app in Hok as [Hpre Hok]. cbn in Hok. destruct Hok as (? & ? & ? & Hok).
    apply Forall_app in Hbefore as [_ Hp]. simp_forall. simp_bool.
    rewrite page_free_app in Hfb. cbn in Hfb. unfold in_run in Hfb. simp_bool.
    rewrite runs_total_app, runs_total_cons in *.
    pose proof (runs_end_mono _ _ _ Hpre).
    pose proof (runs_total_bounds _ _ _ Hpre) as [? _]. pose proof (runs_total_bounds _ _ _ Hok) as [? _].
    assert (Hpe : run_begin prev + run_count prev <= q) by lia.
    destruct after as [|next post].
    + destruct (Z.eqb_spec (run_begin prev + run_count prev) q); finish_release pre (@nil FreePageRun).
    + simp_bool. cbn in Hok, Hfa. destruct Hok as (? & ? & ? & Hok). unfold in_run in Hfa. simp_bool.
      rewrite runs_total_cons in *. pose proof (runs_total_bounds _ _ _ Hok) as [? _].
      destruct (Z.eqb_spec (run_begin prev + run_count prev) q), (Z.eqb_spec (q + 1) (run_begin next));
        finish_release pre post.
  - cbn [app] in *. destruct after as [|next post].
    + finish_release (@nil FreePageRun) (@nil FreePageRun).
    + simp_bool. cbn in Hok, Hfa. destruct Hok as (? & ? & ? & Hok). unfold in_run in Hfa. simp_bool.
      rewrite runs_total_cons in *. pose proof (runs_total_bounds _ _ _ Hok) as [? _].
      destruct (Z.eqb_spec (q + 1) (run_begin next)); finish_release (@nil FreePageRun) post.
Qed.

(** What either search selects is a stretch of one free run. *)
Lemma select_run_Some runs preferred c k b :
  select_run runs preferred c = Some (k, b) ->
  exists r, runs !! k = Some r /\ run_begin r <= b /\ b + c <= run_begin r + run_count r.
Proof.
  unfold select_run. destruct (select_preferred runs preferred c) as [[k' b']|] eqn:E.
  - intros [= -> ->]. unfold select_preferred in E. destruct preferred as [pref|]; [|done].
    destruct (Z.ltb_spec pref 0); [done|].
    destruct (span_while _ runs) as [before after] eqn:Hs.
    apply span_while_spec in Hs as (-> & _ & _).
    destruct (last before) as [cand|] eqn:Hl; [|done]. apply last_Some in Hl as [pre ->].
    destruct (_ && _) eqn:Hc; [|done]. injection E as <- <-. simp_bool.
    exists cand. rewrite length_app. cbn. rewrite Nat.add_1_r. cbn.
    rewrite <- app_assoc. cbn [app]. rewrite list_lookup_middle by done. split; [done|lia].
  - destruct (find_index _ runs) as [[i r]|] eqn:F; [|done]. intros [= <- <-].
    apply find_index_Some in F as [? ?]. simp_bool. exists r. split; [done|lia].
Qed.

Lemma elem_of_seqZ_iff b c q : q ∈ seqZ b c <-> b <= q < b + c.
Proof. apply elem_of_seqZ. Qed.

Lemma bool_decide_seqZ_app b c pages q :
  bool_decide (q ∈ seqZ b c ++ pages) =
  ((b <=? q) && (q <? b + c)) || bool_decide (q ∈ pages).
Proof.
  destruct ((b <=? q) && (q <? b + c)) eqn:E; cbn.
  - apply bool_decide_eq_true_2. rewrite elem_of_app, elem_of_seqZ_iff. lia.
  - apply bool_decide_ext. rewrite elem_of_app, elem_of_seqZ_iff. intuition lia.
Qed.

Lemma bool_decide_seqZ b c q :
  bool_decide (q ∈ seqZ b c) = ((b <=? q) && (q <? b + c)).
Proof.
  rewrite <- (app_nil_r (seqZ b c)), bool_decide_seqZ_app.
  rewrite (bool_decide_eq_false_2 (q ∈ [])) by set_solver. by rewrite orb_false_r.
Qed.

(** The scattered fallback finds enough pages whenever the runs hold them. *)
Lemma take_runs_Ok lo hi runs n :
  runs_ok lo hi runs -> 0 <= n <= runs_total runs ->
  exists pages runs', take_runs runs n = Ok (pages, runs') /\ runs_ok lo hi runs' /\
    NoDup pages /\ vsize pages = n /\
    (forall q, q ∈ pages -> page_free runs q = true) /\
    (forall q, page_free runs' q = page_free runs q && negb (bool_decide (q ∈ pages))) /\
    runs_total runs' = runs_total runs - n.
Proof.
  revert lo n. induction runs as [|r runs IH]; intros lo n Hok Hn.
  - rewrite runs_total_nil in Hn. assert (n = 0) as -> by lia. exists [], []. cbn.
    repeat split; try done; [apply NoDup_nil_2|set_solver].
  - cbn [take_runs]. destruct (Z.eqb_spec n 0) as [->|Hne].
    { exists [], (r :: runs). rewrite Z.sub_0_r. 
      do 2 (split; [done|]). split; [apply NoDup_nil_2|]. do 2 (split; [done||set_solver|]).
      split; [|done]. intros q. rewrite bool_decide_eq_false_2 by set_solver. by rewrite andb_true_r. }
    destruct Hok as (? & Hc & ? & Hok). rewrite runs_total_cons in Hn.
    pose proof (runs_total_bounds _ _ _ Hok) as [? _].
    set (taken := Z.min n (run_count r)).
    assert (Ht : 0 < taken <= run_count r /\ taken <= n) by lia.
    destruct (IH (run_begin r + run_count r + 1) (n - taken)) as
      (pages & runs' & -> & Hok' & Hnd & Hsz & Hin & Hfree & Htot); [done|lia|].
    assert (Hr : forall q, page_free runs q = true -> run_begin r + run_count r < q).
    { intros q Hq. pose proof (page_free_bounds _ _ _ _ Hok Hq). lia. }
    cbn [mbind result_bind fst snd].
    assert (Hnd' : NoDup (seqZ (run_begin r) taken ++ pages)).
    { apply NoDup_app. split; [apply NoDup_seqZ|split; [|done]].
      intros q Hq%elem_of_seqZ_iff Hq'. specialize (Hr q (Hin _ Hq')). lia. }
    assert (Hsz' : vsize (seqZ (run_begin r) taken ++ pages) = n).
    { unfold vsize in *. rewrite length_app, length_seqZ. lia. }
    assert (Hin' : forall q, q ∈ seqZ (run_begin r) taken ++ pages ->
                             page_free (r :: runs) q = true).
    { intros q [Hq%elem_of_seqZ_iff|Hq]%elem_of_app; rewrite page_free_cons.
      - unfold in_run. lia.
      - rewrite (Hin _ Hq). lia. }
    destruct (Z.eqb_spec taken (run_count r)) as [Heq|Hlt];
      (do 2 eexists; split; [done|]; split; [|split; [done|split; [done|split; [done|]]]]).
    + eapply runs_ok_mono; [|exact Hok']. lia.
    + split; [|rewrite Htot, runs_total_cons; lia].
      intros q. rewrite Hfree, page_free_cons, bool_decide_seqZ_app. unfold in_run.
      specialize (Hr q). destruct (page_free runs q), (bool_decide (q ∈ pages)); lia.
    + cbn. repeat split; try lia. eapply runs_ok_mono; [|exact Hok']. lia.
    + split; [|rewrite !runs_total_cons, Htot; cbn; lia].
      intros q. rewrite !page_free_cons, Hfree, bool_decide_seqZ_app. unfold in_run.
      cbn [run_begin run_count]. specialize (Hr q). specialize (Hin q).
      destruct (page_free runs q), (decide (q ∈ pages)) as [Hp|Hp];
        [rewrite (bool_decide_eq_true_2 _ Hp)|rewrite (bool_decide_eq_false_2 _ Hp)
        |specialize (Hin Hp); discriminate|rewrite (bool_decide_eq_false_2 _ Hp)]; lia.
Qed.

#[global] Arguments page_free : simpl never.

(** * The pool invariant *)
Record pool_wf (p : DeviceKVPagePool) : Prop := {
  wf_this : 0 < p_this p;
  wf_cap : 0 < capacity_pages p <= I32_MAX;
  wf_gens_size : vsize (p_page_generations p) = capacity_pages p;
  wf_alloc_size : vsize (p_page_allocated p) = capacity_pages p;
  wf_marks_size : vsize (p_validation_marks p) = capacity_pages p;
  wf_runs : runs_ok 0 (capacity_pages p) (p_free_page_runs p);
  (** a page is free exactly when it is not allocated *)
  wf_free : forall q, 0 <= q < capacity_pages p ->
    (p_page_allocated p).[q] = Some (negb (page_free (p_free_page_runs p) q));
  (** the counters agree with the runs, and never promise more than exists *)
  wf_count : p_allocated_pages p = capacity_pages p - runs_total (p_free_page_runs p);
  wf_reserved : 0 <= p_reserved_pages p;
  wf_budget : p_allocated_pages p + p_reserved_pages p <= capacity_pages p;
  wf_gens : forall q g, (p_page_generations p).[q] = Some g -> 1 <= g <= U32_MAX;
  (** no mark is ahead of the stamp *)
  wf_stamp : 0 <= p_validation_stamp p <= U32_MAX;
  wf_marks : forall q m, (p_validation_marks p).[q] = Some m -> 0 <= m <= p_validation_stamp p;
}.

(** Put every arithmetic fact of the invariant in the context. *)
Ltac pool_facts H :=
  pose proof (wf_this _ H); pose proof (wf_cap _ H); pose proof (wf_count _ H);
  pose proof (wf_reserved _ H); pose proof (wf_budget _ H);
  pose proof (wf_gens_size _ H); pose proof (wf_alloc_size _ H);
  pose proof (runs_total_bounds _ _ _ (wf_runs _ H)) as [? ?];
  unfold I32_MAX, U32_MAX in *.

Lemma available_pages_eq p :
  pool_wf p -> available_pages p = capacity_pages p - p_allocated_pages p - p_reserved_pages p.
Proof. intros H. pool_facts H. unfold available_pages. apply wrap32_small. unfold U32_MAX. lia. Qed.

Lemma valid_handle_iff p h :
  pool_wf p ->
  valid_handle p h = true <->
  h_owner h = p_this p /\ 0 <= h_index h < capacity_pages p /\
  page_free (p_free_page_runs p) (h_index h) = false /\
  (p_page_generations p).[h_index h] = Some (h_generation h).
Proof.
  intros H. pool_facts H. unfold valid_handle. rewrite to_i32_small by (unfold I32_MAX; lia).
  destruct (Z.eqb_spec (h_owner h) (p_this p)), (Z.ltb_spec (h_index h) 0),
    (Z.leb_spec (capacity_pages p) (h_index h)); cbn; try (split; [discriminate|lia]).
  rewrite (wf_free _ H) by lia.
  destruct (vget_is_Some (p_page_generations p) (h_index h)) as [g Hg]; [lia|]. rewrite Hg.
  rewrite andb_true_iff, negb_true_iff, Z.eqb_eq. intuition congruence.
Qed.

Lemma append_pages_Ok p dest pages :
  pool_wf p -> Forall (fun q => 0 <= q < capacity_pages p) pages ->
  exists ls al, append_pages p dest pages = Ok (dest ++ ls, al) /\
    Forall2 (fun q l => l_owner l = p_this p /\ l_index l = q /\
                        (p_page_generations p).[q] = Some (l_generation l)) pages ls /\
    vsize al = capacity_pages p /\
    (forall q, 0 <= q < capacity_pages p ->
       al.[q] = if bool_decide (q ∈ pages) then Some true else (p_page_allocated p).[q]).
Proof.
  intros H Hp. unfold append_pages.
  assert (Hgen : forall d al0, vsize al0 = capacity_pages p ->
    exists ls al, rfor (fun '(dest, al) page =>
                          g ← vat (p_page_generations p) page; _ ← vat al page;
                          Ok (dest ++ [mkLease (p_this p) page g], al.[page <- true]))
                    (d, al0) pages = Ok (d ++ ls, al) /\
      Forall2 (fun q l => l_owner l = p_this p /\ l_index l = q /\
                 (p_page_generations p).[q] = Some (l_generation l)) pages ls /\
      vsize al = capacity_pages p /\
      (forall q, 0 <= q < capacity_pages p ->
         al.[q] = if bool_decide (q ∈ pages) then Some true else al0.[q])).
  { induction Hp as [|q pages Hq Hp IH]; intros d al0 Hsz.
    - exists [], al0. rewrite app_nil_r. split; [done|]. split; [apply Forall2_nil_2|]. split; [done|].
      intros q _. by rewrite bool_decide_eq_false_2 by set_solver.
    - cbn [rfor]. unfold vat.
      destruct (vget_is_Some (p_page_generations p) q) as [g Hg]; [by rewrite (wf_gens_size _ H)|].
      destruct (vget_is_Some al0 q) as [a Ha]; [by rewrite Hsz|].
      rewrite Hg, Ha. cbn [mbind result_bind].
      destruct (IH (d ++ [mkLease (p_this p) q g]) (al0.[q <- true])) as
        (ls & al & Hr & Hf & Hs & Hget); [by rewrite vsize_vset|].
      unfold vat in Hr. rewrite Hr. exists (mkLease (p_this p) q g :: ls), al.
      split; [by rewrite <- app_assoc|]. split; [by apply Forall2_cons_2|]. split; [done|].
      intros x Hx. rewrite Hget by done. rewrite vget_vset, Hsz.
      rewrite (bool_decide_ext (x ∈ q :: pages) (x = q \/ x ∈ pages)) by set_solver.
      destruct (bool_decide (x ∈ pages)) eqn:Ep.
      + apply bool_decide_eq_true in Ep. by rewrite bool_decide_eq_true_2 by auto.
      + apply bool_decide_eq_false in Ep. destruct (Z.eqb_spec q x) as [->|]; cbn.
        * rewrite bool_decide_eq_true_2 by auto.
          rewrite (proj2 (Z.leb_le 0 x)), (proj2 (Z.ltb_lt x _)) by lia. done.
        * by rewrite bool_decide_eq_false_2 by naive_solver. }
  apply Hgen, (wf_alloc_size _ H).
Qed.

(** ** Taking pages *)

(** [p'] is [p] after the [pages] left the free runs for their new leases. *)
Record pages_taken (p p' : DeviceKVPagePool) (pages : list Z) (ls : list DeviceKVPageLease)
  : Prop := {
  pt_wf : pool_wf p';
  pt_this : p_this p' = p_this p;
  pt_spec : p_spec p' = p_spec p;
  pt_gens : p_page_generations p' = p_page_generations p;
  pt_free_before : forall q, q ∈ pages -> page_free (p_free_page_runs p) q = true;
  pt_free_after : forall q, page_free (p_free_page_runs p') q =
                    page_free (p_free_page_runs p) q && negb (bool_decide (q ∈ pages));
  pt_nodup : NoDup pages;
  pt_leases : Forall2 (fun q l => l_owner l = p_this p /\ l_index l = q /\
                 (p_page_generations p).[q] = Some (l_generation l)) pages ls;
  pt_allocated : p_allocated_pages p' = p_allocated_pages p + vsize pages;
  pt_reserved : p_reserved_pages p' = p_reserved_pages p - vsize pages;
}.

Lemma take_pages_wf p runs al pages ls n :
  pool_wf p -> runs_ok 0 (capacity_pages p) runs ->
  (forall q, q ∈ pages -> page_free (p_free_page_runs p) q = true) ->
  (forall q, page_free runs q =
     page_free (p_free_page_runs p) q && negb (bool_decide (q ∈ pages))) ->
  runs_total runs = runs_total (p_free_page_runs p) - n -> NoDup pages -> vsize pages = n ->
  vsize al = capacity_pages p ->
  (forall q, 0 <= q < capacity_pages p ->
     al.[q] = if bool_decide (q ∈ pages) then Some true else (p_page_allocated p).[q]) ->
  Forall2 (fun q l => l_owner l = p_this p /\ l_index l = q /\
             (p_page_generations p).[q] = Some (l_generation l)) pages ls ->
  n <= p_reserved_pages p ->
  pages_taken p (set_counts (wrap32 (p_allocated_pages p + n)) (wrap32 (p_reserved_pages p - n))
                   (set_page_allocated al (set_runs runs p))) pages ls.
Proof.
  intros H Hok Hbefore Hafter Htot Hnd Hn Hal Hget Hls Hres. pool_facts H.
  pose proof (vsize_nonneg pages).
  rewrite !wrap32_small by (unfold U32_MAX; lia).
  constructor; cbn; try done; [|lia|lia].
  constructor; cbn; try lia; try apply H; try done.
  - intros q Hq. change (capacity_pages _) with (capacity_pages p) in Hq.
    rewrite Hget, Hafter, (wf_free _ H) by done.
    destruct (bool_decide (q ∈ pages)) eqn:E; cbn; [by rewrite andb_false_r|by rewrite andb_true_r].
  - change (capacity_pages _) with (capacity_pages p). lia.
  - change (capacity_pages _) with (capacity_pages p). lia.
Qed.

Lemma pages_taken_valid p p' pages ls h :
  pool_wf p -> pages_taken p p' pages ls -> valid_handle p h = true -> valid_handle p' h = true.
Proof.
  intros H Ht. rewrite (valid_handle_iff _ _ H), (valid_handle_iff _ _ (pt_wf _ _ _ _ Ht)).
  rewrite (pt_this _ _ _ _ Ht), (pt_gens _ _ _ _ Ht), (pt_free_after _ _ _ _ Ht).
  unfold capacity_pages. rewrite (pt_spec _ _ _ _ Ht). intros (? & ? & -> & ?). done.
Qed.

Lemma pages_taken_live p p' pages ls l :
  pool_wf p -> pages_taken p p' pages ls -> l ∈ ls ->
  l_owner l = p_this p /\ page_free (p_free_page_runs p) (l_index l) = true /\
  valid_handle p' (lease_handle l) = true.
Proof.
  intros H Ht Hl. apply list_elem_of_lookup in Hl as [i Hi].
  destruct (Forall2_lookup_r _ _ _ _ _ (pt_leases _ _ _ _ Ht) Hi) as (q & Hq & Ho & <- & Hg).
  assert (Hin : l_index l ∈ pages) by (by eapply list_elem_of_lookup_2).
  pose proof (pt_free_before _ _ _ _ Ht _ Hin) as Hf.
  split; [done|]. split; [done|]. rewrite (valid_handle_iff _ _ (pt_wf _ _ _ _ Ht)).
  pool_facts H. unfold lease_handle, lease_valid. rewrite Ho, (proj2 (Z.eqb_neq _ 0)) by lia. cbn.
  rewrite (pt_this _ _ _ _ Ht), (pt_gens _ _ _ _ Ht), (pt_free_after _ _ _ _ Ht), Hf.
  unfold capacity_pages. rewrite (pt_spec _ _ _ _ Ht). fold (capacity_pages p).
  pose proof (page_free_bounds _ _ _ _ (wf_runs _ H) Hf).
  rewrite bool_decide_eq_true_2 by done. repeat split; auto; lia.
Qed.

Lemma leases_live_spec p ls :
  pool_wf p ->
  leases_live p ls = true <->
  Forall (fun l => l_owner l = p_this p /\ valid_handle p (lease_handle l) = true) ls.
Proof.
  intros H. unfold leases_live.
  induction ls as [|l ls IH]; cbn.
  - split; [intros; apply Forall_nil_2|done].
  - rewrite !andb_true_iff, IH, Z.eqb_eq. split.
    + intros [[? ?] ?]. by apply Forall_cons_2.
    + intros Hf. apply Forall_cons_1 in Hf as [[? ?] ?]. done.
Qed.

(** The pages [materialize] takes, by either search or by the fallback. *)
Lemma choose_pages_Ok p preferred c :
  pool_wf p -> 0 < c <= runs_total (p_free_page_runs p) ->
  exists pages runs,
    match select_run (p_free_page_runs p) preferred c with
    | Some (k, begin) => runs ← consume_free_run (p_free_page_runs p) k begin c;
                         Ok (seqZ begin c, runs)
    | None => take_runs (p_free_page_runs p) c
    end = Ok (pages, runs) /\
    runs_ok 0 (capacity_pages p) runs /\ NoDup pages /\ vsize pages = c /\
    (forall q, q ∈ pages -> page_free (p_free_page_runs p) q = true) /\
    (forall q, page_free runs q =
       page_free (p_free_page_runs p) q && negb (bool_decide (q ∈ pages))) /\
    runs_total runs = runs_total (p_free_page_runs p) - c.
Proof.
  intros H Hc. pool_facts H. pose proof (wf_runs _ H) as Hok.
  destruct (select_run _ _ _) as [[k b]|] eqn:E.
  - apply select_run_Some in E as (r & Hk & Hb & He).
    destruct (consume_free_run_Ok 0 (capacity_pages p) (p_free_page_runs p) k r b c)
      as (runs & -> & Hr & Hf & Ht); try done; [unfold I32_MAX; lia|lia|].
    exists (seqZ b c), runs. split; [done|]. split; [done|]. split; [apply NoDup_seqZ|].
    split; [unfold vsize; rewrite length_seqZ; lia|]. split; [|split; [|done]].
    + intros q Hq%elem_of_seqZ_iff. destruct (lookup_split _ _ _ Hk) as (pre & post & -> & _).
      rewrite page_free_app, page_free_cons. unfold in_run. lia.
    + intros q. by rewrite Hf, bool_decide_seqZ.
  - destruct (take_runs_Ok 0 (capacity_pages p) (p_free_page_runs p) c)
      as (pages & runs & -> & ? & ? & ? & ? & ? & ?); [done|lia|]. by exists pages, runs.
Qed.

(** ** Materialization never fails on a reservation *)
Lemma materialize_Ok p r target dest cap pred :
  pool_wf p -> rs_owner r = p_this p -> 0 <= rs_pages r <= p_reserved_pages p ->
  vsize dest <= target -> target - vsize dest <= rs_pages r -> target <= cap ->
  target <= U32_MAX -> leases_live p dest = true ->
  match pred with Some h => vsize dest < target -> valid_handle p h = true | None => True end ->
  exists p' pages ls,
    materialize p r target dest cap pred =
      Ok (p', mkReservation (rs_owner r) (rs_pages r - (target - vsize dest)), dest ++ ls) /\
    vsize pages = target - vsize dest /\
    pages_taken p p' pages ls.
Proof.
  intros H Hro Hrp Hle Hfit Hcap Hu32 Hlive Hpred. pool_facts H. pose proof (vsize_nonneg dest).
  unfold materialize, reservation_belongs_to, throw_if. rewrite Hro, Z.eqb_refl, Hlive.
  rewrite (proj2 (Z.ltb_ge target _)) by lia. cbn [negb orb mbind result_bind].
  rewrite (wrap32_small (vsize dest)) by (unfold U32_MAX; lia).
  rewrite (wrap32_small (target - vsize dest)) by (unfold U32_MAX; lia).
  rewrite (proj2 (Z.ltb_ge (rs_pages r) _)), (proj2 (Z.ltb_ge cap _)) by lia.
  cbn [negb orb mbind result_bind].
  destruct (Z.eqb_spec (target - vsize dest) 0) as [Hz|Hnz].
  { exists p, [], []. rewrite Hz, Z.sub_0_r, app_nil_r. split; [by rewrite <- Hro; destruct r|].
    split; [done|]. constructor; try done; try (unfold vsize; cbn; lia).
    - intros q Hq. by apply not_elem_of_nil in Hq.
    - intros q. rewrite bool_decide_eq_false_2 by set_solver. by rewrite andb_true_r.
    - apply NoDup_nil_2. }
  rewrite (wrap32_small (capacity_pages p - p_allocated_pages p)) by (unfold U32_MAX; lia).
  rewrite (proj2 (Z.ltb_ge (capacity_pages p - p_allocated_pages p) _)) by lia.
  cbn [negb orb mbind result_bind].
  assert (Hpf : exists preferred,
    match pred with
    | Some h => i ← physical_index p h; Ok (Some (i + 1))
    | None => Ok (match last dest with Some l => Some (l_index l + 1) | None => None end)
    end = Ok preferred).
  { destruct pred as [h|]; [|eauto]. unfold physical_index, throw_if. rewrite Hpred by lia. cbn. eauto. }
  destruct Hpf as [preferred Hpf]. unfold mbind, result_bind in Hpf |- *. rewrite Hpf.
  destruct (choose_pages_Ok p preferred (target - vsize dest)) as
    (pages & runs & Hch & Hok & Hnd & Hsz & Hin & Hfree & Htot); [done|lia|].
  unfold mbind, result_bind in Hch. rewrite Hch.
  destruct (append_pages_Ok p dest pages) as (ls & al & Hap & Hls & Hal & Hget); [done| |].
  { apply Forall_forall. intros q Hq. apply (page_free_bounds _ _ _ _ (wf_runs _ H)). auto. }
  rewrite Hap. cbn. rewrite (wrap32_small (rs_pages r - _)) by (unfold U32_MAX; lia).
  do 3 eexists. split; [done|]. split; [done|].
  by apply take_pages_wf; try done; lia.
Qed.

(** Taking the first page of the first run. *)
Lemma take_front_page lo cap run runs :
  runs_ok lo cap (run :: runs) ->
  let runs' := if run_count run - 1 =? 0 then runs else mkRun (run_begin run + 1) (run_count run - 1) :: runs in
  runs_ok lo cap runs' /\ runs_total runs' = run_count run + runs_total runs - 1 /\
  forall q, page_free runs' q = page_free (run :: runs) q && negb (bool_decide (q ∈ [run_begin run])).
Proof.
  intros (Hb & Hc & He & Hok) runs'.
  assert (Hlow : forall q, page_free runs q = true -> run_begin run + run_count run < q)
    by (intros q Hq; pose proof (page_free_bounds _ _ _ _ Hok Hq); lia).
  assert (Hs : forall q, bool_decide (q ∈ [run_begin run]) = (q =? run_begin run)).
  { intros q. destruct (Z.eqb_spec q (run_begin run)) as [->|];
      [apply bool_decide_eq_true_2|apply bool_decide_eq_false_2]; set_solver. }
  unfold runs'. destruct (Z.eqb_spec (run_count run - 1) 0).
  - split; [eapply runs_ok_mono; [|exact Hok]; lia|]. split; [lia|].
    intros q. rewrite Hs, page_free_cons. unfold in_run. specialize (Hlow q).
    destruct (page_free runs q); lia.
  - split; [cbn; repeat split; try lia; eapply runs_ok_mono; [|exact Hok]; lia|].
    split; [rewrite runs_total_cons; cbn; lia|].
    intros q. rewrite Hs, !page_free_cons. unfold in_run. cbn. specialize (Hlow q).
    destruct (page_free runs q); lia.
Qed.

Lemma materialize_one_Ok p r :
  pool_wf p -> rs_owner r = p_this p -> 0 < rs_pages r <= p_reserved_pages p ->
  exists p' l, materialize_one p r = Ok (p', mkReservation (rs_owner r) (rs_pages r - 1), l) /\
    pages_taken p p' [l_index l] [l].
Proof.
  intros H Hro Hrp. pool_facts H.
  unfold materialize_one, reservation_belongs_to, throw_if. rewrite Hro, Z.eqb_refl.
  rewrite (proj2 (Z.eqb_neq (rs_pages r) 0)) by lia. cbn [negb orb mbind result_bind].
  pose proof (wf_runs _ H) as Hok.
  destruct (p_free_page_runs p) as [|run runs] eqn:Er; [rewrite runs_total_nil in *; lia|].
  pose proof Hok as (Hb & Hc & He & _).
  assert (Hfr : page_free (p_free_page_runs p) (run_begin run) = true)
    by (rewrite Er, page_free_cons; unfold in_run; lia).
  rewrite (wrap32_small (run_count run - 1)) by (unfold U32_MAX; lia).
  unfold vat. destruct (vget_is_Some (p_page_allocated p) (run_begin run)) as [a ->]; [lia|].
  destruct (vget_is_Some (p_page_generations p) (run_begin run)) as [g Hg]; [lia|]. rewrite Hg.
  cbn [mbind result_bind]. rewrite (wrap32_small (rs_pages r - 1)) by (unfold U32_MAX; lia).
  do 2 eexists. split; [done|]. cbn [l_index].
  rewrite runs_total_cons in *.
  destruct (take_front_page _ _ run runs Hok) as (Hok' & Htot' & Hfree').
  apply take_pages_wf; try done; rewrite ?Er, ?runs_total_cons; try done; try lia.
  - intros q ->%list_elem_of_singleton. by rewrite <- Er.
  - apply NoDup_singleton.
  - by rewrite vsize_vset.
  - intros q Hq. rewrite vget_vset, (wf_alloc_size _ H).
    destruct (Z.eqb_spec (run_begin run) q) as [<-|].
    + rewrite bool_decide_eq_true_2 by set_solver.
      by rewrite (proj2 (Z.leb_le _ _)), (proj2 (Z.ltb_lt _ _)) by lia.
    + by rewrite bool_decide_eq_false_2 by set_solver.
  - apply Forall2_cons_2; [done|apply Forall2_nil_2].
Qed.

(** ** Releasing pages *)
Lemma increment_generation_spec g :
  1 <= g <= U32_MAX ->
  1 <= increment_generation g <= U32_MAX /\ increment_generation g <> g.
Proof.
  unfold increment_generation, wrap32, U32_MAX. intros Hg.
  destruct (Z.eq_dec g 4294967295) as [->|]; [by vm_compute|].
  rewrite (Z.mod_small (g + 1)) by lia. rewrite (proj2 (Z.eqb_neq _ 0)) by lia. lia.
Qed.

(** [p'] is [p] after the [pages] went back to the free runs. *)
Record pages_released (p p' : DeviceKVPagePool) (pages : list Z) : Prop := {
  pr_wf : pool_wf p';
  pr_this : p_this p' = p_this p;
  pr_spec : p_spec p' = p_spec p;
  pr_free : forall q, page_free (p_free_page_runs p') q =
              page_free (p_free_page_runs p) q || bool_decide (q ∈ pages);
  pr_gens : forall q, q ∉ pages -> (p_page_generations p').[q] = (p_page_generations p).[q];
  pr_gens_in : forall q, q ∈ pages ->
    (p_page_generations p').[q] = increment_generation <$> (p_page_generations p).[q];
  pr_allocated : p_allocated_pages p' = p_allocated_pages p - vsize pages;
  pr_reserved : p_reserved_pages p' = p_reserved_pages p;
}.

Lemma release_page_Ok p q g :
  pool_wf p -> valid_handle p (mkHandle (p_this p) q g) = true ->
  pages_released p (release_page p q g) [q].
Proof.
  intros H Hv. pose proof Hv as (_ & Hq & Hfree & Hg)%(valid_handle_iff _ _ H). cbn in *.
  pool_facts H. unfold release_page. rewrite to_i32_small by (unfold I32_MAX; lia).
  rewrite (proj2 (Z.ltb_ge q 0)), (proj2 (Z.leb_gt (capacity_pages p) q)) by lia. cbn [orb].
  rewrite (wf_free _ H), Hfree, Hg, Z.eqb_refl by done. cbn [negb orb].
  destruct (release_free_page_Ok 0 (capacity_pages p) (p_free_page_runs p) q)
    as (Hok & Hf & Ht); try done; [unfold I32_MAX; lia|apply H|].
  pose proof (runs_total_bounds _ _ _ Hok) as [_ Hb].
  rewrite wrap32_small by (unfold U32_MAX; lia).
  assert (Hs : forall x, bool_decide (x ∈ [q]) = (x =? q)).
  { intros x. destruct (Z.eqb_spec x q) as [->|];
      [apply bool_decide_eq_true_2|apply bool_decide_eq_false_2]; set_solver. }
  constructor; cbn; try done.
  - constructor; cbn; try apply H; try (rewrite vsize_vset; by apply H); try done;
      change (capacity_pages _) with (capacity_pages p); try lia.
    + intros x Hx. rewrite vget_vset, Hf, (wf_alloc_size _ H).
      destruct (Z.eqb_spec q x) as [<-|Hn].
      * rewrite (proj2 (Z.leb_le 0 q)), (proj2 (Z.ltb_lt q _)), Z.eqb_refl by lia.
        by rewrite orb_true_r.
      * cbn. rewrite (wf_free _ H), (proj2 (Z.eqb_neq x q)) by (done || lia).
        by rewrite orb_false_r.
    + intros x y. rewrite vget_vset. case_match; [|apply H].
      intros [= <-]. by apply increment_generation_spec, (wf_gens _ H q).
  - intros x. by rewrite Hf, Hs.
  - intros x Hx. apply vget_vset_ne. set_solver.
  - intros x ->%list_elem_of_singleton. by rewrite vget_vset_eq, Hg by lia.
Qed.

Lemma pages_released_valid p p' pages h :
  pool_wf p -> pages_released p p' pages ->
  valid_handle p h = true -> h_index h ∉ pages -> valid_handle p' h = true.
Proof.
  intros H Hr. rewrite (valid_handle_iff _ _ H), (valid_handle_iff _ _ (pr_wf _ _ _ Hr)).
  intros (? & ? & Hf & ?) Hn. rewrite (pr_this _ _ _ Hr), (pr_free _ _ _ Hr), (pr_gens _ _ _ Hr) by done.
  unfold capacity_pages. rewrite (pr_spec _ _ _ Hr), Hf. by rewrite bool_decide_eq_false_2.
Qed.

(** A handle to a released page is stale. *)
Lemma pages_released_stale p p' pages h :
  pages_released p p' pages -> h_index h ∈ pages -> valid_handle p' h = false.
Proof.
  intros Hr Hin. apply not_true_is_false. rewrite (valid_handle_iff _ _ (pr_wf _ _ _ Hr)).
  intros (_ & _ & Hf & _). rewrite (pr_free _ _ _ Hr), bool_decide_eq_true_2 in Hf by done.
  by rewrite orb_true_r in Hf.
Qed.

Lemma pages_released_refl p : pool_wf p -> pages_released p p [].
Proof.
  intros H. constructor; try done.
  - intros q. rewrite bool_decide_eq_false_2 by set_solver. by rewrite orb_false_r.
  - intros q Hq. by apply not_elem_of_nil in Hq.
  - unfold vsize. cbn. lia.
Qed.

Lemma pages_released_trans p1 p2 p3 ps qs :
  pages_released p1 p2 ps -> pages_released p2 p3 qs -> (forall q, q ∈ ps -> q ∈ qs -> False) ->
  pages_released p1 p3 (ps ++ qs).
Proof.
  intros A B Hdisj. constructor.
  - apply B.
  - by rewrite (pr_this _ _ _ B), (pr_this _ _ _ A).
  - by rewrite (pr_spec _ _ _ B), (pr_spec _ _ _ A).
  - intros q. rewrite (pr_free _ _ _ B), (pr_free _ _ _ A), <- orb_assoc. f_equal.
    rewrite <- bool_decide_or. apply bool_decide_ext. set_solver.
  - intros q Hq. rewrite (pr_gens _ _ _ B), (pr_gens _ _ _ A); set_solver.
  - intros q [Hq|Hq]%elem_of_app.
    + rewrite (pr_gens _ _ _ B), (pr_gens_in _ _ _ A); naive_solver.
    + rewrite (pr_gens_in _ _ _ B), (pr_gens _ _ _ A); naive_solver.
  - rewrite (pr_allocated _ _ _ B), (pr_allocated _ _ _ A), vsize_app. lia.
  - by rewrite (pr_reserved _ _ _ B), (pr_reserved _ _ _ A).
Qed.

(** A lease the pool would accept: minted by it, of the current generation. *)
Definition lease_live (p : DeviceKVPagePool) (l : DeviceKVPageLease) : Prop :=
  l_owner l = p_this p /\ valid_handle p (lease_handle l) = true.

Lemma lease_live_handle p l :
  pool_wf p -> l_owner l = p_this p ->
  lease_valid l = true /\ lease_handle l = mkHandle (p_this p) (l_index l) (l_generation l).
Proof.
  intros H Ho. pool_facts H. unfold lease_handle, lease_valid.
  by rewrite Ho, (proj2 (Z.eqb_neq _ 0)) by lia.
Qed.

Lemma lease_release_Ok p l :
  pool_wf p -> lease_live p l ->
  exists p', lease_release p l = (p', null_lease, true) /\ pages_released p p' [l_index l].
Proof.
  intros H [Ho Hv]. destruct (lease_live_handle p l H Ho) as [Hlv Hh]. rewrite Hh in Hv.
  unfold lease_release. rewrite Hlv, Hv. cbn. eexists. split; [done|]. by apply release_page_Ok.
Qed.

Lemma destroy_leases_Ok p ls :
  pool_wf p -> Forall (lease_live p) ls -> NoDup (map l_index ls) ->
  pages_released p (destroy_leases p ls) (map l_index ls).
Proof.
  revert p. induction ls as [|l ls IH]; intros p H Hl Hnd; [by apply pages_released_refl|].
  apply Forall_cons_1 in Hl as [Hl Hls]. cbn in Hnd. apply NoDup_cons in Hnd as [Hni Hnd].
  destruct (lease_release_Ok p l H Hl) as (p1 & E & Hr).
  unfold destroy_leases. cbn [foldl]. rewrite E. cbn [fst].
  change (map l_index (l :: ls)) with ([l_index l] ++ map l_index ls).
  eapply pages_released_trans; [exact Hr| |set_solver].
  apply IH; [apply Hr| |done].
  apply Forall_forall. intros x Hx. pose proof Hls as Hf. rewrite Forall_forall in Hf.
  destruct (Hf x Hx) as [Ho Hv]. split; [by rewrite (pr_this _ _ _ Hr)|].
  eapply pages_released_valid; [done|exact Hr|done|].
  destruct (lease_live_handle p x H Ho) as [_ ->]. cbn. intros Heq%list_elem_of_singleton.
  apply Hni. rewrite <- Heq. apply list_elem_of_fmap_2. done.
Qed.

(** * Clients of the pool

    The pool, the live reservations and the lease vectors its clients hold.
    One step is one call; a call that throws changes nothing. *)
Record client : Type := mkClient {
  c_pool : DeviceKVPagePool;
  c_reservations : list DeviceKVPageReservation;
  c_vectors : list (list DeviceKVPageLease);
}.

Definition all_leases (c : client) : list DeviceKVPageLease := concat (c_vectors c).

Inductive client_step : client -> client -> Prop :=
  | step_reserve p rs vs n p' r :
      is_u32 n -> reserve p n = (p', Some r) ->
      client_step (mkClient p rs vs) (mkClient p' (r :: rs) vs)
  | step_empty p rs vs :
      client_step (mkClient p rs vs) (mkClient p (make_empty_reservation p :: rs) vs)
  | step_vector p rs vs :
      client_step (mkClient p rs vs) (mkClient p rs ([] :: vs))
  | step_resize p rs k r vs n p' r' :
      is_u32 n -> rs !! k = Some r -> resize_reservation p r n = Ok (p', r') ->
      client_step (mkClient p rs vs) (mkClient p' (<[k := r']> rs) vs)
  | step_clear p rs k r vs p' r' :
      rs !! k = Some r -> reservation_clear p r = Ok (p', r') ->
      client_step (mkClient p rs vs) (mkClient p' (<[k := r']> rs) vs)
  | step_drop_reservation p rs k r vs p' r' :
      rs !! k = Some r -> reservation_release p r = Ok (p', r') ->
      client_step (mkClient p rs vs) (mkClient p' (delete k rs) vs)
  | step_materialize p rs k r vs j v target cap pred p' r' v' :
      is_u32 target -> rs !! k = Some r -> vs !! j = Some v ->
      materialize p r target v cap pred = Ok (p', r', v') ->
      client_step (mkClient p rs vs) (mkClient p' (<[k := r']> rs) (<[j := v']> vs))
  | step_materialize_one p rs k r vs p' r' l :
      rs !! k = Some r -> materialize_one p r = Ok (p', r', l) ->
      client_step (mkClient p rs vs) (mkClient p' (<[k := r']> rs) ([l] :: vs))
  | step_dematerialize p rs k r vs j v target p' r' v' :
      is_u32 target -> rs !! k = Some r -> vs !! j = Some v ->
      dematerialize p r target v = Ok (p', r', v') ->
      client_step (mkClient p rs vs) (mkClient p' (<[k := r']> rs) (<[j := v']> vs))
  | step_dematerialize_one p rs k r vs j l p' r' l' :
      rs !! k = Some r -> vs !! j = Some [l] ->
      dematerialize_one p r l = Ok (p', r', l') ->
      client_step (mkClient p rs vs) (mkClient p' (<[k := r']> rs) (delete j vs))
  | step_drop_vector p rs vs j v :
      vs !! j = Some v ->
      client_step (mkClient p rs vs) (mkClient (destroy_leases p v) rs (delete j vs))
  | step_validate p rs vs pages p' res :
      validate_distinct_pages pages p = (p', res) ->
      client_step (mkClient p rs vs) (mkClient p' rs vs).

Inductive client_reachable (p0 : DeviceKVPagePool) : client -> Prop :=
  | reach_init : client_reachable p0 (mkClient p0 [] [])
  | reach_step c c' : client_reachable p0 c -> client_step c c' -> client_reachable p0 c'.

(** The reservations add up to the reserved count; the leases are live, own
    distinct pages and add up to the allocated count. *)
Record client_ok (c : client) : Prop := {
  ck_wf : pool_wf (c_pool c);
  ck_owner : Forall (fun r => rs_owner r = p_this (c_pool c) /\ 0 <= rs_pages r) (c_reservations c);
  ck_sum : zsum (map rs_pages (c_reservations c)) = p_reserved_pages (c_pool c);
  ck_live : Forall (lease_live (c_pool c)) (all_leases c);
  ck_distinct : NoDup (map l_index (all_leases c));
  ck_allocated : vsize (all_leases c) = p_allocated_pages (c_pool c);
}.

(** ** Bookkeeping on the two lists *)
Lemma zsum_pages_insert rs k r r' :
  rs !! k = Some r ->
  zsum (map rs_pages (<[k := r']> rs)) = zsum (map rs_pages rs) - rs_pages r + rs_pages r'.
Proof.
  intros Hk. rewrite insert_take_drop by (by eapply lookup_lt_Some).
  rewrite <- (take_drop_middle _ _ _ Hk) at 3. rewrite !map_app, !zsum_app. cbn [map].
  rewrite !zsum_cons. lia.
Qed.

Lemma zsum_pages_delete rs k r :
  rs !! k = Some r ->
  zsum (map rs_pages (delete k rs)) = zsum (map rs_pages rs) - rs_pages r.
Proof.
  intros Hk. rewrite delete_take_drop, <- (take_drop_middle _ _ _ Hk) at 1.
  rewrite (take_drop_middle _ _ _ Hk) at 1.
  rewrite <- (take_drop_middle _ _ _ Hk) at 3. rewrite !map_app, !zsum_app. cbn [map].
  rewrite !zsum_cons. lia.
Qed.

Lemma concat_insert_perm {A} (vs : list (list A)) j v ls :
  vs !! j = Some v -> concat (<[j := v ++ ls]> vs) ≡ₚ concat vs ++ ls.
Proof.
  intros Hj. rewrite insert_take_drop by (by eapply lookup_lt_Some).
  rewrite <- (take_drop_middle _ _ _ Hj) at 3. rewrite !concat_app. cbn [concat].
  rewrite <- !app_assoc. do 2 f_equiv. apply Permutation_app_comm.
Qed.

Lemma concat_delete_perm {A} (vs : list (list A)) j v :
  vs !! j = Some v -> concat vs ≡ₚ concat (delete j vs) ++ v.
Proof.
  intros Hj. rewrite delete_take_drop. rewrite <- (take_drop_middle _ _ _ Hj) at 1.
  rewrite !concat_app. cbn [concat]. rewrite <- app_assoc. f_equiv. apply Permutation_app_comm.
Qed.

Lemma concat_shrink_perm {A} (vs : list (list A)) j v n :
  vs !! j = Some v -> concat vs ≡ₚ concat (<[j := take n v]> vs) ++ drop n v.
Proof.
  intros Hj. rewrite <- (take_drop n v) in Hj.
  rewrite <- (concat_insert_perm (<[j := take n v]> vs) j (take n v)).
  - rewrite list_insert_insert_eq, list_insert_id; done.
  - apply list_lookup_insert_eq. by eapply lookup_lt_Some.
Qed.

(** ** Each call preserves the client invariant *)
Lemma pool_wf_reserved p n :
  pool_wf p -> 0 <= n -> p_allocated_pages p + n <= capacity_pages p ->
  pool_wf (set_counts (p_allocated_pages p) n p).
Proof. intros H ? ?. constructor; try apply H; cbn; done. Qed.

Lemma client_counts c rs' n :
  client_ok c ->
  Forall (fun r => rs_owner r = p_this (c_pool c) /\ 0 <= rs_pages r) rs' ->
  zsum (map rs_pages rs') = n -> p_allocated_pages (c_pool c) + n <= capacity_pages (c_pool c) ->
  client_ok (mkClient (set_counts (p_allocated_pages (c_pool c)) n (c_pool c)) rs' (c_vectors c)).
Proof.
  intros H Ho Hs Hb. constructor; try apply H; try done; cbn.
  apply pool_wf_reserved; [apply H| |done]. rewrite <- Hs. apply zsum_nonneg, Forall_map.
  eapply Forall_impl; [exact Ho|]. by intros ? [].
Qed.

Lemma client_taken c p' rs' vs' pages ls :
  client_ok c -> pages_taken (c_pool c) p' pages ls ->
  Forall (fun r => rs_owner r = p_this (c_pool c) /\ 0 <= rs_pages r) rs' ->
  zsum (map rs_pages rs') = zsum (map rs_pages (c_reservations c)) - vsize pages ->
  concat vs' ≡ₚ all_leases c ++ ls ->
  client_ok (mkClient p' rs' vs').
Proof.
  intros H Ht Ho Hs Hp. pose proof (ck_wf _ H) as Hwf.
  assert (Hidx : map l_index ls = pages).
  { pose proof (pt_leases _ _ _ _ Ht) as Hf. clear -Hf.
    induction Hf as [|q l qs ls (_ & ? & _) _ IH]; cbn; congruence. }
  constructor; cbn; unfold all_leases; cbn [c_vectors].
  - apply Ht.
  - by rewrite (pt_this _ _ _ _ Ht).
  - rewrite (pt_reserved _ _ _ _ Ht), Hs, (ck_sum _ H). done.
  - rewrite Hp. apply Forall_app. split.
    + eapply Forall_impl; [apply H|]. intros l [Hl Hv].
      split; [by rewrite (pt_this _ _ _ _ Ht)|by eapply pages_taken_valid].
    + apply Forall_forall. intros l Hl.
      destruct (pages_taken_live _ _ _ _ _ Hwf Ht Hl) as (? & _ & ?).
      split; [by rewrite (pt_this _ _ _ _ Ht)|done].
  - rewrite Hp, map_app, Hidx. apply NoDup_app. split; [apply H|]. split; [|apply Ht].
    intros q (l & -> & Hl)%list_elem_of_fmap Hin.
    apply (pt_free_before _ _ _ _ Ht) in Hin. pose proof (ck_live _ H) as Hf.
    rewrite Forall_forall in Hf. destruct (Hf l Hl) as [Hlo Hv].
    destruct (lease_live_handle _ _ Hwf Hlo) as [_ Hh]. rewrite Hh in Hv.
    apply (valid_handle_iff _ _ Hwf) in Hv as (_ & _ & Hv & _). cbn in Hv. congruence.
  - unfold vsize. rewrite (Permutation_length Hp). fold (vsize (all_leases c ++ ls)).
    rewrite vsize_app, (ck_allocated _ H), (pt_allocated _ _ _ _ Ht), <- Hidx.
    unfold vsize. by rewrite length_map.
Qed.

Lemma client_released c p' rs' vs' ls n :
  client_ok c -> all_leases c ≡ₚ concat vs' ++ ls ->
  pages_released (c_pool c) p' (map l_index ls) ->
  Forall (fun r => rs_owner r = p_this (c_pool c) /\ 0 <= rs_pages r) rs' ->
  zsum (map rs_pages rs') = n -> n <= p_reserved_pages (c_pool c) + vsize ls ->
  client_ok (mkClient (set_counts (p_allocated_pages p') n p') rs' vs').
Proof.
  intros H Hp Hr Ho Hs Hn. pose proof (ck_wf _ H) as Hwf. pool_facts Hwf.
  assert (Hsz : vsize (map l_index ls) = vsize ls) by (unfold vsize; by rewrite length_map).
  pose proof (ck_live _ H) as Hlive. pose proof (ck_distinct _ H) as Hnd.
  rewrite Hp in Hlive. rewrite Hp, map_app in Hnd. apply Forall_app in Hlive as [Hlive _].
  apply NoDup_app in Hnd as (Hnd & Hdisj & _).
  constructor; cbn; unfold all_leases; cbn [c_vectors]; try done.
  - apply pool_wf_reserved; [apply Hr| |].
    + rewrite <- Hs. apply zsum_nonneg, Forall_map. eapply Forall_impl; [exact Ho|]. by intros ? [].
    + rewrite (pr_allocated _ _ _ Hr), Hsz. unfold capacity_pages. rewrite (pr_spec _ _ _ Hr).
      fold (capacity_pages (c_pool c)). lia.
  - by rewrite (pr_this _ _ _ Hr).
  - apply Forall_forall. intros l Hl. rewrite Forall_forall in Hlive.
    destruct (Hlive l Hl) as [Hlo Hv]. split; [cbn; by rewrite (pr_this _ _ _ Hr)|].
    change (valid_handle p' (lease_handle l) = true).
    eapply pages_released_valid; [done|exact Hr|done|].
    destruct (lease_live_handle _ _ Hwf Hlo) as [_ ->]. cbn. apply Hdisj.
    apply list_elem_of_fmap_2. done.
  - rewrite (pr_allocated _ _ _ Hr), Hsz, <- (ck_allocated _ H).
    unfold vsize. rewrite (Permutation_length Hp), length_app. lia.
Qed.

(** ** Distinct-page validation *)
Lemma validate_loop_spec pages p (seen : list Z) :
  pool_wf p -> 0 < p_validation_stamp p ->
  (forall q, 0 <= q < capacity_pages p ->
     (p_validation_marks p).[q] = Some (p_validation_stamp p) <-> q ∈ seen) ->
  exists marks res,
    mfor validate_page pages p = (set_validation marks (p_validation_stamp p) p, res) /\
    pool_wf (set_validation marks (p_validation_stamp p) p) /\
    (res = Ok tt \/ res = Err InvalidArgument) /\
    (res = Ok tt <-> Forall (fun h => valid_handle p h = true) pages /\
                     NoDup (map h_index pages) /\ (forall q, q ∈ seen -> q ∉ map h_index pages)).
Proof.
  revert p seen. induction pages as [|h pages IH]; intros p seen H Hst Hseen.
  { exists (p_validation_marks p), (Ok tt). split; [by destruct p|].
    split; [by destruct p|]. split; [auto|]. split; [|done]. intros _.
    split; [apply Forall_nil_2|]. split; [apply NoDup_nil_2|]. intros q _. apply not_elem_of_nil. }
  cbn [mfor]. unfold mbind at 1, M_bind. unfold validate_page at 1.
  unfold mbind, M_bind, mget, mlift, physical_index, throw_if, mthrow_if, mmodify.
  destruct (valid_handle p h) eqn:Hv; cbn [negb mbind result_bind].
  2:{ exists (p_validation_marks p), (Err InvalidArgument). cbn.
      split; [by destruct p|]. split; [by destruct p|]. split; [auto|].
      split; [done|]. intros [Hf _]. apply Forall_cons_1 in Hf as [Hf _]. congruence. }
  pose proof Hv as (_ & Hq & _)%(valid_handle_iff _ _ H). unfold vat.
  destruct (vget_is_Some (p_validation_marks p) (h_index h)) as [m Hm];
    [by rewrite (wf_marks_size _ H)|]. rewrite Hm. cbn.
  destruct (Z.eqb_spec m (p_validation_stamp p)) as [->|Hne]; cbn.
  { exists (p_validation_marks p), (Err InvalidArgument).
    split; [by destruct p|]. split; [by destruct p|]. split; [auto|]. split; [done|].
    intros (_ & _ & Hd). apply Hseen, Hd in Hm; [|done]. set_solver. }
  set (p1 := set_validation _ _ p).
  assert (Hp1 : pool_wf p1).
  { constructor; try apply H; cbn.
    - rewrite vsize_vset. apply H.
    - intros q m'. rewrite vget_vset. case_match; [intros [= <-]|apply H].
      pose proof (wf_stamp _ H). lia. }
  destruct (IH p1 (h_index h :: seen)) as (marks & res & -> & Hwf & Hres & Hiff); [done|done| |].
  { intros q Hqb. change (capacity_pages p1) with (capacity_pages p) in Hqb. cbn.
    rewrite vget_vset, (wf_marks_size _ H). destruct (Z.eqb_spec (h_index h) q) as [<-|].
    - rewrite (proj2 (Z.leb_le _ _)), (proj2 (Z.ltb_lt _ _)) by lia. cbn. set_solver.
    - cbn. rewrite Hseen by done. set_solver. }
  exists marks, res. split; [done|]. split; [done|]. split; [done|]. rewrite Hiff.
  cbn [map]. rewrite NoDup_cons, Forall_cons. change (valid_handle p1) with (valid_handle p).
  set_solver.
Qed.

Lemma next_stamp_spec p :
  pool_wf p ->
  pool_wf (next_stamp p) /\ 0 < p_validation_stamp (next_stamp p) /\
  (forall q, (p_validation_marks (next_stamp p)).[q] <> Some (p_validation_stamp (next_stamp p))) /\
  next_stamp p = set_validation (p_validation_marks (next_stamp p))
                   (p_validation_stamp (next_stamp p)) p.
Proof.
  intros H. pose proof (wf_stamp _ H) as Hs. unfold next_stamp, wrap32, U32_MAX in *.
  destruct (Z.eq_dec (p_validation_stamp p) 4294967295) as [E|].
  - rewrite E. change ((4294967295 + 1) mod 4294967296) with 0. cbn.
    assert (Hrep : forall q m, (replicate (length (p_validation_marks p)) 0).[q] = Some m -> m = 0).
    { intros q m Hm. pose proof (vget_Some_bounds _ _ _ Hm) as Hb. unfold vsize in Hb.
      rewrite length_replicate in Hb. rewrite vget_replicate in Hm by lia. congruence. }
    split; [|split; [lia|split; [|done]]].
    + constructor; try apply H; cbn; unfold U32_MAX; try lia.
      * unfold vsize. rewrite length_replicate. apply H.
      * intros q m ->%Hrep. lia.
    + intros q Hq%Hrep. lia.
  - rewrite Z.mod_small by lia. rewrite (proj2 (Z.eqb_neq _ 0)) by lia. cbn.
    split; [|split; [lia|split; [|done]]].
    + constructor; try apply H; cbn; unfold U32_MAX; try lia.
      intros q m Hm%(wf_marks _ H). lia.
    + intros q Hq%(wf_marks _ H). lia.
Qed.

Lemma validate_distinct_spec p pages :
  pool_wf p ->
  exists marks stamp res,
    validate_distinct_pages pages p = (set_validation marks stamp p, res) /\
    pool_wf (set_validation marks stamp p) /\
    (res = Ok tt \/ res = Err InvalidArgument) /\
    (res = Ok tt <-> Forall (fun h => valid_handle p h = true) pages /\
                     NoDup (map h_index pages)).
Proof.
  intros H. destruct (next_stamp_spec p H) as (Hwf & Hpos & Hno & Heq).
  destruct (validate_loop_spec pages (next_stamp p) []) as (marks & res & Hl & Hw & Hr & Hi);
    [done|done| |].
  { intros q _. split; [by intros ?%Hno|by intros ?%not_elem_of_nil]. }
  exists marks, (p_validation_stamp (next_stamp p)), res.
  unfold validate_distinct_pages. rewrite (M_bind_run _ _ p (next_stamp p) tt) by done.
  assert (Hsv : forall m st, set_validation m st (next_stamp p) = set_validation m st p)
    by (intros; by rewrite Heq).
  assert (Hvh : forall h, valid_handle (next_stamp p) h = valid_handle p h)
    by (intros; by rewrite Heq).
  rewrite Hl, Hsv. rewrite Hsv in Hw. setoid_rewrite Hvh in Hi.
  split; [done|]. split; [done|]. split; [done|]. rewrite Hi.
  split; [by intros (? & ? & _)|]. intros [? ?]. split; [done|]. split; [done|].
  by intros ? ?%not_elem_of_nil.
Qed.

(** ** Every step preserves the client invariant *)
Lemma client_reservation c k r :
  client_ok c -> c_reservations c !! k = Some r ->
  rs_owner r = p_this (c_pool c) /\ 0 <= rs_pages r <= p_reserved_pages (c_pool c).
Proof.
  intros H Hk. pose proof (ck_owner _ H) as Hf. rewrite Forall_lookup in Hf.
  destruct (Hf _ _ Hk) as [? ?]. split; [done|]. split; [done|]. rewrite <- (ck_sum _ H).
  apply zsum_elem_le.
  - apply Forall_map. eapply Forall_impl; [apply H|]. by intros ? [].
  - apply list_elem_of_fmap_2. by eapply list_elem_of_lookup_2.
Qed.

Lemma client_vector c j v :
  client_ok c -> c_vectors c !! j = Some v ->
  Forall (lease_live (c_pool c)) v /\ leases_live (c_pool c) v = true /\
  NoDup (map l_index v) /\ vsize v <= p_allocated_pages (c_pool c).
Proof.
  intros H Hj. pose proof (concat_delete_perm _ _ _ Hj) as Hp.
  pose proof (ck_live _ H) as Hl. pose proof (ck_distinct _ H) as Hd.
  pose proof (ck_allocated _ H) as Ha. unfold all_leases, vsize in *. rewrite Hp in Hl, Hd.
  rewrite (Permutation_length Hp), length_app in Ha. rewrite map_app in Hd.
  apply Forall_app in Hl as [_ Hl]. apply NoDup_app in Hd as (_ & _ & Hd).
  split; [done|]. split; [by apply leases_live_spec, Hl; apply H|]. split; [done|lia].
Qed.

Lemma reservations_insert c k r' :
  client_ok c -> rs_owner r' = p_this (c_pool c) -> 0 <= rs_pages r' ->
  Forall (fun r => rs_owner r = p_this (c_pool c) /\ 0 <= rs_pages r)
    (<[k := r']> (c_reservations c)).
Proof. intros H ? ?. apply Forall_insert; [apply H|done]. Qed.

Lemma materialize_inv p r target dest cap pred x :
  pool_wf p -> is_u32 target -> 0 <= rs_pages r -> vsize dest <= capacity_pages p ->
  materialize p r target dest cap pred = Ok x ->
  rs_owner r = p_this p /\ vsize dest <= target /\ target - vsize dest <= rs_pages r /\
  target <= cap /\ leases_live p dest = true /\
  match pred with Some h => vsize dest < target -> valid_handle p h = true | None => True end.
Proof.
  intros H [? Ht] Hr Hd Hm. pool_facts H. pose proof (vsize_nonneg dest).
  unfold materialize, reservation_belongs_to in Hm.
  apply bind_Ok in Hm as (? & Hm1%throw_if_Ok & Hm). simp_bool.
  rewrite (wrap32_small (vsize dest)) in Hm by (unfold U32_MAX; lia).
  rewrite (wrap32_small (target - vsize dest)) in Hm by (unfold U32_MAX; lia).
  apply bind_Ok in Hm as (? & Hm2%throw_if_Ok & Hm). simp_bool.
  apply bind_Ok in Hm as (? & Hm3%throw_if_Ok & Hm). simp_bool.
  do 5 (split; [done|]). destruct pred as [h|]; [|done]. intros Hlt.
  rewrite (proj2 (Z.eqb_neq (target - vsize dest) 0)) in Hm by lia.
  apply bind_Ok in Hm as (? & _ & Hm). apply bind_Ok in Hm as (? & Hm & _).
  unfold physical_index in Hm. simp_res. by simp_bool.
Qed.

Lemma client_step_materialize p rs k r vs j v target cap pred p' r' v' :
  client_ok (mkClient p rs vs) ->
  is_u32 target -> rs !! k = Some r -> vs !! j = Some v ->
  materialize p r target v cap pred = Ok (p', r', v') ->
  client_ok (mkClient p' (<[k := r']> rs) (<[j := v']> vs)).
Proof.
  intros H Hu Hk Hj Hm. pose proof (ck_wf _ H) as Hwf. cbn in Hwf. pool_facts Hwf.
  destruct (client_reservation _ k r H Hk) as [Hro Hrp].
  destruct (client_vector _ j v H Hj) as (_ & Hlive & _ & Hsz). cbn in *.
  pose proof Hm as (_ & ? & ? & ? & _ & ?)%materialize_inv; try done; [|lia..].
  destruct (materialize_Ok p r target v cap pred) as (p1 & pages & ls & E & Hn & Ht); try done; [apply Hu|].
  rewrite E in Hm. injection Hm as <- <- <-.
  eapply (client_taken _ _ _ _ _ _ H Ht).
  - apply reservations_insert; cbn; try done. lia.
  - cbn. rewrite (zsum_pages_insert _ _ _ _ Hk). cbn. lia.
  - by apply concat_insert_perm.
Qed.

Lemma client_step_materialize_one p rs k r vs p' r' l :
  client_ok (mkClient p rs vs) -> rs !! k = Some r ->
  materialize_one p r = Ok (p', r', l) ->
  client_ok (mkClient p' (<[k := r']> rs) ([l] :: vs)).
Proof.
  intros H Hk Hm. pose proof (ck_wf _ H) as Hwf. cbn in Hwf.
  destruct (client_reservation _ k r H Hk) as [Hro Hrp]. cbn in *.
  assert (rs_pages r <> 0).
  { unfold materialize_one in Hm. apply bind_Ok in Hm as (? & Hm%throw_if_Ok & _). by simp_bool. }
  destruct (materialize_one_Ok p r) as (p1 & l1 & E & Ht); try done; [lia|].
  rewrite E in Hm. injection Hm as <- <- <-.
  eapply (client_taken _ _ _ _ _ _ H Ht).
  - apply reservations_insert; cbn; try done. lia.
  - cbn. rewrite (zsum_pages_insert _ _ _ _ Hk). unfold vsize. cbn. lia.
  - unfold all_leases. cbn. apply (Permutation_app_comm [l1]).
Qed.

Lemma client_step_dematerialize p rs k r vs j v target p' r' v' :
  client_ok (mkClient p rs vs) ->
  is_u32 target -> rs !! k = Some r -> vs !! j = Some v ->
  dematerialize p r target v = Ok (p', r', v') ->
  client_ok (mkClient p' (<[k := r']> rs) (<[j := v']> vs)).
Proof.
  intros H [Hu _] Hk Hj Hm. pose proof (ck_wf _ H) as Hwf. cbn in Hwf. pool_facts Hwf.
  destruct (client_reservation _ k r H Hk) as [Hro Hrp].
  destruct (client_vector _ j v H Hj) as (Hlv & _ & Hnd & Hsz). cbn in *.
  pose proof (ck_sum _ H) as Hsum. cbn in Hsum.
  unfold dematerialize in Hm.
  apply bind_Ok in Hm as (? & Hm1%throw_if_Ok & Hm). apply bind_Ok in Hm as (? & _ & Hm). simp_bool.
  rewrite (wrap32_small (vsize v - target)) in Hm by (unfold U32_MAX; lia).
  destruct (Z.eqb_spec (vsize v - target) 0).
  { injection Hm as <- <- <-. by rewrite !list_insert_id. }
  apply bind_Ok in Hm as (? & _ & Hm). injection Hm as <- <- <-.
  set (ls := drop (Z.to_nat target) v).
  assert (Hls : vsize ls = vsize v - target) by (unfold ls, vsize in *; rewrite length_drop; lia).
  assert (Hrel : pages_released p (destroy_leases p ls) (map l_index ls)).
  { apply destroy_leases_Ok; [done|by apply Forall_drop|].
    unfold ls. rewrite <- (take_drop (Z.to_nat target) v), map_app in Hnd.
    by apply NoDup_app in Hnd as (_ & _ & ?). }
  rewrite (pr_reserved _ _ _ Hrel), !wrap32_small by (unfold U32_MAX; lia).
  eapply (client_released (mkClient p rs vs)); [done|by apply concat_shrink_perm|done| | |].
  - apply (reservations_insert _ _ _ H); cbn; try done. lia.
  - rewrite (zsum_pages_insert _ _ _ _ Hk). cbn. lia.
  - cbn. fold ls. lia.
Qed.

Lemma client_step_dematerialize_one p rs k r vs j l p' r' l' :
  client_ok (mkClient p rs vs) -> rs !! k = Some r -> vs !! j = Some [l] ->
  dematerialize_one p r l = Ok (p', r', l') ->
  client_ok (mkClient p' (<[k := r']> rs) (delete j vs)).
Proof.
  intros H Hk Hj Hm. pose proof (ck_wf _ H) as Hwf. cbn in Hwf. pool_facts Hwf.
  destruct (client_reservation _ k r H Hk) as [Hro Hrp].
  destruct (client_vector _ j _ H Hj) as (Hlv & _ & _ & Hsz). cbn in *.
  pose proof (ck_sum _ H) as Hsum. cbn in Hsum. apply Forall_cons_1 in Hlv as [Hl _].
  unfold dematerialize_one in Hm. apply bind_Ok in Hm as (? & _ & Hm).
  destruct (lease_release_Ok p l Hwf Hl) as (p1 & E & Hrel). rewrite E in Hm. cbn in Hm.
  injection Hm as <- <- <-. unfold vsize in Hsz. cbn in Hsz.
  rewrite (pr_reserved _ _ _ Hrel), !wrap32_small by (unfold U32_MAX; lia).
  eapply (client_released (mkClient p rs vs) _ _ _ [l]); [done|by apply concat_delete_perm|done| | |].
  - apply (reservations_insert _ _ _ H); cbn; try done. lia.
  - rewrite (zsum_pages_insert _ _ _ _ Hk). cbn. lia.
  - cbn. unfold vsize. cbn. lia.
Qed.

Lemma client_step_drop_vector p rs vs j v :
  client_ok (mkClient p rs vs) -> vs !! j = Some v ->
  client_ok (mkClient (destroy_leases p v) rs (delete j vs)).
Proof.
  intros H Hj. pose proof (ck_wf _ H) as Hwf. cbn in Hwf.
  destruct (client_vector _ j _ H Hj) as (Hlv & _ & Hnd & _). cbn in *.
  pose proof (destroy_leases_Ok p v Hwf Hlv Hnd) as Hrel.
  pose proof (pr_reserved _ _ _ Hrel) as Hres.
  replace (destroy_leases p v) with
    (set_counts (p_allocated_pages (destroy_leases p v)) (p_reserved_pages p) (destroy_leases p v))
    by (rewrite <- Hres; by destruct (destroy_leases p v)).
  eapply (client_released (mkClient p rs vs)); [done|by apply concat_delete_perm|done|apply H|apply H|].
  cbn. pose proof (vsize_nonneg v). lia.
Qed.

(** The calls that only move the reserved count. *)
Lemma client_step_reserve p rs vs n p' r :
  client_ok (mkClient p rs vs) -> is_u32 n -> reserve p n = (p', Some r) ->
  client_ok (mkClient p' (r :: rs) vs).
Proof.
  intros H [Hn _] Hr. pose proof (ck_wf _ H) as Hwf. cbn in Hwf. pool_facts Hwf.
  unfold reserve in Hr. rewrite (available_pages_eq _ Hwf) in Hr.
  destruct (_ || _) eqn:E; [done|]. injection Hr as <- <-. simp_bool.
  rewrite wrap32_small by (unfold U32_MAX; lia).
  apply (client_counts (mkClient p rs vs)); cbn; try done.
  - apply Forall_cons_2; [done|apply H].
  - rewrite zsum_cons. cbn. pose proof (ck_sum _ H) as Hs. cbn in Hs. lia.
  - lia.
Qed.

Lemma client_step_resize p rs k r vs n p' r' :
  client_ok (mkClient p rs vs) -> is_u32 n -> rs !! k = Some r ->
  resize_reservation p r n = Ok (p', r') ->
  client_ok (mkClient p' (<[k := r']> rs) vs).
Proof.
  intros H [Hn _] Hk Hr. pose proof (ck_wf _ H) as Hwf. cbn in Hwf. pool_facts Hwf.
  destruct (client_reservation _ k r H Hk) as [Hro Hrp]. pose proof (ck_sum _ H) as Hs. cbn in *.
  unfold resize_reservation, can_resize_reservation in Hr. simp_res. simp_bool.
  destruct (_ || _) eqn:E; [done|]. simp_bool.
  rewrite !wrap32_small by (rewrite ?wrap32_small; unfold U32_MAX; lia).
  apply (client_counts (mkClient p rs vs)); cbn; try done; [|rewrite (zsum_pages_insert _ _ _ _ Hk); cbn; lia|lia].
  by apply (reservations_insert _ _ _ H).
Qed.

Lemma client_step_release p rs k r vs p' :
  client_ok (mkClient p rs vs) -> rs !! k = Some r -> release_reservation p (rs_pages r) = Ok p' ->
  client_ok (mkClient p' (delete k rs) vs) /\
  client_ok (mkClient p' (<[k := mkReservation (rs_owner r) 0]> rs) vs).
Proof.
  intros H Hk Hr. destruct (client_reservation _ k r H Hk) as [Hro Hrp].
  pose proof (wf_budget _ (ck_wf _ H)). pose proof (ck_sum _ H) as Hs. cbn in *.
  unfold release_reservation in Hr. simp_res. simp_bool.
  split; apply (client_counts (mkClient p rs vs)); cbn; try done; try lia.
  - apply Forall_delete, H.
  - rewrite (zsum_pages_delete _ _ _ Hk). lia.
  - by apply (reservations_insert _ _ _ H).
  - rewrite (zsum_pages_insert _ _ _ _ Hk). cbn. lia.
Qed.

Lemma client_step_ok c c' : client_ok c -> client_step c c' -> client_ok c'.
Proof.
  intros H Hs. destruct Hs.
  - by eapply client_step_reserve.
  - constructor; try apply H; cbn. apply Forall_cons_2; [cbn; split; [done|lia]|apply H].
  - constructor; try apply H.
  - by eapply client_step_resize.
  - unfold reservation_clear in *. destruct (_ || _).
    + simp_res. by rewrite list_insert_id.
    + simp_res. by eapply client_step_release.
  - unfold reservation_release in *. destruct (client_reservation _ k r H) as [Hro _]; [done|].
    pose proof (wf_this _ (ck_wf _ H)). cbn in *. rewrite (proj2 (Z.eqb_neq _ 0)) in * by lia.
    simp_res. by eapply client_step_release.
  - by eapply client_step_materialize.
  - by eapply client_step_materialize_one.
  - by eapply client_step_dematerialize.
  - by eapply client_step_dematerialize_one.
  - by eapply client_step_drop_vector.
  - destruct (validate_distinct_spec p pages (ck_wf _ H)) as (m & st & res' & E & Hwf & _).
    match goal with Hv : validate_distinct_pages _ _ = _ |- _ => rewrite E in Hv; injection Hv as <- <- end.
    constructor; try apply H. done.
Qed.

(** ** The constructor establishes the invariant *)
Lemma make_pool_wf this backing layout p :
  0 < this -> is_u32 (ps_page_group_count (pool_layout_spec layout)) ->
  make_pool this backing layout = Ok p -> pool_wf p.
Proof.
  intros Hthis [Hu _] H. unfold make_pool, checked_i32 in H. simp_res. simp_bool.
  set (n := ps_page_group_count _) in *.
  constructor; cbn; unfold capacity_pages; cbn; fold n; unfold U32_MAX; try lia.
  - unfold vsize. rewrite length_replicate. lia.
  - unfold vsize. rewrite length_replicate. lia.
  - unfold vsize. rewrite length_replicate. lia.
  - intros q Hq. rewrite vget_replicate by lia. unfold page_free. cbn. unfold in_run. cbn.
    rewrite (proj2 (Z.leb_le 0 q)), (proj2 (Z.ltb_lt q _)) by lia. done.
  - unfold runs_total, zsum. cbn. lia.
  - intros q g Hg. pose proof (vget_Some_bounds _ _ _ Hg) as Hb. unfold vsize in Hb.
    rewrite length_replicate in Hb. rewrite vget_replicate in Hg by lia. simplify_eq. lia.
  - intros q g Hg. pose proof (vget_Some_bounds _ _ _ Hg) as Hb. unfold vsize in Hb.
    rewrite length_replicate in Hb. rewrite vget_replicate in Hg by lia. simplify_eq. lia.
Qed.

Lemma make_pool_fresh this backing layout p :
  make_pool this backing layout = Ok p -> p_allocated_pages p = 0 /\ p_reserved_pages p = 0.
Proof. intros H. unfold make_pool in H. by simp_res. Qed.

Lemma reachable_client_ok p0 c :
  pool_wf p0 -> p_allocated_pages p0 = 0 -> p_reserved_pages p0 = 0 ->
  client_reachable p0 c -> client_ok c.
Proof.
  intros Hwf Ha Hr. induction 1 as [|c c' _ IH Hs]; [|by eapply client_step_ok].
  constructor; cbn; try done.
  all: unfold all_leases; cbn; auto using NoDup_nil_2, Forall_nil_2.
Qed.

(** A pool that was just constructed, and a client that got to [c] from it. *)
Definition client_of (this : Z) (backing : DeviceSpan) (layout : DeviceKVPagePoolLayout)
    (c : client) : Prop :=
  exists p0, 0 < this /\ is_u32 (ps_page_group_count (pool_layout_spec layout)) /\
    make_pool this backing layout = Ok p0 /\ client_reachable p0 c.

Lemma client_of_ok this backing layout c :
  client_of this backing layout c -> client_ok c.
Proof.
  intros (p0 & ? & ? & Hm & Hr). pose proof (make_pool_fresh _ _ _ _ Hm) as [? ?].
  eapply reachable_client_ok; [by eapply make_pool_wf|done..].
Qed.

(** * Bundle reservations *)

(** What a successful request does to the pools: the pool it names, and no
    other, reserves its pages. *)
Definition grant_request (ps : pool_store) (request : Z * Z) : pool_store :=
  map (fun p => if p_this p =? fst request
                then set_counts (p_allocated_pages p) (p_reserved_pages p + snd request) p
                else p) ps.

(** Every request is for a non-zero number of pages of a pool no other
    request names, which has them available. *)
Definition bundle_admissible (ps : pool_store) (requests : list (Z * Z)) : Prop :=
  Forall (fun rq => fst rq <> 0 /\ snd rq <> 0) requests /\ NoDup (map fst requests) /\
  forall p rq, p ∈ ps -> rq ∈ requests -> p_this p = fst rq ->
    snd rq <= capacity_pages p - p_allocated_pages p - p_reserved_pages p.

(** The pools are well formed and have distinct addresses. *)
Definition pools_ok (ps : pool_store) : Prop := Forall pool_wf ps /\ NoDup (map p_this ps).

Lemma find_pool_Some ps id k p :
  find_pool ps id = Some (k, p) -> ps !! k = Some p /\ p_this p = id.
Proof. intros [? ?%Z.eqb_eq]%find_index_Some. done. Qed.

Lemma find_pool_is_Some ps id : id ∈ map p_this ps -> is_Some (find_pool ps id).
Proof.
  intros (p & -> & Hp)%list_elem_of_fmap. destruct (find_pool ps (p_this p)) as [[]|] eqn:E; [done|].
  apply find_index_None in E. rewrite Forall_forall in E. apply E in Hp. by rewrite Z.eqb_refl in Hp.
Qed.

Lemma pool_this_unique ps p q :
  NoDup (map p_this ps) -> p ∈ ps -> q ∈ ps -> p_this p = p_this q -> p = q.
Proof.
  intros Hnd [i Hi]%list_elem_of_lookup [j Hj]%list_elem_of_lookup Heq.
  assert (i = j); [|congruence].
  eapply NoDup_lookup; [exact Hnd| |].
  - change (map p_this ps) with (p_this <$> ps). by rewrite list_lookup_fmap, Hi.
  - change (map p_this ps) with (p_this <$> ps). by rewrite list_lookup_fmap, Hj, Heq.
Qed.

Lemma grant_request_this ps rq : map p_this (grant_request ps rq) = map p_this ps.
Proof.
  unfold grant_request. rewrite map_map. apply map_ext. intros p. by destruct (_ =? _).
Qed.

Lemma grant_request_insert ps id k p n :
  NoDup (map p_this ps) -> ps !! k = Some p -> p_this p = id ->
  <[k := set_counts (p_allocated_pages p) (p_reserved_pages p + n) p]> ps
  = grant_request ps (id, n).
Proof.
  intros Hnd Hk Hid. apply list_eq. intros i.
  change (grant_request ps (id, n)) with
    ((fun q => if p_this q =? id then set_counts (p_allocated_pages q) (p_reserved_pages q + n) q
               else q) <$> ps).
  rewrite list_lookup_fmap. destruct (decide (i = k)) as [->|Hne].
  - rewrite list_lookup_insert_eq by (by eapply lookup_lt_Some). rewrite Hk. cbn.
    by rewrite Hid, Z.eqb_refl.
  - rewrite list_lookup_insert_ne by done. destruct (ps !! i) as [q|] eqn:Hi; [|done]. cbn.
    destruct (Z.eqb_spec (p_this q) id) as [Heq|]; [exfalso|done]. apply Hne.
    eapply NoDup_lookup; [exact Hnd| |].
    + change (map p_this ps) with (p_this <$> ps). by rewrite list_lookup_fmap, Hi.
    + change (map p_this ps) with (p_this <$> ps). rewrite list_lookup_fmap, Hk; cbn; congruence.
Qed.

(** Requests name existing pools or the null pointer, and count in 32 bits. *)
Definition requests_ok (ps : pool_store) (requests : list (Z * Z)) : Prop :=
  Forall (fun rq => (fst rq <> 0 -> fst rq ∈ map p_this ps) /\ is_u32 (snd rq)) requests.

Lemma elem_grant_request ps rq p :
  p ∈ grant_request ps rq ->
  exists q, q ∈ ps /\ ((p = q /\ p_this q <> fst rq) \/
    (p_this q = fst rq /\ p = set_counts (p_allocated_pages q) (p_reserved_pages q + snd rq) q)).
Proof.
  unfold grant_request. intros (q & -> & Hq)%list_elem_of_fmap. exists q. split; [done|].
  destruct (Z.eqb_spec (p_this q) (fst rq)); auto.
Qed.

Lemma grant_request_ok ps rq requests :
  pools_ok ps -> is_u32 (snd rq) -> bundle_admissible ps (rq :: requests) ->
  pools_ok (grant_request ps rq) /\ bundle_admissible (grant_request ps rq) requests.
Proof.
  intros [Hwf Hnd] [Hu _] (Hz & Hids & Hfit). rewrite Forall_forall in Hwf.
  apply Forall_cons_1 in Hz as [_ Hz]. cbn in Hids. apply NoDup_cons in Hids as [Hni Hids].
  split; [split; [|by rewrite grant_request_this]|split; [done|split; [done|]]].
  - apply Forall_forall. intros p (q & Hq & [[-> _]|[Heq ->]])%elem_grant_request; [by apply Hwf|].
    specialize (Hfit q rq Hq ltac:(set_solver) Heq). pose proof (wf_reserved _ (Hwf q Hq)).
    apply pool_wf_reserved; [by apply Hwf|lia|lia].
  - intros p rq' (q & Hq & [[-> _]|[Heq ->]])%elem_grant_request Hin Ht.
    + apply (Hfit q rq'); set_solver.
    + exfalso. apply Hni. cbn in Ht. rewrite <- Heq, Ht. by apply list_elem_of_fmap_2.
Qed.

Lemma bundle_reserve_spec ps requests :
  pools_ok ps -> requests_ok ps requests -> bundle_admissible ps requests ->
  bundle_reserve ps requests =
    Ok (foldl grant_request ps requests, map (fun rq => mkReservation (fst rq) (snd rq)) requests) /\
  pools_ok (foldl grant_request ps requests).
Proof.
  revert ps. induction requests as [|[id n] requests IH]; intros ps Hps Hrq Hadm; [done|].
  apply Forall_cons_1 in Hrq as [[Hid Hu] Hrq]. cbn in Hid, Hu.
  pose proof Hadm as (Hz & _ & Hfit). apply Forall_cons_1 in Hz as [[Hid0 Hn0] _]. cbn in Hid0, Hn0.
  destruct (find_pool_is_Some ps id) as [[k p] Hf]; [auto|].
  destruct (find_pool_Some _ _ _ _ Hf) as [Hk Ht].
  assert (Hin : p ∈ ps) by (by eapply list_elem_of_lookup_2).
  pose proof (proj1 (Forall_forall _ _) (proj1 Hps) p Hin) as Hwf. pool_facts Hwf.
  specialize (Hfit p (id, n) Hin ltac:(set_solver) Ht). cbn in Hfit.
  destruct (grant_request_ok ps (id, n) requests Hps Hu Hadm) as [Hps' Hadm'].
  cbn [bundle_reserve foldl map fst snd]. rewrite Hf. unfold reserve.
  rewrite (available_pages_eq _ Hwf), (proj2 (Z.eqb_neq n 0)), (proj2 (Z.ltb_ge _ n)) by lia.
  cbn [orb]. rewrite wrap32_small by (unfold U32_MAX; destruct Hu; lia).
  rewrite (grant_request_insert _ id k p n (proj2 Hps) Hk Ht).
  destruct (IH (grant_request ps (id, n)) Hps') as [E Hok']; [|done|].
  { eapply Forall_impl; [exact Hrq|]. intros rq. by rewrite grant_request_this. }
  rewrite E. cbn. by rewrite Ht.
Qed.

Lemma existsb_elem id seen : existsb (Z.eqb id) seen = true <-> id ∈ seen.
Proof.
  rewrite existsb_exists. split.
  - intros (x & Hx & ->%Z.eqb_eq). by apply list_elem_of_In.
  - intros Hx%list_elem_of_In. exists id. by rewrite Z.eqb_refl.
Qed.

Lemma bundle_validate_spec ps seen requests :
  pools_ok ps -> requests_ok ps requests ->
  match bundle_validate ps seen requests with
  | Ok _ => bundle_admissible ps requests /\ forall id, id ∈ seen -> id ∉ map fst requests
  | Err e => (e = InvalidArgument \/ e = BadAlloc) /\
             ~ (bundle_admissible ps requests /\ forall id, id ∈ seen -> id ∉ map fst requests)
  end.
Proof.
  intros Hps. revert seen. induction requests as [|[id n] requests IH]; intros seen Hrq.
  { cbn. split; [split; [apply Forall_nil_2|split; [apply NoDup_nil_2|]]|]; set_solver. }
  apply Forall_cons_1 in Hrq as [[Hid _] Hrq]. cbn in Hid. specialize (IH (seen ++ [id]) Hrq).
  cbn [bundle_validate]. unfold throw_if.
  destruct ((id =? 0) || (n =? 0)) eqn:Ez; cbn [mbind result_bind].
  { split; [auto|]. intros [(Hz & _) _]. apply Forall_cons_1 in Hz as [[? ?] _]. cbn in *.
    apply orb_true_iff in Ez as [?%Z.eqb_eq|?%Z.eqb_eq]; done. }
  apply orb_false_iff in Ez as [Hid0%Z.eqb_neq Hn0%Z.eqb_neq].
  destruct (existsb _ seen) eqn:Es; cbn [mbind result_bind].
  { apply existsb_elem in Es. split; [auto|]. intros [_ Hd]. by apply Hd in Es; set_solver. }
  assert (Hns : id ∉ seen) by (rewrite <- existsb_elem; congruence).
  destruct (find_pool_is_Some ps id) as [[k p] Hf]; [auto|]. rewrite Hf.
  destruct (find_pool_Some _ _ _ _ Hf) as [Hk Ht].
  assert (Hin : p ∈ ps) by (by eapply list_elem_of_lookup_2).
  pose proof (proj1 (Forall_forall _ _) (proj1 Hps) p Hin) as Hwf.
  rewrite (available_pages_eq _ Hwf). destruct (Z.ltb_spec (capacity_pages p - p_allocated_pages p - p_reserved_pages p) n).
  { cbn. split; [auto|]. intros [(_ & _ & Hfit) _].
    specialize (Hfit p (id, n) Hin ltac:(set_solver) Ht). cbn in Hfit. lia. }
  cbn [mbind result_bind]. destruct (bundle_validate _ _ _).
  - destruct IH as [(Hz & Hnd & Hfit) Hd]. split; [split; [by apply Forall_cons_2|split]|].
    + cbn. apply NoDup_cons. split; [apply Hd; set_solver|done].
    + intros q rq Hq [->|Hr]%elem_of_cons Heq; [|by apply Hfit].
      cbn in *. rewrite (pool_this_unique ps q p (proj2 Hps) Hq Hin) by congruence. done.
    + intros x Hx. cbn. specialize (Hd x). set_solver.
  - destruct IH as [He Hno]. split; [done|]. intros [(Hz & Hnd & Hfit) Hd]. apply Hno.
    apply Forall_cons_1 in Hz as [_ Hz]. cbn in Hnd. apply NoDup_cons in Hnd as [Hni Hnd].
    split; [split; [done|split; [done|]]|].
    + intros q rq Hq Hr. apply Hfit; set_solver.
    + intros x Hx. specialize (Hd x). cbn in Hd. set_solver.
Qed.

(** * What the pool promises its clients *)

(** ** Every page once *)

(** The pages of the free runs. *)
Definition run_pages (runs : list FreePageRun) : list Z := concat (map (fun r => seqZ (run_begin r) (run_count r)) runs).

Lemma elem_of_run_pages runs q : q ∈ run_pages runs <-> page_free runs q = true.
Proof.
  induction runs as [|r runs IH]; [split; [intros H; by apply elem_of_nil in H|done]|].
  change (run_pages (r :: runs)) with (seqZ (run_begin r) (run_count r) ++ run_pages runs).
  rewrite elem_of_app, IH, page_free_cons, orb_true_iff, elem_of_seqZ. unfold in_run. rewrite andb_true_iff, Z.leb_le, Z.ltb_lt. done.
Qed.

Lemma run_pages_distinct lo hi runs : runs_ok lo hi runs -> NoDup (run_pages runs) /\ vsize (run_pages runs) = runs_total runs.
Proof.
  revert lo. induction runs as [|r runs IH]; intros lo H; [split; [constructor|done]|]. destruct H as (Hlo & Hc & Hhi & H). destruct (IH _ H) as [Hnd Hsz].
  change (run_pages (r :: runs)) with (seqZ (run_begin r) (run_count r) ++ run_pages runs). split.
  - apply NoDup_app. split; [apply NoDup_seqZ|]. split; [|done]. intros q Hq%elem_of_seqZ Hin%elem_of_run_pages. pose proof (page_free_bounds _ _ _ _ H Hin). lia.
  - rewrite vsize_app, Hsz, runs_total_cons. f_equal. unfold vsize. rewrite length_seqZ. lia.
Qed.

Lemma pages_partition c : client_ok c ->
  map l_index (all_leases c) ++ run_pages (p_free_page_runs (c_pool c)) ≡ₚ seqZ 0 (capacity_pages (c_pool c)).
Proof.
  intros H. pose proof (ck_wf _ H) as Hwf. pool_facts Hwf. destruct (run_pages_distinct _ _ _ (wf_runs _ Hwf)) as [Hnd Hsz].
  assert (Hlive : forall q, q ∈ map l_index (all_leases c) -> 0 <= q < capacity_pages (c_pool c) /\ page_free (p_free_page_runs (c_pool c)) q = false).
  { intros q (l & -> & Hin)%list_elem_of_fmap. pose proof (ck_live _ H) as Hl. rewrite Forall_forall in Hl. destruct (Hl _ Hin) as [Ho Hv].
    rewrite (proj2 (lease_live_handle _ _ Hwf Ho)) in Hv. apply (valid_handle_iff _ _ Hwf) in Hv as (_ & Hr & Hf & _). exact (conj Hr Hf). }
  apply submseteq_length_Permutation; [apply NoDup_submseteq|].
  - apply NoDup_app. split; [apply H|]. split; [|done]. intros q [_ Hf]%Hlive Hin%elem_of_run_pages. congruence.
  - intros q [Hq|Hq]%elem_of_app; apply elem_of_seqZ; [destruct (Hlive q Hq); lia|]. apply elem_of_run_pages in Hq. pose proof (page_free_bounds _ _ _ _ (wf_runs _ Hwf) Hq). lia.
  - rewrite length_app, length_map, length_seqZ. pose proof (ck_allocated _ H). unfold vsize in *. lia.
Qed.

(** C6. In every state clients can reach from a freshly constructed pool by
    any sequence of reserve, resize, clear, materialize, dematerialize,
    destruction and validation calls: every lease they hold is live; the free
    runs are ordered, separated, not empty and inside the pool; the pages of
    the leases and of the free runs together are every page of the pool
    exactly once; the reservations add up to the pool's reserved count, and the
    pages still available are the capacity less leases and reservations. *)
Theorem pool_reachable_conservation this backing layout c :
  client_of this backing layout c ->
  Forall (fun l => l_owner l = p_this (c_pool c) /\
                   valid_handle (c_pool c) (lease_handle l) = true) (all_leases c) /\
  runs_ok 0 (capacity_pages (c_pool c)) (p_free_page_runs (c_pool c)) /\
  map l_index (all_leases c) ++ run_pages (p_free_page_runs (c_pool c)) ≡ₚ seqZ 0 (capacity_pages (c_pool c)) /\
  zsum (map rs_pages (c_reservations c)) = p_reserved_pages (c_pool c) /\
  available_pages (c_pool c) =
    capacity_pages (c_pool c) - vsize (all_leases c) - zsum (map rs_pages (c_reservations c)) /\
  0 <= available_pages (c_pool c).
Proof.
  intros H%client_of_ok. pose proof (ck_wf _ H) as Hwf. pose proof (pages_partition c H) as Hp. pool_facts Hwf.
  rewrite (available_pages_eq _ Hwf), (ck_allocated _ H), (ck_sum _ H).
  split; [apply H|]. split; [apply Hwf|]. split; [exact Hp|]. lia.
Qed.

(** A pool of four pages in one plane, and a client that reserved three of
    them and materialized two in a vector. *)
Definition demo_spec : DeviceKVPagePoolSpec :=
  mkPoolSpec 4 (mkGeometry 64 PageMajor [mkPlane BF16 2 1 256]).

Definition demo_layout : DeviceKVPagePoolLayout :=
  match plan_device_kv_page_pool demo_spec empty_builder with
  | (_, Ok l) => l
  | _ => mkPoolLayout demo_spec []
  end.

Definition demo_pool : DeviceKVPagePool :=
  match make_pool 1 (mkSpan 4096 65536) demo_layout with
  | Ok p => p
  | Err _ => mkPool 0 demo_spec [] [] [] [] [] 0 0 0
  end.

Definition demo_client : client :=
  let '(p1, r1) := reserve demo_pool 3 in
  match r1 with
  | Some r =>
      match materialize p1 r 2 [] 4 None with
      | Ok (p2, r2, v) => mkClient p2 [r2] [v]
      | Err _ => mkClient p1 [r] []
      end
  | None => mkClient p1 [] []
  end.

Lemma demo_client_of : client_of 1 (mkSpan 4096 65536) demo_layout demo_client.
Proof.
  exists demo_pool. split; [lia|]. split; [vm_compute; split; discriminate|].
  split; [reflexivity|].
  eapply reach_step; [eapply reach_step; [eapply reach_step; [apply reach_init|]|]|].
  - eapply (step_reserve _ _ _ 3); [split; vm_compute; discriminate|reflexivity].
  - apply step_vector.
  - replace demo_client with
      (mkClient (c_pool demo_client) (<[0%nat := mkReservation 1 1]> [mkReservation 1 3])
         (<[0%nat := [mkLease 1 0 1; mkLease 1 1 1]]> [[]])) by reflexivity.
    eapply (step_materialize _ _ 0 _ _ 0 _ 2 4 None); [split; vm_compute; discriminate|reflexivity..].
Qed.

Lemma pool_reachable_conservation_witness :
  [0; 1] ++ run_pages (p_free_page_runs (c_pool demo_client)) ≡ₚ [0; 1; 2; 3] /\ available_pages (c_pool demo_client) = 4 - 2 - 1.
Proof.
  destruct (pool_reachable_conservation 1 (mkSpan 4096 65536) demo_layout demo_client demo_client_of)
    as (_ & _ & Hp & _ & Ha & _).
  split; [exact Hp|exact Ha].
Defined.

(** Materialization cannot fail on a reservation: in a reachable state,
    growing any lease vector to a target within its reservation (and within
    the vector's capacity, next to a live predecessor if one is named) returns
    the vector extended by live leases of exactly the missing number of pages,
    none of which any client held before, and takes them off the
    reservation. *)
Theorem materialize_never_fails this backing layout c k r j v target cap pred :
  client_of this backing layout c ->
  c_reservations c !! k = Some r -> c_vectors c !! j = Some v ->
  vsize v <= target <= U32_MAX -> target - vsize v <= rs_pages r -> target <= cap ->
  match pred with Some h => valid_handle (c_pool c) h = true | None => True end ->
  exists p' ls,
    materialize (c_pool c) r target v cap pred =
      Ok (p', mkReservation (rs_owner r) (rs_pages r - (target - vsize v)), v ++ ls) /\
    vsize ls = target - vsize v /\
    Forall (fun l => valid_handle p' (lease_handle l) = true) ls /\
    NoDup (map l_index (all_leases c ++ ls)).
Proof.
  intros H%client_of_ok Hk Hj Ht Hfit Hcap Hpred. pose proof (ck_wf _ H) as Hwf.
  destruct (client_reservation _ k r H Hk) as [Hro Hrp].
  destruct (client_vector _ j v H Hj) as (_ & Hlive & _ & _).
  destruct (materialize_Ok (c_pool c) r target v cap pred) as (p1 & pages & ls & E & Hn & Htk);
    try done; try lia; [by destruct pred|].
  exists p1, ls. split; [done|]. pose proof (Forall2_length _ _ _ (pt_leases _ _ _ _ Htk)) as Hlen.
  split; [unfold vsize in *; lia|]. split.
  { apply Forall_forall. intros l Hl. by apply (pages_taken_live _ _ _ _ _ Hwf Htk Hl). }
  assert (Hs : client_ok (mkClient p1 (<[k := mkReservation (rs_owner r) (rs_pages r - (target - vsize v))]>
                             (c_reservations c)) (<[j := v ++ ls]> (c_vectors c)))).
  { destruct c as [p rs vs]. pose proof (vsize_nonneg v).
    eapply (client_step_materialize p rs k r vs j v target cap pred); try done. split; lia. }
  pose proof (ck_distinct _ Hs) as Hd. unfold all_leases in Hd. cbn in Hd.
  by rewrite (concat_insert_perm _ _ _ ls Hj) in Hd.
Qed.

Lemma materialize_never_fails_witness :
  exists p' ls, materialize (c_pool demo_client) (mkReservation 1 1) 3
      [mkLease 1 0 1; mkLease 1 1 1] 4 None = Ok (p', mkReservation 1 0, [mkLease 1 0 1; mkLease 1 1 1] ++ ls).
Proof.
  destruct (materialize_never_fails 1 (mkSpan 4096 65536) demo_layout demo_client 0 (mkReservation 1 1)
              0 [mkLease 1 0 1; mkLease 1 1 1] 3 4 None) as (p' & ls & E & _).
  - apply demo_client_of.
  - reflexivity.
  - reflexivity.
  - split; vm_compute; discriminate.
  - vm_compute. discriminate.
  - lia.
  - exact I.
  - exists p', ls. exact E.
Defined.

(** C8. Destroying a lease vector makes every handle to its pages stale and
    leaves every other client's leases live: no use after free, and nobody
    else's page is freed. The next lease of such a page carries another
    generation, so the old handle stays rejected after the page is reused. *)
Theorem released_handles_stale this backing layout c j v l h :
  client_of this backing layout c -> c_vectors c !! j = Some v -> l ∈ v ->
  h_index h = l_index l ->
  let p' := destroy_leases (c_pool c) v in
  valid_handle p' h = false /\
  Forall (fun x => valid_handle p' (lease_handle x) = true) (concat (delete j (c_vectors c))) /\
  (forall g, (p_page_generations p').[l_index l] = Some g -> g <> l_generation l).
Proof.
  intros H%client_of_ok Hj Hl Hh p'. pose proof (ck_wf _ H) as Hwf.
  destruct (client_vector _ j v H Hj) as (Hlv & _ & Hnd & _).
  pose proof (destroy_leases_Ok _ v Hwf Hlv Hnd) as Hrel.
  assert (Hin : l_index l ∈ map l_index v) by (by apply list_elem_of_fmap_2).
  split; [by eapply pages_released_stale; [exact Hrel|rewrite Hh]|]. split.
  - destruct c as [p rs vs]. pose proof (client_step_drop_vector _ _ _ _ _ H Hj) as Hc.
    eapply Forall_impl; [apply (ck_live _ Hc)|]. by intros x [_ ?].
  - intros g Hg. unfold p' in Hg. rewrite (pr_gens_in _ _ _ Hrel _ Hin) in Hg.
    rewrite Forall_forall in Hlv. destruct (Hlv l Hl) as [Hlo Hv].
    destruct (lease_live_handle _ _ Hwf Hlo) as [_ Hlh]. rewrite Hlh in Hv.
    apply (valid_handle_iff _ _ Hwf) in Hv as (_ & _ & _ & Hgen). cbn in Hgen.
    rewrite Hgen in Hg. injection Hg as <-. by apply increment_generation_spec, (wf_gens _ Hwf _ _ Hgen).
Qed.

Lemma released_handles_stale_witness :
  valid_handle (c_pool demo_client) (mkHandle 1 1 1) = true /\
  valid_handle (destroy_leases (c_pool demo_client) [mkLease 1 0 1; mkLease 1 1 1]) (mkHandle 1 1 1) = false.
Proof.
  split; [reflexivity|].
  apply (released_handles_stale 1 (mkSpan 4096 65536) demo_layout demo_client 0
           [mkLease 1 0 1; mkLease 1 1 1] (mkLease 1 1 1) (mkHandle 1 1 1));
    [apply demo_client_of|reflexivity|set_solver|reflexivity].
Defined.

(** C9. The stamp-based duplicate check decides exactly the property it is
    for: on a well-formed pool it succeeds when and only when every handle is
    live and no page occurs twice, throws [invalid_argument] otherwise, and
    leaves the pool well formed, also when the 32-bit stamp wraps. *)
Theorem validate_distinct_pages_correct p pages :
  pool_wf p ->
  let '(p', res) := validate_distinct_pages pages p in
  pool_wf p' /\
  res = if decide (Forall (fun h => valid_handle p h = true) pages /\ NoDup (map h_index pages))
        then Ok tt else Err InvalidArgument.
Proof.
  intros H. destruct (validate_distinct_spec p pages H) as (m & st & res & -> & Hwf & Hr & Hi).
  split; [done|]. case_decide; [by apply Hi|]. destruct Hr as [Hr|]; [|done]. tauto.
Qed.

Lemma demo_client_wf : pool_wf (c_pool demo_client).
Proof. apply ck_wf, (client_of_ok _ _ _ _ demo_client_of). Qed.

Lemma validate_distinct_pages_correct_witness :
  snd (validate_distinct_pages [mkHandle 1 1 1; mkHandle 1 0 1; mkHandle 1 1 1] (c_pool demo_client))
  = Err InvalidArgument.
Proof.
  pose proof (validate_distinct_pages_correct (c_pool demo_client)
    [mkHandle 1 1 1; mkHandle 1 0 1; mkHandle 1 1 1] demo_client_wf) as H.
  destruct (validate_distinct_pages _ _) as [p' res]. destruct H as [_ ->]. reflexivity.
Defined.

(** C10. A bundle reservation over several pools is all or nothing: it
    succeeds when and only when every request is non-empty, names a different
    pool and fits the pool's available pages; then each named pool, and no
    other, reserves its pages. Otherwise it throws [invalid_argument] or
    [bad_alloc] and no pool has changed; the internal [logic_error] of the
    second phase is unreachable. *)
Theorem bundle_all_or_nothing ps requests :
  pools_ok ps -> requests_ok ps requests ->
  (bundle_admissible ps requests /\
   reserve_device_kv_page_bundle requests ps =
     (foldl grant_request ps requests,
      Ok (map (fun rq => mkReservation (fst rq) (snd rq)) requests)) /\
   pools_ok (foldl grant_request ps requests)) \/
  (~ bundle_admissible ps requests /\
   exists e, reserve_device_kv_page_bundle requests ps = (ps, Err e) /\
             (e = InvalidArgument \/ e = BadAlloc)).
Proof.
  intros Hps Hrq. pose proof (bundle_validate_spec ps [] requests Hps Hrq) as Hv.
  unfold reserve_device_kv_page_bundle, mbind, M_bind, mget, mlift, mput, mret, M_ret.
  destruct (bundle_validate ps [] requests) as [u|e].
  - left. destruct Hv as [Hadm _]. destruct (bundle_reserve_spec ps requests Hps Hrq Hadm) as [-> Hok].
    done.
  - right. destruct Hv as [He Hno]. split; [|by exists e].
    intros Hadm. apply Hno. split; [done|]. by intros ? ?%not_elem_of_nil.
Qed.

Lemma bundle_all_or_nothing_witness :
  reserve_device_kv_page_bundle [(1, 1)] [c_pool demo_client] =
    (foldl grant_request [c_pool demo_client] [(1, 1)], Ok [mkReservation 1 1]).
Proof.
  destruct (bundle_all_or_nothing [c_pool demo_client] [(1, 1)]) as [(_ & E & _)|(_ & e & E & _)].
  - split; [apply Forall_cons_2; [apply demo_client_wf|apply Forall_nil_2]|apply NoDup_singleton].
  - apply Forall_cons_2; [|apply Forall_nil_2]. split; [intros _; apply list_elem_of_singleton; reflexivity|split; vm_compute; discriminate].
  - exact E.
  - vm_compute in E. discriminate E.
Defined.
