(* ===== verification/ExecTable.v ===== *)
(** The execution tables of the paged KV cache ([KVExecutionTablePool] and
    [KVExecutionRowLease] of src/src/core/paged_kv_cache.h and
    src/src/core/paged_kv_cache.cpp): rows leased with generations, and the
    publication of page mappings into the device block tables through a pinned
    host shadow and asynchronous copies. *)

From S2P Require Import Prelude Tensor Layout PagedKv.

(** * Data *)
Record KVExecutionRowHandle : Type := mkRowHandle {
  rh_owner : Z;
  rh_row : Z;
  rh_generation : Z;
}.

Record KVExecutionRowLease : Type := mkRowLease {
  rl_owner : Z;
  rl_row : Z;
  rl_generation : Z;
}.

Definition null_row_handle : KVExecutionRowHandle := mkRowHandle 0 (-1) 0.
Definition null_row_lease : KVExecutionRowLease := mkRowLease 0 (-1) 0.

Definition row_lease_valid (l : KVExecutionRowLease) : bool := negb (rl_owner l =? 0).

Definition row_lease_handle (l : KVExecutionRowLease) : KVExecutionRowHandle :=
  if row_lease_valid l then mkRowHandle (rl_owner l) (rl_row l) (rl_generation l)
  else null_row_handle.

(** The pool; the words of the pinned shadow are a vector. *)
Record KVExecutionTablePool : Type := mkTablePool {
  e_this : Z;
  e_spec : KVExecutionTableSpec;
  e_block_tables : Tensor;
  e_host_shadow : list Z;
  e_row_in_use : list bool;
  e_row_generations : list Z;
}.

Definition set_shadow (sh : list Z) (e : KVExecutionTablePool) : KVExecutionTablePool :=
  mkTablePool (e_this e) (e_spec e) (e_block_tables e) sh (e_row_in_use e) (e_row_generations e).

Definition set_rows (in_use : list bool) (gens : list Z) (e : KVExecutionTablePool)
  : KVExecutionTablePool :=
  mkTablePool (e_this e) (e_spec e) (e_block_tables e) (e_host_shadow e) in_use gens.

(** * The pool's operations *)

(** The constructor; [shadow] is what the pinned buffer holds when it is
    allocated. *)
Definition make_table_pool (this : Z) (shadow : Z -> Z) (backing : DeviceSpan)
    (layout : KVExecutionTableLayout) : result KVExecutionTablePool :=
  let spec := table_layout_spec layout in
  tables ← tensor_region_bind (table_layout_block_tables layout) backing;
  shadow_bytes ← checked_table_bytes spec;
  let rows := Z.to_nat (ts_table_rows spec) in
  n0 ← vat (t_ne tables) 0;
  n1 ← vat (t_ne tables) 1;
  _ ← throw_if (negb (bool_decide (t_dtype tables = I32))) LogicError;
  capacity ← checked_i32 (ts_logical_page_capacity spec);
  _ ← throw_if (negb (n0 =? capacity) || negb (n1 =? ts_table_rows spec)) LogicError;
  Ok (mkTablePool this spec tables (map shadow (seqZ 0 (shadow_bytes / 4)))
        (replicate rows false) (replicate rows 1)).

Definition logical_page_capacity (e : KVExecutionTablePool) : Z :=
  ts_logical_page_capacity (e_spec e).

Definition row_count (e : KVExecutionTablePool) : Z := ts_table_rows (e_spec e).

Definition acquire (row_index : Z) (e : KVExecutionTablePool)
  : KVExecutionTablePool * result KVExecutionRowLease :=
  if (row_index <? 0) || (row_count e <=? row_index) then (e, Err OutOfRange)
  else match (e_row_in_use e).[row_index], (e_row_generations e).[row_index] with
       | Some in_use, Some g =>
           if in_use then (e, Err LogicError)
           else (set_rows ((e_row_in_use e).[row_index <- true]) (e_row_generations e) e,
                 Ok (mkRowLease (e_this e) row_index g))
       | _, _ => (e, Err Undefined)
       end.

Definition valid_row_handle (e : KVExecutionTablePool) (h : KVExecutionRowHandle) : bool :=
  if negb (rh_owner h =? e_this e) || (rh_row h <? 0) || (row_count e <=? rh_row h) then false
  else match (e_row_in_use e).[rh_row h], (e_row_generations e).[rh_row h] with
       | Some in_use, Some g => in_use && (g =? rh_generation h)
       | _, _ => false
       end.

Definition release_row (row_index generation : Z) (e : KVExecutionTablePool)
  : KVExecutionTablePool * bool :=
  if (row_index <? 0) || (row_count e <=? row_index) then (e, false)
  else match (e_row_in_use e).[row_index], (e_row_generations e).[row_index] with
       | Some in_use, Some g =>
           if negb in_use || negb (g =? generation) then (e, false)
           else (set_rows ((e_row_in_use e).[row_index <- false])
                   ((e_row_generations e).[row_index <- increment_generation g]) e, true)
       | _, _ => (e, false)
       end.

(** [KVExecutionRowLease::release]; the destructor is [release] too. *)
Definition row_lease_release (l : KVExecutionRowLease) (e : KVExecutionTablePool)
  : KVExecutionTablePool * KVExecutionRowLease * bool :=
  if negb (row_lease_valid l) then (e, l, false)
  else let '(e', ok) := release_row (rl_row l) (rl_generation l) e in (e', null_row_lease, ok).

Definition row (e : KVExecutionTablePool) (h : KVExecutionRowHandle) : result Tensor :=
  _ ← throw_if (negb (valid_row_handle e h)) InvalidArgument;
  s ← slice (e_block_tables e) 1 (rh_row h) 1;
  view s [to_i32 (logical_page_capacity e)].

(** * Publication

    A [cudaMemcpyAsync] from the pinned shadow is pending until the stream
    executes it: it then copies what the shadow holds at that time. The device
    memory maps the address of an int32 to its value. *)
Record pending_copy : Type := mkCopy {
  cp_destination : Z;
  cp_source : Z;
  cp_count : Z;
}.

Record table_world : Type := mkWorld {
  w_table : KVExecutionTablePool;
  w_pending : list pending_copy;
  w_device : Z -> Z;
}.

Definition set_table (e : KVExecutionTablePool) (w : table_world) : table_world :=
  mkWorld e (w_pending w) (w_device w).

(** [shadow[index] = value] through the raw pointer. *)
Definition store_shadow (index value : Z) : M table_world unit :=
  w ← mget;
  _ ← mlift (vat (e_host_shadow (w_table w)) index);
  mput (set_table (set_shadow ((e_host_shadow (w_table w)).[index <- value]) (w_table w)) w).

Definition publish_indices (h : KVExecutionRowHandle) (logical_begin source count : Z)
  : M table_world unit :=
  if count =? 0 then mret tt
  else
    w ← mget;
    destination_row ← mlift (row (w_table w) h);
    let destination := t_data destination_row + 4 * logical_begin in
    mput (mkWorld (w_table w) (w_pending w ++ [mkCopy destination source count]) (w_device w)).

Definition shadow_offset (e : KVExecutionTablePool) (h : KVExecutionRowHandle)
    (logical_begin : Z) : Z :=
  rh_row h * logical_page_capacity e + logical_begin.

(** The loop of both [publish] overloads: [resolve] yields the physical index
    of an element or throws. *)
Fixpoint fill_shadow {A} (resolve : A -> result Z) (offset : Z) (xs : list A)
  : M table_world unit :=
  match xs with
  | [] => mret tt
  | x :: xs' =>
      physical ← mlift (resolve x);
      _ ← store_shadow offset physical;
      fill_shadow resolve (offset + 1) xs'
  end.

Definition publish_with {A} (resolve : A -> result Z) (h : KVExecutionRowHandle)
    (logical_begin : Z) (xs : list A) : M table_world unit :=
  w ← mget;
  let e := w_table w in
  _ ← mthrow_if (negb (valid_row_handle e h) || (logical_page_capacity e <? logical_begin) ||
                 (logical_page_capacity e - logical_begin <? vsize xs)) InvalidArgument;
  let source := shadow_offset e h logical_begin in
  _ ← fill_shadow resolve source xs;
  publish_indices h logical_begin source (vsize xs).

Definition publish (pages : DeviceKVPagePool) (h : KVExecutionRowHandle) (logical_begin : Z)
    (page_handles : list DeviceKVPageHandle) : M table_world unit :=
  publish_with (physical_index pages) h logical_begin page_handles.

Definition publish_leases (pages : DeviceKVPagePool) (h : KVExecutionRowHandle)
    (logical_begin : Z) (page_leases : list DeviceKVPageLease) : M table_world unit :=
  publish_with (fun l => _ ← throw_if (negb (l_owner l =? p_this pages)) InvalidArgument;
                         physical_index pages (lease_handle l)) h logical_begin page_leases.

Definition publish_repeated (pages : DeviceKVPagePool) (h : KVExecutionRowHandle)
    (page : DeviceKVPageHandle) (count : Z) : M table_world unit :=
  w ← mget;
  let e := w_table w in
  _ ← mthrow_if (negb (valid_row_handle e h) || (logical_page_capacity e <? count)) InvalidArgument;
  physical ← mlift (physical_index pages page);
  let source := shadow_offset e h 0 in
  _ ← fill_shadow (fun p => Ok p) source (replicate (Z.to_nat count) physical);
  publish_indices h 0 source count.

(** The stream executes one pending copy. *)
Definition run_copy (c : pending_copy) (shadow : list Z) (device : Z -> Z) : Z -> Z :=
  fun a =>
    let d := a - cp_destination c in
    if (0 <=? d) && (d <? 4 * cp_count c) && (d mod 4 =? 0)
    then match shadow.[cp_source c + d / 4] with Some v => v | None => device a end
    else device a.

(** * The pool invariant *)
Record table_wf (e : KVExecutionTablePool) : Prop := {
  tw_this : 0 < e_this e;
  tw_cap : 0 < logical_page_capacity e <= I32_MAX;
  tw_rows : 0 < row_count e <= I32_MAX;
  tw_dtype : t_dtype (e_block_tables e) = I32;
  tw_data : t_data (e_block_tables e) <> 0;
  tw_ne : t_ne (e_block_tables e) = [logical_page_capacity e; row_count e; 1; 1];
  tw_nb : exists b2 b3, t_nb (e_block_tables e) = [4; 4 * logical_page_capacity e; b2; b3];
  tw_fits : 4 * logical_page_capacity e * row_count e <= I64_MAX;
  tw_shadow : vsize (e_host_shadow e) = logical_page_capacity e * row_count e;
  tw_in_use : vsize (e_row_in_use e) = row_count e;
  tw_gens : vsize (e_row_generations e) = row_count e;
  tw_gen : forall r g, (e_row_generations e).[r] = Some g -> 1 <= g <= U32_MAX;
}.

Lemma checked_mul_small a b :
  0 <= a -> 0 <= b -> a * b <= I64_MAX -> checked_mul_i64 a b = Ok (a * b).
Proof. intros. apply checked_mul_i64_Ok. repeat split; lia. Qed.

(** A one-dimensional tensor can always be built. *)
Lemma normalize_shape_1d n : 0 < n -> normalize_shape [n] = Ok [n; 1; 1; 1].
Proof.
  intros Hn. unfold normalize_shape. change (vsize [n]) with 1. cbn [orb Z.eqb Z.ltb Z.compare throw_if].
  cbn [mbind result_bind rfor]. unfold throw_if. by rewrite (proj2 (Z.leb_gt n 0)) by lia.
Qed.

Lemma make_tensor_1d data n :
  0 < n <= I32_MAX ->
  make_tensor data I32 [n] = Ok (mkTensor data I32 [n; 1; 1; 1] [4; 4 * n; 4 * n; 4 * n]).
Proof.
  intros Hn. unfold I32_MAX in Hn. unfold make_tensor. rewrite normalize_shape_1d by lia.
  pose proof (checked_mul_small 4 n ltac:(lia) ltac:(lia) ltac:(unfold I64_MAX; lia)) as H1.
  pose proof (checked_mul_small (4 * n) 1 ltac:(lia) ltac:(lia) ltac:(unfold I64_MAX; lia)) as H2.
  rewrite Z.mul_1_r in H2. unfold set_contiguous_strides.
  revert H1 H2. generalize (4 * n), checked_mul_i64. intros m f H1 H2. vm_compute.
  rewrite H1, H2. by rewrite H2.
Qed.

Lemma shape_numel_1d n : 0 < n <= I32_MAX -> shape_numel [n; 1; 1; 1] = Ok n.
Proof.
  intros Hn. unfold I32_MAX in Hn. unfold shape_numel, throw_if. cbn [rfor].
  rewrite (proj2 (Z.leb_gt n 0)) by lia. cbn [mbind result_bind].
  rewrite (checked_mul_small 1 n) by (unfold I64_MAX; lia). rewrite Z.mul_1_l.
  cbn [mbind result_bind]. change (1 <=? 0) with false. cbn [mbind result_bind].
  repeat (rewrite (checked_mul_small n 1), Z.mul_1_r by (unfold I64_MAX; lia); cbn [mbind result_bind]).
  done.
Qed.

(** A live row handle denotes its row of the block tables. *)
Lemma row_Ok e h :
  table_wf e -> valid_row_handle e h = true ->
  exists t, row e h = Ok t /\
    t_data t = t_data (e_block_tables e) + 4 * (rh_row h * logical_page_capacity e).
Proof.
  intros H Hv. pose proof (tw_cap _ H) as Hc. pose proof (tw_rows _ H) as Hr.
  destruct (tw_nb _ H) as (b2 & b3 & Hnb).
  assert (Hrow : 0 <= rh_row h < row_count e).
  { unfold valid_row_handle in Hv. destruct (_ || _) eqn:E; [done|]. by simp_bool. }
  unfold row, throw_if. rewrite Hv. cbn [negb mbind result_bind]. unfold slice, throw_if.
  change ((1 <? 0) || (4 <=? 1)) with false. cbn [mbind result_bind].
  unfold vat. rewrite (tw_ne _ H), Hnb. unfold vget. cbn [Z.leb Z.compare Z.to_nat lookup list_lookup Pos.to_nat Pos.iter_op Init.Nat.add].
  change (Z.to_nat 1) with 1%nat. cbn [lookup list_lookup mbind result_bind].
  rewrite (proj2 (Z.ltb_ge (rh_row h) 0)) by lia.
  rewrite (proj2 (Z.ltb_ge (row_count e) _)), (proj2 (Z.ltb_ge (row_count e - _) _)) by lia.
  cbn [orb mbind result_bind]. unfold I32_MAX in *.
  pose proof (tw_fits _ H). rewrite checked_mul_small by nia. cbn [mbind result_bind].
  rewrite (proj2 (Z.eqb_neq _ 0)) by apply (tw_data _ H).
  unfold vset. cbn [Z.leb Z.compare]. change (Z.to_nat 1) with 1%nat. cbn [insert list_insert].
  rewrite to_i32_small by (unfold I32_MAX; lia).
  unfold view. set (s := mkTensor _ _ _ _).
  assert (Hcont : is_contiguous s = Ok true).
  { unfold is_contiguous. cbn [is_contiguous_loop]. subst s. cbn [t_dtype]. rewrite (tw_dtype _ H).
    by rewrite (is_contiguous_step_match _ 0 (logical_page_capacity e) 4 4)
      by (done || unfold I64_MAX; lia). }
  rewrite Hcont. cbn [mbind result_bind negb throw_if].
  rewrite normalize_shape_1d by lia. cbn [mbind result_bind]. unfold numel. subst s. cbn [t_ne].
  rewrite shape_numel_1d by (unfold I32_MAX; lia). cbn [mbind result_bind].
  rewrite Z.eqb_refl. cbn [negb throw_if mbind result_bind]. rewrite (tw_dtype _ H).
  cbn [t_data t_dtype]. rewrite make_tensor_1d by (unfold I32_MAX; lia).
  eexists. split; [done|]. cbn. lia.
Qed.

(** A layout the planner produced, bound to device memory. *)
Definition planned_table (this : Z) (shadow : Z -> Z) (backing : DeviceSpan)
    (spec : KVExecutionTableSpec) (e : KVExecutionTablePool) : Prop :=
  exists b b' layout,
    plan_kv_execution_tables spec b = (b', Ok layout) /\
    builder_wf b /\ 0 < this /\ 0 < span_data backing /\
    is_u32 (ts_logical_page_capacity spec) /\ is_i32 (ts_table_rows spec) /\
    make_table_pool this shadow backing layout = Ok e.

Lemma planned_table_wf this shadow backing spec e :
  planned_table this shadow backing spec e -> table_wf e.
Proof.
  intros (b & b' & layout & Hplan & Hb & Hthis & Hdata & [Hcu _] & [_ Hru] & Hm).
  unfold plan_kv_execution_tables, add_tensor, checked_table_bytes in Hplan. simp_M. simp_bool.
  match goal with H : add _ _ _ = _ |- _ => apply add_Ok in H as (_ & _ & _ & _ & Hoff & _) end;
    [|done| |vm_compute; split; discriminate].
  2:{ match goal with H : bytes _ = Ok _ |- _ => apply bytes_pos in H; lia end. }
  match goal with H : checked_i32 _ = Ok ?c |- _ =>
    assert (c = ts_logical_page_capacity spec /\ 0 < c <= I32_MAX) as [-> Hcap]
      by (clear Hm; unfold checked_i32 in *; simp_res; simp_bool; split; [done|lia]) end.
  set (cap := ts_logical_page_capacity spec) in *. set (rows := ts_table_rows spec) in *.
  unfold make_table_pool in Hm. cbn [table_layout_spec table_layout_block_tables] in Hm.
  apply bind_Ok in Hm as (tables & Hbind & Hm). apply bind_Ok in Hm as (sb & Hsb & Hm).
  unfold tensor_region_bind in Hbind. cbn [tr_dtype tr_shape tr_region] in Hbind. simp_res.
  match goal with H : region_bind _ _ = Ok _ |- _ => unfold region_bind in H end. simp_res.
  match goal with H : make_tensor _ _ _ = Ok tables |- _ =>
    apply make_tensor_Ok in H as (Hwf & Hd & Hdt & Hne & Hnb & Hbd) end.
  cbn in Hd, Hne. unfold checked_table_bytes, checked_i32 in Hsb. simp_res. simp_bool.
  repeat match goal with
         | H : context [ts_table_rows spec] |- _ => progress fold rows in H
         | H : context [ts_logical_page_capacity spec] |- _ => progress fold cap in H
         end.
  change (drop 2 _) with [1; 1] in Hne. cbn in Hne.
  rewrite Hne in Hnb. cbn in Hnb. rewrite Hnb in Hbd. simp_forall. unfold I32_MAX in *.
  assert (Hsz : forall A (x : A), vsize (replicate (Z.to_nat rows) x) = rows)
    by (intros; unfold vsize; rewrite length_replicate; lia).
  constructor; cbn; unfold logical_page_capacity, row_count; cbn; fold cap rows; unfold I32_MAX;
    rewrite ?Hsz; try done; try lia.
  - rewrite Hd. unfold builder_wf in Hb. lia.
  - by eexists _, _.
  - unfold vsize. rewrite length_map, length_seqZ.
    replace (cap * rows * 4 / 4) with (cap * rows) by (by rewrite Z.div_mul). lia.
  - intros r g Hg. pose proof (vget_Some_bounds _ _ _ Hg) as Hb'. rewrite Hsz in Hb'.
    rewrite vget_replicate in Hg by lia. simplify_eq. unfold U32_MAX. lia.
Qed.

(** * Publication through the pending copies *)
Definition table_words (e : KVExecutionTablePool) : Z := logical_page_capacity e * row_count e.

(** A pending copy moves words of the shadow to the same words of the block
    tables. *)
Definition copy_ok (e : KVExecutionTablePool) (c : pending_copy) : Prop :=
  0 <= cp_source c /\ 0 < cp_count c /\ cp_source c + cp_count c <= table_words e /\
  cp_destination c = t_data (e_block_tables e) + 4 * cp_source c.

Definition world_ok (w : table_world) : Prop :=
  table_wf (w_table w) /\ Forall (copy_ok (w_table w)) (w_pending w).

(** [e'] differs from [e] in the shadow and the rows' leases only. *)
Definition same_shape (e e' : KVExecutionTablePool) : Prop :=
  e_this e' = e_this e /\ e_spec e' = e_spec e /\ e_block_tables e' = e_block_tables e.

(** Outside words [lo, hi) the two shadows agree. *)
Definition shadow_frame (lo hi : Z) (s s' : list Z) : Prop :=
  forall k, ~ (lo <= k < hi) -> s'.[k] = s.[k].

Lemma same_shape_copy_ok e e' c : same_shape e e' -> copy_ok e c -> copy_ok e' c.
Proof.
  intros (_ & Hs & Hb). unfold copy_ok, table_words, logical_page_capacity, row_count.
  by rewrite Hs, Hb.
Qed.

Lemma set_shadow_wf e s :
  table_wf e -> vsize s = vsize (e_host_shadow e) -> table_wf (set_shadow s e).
Proof.
  intros H Hs. constructor; try apply H. cbn. rewrite Hs. apply H.
Qed.

Lemma fill_shadow_spec {A} (resolve : A -> result Z) offset xs w :
  table_wf (w_table w) -> 0 <= offset -> offset + vsize xs <= table_words (w_table w) ->
  exists s res, fill_shadow resolve offset xs w =
      (set_table (set_shadow s (w_table w)) w, res) /\
    vsize s = vsize (e_host_shadow (w_table w)) /\
    shadow_frame offset (offset + vsize xs) (e_host_shadow (w_table w)) s /\
    (res = Ok tt -> exists vals, Forall2 (fun x v => resolve x = Ok v) xs vals /\
       forall i v, vals.[i] = Some v -> s.[offset + i] = Some v) /\
    (Forall (fun x => exists v, resolve x = Ok v) xs -> res = Ok tt).
Proof.
  revert offset w. induction xs as [|x xs IH]; intros offset w H Ho Hfit.
  { exists (e_host_shadow (w_table w)), (Ok tt). split; [by destruct w as [[] ? ?]|].
    split; [done|]. split; [by intros k|]. split; [|done]. intros _. exists [].
    split; [apply Forall2_nil_2|]. intros i v Hv. apply vget_Some_bounds in Hv. unfold vsize in Hv.
    cbn in Hv. lia. }
  rewrite vsize_cons in Hfit. pose proof (vsize_nonneg xs). cbn [fill_shadow].
  destruct (resolve x) as [v|er] eqn:Er.
  2:{ exists (e_host_shadow (w_table w)), (Err er). unfold mbind, M_bind, mlift.
      split; [by destruct w as [[] ? ?]|]. split; [done|]. split; [by intros k|]. split; [done|].
      intros Hf. apply Forall_cons_1 in Hf as [[v Hv] _]. congruence. }
  rewrite (M_bind_run _ (mlift (Ok v)) w w v) by done.
  assert (Hst : store_shadow offset v w =
    (set_table (set_shadow ((e_host_shadow (w_table w)).[offset <- v]) (w_table w)) w, Ok tt)).
  { unfold store_shadow, vat, mbind, M_bind, mget, mlift, mput.
    destruct (vget_is_Some (e_host_shadow (w_table w)) offset) as [y ->]; [|done].
    rewrite (tw_shadow _ H). unfold table_words in Hfit. lia. }
  rewrite (M_bind_run _ _ _ _ _ Hst). set (w1 := set_table _ w).
  destruct (IH (offset + 1) w1) as (s & res & -> & Hs & Hfr & Hok & Hall);
    [by apply set_shadow_wf; [|rewrite vsize_vset]|lia|change (table_words (w_table w1)) with (table_words (w_table w)); lia|].
  exists s, res. cbn in *. rewrite vsize_vset in Hs.
  split; [done|]. split; [done|]. split; [|split].
  - intros k Hk. rewrite vsize_cons in Hk. rewrite Hfr by lia. apply vget_vset_ne. lia.
  - intros (vals & Hf & Hv)%Hok. exists (v :: vals). split; [by apply Forall2_cons_2|].
    intros i y Hy. destruct (decide (i = 0)) as [->|Hne].
    + injection Hy as <-. rewrite Z.add_0_r, Hfr by lia. apply vget_vset_eq.
      rewrite (tw_shadow _ H). unfold table_words in Hfit. lia.
    + apply vget_Some_bounds in Hy as Hb. rewrite vsize_cons in Hb.
      replace (offset + i) with (offset + 1 + (i - 1)) by lia. apply Hv.
      by rewrite vget_cons_succ in Hy by lia.
  - intros Hf. apply Forall_cons_1 in Hf as [_ Hf]. auto.
Qed.

(** What every way of publishing does. *)
Record published (h : KVExecutionRowHandle) (logical_begin : Z) (w w' : table_world)
    (res : result unit) (resolved : list Z -> Prop) : Prop := {
  pb_ok : world_ok w';
  pb_shape : same_shape (w_table w) (w_table w');
  pb_device : w_device w' = w_device w;
  pb_frame : shadow_frame (shadow_offset (w_table w) h 0)
               (shadow_offset (w_table w) h (logical_page_capacity (w_table w)))
               (e_host_shadow (w_table w)) (e_host_shadow (w_table w'));
  pb_pending : exists cs, w_pending w' = w_pending w ++ cs;
  pb_result : res = Ok tt -> exists vals, resolved vals /\
    forall i v, vals.[i] = Some v ->
      let k := shadow_offset (w_table w) h logical_begin + i in
      0 <= k < table_words (w_table w) /\
      (e_host_shadow (w_table w')).[k] = Some v /\
      exists c, c ∈ w_pending w' /\ cp_source c <= k < cp_source c + cp_count c;
}.

Lemma published_nothing h b w e resolved :
  world_ok w -> published h b w w (Err e) resolved.
Proof. intros H. constructor; try done. exists []. by rewrite app_nil_r. Qed.

Lemma valid_row_bounds e h : valid_row_handle e h = true -> 0 <= rh_row h < row_count e.
Proof. unfold valid_row_handle. destruct (_ || _) eqn:E; [done|]. by simp_bool. Qed.

(** Filling [xs] into the shadow at a row that is live, then enqueueing. *)
Lemma fill_and_publish {A} (resolve : A -> result Z) h b xs w :
  world_ok w -> valid_row_handle (w_table w) h = true -> 0 <= b ->
  b + vsize xs <= logical_page_capacity (w_table w) ->
  let source := shadow_offset (w_table w) h b in
  let r := (_ ← fill_shadow resolve source xs; publish_indices h b source (vsize xs)) w in
  published h b w (fst r) (snd r) (fun vals => Forall2 (fun x v => resolve x = Ok v) xs vals).
Proof.
  intros [H Hp] Hv Hb Hfit source r. pose proof (valid_row_bounds _ _ Hv) as Hrow.
  pose proof (vsize_nonneg xs). pose proof (tw_cap _ H).
  assert (Hsrc : 0 <= source /\ source + vsize xs <= table_words (w_table w)).
  { unfold source, shadow_offset, table_words. nia. }
  destruct (fill_shadow_spec resolve source xs w H) as (s & res & E & Hs & Hfr & Hok & _); [lia..|].
  unfold r, mbind, M_bind. rewrite E. set (w1 := set_table _ w).
  assert (Hw1 : world_ok w1) by (split; [by apply set_shadow_wf|by eapply Forall_impl]).
  assert (Hfr' : shadow_frame (shadow_offset (w_table w) h 0)
      (shadow_offset (w_table w) h (logical_page_capacity (w_table w))) (e_host_shadow (w_table w)) s).
  { intros k Hk. apply Hfr. unfold source, shadow_offset in *. lia. }
  destruct res as [[]|er].
  2:{ constructor; try done. exists []. by rewrite app_nil_r. }
  destruct (Hok eq_refl) as (vals & Hf & Hvals). pose proof (Forall2_length _ _ _ Hf) as Hlen.
  unfold publish_indices. destruct (Z.eqb_spec (vsize xs) 0) as [Hz|Hnz].
  { constructor; try done; [exists []; by rewrite app_nil_r|]. intros _. exists vals. split; [done|].
    intros i v Hi. apply vget_Some_bounds in Hi. unfold vsize in *. lia. }
  destruct (row_Ok w1.(w_table) h) as (t & Et & Hd); [apply Hw1|done|].
  unfold mbind, M_bind, mget, mlift, mput. rewrite Et. cbn [fst snd].
  assert (Hc : copy_ok (w_table w1) (mkCopy (t_data t + 4 * b) source (vsize xs))).
  { change (t_data t = t_data (e_block_tables (w_table w)) +
              4 * (rh_row h * logical_page_capacity (w_table w))) in Hd.
    unfold copy_ok. cbn [cp_source cp_count cp_destination].
    change (table_words (w_table w1)) with (table_words (w_table w)).
    change (e_block_tables (w_table w1)) with (e_block_tables (w_table w)).
    rewrite Hd. unfold source, shadow_offset in *. lia. }
  constructor; try done.
  - split; [apply Hw1|]. cbn. apply Forall_app. split; [apply Hw1|]. by apply Forall_singleton.
  - by eexists.
  - intros _. exists vals. split; [done|]. intros i v Hi k. pose proof (vget_Some_bounds _ _ _ Hi).
    assert (vsize vals = vsize xs) by (unfold vsize; lia). fold source in k.
    split; [lia|]. split; [by apply Hvals|]. eexists. split; [cbn; by apply elem_of_app; right; apply list_elem_of_here|].
    cbn. lia.
Qed.

Lemma publish_with_spec {A} (resolve : A -> result Z) h b xs w :
  world_ok w -> 0 <= b ->
  let r := publish_with resolve h b xs w in
  published h b w (fst r) (snd r) (fun vals => Forall2 (fun x v => resolve x = Ok v) xs vals).
Proof.
  intros Hw Hb r. unfold r, publish_with.
  rewrite (M_bind_run _ mget w w w) by done.
  destruct (_ || _) eqn:G; [by apply published_nothing|]. simp_bool.
  rewrite (M_bind_run _ (mthrow_if false InvalidArgument) w w tt) by done.
  apply fill_and_publish; try done. lia.
Qed.

Lemma publish_repeated_spec pages h page count w :
  world_ok w -> 0 <= count ->
  let r := publish_repeated pages h page count w in
  published h 0 w (fst r) (snd r)
    (fun vals => exists i, physical_index pages page = Ok i /\ vals = replicate (Z.to_nat count) i).
Proof.
  intros Hw Hc r. unfold r, publish_repeated. rewrite (M_bind_run _ mget w w w) by done.
  destruct (_ || _) eqn:G; [by apply published_nothing|]. simp_bool.
  rewrite (M_bind_run _ (mthrow_if false InvalidArgument) w w tt) by done.
  destruct (physical_index pages page) as [i|e] eqn:E; [|by apply published_nothing].
  rewrite (M_bind_run _ (mlift (Ok i)) w w i) by done.
  assert (Hn : vsize (replicate (Z.to_nat count) i) = count)
    by (unfold vsize; rewrite length_replicate; lia).
  pose proof (fill_and_publish (fun p => Ok p) h 0 (replicate (Z.to_nat count) i) w Hw) as HP.
  rewrite Hn in HP. destruct HP as [P1 P2 P3 P4 P5 P6]; try done. constructor; try done.
  intros Hr. destruct (P6 Hr) as (vals & Hf & Hv). exists vals. split; [|done].
  exists i. split; [done|]. clear -Hf. induction Hf; [done|]. congruence.
Qed.

(** ** Interleaving publications with the stream

    [world_step o w w']: one call, or the stream executing one of the pending
    copies, in any order; [o] is the row a publication names. A publication
    that throws may have changed the shadow of its row. *)
Inductive world_step : option Z -> table_world -> table_world -> Prop :=
  | ws_acquire w r e' res :
      acquire r (w_table w) = (e', res) -> world_step None w (set_table e' w)
  | ws_release w l e' l' ok :
      row_lease_release l (w_table w) = (e', l', ok) -> world_step None w (set_table e' w)
  | ws_publish w pages h b hs w' res :
      is_u32 b -> publish pages h b hs w = (w', res) -> world_step (Some (rh_row h)) w w'
  | ws_publish_leases w pages h b ls w' res :
      is_u32 b -> publish_leases pages h b ls w = (w', res) -> world_step (Some (rh_row h)) w w'
  | ws_publish_repeated w pages h page count w' res :
      is_u32 count -> publish_repeated pages h page count w = (w', res) ->
      world_step (Some (rh_row h)) w w'
  | ws_copy w i c :
      w_pending w !! i = Some c ->
      world_step None w (mkWorld (w_table w) (delete i (w_pending w))
                           (run_copy c (e_host_shadow (w_table w)) (w_device w))).

Inductive steps_avoiding (r : Z) : table_world -> table_world -> Prop :=
  | sa_refl w : steps_avoiding r w w
  | sa_step o w w' w'' :
      o <> Some r -> world_step o w w' -> steps_avoiding r w' w'' -> steps_avoiding r w w''.

(** The words [k, k + 1, ...] hold [vals] in the shadow, and each of them is
    on the device or a pending copy will bring it there. *)
Definition mapping_holds (w : table_world) (k : Z) (vals : list Z) : Prop :=
  forall i v, vals.[i] = Some v ->
    0 <= k + i < table_words (w_table w) /\
    (e_host_shadow (w_table w)).[k + i] = Some v /\
    (w_device w (t_data (e_block_tables (w_table w)) + 4 * (k + i)) = v \/
     exists c, c ∈ w_pending w /\ cp_source c <= k + i < cp_source c + cp_count c).

Lemma acquire_spec r e :
  table_wf e ->
  table_wf (fst (acquire r e)) /\ same_shape e (fst (acquire r e)) /\
  e_host_shadow (fst (acquire r e)) = e_host_shadow e.
Proof.
  intros H. unfold acquire. repeat case_match; try done. cbn.
  split; [|done]. constructor; try apply H. cbn. rewrite vsize_vset. apply H.
Qed.

Lemma release_row_spec r g e :
  table_wf e ->
  table_wf (fst (release_row r g e)) /\ same_shape e (fst (release_row r g e)) /\
  e_host_shadow (fst (release_row r g e)) = e_host_shadow e.
Proof.
  intros H. unfold release_row. repeat case_match; try done. cbn.
  split; [|done]. constructor; try apply H; cbn; rewrite ?vsize_vset; try apply H.
  intros q y. rewrite vget_vset. case_match; [|apply H]. intros [= <-].
  by eapply increment_generation_spec, (tw_gen _ H).
Qed.

Lemma run_copy_word e c s dev k :
  copy_ok e c -> vsize s = table_words e ->
  run_copy c s dev (t_data (e_block_tables e) + 4 * k) =
    if (cp_source c <=? k) && (k <? cp_source c + cp_count c)
    then default 0 (s.[k]) else dev (t_data (e_block_tables e) + 4 * k).
Proof.
  intros (H0 & H1 & H2 & H3) Hs. unfold run_copy. rewrite H3.
  replace (t_data (e_block_tables e) + 4 * k - (t_data (e_block_tables e) + 4 * cp_source c))
    with ((k - cp_source c) * 4) by lia.
  rewrite Z.mod_mul, Z.div_mul by lia. change (0 =? 0) with true. rewrite andb_true_r.
  replace ((0 <=? (k - cp_source c) * 4) && ((k - cp_source c) * 4 <? 4 * cp_count c))
    with ((cp_source c <=? k) && (k <? cp_source c + cp_count c)) by lia.
  destruct (_ && _) eqn:E; [|done]. simp_bool.
  replace (cp_source c + (k - cp_source c)) with k by lia.
  destruct (vget_is_Some s k) as [v ->]; [lia|done].
Qed.

(** The words of [vals] at [k] lie in row [r]. *)
Definition in_row (e : KVExecutionTablePool) (r k : Z) (vals : list Z) : Prop :=
  forall i v, vals.[i] = Some v ->
    r * logical_page_capacity e <= k + i < r * logical_page_capacity e + logical_page_capacity e.

Lemma published_keeps h b w w' res resolved r k vals :
  world_ok w -> published h b w w' res resolved -> rh_row h <> r ->
  in_row (w_table w) r k vals -> mapping_holds w k vals ->
  mapping_holds w' k vals.
Proof.
  intros [H _] P Hne Hin Hm i v Hi. destruct (Hm i v Hi) as (Hk & Hs & Hd).
  specialize (Hin i v Hi). pose proof (tw_cap _ H).
  destruct (pb_shape _ _ _ _ _ _ P) as (Ht & Hsp & Hb).
  unfold table_words, logical_page_capacity, row_count in *. rewrite Hsp, Hb.
  split; [done|]. split.
  - rewrite (pb_frame _ _ _ _ _ _ P); [done|]. unfold shadow_offset, logical_page_capacity. nia.
  - rewrite (pb_device _ _ _ _ _ _ P). destruct (pb_pending _ _ _ _ _ _ P) as [cs ->].
    destruct Hd as [Hd|(c & Hc & ?)]; [by left|right]. exists c.
    split; [apply elem_of_app; by left|done].
Qed.

Lemma same_table_keeps w e' k vals :
  world_ok w -> table_wf e' -> same_shape (w_table w) e' ->
  e_host_shadow e' = e_host_shadow (w_table w) ->
  world_ok (set_table e' w) /\ (mapping_holds w k vals -> mapping_holds (set_table e' w) k vals).
Proof.
  intros [_ Hp] Hwf Hs Hsh. split.
  - split; [done|]. eapply Forall_impl; [exact Hp|]. intros c. by apply same_shape_copy_ok.
  - destruct Hs as (_ & Hsp & Hb). unfold mapping_holds, table_words, logical_page_capacity, row_count.
    cbn. by rewrite Hsp, Hb, Hsh.
Qed.

Lemma copy_keeps w i c k vals :
  world_ok w -> w_pending w !! i = Some c ->
  let w' := mkWorld (w_table w) (delete i (w_pending w))
              (run_copy c (e_host_shadow (w_table w)) (w_device w)) in
  world_ok w' /\ (mapping_holds w k vals -> mapping_holds w' k vals).
Proof.
  intros [H Hp] Hi w'. pose proof (Forall_lookup_1 _ _ _ _ Hp Hi) as Hc.
  split; [split; [done|by apply Forall_delete]|].
  intros Hm j v Hj. destruct (Hm j v Hj) as (Hk & Hs & Hd). split; [done|]. split; [done|]. cbn.
  rewrite (run_copy_word _ _ _ _ _ Hc) by (apply (tw_shadow _ H)).
  destruct (_ && _) eqn:E; [left; by rewrite Hs|].
  destruct Hd as [Hd|(c' & Hc' & Hr)]; [by left|right]. exists c'. split; [|done].
  rewrite (delete_Permutation _ _ _ Hi) in Hc'. apply elem_of_cons in Hc' as [->|?]; [lia|done].
Qed.

Lemma world_step_keeps o w w' r k vals :
  world_ok w -> world_step o w w' -> o <> Some r -> in_row (w_table w) r k vals ->
  mapping_holds w k vals ->
  world_ok w' /\ mapping_holds w' k vals /\ in_row (w_table w') r k vals /\
  e_block_tables (w_table w') = e_block_tables (w_table w).
Proof.
  assert (Hpub : forall h b w w' res resolved, world_ok w -> published h b w w' res resolved ->
    Some (rh_row h) <> Some r -> in_row (w_table w) r k vals -> mapping_holds w k vals ->
    world_ok w' /\ mapping_holds w' k vals /\ in_row (w_table w') r k vals /\
    e_block_tables (w_table w') = e_block_tables (w_table w)).
  { intros h b u u' res resolved Hu P Hne Hin Hm. split; [apply P|].
    split; [eapply published_keeps; try done; congruence|].
    destruct (pb_shape _ _ _ _ _ _ P) as (_ & Hs & Hb).
    split; [|done]. unfold in_row, logical_page_capacity. by rewrite Hs. }
  intros Hw Hs Ho Hin Hm. destruct Hs as [w r' e' res E|w l e' l' ok E|w pages h b hs w' res [Hb _] E|
    w pages h b ls w' res [Hb _] E|w pages h page n w' res [Hb _] E|w i c E].
  - pose proof (acquire_spec r' (w_table w) (proj1 Hw)) as (? & (? & Hsp & ?) & ?). rewrite E in *. cbn in *.
    destruct (same_table_keeps w e' k vals) as [? ?]; try done.
    split; [done|]. split; [auto|]. split; [|done]. unfold in_row, logical_page_capacity. cbn. by rewrite Hsp.
  - unfold row_lease_release in E. destruct (negb _).
    { injection E as <- <- <-. destruct w. done. }
    destruct (release_row _ _ _) as [e1 ok1] eqn:E1. injection E as <- <- <-.
    pose proof (release_row_spec (rl_row l) (rl_generation l) (w_table w) (proj1 Hw)) as (? & (? & Hsp & ?) & ?).
    rewrite E1 in *. cbn in *. destruct (same_table_keeps w e1 k vals) as [? ?]; try done.
    split; [done|]. split; [auto|]. split; [|done]. unfold in_row, logical_page_capacity. cbn. by rewrite Hsp.
  - pose proof (publish_with_spec (physical_index pages) h b hs w Hw Hb) as P.
    unfold publish in E. rewrite E in P. by eapply Hpub.
  - pose proof (publish_with_spec (fun l => _ ← throw_if (negb (l_owner l =? p_this pages)) InvalidArgument;
                         physical_index pages (lease_handle l)) h b ls w Hw Hb) as P.
    unfold publish_leases in E. cbn zeta in P. rewrite E in P. by eapply Hpub.
  - pose proof (publish_repeated_spec pages h page n w Hw Hb) as P. rewrite E in P. by eapply Hpub.
  - destruct (copy_keeps w i c k vals Hw E) as [? ?]. split; [done|]. split; [auto|]. done.
Qed.

Lemma steps_avoiding_keeps w w' r k vals :
  steps_avoiding r w w' -> world_ok w -> in_row (w_table w) r k vals -> mapping_holds w k vals ->
  mapping_holds w' k vals /\ e_block_tables (w_table w') = e_block_tables (w_table w).
Proof.
  induction 1 as [|o w w1 w2 Ho Hs _ IH]; intros Hw Hin Hm; [done|].
  destruct (world_step_keeps _ _ _ _ _ _ Hw Hs Ho Hin Hm) as (Hw1 & Hm1 & Hin1 & Hb1).
  destruct (IH Hw1 Hin1 Hm1) as [? Hb2]. split; [done|congruence].
Qed.

Inductive world_reachable (w0 : table_world) : table_world -> Prop :=
  | wr_init : world_reachable w0 w0
  | wr_step o w w' : world_reachable w0 w -> world_step o w w' -> world_reachable w0 w'.

Lemma world_reachable_ok w0 w :
  world_ok w0 -> world_reachable w0 w ->
  world_ok w /\ e_block_tables (w_table w) = e_block_tables (w_table w0) /\
  logical_page_capacity (w_table w) = logical_page_capacity (w_table w0).
Proof.
  intros H0. induction 1 as [|o w w' _ (IH & IHb & IHc) Hs]; [done|].
  destruct (world_step_keeps o w w' (match o with Some r => r + 1 | None => 0 end) 0 [] IH Hs)
    as (Hw & _ & _ & Hb).
  - destruct o as [z|]; [|done]. intros [= E]. lia.
  - intros i v Hi. apply vget_Some_bounds in Hi. unfold vsize in Hi. cbn in Hi. lia.
  - intros i v Hi. apply vget_Some_bounds in Hi. unfold vsize in Hi. cbn in Hi. lia.
  - split; [done|]. split; [congruence|]. rewrite <- IHc.
    pose proof (tw_ne _ (proj1 Hw)) as N. pose proof (tw_ne _ (proj1 IH)) as N'. congruence.
Qed.

Lemma publish_holds pages h b hs w w1 :
  world_ok w -> 0 <= b -> publish pages h b hs w = (w1, Ok tt) ->
  world_ok w1 /\
  in_row (w_table w1) (rh_row h) (shadow_offset (w_table w) h b) (map h_index hs) /\
  mapping_holds w1 (shadow_offset (w_table w) h b) (map h_index hs) /\
  e_block_tables (w_table w1) = e_block_tables (w_table w).
Proof.
  intros Hw Hb E. pose proof (publish_with_spec (physical_index pages) h b hs w Hw Hb) as P.
  unfold publish in E. rewrite E in P. cbn [fst snd] in P.
  destruct (pb_shape _ _ _ _ _ _ P) as (_ & Hsp & Hbt).
  destruct (pb_result _ _ _ _ _ _ P eq_refl) as (vals & Hf & Hv).
  assert (vals = map h_index hs) as ->.
  { clear -Hf. induction Hf as [|x v xs vs Hx _ IH]; [done|]. cbn. rewrite IH.
    unfold physical_index in Hx. simp_res. done. }
  split; [apply P|]. split; [|split; [|done]].
  - intros i v Hi. apply vget_Some_bounds in Hi.
    assert (Hr : b + vsize hs <= logical_page_capacity (w_table w)).
    { unfold publish_with in E. simp_M. simp_bool. lia. }
    unfold vsize in *. rewrite length_map in Hi.
    unfold shadow_offset, logical_page_capacity in *. rewrite Hsp. lia.
  - intros i v Hi. destruct (Hv i v Hi) as (Hk & Hs & Hc).
    unfold table_words, logical_page_capacity, row_count in *. rewrite Hsp.
    split; [done|]. split; [done|]. by right.
Qed.

(** C11. A published mapping reaches the device: from a table the planner laid
    out, after any interleaving of calls and stream progress, publish page
    handles into a row; then after any further interleaving that publishes
    only to other rows (failed publications included, and with the pending
    copies executed in any order), once no copy is pending the device block
    table holds exactly the physical indices of those pages at the published
    positions. *)
Theorem published_mapping_reaches_device this shadow backing spec e0 dev w pages h b hs w1 w2 i page :
  planned_table this shadow backing spec e0 ->
  world_reachable (mkWorld e0 [] dev) w -> is_u32 b ->
  publish pages h b hs w = (w1, Ok tt) ->
  steps_avoiding (rh_row h) w1 w2 -> w_pending w2 = [] -> hs.[i] = Some page ->
  w_device w2 (t_data (e_block_tables e0) +
                 4 * (rh_row h * ts_logical_page_capacity (e_spec e0) + b + i)) = h_index page.
Proof.
  intros Hpl Hr [Hb _] Hp Hs Hnone Hi. apply planned_table_wf in Hpl as Hwf.
  destruct (world_reachable_ok (mkWorld e0 [] dev) w) as (Hw & Hbt & Hcap); [|done|].
  { split; [done|apply Forall_nil_2]. }
  destruct (publish_holds _ _ _ _ _ _ Hw Hb Hp) as (Hw1 & Hin & Hm & Hb1).
  destruct (steps_avoiding_keeps _ _ _ _ _ Hs Hw1 Hin Hm) as [Hm2 Hb2].
  destruct (Hm2 i (h_index page)) as (_ & _ & [Hd|(c & Hc & _)]).
  - unfold vget in *. destruct (0 <=? i); [|done].
    change (map h_index hs) with (h_index <$> hs). by rewrite list_lookup_fmap, Hi.
  - rewrite <- Hd. f_equal. rewrite Hb2, Hb1, Hbt. cbn. unfold shadow_offset. rewrite Hcap.
    unfold logical_page_capacity. cbn. lia.
  - rewrite Hnone in Hc. by apply not_elem_of_nil in Hc.
Qed.

(** A table of two rows of four pages, and a client that leased row 1. *)
Definition demo_table_spec : KVExecutionTableSpec := mkTableSpec 4 2.

Definition demo_table : KVExecutionTablePool :=
  match plan_kv_execution_tables demo_table_spec empty_builder with
  | (_, Ok layout) =>
      match make_table_pool 7 (fun _ => 0) (mkSpan 8192 4096) layout with
      | Ok e => e
      | Err _ => mkTablePool 0 demo_table_spec (mkTensor 0 I32 [] []) [] [] []
      end
  | _ => mkTablePool 0 demo_table_spec (mkTensor 0 I32 [] []) [] [] []
  end.

Lemma demo_table_planned : planned_table 7 (fun _ => 0) (mkSpan 8192 4096) demo_table_spec demo_table.
Proof.
  eexists empty_builder, _, _. split; [reflexivity|].
  split; [unfold builder_wf; cbn; unfold SIZE_MAX, U64_MAX; lia|].
  split; [lia|]. split; [cbn; lia|].
  split; [split; vm_compute; discriminate|]. split; [split; vm_compute; discriminate|reflexivity].
Qed.

Definition demo_world : table_world := mkWorld (fst (acquire 1 demo_table)) [] (fun _ => -1).

Definition demo_published : table_world :=
  fst (publish (c_pool demo_client) (mkRowHandle 7 1 1) 1 [mkHandle 1 1 1; mkHandle 1 0 1] demo_world).

Lemma published_mapping_reaches_device_witness :
  run_copy (mkCopy 8212 5 2) (e_host_shadow (w_table demo_published)) (fun _ => -1)
    (8192 + 4 * (1 * 4 + 1 + 1)) = 0.
Proof.
  apply (published_mapping_reaches_device 7 (fun _ => 0) (mkSpan 8192 4096) demo_table_spec demo_table
           (fun _ => -1) demo_world (c_pool demo_client) (mkRowHandle 7 1 1) 1
           [mkHandle 1 1 1; mkHandle 1 0 1] demo_published
           (mkWorld (w_table demo_published) []
              (run_copy (mkCopy 8212 5 2) (e_host_shadow (w_table demo_published)) (fun _ => -1)))
           1 (mkHandle 1 0 1)).
  - apply demo_table_planned.
  - eapply wr_step; [apply wr_init|]. eapply (ws_acquire (mkWorld demo_table [] (fun _ => -1)) 1). reflexivity.
  - split; vm_compute; discriminate.
  - reflexivity.
  - eapply (sa_step _ None); [discriminate| |apply sa_refl].
    apply (ws_copy demo_published 0 (mkCopy 8212 5 2)). reflexivity.
  - reflexivity.
  - reflexivity.
Defined.

(** ** Row leases *)
Inductive rows_reachable (e0 : KVExecutionTablePool)
  : KVExecutionTablePool -> list KVExecutionRowLease -> Prop :=
  | rows_init : rows_reachable e0 e0 []
  | rows_acquire e ls r e' l :
      rows_reachable e0 e ls -> acquire r e = (e', Ok l) -> rows_reachable e0 e' (l :: ls)
  | rows_release e ls k l e' l' ok :
      rows_reachable e0 e ls -> ls !! k = Some l -> row_lease_release l e = (e', l', ok) ->
      rows_reachable e0 e' (delete k ls).

(** The leases are exactly the rows in use, one each, of their current
    generation. *)
Record rows_ok (e : KVExecutionTablePool) (ls : list KVExecutionRowLease) : Prop := {
  ro_wf : table_wf e;
  ro_live : Forall (fun l => rl_owner l = e_this e /\
              (e_row_generations e).[rl_row l] = Some (rl_generation l)) ls;
  ro_nodup : NoDup (map rl_row ls);
  ro_used : forall r, (e_row_in_use e).[r] = Some true <-> r ∈ map rl_row ls;
}.

Lemma rows_ok_acquire e ls r e' l :
  rows_ok e ls -> acquire r e = (e', Ok l) -> rows_ok e' (l :: ls).
Proof.
  intros H E. pose proof (acquire_spec r e (ro_wf _ _ H)) as (Hwf & Hs & _).
  rewrite E in Hwf, Hs. cbn in Hwf, Hs. unfold acquire in E. destruct (_ || _) eqn:G; [done|].
  simp_bool. destruct ((e_row_in_use e).[r]) as [u|] eqn:Hu; [|done].
  destruct ((e_row_generations e).[r]) as [g|] eqn:Hg; [|done]. destruct u; [done|].
  injection E as <- <-. constructor; cbn; [done| | |].
  - apply Forall_cons_2; [done|apply H].
  - apply NoDup_cons. split; [|apply H]. rewrite <- (ro_used _ _ H), Hu. congruence.
  - intros q. rewrite vget_vset, (tw_in_use _ (ro_wf _ _ H)). destruct (Z.eqb_spec r q) as [<-|].
    + rewrite (proj2 (Z.leb_le _ _)), (proj2 (Z.ltb_lt _ _)) by lia. cbn. set_solver.
    + cbn. rewrite (ro_used _ _ H). set_solver.
Qed.

Lemma rows_ok_release e ls k l e' l' ok :
  rows_ok e ls -> ls !! k = Some l -> row_lease_release l e = (e', l', ok) ->
  rows_ok e' (delete k ls) /\ ok = true /\ valid_row_handle e' (row_lease_handle l) = false.
Proof.
  intros H Hk E. pose proof (ro_wf _ _ H) as Hwf0. pose proof (tw_this _ Hwf0).
  pose proof (ro_live _ _ H) as Hlive. destruct (Forall_lookup_1 _ _ _ _ Hlive Hk) as [Ho Hg].
  assert (Hu : (e_row_in_use e).[rl_row l] = Some true).
  { apply (ro_used _ _ H). change (map rl_row ls) with (rl_row <$> ls). apply list_elem_of_fmap_2.
    by eapply list_elem_of_lookup_2. }
  pose proof (vget_Some_bounds _ _ _ Hu) as Hb. rewrite (tw_in_use _ Hwf0) in Hb.
  unfold row_lease_release, row_lease_valid in E. rewrite Ho, (proj2 (Z.eqb_neq _ 0)) in E by lia.
  cbn [negb] in E. pose proof (release_row_spec (rl_row l) (rl_generation l) e Hwf0) as (Hwf & _ & _).
  unfold release_row in E, Hwf. rewrite (proj2 (Z.ltb_ge _ 0)), (proj2 (Z.leb_gt _ _)) in E, Hwf by lia.
  rewrite Hu, Hg, Z.eqb_refl in E, Hwf. cbn in E, Hwf. injection E as <- <- <-.
  pose proof (ro_nodup _ _ H) as Hnd. pose proof (delete_Permutation _ _ _ Hk) as Hp.
  rewrite Hp in Hnd, Hlive. cbn in Hnd. apply NoDup_cons in Hnd as [Hni Hnd].
  apply Forall_cons_1 in Hlive as [_ Hlive].
  split; [constructor; cbn; try done|split; [done|]].
  - apply Forall_forall. intros x Hx. rewrite Forall_forall in Hlive. destruct (Hlive x Hx) as [? ?].
    split; [done|]. rewrite vget_vset_ne; [done|]. intros Heq. apply Hni. rewrite Heq.
    by apply list_elem_of_fmap_2.
  - intros q. rewrite vget_vset, (tw_in_use _ Hwf0). destruct (Z.eqb_spec (rl_row l) q) as [<-|Hne].
    + rewrite (proj2 (Z.leb_le _ _)), (proj2 (Z.ltb_lt _ _)) by lia. cbn. split; [done|by intros ?%Hni].
    + cbn. rewrite (ro_used _ _ H), (Permutation_map rl_row Hp). cbn.
      rewrite elem_of_cons. split; [|by right].
      intros [->|?]; done.
  - unfold row_lease_handle, row_lease_valid, valid_row_handle.
    rewrite Ho, (proj2 (Z.eqb_neq _ 0)) by lia. cbn. rewrite Z.eqb_refl. cbn.
    destruct (_ || _); [done|]. rewrite !vget_vset_eq by (rewrite ?(tw_in_use _ Hwf0), ?(tw_gens _ Hwf0); lia).
    done.
Qed.

(** Row leases are exclusive: in every state reachable by acquiring and
    releasing, two live leases never name the same row, a row is in use
    exactly when a lease holds it, every live lease's handle is accepted, and
    releasing a lease succeeds and makes its handle stale. *)
Theorem row_leases_exclusive this shadow backing spec e0 e ls :
  planned_table this shadow backing spec e0 -> rows_reachable e0 e ls ->
  NoDup (map rl_row ls) /\
  (forall r, (e_row_in_use e).[r] = Some true <-> r ∈ map rl_row ls) /\
  Forall (fun l => valid_row_handle e (row_lease_handle l) = true /\
    let '(e', _, ok) := row_lease_release l e in
    ok = true /\ valid_row_handle e' (row_lease_handle l) = false) ls.
Proof.
  intros Hpl Hr. assert (H : rows_ok e ls).
  { induction Hr as [|e ls r e' l _ IH E|e ls k l e' l' ok _ IH Hk E].
    - apply planned_table_wf in Hpl as Hwf. constructor; cbn; auto using NoDup_nil_2, Forall_nil_2.
      intros r. destruct Hpl as (b & b' & layout & _ & _ & _ & _ & _ & _ & Hm).
      unfold make_table_pool in Hm. simp_res. cbn. split; [|by intros ?%not_elem_of_nil].
      intros Hb. pose proof (vget_elem _ _ _ Hb) as He. by apply elem_of_replicate_inv in He.
    - by eapply rows_ok_acquire.
    - by eapply rows_ok_release. }
  split; [apply H|]. split; [apply H|]. apply Forall_forall. intros l Hl.
  apply list_elem_of_lookup in Hl as [k Hk].
  destruct (row_lease_release l e) as [[e' l'] ok] eqn:E.
  destruct (rows_ok_release _ _ _ _ _ _ _ H Hk E) as (_ & -> & ?). split; [|done].
  destruct (Forall_lookup_1 _ _ _ _ (ro_live _ _ H) Hk) as [Ho Hg].
  assert (Hu : (e_row_in_use e).[rl_row l] = Some true).
  { apply (ro_used _ _ H). apply list_elem_of_fmap_2. by eapply list_elem_of_lookup_2. }
  pose proof (vget_Some_bounds _ _ _ Hu) as Hb. rewrite (tw_in_use _ (ro_wf _ _ H)) in Hb.
  pose proof (tw_this _ (ro_wf _ _ H)).
  unfold row_lease_handle, row_lease_valid, valid_row_handle.
  rewrite Ho, (proj2 (Z.eqb_neq _ 0)) by lia. cbn. rewrite Z.eqb_refl.
  rewrite (proj2 (Z.ltb_ge _ 0)), (proj2 (Z.leb_gt _ _)) by lia. cbn. by rewrite Hu, Hg, Z.eqb_refl.
Qed.

Lemma row_leases_exclusive_witness :
  valid_row_handle (w_table demo_world) (mkRowHandle 7 1 1) = true.
Proof.
  destruct (row_leases_exclusive 7 (fun _ => 0) (mkSpan 8192 4096) demo_table_spec demo_table
              (w_table demo_world) [mkRowLease 7 1 1]) as (_ & _ & Hf).
  - apply demo_table_planned.
  - eapply (rows_acquire _ demo_table [] 1); [apply rows_init|reflexivity].
  - apply Forall_cons_1 in Hf as [[Hf _] _]. exact Hf.
Defined.
