(* ===== verification/HostKvArena.v ===== *)
(** The pinned host arena for KV pages (src/src/core/host_kv_arena.h and
    src/src/core/host_kv_arena.cpp): page layouts, transfer work, and an
    allocator with descriptors, generations, coalescing free extents, split,
    and allocation recipes that are planned on a copy and adopted later. *)

From stdpp Require Import sorting.
From S2P Require Import Prelude Tensor Layout PagedKv.

Definition kHostKVAlignment : Z := 256.

(** * Page layouts *)
Record HostKVPlaneLayout : Type := mkHostPlane {
  hp_offset : Z;
  hp_page_payload_bytes : Z;
  hp_head_payload_bytes : Z;
}.

Record HostKVPageLayout : Type := mkHostLayout {
  hl_geometry : KVPageGeometry;
  hl_planes : list HostKVPlaneLayout;
  hl_page_stride : Z;
}.

#[global] Instance HostKVPlaneLayout_eq_dec : EqDecision HostKVPlaneLayout.
Proof. solve_decision. Defined.
#[global] Instance HostKVPageLayout_eq_dec : EqDecision HostKVPageLayout.
Proof. solve_decision. Defined.

Record TransferWork : Type := mkWork {
  payload_bytes_ : Z;
  copy_operations : Z;
}.

Definition host_align_up (value alignment : Z) : result Z :=
  _ ← throw_if ((alignment =? 0) || negb (Z.land alignment (wrap64 (alignment - 1)) =? 0))
        InvalidArgument;
  let mask := alignment - 1 in
  _ ← throw_if (SIZE_MAX - mask <? value) OverflowError;
  Ok (Z.land (value + mask) (wrap64 (Z.lnot mask))).

(** One iteration of the plane loop: the planes so far and the cursor. *)
Definition plan_host_plane (page_tokens : Z) (st : list HostKVPlaneLayout * Z)
    (plane : KVPlaneGeometry) : result (list HostKVPlaneLayout * Z) :=
  let '(planes, cursor) := st in
  _ ← throw_if ((pl_leading_extent plane <=? 0) || (pl_head_extent plane <=? 0)) InvalidArgument;
  cursor ← host_align_up cursor kHostKVAlignment;
  lead ← checked_mul_size (pl_leading_extent plane) page_tokens;
  head_bytes ← checked_mul_size lead (dtype_size (pl_dtype plane));
  page_bytes ← checked_mul_size head_bytes (pl_head_extent plane);
  next ← checked_add_size cursor page_bytes;
  Ok (planes ++ [mkHostPlane cursor page_bytes head_bytes], next).

Definition plan_host_kv_page_layout (geometry : KVPageGeometry) : result HostKVPageLayout :=
  _ ← throw_if ((g_page_tokens geometry =? 0) ||
                match g_planes geometry with [] => true | _ => false end) InvalidArgument;
  '(planes, cursor) ← rfor (plan_host_plane (g_page_tokens geometry)) ([], 0) (g_planes geometry);
  stride ← host_align_up cursor kHostKVAlignment;
  Ok (mkHostLayout geometry planes stride).

Definition plan_host_kv_transfer_work (layout : HostKVPageLayout) (pages contiguous_runs : Z)
  : result TransferWork :=
  if pages =? 0 then Ok (mkWork 0 0) else
  _ ← throw_if ((contiguous_runs =? 0) || (pages <? contiguous_runs) ||
                match hl_planes layout with [] => true | _ => false end ||
                negb (vsize (hl_planes layout) =? vsize (g_planes (hl_geometry layout))))
        InvalidArgument;
  '(bytes_per_page, operations_per_run) ←
    rfor (fun '(b, o) '(planned, plane) =>
            b' ← checked_add_size b (hp_page_payload_bytes planned);
            let operations := match g_device_plane_order (hl_geometry layout) with
                              | PageMajor => 1
                              | HeadMajor => pl_head_extent plane
                              end in
            o' ← checked_add_size o operations;
            Ok (b', o')) (0, 0) (zip (hl_planes layout) (g_planes (hl_geometry layout)));
  payload ← checked_mul_size bytes_per_page pages;
  operations ← checked_mul_size operations_per_run contiguous_runs;
  _ ← throw_if (U32_MAX <? operations) OverflowError;
  Ok (mkWork payload operations).

Definition plan_device_kv_copy_work (layout : HostKVPageLayout) (pages : Z) : result TransferWork :=
  if pages =? 0 then Ok (mkWork 0 0) else
  _ ← throw_if (match hl_planes layout with [] => true | _ => false end ||
                negb (vsize (hl_planes layout) =? vsize (g_planes (hl_geometry layout))))
        InvalidArgument;
  bytes_per_page ← rfor (fun b planned => checked_add_size b (hp_page_payload_bytes planned)) 0
                     (hl_planes layout);
  payload ← checked_mul_size bytes_per_page pages;
  operations ← checked_mul_size (vsize (hl_planes layout)) pages;
  _ ← throw_if (U32_MAX <? operations) OverflowError;
  Ok (mkWork payload operations).

(** * Handles, allocations, recipes

    As for the device pool, an owner is the address of the arena, [0] for the
    null pointer. *)
Record HostKVAllocationHandle : Type := mkHostHandle {
  hh_owner : Z;
  hh_descriptor : Z;
  hh_generation : Z;
}.

#[global] Instance HostKVAllocationHandle_eq_dec : EqDecision HostKVAllocationHandle.
Proof. solve_decision. Defined.

Record HostKVAllocation : Type := mkAllocation {
  ha_owner : Z;
  ha_descriptor : Z;
  ha_generation : Z;
}.

Definition null_allocation : HostKVAllocation := mkAllocation 0 0 0.

Definition allocation_valid (a : HostKVAllocation) : bool := negb (ha_owner a =? 0).

Definition allocation_handle (a : HostKVAllocation) : HostKVAllocationHandle :=
  if allocation_valid a then mkHostHandle (ha_owner a) (ha_descriptor a) (ha_generation a)
  else mkHostHandle 0 0 0.

(** A request; [None] is the null layout pointer. *)
Record HostKVAllocationRequest : Type := mkRequest {
  rq_layout : option HostKVPageLayout;
  rq_pages : Z;
}.

Record HostKVSuballocationRelease : Type := mkSubrelease {
  sr_allocation : HostKVAllocationHandle;
  sr_begin_page : Z;
  sr_page_count : Z;
}.

Record RecipeTarget : Type := mkTarget {
  rt_layout : Z;
  rt_pages : Z;
  rt_offset : Z;
  rt_bytes : Z;
}.

Record HostKVAllocationRecipe : Type := mkRecipe {
  rc_owner : Z;
  rc_revision : Z;
  rc_releases : list HostKVAllocationHandle;
  rc_targets : list RecipeTarget;
}.

(** * The arena *)
Record Descriptor : Type := mkDescriptor {
  d_offset : Z;
  d_bytes : Z;
  d_layout : Z;
  d_pages : Z;
  d_generation : Z;
  d_active : bool;
}.

Record FreeExtent : Type := mkExtent { x_offset : Z; x_bytes : Z }.

Record HostKVArena : Type := mkHostArena {
  a_this : Z;
  a_backing : Z;
  a_capacity : Z;
  a_occupied : Z;
  a_layouts : list HostKVPageLayout;
  a_descriptors : list Descriptor;
  a_free_descriptors : list Z;
  a_free_extents : list FreeExtent;
  a_revision : Z;
}.

(** [std::min_element] by page stride, whose value is all the constructor uses. *)
Definition smallest_stride (layouts : list HostKVPageLayout) : Z :=
  match layouts with
  | [] => 0
  | l :: ls => foldl (fun m x => if hl_page_stride x <? m then hl_page_stride x else m)
                 (hl_page_stride l) ls
  end.

(** The validation loop of the constructor: [previous] holds the layouts
    before the current one. *)
Fixpoint check_layouts (previous layouts : list HostKVPageLayout) : result unit :=
  match layouts with
  | [] => Ok tt
  | l :: ls =>
      planned ← plan_host_kv_page_layout (hl_geometry l);
      _ ← throw_if (negb (bool_decide (planned = l))) InvalidArgument;
      _ ← throw_if (existsb (fun p => bool_decide (p = l)) previous) InvalidArgument;
      check_layouts (previous ++ [l]) ls
  end.

(** The constructor; [backing] is the address of the pinned buffer it allocates. *)
Definition make_host_arena (this backing capacity_bytes : Z) (layouts : list HostKVPageLayout)
  : result HostKVArena :=
  _ ← check_layouts [] layouts;
  if capacity_bytes =? 0 then Ok (mkHostArena this 0 0 0 layouts [] [] [] 1) else
  _ ← throw_if (match layouts with [] => true | _ => false end) InvalidArgument;
  let maximum_descriptors := capacity_bytes / smallest_stride layouts in
  _ ← throw_if (U32_MAX <? maximum_descriptors) OverflowError;
  let n := Z.to_nat maximum_descriptors in
  Ok (mkHostArena this backing capacity_bytes 0 layouts
        (replicate n (mkDescriptor 0 0 0 0 1 false))
        (rev (seqZ 0 maximum_descriptors)) [mkExtent 0 capacity_bytes] 1).

Definition free_bytes (a : HostKVArena) : Z := wrap64 (a_capacity a - a_occupied a).

Definition find_layout (a : HostKVArena) (layout : HostKVPageLayout) : option Z :=
  match find_index (fun l => bool_decide (l = layout)) (a_layouts a) with
  | Some (i, _) => Some (Z.of_nat i)
  | None => None
  end.

Definition layout_for (a : HostKVArena) (geometry : KVPageGeometry) : option HostKVPageLayout :=
  match find_index (fun l => bool_decide (hl_geometry l = geometry)) (a_layouts a) with
  | Some (_, l) => Some l
  | None => None
  end.

(** The first extent that is large enough, in the arena or in a simulation. *)
Definition find_free_extent (extents : list FreeExtent) (bytes : Z) : option (nat * FreeExtent) :=
  find_index (fun e => bytes <=? x_bytes e) extents.

(** [free.offset += bytes; free.bytes -= bytes;] and the erasure of an extent
    that becomes empty. *)
Definition carve_extent (extents : list FreeExtent) (i : nat) (e : FreeExtent) (bytes : Z)
  : list FreeExtent :=
  let rest := wrap64 (x_bytes e - bytes) in
  if rest =? 0 then erase_at i extents
  else <[i := mkExtent (wrap64 (x_offset e + bytes)) rest]> extents.

Definition bump (revision : Z) : Z :=
  let r := wrap64 (revision + 1) in
  if r =? 0 then wrap64 (r + 1) else r.

(** [insert_free_extent], and the [insert_extent] lambda of both planners. *)
Definition insert_extent (extents : list FreeExtent) (extent : FreeExtent) : list FreeExtent :=
  let (before, after) := span_while (fun c => x_offset c <? x_offset extent) extents in
  let '(before, inserted) :=
    match last before with
    | Some previous =>
        if wrap64 (x_offset previous + x_bytes previous) =? x_offset extent
        then (removelast before,
              mkExtent (x_offset previous) (wrap64 (x_bytes previous + x_bytes extent)))
        else (before, extent)
    | None => (before, extent)
    end in
  match after with
  | next :: after' =>
      if wrap64 (x_offset inserted + x_bytes inserted) =? x_offset next
      then before ++ mkExtent (x_offset inserted) (wrap64 (x_bytes inserted + x_bytes next)) :: after'
      else before ++ inserted :: after
  | [] => before ++ [inserted]
  end.

Definition host_valid_handle (a : HostKVArena) (h : HostKVAllocationHandle) : bool :=
  if negb (hh_owner h =? a_this a) || (vsize (a_descriptors a) <=? hh_descriptor h) then false
  else match (a_descriptors a).[hh_descriptor h] with
       | Some d => d_active d && (d_generation d =? hh_generation h)
       | None => false
       end.

Definition request_oversized (layout : HostKVPageLayout) (pages : Z) : bool :=
  SIZE_MAX / pages <? hl_page_stride layout.

Definition can_allocate (a : HostKVArena) (layout : HostKVPageLayout) (pages : Z) : bool :=
  if (pages =? 0) || match a_free_descriptors a with [] => true | _ => false end ||
     match find_layout a layout with None => true | Some _ => false end ||
     request_oversized layout pages
  then false
  else match find_free_extent (a_free_extents a) (hl_page_stride layout * pages) with
       | Some _ => true
       | None => false
       end.

(** [take_descriptor]; the maximum of uint32 stands for none. *)
Definition take_descriptor (a : HostKVArena) : Z * list Z :=
  match last (a_free_descriptors a) with
  | Some out => (out, removelast (a_free_descriptors a))
  | None => (U32_MAX, a_free_descriptors a)
  end.

Definition allocate (a : HostKVArena) (layout : HostKVPageLayout) (pages : Z)
  : result (HostKVArena * option HostKVAllocation) :=
  match find_layout a layout with
  | None => Ok (a, None)
  | Some layout_index =>
      if (pages =? 0) || match a_free_descriptors a with [] => true | _ => false end ||
         request_oversized layout pages
      then Ok (a, None)
      else
        let bytes := hl_page_stride layout * pages in
        match find_free_extent (a_free_extents a) bytes with
        | None => Ok (a, None)
        | Some (i, free) =>
            let '(descriptor_index, free_descriptors) := take_descriptor a in
            if descriptor_index =? U32_MAX
            then Ok (mkHostArena (a_this a) (a_backing a) (a_capacity a) (a_occupied a) (a_layouts a)
                       (a_descriptors a) free_descriptors (a_free_extents a) (a_revision a), None)
            else
              old ← vat (a_descriptors a) descriptor_index;
              Ok (mkHostArena (a_this a) (a_backing a) (a_capacity a)
                    (wrap64 (a_occupied a + bytes)) (a_layouts a)
                    ((a_descriptors a).[descriptor_index <-
                       mkDescriptor (x_offset free) bytes layout_index pages (d_generation old) true])
                    free_descriptors (carve_extent (a_free_extents a) i free bytes)
                    (bump (a_revision a)),
                  Some (mkAllocation (a_this a) descriptor_index (d_generation old)))
        end
  end.

Definition release_descriptor (a : HostKVArena) (descriptor_index generation : Z)
  : HostKVArena * bool :=
  match (a_descriptors a).[descriptor_index] with
  | None => (a, false)
  | Some d =>
      if negb (d_active d) || negb (d_generation d =? generation) then (a, false)
      else
        (mkHostArena (a_this a) (a_backing a) (a_capacity a)
           (wrap64 (a_occupied a - d_bytes d)) (a_layouts a)
           ((a_descriptors a).[descriptor_index <-
              mkDescriptor 0 0 (d_layout d) 0 (increment_generation (d_generation d)) false])
           (a_free_descriptors a ++ [descriptor_index])
           (insert_extent (a_free_extents a) (mkExtent (d_offset d) (d_bytes d)))
           (bump (a_revision a)), true)
  end.

(** [HostKVAllocation::release], on the arena that owns the allocation; the
    destructor is [release] too. *)
Definition allocation_release (a : HostKVArena) (al : HostKVAllocation)
  : HostKVArena * HostKVAllocation * bool :=
  if negb (allocation_valid al) then (a, al, false)
  else let '(a', ok) := release_descriptor a (ha_descriptor al) (ha_generation al) in
       (a', null_allocation, ok).

Definition allocation_page_count (a : HostKVArena) (al : HostKVAllocation) : Z :=
  if negb (allocation_valid al) || (vsize (a_descriptors a) <=? ha_descriptor al) then 0
  else match (a_descriptors a).[ha_descriptor al] with
       | Some d => if d_active d && (d_generation d =? ha_generation al) then d_pages d else 0
       | None => 0
       end.

(** ** Planning on a copy of the extents *)

(** The release loop: every handle live and named once; the simulated extents. *)
Fixpoint simulate_releases (a : HostKVArena) (previous proposed : list HostKVAllocationHandle)
    (simulated : list FreeExtent) : option (list FreeExtent) :=
  match proposed with
  | [] => Some simulated
  | h :: hs =>
      if negb (host_valid_handle a h) || existsb (fun p => bool_decide (p = h)) previous then None
      else match (a_descriptors a).[hh_descriptor h] with
           | Some d => simulate_releases a (previous ++ [h]) hs
                         (insert_extent simulated (mkExtent (d_offset d) (d_bytes d)))
           | None => None
           end
  end.

(** The allocation loop: first fit on the simulated extents. *)
Fixpoint simulate_targets (a : HostKVArena) (requests : list HostKVAllocationRequest)
    (simulated : list FreeExtent) : option (list RecipeTarget * list FreeExtent) :=
  match requests with
  | [] => Some ([], simulated)
  | request :: requests' =>
      match rq_layout request with
      | None => None
      | Some layout =>
          if rq_pages request =? 0 then None
          else match find_layout a layout with
               | None => None
               | Some layout_index =>
                   if request_oversized layout (rq_pages request) then None
                   else
                     let bytes := hl_page_stride layout * rq_pages request in
                     match find_free_extent simulated bytes with
                     | None => None
                     | Some (i, extent) =>
                         match simulate_targets a requests' (carve_extent simulated i extent bytes) with
                         | None => None
                         | Some (targets, final) =>
                             Some (mkTarget layout_index (rq_pages request) (x_offset extent) bytes
                                     :: targets, final)
                         end
                     end
               end
      end
  end.

Definition plan_after_releases (a : HostKVArena) (proposed_releases : list HostKVAllocationHandle)
    (target_allocations : list HostKVAllocationRequest) : option HostKVAllocationRecipe :=
  if match proposed_releases, target_allocations with [], [] => true | _, _ => false end then None
  else if vsize (a_free_descriptors a) + vsize proposed_releases <? vsize target_allocations then None
  else match simulate_releases a [] proposed_releases (a_free_extents a) with
       | None => None
       | Some simulated =>
           match simulate_targets a target_allocations simulated with
           | None => None
           | Some (targets, _) => Some (mkRecipe (a_this a) (a_revision a) proposed_releases targets)
           end
       end.

(** ** Planning the release of parts of allocations *)

(** Two releases of one allocation share a page. *)
Definition subreleases_overlap (release other : HostKVSuballocationRelease) : bool :=
  bool_decide (sr_allocation other = sr_allocation release) &&
  (sr_begin_page release <? wrap32 (sr_begin_page other + sr_page_count other)) &&
  (sr_begin_page other <? wrap32 (sr_begin_page release + sr_page_count release)).

(** The extent of the pages a release names. *)
Definition subrelease_extent (a : HostKVArena) (d : Descriptor) (release : HostKVSuballocationRelease)
  : result FreeExtent :=
  layout ← vat (a_layouts a) (d_layout d);
  skipped ← checked_mul_size (sr_begin_page release) (hl_page_stride layout);
  offset ← checked_add_size (d_offset d) skipped;
  bytes ← checked_mul_size (sr_page_count release) (hl_page_stride layout);
  Ok (mkExtent offset bytes).

(** The release loop: [None] is the [false] return. *)
Fixpoint simulate_subreleases (a : HostKVArena) (previous proposed : list HostKVSuballocationRelease)
    (simulated : list FreeExtent) : result (option (list FreeExtent)) :=
  match proposed with
  | [] => Ok (Some simulated)
  | release :: proposed' =>
      if negb (host_valid_handle a (sr_allocation release)) || (sr_page_count release =? 0) then Ok None
      else
        d ← vat (a_descriptors a) (hh_descriptor (sr_allocation release));
        if (d_pages d <? sr_begin_page release) ||
           (wrap32 (d_pages d - sr_begin_page release) <? sr_page_count release) then Ok None
        else if existsb (subreleases_overlap release) previous then Ok None
        else
          extent ← subrelease_extent a d release;
          simulate_subreleases a (previous ++ [release]) proposed' (insert_extent simulated extent)
  end.

(** The intervals of pages released from one allocation, in order. *)
Definition interval_le (x y : Z * Z) : Prop := fst x < fst y \/ (fst x = fst y /\ snd x <= snd y).

#[global] Instance interval_le_dec : RelDecision interval_le.
Proof. intros x y. unfold interval_le. apply _. Defined.

Definition release_intervals (allocation : HostKVAllocationHandle)
    (proposed : list HostKVSuballocationRelease) : list (Z * Z) :=
  merge_sort interval_le
    (map (fun release => (sr_begin_page release, wrap32 (sr_begin_page release + sr_page_count release)))
       (filter (fun release => sr_allocation release = allocation) proposed)).

(** The runs of pages that stay between the intervals. *)
Definition count_retained (pages : Z) (intervals : list (Z * Z)) : Z :=
  let '(cursor, retained) :=
    foldl (fun '(cursor, retained) '(begin, stop) =>
             (stop, if cursor <? begin then retained + 1 else retained)) (0, 0) intervals in
  if cursor <? pages then retained + 1 else retained.

(** The descriptor loop: what the releases make available and what the
    retained runs require. *)
Fixpoint count_descriptors (a : HostKVArena) (all previous proposed : list HostKVSuballocationRelease)
    (available required : Z) : result (Z * Z) :=
  match proposed with
  | [] => Ok (available, required)
  | release :: proposed' =>
      let allocation := sr_allocation release in
      if existsb (fun p => bool_decide (sr_allocation p = allocation)) previous
      then count_descriptors a all (previous ++ [release]) proposed' available required
      else
        d ← vat (a_descriptors a) (hh_descriptor allocation);
        let retained := count_retained (d_pages d) (release_intervals allocation all) in
        if retained =? 0
        then count_descriptors a all (previous ++ [release]) proposed' (available + 1) required
        else count_descriptors a all (previous ++ [release]) proposed' available
               (if 1 <? retained then required + (retained - 1) else required)
  end.

Definition can_allocate_after_suballocation_releases (a : HostKVArena)
    (proposed_releases : list HostKVSuballocationRelease)
    (target_allocations : list HostKVAllocationRequest) : result bool :=
  if match proposed_releases, target_allocations with [], [] => true | _, _ => false end then Ok true
  else
    simulated ← simulate_subreleases a [] proposed_releases (a_free_extents a);
    match simulated with
    | None => Ok false
    | Some simulated =>
        '(available, required) ←
          count_descriptors a proposed_releases [] proposed_releases (vsize (a_free_descriptors a))
            (vsize target_allocations);
        if available <? required then Ok false
        else Ok (match simulate_targets a target_allocations simulated with Some _ => true | None => false end)
    end.

(** ** Adoption *)
Definition recipe_release_ok (a : HostKVArena) (p : option HostKVAllocation)
    (h : HostKVAllocationHandle) : bool :=
  match p with
  | None => false
  | Some al => bool_decide (allocation_handle al = h) && host_valid_handle a h
  end.

Definition recipe_target_ok (a : HostKVArena) (out : HostKVAllocation) (t : RecipeTarget) : bool :=
  if allocation_valid out || (vsize (a_layouts a) <=? rt_layout t) || (rt_pages t =? 0) then false
  else match (a_layouts a).[rt_layout t] with
       | None => false
       | Some l => negb (request_oversized l (rt_pages t)) &&
                   (hl_page_stride l * rt_pages t =? rt_bytes t)
       end.

(** The validation of [apply_recipe]; [proposed_releases] are pointers, [None]
    the null one. *)
Definition recipe_acceptable (a : HostKVArena) (recipe : HostKVAllocationRecipe)
    (proposed_releases : list (option HostKVAllocation)) (targets : list HostKVAllocation) : bool :=
  (rc_owner recipe =? a_this a) && (rc_revision recipe =? a_revision a) &&
  (vsize (rc_releases recipe) =? vsize proposed_releases) &&
  (vsize (rc_targets recipe) =? vsize targets) &&
  forallb (fun '(p, h) => recipe_release_ok a p h) (zip proposed_releases (rc_releases recipe)) &&
  forallb (fun '(out, t) => recipe_target_ok a out t) (zip targets (rc_targets recipe)).

Fixpoint adopt_releases (a : HostKVArena) (releases : list (option HostKVAllocation))
  : result HostKVArena :=
  match releases with
  | [] => Ok a
  | None :: _ => Err Undefined
  | Some al :: releases' =>
      let '(a', _, ok) := allocation_release a al in
      if negb ok then Err Terminate else adopt_releases a' releases'
  end.

Fixpoint adopt_targets (a : HostKVArena) (targets : list RecipeTarget)
  : result (HostKVArena * list HostKVAllocation) :=
  match targets with
  | [] => Ok (a, [])
  | t :: targets' =>
      layout ← vat (a_layouts a) (rt_layout t);
      '(a', allocation) ← allocate a layout (rt_pages t);
      match allocation with
      | None => Err Terminate
      | Some al =>
          d ← vat (a_descriptors a') (ha_descriptor al);
          _ ← throw_if (negb (d_offset d =? rt_offset t) || negb (d_bytes d =? rt_bytes t)) Terminate;
          '(a'', als) ← adopt_targets a' targets';
          Ok (a'', al :: als)
      end
  end.

(** [apply_recipe]: [None] is the [false] return, [Some] the outputs. *)
Definition apply_recipe (a : HostKVArena) (recipe : HostKVAllocationRecipe)
    (proposed_releases : list (option HostKVAllocation)) (targets : list HostKVAllocation)
  : result (HostKVArena * option (list HostKVAllocation)) :=
  if negb (recipe_acceptable a recipe proposed_releases targets) then Ok (a, None)
  else
    a1 ← adopt_releases a proposed_releases;
    '(a2, als) ← adopt_targets a1 (rc_targets recipe);
    Ok (a2, Some als).

(** ** Split *)
Definition split_allocation (a : HostKVArena) (allocation : HostKVAllocation) (page_offset : Z)
  : result (HostKVArena * (HostKVAllocation * HostKVAllocation)) :=
  _ ← throw_if (negb (host_valid_handle a (allocation_handle allocation))) InvalidArgument;
  original ← vat (a_descriptors a) (ha_descriptor allocation);
  _ ← throw_if ((page_offset =? 0) || (d_pages original <=? page_offset)) OutOfRange;
  let '(right_index, free_descriptors) := take_descriptor a in
  _ ← throw_if (right_index =? U32_MAX) LogicError;
  layout ← vat (a_layouts a) (d_layout original);
  let stride := hl_page_stride layout in
  let right_pages := wrap32 (d_pages original - page_offset) in
  old ← vat (a_descriptors a) right_index;
  let right := mkDescriptor (wrap64 (d_offset original + wrap64 (page_offset * stride)))
                 (wrap64 (right_pages * stride)) (d_layout original) right_pages
                 (d_generation old) true in
  let left := mkDescriptor (d_offset original) (wrap64 (page_offset * stride)) (d_layout original)
                page_offset (increment_generation (d_generation original)) (d_active original) in
  Ok (mkHostArena (a_this a) (a_backing a) (a_capacity a) (a_occupied a) (a_layouts a)
        ((a_descriptors a).[right_index <- right].[ha_descriptor allocation <- left])
        free_descriptors (a_free_extents a) (bump (a_revision a)),
      (mkAllocation (a_this a) (ha_descriptor allocation) (d_generation left),
       mkAllocation (a_this a) right_index (d_generation right))).

(** ** Views *)
Record HostKVAllocationView : Type := mkView {
  v_handle : HostKVAllocationHandle;
  v_data : Z;
  v_layout : option HostKVPageLayout;
  v_page_count : Z;
}.

Definition allocation_data (a : HostKVArena) (d : Descriptor) : Z :=
  if a_backing a =? 0 then 0 else a_backing a + d_offset d.

(** [writable_view] and [view]. *)
Definition arena_view (a : HostKVArena) (allocation : HostKVAllocation)
  : result HostKVAllocationView :=
  _ ← throw_if (negb (host_valid_handle a (allocation_handle allocation))) InvalidArgument;
  d ← vat (a_descriptors a) (ha_descriptor allocation);
  layout ← vat (a_layouts a) (d_layout d);
  Ok (mkView (allocation_handle allocation) (allocation_data a d) (Some layout) (d_pages d)).

Definition view_valid (a : HostKVArena) (v : HostKVAllocationView) : bool :=
  negb (hh_owner (v_handle v) =? 0) && host_valid_handle a (v_handle v).

Definition view_layout (a : HostKVArena) (v : HostKVAllocationView) : result HostKVPageLayout :=
  match v_layout v with
  | Some l => _ ← throw_if (negb (view_valid a v)) LogicError; Ok l
  | None => Err LogicError
  end.

Definition subview (a : HostKVArena) (v : HostKVAllocationView) (begin count : Z)
  : result HostKVAllocationView :=
  _ ← throw_if (negb (view_valid a v) || (count =? 0) || (v_page_count v <? begin) ||
                (v_page_count v - begin <? count)) OutOfRange;
  match v_layout v with
  | Some l => Ok (mkView (v_handle v) (v_data v + wrap64 (begin * hl_page_stride l)) (v_layout v) count)
  | None => Err Undefined
  end.

(** * Free extents

    An extent is an interval like a run of free pages, so the lemmas on runs
    carry over. *)
Definition as_run (e : FreeExtent) : FreePageRun := mkRun (x_offset e) (x_bytes e).

Definition extents_ok (lo hi : Z) (xs : list FreeExtent) : Prop := runs_ok lo hi (map as_run xs).
Definition byte_free (xs : list FreeExtent) (b : Z) : bool := page_free (map as_run xs) b.
Definition extents_total (xs : list FreeExtent) : Z := runs_total (map as_run xs).
Definition in_extent (b : Z) (e : FreeExtent) : bool := in_run b (as_run e).

Ltac finish_insert pre post :=
  repeat (rewrite ?wrap64_small by (unfold U64_MAX; lia);
          match goal with |- context [if ?a =? ?b then _ else _] =>
            destruct (Z.eqb_spec a b) end;
          cbn beta iota; cbn [x_offset x_bytes]);
  rewrite <- ?app_assoc; cbn [app]; rewrite ?map_app; cbn [map];
  (split;
   [ rewrite ?runs_ok_app; cbn [runs_ok run_begin run_count as_run x_offset x_bytes];
     repeat split; auto; rewrite ?wrap64_small by (unfold U64_MAX; lia); try lia; (eapply runs_ok_mono; [|eassumption]; lia)
   | split;
     [ intros x; rewrite ?page_free_app, ?page_free_cons; unfold in_run; cbn [run_begin run_count as_run x_offset x_bytes];
       rewrite ?wrap64_small by (unfold U64_MAX; lia);
       cbn [map]; change (page_free [] x) with false;
       destruct (page_free (map as_run pre) x), (page_free (map as_run post) x); lia
     | rewrite ?runs_total_app, ?runs_total_cons, ?runs_total_nil; cbn [run_count as_run x_bytes];
       rewrite ?wrap64_small by (unfold U64_MAX; lia); lia ] ]).

Lemma insert_extent_Ok lo hi xs e :
  hi <= SIZE_MAX -> 0 <= lo -> extents_ok lo hi xs ->
  lo <= x_offset e -> 0 < x_bytes e -> x_offset e + x_bytes e <= hi ->
  (forall b, in_extent b e = true -> byte_free xs b = false) ->
  extents_ok lo hi (insert_extent xs e) /\
  (forall b, byte_free (insert_extent xs e) b = byte_free xs b || in_extent b e) /\
  extents_total (insert_extent xs e) = extents_total xs + x_bytes e.
Proof.
  intros Hhi Hlo Hok Hxo Hxb Hxe Hfree. unfold insert_extent, SIZE_MAX, U64_MAX in *.
  destruct (span_while _ xs) as [before after] eqn:Hs.
  apply span_while_spec in Hs as (-> & Hbefore & Hafter).
  unfold extents_ok, byte_free, extents_total, in_extent in *. rewrite map_app in Hok.
  pose proof (Hfree (x_offset e)) as Hf1. unfold in_run in Hf1 at 1. cbn in Hf1.
  rewrite map_app, page_free_app in Hf1.
  assert (Hnext : match after with [] => True | n :: _ => x_offset e + x_bytes e <= x_offset n end).
  { destruct after as [|n post]; [done|]. simp_bool. destruct (Z_lt_le_dec (x_offset n) (x_offset e + x_bytes e)); [|lia].
    specialize (Hfree (x_offset n)). unfold in_run in Hfree at 1. cbn in Hfree.
    rewrite map_app, page_free_app in Hfree. cbn [map] in Hfree. rewrite page_free_cons in Hfree.
    unfold in_run in Hfree. cbn in Hfree. apply runs_ok_app in Hok as [_ Hok]. cbn in Hok.
    destruct (page_free (map as_run before) (x_offset n)); lia. }
  destruct (last before) as [prev|] eqn:Hl; [apply last_Some in Hl as [pre ->]|apply last_None in Hl as ->].
  - rewrite removelast_last. rewrite map_app in Hok, Hf1. rewrite <- app_assoc in Hok. cbn [map app] in Hok.
    apply runs_ok_app in Hok as [Hpre Hok]. cbn in Hok. destruct Hok as (? & ? & ? & Hok).
    apply Forall_app in Hbefore as [_ Hp]. simp_forall. simp_bool.
    assert (Hpe : x_offset prev + x_bytes prev <= x_offset e).
    { rewrite page_free_app in Hf1. cbn [map] in Hf1. rewrite page_free_cons in Hf1.
      unfold in_run in Hf1. cbn in Hf1.
      destruct (page_free (map as_run pre) (x_offset e)), (page_free (map as_run after) (x_offset e)); lia. }
    pose proof (runs_end_mono _ _ _ Hpre).
    destruct after as [|next post].
    + finish_insert pre (@nil FreeExtent).
    + cbn in Hok. destruct Hok as (? & ? & ? & Hok). finish_insert pre post.
  - destruct after as [|next post].
    + finish_insert (@nil FreeExtent) (@nil FreeExtent).
    + cbn in Hok. destruct Hok as (? & ? & ? & Hok). finish_insert (@nil FreeExtent) post.
Qed.

Lemma carve_extent_Ok lo hi xs i e bytes :
  hi <= SIZE_MAX -> 0 <= lo -> extents_ok lo hi xs -> xs !! i = Some e -> 0 < bytes <= x_bytes e ->
  extents_ok lo hi (carve_extent xs i e bytes) /\
  (forall b, byte_free (carve_extent xs i e bytes) b =
     byte_free xs b && negb ((x_offset e <=? b) && (b <? x_offset e + bytes))) /\
  extents_total (carve_extent xs i e bytes) = extents_total xs - bytes.
Proof.
  intros Hhi Hlo Hok Hi Hb. destruct (lookup_split _ _ _ Hi) as (pre & post & -> & <-).
  unfold extents_ok, byte_free, extents_total, SIZE_MAX, U64_MAX in *. rewrite map_app in Hok |- *.
  apply runs_ok_app in Hok as [Hpre Hr]. cbn in Hr. destruct Hr as (Hrb & Hrc & Hre & Hpost).
  pose proof (runs_end_mono _ _ _ Hpre) as Hmono.
  assert (Hpf : forall q, page_free (map as_run pre) q = true -> q < x_offset e)
    by (intros q; eapply page_free_pre; [done|lia]).
  assert (Hpo : forall q, page_free (map as_run post) q = true -> x_offset e + x_bytes e < q).
  { intros q Hq. pose proof (page_free_bounds _ _ _ _ Hpost Hq). lia. }
  unfold carve_extent. rewrite !wrap64_small by (unfold U64_MAX; lia).
  rewrite erase_at_middle, insert_middle.
  destruct (Z.eqb_spec (x_bytes e - bytes) 0) as [Hz|Hz]; rewrite map_app; cbn [map].
  - split; [|split].
    + apply runs_ok_app. split; [done|]. eapply runs_ok_mono; [|exact Hpost]. lia.
    + intros q. rewrite !page_free_app, page_free_cons. unfold in_run. cbn [as_run run_begin run_count].
      specialize (Hpf q). specialize (Hpo q).
      destruct (page_free (map as_run pre) q), (page_free (map as_run post) q); lia.
    + rewrite !runs_total_app, runs_total_cons. cbn [as_run run_count]. lia.
  - split; [|split].
    + apply runs_ok_app. split; [done|]. cbn. repeat split; try lia.
      eapply runs_ok_mono; [|exact Hpost]. lia.
    + intros q. rewrite !page_free_app, !page_free_cons. unfold in_run.
      cbn [as_run run_begin run_count x_offset x_bytes]. specialize (Hpf q). specialize (Hpo q).
      destruct (page_free (map as_run pre) q), (page_free (map as_run post) q); lia.
    + rewrite !runs_total_app, !runs_total_cons. cbn [as_run run_count x_bytes]. lia.
Qed.

(** * The arena invariant *)

(** How often an active descriptor, or a free extent, covers byte [b]. *)
Definition covers (b : Z) (d : Descriptor) : Z :=
  if d_active d && (d_offset d <=? b) && (b <? d_offset d + d_bytes d) then 1 else 0.

Definition cover_count (a : HostKVArena) (b : Z) : Z :=
  (if byte_free (a_free_extents a) b then 1 else 0) + zsum (map (covers b) (a_descriptors a)).

Definition active_bytes (d : Descriptor) : Z := if d_active d then d_bytes d else 0.

(** An active descriptor describes whole pages of its layout inside the arena. *)
Definition descriptor_ok (cap : Z) (layouts : list HostKVPageLayout) (d : Descriptor) : Prop :=
  1 <= d_generation d <= U32_MAX /\
  (d_active d = true ->
   0 <= d_offset d /\ d_offset d + d_bytes d <= cap /\ 1 <= d_pages d <= U32_MAX /\
   exists l, layouts.[d_layout d] = Some l /\ d_bytes d = hl_page_stride l * d_pages d).

Record arena_wf (a : HostKVArena) : Prop := {
  aw_this : 0 < a_this a;
  aw_cap : 0 <= a_capacity a <= SIZE_MAX;
  (** there is a descriptor for every page the arena can hold *)
  aw_room : exists m, 0 < m /\ Forall (fun l => m <= hl_page_stride l <= SIZE_MAX) (a_layouts a) /\
              vsize (a_descriptors a) = a_capacity a / m;
  aw_count : vsize (a_descriptors a) <= U32_MAX;
  aw_desc : forall i d, (a_descriptors a).[i] = Some d -> descriptor_ok (a_capacity a) (a_layouts a) d;
  aw_free_nodup : NoDup (a_free_descriptors a);
  aw_free : forall i, i ∈ a_free_descriptors a <->
              exists d, (a_descriptors a).[i] = Some d /\ d_active d = false;
  aw_extents : extents_ok 0 (a_capacity a) (a_free_extents a);
  (** every byte is free or belongs to one active descriptor, never both *)
  aw_cover : forall b, 0 <= b < a_capacity a -> cover_count a b = 1;
  aw_occupied : a_occupied a = zsum (map active_bytes (a_descriptors a));
  aw_total : extents_total (a_free_extents a) + a_occupied a = a_capacity a;
}.

Lemma covers_nonneg b d : 0 <= covers b d <= 1.
Proof. unfold covers. case_match; lia. Qed.

Lemma covers_sum_nonneg b ds : 0 <= zsum (map (covers b) ds).
Proof. apply zsum_nonneg, Forall_map, Forall_forall. intros d _. apply covers_nonneg. Qed.

Lemma covers_sum_ge b ds i d : ds.[i] = Some d -> covers b d <= zsum (map (covers b) ds).
Proof.
  intros Hi. apply zsum_elem_le.
  - apply Forall_map, Forall_forall. intros x _. apply covers_nonneg.
  - apply list_elem_of_fmap_2. by eapply vget_elem.
Qed.

Lemma stride_bounds a l : arena_wf a -> l ∈ a_layouts a -> 0 < hl_page_stride l <= SIZE_MAX.
Proof.
  intros H Hl. destruct (aw_room _ H) as (m & Hm & Hf & _). rewrite Forall_forall in Hf.
  specialize (Hf l Hl). lia.
Qed.

(** Facts about an active descriptor. *)
Lemma active_descriptor a i d :
  arena_wf a -> (a_descriptors a).[i] = Some d -> d_active d = true ->
  0 < d_bytes d /\ 0 <= d_offset d /\ d_offset d + d_bytes d <= a_capacity a /\
  d_bytes d <= a_occupied a /\ a_occupied a <= a_capacity a /\
  (forall b, d_offset d <= b < d_offset d + d_bytes d -> byte_free (a_free_extents a) b = false).
Proof.
  intros H Hi Ha. destruct (aw_desc _ H i d Hi) as [_ Hd]. destruct (Hd Ha) as (? & ? & ? & l & Hl & Hb).
  pose proof (stride_bounds a l H (vget_elem _ _ _ Hl)).
  assert (0 < d_bytes d) by nia.
  assert (Hle : d_bytes d <= a_occupied a).
  { rewrite (aw_occupied _ H). replace (d_bytes d) with (active_bytes d) by (unfold active_bytes; by rewrite Ha).
    apply zsum_elem_le; [|apply list_elem_of_fmap_2; by eapply vget_elem].
    apply Forall_map, Forall_forall. intros x Hx. apply elem_vget in Hx as (j & Hj & _).
    unfold active_bytes. destruct (d_active x) eqn:Hax; [|lia].
    destruct (aw_desc _ H j x Hj) as [_ Hd']. destruct (Hd' Hax) as (? & ? & ? & l' & Hl' & ?).
    pose proof (stride_bounds a l' H (vget_elem _ _ _ Hl')). nia. }
  pose proof (aw_total _ H). pose proof (runs_total_bounds _ _ _ (aw_extents _ H)) as [? _].
  unfold extents_total in *. repeat split; try lia.
  intros b Hb'. pose proof (aw_cover _ H b ltac:(lia)) as Hc. unfold cover_count in Hc.
  pose proof (covers_sum_ge b _ _ _ Hi) as Hg. unfold covers at 1 in Hg.
  rewrite Ha, (proj2 (Z.leb_le _ _)), (proj2 (Z.ltb_lt _ _)) in Hg by lia. cbn in Hg.
  destruct (byte_free _ b); [lia|done].
Qed.

(** ** Release *)
Lemma release_descriptor_wf a i d :
  arena_wf a -> (a_descriptors a).[i] = Some d -> d_active d = true ->
  let r := release_descriptor a i (d_generation d) in
  snd r = true /\ arena_wf (fst r).
Proof.
  intros H Hi Ha. destruct (active_descriptor a i d H Hi Ha) as (Hb & Ho & Hc & Hoc & Hcap & Hnf).
  pose proof (vget_Some_bounds _ _ _ Hi) as Hib. pose proof (aw_cap _ H) as Hcp.
  unfold release_descriptor. rewrite Hi, Ha, Z.eqb_refl. cbn [negb orb fst snd]. split; [done|].
  destruct (insert_extent_Ok 0 (a_capacity a) (a_free_extents a) (mkExtent (d_offset d) (d_bytes d)))
    as (He & Hf & Ht); try apply H; cbn; try lia.
  { intros b. unfold in_extent, in_run. cbn. intros Hin. apply Hnf. lia. }
  rewrite wrap64_small by (unfold SIZE_MAX in *; lia).
  set (d' := mkDescriptor _ _ _ _ _ _).
  constructor; cbn; try apply H; try done.
  - rewrite vsize_vset. apply H.
  - rewrite vsize_vset. apply H.
  - intros j x. rewrite vget_vset. case_match; [|apply H]. intros [= <-].
    destruct (aw_desc _ H i d Hi) as [Hg _]. split; [by apply increment_generation_spec|done].
  - apply NoDup_app. split; [apply H|]. split; [|apply NoDup_singleton].
    intros x Hx ->%list_elem_of_singleton. apply (aw_free _ H) in Hx as (y & Hy & ?). congruence.
  - intros j. rewrite elem_of_app, list_elem_of_singleton, (aw_free _ H), vget_vset.
    destruct (Z.eqb_spec i j) as [<-|Hne].
    + rewrite (proj2 (Z.leb_le _ _)), (proj2 (Z.ltb_lt _ _)) by lia. cbn. split; [|by right].
      intros _. by exists d'.
    + cbn. split; [intros [?|?]; [done|congruence]|by left].
  - intros b Hbb. pose proof (aw_cover _ H b Hbb) as Hcv. unfold cover_count in *.
    cbn [a_descriptors a_free_extents]. rewrite Hf, (zsum_map_vset _ _ _ _ _ Hi).
    specialize (Hnf b). revert Hcv Hnf. generalize (zsum (map (covers b) (a_descriptors a))).
    unfold in_extent, in_run, covers. cbn. rewrite Ha. cbn.
    destruct (byte_free (a_free_extents a) b), (Z.leb_spec (d_offset d) b),
      (Z.ltb_spec b (d_offset d + d_bytes d)); cbn; intros s Hcv Hnf; try lia.
  - rewrite (zsum_map_vset _ _ _ _ _ Hi), (aw_occupied _ H).
    generalize (zsum (map active_bytes (a_descriptors a))). unfold active_bytes. rewrite Ha. cbn. lia.
  - cbn [x_bytes] in Ht. rewrite Ht. pose proof (aw_total _ H). lia.
Qed.

(** ** Descriptors never run out *)
Lemma zsum_lower m (l : list Z) : Forall (fun x => m <= x) l -> m * vsize l <= zsum l.
Proof.
  induction 1 as [|x l Hx _ IH]; [unfold vsize, zsum; cbn; lia|].
  rewrite zsum_cons, vsize_cons. lia.
Qed.

(** With no free descriptor every descriptor holds at least one page. *)
Lemma no_free_descriptor a :
  arena_wf a -> a_free_descriptors a = [] ->
  exists m, 0 < m /\ Forall (fun l => m <= hl_page_stride l) (a_layouts a) /\
    a_capacity a < m * (vsize (a_descriptors a) + 1) /\
    forall i d, (a_descriptors a).[i] = Some d -> d_active d = true /\ m * d_pages d <= active_bytes d.
Proof.
  intros H Hf. destruct (aw_room _ H) as (m & Hm & Hl & Hn). exists m. split; [done|].
  split; [eapply Forall_impl; [exact Hl|]; cbn; lia|].
  split; [rewrite Hn; pose proof (Z.mul_succ_div_gt (a_capacity a) m Hm); lia|].
  intros i d Hi. assert (Ha : d_active d = true).
  { destruct (d_active d) eqn:E; [done|]. assert (Hin : i ∈ a_free_descriptors a).
    { apply (aw_free _ H). by exists d. } rewrite Hf in Hin. by apply not_elem_of_nil in Hin. }
  split; [done|]. unfold active_bytes. rewrite Ha. destruct (aw_desc _ H i d Hi) as [_ Hd].
  destruct (Hd Ha) as (_ & _ & Hp & l & Hlk & ->). rewrite Forall_forall in Hl.
  specialize (Hl l (vget_elem _ _ _ Hlk)). nia.
Qed.

Lemma extent_le_total lo hi xs e : extents_ok lo hi xs -> e ∈ xs -> x_bytes e <= extents_total xs.
Proof.
  revert lo. unfold extents_ok, extents_total.
  induction xs as [|x xs IH]; intros lo Hok Hin; [by apply not_elem_of_nil in Hin|].
  cbn in Hok. destruct Hok as (? & ? & ? & Hok). cbn [map]. rewrite runs_total_cons. cbn [as_run run_count].
  pose proof (runs_total_bounds _ _ _ Hok) as [? _].
  apply elem_of_cons in Hin as [->|Hin]; [lia|]. specialize (IH _ Hok Hin). lia.
Qed.

(** A free extent that holds a page leaves a free descriptor. *)
Lemma extent_has_descriptor a e l :
  arena_wf a -> e ∈ a_free_extents a -> l ∈ a_layouts a -> hl_page_stride l <= x_bytes e ->
  a_free_descriptors a <> [].
Proof.
  intros H He Hl Hs Hf. destruct (no_free_descriptor a H Hf) as (m & Hm & Hls & Hcap & Hd).
  rewrite Forall_forall in Hls. specialize (Hls l Hl).
  pose proof (extent_le_total _ _ _ _ (aw_extents _ H) He). pose proof (aw_total _ H) as Ht.
  rewrite (aw_occupied _ H) in Ht.
  assert (Hsum : m * vsize (map active_bytes (a_descriptors a)) <= zsum (map active_bytes (a_descriptors a))).
  { apply zsum_lower, Forall_map, Forall_forall. intros d Hdd. apply elem_vget in Hdd as (i & Hi & _).
    destruct (Hd i d Hi) as [Ha Hb]. destruct (aw_desc _ H i d Hi) as [_ Hok].
    destruct (Hok Ha) as (_ & _ & ? & _). nia. }
  unfold vsize in *. rewrite length_map in Hsum. nia.
Qed.

(** An allocation of two pages leaves a free descriptor for its split. *)
Lemma split_has_descriptor a i d :
  arena_wf a -> (a_descriptors a).[i] = Some d -> d_active d = true -> 2 <= d_pages d ->
  a_free_descriptors a <> [].
Proof.
  intros H Hi Ha Hp Hf. destruct (no_free_descriptor a H Hf) as (m & Hm & _ & Hcap & Hd).
  pose proof (aw_total _ H) as Ht. rewrite (aw_occupied _ H) in Ht.
  pose proof (runs_total_bounds _ _ _ (aw_extents _ H)) as [? _]. unfold extents_total in Ht.
  set (e := mkDescriptor 0 m 0 1 1 true).
  pose proof (zsum_map_vset active_bytes _ _ _ e Hi) as Hs.
  assert (Hsum : m * vsize (map active_bytes ((a_descriptors a).[i <- e]))
                 <= zsum (map active_bytes ((a_descriptors a).[i <- e]))).
  { apply zsum_lower, Forall_map, Forall_forall. intros x Hx. apply elem_vget in Hx as (j & Hj & _).
    rewrite vget_vset in Hj. case_match; [injection Hj as <-; unfold active_bytes; cbn; lia|].
    destruct (Hd j x Hj) as [Hax Hb]. destruct (aw_desc _ H j x Hj) as [_ Hok].
    destruct (Hok Hax) as (_ & _ & ? & _). nia. }
  destruct (Hd i d Hi) as [_ Hb]. unfold vsize in *. rewrite length_map, length_vset in Hsum.
  assert (active_bytes e = m) by done. nia.
Qed.

(** ** Allocation *)
Lemma take_descriptor_spec a :
  arena_wf a -> a_free_descriptors a <> [] ->
  exists i rest old, a_free_descriptors a = rest ++ [i] /\ take_descriptor a = (i, rest) /\
    i <> U32_MAX /\ (a_descriptors a).[i] = Some old /\ d_active old = false.
Proof.
  intros H Hne. unfold take_descriptor. destruct (last (a_free_descriptors a)) as [i|] eqn:E.
  - apply last_Some in E as [rest E]. rewrite E, removelast_last.
    assert (Hin : i ∈ a_free_descriptors a) by (rewrite E; set_solver).
    apply (aw_free _ H) in Hin as (old & Hold & Hina). exists i, rest, old.
    pose proof (vget_Some_bounds _ _ _ Hold). pose proof (aw_count _ H).
    split; [done|]. split; [done|]. split; [lia|done].
  - by apply last_None in E.
Qed.

(** A free descriptor becomes active: the parts of the invariant that do not
    depend on where its bytes come from. *)
Lemma activate_free a i rest old d :
  arena_wf a -> a_free_descriptors a = rest ++ [i] -> (a_descriptors a).[i] = Some old ->
  d_active d = true ->
  NoDup rest /\
  forall j, j ∈ rest <-> exists x, (a_descriptors a).[i <- d].[j] = Some x /\ d_active x = false.
Proof.
  intros H Hf Hold Hd. pose proof (aw_free_nodup _ H) as Hnd. rewrite Hf in Hnd.
  apply NoDup_app in Hnd as (Hnd & Hdis & _). split; [done|]. intros j.
  pose proof (aw_free _ H j) as Hj. rewrite Hf, elem_of_app, list_elem_of_singleton in Hj.
  pose proof (vget_Some_bounds _ _ _ Hold). rewrite vget_vset.
  destruct (Z.eqb_spec i j) as [<-|Hne].
  - rewrite (proj2 (Z.leb_le _ _)), (proj2 (Z.ltb_lt _ _)) by lia. cbn. split.
    + intros Hin. exfalso. apply (Hdis _ Hin). set_solver.
    + intros (x & [= <-] & ?). congruence.
  - cbn. rewrite <- Hj. split; [by left|]. intros [?|?]; [done|congruence].
Qed.

Lemma find_layout_Some a l k :
  find_layout a l = Some k -> (a_layouts a).[k] = Some l /\ l ∈ a_layouts a /\ 0 <= k.
Proof.
  unfold find_layout. destruct (find_index _ _) as [[i x]|] eqn:E; [|done]. intros [= <-].
  apply find_index_Some in E as [Hi Hx]. apply bool_decide_eq_true in Hx as ->.
  split; [|split; [by eapply list_elem_of_lookup_2|lia]]. unfold vget.
  by rewrite (proj2 (Z.leb_le 0 _)), Nat2Z.id by lia.
Qed.

Lemma oversized_false l pages :
  0 < pages -> request_oversized l pages = false -> hl_page_stride l * pages <= SIZE_MAX.
Proof.
  unfold request_oversized. intros Hp H. simp_bool.
  pose proof (Z.mul_div_le SIZE_MAX pages Hp). nia.
Qed.

(** What a successful allocation of [bytes] at extent [e] does. *)
Record allocated_at (a a' : HostKVArena) (al : HostKVAllocation) (k pages offset bytes : Z) : Prop := {
  at_wf : arena_wf a';
  at_this : a_this a' = a_this a;
  at_layouts : a_layouts a' = a_layouts a;
  at_capacity : a_capacity a' = a_capacity a;
  at_owner : ha_owner al = a_this a;
  at_fresh : exists old, (a_descriptors a).[ha_descriptor al] = Some old /\ d_active old = false;
  at_desc : (a_descriptors a').[ha_descriptor al] =
              Some (mkDescriptor offset bytes k pages (ha_generation al) true);
  at_others : forall j, j <> ha_descriptor al -> (a_descriptors a').[j] = (a_descriptors a).[j];
  at_free : vsize (a_free_descriptors a') = vsize (a_free_descriptors a) - 1;
}.

(** The front of a free extent lies in the arena and is free. *)
Lemma extent_front a i e bytes :
  arena_wf a -> a_free_extents a !! i = Some e -> 0 < bytes <= x_bytes e ->
  0 <= x_offset e /\ x_offset e + bytes <= a_capacity a /\
  forall b, x_offset e <= b < x_offset e + bytes -> byte_free (a_free_extents a) b = true.
Proof.
  intros H Hi Hb. pose proof (aw_extents _ H) as Hok. unfold extents_ok in Hok.
  destruct (lookup_split _ _ _ Hi) as (pre & post & E & _). rewrite E, map_app in Hok.
  apply runs_ok_app in Hok as [Hpre Hok]. cbn in Hok. pose proof (runs_end_mono _ _ _ Hpre).
  split; [lia|]. split; [lia|]. intros b Hbb. unfold byte_free. rewrite E, map_app, page_free_app.
  cbn [map]. rewrite page_free_cons. unfold in_run. cbn [as_run run_begin run_count].
  rewrite (proj2 (Z.leb_le _ _)), (proj2 (Z.ltb_lt _ _)) by lia. cbn. apply orb_true_r.
Qed.

Lemma occupied_nonneg a : arena_wf a -> 0 <= a_occupied a.
Proof.
  intros H. rewrite (aw_occupied _ H). apply zsum_nonneg, Forall_map, Forall_forall. intros x Hx.
  apply elem_vget in Hx as (j & Hj & _). unfold active_bytes. destruct (d_active x) eqn:Hax; [|lia].
  pose proof (active_descriptor a j x H Hj Hax). lia.
Qed.

Lemma allocate_Ok a l k pages i e :
  arena_wf a -> find_layout a l = Some k -> 0 < pages <= U32_MAX ->
  request_oversized l pages = false ->
  find_free_extent (a_free_extents a) (hl_page_stride l * pages) = Some (i, e) ->
  exists a' al, allocate a l pages = Ok (a', Some al) /\
    allocated_at a a' al k pages (x_offset e) (hl_page_stride l * pages) /\
    a_free_extents a' = carve_extent (a_free_extents a) i e (hl_page_stride l * pages).
Proof.
  intros H Hk Hp Hov Hex. pose proof (find_layout_Some _ _ _ Hk) as (Hlk & Hl & Hk0).
  pose proof (stride_bounds a l H Hl) as Hst. pose proof (oversized_false l pages ltac:(lia) Hov) as Hsz.
  set (bytes := hl_page_stride l * pages) in *. assert (Hb : 0 < bytes) by (unfold bytes; nia).
  assert (hl_page_stride l <= bytes) by (unfold bytes; nia).
  pose proof (find_index_Some _ _ _ _ Hex) as [Hi Hle%Z.leb_le].
  assert (Hin : e ∈ a_free_extents a) by (by eapply list_elem_of_lookup_2).
  pose proof (extent_le_total _ _ _ _ (aw_extents _ H) Hin) as Htot.
  pose proof (aw_total _ H) as Hsum. pose proof (aw_cap _ H) as Hcap.
  assert (Hne : a_free_descriptors a <> []) by (eapply extent_has_descriptor; try done; lia).
  destruct (take_descriptor_spec a H Hne) as (di & rest & old & Hrest & Htake & Hdi & Hold & Hina).
  unfold allocate. rewrite Hk, (proj2 (Z.eqb_neq pages 0)), Hov by lia.
  destruct (a_free_descriptors a) as [|fd fds] eqn:Efd; [done|]. rewrite <- Efd in *. clear Efd fd fds.
  cbn [orb]. fold bytes. rewrite Hex, Htake, (proj2 (Z.eqb_neq di _)) by done.
  unfold vat. rewrite Hold. cbn [mbind result_bind]. do 2 eexists. split; [done|]. split; [|done].
  destruct (carve_extent_Ok 0 (a_capacity a) (a_free_extents a) i e bytes) as (He & Hf & Ht);
    try apply H; try done; try lia.
  destruct (extent_front a i e bytes H Hi ltac:(lia)) as (He0 & He1 & Hfree). pose proof (vget_Some_bounds _ _ _ Hold) as Hdb.
  set (d := mkDescriptor _ _ _ _ _ _).
  destruct (activate_free a di rest old d H Hrest Hold eq_refl) as [Hnd Hiff].
  pose proof (occupied_nonneg a H) as Hocc.
  constructor; cbn; try done.
  - constructor; cbn; try apply H; try done; try (rewrite vsize_vset; apply H).
    + intros j x. rewrite vget_vset. case_match; [|apply H]. intros [= <-].
      split; [apply (aw_desc _ H di old Hold)|]. intros _. cbn. repeat split; try lia. by exists l.
    + intros b Hbb. pose proof (aw_cover _ H b Hbb) as Hcv. unfold cover_count in *.
      cbn [a_descriptors a_free_extents]. rewrite Hf, (zsum_map_vset _ _ _ _ _ Hold).
      specialize (Hfree b). revert Hcv Hfree. generalize (zsum (map (covers b) (a_descriptors a))).
      unfold covers. cbn. rewrite Hina. cbn.
      destruct (byte_free (a_free_extents a) b), (Z.leb_spec (x_offset e) b),
        (Z.ltb_spec b (x_offset e + bytes)); cbn; intros s Hcv Hfr; try lia.
    + rewrite (zsum_map_vset _ _ _ _ _ Hold), wrap64_small, (aw_occupied _ H)
        by (rewrite <- ?(aw_occupied _ H); unfold SIZE_MAX in *; lia).
      generalize (zsum (map active_bytes (a_descriptors a))). unfold active_bytes. rewrite Hina. cbn. lia.
    + rewrite Ht, wrap64_small by (unfold SIZE_MAX in *; lia). lia.
  - by exists old.
  - by apply vget_vset_eq.
  - intros j Hj. by apply vget_vset_ne.
  - rewrite Hrest, vsize_app. unfold vsize. cbn. lia.
Qed.

(** ** Split *)

(** A live allocation: minted by the arena, of its descriptor's generation. *)
Definition allocation_live (a : HostKVArena) (al : HostKVAllocation) (d : Descriptor) : Prop :=
  ha_owner al = a_this a /\ (a_descriptors a).[ha_descriptor al] = Some d /\
  d_active d = true /\ d_generation d = ha_generation al.

Lemma host_valid_handle_iff a h :
  host_valid_handle a h = true <->
  hh_owner h = a_this a /\ exists d, (a_descriptors a).[hh_descriptor h] = Some d /\
    d_active d = true /\ d_generation d = hh_generation h.
Proof.
  unfold host_valid_handle. destruct ((a_descriptors a).[hh_descriptor h]) as [d|] eqn:E.
  - pose proof (vget_Some_bounds _ _ _ E). rewrite (proj2 (Z.leb_gt _ _)) by lia.
    destruct (Z.eqb_spec (hh_owner h) (a_this a)); cbn; [|split; [done|intros [? _]; done]].
    rewrite andb_true_iff, Z.eqb_eq. naive_solver.
  - split; [case_match; done|]. intros (_ & d & ? & _). done.
Qed.

Lemma allocation_live_handle a al d :
  arena_wf a -> allocation_live a al d ->
  allocation_valid al = true /\
  allocation_handle al = mkHostHandle (ha_owner al) (ha_descriptor al) (ha_generation al) /\
  host_valid_handle a (allocation_handle al) = true.
Proof.
  intros H (Ho & Hd & Ha & Hg). pose proof (aw_this _ H).
  assert (Hv : allocation_valid al = true)
    by (unfold allocation_valid; rewrite Ho, (proj2 (Z.eqb_neq _ 0)) by lia; done).
  unfold allocation_handle. rewrite Hv. split; [done|]. split; [done|].
  apply host_valid_handle_iff. cbn. split; [done|]. by exists d.
Qed.

(** Splitting the range of an active descriptor [li], [d] so far, between itself and the free
    descriptor [ri], [old] so far. *)
Section SplitDescriptors.
Context (a : HostKVArena) (li ri : Z) (rest : list Z) (d old left right : Descriptor).
Hypothesis H : arena_wf a.
Hypothesis Hd : (a_descriptors a).[li] = Some d.
Hypothesis Ha : d_active d = true.
Hypothesis Hrest : a_free_descriptors a = rest ++ [ri].
Hypothesis Hold : (a_descriptors a).[ri] = Some old.
Hypothesis Hina : d_active old = false.

Let ds := (a_descriptors a).[ri <- right].[li <- left].

Lemma split_neq : ri <> li.
Proof using Ha Hd Hina Hold. congruence. Qed.

Lemma split_get j :
  ds.[j] = if j =? li then Some left else if j =? ri then Some right else (a_descriptors a).[j].
Proof using Hd Hold.
  pose proof (vget_Some_bounds _ _ _ Hd). pose proof (vget_Some_bounds _ _ _ Hold). unfold ds.
  destruct (Z.eqb_spec j li) as [->|].
  - apply vget_vset_eq. by rewrite vsize_vset.
  - rewrite vget_vset_ne by done. destruct (Z.eqb_spec j ri) as [->|]; [by apply vget_vset_eq|].
    by apply vget_vset_ne.
Qed.

Lemma split_sum (f : Descriptor -> Z) :
  zsum (map f ds) = zsum (map f (a_descriptors a)) - f old + f right - f d + f left.
Proof using Ha Hd Hina Hold.
  pose proof split_neq. unfold ds. rewrite (zsum_map_vset f _ _ d), (zsum_map_vset f _ _ old); [done|done|].
  by rewrite vget_vset_ne.
Qed.

Hypothesis Hleft : descriptor_ok (a_capacity a) (a_layouts a) left /\ d_active left = true.
Hypothesis Hright : descriptor_ok (a_capacity a) (a_layouts a) right /\ d_active right = true.
Hypothesis Hoff : d_offset left = d_offset d /\ d_offset right = d_offset d + d_bytes left.
Hypothesis Hbytes : 0 < d_bytes left /\ 0 < d_bytes right /\ d_bytes left + d_bytes right = d_bytes d.

(** Two adjacent ranges cover what the one range covered. *)
Lemma split_covers b : covers b left + covers b right = covers b d + covers b old.
Proof using Ha Hbytes Hina Hleft Hoff Hright.
  destruct Hleft as [_ El], Hright as [_ Er], Hoff as [Eo Eo'], Hbytes as (? & ? & E).
  unfold covers. rewrite Ha, Hina, El, Er, Eo, Eo', <- E. cbn.
  destruct (Z.leb_spec (d_offset d) b), (Z.leb_spec (d_offset d + d_bytes left) b),
    (Z.ltb_spec b (d_offset d + d_bytes left)), (Z.ltb_spec b (d_offset d + d_bytes left + d_bytes right)),
    (Z.ltb_spec b (d_offset d + (d_bytes left + d_bytes right))); cbn; lia.
Qed.

Lemma split_free j : j ∈ rest <-> exists x, ds.[j] = Some x /\ d_active x = false.
Proof using H Ha Hd Hina Hleft Hold Hrest Hright.
  destruct Hleft as [_ El], Hright as [_ Er]. pose proof split_neq as Hneq.
  destruct (activate_free a ri rest old right H Hrest Hold Er) as [_ Hiff].
  rewrite Hiff, split_get. pose proof (vget_Some_bounds _ _ _ Hold).
  destruct (Z.eqb_spec j li) as [->|Hj].
  - rewrite vget_vset_ne, Hd by done. split; intros (x & [= <-] & ?); congruence.
  - destruct (Z.eqb_spec j ri) as [->|]; [by rewrite vget_vset_eq|by rewrite vget_vset_ne].
Qed.

Lemma split_wf revision :
  arena_wf (mkHostArena (a_this a) (a_backing a) (a_capacity a) (a_occupied a) (a_layouts a) ds rest
              (a_free_extents a) revision).
Proof using H Ha Hbytes Hd Hina Hleft Hoff Hold Hrest Hright.
  destruct (activate_free a ri rest old right H Hrest Hold (proj2 Hright)) as [Hnd _].
  constructor; cbn; try apply H; try done; try (unfold ds; rewrite !vsize_vset; apply H).
  - intros j x. rewrite split_get. repeat case_match; [| |apply H]; intros [= <-]; [apply Hleft|apply Hright].
  - apply split_free.
  - intros b Hbb. pose proof (aw_cover _ H b Hbb) as Hcv. unfold cover_count in *. cbn. rewrite split_sum.
    pose proof (split_covers b). lia.
  - rewrite split_sum, (aw_occupied _ H). unfold active_bytes. rewrite Ha, Hina, (proj2 Hleft), (proj2 Hright). lia.
Qed.
End SplitDescriptors.

Lemma split_Ok a al d page_offset :
  arena_wf a -> allocation_live a al d -> 0 < page_offset < d_pages d ->
  exists a' left right dl dr, split_allocation a al page_offset = Ok (a', (left, right)) /\
    arena_wf a' /\ allocation_live a' left dl /\ allocation_live a' right dr /\
    d_pages dl = page_offset /\ d_pages dr = d_pages d - page_offset /\
    d_layout dl = d_layout d /\ d_layout dr = d_layout d /\
    d_offset dl = d_offset d /\ d_offset dr = d_offset dl + d_bytes dl /\
    d_bytes dl + d_bytes dr = d_bytes d /\
    ha_descriptor left <> ha_descriptor right /\
    (exists old, (a_descriptors a).[ha_descriptor right] = Some old /\ d_active old = false) /\
    host_valid_handle a' (allocation_handle al) = false /\
    (forall j, j <> ha_descriptor left -> j <> ha_descriptor right ->
       (a_descriptors a').[j] = (a_descriptors a).[j]).
Proof.
  intros H Hlive Hpo. pose proof Hlive as (Ho & Hd & Ha & Hg).
  destruct (allocation_live_handle a al d H Hlive) as (Hv & Hh & Hvh).
  assert (Hne : a_free_descriptors a <> []) by (eapply split_has_descriptor; try done; lia).
  destruct (take_descriptor_spec a H Hne) as (ri & rest & old & Hrest & Htake & Hri & Hold & Hina).
  destruct (active_descriptor a _ d H Hd Ha) as (Hb & Hoff & Hend & Hoc & Hocc & _).
  destruct (aw_desc _ H _ d Hd) as [Hgen Hok]. destruct (Hok Ha) as (_ & _ & Hpg & l & Hl & Hbytes).
  pose proof (stride_bounds a l H (vget_elem _ _ _ Hl)) as Hst. pose proof (aw_cap _ H) as Hcap.
  pose proof (split_neq a _ ri d old Hd Ha Hold Hina) as Hneq.
  assert (Hfit : page_offset * hl_page_stride l + (d_pages d - page_offset) * hl_page_stride l = d_bytes d)
    by (rewrite Hbytes; lia).
  assert (Hp1 : 0 < page_offset * hl_page_stride l) by nia.
  assert (Hp2 : 0 < (d_pages d - page_offset) * hl_page_stride l) by nia.
  unfold split_allocation, throw_if. rewrite Hvh. unfold vat. rewrite Hd. cbn [negb mbind result_bind].
  rewrite (proj2 (Z.eqb_neq page_offset 0)), (proj2 (Z.leb_gt (d_pages d) _)) by lia.
  cbn [orb mbind result_bind]. rewrite Htake, (proj2 (Z.eqb_neq ri _)), Hl, Hold by done.
  cbn [mbind result_bind]. rewrite (wrap32_small (d_pages d - page_offset)) by lia.
  unfold SIZE_MAX, U64_MAX in *.
  rewrite !wrap64_small, Ha by (rewrite ?wrap64_small; unfold U64_MAX; lia).
  set (right := mkDescriptor _ _ _ _ (d_generation old) true).
  set (left := mkDescriptor _ _ _ _ _ true).
  destruct (increment_generation_spec (d_generation d) Hgen) as [Hgen' Hgne].
  pose proof (split_get a _ ri d old left right Hd Hold) as Hget.
  do 5 eexists. split; [reflexivity|]. cbn. split; [|split; [|split]].
  - eapply split_wf; try done; cbn; try lia; (split; [|done]); split;
      try (intros _; cbn; repeat split; try lia; by exists l; split; [|lia]); [done|].
    apply (aw_desc _ H ri old Hold).
  - split; [done|]. cbn. by rewrite Hget, Z.eqb_refl.
  - split; [done|]. cbn. by rewrite Hget, (proj2 (Z.eqb_neq _ _)), Z.eqb_refl.
  - cbn. do 5 (split; [done|]). split; [lia|]. split; [lia|]. split; [done|]. split; [by exists old|]. split.
    + apply not_true_is_false. rewrite host_valid_handle_iff, Hh. cbn. intros (_ & x & Hx & _ & Hxg).
      rewrite Hget, Z.eqb_refl in Hx. injection Hx as <-. cbn in Hxg. congruence.
    + intros j Hj1 Hj2. by rewrite Hget, !(proj2 (Z.eqb_neq _ _)) by done.
Qed.

(** ** Recipes *)

Lemma simulate_releases_valid a previous hs xs ys :
  simulate_releases a previous hs xs = Some ys -> forall h, h ∈ hs -> host_valid_handle a h = true.
Proof.
  revert previous xs. induction hs as [|y hs IH]; intros prev xs Hs h Hin; [by apply not_elem_of_nil in Hin|].
  cbn in Hs. destruct (host_valid_handle a y) eqn:Ey; [|done]. cbn in Hs.
  destruct (existsb _ prev); [done|]. destruct ((a_descriptors a).[hh_descriptor y]); [|done].
  apply elem_of_cons in Hin as [->|Hin]; [done|]. by eapply IH.
Qed.

(** Releases of distinct live handles follow the simulated extents. [a0] is the
    arena the recipe was planned on, [a] the arena after some releases. *)
Lemma adopt_releases_Ok a0 a previous hs als xs :
  arena_wf a -> a_this a = a_this a0 ->
  simulate_releases a0 previous hs (a_free_extents a) = Some xs ->
  Forall2 (fun p h => exists al, p = Some al /\ allocation_handle al = h /\ hh_owner h <> 0) als hs ->
  (forall h, h ∈ hs -> h ∉ previous -> (a_descriptors a).[hh_descriptor h] = (a_descriptors a0).[hh_descriptor h]) ->
  exists a', adopt_releases a als = Ok a' /\ arena_wf a' /\ a_free_extents a' = xs /\
    a_this a' = a_this a /\ a_layouts a' = a_layouts a /\ a_capacity a' = a_capacity a.
Proof.
  intros Hwf Ht Hsim Hf. revert previous a Hwf Ht Hsim.
  induction Hf as [|p h als hs (al & -> & Hal & Hown) Hf IH]; intros previous a Hwf Ht Hsim Hsame.
  { cbn in Hsim. injection Hsim as <-. by exists a. }
  cbn in Hsim. destruct (host_valid_handle a0 h) eqn:Hv; [|done].
  destruct (existsb _ previous) eqn:Hex; [done|]. cbn in Hsim.
  apply host_valid_handle_iff in Hv as (Ho & d & Hd & Ha & Hg). rewrite Hd in Hsim.
  assert (Hnp : h ∉ previous).
  { intros Hin%list_elem_of_In. apply not_true_iff_false in Hex. apply Hex, existsb_exists.
    exists h. split; [done|]. by apply bool_decide_eq_true. }
  rewrite <- Hsame in Hd by set_solver.
  assert (Halv : allocation_valid al = true /\ h = mkHostHandle (ha_owner al) (ha_descriptor al) (ha_generation al)).
  { unfold allocation_handle in Hal. destruct (allocation_valid al); [by subst|]. by subst. }
  destruct Halv as [Halv ->]. cbn in *.
  destruct (release_descriptor_wf a (ha_descriptor al) d Hwf Hd Ha) as [Hok Hwf'].
  unfold allocation_release. rewrite Halv. cbn [negb]. rewrite Hg in Hok, Hwf'.
  destruct (release_descriptor a (ha_descriptor al) (ha_generation al)) as [a1 ok] eqn:E.
  cbn in Hok, Hwf'. subst ok. cbn [negb].
  unfold release_descriptor in E. rewrite Hd, Ha, Hg, Z.eqb_refl in E. cbn in E. injection E as <-.
  destruct (IH (previous ++ [mkHostHandle (ha_owner al) (ha_descriptor al) (ha_generation al)]) _ Hwf' Ht Hsim)
    as (a' & -> & H1 & H2 & H3 & H4 & H5); [|by exists a'].
  intros h' Hin Hn. cbn [a_descriptors]. apply not_elem_of_app in Hn as [Hn1 Hn2].
  rewrite not_elem_of_cons in Hn2. destruct Hn2 as [Hn2 _].
  destruct (Z.eq_dec (hh_descriptor h') (ha_descriptor al)) as [Heq|Hne].
  2:{ rewrite vget_vset_ne by done. apply Hsame; [set_solver|done]. }
  exfalso. clear -Hsim Hin Hn2 Heq Hsame Hd Hg Ha Ho Hn1 Ht Hnp.
  pose proof (simulate_releases_valid _ _ _ _ _ Hsim h' Hin) as Hval.
  apply host_valid_handle_iff in Hval as (Ho' & d' & Hd' & _ & Hg').
  pose proof (Hsame (mkHostHandle (ha_owner al) (ha_descriptor al) (ha_generation al))
                ltac:(set_solver) Hnp) as Hs. cbn in Hs. rewrite Heq, <- Hs in Hd'.
  cbn in Hd'. apply Hn2. destruct h' as [o dd g]. cbn in *. f_equal; congruence.
Qed.

(** The allocation [al] is live at the place the target [t] planned. *)
Definition placed (a : HostKVArena) (al : HostKVAllocation) (t : RecipeTarget) : Prop :=
  exists d, allocation_live a al d /\ d_offset d = rt_offset t /\ d_bytes d = rt_bytes t /\
    d_layout d = rt_layout t /\ d_pages d = rt_pages t.

(** Active descriptors of [a] are the same in [a']. *)
Definition keeps_active (a a' : HostKVArena) : Prop :=
  forall j d, (a_descriptors a).[j] = Some d -> d_active d = true -> (a_descriptors a').[j] = Some d.

Lemma find_layout_same a a0 l : a_layouts a = a_layouts a0 -> find_layout a l = find_layout a0 l.
Proof. unfold find_layout. by intros ->. Qed.

Lemma adopt_targets_Ok a0 a requests targets final :
  arena_wf a -> a_layouts a = a_layouts a0 ->
  Forall (fun rq => is_u32 (rq_pages rq)) requests ->
  simulate_targets a0 requests (a_free_extents a) = Some (targets, final) ->
  exists a' als, adopt_targets a targets = Ok (a', als) /\ arena_wf a' /\
    a_this a' = a_this a /\ a_free_extents a' = final /\ keeps_active a a' /\
    Forall2 (placed a') als targets.
Proof.
  revert a targets final. induction requests as [|rq requests IH];
    intros a targets final Hwf Hl Hu Hsim; cbn in Hsim.
  { injection Hsim as <- <-. exists a, []. cbn.
    do 4 (split; [done|]). split; [by intros j d|apply Forall2_nil_2]. }
  apply Forall_cons_1 in Hu as [[Hu0 Hu1] Hu].
  destruct (rq_layout rq) as [l|]; [|done].
  destruct (Z.eqb_spec (rq_pages rq) 0) as [|Hp0]; [done|].
  destruct (find_layout a0 l) as [k|] eqn:Hk; [|done].
  destruct (request_oversized l (rq_pages rq)) eqn:Hov; [done|].
  destruct (find_free_extent _ _) as [[i e]|] eqn:Hex; [|done].
  destruct (simulate_targets a0 requests _) as [[ts fin]|] eqn:Hs; [|done].
  injection Hsim as <- <-. rewrite <- (find_layout_same a a0 l Hl) in Hk.
  destruct (allocate_Ok a l k (rq_pages rq) i e) as (a1 & al & Eal & Hat & Hxs); try done; [lia|].
  rewrite <- Hxs in Hs.
  destruct (IH a1 ts fin) as (a' & als & Ead & Hwf' & Ht' & Hf' & Hka & Hpl);
    [apply Hat|by rewrite (at_layouts _ _ _ _ _ _ _ Hat)|done|done|].
  exists a', (al :: als). cbn [adopt_targets rt_layout rt_pages rt_offset rt_bytes]. unfold vat.
  rewrite (proj1 (find_layout_Some _ _ _ Hk)). cbn [mbind result_bind]. rewrite Eal.
  cbn [mbind result_bind]. rewrite (at_desc _ _ _ _ _ _ _ Hat). cbn [mbind result_bind d_offset d_bytes].
  rewrite !Z.eqb_refl. cbn [negb orb throw_if mbind result_bind]. rewrite Ead. cbn.
  split; [done|]. split; [done|]. split; [by rewrite Ht', (at_this _ _ _ _ _ _ _ Hat)|]. split; [done|].
  split.
  - intros j d Hj Hact. apply Hka; [|done]. rewrite (at_others _ _ _ _ _ _ _ Hat); [done|].
    intros ->. destruct (at_fresh _ _ _ _ _ _ _ Hat) as (old & Hold & ?). congruence.
  - apply Forall2_cons_2; [|done]. exists (mkDescriptor (x_offset e) (hl_page_stride l * rq_pages rq) k (rq_pages rq) (ha_generation al) true). split; [|done].
    split; [by rewrite (at_owner _ _ _ _ _ _ _ Hat), Ht', (at_this _ _ _ _ _ _ _ Hat)|].
    split; [|done]. by apply Hka; [apply (at_desc _ _ _ _ _ _ _ Hat)|].
Qed.

Lemma simulate_targets_acceptable a requests xs targets final :
  Forall (fun rq => is_u32 (rq_pages rq)) requests ->
  simulate_targets a requests xs = Some (targets, final) ->
  Forall (fun t => recipe_target_ok a null_allocation t = true) targets.
Proof.
  intros Hu. revert xs targets. induction requests as [|rq requests IH]; intros xs targets Hsim; cbn in Hsim.
  { injection Hsim as <- <-. apply Forall_nil_2. }
  apply Forall_cons_1 in Hu as [[Hu0 Hu1] Hu].
  destruct (rq_layout rq) as [l|]; [|done].
  destruct (Z.eqb_spec (rq_pages rq) 0) as [|Hp0]; [done|].
  destruct (find_layout a l) as [k|] eqn:Hk; [|done].
  destruct (request_oversized l (rq_pages rq)) eqn:Hov; [done|].
  destruct (find_free_extent _ _) as [[i e]|] eqn:Hex; [|done].
  destruct (simulate_targets a requests _) as [[ts fin]|] eqn:Hs; [|done].
  injection Hsim as <- <-. apply Forall_cons_2; [|by eapply IH].
  pose proof (find_layout_Some _ _ _ Hk) as (Hl & _ & _). pose proof (vget_Some_bounds _ _ _ Hl).
  unfold recipe_target_ok. cbn [rt_layout rt_pages rt_bytes].
  rewrite (proj2 (Z.leb_gt _ k)), (proj2 (Z.eqb_neq _ 0)), Hl, Hov, Z.eqb_refl by lia. done.
Qed.

Lemma simulate_targets_pages a requests xs targets final :
  simulate_targets a requests xs = Some (targets, final) ->
  map rt_pages targets = map rq_pages requests.
Proof.
  revert xs targets. induction requests as [|rq requests IH]; intros xs targets Hsim; cbn in Hsim;
    [by injection Hsim as <- <-|].
  repeat case_match; try done. injection Hsim as <- <-. cbn. f_equal. by eapply IH.
Qed.

Lemma recipe_acceptable_planned a als targets outs :
  (forall h, h ∈ map allocation_handle als -> host_valid_handle a h = true) ->
  Forall (fun t => recipe_target_ok a null_allocation t = true) targets ->
  length outs = length targets -> Forall (fun o => o = null_allocation) outs ->
  recipe_acceptable a (mkRecipe (a_this a) (a_revision a) (map allocation_handle als) targets)
    (map Some als) outs = true.
Proof.
  intros Hv Ht Hlen Ho. unfold recipe_acceptable. cbn [rc_owner rc_revision rc_releases rc_targets].
  unfold vsize. rewrite !length_map, Hlen, !Z.eqb_refl. cbn [andb]. apply andb_true_iff. split.
  - apply forallb_forall. intros [p h] Hin.
    apply list_elem_of_In, list_elem_of_lookup in Hin as [i Hi].
    apply lookup_zip_Some in Hi as [Hp Hh].
    rewrite lookup_map in Hp. rewrite lookup_map in Hh. destruct (als !! i) as [al|] eqn:E; [|done].
    injection Hp as <-. injection Hh as <-. cbn. rewrite bool_decide_eq_true_2 by done. cbn.
    apply Hv, list_elem_of_fmap_2. by eapply list_elem_of_lookup_2.
  - apply forallb_forall. intros [o t] Hin.
    apply list_elem_of_In, list_elem_of_lookup in Hin as [i Hi].
    apply lookup_zip_Some in Hi as [Hi1 Hi2].
    rewrite (Forall_lookup_1 _ _ _ _ Ho Hi1). by apply (Forall_lookup_1 _ _ _ _ Ht Hi2).
Qed.

(** A recipe that was planned is adopted: on the arena state the recipe
    was minted from, [apply_recipe] with the planned allocations and empty
    outputs never reaches [std::terminate], returns every planned allocation
    live at exactly the offset, size and layout the plan chose, and leaves the
    arena well formed. *)
Theorem planned_recipe_is_adopted a als requests recipe outs :
  arena_wf a -> Forall (fun rq => is_u32 (rq_pages rq)) requests ->
  plan_after_releases a (map allocation_handle als) requests = Some recipe ->
  length outs = length requests -> Forall (fun o => o = null_allocation) outs ->
  exists a' news, apply_recipe a recipe (map Some als) outs = Ok (a', Some news) /\
    arena_wf a' /\ Forall2 (placed a') news (rc_targets recipe) /\
    map rt_pages (rc_targets recipe) = map rq_pages requests.
Proof.
  intros Hwf Hu Hplan Hlen Hout. unfold plan_after_releases in Hplan.
  destruct (match map allocation_handle als, requests with [], [] => true | _, _ => false end); [done|].
  destruct (_ <? _); [done|].
  destruct (simulate_releases _ _ _ _) as [xs|] eqn:Hr; [|done].
  destruct (simulate_targets _ _ _) as [[targets final]|] eqn:Ht; [|done]. injection Hplan as <-.
  cbn [rc_targets]. pose proof (simulate_releases_valid _ _ _ _ _ Hr) as Hval.
  destruct (adopt_releases_Ok a a [] (map allocation_handle als) (map Some als) xs)
    as (a1 & E1 & Hwf1 & Hx1 & Ht1 & Hl1 & _); try done.
  { apply Forall2_same_length_lookup_2; [by rewrite !length_map|]. intros i p h Hp Hh.
    pose proof (Hval h (list_elem_of_lookup_2 _ _ _ Hh)) as Hv.
    rewrite lookup_map in Hp. rewrite lookup_map in Hh. destruct (als !! i) as [al|]; [|done].
    injection Hp as <-. injection Hh as <-. exists al. split; [done|]. split; [done|].
    apply host_valid_handle_iff in Hv as [-> _]. pose proof (aw_this _ Hwf). lia. }
  rewrite <- Hx1 in Ht.
  destruct (adopt_targets_Ok a a1 requests targets final) as (a2 & news & E2 & Hwf2 & _ & _ & _ & Hpl); try done.
  assert (Hacc : recipe_acceptable a (mkRecipe (a_this a) (a_revision a) (map allocation_handle als) targets)
                   (map Some als) outs = true).
  { apply recipe_acceptable_planned; try done; [by eapply simulate_targets_acceptable|].
    rewrite Hlen, <- (length_map rq_pages), <- (simulate_targets_pages _ _ _ _ _ Ht). apply length_map. }
  exists a2, news. unfold apply_recipe. rewrite Hacc. cbn [negb]. rewrite E1. cbn [mbind result_bind rc_targets].
  rewrite E2. cbn. split; [done|]. split; [done|]. split; [done|]. by eapply simulate_targets_pages.
Qed.

(** * Page layouts *)
Lemma host_align_up_Ok v r :
  0 <= v -> host_align_up v kHostKVAlignment = Ok r ->
  r mod kHostKVAlignment = 0 /\ v <= r /\ r <= SIZE_MAX.
Proof.
  intros Hv H. unfold host_align_up, kHostKVAlignment in *.
  change ((256 =? 0) || negb (Z.land 256 (wrap64 (256 - 1)) =? 0)) with false in H. cbn [throw_if] in H.
  simp_res. simp_bool. change (256 - 1) with 255 in *. unfold SIZE_MAX, U64_MAX in *.
  pose proof (pow2_round_up v 256) as Hr. change (256 - 1) with 255 in Hr. rewrite Hr;
    [|unfold SIZE_MAX, U64_MAX; lia|done|done|unfold U64_MAX; lia].
  destruct (round_up_bounds v 256); lia.
Qed.

(** The planes lie one after the other in [lo, hi), each aligned, with the
    payload its geometry asks for. *)
Fixpoint host_planes_ok (tokens lo hi : Z) (geos : list KVPlaneGeometry)
    (planes : list HostKVPlaneLayout) : Prop :=
  match geos, planes with
  | [], [] => lo <= hi
  | g :: gs, p :: ps =>
      lo <= hp_offset p /\ hp_offset p mod kHostKVAlignment = 0 /\
      hp_head_payload_bytes p = pl_leading_extent g * tokens * dtype_size (pl_dtype g) /\
      hp_page_payload_bytes p = hp_head_payload_bytes p * pl_head_extent g /\
      0 < hp_page_payload_bytes p /\
      host_planes_ok tokens (hp_offset p + hp_page_payload_bytes p) hi gs ps
  | _, _ => False
  end.

Lemma plan_host_planes_Ok tokens geos acc c planes c' :
  0 < tokens -> 0 <= c <= SIZE_MAX ->
  rfor (plan_host_plane tokens) (acc, c) geos = Ok (planes, c') ->
  exists ps, planes = acc ++ ps /\ host_planes_ok tokens c c' geos ps /\
    c <= c' <= SIZE_MAX /\ (geos <> [] -> 0 < c').
Proof.
  intros Ht. revert acc c. induction geos as [|g geos IH]; intros acc c Hc H; cbn in H.
  { injection H as <- <-. exists []. rewrite app_nil_r. cbn. repeat split; try lia. done. }
  apply bind_Ok in H as ([acc' c1] & Hstep & H). cbn in Hstep. unfold plan_host_plane in Hstep. simp_res. simp_bool.
  pose proof (dtype_size_pos (pl_dtype g)).
  repeat match goal with
  | H : host_align_up _ _ = Ok _ |- _ => apply host_align_up_Ok in H as (? & ? & ?); [|lia]
  | H : checked_mul_size _ _ = Ok _ |- _ => apply checked_mul_size_Ok in H as [-> ?]; [|lia..]
  | H : checked_add_size _ _ = Ok _ |- _ => unfold checked_add_size in H; simp_res; simp_bool
  end.
  set (payload := pl_leading_extent g * tokens * dtype_size (pl_dtype g) * pl_head_extent g) in *.
  assert (0 < payload) by (unfold payload; repeat apply Z.mul_pos_pos; lia).
  apply IH in H as (ps & -> & Hps & Hle & _); [|lia].
  eexists (_ :: ps). rewrite <- app_assoc. split; [done|]. cbn.
  split; [|split; [lia|lia]]. repeat split; try lia. done.
Qed.

(** Every plane ends inside the range the planes were laid out in. *)
Lemma host_planes_bounds tokens lo hi geos planes i p :
  host_planes_ok tokens lo hi geos planes -> planes !! i = Some p ->
  lo <= hp_offset p /\ hp_offset p + hp_page_payload_bytes p <= hi /\
  hp_offset p mod kHostKVAlignment = 0.
Proof.
  revert lo planes i. induction geos as [|g gs IH]; intros lo [|q ps] i Hok Hi; cbn in Hok; try done.
  destruct Hok as (H1 & H2 & _ & _ & H3 & H4). destruct i as [|i]; cbn in Hi.
  - injection Hi as <-. split; [done|]. split; [|done].
    revert H4. generalize (hp_offset q + hp_page_payload_bytes q). clear.
    revert gs. induction ps as [|p ps IH]; intros [|g gs] lo; cbn; try done.
    intros (? & _ & _ & _ & ? & H). specialize (IH _ _ H). lia.
  - destruct (IH _ _ _ H4 Hi) as (? & ? & ?). lia.
Qed.

Lemma plan_layout_stride g l :
  0 < g_page_tokens g -> plan_host_kv_page_layout g = Ok l ->
  hl_geometry l = g /\ 0 < hl_page_stride l <= SIZE_MAX /\
  hl_page_stride l mod kHostKVAlignment = 0 /\
  host_planes_ok (g_page_tokens g) 0 (hl_page_stride l) (g_planes g) (hl_planes l).
Proof.
  intros Ht H. unfold plan_host_kv_page_layout in H. simp_res. simp_bool.
  destruct x0 as [planes c]. simp_res. cbn in *.
  match goal with H : rfor _ _ _ = _ |- _ => apply plan_host_planes_Ok in H
    as (ps & -> & Hps & Hc & Hpos); [|done|unfold SIZE_MAX, U64_MAX; lia] end.
  match goal with H : host_align_up _ _ = Ok _ |- _ => apply host_align_up_Ok in H as (? & ? & ?); [|lia] end.
  assert (0 < c) by (apply Hpos; by destruct (g_planes g)).
  split; [done|]. split; [lia|]. split; [done|]. cbn.
  assert (Hm : forall gs ps lo hi hi', hi <= hi' -> host_planes_ok (g_page_tokens g) lo hi gs ps ->
            host_planes_ok (g_page_tokens g) lo hi' gs ps).
  { clear. induction gs as [|g' gs IH]; intros [|p ps] lo hi hi' Hle; cbn; try done; [lia|].
    intros (? & ? & ? & ? & ? & ?). repeat split; auto. by eapply IH. }
  by eapply Hm.
Qed.

(** * Construction *)
Lemma check_layouts_strides previous layouts :
  Forall (fun l => 0 <= g_page_tokens (hl_geometry l)) layouts ->
  check_layouts previous layouts = Ok tt ->
  Forall (fun l => 0 < hl_page_stride l <= SIZE_MAX) layouts.
Proof.
  revert previous. induction layouts as [|l ls IH]; intros previous Ht H; [apply Forall_nil_2|].
  apply Forall_cons_1 in Ht as [Ht Hts]. cbn in H. simp_res. simp_bool.
  match goal with H : bool_decide _ = true |- _ => apply bool_decide_eq_true in H; subst end.
  apply Forall_cons_2; [|by eapply IH].
  match goal with H : plan_host_kv_page_layout _ = Ok _ |- _ =>
    apply plan_layout_stride in H as (_ & ? & _); [done|] end.
  match goal with H : plan_host_kv_page_layout _ = Ok _ |- _ =>
    unfold plan_host_kv_page_layout in H; simp_res; simp_bool end. lia.
Qed.

Lemma smallest_stride_spec l ls :
  Forall (fun x => 0 < hl_page_stride x) (l :: ls) ->
  0 < smallest_stride (l :: ls) /\ Forall (fun x => smallest_stride (l :: ls) <= hl_page_stride x) (l :: ls).
Proof.
  intros H. apply Forall_cons_1 in H as [Hl Hls]. cbn [smallest_stride].
  assert (G : forall m, 0 < m ->
    let s := foldl (fun m x => if hl_page_stride x <? m then hl_page_stride x else m) m ls in
    0 < s <= m /\ Forall (fun x => s <= hl_page_stride x) ls).
  { clear Hl. induction Hls as [|x ls Hx _ IH]; intros m Hm; [cbn; split; [lia|apply Forall_nil_2]|].
    cbn [foldl]. destruct (Z.ltb_spec (hl_page_stride x) m).
    - destruct (IH _ Hx) as [? Hf]. split; [lia|]. apply Forall_cons_2; [lia|done].
    - destruct (IH _ Hm) as [? Hf]. split; [lia|]. apply Forall_cons_2; [lia|done]. }
  destruct (G _ Hl) as [? Hf]. split; [lia|]. apply Forall_cons_2; [lia|done].
Qed.

Lemma make_host_arena_wf this backing cap layouts a :
  0 < this -> 0 <= cap <= SIZE_MAX ->
  Forall (fun l => 0 <= g_page_tokens (hl_geometry l)) layouts ->
  make_host_arena this backing cap layouts = Ok a ->
  arena_wf a /\ Forall (fun d => d_active d = false) (a_descriptors a).
Proof.
  intros Hthis Hcap Htok H. unfold make_host_arena in H.
  apply bind_Ok in H as ([] & Hcheck & H). apply check_layouts_strides in Hcheck; [|done].
  destruct (Z.eqb_spec cap 0) as [->|Hc0].
  { injection H as <-. split; [|apply Forall_nil_2].
    assert (forall (A : Type) (i : Z) (x : A), ([] : list A).[i] = Some x -> False)
      by (intros A i x Hx; apply vget_elem in Hx; by apply not_elem_of_nil in Hx).
    constructor; cbn; try done; try lia; try apply NoDup_nil_2.
    - exists 1. split; [lia|]. split; [|done]. eapply Forall_impl; [exact Hcheck|]. cbn. lia.
    - intros i d Hd. exfalso. eauto.
    - intros i. split; [by intros ?%not_elem_of_nil|]. intros (d & Hd & _). exfalso. eauto. }
  simp_res. simp_bool. destruct layouts as [|l ls]; [done|].
  destruct (smallest_stride_spec l ls) as [Hm Hmin].
  { eapply Forall_impl; [exact Hcheck|]. cbn. lia. }
  set (m := smallest_stride (l :: ls)) in *. clearbody m.
  assert (Hn : 0 <= cap / m) by (apply Z.div_pos; lia).
  assert (Hrep : forall i d, (replicate (Z.to_nat (cap / m)) (mkDescriptor 0 0 0 0 1 false)).[i] = Some d ->
             d = mkDescriptor 0 0 0 0 1 false).
  { intros i d Hd. apply vget_elem in Hd. by apply elem_of_replicate_inv in Hd. }
  assert (Hz : forall f : Descriptor -> Z, f (mkDescriptor 0 0 0 0 1 false) = 0 ->
    zsum (map f (replicate (Z.to_nat (cap / m)) (mkDescriptor 0 0 0 0 1 false))) = 0).
  { intros f Hf. clear -Hf. induction (Z.to_nat (cap / m)) as [|n IH]; [done|]. cbn. rewrite zsum_cons, IH. lia. }
  split; [|apply Forall_replicate; done].
  constructor; cbn; try done; try lia.
  - exists m. split; [done|]. split.
    + eapply Forall_impl; [apply Forall_and; split; [exact Hmin|exact Hcheck]|]. cbn. lia.
    + unfold vsize. rewrite length_replicate. lia.
  - unfold vsize. rewrite length_replicate. lia.
  - intros i d ->%Hrep. split; [cbn; unfold U32_MAX; lia|done].
  - rewrite <- (Permutation_rev (seqZ 0 _)). apply NoDup_seqZ.
  - intros i. rewrite <- (Permutation_rev (seqZ 0 _)), elem_of_seqZ. split.
    + intros Hi. eexists. split; [apply vget_replicate; lia|done].
    + intros (d & Hd & _). apply vget_Some_bounds in Hd. unfold vsize in Hd. rewrite length_replicate in Hd. lia.
  - intros b Hb. unfold cover_count. cbn [a_descriptors a_free_extents]. rewrite Hz by done.
    unfold byte_free, page_free. cbn. unfold in_run. cbn.
    rewrite (proj2 (Z.leb_le _ _)), (proj2 (Z.ltb_lt _ _)) by lia. done.
  - by rewrite Hz.
  - unfold extents_total, runs_total, zsum. cbn. lia.
Qed.

(** * Clients of the arena *)
Record host_client : Type := mkHostClient {
  hc_arena : HostKVArena;
  hc_allocations : list HostKVAllocation;
}.

Inductive host_step : host_client -> host_client -> Prop :=
  | hs_allocate a als l pages a' al :
      is_u32 pages -> allocate a l pages = Ok (a', Some al) ->
      host_step (mkHostClient a als) (mkHostClient a' (al :: als))
  | hs_release a als k al a' al' ok :
      als !! k = Some al -> allocation_release a al = (a', al', ok) ->
      host_step (mkHostClient a als) (mkHostClient a' (delete k als))
  | hs_split a als k al off a' left right :
      is_u32 off -> als !! k = Some al -> split_allocation a al off = Ok (a', (left, right)) ->
      host_step (mkHostClient a als) (mkHostClient a' (left :: right :: delete k als)).

Inductive host_reachable (a0 : HostKVArena) : host_client -> Prop :=
  | hr_init : host_reachable a0 (mkHostClient a0 [])
  | hr_step c c' : host_reachable a0 c -> host_step c c' -> host_reachable a0 c'.

(** The allocations the clients hold are live, distinct, and all there are. *)
Record host_client_ok (c : host_client) : Prop := {
  ho_wf : arena_wf (hc_arena c);
  ho_live : Forall (fun al => exists d, allocation_live (hc_arena c) al d) (hc_allocations c);
  ho_nodup : NoDup (map ha_descriptor (hc_allocations c));
  ho_all : forall i d, (a_descriptors (hc_arena c)).[i] = Some d -> d_active d = true ->
             i ∈ map ha_descriptor (hc_allocations c);
}.

Lemma allocate_inv a l pages a' al :
  arena_wf a -> is_u32 pages -> allocate a l pages = Ok (a', Some al) ->
  exists k offset, allocated_at a a' al k pages offset (hl_page_stride l * pages).
Proof.
  intros H [Hu0 Hu1] E. pose proof E as E'. unfold allocate in E'.
  destruct (find_layout a l) as [k|] eqn:Hk; [|done]. destruct (_ || _) eqn:G; [done|]. simp_bool.
  destruct (find_free_extent _ _) as [[i e]|] eqn:Hx; [|done].
  destruct (allocate_Ok a l k pages i e) as (a1 & al1 & E1 & Hat & _); try done; [lia|].
  rewrite E1 in E. injection E as <- <-. by exists k, (x_offset e).
Qed.

Lemma host_step_allocate a als l pages a' al :
  host_client_ok (mkHostClient a als) -> is_u32 pages -> allocate a l pages = Ok (a', Some al) ->
  host_client_ok (mkHostClient a' (al :: als)).
Proof.
  intros H Hu E. pose proof (ho_wf _ H) as Hwf. cbn in Hwf.
  destruct (allocate_inv _ _ _ _ _ Hwf Hu E) as (k & off & Hat).
  destruct (at_fresh _ _ _ _ _ _ _ Hat) as (old & Hold & Hina).
  assert (Hfresh : ha_descriptor al ∉ map ha_descriptor als).
  { intros (al' & Heq & Hin)%list_elem_of_fmap. pose proof (ho_live _ H) as Hl. cbn in Hl.
    rewrite Forall_forall in Hl. destruct (Hl al' Hin) as (d & _ & Hd & Ha & _). congruence. }
  constructor; cbn.
  - apply Hat.
  - apply Forall_cons_2.
    + eexists. split; [by rewrite (at_owner _ _ _ _ _ _ _ Hat), (at_this _ _ _ _ _ _ _ Hat)|].
      by rewrite (at_desc _ _ _ _ _ _ _ Hat).
    + apply Forall_forall. intros al' Hin. pose proof (ho_live _ H) as Hl. cbn in Hl.
      rewrite Forall_forall in Hl. destruct (Hl al' Hin) as (d & Ho & Hd & Ha). exists d.
      split; [by rewrite (at_this _ _ _ _ _ _ _ Hat)|]. rewrite (at_others _ _ _ _ _ _ _ Hat); [done|].
      intros Heq. apply Hfresh. rewrite <- Heq. by apply list_elem_of_fmap_2.
  - apply NoDup_cons. split; [done|apply H].
  - intros i d Hi Ha. rewrite elem_of_cons. destruct (Z.eq_dec i (ha_descriptor al)) as [->|Hne]; [by left|right].
    rewrite (at_others _ _ _ _ _ _ _ Hat) in Hi by done. by eapply (ho_all _ H).
Qed.

(** Removing the allocation at [k] from the list. *)
Lemma host_client_delete c k al :
  host_client_ok c -> hc_allocations c !! k = Some al ->
  (exists d, allocation_live (hc_arena c) al d) /\
  ha_descriptor al ∉ map ha_descriptor (delete k (hc_allocations c)) /\
  NoDup (map ha_descriptor (delete k (hc_allocations c))) /\
  (forall i, i ∈ map ha_descriptor (hc_allocations c) <->
             i = ha_descriptor al \/ i ∈ map ha_descriptor (delete k (hc_allocations c))).
Proof.
  intros H Hk. pose proof (delete_Permutation _ _ _ Hk) as Hp.
  pose proof (Permutation_map ha_descriptor Hp) as Hpm. cbn in Hpm.
  pose proof (ho_nodup _ H) as Hnd. rewrite Hpm in Hnd. apply NoDup_cons in Hnd as [? ?].
  split; [by apply (Forall_lookup_1 _ _ _ _ (ho_live _ H) Hk)|]. split; [done|]. split; [done|].
  intros i. rewrite Hpm. apply elem_of_cons.
Qed.

Lemma host_live_delete c k a' :
  host_client_ok c -> a_this a' = a_this (hc_arena c) ->
  (forall al, al ∈ delete k (hc_allocations c) ->
     (a_descriptors a').[ha_descriptor al] = (a_descriptors (hc_arena c)).[ha_descriptor al]) ->
  Forall (fun al => exists d, allocation_live a' al d) (delete k (hc_allocations c)).
Proof.
  intros H Ht Hs. apply Forall_forall. intros al Hin.
  pose proof (Forall_delete _ _ k (ho_live _ H)) as Hl. rewrite Forall_forall in Hl.
  destruct (Hl al Hin) as (d & Ho & Hd & Ha). exists d. split; [by rewrite Ht|]. by rewrite Hs.
Qed.

Lemma host_step_release a als k al a' al' ok :
  host_client_ok (mkHostClient a als) -> als !! k = Some al ->
  allocation_release a al = (a', al', ok) ->
  ok = true /\ host_client_ok (mkHostClient a' (delete k als)).
Proof.
  intros H Hk E. pose proof (ho_wf _ H) as Hwf. cbn in Hwf.
  destruct (host_client_delete _ k al H Hk) as ((d & Hlive) & Hni & Hnd & Hiff). cbn in Hlive, Hiff.
  pose proof Hlive as (Ho & Hd & Ha & Hg). destruct (allocation_live_handle a al d Hwf Hlive) as (Hv & _ & _).
  unfold allocation_release in E. rewrite Hv in E. cbn [negb] in E.
  destruct (release_descriptor_wf a _ d Hwf Hd Ha) as [Hok Hwf'].
  rewrite Hg in Hok, Hwf'. unfold release_descriptor in E, Hok, Hwf'.
  rewrite Hd, Ha, Hg, Z.eqb_refl in E, Hok, Hwf'. cbn in E, Hwf'. injection E as <- <- <-.
  split; [done|]. constructor; cbn; try done.
  - apply (host_live_delete (mkHostClient a als)); [done|done|]. intros x Hx. cbn. apply vget_vset_ne.
    intros Heq. apply Hni. rewrite Heq. by apply list_elem_of_fmap_2.
  - intros i x. rewrite vget_vset. destruct (_ && (_ <? _)) eqn:Eq; [by intros [= <-]|]. intros Hi Hax.
    pose proof (ho_all _ H i x Hi Hax) as Hin. cbn in Hin. apply Hiff in Hin as [->|?]; [|done].
    pose proof (vget_Some_bounds _ _ _ Hd). lia.
Qed.

Lemma host_step_split a als k al off a' left right :
  host_client_ok (mkHostClient a als) -> is_u32 off -> als !! k = Some al ->
  split_allocation a al off = Ok (a', (left, right)) ->
  host_client_ok (mkHostClient a' (left :: right :: delete k als)).
Proof.
  intros H [Hu _] Hk E. pose proof (ho_wf _ H) as Hwf. cbn in Hwf.
  destruct (host_client_delete _ k al H Hk) as ((d & Hlive) & Hni & Hnd & Hiff). cbn in Hlive, Hiff, Hni.
  pose proof Hlive as (Ho & Hd & Ha & Hg).
  assert (Hoff : 0 < off < d_pages d).
  { unfold split_allocation in E. apply bind_Ok in E as (u1 & _ & E). apply bind_Ok in E as (d1 & Hd1%vat_Ok & E).
    apply bind_Ok in E as (u2 & G%throw_if_Ok & _). simp_bool. rewrite Hd in Hd1. injection Hd1 as <-. lia. }
  destruct (split_Ok a al d off Hwf Hlive Hoff) as (a1 & le & ri & dl & dr & E1 & Hwf1 & Hl1 & Hr1 &
    _ & _ & _ & _ & _ & _ & _ & Hne & (old & Hold & Hina) & _ & Hoth).
  assert (Hle : ha_descriptor le = ha_descriptor al).
  { unfold split_allocation in E1. simp_res. by destruct (take_descriptor a); simp_res. }
  rewrite E1 in E. injection E as <- <- <-.
  assert (Hrn : ha_descriptor ri ∉ map ha_descriptor als).
  { intros (x & Heq & Hin)%list_elem_of_fmap. pose proof (ho_live _ H) as Hl. cbn in Hl.
    rewrite Forall_forall in Hl. destruct (Hl x Hin) as (dx & _ & Hdx & Hax & _). congruence. }
  assert (Hrd : ha_descriptor ri ∉ map ha_descriptor (delete k als)).
  { intros Hin. apply Hrn, Hiff. by right. }
  constructor; cbn.
  - done.
  - apply Forall_cons_2; [by exists dl|]. apply Forall_cons_2; [by exists dr|].
    apply (host_live_delete (mkHostClient a als)); [done| |].
    + cbn. unfold split_allocation in E1. simp_res. by destruct (take_descriptor a); simp_res.
    + intros x Hx. cbn. apply Hoth; intros Heq.
      * apply Hni. rewrite <- Hle, <- Heq. by apply list_elem_of_fmap_2.
      * apply Hrd. rewrite <- Heq. by apply list_elem_of_fmap_2.
  - rewrite !NoDup_cons, elem_of_cons, Hle. split; [|done]. intros [?|?]; [congruence|done].
  - intros i x Hi Hax. rewrite !elem_of_cons.
    destruct (Z.eq_dec i (ha_descriptor le)) as [|N1]; [by left|].
    destruct (Z.eq_dec i (ha_descriptor ri)) as [|N2]; [by right; left|]. right; right.
    rewrite Hoth in Hi by done. pose proof (ho_all _ H i x Hi Hax) as Hin. cbn in Hin.
    apply Hiff in Hin as [->|?]; [congruence|done].
Qed.

Lemma host_step_ok c c' : host_client_ok c -> host_step c c' -> host_client_ok c'.
Proof.
  intros H Hs. destruct Hs.
  - by eapply host_step_allocate.
  - by eapply host_step_release.
  - by eapply host_step_split.
Qed.

(** An arena that was just constructed, and clients that got to [c] from it. *)
Definition host_client_of (this backing cap : Z) (layouts : list HostKVPageLayout) (c : host_client)
  : Prop :=
  exists a0, 0 < this /\ 0 <= cap <= SIZE_MAX /\
    Forall (fun l => 0 <= g_page_tokens (hl_geometry l)) layouts /\
    make_host_arena this backing cap layouts = Ok a0 /\ host_reachable a0 c.

Lemma host_client_of_ok this backing cap layouts c :
  host_client_of this backing cap layouts c -> host_client_ok c.
Proof.
  intros (a0 & Ht & Hc & Htok & Hm & Hr).
  destruct (make_host_arena_wf _ _ _ _ _ Ht Hc Htok Hm) as [Hwf Hina].
  induction Hr as [|c c' _ IH Hs]; [|by eapply host_step_ok].
  constructor; cbn; auto using NoDup_nil_2, Forall_nil_2.
  intros i d Hi Ha. rewrite Forall_forall in Hina. rewrite (Hina d) in Ha; [done|]. by eapply vget_elem.
Qed.

Lemma covers_two b ds i j d1 d2 :
  i <> j -> ds.[i] = Some d1 -> ds.[j] = Some d2 ->
  covers b d1 + covers b d2 <= zsum (map (covers b) ds).
Proof.
  intros Hne Hi Hj. pose proof (zsum_map_vset (covers b) _ _ _ (mkDescriptor 0 0 0 0 1 false) Hi) as Hs.
  pose proof (covers_sum_ge b (ds.[i <- mkDescriptor 0 0 0 0 1 false]) j d2) as Hg.
  rewrite vget_vset_ne in Hg by done. specialize (Hg Hj).
  assert (covers b (mkDescriptor 0 0 0 0 1 false) = 0) by done. lia.
Qed.

(** Two active descriptors never share a byte. *)
Lemma active_disjoint a i j d1 d2 :
  arena_wf a -> i <> j -> (a_descriptors a).[i] = Some d1 -> (a_descriptors a).[j] = Some d2 ->
  d_active d1 = true -> d_active d2 = true ->
  d_offset d1 + d_bytes d1 <= d_offset d2 \/ d_offset d2 + d_bytes d2 <= d_offset d1.
Proof.
  intros Hwf Hne Hd1 Hd2 Ha1 Ha2.
  destruct (active_descriptor _ _ _ Hwf Hd1 Ha1) as (Hb1 & Ho1 & He1 & _).
  destruct (active_descriptor _ _ _ Hwf Hd2 Ha2) as (Hb2 & Ho2 & He2 & _).
  destruct (Z_le_dec (d_offset d1 + d_bytes d1) (d_offset d2)); [by left|].
  destruct (Z_le_dec (d_offset d2 + d_bytes d2) (d_offset d1)); [by right|exfalso].
  set (b := Z.max (d_offset d1) (d_offset d2)).
  pose proof (aw_cover _ Hwf b ltac:(lia)) as Hc. unfold cover_count in Hc.
  pose proof (covers_two b _ _ _ _ _ Hne Hd1 Hd2) as H2. revert H2. unfold covers at 1 2.
  rewrite Ha1, Ha2, !(proj2 (Z.leb_le _ b)), !(proj2 (Z.ltb_lt b _)) by lia. cbn.
  destruct (byte_free _ b); lia.
Qed.

(** The bytes of an allocation. *)
Definition descriptor_has (d : Descriptor) (b : Z) : Prop := d_offset d <= b < d_offset d + d_bytes d.

Lemma uncovered_byte a b : arena_wf a -> 0 <= b < a_capacity a -> byte_free (a_free_extents a) b = false ->
  exists i d, (a_descriptors a).[i] = Some d /\ d_active d = true /\ descriptor_has d b.
Proof.
  intros H Hb Hf. pose proof (aw_cover _ H b Hb) as Hc. unfold cover_count in Hc. rewrite Hf in Hc.
  assert (Hex : exists d, d ∈ a_descriptors a /\ covers b d <> 0).
  { clear -Hc. revert Hc. generalize (a_descriptors a). intros ds Hc. induction ds as [|d ds IH]; [unfold zsum in Hc; cbn in Hc; lia|]. cbn [map] in Hc. rewrite zsum_cons in Hc.
    destruct (Z.eq_dec (covers b d) 0) as [E|E]; [|exists d; split; [set_solver|done]]. destruct IH as (d' & ? & ?); [lia|]. exists d'. split; [set_solver|done]. }
  destruct Hex as (d & Hin & Hd). apply elem_vget in Hin as (i & Hi & _). exists i, d. unfold covers in Hd. destruct (d_active d); [|done].
  destruct (Z.leb_spec (d_offset d) b), (Z.ltb_spec b (d_offset d + d_bytes d)); try done.
Qed.

(** C14. In every state clients can reach from a freshly constructed arena by
    allocating, releasing and splitting: all handles they hold are accepted,
    every allocation lies inside the arena, two allocations never share a
    byte, a byte of the arena is free exactly when no allocation has it, the
    free extents are ordered and inside the arena, and the occupied and free
    bytes add up to the capacity. *)
Theorem host_allocations_disjoint this backing cap layouts c :
  host_client_of this backing cap layouts c ->
  let a := hc_arena c in
  extents_ok 0 (a_capacity a) (a_free_extents a) /\
  extents_total (a_free_extents a) + a_occupied a = a_capacity a /\
  exists ds,
    Forall2 (fun al d => allocation_live a al d /\ host_valid_handle a (allocation_handle al) = true /\
               0 <= d_offset d /\ 0 < d_bytes d /\ d_offset d + d_bytes d <= a_capacity a) (hc_allocations c) ds /\
    (forall i j d1 d2, ds !! i = Some d1 -> ds !! j = Some d2 -> i <> j ->
       d_offset d1 + d_bytes d1 <= d_offset d2 \/ d_offset d2 + d_bytes d2 <= d_offset d1) /\
    (forall b, 0 <= b < a_capacity a ->
       byte_free (a_free_extents a) b = true <-> forall d, d ∈ ds -> ~ descriptor_has d b).
Proof.
  intros H%host_client_of_ok a. pose proof (ho_wf _ H) as Hwf. split; [apply (aw_extents _ Hwf)|]. split; [apply (aw_total _ Hwf)|].
  assert (Hds : exists ds, Forall2 (allocation_live a) (hc_allocations c) ds).
  { pose proof (ho_live _ H) as Hl. induction Hl as [|al als [d Hd] _ [ds IH]]; [exists []; constructor|]. exists (d :: ds). by constructor. }
  destruct Hds as [ds Hds]. exists ds. split; [|split].
  - eapply Forall2_impl; [exact Hds|]. intros al d Hl. pose proof Hl as (_ & Hd & Ha & _).
    destruct (active_descriptor _ _ _ Hwf Hd Ha) as (? & ? & ? & _). by destruct (allocation_live_handle _ _ _ Hwf Hl) as (_ & _ & ?).
  - intros i j d1 d2 Hi Hj Hne. destruct (Forall2_lookup_r _ _ _ _ _ Hds Hi) as (al1 & Hal1 & _ & Hd1 & Ha1 & _).
    destruct (Forall2_lookup_r _ _ _ _ _ Hds Hj) as (al2 & Hal2 & _ & Hd2 & Ha2 & _). apply (active_disjoint a (ha_descriptor al1) (ha_descriptor al2)); try done.
    intros Heq. apply Hne. eapply (NoDup_lookup _ _ _ _ (ho_nodup _ H)); rewrite lookup_map; [by rewrite Hal1|]. rewrite Hal2. cbn. by rewrite Heq.
  - intros b Hb. split.
    + intros Hf d [k Hk]%list_elem_of_lookup Hhas. destruct (Forall2_lookup_r _ _ _ _ _ Hds Hk) as (al & _ & _ & Hd & Ha & _).
      destruct (active_descriptor _ _ _ Hwf Hd Ha) as (_ & _ & _ & _ & _ & Hnf). pose proof (Hnf b Hhas) as Hz. fold a in Hz. congruence.
    + intros Hno. destruct (byte_free (a_free_extents a) b) eqn:Hf; [done|]. exfalso. destruct (uncovered_byte a b Hwf Hb Hf) as (i & d & Hd & Ha & Hhas).
      pose proof (ho_all _ H i d Hd Ha) as Hin. apply list_elem_of_fmap in Hin as (al & -> & Hin). apply list_elem_of_lookup in Hin as [k Hk].
      destruct (Forall2_lookup_l _ _ _ _ _ Hds Hk) as (d' & Hk' & _ & Hd' & _). assert (d' = d) as -> by (fold a in Hd; congruence).
      apply (Hno d); [by eapply list_elem_of_lookup_2|done].
Qed.

(** Splitting never runs out of descriptors: a live allocation of a
    reachable arena splits at every inner page boundary, into two live
    allocations of the same layout that lie next to each other and together
    are the original; the handle of the original is stale afterwards, and no
    other allocation changes. *)
Theorem split_never_exhausts_descriptors this backing cap layouts c i al d off :
  host_client_of this backing cap layouts c ->
  hc_allocations c !! i = Some al -> (a_descriptors (hc_arena c)).[ha_descriptor al] = Some d ->
  0 < off < d_pages d ->
  exists a' left right dl dr,
    split_allocation (hc_arena c) al off = Ok (a', (left, right)) /\
    allocation_live a' left dl /\ allocation_live a' right dr /\
    d_pages dl = off /\ d_pages dr = d_pages d - off /\
    d_layout dl = d_layout d /\ d_layout dr = d_layout d /\
    d_offset dl = d_offset d /\ d_offset dr = d_offset dl + d_bytes dl /\
    d_bytes dl + d_bytes dr = d_bytes d /\
    host_valid_handle a' (allocation_handle al) = false /\
    (forall j x, j <> i -> hc_allocations c !! j = Some x ->
       (a_descriptors a').[ha_descriptor x] = (a_descriptors (hc_arena c)).[ha_descriptor x]).
Proof.
  intros H%host_client_of_ok Hi Hd Hoff. pose proof (ho_wf _ H) as Hwf.
  destruct (Forall_lookup_1 _ _ _ _ (ho_live _ H) Hi) as [d' Hl]. pose proof Hl as (_ & Hd' & _).
  assert (d' = d) as -> by congruence.
  destruct (split_Ok _ al d off Hwf Hl Hoff) as (a' & le & ri & dl & dr & E & _ & H1 & H2 & H3 & H4 &
    H5 & H6 & H7 & H8 & H9 & _ & (old & Hold & Hina) & H10 & Hoth).
  assert (Hle : ha_descriptor le = ha_descriptor al).
  { unfold split_allocation in E. simp_res. by destruct (take_descriptor (hc_arena c)); simp_res. }
  exists a', le, ri, dl, dr. do 11 (split; [done|]). intros j x Hji Hj. apply Hoth.
  - rewrite Hle. intros Heq. apply Hji. eapply (NoDup_lookup _ _ _ _ (ho_nodup _ H)); rewrite lookup_map.
    + by rewrite Hj.
    + rewrite Hi. cbn. by rewrite Heq.
  - intros Heq. destruct (Forall_lookup_1 _ _ _ _ (ho_live _ H) Hj) as (dx & _ & Hdx & Hax & _).
    congruence.
Qed.

(** Allocation fails only for lack of space: on a reachable arena a
    request for a supported layout and a non-zero page count whose size fits
    in [size_t] is refused exactly when no free extent is large enough, and
    [can_allocate] predicts the outcome. *)
Theorem allocate_fails_only_for_space this backing cap layouts c l k pages :
  host_client_of this backing cap layouts c -> find_layout (hc_arena c) l = Some k ->
  0 < pages <= U32_MAX -> request_oversized l pages = false ->
  let a := hc_arena c in
  let fits := existsb (fun e => hl_page_stride l * pages <=? x_bytes e) (a_free_extents a) in
  can_allocate a l pages = fits /\
  (if fits
   then exists a' al offset, allocate a l pages = Ok (a', Some al) /\
          allocated_at a a' al k pages offset (hl_page_stride l * pages)
   else allocate a l pages = Ok (a, None)).
Proof.
  intros H%host_client_of_ok Hk Hp Hov a fits. pose proof (ho_wf _ H) as Hwf. fold a in Hwf.
  pose proof (find_layout_Some _ _ _ Hk) as (_ & Hl & _).
  unfold fits, can_allocate. fold a in Hk. rewrite Hk, (proj2 (Z.eqb_neq pages 0)), Hov by lia.
  destruct (find_free_extent (a_free_extents a) (hl_page_stride l * pages)) as [[i e]|] eqn:Hx.
  - destruct (allocate_Ok a l k pages i e Hwf Hk Hp Hov Hx) as (a' & al & E & Hat & _).
    pose proof (find_index_Some _ _ _ _ Hx) as [Hi He].
    assert (Hfd : a_free_descriptors a <> []).
    { eapply (extent_has_descriptor a e l); try done; [by eapply list_elem_of_lookup_2|].
      apply Z.leb_le in He. pose proof (stride_bounds a l Hwf Hl). nia. }
    replace (existsb _ _) with true.
    2:{ symmetry. apply existsb_exists. exists e. split; [|done]. apply list_elem_of_In.
        by eapply list_elem_of_lookup_2. }
    split; [by destruct (a_free_descriptors a)|]. by exists a', al, (x_offset e).
  - apply find_index_None in Hx as Hf. replace (existsb _ _) with false.
    2:{ symmetry. apply not_true_is_false. intros (e & He & Hle)%existsb_exists.
        rewrite Forall_forall in Hf. apply list_elem_of_In, Hf in He. congruence. }
    split; [by destruct (_ || _)|]. unfold allocate. rewrite Hk, Hx. by destruct (_ || _).
Qed.

(** A planned host page layout stores every plane of a page in its own
    256-byte aligned part of the page record, with exactly the payload its
    geometry asks for, and consecutive page records keep that alignment. *)
Theorem host_page_layout_sound g l :
  0 < g_page_tokens g -> plan_host_kv_page_layout g = Ok l ->
  hl_page_stride l mod kHostKVAlignment = 0 /\
  length (hl_planes l) = length (g_planes g) /\
  forall i p q, hl_planes l !! i = Some p -> g_planes g !! i = Some q ->
    0 <= hp_offset p /\ hp_offset p mod kHostKVAlignment = 0 /\
    hp_offset p + hp_page_payload_bytes p <= hl_page_stride l /\
    hp_page_payload_bytes p =
      pl_leading_extent q * g_page_tokens g * dtype_size (pl_dtype q) * pl_head_extent q /\
    forall j p', (i < j)%nat -> hl_planes l !! j = Some p' ->
      hp_offset p + hp_page_payload_bytes p <= hp_offset p'.
Proof.
  intros Ht H. apply plan_layout_stride in H as (_ & _ & Hs & Hok); [|done].
  split; [done|]. split.
  - revert Hok. generalize 0. generalize (hl_planes l). clear. induction (g_planes g) as [|x xs IH];
      intros [|p ps] lo H; cbn in H; try done. destruct H as (_ & _ & _ & _ & _ & H). cbn. f_equal. by eapply IH.
  - intros i p q Hi Hq. destruct (host_planes_bounds _ _ _ _ _ _ _ Hok Hi) as (? & ? & ?).
    split; [done|]. split; [done|]. split; [done|].
    revert Hok Hi Hq. generalize 0. generalize (hl_planes l). clear. revert i.
    induction (g_planes g) as [|x xs IH]; intros i [|y ps] lo H Hi Hq; cbn in H; try done.
    destruct H as (_ & _ & Hh & Hp & _ & H). destruct i as [|i]; cbn in Hi, Hq.
    + injection Hi as <-. injection Hq as <-. split; [congruence|]. intros [|j] p' Hj Hj'; [lia|].
      by apply (host_planes_bounds _ _ _ _ _ _ _ H Hj').
    + destruct (IH _ _ _ H Hi Hq) as [? Hr]. split; [done|]. intros [|j] p' Hj Hj'; [lia|].
      apply (Hr j); [lia|done].
Qed.

(** * A concrete arena

    Pages of one 256-byte plane, room for four of them; a client that
    allocated three pages and then one. *)
Definition demo_host_layout : HostKVPageLayout :=
  mkHostLayout (mkGeometry 64 PageMajor [mkPlane BF16 2 1 256]) [mkHostPlane 0 256 256] 256.

Definition demo_arena : HostKVArena :=
  match make_host_arena 9 65536 1024 [demo_host_layout] with
  | Ok a => a
  | Err _ => mkHostArena 0 0 0 0 [] [] [] [] 0
  end.

Definition demo_allocate (a : HostKVArena) (pages : Z) : HostKVArena :=
  match allocate a demo_host_layout pages with
  | Ok (a', _) => a'
  | Err _ => a
  end.

Definition demo_host_client : host_client :=
  mkHostClient (demo_allocate (demo_allocate demo_arena 3) 1)
    [mkAllocation 9 1 1; mkAllocation 9 0 1].

Lemma demo_host_client_of : host_client_of 9 65536 1024 [demo_host_layout] demo_host_client.
Proof.
  exists demo_arena. split; [lia|]. split; [unfold SIZE_MAX, U64_MAX; lia|].
  split; [apply Forall_singleton; cbn; lia|]. split; [reflexivity|].
  eapply hr_step; [eapply hr_step; [apply hr_init|]|].
  - apply (hs_allocate demo_arena [] demo_host_layout 3 (demo_allocate demo_arena 3) (mkAllocation 9 0 1));
      [split; vm_compute; discriminate|reflexivity].
  - apply (hs_allocate (demo_allocate demo_arena 3) _ demo_host_layout 1); [split; vm_compute; discriminate|reflexivity].
Qed.

Lemma demo_host_client_wf : arena_wf (hc_arena demo_host_client).
Proof. apply ho_wf, (host_client_of_ok _ _ _ _ _ demo_host_client_of). Qed.

Definition demo_recipe : HostKVAllocationRecipe :=
  default (mkRecipe 0 0 [] [])
    (plan_after_releases (hc_arena demo_host_client) [mkHostHandle 9 0 1]
       [mkRequest (Some demo_host_layout) 1; mkRequest (Some demo_host_layout) 2]).

Lemma planned_recipe_is_adopted_witness :
  exists a' news, apply_recipe (hc_arena demo_host_client) demo_recipe
    [Some (mkAllocation 9 0 1)] [null_allocation; null_allocation] = Ok (a', Some news).
Proof.
  destruct (planned_recipe_is_adopted (hc_arena demo_host_client) [mkAllocation 9 0 1]
    [mkRequest (Some demo_host_layout) 1; mkRequest (Some demo_host_layout) 2] demo_recipe
    [null_allocation; null_allocation]) as (a' & news & E & _).
  - apply demo_host_client_wf.
  - repeat apply Forall_cons_2; try apply Forall_nil_2; split; vm_compute; discriminate.
  - reflexivity.
  - reflexivity.
  - repeat apply Forall_cons_2; try apply Forall_nil_2; reflexivity.
  - exists a', news. exact E.
Defined.

Lemma host_allocations_disjoint_witness :
  extents_total (a_free_extents (hc_arena demo_host_client)) + a_occupied (hc_arena demo_host_client) = 1024.
Proof. apply (host_allocations_disjoint 9 65536 1024 [demo_host_layout] demo_host_client demo_host_client_of). Defined.

Lemma split_never_exhausts_descriptors_witness :
  exists a' left right, split_allocation (hc_arena demo_host_client) (mkAllocation 9 0 1) 2 =
                          Ok (a', (left, right)).
Proof.
  destruct (split_never_exhausts_descriptors 9 65536 1024 [demo_host_layout] demo_host_client 1
              (mkAllocation 9 0 1) (mkDescriptor 0 768 0 3 1 true) 2)
    as (a' & left & right & dl & dr & E & _).
  - apply demo_host_client_of.
  - reflexivity.
  - reflexivity.
  - cbn. lia.
  - exists a', left, right. exact E.
Defined.

Lemma allocate_fails_only_for_space_witness :
  can_allocate (hc_arena demo_host_client) demo_host_layout 1 = false.
Proof.
  destruct (allocate_fails_only_for_space 9 65536 1024 [demo_host_layout] demo_host_client
              demo_host_layout 0 1) as [E _];
    [apply demo_host_client_of|vm_compute; reflexivity|unfold U32_MAX; lia|vm_compute; reflexivity|].
  rewrite E. vm_compute. reflexivity.
Defined.

Lemma host_page_layout_sound_witness :
  hl_page_stride demo_host_layout mod kHostKVAlignment = 0.
Proof.
  apply (host_page_layout_sound (mkGeometry 64 PageMajor [mkPlane BF16 2 1 256]) demo_host_layout);
    [cbn; lia|reflexivity].
Defined.
