(* ===== verification/PageTransfer.v ===== *)
(** Moving page payloads (src/src/core/paged_kv_cache.cpp, [zero_pages],
    [copy_page], [copy_to_host] and [copy_from_host]): runs of neighbouring
    pages are coalesced into strided copies between the planes of a page pool
    and the packed page records of a host allocation. The functions return the
    copies they enqueue on the stream; what a copy does to memory is the
    interface [CopyEngine], the documented behaviour of the CUDA runtime. *)

From S2P Require Import Prelude Tensor Layout PagedKv HostKvArena.

(** * Commands *)

(** [cudaMemcpy2DAsync]: [height] rows of [width] bytes. *)
Record copy2d : Type := mkCopy2d {
  c_dst : Z;
  c_dpitch : Z;
  c_src : Z;
  c_spitch : Z;
  c_width : Z;
  c_height : Z;
}.

(** [cudaMemset2DAsync] with value 0. *)
Record fill2d : Type := mkFill2d {
  f_dst : Z;
  f_pitch : Z;
  f_width : Z;
  f_height : Z;
}.

(** The linear calls are one row. *)
Definition copy1d (dst src bytes : Z) : copy2d := mkCopy2d dst bytes src bytes bytes 1.
Definition fill1d (dst bytes : Z) : fill2d := mkFill2d dst bytes bytes 1.

(** * Runs of neighbouring pages *)
Record page_run : Type := mkPageRun { pr_begin : Z; pr_first : Z; pr_count : Z }.

(** [while (end < pages.size() && pages[end].index_ == pages[end - 1].index_ + 1) ++end] *)
Fixpoint run_length (previous : Z) (rest : list DeviceKVPageHandle) : nat :=
  match rest with
  | h :: rest' => if h_index h =? previous + 1 then S (run_length (h_index h) rest') else O
  | [] => O
  end.

(** The outer loop; every iteration consumes a page, so the number of pages is
    enough fuel. *)
Fixpoint page_runs_from (fuel : nat) (begin : Z) (pages : list DeviceKVPageHandle) : list page_run :=
  match fuel, pages with
  | S fuel', h :: rest =>
      let k := run_length (h_index h) rest in
      mkPageRun begin (h_index h) (1 + Z.of_nat k) ::
        page_runs_from fuel' (begin + 1 + Z.of_nat k) (drop k rest)
  | _, _ => []
  end.

Definition page_runs (pages : list DeviceKVPageHandle) : list page_run :=
  page_runs_from (length pages) 0 pages.

(** The commands of all runs and planes, in order. *)
Definition rconcat {A B} (f : A -> result (list B)) (l : list A) : result (list B) :=
  ls ← rmap f l; Ok (concat ls).

Definition pool_order (p : DeviceKVPagePool) : PagedKVPlaneOrder := g_device_plane_order (ps_geometry (p_spec p)).

(** * Operations *)
Definition zero_plane (p : DeviceKVPagePool) (run : page_run) (plane : Tensor) : result (list fill2d) :=
  nb2 ← vat (t_nb plane) 2;
  nb3 ← vat (t_nb plane) 3;
  ne3 ← vat (t_ne plane) 3;
  match pool_order p with
  | PageMajor => Ok [fill1d (t_data plane + pr_first run * nb3) (pr_count run * nb3)]
  | HeadMajor => Ok [mkFill2d (t_data plane + pr_first run * nb2) nb3 (pr_count run * nb2) ne3]
  end.

Definition zero_pages (pages : list DeviceKVPageHandle) : M DeviceKVPagePool (list fill2d) :=
  _ ← validate_distinct_pages pages;
  p ← mget;
  mlift (rconcat (fun run => rconcat (zero_plane p run) (p_planes p)) (page_runs pages)).

Definition copy_page_plane (p : DeviceKVPagePool) (source_index destination_index : Z) (plane : Tensor)
    : result (list copy2d) :=
  nb2 ← vat (t_nb plane) 2;
  nb3 ← vat (t_nb plane) 3;
  ne3 ← vat (t_ne plane) 3;
  match pool_order p with
  | PageMajor => Ok [copy1d (t_data plane + destination_index * nb3) (t_data plane + source_index * nb3) nb3]
  | HeadMajor => Ok [mkCopy2d (t_data plane + destination_index * nb2) nb3 (t_data plane + source_index * nb2) nb3 nb2 ne3]
  end.

Definition copy_page (p : DeviceKVPagePool) (source destination : DeviceKVPageHandle) : result (list copy2d) :=
  source_index ← physical_index p source;
  destination_index ← physical_index p destination;
  if source_index =? destination_index then Ok []
  else rconcat (copy_page_plane p source_index destination_index) (p_planes p).

(** The geometry checks that both directions make of a view. *)
Definition transfer_layout (a : HostKVArena) (v : HostKVAllocationView) (pages : Z) (p : DeviceKVPagePool)
    : result HostKVPageLayout :=
  _ ← throw_if (negb (view_valid a v) || negb (v_page_count v =? pages)) InvalidArgument;
  host ← view_layout a v;
  _ ← throw_if (negb (bool_decide (hl_geometry host = ps_geometry (p_spec p)))) InvalidArgument;
  Ok host.

Definition plane_to_host (p : DeviceKVPagePool) (host : HostKVPageLayout) (data : Z) (run : page_run) (plane_index : Z)
    : result (list copy2d) :=
  plane ← vat (p_planes p) plane_index;
  host_plane ← vat (hl_planes host) plane_index;
  nb2 ← vat (t_nb plane) 2;
  nb3 ← vat (t_nb plane) 3;
  ne3 ← vat (t_ne plane) 3;
  let host_base := data + pr_begin run * hl_page_stride host + hp_offset host_plane in
  match pool_order p with
  | PageMajor =>
      Ok [mkCopy2d host_base (hl_page_stride host) (t_data plane + pr_first run * nb3) nb3
            (hp_page_payload_bytes host_plane) (pr_count run)]
  | HeadMajor =>
      Ok (map (fun head =>
                 mkCopy2d (host_base + head * hp_head_payload_bytes host_plane) (hl_page_stride host)
                   (t_data plane + head * nb3 + pr_first run * nb2) nb2
                   (hp_head_payload_bytes host_plane) (pr_count run)) (seqZ 0 ne3))
  end.

Definition copy_to_host (a : HostKVArena) (source : list DeviceKVPageHandle) (v : HostKVAllocationView)
    (p : DeviceKVPagePool) : result (list copy2d) :=
  host ← transfer_layout a v (vsize source) p;
  _ ← rfor (fun _ page => _ ← physical_index p page; Ok tt) tt source;
  rconcat (fun run => rconcat (plane_to_host p host (v_data v) run) (seqZ 0 (vsize (p_planes p)))) (page_runs source).

Definition plane_from_host (p : DeviceKVPagePool) (host : HostKVPageLayout) (data : Z) (run : page_run) (plane_index : Z)
    : result (list copy2d) :=
  plane ← vat (p_planes p) plane_index;
  host_plane ← vat (hl_planes host) plane_index;
  nb2 ← vat (t_nb plane) 2;
  nb3 ← vat (t_nb plane) 3;
  ne3 ← vat (t_ne plane) 3;
  let host_base := data + pr_begin run * hl_page_stride host + hp_offset host_plane in
  match pool_order p with
  | PageMajor =>
      Ok [mkCopy2d (t_data plane + pr_first run * nb3) nb3 host_base (hl_page_stride host)
            (hp_page_payload_bytes host_plane) (pr_count run)]
  | HeadMajor =>
      Ok (map (fun head =>
                 mkCopy2d (t_data plane + head * nb3 + pr_first run * nb2) nb2
                   (host_base + head * hp_head_payload_bytes host_plane) (hl_page_stride host)
                   (hp_head_payload_bytes host_plane) (pr_count run)) (seqZ 0 ne3))
  end.

Definition copy_from_host (a : HostKVArena) (v : HostKVAllocationView) (destination : list DeviceKVPageHandle)
    : M DeviceKVPagePool (list copy2d) :=
  p0 ← mget;
  host ← mlift (transfer_layout a v (vsize destination) p0);
  _ ← validate_distinct_pages destination;
  p ← mget;
  mlift (rconcat (fun run => rconcat (plane_from_host p host (v_data v) run) (seqZ 0 (vsize (p_planes p))))
           (page_runs destination)).

(** * What a copy does

    Memory is one address space, as with unified virtual addressing. *)
Notation memory := (Z -> Z).

(** The command moves the byte at [s] to [d]. *)
Definition moves (c : copy2d) (d s : Z) : Prop :=
  exists r i, 0 <= r < c_height c /\ 0 <= i < c_width c /\
    d = c_dst c + r * c_dpitch c + i /\ s = c_src c + r * c_spitch c + i.

(** The arguments the runtime documents as valid: rows fit their pitches and
    the two areas do not overlap. *)
Definition copy_valid (c : copy2d) : Prop :=
  c_width c <= c_dpitch c /\ c_width c <= c_spitch c /\
  forall d s d' s', moves c d s -> moves c d' s' -> d <> s'.

Class CopyEngine : Type := {
  run_copy2d : copy2d -> memory -> memory;
  run_copy2d_moves : forall c m d s, copy_valid c -> moves c d s -> run_copy2d c m d = m s;
  run_copy2d_frame : forall c m d, copy_valid c -> (forall s, ~ moves c d s) -> run_copy2d c m d = m d;
}.

(** The stream executes its commands in order. *)
Definition run_copies `{CopyEngine} (cs : list copy2d) (m : memory) : memory :=
  fold_left (fun m c => run_copy2d c m) cs m.

(** ** Executing a list of copies *)
Definition row_of_address (c : copy2d) (d : Z) : Z := (d - c_dst c) / c_dpitch c.
Definition column_of_address (c : copy2d) (d : Z) : Z := (d - c_dst c) mod c_dpitch c.

Definition moved (c : copy2d) (d : Z) : bool :=
  (0 <? c_width c) && (0 <=? row_of_address c d) && (row_of_address c d <? c_height c) &&
  (column_of_address c d <? c_width c).

Definition source_of (c : copy2d) (d : Z) : Z :=
  c_src c + row_of_address c d * c_spitch c + column_of_address c d.

Lemma moves_iff c d s :
  c_width c <= c_dpitch c -> moves c d s <-> moved c d = true /\ s = source_of c d.
Proof.
  intros Hw. unfold moves, moved, source_of, row_of_address, column_of_address. rewrite !andb_true_iff, !Z.ltb_lt, Z.leb_le.
  split.
  - intros (r & i & Hr & Hi & -> & ->). replace (c_dst c + r * c_dpitch c + i - c_dst c) with (r * c_dpitch c + i) by lia.
    rewrite <- (Z.div_unique_pos (r * c_dpitch c + i) (c_dpitch c) r i) by lia.
    rewrite <- (Z.mod_unique_pos (r * c_dpitch c + i) (c_dpitch c) r i) by lia. lia.
  - intros ((((Hpos & Hr0) & Hr) & Hi) & ->). exists ((d - c_dst c) / c_dpitch c), ((d - c_dst c) mod c_dpitch c).
    pose proof (Z.mod_pos_bound (d - c_dst c) (c_dpitch c) ltac:(lia)).
    split; [lia|]. split; [lia|]. split; [|done].
    pose proof (Z.div_mod (d - c_dst c) (c_dpitch c) ltac:(lia)). lia.
Qed.

(** The reference engine; any other agrees with it on valid copies. *)
Definition reference_copy (c : copy2d) (m : memory) : memory :=
  fun d => if moved c d then m (source_of c d) else m d.

#[export] Instance reference_engine : CopyEngine.
Proof.
  refine {| run_copy2d := reference_copy |}.
  - intros c m d s (Hw & _) Hm. apply moves_iff in Hm as [Hm ->]; [|done]. unfold reference_copy. by rewrite Hm.
  - intros c m d (Hw & _) Hno. unfold reference_copy. destruct (moved c d) eqn:E; [|done].
    exfalso. apply (Hno (source_of c d)). by apply moves_iff.
Defined.

Section Engine.
Context {engine : CopyEngine}.

(** A set of copies is independent when all of them are valid, no two write
    different bytes to one address, and none reads what one writes. *)
Record independent (cs : list copy2d) : Prop := {
  in_valid : Forall copy_valid cs;
  in_functional : forall c c' d s s', c ∈ cs -> c' ∈ cs -> moves c d s -> moves c' d s' -> s = s';
  in_disjoint : forall c c' d s d' s', c ∈ cs -> c' ∈ cs -> moves c d s -> moves c' d' s' -> d <> s';
}.

Lemma independent_app cs ks : independent (cs ++ ks) -> independent cs.
Proof.
  intros [Hv Hf Hd]. apply Forall_app in Hv as [Hv _]. split; [done| |].
  - intros c c' d s s' Hc Hc'. apply (Hf c c'); set_solver.
  - intros c c' d s d' s' Hc Hc'. apply (Hd c c'); set_solver.
Qed.

Lemma run_copies_snoc cs c m : run_copies (cs ++ [c]) m = run_copy2d c (run_copies cs m).
Proof. unfold run_copies. by rewrite fold_left_app. Qed.

Lemma run_copies_spec cs m :
  independent cs ->
  (forall c d s, c ∈ cs -> moves c d s -> run_copies cs m d = m s) /\
  (forall d, (forall c s, c ∈ cs -> ~ moves c d s) -> run_copies cs m d = m d).
Proof.
  induction cs as [|c0 cs IH] using rev_ind; intros Hin.
  { split; [by intros c d s ?%not_elem_of_nil|done]. }
  destruct (IH (independent_app _ _ Hin)) as [Hmove Hframe]. destruct Hin as [Hv Hf Hd].
  apply Forall_app in Hv as [_ [Hv0 _]%Forall_cons_1]. rewrite run_copies_snoc.
  assert (H0 : c0 ∈ cs ++ [c0]) by set_solver.
  assert (Hcs : forall c, c ∈ cs -> c ∈ cs ++ [c0]) by set_solver.
  assert (Hnew : forall d s, moves c0 d s -> run_copy2d c0 (run_copies cs m) d = m s).
  { intros d s Hm. rewrite (run_copy2d_moves c0 _ d s Hv0 Hm). apply Hframe.
    intros c s' Hc Hw. exact (Hd c c0 s s' d s (Hcs c Hc) H0 Hw Hm eq_refl). }
  split.
  - intros c d s [Hc| ->%list_elem_of_singleton]%elem_of_app Hm; [|by apply Hnew].
    destruct (moved c0 d) eqn:E.
    + assert (Hm0 : moves c0 d (source_of c0 d)) by (apply moves_iff; [apply Hv0|done]).
      rewrite (Hnew _ _ Hm0). f_equal. apply (Hf c0 c d); auto.
    + rewrite run_copy2d_frame; [by apply (Hmove c)|done|]. intros s' Hs'. apply moves_iff in Hs' as [? _]; [congruence|apply Hv0].
  - intros d Hno. rewrite run_copy2d_frame; [|done|by intros s; apply Hno]. apply Hframe. intros c s Hc. apply Hno. by apply Hcs.
Qed.
End Engine.

(** * Runs cover the pages *)
Lemma run_length_spec previous rest :
  (run_length previous rest <= length rest)%nat /\
  forall t h, rest !! t = Some h -> (t < run_length previous rest)%nat -> h_index h = previous + 1 + Z.of_nat t.
Proof.
  revert previous. induction rest as [|h rest IH]; intros previous; cbn [run_length]; [split; [lia|intros; lia]|].
  destruct (Z.eqb_spec (h_index h) (previous + 1)) as [Heq|]; [|split; [lia|intros; lia]].
  destruct (IH (h_index h)) as [Hlen Hidx]. split; [cbn; lia|].
  intros [|t] h' Ht Hlt; cbn in Ht; [injection Ht as <-; lia|]. rewrite (Hidx t h' Ht) by lia. lia.
Qed.

(** [run] places the page at position [k] of the vector. *)
Definition in_page_run (run : page_run) (k : Z) (index : Z) : Prop :=
  exists t, 0 <= t < pr_count run /\ k = pr_begin run + t /\ index = pr_first run + t.

Lemma page_runs_from_spec fuel : forall begin pages k index,
  (length pages <= fuel)%nat ->
  (exists run, run ∈ page_runs_from fuel begin pages /\ in_page_run run k index) <->
  (exists h, pages.[k - begin] = Some h /\ h_index h = index).
Proof.
  induction fuel as [|fuel IH]; intros begin pages k index Hlen.
  { destruct pages; [|cbn in Hlen; lia]. cbn. split.
    - intros (run & ?%not_elem_of_nil & _). done.
    - intros (h & Hh & _). apply vget_Some_bounds in Hh. change (vsize []) with 0 in Hh. lia. }
  destruct pages as [|h rest]; cbn [page_runs_from].
  { split; [intros (run & ?%not_elem_of_nil & _); done|].
    intros (h & Hh & _). apply vget_Some_bounds in Hh. change (vsize []) with 0 in Hh. lia. }
  destruct (run_length_spec (h_index h) rest) as [Hk Hidx]. set (n := run_length (h_index h) rest) in *.
  assert (Hfirst : forall t x, 0 <= t <= Z.of_nat n -> (h :: rest).[t] = Some x -> h_index x = h_index h + t).
  { intros t x Ht Hx. destruct (decide (t = 0)) as [->|]; [injection Hx as <-; lia|].
    rewrite vget_cons_succ in Hx by lia. unfold vget in Hx. rewrite (proj2 (Z.leb_le 0 (t - 1))) in Hx by lia.
    rewrite (Hidx _ _ Hx) by lia. lia. }
  assert (Hdrop : forall t, Z.of_nat n < t -> (h :: rest).[t] = (drop n rest).[t - (1 + Z.of_nat n)]).
  { intros t Ht. rewrite vget_cons_succ by lia. unfold vget. rewrite !(proj2 (Z.leb_le 0 _)) by lia.
    rewrite lookup_drop. f_equal. lia. }
  assert (Hsize : Z.of_nat n < vsize (h :: rest)) by (unfold vsize; cbn [length]; lia).
  assert (Hfuel : (length (drop n rest) <= fuel)%nat) by (rewrite length_drop; cbn in Hlen; lia).
  specialize (IH (begin + 1 + Z.of_nat n) (drop n rest) k index Hfuel). split.
  - intros (run & [->|Hrun]%elem_of_cons & Hin).
    + destruct Hin as (t & Ht & -> & ->). cbn [pr_count pr_begin pr_first] in *.
      destruct (vget_is_Some (h :: rest) t) as [x Hx]; [lia|]. exists x.
      replace (begin + t - begin) with t by lia. split; [done|]. apply Hfirst; [lia|done].
    + destruct (proj1 IH) as (x & Hx & Hi); [by exists run|]. exists x. split; [|done].
      pose proof (vget_Some_bounds _ _ _ Hx). rewrite Hdrop by lia. rewrite <- Hx. f_equal. lia.
  - intros (x & Hx & Hi). destruct (Z.le_gt_cases (k - begin) (Z.of_nat n)) as [Hle|Hgt].
    + exists (mkPageRun begin (h_index h) (1 + Z.of_nat n)). split; [left|]. exists (k - begin). cbn.
      pose proof (vget_Some_bounds _ _ _ Hx). rewrite <- Hi, (Hfirst (k - begin) x) by (done || lia). lia.
    + destruct (proj2 IH) as (run & Hrun & Hin).
      { exists x. split; [|done]. rewrite Hdrop in Hx by lia. rewrite <- Hx. f_equal. lia. }
      exists run. split; [by right|done].
Qed.

Lemma page_runs_spec pages k index :
  (exists run, run ∈ page_runs pages /\ in_page_run run k index) <-> (exists h, pages.[k] = Some h /\ h_index h = index).
Proof.
  unfold page_runs. rewrite (page_runs_from_spec _ 0 pages k index) by done. by rewrite Z.sub_0_r.
Qed.

(** * The planes of a pool *)

(** No operation of a pool moves its planes. *)
Definition same_storage (p p' : DeviceKVPagePool) : Prop := p_planes p' = p_planes p /\ p_spec p' = p_spec p.

Lemma release_page_storage p q g : same_storage p (release_page p q g).
Proof. unfold release_page, same_storage. repeat case_match; done. Qed.

Lemma same_storage_trans p q r : same_storage p q -> same_storage q r -> same_storage p r.
Proof. intros [? ?] [? ?]. split; congruence. Qed.

Lemma lease_release_storage p l : same_storage p (fst (fst (lease_release p l))).
Proof. unfold lease_release. repeat case_match; try done. apply release_page_storage. Qed.

Lemma destroy_leases_storage ls p : same_storage p (destroy_leases p ls).
Proof.
  revert p. induction ls as [|l ls IH]; intros p; [done|].
  exact (same_storage_trans _ _ _ (lease_release_storage p l) (IH _)).
Qed.

Lemma client_step_storage c c' : client_ok c -> client_step c c' -> same_storage (c_pool c) (c_pool c').
Proof.
  intros Hok Hs. destruct Hs; cbn [c_pool]; try done.
  - unfold reserve in *. repeat case_match; by simplify_eq.
  - unfold resize_reservation in *. by simp_res.
  - unfold reservation_clear, release_reservation in *. case_match; by simp_res.
  - unfold reservation_release, release_reservation in *. case_match; by simp_res.
  - unfold materialize in *. simp_res. case_match; simp_res; [done|].
    repeat (case_match; simp_res; try done).
  - unfold materialize_one in *. simp_res. case_match; by simp_res.
  - unfold dematerialize in *. simp_res. case_match; simp_res; [done|]. apply destroy_leases_storage.
  - unfold dematerialize_one in *. simp_res. pose proof (lease_release_storage p l).
    destruct (lease_release p l) as [[p1 l1] ok]. by simp_res.
  - apply destroy_leases_storage.
  - match goal with H : validate_distinct_pages ?pages ?p = _ |- _ =>
      destruct (validate_distinct_spec p pages (ck_wf _ Hok)) as (m & st & r & E & _); rewrite H in E end.
    by injection E as -> ->.
Qed.

Lemma reachable_storage p0 c :
  pool_wf p0 -> p_allocated_pages p0 = 0 -> p_reserved_pages p0 = 0 ->
  client_reachable p0 c -> same_storage p0 (c_pool c).
Proof.
  intros Hwf Ha Hr H. induction H as [|c c' Hreach IH Hs]; [done|].
  eapply same_storage_trans; [exact IH|]. eapply client_step_storage; [|exact Hs]. by eapply reachable_client_ok.
Qed.

(** The bytes of one head of a page, and of a page, in a plane. *)
Definition unit_bytes (g : KVPlaneGeometry) : Z := pl_leading_extent g * kPagedKVPageSize * dtype_size (pl_dtype g).
Definition page_bytes (g : KVPlaneGeometry) : Z := unit_bytes g * pl_head_extent g.

(** The tensor of a plane has the shape and strides its geometry asks for. *)
Record plane_fits (order : PagedKVPlaneOrder) (pages : Z) (g : KVPlaneGeometry) (t : Tensor) : Prop := {
  pf_unit : 0 < unit_bytes g;
  pf_heads : 0 < pl_head_extent g;
  pf_nb2 : (t_nb t).[2] = Some (unit_bytes g);
  pf_nb3 : (t_nb t).[3] = Some (match order with PageMajor => page_bytes g | HeadMajor => unit_bytes g * pages end);
  pf_ne3 : (t_ne t).[3] = Some (match order with PageMajor => pages | HeadMajor => pl_head_extent g end);
}.

Lemma bind_plane_fits spec pages backing planned g t :
  bind_plane spec pages backing planned g = Ok t ->
  plane_fits (g_device_plane_order (ps_geometry spec)) pages g t /\
  t_data t = span_data backing + r_offset (tr_region (dl_storage planned)) /\
  r_bytes (tr_region (dl_storage planned)) = page_bytes g * pages /\
  r_offset (tr_region (dl_storage planned)) + r_bytes (tr_region (dl_storage planned)) <= span_bytes backing.
Proof.
  intros H. unfold bind_plane, tensor_region_bind, region_bind in H. simp_res. simp_bool. cbn [span_data] in *.
  match goal with H : bytes _ = Ok _ |- _ => apply bytes_Ok in H as [-> _] end.
  repeat match goal with H : make_tensor _ _ _ = Ok _ |- _ => apply make_tensor_Ok in H as (? & ? & ? & ? & ? & ?) end.
  match goal with H : bool_decide (t_dtype t = _) = true |- _ => apply bool_decide_eq_true in H end.
  match goal with Hx : t_ne ?x = ?l, Ht : t_ne t = ?l |- _ => rewrite <- Ht in Hx; rewrite Hx in * end.
  match goal with H : tensor_wf t |- _ => destruct H as (Hlen & _ & Hpos) end.
  destruct (t_ne t) as [|n0 [|n1 [|n2 [|n3 [|? ?]]]]] eqn:Ene; try discriminate.
  repeat match goal with H : [_; _; _; _].[_] = Some _ |- _ => injection H as <- end.
  simp_forall. subst. pose proof (dtype_size_pos (pl_dtype g)).
  assert (Hd : tr_dtype (dl_storage planned) = pl_dtype g) by congruence.
  unfold page_bytes, unit_bytes. rewrite !Hd in *.
  match goal with H : t_dtype ?y = pl_dtype g, B : foldl _ _ _ * dtype_size (t_dtype ?y) = _ |- _ => rewrite H in B end.
  split.
  - constructor; unfold page_bytes, unit_bytes.
    + subst. repeat apply Z.mul_pos_pos; lia.
    + destruct (g_device_plane_order _); simp_res; simp_bool; lia.
    + match goal with H : t_nb t = _ |- _ => rewrite H end.
      change (Some (dtype_size (pl_dtype g) * pl_leading_extent g * kPagedKVPageSize) =
              Some (pl_leading_extent g * kPagedKVPageSize * dtype_size (pl_dtype g))). f_equal. ring.
    + match goal with H : t_nb t = _ |- _ => rewrite H end.
      lazymatch goal with |- _ = ?r =>
        change (Some (dtype_size (pl_dtype g) * pl_leading_extent g * kPagedKVPageSize * n2) = r) end. f_equal.
      destruct (g_device_plane_order _); simp_res; simp_bool; subst; ring.
    + rewrite Ene. change ([pl_leading_extent g; kPagedKVPageSize; n2; n3].[3]) with (Some n3). f_equal. destruct (g_device_plane_order _); simp_res; simp_bool; subst; unfold kPagedKVPageSize; lia.
  - split; [congruence|]. split; [|lia].
    match goal with B : foldl _ _ _ * _ = _ |- _ => rewrite <- B end. cbn [foldl].
    destruct (g_device_plane_order _); simp_res; simp_bool; subst; ring.
Qed.

(** The planes lie one after the other in [lo, hi). *)
Fixpoint planes_ok (order : PagedKVPlaneOrder) (pages lo hi : Z) (geos : list KVPlaneGeometry) (planes : list Tensor) : Prop :=
  match geos, planes with
  | [], [] => True
  | g :: gs, t :: ts =>
      lo <= t_data t /\ plane_fits order pages g t /\ t_data t + page_bytes g * pages <= hi /\
      planes_ok order pages (t_data t + page_bytes g * pages) hi gs ts
  | _, _ => False
  end.

Definition storage_of (l : DeviceKVPlaneLayout) : LayoutRegion := tr_region (dl_storage l).

Lemma plan_planes_laid_out order pages geos b b' ls :
  builder_wf b -> Forall (fun g => 0 <= pl_alignment g <= SIZE_MAX) geos ->
  plan_planes order pages geos b = (b', Ok ls) ->
  laid_out (cursor b) (map storage_of ls) (cursor b') /\ builder_wf b'.
Proof.
  intros Hwf Ha. revert b ls Hwf. induction Ha as [|g geos Hg _ IH]; intros b ls Hwf H; cbn in H; simp_M.
  { split; [apply laid_nil|done]. }
  unfold add_tensor in *. simp_M.
  match goal with H : bytes _ = Ok _ |- _ => apply bytes_Ok in H as [_ ?] end.
  match goal with H : add _ _ _ = _ |- _ => apply add_Ok in H as (Er & ? & ? & ? & ? & ? & Ec & ? & ?); [|done|lia|done] end.
  match goal with H : plan_planes _ _ _ _ = _ |- _ => apply IH in H as [Hl ?]; [|done] end.
  split; [|done]. cbn [map]. unfold storage_of at 1. cbn [dl_storage tr_region]. rewrite Ec in Hl. rewrite Er.
  by apply laid_cons.
Qed.

Lemma bind_planes_ok spec pages backing lo geos ls planes hi :
  0 < pages ->
  laid_out lo (map storage_of ls) hi -> Forall2 (fun '(l, g) t => bind_plane spec pages backing l g = Ok t) (zip ls geos) planes ->
  length ls = length geos ->
  planes_ok (g_device_plane_order (ps_geometry spec)) pages (span_data backing + lo)
    (span_data backing + span_bytes backing) geos planes.
Proof.
  intros Hpages Hl. revert lo geos planes Hl. induction ls as [|l ls IH]; intros lo geos planes Hl Hb Hlen.
  { destruct geos; [|done]. apply Forall2_nil_inv_l in Hb as ->. done. }
  destruct geos as [|g geos]; [done|]. cbn [zip zip_with] in Hb.
  apply Forall2_cons_inv_l in Hb as (t & ts & Ht & Hts & ->). inversion Hl; subst.
  destruct (bind_plane_fits _ _ _ _ _ _ Ht) as (Hfit & Hd & Hbytes & Hend).
  fold (storage_of l) in Hd, Hbytes, Hend. cbn [planes_ok]. rewrite Hd.
  split; [lia|]. split; [done|]. split; [lia|].
  rewrite <- Z.add_assoc, <- Hbytes. apply IH; [done|done|by injection Hlen].
Qed.

(** Collecting a loop's results at the end of a vector is [rmap]. *)
Lemma rfor_collect {A B} (f : A -> result B) step l acc out :
  (forall acc x, step acc x = (y ← f x; Ok (acc ++ [y]))) -> rfor step acc l = Ok out ->
  exists ys, out = acc ++ ys /\ Forall2 (fun x y => f x = Ok y) l ys.
Proof.
  intros Hf. revert acc. induction l as [|x l IH]; intros acc H; cbn in H; rewrite ?Hf in H; simp_res.
  { exists []. rewrite app_nil_r. by split; [|constructor]. }
  match goal with H : rfor _ _ _ = Ok _ |- _ => apply IH in H as (ys & -> & ?) end.
  eexists (_ :: ys). rewrite <- app_assoc. split; [done|]. by constructor.
Qed.

(** A pool that was planned at the end of a layout and then constructed. *)
Definition planned_pool (this : Z) (spec : DeviceKVPagePoolSpec) (b : LayoutBuilder) (backing : DeviceSpan)
    (p0 : DeviceKVPagePool) : Prop :=
  0 < this /\ is_u32 (ps_page_group_count spec) /\ builder_wf b /\ Forall (fun g => 0 <= pl_alignment g <= SIZE_MAX) (g_planes (ps_geometry spec)) /\
  exists b' layout, plan_device_kv_page_pool spec b = (b', Ok layout) /\ make_pool this backing layout = Ok p0.

Definition planes_in (backing : DeviceSpan) (spec : DeviceKVPagePoolSpec) (planes : list Tensor) : Prop :=
  planes_ok (g_device_plane_order (ps_geometry spec)) (ps_page_group_count spec) (span_data backing)
    (span_data backing + span_bytes backing) (g_planes (ps_geometry spec)) planes.

Lemma planes_ok_lower order pages lo lo' hi gs ts :
  lo' <= lo -> planes_ok order pages lo hi gs ts -> planes_ok order pages lo' hi gs ts.
Proof. destruct gs, ts; cbn; try done. intros ? (? & ? & ?). split; [lia|done]. Qed.

Lemma planned_pool_planes this spec b backing p0 :
  planned_pool this spec b backing p0 ->
  pool_wf p0 /\ p_spec p0 = spec /\ p_allocated_pages p0 = 0 /\ p_reserved_pages p0 = 0 /\ planes_in backing spec (p_planes p0).
Proof.
  intros (Hthis & Hu & Hwf & Ha & b' & layout & Hplan & Hmake).
  unfold plan_device_kv_page_pool in Hplan. simp_M.
  match goal with H : checked_i32 _ = Ok _ |- _ => unfold checked_i32 in H end. simp_res. simp_bool.
  pose proof (make_pool_wf _ _ (mkPoolLayout spec _) _ Hthis Hu Hmake) as Hpool. destruct (make_pool_fresh _ _ _ _ Hmake).
  match goal with H : plan_planes _ _ _ _ = _ |- _ => apply plan_planes_laid_out in H as [Hl _]; [|done|done] end.
  unfold make_pool, checked_i32 in Hmake. cbn [pool_layout_spec pool_layout_planes] in Hmake. simp_res. simp_bool.
  match goal with H : rfor _ _ _ = Ok _ |- _ =>
    apply (rfor_collect (fun '(l, g) => bind_plane spec (ps_page_group_count spec) backing l g)) in H
      as (ts & -> & Hts); [|by intros ? []] end.
  split; [done|]. split; [done|]. split; [done|]. split; [done|]. destruct Hu, Hwf. unfold planes_in. cbn [p_planes app].
  eapply (planes_ok_lower _ _ (span_data backing + cursor b)); [lia|].
  eapply bind_planes_ok; [lia|done| |unfold vsize in *; lia].
  eapply Forall2_impl; [exact Hts|]. by intros [].
Qed.

(** The storage of a pool at any later time. *)
Lemma client_planes this spec b backing p0 c :
  planned_pool this spec b backing p0 -> client_reachable p0 c ->
  client_ok c /\ p_spec (c_pool c) = spec /\ planes_in backing spec (p_planes (c_pool c)).
Proof.
  intros Hp Hc. destruct (planned_pool_planes _ _ _ _ _ Hp) as (Hwf & Hspec & Ha & Hr & Hpl).
  destruct (reachable_storage _ _ Hwf Ha Hr Hc) as [-> ->]. split; [|done]. by eapply reachable_client_ok.
Qed.

(** * Addresses of page bytes

    Byte [x] of a page in a plane: heads are the outer dimension of a
    [HeadMajor] plane, pages that of a [PageMajor] one. *)
Definition device_byte (order : PagedKVPlaneOrder) (pages : Z) (g : KVPlaneGeometry) (t : Tensor) (index x : Z) : Z :=
  t_data t + match order with
             | PageMajor => index * page_bytes g + x
             | HeadMajor => x / unit_bytes g * (unit_bytes g * pages) + index * unit_bytes g + x mod unit_bytes g
             end.

(** Byte [x] of plane [hp] in the [k]-th page record of an allocation. *)
Definition host_byte (host : HostKVPageLayout) (hp : HostKVPlaneLayout) (data k x : Z) : Z :=
  data + k * hl_page_stride host + hp_offset hp + x.

(** A byte of a page is a byte of one of its heads. *)
Lemma page_byte_split g x :
  0 < unit_bytes g -> 0 <= x < page_bytes g ->
  exists h y, x = h * unit_bytes g + y /\ 0 <= h < pl_head_extent g /\ 0 <= y < unit_bytes g /\
    x / unit_bytes g = h /\ x mod unit_bytes g = y.
Proof.
  intros Hu Hx. unfold page_bytes in Hx. exists (x / unit_bytes g), (x mod unit_bytes g).
  pose proof (Z.mod_pos_bound x (unit_bytes g) Hu). pose proof (Z.div_mod x (unit_bytes g) ltac:(lia)).
  repeat split; try lia.
  - apply Z.div_pos; lia.
  - apply Z.div_lt_upper_bound; lia.
Qed.

Lemma page_byte_join g h y :
  0 <= h < pl_head_extent g -> 0 <= y < unit_bytes g ->
  0 <= h * unit_bytes g + y < page_bytes g /\
  (h * unit_bytes g + y) / unit_bytes g = h /\ (h * unit_bytes g + y) mod unit_bytes g = y.
Proof.
  intros Hh Hy. unfold page_bytes. split; [nia|].
  split; [symmetry; apply (Z.div_unique_pos _ _ h y)|symmetry; apply (Z.mod_unique_pos _ _ h y)]; lia.
Qed.

Lemma device_byte_bounds order pages g t index x :
  plane_fits order pages g t -> 0 <= index < pages -> 0 <= x < page_bytes g ->
  t_data t <= device_byte order pages g t index x < t_data t + page_bytes g * pages.
Proof.
  intros [Hu Hh _ _ _] Hi Hx. unfold device_byte. destruct order; [nia|].
  destruct (page_byte_split g x Hu Hx) as (h & y & -> & Hh' & Hy & -> & ->). unfold page_bytes.
  pose proof (mixed_radix_bounds (unit_bytes g) pages (pl_head_extent g) 1 y index h 0). lia.
Qed.

Lemma device_byte_inj order pages g t i i' x x' :
  plane_fits order pages g t -> 0 <= i < pages -> 0 <= i' < pages -> 0 <= x < page_bytes g -> 0 <= x' < page_bytes g ->
  device_byte order pages g t i x = device_byte order pages g t i' x' -> i = i' /\ x = x'.
Proof.
  intros [Hu _ _ _ _] Hi Hi' Hx Hx'. unfold device_byte. destruct order; intros He.
  { destruct (mixed_radix_inj (page_bytes g) x i x' i'); [lia..|done]. }
  destruct (page_byte_split g x Hu Hx) as (h & y & -> & Hh & Hy & E1 & E2), (page_byte_split g x' Hu Hx') as (h' & y' & -> & Hh' & Hy' & E1' & E2').
  rewrite E1, E2, E1', E2' in He.
  destruct (mixed_radix_inj (unit_bytes g) y (i + pages * h) y' (i' + pages * h')) as [-> He']; [lia..|].
  destruct (mixed_radix_inj pages i h i' h') as [-> ->]; [lia..|]. done.
Qed.

(** * What the commands move *)

(** The host plane holds the bytes of the device plane. *)
Definition host_plane_fits (g : KVPlaneGeometry) (hp : HostKVPlaneLayout) : Prop :=
  hp_head_payload_bytes hp = unit_bytes g /\ hp_page_payload_bytes hp = page_bytes g.

Definition fits_pitch (c : copy2d) : Prop := c_width c <= c_dpitch c /\ c_width c <= c_spitch c.

Lemma plane_to_host_moves p host data run j pages g t hp :
  plane_fits (pool_order p) pages g t -> host_plane_fits g hp -> page_bytes g <= hl_page_stride host ->
  (p_planes p).[j] = Some t -> (hl_planes host).[j] = Some hp ->
  exists cs, plane_to_host p host data run j = Ok cs /\ Forall fits_pitch cs /\
    forall d s, (exists c, c ∈ cs /\ moves c d s) <->
      exists r x, 0 <= r < pr_count run /\ 0 <= x < page_bytes g /\
        d = host_byte host hp data (pr_begin run + r) x /\ s = device_byte (pool_order p) pages g t (pr_first run + r) x.
Proof.
  intros [Hu Hh Hn2 Hn3 He3] [Hhead Hpage] Hfit Ht Hhp. unfold plane_to_host.
  rewrite (proj2 (vat_Ok _ _ _) Ht), (proj2 (vat_Ok _ _ _) Hhp). cbn [mbind result_bind].
  rewrite (proj2 (vat_Ok _ _ _) Hn2), (proj2 (vat_Ok _ _ _) Hn3), (proj2 (vat_Ok _ _ _) He3). cbn [mbind result_bind].
  rewrite Hhead, Hpage. unfold host_byte, device_byte.
  destruct (pool_order p).
  - eexists. split; [done|]. split; [by repeat constructor; cbn; lia|]. intros d s. unfold moves.
    setoid_rewrite list_elem_of_singleton. split.
    + intros (c & -> & r & x & Hr & Hx & -> & ->). cbn in *. exists r, x. repeat split; lia.
    + intros (r & x & Hr & Hx & -> & ->). eexists. split; [done|]. exists r, x. cbn. repeat split; lia.
  - eexists. split; [done|]. split.
    { apply Forall_map, Forall_forall. intros h _. unfold fits_pitch. cbn. unfold page_bytes in Hfit. nia. }
    intros d s. unfold moves. setoid_rewrite list_elem_of_fmap. setoid_rewrite elem_of_seqZ. split.
    + intros (c & (h & -> & Hin) & r & y & Hr & Hy & -> & ->). cbn in *.
      destruct (page_byte_join g h y) as (Hx & Ed & Em); [lia|lia|].
      exists r, (h * unit_bytes g + y). rewrite Ed, Em. repeat split; lia.
    + intros (r & x & Hr & Hx & -> & ->).
      destruct (page_byte_split g x Hu Hx) as (h & y & -> & Hh' & Hy & -> & ->).
      eexists. split; [exists h; split; [done|lia]|]. exists r, y. cbn. repeat split; lia.
Qed.

(** The other direction swaps the two sides. *)
Definition swap_copy (c : copy2d) : copy2d :=
  mkCopy2d (c_src c) (c_spitch c) (c_dst c) (c_dpitch c) (c_width c) (c_height c).

Lemma moves_swap c d s : moves (swap_copy c) d s <-> moves c s d.
Proof. unfold moves, swap_copy; cbn. split; intros (r & i & ? & ? & ? & ?); by exists r, i. Qed.

Lemma plane_from_host_swap p host data run j :
  plane_from_host p host data run j = (cs ← plane_to_host p host data run j; Ok (map swap_copy cs)).
Proof.
  unfold plane_from_host, plane_to_host. 
  destruct (vat (p_planes p) j) as [t|]; [|done]. destruct (vat (hl_planes host) j) as [hp|]; [|done]. cbn [mbind result_bind].
  destruct (vat (t_nb t) 2); [|done]. destruct (vat (t_nb t) 3); [|done]. destruct (vat (t_ne t) 3); [|done]. cbn [mbind result_bind].
  destruct (pool_order p); [done|]. cbn [mbind result_bind]. by rewrite map_map.
Qed.

Lemma rconcat_map {A B C} (f : A -> result (list B)) (g : A -> result (list C)) (h : B -> C) l :
  (forall x, g x = (ys ← f x; Ok (map h ys))) -> rconcat g l = (ys ← rconcat f l; Ok (map h ys)).
Proof.
  intros Hg. unfold rconcat. induction l as [|x l IH]; [done|]. cbn. rewrite Hg. destruct (f x) as [ys|]; [|done]. cbn.
  destruct (rmap f l) as [yss|], (rmap g l) as [zss|]; cbn in *; try done; try congruence.
  injection IH as IH. by rewrite map_app, IH.
Qed.

(** The union of what the elements' commands do. *)
Lemma rconcat_spec {A} (f : A -> result (list copy2d)) (R : A -> Z -> Z -> Prop) l :
  (forall x, x ∈ l -> exists cs, f x = Ok cs /\ Forall fits_pitch cs /\
     forall d s, (exists c, c ∈ cs /\ moves c d s) <-> R x d s) ->
  exists cs, rconcat f l = Ok cs /\ Forall fits_pitch cs /\
    forall d s, (exists c, c ∈ cs /\ moves c d s) <-> exists x, x ∈ l /\ R x d s.
Proof.
  induction l as [|x l IH]; intros Hf.
  { exists []. split; [done|]. split; [constructor|]. intros d s. split; intros (? & ?%not_elem_of_nil & _); done. }
  destruct (Hf x) as (cs & E & Hp & Hm); [left|]. destruct IH as (cs' & E' & Hp' & Hm').
  { intros y Hy. apply Hf. by right. }
  unfold rconcat in *. cbn. rewrite E. cbn. destruct (rmap f l) as [yss|]; cbn in *; [|done]. injection E' as <-.
  exists (cs ++ concat yss). split; [done|]. split; [by apply Forall_app|]. intros d s.
  setoid_rewrite elem_of_app. setoid_rewrite elem_of_cons. specialize (Hm d s). specialize (Hm' d s). naive_solver.
Qed.

(** ** Planes by index *)
Lemma planes_ok_lookup order pages hi gs ts lo i t :
  0 <= pages -> planes_ok order pages lo hi gs ts -> ts !! i = Some t ->
  exists g, gs !! i = Some g /\ plane_fits order pages g t /\ lo <= t_data t /\
    t_data t + page_bytes g * pages <= hi /\
    forall k t', (i < k)%nat -> ts !! k = Some t' -> t_data t + page_bytes g * pages <= t_data t'.
Proof.
  intros Hpages. revert gs lo i t. induction ts as [|t0 ts IH]; intros [|g gs] lo i t Hok Hi; cbn in Hok; try done.
  destruct Hok as (Hlo & Hf & Hhi & Hrest). destruct i as [|i]; cbn in Hi.
  - injection Hi as <-. exists g. repeat split; try done; [by destruct Hf..|]. intros [|k] t' Hk Ht'; [lia|]. cbn in Ht'.
    by destruct (IH _ _ _ _ Hrest Ht') as (_ & _ & _ & ? & _).
  - destruct (IH _ _ _ _ Hrest Hi) as (g' & Hg & Hf' & Hlo' & Hhi' & Hord). exists g'.
    assert (0 < page_bytes g) by (destruct Hf; by apply Z.mul_pos_pos).
    split; [done|]. split; [done|]. split; [nia|]. split; [done|]. intros [|k] t' Hk Ht'; [lia|]. apply (Hord k); [lia|done].
Qed.

Lemma host_planes_lookup tokens hi gs ps lo i g :
  host_planes_ok tokens lo hi gs ps -> gs !! i = Some g ->
  exists hp, ps !! i = Some hp /\ lo <= hp_offset hp /\ hp_offset hp + hp_page_payload_bytes hp <= hi /\
    hp_head_payload_bytes hp = pl_leading_extent g * tokens * dtype_size (pl_dtype g) /\
    hp_page_payload_bytes hp = hp_head_payload_bytes hp * pl_head_extent g /\
    forall k hp', (i < k)%nat -> ps !! k = Some hp' -> hp_offset hp + hp_page_payload_bytes hp <= hp_offset hp'.
Proof.
  revert gs lo i. induction ps as [|p ps IH]; intros [|g0 gs] lo i Hok Hi; try done.
  pose proof Hok as (? & ? & ? & ? & ? & Hrest). destruct i as [|i]; cbn in Hi.
  - injection Hi as <-. destruct (host_planes_bounds _ _ _ _ _ 0 p Hok eq_refl) as (? & ? & _).
    exists p. repeat split; try done. intros [|k] hp' Hk Hk'; [lia|]. cbn in Hk'.
    by apply (host_planes_bounds _ _ _ _ _ _ _ Hrest Hk').
  - destruct (IH _ _ _ Hrest Hi) as (hp & Hhp & ? & ? & ? & ? & Hord). exists hp.
    repeat split; try done; [lia|]. intros [|k] hp' Hk Hk'; [lia|]. apply (Hord k); [lia|done].
Qed.

(** * A transfer between a pool and page records

    [count] page records at address [data], apart from the storage of the pool. *)
Record transfer_ok (p : DeviceKVPagePool) (backing : DeviceSpan) (host : HostKVPageLayout) (data count : Z) : Prop := {
  tx_pages : 0 < capacity_pages p;
  tx_planes : planes_in backing (p_spec p) (p_planes p);
  tx_host : host_planes_ok kPagedKVPageSize 0 (hl_page_stride host) (g_planes (ps_geometry (p_spec p))) (hl_planes host);
  tx_apart : data + count * hl_page_stride host <= span_data backing \/ span_data backing + span_bytes backing <= data;
}.

(** Plane [j] of the pool: its geometry, its tensor and its place in a record. *)
Definition plane_at (p : DeviceKVPagePool) (host : HostKVPageLayout) (j : Z) (g : KVPlaneGeometry) (t : Tensor)
    (hp : HostKVPlaneLayout) : Prop :=
  (g_planes (ps_geometry (p_spec p))).[j] = Some g /\ (p_planes p).[j] = Some t /\ (hl_planes host).[j] = Some hp.

Definition pool_byte (p : DeviceKVPagePool) (g : KVPlaneGeometry) (t : Tensor) (index x : Z) : Z :=
  device_byte (pool_order p) (capacity_pages p) g t index x.

(** Host byte [h] belongs to device byte [d] when the [k]-th page record is
    that of the [k]-th page. *)
Definition transfers (p : DeviceKVPagePool) (host : HostKVPageLayout) (data : Z) (pages : list DeviceKVPageHandle) (h d : Z) : Prop :=
  exists k page j g t hp x, pages.[k] = Some page /\ plane_at p host j g t hp /\ 0 <= x < page_bytes g /\
    h = host_byte host hp data k x /\ d = pool_byte p g t (h_index page) x.

Lemma vget_lookup {A} (l : list A) i x : l.[i] = Some x <-> 0 <= i /\ l !! Z.to_nat i = Some x.
Proof.
  unfold vget. destruct (Z.leb_spec 0 i); [naive_solver|]. split; [done|]. intros [? _]. lia.
Qed.

Section Transfer.
Context (p : DeviceKVPagePool) (backing : DeviceSpan) (host : HostKVPageLayout) (data : Z) (pages : list DeviceKVPageHandle).
Hypothesis Hok : transfer_ok p backing host data (vsize pages).
Hypothesis Hvalid : Forall (fun h => 0 <= h_index h < capacity_pages p) pages.

Lemma pages_nonneg : 0 <= ps_page_group_count (p_spec p).
Proof. pose proof (tx_pages _ _ _ _ _ Hok). unfold capacity_pages in *. lia. Qed.

Lemma plane_at_total j : 0 <= j < vsize (p_planes p) -> exists g t hp, plane_at p host j g t hp.
Proof.
  intros Hj. destruct (vget_is_Some (p_planes p) j Hj) as [t Ht]. apply vget_lookup in Ht as Ht'. destruct Ht' as [Hj0 Ht'].
  unfold capacity_pages.
  destruct (planes_ok_lookup _ _ _ _ _ _ _ _ pages_nonneg (tx_planes _ _ _ _ _ Hok) Ht') as (g & Hg & _).
  destruct (host_planes_lookup _ _ _ _ _ _ _ (tx_host _ _ _ _ _ Hok) Hg) as (hp & Hhp & _).
  exists g, t, hp. unfold plane_at. rewrite !vget_lookup. done.
Qed.

(** What the two layouts guarantee of a plane. *)
Lemma plane_at_facts j g t hp :
  plane_at p host j g t hp ->
  plane_fits (pool_order p) (capacity_pages p) g t /\ host_plane_fits g hp /\
  span_data backing <= t_data t /\ t_data t + page_bytes g * capacity_pages p <= span_data backing + span_bytes backing /\
  0 <= hp_offset hp /\ hp_offset hp + page_bytes g <= hl_page_stride host.
Proof.
  intros (Hg & Ht & Hhp). apply vget_lookup in Hg as [_ Hg], Ht as [_ Ht], Hhp as [_ Hhp].
  unfold capacity_pages.
  destruct (planes_ok_lookup _ _ _ _ _ _ _ _ pages_nonneg (tx_planes _ _ _ _ _ Hok) Ht) as (g' & Hg' & Hf & ? & ? & _).
  destruct (host_planes_lookup _ _ _ _ _ _ _ (tx_host _ _ _ _ _ Hok) Hg) as (hp' & Hhp' & ? & ? & Hh & Hp & _).
  simplify_eq. fold (unit_bytes g) in Hh. rewrite Hh in Hp. fold (page_bytes g) in Hp.
  split; [done|]. split; [done|]. rewrite Hp in *. lia.
Qed.

Lemma planes_apart j j' g g' t t' hp hp' :
  plane_at p host j g t hp -> plane_at p host j' g' t' hp' -> j < j' ->
  t_data t + page_bytes g * capacity_pages p <= t_data t' /\ hp_offset hp + page_bytes g <= hp_offset hp'.
Proof.
  intros Hj Hj' Hlt. destruct (plane_at_facts _ _ _ _ Hj) as (_ & [_ Hp] & _).
  destruct Hj as (Hg & Ht & Hhp), Hj' as (_ & Ht' & Hhp').
  apply vget_lookup in Hg as [? Hg], Ht as [_ Ht], Hhp as [_ Hhp], Ht' as [_ Ht'], Hhp' as [? Hhp'].
  unfold capacity_pages.
  destruct (planes_ok_lookup _ _ _ _ _ _ _ _ pages_nonneg (tx_planes _ _ _ _ _ Hok) Ht) as (g0 & Hg0 & _ & _ & _ & Hord).
  destruct (host_planes_lookup _ _ _ _ _ _ _ (tx_host _ _ _ _ _ Hok) Hg) as (hp0 & Hhp0 & _ & _ & _ & _ & Hord').
  simplify_eq. split; [apply (Hord (Z.to_nat j') t'); [lia|done]|rewrite <- Hp; apply (Hord' (Z.to_nat j') hp'); [lia|done]].
Qed.

(** Both address maps are injective, and their ranges are apart. *)
Lemma host_byte_inj j j' g g' t t' hp hp' k k' x x' :
  plane_at p host j g t hp -> plane_at p host j' g' t' hp' -> 0 <= x < page_bytes g -> 0 <= x' < page_bytes g' ->
  host_byte host hp data k x = host_byte host hp' data k' x' -> k = k' /\ j = j' /\ x = x'.
Proof.
  intros Hj Hj' Hx Hx' He. destruct (plane_at_facts _ _ _ _ Hj) as (_ & _ & _ & _ & ? & ?), (plane_at_facts _ _ _ _ Hj') as (_ & _ & _ & _ & ? & ?).
  unfold host_byte in He. destruct (mixed_radix_inj (hl_page_stride host) (hp_offset hp + x) k (hp_offset hp' + x') k') as [Hx0 ->]; [lia..|].
  split; [done|]. destruct (Z.lt_trichotomy j j') as [Hl|[->|Hl]].
  - destruct (planes_apart _ _ _ _ _ _ _ _ Hj Hj' Hl). lia.
  - destruct Hj as (_ & _ & Hhp), Hj' as (_ & _ & Hhp'). simplify_eq. split; [done|lia].
  - destruct (planes_apart _ _ _ _ _ _ _ _ Hj' Hj Hl). lia.
Qed.

Lemma pool_byte_inj j j' g g' t t' hp hp' i i' x x' :
  plane_at p host j g t hp -> plane_at p host j' g' t' hp' -> 0 <= x < page_bytes g -> 0 <= x' < page_bytes g' ->
  0 <= i < capacity_pages p -> 0 <= i' < capacity_pages p ->
  pool_byte p g t i x = pool_byte p g' t' i' x' -> i = i' /\ j = j' /\ x = x'.
Proof.
  intros Hj Hj' Hx Hx' Hi Hi' He. destruct (plane_at_facts _ _ _ _ Hj) as (Hf & _), (plane_at_facts _ _ _ _ Hj') as (Hf' & _).
  pose proof (device_byte_bounds _ _ _ _ _ _ Hf Hi Hx). pose proof (device_byte_bounds _ _ _ _ _ _ Hf' Hi' Hx'). unfold pool_byte in *.
  destruct (Z.lt_trichotomy j j') as [Hl|[->|Hl]].
  - destruct (planes_apart _ _ _ _ _ _ _ _ Hj Hj' Hl). lia.
  - destruct Hj as (Hg & Ht & _), Hj' as (Hg' & Ht' & _). simplify_eq. destruct (device_byte_inj _ _ _ _ _ _ _ _ Hf Hi Hi' Hx Hx' He). done.
  - destruct (planes_apart _ _ _ _ _ _ _ _ Hj' Hj Hl). lia.
Qed.

Lemma transfers_range h d :
  transfers p host data pages h d ->
  data <= h < data + vsize pages * hl_page_stride host /\ span_data backing <= d < span_data backing + span_bytes backing.
Proof.
  intros (k & page & j & g & t & hp & x & Hk & Hj & Hx & -> & ->).
  destruct (plane_at_facts _ _ _ _ Hj) as (Hf & _ & ? & ? & ? & ?). pose proof (Forall_vget _ _ _ _ Hvalid Hk) as Hi. cbn in Hi.
  pose proof (device_byte_bounds _ _ _ _ _ _ Hf Hi Hx). apply vget_Some_bounds in Hk.
  unfold host_byte, pool_byte. split; [nia|lia].
Qed.

Lemma transfers_apart h d h' d' : transfers p host data pages h d -> transfers p host data pages h' d' -> h <> d'.
Proof.
  intros [? _]%transfers_range [_ ?]%transfers_range. destruct (tx_apart _ _ _ _ _ Hok); lia.
Qed.

(** The commands of a transfer to the host move exactly those bytes. *)
Definition to_host_commands : result (list copy2d) :=
  rconcat (fun run => rconcat (plane_to_host p host data run) (seqZ 0 (vsize (p_planes p)))) (page_runs pages).

Lemma to_host_commands_spec :
  exists cs, to_host_commands = Ok cs /\ Forall fits_pitch cs /\
    forall h d, (exists c, c ∈ cs /\ moves c h d) <-> transfers p host data pages h d.
Proof.
  set (R run j h d := exists g t hp r x, plane_at p host j g t hp /\ 0 <= r < pr_count run /\ 0 <= x < page_bytes g /\
         h = host_byte host hp data (pr_begin run + r) x /\ d = pool_byte p g t (pr_first run + r) x).
  destruct (rconcat_spec (fun run => rconcat (plane_to_host p host data run) (seqZ 0 (vsize (p_planes p))))
              (fun run h d => exists j, j ∈ seqZ 0 (vsize (p_planes p)) /\ R run j h d) (page_runs pages)) as (cs & E & Hp & Hm).
  { intros run _. apply rconcat_spec. intros j Hj%elem_of_seqZ.
    destruct (plane_at_total j) as (g & t & hp & Hat); [lia|]. destruct (plane_at_facts _ _ _ _ Hat) as (Hf & Hh & ? & ? & ? & ?).
    pose proof Hat as (Hg & Ht & Hhp).
    destruct (plane_to_host_moves p host data run j _ _ _ _ Hf Hh ltac:(lia) Ht Hhp) as (cs & E & Hp & Hm).
    exists cs. split; [done|]. split; [done|]. intros d s. rewrite Hm. split.
    - intros (r & x & ?). by exists g, t, hp, r, x.
    - intros (g' & t' & hp' & r & x & (Hg' & Ht' & Hhp') & ?). simplify_eq. by exists r, x. }
  exists cs. split; [done|]. split; [done|]. intros h d. rewrite Hm. split.
  - intros (run & Hrun & j & Hj & g & t & hp & r & x & Hat & Hr & Hx & -> & ->).
    destruct (proj1 (page_runs_spec pages (pr_begin run + r) (pr_first run + r))) as (page & Hk & Hi).
    { exists run. split; [done|]. by exists r. }
    exists (pr_begin run + r), page, j, g, t, hp, x. by rewrite Hi.
  - intros (k & page & j & g & t & hp & x & Hk & Hat & Hx & -> & ->).
    destruct (proj2 (page_runs_spec pages k (h_index page))) as (run & Hrun & r & Hr & -> & Hi); [by exists page|].
    exists run. split; [done|]. exists j. split.
    + destruct Hat as (_ & Ht & _). apply elem_of_seqZ. apply vget_Some_bounds in Ht. lia.
    + exists g, t, hp, r, x. by rewrite Hi.
Qed.

Lemma transfers_functional h d d' : transfers p host data pages h d -> transfers p host data pages h d' -> d = d'.
Proof.
  intros (k & page & j & g & t & hp & x & Hk & Hj & Hx & -> & ->) (k' & page' & j' & g' & t' & hp' & x' & Hk' & Hj' & Hx' & He & ->).
  destruct (host_byte_inj _ _ _ _ _ _ _ _ _ _ _ _ Hj Hj' Hx Hx' He) as (-> & -> & ->).
  destruct Hj as (? & ? & _), Hj' as (? & ? & _). by simplify_eq.
Qed.

(** Distinct pages receive their bytes from one record each. *)
Lemma transfers_injective h h' d :
  NoDup (map h_index pages) -> transfers p host data pages h d -> transfers p host data pages h' d -> h = h'.
Proof.
  intros Hnd (k & page & j & g & t & hp & x & Hk & Hj & Hx & -> & ->) (k' & page' & j' & g' & t' & hp' & x' & Hk' & Hj' & Hx' & -> & He).
  pose proof (Forall_vget _ _ _ _ Hvalid Hk) as Hi. pose proof (Forall_vget _ _ _ _ Hvalid Hk') as Hi'.
  destruct (pool_byte_inj _ _ _ _ _ _ _ _ _ _ _ _ Hj Hj' Hx Hx' Hi Hi' He) as (Hpage & -> & ->).
  destruct Hj as (_ & _ & ?), Hj' as (_ & _ & ?). simplify_eq.
  apply vget_lookup in Hk as [? Hk], Hk' as [? Hk'].
  assert (Z.to_nat k = Z.to_nat k') by (eapply (NoDup_lookup _ _ _ (h_index page) Hnd); rewrite lookup_map, ?Hk, ?Hk'; cbn; congruence).
  by replace k' with k by lia.
Qed.
End Transfer.

(** Commands that move the bytes of a relation between two areas perform it. *)
Lemma run_relation `{CopyEngine} (R : Z -> Z -> Prop) cs m :
  Forall fits_pitch cs -> (forall d s, (exists c, c ∈ cs /\ moves c d s) <-> R d s) ->
  (forall d s s', R d s -> R d s' -> s = s') -> (forall d s d' s', R d s -> R d' s' -> d <> s') ->
  (forall d s, R d s -> run_copies cs m d = m s) /\ (forall d, (forall s, ~ R d s) -> run_copies cs m d = m d).
Proof.
  intros Hp Hm Hf Hd.
  assert (HR : forall c d s, c ∈ cs -> moves c d s -> R d s) by (intros c d s ? ?; apply Hm; by exists c).
  destruct (run_copies_spec cs m) as [Hmove Hframe].
  - split; [|intros c c' d s s' ? ? ? ?; apply (Hf d); eauto|intros c c' d s d' s' ? ? ? ?; apply (Hd d s d' s'); eauto].
    apply Forall_forall. intros c Hc. rewrite Forall_forall in Hp. destruct (Hp c Hc).
    split; [done|]. split; [done|]. intros d s d' s' ? ?. apply (Hd d s d' s'); eauto.
  - split.
    + intros d s (c & Hc & Hmv)%Hm. by apply (Hmove c).
    + intros d Hno. apply Hframe. intros c s Hc Hmv. apply (Hno s). eauto.
Qed.

(** ** The two functions *)
Lemma physical_index_valid p h : valid_handle p h = true -> physical_index p h = Ok (h_index h).
Proof. intros H. unfold physical_index. by rewrite H. Qed.

Lemma valid_handles_in_range p pages :
  pool_wf p -> Forall (fun h => valid_handle p h = true) pages -> Forall (fun h => 0 <= h_index h < capacity_pages p) pages.
Proof. intros Hwf H. eapply Forall_impl; [exact H|]. intros h Hh. cbn in Hh. by apply (valid_handle_iff _ _ Hwf) in Hh as (_ & ? & _). Qed.

Lemma copy_to_host_unfold a v p host pages :
  transfer_layout a v (vsize pages) p = Ok host -> Forall (fun h => valid_handle p h = true) pages ->
  copy_to_host a pages v p = to_host_commands p host (v_data v) pages.
Proof.
  intros Hl Hv. unfold copy_to_host. rewrite Hl. cbn [mbind result_bind].
  assert (E : rfor (fun (_ : unit) page => _ ← physical_index p page; Ok tt) tt pages = Ok tt).
  { clear Hl. induction Hv as [|h pages Hh _ IH]; [done|]. cbn. rewrite (physical_index_valid _ _ Hh). cbn. apply IH. }
  by rewrite E.
Qed.

Lemma copy_from_host_unfold a v p host pages :
  pool_wf p -> transfer_layout a v (vsize pages) p = Ok host ->
  Forall (fun h => valid_handle p h = true) pages -> NoDup (map h_index pages) ->
  exists p', same_storage p p' /\
    copy_from_host a v pages p = (p', cs ← to_host_commands p host (v_data v) pages; Ok (map swap_copy cs)).
Proof.
  intros Hwf Hl Hv Hnd. destruct (validate_distinct_spec p pages Hwf) as (marks & stamp & res & E & _ & _ & Hr).
  rewrite (proj2 Hr) in E by done. exists (set_validation marks stamp p). split; [done|].
  unfold copy_from_host. rewrite (M_bind_run _ _ p p p) by done.
  rewrite (M_bind_run _ _ p p host) by (unfold mlift; by rewrite Hl).
  rewrite (M_bind_run _ _ _ _ _ E), (M_bind_run _ _ _ (set_validation marks stamp p) (set_validation marks stamp p)) by done.
  unfold mlift. f_equal. unfold to_host_commands. apply rconcat_map. intros run. apply rconcat_map. intros j.
  apply (plane_from_host_swap p).
Qed.

Section Run.
Context {engine : CopyEngine}.
Context (p : DeviceKVPagePool) (backing : DeviceSpan) (host : HostKVPageLayout) (data : Z) (pages : list DeviceKVPageHandle).
Hypothesis Hok : transfer_ok p backing host data (vsize pages).
Hypothesis Hvalid : Forall (fun h => 0 <= h_index h < capacity_pages p) pages.

Lemma to_host_runs cs m :
  to_host_commands p host data pages = Ok cs ->
  (forall h d, transfers p host data pages h d -> run_copies cs m h = m d) /\
  (forall h, (forall d, ~ transfers p host data pages h d) -> run_copies cs m h = m h).
Proof.
  intros E. destruct (to_host_commands_spec _ _ _ _ _ Hok) as (cs' & E' & Hp & Hm). rewrite E in E'. injection E' as <-.
  apply run_relation; [done|done|by eapply transfers_functional|by eapply transfers_apart].
Qed.

Lemma from_host_runs cs m :
  NoDup (map h_index pages) -> to_host_commands p host data pages = Ok cs ->
  (forall h d, transfers p host data pages h d -> run_copies (map swap_copy cs) m d = m h) /\
  (forall d, (forall h, ~ transfers p host data pages h d) -> run_copies (map swap_copy cs) m d = m d).
Proof.
  intros Hnd E. destruct (to_host_commands_spec _ _ _ _ _ Hok) as (cs' & E' & Hp & Hm). rewrite E in E'. injection E' as <-.
  destruct (run_relation (fun d h => transfers p host data pages h d) (map swap_copy cs) m) as [Hmove Hframe].
  - apply Forall_map. eapply Forall_impl; [exact Hp|]. unfold fits_pitch; cbn. tauto.
  - intros d h. rewrite <- Hm. setoid_rewrite list_elem_of_fmap. split.
    + intros (c & (c' & -> & Hc) & Hmv%moves_swap). by exists c'.
    + intros (c & Hc & Hmv). exists (swap_copy c). rewrite moves_swap. split; [by exists c|done].
  - intros d h h'. by eapply transfers_injective.
  - intros d h d' h' Ht Ht' ->. by eapply (transfers_apart p backing host data pages Hok Hvalid h' d' h h').
  - split; [intros h d; apply Hmove|exact Hframe].
Qed.
End Run.

(** * The host side *)

(** No operation of an arena moves its buffer or changes its layouts. *)
Lemma host_step_storage c c' :
  host_step c c' ->
  a_layouts (hc_arena c') = a_layouts (hc_arena c) /\ a_backing (hc_arena c') = a_backing (hc_arena c) /\
  a_capacity (hc_arena c') = a_capacity (hc_arena c).
Proof.
  destruct 1; cbn [hc_arena].
  - unfold allocate in *. repeat (case_match; simp_res; try done).
  - unfold allocation_release, release_descriptor in *. repeat (case_match; simplify_eq; try done).
  - unfold split_allocation in *. simp_res. destruct (take_descriptor a) as [i free]. by simp_res.
Qed.

Lemma check_layouts_planned previous layouts l :
  check_layouts previous layouts = Ok tt -> l ∈ layouts -> plan_host_kv_page_layout (hl_geometry l) = Ok l.
Proof.
  revert previous. induction layouts as [|l0 ls IH]; intros previous H Hl; [by apply not_elem_of_nil in Hl|]. cbn in H.
  simp_res. simp_bool. match goal with H : bool_decide _ = true |- _ => apply bool_decide_eq_true in H; subst end.
  apply elem_of_cons in Hl as [->|Hl]; [done|by eapply IH].
Qed.

Lemma host_client_storage this hb cap layouts c :
  host_client_of this hb cap layouts c ->
  (forall l, l ∈ a_layouts (hc_arena c) -> plan_host_kv_page_layout (hl_geometry l) = Ok l) /\
  a_capacity (hc_arena c) = cap /\ (cap <> 0 -> a_backing (hc_arena c) = hb).
Proof.
  intros (a0 & _ & _ & _ & Hm & Hr). induction Hr as [|c c' _ IH Hs].
  - unfold make_host_arena in Hm. apply bind_Ok in Hm as ([] & Hc & Hm). cbn [hc_arena].
    destruct (Z.eqb_spec cap 0); simp_res; cbn; (split; [|done]); intros l; by eapply check_layouts_planned.
  - destruct (host_step_storage _ _ Hs) as (-> & -> & ->). exact IH.
Qed.

(** A view of an allocation describes records inside the buffer. *)
Lemma arena_view_facts this hb cap layouts c al v :
  host_client_of this hb cap layouts c -> 0 < hb -> arena_view (hc_arena c) al = Ok v ->
  view_valid (hc_arena c) v = true /\ exists l, v_layout v = Some l /\ plan_host_kv_page_layout (hl_geometry l) = Ok l /\
    hb <= v_data v /\ v_data v + v_page_count v * hl_page_stride l <= hb + cap.
Proof.
  intros Hc Hhb Hv. pose proof (ho_wf _ (host_client_of_ok _ _ _ _ _ Hc)) as Hwf.
  destruct (host_client_storage _ _ _ _ _ Hc) as (Hplan & Hcap & Hback).
  unfold arena_view in Hv. simp_res. simp_bool. cbn [v_layout v_data v_page_count].
  match goal with H : host_valid_handle _ _ = true |- _ => pose proof H as Hh; apply host_valid_handle_iff in H as (Ho & d & Hd & Ha & _) end.
  split. { unfold view_valid. cbn. rewrite Hh, Ho, (proj2 (Z.eqb_neq _ 0)); [done|]. pose proof (aw_this _ Hwf). lia. }
  assert (allocation_valid al = true) as Hal.
  { unfold allocation_handle in Ho. destruct (allocation_valid al); [done|]. cbn in Ho. pose proof (aw_this _ Hwf). lia. }
  unfold allocation_handle in Hd. rewrite Hal in Hd. cbn [hh_descriptor] in Hd. simplify_eq.
  destruct (aw_desc _ Hwf _ _ Hd) as [_ Hdesc]. destruct (Hdesc Ha) as (? & ? & ? & l & Hl & Hbytes).
  eexists. split; [done|]. simplify_eq. split; [apply Hplan; by eapply vget_elem|].
  match goal with H : (a_layouts _).[_] = Some _ |- _ => pose proof (stride_bounds _ _ Hwf (vget_elem _ _ _ H)) end.
  unfold allocation_data. rewrite Hback by nia. rewrite (proj2 (Z.eqb_neq _ 0)) by lia. nia.
Qed.

(** * Property *)
Lemma pool_byte_storage p p' g t index x : same_storage p p' -> pool_byte p g t index x = pool_byte p' g t index x.
Proof. intros [_ Hsp]. unfold pool_byte, pool_order, capacity_pages. by rewrite Hsp. Qed.

(** The byte of a record that belongs to a byte of a page, for every plane of the pool. *)
Lemma transfers_intro p backing host data pages k page j g t x :
  transfer_ok p backing host data (vsize pages) -> pages.[k] = Some page ->
  (g_planes (ps_geometry (p_spec p))).[j] = Some g -> (p_planes p).[j] = Some t -> 0 <= x < page_bytes g ->
  exists hp, (hl_planes host).[j] = Some hp /\ transfers p host data pages (host_byte host hp data k x) (pool_byte p g t (h_index page) x).
Proof.
  intros Hok Hk Hg Ht Hx. destruct (plane_at_total p backing host data pages Hok j) as (g' & t' & hp & Hat).
  { by eapply vget_Some_bounds. }
  destruct Hat as (_ & _ & Hhp). exists hp. split; [done|]. exists k, page, j, g, t, hp, x.
  split; [done|]. by split.
Qed.

(** The page records of a view, as seen from a pool that uses the layout's geometry. *)
Lemma view_transfer_ok this spec b backing p0 c hthis hb cap layouts hc al v l :
  planned_pool this spec b backing p0 -> client_reachable p0 c ->
  host_client_of hthis hb cap layouts hc -> 0 < hb -> arena_view (hc_arena hc) al = Ok v ->
  v_layout v = Some l -> hl_geometry l = ps_geometry spec ->
  hb + cap <= span_data backing \/ span_data backing + span_bytes backing <= hb ->
  client_ok c /\ transfer_ok (c_pool c) backing l (v_data v) (v_page_count v) /\
  forall n, n = v_page_count v -> transfer_layout (hc_arena hc) v n (c_pool c) = Ok l.
Proof.
  intros Hp Hc Hhc Hhb Hv Hl Hg Hapart. destruct (client_planes _ _ _ _ _ _ Hp Hc) as (Hck & Hspec & Hpl).
  destruct (arena_view_facts _ _ _ _ _ _ _ Hhc Hhb Hv) as (Hval & l' & Hl' & Hplan & Hlo & Hhi). simplify_eq.
  destruct Hp as (_ & _ & _ & _ & b' & lay & Hlay & _). unfold plan_device_kv_page_pool, validate_geometry in Hlay. simp_M. simp_bool.
  rewrite Hg in Hplan.
  destruct (plan_layout_stride (ps_geometry (p_spec (c_pool c))) l) as (_ & _ & _ & Hhost); [unfold kPagedKVPageSize in *; lia|done|].
  split; [done|]. split.
  - split; [apply (wf_cap _ (ck_wf _ Hck))|done| |lia].
    by match goal with H : g_page_tokens _ = kPagedKVPageSize |- _ => rewrite <- H end.
  - intros n ->. unfold transfer_layout, view_layout. rewrite Hval, Z.eqb_refl, Hl. cbn.
    by rewrite bool_decide_eq_true_2.
Qed.

(** C34. Copying pages to a host allocation and back restores them. Take a
    planned pool and a constructed arena that occupy separate memory, any two
    moments of the pool's life and any two of the arena's at which the
    allocation has the same view. [copy_to_host] of live pages succeeds and
    writes nothing outside the allocation's records. If the records are then
    left alone, [copy_from_host] into as many live, pairwise distinct pages
    succeeds, and afterwards byte [x] of every plane of the [k]-th destination
    page is what it was in the [k]-th source page; every byte that belongs to
    no destination page is unchanged. Both plane orders, and any way the page
    numbers fall into runs, are covered. *)
Theorem host_roundtrip_restores_pages `{CopyEngine} this spec b backing p0 c1 c2 hthis hb cap layouts hc1 hc2 al v l source destination m :
  planned_pool this spec b backing p0 -> client_reachable p0 c1 -> client_reachable p0 c2 ->
  host_client_of hthis hb cap layouts hc1 -> host_client_of hthis hb cap layouts hc2 -> 0 < hb ->
  hb + cap <= span_data backing \/ span_data backing + span_bytes backing <= hb ->
  arena_view (hc_arena hc1) al = Ok v -> arena_view (hc_arena hc2) al = Ok v ->
  v_layout v = Some l -> hl_geometry l = ps_geometry spec ->
  vsize source = v_page_count v -> vsize destination = v_page_count v ->
  Forall (fun h => valid_handle (c_pool c1) h = true) source ->
  Forall (fun h => valid_handle (c_pool c2) h = true) destination -> NoDup (map h_index destination) ->
  exists out back p2, copy_to_host (hc_arena hc1) source v (c_pool c1) = Ok out /\
    copy_from_host (hc_arena hc2) v destination (c_pool c2) = (p2, Ok back) /\
    let records h := v_data v <= h < v_data v + v_page_count v * hl_page_stride l in
    (forall h, ~ records h -> run_copies out m h = m h) /\
    forall m2, (forall h, records h -> m2 h = run_copies out m h) ->
      (forall k hs hd j g t x, source.[k] = Some hs -> destination.[k] = Some hd ->
         (g_planes (ps_geometry spec)).[j] = Some g -> (p_planes p0).[j] = Some t -> 0 <= x < page_bytes g ->
         run_copies back m2 (pool_byte p0 g t (h_index hd) x) = m (pool_byte p0 g t (h_index hs) x)) /\
      (forall d, (forall k hd j g t x, destination.[k] = Some hd -> (g_planes (ps_geometry spec)).[j] = Some g ->
                    (p_planes p0).[j] = Some t -> 0 <= x < page_bytes g -> d <> pool_byte p0 g t (h_index hd) x) ->
         run_copies back m2 d = m2 d).
Proof.
  intros Hp Hc1 Hc2 Hh1 Hh2 Hhb Hap Hv1 Hv2 Hl Hg Hn1 Hn2 Hs Hd Hnd.
  destruct (view_transfer_ok _ _ _ _ _ _ _ _ _ _ _ _ _ _ Hp Hc1 Hh1 Hhb Hv1 Hl Hg Hap) as (Hk1 & Hok1 & Ht1).
  destruct (view_transfer_ok _ _ _ _ _ _ _ _ _ _ _ _ _ _ Hp Hc2 Hh2 Hhb Hv2 Hl Hg Hap) as (Hk2 & Hok2 & Ht2).
  destruct (planned_pool_planes _ _ _ _ _ Hp) as (Hwf0 & <- & Ha0 & Hr0 & _).
  pose proof (reachable_storage _ _ Hwf0 Ha0 Hr0 Hc1) as Hst1. pose proof (reachable_storage _ _ Hwf0 Ha0 Hr0 Hc2) as Hst2.
  rewrite <- Hn1 in Hok1. rewrite <- Hn2 in Hok2.
  pose proof (valid_handles_in_range _ _ (ck_wf _ Hk1) Hs) as Hr1. pose proof (valid_handles_in_range _ _ (ck_wf _ Hk2) Hd) as Hr2.
  rewrite (copy_to_host_unfold _ _ _ _ _ (Ht1 _ Hn1) Hs).
  destruct (copy_from_host_unfold _ _ _ _ _ (ck_wf _ Hk2) (Ht2 _ Hn2) Hd Hnd) as (p2 & _ & ->).
  destruct (to_host_commands_spec _ _ _ _ _ Hok1) as (out & Eout & _), (to_host_commands_spec _ _ _ _ _ Hok2) as (cs & Ecs & _).
  destruct (to_host_runs _ _ _ _ _ Hok1 Hr1 out m Eout) as [Hout Houtf].
  exists out, (map swap_copy cs), p2. rewrite Ecs. split; [done|]. split; [done|]. split.
  { intros h Hno. apply Houtf. intros d Ht%(transfers_range _ _ _ _ _ Hok1 Hr1). apply Hno. rewrite <- Hn1. apply Ht. }
  intros m2 Hm2. destruct (from_host_runs _ _ _ _ _ Hok2 Hr2 cs m2 Hnd Ecs) as [Hback Hbackf]. split.
  - intros k hs hd j g t x Hks Hkd Hg' Ht Hx. pose proof Hst1 as [Epl1 Esp1]. pose proof Hst2 as [Epl2 Esp2].
    destruct (transfers_intro _ _ _ _ _ k hs j g t x Hok1 Hks) as (hp & Hhp & Htr1); [congruence|congruence|done|].
    destruct (transfers_intro _ _ _ _ _ k hd j g t x Hok2 Hkd) as (hp' & Hhp' & Htr2); [congruence|congruence|done|].
    rewrite (pool_byte_storage _ _ _ _ (h_index hd) _ Hst2), (pool_byte_storage _ _ _ _ (h_index hs) _ Hst1).
    rewrite (Hback _ _ Htr2), <- (Hout _ _ Htr1). simplify_eq. apply Hm2.
    rewrite <- Hn1. by apply (transfers_range _ _ _ _ _ Hok1 Hr1) in Htr1 as [? _].
  - intros d Hno. apply Hbackf. intros h (k & page & j & g & t & hp & x & Hk & (Hg' & Ht & _) & Hx & _ & ->).
    pose proof Hst2 as [Epl2 Esp2]. rewrite Epl2, Esp2 in *.
    apply (Hno k page j g t x Hk Hg' Ht Hx). symmetry. by apply pool_byte_storage.
Qed.

(** Two pages of two head-major planes trade places through the host. *)
Definition swap_geometry : KVPageGeometry := mkGeometry 64 HeadMajor [mkPlane BF16 2 2 256; mkPlane BF16 1 3 256].
Definition swap_spec : DeviceKVPagePoolSpec := mkPoolSpec 4 swap_geometry.
Definition swap_backing : DeviceSpan := mkSpan 4096 65536.

Definition swap_pool : DeviceKVPagePool :=
  match plan_device_kv_page_pool swap_spec empty_builder with
  | (_, Ok layout) =>
      match make_pool 1 swap_backing layout with
      | Ok p => p
      | Err _ => mkPool 0 swap_spec [] [] [] [] [] 0 0 0
      end
  | _ => mkPool 0 swap_spec [] [] [] [] [] 0 0 0
  end.

Definition swap_client : client :=
  match reserve swap_pool 2 with
  | (p1, Some r) =>
      match materialize p1 r 2 [] 4 None with
      | Ok (p2, r2, v) => mkClient p2 [r2] [v]
      | Err _ => mkClient p1 [r] []
      end
  | (p1, None) => mkClient p1 [] []
  end.

Definition swap_host_layout : HostKVPageLayout :=
  mkHostLayout swap_geometry [mkHostPlane 0 512 256; mkHostPlane 512 384 128] 1024.

Definition swap_host_client : host_client :=
  match make_host_arena 9 1048576 4096 [swap_host_layout] with
  | Ok a => match allocate a swap_host_layout 2 with
            | Ok (a', Some al) => mkHostClient a' [al]
            | _ => mkHostClient a []
            end
  | Err _ => mkHostClient (mkHostArena 0 0 0 0 [] [] [] [] 0) []
  end.

Definition swap_view : HostKVAllocationView := mkView (mkHostHandle 9 0 1) 1048576 (Some swap_host_layout) 2.

Lemma swap_planned : planned_pool 1 swap_spec empty_builder swap_backing swap_pool.
Proof.
  split; [lia|]. split; [split; vm_compute; discriminate|]. split; [split; vm_compute; discriminate|].
  split; [cbn [g_planes ps_geometry swap_spec swap_geometry]; simp_forall; split; vm_compute; discriminate|].
  unfold swap_pool. destruct (plan_device_kv_page_pool swap_spec empty_builder) as [b' [layout|]] eqn:E; [|vm_compute in E; discriminate].
  exists b', layout. split; [done|]. vm_compute in E. injection E as <- <-. vm_compute. reflexivity.
Qed.

Lemma swap_client_reachable : client_reachable swap_pool swap_client.
Proof.
  eapply reach_step; [eapply reach_step; [eapply reach_step; [apply reach_init|]|]|].
  - eapply (step_reserve _ _ _ 2); [split; vm_compute; discriminate|vm_compute; reflexivity].
  - apply step_vector.
  - replace swap_client with
      (mkClient (c_pool swap_client) (<[0%nat := mkReservation 1 0]> [mkReservation 1 2])
         (<[0%nat := [mkLease 1 0 1; mkLease 1 1 1]]> [[]])) by (vm_compute; reflexivity).
    eapply (step_materialize _ _ 0 _ _ 0 _ 2 4 None); [split; vm_compute; discriminate|vm_compute; reflexivity..].
Qed.

Lemma swap_host_client_of : host_client_of 9 1048576 4096 [swap_host_layout] swap_host_client.
Proof.
  destruct (make_host_arena 9 1048576 4096 [swap_host_layout]) as [a|] eqn:E; [|vm_compute in E; discriminate].
  exists a. split; [lia|]. split; [unfold SIZE_MAX, U64_MAX; lia|].
  split; [apply Forall_singleton; cbn; lia|]. split; [done|]. eapply hr_step; [apply hr_init|].
  unfold swap_host_client. rewrite E. vm_compute in E. injection E as <-.
  eapply (hs_allocate _ [] swap_host_layout 2); [split; vm_compute; discriminate|vm_compute; reflexivity].
Qed.

Lemma host_roundtrip_restores_pages_witness :
  exists out back p2 g t,
    copy_to_host (hc_arena swap_host_client) [mkHandle 1 0 1; mkHandle 1 1 1] swap_view (c_pool swap_client) = Ok out /\
    copy_from_host (hc_arena swap_host_client) swap_view [mkHandle 1 1 1; mkHandle 1 0 1] (c_pool swap_client) = (p2, Ok back) /\
    (p_planes swap_pool).[1] = Some t /\ page_bytes g = 384 /\
    forall m x, 0 <= x < 384 ->
      run_copies back (run_copies out m) (pool_byte swap_pool g t 1 x) = m (pool_byte swap_pool g t 0 x) /\
      run_copies back (run_copies out m) (pool_byte swap_pool g t 0 x) = m (pool_byte swap_pool g t 1 x).
Proof.
  assert (H : forall m, _) by
    (intros m; apply (host_roundtrip_restores_pages 1 swap_spec empty_builder swap_backing swap_pool swap_client swap_client
      9 1048576 4096 [swap_host_layout] swap_host_client swap_host_client (mkAllocation 9 0 1) swap_view swap_host_layout
      [mkHandle 1 0 1; mkHandle 1 1 1] [mkHandle 1 1 1; mkHandle 1 0 1] m);
     [apply swap_planned|apply swap_client_reachable|apply swap_client_reachable|apply swap_host_client_of|apply swap_host_client_of
     |lia|right; vm_compute; discriminate|vm_compute; reflexivity|vm_compute; reflexivity|reflexivity|reflexivity|reflexivity|reflexivity
     |simp_forall; vm_compute; reflexivity|simp_forall; vm_compute; reflexivity
     |apply NoDup_cons_2; [set_solver|apply NoDup_singleton]]).
  destruct (copy_to_host (hc_arena swap_host_client) [mkHandle 1 0 1; mkHandle 1 1 1] swap_view (c_pool swap_client)) as [out|] eqn:Eo;
    [|destruct (H (fun a => a)) as (? & ? & ? & ? & _); discriminate].
  destruct (copy_from_host (hc_arena swap_host_client) swap_view [mkHandle 1 1 1; mkHandle 1 0 1] (c_pool swap_client)) as [p2 [back|]] eqn:Eb;
    [|destruct (H (fun a => a)) as (? & ? & ? & _ & ? & _); discriminate].
  destruct ((p_planes swap_pool).[1]) as [t|] eqn:Et; [|vm_compute in Et; discriminate].
  exists out, back, p2, (mkPlane BF16 1 3 256), t. split; [done|]. split; [done|]. split; [done|]. split; [done|].
  intros m x Hx. destruct (H m) as (out' & back' & p2' & Eo' & Eb' & _ & Hrest). injection Eo' as <-. injection Eb' as <- <-.
  destruct (Hrest (run_copies out m)) as [Hback _]; [done|].
  split; [apply (Hback 0 (mkHandle 1 0 1) (mkHandle 1 1 1) 1)|apply (Hback 1 (mkHandle 1 1 1) (mkHandle 1 0 1) 1)]; done.
Defined.
