(* ===== verification/LogicalKv.v ===== *)
(** The logical KV page store (src/src/runtime/logical_kv_store.h,
    [LogicalKVPageStore]): descriptors of logical pages with their reference
    counts, coverage and content epochs, each with a replica in the device
    page pool, one in a host extent, or both. The pool of [PagedKv] and the
    reservations of the callers are part of the state, because the store's
    calls move pages between them. *)

From S2P Require Import Prelude Tensor Layout PagedKv.

(** * Handles and replicas *)
Record HostKVExtentCapability : Type := mkCapability {
  hx_owner : Z;
  hx_index : Z;
  hx_generation : Z;
}.

Definition capability_valid (c : HostKVExtentCapability) : bool := negb (hx_owner c =? 0).

#[global] Instance HostKVExtentCapability_eq_dec : EqDecision HostKVExtentCapability.
Proof. solve_decision. Defined.

Record HostKVPageReplica : Type := mkHostReplica {
  hr_extent : HostKVExtentCapability;
  hr_page_offset : Z;
  hr_membership_node : Z;
  hr_content_epoch : Z;
  hr_committed_columns : Z;
}.

Record LogicalKVPageHandle : Type := mkLogicalHandle {
  lh_owner : Z;
  lh_index : Z;
  lh_generation : Z;
}.

Definition null_logical_handle : LogicalKVPageHandle := mkLogicalHandle 0 0 0.

Definition logical_handle_valid (h : LogicalKVPageHandle) : bool := negb (lh_owner h =? 0).

(** * Descriptors *)
Record Page : Type := mkPage {
  pg_generation : Z;
  pg_content_epoch : Z;
  pg_committed_columns : Z;
  pg_references : Z;
  pg_active_references : Z;
  pg_protected_columns : Z;
  pg_source_pins : Z;
  pg_writer_references : Z;
  pg_destination_pinned : bool;
  pg_occupied : bool;
  pg_device_replica : option DeviceKVPageLease;
  pg_pending_device_replica : option DeviceKVPageLease;
  pg_host_replica : option HostKVPageReplica;
}.

Definition default_page : Page := mkPage 1 0 0 0 0 0 0 0 false false None None None.

Definition set_generation (v : Z) (pg : Page) : Page :=
  mkPage v (pg_content_epoch pg) (pg_committed_columns pg) (pg_references pg) (pg_active_references
    pg) (pg_protected_columns pg) (pg_source_pins pg) (pg_writer_references pg)
    (pg_destination_pinned pg) (pg_occupied pg) (pg_device_replica pg) (pg_pending_device_replica
    pg) (pg_host_replica pg).

Definition set_content_epoch (v : Z) (pg : Page) : Page :=
  mkPage (pg_generation pg) v (pg_committed_columns pg) (pg_references pg) (pg_active_references pg)
    (pg_protected_columns pg) (pg_source_pins pg) (pg_writer_references pg) (pg_destination_pinned
    pg) (pg_occupied pg) (pg_device_replica pg) (pg_pending_device_replica pg) (pg_host_replica pg).

Definition set_committed_columns (v : Z) (pg : Page) : Page :=
  mkPage (pg_generation pg) (pg_content_epoch pg) v (pg_references pg) (pg_active_references pg)
    (pg_protected_columns pg) (pg_source_pins pg) (pg_writer_references pg) (pg_destination_pinned
    pg) (pg_occupied pg) (pg_device_replica pg) (pg_pending_device_replica pg) (pg_host_replica pg).

Definition set_references (v : Z) (pg : Page) : Page :=
  mkPage (pg_generation pg) (pg_content_epoch pg) (pg_committed_columns pg) v (pg_active_references
    pg) (pg_protected_columns pg) (pg_source_pins pg) (pg_writer_references pg)
    (pg_destination_pinned pg) (pg_occupied pg) (pg_device_replica pg) (pg_pending_device_replica
    pg) (pg_host_replica pg).

Definition set_active_references (v : Z) (pg : Page) : Page :=
  mkPage (pg_generation pg) (pg_content_epoch pg) (pg_committed_columns pg) (pg_references pg) v
    (pg_protected_columns pg) (pg_source_pins pg) (pg_writer_references pg) (pg_destination_pinned
    pg) (pg_occupied pg) (pg_device_replica pg) (pg_pending_device_replica pg) (pg_host_replica pg).

Definition set_protected_columns (v : Z) (pg : Page) : Page :=
  mkPage (pg_generation pg) (pg_content_epoch pg) (pg_committed_columns pg) (pg_references pg)
    (pg_active_references pg) v (pg_source_pins pg) (pg_writer_references pg) (pg_destination_pinned
    pg) (pg_occupied pg) (pg_device_replica pg) (pg_pending_device_replica pg) (pg_host_replica pg).

Definition set_source_pins (v : Z) (pg : Page) : Page :=
  mkPage (pg_generation pg) (pg_content_epoch pg) (pg_committed_columns pg) (pg_references pg)
    (pg_active_references pg) (pg_protected_columns pg) v (pg_writer_references pg)
    (pg_destination_pinned pg) (pg_occupied pg) (pg_device_replica pg) (pg_pending_device_replica
    pg) (pg_host_replica pg).

Definition set_writer_references (v : Z) (pg : Page) : Page :=
  mkPage (pg_generation pg) (pg_content_epoch pg) (pg_committed_columns pg) (pg_references pg)
    (pg_active_references pg) (pg_protected_columns pg) (pg_source_pins pg) v (pg_destination_pinned
    pg) (pg_occupied pg) (pg_device_replica pg) (pg_pending_device_replica pg) (pg_host_replica pg).

Definition set_destination_pinned (v : bool) (pg : Page) : Page :=
  mkPage (pg_generation pg) (pg_content_epoch pg) (pg_committed_columns pg) (pg_references pg)
    (pg_active_references pg) (pg_protected_columns pg) (pg_source_pins pg) (pg_writer_references
    pg) v (pg_occupied pg) (pg_device_replica pg) (pg_pending_device_replica pg) (pg_host_replica
    pg).

Definition set_occupied (v : bool) (pg : Page) : Page :=
  mkPage (pg_generation pg) (pg_content_epoch pg) (pg_committed_columns pg) (pg_references pg)
    (pg_active_references pg) (pg_protected_columns pg) (pg_source_pins pg) (pg_writer_references
    pg) (pg_destination_pinned pg) v (pg_device_replica pg) (pg_pending_device_replica pg)
    (pg_host_replica pg).

Definition set_device_replica (v : option DeviceKVPageLease) (pg : Page) : Page :=
  mkPage (pg_generation pg) (pg_content_epoch pg) (pg_committed_columns pg) (pg_references pg)
    (pg_active_references pg) (pg_protected_columns pg) (pg_source_pins pg) (pg_writer_references
    pg) (pg_destination_pinned pg) (pg_occupied pg) v (pg_pending_device_replica pg)
    (pg_host_replica pg).

Definition set_pending_device_replica (v : option DeviceKVPageLease) (pg : Page) : Page :=
  mkPage (pg_generation pg) (pg_content_epoch pg) (pg_committed_columns pg) (pg_references pg)
    (pg_active_references pg) (pg_protected_columns pg) (pg_source_pins pg) (pg_writer_references
    pg) (pg_destination_pinned pg) (pg_occupied pg) (pg_device_replica pg) v (pg_host_replica pg).

Definition set_host_replica (v : option HostKVPageReplica) (pg : Page) : Page :=
  mkPage (pg_generation pg) (pg_content_epoch pg) (pg_committed_columns pg) (pg_references pg)
    (pg_active_references pg) (pg_protected_columns pg) (pg_source_pins pg) (pg_writer_references
    pg) (pg_destination_pinned pg) (pg_occupied pg) (pg_device_replica pg)
    (pg_pending_device_replica pg) v.

(** [if (++generation == 0) { ++generation; }] and the same of an epoch. *)
Definition next_epoch (epoch : Z) : Z :=
  let e := wrap64 (epoch + 1) in
  if e =? 0 then 1 else e.

(** * The store *)
Record LogicalKVPageStore : Type := mkStore {
  ls_this : Z;
  ls_pages : list Page;
  ls_free : list Z;
  ls_free_count : Z;
  (** the capacity reserved for [materialization_scratch_] *)
  ls_scratch : Z;
}.

(** The store, the pool it refers to, and the reservations of its callers. *)
Record kv : Type := mkKv {
  kv_pool : DeviceKVPagePool;
  kv_reservations : list DeviceKVPageReservation;
  kv_store : LogicalKVPageStore;
}.

Definition set_pages (pages : list Page) (s : kv) : kv :=
  mkKv (kv_pool s) (kv_reservations s)
    (mkStore (ls_this (kv_store s)) pages (ls_free (kv_store s)) (ls_free_count (kv_store s)) (ls_scratch (kv_store s))).

Definition set_free (free : list Z) (count : Z) (s : kv) : kv :=
  mkKv (kv_pool s) (kv_reservations s)
    (mkStore (ls_this (kv_store s)) (ls_pages (kv_store s)) free count (ls_scratch (kv_store s))).

Definition set_pool (p : DeviceKVPagePool) (s : kv) : kv := mkKv p (kv_reservations s) (kv_store s).

(** The constructor. *)
Definition make_store (this : Z) (physical : DeviceKVPagePool) (logical_capacity : Z) : result LogicalKVPageStore :=
  _ ← throw_if ((logical_capacity =? 0) || (logical_capacity <? capacity_pages physical)) InvalidArgument;
  Ok (mkStore this (replicate (Z.to_nat logical_capacity) default_page)
        (map (fun index => logical_capacity - 1 - index) (seqZ 0 logical_capacity)) logical_capacity
        (capacity_pages physical)).

Definition store_capacity (st : LogicalKVPageStore) : Z := vsize (ls_pages st).
Definition store_occupied (st : LogicalKVPageStore) : Z := store_capacity st - ls_free_count st.

(** [valid] *)
Definition page_valid (st : LogicalKVPageStore) (h : LogicalKVPageHandle) : bool :=
  (lh_owner h =? ls_this st) &&
  match (ls_pages st).[lh_index h] with
  | Some page => pg_occupied page && (pg_generation page =? lh_generation h)
  | None => false
  end.

(** The shape of the guards: [if (!valid(handle)) { return false; }] and then
    a test of the descriptor. *)
Definition page_test (st : LogicalKVPageStore) (h : LogicalKVPageHandle) (test : Page -> bool) : bool :=
  if negb (page_valid st h) then false
  else match (ls_pages st).[lh_index h] with
       | Some page => test page
       | None => false
       end.

Definition has {A} (o : option A) : bool := match o with Some _ => true | None => false end.

(** The replica holds the page's current content. *)
Definition replica_current (page : Page) (r : HostKVPageReplica) : bool :=
  (hr_content_epoch r =? pg_content_epoch page) && (hr_committed_columns r =? pg_committed_columns page).

Definition host_current (page : Page) : bool :=
  match pg_host_replica page with
  | Some r => replica_current page r
  | None => false
  end.

(** * Guards *)
Definition can_pin_source (st : LogicalKVPageStore) (h : LogicalKVPageHandle) : bool :=
  page_test st h (fun page =>
    has (pg_device_replica page) && (pg_writer_references page =? 0) && negb (pg_destination_pinned page) &&
    negb (pg_source_pins page =? U32_MAX)).

Definition can_pin_active_source (st : LogicalKVPageStore) (h : LogicalKVPageHandle) : bool :=
  page_test st h (fun page =>
    has (pg_device_replica page) && (pg_writer_references page =? 1) && (pg_references page =? 1) &&
    negb (pg_destination_pinned page) && negb (pg_source_pins page =? U32_MAX)).

Definition host_replica_current (st : LogicalKVPageStore) (h : LogicalKVPageHandle) : bool :=
  page_test st h host_current.

Definition can_drop_device_replica (st : LogicalKVPageStore) (h : LogicalKVPageHandle) : bool :=
  page_test st h (fun page =>
    has (pg_device_replica page) && host_replica_current st h && negb (has (pg_pending_device_replica page)) &&
    (pg_writer_references page =? 0) && (pg_active_references page =? 0) && (pg_source_pins page =? 0) &&
    negb (pg_destination_pinned page)).

Definition can_retain_reference (st : LogicalKVPageStore) (h : LogicalKVPageHandle) (writer : bool) : bool :=
  page_test st h (fun page =>
    negb (pg_references page =? U32_MAX) &&
    (negb writer || ((pg_writer_references page =? 0) && (pg_references page =? 0))) &&
    negb (pg_destination_pinned page)).

Definition can_set_writer (st : LogicalKVPageStore) (h : LogicalKVPageHandle) (writer : bool) : bool :=
  page_test st h (fun page =>
    if writer then (pg_writer_references page =? 0) && (pg_references page =? 1) && (pg_source_pins page =? 0) &&
                   has (pg_device_replica page)
    else pg_writer_references page =? 1).

Definition can_destructive_truncate (st : LogicalKVPageStore) (h : LogicalKVPageHandle) (columns : Z) : bool :=
  page_test st h (fun page =>
    (columns <=? pg_committed_columns page) && (pg_protected_columns page <=? columns) &&
    (pg_references page =? 1) && (pg_writer_references page =? 1) && (pg_source_pins page =? 0) &&
    negb (pg_destination_pinned page) && negb (has (pg_host_replica page)) && has (pg_device_replica page)).

Definition can_destructive_truncate_inactive (st : LogicalKVPageStore) (h : LogicalKVPageHandle) (columns : Z) : bool :=
  page_test st h (fun page =>
    (columns <=? pg_committed_columns page) && (pg_references page =? 1) && (pg_writer_references page =? 0) &&
    (pg_source_pins page =? 0) && negb (pg_destination_pinned page) && negb (has (pg_host_replica page)) &&
    has (pg_device_replica page)).

Definition can_destructive_truncate_inactive_after_host_release (st : LogicalKVPageStore) (h : LogicalKVPageHandle)
    (columns : Z) : bool :=
  page_test st h (fun page =>
    (columns <=? pg_committed_columns page) && (pg_references page =? 1) && (pg_writer_references page =? 0) &&
    (pg_source_pins page =? 0) && negb (pg_destination_pinned page) && has (pg_device_replica page)).

Definition can_dematerialize (st : LogicalKVPageStore) (h : LogicalKVPageHandle) : bool :=
  page_test st h (fun page =>
    (pg_references page =? 1) && (pg_writer_references page =? 1) && (pg_source_pins page =? 0) &&
    negb (pg_destination_pinned page) && negb (has (pg_host_replica page)) && has (pg_device_replica page)).

Definition can_release_reference (st : LogicalKVPageStore) (h : LogicalKVPageHandle) (writer : bool) : bool :=
  page_test st h (fun page =>
    negb ((pg_references page =? 0) || (writer && negb (pg_writer_references page =? 1)) ||
          (pg_references page <=? pg_active_references page) || negb (pg_source_pins page =? 0) ||
          pg_destination_pinned page)).

Definition can_release_reference_after_active_reference (st : LogicalKVPageStore) (h : LogicalKVPageHandle) : bool :=
  page_test st h (fun page =>
    negb (pg_references page =? 0) && negb (pg_active_references page =? 0) &&
    (pg_active_references page <=? pg_references page) && (pg_writer_references page <=? 1) &&
    (pg_source_pins page =? 0) && negb (pg_destination_pinned page)).

Definition can_attach_host_replica (st : LogicalKVPageStore) (h : LogicalKVPageHandle) (epoch coverage : Z) : bool :=
  page_test st h (fun page =>
    negb (has (pg_host_replica page)) && (epoch =? pg_content_epoch page) && (coverage =? pg_committed_columns page)).

(** * Operations *)
Notation K := (M kv).

(** [require] *)
Definition require (h : LogicalKVPageHandle) : K Page :=
  s ← mget;
  _ ← mthrow_if (negb (page_valid (kv_store s) h)) InvalidArgument;
  mlift (vat (ls_pages (kv_store s)) (lh_index h)).

(** The reference [pages_[index]] and an assignment through it. *)
Definition page_ref (index : Z) : K Page :=
  s ← mget;
  mlift (vat (ls_pages (kv_store s)) index).

Definition put_page (index : Z) (page : Page) : K unit :=
  mmodify (fun s => set_pages ((ls_pages (kv_store s)).[index <- page]) s).

(** The destructor of a lease held in an optional. *)
Definition reset_lease (o : option DeviceKVPageLease) : K unit :=
  mmodify (fun s => match o with
                    | Some l => set_pool (fst (fst (lease_release (kv_pool s) l))) s
                    | None => s
                    end).

(** The pool's calls on the caller's [k]-th reservation. *)
Definition pool_materialize_one (k : nat) : K DeviceKVPageLease :=
  s ← mget;
  match kv_reservations s !! k with
  | Some r =>
      '(p, r', l) ← mlift (materialize_one (kv_pool s) r);
      _ ← mput (mkKv p (<[k := r']> (kv_reservations s)) (kv_store s));
      mret l
  | None => mthrow Undefined
  end.

Definition pool_dematerialize_one (k : nat) (l : DeviceKVPageLease) : K unit :=
  s ← mget;
  match kv_reservations s !! k with
  | Some r =>
      '(p, r', _) ← mlift (dematerialize_one (kv_pool s) r l);
      mput (mkKv p (<[k := r']> (kv_reservations s)) (kv_store s))
  | None => mthrow Undefined
  end.

Definition pool_materialize (k : nat) (target : Z) (pred : option DeviceKVPageHandle) : K (list DeviceKVPageLease) :=
  s ← mget;
  match kv_reservations s !! k with
  | Some r =>
      '(p, r', leases) ← mlift (PagedKv.materialize (kv_pool s) r target [] (ls_scratch (kv_store s)) pred);
      _ ← mput (mkKv p (<[k := r']> (kv_reservations s)) (kv_store s));
      mret leases
  | None => mthrow Undefined
  end.

(** An exception out of a [noexcept] function ends the process. *)
Definition noexcept {A} (m : K A) : K A := fun s =>
  match m s with
  | (s', Err _) => (s', Err Terminate)
  | r => r
  end.

(** [free_[--free_count_]] and [free_[free_count_++] = index] *)
Definition pop_free : K Z :=
  s ← mget;
  let n := wrap32 (ls_free_count (kv_store s) - 1) in
  _ ← mput (set_free (ls_free (kv_store s)) n s);
  mlift (vat (ls_free (kv_store s)) n).

Definition push_free (index : Z) : K unit :=
  s ← mget;
  let n := ls_free_count (kv_store s) in
  _ ← mlift (vat (ls_free (kv_store s)) n);
  mput (set_free ((ls_free (kv_store s)).[n <- index]) (wrap32 (n + 1)) s).

Definition release_descriptor (h : LogicalKVPageHandle) : K unit :=
  page ← page_ref (lh_index h);
  _ ← mthrow_if (negb (pg_active_references page =? 0)) Terminate;
  _ ← reset_lease (pg_pending_device_replica page);
  _ ← put_page (lh_index h)
        (mkPage (increment_generation (pg_generation page)) (pg_content_epoch page) 0 0 0 0 0 0 false false
           (pg_device_replica page) None None);
  push_free (lh_index h).

(** [page.device_replica.reset()] *)
Definition reset_device (h : LogicalKVPageHandle) : K unit :=
  page ← page_ref (lh_index h);
  _ ← reset_lease (pg_device_replica page);
  put_page (lh_index h) (set_device_replica None page).

(** The fields [materialize] sets in a fresh descriptor. *)
Definition fresh_page (l : DeviceKVPageLease) (page : Page) : Page :=
  mkPage (pg_generation page) (next_epoch (pg_content_epoch page)) 0 1 0 0 (pg_source_pins page) 1
    (pg_destination_pinned page) true (Some l) (pg_pending_device_replica page) (pg_host_replica page).

Definition materialize (k : nat) : K LogicalKVPageHandle :=
  s ← mget;
  _ ← mthrow_if (ls_free_count (kv_store s) =? 0) LogicError;
  lease ← pool_materialize_one k;
  index ← pop_free;
  page ← page_ref index;
  _ ← reset_lease (pg_device_replica page);
  _ ← put_page index (fresh_page lease page);
  mret (mkLogicalHandle (ls_this (kv_store s)) index (pg_generation page)).

(** [physical] *)
Definition physical (h : LogicalKVPageHandle) : K DeviceKVPageHandle :=
  page ← require h;
  match pg_device_replica page with
  | Some l => mret (lease_handle l)
  | None => mthrow LogicError
  end.

(** The accessors. *)
Definition read_page {A} (h : LogicalKVPageHandle) (field : Page -> A) : K A :=
  page ← require h;
  mret (field page).

Definition descriptor_index (h : LogicalKVPageHandle) : K Z := read_page h (fun _ => lh_index h).
Definition device_resident (h : LogicalKVPageHandle) : K bool := read_page h (fun page => has (pg_device_replica page)).
Definition host_resident (h : LogicalKVPageHandle) : K bool := read_page h (fun page => has (pg_host_replica page)).
Definition content_epoch (h : LogicalKVPageHandle) : K Z := read_page h pg_content_epoch.
Definition committed_columns (h : LogicalKVPageHandle) : K Z := read_page h pg_committed_columns.
Definition address_references (h : LogicalKVPageHandle) : K Z := read_page h pg_references.
Definition active_address_references (h : LogicalKVPageHandle) : K Z := read_page h pg_active_references.
Definition writer_references (h : LogicalKVPageHandle) : K Z := read_page h pg_writer_references.
Definition protected_columns (h : LogicalKVPageHandle) : K Z := read_page h pg_protected_columns.
Definition source_pins (h : LogicalKVPageHandle) : K Z := read_page h pg_source_pins.

Definition host_replica (h : LogicalKVPageHandle) : K HostKVPageReplica :=
  page ← require h;
  match pg_host_replica page with
  | Some r => mret r
  | None => mthrow LogicError
  end.

(** The loops of the batch [materialize]. *)
Definition check_free_descriptor (st : LogicalKVPageStore) (offset : Z) : result unit :=
  index ← vat (ls_free st) (wrap64 (wrap32 (ls_free_count st - 1) - offset));
  page ← vat (ls_pages st) index;
  throw_if (pg_occupied page) LogicError.

Fixpoint fill_descriptors (offset : Z) (leases : list DeviceKVPageLease) : K (list LogicalKVPageHandle) :=
  match leases with
  | [] => mret []
  | lease :: leases' =>
      s ← mget;
      index ← mlift (vat (ls_free (kv_store s)) (wrap64 (wrap32 (ls_free_count (kv_store s) - 1) - offset)));
      page ← page_ref index;
      _ ← reset_lease (pg_device_replica page);
      _ ← put_page index (fresh_page lease page);
      rest ← fill_descriptors (offset + 1) leases';
      mret (mkLogicalHandle (ls_this (kv_store s)) index (pg_generation page) :: rest)
  end.

Definition materialize_batch (k : nat) (destinations : list LogicalKVPageHandle)
    (preferred_predecessor : option LogicalKVPageHandle) : K (list LogicalKVPageHandle) :=
  let n := vsize destinations in
  if n =? 0 then mret destinations else
  s ← mget;
  _ ← mthrow_if ((ls_free_count (kv_store s) <? n) || (ls_scratch (kv_store s) <? n)) LogicError;
  _ ← mthrow_if (existsb logical_handle_valid destinations) LogicError;
  _ ← mlift (rfor (fun _ offset => check_free_descriptor (kv_store s) offset) tt (seqZ 0 n));
  pred ← match preferred_predecessor with
         | Some h => p ← physical h; mret (Some p)
         | None => mret None
         end;
  leases ← pool_materialize k (wrap32 n) pred;
  handles ← fill_descriptors 0 leases;
  _ ← mmodify (fun s => set_free (ls_free (kv_store s)) (wrap32 (ls_free_count (kv_store s) - wrap32 n)) s);
  mret handles.

Definition materialize_transfer_destination (k : nat) (committed_columns : Z) : K LogicalKVPageHandle :=
  s ← mget;
  _ ← mthrow_if ((committed_columns =? 0) || (kPagedKVPageSize <? committed_columns) ||
                 (ls_free_count (kv_store s) =? 0)) InvalidArgument;
  lease ← pool_materialize_one k;
  index ← pop_free;
  page ← page_ref index;
  _ ← reset_lease (pg_device_replica page);
  _ ← put_page index
        (mkPage (pg_generation page) (next_epoch (pg_content_epoch page)) committed_columns 0 0 0 (pg_source_pins page) 0
           true true (Some lease) (pg_pending_device_replica page) (pg_host_replica page));
  mret (mkLogicalHandle (ls_this (kv_store s)) index (pg_generation page)).

(** The test that [publish_transfer_destination] and its abort share. *)
Definition not_transfer_destination (page : Page) : bool :=
  negb (has (pg_device_replica page)) || has (pg_pending_device_replica page) || has (pg_host_replica page) ||
  negb (pg_destination_pinned page) || negb (pg_references page =? 0) || negb (pg_writer_references page =? 0) ||
  negb (pg_source_pins page =? 0).

Definition publish_transfer_destination (h : LogicalKVPageHandle) (writer : bool) : K unit :=
  s ← mget;
  _ ← mthrow_if (negb (page_valid (kv_store s) h)) Terminate;
  page ← page_ref (lh_index h);
  _ ← mthrow_if (not_transfer_destination page) Terminate;
  put_page (lh_index h)
    (set_destination_pinned false (set_writer_references (if writer then 1 else 0) (set_references 1 page))).

Definition abort_transfer_destination (h : LogicalKVPageHandle) (k : nat) : K unit :=
  noexcept (
    s ← mget;
    if negb (page_valid (kv_store s) h) then mret tt else
    page ← page_ref (lh_index h);
    if not_transfer_destination page then mret tt else
    match pg_device_replica page with
    | Some l =>
        _ ← pool_dematerialize_one k l;
        _ ← put_page (lh_index h) (set_device_replica None page);
        release_descriptor h
    | None => mret tt
    end).

Definition reserve_device_replica (h : LogicalKVPageHandle) (k : nat) : K DeviceKVPageHandle :=
  page ← require h;
  _ ← mthrow_if (has (pg_device_replica page) || has (pg_pending_device_replica page) || negb (has (pg_host_replica page)) ||
                 pg_destination_pinned page || negb (pg_source_pins page =? 0) || negb (host_current page)) LogicError;
  lease ← pool_materialize_one k;
  _ ← put_page (lh_index h) (set_destination_pinned true (set_pending_device_replica (Some lease) page));
  mret (lease_handle lease).

Definition publish_device_replica (h : LogicalKVPageHandle) : K unit :=
  page ← require h;
  _ ← mthrow_if (has (pg_device_replica page) || negb (has (pg_pending_device_replica page)) ||
                 negb (pg_destination_pinned page) || negb (has (pg_host_replica page)) || negb (host_current page)) LogicError;
  put_page (lh_index h)
    (set_destination_pinned false
       (set_pending_device_replica None (set_device_replica (pg_pending_device_replica page) page))).

Definition abort_device_replica (h : LogicalKVPageHandle) (k : nat) : K unit :=
  noexcept (
    s ← mget;
    if negb (page_valid (kv_store s) h) then mret tt else
    page ← page_ref (lh_index h);
    match pg_pending_device_replica page with
    | Some l =>
        if negb (pg_destination_pinned page) then mret tt else
        _ ← pool_dematerialize_one k l;
        put_page (lh_index h) (set_destination_pinned false (set_pending_device_replica None page))
    | None => mret tt
    end).

Definition drop_device_replica (h : LogicalKVPageHandle) : K bool :=
  s ← mget;
  if negb (can_drop_device_replica (kv_store s) h) then mret false else
  _ ← reset_device h;
  mret true.

Definition retain_active_reference (h : LogicalKVPageHandle) : K unit :=
  page ← require h;
  _ ← mthrow_if ((pg_active_references page =? U32_MAX) || (pg_references page <=? pg_active_references page)) LogicError;
  put_page (lh_index h) (set_active_references (wrap32 (pg_active_references page + 1)) page).

Definition release_active_reference (h : LogicalKVPageHandle) : K unit :=
  page ← require h;
  _ ← mthrow_if (pg_active_references page =? 0) LogicError;
  put_page (lh_index h) (set_active_references (wrap32 (pg_active_references page - 1)) page).

Definition retain_reference (h : LogicalKVPageHandle) (writer : bool) : K unit :=
  page ← require h;
  _ ← mthrow_if ((pg_references page =? U32_MAX) || (writer && negb (pg_writer_references page =? 0))) LogicError;
  let page' := set_references (wrap32 (pg_references page + 1)) page in
  put_page (lh_index h) (if writer then set_writer_references 1 page' else page').

Definition set_writer (h : LogicalKVPageHandle) (writer : bool) : K unit :=
  page ← require h;
  _ ← mthrow_if (writer && negb (pg_writer_references page =? 0)) LogicError;
  put_page (lh_index h) (set_writer_references (if writer then 1 else 0) page).

Definition protect_coverage (h : LogicalKVPageHandle) (columns : Z) : K unit :=
  page ← require h;
  _ ← mthrow_if (pg_committed_columns page <? columns) InvalidArgument;
  put_page (lh_index h) (set_protected_columns (Z.max (pg_protected_columns page) columns) page).

Definition set_protected_coverage (h : LogicalKVPageHandle) (columns : Z) : K unit :=
  page ← require h;
  _ ← mthrow_if (pg_committed_columns page <? columns) InvalidArgument;
  put_page (lh_index h) (set_protected_columns columns page).

Definition clear_protection (h : LogicalKVPageHandle) : K unit :=
  page ← require h;
  _ ← mthrow_if (negb (pg_references page =? 1) || negb (pg_source_pins page =? 0)) LogicError;
  put_page (lh_index h) (set_protected_columns 0 page).

Definition pin_source (h : LogicalKVPageHandle) : K unit :=
  page ← require h;
  _ ← mthrow_if (pg_source_pins page =? U32_MAX) OverflowError;
  put_page (lh_index h) (set_source_pins (wrap32 (pg_source_pins page + 1)) page).

Definition unpin_source (h : LogicalKVPageHandle) : K unit :=
  page ← require h;
  _ ← mthrow_if (pg_source_pins page =? 0) LogicError;
  put_page (lh_index h) (set_source_pins (wrap32 (pg_source_pins page - 1)) page).

Definition commit_coverage (h : LogicalKVPageHandle) (columns : Z) : K unit :=
  page ← require h;
  _ ← mthrow_if (negb (has (pg_device_replica page)) || negb (pg_writer_references page =? 1) ||
                 (columns <? pg_committed_columns page) || (kPagedKVPageSize <? columns)) InvalidArgument;
  put_page (lh_index h) (set_committed_columns columns page).

(** A truncation that removes columns starts a new content epoch. *)
Definition truncate_page (columns : Z) (page : Page) : Page :=
  if negb (columns =? pg_committed_columns page)
  then set_content_epoch (next_epoch (pg_content_epoch page)) (set_committed_columns columns page)
  else page.

Definition destructive_truncate (h : LogicalKVPageHandle) (columns : Z) : K unit :=
  page ← require h;
  _ ← mthrow_if ((pg_committed_columns page <? columns) || (columns <? pg_protected_columns page) ||
                 negb (pg_references page =? 1) || negb (pg_writer_references page =? 1) ||
                 negb (pg_source_pins page =? 0) || pg_destination_pinned page || has (pg_host_replica page)) InvalidArgument;
  put_page (lh_index h) (truncate_page columns page).

Definition destructive_truncate_inactive (h : LogicalKVPageHandle) (columns : Z) : K unit :=
  page ← require h;
  s ← mget;
  _ ← mthrow_if (negb (can_destructive_truncate_inactive (kv_store s) h columns)) LogicError;
  let page' := truncate_page columns page in
  put_page (lh_index h) (set_protected_columns (Z.min (pg_protected_columns page') columns) page').

Definition release_reference (h : LogicalKVPageHandle) (writer : bool) : K bool :=
  noexcept (
    s ← mget;
    if negb (can_release_reference (kv_store s) h writer) then mret false else
    page ← page_ref (lh_index h);
    let page1 := if writer then set_writer_references 0 page else page in
    let page2 := set_references (wrap32 (pg_references page1 - 1)) page1 in
    _ ← put_page (lh_index h) page2;
    if negb (pg_references page2 =? 0) then mret true else
    _ ← reset_device h;
    _ ← (if negb (has (pg_host_replica page2)) then release_descriptor h else mret tt);
    mret true).

Definition attach_host_replica (h : LogicalKVPageHandle) (replica : HostKVPageReplica) : K unit :=
  page ← require h;
  s ← mget;
  _ ← mthrow_if (negb (capability_valid (hr_extent replica)) || (hr_membership_node replica =? U32_MAX) ||
                 negb (can_attach_host_replica (kv_store s) h (hr_content_epoch replica) (hr_committed_columns replica)))
        LogicError;
  put_page (lh_index h) (set_host_replica (Some replica) page).

Definition rebind_host_replica (h : LogicalKVPageHandle) (expected replacement : HostKVPageReplica) : K unit :=
  s ← mget;
  _ ← mthrow_if (negb (page_valid (kv_store s) h)) Terminate;
  page ← page_ref (lh_index h);
  match pg_host_replica page with
  | Some r =>
      _ ← mthrow_if
            (negb (bool_decide (hr_extent r = hr_extent expected)) || negb (hr_page_offset r =? hr_page_offset expected) ||
             negb (hr_membership_node r =? hr_membership_node expected) ||
             negb (hr_content_epoch r =? hr_content_epoch expected) ||
             negb (hr_committed_columns r =? hr_committed_columns expected) ||
             negb (hr_content_epoch expected =? pg_content_epoch page) || negb (capability_valid (hr_extent replacement)) ||
             negb (hr_membership_node replacement =? hr_membership_node expected) ||
             negb (hr_content_epoch replacement =? hr_content_epoch expected) ||
             negb (hr_committed_columns replacement =? hr_committed_columns expected)) Terminate;
      put_page (lh_index h) (set_host_replica (Some replacement) page)
  | None => mthrow Terminate
  end.

Definition detach_host_replica (h : LogicalKVPageHandle) (extent : HostKVExtentCapability) : K bool :=
  noexcept (
    s ← mget;
    if negb (page_valid (kv_store s) h) then mret false else
    page ← page_ref (lh_index h);
    match pg_host_replica page with
    | Some r =>
        if negb (bool_decide (hr_extent r = extent)) ||
           (negb (has (pg_device_replica page)) && negb (pg_references page =? 0)) then mret false else
        _ ← put_page (lh_index h) (set_host_replica None page);
        _ ← (if (pg_references page =? 0) && (pg_source_pins page =? 0) && negb (has (pg_device_replica page))
             then release_descriptor h else mret tt);
        mret true
    | None => mret false
    end).

Definition dematerialize (h : LogicalKVPageHandle) (k : nat) : K unit :=
  page ← require h;
  _ ← mthrow_if (negb (pg_references page =? 1) || negb (pg_writer_references page =? 1) ||
                 negb (pg_source_pins page =? 0) || pg_destination_pinned page || has (pg_host_replica page) ||
                 negb (has (pg_device_replica page))) LogicError;
  match pg_device_replica page with
  | Some l =>
      _ ← pool_dematerialize_one k l;
      _ ← put_page (lh_index h) (set_device_replica None page);
      release_descriptor h
  | None => mthrow Undefined
  end.

(** [release] *)
Definition release_page_handle (h : LogicalKVPageHandle) : K bool :=
  s ← mget;
  if negb (page_valid (kv_store s) h) then mret false else
  page ← page_ref (lh_index h);
  release_reference h (negb (pg_writer_references page =? 0)).

(** * Calls

    Everything the owners of the store and of its pool can do. *)
Inductive call : Type :=
  | CReserve (pages : Z)
  | CEmptyReservation
  | CResize (k : nat) (pages : Z)
  | CDropReservation (k : nat)
  | CMaterialize (k : nat)
  | CMaterializeBatch (k : nat) (destinations : list LogicalKVPageHandle) (pred : option LogicalKVPageHandle)
  | CMaterializeTransfer (k : nat) (columns : Z)
  | CPublishTransfer (h : LogicalKVPageHandle) (writer : bool)
  | CAbortTransfer (h : LogicalKVPageHandle) (k : nat)
  | CReserveDevice (h : LogicalKVPageHandle) (k : nat)
  | CPublishDevice (h : LogicalKVPageHandle)
  | CAbortDevice (h : LogicalKVPageHandle) (k : nat)
  | CDropDevice (h : LogicalKVPageHandle)
  | CRetainActive (h : LogicalKVPageHandle)
  | CReleaseActive (h : LogicalKVPageHandle)
  | CRetain (h : LogicalKVPageHandle) (writer : bool)
  | CSetWriter (h : LogicalKVPageHandle) (writer : bool)
  | CProtect (h : LogicalKVPageHandle) (columns : Z)
  | CSetProtected (h : LogicalKVPageHandle) (columns : Z)
  | CClearProtection (h : LogicalKVPageHandle)
  | CPin (h : LogicalKVPageHandle)
  | CUnpin (h : LogicalKVPageHandle)
  | CCommit (h : LogicalKVPageHandle) (columns : Z)
  | CTruncate (h : LogicalKVPageHandle) (columns : Z)
  | CTruncateInactive (h : LogicalKVPageHandle) (columns : Z)
  | CReleaseReference (h : LogicalKVPageHandle) (writer : bool)
  | CRelease (h : LogicalKVPageHandle)
  | CAttachHost (h : LogicalKVPageHandle) (replica : HostKVPageReplica)
  | CRebindHost (h : LogicalKVPageHandle) (expected replacement : HostKVPageReplica)
  | CDetachHost (h : LogicalKVPageHandle) (extent : HostKVExtentCapability)
  | CDematerialize (h : LogicalKVPageHandle) (k : nat).

(** The pool's calls that only concern reservations. *)
Definition kv_reserve (pages : Z) : K unit :=
  mmodify (fun s => match reserve (kv_pool s) pages with
                    | (p, Some r) => mkKv p (r :: kv_reservations s) (kv_store s)
                    | (p, None) => mkKv p (kv_reservations s) (kv_store s)
                    end).

Definition kv_resize (k : nat) (pages : Z) : K unit :=
  s ← mget;
  match kv_reservations s !! k with
  | Some r =>
      '(p, r') ← mlift (resize_reservation (kv_pool s) r pages);
      mput (mkKv p (<[k := r']> (kv_reservations s)) (kv_store s))
  | None => mthrow Undefined
  end.

Definition kv_drop_reservation (k : nat) : K unit :=
  s ← mget;
  match kv_reservations s !! k with
  | Some r =>
      '(p, _) ← mlift (reservation_release (kv_pool s) r);
      mput (mkKv p (delete k (kv_reservations s)) (kv_store s))
  | None => mthrow Undefined
  end.

Definition ignore {A} (m : K A) : K unit := _ ← m; mret tt.

Definition run_call (c : call) : K unit :=
  match c with
  | CReserve n => kv_reserve n
  | CEmptyReservation =>
      mmodify (fun s => mkKv (kv_pool s) (make_empty_reservation (kv_pool s) :: kv_reservations s) (kv_store s))
  | CResize k n => kv_resize k n
  | CDropReservation k => kv_drop_reservation k
  | CMaterialize k => ignore (materialize k)
  | CMaterializeBatch k ds pred => ignore (materialize_batch k ds pred)
  | CMaterializeTransfer k columns => ignore (materialize_transfer_destination k columns)
  | CPublishTransfer h w => publish_transfer_destination h w
  | CAbortTransfer h k => abort_transfer_destination h k
  | CReserveDevice h k => ignore (reserve_device_replica h k)
  | CPublishDevice h => publish_device_replica h
  | CAbortDevice h k => abort_device_replica h k
  | CDropDevice h => ignore (drop_device_replica h)
  | CRetainActive h => retain_active_reference h
  | CReleaseActive h => release_active_reference h
  | CRetain h w => retain_reference h w
  | CSetWriter h w => set_writer h w
  | CProtect h columns => protect_coverage h columns
  | CSetProtected h columns => set_protected_coverage h columns
  | CClearProtection h => clear_protection h
  | CPin h => pin_source h
  | CUnpin h => unpin_source h
  | CCommit h columns => commit_coverage h columns
  | CTruncate h columns => destructive_truncate h columns
  | CTruncateInactive h columns => destructive_truncate_inactive h columns
  | CReleaseReference h w => ignore (release_reference h w)
  | CRelease h => ignore (release_page_handle h)
  | CAttachHost h r => attach_host_replica h r
  | CRebindHost h e r => rebind_host_replica h e r
  | CDetachHost h x => ignore (detach_host_replica h x)
  | CDematerialize h k => dematerialize h k
  end.

(** Arguments are unsigned. *)
Definition call_ok (s : kv) (c : call) : Prop :=
  match c with
  | CReserve n | CResize _ n => is_u32 n
  | CMaterializeTransfer _ columns | CProtect _ columns | CSetProtected _ columns | CCommit _ columns
  | CTruncate _ columns | CTruncateInactive _ columns => is_u32 columns
  | _ => True
  end.

(** The page has content: a device replica, or a host replica that is current. *)
Definition has_content (page : Page) : bool := has (pg_device_replica page) || host_current page.

(** A caller takes a new reference only to a page that has content. The store
    does not check this: it is the callers' side of the contract, and address
    spaces keep it by retaining pages that another address space refers to. *)
Definition retains_content (s : kv) (c : call) : Prop :=
  match c with
  | CRetain h _ => page_test (kv_store s) h has_content = true
  | _ => True
  end.

(** * The invariant *)
Definition page_leases (page : Page) : list DeviceKVPageLease :=
  option_list (pg_device_replica page) ++ option_list (pg_pending_device_replica page).

(** All leases the store holds. *)
Definition replicas (pages : list Page) : list DeviceKVPageLease := concat (map page_leases pages).

Definition free_descriptors (st : LogicalKVPageStore) : list Z := take (Z.to_nat (ls_free_count st)) (ls_free st).

(** The invariant, and whether it says that referenced pages have content:
    everything else holds however callers retain pages. *)
Section Invariant.
Context {tracked : bool}.

Record page_ok_at (page : Page) : Prop := {
  pk_generation : 1 <= pg_generation page <= U32_MAX;
  pk_columns : 0 <= pg_protected_columns page <= pg_committed_columns page /\ pg_committed_columns page <= kPagedKVPageSize;
  pk_references : 0 <= pg_active_references page <= pg_references page /\ pg_references page <= U32_MAX;
  pk_writer : 0 <= pg_writer_references page <= 1;
  pk_pins : 0 <= pg_source_pins page <= U32_MAX;
  (** a restore in flight pins the page *)
  pk_pending : pg_pending_device_replica page <> None -> pg_device_replica page = None /\ pg_destination_pinned page = true;
  (** the content of a referenced page is on the device or current on the host *)
  pk_content : tracked = true -> pg_references page <> 0 -> pg_device_replica page <> None \/ host_current page = true;
  pk_vacant : pg_occupied page = false ->
    pg_references page = 0 /\ pg_source_pins page = 0 /\ pg_destination_pinned page = false /\
    pg_device_replica page = None /\ pg_pending_device_replica page = None /\ pg_host_replica page = None;
}.

Record store_ok_at (st : LogicalKVPageStore) : Prop := {
  so_capacity : 0 < store_capacity st <= U32_MAX;
  so_free_size : vsize (ls_free st) = store_capacity st;
  so_count : 0 <= ls_free_count st <= store_capacity st;
  so_nodup : NoDup (free_descriptors st);
  (** the free list holds exactly the vacant descriptors *)
  so_free : forall i, i ∈ free_descriptors st <-> exists page, (ls_pages st).[i] = Some page /\ pg_occupied page = false;
  so_pages : forall i page, (ls_pages st).[i] = Some page -> page_ok_at page;
}.

(** The pool's client is the store: its leases are the replicas, and those in
    [held] that a call has taken but not stored yet. *)
Record kv_inv_at (held : list DeviceKVPageLease) (s : kv) : Prop := {
  ki_pool : client_ok (mkClient (kv_pool s) (kv_reservations s) [held ++ replicas (ls_pages (kv_store s))]);
  ki_store : store_ok_at (kv_store s);
}.


(** What a call may do: return and keep the invariant, throw and change
    nothing, or end the process. *)
Definition safe_at {A} (s : kv) (r : kv * result A) : Prop :=
  match r with
  | (s', Ok _) => kv_inv_at [] s'
  | (_, Err Terminate) => True
  | (s', Err _) => s' = s
  end.

End Invariant.

(** * Leases and the pool *)
Lemma client_ok_perm p rs vs vs' :
  concat vs ≡ₚ concat vs' -> client_ok (mkClient p rs vs) -> client_ok (mkClient p rs vs').
Proof.
  intros Hp [H1 H2 H3 H4 H5 H6]. unfold all_leases in *. cbn in *. constructor; unfold all_leases; cbn; try done.
  - by rewrite <- Hp.
  - by rewrite <- Hp.
  - rewrite <- H6. unfold vsize. by rewrite Hp.
Qed.

Lemma replicas_split pages i page :
  pages.[i] = Some page ->
  exists rest, replicas pages ≡ₚ page_leases page ++ rest /\
    forall page', replicas (pages.[i <- page']) ≡ₚ page_leases page' ++ rest.
Proof.
  intros Hi. unfold vget in Hi. unfold vset, replicas. destruct (Z.leb_spec 0 i); [|done].
  apply list_elem_of_split_length in Hi as (pre & post & -> & Hlen). exists (concat (map page_leases pre) ++ concat (map page_leases post)).
  rewrite Hlen. split; [|intros page'; rewrite insert_middle]; rewrite map_app, concat_app; cbn; by rewrite Permutation_app_swap_app.
Qed.

Section Calls.
Context {tracked : bool}.
Local Notation page_ok := (@page_ok_at tracked).
Local Notation store_ok := (@store_ok_at tracked).
Local Notation kv_inv := (@kv_inv_at tracked).
Local Notation kv_ok := (@kv_inv_at tracked []).
Local Notation safe := (@safe_at tracked _).

Section Pool.
Context (held : list DeviceKVPageLease) (s : kv).

Lemma take_one_inv k r p r' l :
  kv_inv held s -> kv_reservations s !! k = Some r -> materialize_one (kv_pool s) r = Ok (p, r', l) ->
  kv_inv (l :: held) (mkKv p (<[k := r']> (kv_reservations s)) (kv_store s)).
Proof.
  intros [Hp Hs] Hk Hm. split; [|done]. cbn.
  eapply client_ok_perm; [|by eapply client_step_materialize_one]. cbn. done.
Qed.

Lemma take_many_inv k r target cap pred p r' ls :
  kv_inv held s -> is_u32 target -> kv_reservations s !! k = Some r ->
  PagedKv.materialize (kv_pool s) r target [] cap pred = Ok (p, r', ls) ->
  kv_inv (ls ++ held) (mkKv p (<[k := r']> (kv_reservations s)) (kv_store s)).
Proof.
  intros [Hp Hs] Hu Hk Hm. split; [|done]. cbn.
  apply (client_ok_perm _ _ _ [[]; held ++ replicas (ls_pages (kv_store s))]) in Hp; [|cbn; by rewrite app_nil_r].
  eapply client_ok_perm; [|by eapply (client_step_materialize _ _ k _ _ 0)]. cbn. by rewrite !app_assoc.
Qed.

Lemma take_many_length k r target cap pred p r' ls :
  kv_inv held s -> is_u32 target -> kv_reservations s !! k = Some r ->
  PagedKv.materialize (kv_pool s) r target [] cap pred = Ok (p, r', ls) -> vsize ls = target.
Proof.
  intros [Hp _] Hu Hk Hm. pose proof (ck_wf _ Hp) as Hwf. cbn in Hwf. destruct (client_reservation _ k r Hp Hk) as [Hro Hrp]. cbn in Hro, Hrp.
  pose proof (wf_cap _ Hwf). pose proof Hm as (_ & ? & ? & ? & ? & ?)%materialize_inv; try done; [|lia|unfold vsize; cbn; lia].
  destruct (materialize_Ok (kv_pool s) r target [] cap pred) as (p1 & pages & ls1 & E & Hn & Ht); try done; [apply Hu|].
  rewrite E in Hm. injection Hm as _ _ <-. rewrite Z.sub_0_r in Hn. rewrite <- Hn. unfold vsize. f_equal. symmetry.
  by eapply Forall2_length, (pt_leases _ _ _ _ Ht).
Qed.

Lemma give_one_inv k r p r' l l' :
  kv_inv (l :: held) s -> kv_reservations s !! k = Some r -> dematerialize_one (kv_pool s) r l = Ok (p, r', l') ->
  kv_inv held (mkKv p (<[k := r']> (kv_reservations s)) (kv_store s)).
Proof.
  intros [Hp Hs] Hk Hm. split; [|done]. cbn in *.
  apply (client_ok_perm _ _ _ [[l]; held ++ replicas (ls_pages (kv_store s))]) in Hp; [|done].
  eapply client_ok_perm; [|by eapply (client_step_dematerialize_one _ _ k _ _ 0)]. done.
Qed.

Lemma drop_one_inv l :
  kv_inv (l :: held) s -> kv_inv held (set_pool (fst (fst (lease_release (kv_pool s) l))) s).
Proof.
  intros [Hp Hs]. split; [|done]. cbn in *.
  apply (client_ok_perm _ _ _ [[l]; held ++ replicas (ls_pages (kv_store s))]) in Hp; [|done].
  exact (client_step_drop_vector _ _ _ 0 [l] Hp eq_refl).
Qed.
End Pool.

(** * Descriptors *)
Lemma free_pop st i :
  0 < ls_free_count st -> (ls_free st).[ls_free_count st - 1] = Some i ->
  free_descriptors st = take (Z.to_nat (ls_free_count st - 1)) (ls_free st) ++ [i].
Proof.
  intros Hc Hi. unfold free_descriptors. unfold vget in Hi. rewrite (proj2 (Z.leb_le 0 _)) in Hi by lia.
  replace (Z.to_nat (ls_free_count st)) with (S (Z.to_nat (ls_free_count st - 1))) by lia. by apply take_S_r.
Qed.

Lemma free_push st i :
  0 <= ls_free_count st < vsize (ls_free st) ->
  take (Z.to_nat (ls_free_count st + 1)) ((ls_free st).[ls_free_count st <- i]) = free_descriptors st ++ [i].
Proof.
  intros Hc. unfold free_descriptors, vset, vsize in *. rewrite (proj2 (Z.leb_le 0 _)) by lia.
  replace (Z.to_nat (ls_free_count st + 1)) with (S (Z.to_nat (ls_free_count st))) by lia.
  erewrite take_S_r by (apply list_lookup_insert_eq; lia). by rewrite take_insert_ge.
Qed.

(** Writing a descriptor, with the leases it gains from or loses to [held]. *)
Section Write.
Context (held held' : list DeviceKVPageLease) (s : kv) (i : Z) (page page' : Page).
Let st := kv_store s.
Hypothesis Hinv : kv_inv held s.
Hypothesis Hpage : (ls_pages st).[i] = Some page.
Hypothesis Hok : page_ok page'.
Hypothesis Hleases : held' ++ page_leases page' ≡ₚ held ++ page_leases page.

Lemma write_pool : client_ok (mkClient (kv_pool s) (kv_reservations s) [held' ++ replicas ((ls_pages st).[i <- page'])]).
Proof.
  destruct (replicas_split _ _ _ Hpage) as (rest & Hr & Hr'). eapply client_ok_perm; [|apply (ki_pool _ _ Hinv)]. cbn.
  rewrite !app_nil_r. fold st. rewrite Hr, (Hr' page'), !app_assoc. by rewrite <- Hleases.
Qed.

Lemma write_pages j q : (ls_pages st).[i <- page'].[j] = Some q -> page_ok q.
Proof.
  rewrite vget_vset. destruct (_ && _); [by intros [= <-]|]. apply (so_pages _ (ki_store _ _ Hinv)).
Qed.

Lemma write_vacant j :
  (exists q, (ls_pages st).[i <- page'].[j] = Some q /\ pg_occupied q = false) <->
  (j = i /\ pg_occupied page' = false) \/ (j <> i /\ exists q, (ls_pages st).[j] = Some q /\ pg_occupied q = false).
Proof.
  pose proof (vget_Some_bounds _ _ _ Hpage). destruct (decide (j = i)) as [->|Hne].
  - rewrite vget_vset_eq by done. naive_solver.
  - rewrite vget_vset_ne by done. naive_solver.
Qed.

Lemma write_inv :
  pg_occupied page' = pg_occupied page -> kv_inv held' (set_pages ((ls_pages st).[i <- page']) s).
Proof.
  intros Hocc. split; [exact write_pool|]. pose proof (ki_store _ _ Hinv) as H. fold st in H.
  constructor; unfold store_capacity; cbn; rewrite ?vsize_vset; try apply H; [|exact write_pages].
  intros j. rewrite write_vacant. change (free_descriptors _) with (free_descriptors st). rewrite (so_free _ H).
  destruct (decide (j = i)) as [->|]; [|naive_solver]. split.
  - intros (q & Hq & Hv). left. split; [done|]. congruence.
  - intros [[_ Hv]|[]]; [|done]. exists page. split; [done|congruence].
Qed.

Lemma occupy_inv :
  (ls_free st).[ls_free_count st - 1] = Some i -> 0 < ls_free_count st -> pg_occupied page' = true ->
  kv_inv held' (set_pages ((ls_pages st).[i <- page']) (set_free (ls_free st) (ls_free_count st - 1) s)).
Proof.
  intros Hi Hc Hocc. split; [exact write_pool|]. pose proof (ki_store _ _ Hinv) as H. fold st in H.
  pose proof (free_pop st i Hc Hi) as Hf. pose proof (so_nodup _ H) as Hnd. rewrite Hf in Hnd.
  apply NoDup_app in Hnd as (Hnd & Hnew & _).
  constructor; unfold store_capacity; cbn; rewrite ?vsize_vset; try apply H; [pose proof (so_count _ H); unfold store_capacity in *; lia|done| |exact write_pages].
  intros j. rewrite write_vacant. pose proof (so_free _ H j) as Hj. rewrite Hf, elem_of_app, list_elem_of_singleton in Hj.
  unfold free_descriptors. cbn. split.
  - intros Hin. right. assert (j <> i) by (intros ->; apply (Hnew i Hin); by left). split; [done|]. apply Hj. by left.
  - intros [[_ ?]|[Hne Hq]]; [congruence|]. apply Hj in Hq as [|]; done.
Qed.

(** A vacant slot of the free list is left while a descriptor is occupied. *)
Lemma free_room : pg_occupied page = true -> ls_free_count st < store_capacity st.
Proof.
  intros Hocc. pose proof (ki_store _ _ Hinv) as H. fold st in H. pose proof (so_count _ H) as Hc.
  destruct (Z.lt_ge_cases (ls_free_count st) (store_capacity st)) as [|Hge]; [done|exfalso].
  assert (Hsub : free_descriptors st ⊆+ seqZ 0 (store_capacity st)).
  { apply NoDup_submseteq; [apply H|]. intros j (q & Hq & _)%(so_free _ H). apply elem_of_seqZ.
    apply vget_Some_bounds in Hq. unfold store_capacity. lia. }
  apply submseteq_length_Permutation in Hsub.
  - assert (Hin : i ∈ free_descriptors st).
    { rewrite Hsub. apply elem_of_seqZ. apply vget_Some_bounds in Hpage. unfold store_capacity. lia. }
    apply (so_free _ H) in Hin as (q & Hq & Hv). congruence.
  - pose proof (so_free_size _ H) as Hs. unfold free_descriptors, vsize in *. rewrite length_seqZ, length_take. lia.
Qed.

Lemma vacate_inv :
  pg_occupied page = true -> pg_occupied page' = false ->
  kv_inv held' (set_pages ((ls_pages st).[i <- page']) (set_free ((ls_free st).[ls_free_count st <- i]) (ls_free_count st + 1) s)).
Proof.
  intros Hocc Hvac. pose proof (free_room Hocc) as Hlt. pose proof (ki_store _ _ Hinv) as H. fold st in H.
  assert (Hnew : i ∉ free_descriptors st) by (rewrite (so_free _ H); intros (q & Hq & Hv); congruence).
  assert (Hpush : take (Z.to_nat (ls_free_count st + 1)) ((ls_free st).[ls_free_count st <- i]) = free_descriptors st ++ [i]).
  { apply free_push. rewrite (so_free_size _ H). pose proof (so_count _ H). lia. }
  split; [exact write_pool|].
  constructor; unfold store_capacity, free_descriptors; cbn; rewrite ?vsize_vset, ?Hpush; try apply H; [| | |exact write_pages].
  - pose proof (so_count _ H). unfold store_capacity in *. lia.
  - apply NoDup_app. split; [apply H|]. split; [|apply NoDup_singleton]. intros j Hj ->%list_elem_of_singleton. done.
  - intros j. rewrite write_vacant, elem_of_app, list_elem_of_singleton, (so_free _ H).
    destruct (decide (j = i)) as [->|]; naive_solver.
Qed.
End Write.

(** * Running a call *)
Section Safe.
Context {A B : Type}.

Lemma safe_get s (k : kv -> K B) : safe s (k s s) -> safe s ((mget ≫= k) s).
Proof. done. Qed.

Lemma safe_err s (e : error) : safe s (s, Err e : result B).
Proof. by destruct e. Qed.

Lemma safe_throw_if s c e (k : unit -> K B) : (c = false -> safe s (k tt s)) -> safe s ((mthrow_if c e ≫= k) s).
Proof. intros Hk. unfold mthrow_if, mlift, mbind, M_bind. destruct c; [apply safe_err|by apply Hk]. Qed.

Lemma safe_lift s (r : result A) (k : A -> K B) : (forall a, r = Ok a -> safe s (k a s)) -> safe s ((mlift r ≫= k) s).
Proof. intros Hk. unfold mlift, mbind, M_bind. destruct r; [by apply Hk|apply safe_err]. Qed.

Lemma safe_ret s (a : B) : kv_ok s -> safe s ((mret a : K B) s).
Proof. done. Qed.

Lemma safe_ignore s (m : K A) : safe s (m s) -> safe s (ignore m s).
Proof. unfold ignore, mbind, M_bind. by destruct (m s) as [s' [a|e]]. Qed.

Lemma safe_noexcept s (m : K A) : safe s (m s) -> safe s (noexcept m s).
Proof. unfold noexcept. by destruct (m s) as [s' [a|e]]. Qed.

Lemma safe_require s h (k : Page -> K B) :
  kv_ok s ->
  (forall page, (ls_pages (kv_store s)).[lh_index h] = Some page -> page_ok page -> pg_occupied page = true ->
     page_valid (kv_store s) h = true -> safe s (k page s)) ->
  safe s ((require h ≫= k) s).
Proof.
  intros Hs Hk. unfold require, page_valid, vat, mthrow_if, mlift, throw_if, mbind, M_bind, mget in *. cbn [fst].
  destruct (_ && _) eqn:E; cbn [negb]; [|done]. apply andb_true_iff in E as [E1 E2].
  destruct ((ls_pages (kv_store s)).[lh_index h]) as [page|] eqn:Ep; [|done]. apply andb_true_iff in E2 as [E2 E3].
  apply Hk; auto. by apply (so_pages _ (ki_store _ _ Hs) (lh_index h)).
Qed.

Lemma safe_page_ref s i (k : Page -> K B) :
  kv_ok s -> (forall page, (ls_pages (kv_store s)).[i] = Some page -> page_ok page -> safe s (k page s)) ->
  safe s ((page_ref i ≫= k) s).
Proof.
  intros Hs Hk. unfold page_ref, vat, mlift, mbind, M_bind, mget. cbn [fst].
  destruct ((ls_pages (kv_store s)).[i]) as [page|] eqn:Ep; [|done].
  apply Hk; [done|]. by apply (so_pages _ (ki_store _ _ Hs) i).
Qed.
End Safe.

Lemma safe_put_page s i page page' :
  kv_ok s -> (ls_pages (kv_store s)).[i] = Some page -> page_ok page' ->
  page_leases page' = page_leases page -> pg_occupied page' = pg_occupied page ->
  safe s (put_page i page' s).
Proof. intros Hs Hp Hok Hl Ho. cbn. eapply write_inv; [done|done|done| |done]. by rewrite Hl. Qed.

Lemma page_valid_occupied st h page :
  page_valid st h = true -> (ls_pages st).[lh_index h] = Some page -> pg_occupied page = true.
Proof. unfold page_valid. intros H Hp. rewrite Hp in H. by simp_bool. Qed.

Lemma page_test_true st h test :
  page_test st h test = true ->
  exists page, page_valid st h = true /\ (ls_pages st).[lh_index h] = Some page /\ pg_occupied page = true /\ test page = true.
Proof.
  unfold page_test. destruct (page_valid st h) eqn:Hv; [|done]. cbn. destruct ((ls_pages st).[lh_index h]) as [page|] eqn:Hp; [|done].
  intros Ht. exists page. split; [done|]. split; [done|]. split; [by eapply page_valid_occupied|done].
Qed.

(** Steps that read the state, in the order of the source. *)
Ltac safe_step :=
  lazymatch goal with
  | |- safe _ ((mget ≫= _) _) => apply safe_get; cbv beta
  | |- safe _ ((mthrow_if _ _ ≫= _) _) => apply safe_throw_if; let H := fresh "Hguard" in intros H; cbv beta
  | |- safe _ ((mlift _ ≫= _) _) => apply safe_lift; intros ? ?; cbv beta
  | |- safe _ ((require _ ≫= _) _) => apply safe_require; [assumption|intros page Hpage Hpk Hocc Hvalid; cbv beta]
  | |- safe _ ((page_ref _ ≫= _) _) => apply safe_page_ref; [assumption|intros page Hpage Hpk; cbv beta]
  end.

Lemma has_true {A} (o : option A) : has o = true <-> o <> None.
Proof. destruct o; naive_solver. Qed.

Lemma has_false {A} (o : option A) : has o = false <-> o = None.
Proof. destruct o; naive_solver. Qed.

(** Facts of the old descriptor, for the invariant of the new one. *)
Ltac page_facts H :=
  let H6 := fresh "Hpending" in let H7 := fresh "Hcontent" in let H8 := fresh "Hvacant" in
  destruct H as [? ? ? ? ? H6 H7 H8].

Ltac solve_page :=
  constructor; cbn; unfold kPagedKVPageSize, U32_MAX in *; try done; try lia; try congruence; try tauto.

(** A call that only rewrites counters of one descriptor. *)
Ltac counters :=
  repeat safe_step; simp_bool; rewrite ?has_true, ?has_false in *;
  eapply safe_put_page; [eassumption|eassumption| |reflexivity|reflexivity];
  match goal with H : page_ok _ |- _ => page_facts H end;
  unfold U32_MAX, kPagedKVPageSize in *; rewrite ?wrap32_small by (unfold U32_MAX; lia); solve_page.

Section Counters.
Context (s : kv) (Hs : kv_ok s) (h : LogicalKVPageHandle).

Lemma retain_active_safe : safe s (retain_active_reference h s).
Proof. unfold retain_active_reference. counters. Qed.

Lemma release_active_safe : safe s (release_active_reference h s).
Proof. unfold release_active_reference. counters. Qed.

Lemma pin_safe : safe s (pin_source h s).
Proof. unfold pin_source. counters. Qed.

Lemma unpin_safe : safe s (unpin_source h s).
Proof. unfold unpin_source. counters. Qed.

Lemma set_writer_safe w : safe s (set_writer h w s).
Proof. unfold set_writer. destruct w; counters. Qed.

Lemma protect_safe columns : is_u32 columns -> safe s (protect_coverage h columns s).
Proof. intros [? _]. unfold protect_coverage. counters. Qed.

Lemma set_protected_safe columns : is_u32 columns -> safe s (set_protected_coverage h columns s).
Proof. intros [? _]. unfold set_protected_coverage. counters. Qed.

Lemma clear_protection_safe : safe s (clear_protection h s).
Proof. unfold clear_protection. counters. Qed.
End Counters.

Section Descriptors.
Context (s : kv) (Hs : kv_ok s) (h : LogicalKVPageHandle).

Lemma retain_safe w : (tracked = true -> page_test (kv_store s) h has_content = true) -> safe s (retain_reference h w s).
Proof.
  intros Hret. unfold retain_reference. repeat safe_step. simp_bool.
  eapply safe_put_page; [eassumption|eassumption| |by destruct w|by destruct w].
  assert (Hnew : tracked = true -> pg_device_replica page <> None \/ host_current page = true).
  { intros (page0 & _ & Hp0 & _ & Hc)%Hret%page_test_true. simplify_eq. unfold has_content in Hc.
    apply orb_true_iff in Hc as [Hc%has_true|Hc]; [by left|by right]. }
  page_facts Hpk. unfold U32_MAX in *. rewrite wrap32_small by (unfold U32_MAX; lia). destruct w; solve_page.
Qed.

Lemma commit_safe columns : is_u32 columns -> safe s (commit_coverage h columns s).
Proof.
  intros [? _]. unfold commit_coverage. counters.
Qed.

Lemma next_epoch_changes page columns :
  page_leases (truncate_page columns page) = page_leases page /\ pg_occupied (truncate_page columns page) = pg_occupied page.
Proof. unfold truncate_page. by destruct (negb _). Qed.

(** Truncating a descriptor that has a device replica and no host replica. *)
Lemma truncate_page_ok page columns protected :
  page_ok page -> pg_occupied page = true -> (tracked = true -> pg_device_replica page <> None) ->
  0 <= protected <= columns -> columns <= pg_committed_columns page ->
  page_ok (set_protected_columns protected (truncate_page columns page)).
Proof.
  intros Hpk Hocc Hd Hp Hc. page_facts Hpk. unfold truncate_page. destruct (Z.eqb_spec columns (pg_committed_columns page)); solve_page.
  all: intros Ht _; left; by apply Hd.
Qed.

Lemma referenced_device page :
  page_ok page -> pg_references page = 1 -> pg_host_replica page = None -> tracked = true -> pg_device_replica page <> None.
Proof. intros H Hr Hh Ht. destruct (pk_content _ H Ht) as [?|Hc]; [lia|done|]. unfold host_current in Hc. by rewrite Hh in Hc. Qed.

Lemma truncate_safe columns : is_u32 columns -> safe s (destructive_truncate h columns s).
Proof.
  intros [? _]. unfold destructive_truncate. repeat safe_step. simp_bool. rewrite ?has_false in *.
  destruct (next_epoch_changes page columns). pose proof (pk_columns _ Hpk).
  pose proof (truncate_page_ok page columns (pg_protected_columns page) Hpk Hocc) as Hok.
  eapply safe_put_page; [eassumption|eassumption| |done|done].
  replace (truncate_page columns page) with (set_protected_columns (pg_protected_columns page) (truncate_page columns page))
    by (unfold truncate_page; by destruct (negb _), page).
  apply Hok; [by apply referenced_device|lia|lia].
Qed.

Lemma truncate_inactive_safe columns : is_u32 columns -> safe s (destructive_truncate_inactive h columns s).
Proof.
  intros [? _]. unfold destructive_truncate_inactive. repeat safe_step. apply negb_false_iff in Hguard.
  apply page_test_true in Hguard as (page0 & _ & Hp0 & _ & Hg). simplify_eq. simp_bool. rewrite ?has_true, ?has_false in *.
  destruct (next_epoch_changes page columns). pose proof (pk_columns _ Hpk).
  eapply safe_put_page; [eassumption|eassumption| |done|done].
  assert (Hpc : pg_protected_columns (truncate_page columns page) = pg_protected_columns page)
    by (unfold truncate_page; by destruct (negb _)).
  apply truncate_page_ok; [done|done|done|rewrite Hpc; lia|done].
Qed.

Lemma attach_safe r : safe s (attach_host_replica h r s).
Proof.
  unfold attach_host_replica. repeat safe_step. simp_bool.
  match goal with H : can_attach_host_replica _ _ _ _ = true |- _ => apply page_test_true in H as (page0 & _ & Hp0 & _ & Hg) end.
  simplify_eq. simp_bool. rewrite ?has_false in *.
  eapply safe_put_page; [eassumption|eassumption| |done|done]. page_facts Hpk. solve_page.
  intros Ht Hr. destruct (Hcontent Ht Hr) as [|Hc]; [by left|]. unfold host_current in Hc.
  match goal with H : pg_host_replica _ = None |- _ => by rewrite H in Hc end.
Qed.

Lemma rebind_safe e r : safe s (rebind_host_replica h e r s).
Proof.
  unfold rebind_host_replica. repeat safe_step. simp_bool. pose proof (page_valid_occupied _ _ _ Hguard Hpage) as Hocc.
  destruct (pg_host_replica page) as [r0|] eqn:Hr0; [|done]. repeat safe_step. simp_bool.
  eapply safe_put_page; [eassumption|eassumption| |done|done]. page_facts Hpk. solve_page.
  intros Ht Hr. destruct (Hcontent Ht Hr) as [|Hc]; [by left|]. right. unfold host_current, replica_current in *. cbn. rewrite Hr0 in Hc.
  simp_bool. apply andb_true_iff. rewrite !Z.eqb_eq. lia.
Qed.

Lemma publish_transfer_safe w : safe s (publish_transfer_destination h w s).
Proof.
  unfold publish_transfer_destination, not_transfer_destination. repeat safe_step. simp_bool. rewrite ?has_true, ?has_false in *.
  match goal with H : page_valid _ _ = true |- _ => pose proof (page_valid_occupied _ _ _ H Hpage) as Hocc end.
  eapply safe_put_page; [eassumption|eassumption| |done|done]. page_facts Hpk. destruct w; solve_page; (intros _ _; by left).
Qed.

Lemma publish_device_safe : safe s (publish_device_replica h s).
Proof.
  unfold publish_device_replica. repeat safe_step. simp_bool. rewrite ?has_true, ?has_false in *.
  eapply safe_put_page; [eassumption|eassumption| | |done].
  - page_facts Hpk. solve_page.
  - unfold page_leases. cbn. match goal with H : pg_device_replica _ = None |- _ => rewrite H end. by rewrite app_nil_r.
Qed.
End Descriptors.

(** ** Calls that move leases *)
Section Moves.
Context (s : kv) (Hs : kv_ok s) (h : LogicalKVPageHandle).

(** A lease leaves the descriptor and goes back to a reservation. *)
Lemma give_back_inv i page page' k r p r' l l' :
  (ls_pages (kv_store s)).[i] = Some page -> page_ok page' -> pg_occupied page' = pg_occupied page ->
  page_leases page ≡ₚ l :: page_leases page' ->
  kv_reservations s !! k = Some r -> dematerialize_one (kv_pool s) r l = Ok (p, r', l') ->
  kv_ok (mkKv p (<[k := r']> (kv_reservations s)) (kv_store (set_pages ((ls_pages (kv_store s)).[i <- page']) s))).
Proof.
  intros Hp Hok Hocc Hl Hk Hm.
  apply (give_one_inv [] (set_pages ((ls_pages (kv_store s)).[i <- page']) s) k r p r' l l'); [|done|done].
  eapply write_inv; [done|done|done| |done]. cbn. by rewrite Hl.
Qed.

(** A lease leaves the descriptor and is destroyed. *)
Lemma destroy_inv i page page' l :
  (ls_pages (kv_store s)).[i] = Some page -> page_ok page' -> pg_occupied page' = pg_occupied page ->
  page_leases page ≡ₚ l :: page_leases page' ->
  kv_ok (set_pool (fst (fst (lease_release (kv_pool s) l))) (set_pages ((ls_pages (kv_store s)).[i <- page']) s)).
Proof.
  intros Hp Hok Hocc Hl.
  apply (drop_one_inv [] (set_pages ((ls_pages (kv_store s)).[i <- page']) s) l).
  eapply write_inv; [done|done|done| |done]. cbn. by rewrite Hl.
Qed.

(** The vacated descriptor. *)
Definition vacated (page : Page) : Page :=
  mkPage (increment_generation (pg_generation page)) (pg_content_epoch page) 0 0 0 0 0 0 false false None None None.

Lemma vacated_ok page : page_ok page -> page_ok (vacated page).
Proof.
  intros Hpk. pose proof (increment_generation_spec _ (pk_generation _ Hpk)) as [? _]. page_facts Hpk. solve_page.
Qed.

(** Where [release_descriptor] leaves the store. *)
Definition vacate (i : Z) (page : Page) (st : LogicalKVPageStore) : LogicalKVPageStore :=
  mkStore (ls_this st) ((ls_pages st).[i <- vacated page]) ((ls_free st).[ls_free_count st <- i]) (ls_free_count st + 1) (ls_scratch st).

Lemma release_descriptor_eq s1 page :
  (ls_pages (kv_store s1)).[lh_index h] = Some page -> page_leases page = [] ->
  0 <= ls_free_count (kv_store s1) < vsize (ls_free (kv_store s1)) -> ls_free_count (kv_store s1) < U32_MAX ->
  release_descriptor h s1 =
    if pg_active_references page =? 0
    then (mkKv (kv_pool s1) (kv_reservations s1) (vacate (lh_index h) page (kv_store s1)), Ok tt)
    else (s1, Err Terminate).
Proof.
  intros Hp Hl Hc Hu. destruct (vget_is_Some _ _ Hc) as [x Hx].
  unfold page_leases in Hl. apply app_eq_nil in Hl as [Hd Hpd].
  destruct (pg_device_replica page) eqn:Ed; [done|]. destruct (pg_pending_device_replica page) eqn:Epd; [done|].
  unfold release_descriptor, page_ref, mthrow_if, mlift, mget, throw_if, mbind, M_bind.
  rewrite (proj2 (vat_Ok _ _ _) Hp). destruct (pg_active_references page =? 0); [|done]. cbn. rewrite Epd. cbn.
  unfold push_free, mget, mlift, mbind, M_bind. cbn. rewrite (proj2 (vat_Ok _ _ _) Hx). cbn.
  unfold vacate, vacated. rewrite wrap32_small by (unfold U32_MAX in *; lia). by rewrite Ed.
Qed.

(** The store after an occupied descriptor was vacated. *)
Lemma vacate_ok i page :
  (ls_pages (kv_store s)).[i] = Some page -> pg_occupied page = true ->
  kv_inv (page_leases page) (mkKv (kv_pool s) (kv_reservations s) (vacate i page (kv_store s))) /\
  0 <= ls_free_count (kv_store s) < vsize (ls_free (kv_store s)) /\ ls_free_count (kv_store s) < U32_MAX.
Proof.
  intros Hp Hocc. pose proof (ki_store _ _ Hs) as H. pose proof (so_count _ H). pose proof (so_capacity _ H).
  pose proof (free_room [] s _ _ Hs Hp Hocc). split; [|rewrite (so_free_size _ H); lia].
  apply (vacate_inv [] _ s i page (vacated page)); try done; [|by rewrite app_nil_r].
  by apply vacated_ok, (so_pages _ H i).
Qed.

Lemma abort_device_safe k : safe s (abort_device_replica h k s).
Proof.
  apply safe_noexcept. repeat safe_step. destruct (page_valid (kv_store s) h) eqn:Hv; [cbn [negb]|done]. repeat safe_step.
  destruct (pg_pending_device_replica page) as [l|] eqn:Epd; [|done].
  destruct (pg_destination_pinned page) eqn:Edp; [cbn [negb]|done].
  unfold pool_dematerialize_one, mget, mlift, mbind, M_bind. destruct (kv_reservations s !! k) as [r|] eqn:Ek; [|done].
  destruct (dematerialize_one (kv_pool s) r l) as [[[p r'] l']|e] eqn:Em; [|apply safe_err]. cbn.
  pose proof (page_valid_occupied _ _ _ Hv Hpage) as Hocc.
  destruct (pk_pending _ Hpk) as [Hd _]; [by rewrite Epd|].
  eapply give_back_inv; [done| |done| |done|exact Em].
  - page_facts Hpk. solve_page.
  - unfold page_leases. cbn. by rewrite Epd, Hd.
Qed.

(** The tail of [dematerialize] and [abort_transfer_destination]. *)
Lemma give_and_vacate page k l :
  (ls_pages (kv_store s)).[lh_index h] = Some page -> pg_occupied page = true -> page_leases page = [l] ->
  pg_device_replica page = Some l ->
  safe s ((_ ← pool_dematerialize_one k l; _ ← put_page (lh_index h) (set_device_replica None page); release_descriptor h) s).
Proof.
  intros Hp Hocc Hl Hd. destruct (vacate_ok _ _ Hp Hocc) as (Hinv & Hc & Hu). rewrite Hl in Hinv.
  unfold pool_dematerialize_one, put_page, mmodify, mget, mlift, mput, mbind, M_bind.
  destruct (kv_reservations s !! k) as [r|] eqn:Ek; [|done].
  destruct (dematerialize_one (kv_pool s) r l) as [[[p r'] l']|e] eqn:Em; [|apply safe_err].
  pose proof (vget_Some_bounds _ _ _ Hp) as Hb.
  rewrite (release_descriptor_eq _ (set_device_replica None page)); cbn;
    [|by apply vget_vset_eq|unfold page_leases in *; rewrite Hd in Hl; cbn in *; by injection Hl|done|done].
  destruct (pg_active_references page =? 0); [|done].
  pose proof (give_one_inv [] _ _ _ _ _ _ _ Hinv Ek Em) as Hfin. cbn in Hfin.
  unfold vacate in *. cbn in *. rewrite vset_vset_eq. exact Hfin.
Qed.

Lemma single_lease page l :
  page_ok page -> pg_device_replica page = Some l -> page_leases page = [l].
Proof.
  intros Hpk Hd. unfold page_leases. rewrite Hd. destruct (pg_pending_device_replica page) eqn:E; [|done].
  destruct (pk_pending _ Hpk) as [? _]; [by rewrite E|]. congruence.
Qed.

Lemma dematerialize_safe k : safe s (dematerialize h k s).
Proof.
  unfold dematerialize. repeat safe_step. destruct (pg_device_replica page) as [l|] eqn:Ed; [|done].
  eapply give_and_vacate; [done|done|by apply single_lease|done].
Qed.

Lemma abort_transfer_safe k : safe s (abort_transfer_destination h k s).
Proof.
  apply safe_noexcept. repeat safe_step. destruct (page_valid (kv_store s) h) eqn:Hv; [cbn [negb]|done]. repeat safe_step.
  destruct (not_transfer_destination page); [done|]. destruct (pg_device_replica page) as [l|] eqn:Ed; [|done].
  pose proof (page_valid_occupied _ _ _ Hv Hpage). eapply give_and_vacate; [done|done|by apply single_lease|done].
Qed.

Lemma drop_device_safe : safe s (drop_device_replica h s).
Proof.
  unfold drop_device_replica. repeat safe_step. destruct (can_drop_device_replica _ _) eqn:Hg; [cbn [negb]|done].
  apply page_test_true in Hg as (page & Hv & Hp & Hocc & Hg). simp_bool. rewrite ?has_true, ?has_false in *.
  match goal with H : host_replica_current _ _ = true |- _ => apply page_test_true in H as (page0 & _ & Hp0 & _ & Hcur) end. simplify_eq.
  unfold reset_device, page_ref, mget, mlift, mbind, M_bind. rewrite (proj2 (vat_Ok _ _ _) Hp). cbn.
  destruct (pg_device_replica page) as [l|] eqn:Ed; [|done]. cbn.
  pose proof (so_pages _ (ki_store _ _ Hs) _ _ Hp) as Hpk.
  apply (destroy_inv (lh_index h) page (set_device_replica None page) l); [done| |done|].
  - page_facts Hpk. solve_page.
  - rewrite (single_lease _ _ Hpk Ed). unfold page_leases. cbn. by match goal with H : pg_pending_device_replica _ = None |- _ => rewrite H end.
Qed.

(** The pool after the destructor of an optional lease. *)
Definition dropped (o : option DeviceKVPageLease) (p : DeviceKVPagePool) : DeviceKVPagePool :=
  match o with
  | Some l => fst (fst (lease_release p l))
  | None => p
  end.

Lemma reset_device_eq s1 page :
  (ls_pages (kv_store s1)).[lh_index h] = Some page ->
  reset_device h s1 =
    (mkKv (dropped (pg_device_replica page) (kv_pool s1)) (kv_reservations s1)
       (kv_store (set_pages ((ls_pages (kv_store s1)).[lh_index h <- set_device_replica None page]) s1)), Ok tt).
Proof.
  intros Hp. unfold reset_device, page_ref, reset_lease, put_page, mmodify, mget, mlift, mbind, M_bind.
  rewrite (proj2 (vat_Ok _ _ _) Hp). by destruct (pg_device_replica page).
Qed.

(** The pool gives a lease of the store up. *)
Lemma dropped_inv o st :
  kv_inv (option_list o) (mkKv (kv_pool s) (kv_reservations s) st) ->
  kv_ok (mkKv (dropped o (kv_pool s)) (kv_reservations s) st).
Proof. destruct o as [l|]; [|done]. exact (drop_one_inv [] (mkKv (kv_pool s) (kv_reservations s) st) l). Qed.

Lemma release_reference_safe w : safe s (release_reference h w s).
Proof.
  apply safe_noexcept. repeat safe_step. destruct (can_release_reference _ _ _) eqn:Hg; [cbn [negb]|done].
  apply page_test_true in Hg as (page & Hv & Hp & Hocc & Hg). simp_bool.
  pose proof (so_pages _ (ki_store _ _ Hs) _ _ Hp) as Hpk. pose proof (vget_Some_bounds _ _ _ Hp) as Hb.
  unfold page_ref, put_page, mmodify, mget, mlift, mbind, M_bind. rewrite (proj2 (vat_Ok _ _ _) Hp). cbn [fst].
  assert (exists w', 0 <= w' <= 1 /\
    set_references (wrap32 (pg_references (if w then set_writer_references 0 page else page) - 1))
      (if w then set_writer_references 0 page else page) =
    set_writer_references w' (set_references (pg_references page - 1) page)) as (w' & Hw' & ->).
  { pose proof (pk_references _ Hpk). pose proof (pk_writer _ Hpk). unfold U32_MAX in *.
    destruct w; cbn; rewrite wrap32_small by (unfold U32_MAX; lia); [by exists 0|exists (pg_writer_references page); by destruct page]. }
  assert (Hpd : pg_pending_device_replica page = None).
  { destruct (pg_pending_device_replica page) eqn:E; [|done]. destruct (pk_pending _ Hpk) as [_ ?]; [by rewrite E|]. congruence. }
  assert (Hleases : page_leases page = option_list (pg_device_replica page)).
  { unfold page_leases. rewrite Hpd. apply app_nil_r. }
  cbn [pg_references set_writer_references set_references]. destruct (Z.eqb_spec (pg_references page - 1) 0) as [Hz|Hz]; cbn [negb].
  2:{ eapply (write_inv [] [] s _ page); [done|done| |done|done]. page_facts Hpk. solve_page. }
  rewrite (reset_device_eq _ (set_writer_references w' (set_references (pg_references page - 1) page))) by (by apply vget_vset_eq).
  cbn. rewrite vset_vset_eq. destruct (has (pg_host_replica page)) eqn:Hh; cbn [negb].
  - apply dropped_inv. eapply (write_inv [] _ s _ page); [done|done| | |done].
    + page_facts Hpk. solve_page.
    + rewrite app_nil_l, Hleases. unfold page_leases. cbn. by rewrite Hpd, app_nil_r.
  - destruct (vacate_ok _ _ Hp Hocc) as (Hinv & Hc & Hu). rewrite Hleases in Hinv.
    erewrite release_descriptor_eq; cbn; [|by apply vget_vset_eq|unfold page_leases; cbn; by rewrite Hpd|done|done].
    pose proof (pk_references _ Hpk). cbn. rewrite (proj2 (Z.eqb_eq (pg_active_references page) 0)) by lia.
    apply dropped_inv. unfold vacate in *. cbn in *. by rewrite vset_vset_eq.
Qed.

Lemma detach_safe x : safe s (detach_host_replica h x s).
Proof.
  apply safe_noexcept. repeat safe_step. destruct (page_valid (kv_store s) h) eqn:Hv; [cbn [negb]|done]. repeat safe_step.
  pose proof (page_valid_occupied _ _ _ Hv Hpage) as Hocc. pose proof (vget_Some_bounds _ _ _ Hpage) as Hb.
  destruct (pg_host_replica page) as [r|] eqn:Er; [|done]. destruct (_ || _) eqn:Eg; [done|]. apply orb_false_iff in Eg as [_ Eg].
  unfold put_page, mmodify, mbind, M_bind. destruct (_ && negb (has (pg_device_replica page))) eqn:Erel.
  - simp_bool. rewrite has_false in *. destruct (vacate_ok _ _ Hpage Hocc) as (Hinv & Hc & Hu).
    unfold release_descriptor, page_ref, reset_lease, put_page, mthrow_if, throw_if, mmodify, mget, mlift, mbind, M_bind. cbn [set_pages kv_store ls_pages].
    rewrite (proj2 (vat_Ok _ _ _) (vget_vset_eq _ _ _ Hb)). cbn.
    pose proof (pk_references _ Hpk). rewrite (proj2 (Z.eqb_eq (pg_active_references page) 0)) by lia. cbn.
    destruct (vget_is_Some _ _ Hc) as [y Hy].
    assert (Hleases : page_leases page = option_list (pg_pending_device_replica page)).
    { unfold page_leases. by match goal with H : pg_device_replica page = None |- _ => rewrite H end. }
    rewrite Hleases in Hinv. pose proof (dropped_inv _ _ Hinv) as Hfin.
    unfold vacate, vacated in Hfin. unfold push_free, mget, mlift, mbind, M_bind.
    match goal with H : pg_device_replica page = None |- _ => rewrite H end.
    destruct (pg_pending_device_replica page); cbn in *; rewrite (proj2 (vat_Ok _ _ _) Hy); cbn;
      rewrite vset_vset_eq, wrap32_small by (unfold U32_MAX in *; lia); exact Hfin.
  - eapply (write_inv [] [] s _ page); [done|done| |done|done]. page_facts Hpk. solve_page.
    intros Hr. left. destruct (pg_device_replica page); [done|]. cbn in Eg. apply negb_false_iff, Z.eqb_eq in Eg. lia.
Qed.

Lemma release_safe : safe s (release_page_handle h s).
Proof.
  unfold release_page_handle. repeat safe_step. destruct (page_valid (kv_store s) h); [cbn [negb]|done].
  repeat safe_step. apply release_reference_safe.
Qed.

Lemma reserve_device_safe k : safe s (reserve_device_replica h k s).
Proof.
  unfold reserve_device_replica. repeat safe_step. simp_bool. rewrite ?has_true, ?has_false in *.
  unfold pool_materialize_one, mget, mlift, mput, mbind, M_bind. destruct (kv_reservations s !! k) as [r|] eqn:Ek; [|done].
  destruct (materialize_one (kv_pool s) r) as [[[p r'] l]|e] eqn:Em; [|apply safe_err]. cbn.
  pose proof (take_one_inv _ _ _ _ _ _ _ Hs Ek Em) as Hinv.
  apply (write_inv [l] [] _ (lh_index h) page (set_destination_pinned true (set_pending_device_replica (Some l) page)) Hinv); [done| | |done].
  - page_facts Hpk. solve_page.
  - unfold page_leases. cbn. repeat match goal with H : _ = None |- _ => rewrite H end. done.
Qed.
End Moves.

(** ** Fresh descriptors *)

(** A lease that was just taken goes into a vacant descriptor. *)
Lemma fill_inv held s l i page page' :
  kv_inv (l :: held) s -> 0 < ls_free_count (kv_store s) ->
  (ls_free (kv_store s)).[ls_free_count (kv_store s) - 1] = Some i -> (ls_pages (kv_store s)).[i] = Some page ->
  page_leases page' = [l] -> pg_occupied page' = true -> page_ok page' ->
  pg_device_replica page = None /\
  kv_inv held (set_pages ((ls_pages (kv_store s)).[i <- page'])
                 (set_free (ls_free (kv_store s)) (ls_free_count (kv_store s) - 1) s)).
Proof.
  intros Hinv Hc Hi Hp Hl Hocc Hok. pose proof (ki_store _ _ Hinv) as H.
  assert (i ∈ free_descriptors (kv_store s)) as (q & Hq & Hvac)%(so_free _ H).
  { rewrite (free_pop _ _ Hc Hi). apply elem_of_app. right. by left. }
  simplify_eq. destruct (pk_vacant _ (so_pages _ H _ _ Hp) Hvac) as (_ & _ & _ & Hd & Hpd & _). split; [done|].
  eapply occupy_inv; try done. rewrite Hl. unfold page_leases. rewrite Hd, Hpd. cbn. rewrite app_nil_r. by rewrite Permutation_app_comm.
Qed.

Lemma vacant_page s i :
  store_ok (kv_store s) -> 0 < ls_free_count (kv_store s) -> (ls_free (kv_store s)).[ls_free_count (kv_store s) - 1] = Some i ->
  exists page, (ls_pages (kv_store s)).[i] = Some page /\ pg_occupied page = false /\ page_ok page.
Proof.
  intros H Hc Hi. assert (i ∈ free_descriptors (kv_store s)) as (q & Hq & Hvac)%(so_free _ H).
  { rewrite (free_pop _ _ Hc Hi). apply elem_of_app. right. by left. }
  exists q. split; [done|]. split; [done|]. by apply (so_pages _ H i).
Qed.

Lemma fresh_page_ok l page : page_ok page -> pg_occupied page = false -> page_ok (fresh_page l page) /\ page_leases (fresh_page l page) = [l].
Proof.
  intros Hpk Hv. destruct (pk_vacant _ Hpk Hv) as (? & ? & ? & ? & Hpd & ?). page_facts Hpk. split.
  - solve_page. intros _. by left.
  - unfold page_leases. cbn. by rewrite Hpd.
Qed.

(** The common tail of the two functions that materialize one page. *)
Lemma take_descriptor_safe s k (make : DeviceKVPageLease -> Page -> Page) (name : Z -> Page -> LogicalKVPageHandle) :
  kv_ok s -> ls_free_count (kv_store s) <> 0 ->
  (forall l page, page_ok page -> pg_occupied page = false ->
     page_ok (make l page) /\ page_leases (make l page) = [l] /\ pg_occupied (make l page) = true) ->
  safe s ((lease ← pool_materialize_one k; index ← pop_free; page ← page_ref index;
           _ ← reset_lease (pg_device_replica page); _ ← put_page index (make lease page); mret (name index page)) s).
Proof.
  intros Hs Hc Hmake. pose proof (ki_store _ _ Hs) as H. pose proof (so_count _ H). pose proof (so_capacity _ H).
  unfold pool_materialize_one, pop_free, page_ref, reset_lease, put_page, mmodify, mget, mlift, mput, mbind, M_bind.
  destruct (kv_reservations s !! k) as [r|] eqn:Ek; [|done].
  destruct (materialize_one (kv_pool s) r) as [[[p r'] l]|e] eqn:Em; [|apply safe_err]. cbn.
  pose proof (take_one_inv _ _ _ _ _ _ _ Hs Ek Em) as Hinv.
  rewrite wrap32_small by (unfold U32_MAX in *; lia).
  destruct (vget_is_Some (ls_free (kv_store s)) (ls_free_count (kv_store s) - 1)) as [i Hi]; [rewrite (so_free_size _ H); lia|].
  destruct (vacant_page s i H ltac:(lia) Hi) as (page & Hp & Hvac & Hpk). destruct (Hmake l page Hpk Hvac) as (Hok & Hl & Hocc).
  rewrite (proj2 (vat_Ok _ _ _) Hi). cbn. rewrite (proj2 (vat_Ok _ _ _) Hp). cbn.
  destruct (fill_inv [] (mkKv p (<[k := r']> (kv_reservations s)) (kv_store s)) l i page (make l page) Hinv) as [Hd Hfin]; try done; [cbn; lia|].
  rewrite Hd. exact Hfin.
Qed.

Lemma materialize_safe s k : kv_ok s -> safe s (materialize k s).
Proof.
  intros Hs. unfold materialize. repeat safe_step. simp_bool. apply take_descriptor_safe; [done|done|].
  intros l page Hpk Hv. destruct (fresh_page_ok l page Hpk Hv). done.
Qed.

Lemma materialize_transfer_safe s k columns : kv_ok s -> is_u32 columns -> safe s (materialize_transfer_destination k columns s).
Proof.
  intros Hs [? _]. unfold materialize_transfer_destination. repeat safe_step. simp_bool.
  apply take_descriptor_safe with (make := fun lease page => mkPage _ _ columns 0 0 0 _ 0 true true (Some lease) _ _); [done|done|].
  intros l page Hpk Hv. destruct (pk_vacant _ Hpk Hv) as (? & ? & ? & ? & Hpd & ?). page_facts Hpk.
  split; [solve_page|]. split; [|done]. unfold page_leases. cbn. by rewrite Hpd.
Qed.

(** The batch fills descriptors from the top of the free list; after [offset]
    of them, the store is that of a free list shorter by [offset]. *)
Definition shorter (offset : Z) (s : kv) : kv := set_free (ls_free (kv_store s)) (ls_free_count (kv_store s) - offset) s.

Lemma fill_descriptors_inv leases : forall offset s,
  0 <= offset -> offset + vsize leases <= ls_free_count (kv_store s) -> ls_free_count (kv_store s) <= U32_MAX ->
  kv_inv leases (shorter offset s) ->
  exists s' handles, fill_descriptors offset leases s = (s', Ok handles) /\ length handles = length leases /\
    ls_free (kv_store s') = ls_free (kv_store s) /\ ls_free_count (kv_store s') = ls_free_count (kv_store s) /\
    kv_ok (shorter (offset + vsize leases) s').
Proof.
  induction leases as [|l leases IH]; intros offset s Ho Hle Hu Hinv.
  { exists s, []. rewrite Z.add_0_r. done. }
  rewrite vsize_cons in *. pose proof (vsize_nonneg leases) as Hnn. pose proof (ki_store _ _ Hinv) as H.
  assert (Hcap : vsize (ls_free (kv_store s)) = store_capacity (kv_store s)) by exact (so_free_size _ H).
  pose proof (so_count _ H) as Hc. change (ls_free_count (kv_store (shorter offset s))) with (ls_free_count (kv_store s) - offset) in Hc.
  change (store_capacity (kv_store (shorter offset s))) with (store_capacity (kv_store s)) in Hc.
  destruct (vget_is_Some (ls_free (kv_store s)) (ls_free_count (kv_store s) - offset - 1)) as [i Hi]; [lia|].
  destruct (vacant_page (shorter offset s) i H) as (page & Hp & Hvac & Hpk); [cbn; lia|done|].
  destruct (fresh_page_ok l page Hpk Hvac) as [Hok Hl].
  destruct (fill_inv leases (shorter offset s) l i page (fresh_page l page) Hinv) as [Hd Hnext]; try done; [cbn; lia|].
  cbn [fill_descriptors]. unfold page_ref, reset_lease, put_page, mmodify, mget, mlift, mbind, M_bind.
  rewrite (wrap32_small (_ - 1)), wrap64_small by (unfold U64_MAX, U32_MAX in *; lia).
  replace (ls_free_count (kv_store s) - 1 - offset) with (ls_free_count (kv_store s) - offset - 1) by lia.
  rewrite (proj2 (vat_Ok _ _ _) Hi). cbn. cbn in Hp. rewrite (proj2 (vat_Ok _ _ _) Hp). cbn. rewrite Hd.
  destruct (IH (offset + 1) (set_pages ((ls_pages (kv_store s)).[i <- fresh_page l page]) s)) as (s' & hs & E & Hlen & Hf & Hcnt & Hfin).
  - lia.
  - cbn. lia.
  - done.
  - unfold shorter in *. cbn in *. replace (ls_free_count (kv_store s) - (offset + 1)) with (ls_free_count (kv_store s) - offset - 1) by lia. exact Hnext.
  - rewrite E. exists s'. eexists. split; [done|]. split; [cbn; by rewrite Hlen|]. split; [done|]. split; [done|].
    by replace (offset + (1 + vsize leases)) with (offset + 1 + vsize leases) by lia.
Qed.

Lemma safe_read {A B} s (m : K A) (k : A -> K B) :
  fst (m s) = s -> (forall a, m s = (s, Ok a) -> safe s (k a s)) -> safe s ((m ≫= k) s).
Proof.
  intros Hm Hk. unfold mbind, M_bind. destruct (m s) as [s' [a|e]]; cbn in Hm; subst; [by apply Hk|apply safe_err].
Qed.

Lemma physical_reads h s : fst (physical h s) = s.
Proof.
  unfold physical, require, mthrow_if, mthrow, mlift, mget, mret, M_ret, mbind, M_bind. destruct (throw_if _ _); [|done].
  destruct (vat _ _) as [page|]; [|done]. by destruct (pg_device_replica page).
Qed.

Lemma materialize_batch_safe s k ds pred : kv_ok s -> safe s (materialize_batch k ds pred s).
Proof.
  intros Hs. pose proof (ki_store _ _ Hs) as H. pose proof (so_count _ H) as Hc. pose proof (so_capacity _ H) as Hcap.
  unfold materialize_batch. destruct (Z.eqb_spec (vsize ds) 0); [done|]. pose proof (vsize_nonneg ds).
  repeat safe_step. simp_bool. apply safe_read.
  { destruct pred as [h|]; [|done]. pose proof (physical_reads h s). unfold mbind, M_bind. by destruct (physical h s) as [? []]. }
  intros pp _. rewrite (wrap32_small (vsize ds)) by (unfold U32_MAX in *; lia).
  unfold pool_materialize, mget, mlift, mput, mmodify, mbind, M_bind. destruct (kv_reservations s !! k) as [r|] eqn:Ek; [|done].
  destruct (PagedKv.materialize _ r _ _ _ pp) as [[[p r'] ls]|e] eqn:Em; [|apply safe_err]. cbn.
  assert (Hu : is_u32 (vsize ds)) by (unfold is_u32, U32_MAX in *; lia).
  pose proof (take_many_length _ _ _ _ _ _ _ _ _ _ Hs Hu Ek Em) as Hn.
  pose proof (take_many_inv _ _ _ _ _ _ _ _ _ _ Hs Hu Ek Em) as Hinv. rewrite app_nil_r in Hinv.
  destruct (fill_descriptors_inv ls 0 (mkKv p (<[k := r']> (kv_reservations s)) (kv_store s))) as (s' & hs & E & _ & Hf & Hcnt & Hfin).
  - lia.
  - cbn. lia.
  - cbn. unfold U32_MAX in *. lia.
  - unfold shorter. cbn. rewrite Z.sub_0_r. by destruct s as [? ? []].
  - rewrite E. cbn. unfold shorter in Hfin. rewrite Hn in Hfin. cbn in Hcnt.
    rewrite wrap32_small by (unfold U32_MAX in *; lia). exact Hfin.
Qed.

(** ** Reservations *)
Lemma kv_reserve_safe s n : kv_ok s -> is_u32 n -> safe s (kv_reserve n s).
Proof.
  intros [Hp Hs] Hn. unfold kv_reserve, mmodify. destruct (reserve (kv_pool s) n) as [p [r|]] eqn:E; cbn.
  - split; [|done]. cbn. by eapply client_step_reserve.
  - assert (p = kv_pool s) as -> by (unfold reserve in E; by case_match; simplify_eq). by destruct s.
Qed.

Lemma kv_resize_safe s k n : kv_ok s -> is_u32 n -> safe s (kv_resize k n s).
Proof.
  intros [Hp Hs] Hn. unfold kv_resize, mget, mlift, mput, mthrow, mbind, M_bind. destruct (kv_reservations s !! k) as [r|] eqn:Ek; [|done].
  destruct (resize_reservation _ r n) as [[p r']|e] eqn:E; [|apply safe_err]. cbn. split; [|done]. cbn. by eapply client_step_resize.
Qed.

Lemma kv_drop_safe s k : kv_ok s -> safe s (kv_drop_reservation k s).
Proof.
  intros [Hp Hs]. unfold kv_drop_reservation, mget, mlift, mput, mthrow, mbind, M_bind. destruct (kv_reservations s !! k) as [r|] eqn:Ek; [|done].
  destruct (reservation_release _ r) as [[p r']|e] eqn:E; [|apply safe_err]. cbn. split; [|done]. cbn.
  eapply (client_step_ok _ _ Hp). by eapply step_drop_reservation.
Qed.

(** Every call is safe. *)
Lemma run_call_safe s c : kv_ok s -> call_ok s c -> (tracked = true -> retains_content s c) -> safe s (run_call c s).
Proof.
  intros Hs Hc Hr. destruct c; cbn [run_call call_ok retains_content] in *; try apply safe_ignore.
  - by apply kv_reserve_safe.
  - destruct Hs as [Hp Hst]. split; [|done]. cbn. eapply (client_step_ok _ _ Hp). apply step_empty.
  - by apply kv_resize_safe.
  - by apply kv_drop_safe.
  - by apply materialize_safe.
  - by apply materialize_batch_safe.
  - by apply materialize_transfer_safe.
  - by apply publish_transfer_safe.
  - by apply abort_transfer_safe.
  - by apply reserve_device_safe.
  - by apply publish_device_safe.
  - by apply abort_device_safe.
  - by apply drop_device_safe.
  - by apply retain_active_safe.
  - by apply release_active_safe.
  - by apply retain_safe.
  - by apply set_writer_safe.
  - by apply protect_safe.
  - by apply set_protected_safe.
  - by apply clear_protection_safe.
  - by apply pin_safe.
  - by apply unpin_safe.
  - by apply commit_safe.
  - by apply truncate_safe.
  - by apply truncate_inactive_safe.
  - by apply release_reference_safe.
  - by apply release_safe.
  - by apply attach_safe.
  - by apply rebind_safe.
  - by apply detach_safe.
  - by apply dematerialize_safe.
Qed.

(** * Reachable states *)

(** With [careful] the callers take references only to pages with content. *)
Inductive kv_reachable (careful : bool) (s0 : kv) : kv -> Prop :=
  | kr_init : kv_reachable careful s0 s0
  | kr_call s c s' r :
      kv_reachable careful s0 s -> call_ok s c -> (careful = true -> retains_content s c) ->
      run_call c s = (s', r) -> r <> Err Terminate -> kv_reachable careful s0 s'.

(** A pool and a store over it, just constructed, and a state reached from there. *)
Definition kv_of (careful : bool) (this : Z) (backing : DeviceSpan) (layout : DeviceKVPagePoolLayout) (store_this capacity : Z) (s : kv) : Prop :=
  exists p0 st0, 0 < this /\ is_u32 (ps_page_group_count (pool_layout_spec layout)) /\ make_pool this backing layout = Ok p0 /\
    is_u32 capacity /\ make_store store_this p0 capacity = Ok st0 /\ kv_reachable careful (mkKv p0 [] st0) s.

Lemma replicas_default n : replicas (replicate n default_page) = [].
Proof. unfold replicas. by induction n. Qed.

Lemma make_page_store_ok this p capacity st :
  is_u32 capacity -> make_store this p capacity = Ok st -> store_ok st /\ replicas (ls_pages st) = [].
Proof.
  intros [Hu Hu'] H. unfold make_store in H. simp_res. simp_bool. split; [|apply replicas_default].
  assert (Hfree : take (Z.to_nat capacity) (map (fun index => capacity - 1 - index) (seqZ 0 capacity)) =
                  map (fun index => capacity - 1 - index) (seqZ 0 capacity)).
  { apply take_ge. rewrite length_map, length_seqZ. lia. }
  constructor; unfold store_capacity, free_descriptors, vsize; cbn; rewrite ?length_replicate, ?length_map, ?length_seqZ, ?Hfree; try lia.
  - apply NoDup_fmap_2_strong; [intros x y _ _; lia|apply NoDup_seqZ].
  - intros i. rewrite list_elem_of_fmap. setoid_rewrite elem_of_seqZ. split.
    + intros (x & -> & Hx). exists default_page. split; [apply vget_replicate; lia|done].
    + intros (page & Hp & _). apply vget_Some_bounds in Hp. unfold vsize in Hp. rewrite length_replicate in Hp.
      exists (capacity - 1 - i). lia.
  - intros i page ->%vget_elem%elem_of_replicate_inv. solve_page.
Qed.

Lemma kv_of_ok this backing layout store_this capacity s : kv_of tracked this backing layout store_this capacity s -> kv_ok s.
Proof.
  intros (p0 & st0 & Ht & Hu & Hm & Hc & Hst & Hr). destruct (make_page_store_ok _ _ _ _ Hc Hst) as [Hok Hrep].
  induction Hr as [|s c s' r _ IH Hcall Hret Hrun Hne].
  - split; [|done]. cbn. rewrite Hrep. pose proof (make_pool_fresh _ _ _ _ Hm) as [? ?].
    eapply (client_ok_perm _ _ []); [done|]. eapply reachable_client_ok; [by eapply make_pool_wf|done|done|apply reach_init].
  - pose proof (run_call_safe s c IH Hcall Hret) as Hsafe. rewrite Hrun in Hsafe. destruct r as [[]|e]; [done|].
    cbn in Hsafe. destruct e; try (by subst); congruence.
Qed.

End Calls.

Notation page_ok := (@page_ok_at true).
Notation store_ok := (@store_ok_at true).
Notation kv_inv := (@kv_inv_at true).
Notation kv_ok := (@kv_inv_at true []).
Notation safe := (@safe_at true _).
(** The invariant without the content of referenced pages. *)
Notation kv_sound := (@kv_inv_at false []).

(** ** Properties *)

(** C35. The content of a referenced page is never lost, as long as callers
    take new references only to pages that have content (the store does not
    check that: [retained_without_content] below). In every state that such
    calls to the store and its pool reach, returning or throwing, a page some
    address refers to has a live device replica, or a host replica of exactly
    its content epoch and coverage; and in the second case, when the page is
    not pinned and no restore is in flight, a device replica can be reserved
    from any reservation with a page left. *)
Theorem content_never_lost this backing layout store_this capacity s h page :
  kv_of true this backing layout store_this capacity s ->
  page_valid (kv_store s) h = true -> (ls_pages (kv_store s)).[lh_index h] = Some page -> pg_references page <> 0 ->
  (exists l, pg_device_replica page = Some l /\ valid_handle (kv_pool s) (lease_handle l) = true) \/
  (pg_device_replica page = None /\ host_current page = true /\
   forall k r, kv_reservations s !! k = Some r -> 0 < rs_pages r ->
     pg_pending_device_replica page = None -> pg_destination_pinned page = false -> pg_source_pins page = 0 ->
     exists s' d, reserve_device_replica h k s = (s', Ok d)).
Proof.
  intros Hs%kv_of_ok Hv Hp Hr. pose proof (so_pages _ (ki_store _ _ Hs) _ _ Hp) as Hpk. pose proof (ki_pool _ _ Hs) as Hc.
  destruct (pg_device_replica page) as [l|] eqn:Ed.
  - left. exists l. split; [done|]. pose proof (ck_live _ Hc) as Hl. unfold all_leases in Hl. cbn in Hl. rewrite app_nil_r in Hl.
    rewrite Forall_forall in Hl. apply (Hl l). destruct (replicas_split _ _ _ Hp) as (rest & -> & _).
    unfold page_leases. rewrite Ed. by left.
  - right. destruct (pk_content _ Hpk eq_refl Hr) as [|Hcur]; [congruence|]. split; [done|]. split; [done|]. intros k r Hk Hrp Hpd Hdp Hsp.
    destruct (client_reservation _ k r Hc Hk) as [Hro Hrb]. cbn in Hro, Hrb.
    destruct (materialize_one_Ok (kv_pool s) r) as (p1 & l1 & E & _); [apply Hc|done|lia|].
    unfold reserve_device_replica, require, mthrow_if, mlift, mget, throw_if, mbind, M_bind.
    rewrite Hv. cbn [negb]. rewrite (proj2 (vat_Ok _ _ _) Hp), Ed, Hpd, Hdp, Hsp, Hcur. unfold host_current in Hcur.
    destruct (pg_host_replica page) eqn:Eh; [|done]. cbn. unfold pool_materialize_one, mlift, mget, mput, mbind, M_bind.
    rewrite Hk, E. cbn. eauto.
Qed.

(** A concrete run: a page is filled, copied to the host, and its device
    replica dropped. *)
Fixpoint exec (cs : list call) (s : kv) : kv :=
  match cs with
  | [] => s
  | c :: cs' => exec cs' (fst (run_call c s))
  end.

Fixpoint exec_ok (cs : list call) (s : kv) : Prop :=
  match cs with
  | [] => True
  | c :: cs' => call_ok s c /\ retains_content s c /\ snd (run_call c s) <> Err Terminate /\ exec_ok cs' (fst (run_call c s))
  end.

Lemma exec_reachable careful s0 s cs : kv_reachable careful s0 s -> exec_ok cs s -> kv_reachable careful s0 (exec cs s).
Proof.
  revert s. induction cs as [|c cs IH]; intros s Hs Hok; [done|]. destruct Hok as (Hc & Hr & Hne & Hok). apply IH; [|done].
  eapply kr_call; [exact Hs|exact Hc|by intros _|apply surjective_pairing|done].
Qed.

Definition demo_kv0 : kv :=
  mkKv demo_pool [] (match make_store 77 demo_pool 6 with Ok st => st | Err _ => mkStore 0 [] [] 0 0 end).

Definition demo_handle : LogicalKVPageHandle := mkLogicalHandle 77 0 1.

Definition demo_calls : list call :=
  [CReserve 3; CMaterialize 0; CCommit demo_handle 10; CSetWriter demo_handle false;
   CAttachHost demo_handle (mkHostReplica (mkCapability 88 0 1) 0 3 1 10); CDropDevice demo_handle].

Definition demo_kv : kv := exec demo_calls demo_kv0.

Lemma demo_kv_of careful : kv_of careful 1 (mkSpan 4096 65536) demo_layout 77 6 demo_kv.
Proof.
  exists demo_pool, (kv_store demo_kv0). split; [lia|]. split; [vm_compute; split; discriminate|]. split; [vm_compute; reflexivity|].
  split; [vm_compute; split; discriminate|]. split; [vm_compute; reflexivity|].
  apply (exec_reachable _ _ demo_kv0); [apply kr_init|].
  repeat (split; [try (split; vm_compute; discriminate); done|split; [done|split; [vm_compute; discriminate|]]]). done.
Qed.

Lemma content_never_lost_witness :
  exists page s' d, (ls_pages (kv_store demo_kv)).[0] = Some page /\ pg_references page = 1 /\
    pg_device_replica page = None /\ host_current page = true /\
    reserve_device_replica demo_handle 0 demo_kv = (s', Ok d).
Proof.
  destruct ((ls_pages (kv_store demo_kv)).[0]) as [page|] eqn:Ep; [|vm_compute in Ep; discriminate].
  pose proof (content_never_lost 1 (mkSpan 4096 65536) demo_layout 77 6 demo_kv demo_handle page (demo_kv_of true)) as H.
  vm_compute in Ep. injection Ep as <-.
  destruct H as [(l & Hl & _)|(_ & Hcur & Hrestore)];
    [vm_compute; reflexivity|vm_compute; reflexivity|discriminate|discriminate Hl|].
  destruct (Hrestore 0%nat (mkReservation 1 2)) as (s' & d & E); [vm_compute; reflexivity|done|done|done|done|].
  do 3 eexists. split; [done|]. split; [done|]. split; [done|]. split; [exact Hcur|exact E].
Defined.

(** C36. The store accounts for every descriptor and every page. In every
    reachable state the free list holds each vacant descriptor once and
    nothing else; the device and in-flight replicas of the descriptors are
    distinct live pages, as many as the pool has allocated, and the callers'
    reservations add up to what the pool has reserved; a descriptor protects
    at most what is committed and commits at most a page, has no more active
    references than references, and holds nothing once it is vacant. *)
Theorem logical_pages_accounted this backing layout store_this capacity s :
  kv_of false this backing layout store_this capacity s ->
  let st := kv_store s in
  NoDup (free_descriptors st) /\
  (forall i, i ∈ free_descriptors st <-> exists page, (ls_pages st).[i] = Some page /\ pg_occupied page = false) /\
  Forall (fun l => valid_handle (kv_pool s) (lease_handle l) = true) (replicas (ls_pages st)) /\
  NoDup (map l_index (replicas (ls_pages st))) /\
  p_allocated_pages (kv_pool s) = vsize (replicas (ls_pages st)) /\
  p_reserved_pages (kv_pool s) = zsum (map rs_pages (kv_reservations s)) /\
  forall i page, (ls_pages st).[i] = Some page ->
    0 <= pg_protected_columns page <= pg_committed_columns page /\ pg_committed_columns page <= kPagedKVPageSize /\
    0 <= pg_active_references page <= pg_references page /\
    (pg_pending_device_replica page <> None -> pg_device_replica page = None /\ pg_destination_pinned page = true) /\
    (pg_occupied page = false -> pg_references page = 0 /\ page_leases page = [] /\ pg_host_replica page = None).
Proof.
  intros H%kv_of_ok st. pose proof (ki_store _ _ H) as Hst. pose proof (ki_pool _ _ H) as Hc.
  pose proof (ck_live _ Hc) as Hl. pose proof (ck_distinct _ Hc) as Hd. pose proof (ck_allocated _ Hc) as Ha. pose proof (ck_sum _ Hc) as Hsum.
  unfold all_leases in *. cbn in Hl, Hd, Ha, Hsum. rewrite app_nil_r in Hl, Hd, Ha.
  split; [apply Hst|]. split; [apply Hst|]. split; [eapply Forall_impl; [exact Hl|]; by intros l []|]. split; [done|]. split; [done|].
  split; [done|]. intros i page Hp. destruct (so_pages _ Hst _ _ Hp) as [_ Hcol Href _ _ Hpend _ Hvac].
  split; [lia|]. split; [lia|]. split; [lia|]. split; [done|]. intros Hv. destruct (Hvac Hv) as (? & _ & _ & Ed & Epd & ?).
  unfold page_leases. by rewrite Ed, Epd.
Qed.

Lemma logical_pages_accounted_witness :
  p_allocated_pages (kv_pool demo_kv) = vsize (replicas (ls_pages (kv_store demo_kv))) /\ NoDup (free_descriptors (kv_store demo_kv)).
Proof.
  destruct (logical_pages_accounted 1 (mkSpan 4096 65536) demo_layout 77 6 demo_kv (demo_kv_of false)) as (Hnd & _ & _ & _ & Ha & _).
  split; [exact Ha|exact Hnd].
Defined.

(** The page a call is about. *)
Definition call_handle (c : call) : option LogicalKVPageHandle :=
  match c with
  | CPublishTransfer h _ | CAbortTransfer h _ | CReserveDevice h _ | CPublishDevice h | CAbortDevice h _ | CDropDevice h
  | CRetainActive h | CReleaseActive h | CRetain h _ | CSetWriter h _ | CProtect h _ | CSetProtected h _ | CClearProtection h
  | CPin h | CUnpin h | CCommit h _ | CTruncate h _ | CTruncateInactive h _ | CReleaseReference h _ | CRelease h
  | CAttachHost h _ | CRebindHost h _ _ | CDetachHost h _ | CDematerialize h _ => Some h
  | _ => None
  end.

Lemma require_stale {B} s h (k : Page -> K B) :
  page_valid (kv_store s) h = false -> (require h ≫= k) s = (s, Err InvalidArgument).
Proof. intros Hv. unfold require, mthrow_if, mlift, mget, throw_if, mbind, M_bind. by rewrite Hv. Qed.

Lemma page_test_stale st h test : page_valid st h = false -> page_test st h test = false.
Proof. intros Hv. unfold page_test. by rewrite Hv. Qed.

Lemma stale_call s c h :
  call_handle c = Some h -> page_valid (kv_store s) h = false -> fst (run_call c s) = s.
Proof.
  intros Hc Hv. destruct c; try discriminate Hc; injection Hc as ->; cbn [run_call];
    unfold ignore, publish_transfer_destination, abort_transfer_destination, reserve_device_replica, publish_device_replica,
      abort_device_replica, drop_device_replica, retain_active_reference, release_active_reference, retain_reference, set_writer,
      protect_coverage, set_protected_coverage, clear_protection, pin_source, unpin_source, commit_coverage, destructive_truncate,
      destructive_truncate_inactive, release_reference, release_page_handle, attach_host_replica, rebind_host_replica,
      detach_host_replica, dematerialize;
    rewrite ?(require_stale _ _ _ Hv); try done.
  all: unfold mthrow_if, mlift, mget, throw_if, mbind, M_bind;
    unfold can_drop_device_replica, can_release_reference; rewrite ?(page_test_stale _ _ _ Hv), ?Hv; try done.
  all: unfold noexcept, require, mthrow_if, mlift, mget, throw_if, mbind, M_bind; rewrite ?(page_test_stale _ _ _ Hv), ?Hv; done.
Qed.

(** C37. Calls that fail leave no trace. In every reachable state a call that
    throws has changed neither the store nor the pool nor a reservation,
    although some of the calls update all three; and a call about a stale
    handle, of a descriptor that was released or is used again, changes
    nothing however it ends. *)
Theorem failed_calls_change_nothing this backing layout store_this capacity s c s' r :
  kv_of false this backing layout store_this capacity s -> call_ok s c -> run_call c s = (s', r) ->
  (forall e, r = Err e -> e <> Terminate -> s' = s) /\
  (forall h, call_handle c = Some h -> page_valid (kv_store s) h = false -> s' = s).
Proof.
  intros Hs%kv_of_ok Hc Hrun. split.
  - intros e -> Hne. pose proof (run_call_safe s c Hs Hc ltac:(done)) as H. rewrite Hrun in H. by destruct e.
  - intros h Hh Hv. pose proof (stale_call s c h Hh Hv) as H. by rewrite Hrun in H.
Qed.

Lemma failed_calls_change_nothing_witness :
  run_call (CMaterializeTransfer 0 65) demo_kv = (demo_kv, Err InvalidArgument) /\
  fst (run_call (CRelease (mkLogicalHandle 77 0 2)) demo_kv) = demo_kv.
Proof.
  destruct (run_call (CMaterializeTransfer 0 65) demo_kv) as [s1 r1] eqn:E1.
  assert (Hr1 : r1 = Err InvalidArgument) by (vm_compute in E1; by injection E1).
  destruct (failed_calls_change_nothing 1 (mkSpan 4096 65536) demo_layout 77 6 demo_kv (CMaterializeTransfer 0 65) s1 r1 (demo_kv_of false))
    as [H1 _]; [vm_compute; split; discriminate|exact E1|].
  destruct (run_call (CRelease (mkLogicalHandle 77 0 2)) demo_kv) as [s2 r2] eqn:E2.
  destruct (failed_calls_change_nothing 1 (mkSpan 4096 65536) demo_layout 77 6 demo_kv (CRelease (mkLogicalHandle 77 0 2)) s2 r2 (demo_kv_of false))
    as [_ H2]; [done|exact E2|].
  split; [rewrite (H1 InvalidArgument Hr1), Hr1; [reflexivity|discriminate]|].
  apply (H2 (mkLogicalHandle 77 0 2)); [reflexivity|vm_compute; reflexivity].
Defined.

(** The precondition of [content_never_lost] is needed: the last holder of a
    page whose host replica has become stale lets go of it, and a new
    reference to it is accepted although no content is left. *)
Definition stale_calls : list call :=
  [CReserve 3; CMaterialize 0; CCommit demo_handle 10;
   CAttachHost demo_handle (mkHostReplica (mkCapability 88 0 1) 0 3 1 10);
   CCommit demo_handle 20; CReleaseReference demo_handle true].

Example retained_without_content :
  let s := exec stale_calls demo_kv0 in
  exists page, (ls_pages (kv_store s)).[0] = Some page /\ has_content page = false /\
  exists s' page', retain_reference demo_handle false s = (s', Ok tt) /\
    (ls_pages (kv_store s')).[0] = Some page' /\ pg_references page' = 1 /\ has_content page' = false.
Proof.
  intros s. eexists. split; [vm_compute; reflexivity|]. split; [vm_compute; reflexivity|].
  do 2 eexists. split; [vm_compute; reflexivity|]. split; [vm_compute; reflexivity|]. split; reflexivity.
Qed.
