(* ===== verification/AddressSpace.v ===== *)
(** The KV address spaces (src/src/runtime/logical_kv_store.h,
    [KVAddressSpaceStore]): each maps an ordered list of logical pages, shared
    with other address spaces where they have a prefix in common. The model
    follows the calls through the page store ([LogicalKv]), its pool and the
    execution tables ([ExecTable]).

    A [DeviceKVPageReservation] object that owns capacity is named by its
    account in [kv_reservations], and an empty one is [None]: moving the object
    passes the name on. The reservations that [prepare_activation],
    [prepare_prefix_fork] and [prepare_active_snapshot] hand to the caller are
    objects of the state, because their methods mutate them also when they
    throw. *)

From S2P Require Import Prelude Tensor Layout PagedKv ExecTable LogicalKv.

(** * Handles and reservations *)
Record KVAddressSpaceHandle : Type := mkAddressHandle {
  ah_owner : Z;
  ah_index : Z;
  ah_generation : Z;
}.

Record KVActivationReservation : Type := mkActivation {
  ar_owner : Z;
  ar_address : KVAddressSpaceHandle;
  ar_requested_entitlement : Z;
  ar_activation_frontier : option Z;
  ar_page_reservation : option nat;
  ar_row : option KVExecutionRowLease;
}.

Record KVPrefixForkReservation : Type := mkFork {
  fr_owner : Z;
  fr_source : KVAddressSpaceHandle;
  fr_destination : KVAddressSpaceHandle;
  fr_frontier : Z;
  fr_full_pages : Z;
  fr_tail_columns : Z;
  fr_requested_entitlement : Z;
  fr_page_reservation : option nat;
  fr_row : option KVExecutionRowLease;
  fr_tail_destination : option LogicalKVPageHandle;
  fr_staged_tail_release : bool;
  fr_tail_source_settled : bool;
}.

Record KVActiveSnapshotShape : Type := mkShape {
  sh_full_pages : Z;
  sh_immutable_full_pages : Z;
  sh_unique_full_pages : Z;
  sh_tail_columns : Z;
}.

#[global] Instance KVActiveSnapshotShape_eq_dec : EqDecision KVActiveSnapshotShape.
Proof. solve_decision. Defined.

Definition copied_pages (shape : KVActiveSnapshotShape) : Z :=
  if sh_tail_columns shape =? 0 then 0 else 1.

Record KVActiveSnapshotReservation : Type := mkSnapshot {
  sn_owner : Z;
  sn_source : KVAddressSpaceHandle;
  sn_destination : KVAddressSpaceHandle;
  sn_frontier : Z;
  sn_shape : KVActiveSnapshotShape;
  sn_entitlement : Z;
  sn_tail_reservation : option nat;
  sn_tail_destination : option LogicalKVPageHandle;
}.

Record Address : Type := mkAddress {
  ad_generation : Z;
  ad_page_count : Z;
  ad_committed_frontier : Z;
  ad_checkpoint_frontier : Z;
  ad_reservation : option nat;
  ad_row : option KVExecutionRowLease;
  ad_occupied : bool;
  ad_active : bool;
}.

Definition default_address : Address := mkAddress 1 0 0 0 None None false false.

Definition set_page_count (n : Z) (a : Address) : Address :=
  mkAddress (ad_generation a) n (ad_committed_frontier a) (ad_checkpoint_frontier a) (ad_reservation a) (ad_row a)
    (ad_occupied a) (ad_active a).

Definition set_committed_frontier (f : Z) (a : Address) : Address :=
  mkAddress (ad_generation a) (ad_page_count a) f (ad_checkpoint_frontier a) (ad_reservation a) (ad_row a)
    (ad_occupied a) (ad_active a).

Definition set_checkpoint_frontier (f : Z) (a : Address) : Address :=
  mkAddress (ad_generation a) (ad_page_count a) (ad_committed_frontier a) f (ad_reservation a) (ad_row a)
    (ad_occupied a) (ad_active a).

Definition set_activity (r : option nat) (row : option KVExecutionRowLease) (active : bool) (a : Address) : Address :=
  mkAddress (ad_generation a) (ad_page_count a) (ad_committed_frontier a) (ad_checkpoint_frontier a) r row
    (ad_occupied a) active.

(** [memberships_] is one vector with [page_capacity_] cells per address. *)
Record KVAddressSpaceStore : Type := mkAddressStore {
  av_this : Z;
  av_page_capacity : Z;
  av_addresses : list Address;
  av_free : list Z;
  av_memberships : list LogicalKVPageHandle;
  av_free_count : Z;
}.

(** The store, what it refers to, and the reservation objects of its callers. *)
Record asp : Type := mkAsp {
  as_kv : kv;
  as_world : table_world;
  as_store : KVAddressSpaceStore;
  as_activations : list KVActivationReservation;
  as_forks : list KVPrefixForkReservation;
  as_snapshots : list KVActiveSnapshotReservation;
}.

Definition set_kv (k : kv) (s : asp) : asp :=
  mkAsp k (as_world s) (as_store s) (as_activations s) (as_forks s) (as_snapshots s).
Definition set_world (w : table_world) (s : asp) : asp :=
  mkAsp (as_kv s) w (as_store s) (as_activations s) (as_forks s) (as_snapshots s).
Definition set_store (st : KVAddressSpaceStore) (s : asp) : asp :=
  mkAsp (as_kv s) (as_world s) st (as_activations s) (as_forks s) (as_snapshots s).
Definition set_activations (l : list KVActivationReservation) (s : asp) : asp :=
  mkAsp (as_kv s) (as_world s) (as_store s) l (as_forks s) (as_snapshots s).
Definition set_forks (l : list KVPrefixForkReservation) (s : asp) : asp :=
  mkAsp (as_kv s) (as_world s) (as_store s) (as_activations s) l (as_snapshots s).
Definition set_snapshots (l : list KVActiveSnapshotReservation) (s : asp) : asp :=
  mkAsp (as_kv s) (as_world s) (as_store s) (as_activations s) (as_forks s) l.

Notation P := (M asp).

(** * Control flow *)

(** A call to the page store or its pool, and one to the tables. *)
Definition on_pages {A} (m : K A) : P A := fun s =>
  let '(k, r) := m (as_kv s) in (set_kv k s, r).
Definition on_tables {A} (m : M table_world A) : P A := fun s =>
  let '(w, r) := m (as_world s) in (set_world w s, r).

(** Loops that collect a value per element, or stop at the first [false]. *)
Fixpoint mcollect {S A B} (f : A -> M S B) (l : list A) : M S (list B) :=
  match l with
  | [] => mret []
  | x :: l' => y ← f x; ys ← mcollect f l'; mret (y :: ys)
  end.

Fixpoint mall {S A} (f : A -> M S bool) (l : list A) : M S bool :=
  match l with
  | [] => mret true
  | x :: l' => b ← f x; if negb b then mret false else mall f l'
  end.

Fixpoint mfold {S A B} (f : B -> A -> M S B) (b : B) (l : list A) : M S B :=
  match l with
  | [] => mret b
  | x :: l' => b' ← f b x; mfold f b' l'
  end.

(** What a handler sees: neither the end of the process nor undefined
    behaviour is an exception. *)
Definition is_exception (e : error) : bool := negb (bool_decide (e = Terminate)) && negb (bool_decide (e = Undefined)).

(** [try { m } catch (...) { handler; throw; }], also the destructors of the
    locals when [m] throws. *)
Definition on_throw {A} (m : P A) (handler : P unit) : P A := fun s =>
  match m s with
  | (s', Err e) =>
      if is_exception e then
        match handler s' with
        | (s'', Ok _) => (s'', Err e)
        | (s'', Err e') => (s'', Err e')
        end
      else (s', Err e)
  | r => r
  end.

(** A function declared [noexcept]. *)
Definition never_throws {A} (m : P A) : P A := fun s =>
  match m s with
  | (s', Err e) => (s', Err (if is_exception e then Terminate else e))
  | r => r
  end.

(** * Reservation objects *)
Definition new_reservation : K nat :=
  s ← mget;
  _ ← mput (mkKv (kv_pool s) (kv_reservations s ++ [make_empty_reservation (kv_pool s)]) (kv_store s));
  mret (length (kv_reservations s)).

(** [DeviceKVPageReservation::release]: the account is left with no pages. *)
Definition release_reservation_object (o : option nat) : K unit :=
  match o with
  | None => mret tt
  | Some k =>
      s ← mget;
      match kv_reservations s !! k with
      | Some r =>
          p ← mlift (release_reservation (kv_pool s) (rs_pages r));
          mput (mkKv p (<[k := mkReservation (rs_owner r) 0]> (kv_reservations s)) (kv_store s))
      | None => mthrow Undefined
      end
  end.

Definition reservation_pages (s : kv) (o : option nat) : Z :=
  match o with
  | Some k => match kv_reservations s !! k with Some r => rs_pages r | None => 0 end
  | None => 0
  end.

(** [resize_reservation] on an object that may be empty. *)
Definition resize_object (o : option nat) (n : Z) : K unit :=
  match o with
  | Some k => kv_resize k n
  | None => mthrow BadAlloc
  end.

Definition acquire_row (row_index : Z) : M table_world KVExecutionRowLease := fun w =>
  let '(e, r) := acquire row_index (w_table w) in (set_table e w, r).

(** The destructor of an optional lease. *)
Definition reset_row (o : option KVExecutionRowLease) : M table_world unit :=
  mmodify (fun w => match o with
                    | Some l => set_table (fst (fst (row_lease_release l (w_table w)))) w
                    | None => w
                    end).

(** * The store *)
Definition pages_for_tokens (tokens : Z) : Z :=
  if tokens =? 0 then 0 else 1 + (tokens - 1) / kPagedKVPageSize.

Definition checked_membership_cells (addresses pages : Z) : result Z :=
  _ ← throw_if (negb (pages =? 0) && (SIZE_MAX / pages <? addresses)) OverflowError;
  Ok (addresses * pages).

(** The constructor. *)
Definition make_address_store (this : Z) (tables : KVExecutionTablePool) (address_capacity page_capacity : Z)
  : result KVAddressSpaceStore :=
  cells ← checked_membership_cells address_capacity page_capacity;
  _ ← throw_if ((address_capacity =? 0) || (page_capacity =? 0) ||
                negb (page_capacity =? logical_page_capacity tables)) InvalidArgument;
  Ok (mkAddressStore this page_capacity (replicate (Z.to_nat address_capacity) default_address)
        (map (fun index => address_capacity - 1 - index) (seqZ 0 address_capacity))
        (replicate (Z.to_nat cells) null_logical_handle) address_capacity).

Definition capacity (st : KVAddressSpaceStore) : Z := vsize (av_addresses st).
Definition occupied (st : KVAddressSpaceStore) : Z := capacity st - av_free_count st.

(** [valid] *)
Definition address_valid (st : KVAddressSpaceStore) (h : KVAddressSpaceHandle) : bool :=
  (ah_owner h =? av_this st) &&
  match (av_addresses st).[ah_index h] with
  | Some a => ad_occupied a && (ad_generation a =? ah_generation h)
  | None => false
  end.

(** [addresses_[index]] and an assignment through the reference. *)
Definition address_ref (i : Z) : P Address :=
  s ← mget;
  mlift (vat (av_addresses (as_store s)) i).

Definition with_addresses (l : list Address) (st : KVAddressSpaceStore) : KVAddressSpaceStore :=
  mkAddressStore (av_this st) (av_page_capacity st) l (av_free st) (av_memberships st) (av_free_count st).

Definition with_memberships (l : list LogicalKVPageHandle) (st : KVAddressSpaceStore) : KVAddressSpaceStore :=
  mkAddressStore (av_this st) (av_page_capacity st) (av_addresses st) (av_free st) l (av_free_count st).

Definition with_free (l : list Z) (n : Z) (st : KVAddressSpaceStore) : KVAddressSpaceStore :=
  mkAddressStore (av_this st) (av_page_capacity st) (av_addresses st) l (av_memberships st) n.

Definition put_address (i : Z) (a : Address) : P unit :=
  mmodify (fun s => set_store (with_addresses ((av_addresses (as_store s)).[i <- a]) (as_store s)) s).

Definition update_address (i : Z) (f : Address -> Address) : P unit :=
  a ← address_ref i;
  put_address i (f a).

(** [require], on a handle; the reference it returns is the address [ah_index]. *)
Definition require (h : KVAddressSpaceHandle) : P Address :=
  s ← mget;
  _ ← mthrow_if (negb (address_valid (as_store s) h)) InvalidArgument;
  address_ref (ah_index h).

Definition require_active (h : KVAddressSpaceHandle) : P Address :=
  a ← require h;
  _ ← mthrow_if (negb (ad_active a) || negb (has (ad_row a)) || negb (has (ad_reservation a))) LogicError;
  mret a.

(** [membership]: the cell of a page; both factors are 32-bit, so the index
    does not overflow. *)
Definition cell (st : KVAddressSpaceStore) (i page : Z) : Z := i * av_page_capacity st + page.

Definition membership (i page : Z) : P LogicalKVPageHandle :=
  s ← mget;
  mlift (vat (av_memberships (as_store s)) (cell (as_store s) i page)).

Definition set_membership (i page : Z) (h : LogicalKVPageHandle) : P unit :=
  s ← mget;
  let st := as_store s in
  _ ← mlift (vat (av_memberships st) (cell st i page));
  mput (set_store (with_memberships ((av_memberships st).[cell st i page <- h]) st) s).

(** [entitlement] of an address *)
Definition address_entitlement (s : asp) (a : Address) : Z :=
  wrap32 (ad_page_count a + reservation_pages (as_kv s) (ad_reservation a)).

(** A guard of the page store. *)
Definition page_guard (f : LogicalKVPageStore -> bool) : P bool :=
  s ← mget;
  mret (f (kv_store (as_kv s))).

Definition page_handles (i : Z) (pages : list Z) : P (list DeviceKVPageHandle) :=
  mcollect (fun page => logical ← membership i page; on_pages (physical logical)) pages.

Definition publish_row (row : option KVExecutionRowLease) (logical_begin : Z) (handles : list DeviceKVPageHandle) : P unit :=
  match row with
  | Some l =>
      s ← mget;
      on_tables (publish (kv_pool (as_kv s)) (row_lease_handle l) logical_begin handles)
  | None => mthrow Undefined
  end.

Definition publish_membership (i : Z) : P unit :=
  a ← address_ref i;
  _ ← mthrow_if (negb (has (ad_row a))) LogicError;
  handles ← page_handles i (seqZ 0 (ad_page_count a));
  publish_row (ad_row a) 0 handles.

(** [rebuild_checkpoint_protection] *)
Definition clear_address_protection (i : Z) : P unit :=
  a ← address_ref i;
  if negb (ad_occupied a) then mret tt else
  mfor (fun page => logical ← membership i page; on_pages (set_protected_coverage logical 0)) (seqZ 0 (ad_page_count a)).

Definition protect_address (i : Z) : P unit :=
  a ← address_ref i;
  if negb (ad_occupied a) || (ad_checkpoint_frontier a =? 0) then mret tt else
  _ ← mthrow_if ((ad_committed_frontier a <? ad_checkpoint_frontier a) ||
                 (ad_page_count a <? pages_for_tokens (ad_checkpoint_frontier a))) Terminate;
  mfor (fun page =>
          let begin := page * kPagedKVPageSize in
          logical ← membership i page;
          on_pages (protect_coverage logical (Z.min kPagedKVPageSize (ad_checkpoint_frontier a - begin))))
    (seqZ 0 (pages_for_tokens (ad_checkpoint_frontier a))).

Definition rebuild_checkpoint_protection : P unit :=
  never_throws (
    s ← mget;
    _ ← mfor clear_address_protection (seqZ 0 (capacity (as_store s)));
    mfor protect_address (seqZ 0 (capacity (as_store s)))).

(** ** Creation *)
Definition create_inactive : P (option KVAddressSpaceHandle) :=
  s ← mget;
  let st := as_store s in
  if av_free_count st =? 0 then mret None else
  let n := av_free_count st - 1 in
  index ← mlift (vat (av_free st) n);
  a ← address_ref index;
  if ad_occupied a then
    (** pushed back where it was taken from *)
    _ ← mput (set_store (with_free ((av_free st).[n <- index]) (av_free_count st) st) s);
    mret None
  else
    _ ← mput (set_store (with_free (av_free st) n st) s);
    _ ← put_address index
          (mkAddress (ad_generation a) (ad_page_count a) (ad_committed_frontier a) (ad_checkpoint_frontier a)
             (ad_reservation a) (ad_row a) true (ad_active a));
    mret (Some (mkAddressHandle (av_this st) index (ad_generation a))).

(** ** Activation *)
Definition missing_pages (i required_pages : Z) : P Z :=
  mfold (fun (missing page : Z) =>
           logical ← membership i page;
           resident ← on_pages (device_resident logical);
           mret (if (resident : bool) then missing else missing + 1)) 0 (seqZ 0 required_pages).

Definition prepare_activation (h : KVAddressSpaceHandle) (entitlement execution_row : Z) (activation_frontier : option Z)
  : P nat :=
  a ← require h;
  s ← mget;
  _ ← mthrow_if (ad_active a || has (ad_row a) || has (ad_reservation a) || (entitlement =? 0) ||
                 (av_page_capacity (as_store s) <? entitlement) ||
                 match activation_frontier with Some f => ad_committed_frontier a <? f | None => false end) LogicError;
  let required_pages := match activation_frontier with Some f => pages_for_tokens f | None => ad_page_count a end in
  k ← on_pages new_reservation;
  on_throw
    (missing_replicas ← missing_pages (ah_index h) required_pages;
     let growth := if required_pages <? entitlement then entitlement - required_pages else 0 in
     let required := missing_replicas + growth in
     _ ← mthrow_if (U32_MAX <? required) OverflowError;
     _ ← on_pages (kv_resize k required);
     row ← on_tables (acquire_row execution_row);
     s ← mget;
     _ ← mput (set_activations (as_activations s ++
                 [mkActivation (av_this (as_store s)) h entitlement activation_frontier (Some k) (Some row)]) s);
     mret (length (as_activations s)))
    (on_pages (release_reservation_object (Some k))).

Definition missing_device_pages (h : KVAddressSpaceHandle) : P (list LogicalKVPageHandle) :=
  a ← require h;
  mfold (fun (missing : list LogicalKVPageHandle) (page : Z) =>
           logical ← membership (ah_index h) page;
           resident ← on_pages (device_resident logical);
           mret (if (resident : bool) then missing else missing ++ [logical])) [] (seqZ 0 (ad_page_count a)).

Definition activation_ref (j : nat) : P KVActivationReservation :=
  s ← mget;
  match as_activations s !! j with
  | Some r => mret r
  | None => mthrow Undefined
  end.

Definition put_activation (j : nat) (r : KVActivationReservation) : P unit :=
  mmodify (fun s => set_activations (<[j := r]> (as_activations s)) s).

(** [page_reservation], which hands the account to the caller. *)
Definition page_reservation (j : nat) : P (option nat) :=
  act ← activation_ref j;
  s ← mget;
  _ ← mthrow_if (negb (ar_owner act =? av_this (as_store s)) || negb (address_valid (as_store s) (ar_address act))) LogicError;
  mret (ar_page_reservation act).

(** A page an activation can use. *)
Definition activation_page_ok (i page : Z) : P unit :=
  logical ← membership i page;
  resident ← on_pages (device_resident logical);
  if negb resident then mthrow LogicError else
  references ← on_pages (address_references logical);
  writable ← page_guard (fun st => can_set_writer st logical true);
  mthrow_if ((references =? 1) && negb writable) LogicError.

Definition activate_handle (logical : LogicalKVPageHandle) : K unit :=
  references ← address_references logical;
  _ ← ((if references =? 1
        then _ ← clear_protection logical; set_writer logical true
        else mret tt) : K unit);
  retain_active_reference logical.

Definition activate_page (i page : Z) : P unit :=
  logical ← membership i page;
  on_pages (activate_handle logical).

Definition commit_activation (j : nat) : P unit :=
  act ← activation_ref j;
  s ← mget;
  let st := as_store s in
  _ ← mthrow_if (negb (ar_owner act =? av_this st)) LogicError;
  _ ← mthrow_if (negb (has (ar_row act))) LogicError;
  _ ← mthrow_if (negb (address_valid st (ar_address act))) LogicError;
  let i := ah_index (ar_address act) in
  a ← require (ar_address act);
  _ ← mthrow_if (ad_active a || has (ad_row a) || has (ad_reservation a) || (ar_requested_entitlement act =? 0) ||
                 (av_page_capacity st <? ar_requested_entitlement act) ||
                 match ar_activation_frontier act with
                 | Some f => negb (ad_committed_frontier a =? f)
                 | None => false
                 end) LogicError;
  let expected := if ad_page_count a <? ar_requested_entitlement act
                  then ar_requested_entitlement act - ad_page_count a else 0 in
  _ ← mthrow_if (negb (has (ar_page_reservation act)) ||
                 negb (reservation_pages (as_kv s) (ar_page_reservation act) =? expected)) LogicError;
  _ ← mfor (activation_page_ok i) (seqZ 0 (ad_page_count a));
  _ ← put_address i (set_checkpoint_frontier 0 (set_activity (ar_page_reservation act) (ar_row act) true a));
  _ ← put_activation j (mkActivation 0 (ar_address act) (ar_requested_entitlement act) (ar_activation_frontier act) None None);
  _ ← mfor (activate_page i) (seqZ 0 (ad_page_count a));
  publish_membership i.

(** The destructor of the reservation object: its members. *)
Definition destroy_activation (j : nat) : P unit :=
  act ← activation_ref j;
  _ ← on_tables (reset_row (ar_row act));
  _ ← on_pages (release_reservation_object (ar_page_reservation act));
  put_activation j (mkActivation 0 (ar_address act) (ar_requested_entitlement act) (ar_activation_frontier act) None None).

Definition activate (h : KVAddressSpaceHandle) (entitlement execution_row : Z) : P unit :=
  a ← require h;
  _ ← mthrow_if (entitlement <? ad_page_count a) LogicError;
  j ← prepare_activation h entitlement execution_row None;
  _ ← on_throw (commit_activation j) (destroy_activation j);
  destroy_activation j.

(** ** Deactivation *)
Definition deactivation_page_ok (i page : Z) : P unit :=
  logical ← membership i page;
  writers ← on_pages (writer_references logical);
  ready ← page_guard (fun st => can_set_writer st logical false);
  mthrow_if (negb (writers =? 0) && negb ready) LogicError.

Definition deactivate_handle (logical : LogicalKVPageHandle) : K unit :=
  writers ← writer_references logical;
  _ ← ((if negb (writers =? 0) then set_writer logical false else mret tt) : K unit);
  release_active_reference logical.

Definition deactivate_page (i page : Z) : P unit :=
  logical ← membership i page;
  on_pages (deactivate_handle logical).

Definition deactivate_address (i : Z) (a : Address) : P unit :=
  _ ← mfor (deactivation_page_ok i) (seqZ 0 (ad_page_count a));
  _ ← mfor (deactivate_page i) (seqZ 0 (ad_page_count a));
  _ ← on_tables (reset_row (ad_row a));
  _ ← on_pages (release_reservation_object (ad_reservation a));
  put_address i (set_activity None None false a).

Definition deactivate (h : KVAddressSpaceHandle) : P unit :=
  a ← require_active h;
  deactivate_address (ah_index h) a.

(** ** Prefix forks *)
Definition fork_ref (j : nat) : P KVPrefixForkReservation :=
  s ← mget;
  match as_forks s !! j with
  | Some r => mret r
  | None => mthrow Undefined
  end.

Definition put_fork (j : nat) (r : KVPrefixForkReservation) : P unit :=
  mmodify (fun s => set_forks (<[j := r]> (as_forks s)) s).

(** The fields a fork changes. *)
Definition fork_with (owner : Z) (reservation : option nat) (row : option KVExecutionRowLease)
    (tail : option LogicalKVPageHandle) (settled : bool) (f : KVPrefixForkReservation) : KVPrefixForkReservation :=
  mkFork owner (fr_source f) (fr_destination f) (fr_frontier f) (fr_full_pages f) (fr_tail_columns f)
    (fr_requested_entitlement f) reservation row tail (fr_staged_tail_release f) settled.

(** The test of a source page in [prepare_prefix_fork]. *)
Definition fork_source_page_ok (i full_pages tail_columns page : Z) : P unit :=
  logical ← membership i page;
  let required := if page <? full_pages then kPagedKVPageSize else tail_columns in
  resident ← on_pages (device_resident logical);
  if negb resident then mthrow LogicError else
  columns ← on_pages (committed_columns logical);
  pinnable ← page_guard (fun st => can_pin_source st logical);
  retainable ← page_guard (fun st => can_retain_reference st logical false);
  mthrow_if ((columns <? required) || negb pinnable || ((page <? full_pages) && negb retainable)) LogicError.

Definition pin_pages (i required_pages : Z) : P unit :=
  mfor (fun page => logical ← membership i page; on_pages (pin_source logical)) (seqZ 0 required_pages).

Definition prepare_prefix_fork (source_handle destination_handle : KVAddressSpaceHandle)
    (frontier entitlement execution_row : Z) (staged_tail_release : bool) : P nat :=
  source ← require source_handle;
  destination ← require destination_handle;
  _ ← mthrow_if (ad_active source || has (ad_row source) || has (ad_reservation source)) LogicError;
  _ ← mthrow_if (ad_active destination || has (ad_row destination) || has (ad_reservation destination) ||
                 negb (ad_page_count destination =? 0) || negb (ad_committed_frontier destination =? 0)) LogicError;
  _ ← mthrow_if ((frontier =? 0) || (ad_committed_frontier source <? frontier)) LogicError;
  let required_pages := pages_for_tokens frontier in
  s ← mget;
  _ ← mthrow_if ((entitlement <? required_pages) || (av_page_capacity (as_store s) <? entitlement)) InvalidArgument;
  let full_pages := frontier / kPagedKVPageSize in
  let tail_columns := frontier mod kPagedKVPageSize in
  _ ← mthrow_if (staged_tail_release && (tail_columns =? 0)) InvalidArgument;
  _ ← mfor (fork_source_page_ok (ah_index source_handle) full_pages tail_columns) (seqZ 0 required_pages);
  k ← on_pages new_reservation;
  on_throw
    (_ ← on_pages (kv_resize k (if staged_tail_release then 1 else entitlement - full_pages));
     row ← on_tables (acquire_row execution_row);
     on_throw
       (tail ← ((if negb (tail_columns =? 0)
                 then t ← on_pages (materialize_transfer_destination k tail_columns); mret (Some t)
                 else mret None) : P (option LogicalKVPageHandle));
        _ ← pin_pages (ah_index source_handle) required_pages;
        s ← mget;
        _ ← mput (set_forks (as_forks s ++
                    [mkFork (av_this (as_store s)) source_handle destination_handle frontier full_pages tail_columns
                       entitlement (Some k) (Some row) tail staged_tail_release false]) s);
        mret (length (as_forks s)))
       (on_tables (reset_row (Some row))))
    (on_pages (release_reservation_object (Some k))).

Definition require_prefix_fork (f : KVPrefixForkReservation) : P unit :=
  s ← mget;
  mthrow_if (negb (fr_owner f =? av_this (as_store s)) || negb (address_valid (as_store s) (fr_source f)) ||
             negb (address_valid (as_store s) (fr_destination f))) LogicError.

Definition prefix_fork_tail_source (j : nat) : P DeviceKVPageHandle :=
  f ← fork_ref j;
  _ ← require_prefix_fork f;
  _ ← mthrow_if (fr_tail_columns f =? 0) LogicError;
  _ ← require (fr_source f);
  logical ← membership (ah_index (fr_source f)) (fr_full_pages f);
  on_pages (physical logical).

Definition prefix_fork_tail_destination (j : nat) : P DeviceKVPageHandle :=
  f ← fork_ref j;
  _ ← require_prefix_fork f;
  match fr_tail_destination f with
  | Some t => on_pages (physical t)
  | None => mthrow LogicError
  end.

Definition prefix_fork_tail_logical_source (j : nat) : P LogicalKVPageHandle :=
  f ← fork_ref j;
  _ ← require_prefix_fork f;
  _ ← mthrow_if (fr_tail_columns f =? 0) LogicError;
  _ ← require (fr_source f);
  membership (ah_index (fr_source f)) (fr_full_pages f).

Definition settle_prefix_fork_tail_source (j : nat) : P unit :=
  f ← fork_ref j;
  _ ← require_prefix_fork f;
  _ ← mthrow_if (negb (fr_staged_tail_release f) || fr_tail_source_settled f || (fr_tail_columns f =? 0)) LogicError;
  _ ← require (fr_source f);
  logical ← membership (ah_index (fr_source f)) (fr_full_pages f);
  valid ← page_guard (fun st => page_valid st logical);
  if negb valid then mthrow LogicError else
  pins ← on_pages (source_pins logical);
  if pins =? 0 then mthrow LogicError else
  resident ← on_pages (device_resident logical);
  if negb resident then mthrow LogicError else
  _ ← on_pages (unpin_source logical);
  put_fork j (fork_with (fr_owner f) (fr_page_reservation f) (fr_row f) (fr_tail_destination f) true f).

Definition complete_prefix_fork_after_tail_release (j : nat) : P unit :=
  f ← fork_ref j;
  _ ← require_prefix_fork f;
  _ ← mthrow_if (negb (fr_staged_tail_release f) || negb (fr_tail_source_settled f) || (fr_tail_columns f =? 0)) LogicError;
  _ ← require (fr_source f);
  logical ← membership (ah_index (fr_source f)) (fr_full_pages f);
  valid ← page_guard (fun st => page_valid st logical);
  if negb valid then mthrow LogicError else
  device ← on_pages (device_resident logical);
  if (device : bool) then mthrow LogicError else
  host ← on_pages (host_resident logical);
  if negb host then mthrow LogicError else
  let required_pages := pages_for_tokens (fr_frontier f) in
  let growth := wrap32 (fr_requested_entitlement f - required_pages) in
  on_pages (resize_object (fr_page_reservation f) growth).

(** The test of a source page in [commit_prefix_fork]. *)
Definition fork_commit_page_ok (i : Z) (f : KVPrefixForkReservation) (page : Z) : P unit :=
  logical ← membership i page;
  let settled_tail := (page =? fr_full_pages f) && fr_tail_source_settled f in
  _ ← ((if negb settled_tail then
          pins ← on_pages (source_pins logical);
          if pins =? 0 then mthrow LogicError else
          device ← on_pages (device_resident logical);
          mthrow_if (negb device) LogicError
        else mret tt) : P unit);
  _ ← ((if settled_tail then
          if negb (fr_staged_tail_release f) then mthrow LogicError else
          device ← on_pages (device_resident logical);
          if (device : bool) then mthrow LogicError else
          host ← on_pages (host_resident logical);
          mthrow_if (negb host) LogicError
        else mret tt) : P unit);
  retainable ← page_guard (fun st => can_retain_reference st logical false);
  mthrow_if ((page <? fr_full_pages f) && negb retainable) LogicError.

(** One shared page of the destination. *)
Definition share_page (source destination page : Z) : P unit :=
  logical ← membership source page;
  _ ← on_pages (retain_reference logical false);
  _ ← on_pages (protect_coverage logical kPagedKVPageSize);
  set_membership destination page logical.

Definition retain_active_pages (i count : Z) : P unit :=
  mfor (fun page => logical ← membership i page; on_pages (retain_active_reference logical)) (seqZ 0 count).

Definition commit_prefix_fork (j : nat) : P unit :=
  f ← fork_ref j;
  _ ← require_prefix_fork f;
  _ ← require (fr_source f);
  destination ← require (fr_destination f);
  let si := ah_index (fr_source f) in
  let di := ah_index (fr_destination f) in
  let required_pages := pages_for_tokens (fr_frontier f) in
  let growth := wrap32 (fr_requested_entitlement f - required_pages) in
  s ← mget;
  _ ← mthrow_if (negb (has (fr_row f)) || ad_active destination || has (ad_row destination) ||
                 has (ad_reservation destination) || negb (ad_page_count destination =? 0) ||
                 negb (reservation_pages (as_kv s) (fr_page_reservation f) =? growth)) LogicError;
  _ ← mfor (fork_commit_page_ok si f) (seqZ 0 required_pages);
  _ ← mthrow_if (negb (fr_tail_columns f =? 0) &&
                 match fr_tail_destination f with
                 | Some t => negb (page_valid (kv_store (as_kv s)) t)
                 | None => true
                 end) LogicError;
  full ← page_handles si (seqZ 0 (fr_full_pages f));
  tail ← match fr_tail_destination f with
         | Some t => p ← on_pages (physical t); mret [p]
         | None => mret []
         end;
  _ ← publish_row (fr_row f) 0 (full ++ tail);
  _ ← mfor (share_page si di) (seqZ 0 (fr_full_pages f));
  _ ← match fr_tail_destination f with
      | Some t =>
          _ ← on_pages (publish_transfer_destination t true);
          _ ← set_membership di (fr_full_pages f) t;
          put_fork j (fork_with (fr_owner f) (fr_page_reservation f) (fr_row f) None (fr_tail_source_settled f) f)
      | None => mret tt
      end;
  _ ← update_address di (fun a =>
        set_activity (fr_page_reservation f) (fr_row f) true
          (set_committed_frontier (fr_frontier f) (set_page_count required_pages a)));
  _ ← put_fork j (fork_with (fr_owner f) None None None (fr_tail_source_settled f) f);
  _ ← retain_active_pages di required_pages;
  _ ← mfor (fun page =>
              if (page =? fr_full_pages f) && fr_tail_source_settled f then mret tt else
              logical ← membership si page; on_pages (unpin_source logical)) (seqZ 0 required_pages);
  put_fork j (fork_with 0 None None None (fr_tail_source_settled f) f).

(** Unpinning what is still there, in the two aborts. *)
Definition unpin_if_pinned (i page : Z) : P unit :=
  logical ← membership i page;
  valid ← page_guard (fun st => page_valid st logical);
  if negb valid then mret tt else
  pins ← on_pages (source_pins logical);
  if pins =? 0 then mret tt else on_pages (unpin_source logical).

(** [abort_transfer_destination] on a reservation object; giving a page back
    to an empty one throws. *)
Definition abort_transfer_object (t : LogicalKVPageHandle) (o : option nat) : K unit :=
  match o with
  | Some k => abort_transfer_destination t k
  | None =>
      s ← mget;
      mthrow_if (page_test (kv_store s) t (fun page => negb (not_transfer_destination page))) Terminate
  end.

Definition abort_prefix_fork (j : nat) : P unit :=
  never_throws (
    f ← fork_ref j;
    s ← mget;
    if negb (fr_owner f =? av_this (as_store s)) then mret tt else
    _ ← ((if address_valid (as_store s) (fr_source f) then
            mfor (fun page =>
                    if (page =? fr_full_pages f) && fr_tail_source_settled f then mret tt else
                    unpin_if_pinned (ah_index (fr_source f)) page)
              (seqZ 0 (pages_for_tokens (fr_frontier f)))
          else mret tt) : P unit);
    _ ← match fr_tail_destination f with
        | Some t => on_pages (abort_transfer_object t (fr_page_reservation f))
        | None => mret tt
        end;
    put_fork j (fork_with 0 (fr_page_reservation f) (fr_row f) None (fr_tail_source_settled f) f)).

(** The destructor: the abort, and the members. *)
Definition destroy_fork (j : nat) : P unit :=
  f ← fork_ref j;
  _ ← ((if negb (fr_owner f =? 0) then abort_prefix_fork j else mret tt) : P unit);
  _ ← on_tables (reset_row (fr_row f));
  _ ← on_pages (release_reservation_object (fr_page_reservation f));
  f ← fork_ref j;
  put_fork j (fork_with (fr_owner f) None None (fr_tail_destination f) (fr_tail_source_settled f) f).

(** ** Active snapshots *)
Definition snapshot_ref (j : nat) : P KVActiveSnapshotReservation :=
  s ← mget;
  match as_snapshots s !! j with
  | Some r => mret r
  | None => mthrow Undefined
  end.

Definition put_snapshot (j : nat) (r : KVActiveSnapshotReservation) : P unit :=
  mmodify (fun s => set_snapshots (<[j := r]> (as_snapshots s)) s).

Definition snapshot_with (owner : Z) (reservation : option nat) (tail : option LogicalKVPageHandle)
    (n : KVActiveSnapshotReservation) : KVActiveSnapshotReservation :=
  mkSnapshot owner (sn_source n) (sn_destination n) (sn_frontier n) (sn_shape n) (sn_entitlement n) reservation tail.

(** One full page of [active_snapshot_shape]: the immutable and the unique
    pages so far, and whether a mutable one was seen. *)
Definition shape_page (i : Z) (acc : Z * Z * bool) (page : Z) : P (Z * Z * bool) :=
  let '(immutable, unique, mutable_full_seen) := acc in
  logical ← membership i page;
  references ← on_pages (address_references logical);
  writers ← on_pages (writer_references logical);
  resident ← on_pages (device_resident logical);
  columns ← on_pages (committed_columns logical);
  retainable ← page_guard (fun st => can_retain_reference st logical false);
  _ ← mthrow_if (negb resident || (references =? 0) || (columns <? kPagedKVPageSize) || negb retainable) LogicError;
  pinnable ← page_guard (fun st => can_pin_source st logical);
  active_pinnable ← page_guard (fun st => can_pin_active_source st logical);
  let unique' := if references =? 1 then unique + 1 else unique in
  if writers =? 0 then
    if mutable_full_seen || negb pinnable then mthrow LogicError
    else mret (immutable + 1, unique', mutable_full_seen)
  else if (writers =? 1) && (references =? 1) && active_pinnable then mret (immutable, unique', true)
  else mthrow LogicError.

Definition active_snapshot_shape (source_handle : KVAddressSpaceHandle) (frontier : Z) : P KVActiveSnapshotShape :=
  source ← require_active source_handle;
  _ ← mthrow_if ((frontier =? 0) || negb (frontier =? ad_committed_frontier source)) LogicError;
  s ← mget;
  let required_pages := pages_for_tokens frontier in
  let entitlement_pages := address_entitlement s source in
  _ ← mthrow_if ((ad_page_count source <? required_pages) || (entitlement_pages <? required_pages)) LogicError;
  let i := ah_index source_handle in
  let full_pages := frontier / kPagedKVPageSize in
  let tail_columns := frontier mod kPagedKVPageSize in
  acc ← mfold (shape_page i) (0, 0, false) (seqZ 0 full_pages);
  let '(immutable, unique, _) := acc in
  _ ← ((if negb (tail_columns =? 0) then
          tail ← membership i full_pages;
          resident ← on_pages (device_resident tail);
          writers ← on_pages (writer_references tail);
          references ← on_pages (address_references tail);
          columns ← on_pages (committed_columns tail);
          active_pinnable ← page_guard (fun st => can_pin_active_source st tail);
          mthrow_if (negb resident || negb (writers =? 1) || negb (references =? 1) || (columns <? tail_columns) ||
                     negb active_pinnable) LogicError
        else mret tt) : P unit);
  mret (mkShape full_pages immutable unique tail_columns).

Definition prepare_active_snapshot (source_handle destination_handle : KVAddressSpaceHandle) (frontier : Z) : P nat :=
  source ← require_active source_handle;
  destination ← require destination_handle;
  _ ← mthrow_if (negb (has (ad_row source)) || negb (has (ad_reservation source)) || ad_active destination ||
                 has (ad_row destination) || has (ad_reservation destination) || negb (ad_page_count destination =? 0) ||
                 negb (ad_committed_frontier destination =? 0) || (frontier =? 0) ||
                 negb (frontier =? ad_committed_frontier source)) LogicError;
  shape ← active_snapshot_shape source_handle frontier;
  let required_pages := pages_for_tokens frontier in
  s ← mget;
  let entitlement_pages := address_entitlement s source in
  _ ← mthrow_if (negb (ad_page_count source =? required_pages)) LogicError;
  k ← on_pages new_reservation;
  on_throw
    (_ ← ((if negb (copied_pages shape =? 0) then on_pages (kv_resize k (copied_pages shape)) else mret tt) : P unit);
     tail ← ((if negb (sh_tail_columns shape =? 0)
              then t ← on_pages (materialize_transfer_destination k (sh_tail_columns shape)); mret (Some t)
              else mret None) : P (option LogicalKVPageHandle));
     _ ← on_throw (pin_pages (ah_index source_handle) required_pages)
           (match tail with
            | Some t => on_pages (abort_transfer_destination t k)
            | None => mret tt
            end);
     s ← mget;
     _ ← mput (set_snapshots (as_snapshots s ++
                 [mkSnapshot (av_this (as_store s)) source_handle destination_handle frontier shape entitlement_pages
                    (Some k) tail]) s);
     mret (length (as_snapshots s)))
    (on_pages (release_reservation_object (Some k))).

Definition require_active_snapshot (n : KVActiveSnapshotReservation) : P unit :=
  s ← mget;
  mthrow_if (negb (sn_owner n =? av_this (as_store s)) || negb (address_valid (as_store s) (sn_source n)) ||
             negb (address_valid (as_store s) (sn_destination n))) LogicError.

Definition active_snapshot_tail_source (j : nat) : P DeviceKVPageHandle :=
  n ← snapshot_ref j;
  _ ← require_active_snapshot n;
  _ ← mthrow_if (sh_tail_columns (sn_shape n) =? 0) LogicError;
  _ ← require (sn_source n);
  logical ← membership (ah_index (sn_source n)) (sh_full_pages (sn_shape n));
  on_pages (physical logical).

Definition active_snapshot_tail_destination (j : nat) : P DeviceKVPageHandle :=
  n ← snapshot_ref j;
  _ ← require_active_snapshot n;
  match sn_tail_destination n with
  | Some t => on_pages (physical t)
  | None => mthrow LogicError
  end.

Definition snapshot_commit_page_ok (i page : Z) : P unit :=
  logical ← membership i page;
  pins ← on_pages (source_pins logical);
  if pins =? 0 then mthrow LogicError else
  resident ← on_pages (device_resident logical);
  mthrow_if (negb resident) LogicError.

(** One full page that the snapshot and the new active address share. *)
Definition freeze_page (source destination page : Z) : P unit :=
  logical ← membership source page;
  writers ← on_pages (writer_references logical);
  _ ← ((if negb (writers =? 0) then on_pages (set_writer logical false) else mret tt) : P unit);
  _ ← on_pages (retain_reference logical false);
  _ ← on_pages (protect_coverage logical kPagedKVPageSize);
  set_membership destination page logical.

Definition commit_active_snapshot (j : nat) : P unit :=
  n ← snapshot_ref j;
  _ ← require_active_snapshot n;
  source ← require_active (sn_source n);
  destination ← require (sn_destination n);
  shape ← active_snapshot_shape (sn_source n) (sn_frontier n);
  let si := ah_index (sn_source n) in
  let di := ah_index (sn_destination n) in
  let full_pages := sh_full_pages (sn_shape n) in
  let tail_columns := sh_tail_columns (sn_shape n) in
  let required_pages := pages_for_tokens (sn_frontier n) in
  let expected_growth := wrap32 (sn_entitlement n - required_pages) in
  s ← mget;
  _ ← mthrow_if (negb (bool_decide (shape = sn_shape n)) || negb (has (ad_row source)) || negb (has (ad_reservation source)) ||
                 negb (ad_page_count source =? required_pages) ||
                 negb (ad_committed_frontier source =? sn_frontier n) ||
                 negb (reservation_pages (as_kv s) (ad_reservation source) =? expected_growth) ||
                 ad_active destination || has (ad_row destination) || has (ad_reservation destination) ||
                 negb (ad_page_count destination =? 0) || negb (ad_committed_frontier destination =? 0) ||
                 negb (reservation_pages (as_kv s) (sn_tail_reservation n) =? 0)) LogicError;
  _ ← mfor (snapshot_commit_page_ok si) (seqZ 0 required_pages);
  _ ← mthrow_if (negb (tail_columns =? 0) &&
                 match sn_tail_destination n with
                 | Some t => negb (page_valid (kv_store (as_kv s)) t)
                 | None => true
                 end) LogicError;
  full ← page_handles si (seqZ 0 full_pages);
  tail ← match sn_tail_destination n with
         | Some t => p ← on_pages (physical t); mret [p]
         | None => mret []
         end;
  _ ← publish_row (ad_row source) 0 (full ++ tail);
  _ ← mfor (freeze_page si di) (seqZ 0 full_pages);
  _ ← match sn_tail_destination n with
      | Some t =>
          source_tail ← membership si full_pages;
          _ ← on_pages (set_writer source_tail false);
          _ ← on_pages (protect_coverage source_tail tail_columns);
          _ ← on_pages (publish_transfer_destination t true);
          _ ← set_membership di full_pages t;
          put_snapshot j (snapshot_with (sn_owner n) (sn_tail_reservation n) None n)
      | None => mret tt
      end;
  _ ← update_address di (fun a =>
        set_activity (ad_reservation source) (ad_row source) true
          (set_committed_frontier (sn_frontier n) (set_page_count required_pages a)));
  _ ← ((if negb (tail_columns =? 0) then
          source_tail ← membership si full_pages;
          _ ← on_pages (release_active_reference source_tail);
          tail ← membership di full_pages;
          on_pages (retain_active_reference tail)
        else mret tt) : P unit);
  _ ← update_address si (fun a => set_checkpoint_frontier (sn_frontier n) (set_activity None None false a));
  _ ← mfor (fun page => logical ← membership si page; on_pages (unpin_source logical)) (seqZ 0 required_pages);
  put_snapshot j (snapshot_with 0 (sn_tail_reservation n) None n).

Definition abort_active_snapshot (j : nat) : P unit :=
  never_throws (
    n ← snapshot_ref j;
    s ← mget;
    if negb (sn_owner n =? av_this (as_store s)) then mret tt else
    _ ← ((if address_valid (as_store s) (sn_source n) then
            source ← address_ref (ah_index (sn_source n));
            mfor (unpin_if_pinned (ah_index (sn_source n)))
              (seqZ 0 (Z.min (pages_for_tokens (sn_frontier n)) (ad_page_count source)))
          else mret tt) : P unit);
    _ ← match sn_tail_destination n with
        | Some t => on_pages (abort_transfer_object t (sn_tail_reservation n))
        | None => mret tt
        end;
    put_snapshot j (snapshot_with 0 (sn_tail_reservation n) None n)).

Definition destroy_snapshot (j : nat) : P unit :=
  n ← snapshot_ref j;
  _ ← ((if negb (sn_owner n =? 0) then abort_active_snapshot j else mret tt) : P unit);
  _ ← on_pages (release_reservation_object (sn_tail_reservation n));
  n ← snapshot_ref j;
  put_snapshot j (snapshot_with (sn_owner n) None (sn_tail_destination n) n).

(** ** Growth and truncation of an active address *)
Definition resize_entitlement (h : KVAddressSpaceHandle) (entitlement : Z) : P unit :=
  a ← require_active h;
  s ← mget;
  _ ← mthrow_if ((entitlement <? ad_page_count a) || (av_page_capacity (as_store s) <? entitlement)) InvalidArgument;
  on_pages (resize_object (ad_reservation a) (entitlement - ad_page_count a)).

Definition release_growth_entitlement (h : KVAddressSpaceHandle) : P unit :=
  a ← require_active h;
  on_pages (resize_object (ad_reservation a) 0).

(** Stores the handles of the pages from [begin] on. *)
Fixpoint store_memberships (i begin : Z) (handles : list LogicalKVPageHandle) : P unit :=
  match handles with
  | [] => mret tt
  | logical :: handles' => _ ← set_membership i begin logical; store_memberships i (begin + 1) handles'
  end.

(** The handler of [ensure_mapped_to_tokens]. *)
Fixpoint undo_mapping (i begin : Z) (k : nat) (handles : list LogicalKVPageHandle) : P unit :=
  match handles with
  | [] => mret tt
  | logical :: handles' =>
      _ ← on_pages (dematerialize logical k);
      _ ← set_membership i begin null_logical_handle;
      undo_mapping i (begin + 1) k handles'
  end.

Definition ensure_mapped_to_tokens (h : KVAddressSpaceHandle) (tokens : Z) : P unit :=
  a ← require_active h;
  let i := ah_index h in
  let target := pages_for_tokens tokens in
  s ← mget;
  _ ← mthrow_if (address_entitlement s a <? target) InvalidArgument;
  if target <=? ad_page_count a then mret tt else
  let begin := ad_page_count a in
  let count := target - begin in
  match ad_reservation a with
  | None => mthrow Undefined
  | Some k =>
      added ← mcollect (membership i) (seqZ begin count);
      predecessor ← ((if begin =? 0 then mret None
                      else p ← membership i (begin - 1); mret (Some p)) : P (option LogicalKVPageHandle));
      handles ← on_pages (materialize_batch k added predecessor);
      _ ← store_memberships i begin handles;
      _ ← on_throw
            (physicals ← mcollect (fun logical => on_pages (physical logical)) handles;
             publish_row (ad_row a) begin physicals)
            (undo_mapping i begin k handles);
      _ ← mfor (fun logical => on_pages (retain_active_reference logical)) handles;
      put_address i (set_page_count target a)
  end.

Definition commit_frontier (h : KVAddressSpaceHandle) (frontier : Z) : P unit :=
  a ← require_active h;
  _ ← mthrow_if ((frontier <? ad_committed_frontier a) || (ad_page_count a <? pages_for_tokens frontier)) InvalidArgument;
  if frontier =? ad_committed_frontier a then mret tt else
  let i := ah_index h in
  let first_changed_page := ad_committed_frontier a / kPagedKVPageSize in
  let final_changed_page := (frontier - 1) / kPagedKVPageSize in
  _ ← mfor (fun page =>
              let begin := page * kPagedKVPageSize in
              let columns := Z.min kPagedKVPageSize (frontier - begin) in
              logical ← membership i page;
              committed ← on_pages (committed_columns logical);
              if committed <? columns then on_pages (commit_coverage logical columns) else mret tt)
        (seqZ first_changed_page (final_changed_page - first_changed_page + 1));
  put_address i (set_committed_frontier frontier a).

(** The suffix pages, last first: [while (address.page_count > target)]. *)
Definition suffix_pages (target page_count : Z) : list Z := rev (seqZ target (page_count - target)).

Definition tail_page_columns (frontier target : Z) : Z := frontier - (target - 1) * kPagedKVPageSize.

Definition drop_active_page (i : Z) (o : option nat) (index : Z) : P unit :=
  _ ← update_address i (set_page_count index);
  logical ← membership i index;
  _ ← set_membership i index null_logical_handle;
  _ ← on_pages (release_active_reference logical);
  match o with
  | Some k => on_pages (dematerialize logical k)
  | None => mthrow Undefined
  end.

Definition destructive_truncate (h : KVAddressSpaceHandle) (frontier : Z) : P unit :=
  a ← require_active h;
  let i := ah_index h in
  _ ← mthrow_if (ad_committed_frontier a <? frontier) InvalidArgument;
  let target := pages_for_tokens frontier in
  if (frontier =? ad_committed_frontier a) && (target =? ad_page_count a) then mret tt else
  _ ← mfor (fun page =>
              logical ← membership i page;
              ready ← page_guard (fun st => can_dematerialize st logical);
              mthrow_if (negb ready) LogicError) (seqZ target (ad_page_count a - target));
  _ ← ((if negb (target =? 0) then
          logical ← membership i (target - 1);
          ready ← page_guard (fun st => can_destructive_truncate st logical (tail_page_columns frontier target));
          mthrow_if (negb ready) LogicError
        else mret tt) : P unit);
  _ ← mfor (drop_active_page i (ad_reservation a)) (suffix_pages target (ad_page_count a));
  _ ← ((if negb (target =? 0) then
          logical ← membership i (target - 1);
          on_pages (LogicalKv.destructive_truncate logical (tail_page_columns frontier target))
        else mret tt) : P unit);
  update_address i (set_committed_frontier frontier).

(** ** Inactive addresses *)

(** [address.active || address.row || address.reservation.valid()] *)
Definition in_use (a : Address) : bool := ad_active a || has (ad_row a) || has (ad_reservation a).

Definition can_release_pages (i first count : Z) : P bool :=
  mall (fun page => logical ← membership i page; page_guard (fun st => can_release_reference st logical false))
    (seqZ first count).

Definition can_destructive_truncate_inactive (h : KVAddressSpaceHandle) (frontier : Z)
    (tail_host_replica_will_be_released : bool) : P bool :=
  never_throws (
    s ← mget;
    if negb (address_valid (as_store s) h) then mret false else
    let i := ah_index h in
    a ← address_ref i;
    if in_use a || (ad_committed_frontier a <? frontier) then mret false else
    let target := pages_for_tokens frontier in
    released ← can_release_pages i target (ad_page_count a - target);
    if negb released then mret false else
    if target =? 0 then mret true else
    let columns := tail_page_columns frontier target in
    tail ← membership i (target - 1);
    committed ← on_pages (committed_columns tail);
    if columns =? committed then mret true else
    page_guard (fun st =>
      if tail_host_replica_will_be_released
      then can_destructive_truncate_inactive_after_host_release st tail columns
      else LogicalKv.can_destructive_truncate_inactive st tail columns)).

Definition release_suffix_page (i index : Z) : P unit :=
  _ ← update_address i (set_page_count index);
  logical ← membership i index;
  _ ← set_membership i index null_logical_handle;
  ok ← on_pages (release_reference logical false);
  mthrow_if (negb ok) Terminate.

Definition destructive_truncate_inactive (h : KVAddressSpaceHandle) (frontier : Z) : P unit :=
  ready ← can_destructive_truncate_inactive h frontier false;
  if negb ready then mthrow LogicError else
  a ← require h;
  let i := ah_index h in
  let target := pages_for_tokens frontier in
  _ ← mfor (release_suffix_page i) (suffix_pages target (ad_page_count a));
  _ ← ((if negb (target =? 0) then
          let columns := tail_page_columns frontier target in
          tail ← membership i (target - 1);
          committed ← on_pages (committed_columns tail);
          if negb (columns =? committed) then on_pages (LogicalKv.destructive_truncate_inactive tail columns) else mret tt
        else mret tt) : P unit);
  _ ← update_address i (fun a => set_checkpoint_frontier 0 (set_committed_frontier frontier a));
  rebuild_checkpoint_protection.

Definition set_checkpoint_requirement (h : KVAddressSpaceHandle) (protected_frontier : Z) : P unit :=
  a ← require h;
  _ ← mthrow_if (ad_committed_frontier a <? protected_frontier) InvalidArgument;
  _ ← put_address (ah_index h) (set_checkpoint_frontier protected_frontier a);
  rebuild_checkpoint_protection.

Definition can_truncate_inactive_prefix (h : KVAddressSpaceHandle) (frontier : Z) : P bool :=
  never_throws (
    s ← mget;
    if negb (address_valid (as_store s) h) then mret false else
    a ← address_ref (ah_index h);
    if in_use a || (ad_committed_frontier a <? frontier) then mret false else
    let target := pages_for_tokens frontier in
    can_release_pages (ah_index h) target (ad_page_count a - target)).

Definition truncate_inactive_prefix (h : KVAddressSpaceHandle) (frontier : Z) : P unit :=
  ready ← can_truncate_inactive_prefix h frontier;
  if negb ready then mthrow LogicError else
  a ← require h;
  let i := ah_index h in
  let target := pages_for_tokens frontier in
  _ ← mfor (release_suffix_page i) (suffix_pages target (ad_page_count a));
  _ ← update_address i (fun a =>
        set_checkpoint_frontier (Z.min (ad_checkpoint_frontier a) frontier) (set_committed_frontier frontier a));
  rebuild_checkpoint_protection.

(** ** Queries *)
Definition mapped_pages (h : KVAddressSpaceHandle) : P Z := a ← require h; mret (ad_page_count a).
Definition entitlement (h : KVAddressSpaceHandle) : P Z := a ← require h; s ← mget; mret (address_entitlement s a).
Definition committed_frontier (h : KVAddressSpaceHandle) : P Z := a ← require h; mret (ad_committed_frontier a).

Definition bound_row (s : asp) (h : KVAddressSpaceHandle) : Z :=
  if negb (address_valid (as_store s) h) then -1 else
  match (av_addresses (as_store s)).[ah_index h] with
  | Some a => match ad_row a with Some l => rl_row l | None => -1 end
  | None => -1
  end.

Definition active (s : asp) (h : KVAddressSpaceHandle) : bool :=
  address_valid (as_store s) h &&
  match (av_addresses (as_store s)).[ah_index h] with Some a => ad_active a | None => false end.

Definition execution_row (h : KVAddressSpaceHandle) : P KVExecutionRowLease :=
  a ← require h;
  match ad_row a with
  | Some l => if ad_active a then mret l else mthrow LogicError
  | None => mthrow LogicError
  end.

Definition logical_page (h : KVAddressSpaceHandle) (page : Z) : P LogicalKVPageHandle :=
  a ← require h;
  _ ← mthrow_if (ad_page_count a <=? page) OutOfRange;
  membership (ah_index h) page.

Definition physical_page (h : KVAddressSpaceHandle) (page : Z) : P DeviceKVPageHandle :=
  logical ← logical_page h page;
  on_pages (physical logical).

Definition content_epoch (h : KVAddressSpaceHandle) (page : Z) : P Z :=
  logical ← logical_page h page;
  on_pages (LogicalKv.content_epoch logical).

Definition has_active_reference (page : LogicalKVPageHandle) : P bool :=
  valid ← page_guard (fun st => page_valid st page);
  if negb valid then mret false else
  n ← on_pages (active_address_references page);
  mret (negb (n =? 0)).

(** ** Release *)
Definition can_release (h : KVAddressSpaceHandle) : P bool :=
  never_throws (
    s ← mget;
    if negb (address_valid (as_store s) h) then mret false else
    a ← address_ref (ah_index h);
    if in_use a then mret false else
    can_release_pages (ah_index h) 0 (ad_page_count a)).

Definition release_page (i page : Z) : P unit :=
  logical ← membership i page;
  ok ← on_pages (release_reference logical false);
  _ ← mthrow_if (negb ok) Terminate;
  set_membership i page null_logical_handle.

Definition push_address (index : Z) : P unit :=
  s ← mget;
  let st := as_store s in
  _ ← mlift (vat (av_free st) (av_free_count st));
  mput (set_store (with_free ((av_free st).[av_free_count st <- index]) (wrap32 (av_free_count st + 1)) st) s).

Definition release_address (i : Z) : P unit :=
  a ← address_ref i;
  _ ← mfor (release_page i) (seqZ 0 (ad_page_count a));
  _ ← put_address i (mkAddress (increment_generation (ad_generation a)) 0 0 0 None None false false);
  _ ← push_address i;
  rebuild_checkpoint_protection.

Definition release (h : KVAddressSpaceHandle) : P bool :=
  never_throws (
    ready ← can_release h;
    if negb ready then mret false else
    _ ← release_address (ah_index h);
    mret true).

Definition can_release_after_deactivate (h : KVAddressSpaceHandle) : P bool :=
  never_throws (
    s ← mget;
    if negb (address_valid (as_store s) h) then mret false else
    a ← address_ref (ah_index h);
    if negb (ad_active a) then can_release h else
    if negb (has (ad_row a)) then mret false else
    mall (fun page => logical ← membership (ah_index h) page;
                      page_guard (fun st => can_release_reference_after_active_reference st logical))
      (seqZ 0 (ad_page_count a))).

Definition release_after_deactivate (h : KVAddressSpaceHandle) : P bool :=
  never_throws (
    ready ← can_release_after_deactivate h;
    if negb ready then mret false else
    a ← address_ref (ah_index h);
    _ ← ((if ad_active a then never_throws (deactivate h) else mret tt) : P unit);
    ok ← release h;
    _ ← mthrow_if (negb ok) Terminate;
    mret true).

(** [create_active] *)
Definition create_active (n execution_row : Z) : P (option KVAddressSpaceHandle) :=
  s ← mget;
  if (n =? 0) || (av_page_capacity (as_store s) <? n) then mret None else
  handle ← create_inactive;
  match handle with
  | None => mret None
  | Some h =>
      _ ← on_throw (activate h n execution_row) (_ ← release h; mret tt);
      mret (Some h)
  end.
