(* ===== verification/PageTokens.v ===== *)
(** Reference tokens of the logical page store: who holds the references a
    descriptor counts. A token is a page handle with the number of columns its
    holder relies on; the tokens of the holders add up to the counters of the
    descriptors. The calls of [LogicalKv] are specified by the tokens they
    take and give back. *)

From S2P Require Import Prelude Tensor Layout PagedKv LogicalKv.

(** * Tokens *)
Notation token := (LogicalKVPageHandle * Z)%type.

(** The tokens of page [i]. *)
Definition at_page {B} (f : B -> LogicalKVPageHandle) (i : Z) (l : list B) : list B := filter (fun x => lh_index (f x) = i) l.

(** The handle names the descriptor's present page. *)
Definition names (this i : Z) (page : Page) (h : LogicalKVPageHandle) : Prop :=
  lh_owner h = this /\ lh_index h = i /\ pg_occupied page = true /\ pg_generation page = lh_generation h.

(** A page that a copy is being written to: it is held, not referenced. *)
Record in_transfer (page : Page) (columns : Z) : Prop := {
  it_pinned : pg_destination_pinned page = true;
  it_references : pg_references page = 0;
  it_device : pg_device_replica page <> None;
  it_columns : columns <= pg_committed_columns page;
}.

(** The tokens [r] of references, [a] of active references and [t] of
    transfers at one descriptor. *)
Record page_tok (this i : Z) (page : Page) (r : list token) (a : list LogicalKVPageHandle) (t : list token) : Prop := {
  pt_ref : Forall (fun x => names this i page (fst x) /\ snd x <= pg_committed_columns page) r;
  pt_active : Forall (names this i page) a;
  pt_transfer : Forall (fun x => names this i page (fst x) /\ in_transfer page (snd x)) t;
  pt_references : pg_references page = vsize r;
  pt_actives : pg_active_references page = vsize a;
  pt_single : vsize t <= 1;
}.

Definition toks (st : LogicalKVPageStore) (R : list token) (A : list LogicalKVPageHandle) (T : list token) : Prop :=
  forall i, match (ls_pages st).[i] with
            | Some page => page_tok (ls_this st) i page (at_page fst i R) (at_page id i A) (at_page fst i T)
            | None => at_page fst i R = [] /\ at_page id i A = [] /\ at_page fst i T = []
            end.

Section AtPage.
Context {B : Type} (f : B -> LogicalKVPageHandle).

Lemma at_page_cons_eq i x l : lh_index (f x) = i -> at_page f i (x :: l) = x :: at_page f i l.
Proof. intros H. unfold at_page. by rewrite filter_cons_True. Qed.

Lemma at_page_cons_ne i x l : lh_index (f x) <> i -> at_page f i (x :: l) = at_page f i l.
Proof. intros H. unfold at_page. by rewrite filter_cons_False. Qed.

Lemma at_page_app i l l' : at_page f i (l ++ l') = at_page f i l ++ at_page f i l'.
Proof. apply filter_app. Qed.

Lemma elem_of_at_page i x l : x ∈ at_page f i l <-> lh_index (f x) = i /\ x ∈ l.
Proof. unfold at_page. by rewrite list_elem_of_filter. Qed.
End AtPage.

#[global] Instance at_page_Proper {B} (f : B -> LogicalKVPageHandle) i : Proper (Permutation ==> Permutation) (at_page f i).
Proof. intros l l' Hl. unfold at_page. by rewrite Hl. Qed.

#[global] Instance vsize_Proper {B} : Proper (Permutation ==> eq) (@vsize B).
Proof. intros l l' Hl. unfold vsize. by rewrite Hl. Qed.

#[global] Instance page_tok_Proper this i page :
  Proper (Permutation ==> Permutation ==> Permutation ==> impl) (page_tok this i page).
Proof.
  intros r r' Hr a a' Ha t t' Ht [H1 H2 H3 H4 H5 H6].
  constructor; [by rewrite <- Hr|by rewrite <- Ha|by rewrite <- Ht|by rewrite <- Hr|by rewrite <- Ha|by rewrite <- Ht].
Qed.

#[global] Instance toks_Proper st : Proper (Permutation ==> Permutation ==> Permutation ==> impl) (toks st).
Proof.
  intros R R' HR A A' HA T T' HT H i. specialize (H i). destruct ((ls_pages st).[i]).
  - by rewrite <- HR, <- HA, <- HT.
  - destruct H as (H1 & H2 & H3).
    split; [|split]; apply Permutation_nil; [rewrite <- H1|rewrite <- H2|rewrite <- H3]; f_equiv; done.
Qed.

(** What a token tells. *)
Lemma page_valid_names st h page :
  (ls_pages st).[lh_index h] = Some page -> names (ls_this st) (lh_index h) page h -> page_valid st h = true.
Proof.
  intros Hp (Ho & _ & Hocc & Hg). unfold page_valid. rewrite Ho, Z.eqb_refl, Hp, Hocc, Hg. cbn. apply Z.eqb_refl.
Qed.

Lemma names_of_valid st h page :
  (ls_pages st).[lh_index h] = Some page -> page_valid st h = true -> names (ls_this st) (lh_index h) page h.
Proof. unfold page_valid, names. intros ->. intros H. simp_bool. done. Qed.

Section Tokens.
Context (st : LogicalKVPageStore) (R : list token) (A : list LogicalKVPageHandle) (T : list token).
Hypothesis Htok : toks st R A T.

Lemma toks_at i page :
  (ls_pages st).[i] = Some page -> page_tok (ls_this st) i page (at_page fst i R) (at_page id i A) (at_page fst i T).
Proof. intros Hp. pose proof (Htok i) as H. by rewrite Hp in H. Qed.

Lemma toks_ref h c :
  (h, c) ∈ R -> exists page, (ls_pages st).[lh_index h] = Some page /\ page_valid st h = true /\
    c <= pg_committed_columns page /\ 1 <= pg_references page.
Proof.
  intros Hin. assert (Hf : (h, c) ∈ at_page fst (lh_index h) R) by (by apply elem_of_at_page).
  pose proof (Htok (lh_index h)) as H. destruct ((ls_pages st).[lh_index h]) as [page|] eqn:Hp.
  - exists page. destruct H as [H1 _ _ H4 _ _]. rewrite Forall_forall in H1. destruct (H1 _ Hf) as [Hn Hc].
    split; [done|]. split; [by eapply page_valid_names|]. split; [done|]. rewrite H4. apply list_elem_of_split in Hf as (l1 & l2 & ->).
    rewrite vsize_app, vsize_cons. pose proof (vsize_nonneg l1). pose proof (vsize_nonneg l2). lia.
  - destruct H as (H & _ & _). rewrite H in Hf. by apply elem_of_nil in Hf.
Qed.

Lemma toks_active h :
  h ∈ A -> exists page, (ls_pages st).[lh_index h] = Some page /\ page_valid st h = true /\ 1 <= pg_active_references page.
Proof.
  intros Hin. assert (Hf : h ∈ at_page id (lh_index h) A) by (by apply elem_of_at_page).
  pose proof (Htok (lh_index h)) as H. destruct ((ls_pages st).[lh_index h]) as [page|] eqn:Hp.
  - exists page. destruct H as [_ H2 _ _ H5 _]. rewrite Forall_forall in H2. pose proof (H2 _ Hf) as Hn.
    split; [done|]. split; [by eapply page_valid_names|]. rewrite H5. apply list_elem_of_split in Hf as (l1 & l2 & ->).
    rewrite vsize_app, vsize_cons. pose proof (vsize_nonneg l1). pose proof (vsize_nonneg l2). lia.
  - destruct H as (_ & H & _). rewrite H in Hf. by apply elem_of_nil in Hf.
Qed.

Lemma toks_transfer h c :
  (h, c) ∈ T -> exists page, (ls_pages st).[lh_index h] = Some page /\ page_valid st h = true /\ in_transfer page c.
Proof.
  intros Hin. assert (Hf : (h, c) ∈ at_page fst (lh_index h) T) by (by apply elem_of_at_page).
  pose proof (Htok (lh_index h)) as H. destruct ((ls_pages st).[lh_index h]) as [page|] eqn:Hp.
  - exists page. destruct H as [_ _ H3 _ _ _]. rewrite Forall_forall in H3. destruct (H3 _ Hf) as [Hn Ht].
    split; [done|]. split; [by eapply page_valid_names|done].
  - destruct H as (_ & _ & H). rewrite H in Hf. by apply elem_of_nil in Hf.
Qed.
End Tokens.

(** Two tokens of one page have the same handle. *)
Lemma valid_unique st h h' : page_valid st h = true -> page_valid st h' = true -> lh_index h = lh_index h' -> h = h'.
Proof.
  unfold page_valid. intros H H' Hi. simp_bool. rewrite <- Hi in *. destruct ((ls_pages st).[lh_index h]); [|done]. simp_bool.
  destruct h, h'. cbn in *. congruence.
Qed.

(** A change of one descriptor. *)
Lemma toks_upd st st' i page page' R A T R' A' T' :
  toks st R A T -> (ls_pages st).[i] = Some page -> ls_pages st' = (ls_pages st).[i <- page'] -> ls_this st' = ls_this st ->
  (forall j, j <> i -> at_page fst j R' = at_page fst j R /\ at_page id j A' = at_page id j A /\ at_page fst j T' = at_page fst j T) ->
  page_tok (ls_this st) i page' (at_page fst i R') (at_page id i A') (at_page fst i T') ->
  toks st' R' A' T'.
Proof.
  intros H Hp Hpages Hthis Hj Hi j. rewrite Hpages, Hthis. destruct (decide (j = i)) as [->|Hne].
  - rewrite vget_vset_eq by (by eapply vget_Some_bounds). done.
  - rewrite vget_vset_ne by done. destruct (Hj j Hne) as (-> & -> & ->). apply H.
Qed.

(** A change that no token notices. *)
Record quiet (page page' : Page) : Prop := {
  qt_occupied : pg_occupied page' = pg_occupied page;
  qt_generation : pg_generation page' = pg_generation page;
  qt_references : pg_references page' = pg_references page;
  qt_actives : pg_active_references page' = pg_active_references page;
  qt_columns : pg_committed_columns page <= pg_committed_columns page';
  qt_transfer : forall c, in_transfer page c -> in_transfer page' c;
}.

Lemma names_quiet this i page page' h :
  pg_occupied page' = pg_occupied page -> pg_generation page' = pg_generation page -> names this i page h -> names this i page' h.
Proof. intros Ho Hg (H1 & H2 & H3 & H4). split; [done|]. split; [done|]. by rewrite Ho, Hg. Qed.

Lemma page_tok_quiet this i page page' r a t : quiet page page' -> page_tok this i page r a t -> page_tok this i page' r a t.
Proof.
  intros [Ho Hg Hr Ha Hc Ht] [H1 H2 H3 H4 H5 H6]. constructor; try congruence.
  - eapply Forall_impl; [exact H1|]. intros x [Hn Hx]. split; [by eapply names_quiet|lia].
  - eapply Forall_impl; [exact H2|]. intros x Hn. by eapply names_quiet.
  - eapply Forall_impl; [exact H3|]. intros x [Hn Hx]. split; [by eapply names_quiet|auto].
Qed.

Lemma toks_quiet st st' i page page' R A T :
  toks st R A T -> (ls_pages st).[i] = Some page -> ls_pages st' = (ls_pages st).[i <- page'] -> ls_this st' = ls_this st ->
  quiet page page' -> toks st' R A T.
Proof.
  intros H Hp Hpages Hthis Hq. eapply toks_upd; [done..|]. eapply page_tok_quiet; [exact Hq|]. by apply toks_at.
Qed.

(** * Calls on tokens *)

(** The store with its tokens, and at least [n] accounts. *)
Record pinv (this : Z) (n : nat) (R : list token) (A : list LogicalKVPageHandle) (T : list token) (s : kv) : Prop := {
  pi_ok : kv_ok s;
  pi_this : ls_this (kv_store s) = this;
  pi_accounts : (n <= length (kv_reservations s))%nat;
  pi_toks : toks (kv_store s) R A T;
}.

#[global] Instance pinv_Proper this n : Proper (Permutation ==> Permutation ==> Permutation ==> eq ==> impl) (pinv this n).
Proof.
  intros R R' HR A A' HA T T' HT s ? <- [H1 H2 H3 H4]. constructor; try done. by rewrite <- HR, <- HA, <- HT.
Qed.

(** An exception leaves the state as it was. *)
Definition unchanged (s : kv) : error -> kv -> Prop := fun e s' => e <> Terminate -> s' = s.
Definition no_error {S} : error -> S -> Prop := fun _ _ => False.

Lemma wp_safe {A} s (m : K A) (Q : A -> kv -> Prop) :
  safe s (m s) -> (forall a s', m s = (s', Ok a) -> kv_ok s' -> Q a s') -> wp m Q (unchanged s) s.
Proof.
  unfold safe, wp, unchanged. intros Hs Hq. destruct (m s) as [s' [a|e]]; [by apply Hq|]. by destruct e.
Qed.

Lemma wp_succeeds {S A} (m : M S A) Q E (s s' : S) a : wp m Q E s -> m s = (s', Ok a) -> wp m Q no_error s.
Proof. unfold wp. by intros H E'; rewrite E' in *. Qed.

Lemma require_Ok h s s' page :
  LogicalKv.require h s = (s', Ok page) <->
  s' = s /\ page_valid (kv_store s) h = true /\ (ls_pages (kv_store s)).[lh_index h] = Some page.
Proof.
  unfold LogicalKv.require, mthrow_if, mlift, mget, throw_if, mbind, M_bind. destruct (page_valid (kv_store s) h); cbn; [|naive_solver].
  unfold vat. destruct ((ls_pages (kv_store s)).[lh_index h]); naive_solver.
Qed.

(** Runs a call whose handle is live. *)
Lemma require_run {B} h s page (k : Page -> K B) :
  page_valid (kv_store s) h = true -> (ls_pages (kv_store s)).[lh_index h] = Some page -> (LogicalKv.require h ≫= k) s = k page s.
Proof. intros Hv Hp. apply M_bind_run. by apply require_Ok. Qed.

Ltac open_call :=
  repeat (simp_M; match goal with
    | H : LogicalKv.require _ _ = (_, Ok _) |- _ => apply require_Ok in H as (? & ? & ?); subst
    | H : put_page _ _ _ = (_, Ok _) |- _ => unfold put_page in H
    | H : page_ref _ _ = (_, Ok _) |- _ => unfold page_ref in H
    end); simp_M.

(** Two readings of one descriptor agree. *)
Ltac same_page Hp :=
  lazymatch type of Hp with
  | ?l = Some ?p =>
      repeat match goal with
      | H : l = Some ?q |- _ =>
          assert_fails (unify q p); assert (q = p) by congruence; subst q
      end
  end.

Section Frame.
Context {this : Z} {n : nat} {R : list token} {A : list LogicalKVPageHandle} {T : list token} {s : kv}.
Hypothesis Hinv : pinv this n R A T s.

Lemma pinv_same_store s' :
  kv_ok s' -> kv_store s' = kv_store s -> (n <= length (kv_reservations s'))%nat -> pinv this n R A T s'.
Proof. intros Hok Hs Hl. constructor; [done|..]; rewrite ?Hs; try apply Hinv. done. Qed.

(** One descriptor changes. *)
Lemma pinv_upd s' i page page' R' A' T' :
  (ls_pages (kv_store s)).[i] = Some page -> kv_ok s' ->
  ls_pages (kv_store s') = (ls_pages (kv_store s)).[i <- page'] -> ls_this (kv_store s') = ls_this (kv_store s) ->
  length (kv_reservations s') = length (kv_reservations s) ->
  (forall j, j <> i -> at_page fst j R' = at_page fst j R /\ at_page id j A' = at_page id j A /\ at_page fst j T' = at_page fst j T) ->
  (page_tok this i page (at_page fst i R) (at_page id i A) (at_page fst i T) ->
   page_tok this i page' (at_page fst i R') (at_page id i A') (at_page fst i T')) ->
  pinv this n R' A' T' s'.
Proof.
  intros Hp Hok Hpages Hthis Hlen Hj Hi. pose proof (pi_this _ _ _ _ _ _ Hinv) as Ht. constructor; [done|congruence|rewrite Hlen; apply Hinv|].
  eapply toks_upd; [apply Hinv|done..|]. rewrite Ht. apply Hi. rewrite <- Ht. apply toks_at; [apply Hinv|done].
Qed.

Lemma pinv_quiet s' i page page' :
  (ls_pages (kv_store s)).[i] = Some page -> kv_ok s' ->
  ls_pages (kv_store s') = (ls_pages (kv_store s)).[i <- page'] -> ls_this (kv_store s') = ls_this (kv_store s) ->
  length (kv_reservations s') = length (kv_reservations s) -> quiet page page' -> pinv this n R A T s'.
Proof. intros Hp Hok Hpages Hthis Hlen Hq. eapply pinv_upd; [done..|]. by apply page_tok_quiet. Qed.
End Frame.

(** Calls that change counters other than the references. *)
Ltac solve_quiet :=
  constructor; cbn; try done; try lia;
  try (let c := fresh in let H := fresh in intros c [? ? ? ?]; constructor; cbn; (done || congruence || lia)).

Ltac quiet_call safe_lemma :=
  match goal with H : pinv _ _ _ _ _ ?s |- wp _ _ (unchanged ?s) ?s =>
    apply wp_safe; [apply safe_lemma; apply H || assumption|];
    let a := fresh "a" in let s' := fresh "s'" in let E := fresh "E" in let Hok := fresh "Hok" in
    intros a s' E Hok; open_call; simp_bool;
    (eapply (pinv_quiet H); [eassumption|exact Hok|reflexivity|reflexivity|reflexivity|])
  end.

Section Quiet.
Context {this : Z} {n : nat} {R : list token} {A : list LogicalKVPageHandle} {T : list token} {s : kv}.
Hypothesis Hinv : pinv this n R A T s.
Notation kept := (fun _ => pinv this n R A T).

Lemma pin_kept h : wp (pin_source h) kept (unchanged s) s.
Proof. unfold pin_source. quiet_call (@pin_safe true). solve_quiet. Qed.

Lemma unpin_kept h : wp (unpin_source h) kept (unchanged s) s.
Proof. unfold unpin_source. quiet_call (@unpin_safe true). solve_quiet. Qed.

Lemma set_writer_kept h w : wp (set_writer h w) kept (unchanged s) s.
Proof. unfold set_writer. quiet_call (@set_writer_safe true). solve_quiet. Qed.

Lemma protect_kept h columns : is_u32 columns -> wp (protect_coverage h columns) kept (unchanged s) s.
Proof. intros Hu. unfold protect_coverage. quiet_call (@protect_safe true). solve_quiet. Qed.

Lemma set_protected_kept h columns : is_u32 columns -> wp (set_protected_coverage h columns) kept (unchanged s) s.
Proof. intros Hu. unfold set_protected_coverage. quiet_call (@set_protected_safe true). solve_quiet. Qed.

Lemma clear_protection_kept h : wp (clear_protection h) kept (unchanged s) s.
Proof. unfold clear_protection. quiet_call (@clear_protection_safe true). solve_quiet. Qed.
End Quiet.

(** The tokens of a page after one of its own is added or taken away. *)
Lemma at_page_others {B} (f : B -> LogicalKVPageHandle) (x : B) l j : j <> lh_index (f x) -> at_page f j (x :: l) = at_page f j l.
Proof. intros Hj. by apply at_page_cons_ne. Qed.

Ltac other_pages := intros ? ?; rewrite ?at_page_others by done; done.

(** Keep what holds of the tokens across a change of the counters. *)
Lemma page_tok_counts this i page page' r a t r' a' :
  page_tok this i page r a t ->
  pg_occupied page' = pg_occupied page -> pg_generation page' = pg_generation page ->
  pg_committed_columns page' = pg_committed_columns page -> (t <> [] -> quiet page page') ->
  Forall (fun x => names this i page (fst x) /\ snd x <= pg_committed_columns page) r' -> Forall (names this i page) a' ->
  pg_references page' = vsize r' -> pg_active_references page' = vsize a' -> page_tok this i page' r' a' t.
Proof.
  intros [H1 H2 H3 H4 H5 H6] Ho Hg Hc Ht Hr Ha Er Ea. constructor; try done.
  - eapply Forall_impl; [exact Hr|]. intros x [Hn Hx]. split; [by eapply names_quiet|lia].
  - eapply Forall_impl; [exact Ha|]. intros x Hn. by eapply names_quiet.
  - destruct t as [|x t]; [done|]. specialize (Ht ltac:(done)).
    eapply Forall_impl; [exact H3|]. intros y [Hn Hy]. split; [by eapply names_quiet|by apply Ht].
Qed.

Section References.
Context {this : Z} {n : nat} {R : list token} {A : list LogicalKVPageHandle} {T : list token} {s : kv}.
Implicit Types (h : LogicalKVPageHandle) (c : Z).

(** A page with tokens of references is not in transfer. *)
Lemma no_transfer i page r a t :
  page_tok this i page r a t -> 1 <= pg_references page -> t = [].
Proof.
  intros [_ _ H3 _ _ _] Hr. destruct t as [|x t]; [done|]. apply Forall_cons_1 in H3 as [[_ [_ ? _ _]] _]. lia.
Qed.

(** A page on the device that no transfer or restore is writing. *)
Definition shareable (page : Page) : bool := has (pg_device_replica page) && negb (pg_destination_pinned page).

Lemma retain_gives h c :
  pinv this n R A T s ->
  page_test (kv_store s) h (fun page => ((1 <=? pg_references page) || shareable page) && (c <=? pg_committed_columns page)) = true ->
  wp (retain_reference h false) (fun _ => pinv this n ((h, c) :: R) A T) (unchanged s) s.
Proof.
  intros Hinv Ht. pose proof Ht as (page & Hv & Hp & Hocc & [Hr Hc%Z.leb_le]%andb_prop)%page_test_true.
  apply orb_true_iff in Hr. unfold shareable in Hr. rewrite andb_true_iff, negb_true_iff, Z.leb_le in Hr.
  apply wp_safe.
  { apply retain_safe; [apply Hinv|]. intros _. unfold page_test. rewrite Hv, Hp. cbn. unfold has_content.
    destruct Hr as [Hr|[-> _]]; [|done]. apply orb_true_iff. rewrite has_true.
    apply (@pk_content true page); [by eapply so_pages; [apply (ki_store _ _ (pi_ok _ _ _ _ _ _ Hinv))|]|done|lia]. }
  intros u s' E Hok. unfold retain_reference in E. open_call. simp_bool. simplify_eq.
  pose proof (so_pages _ (ki_store _ _ (pi_ok _ _ _ _ _ _ Hinv)) _ _ Hp) as Hpk. pose proof (pk_references _ Hpk).
  eapply (pinv_upd Hinv); [exact Hp|exact Hok|reflexivity|reflexivity|reflexivity|other_pages|].
  intros Htok. rewrite at_page_cons_eq by done.
  assert (Hnil : at_page fst (lh_index h) T = []).
  { destruct Hr as [Hr|[_ Hpin]]; [by eapply no_transfer|]. destruct Htok as [_ _ H3 _ _ _].
    destruct (at_page fst (lh_index h) T); [done|]. apply Forall_cons_1 in H3 as [[_ [? _ _ _]] _]. congruence. }
  eapply page_tok_counts; [exact Htok|done..| |apply Htok| |apply Htok].
  - apply Forall_cons_2; [|apply Htok]. cbn. split; [|done]. rewrite <- (pi_this _ _ _ _ _ _ Hinv). by apply names_of_valid.
  - cbn. rewrite wrap32_small by (unfold U32_MAX in *; lia). rewrite vsize_cons, (pt_references _ _ _ _ _ _ Htok). lia.
Qed.

(** Writing a descriptor keeps what a test says of every page, when it keeps
    the name of the page and the test. *)
Lemma put_page_test k (test : Page -> bool) i page page' h :
  (ls_pages (kv_store k)).[i] = Some page -> pg_occupied page' = pg_occupied page -> pg_generation page' = pg_generation page ->
  test page' = test page ->
  page_test (kv_store (set_pages ((ls_pages (kv_store k)).[i <- page']) k)) h test = page_test (kv_store k) h test.
Proof.
  intros Hp Ho Hg Ht. unfold page_test, page_valid. cbn. destruct (decide (lh_index h = i)) as [->|Hne].
  - rewrite vget_vset_eq by (by eapply vget_Some_bounds). by rewrite Hp, Ho, Hg, Ht.
  - by rewrite vget_vset_ne by done.
Qed.

Lemma retain_keeps_shareable k k' h u h' :
  retain_reference h false k = (k', Ok u) -> page_test (kv_store k') h' shareable = page_test (kv_store k) h' shareable.
Proof. intros E. unfold retain_reference in E. open_call. by eapply put_page_test. Qed.

Lemma protect_keeps_shareable k k' h columns u h' :
  protect_coverage h columns k = (k', Ok u) -> page_test (kv_store k') h' shareable = page_test (kv_store k) h' shareable.
Proof. intros E. unfold protect_coverage in E. open_call. by eapply put_page_test. Qed.

(** The columns of a token can follow those of its page. *)
Lemma pinv_columns h c c' page :
  pinv this n ((h, c) :: R) A T s -> (ls_pages (kv_store s)).[lh_index h] = Some page -> c' <= pg_committed_columns page ->
  pinv this n ((h, c') :: R) A T s.
Proof.
  intros [H1 H2 H3 H4] Hp Hc. constructor; try done. intros i. specialize (H4 i).
  destruct (decide (lh_index h = i)) as [<-|Hne].
  - rewrite Hp in *. rewrite !at_page_cons_eq in * by done. destruct H4 as [K1 K2 K3 K4 K5 K6]. constructor; try done.
    apply Forall_cons_1 in K1 as [[? ?] ?]. apply Forall_cons_2; done.
  - by rewrite !at_page_cons_ne in * by done.
Qed.

Lemma retain_active_gives h :
  pinv this n R A T s -> page_test (kv_store s) h (fun page => pg_active_references page <? pg_references page) = true ->
  wp (retain_active_reference h) (fun _ => pinv this n R (h :: A) T) no_error s.
Proof.
  intros Hinv Ht. pose proof Ht as (page & Hv & Hp & Hocc & Hr)%page_test_true. simp_bool.
  pose proof (so_pages _ (ki_store _ _ (pi_ok _ _ _ _ _ _ Hinv)) _ _ Hp) as Hpk. pose proof (pk_references _ Hpk).
  eapply wp_succeeds with (E := unchanged s).
  - apply wp_safe; [apply retain_active_safe, Hinv|].
    intros u s' E Hok. unfold retain_active_reference in E. open_call. simp_bool. simplify_eq.
    eapply (pinv_upd Hinv); [exact Hp|exact Hok|reflexivity|reflexivity|reflexivity|other_pages|].
    intros Htok. rewrite (at_page_cons_eq id) by done. pose proof (no_transfer _ _ _ _ _ Htok ltac:(lia)) as Hnil.
    eapply page_tok_counts; [exact Htok|done..|apply Htok| |apply Htok|].
    + apply Forall_cons_2; [|apply Htok]. rewrite <- (pi_this _ _ _ _ _ _ Hinv). by apply names_of_valid.
    + cbn. rewrite wrap32_small by (unfold U32_MAX in *; lia). rewrite vsize_cons, (pt_actives _ _ _ _ _ _ Htok). lia.
  - unfold retain_active_reference. rewrite (require_run _ _ _ _ Hv Hp). unfold mthrow_if, throw_if, mlift, mbind, M_bind.
    rewrite (proj2 (Z.eqb_neq _ _)), (proj2 (Z.leb_gt _ _)) by (unfold U32_MAX in *; lia). reflexivity.
Qed.

Lemma release_active_takes h :
  pinv this n R (h :: A) T s -> wp (release_active_reference h) (fun _ => pinv this n R A T) no_error s.
Proof.
  intros Hinv. destruct (toks_active _ _ _ _ (pi_toks _ _ _ _ _ _ Hinv) h ltac:(by left)) as (page & Hp & Hv & Ha).
  pose proof (so_pages _ (ki_store _ _ (pi_ok _ _ _ _ _ _ Hinv)) _ _ Hp) as Hpk. pose proof (pk_references _ Hpk).
  eapply wp_succeeds with (E := unchanged s).
  - apply wp_safe; [apply release_active_safe, Hinv|].
    intros u s' E Hok. unfold release_active_reference in E. open_call. simp_bool. simplify_eq.
    eapply (pinv_upd Hinv); [exact Hp|exact Hok|reflexivity|reflexivity|reflexivity|other_pages|].
    rewrite (at_page_cons_eq id) by done. intros Htok. pose proof (no_transfer _ _ _ _ _ Htok ltac:(lia)) as Hnil.
    pose proof (pt_active _ _ _ _ _ _ Htok) as Hact. apply Forall_cons_1 in Hact as [_ Hact].
    eapply page_tok_counts; [exact Htok|done..|apply Htok|exact Hact|apply Htok|].
    cbn. rewrite wrap32_small by (unfold U32_MAX in *; lia). rewrite (pt_actives _ _ _ _ _ _ Htok), vsize_cons. lia.
  - unfold release_active_reference. rewrite (require_run _ _ _ _ Hv Hp). unfold mthrow_if, throw_if, mlift, mbind, M_bind.
    rewrite (proj2 (Z.eqb_neq _ _)) by lia. reflexivity.
Qed.
End References.

(** ** Giving references back *)

(** What else a call that frees at most one descriptor keeps: the pins and the
    coverage of the pages that stay. *)
Definition pins_kept (s s' : kv) : Prop :=
  forall i page', (ls_pages (kv_store s')).[i] = Some page' -> pg_occupied page' = true ->
    exists page, (ls_pages (kv_store s)).[i] = Some page /\ pg_occupied page = true /\
      pg_source_pins page' = pg_source_pins page /\ pg_destination_pinned page' = pg_destination_pinned page /\
      pg_committed_columns page' = pg_committed_columns page.

Lemma pins_kept_trans s1 s2 s3 : pins_kept s1 s2 -> pins_kept s2 s3 -> pins_kept s1 s3.
Proof.
  intros H1 H2 i page3 Hp3 Ho3. destruct (H2 _ _ Hp3 Ho3) as (page2 & Hp2 & Ho2 & -> & -> & ->). by apply H1.
Qed.

Lemma pins_kept_refl s : pins_kept s s.
Proof. intros i page Hp Ho. by exists page. Qed.

(** A released reference: one less, or the end of the descriptor. *)
Inductive dropped_reference (page : Page) : Page -> Prop :=
  | dr_fewer page' :
      pg_occupied page' = pg_occupied page -> pg_generation page' = pg_generation page ->
      pg_committed_columns page' = pg_committed_columns page -> pg_references page' = pg_references page - 1 ->
      pg_active_references page' = pg_active_references page -> pg_source_pins page' = pg_source_pins page ->
      pg_destination_pinned page' = pg_destination_pinned page -> dropped_reference page page'
  | dr_last : pg_references page = 1 -> dropped_reference page (vacated page).

(** [s'] is [s] with the descriptor [i] rewritten. *)
Record rewritten (s s' : kv) (i : Z) (page' : Page) : Prop := {
  rw_pages : ls_pages (kv_store s') = (ls_pages (kv_store s)).[i <- page'];
  rw_this : ls_this (kv_store s') = ls_this (kv_store s);
  rw_reservations : length (kv_reservations s') = length (kv_reservations s);
}.

Lemma page_ref_run {B} i s page (k : Page -> K B) :
  (ls_pages (kv_store s)).[i] = Some page -> (page_ref i ≫= k) s = k page s.
Proof. intros Hp. unfold page_ref, mget, mlift, mbind, M_bind. by rewrite (proj2 (vat_Ok _ _ _) Hp). Qed.

Section Release.
Context (s : kv) (Hs : kv_ok s) (h : LogicalKVPageHandle).

Lemma release_reference_run :
  can_release_reference (kv_store s) h false = true ->
  exists s' page page', release_reference h false s = (s', Ok true) /\ (ls_pages (kv_store s)).[lh_index h] = Some page /\
    page_valid (kv_store s) h = true /\ rewritten s s' (lh_index h) page' /\ dropped_reference page page'.
Proof.
  intros Hg. pose proof Hg as (page & Hv & Hp & Hocc & Hg')%page_test_true. simp_bool.
  pose proof (so_pages _ (ki_store _ _ Hs) _ _ Hp) as Hpk. pose proof (vget_Some_bounds _ _ _ Hp) as Hb.
  pose proof (pk_references _ Hpk). pose proof (pk_writer _ Hpk).
  unfold release_reference, noexcept, mget at 1. rewrite (M_bind_run _ _ s s s) by done. rewrite Hg. cbn [negb].
  rewrite (page_ref_run _ _ _ _ Hp). cbn [andb].
  rewrite (M_bind_run _ _ s (set_pages ((ls_pages (kv_store s)).[lh_index h <- set_references (pg_references page - 1) page]) s) tt)
    by (unfold put_page, mmodify; by rewrite wrap32_small by (unfold U32_MAX in *; lia)).
  cbn [pg_references set_references]. rewrite wrap32_small by (unfold U32_MAX in *; lia).
  destruct (Z.eqb_spec (pg_references page - 1) 0) as [Hz|Hz]; cbn [negb].
  2:{ do 3 eexists. split; [reflexivity|]. split; [done|]. split; [done|]. split; [by constructor|]. by apply dr_fewer. }
  set (page1 := set_references (pg_references page - 1) page).
  assert (Hp1 : (ls_pages (kv_store (set_pages ((ls_pages (kv_store s)).[lh_index h <- page1]) s))).[lh_index h] = Some page1)
    by (by apply vget_vset_eq).
  rewrite (M_bind_run _ _ _ _ _ (reset_device_eq h _ page1 Hp1)). cbn [kv_store set_pages ls_pages].
  rewrite vset_vset_eq. destruct (has (pg_host_replica page)) eqn:Hh; cbn [negb].
  - do 3 eexists. split; [unfold page1; cbn; rewrite Hh; reflexivity|]. split; [done|]. split; [done|]. split; [by constructor|].
    by apply dr_fewer.
  - destruct (vacate_ok s Hs _ _ Hp Hocc) as (_ & Hc & Hu).
    assert (Hpd : pg_pending_device_replica page = None).
    { destruct (pg_pending_device_replica page) eqn:E; [|done]. destruct (pk_pending _ Hpk) as [_ ?]; [by rewrite E|]. congruence. }
    unfold page1. cbn [pg_host_replica set_references]. rewrite Hh. cbn [negb].
    match goal with |- context [(release_descriptor h ≫= _) ?s2] =>
      pose proof (release_descriptor_eq h s2 (set_device_replica None page1)) as Hrd end.
    specialize (Hrd (vget_vset_eq _ _ _ Hb) ltac:(unfold page_leases; cbn; by rewrite Hpd) Hc Hu).
    cbn [pg_active_references set_device_replica set_references page1] in Hrd.
    rewrite (proj2 (Z.eqb_eq (pg_active_references page) 0)) in Hrd by lia. rewrite (M_bind_run _ _ _ _ _ Hrd).
    eexists _, page, (vacated page). split; [reflexivity|]. split; [done|]. split; [done|]. split.
    + constructor; [|done|done]. cbn. by rewrite vset_vset_eq.
    + apply dr_last. lia.
Qed.
End Release.

(** No token is left at a vacated descriptor. *)
Lemma page_tok_vacated this i page : page_tok this i (vacated page) [] [] [].
Proof. constructor; unfold vsize; cbn; try apply Forall_nil_2; done || lia. Qed.

Lemma tok_nil {B} (l : list B) : vsize l = 0 -> l = [].
Proof. destruct l; [done|]. rewrite vsize_cons. pose proof (vsize_nonneg l). lia. Qed.

Lemma vsize_single {B} (x : B) (l : list B) : vsize (x :: l) = 1 -> l = [].
Proof. rewrite vsize_cons. intros H. apply tok_nil. lia. Qed.

(** The page of the last token is vacated. *)
Lemma page_tok_last this i page x r a t :
  page_tok this i page (x :: r) a t -> pg_references page = 1 -> pg_active_references page = 0 ->
  page_tok this i (vacated page) r a t.
Proof.
  intros Htok Hr Ha. pose proof (pt_references _ _ _ _ _ _ Htok) as Er. rewrite Hr in Er. symmetry in Er. apply vsize_single in Er as ->.
  pose proof (pt_actives _ _ _ _ _ _ Htok) as Ea. rewrite Ha in Ea. symmetry in Ea. apply tok_nil in Ea as ->.
  rewrite (no_transfer _ _ _ _ _ Htok) by lia. apply page_tok_vacated.
Qed.

Definition others_kept (s s' : kv) (i : Z) : Prop := forall j, j <> i -> (ls_pages (kv_store s')).[j] = (ls_pages (kv_store s)).[j].

Lemma rewritten_others s s' i page' : rewritten s s' i page' -> others_kept s s' i.
Proof. intros H j Hj. rewrite (rw_pages _ _ _ _ H). by apply vget_vset_ne. Qed.

Lemma dropped_pins s s' i page page' :
  (ls_pages (kv_store s)).[i] = Some page -> rewritten s s' i page' -> dropped_reference page page' -> pins_kept s s'.
Proof.
  intros Hp Hrw Hd j q Hq Hocc. pose proof (vget_Some_bounds _ _ _ Hp) as Hb. rewrite (rw_pages _ _ _ _ Hrw) in Hq.
  destruct (decide (j = i)) as [->|Hne].
  - rewrite vget_vset_eq in Hq by done. injection Hq as <-. exists page. destruct Hd; [|done]. split; [done|]. split; [congruence|done].
  - rewrite vget_vset_ne in Hq by done. by exists q.
Qed.

Section Takes.
Context {this : Z} {n : nat} {R : list token} {A : list LogicalKVPageHandle} {T : list token} {s : kv}.

Lemma release_takes h c :
  pinv this n ((h, c) :: R) A T s -> can_release_reference (kv_store s) h false = true ->
  wp (release_reference h false)
    (fun ok s' => ok = true /\ pinv this n R A T s' /\ pins_kept s s' /\ others_kept s s' (lh_index h)) no_error s.
Proof.
  intros Hinv Hg. pose proof (pi_ok _ _ _ _ _ _ Hinv) as Hs.
  destruct (release_reference_run s Hs h Hg) as (s' & page & page' & E & Hp & Hv & Hrw & Hd).
  pose proof (release_reference_safe s Hs h false) as Hsafe. rewrite E in Hsafe. unfold wp. rewrite E.
  split; [done|]. split; [|split; [by eapply dropped_pins|by eapply rewritten_others]].
  pose proof (so_pages _ (ki_store _ _ Hs) _ _ Hp) as Hpk. pose proof (pk_references _ Hpk) as Href.
  apply page_test_true in Hg as (page0 & _ & Hp0 & _ & Hg). rewrite Hp in Hp0. injection Hp0 as <-. simp_bool.
  destruct Hrw as [Hpages Hthis Hres]. eapply (pinv_upd Hinv); [exact Hp|exact Hsafe|exact Hpages|exact Hthis|exact Hres|other_pages|].
  rewrite (at_page_cons_eq fst) by done. intros Htok.
  destruct Hd as [page' Ho Hgen Hcol Hr Hact Hpin Hdp|Hone]; [|eapply page_tok_last; [exact Htok|done|lia]].
  pose proof (pt_ref _ _ _ _ _ _ Htok) as Hf. apply Forall_cons_1 in Hf as [_ Hf].
  pose proof (no_transfer _ _ _ _ _ Htok ltac:(lia)) as Hnil.
  eapply page_tok_counts; [exact Htok|done..|exact Hf|apply Htok| |rewrite Hact; apply Htok].
  rewrite Hr, (pt_references _ _ _ _ _ _ Htok), vsize_cons. lia.
Qed.

(** ** Pages given back to a reservation *)
Lemma device_lease_live i page l :
  kv_ok s -> (ls_pages (kv_store s)).[i] = Some page -> pg_device_replica page = Some l -> lease_live (kv_pool s) l.
Proof.
  intros Hs Hp Hd. pose proof (ck_live _ (ki_pool _ _ Hs)) as Hl. unfold all_leases in Hl. cbn in Hl. rewrite app_nil_r in Hl.
  rewrite Forall_forall in Hl. apply Hl. destruct (replicas_split _ _ _ Hp) as (rest & -> & _). unfold page_leases. rewrite Hd. by left.
Qed.

Lemma dematerialize_one_run k r i page l :
  kv_ok s -> kv_reservations s !! k = Some r -> (ls_pages (kv_store s)).[i] = Some page -> pg_device_replica page = Some l ->
  exists p r' l', dematerialize_one (kv_pool s) r l = Ok (p, r', l').
Proof.
  intros Hs Hk Hp Hd. pose proof (device_lease_live _ _ _ Hs Hp Hd) as Hl. pose proof (ki_pool _ _ Hs) as Hc.
  pose proof (ck_wf _ Hc) as Hwf. cbn in Hwf. pool_facts Hwf. destruct (client_reservation _ k r Hc Hk) as [Hro Hrp]. cbn in Hro, Hrp.
  destruct (lease_release_Ok _ l Hwf Hl) as (p1 & E & _). destruct Hl as [Ho Hv].
  unfold dematerialize_one, reservation_belongs_to, throw_if. rewrite Hro, Ho, !Z.eqb_refl, Hv.
  rewrite (proj2 (Z.eqb_neq (rs_pages r) _)) by (unfold U32_MAX; lia). cbn. rewrite E. cbn. eauto.
Qed.

(** The common tail of [dematerialize] and [abort_transfer_destination]. *)
Lemma give_back_run h k r page l :
  kv_ok s -> kv_reservations s !! k = Some r -> (ls_pages (kv_store s)).[lh_index h] = Some page -> pg_occupied page = true ->
  pg_device_replica page = Some l -> pg_active_references page = 0 ->
  exists s', (_ ← pool_dematerialize_one k l; _ ← put_page (lh_index h) (set_device_replica None page); release_descriptor h) s = (s', Ok tt) /\
    kv_ok s' /\ rewritten s s' (lh_index h) (vacated page).
Proof.
  intros Hs Hk Hp Hocc Hd Ha. destruct (dematerialize_one_run _ _ _ _ _ Hs Hk Hp Hd) as (p & r' & l' & Em).
  pose proof (so_pages _ (ki_store _ _ Hs) _ _ Hp) as Hpk. pose proof (single_lease _ _ Hpk Hd) as Hl.
  pose proof (give_and_vacate s Hs h page k l Hp Hocc Hl Hd) as Hsafe. destruct (vacate_ok s Hs _ _ Hp Hocc) as (_ & Hc & Hu).
  pose proof (vget_Some_bounds _ _ _ Hp) as Hb. set (s1 := mkKv p (<[k := r']> (kv_reservations s)) (kv_store s)).
  assert (E1 : pool_dematerialize_one k l s = (s1, Ok tt))
    by (unfold pool_dematerialize_one, mget, mlift, mput, mbind, M_bind; by rewrite Hk, Em).
  pose proof (release_descriptor_eq h (set_pages ((ls_pages (kv_store s1)).[lh_index h <- set_device_replica None page]) s1)
    (set_device_replica None page) (vget_vset_eq _ _ _ Hb)) as Hrd.
  specialize (Hrd ltac:(unfold page_leases in *; rewrite Hd in Hl; cbn in *; by injection Hl) Hc Hu). cbn [pg_active_references set_device_replica] in Hrd.
  rewrite Ha in Hrd. change (0 =? 0) with true in Hrd. cbv iota in Hrd.
  rewrite (M_bind_run _ _ _ _ _ E1), (M_bind_run _ _ s1 (set_pages ((ls_pages (kv_store s1)).[lh_index h <- set_device_replica None page]) s1) tt eq_refl) in Hsafe.
  rewrite (M_bind_run _ _ _ _ _ E1), (M_bind_run _ _ s1 (set_pages ((ls_pages (kv_store s1)).[lh_index h <- set_device_replica None page]) s1) tt eq_refl).
  rewrite Hrd in *. eexists. split; [reflexivity|]. split; [exact Hsafe|]. constructor; cbn; [by rewrite vset_vset_eq|done|].
  by rewrite length_insert.
Qed.

Lemma dematerialize_takes h c k :
  pinv this n ((h, c) :: R) A T s -> can_dematerialize (kv_store s) h = true -> (k < n)%nat -> h ∉ A ->
  wp (dematerialize h k) (fun _ s' => pinv this n R A T s' /\ others_kept s s' (lh_index h)) no_error s.
Proof.
  intros Hinv Hg Hk Hna. pose proof Hg as (page & Hv & Hp & Hocc & Hg')%page_test_true. simp_bool. rewrite ?has_true, ?has_false in *.
  destruct (pg_device_replica page) as [l|] eqn:Hd; [|done]. pose proof (pi_ok _ _ _ _ _ _ Hinv) as Hs.
  destruct (lookup_lt_is_Some_2 (kv_reservations s) k) as [r Hr]; [pose proof (pi_accounts _ _ _ _ _ _ Hinv); lia|].
  pose proof (toks_at _ _ _ _ (pi_toks _ _ _ _ _ _ Hinv) _ _ Hp) as Htok.
  assert (Ha : pg_active_references page = 0).
  { rewrite (pt_actives _ _ _ _ _ _ Htok). destruct (at_page id (lh_index h) A) as [|h' l'] eqn:El; [done|exfalso]. apply Hna.
    assert (Hin : h' ∈ at_page id (lh_index h) A) by (rewrite El; by left). apply elem_of_at_page in Hin as [Hi Hin].
    destruct (toks_active _ _ _ _ (pi_toks _ _ _ _ _ _ Hinv) h' Hin) as (? & _ & Hv' & _).
    by rewrite (valid_unique _ _ _ Hv Hv'). }
  destruct (give_back_run h k r page l Hs Hr Hp Hocc Hd Ha) as (s' & E & Hok & Hrw).
  unfold wp, dematerialize. rewrite (require_run _ _ _ _ Hv Hp). unfold mthrow_if, throw_if, mlift, mbind at 1, M_bind at 1.
  rewrite !(proj2 (Z.eqb_eq _ _)) by done. rewrite (proj2 (has_false (pg_host_replica page))), Hd by done.
  match goal with H : pg_destination_pinned page = false |- _ => rewrite H end. cbn [negb orb has]. rewrite E.
  split; [|by eapply rewritten_others]. destruct Hrw as [Hpages Hthis Hres].
  eapply (pinv_upd Hinv); [exact Hp|exact Hok|exact Hpages|exact Hthis|exact Hres|other_pages|].
  rewrite (at_page_cons_eq fst) by done. intros Htok'. by eapply page_tok_last.
Qed.
End Takes.

(** ** Coverage *)
Lemma truncate_page_fields columns page :
  pg_committed_columns (truncate_page columns page) = columns /\ pg_occupied (truncate_page columns page) = pg_occupied page /\
  pg_generation (truncate_page columns page) = pg_generation page /\ pg_references (truncate_page columns page) = pg_references page /\
  pg_active_references (truncate_page columns page) = pg_active_references page.
Proof. unfold truncate_page. destruct (Z.eqb_spec columns (pg_committed_columns page)); cbn; done. Qed.

(** Truncation of a page with one reference. *)
Lemma page_tok_truncated this i page page' h c r a t columns :
  page_tok this i page ((h, c) :: r) a t -> pg_references page = 1 ->
  pg_committed_columns page' = columns -> pg_occupied page' = pg_occupied page -> pg_generation page' = pg_generation page ->
  pg_references page' = pg_references page -> pg_active_references page' = pg_active_references page ->
  page_tok this i page' ((h, columns) :: r) a t.
Proof.
  intros Htok Hone Hc Ho Hg Hr Ha. pose proof (no_transfer _ _ _ _ _ Htok ltac:(lia)) as ->.
  pose proof (pt_references _ _ _ _ _ _ Htok) as Er. rewrite Hone in Er. symmetry in Er. apply vsize_single in Er as ->.
  destruct Htok as [H1 H2 H3 H4 H5 H6]. apply Forall_cons_1 in H1 as [[Hn _] _]. constructor.
  - apply Forall_cons_2; [|apply Forall_nil_2]. cbn. split; [by eapply names_quiet|lia].
  - eapply Forall_impl; [exact H2|]. intros x Hx. by eapply names_quiet.
  - apply Forall_nil_2.
  - rewrite Hr, H4. done.
  - rewrite Ha, H5. done.
  - done.
Qed.

Section Coverage.
Context {this : Z} {n : nat} {R : list token} {A : list LogicalKVPageHandle} {T : list token} {s : kv}.

Lemma truncate_lowers h c columns :
  pinv this n ((h, c) :: R) A T s -> is_u32 columns -> can_destructive_truncate (kv_store s) h columns = true ->
  wp (LogicalKv.destructive_truncate h columns) (fun _ => pinv this n ((h, columns) :: R) A T) no_error s.
Proof.
  intros Hinv Hu (page & Hv & Hp & Hocc & Hg)%page_test_true. simp_bool. rewrite ?has_true, ?has_false in *.
  eapply wp_succeeds with (E := unchanged s).
  - apply wp_safe; [apply truncate_safe; [apply Hinv|done]|].
    intros u s' E Hok. unfold LogicalKv.destructive_truncate in E. open_call. same_page Hp.
    destruct (truncate_page_fields columns page) as (F1 & F2 & F3 & F4 & F5).
    eapply (pinv_upd Hinv); [exact Hp|exact Hok|reflexivity|reflexivity|reflexivity|other_pages|].
    rewrite !(at_page_cons_eq fst) by done. intros Htok. by eapply page_tok_truncated.
  - unfold LogicalKv.destructive_truncate. rewrite (require_run _ _ _ _ Hv Hp). unfold mthrow_if, throw_if, mlift, mbind, M_bind.
    rewrite (proj2 (Z.ltb_ge _ columns)), (proj2 (Z.ltb_ge columns _)), !(proj2 (Z.eqb_eq _ _)), (proj2 (has_false _)) by done.
    match goal with H : pg_destination_pinned page = false |- _ => rewrite H end. reflexivity.
Qed.

Lemma truncate_inactive_lowers h c columns :
  pinv this n ((h, c) :: R) A T s -> is_u32 columns -> LogicalKv.can_destructive_truncate_inactive (kv_store s) h columns = true ->
  wp (LogicalKv.destructive_truncate_inactive h columns) (fun _ => pinv this n ((h, columns) :: R) A T) no_error s.
Proof.
  intros Hinv Hu Hg. pose proof Hg as (page & Hv & Hp & Hocc & Hg')%page_test_true. simp_bool.
  eapply wp_succeeds with (E := unchanged s).
  - apply wp_safe; [apply truncate_inactive_safe; [apply Hinv|done]|].
    intros u s' E Hok. unfold LogicalKv.destructive_truncate_inactive in E. open_call. same_page Hp.
    destruct (truncate_page_fields columns page) as (F1 & F2 & F3 & F4 & F5).
    eapply (pinv_upd Hinv); [exact Hp|exact Hok|reflexivity|reflexivity|reflexivity|other_pages|].
    rewrite !(at_page_cons_eq fst) by done. intros Htok. by eapply page_tok_truncated.
  - unfold LogicalKv.destructive_truncate_inactive. rewrite (require_run _ _ _ _ Hv Hp).
    rewrite (M_bind_run _ mget s s s) by done. unfold mthrow_if, throw_if, mlift, mbind, M_bind. rewrite Hg. reflexivity.
Qed.

Lemma commit_raises h c columns :
  pinv this n ((h, c) :: R) A T s -> is_u32 columns ->
  wp (commit_coverage h columns) (fun _ => pinv this n ((h, columns) :: R) A T) (unchanged s) s.
Proof.
  intros Hinv Hu. apply wp_safe; [apply commit_safe; [apply Hinv|done]|].
  intros u s' E Hok. unfold commit_coverage in E. open_call. simp_bool.
  assert (Hkept : pinv this n ((h, c) :: R) A T (set_pages ((ls_pages (kv_store s)).[lh_index h <- set_committed_columns columns x0]) s)).
  { eapply (pinv_quiet Hinv); [eassumption|exact Hok|done..|]. solve_quiet. }
  eapply pinv_columns; [exact Hkept| |]; [apply vget_vset_eq; by eapply vget_Some_bounds|cbn; lia].
Qed.

(** Protection succeeds within the coverage a token relies on. *)
Lemma protect_run h c columns :
  pinv this n R A T s -> (h, c) ∈ R -> 0 <= columns <= c -> wp (protect_coverage h columns) (fun _ => pinv this n R A T) no_error s.
Proof.
  intros Hinv Hin Hc. destruct (toks_ref _ _ _ _ (pi_toks _ _ _ _ _ _ Hinv) h c Hin) as (page & Hp & Hv & Hcol & _).
  pose proof (pk_columns _ (so_pages _ (ki_store _ _ (pi_ok _ _ _ _ _ _ Hinv)) _ _ Hp)).
  eapply wp_succeeds; [apply (protect_kept Hinv); unfold is_u32, U32_MAX, kPagedKVPageSize in *; lia|].
  unfold protect_coverage. rewrite (require_run _ _ _ _ Hv Hp). unfold mthrow_if, throw_if, mlift, mbind, M_bind.
  rewrite (proj2 (Z.ltb_ge _ columns)) by lia. reflexivity.
Qed.

Lemma unprotect_run h c : pinv this n R A T s -> (h, c) ∈ R -> wp (set_protected_coverage h 0) (fun _ => pinv this n R A T) no_error s.
Proof.
  intros Hinv Hin. destruct (toks_ref _ _ _ _ (pi_toks _ _ _ _ _ _ Hinv) h c Hin) as (page & Hp & Hv & Hcol & _).
  pose proof (pk_columns _ (so_pages _ (ki_store _ _ (pi_ok _ _ _ _ _ _ Hinv)) _ _ Hp)).
  eapply wp_succeeds; [apply (set_protected_kept Hinv); by vm_compute|].
  unfold set_protected_coverage. rewrite (require_run _ _ _ _ Hv Hp). unfold mthrow_if, throw_if, mlift, mbind, M_bind.
  rewrite (proj2 (Z.ltb_ge _ 0)) by lia. reflexivity.
Qed.

(** A protected page covers what was protected. *)
Lemma protect_raises h c columns :
  pinv this n ((h, c) :: R) A T s -> is_u32 columns ->
  wp (protect_coverage h columns) (fun _ => pinv this n ((h, columns) :: R) A T) (unchanged s) s.
Proof.
  intros Hinv Hu. apply wp_safe; [apply protect_safe; [apply Hinv|done]|].
  intros u s' E Hok. unfold protect_coverage in E. open_call. simp_bool.
  assert (Hkept : pinv this n ((h, c) :: R) A T
    (set_pages ((ls_pages (kv_store s)).[lh_index h <- set_protected_columns (Z.max (pg_protected_columns x0) columns) x0]) s)).
  { eapply (pinv_quiet Hinv); [eassumption|exact Hok|done..|]. solve_quiet. }
  eapply pinv_columns; [exact Hkept| |]; [apply vget_vset_eq; by eapply vget_Some_bounds|cbn; lia].
Qed.
End Coverage.

(** ** Fresh pages *)

(** A vacant descriptor has no tokens. *)
Lemma vacant_no_tokens this i page r a t :
  page_tok this i page r a t -> page_ok page -> pg_occupied page = false -> r = [] /\ a = [] /\ t = [].
Proof.
  intros Htok Hpk Hv. destruct (pk_vacant _ Hpk Hv) as [Hr _]. pose proof (pk_references _ Hpk).
  split; [apply tok_nil; rewrite <- (pt_references _ _ _ _ _ _ Htok); lia|].
  split; [apply tok_nil; rewrite <- (pt_actives _ _ _ _ _ _ Htok); lia|].
  pose proof (pt_transfer _ _ _ _ _ _ Htok) as Ht. destruct t as [|x t]; [done|].
  apply Forall_cons_1 in Ht as [[(_ & _ & ? & _) _] _]. congruence.
Qed.

(** The handle of a descriptor that was just occupied. *)
Lemma occupied_toks st st' i page page' R A T :
  toks st R A T -> (ls_pages st).[i] = Some page -> page_ok page -> pg_occupied page = false ->
  ls_pages st' = (ls_pages st).[i <- page'] -> ls_this st' = ls_this st ->
  pg_occupied page' = true -> pg_generation page' = pg_generation page -> pg_active_references page' = 0 ->
  (pg_references page' = 1 -> 0 <= pg_committed_columns page' ->
     toks st' ((mkLogicalHandle (ls_this st) i (pg_generation page), 0) :: R) A T) /\
  (forall c, in_transfer page' c -> toks st' R A ((mkLogicalHandle (ls_this st) i (pg_generation page), c) :: T)).
Proof.
  intros H Hp Hpk Hv Hpages Hthis Ho Hg Ha. destruct (vacant_no_tokens _ _ _ _ _ _ (toks_at _ _ _ _ H _ _ Hp) Hpk Hv) as (E1 & E2 & E3).
  set (h := mkLogicalHandle (ls_this st) i (pg_generation page)).
  assert (Hn : names (ls_this st) i page' h) by done. split.
  - intros Hr Hc. eapply toks_upd; [exact H|exact Hp|done|done| |].
    + intros j Hj. by rewrite (at_page_others fst (h, 0)) by done.
    + rewrite (at_page_cons_eq fst) by done. rewrite E1, E2, E3. constructor; unfold vsize; cbn; simp_forall; done || lia.
  - intros c Hc. eapply toks_upd; [exact H|exact Hp|done|done| |].
    + intros j Hj. by rewrite (at_page_others fst (h, c)) by done.
    + rewrite (at_page_cons_eq fst i (h, c)) by done. rewrite E1, E2, E3.
      constructor; unfold vsize; cbn; simp_forall; try done; try lia. apply Hc.
Qed.

Lemma fresh_can_dematerialize this i st l page :
  ls_this st = this -> (ls_pages st).[i] = Some (fresh_page l page) -> page_ok page -> pg_occupied page = false ->
  can_dematerialize st (mkLogicalHandle this i (pg_generation page)) = true.
Proof.
  intros Ht Hp Hpk Hv. destruct (pk_vacant _ Hpk Hv) as (_ & Hpin & Hdp & _ & _ & Hh).
  unfold can_dematerialize, page_test, page_valid. cbn. rewrite Ht, Z.eqb_refl, Hp. cbn. rewrite Z.eqb_refl, Hpin, Hdp, Hh. done.
Qed.

Lemma fill_descriptors_tok leases : forall offset s R A T,
  0 <= offset -> offset + vsize leases <= ls_free_count (kv_store s) -> ls_free_count (kv_store s) <= U32_MAX ->
  kv_inv leases (shorter offset s) -> toks (kv_store s) R A T ->
  exists s' handles, fill_descriptors offset leases s = (s', Ok handles) /\
    toks (kv_store s') (map (fun h => (h, 0)) handles ++ R) A T /\ ls_this (kv_store s') = ls_this (kv_store s) /\
    kv_reservations s' = kv_reservations s /\
    (forall j page, (ls_pages (kv_store s)).[j] = Some page -> pg_occupied page = true -> (ls_pages (kv_store s')).[j] = Some page) /\
    Forall (fun h => can_dematerialize (kv_store s') h = true) handles.
Proof.
  induction leases as [|l leases IH]; intros offset s R A T Ho Hle Hu Hinv Htok.
  { exists s, []. split; [done|]. split; [done|]. split; [done|]. split; [done|]. split; [done|]. apply Forall_nil_2. }
  rewrite vsize_cons in *. pose proof (vsize_nonneg leases) as Hnn. pose proof (ki_store _ _ Hinv) as H.
  assert (Hcap : vsize (ls_free (kv_store s)) = store_capacity (kv_store s)) by exact (so_free_size _ H).
  pose proof (so_count _ H) as Hc. change (ls_free_count (kv_store (shorter offset s))) with (ls_free_count (kv_store s) - offset) in Hc.
  change (store_capacity (kv_store (shorter offset s))) with (store_capacity (kv_store s)) in Hc.
  destruct (vget_is_Some (ls_free (kv_store s)) (ls_free_count (kv_store s) - offset - 1)) as [i Hi]; [lia|].
  destruct (vacant_page (shorter offset s) i H) as (page & Hp & Hvac & Hpk); [cbn; lia|done|].
  destruct (fresh_page_ok l page Hpk Hvac) as [Hok Hl].
  destruct (fill_inv leases (shorter offset s) l i page (fresh_page l page) Hinv) as [Hd Hnext]; try done; [cbn; lia|].
  cbn [fill_descriptors]. unfold page_ref, reset_lease, put_page, mmodify, mget, mlift, mbind, M_bind.
  rewrite (wrap32_small (_ - 1)), wrap64_small by (unfold U64_MAX, U32_MAX in *; lia).
  replace (ls_free_count (kv_store s) - 1 - offset) with (ls_free_count (kv_store s) - offset - 1) by lia.
  rewrite (proj2 (vat_Ok _ _ _) Hi). cbn. cbn in Hp. rewrite (proj2 (vat_Ok _ _ _) Hp). cbn. rewrite Hd.
  set (s1 := set_pages ((ls_pages (kv_store s)).[i <- fresh_page l page]) s).
  destruct (occupied_toks (kv_store s) (kv_store s1) i page (fresh_page l page) R A T Htok Hp Hpk Hvac) as [Ht1 _]; try done.
  destruct (IH (offset + 1) s1 _ A T ltac:(lia) ltac:(cbn; lia) Hu ltac:(
    unfold shorter in *; cbn in *; replace (ls_free_count (kv_store s) - (offset + 1)) with (ls_free_count (kv_store s) - offset - 1) by lia; exact Hnext)
    (Ht1 eq_refl ltac:(done))) as (s' & hs & E & Ht' & Hthis & Hres & Hkeep & Hall).
  rewrite E. exists s'. eexists. split; [done|]. pose proof (vget_Some_bounds _ _ _ Hp) as Hb. split.
  { cbn [map]. by rewrite <- Permutation_middle in Ht'. }
  split; [done|]. split; [done|]. split.
  - intros j q Hq Hqo. apply Hkeep; [|done]. cbn. rewrite vget_vset_ne; [done|]. intros <-. congruence.
  - apply Forall_cons_2; [|done]. apply (fresh_can_dematerialize _ i _ l page); [done| |done|done].
    apply Hkeep; [|done]. by apply vget_vset_eq.
Qed.

Section Fresh.
Context {this : Z} {n : nat} {R : list token} {A : list LogicalKVPageHandle} {T : list token} {s : kv}.

Lemma materialize_batch_gives k ds pred :
  pinv this n R A T s -> ds <> [] ->
  wp (materialize_batch k ds pred)
    (fun hs s' => pinv this n (map (fun h => (h, 0)) hs ++ R) A T s' /\ vsize hs = vsize ds /\ existsb logical_handle_valid ds = false /\
       Forall (fun h => can_dematerialize (kv_store s') h = true) hs) (unchanged s) s.
Proof.
  intros Hinv Hds. pose proof (pi_ok _ _ _ _ _ _ Hinv) as Hs. pose proof (ki_store _ _ Hs) as H. pose proof (so_count _ H) as Hc.
  pose proof (so_capacity _ H) as Hcap. apply wp_safe; [by apply materialize_batch_safe|]. intros hs s' E Hok.
  assert (Hn : vsize ds <> 0) by (intros ?%tok_nil; done). pose proof (vsize_nonneg ds).
  unfold materialize_batch in E. rewrite (proj2 (Z.eqb_neq (vsize ds) 0)) in E by done. simp_M. simp_bool.
  match goal with H : pool_materialize _ _ _ ?x = _ |- _ => assert (x = s) as -> end.
  { clear Hok. destruct pred as [h|]; [|by simp_M]. simp_M. match goal with H : physical h s = _ |- _ => pose proof (physical_reads h s) as Hr; rewrite H in Hr; done end. }
  match goal with H : pool_materialize _ _ _ _ = _ |- _ => unfold pool_materialize, mget, mlift, mput, mbind, M_bind in H; rename H into Em end.
  destruct (kv_reservations s !! k) as [r|] eqn:Ek; [|done]. rewrite wrap32_small in * by (unfold U32_MAX in *; lia).
  destruct (PagedKv.materialize _ r _ _ _ _) as [[[p r'] ls]|e] eqn:Em'; [|done]. cbn in Em. injection Em as <- <-.
  assert (Hu : is_u32 (vsize ds)) by (unfold is_u32, U32_MAX in *; lia).
  pose proof (take_many_length _ _ _ _ _ _ _ _ _ _ Hs Hu Ek Em') as Hlen.
  pose proof (take_many_inv _ _ _ _ _ _ _ _ _ _ Hs Hu Ek Em') as Hinv1. rewrite app_nil_r in Hinv1.
  destruct (fill_descriptors_tok ls 0 (mkKv p (<[k := r']> (kv_reservations s)) (kv_store s)) R A T) as (s1 & hs1 & E1 & Ht1 & Hthis & Hres & _ & Hall).
  - lia.
  - cbn. lia.
  - cbn. unfold U32_MAX in *. lia.
  - unfold shorter. cbn. rewrite Z.sub_0_r. by destruct s as [? ? []].
  - apply Hinv.
  - destruct (@fill_descriptors_inv true ls 0 (mkKv p (<[k := r']> (kv_reservations s)) (kv_store s))) as (s2 & hs2 & E2 & Hl2 & _).
    + lia.
    + cbn. lia.
    + cbn. unfold U32_MAX in *. lia.
    + unfold shorter. cbn. rewrite Z.sub_0_r. by destruct s as [? ? []].
    + rewrite E1 in E2. injection E2 as <- <-. match goal with H : fill_descriptors _ _ _ = _ |- _ => rewrite E1 in H; injection H as <- <- end.
      split; [|split; [|split; [done|done]]].
      * constructor; [exact Hok|cbn; rewrite Hthis; apply Hinv| |exact Ht1]. cbn. rewrite Hres. cbn. rewrite length_insert. apply Hinv.
      * unfold vsize in *. lia.
Qed.

Lemma materialize_transfer_gives k c :
  pinv this n R A T s -> is_u32 c ->
  wp (materialize_transfer_destination k c) (fun h => pinv this n R A ((h, c) :: T)) (unchanged s) s.
Proof.
  intros Hinv Hu. pose proof (pi_ok _ _ _ _ _ _ Hinv) as Hs. pose proof (ki_store _ _ Hs) as H. pose proof (so_count _ H) as Hc.
  pose proof (so_capacity _ H) as Hcap. apply wp_safe; [by apply materialize_transfer_safe|]. intros h s' E Hok.
  unfold materialize_transfer_destination in E. simp_M. simp_bool.
  match goal with H : pool_materialize_one _ _ = _ |- _ => unfold pool_materialize_one, mget, mlift, mput, mbind, M_bind in H; rename H into Em end.
  destruct (kv_reservations s !! k) as [r|] eqn:Ek; [|done].
  destruct (materialize_one (kv_pool s) r) as [[[p r'] l]|e] eqn:Em'; [|done]. cbn in Em. injection Em as <- <-.
  match goal with H : pop_free _ = _ |- _ => unfold pop_free in H end. simp_M. cbn [kv_store set_free ls_free ls_free_count] in *.
  rewrite wrap32_small in * by (unfold U32_MAX in *; lia).
  match goal with Hx : (ls_free (kv_store s)).[_] = Some ?i |- _ => destruct (vacant_page s i H ltac:(lia) Hx) as (page & Hp & Hvac & Hpk) end.
  unfold page_ref in *. simp_M. cbn [kv_store set_free ls_pages] in *. same_page Hp.
  destruct (pk_vacant _ Hpk Hvac) as (_ & _ & _ & Hd & _). unfold reset_lease, put_page in *. simp_M. rewrite Hd in *.
  constructor; [exact Hok|apply Hinv|cbn; rewrite length_insert; apply Hinv|].
  match type of Hok with kv_ok (set_pages (_.[_ <- ?page']) _) =>
    match goal with |- toks ?st' _ _ _ =>
      destruct (occupied_toks (kv_store s) st' _ page page' R A T (pi_toks _ _ _ _ _ _ Hinv) Hp Hpk Hvac) as [_ Ht]; [reflexivity..|]
    end end.
  apply Ht. constructor; cbn; done || lia.
Qed.
End Fresh.

(** ** Transfers *)
Section Transfers.
Context {this : Z} {n : nat} {R : list token} {A : list LogicalKVPageHandle} {T : list token} {s : kv}.

(** The only token of transfer at its page. *)
Lemma single_transfer i page r a x t : page_tok this i page r a (x :: t) -> t = [] /\ r = [] /\ in_transfer page (snd x).
Proof.
  intros Htok. pose proof (pt_single _ _ _ _ _ _ Htok) as Hs. rewrite vsize_cons in Hs. pose proof (vsize_nonneg t).
  pose proof (pt_transfer _ _ _ _ _ _ Htok) as Ht. apply Forall_cons_1 in Ht as [[_ Hx] _].
  split; [apply tok_nil; lia|]. split; [|done]. apply tok_nil. rewrite <- (pt_references _ _ _ _ _ _ Htok). apply Hx.
Qed.

Lemma publish_transfer_moves h c w :
  pinv this n R A ((h, c) :: T) s ->
  wp (publish_transfer_destination h w) (fun _ => pinv this n ((h, c) :: R) A T) (unchanged s) s.
Proof.
  intros Hinv. pose proof (pi_ok _ _ _ _ _ _ Hinv) as Hs. apply wp_safe; [by apply publish_transfer_safe|].
  intros u s' E Hok. unfold publish_transfer_destination in E. open_call. simp_bool.
  match goal with H : (ls_pages (kv_store s)).[lh_index h] = Some ?p |- _ => rename H into Hp; rename p into page end.
  eapply (pinv_upd Hinv); [exact Hp|exact Hok|reflexivity|reflexivity|reflexivity| |].
  - intros j Hj. by rewrite !(at_page_others fst (h, c)) by done.
  - rewrite !(at_page_cons_eq fst (lh_index h) (h, c)) by done. intros Htok. destruct (single_transfer _ _ _ _ _ _ Htok) as (-> & -> & Hx).
    pose proof (pt_transfer _ _ _ _ _ _ Htok) as Ht. apply Forall_cons_1 in Ht as [[Hn _] _].
    pose proof (pk_references _ (so_pages _ (ki_store _ _ Hs) _ _ Hp)). pose proof (it_references _ _ Hx). pose proof (it_columns _ _ Hx).
    constructor; unfold vsize; cbn; simp_forall; try done; try lia; [|rewrite (pt_actives _ _ _ _ _ _ Htok); done].
    eapply Forall_impl; [apply Htok|]. intros y Hy. by eapply names_quiet.
Qed.

(** The holder of a transfer may forget it. *)
Lemma forget_transfer x : pinv this n R A (x :: T) s -> pinv this n R A T s.
Proof.
  intros [H1 H2 H3 H4]. constructor; try done. intros i. specialize (H4 i). rewrite H2 in *.
  destruct (decide (lh_index (fst x) = i)) as [Hi|Hi].
  - rewrite (at_page_cons_eq fst) in H4 by done. destruct ((ls_pages (kv_store s)).[i]); [|by destruct H4 as (_ & _ & [=])].
    destruct (single_transfer _ _ _ _ _ _ H4) as (E & _ & _). rewrite E in *. destruct H4 as [K1 K2 K3 K4 K5 K6].
    constructor; try done.
  - by rewrite (at_page_cons_ne fst) in H4 by done.
Qed.

Lemma abort_transfer_takes h c k :
  pinv this n R A ((h, c) :: T) s -> wp (abort_transfer_destination h k) (fun _ => pinv this n R A T) (unchanged s) s.
Proof.
  intros Hinv. pose proof (pi_ok _ _ _ _ _ _ Hinv) as Hs. apply wp_safe; [by apply abort_transfer_safe|].
  intros u s' E Hok. destruct (toks_transfer _ _ _ _ (pi_toks _ _ _ _ _ _ Hinv) h c ltac:(by left)) as (page & Hp & Hv & Hx).
  unfold abort_transfer_destination, noexcept in E. rewrite (M_bind_run _ mget s s s) in E by done. rewrite Hv in E. cbn [negb] in E.
  rewrite (page_ref_run _ _ _ _ Hp) in E. destruct (not_transfer_destination page) eqn:Hnt.
  { injection E as <- <-. by eapply forget_transfer. }
  destruct (pg_device_replica page) as [l|] eqn:Hd; [|by destruct (it_device _ _ Hx)].
  pose proof (so_pages _ (ki_store _ _ Hs) _ _ Hp) as Hpk. pose proof (pk_references _ Hpk). pose proof (it_references _ _ Hx).
  pose proof (page_valid_occupied _ _ _ Hv Hp) as Hocc.
  destruct (kv_reservations s !! k) as [r|] eqn:Hr; cycle 1.
  { unfold pool_dematerialize_one, mget, mbind, M_bind in E. by rewrite Hr in E. }
  destruct (give_back_run h k r page l Hs Hr Hp Hocc Hd ltac:(lia)) as (s1 & E1 & _ & [Hpages Hthis Hres]). rewrite E1 in E. injection E as <- <-.
  eapply (pinv_upd Hinv); [exact Hp|exact Hok|exact Hpages|exact Hthis|exact Hres| |].
  - intros j Hj. by rewrite (at_page_others fst (h, c)) by done.
  - rewrite (at_page_cons_eq fst (lh_index h) (h, c)) by done. intros Htok. destruct (single_transfer _ _ _ _ _ _ Htok) as (-> & -> & _).
    pose proof (pt_actives _ _ _ _ _ _ Htok) as Ea. rewrite (tok_nil (at_page id (lh_index h) A)) by lia. apply page_tok_vacated.
Qed.
End Transfers.

(** ** Replicas *)
Section Replicas.
Context {this : Z} {n : nat} {R : list token} {A : list LogicalKVPageHandle} {T : list token} {s : kv}.
Hypothesis Hinv : pinv this n R A T s.
Notation kept := (fun _ => pinv this n R A T).
Let Hs := pi_ok _ _ _ _ _ _ Hinv.

Lemma publish_device_kept h : wp (publish_device_replica h) kept (unchanged s) s.
Proof.
  unfold publish_device_replica. quiet_call (@publish_device_safe true). rewrite ?has_true, ?has_false in *.
  constructor; cbn; try done. intros c [? ? ? ?]. done.
Qed.

Lemma attach_kept h r : wp (attach_host_replica h r) kept (unchanged s) s.
Proof. unfold attach_host_replica. quiet_call (@attach_safe true). solve_quiet. Qed.

Lemma rebind_kept h e r : wp (rebind_host_replica h e r) kept (unchanged s) s.
Proof.
  apply wp_safe; [by apply rebind_safe|]. intros u s' E Hok. unfold rebind_host_replica in E. open_call.
  destruct (pg_host_replica _); [|done]. open_call. eapply (pinv_quiet Hinv); [eassumption|exact Hok|done..|]. solve_quiet.
Qed.

Lemma reserve_device_kept h k : wp (reserve_device_replica h k) kept (unchanged s) s.
Proof.
  apply wp_safe; [by apply reserve_device_safe|]. intros d s' E Hok. unfold reserve_device_replica in E. open_call. simp_bool. rewrite ?has_false in *.
  match goal with H : pool_materialize_one _ _ = _ |- _ => unfold pool_materialize_one, mget, mlift, mput, mbind, M_bind in H; rename H into Em end.
  destruct (kv_reservations s !! k) as [r|] eqn:Ek; [|done]. destruct (materialize_one (kv_pool s) r) as [[[p r'] l]|e]; [|done].
  cbn in Em. injection Em as <- <-. unfold put_page in *. simp_M.
  eapply (pinv_quiet Hinv); [eassumption|exact Hok|done|done|cbn; apply length_insert|].
  constructor; cbn; try done. intros c [? ? ? ?]. congruence.
Qed.

Lemma abort_device_kept h k : wp (abort_device_replica h k) kept (unchanged s) s.
Proof.
  apply wp_safe; [by apply abort_device_safe|]. intros u s' E Hok. unfold abort_device_replica, noexcept in E.
  rewrite (M_bind_run _ mget s s s) in E by done. destruct (page_valid (kv_store s) h) eqn:Hv; cbn [negb] in E; [|by injection E as <- <-].
  unfold page_valid in Hv. simp_bool. destruct ((ls_pages (kv_store s)).[lh_index h]) as [page|] eqn:Hp; [|done].
  rewrite (page_ref_run _ _ _ _ Hp) in E. destruct (pg_pending_device_replica page) as [l|] eqn:Hpd; [|by injection E as <- <-].
  destruct (pg_destination_pinned page) eqn:Hdp; cbn [negb] in E; [|by injection E as <- <-].
  unfold pool_dematerialize_one, put_page, mmodify, mget, mlift, mput, mbind, M_bind in E. destruct (kv_reservations s !! k) as [r|]; [|done].
  destruct (dematerialize_one (kv_pool s) r l) as [[[p r'] l']|]; [|done]. cbn in E. injection E as <- <-.
  eapply (pinv_quiet Hinv); [exact Hp|exact Hok|done|done|cbn; apply length_insert|].
  pose proof (so_pages _ (ki_store _ _ Hs) _ _ Hp) as Hpk. destruct (pk_pending _ Hpk) as [Hd _]; [by rewrite Hpd|].
  constructor; cbn; try done. intros c [? ? ? ?]. congruence.
Qed.

Lemma drop_device_kept h : wp (drop_device_replica h) kept (unchanged s) s.
Proof.
  apply wp_safe; [by apply drop_device_safe|]. intros u s' E Hok. unfold drop_device_replica in E. rewrite (M_bind_run _ mget s s s) in E by done.
  destruct (can_drop_device_replica (kv_store s) h) eqn:Hg; cbn [negb] in E; [|by injection E as <- <-].
  apply page_test_true in Hg as (page & Hv & Hp & Hocc & Hg). simp_bool.
  rewrite (M_bind_run _ _ _ _ _ (reset_device_eq h _ page Hp)) in E. injection E as <- <-.
  eapply (pinv_quiet Hinv); [exact Hp|exact Hok|done|done|done|]. constructor; cbn; try done. intros c [? ? ? ?]. congruence.
Qed.

Lemma detach_kept h x : wp (detach_host_replica h x) kept (unchanged s) s.
Proof.
  apply wp_safe; [by apply detach_safe|]. intros u s' E Hok. unfold detach_host_replica, noexcept in E.
  rewrite (M_bind_run _ mget s s s) in E by done. destruct (page_valid (kv_store s) h) eqn:Hv; cbn [negb] in E; [|by injection E as <- <-].
  assert (exists page, (ls_pages (kv_store s)).[lh_index h] = Some page) as [page Hp].
  { unfold page_valid in Hv. simp_bool. destruct ((ls_pages (kv_store s)).[lh_index h]); [by eexists|done]. }
  pose proof (vget_Some_bounds _ _ _ Hp) as Hb. pose proof (page_valid_occupied _ _ _ Hv Hp) as Hocc.
  rewrite (page_ref_run _ _ _ _ Hp) in E. destruct (pg_host_replica page) as [r|] eqn:Hh; [|by injection E as <- <-].
  destruct (_ || _); [by injection E as <- <-|].
  set (s1 := set_pages ((ls_pages (kv_store s)).[lh_index h <- set_host_replica None page]) s) in *.
  rewrite (M_bind_run _ (put_page _ _) s s1 tt) in E by done. destruct (_ && negb (has (pg_device_replica page))) eqn:Hrel; cycle 1.
  { injection E as <- <-. eapply (pinv_quiet Hinv); [exact Hp|exact Hok|done|done|done|]. solve_quiet. }
  simp_bool. rewrite has_false in *.
  destruct (vacate_ok s Hs _ _ Hp Hocc) as (_ & Hc & Hu). pose proof (pk_references _ (so_pages _ (ki_store _ _ Hs) _ _ Hp)).
  assert (exists s2, release_descriptor h s1 = (s2, Ok tt) /\ rewritten s s2 (lh_index h) (vacated page)) as (s2 & E2 & Hrw).
  { unfold release_descriptor. rewrite (page_ref_run _ s1 (set_host_replica None page)) by (by apply vget_vset_eq).
    unfold reset_lease, put_page, push_free, mthrow_if, throw_if, mmodify, mget, mlift, mput, mbind, M_bind. cbn [pg_active_references set_host_replica].
    rewrite (proj2 (Z.eqb_eq (pg_active_references page) 0)) by lia. cbn [negb]. destruct (vget_is_Some _ _ Hc) as [y Hy].
    cbn. match goal with H : pg_device_replica page = None |- _ => rewrite H end.
    destruct (pg_pending_device_replica page); cbn; rewrite (proj2 (vat_Ok _ _ _) Hy); cbn; (eexists; split; [reflexivity|]);
      (constructor; cbn; [by rewrite vset_vset_eq|done|done]). }
  rewrite (M_bind_run _ _ _ _ _ E2) in E. injection E as <- <-. destruct Hrw as [Hpages Hthis Hres].
  eapply (pinv_upd Hinv); [exact Hp|exact Hok|exact Hpages|exact Hthis|exact Hres|done|]. intros Htok.
  pose proof (pt_references _ _ _ _ _ _ Htok) as Er. pose proof (pt_actives _ _ _ _ _ _ Htok) as Ea.
  rewrite (tok_nil (at_page fst (lh_index h) R)), (tok_nil (at_page id (lh_index h) A)) by lia.
  destruct (at_page fst (lh_index h) T) as [|x0 t]; [apply page_tok_vacated|].
  destruct (single_transfer _ _ _ _ _ _ Htok) as (_ & _ & [_ _ Hd _]). done.
Qed.
End Replicas.
