(* ===== verification/AddressRefs.v ===== *)
(** The references of the address spaces ([AddressSpace]) account for those of
    the page store: every cell an address maps holds a live page and is worth
    one reference of it, every cell of an active address one active reference,
    and a page covers the committed tokens of all the addresses that map it. *)

From S2P Require Import Prelude Tensor Layout PagedKv ExecTable LogicalKv PageTokens AddressSpace.

(** * The tokens of the address spaces *)

(** Columns of page [p] below the frontier [f]. *)
Definition need (f p : Z) : Z := Z.max 0 (Z.min kPagedKVPageSize (f - p * kPagedKVPageSize)).

Definition handle_at (st : KVAddressSpaceStore) (i p : Z) : LogicalKVPageHandle :=
  default null_logical_handle ((av_memberships st).[cell st i p]).

Definition address_handles (st : KVAddressSpaceStore) (i : Z) (a : Address) : list LogicalKVPageHandle :=
  map (handle_at st i) (seqZ 0 (ad_page_count a)).

Definition address_tokens (st : KVAddressSpaceStore) (i : Z) (a : Address) : list token :=
  map (fun p => (handle_at st i p, need (ad_committed_frontier a) p)) (seqZ 0 (ad_page_count a)).

Definition refs_at (st : KVAddressSpaceStore) (i : Z) : list token :=
  match (av_addresses st).[i] with
  | Some a => if ad_occupied a then address_tokens st i a else []
  | None => []
  end.

Definition actives_at (st : KVAddressSpaceStore) (i : Z) : list LogicalKVPageHandle :=
  match (av_addresses st).[i] with
  | Some a => if ad_active a then address_handles st i a else []
  | None => []
  end.

Definition refs_of (st : KVAddressSpaceStore) : list token := concat (map (refs_at st) (seqZ 0 (capacity st))).
Definition actives_of (st : KVAddressSpaceStore) : list LogicalKVPageHandle := concat (map (actives_at st) (seqZ 0 (capacity st))).

Definition fork_tail (f : KVPrefixForkReservation) : list token :=
  match fr_tail_destination f with Some t => [(t, fr_tail_columns f)] | None => [] end.
Definition snapshot_tail (n : KVActiveSnapshotReservation) : list token :=
  match sn_tail_destination n with Some t => [(t, sh_tail_columns (sn_shape n))] | None => [] end.

Definition transfers_of (s : asp) : list token :=
  concat (map fork_tail (as_forks s)) ++ concat (map snapshot_tail (as_snapshots s)).

Definition accounts_of (s : asp) : list nat :=
  omap ad_reservation (av_addresses (as_store s)) ++ omap ar_page_reservation (as_activations s) ++
  omap fr_page_reservation (as_forks s) ++ omap sn_tail_reservation (as_snapshots s).

(** * The invariant *)
Record address_ok (page_capacity : Z) (a : Address) : Prop := {
  ao_count : 0 <= ad_page_count a <= page_capacity;
  ao_frontier : 0 <= ad_committed_frontier a <= U32_MAX /\ pages_for_tokens (ad_committed_frontier a) <= ad_page_count a;
  ao_checkpoint : 0 <= ad_checkpoint_frontier a <= ad_committed_frontier a;
  ao_active : ad_active a = true -> ad_occupied a = true;
  ao_used : ad_active a = true -> ad_row a <> None /\ ad_reservation a <> None;
  ao_vacant : ad_occupied a = false -> ad_page_count a = 0 /\ ad_committed_frontier a = 0;
}.

Definition free_addresses (st : KVAddressSpaceStore) : list Z := take (Z.to_nat (av_free_count st)) (av_free st).

Record astore_ok (st : KVAddressSpaceStore) : Prop := {
  so_page_capacity : 0 < av_page_capacity st <= U32_MAX;
  so_addresses : 0 < capacity st <= U32_MAX;
  so_cells : vsize (av_memberships st) = capacity st * av_page_capacity st;
  so_address : forall i a, (av_addresses st).[i] = Some a -> address_ok (av_page_capacity st) a;
  so_afree_size : vsize (av_free st) = capacity st;
  so_afree_count : 0 <= av_free_count st <= capacity st;
  so_afree_nodup : NoDup (free_addresses st);
  so_afree : forall i, i ∈ free_addresses st -> exists a, (av_addresses st).[i] = Some a /\ ad_occupied a = false;
}.

(** The endpoints of a fork or a snapshot in progress. *)
Record copy_shape (page_capacity : Z) (source destination : KVAddressSpaceHandle) (frontier full tail : Z) : Prop := {
  cs_distinct : ah_index source <> ah_index destination;
  cs_frontier : 0 < frontier <= U32_MAX /\ pages_for_tokens frontier <= page_capacity;
  cs_full : full = frontier / kPagedKVPageSize;
  cs_tail : tail = frontier mod kPagedKVPageSize;
}.

Definition fork_ok (page_capacity : Z) (f : KVPrefixForkReservation) : Prop :=
  copy_shape page_capacity (fr_source f) (fr_destination f) (fr_frontier f) (fr_full_pages f) (fr_tail_columns f) /\
  (fr_tail_destination f <> None -> fr_tail_columns f <> 0) /\ (fr_row f <> None -> fr_page_reservation f <> None).

Definition snapshot_ok (page_capacity : Z) (n : KVActiveSnapshotReservation) : Prop :=
  copy_shape page_capacity (sn_source n) (sn_destination n) (sn_frontier n) (sh_full_pages (sn_shape n)) (sh_tail_columns (sn_shape n)) /\
  (sn_tail_destination n <> None -> sh_tail_columns (sn_shape n) <> 0).

(** [L] are references that no address holds. *)
Record inv (L : list token) (s : asp) : Prop := {
  iv_ok : kv_ok (as_kv s);
  iv_this : 0 < ls_this (kv_store (as_kv s));
  iv_toks : toks (kv_store (as_kv s)) (refs_of (as_store s) ++ L) (actives_of (as_store s)) (transfers_of s);
  iv_store : astore_ok (as_store s);
  iv_tables : logical_page_capacity (w_table (as_world s)) = av_page_capacity (as_store s);
  iv_accounts : Forall (fun k => (k < length (kv_reservations (as_kv s)))%nat) (accounts_of s);
  iv_forks : Forall (fork_ok (av_page_capacity (as_store s))) (as_forks s);
  iv_snapshots : Forall (snapshot_ok (av_page_capacity (as_store s))) (as_snapshots s);
}.

(** The page store's part of it. *)
Lemma inv_pages L s :
  inv L s -> pinv (ls_this (kv_store (as_kv s))) (length (kv_reservations (as_kv s))) (refs_of (as_store s) ++ L)
               (actives_of (as_store s)) (transfers_of s) (as_kv s).
Proof. intros H. by constructor; try apply H. Qed.

Lemma inv_set_kv L L' s k :
  inv L s -> pinv (ls_this (kv_store (as_kv s))) (length (kv_reservations (as_kv s))) (refs_of (as_store s) ++ L')
               (actives_of (as_store s)) (transfers_of s) k -> inv L' (set_kv k s).
Proof.
  intros [H1 H2 H3 H4 H5 H6 H7 H8] [K1 K2 K3 K4]. constructor; cbn; try done; [by rewrite K2|].
  eapply Forall_impl; [exact H6|]. cbn. intros x Hx. lia.
Qed.

(** * Addresses in a list *)
Section Split.
Context {B : Type}.
Implicit Types (f g : Z -> list B).

Definition others (n i : Z) : list Z := filter (fun j => j <> i) (seqZ 0 n).

Lemma filter_out (l : list Z) i : i ∉ l -> filter (fun j => j <> i) l = l.
Proof.
  induction l as [|x l IH]; intros Hi; [done|]. rewrite filter_cons_True by (intros ->; apply Hi; by left).
  f_equal. apply IH. intros Hin. apply Hi. by right.
Qed.

Lemma concat_split f n i :
  0 <= i < n -> concat (map f (seqZ 0 n)) ≡ₚ f i ++ concat (map f (others n i)).
Proof.
  intros Hi. unfold others. pose proof (NoDup_seqZ 0 n) as Hnd.
  assert (Hin : i ∈ seqZ 0 n) by (apply elem_of_seqZ; lia). apply list_elem_of_split in Hin as (l1 & l2 & E). rewrite E in *.
  apply NoDup_app in Hnd as (_ & Hd & Hn2). apply NoDup_cons in Hn2 as [Hn2 _].
  assert (Hn1 : i ∉ l1) by (intros Hin; apply (Hd i Hin); by left).
  rewrite filter_app, filter_cons_False by (by intros []). rewrite !filter_out by done.
  rewrite !map_app, !concat_app. cbn. apply Permutation_app_swap_app.
Qed.

Lemma concat_others f g n i : (forall j, j <> i -> f j = g j) -> concat (map f (others n i)) = concat (map g (others n i)).
Proof.
  intros H. f_equal. apply map_ext_in. intros j Hj%list_elem_of_In. unfold others in Hj. apply list_elem_of_filter in Hj as [Hj _]. auto.
Qed.

Lemma concat_same f g n : (forall j, f j = g j) -> concat (map f (seqZ 0 n)) = concat (map g (seqZ 0 n)).
Proof. intros H. f_equal. apply map_ext. done. Qed.
End Split.

Definition addr_refs (st : KVAddressSpaceStore) (i : Z) (a : Address) : list token :=
  if ad_occupied a then address_tokens st i a else [].
Definition addr_actives (st : KVAddressSpaceStore) (i : Z) (a : Address) : list LogicalKVPageHandle :=
  if ad_active a then address_handles st i a else [].
Definition refs_rest (st : KVAddressSpaceStore) (i : Z) : list token := concat (map (refs_at st) (others (capacity st) i)).
Definition actives_rest (st : KVAddressSpaceStore) (i : Z) : list LogicalKVPageHandle :=
  concat (map (actives_at st) (others (capacity st) i)).

Section OneAddress.
Context (st : KVAddressSpaceStore) (i : Z) (a : Address).
Hypothesis Ha : (av_addresses st).[i] = Some a.

Lemma refs_split : refs_of st ≡ₚ addr_refs st i a ++ refs_rest st i.
Proof.
  unfold refs_of, refs_rest. rewrite (concat_split _ _ i) by (by eapply vget_Some_bounds).
  unfold refs_at at 1. by rewrite Ha.
Qed.

Lemma actives_split : actives_of st ≡ₚ addr_actives st i a ++ actives_rest st i.
Proof.
  unfold actives_of, actives_rest. rewrite (concat_split _ _ i) by (by eapply vget_Some_bounds).
  unfold actives_at at 1. by rewrite Ha.
Qed.

Notation put a' := (with_addresses ((av_addresses st).[i <- a']) st).

Lemma refs_put a' : refs_of (put a') ≡ₚ addr_refs st i a' ++ refs_rest st i.
Proof.
  pose proof (vget_Some_bounds _ _ _ Ha) as Hb. unfold refs_of, refs_rest, capacity. cbn. rewrite vsize_vset.
  rewrite (concat_split _ _ i) by done. unfold refs_at at 1. cbn. rewrite vget_vset_eq by done.
  apply Permutation_app_head. erewrite concat_others; [done|]. intros j Hj. unfold refs_at. cbn. by rewrite vget_vset_ne by done.
Qed.

Lemma actives_put a' : actives_of (put a') ≡ₚ addr_actives st i a' ++ actives_rest st i.
Proof.
  pose proof (vget_Some_bounds _ _ _ Ha) as Hb. unfold actives_of, actives_rest, capacity. cbn. rewrite vsize_vset.
  rewrite (concat_split _ _ i) by done. unfold actives_at at 1. cbn. rewrite vget_vset_eq by done.
  apply Permutation_app_head. erewrite concat_others; [done|]. intros j Hj. unfold actives_at. cbn. by rewrite vget_vset_ne by done.
Qed.

Lemma put_ok a' :
  astore_ok st -> address_ok (av_page_capacity st) a' -> ad_occupied a' = ad_occupied a -> astore_ok (put a').
Proof.
  intros [H1 H2 H3 H4 H5 H6 H7 H8] Hok Hocc. pose proof (vget_Some_bounds _ _ _ Ha) as Hb.
  constructor; unfold capacity in *; cbn; rewrite ?vsize_vset; try done.
  - intros j b. rewrite vget_vset. destruct (_ && _); [by intros [= <-]|apply H4].
  - intros j Hj. destruct (H8 j Hj) as (b & Hbj & Hv). destruct (decide (j = i)) as [->|Hne].
    + exists a'. rewrite vget_vset_eq by done. split; [done|]. congruence.
    + exists b. by rewrite vget_vset_ne by done.
Qed.
End OneAddress.

(** ** Cells *)

(** No address maps the cell. *)
Definition dead_cell (st : KVAddressSpaceStore) (c : Z) : Prop :=
  forall j a p, (av_addresses st).[j] = Some a -> 0 <= p < ad_page_count a -> cell st j p <> c.

Lemma membership_inj st i j p q :
  0 <= p < av_page_capacity st -> 0 <= q < av_page_capacity st -> cell st i p = cell st j q -> i = j /\ p = q.
Proof. unfold cell. intros Hp Hq E. assert (i = j) by nia. nia. Qed.

Lemma suffix_dead st i a p :
  astore_ok st -> (av_addresses st).[i] = Some a -> ad_page_count a <= p < av_page_capacity st -> dead_cell st (cell st i p).
Proof.
  intros H Ha Hp j b q Hb Hq E. pose proof (ao_count _ _ (so_address _ H _ _ Ha)). pose proof (ao_count _ _ (so_address _ H _ _ Hb)).
  apply membership_inj in E as [-> ->]; [|lia|lia]. simplify_eq. lia.
Qed.

Lemma membership_bounds st i a p :
  astore_ok st -> (av_addresses st).[i] = Some a -> 0 <= p < av_page_capacity st -> 0 <= cell st i p < vsize (av_memberships st).
Proof.
  intros H Ha Hp. rewrite (so_cells _ H). apply vget_Some_bounds in Ha. unfold cell, capacity. nia.
Qed.

(** Cells that no address maps may hold anything. *)
Definition agrees (st : KVAddressSpaceStore) (ms : list LogicalKVPageHandle) : Prop :=
  vsize ms = vsize (av_memberships st) /\ forall c, ms.[c] = (av_memberships st).[c] \/ dead_cell st c.

Lemma agrees_refl st : agrees st (av_memberships st).
Proof. split; [done|]. by left. Qed.

Lemma agrees_set st ms c h : agrees st ms -> dead_cell st c -> agrees st (ms.[c <- h]).
Proof.
  intros [Hs Hc] Hd. split; [by rewrite vsize_vset|]. intros c'. destruct (decide (c' = c)) as [->|Hne]; [by right|].
  rewrite vget_vset_ne by done. apply Hc.
Qed.

Section Agrees.
Context (st : KVAddressSpaceStore) (ms : list LogicalKVPageHandle).
Hypothesis Hms : agrees st ms.
Notation put := (with_memberships ms st).

Lemma agrees_handle j a p : (av_addresses st).[j] = Some a -> 0 <= p < ad_page_count a -> handle_at put j p = handle_at st j p.
Proof. intros Ha Hp. unfold handle_at. destruct (proj2 Hms (cell st j p)) as [E|Hd]; [unfold cell in *; cbn; by rewrite E|]. by destruct (Hd j a p Ha Hp). Qed.

Lemma refs_agrees : refs_of put = refs_of st.
Proof.
  unfold refs_of, capacity. cbn. apply concat_same. intros j. unfold refs_at. cbn.
  destruct ((av_addresses st).[j]) as [a|] eqn:Ha; [|done]. destruct (ad_occupied a); [|done].
  apply map_ext_in. intros p Hp%list_elem_of_In%elem_of_seqZ. by rewrite (agrees_handle j a p) by (done || lia).
Qed.

Lemma actives_agrees : actives_of put = actives_of st.
Proof.
  unfold actives_of, capacity. cbn. apply concat_same. intros j. unfold actives_at. cbn.
  destruct ((av_addresses st).[j]) as [a|] eqn:Ha; [|done]. destruct (ad_active a); [|done].
  apply map_ext_in. intros p Hp%list_elem_of_In%elem_of_seqZ. by apply (agrees_handle j a p); [|lia].
Qed.
End Agrees.

Lemma cells_ok st l : astore_ok st -> vsize l = vsize (av_memberships st) -> astore_ok (with_memberships l st).
Proof. intros [H1 H2 H3 H4 H5 H6 H7 H8] Hl. constructor; try done. cbn. by rewrite Hl. Qed.

(** * Reading the state *)
Lemma wp_on_pages {A} (m : K A) Q E s :
  wp m (fun a k => Q a (set_kv k s)) (fun e k => E e (set_kv k s)) (as_kv s) -> wp (on_pages m) Q E s.
Proof. unfold wp, on_pages. by destruct (m (as_kv s)) as [k [a|e]]. Qed.

Lemma wp_on_tables {A} (m : M table_world A) Q E s :
  wp m (fun a w => Q a (set_world w s)) (fun e w => E e (set_world w s)) (as_world s) -> wp (on_tables m) Q E s.
Proof. unfold wp, on_tables. by destruct (m (as_world s)) as [w [a|e]]. Qed.

Lemma set_kv_id s : set_kv (as_kv s) s = s.
Proof. by destruct s. Qed.

(** A field of a page, and a page's own cell. *)
Lemma wp_read {A} h (field : Page -> A) Q E s :
  (forall page, page_valid (kv_store (as_kv s)) h = true -> (ls_pages (kv_store (as_kv s))).[lh_index h] = Some page -> Q (field page) s) ->
  (page_valid (kv_store (as_kv s)) h = false -> E InvalidArgument s) ->
  wp (on_pages (read_page h field)) Q E s.
Proof.
  intros Hq He. apply wp_on_pages. unfold wp, read_page, LogicalKv.require, mthrow_if, throw_if, mlift, mget, mbind, M_bind.
  destruct (page_valid (kv_store (as_kv s)) h) eqn:Hv; cbn; [|rewrite set_kv_id; auto].
  assert (exists page, (ls_pages (kv_store (as_kv s))).[lh_index h] = Some page) as [page Hp].
  { unfold page_valid in Hv. simp_bool. destruct ((ls_pages (kv_store (as_kv s))).[lh_index h]); [by eexists|done]. }
  rewrite (proj2 (vat_Ok _ _ _) Hp). cbn. rewrite set_kv_id. auto.
Qed.

Lemma wp_membership i p Q E s :
  0 <= cell (as_store s) i p < vsize (av_memberships (as_store s)) -> Q (handle_at (as_store s) i p) s -> wp (membership i p) Q E s.
Proof.
  intros Hc Hq. unfold wp, membership, mget, mlift, mbind, M_bind, handle_at in *. destruct (vget_is_Some _ _ Hc) as [h Hh].
  rewrite (proj2 (vat_Ok _ _ _) Hh). by rewrite Hh in Hq.
Qed.

Lemma wp_guard f Q E s : Q (f (kv_store (as_kv s))) s -> wp (page_guard f) Q E s.
Proof. done. Qed.

Lemma wp_address_ref i a Q E s : (av_addresses (as_store s)).[i] = Some a -> Q a s -> wp (address_ref i) Q E s.
Proof. intros Ha Hq. unfold wp, address_ref, mget, mlift, mbind, M_bind. by rewrite (proj2 (vat_Ok _ _ _) Ha). Qed.

(** What a handle that passed [require] denotes. *)
Definition denotes (s : asp) (h : KVAddressSpaceHandle) (a : Address) : Prop :=
  (av_addresses (as_store s)).[ah_index h] = Some a /\ ad_occupied a = true /\ ad_generation a = ah_generation h.

Lemma address_valid_denotes s h : address_valid (as_store s) h = true <-> ah_owner h = av_this (as_store s) /\ exists a, denotes s h a.
Proof.
  unfold address_valid, denotes. rewrite andb_true_iff, Z.eqb_eq. destruct ((av_addresses (as_store s)).[ah_index h]) as [a|].
  - rewrite andb_true_iff, Z.eqb_eq. naive_solver.
  - naive_solver.
Qed.

Lemma wp_require h Q E s :
  (forall a, denotes s h a -> address_valid (as_store s) h = true -> Q a s) -> E InvalidArgument s -> wp (require h) Q E s.
Proof.
  intros Hq He. unfold require. wp_step. wp_step. wp_step. wp_step.
  - simp_bool. pose proof Hguard as [_ [a Ha]]%address_valid_denotes. eapply wp_address_ref; [apply Ha|]. by apply Hq.
  - done.
Qed.

Lemma wp_require_active h Q E s :
  (forall a k l, denotes s h a -> ad_active a = true -> ad_reservation a = Some k -> ad_row a = Some l -> Q a s) ->
  E InvalidArgument s -> E LogicError s -> wp (require_active h) Q E s.
Proof.
  intros Hq He He'. unfold require_active. wp_step. apply wp_require; [|done]. intros a Ha _. wp_step. wp_step; [|done].
  wp_step. simp_bool. rewrite !has_true in *. destruct (ad_row a) eqn:?, (ad_reservation a) eqn:?; try done. by eapply Hq.
Qed.

Lemma wp_never_throws {A} (m : P A) Q E s :
  wp m Q (fun e s' => E (if is_exception e then Terminate else e) s') s -> wp (never_throws m) Q E s.
Proof. unfold wp, never_throws. by destruct (m s) as [s' [a|e]]. Qed.

Lemma wp_on_throw {A} (m : P A) handler Q E s :
  wp m Q (fun e s' => if is_exception e then wp handler (fun _ s'' => E e s'') E s' else E e s') s -> wp (on_throw m handler) Q E s.
Proof.
  unfold wp, on_throw. destruct (m s) as [s' [a|e]]; [done|]. destruct (is_exception e); [|done].
  by destruct (handler s') as [s'' [[]|e']].
Qed.

(** A loop that only looks. *)
Lemma wp_for_read {A} (f : A -> P unit) (F : A -> Prop) (G : error -> Prop) l s :
  (forall x, x ∈ l -> wp (f x) (fun _ s' => s' = s /\ F x) (fun e s' => s' = s /\ G e) s) ->
  wp (mfor f l) (fun _ s' => s' = s /\ forall x, x ∈ l -> F x) (fun e s' => s' = s /\ G e) s.
Proof.
  induction l as [|x l IH]; intros Hf.
  - apply wp_ret. split; [done|]. by intros x ?%elem_of_nil.
  - apply wp_bind. eapply wp_conseq; [apply Hf; by left| |done]. intros u s' [-> Hx].
    eapply wp_conseq; [apply IH; intros y Hy; apply Hf; by right| |done].
    intros u' s' [-> Hl]. split; [done|]. intros y [->|Hy]%elem_of_cons; auto.
Qed.

(** * Calls that only reach the page store *)

(** [s'] differs from [s] in the page store, and the tokens are the same. *)
Definition still (L : list token) (s s' : asp) : Prop :=
  exists k, s' = set_kv k s /\
    pinv (ls_this (kv_store (as_kv s))) (length (kv_reservations (as_kv s))) (refs_of (as_store s) ++ L)
      (actives_of (as_store s)) (transfers_of s) k.

Lemma still_refl L s : inv L s -> still L s s.
Proof. intros H. exists (as_kv s). split; [by rewrite set_kv_id|]. by apply inv_pages. Qed.

Lemma still_inv L s s' : inv L s -> still L s s' -> inv L s'.
Proof. intros H (k & -> & Hk). by eapply inv_set_kv. Qed.

Lemma token_in st i a p :
  (av_addresses st).[i] = Some a -> ad_occupied a = true -> 0 <= p < ad_page_count a ->
  (handle_at st i p, need (ad_committed_frontier a) p) ∈ refs_of st.
Proof.
  intros Ha Hocc Hp. rewrite (refs_split st i a Ha). apply elem_of_app. left. unfold addr_refs. rewrite Hocc.
  apply list_elem_of_fmap. exists p. split; [done|]. apply elem_of_seqZ. lia.
Qed.

(** The page of a mapped cell, in a state with the same tokens. *)
Lemma mapped_page L s s' i a p :
  still L s s' -> (av_addresses (as_store s)).[i] = Some a -> ad_occupied a = true -> 0 <= p < ad_page_count a ->
  let h := handle_at (as_store s) i p in
  exists page, (ls_pages (kv_store (as_kv s'))).[lh_index h] = Some page /\ page_valid (kv_store (as_kv s')) h = true /\
    need (ad_committed_frontier a) p <= pg_committed_columns page /\ 1 <= pg_references page.
Proof.
  intros (k & -> & Hk) Ha Hocc Hp h. eapply toks_ref; [apply Hk|]. apply elem_of_app. left. by apply token_in.
Qed.

Lemma wp_still L s s' {A} (m : K A) (Q : A -> asp -> Prop) (E : error -> asp -> Prop) :
  still L s s' ->
  (forall k, pinv (ls_this (kv_store (as_kv s))) (length (kv_reservations (as_kv s))) (refs_of (as_store s) ++ L)
               (actives_of (as_store s)) (transfers_of s) k ->
     wp m (fun a k' => Q a (set_kv k' s)) (fun e k' => E e (set_kv k' s)) k) ->
  wp (on_pages m) Q E s'.
Proof. intros (k & -> & Hk) Hm. apply wp_on_pages. cbn. apply Hm. exact Hk. Qed.

Lemma still_kept L s k :
  pinv (ls_this (kv_store (as_kv s))) (length (kv_reservations (as_kv s))) (refs_of (as_store s) ++ L)
    (actives_of (as_store s)) (transfers_of s) k -> still L s (set_kv k s).
Proof. intros Hk. by exists k. Qed.

Lemma still_store L s s' : still L s s' -> as_store s' = as_store s.
Proof. by intros (k & -> & _). Qed.

(** ** Frontiers and pages *)
Lemma pages_for_tokens_spec f : 0 <= f -> f <= pages_for_tokens f * kPagedKVPageSize /\ 0 <= pages_for_tokens f /\
  (0 < f -> (pages_for_tokens f - 1) * kPagedKVPageSize < f).
Proof.
  intros Hf. unfold pages_for_tokens, kPagedKVPageSize. destruct (Z.eqb_spec f 0); [lia|].
  pose proof (Z.div_mod (f - 1) 64 ltac:(lia)). pose proof (Z.mod_pos_bound (f - 1) 64 ltac:(lia)). lia.
Qed.

Lemma pages_for_tokens_mono f g : 0 <= f <= g -> pages_for_tokens f <= pages_for_tokens g.
Proof.
  intros H. pose proof (pages_for_tokens_spec f ltac:(lia)). pose proof (pages_for_tokens_spec g ltac:(lia)). unfold kPagedKVPageSize in *.
  destruct (decide (f = 0)) as [->|]; [cbn; lia|]. lia.
Qed.

Lemma need_mono f g p : f <= g -> need f p <= need g p.
Proof. unfold need. lia. Qed.

Lemma need_below f p : 0 <= f -> 0 <= p < pages_for_tokens f -> need f p = Z.min kPagedKVPageSize (f - p * kPagedKVPageSize) /\ 0 < need f p.
Proof.
  intros Hf Hp. destruct (decide (f = 0)) as [->|]; [cbn in Hp; lia|].
  pose proof (pages_for_tokens_spec f Hf). unfold need, kPagedKVPageSize in *. lia.
Qed.

(** ** Protection *)
Section Rebuild.
Context (L : list token) (s : asp).
Hypothesis Hinv : inv L s.

Lemma clear_protection_still i : 0 <= i < capacity (as_store s) ->
  forall s', still L s s' -> wp (clear_address_protection i) (fun _ => still L s) no_error s'.
Proof.
  intros Hi s' Hs'. destruct (vget_is_Some _ _ Hi) as [a Ha]. unfold clear_address_protection. wp_step.
  eapply wp_address_ref; [by rewrite (still_store _ _ _ Hs')|]. destruct (ad_occupied a) eqn:Hocc; cbn [negb]; [|by apply wp_ret].
  apply wp_for_in; [done|]. intros p t Hpp%elem_of_seqZ Ht. rewrite Z.add_0_l in Hpp. wp_step.
  pose proof (ao_count _ _ (so_address _ (iv_store _ _ Hinv) _ _ Ha)).
  apply wp_membership; rewrite (still_store _ _ _ Ht); [eapply membership_bounds; [apply Hinv|exact Ha|lia]|].
  eapply wp_still; [exact Ht|]. intros k Hk. eapply wp_conseq.
  - eapply (unprotect_run _ _ Hk). apply elem_of_app. left. by apply (token_in _ _ a).
  - intros u k' Hk'. by apply still_kept.
  - done.
Qed.

Lemma protect_still i : 0 <= i < capacity (as_store s) ->
  forall s', still L s s' -> wp (protect_address i) (fun _ => still L s) no_error s'.
Proof.
  intros Hi s' Hs'. destruct (vget_is_Some _ _ Hi) as [a Ha]. unfold protect_address. wp_step.
  eapply wp_address_ref; [by rewrite (still_store _ _ _ Hs')|]. destruct (_ || _) eqn:Hg; [by apply wp_ret|]. simp_bool.
  pose proof (so_address _ (iv_store _ _ Hinv) _ _ Ha) as [Hcnt [Hcf Hpf] Hck Hact Hused Hvac].
  pose proof (pages_for_tokens_mono _ _ Hck) as Hmono.
  wp_step. wp_step; cycle 1.
  { apply orb_true_iff in Hguard as [?|?]; simp_bool; lia. }
  apply wp_for_in; [done|]. intros p t Hpp%elem_of_seqZ Ht. rewrite Z.add_0_l in Hpp. cbv zeta. wp_step.
  apply wp_membership; rewrite (still_store _ _ _ Ht); [eapply membership_bounds; [apply Hinv|exact Ha|lia]|].
  eapply wp_still; [exact Ht|]. intros k Hk. destruct (need_below (ad_checkpoint_frontier a) p ltac:(lia) Hpp) as [<- ?].
  eapply wp_conseq.
  - eapply (protect_run _ (need (ad_committed_frontier a) p)); [exact Hk| |pose proof (need_mono (ad_checkpoint_frontier a) (ad_committed_frontier a) p ltac:(lia)); lia].
    apply elem_of_app. left. apply (token_in _ _ a); [done|done|lia].
  - intros u k' Hk'. by apply still_kept.
  - done.
Qed.

Lemma rebuild_still : wp rebuild_checkpoint_protection (fun _ => still L s) no_error s.
Proof.
  assert (Hloop : forall f, (forall i, 0 <= i < capacity (as_store s) -> forall s', still L s s' -> wp (f i) (fun _ => still L s) no_error s') ->
    forall s', still L s s' -> wp (mfor f (seqZ 0 (capacity (as_store s)))) (fun _ => still L s) no_error s').
  { intros f Hf s' Hs'. apply wp_for_in; [done|]. intros p t Hp%elem_of_seqZ Ht. apply Hf; [lia|done]. }
  apply wp_never_throws. wp_step. wp_step. wp_step.
  eapply wp_conseq; [apply Hloop; [exact clear_protection_still|by apply still_refl]| |done].
  intros u s1 Hs1. eapply wp_conseq; [apply Hloop; [exact protect_still|exact Hs1]|done|done].
Qed.
End Rebuild.

(** * A change of one address *)

(** The store with address [i] and cells of [i] changed. *)
Definition change (st : KVAddressSpaceStore) (i : Z) (a : Address) (ms : list LogicalKVPageHandle) : KVAddressSpaceStore :=
  mkAddressStore (av_this st) (av_page_capacity st) ((av_addresses st).[i <- a]) (av_free st) ms (av_free_count st).

Definition own_cells (st : KVAddressSpaceStore) (i : Z) (ms : list LogicalKVPageHandle) : Prop :=
  vsize ms = vsize (av_memberships st) /\
  forall c, ms.[c] = (av_memberships st).[c] \/ exists p, 0 <= p < av_page_capacity st /\ c = cell st i p.

Lemma own_cells_refl st i : own_cells st i (av_memberships st).
Proof. split; [done|]. by left. Qed.

Lemma own_cells_set st i ms p h :
  own_cells st i ms -> 0 <= p < av_page_capacity st -> own_cells st i (ms.[cell st i p <- h]).
Proof.
  intros [Hs Hc] Hp. split; [by rewrite vsize_vset|]. intros c. destruct (decide (c = cell st i p)) as [->|Hne]; [right; by exists p|].
  rewrite vget_vset_ne by done. apply Hc.
Qed.

Section Change.
Context (st : KVAddressSpaceStore) (i : Z) (a a' : Address) (ms : list LogicalKVPageHandle).
Hypothesis Hst : astore_ok st.
Hypothesis Ha : (av_addresses st).[i] = Some a.
Hypothesis Hms : own_cells st i ms.
Let st' := change st i a' ms.

Lemma change_other j b p :
  j <> i -> (av_addresses st).[j] = Some b -> 0 <= p < ad_page_count b -> handle_at st' j p = handle_at st j p.
Proof.
  intros Hj Hb Hp. unfold handle_at, cell. cbn. destruct (proj2 Hms (j * av_page_capacity st + p)) as [->|(q & Hq & E)]; [done|].
  pose proof (ao_count _ _ (so_address _ Hst _ _ Hb)). destruct (membership_inj st j i p q ltac:(lia) Hq E). done.
Qed.

Lemma change_refs : refs_of st' ≡ₚ addr_refs st' i a' ++ refs_rest st i.
Proof.
  pose proof (vget_Some_bounds _ _ _ Ha) as Hb. unfold refs_of, refs_rest, capacity. cbn. rewrite vsize_vset.
  rewrite (concat_split _ _ i) by done. unfold refs_at at 1. cbn. rewrite vget_vset_eq by done.
  apply Permutation_app_head. erewrite concat_others; [done|]. intros j Hj. unfold refs_at. cbn. rewrite vget_vset_ne by done.
  destruct ((av_addresses st).[j]) as [b|] eqn:Eb; [|done]. destruct (ad_occupied b); [|done].
  apply map_ext_in. intros p Hp%list_elem_of_In%elem_of_seqZ. by rewrite (change_other j b p) by (done || lia).
Qed.

Lemma change_actives : actives_of st' ≡ₚ addr_actives st' i a' ++ actives_rest st i.
Proof.
  pose proof (vget_Some_bounds _ _ _ Ha) as Hb. unfold actives_of, actives_rest, capacity. cbn. rewrite vsize_vset.
  rewrite (concat_split _ _ i) by done. unfold actives_at at 1. cbn. rewrite vget_vset_eq by done.
  apply Permutation_app_head. erewrite concat_others; [done|]. intros j Hj. unfold actives_at. cbn. rewrite vget_vset_ne by done.
  destruct ((av_addresses st).[j]) as [b|] eqn:Eb; [|done]. destruct (ad_active b); [|done].
  apply map_ext_in. intros p Hp%list_elem_of_In%elem_of_seqZ. by apply (change_other j b p); [done|done|lia].
Qed.

Lemma change_ok : address_ok (av_page_capacity st) a' -> ad_occupied a' = ad_occupied a -> astore_ok st'.
Proof.
  intros Hok Hocc. apply (cells_ok (with_addresses ((av_addresses st).[i <- a']) st) ms); [|apply Hms].
  by eapply put_ok.
Qed.
End Change.

(** The tokens with their columns lowered. *)
Lemma pinv_lower this n R R' A T s :
  pinv this n (R ++ R') A T s -> forall R2, Forall2 (fun x y => fst x = fst y /\ snd x <= snd y) R2 R -> pinv this n (R2 ++ R') A T s.
Proof.
  revert R'. induction R as [|[h c] R IH]; intros R' H R2 Hf; [by apply Forall2_nil_inv_r in Hf as ->|].
  apply Forall2_cons_inv_r in Hf as ([h2 c2] & R3 & [E Hc] & Hf & ->). cbn in E, Hc. subst h2.
  destruct (toks_ref _ _ _ _ (pi_toks _ _ _ _ _ _ H) h c ltac:(by left)) as (page & Hp & _ & Hcol & _).
  assert (H' : pinv this n ((h, c2) :: (R ++ R')) A T s) by (eapply pinv_columns; [exact H|exact Hp|lia]).
  cbn. rewrite (Permutation_middle R3 R' (h, c2)). apply IH; [|done]. by rewrite <- Permutation_middle.
Qed.

(** The invariant after a change of address [i]. *)
Lemma inv_change L L' s k i a a' ms act fks sns :
  inv L s -> (av_addresses (as_store s)).[i] = Some a -> own_cells (as_store s) i ms ->
  address_ok (av_page_capacity (as_store s)) a' -> ad_occupied a' = ad_occupied a ->
  let s' := mkAsp k (as_world s) (change (as_store s) i a' ms) act fks sns in
  pinv (ls_this (kv_store (as_kv s))) (length (kv_reservations (as_kv s)))
    (addr_refs (as_store s') i a' ++ refs_rest (as_store s) i ++ L')
    (addr_actives (as_store s') i a' ++ actives_rest (as_store s) i) (transfers_of s') k ->
  (forall x, x ∈ accounts_of s' -> x ∈ accounts_of s) ->
  Forall (fork_ok (av_page_capacity (as_store s))) fks -> Forall (snapshot_ok (av_page_capacity (as_store s))) sns ->
  inv L' s'.
Proof.
  intros Hinv Ha Hms Hok Hocc s' Hk Hacc Hf Hs. pose proof (iv_store _ _ Hinv) as Hst. destruct Hk as [K1 K2 K3 K4].
  constructor; cbn; try done.
  - rewrite K2. apply Hinv.
  - rewrite (change_refs _ _ a _ _ Hst Ha Hms), (change_actives _ _ a _ _ Hst Ha Hms). by rewrite <- app_assoc.
  - by eapply change_ok.
  - apply Hinv.
  - rewrite Forall_forall. intros x Hx. pose proof (iv_accounts _ _ Hinv) as Hac. rewrite Forall_forall in Hac.
    specialize (Hac x (Hacc x Hx)). cbn in Hac. lia.
Qed.

(** Accounts, when an address changes. *)
Lemma accounts_put s s' i a a' :
  (av_addresses (as_store s)).[i] = Some a -> av_addresses (as_store s') = (av_addresses (as_store s)).[i <- a'] ->
  as_activations s' = as_activations s -> as_forks s' = as_forks s -> as_snapshots s' = as_snapshots s ->
  (ad_reservation a' = ad_reservation a \/ ad_reservation a' = None) -> forall x, x ∈ accounts_of s' -> x ∈ accounts_of s.
Proof.
  intros Ha Hput E1 E2 E3 Hr x. unfold accounts_of. rewrite Hput, E1, E2, E3, !elem_of_app.
  intros [Hx|Hx]; [left|by right]. apply list_elem_of_omap in Hx as (b & Hb & Ex). apply list_elem_of_omap.
  apply elem_vget in Hb as (j & Hj & _). destruct (decide (j = i)) as [->|Hne].
  - rewrite vget_vset_eq in Hj by (by eapply vget_Some_bounds). injection Hj as <-. exists a. split; [by eapply vget_elem|].
    destruct Hr as [Hr|Hr]; congruence.
  - rewrite vget_vset_ne in Hj by done. exists b. split; [by eapply vget_elem|done].
Qed.

(** * Releasing the pages of an inactive address *)

Definition at_change (s : asp) (k : kv) (i : Z) (a : Address) (ms : list LogicalKVPageHandle) : asp :=
  mkAsp k (as_world s) (change (as_store s) i a ms) (as_activations s) (as_forks s) (as_snapshots s).

Lemma wp_update_change s k i a0 a ms f Q E :
  (av_addresses (as_store s)).[i] = Some a0 -> Q tt (at_change s k i (f a) ms) -> wp (update_address i f) Q E (at_change s k i a ms).
Proof.
  intros Ha Hq. unfold update_address. wp_step. eapply wp_address_ref; [apply vget_vset_eq; by eapply vget_Some_bounds|].
  unfold put_address. wp_step. unfold at_change, change, with_addresses, set_store in *. cbn in *. by rewrite vset_vset_eq.
Qed.

Lemma wp_set_membership i p h Q E s :
  0 <= cell (as_store s) i p < vsize (av_memberships (as_store s)) ->
  Q tt (set_store (with_memberships ((av_memberships (as_store s)).[cell (as_store s) i p <- h]) (as_store s)) s) ->
  wp (set_membership i p h) Q E s.
Proof.
  intros Hc Hq. unfold set_membership. wp_step. wp_step. destruct (vget_is_Some _ _ Hc) as [h0 Hh].
  wp_step. wp_step; [wp_step; done|]. unfold vat in *. rewrite Hh in *. done.
Qed.

(** The tokens of the first [m] pages. *)
Definition prefix_tokens (st : KVAddressSpaceStore) (i : Z) (f m : Z) : list token :=
  map (fun p => (handle_at st i p, need f p)) (seqZ 0 m).

Lemma prefix_snoc st i f m : 0 <= m -> prefix_tokens st i f (m + 1) = prefix_tokens st i f m ++ [(handle_at st i m, need f m)].
Proof. intros Hm. unfold prefix_tokens. rewrite seqZ_app by lia. by rewrite map_app. Qed.

(** Active references are references. *)
Lemma actives_sub st j : astore_ok st -> actives_at st j ⊆+ map fst (refs_at st j).
Proof.
  intros H. unfold actives_at, refs_at. destruct ((av_addresses st).[j]) as [b|] eqn:Hb; [|done].
  destruct (ad_active b) eqn:Hact; [|apply submseteq_nil_l]. rewrite (ao_active _ _ (so_address _ H _ _ Hb) Hact).
  unfold address_tokens, address_handles. rewrite map_map. done.
Qed.

Lemma concat_sub {B} (f : Z -> list B) (g : Z -> list B) l :
  (forall j, f j ⊆+ g j) -> concat (map f l) ⊆+ concat (map g l).
Proof. intros H. induction l as [|x l IH]; [done|]. cbn. by apply submseteq_app. Qed.

Lemma actives_rest_sub st i : astore_ok st -> actives_rest st i ⊆+ map fst (refs_rest st i).
Proof.
  intros H. unfold actives_rest, refs_rest. rewrite concat_map, map_map. apply concat_sub. intros j. by apply actives_sub.
Qed.

Lemma actives_of_sub st : astore_ok st -> actives_of st ⊆+ map fst (refs_of st).
Proof.
  intros H. unfold actives_of, refs_of. rewrite concat_map, map_map. apply concat_sub. intros j. by apply actives_sub.
Qed.

Lemma at_page_map i (R : list token) : at_page id i (map fst R) = map fst (at_page fst i R).
Proof.
  unfold at_page. induction R as [|x R IH]; [done|]. cbn [map]. destruct (decide (lh_index (fst x) = i)) as [E|E].
  - rewrite !filter_cons_True by done. cbn [map]. f_equal. exact IH.
  - rewrite !filter_cons_False by done. done.
Qed.

Lemma at_page_sub i (A : list LogicalKVPageHandle) (R : list token) :
  A ⊆+ map fst R -> vsize (at_page id i A) <= vsize (at_page fst i R).
Proof.
  intros (l & Hl)%submseteq_Permutation. assert (E : at_page id i (map fst R) ≡ₚ at_page id i A ++ at_page id i l)
    by (rewrite Hl; by rewrite at_page_app).
  rewrite at_page_map in E. apply Permutation_length in E. rewrite length_map, length_app in E. unfold vsize. lia.
Qed.

(** A page with one more reference than active ones need. *)
Lemma active_lt this n h c R A T k :
  pinv this n ((h, c) :: R) A T k -> A ⊆+ map fst R ->
  exists page, (ls_pages (kv_store k)).[lh_index h] = Some page /\ page_valid (kv_store k) h = true /\
    pg_active_references page < pg_references page.
Proof.
  intros H Hsub. destruct (toks_ref _ _ _ _ (pi_toks _ _ _ _ _ _ H) h c ltac:(by left)) as (page & Hp & Hv & _ & _).
  exists page. split; [done|]. split; [done|]. pose proof (toks_at _ _ _ _ (pi_toks _ _ _ _ _ _ H) _ _ Hp) as Htok.
  rewrite (pt_references _ _ _ _ _ _ Htok), (pt_actives _ _ _ _ _ _ Htok), (at_page_cons_eq fst _ (h, c)), vsize_cons by done.
  pose proof (at_page_sub (lh_index h) _ _ Hsub). lia.
Qed.

(** Nothing pins the page. *)
Definition unpinned (k : kv) (h : LogicalKVPageHandle) : Prop :=
  forall page, (ls_pages (kv_store k)).[lh_index h] = Some page -> pg_occupied page = true ->
    pg_source_pins page = 0 /\ pg_destination_pinned page = false.

Lemma unpinned_kept k k' h : unpinned k h -> pins_kept k k' -> unpinned k' h.
Proof. intros H Hk page' Hp Hocc. destruct (Hk _ _ Hp Hocc) as (page & Hp0 & Ho & -> & -> & _). by eapply H. Qed.

Lemma unpinned_releasable this n h c R A T k :
  pinv this n ((h, c) :: R) A T k -> A ⊆+ map fst R -> unpinned k h -> can_release_reference (kv_store k) h false = true.
Proof.
  intros H Hsub Hu. destruct (active_lt _ _ _ _ _ _ _ _ H Hsub) as (page & Hp & Hv & Hlt).
  destruct (Hu _ Hp (page_valid_occupied _ _ _ Hv Hp)) as [Hpin Hdp].
  pose proof (pk_references _ (so_pages _ (ki_store _ _ (pi_ok _ _ _ _ _ _ H)) _ _ Hp)).
  unfold can_release_reference, page_test. rewrite Hv, Hp. cbn. rewrite Hpin, Hdp.
  rewrite (proj2 (Z.eqb_neq (pg_references page) 0)), (proj2 (Z.leb_gt _ _)) by lia. done.
Qed.

Section ReleaseSuffix.
Context (L : list token) (s : asp) (i : Z) (a : Address) (lo : Z).
Hypothesis Hinv : inv L s.
Hypothesis Ha : (av_addresses (as_store s)).[i] = Some a.
Hypothesis Hocc : ad_occupied a = true.
Hypothesis Hinactive : ad_active a = false.
Hypothesis Hlo : 0 <= lo.
Notation st := (as_store s).
Notation this := (ls_this (kv_store (as_kv s))).
Notation n := (length (kv_reservations (as_kv s))).

(** The pages from [m] on are released. *)
Record released (m : Z) (t : asp) (k : kv) (ms : list LogicalKVPageHandle) : Prop := {
  rl_state : t = at_change s k i (set_page_count m a) ms;
  rl_own : own_cells st i ms;
  rl_cells : forall p, 0 <= p < m -> ms.[cell st i p] = (av_memberships st).[cell st i p];
  rl_pages : pinv this n (prefix_tokens st i (ad_committed_frontier a) m ++ refs_rest st i ++ L) (actives_rest st i) (transfers_of s) k;
  rl_pins : pins_kept (as_kv s) k;
  rl_others : forall x, (forall p, lo <= p < ad_page_count a -> lh_index (handle_at st i p) <> x) ->
    (ls_pages (kv_store k)).[x] = (ls_pages (kv_store (as_kv s))).[x];
}.

Lemma released_start : released (ad_page_count a) s (as_kv s) (av_memberships st).
Proof.
  constructor; try done.
  - unfold at_change, change, set_page_count. rewrite vset_id by (rewrite Ha; by destruct a). by destruct s as [? ? [] ? ? ?].
  - apply own_cells_refl.
  - pose proof (inv_pages _ _ Hinv) as Hp. rewrite (refs_split _ _ _ Ha), (actives_split _ _ _ Ha) in Hp.
    unfold addr_refs, addr_actives in Hp. rewrite Hocc, Hinactive in Hp. by rewrite <- app_assoc in Hp.
  - apply pins_kept_refl.
Qed.

Hypothesis Hu : forall p, lo <= p < ad_page_count a -> unpinned (as_kv s) (handle_at st i p).

Lemma release_suffix_step m t k ms :
  lo <= m -> m < ad_page_count a -> released (m + 1) t k ms ->
  wp (release_suffix_page i m) (fun _ t' => exists k' ms', released m t' k' ms') no_error t.
Proof.
  intros Hm Hm' [-> Hown Hcells Hp Hpk Ho]. pose proof (iv_store _ _ Hinv) as Hst. pose proof (ao_count _ _ (so_address _ Hst _ _ Ha)) as Hcnt.
  unfold release_suffix_page. wp_step. eapply wp_update_change; [exact Ha|]. wp_step.
  assert (Hcb : 0 <= cell st i m < vsize ms).
  { rewrite (proj1 Hown). eapply membership_bounds; [exact Hst|exact Ha|lia]. }
  apply wp_membership; [exact Hcb|]. wp_step. apply wp_set_membership; [exact Hcb|]. wp_step. apply wp_on_pages. cbn.
  assert (Hh : handle_at (change (as_store s) i (set_page_count m (set_page_count (m + 1) a)) ms) i m = handle_at st i m).
  { unfold handle_at. cbn. unfold cell in *. cbn. rewrite Hcells by lia. done. }
  rewrite Hh. rewrite prefix_snoc in Hp by lia. rewrite <- app_assoc in Hp.
  assert (Hp' : pinv this n ((handle_at st i m, need (ad_committed_frontier a) m) ::
     (prefix_tokens st i (ad_committed_frontier a) m ++ refs_rest st i ++ L)) (actives_rest st i) (transfers_of s) k)
    by (by rewrite Permutation_middle).
  assert (Hsub : actives_rest st i ⊆+ map fst (prefix_tokens st i (ad_committed_frontier a) m ++ refs_rest st i ++ L)).
  { rewrite !map_app. apply submseteq_inserts_l, submseteq_inserts_r. by apply actives_rest_sub. }
  eapply wp_conseq; [apply (release_takes _ _ Hp'); eapply unpinned_releasable; [exact Hp'|exact Hsub|eapply unpinned_kept; [apply Hu; lia|exact Hpk]]| |done].
  cbv beta. intros ok k' (-> & Hk' & Hpins & Hoth). cbn [throw_if negb]. exists k', (ms.[cell st i m <- null_logical_handle]). constructor.
  - reflexivity.
  - apply own_cells_set; [done|lia].
  - intros p Hpp. rewrite vget_vset_ne; [by apply Hcells; lia|]. intros E. apply membership_inj in E as [_ E]; lia.
  - exact Hk'.
  - by eapply pins_kept_trans.
  - intros x Hx. rewrite Hoth; [by apply Ho|]. intros ->. by apply (Hx m).
Qed.

Lemma release_suffix_loop m :
  lo <= m -> m <= ad_page_count a ->
  wp (mfor (release_suffix_page i) (rev (seqZ m (ad_page_count a - m)))) (fun _ t => exists k ms, released m t k ms) no_error s.
Proof.
  intros Hm Hm'. apply (wp_for_down _ (fun p t => exists k ms, released p t k ms)); [lia| |].
  - exists (as_kv s), (av_memberships st). replace (m + (ad_page_count a - m)) with (ad_page_count a) by lia. apply released_start.
  - intros p t Hp (k & ms & Hr). eapply release_suffix_step; [lia|lia|exact Hr].
Qed.
End ReleaseSuffix.

(** * The calls on inactive addresses *)

(** A call that throws leaves the invariant. *)
Definition refused (L : list token) : error -> asp -> Prop := fun e s => is_exception e = true /\ inv L s.

Lemma change_tokens st i a ms m :
  (forall p, 0 <= p < m -> ms.[cell st i p] = (av_memberships st).[cell st i p]) -> ad_page_count a = m ->
  address_tokens (change st i a ms) i a = prefix_tokens st i (ad_committed_frontier a) m.
Proof.
  intros Hc <-. apply map_ext_in. intros p Hp%list_elem_of_In%elem_of_seqZ. unfold handle_at, cell in *. cbn. by rewrite Hc by lia.
Qed.

Lemma change_handles st i a ms m :
  (forall p, 0 <= p < m -> ms.[cell st i p] = (av_memberships st).[cell st i p]) -> ad_page_count a = m ->
  address_handles (change st i a ms) i a = map (handle_at st i) (seqZ 0 m).
Proof.
  intros Hc <-. apply map_ext_in. intros p Hp%list_elem_of_In%elem_of_seqZ. unfold handle_at, cell in *. cbn. by rewrite Hc by lia.
Qed.

Lemma prefix_lower st i f g m : f <= g ->
  Forall2 (fun x y => fst x = fst y /\ snd x <= snd y) (prefix_tokens st i f m) (prefix_tokens st i g m).
Proof.
  intros H. unfold prefix_tokens. induction (seqZ 0 m) as [|p l IH]; [apply Forall2_nil_2|].
  apply Forall2_cons_2; [|exact IH]. cbn. split; [done|]. by apply need_mono.
Qed.

Lemma wp_mall_read {A} (f : A -> P bool) (F : A -> Prop) E l s :
  (forall x, x ∈ l -> wp (f x) (fun b s' => s' = s /\ (b = true -> F x)) E s) ->
  wp (mall f l) (fun b s' => s' = s /\ (b = true -> forall x, x ∈ l -> F x)) E s.
Proof.
  induction l as [|x l IH]; intros Hf.
  - apply wp_ret. split; [done|]. by intros _ x ?%elem_of_nil.
  - cbn [mall]. wp_step. eapply wp_conseq; [apply Hf; by left| |done]. intros b s' [-> Hx]. destruct b; cbn [negb].
    + eapply wp_conseq; [apply IH; intros y Hy; apply Hf; by right| |done].
      intros b' s' [-> Hl]. split; [done|]. intros Hb y [->|Hy]%elem_of_cons; auto.
    + by apply wp_ret.
Qed.

Lemma can_release_unpinned s h w : can_release_reference (kv_store (as_kv s)) h w = true -> unpinned (as_kv s) h.
Proof.
  intros (page & _ & Hp & _ & Hg)%page_test_true. simp_bool. intros q Hq _. rewrite Hp in Hq. injection Hq as <-. done.
Qed.

Lemma denotes_ok L s h a : inv L s -> denotes s h a -> address_ok (av_page_capacity (as_store s)) a.
Proof. intros Hinv [Ha _]. by eapply so_address; [apply Hinv|]. Qed.

Lemma own_cell L s h a p :
  inv L s -> denotes s h a -> 0 <= p < ad_page_count a ->
  0 <= cell (as_store s) (ah_index h) p < vsize (av_memberships (as_store s)).
Proof.
  intros Hinv Ha Hp. pose proof (ao_count _ _ (denotes_ok _ _ _ _ Hinv Ha)). destruct Ha as [Ha _].
  eapply membership_bounds; [apply Hinv|exact Ha|lia].
Qed.

Lemma can_release_pages_spec L s h a first E :
  inv L s -> denotes s h a -> 0 <= first ->
  wp (can_release_pages (ah_index h) first (ad_page_count a - first))
    (fun b s' => s' = s /\ (b = true -> forall p, first <= p < ad_page_count a -> unpinned (as_kv s) (handle_at (as_store s) (ah_index h) p))) E s.
Proof.
  intros Hinv Ha Hf. eapply wp_conseq; [apply wp_mall_read with (F := fun p => unpinned (as_kv s) (handle_at (as_store s) (ah_index h) p))| |done].
  - intros p Hp%elem_of_seqZ. wp_step. apply wp_membership; [eapply own_cell; [done|done|lia]|]. apply wp_guard. split; [done|].
    apply can_release_unpinned.
  - cbv beta. intros b s' [-> H]. split; [done|]. intros Hb p Hp. apply (H Hb). apply elem_of_seqZ. lia.
Qed.

(** What the two guards find. *)
Definition truncatable (s : asp) (h : KVAddressSpaceHandle) (frontier : Z) : Prop :=
  exists a, denotes s h a /\ in_use a = false /\ frontier <= ad_committed_frontier a /\
    forall p, pages_for_tokens frontier <= p < ad_page_count a -> unpinned (as_kv s) (handle_at (as_store s) (ah_index h) p).

Lemma can_truncate_prefix_spec L s h f :
  inv L s -> 0 <= f ->
  wp (can_truncate_inactive_prefix h f) (fun b s' => s' = s /\ (b = true -> truncatable s h f)) no_error s.
Proof.
  intros Hinv Hf. apply wp_never_throws. wp_step. wp_step. destruct (address_valid _ h) eqn:Hv; cbn [negb]; [|by apply wp_ret].
  apply address_valid_denotes in Hv as [_ [a Ha]]. wp_step. eapply wp_address_ref; [apply Ha|].
  destruct (_ || _) eqn:Hg; [by apply wp_ret|]. simp_bool. pose proof (pages_for_tokens_spec f Hf) as (_ & Hpf & _).
  eapply wp_conseq; [apply (can_release_pages_spec L s h a _ no_error Hinv Ha); lia| |done]. intros b s' [-> Hb]. split; [done|]. intros ->. exists a. auto.
Qed.

Section TruncateInactive.
Context (L : list token) (s : asp) (h : KVAddressSpaceHandle) (a : Address) (f : Z).
Hypothesis Hinv : inv L s.
Hypothesis Ha : denotes s h a.
Hypothesis Hiu : in_use a = false.
Hypothesis Hf : 0 <= f <= ad_committed_frontier a.
Hypothesis Hu : forall p, pages_for_tokens f <= p < ad_page_count a -> unpinned (as_kv s) (handle_at (as_store s) (ah_index h) p).
Notation i := (ah_index h).
Notation target := (pages_for_tokens f).

Lemma target_bounds : 0 <= target <= ad_page_count a.
Proof.
  pose proof (denotes_ok _ _ _ _ Hinv Ha) as Hok. pose proof (ao_frontier _ _ Hok). pose proof (pages_for_tokens_spec f ltac:(lia)).
  pose proof (pages_for_tokens_mono f (ad_committed_frontier a) Hf). lia.
Qed.

(** The address with the shorter prefix. *)
Definition shortened (checkpoint : Z) : Address :=
  set_checkpoint_frontier checkpoint (set_committed_frontier f (set_page_count target a)).

Lemma shortened_ok checkpoint : 0 <= checkpoint <= f -> address_ok (av_page_capacity (as_store s)) (shortened checkpoint).
Proof.
  intros Hc. pose proof (denotes_ok _ _ _ _ Hinv Ha) as Hok. pose proof (ao_count _ _ Hok). pose proof (ao_frontier _ _ Hok).
  pose proof target_bounds. destruct Ha as (_ & Hocc & _). pose proof Hiu as Hiu0. unfold in_use in Hiu0. simp_bool. constructor; cbn; try lia; congruence.
Qed.

Notation shortened_pages k :=
  (pinv (ls_this (kv_store (as_kv s))) (length (kv_reservations (as_kv s))) (prefix_tokens (as_store s) i f target ++ refs_rest (as_store s) i ++ L)
     (actives_rest (as_store s) i) (transfers_of s) k).

Lemma released_lower t k ms : released L s i a target target t k ms -> shortened_pages k.
Proof. intros [_ _ _ Hp _ _]. eapply pinv_lower; [exact Hp|]. apply prefix_lower. lia. Qed.

Lemma shortened_inv checkpoint k ms :
  0 <= checkpoint <= f -> own_cells (as_store s) i ms ->
  (forall p, 0 <= p < target -> ms.[cell (as_store s) i p] = (av_memberships (as_store s)).[cell (as_store s) i p]) ->
  shortened_pages k -> inv L (at_change s k i (shortened checkpoint) ms).
Proof.
  intros Hc Hown Hcells Hp. destruct Ha as (Ha' & Hocc & _). pose proof Hiu as Hiu0. unfold in_use in Hiu0. simp_bool.
  eapply inv_change; [exact Hinv|exact Ha'|exact Hown|by apply shortened_ok|done| |by eapply accounts_put; [exact Ha'|done..|left]|apply Hinv|apply Hinv].
  unfold addr_refs, addr_actives. cbn [as_store ad_occupied ad_active shortened set_checkpoint_frontier set_committed_frontier set_page_count].
  rewrite Hocc. match goal with H : ad_active a = false |- _ => rewrite H end.
  change (mkAddress _ _ _ _ _ _ _ _) with (shortened checkpoint).
  rewrite (change_tokens _ _ _ _ target Hcells) by done. cbn [ad_committed_frontier shortened set_checkpoint_frontier set_committed_frontier set_page_count].
  exact Hp.
Qed.
End TruncateInactive.

Lemma truncate_prefix_inv L s h f :
  inv L s -> is_u32 f -> wp (truncate_inactive_prefix h f) (fun _ => inv L) (refused L) s.
Proof.
  intros Hinv Hu32. pose proof (proj1 Hu32) as Hf. unfold truncate_inactive_prefix. wp_step.
  eapply wp_conseq; [exact (can_truncate_prefix_spec L s h f Hinv Hf)| |done]. intros b s' [-> Hb]. destruct b; cbn [negb]; [|by apply wp_throw].
  destruct (Hb eq_refl) as (a & Ha & Hiu & Hfc & Hu). wp_step. apply wp_require; [|done]. intros a0 Ha0 _.
  assert (a0 = a) as -> by (destruct Ha as [E _], Ha0 as [E0 _]; congruence). cbv zeta.
  pose proof (target_bounds L s h a f Hinv Ha ltac:(lia)) as Ht. pose proof Ha as (Ha' & Hocc & _).
  assert (Hact : ad_active a = false) by (unfold in_use in Hiu; by simp_bool).
  wp_step. eapply wp_conseq; [apply (release_suffix_loop L s (ah_index h) a (pages_for_tokens f)); try done; lia| |done].
  intros u t (k & ms & Hr). pose proof (rl_state _ _ _ _ _ _ _ _ _ Hr) as ->. wp_step. eapply wp_update_change; [exact Ha'|].
  pose proof (ao_checkpoint _ _ (denotes_ok _ _ _ _ Hinv Ha)).
  assert (Hi : inv L (at_change s k (ah_index h) (shortened a f (Z.min (ad_checkpoint_frontier a) f)) ms))
    by (eapply shortened_inv; [done|done|done|lia|lia|apply Hr|apply Hr|eapply released_lower; [|exact Hr]; lia]).
  eapply wp_conseq; [apply (rebuild_still L _ Hi)| |done]. intros u' t' Ht'. by eapply still_inv.
Qed.

(** The kept prefix may end in a page that has to be cut. *)
Definition cuttable (s : asp) (h : KVAddressSpaceHandle) (f : Z) : Prop :=
  let target := pages_for_tokens f in
  let tail := handle_at (as_store s) (ah_index h) (target - 1) in
  target <> 0 -> forall page, (ls_pages (kv_store (as_kv s))).[lh_index tail] = Some page ->
    tail_page_columns f target = pg_committed_columns page \/
    LogicalKv.can_destructive_truncate_inactive (kv_store (as_kv s)) tail (tail_page_columns f target) = true.

Lemma mapped_valid L s h a p :
  inv L s -> denotes s h a -> 0 <= p < ad_page_count a ->
  page_valid (kv_store (as_kv s)) (handle_at (as_store s) (ah_index h) p) = true.
Proof.
  intros Hinv (Ha & Hocc & _) Hp. destruct (mapped_page L s s (ah_index h) a p (still_refl _ _ Hinv) Ha Hocc Hp) as (page & _ & Hv & _). done.
Qed.

Lemma can_destructive_inactive_spec L s h f :
  inv L s -> 0 <= f ->
  wp (can_destructive_truncate_inactive h f false) (fun b s' => s' = s /\ (b = true -> truncatable s h f /\ cuttable s h f)) no_error s.
Proof.
  intros Hinv Hf. apply wp_never_throws. wp_step. wp_step. destruct (address_valid _ h) eqn:Hv; cbn [negb]; [|by apply wp_ret].
  apply address_valid_denotes in Hv as [_ [a Ha]]. cbv zeta. wp_step. eapply wp_address_ref; [apply Ha|].
  destruct (_ || _) eqn:Hg; [by apply wp_ret|]. simp_bool. pose proof (pages_for_tokens_spec f Hf) as (_ & Hpf & _). wp_step.
  eapply wp_conseq; [apply (can_release_pages_spec L s h a _ no_error Hinv Ha); lia| |done]. intros b s' [-> Hb].
  destruct b; cbn [negb]; [|by apply wp_ret]. specialize (Hb eq_refl).
  assert (Htr : truncatable s h f) by (exists a; auto). pose proof (target_bounds L s h a f Hinv Ha ltac:(lia)) as Htb.
  destruct (Z.eqb_spec (pages_for_tokens f) 0) as [Hz|Hz].
  { apply wp_ret. split; [done|]. intros _. split; [done|]. intros ?. done. }
  wp_step. apply wp_membership; [eapply own_cell; [done|done|lia]|]. wp_step. apply wp_read; cycle 1.
  { rewrite (mapped_valid L s h a) by (done || lia). done. }
  intros page _ Hp. destruct (Z.eqb_spec (tail_page_columns f (pages_for_tokens f)) (pg_committed_columns page)) as [E|E].
  { apply wp_ret. split; [done|]. intros _. split; [done|]. intros _ q Hq. left. congruence. }
  apply wp_guard. split; [done|]. intros Hc. split; [done|]. intros _ q Hq. by right.
Qed.

(** Two pages of an address are two tokens. *)
Lemma two_tokens st i f m p q x :
  0 <= p < q -> q < m -> lh_index (handle_at st i p) = x -> lh_index (handle_at st i q) = x ->
  2 <= vsize (at_page fst x (prefix_tokens st i f m)).
Proof.
  intros Hp Hq Ep Eq. unfold prefix_tokens. replace m with ((p + 1) + (m - p - 1)) by lia. rewrite seqZ_app, map_app, at_page_app, vsize_app by lia.
  assert (Hone : forall (l : list Z) r, r ∈ l -> lh_index (handle_at st i r) = x ->
            1 <= vsize (at_page fst x (map (fun p => (handle_at st i p, need f p)) l))).
  { intros l r Hr Er. assert (Hin : (handle_at st i r, need f r) ∈ at_page fst x (map (fun p => (handle_at st i p, need f p)) l)).
    { apply elem_of_at_page. split; [done|]. apply list_elem_of_fmap. by exists r. }
    destruct (at_page _ _ _); [by apply elem_of_nil in Hin|]. rewrite vsize_cons. match goal with |- _ <= 1 + vsize ?l => pose proof (vsize_nonneg l) end. lia. }
  pose proof (Hone (seqZ 0 (p + 1)) p ltac:(apply elem_of_seqZ; lia) Ep).
  pose proof (Hone (seqZ (0 + (p + 1)) (m - p - 1)) q ltac:(apply elem_of_seqZ; lia) Eq). lia.
Qed.

Lemma sole_page L s h a p q page :
  inv L s -> denotes s h a -> 0 <= p < q -> q < ad_page_count a ->
  (ls_pages (kv_store (as_kv s))).[lh_index (handle_at (as_store s) (ah_index h) p)] = Some page -> pg_references page = 1 ->
  lh_index (handle_at (as_store s) (ah_index h) q) <> lh_index (handle_at (as_store s) (ah_index h) p).
Proof.
  intros Hinv (Ha & Hocc & _) Hp Hq Hpage Hr E. pose proof (inv_pages _ _ Hinv) as Hk. rewrite (refs_split _ _ _ Ha) in Hk.
  unfold addr_refs in Hk. rewrite Hocc in Hk.
  pose proof (pt_references _ _ _ _ _ _ (toks_at _ _ _ _ (pi_toks _ _ _ _ _ _ Hk) _ _ Hpage)) as Er.
  rewrite !at_page_app, !vsize_app in Er.
  pose proof (two_tokens (as_store s) (ah_index h) (ad_committed_frontier a) (ad_page_count a) p q _ Hp Hq eq_refl E) as H2.
  change (prefix_tokens _ _ _ _) with (address_tokens (as_store s) (ah_index h) a) in H2.
  match type of Er with _ = _ + ?y + ?z => pose proof (vsize_nonneg (at_page fst (lh_index (handle_at (as_store s) (ah_index h) p)) (refs_rest (as_store s) (ah_index h))));
    pose proof (vsize_nonneg (at_page fst (lh_index (handle_at (as_store s) (ah_index h) p)) L)) end. lia.
Qed.

Lemma tail_page_columns_need f : 0 < f -> tail_page_columns f (pages_for_tokens f) = need f (pages_for_tokens f - 1) /\
  0 < tail_page_columns f (pages_for_tokens f) <= kPagedKVPageSize.
Proof.
  intros Hf. pose proof (pages_for_tokens_spec f ltac:(lia)) as (? & ? & ?). unfold tail_page_columns, need, kPagedKVPageSize in *. lia.
Qed.

Lemma prefix_needs st i f g m :
  0 <= f <= g -> 0 < pages_for_tokens f -> m = pages_for_tokens f ->
  forall R', Forall2 (fun x y => fst x = fst y /\ snd x <= snd y)
    (prefix_tokens st i f m ++ R') ((prefix_tokens st i g (m - 1) ++ [(handle_at st i (m - 1), tail_page_columns f m)]) ++ R').
Proof.
  intros Hf Hm -> R'. apply Forall2_app.
  - replace (prefix_tokens st i f (pages_for_tokens f)) with (prefix_tokens st i f (pages_for_tokens f - 1 + 1)) by (f_equal; lia).
    rewrite prefix_snoc by lia. apply Forall2_app; [apply prefix_lower; lia|]. apply Forall2_cons_2; [|apply Forall2_nil_2]. cbn.
    split; [done|]. destruct (decide (f = 0)) as [->|]; [done|]. destruct (tail_page_columns_need f ltac:(lia)). lia.
  - induction R'; [apply Forall2_nil_2|]. by apply Forall2_cons_2.
Qed.

Section DestructiveInactive.
Context (L : list token) (s : asp) (h : KVAddressSpaceHandle) (a : Address) (f : Z) (t : asp) (k : kv) (ms : list LogicalKVPageHandle).
Hypothesis Hinv : inv L s.
Hypothesis Ha : denotes s h a.
Hypothesis Hiu : in_use a = false.
Hypothesis Hf : 0 <= f <= ad_committed_frontier a.
Hypothesis Hcut : cuttable s h f.
Hypothesis Hr : released L s (ah_index h) a (pages_for_tokens f) (pages_for_tokens f) t k ms.
Notation i := (ah_index h).
Notation target := (pages_for_tokens f).
Notation tail := (handle_at (as_store s) i (target - 1)).
Notation columns := (tail_page_columns f target).

(** The tail page is the one the guard saw. *)
Lemma tail_unchanged page :
  target <> 0 -> (ls_pages (kv_store k)).[lh_index tail] = Some page -> pg_occupied page = true -> columns <> pg_committed_columns page ->
  LogicalKv.can_destructive_truncate_inactive (kv_store k) tail columns = true.
Proof.
  intros Hz Hp Hocc Hne. destruct (rl_pins _ _ _ _ _ _ _ _ _ Hr _ _ Hp Hocc) as (page0 & Hp0 & _ & _ & _ & Hcol).
  destruct (Hcut Hz page0 Hp0) as [?|Hc]; [congruence|]. pose proof Hc as (q & Hv & Hq & _ & Hg)%page_test_true. rewrite Hp0 in Hq. injection Hq as <-.
  simp_bool. pose proof (target_bounds L s h a f Hinv Ha Hf) as Htb.
  assert (Hsame : (ls_pages (kv_store k)).[lh_index tail] = Some page0).
  { rewrite (rl_others _ _ _ _ _ _ _ _ _ Hr); [done|]. intros p Hpp. eapply sole_page; [done|done|lia|lia|done|done]. }
  unfold LogicalKv.can_destructive_truncate_inactive, page_test, page_valid in *. rewrite Hp0 in Hc. rewrite Hsame.
  pose proof (pi_this _ _ _ _ _ _ (rl_pages _ _ _ _ _ _ _ _ _ Hr)) as ->. exact Hc.
Qed.

Notation cut_tail :=
  ((if negb (target =? 0) then
      let columns := columns in
      tail ← membership i (target - 1);
      committed ← on_pages (committed_columns tail);
      if negb (columns =? committed) then on_pages (LogicalKv.destructive_truncate_inactive tail columns) else mret tt
    else mret tt) : P unit).

Lemma cut_tail_spec :
  wp cut_tail (fun _ t' => exists k', t' = at_change s k' i (set_page_count target a) ms /\
    pinv (ls_this (kv_store (as_kv s))) (length (kv_reservations (as_kv s))) (prefix_tokens (as_store s) i f target ++ refs_rest (as_store s) i ++ L)
      (actives_rest (as_store s) i) (transfers_of s) k') no_error t.
Proof.
  pose proof Hr as [Et Hown Hcells Hp Hpins Hoth]. rewrite Et. pose proof (target_bounds L s h a f Hinv Ha Hf) as Htb.
  pose proof (released_lower L s h a f Hf _ _ _ Hr) as Hlow. pose proof Ha as (Ha' & Hocc & _).
  destruct (Z.eqb_spec target 0) as [Hz|Hz]; cbn [negb]; [apply wp_ret; eauto|]. cbv zeta. wp_step.
  assert (Hcb : 0 <= cell (as_store s) i (target - 1) < vsize ms).
  { rewrite (proj1 Hown). eapply own_cell; [done|done|lia]. }
  apply wp_membership; [exact Hcb|].
  assert (Hh : handle_at (as_store (at_change s k i (set_page_count target a) ms)) i (target - 1) = tail).
  { unfold handle_at, cell in *. cbn. by rewrite Hcells by lia. }
  rewrite Hh. replace target with (target - 1 + 1) in Hp at 1 by lia. rewrite prefix_snoc in Hp by lia. rewrite <- app_assoc in Hp.
  assert (Hp' : pinv (ls_this (kv_store (as_kv s))) (length (kv_reservations (as_kv s)))
    ((tail, need (ad_committed_frontier a) (target - 1)) :: (prefix_tokens (as_store s) i (ad_committed_frontier a) (target - 1) ++ refs_rest (as_store s) i ++ L))
    (actives_rest (as_store s) i) (transfers_of s) k) by (by rewrite Permutation_middle).
  destruct (toks_ref _ _ _ _ (pi_toks _ _ _ _ _ _ Hp') _ _ ltac:(by left)) as (page & Hpage & Hv & _).
  wp_step. apply wp_read; [|cbn; by rewrite Hv]. intros page1 _ Hpage1. cbn in Hpage1. rewrite Hpage in Hpage1. injection Hpage1 as <-.
  destruct (Z.eqb_spec columns (pg_committed_columns page)) as [E|E]; cbn [negb]; [apply wp_ret; eauto|].
  apply wp_on_pages. cbn [as_kv at_change]. assert (Hpos : 0 < f).
  { destruct (decide (f = 0)) as [E0|]; [|lia]. rewrite E0 in Hz. done. }
  destruct (tail_page_columns_need f Hpos) as [_ Hcols].
  eapply wp_conseq; [eapply (truncate_inactive_lowers _ _ columns Hp')| |done].
  - unfold is_u32, U32_MAX, kPagedKVPageSize in *. lia.
  - eapply tail_unchanged; [done|exact Hpage|by eapply page_valid_occupied|done].
  - intros u k' Hk'. exists k'. split; [done|]. rewrite app_assoc. rewrite <- (app_nil_r L). rewrite (app_assoc _ L []).
    eapply (pinv_lower _ _ _ []); [|rewrite <- !app_assoc; eapply (prefix_needs _ _ _ (ad_committed_frontier a)); [lia|lia|done]].
    rewrite app_nil_r, <- app_assoc. cbn. by rewrite <- Permutation_middle.
Qed.
End DestructiveInactive.

Lemma destructive_inactive_inv L s h f :
  inv L s -> is_u32 f -> wp (destructive_truncate_inactive h f) (fun _ => inv L) (refused L) s.
Proof.
  intros Hinv Hu32. pose proof (proj1 Hu32) as Hf. unfold destructive_truncate_inactive. wp_step.
  eapply wp_conseq; [exact (can_destructive_inactive_spec L s h f Hinv Hf)| |done]. intros b s' [-> Hb]. destruct b; cbn [negb]; [|by apply wp_throw].
  destruct (Hb eq_refl) as [(a & Ha & Hiu & Hfc & Hu) Hcut]. wp_step. apply wp_require; [|done]. intros a0 Ha0 _.
  assert (a0 = a) as -> by (destruct Ha as [E _], Ha0 as [E0 _]; congruence). cbv zeta.
  pose proof (target_bounds L s h a f Hinv Ha ltac:(lia)) as Ht. pose proof Ha as (Ha' & Hocc & _).
  assert (Hact : ad_active a = false) by (unfold in_use in Hiu; by simp_bool).
  wp_step. eapply wp_conseq; [apply (release_suffix_loop L s (ah_index h) a (pages_for_tokens f)); try done; lia| |done].
  intros u t (k & ms & Hr). wp_step. eapply wp_conseq; [apply (cut_tail_spec L s h a f t k ms); done || lia| |done].
  intros u' t' (k' & -> & Hk'). wp_step. eapply wp_update_change; [exact Ha'|].
  assert (Hi : inv L (at_change s k' (ah_index h) (shortened a f 0) ms))
    by (eapply shortened_inv; [done|done|done|lia|lia|apply Hr|apply Hr|exact Hk']).
  eapply wp_conseq; [apply (rebuild_still L _ Hi)| |done]. intros u2 t2 Ht2. by eapply still_inv.
Qed.

(** * Occupying and vacating an address *)
Section FreeList.
Context (st : KVAddressSpaceStore) (i : Z) (a a' : Address).
Hypothesis Hst : astore_ok st.
Hypothesis Ha : (av_addresses st).[i] = Some a.
Hypothesis Hok : address_ok (av_page_capacity st) a'.

Lemma address_room : ad_occupied a = true -> av_free_count st < capacity st.
Proof.
  intros Hocc. pose proof (so_afree_count _ Hst). destruct (Z.lt_ge_cases (av_free_count st) (capacity st)) as [|Hge]; [done|exfalso].
  assert (Hsub : free_addresses st ⊆+ seqZ 0 (capacity st)).
  { apply NoDup_submseteq; [apply Hst|]. intros j (q & Hq & _)%(so_afree _ Hst). apply elem_of_seqZ.
    apply vget_Some_bounds in Hq. unfold capacity. lia. }
  apply submseteq_length_Permutation in Hsub.
  - assert (Hin : i ∈ free_addresses st).
    { rewrite Hsub. apply elem_of_seqZ. apply vget_Some_bounds in Ha. unfold capacity. lia. }
    apply (so_afree _ Hst) in Hin as (q & Hq & Hv). congruence.
  - pose proof (so_afree_size _ Hst) as Hs. unfold free_addresses, vsize in *. rewrite length_seqZ, length_take. lia.
Qed.

(** [free_[free_count_++] = index] for an address that was in use. *)
Lemma vacate_astore :
  ad_occupied a = true -> ad_occupied a' = false ->
  astore_ok (with_free ((av_free st).[av_free_count st <- i]) (av_free_count st + 1) (with_addresses ((av_addresses st).[i <- a']) st)).
Proof.
  intros Hocc Hvac. pose proof (address_room Hocc) as Hroom. destruct Hst as [H1 H2 H3 H4 H5 H6 H7 H8]. pose proof (vget_Some_bounds _ _ _ Ha) as Hb.
  assert (Hpush : take (Z.to_nat (av_free_count st + 1)) ((av_free st).[av_free_count st <- i]) = free_addresses st ++ [i]).
  { unfold free_addresses, vset, vsize in *. rewrite (proj2 (Z.leb_le 0 _)) by lia.
    replace (Z.to_nat (av_free_count st + 1)) with (S (Z.to_nat (av_free_count st))) by lia.
    erewrite take_S_r by (apply list_lookup_insert_eq; lia). by rewrite take_insert_ge. }
  assert (Hnew : i ∉ free_addresses st) by (intros (q & Hq & Hv)%H8; congruence).
  constructor; unfold capacity, free_addresses in *; cbn; rewrite ?vsize_vset, ?Hpush; try done; try lia.
  - intros j b. rewrite vget_vset. destruct (_ && _); [by intros [= <-]|apply H4].
  - apply NoDup_app. split; [done|]. split; [|apply NoDup_singleton]. intros j Hj ->%list_elem_of_singleton. done.
  - intros j [Hj| ->%list_elem_of_singleton]%elem_of_app.
    + destruct (H8 j Hj) as (b & Hbj & Hv). exists b. rewrite vget_vset_ne; [done|]. intros ->. done.
    + exists a'. by rewrite vget_vset_eq by done.
Qed.

(** [free_[--free_count_]] *)
Lemma occupy_astore :
  0 < av_free_count st -> (av_free st).[av_free_count st - 1] = Some i ->
  astore_ok (with_addresses ((av_addresses st).[i <- a']) (with_free (av_free st) (av_free_count st - 1) st)).
Proof.
  intros Hpos Hi. destruct Hst as [H1 H2 H3 H4 H5 H6 H7 H8]. pose proof (vget_Some_bounds _ _ _ Ha) as Hb.
  assert (Hpop : free_addresses st = take (Z.to_nat (av_free_count st - 1)) (av_free st) ++ [i]).
  { unfold free_addresses. unfold vget in Hi. rewrite (proj2 (Z.leb_le 0 _)) in Hi by lia.
    replace (Z.to_nat (av_free_count st)) with (S (Z.to_nat (av_free_count st - 1))) by lia. by apply take_S_r. }
  rewrite Hpop in H7, H8. apply NoDup_app in H7 as (Hnd & Hnew & _).
  constructor; unfold capacity, free_addresses in *; cbn; rewrite ?vsize_vset; try done; try lia.
  - intros j b. rewrite vget_vset. destruct (_ && _); [by intros [= <-]|apply H4].
  - intros j Hj. destruct (H8 j) as (b & Hbj & Hv); [apply elem_of_app; by left|]. exists b. rewrite vget_vset_ne; [done|].
    intros <-. apply (Hnew i Hj). by left.
Qed.
End FreeList.

(** Tokens of a store that differs in the free list. *)
Lemma refs_free l n st : refs_of (with_free l n st) = refs_of st.
Proof. done. Qed.
Lemma actives_free l n st : actives_of (with_free l n st) = actives_of st.
Proof. done. Qed.

(** An address without pages has no tokens. *)
Lemma no_pages st i a : ad_page_count a = 0 -> addr_refs st i a = [] /\ addr_actives st i a = [].
Proof.
  intros Hz. unfold addr_refs, addr_actives, address_tokens, address_handles. rewrite Hz. by destruct (ad_occupied a), (ad_active a).
Qed.

Lemma create_inactive_inv L s : inv L s -> wp create_inactive (fun _ => inv L) no_error s.
Proof.
  intros Hinv. pose proof (iv_store _ _ Hinv) as Hst. pose proof (so_afree_count _ Hst). unfold create_inactive. wp_step. wp_step. cbv zeta.
  destruct (Z.eqb_spec (av_free_count (as_store s)) 0) as [Hz|Hz]; [by apply wp_ret|].
  destruct (vget_is_Some (av_free (as_store s)) (av_free_count (as_store s) - 1)) as [i Hi]; [rewrite (so_afree_size _ Hst); lia|].
  wp_step. wp_step; [|by rewrite (proj2 (vat_Ok _ _ _) Hi) in *]. simp_res. simplify_eq.
  assert (Hin : i ∈ free_addresses (as_store s)).
  { unfold free_addresses. unfold vget in Hi. rewrite (proj2 (Z.leb_le 0 _)) in Hi by lia. eapply list_elem_of_lookup_2, lookup_take_Some.
    split; [exact Hi|]. lia. }
  destruct (so_afree _ Hst i Hin) as (a & Ha & Hvac). wp_step. eapply wp_address_ref; [exact Ha|]. rewrite Hvac.
  pose proof (so_address _ Hst _ _ Ha) as Haok. destruct (ao_vacant _ _ Haok Hvac) as [Hpc Hcf].
  wp_step. wp_step. wp_step. unfold put_address. wp_step. wp_step.
  set (a' := mkAddress _ _ _ _ _ _ true _).
  assert (Hact : ad_active a = false).
  { destruct (ad_active a) eqn:E; [|done]. pose proof (ao_active _ _ Haok E). congruence. }
  assert (Hok' : address_ok (av_page_capacity (as_store s)) a').
  { destruct Haok as [K1 K2 K3 K4 K5 K6]. constructor; cbn; done. }
  pose proof (inv_pages _ _ Hinv) as Hp. rewrite (refs_split _ _ _ Ha), (actives_split _ _ _ Ha) in Hp.
  destruct (no_pages (as_store s) i a Hpc) as [E1 E2]. rewrite E1, E2 in Hp.
  destruct (no_pages (as_store s) i a' Hpc) as [F1 F2].
  constructor; cbn; try apply Hinv.
  - change (with_addresses _ _) with (with_free (av_free (as_store s)) (av_free_count (as_store s) - 1)
      (with_addresses ((av_addresses (as_store s)).[i <- a']) (as_store s))).
    rewrite refs_free, actives_free, (refs_put _ _ _ Ha), (actives_put _ _ _ Ha), F1, F2. apply Hp.
  - eapply occupy_astore; [done|exact Ha|done|lia|done].
  - rewrite Forall_forall. intros x Hx. pose proof (iv_accounts _ _ Hinv) as Hacc. rewrite Forall_forall in Hacc. apply Hacc.
    exact (accounts_put s (at_change s (as_kv s) i a' (av_memberships (as_store s))) i a a' Ha eq_refl eq_refl eq_refl eq_refl (or_introl eq_refl) x Hx).
Qed.

(** * Releasing an address *)
Definition tokens_from (st : KVAddressSpaceStore) (i : Z) (a : Address) (p : Z) : list token :=
  map (fun p => (handle_at st i p, need (ad_committed_frontier a) p)) (seqZ p (ad_page_count a - p)).

Section ReleaseAddress.
Context (L : list token) (s : asp) (h : KVAddressSpaceHandle) (a : Address).
Hypothesis Hinv : inv L s.
Hypothesis Ha : denotes s h a.
Hypothesis Hiu : in_use a = false.
Hypothesis Hu : forall p, 0 <= p < ad_page_count a -> unpinned (as_kv s) (handle_at (as_store s) (ah_index h) p).
Notation st := (as_store s).
Notation i := (ah_index h).
Notation this := (ls_this (kv_store (as_kv s))).
Notation n := (length (kv_reservations (as_kv s))).

Record drained (p : Z) (t : asp) (k : kv) (ms : list LogicalKVPageHandle) : Prop := {
  dn_state : t = at_change s k i a ms;
  dn_own : own_cells st i ms;
  dn_cells : forall q, p <= q < ad_page_count a -> ms.[cell st i q] = (av_memberships st).[cell st i q];
  dn_pages : pinv this n (tokens_from st i a p ++ refs_rest st i ++ L) (actives_rest st i) (transfers_of s) k;
  dn_pins : pins_kept (as_kv s) k;
}.

Lemma release_page_step p t k ms :
  0 <= p < ad_page_count a -> drained p t k ms -> wp (release_page i p) (fun _ t' => exists k' ms', drained (p + 1) t' k' ms') no_error t.
Proof.
  intros Hp [-> Hown Hcells Hpg Hpins]. pose proof Ha as (Ha' & Hocc & _). pose proof (iv_store _ _ Hinv) as Hst.
  pose proof (ao_count _ _ (so_address _ Hst _ _ Ha')) as Hcnt.
  assert (Hcb : 0 <= cell st i p < vsize ms).
  { rewrite (proj1 Hown). eapply membership_bounds; [exact Hst|exact Ha'|lia]. }
  unfold release_page. wp_step. apply wp_membership; [exact Hcb|].
  assert (Hh : handle_at (as_store (at_change s k i a ms)) i p = handle_at st i p).
  { unfold handle_at, cell in *. cbn. by rewrite Hcells by lia. }
  rewrite Hh. wp_step. apply wp_on_pages. cbn [as_kv at_change].
  unfold tokens_from in Hpg. rewrite seqZ_cons in Hpg by lia. cbn [map app] in Hpg.
  eapply wp_conseq; [apply (release_takes _ _ Hpg); eapply unpinned_releasable; [exact Hpg| |eapply unpinned_kept; [apply Hu; lia|exact Hpins]]| |done].
  { rewrite !map_app. apply submseteq_inserts_l, submseteq_inserts_r. by apply actives_rest_sub. }
  intros ok k' (-> & Hk' & Hpk' & _). wp_step. wp_step; [|done]. apply wp_set_membership; [exact Hcb|].
  exists k', (ms.[cell st i p <- null_logical_handle]). constructor.
  - reflexivity.
  - apply own_cells_set; [done|lia].
  - intros q Hq. rewrite vget_vset_ne; [apply Hcells; lia|]. intros E. apply membership_inj in E as [_ E]; lia.
  - unfold tokens_from. replace (ad_page_count a - (p + 1)) with (Z.pred (ad_page_count a - p)) by lia. exact Hk'.
  - by eapply pins_kept_trans.
Qed.

Lemma release_pages_loop :
  wp (mfor (release_page i) (seqZ 0 (ad_page_count a))) (fun _ t => exists k ms, drained (ad_page_count a) t k ms) no_error s.
Proof.
  pose proof Ha as (Ha' & Hocc & _). pose proof (ao_count _ _ (so_address _ (iv_store _ _ Hinv) _ _ Ha')) as Hcnt.
  pose proof Hiu as Hiu0. unfold in_use in Hiu0. simp_bool.
  apply (wp_for_range _ (fun p t => exists k ms, drained p t k ms)); [lia| |].
  - exists (as_kv s), (av_memberships st). constructor; [|apply own_cells_refl|done| |apply pins_kept_refl].
    + unfold at_change, change. rewrite vset_id by done. by destruct s as [? ? [] ? ? ?].
    + pose proof (inv_pages _ _ Hinv) as Hp. rewrite (refs_split _ _ _ Ha'), (actives_split _ _ _ Ha') in Hp. unfold addr_refs, addr_actives in Hp.
      rewrite Hocc in Hp. match goal with H : ad_active a = false |- _ => rewrite H in Hp end. rewrite <- app_assoc in Hp. unfold tokens_from. by rewrite Z.sub_0_r.
  - intros p t Hp (k & ms & Hd). eapply release_page_step; [lia|exact Hd].
Qed.

Lemma drained_inv t k ms g :
  drained (ad_page_count a) t k ms ->
  let a' := mkAddress g 0 0 0 None None false false in
  inv L (mkAsp k (as_world s) (with_free ((av_free st).[av_free_count st <- i]) (av_free_count st + 1) (change st i a' ms))
           (as_activations s) (as_forks s) (as_snapshots s)).
Proof.
  intros [_ Hown _ Hp _] a'. pose proof Ha as (Ha' & Hocc & _). pose proof (iv_store _ _ Hinv) as Hst. destruct Hp as [K1 K2 K3 K4].
  pose proof (so_page_capacity _ Hst). assert (Hok : address_ok (av_page_capacity st) a') by (constructor; cbn; unfold U32_MAX; done || lia).
  destruct (no_pages (change st i a' ms) i a' eq_refl) as [F1 F2].
  constructor; cbn; try apply Hinv; try done.
  - rewrite K2. apply Hinv.
  - rewrite refs_free, actives_free, (change_refs _ _ a _ _ Hst Ha' Hown), (change_actives _ _ a _ _ Hst Ha' Hown), F1, F2.
    unfold tokens_from in K4. rewrite Z.sub_diag in K4. exact K4.
  - apply (cells_ok (with_free ((av_free st).[av_free_count st <- i]) (av_free_count st + 1) (with_addresses ((av_addresses st).[i <- a']) st)) ms);
      [by eapply vacate_astore|apply Hown].
  - rewrite Forall_forall. intros x Hx. pose proof (iv_accounts _ _ Hinv) as Hacc. rewrite Forall_forall in Hacc.
    eapply Nat.lt_le_trans; [apply Hacc|exact K3]. 
    exact (accounts_put s (at_change s k i a' ms) i a a' Ha' eq_refl eq_refl eq_refl eq_refl (or_intror eq_refl) x Hx).
Qed.
End ReleaseAddress.

Lemma can_release_spec L s h :
  inv L s -> wp (can_release h) (fun b s' => s' = s /\ (b = true -> exists a, denotes s h a /\ in_use a = false /\
    forall p, 0 <= p < ad_page_count a -> unpinned (as_kv s) (handle_at (as_store s) (ah_index h) p))) no_error s.
Proof.
  intros Hinv. apply wp_never_throws. wp_step. wp_step. destruct (address_valid _ h) eqn:Hv; cbn [negb]; [|by apply wp_ret].
  apply address_valid_denotes in Hv as [_ [a Ha]]. wp_step. eapply wp_address_ref; [apply Ha|].
  destruct (in_use a) eqn:Hg; [by apply wp_ret|].
  pose proof (can_release_pages_spec L s h a 0 no_error Hinv Ha ltac:(lia)) as Hc. rewrite Z.sub_0_r in Hc.
  eapply wp_conseq; [exact Hc| |done]. intros b s' [-> Hb]. split; [done|]. intros ->. exists a. auto.
Qed.

Lemma release_address_inv L s h a :
  inv L s -> denotes s h a -> in_use a = false ->
  (forall p, 0 <= p < ad_page_count a -> unpinned (as_kv s) (handle_at (as_store s) (ah_index h) p)) ->
  wp (release_address (ah_index h)) (fun _ => inv L) no_error s.
Proof.
  intros Hinv Ha Hiu Hu. pose proof Ha as (Ha' & Hocc & _). unfold release_address.
  pose proof (iv_store _ _ Hinv) as Hst. wp_step. eapply wp_address_ref; [exact Ha'|].
  wp_step. eapply wp_conseq; [by apply (release_pages_loop L s h a)| |done]. intros u t (k & ms & Hd).
  pose proof (dn_state _ _ _ _ _ _ _ _ Hd) as ->. wp_step. unfold put_address. wp_step. wp_step.
  set (a' := mkAddress _ 0 0 0 None None false false). unfold push_address. wp_step. wp_step. cbv zeta.
  pose proof (address_room _ _ _ Hst Ha' Hocc) as Hroom. pose proof (so_afree_count _ Hst). pose proof (so_addresses _ Hst).
  destruct (vget_is_Some (av_free (as_store s)) (av_free_count (as_store s))) as [x Hx]; [rewrite (so_afree_size _ Hst); lia|].
  cbn [as_store set_store with_addresses av_free av_free_count at_change change]. wp_step.
  wp_step; [|by rewrite (proj2 (vat_Ok _ _ _) Hx) in *]. wp_step.
  assert (Hi : inv L (mkAsp k (as_world s) (with_free ((av_free (as_store s)).[av_free_count (as_store s) <- ah_index h]) (av_free_count (as_store s) + 1)
     (change (as_store s) (ah_index h) a' ms)) (as_activations s) (as_forks s) (as_snapshots s))).
  { by eapply drained_inv. }
  match goal with |- wp _ _ _ ?t => replace t with (mkAsp k (as_world s)
     (with_free ((av_free (as_store s)).[av_free_count (as_store s) <- ah_index h]) (av_free_count (as_store s) + 1) (change (as_store s) (ah_index h) a' ms))
     (as_activations s) (as_forks s) (as_snapshots s)) end.
  2:{ unfold set_store, with_free, with_addresses, at_change, change. cbn. by rewrite vset_vset_eq, wrap32_small by (unfold U32_MAX in *; lia). }
 
  eapply wp_conseq; [apply (rebuild_still L _ Hi)| |done]. intros u2 t2 Ht2. by eapply still_inv.
Qed.

Lemma release_inv L s h : inv L s -> wp (release h) (fun _ => inv L) no_error s.
Proof.
  intros Hinv. apply wp_never_throws. wp_step. eapply wp_conseq; [by apply (can_release_spec L)| |done]. intros b s' [-> Hb].
  destruct b; cbn [negb]; [|by apply wp_ret]. destruct (Hb eq_refl) as (a & Ha & Hiu & Hu). wp_step.
  eapply wp_conseq; [by apply (release_address_inv L s h a)| |done]. intros u t Ht. by apply wp_ret.
Qed.

Lemma set_checkpoint_inv L s h f :
  inv L s -> is_u32 f -> wp (set_checkpoint_requirement h f) (fun _ => inv L) (refused L) s.
Proof.
  intros Hinv [Hf _]. unfold set_checkpoint_requirement. wp_step. apply wp_require; [|done]. intros a Ha Hv. wp_step. wp_step; [|done].
  simp_bool. wp_step. unfold put_address. wp_step. pose proof Ha as (Ha' & Hocc & _).
  assert (Hi : inv L (at_change s (as_kv s) (ah_index h) (set_checkpoint_frontier f a) (av_memberships (as_store s)))).
  { eapply inv_change; [exact Hinv|exact Ha'|apply own_cells_refl| |done| |by eapply accounts_put; [exact Ha'|done..|left]|apply Hinv|apply Hinv].
    - destruct (denotes_ok _ _ _ _ Hinv Ha) as [K1 K2 K3 K4 K5 K6]. constructor; cbn; try done; lia.
    - pose proof (inv_pages _ _ Hinv) as Hp. rewrite (refs_split _ _ _ Ha'), (actives_split _ _ _ Ha'), <- app_assoc in Hp. exact Hp. }
  eapply wp_conseq; [apply (rebuild_still L _ Hi)| |done]. intros u2 t2 Ht2. by eapply still_inv.
Qed.
