(* ===== verification/AddressActive.v ===== *)
(** Active address spaces keep the account of the references
    ([AddressRefs]): activation and deactivation, growth, commitment and
    destructive truncation. *)

From S2P Require Import Prelude Tensor Layout PagedKv ExecTable LogicalKv PageTokens AddressSpace AddressRefs.

Lemma wp_also {S B} (m : M S B) (Q F : B -> S -> Prop) E s :
  wp m Q E s -> (forall a s', m s = (s', Ok a) -> F a s') -> wp m (fun a s' => Q a s' /\ F a s') E s.
Proof. unfold wp. intros H Hf. destruct (m s) as [s' [a|e]]; [by split; [|apply Hf]|done]. Qed.

(** * Accounts *)
Section Accounts.
Context {this : Z} {n : nat} {R : list token} {A : list LogicalKVPageHandle} {T : list token} {s : kv}.
Hypothesis Hinv : pinv this n R A T s.

Lemma resize_kept k pages : is_u32 pages -> wp (kv_resize k pages) (fun _ => pinv this n R A T) (unchanged s) s.
Proof.
  intros Hu. apply wp_safe; [apply kv_resize_safe; [apply Hinv|done]|]. intros u s' E Hok.
  unfold kv_resize, mget, mlift, mput, mthrow, mbind, M_bind in E. destruct (kv_reservations s !! k) as [r|] eqn:Ek; [|done].
  destruct (resize_reservation _ r pages) as [[p r']|e]; [|done]. injection E as <- <-.
  apply (pinv_same_store Hinv); [done|done|]. cbn. rewrite length_insert. apply Hinv.
Qed.

Lemma release_account k : (k < n)%nat -> wp (release_reservation_object (Some k)) (fun _ => pinv this n R A T) no_error s.
Proof.
  intros Hk. pose proof (pi_ok _ _ _ _ _ _ Hinv) as [Hp Hs]. pose proof (pi_accounts _ _ _ _ _ _ Hinv).
  destruct (lookup_lt_is_Some_2 (kv_reservations s) k) as [r Hr]; [lia|]. destruct (client_reservation _ k r Hp Hr) as [Hro Hrp]. cbn in Hrp.
  unfold wp, release_reservation_object, mget, mlift, mput, mbind, M_bind. rewrite Hr.
  destruct (release_reservation (kv_pool s) (rs_pages r)) as [p|e] eqn:E.
  - destruct (client_step_release _ _ k r _ p Hp Hr E) as [_ Hc]. apply (pinv_same_store Hinv); [by split|done|]. cbn. by rewrite length_insert.
  - unfold release_reservation, throw_if in E. rewrite (proj2 (Z.ltb_ge _ _)) in E by lia. done.
Qed.

Lemma release_account_pages k :
  (k < n)%nat -> wp (release_reservation_object (Some k)) (fun _ s' => pinv this n R A T s' /\ kv_store s' = kv_store s) no_error s.
Proof.
  intros Hk. apply wp_also; [by apply release_account|]. intros u s' E. unfold release_reservation_object, mget, mlift, mput, mbind, M_bind in E.
  destruct (kv_reservations s !! k); [|done]. destruct (release_reservation _ _); [|done]. by injection E as <- <-.
Qed.

Lemma new_account : wp new_reservation (fun k s' => k = length (kv_reservations s) /\ pinv this (S k) R A T s') no_error s.
Proof.
  unfold wp, new_reservation. cbn. split; [done|]. pose proof (pi_ok _ _ _ _ _ _ Hinv) as [Hp Hs]. constructor; cbn; try apply Hinv.
  - split; [|done]. cbn. destruct Hp as [K1 K2 K3 K4 K5 K6]. constructor; cbn in *; try done.
    + apply Forall_app_2; [done|]. apply Forall_cons_2; [cbn; split; [done|lia]|apply Forall_nil_2].
    + rewrite map_app, zsum_app, K3. unfold zsum. cbn. lia.
  - rewrite length_app. cbn. lia.
Qed.
End Accounts.

(** * Tables *)
Lemma inv_set_world L s w :
  inv L s -> e_spec (w_table w) = e_spec (w_table (as_world s)) -> inv L (set_world w s).
Proof.
  intros [H1 H2 H3 H4 H5 H6 H7 H8] Hw. constructor; cbn; try done. unfold logical_page_capacity in *. by rewrite Hw.
Qed.

Lemma acquire_spec_kept r w : wp (acquire_row r) (fun _ w' => e_spec (w_table w') = e_spec (w_table w))
  (fun e w' => e_spec (w_table w') = e_spec (w_table w)) w.
Proof. unfold wp, acquire_row, acquire. repeat case_match; simplify_eq; done. Qed.

Lemma reset_row_spec_kept o w : wp (reset_row o) (fun _ w' => e_spec (w_table w') = e_spec (w_table w)) no_error w.
Proof.
  unfold wp, reset_row, mmodify. destruct o as [l|]; [|done]. unfold row_lease_release, release_row. cbn.
  repeat case_match; simplify_eq; done.
Qed.

Lemma fill_shadow_spec_kept {A} (resolve : A -> result Z) xs : forall offset w,
  let keep w' := e_spec (w_table w') = e_spec (w_table w) in
  wp (fill_shadow resolve offset xs) (fun _ => keep) (fun _ => keep) w.
Proof.
  induction xs as [|x xs IH]; intros offset w keep; [by apply wp_ret|]. cbn [fill_shadow]. wp_step. wp_step; [|done].
  unfold store_shadow. repeat wp_step; try done. eapply wp_conseq; [apply IH|done|done].
Qed.

Lemma publish_spec_kept pool h b hs w :
  let keep w' := e_spec (w_table w') = e_spec (w_table w) in
  wp (publish pool h b hs) (fun _ w' => keep w' /\ b + vsize hs <= logical_page_capacity (w_table w)) (fun _ => keep) w.
Proof.
  intros keep. unfold publish, publish_with. wp_step. wp_step. cbv zeta. wp_step. wp_step; [|done]. simp_bool. wp_step.
  eapply wp_conseq; [apply fill_shadow_spec_kept| |done]. intros u w1 Hw1. unfold publish_indices. destruct (_ =? 0); [apply wp_ret; split; [done|lia]|].
  repeat wp_step; try done. split; [done|lia].
Qed.

(** Publication changes the tables only. *)
Definition same_but_tables (s s' : asp) : Prop :=
  exists w, s' = set_world w s /\ e_spec (w_table w) = e_spec (w_table (as_world s)).

Lemma publish_row_kept s row b hs :
  row <> None ->
  wp (publish_row row b hs)
    (fun _ s' => same_but_tables s s' /\ b + vsize hs <= logical_page_capacity (w_table (as_world s)))
    (fun _ s' => same_but_tables s s') s.
Proof.
  intros Hrow. destruct row as [l|]; [|done]. unfold publish_row. wp_step. wp_step. apply wp_on_tables.
  eapply wp_conseq; [apply publish_spec_kept| |].
  - intros u w [Hw Hb]. split; [by exists w|done].
  - intros e w Hw. by exists w.
Qed.

Lemma inv_same_tables L s s' : inv L s -> same_but_tables s s' -> inv L s'.
Proof. intros H (w & -> & Hw). by apply inv_set_world. Qed.

(** A call that throws leaves the invariant, if the process goes on. *)
Definition thrown (L : list token) : error -> asp -> Prop := fun e s => is_exception e = true -> inv L s.

Lemma refused_thrown L e s : refused L e s -> thrown L e s.
Proof. by intros [_ ?] _. Qed.

Lemma no_error_thrown L e (s : asp) : no_error e s -> thrown L e s.
Proof. done. Qed.

Lemma page_handles_read i pages s E :
  (forall p, p ∈ pages -> 0 <= cell (as_store s) i p < vsize (av_memberships (as_store s))) ->
  (forall e, E e s) ->
  wp (page_handles i pages) (fun hs s' => s' = s /\ length hs = length pages) E s.
Proof.
  intros Hc He. induction pages as [|p pages IH]; [by apply wp_ret|]. unfold page_handles. cbn [mcollect]. wp_step. wp_step.
  apply wp_membership; [apply Hc; by left|]. apply wp_on_pages. unfold wp.
  pose proof (physical_reads (handle_at (as_store s) i p) (as_kv s)) as Hr.
  destruct (physical _ (as_kv s)) as [k [d|e]]; cbn in Hr; subst k; rewrite set_kv_id; [|apply He].
  fold (wp (mcollect (fun page => logical ← membership i page; on_pages (physical logical)) pages ≫= (fun ys => mret (d :: ys)))
    (fun hs s' => s' = s /\ length hs = length (p :: pages)) E s).
  wp_step. eapply wp_conseq; [apply IH; intros q Hq; apply Hc; by right| |done]. intros hs s' [-> Hl]. apply wp_ret. split; [done|]. cbn. by rewrite Hl.
Qed.

(** * Calls on the counters of one page *)

(** The shape of those calls. *)
Definition counter_call (h : LogicalKVPageHandle) (c : Page -> bool) (e : error) (g : Page -> Page) : K unit :=
  page ← LogicalKv.require h;
  _ ← mthrow_if (c page) e;
  put_page (lh_index h) (g page).

Lemma counter_run h c e g s page :
  page_valid (kv_store s) h = true -> (ls_pages (kv_store s)).[lh_index h] = Some page -> c page = false ->
  counter_call h c e g s = (set_pages ((ls_pages (kv_store s)).[lh_index h <- g page]) s, Ok tt).
Proof. intros Hv Hp Hc. unfold counter_call. rewrite (require_run _ _ _ _ Hv Hp). unfold mthrow_if, throw_if, mlift, mbind, M_bind. by rewrite Hc. Qed.

Lemma counter_others h c e g s s' u : counter_call h c e g s = (s', Ok u) -> others_kept s s' (lh_index h).
Proof. intros E. unfold counter_call in E. open_call. intros j Hj. by apply vget_vset_ne. Qed.

Lemma counter_pins h c e g s s' u :
  (forall page, pg_occupied (g page) = pg_occupied page /\ pg_source_pins (g page) = pg_source_pins page /\
     pg_destination_pinned (g page) = pg_destination_pinned page /\ pg_committed_columns (g page) = pg_committed_columns page) ->
  counter_call h c e g s = (s', Ok u) -> pins_kept s s'.
Proof.
  intros Hg E. unfold counter_call in E. open_call. intros j q Hq Hocc. cbn in Hq. rewrite vget_vset in Hq. destruct (_ && _) eqn:Ej.
  - injection Hq as <-. simp_bool. subst j. eexists. split; [eassumption|]. destruct (Hg x0) as (Ho & Hp & Hd & Hc). rewrite <- Ho. done.
  - by exists q.
Qed.

Lemma others_kept_trans s1 s2 s3 i : others_kept s1 s2 i -> others_kept s2 s3 i -> others_kept s1 s3 i.
Proof. intros H1 H2 j Hj. rewrite H2 by done. by apply H1. Qed.

Lemma others_kept_refl s i : others_kept s s i.
Proof. by intros j. Qed.

Lemma read_run {B} h (field : Page -> B) s page :
  page_valid (kv_store s) h = true -> (ls_pages (kv_store s)).[lh_index h] = Some page -> read_page h field s = (s, Ok (field page)).
Proof. intros Hv Hp. unfold read_page. by rewrite (require_run _ _ _ _ Hv Hp). Qed.

Section Handles.
Context {this : Z} {n : nat} {R : list token} {A : list LogicalKVPageHandle} {T : list token} {s : kv}.

(** The first reference makes the address the page's writer. *)
Definition writable (k : kv) (h : LogicalKVPageHandle) : Prop :=
  forall page, (ls_pages (kv_store k)).[lh_index h] = Some page -> pg_references page = 1 ->
    pg_writer_references page = 0 /\ pg_source_pins page = 0.

Lemma activate_handle_gives h :
  pinv this n R A T s -> page_test (kv_store s) h (fun page => pg_active_references page <? pg_references page) = true -> writable s h ->
  wp (activate_handle h) (fun _ s' => pinv this n R (h :: A) T s' /\ others_kept s s' (lh_index h)) no_error s.
Proof.
  intros Hinv Ht Hw. pose proof Ht as (page & Hv & Hp & Hocc & Hlt)%page_test_true. simp_bool. pose proof (vget_Some_bounds _ _ _ Hp) as Hb.
  unfold activate_handle. wp_step. eapply wp_run; [by apply read_run|]. wp_step.
  assert (Hretain : forall k, pinv this n R A T k -> others_kept s k (lh_index h) ->
    page_test (kv_store k) h (fun page => pg_active_references page <? pg_references page) = true ->
    wp (retain_active_reference h) (fun _ s' => pinv this n R (h :: A) T s' /\ others_kept s s' (lh_index h)) no_error k).
  { intros k Hk Hok Htk. apply wp_also; [by apply retain_active_gives|]. intros u s' E. eapply others_kept_trans; [exact Hok|].
    eapply (counter_others h (fun page => (pg_active_references page =? U32_MAX) || (pg_references page <=? pg_active_references page))); exact E. }
  destruct (Z.eqb_spec (pg_references page) 1) as [Hone|Hone]; [|apply wp_ret; apply Hretain; [done|apply others_kept_refl|done]].
  destruct (Hw page Hp Hone) as [Hwr Hpin].
  pose proof (counter_run h (fun page => negb (pg_references page =? 1) || negb (pg_source_pins page =? 0)) LogicError
    (set_protected_columns 0) s page Hv Hp ltac:(cbv beta; by rewrite Hone, Hpin)) as E1.
  set (s1 := set_pages _ s) in E1. set (page1 := set_protected_columns 0 page) in E1.
  assert (Hp1 : (ls_pages (kv_store s1)).[lh_index h] = Some page1) by (by apply vget_vset_eq).
  assert (Hv1 : page_valid (kv_store s1) h = true).
  { unfold page_valid in *. rewrite Hp1. rewrite Hp in Hv. exact Hv. }
  pose proof (counter_run h (fun page => true && negb (pg_writer_references page =? 0)) LogicError
    (set_writer_references 1) s1 page1 Hv1 Hp1 ltac:(cbn; by rewrite Hwr)) as E2.
  set (s2 := set_pages _ s1) in E2. set (page2 := set_writer_references 1 page1) in E2.
  assert (Hp2 : (ls_pages (kv_store s2)).[lh_index h] = Some page2) by (apply vget_vset_eq; cbn; by rewrite vsize_vset).
  pose proof (clear_protection_kept Hinv h) as H1. unfold wp in H1. change (clear_protection h s) with (counter_call h
    (fun page => negb (pg_references page =? 1) || negb (pg_source_pins page =? 0)) LogicError (set_protected_columns 0) s) in H1. rewrite E1 in H1.
  pose proof (set_writer_kept H1 h true) as H2. unfold wp in H2. change (set_writer h true s1) with (counter_call h
    (fun page => true && negb (pg_writer_references page =? 0)) LogicError (set_writer_references 1) s1) in H2. rewrite E2 in H2.
  wp_step. eapply wp_run; [exact E1|]. eapply wp_run; [exact E2|]. apply Hretain; [done| |].
  - eapply others_kept_trans; [by eapply counter_others|by eapply counter_others].
  - unfold page_test. rewrite Hp2. unfold page_valid in *. rewrite Hp2. rewrite Hp1 in Hv1.
    change (pg_occupied page2 && (pg_generation page2 =? lh_generation h)) with (pg_occupied page1 && (pg_generation page1 =? lh_generation h)).
    change (ls_this (kv_store s2)) with (ls_this (kv_store s1)). rewrite Hv1. cbn [negb]. by apply Z.ltb_lt.
Qed.

Lemma set_writer_false_run h :
  pinv this n R A T s -> page_valid (kv_store s) h = true ->
  wp (set_writer h false) (fun _ s' => pinv this n R A T s' /\ pins_kept s s') no_error s.
Proof.
  intros Hinv Hv. assert (exists page, (ls_pages (kv_store s)).[lh_index h] = Some page) as [page Hp].
  { unfold page_valid in Hv. simp_bool. destruct ((ls_pages (kv_store s)).[lh_index h]); [by eexists|done]. }
  apply wp_also; [|intros u s'; by apply (counter_pins h (fun page => false && _) LogicError (set_writer_references 0))].
  eapply wp_succeeds; [by apply (set_writer_kept Hinv)|]. exact (counter_run h (fun page => false && _) LogicError (set_writer_references 0) s page Hv Hp eq_refl).
Qed.

End Handles.

Lemma deactivate_handle_takes this n R A T s h :
  pinv this n R (h :: A) T s -> wp (deactivate_handle h) (fun _ s' => pinv this n R A T s' /\ pins_kept s s') no_error s.
Proof.
  intros Hinv. destruct (toks_active _ _ _ _ (pi_toks _ _ _ _ _ _ Hinv) h ltac:(by left)) as (page & Hp & Hv & _).
  unfold deactivate_handle. wp_step. eapply wp_run; [by apply read_run|]. wp_step.
  assert (Hrel : forall k, pinv this n R (h :: A) T k -> pins_kept s k ->
    wp (release_active_reference h) (fun _ s' => pinv this n R A T s' /\ pins_kept s s') no_error k).
  { intros k Hk Hpk. apply wp_also; [by apply release_active_takes|]. intros u s' E. eapply pins_kept_trans; [exact Hpk|].
    by apply (counter_pins h _ _ (fun page => set_active_references (wrap32 (pg_active_references page - 1)) page) _ _ u) in E. }
  destruct (_ =? 0); cbn [negb]; [apply wp_ret; apply Hrel; [done|apply pins_kept_refl]|].
  eapply wp_conseq; [exact (set_writer_false_run h Hinv Hv)| |done]. intros u k [Hk Hpk]. by apply Hrel.
Qed.

(** * Deactivation *)
Definition handles_from (st : KVAddressSpaceStore) (i : Z) (a : Address) (p : Z) : list LogicalKVPageHandle :=
  map (handle_at st i) (seqZ p (ad_page_count a - p)).

Lemma handles_from_cons st i a p : p < ad_page_count a -> handles_from st i a p = handle_at st i p :: handles_from st i a (p + 1).
Proof. intros Hp. unfold handles_from. rewrite seqZ_cons by lia. cbn [map]. do 2 f_equal. f_equal; lia. Qed.

(** Changing how an address is used. *)
Lemma inv_activity L s k h a row :
  inv L s -> denotes s h a ->
  pinv (ls_this (kv_store (as_kv s))) (length (kv_reservations (as_kv s))) (refs_of (as_store s) ++ L) (actives_rest (as_store s) (ah_index h))
    (transfers_of s) k ->
  inv L (at_change s k (ah_index h) (set_activity None row false a) (av_memberships (as_store s))).
Proof.
  intros Hinv Ha Hk. pose proof Ha as (Ha' & Hocc & _).
  eapply inv_change; [exact Hinv|exact Ha'|apply own_cells_refl| |done| |by eapply accounts_put; [exact Ha'|done..|right]|apply Hinv|apply Hinv].
  - destruct (denotes_ok _ _ _ _ Hinv Ha) as [K1 K2 K3 K4 K5 K6]. by constructor.
  - rewrite (refs_split _ _ _ Ha'), <- app_assoc in Hk. exact Hk.
Qed.

Lemma account_named L s h a k : inv L s -> denotes s h a -> ad_reservation a = Some k -> (k < length (kv_reservations (as_kv s)))%nat.
Proof.
  intros Hinv (Ha & _) Hk. pose proof (iv_accounts _ _ Hinv) as Hacc. rewrite Forall_forall in Hacc. apply Hacc.
  unfold accounts_of. apply elem_of_app. left. apply list_elem_of_omap. exists a. split; [by eapply vget_elem|done].
Qed.

Lemma actives_of_active s h a :
  denotes s h a -> ad_active a = true -> actives_of (as_store s) ≡ₚ handles_from (as_store s) (ah_index h) a 0 ++ actives_rest (as_store s) (ah_index h).
Proof.
  intros (Ha & _) Hact. rewrite (actives_split _ _ _ Ha). unfold addr_actives, handles_from, address_handles. by rewrite Hact, Z.sub_0_r.
Qed.

(** The page has at most one writer, so deactivation cannot fail. *)
Lemma deactivation_page_run L s h a p :
  inv L s -> denotes s h a -> 0 <= p < ad_page_count a -> wp (deactivation_page_ok (ah_index h) p) (fun _ s' => s' = s /\ True) (fun e s' => s' = s /\ False) s.
Proof.
  intros Hinv Ha Hp. pose proof (mapped_valid L s h a p Hinv Ha Hp) as Hv. unfold deactivation_page_ok. wp_step. apply wp_membership; [by eapply own_cell|].
  wp_step. apply wp_read; [|congruence]. intros page _ Hpage. wp_step. apply wp_guard. wp_step; [done|].
  simp_bool. pose proof (pk_writer _ (so_pages _ (ki_store _ _ (iv_ok _ _ Hinv)) _ _ Hpage)) as Hw. exfalso.
  unfold can_set_writer, page_test in *. rewrite Hv, Hpage in *. cbn [negb] in *. simp_bool. lia.
Qed.

Lemma deactivate_address_inv L s h a :
  inv L s -> denotes s h a -> ad_active a = true ->
  wp (deactivate_address (ah_index h) a) (fun _ s' => inv L s' /\ pins_kept (as_kv s) (as_kv s') /\
    as_store s' = change (as_store s) (ah_index h) (set_activity None None false a) (av_memberships (as_store s))) no_error s.
Proof.
  intros Hinv Ha Hact. pose proof Ha as (Ha' & Hocc & Hgen). pose proof (ao_count _ _ (denotes_ok _ _ _ _ Hinv Ha)) as Hcnt.
  destruct (ao_used _ _ (denotes_ok _ _ _ _ Hinv Ha) Hact) as [_ Hres]. destruct (ad_reservation a) as [kk|] eqn:Eres; [|done].
  unfold deactivate_address. wp_step.
  eapply wp_conseq; [apply wp_for_read with (F := fun _ => True) (G := fun _ => False)| |by intros e s' [_ []]].
  { intros p Hp%elem_of_seqZ. eapply deactivation_page_run; [done|done|lia]. }
  intros u s1 [-> _]. wp_step.
  eapply wp_conseq; [apply (wp_for_range _ (fun p t => exists k, t = set_kv k s /\ pins_kept (as_kv s) k /\
    pinv (ls_this (kv_store (as_kv s))) (length (kv_reservations (as_kv s))) (refs_of (as_store s) ++ L)
      (handles_from (as_store s) (ah_index h) a p ++ actives_rest (as_store s) (ah_index h)) (transfers_of s) k) no_error)| |done].
  - lia.
  - exists (as_kv s). split; [by rewrite set_kv_id|]. split; [apply pins_kept_refl|]. rewrite <- (actives_of_active s h a Ha Hact). by apply inv_pages.
  - intros p t Hp (k & -> & Hpk & Hk). unfold deactivate_page. wp_step. apply wp_membership; [apply (own_cell L s h a); [done|done|lia]|].
    apply wp_on_pages. rewrite handles_from_cons in Hk by lia. eapply wp_conseq; [apply (deactivate_handle_takes _ _ _ _ _ _ _ Hk)| |done].
    intros u1 k' [Hk' Hpk']. exists k'. split; [done|]. split; [by eapply pins_kept_trans|done].
  - intros u1 t (k & -> & Hpk & Hk). rewrite Z.add_0_l in Hk. unfold handles_from in Hk. rewrite Z.sub_diag in Hk. cbn [map app seqZ] in Hk.
    wp_step. apply wp_on_tables. eapply wp_conseq; [apply reset_row_spec_kept| |done]. intros u2 w Hw. cbn in Hw.
    wp_step. apply wp_on_pages. rewrite Eres. eapply wp_conseq; [apply (release_account_pages Hk); by eapply account_named| |done].
    intros u3 k' [Hk' Hsame]. unfold put_address. wp_step.
    pose proof (inv_set_world _ _ w (inv_activity L s k' h a None Hinv Ha Hk') Hw) as Hi. split; [exact Hi|]. split; [|done].
    cbn. intros j page Hp Ho. rewrite Hsame in Hp. by apply Hpk.
Qed.

Lemma deactivate_inv L s h : inv L s -> wp (deactivate h) (fun _ => inv L) (refused L) s.
Proof.
  intros Hinv. unfold deactivate. wp_step. apply wp_require_active; [|done..]. intros a kk l Ha Hact Hres Hrow.
  eapply wp_conseq; [by apply (deactivate_address_inv L)| |done]. by intros u s' [? _].
Qed.

Lemma require_active_run L s h a Q E :
  inv L s -> address_valid (as_store s) h = true -> denotes s h a -> ad_active a = true -> Q a s -> wp (require_active h) Q E s.
Proof.
  intros Hinv Hv Ha Hact Hq. destruct (ao_used _ _ (denotes_ok _ _ _ _ Hinv Ha) Hact) as [Hrow Hres]. unfold require_active. wp_step. unfold require.
  wp_step. wp_step. wp_step. wp_step; [|by rewrite Hv in Hguard]. eapply wp_address_ref; [apply Ha|]. wp_step. wp_step; [by wp_step|].
  rewrite Hact, (proj2 (has_true _) Hrow), (proj2 (has_true _) Hres) in Hguard0. done.
Qed.

(** * Activation *)
Lemma can_set_writer_writable s h : can_set_writer (kv_store (as_kv s)) h true = true -> writable (as_kv s) h.
Proof.
  intros (page & _ & Hp & _ & Hg)%page_test_true q Hq _. rewrite Hp in Hq. injection Hq as <-. by simp_bool.
Qed.

Lemma activation_page_ok_spec L s h a p :
  inv L s -> denotes s h a -> 0 <= p < ad_page_count a ->
  wp (activation_page_ok (ah_index h) p) (fun _ s' => s' = s /\ writable (as_kv s) (handle_at (as_store s) (ah_index h) p))
    (fun e s' => s' = s /\ is_exception e = true) s.
Proof.
  intros Hinv Ha Hp. unfold activation_page_ok. wp_step. apply wp_membership; [by eapply own_cell|].
  wp_step. apply wp_read; [|done]. intros page Hv Hpage. destruct (has _); cbn [negb]; [|by apply wp_throw].
  wp_step. apply wp_read; [|done]. intros page1 _ Hpage1. rewrite Hpage in Hpage1. injection Hpage1 as <-.
  wp_step. apply wp_guard. wp_step; [|done]. split; [done|]. intros q Hq Hone. rewrite Hpage in Hq. injection Hq as <-.
  rewrite Hone in Hguard. change (1 =? 1) with true in Hguard. cbn [andb] in Hguard. apply negb_false_iff in Hguard.
  by eapply (can_set_writer_writable s).
Qed.

(** The account an activation hands over. *)
Lemma activation_account s j act : as_activations s !! j = Some act -> forall k, ar_page_reservation act = Some k -> k ∈ accounts_of s.
Proof.
  intros Hj k Hk. unfold accounts_of. rewrite !elem_of_app. right. left. apply list_elem_of_omap. exists act. split; [by eapply list_elem_of_lookup_2|done].
Qed.

Lemma accounts_insert_None {B} (f : B -> option nat) (l : list B) j b : f b = None -> forall x, x ∈ omap f (<[j := b]> l) -> x ∈ omap f l.
Proof.
  intros Hf x (y & Hy & Ey)%list_elem_of_omap. apply list_elem_of_lookup in Hy as [m Hm]. apply list_elem_of_omap.
  destruct (decide (j = m)) as [->|Hne].
  - apply list_lookup_insert_Some in Hm as [(_ & -> & _)|[? _]]; [congruence|done].
  - rewrite list_lookup_insert_ne in Hm by done. exists y. split; [by eapply list_elem_of_lookup_2|done].
Qed.

Section CommitActivation.
Context (L : list token) (s : asp) (j : nat) (act : KVActivationReservation) (a : Address).
Hypothesis Hinv : inv L s.
Hypothesis Hj : as_activations s !! j = Some act.
Hypothesis Ha : denotes s (ar_address act) a.
Hypothesis Hrow : ar_row act <> None.
Hypothesis Hres : ar_page_reservation act <> None.
Hypothesis Hw : forall p, 0 <= p < ad_page_count a -> writable (as_kv s) (handle_at (as_store s) (ah_index (ar_address act)) p).
Notation st := (as_store s).
Notation i := (ah_index (ar_address act)).
Notation a' := (set_checkpoint_frontier 0 (set_activity (ar_page_reservation act) (ar_row act) true a)).
Notation spent := (mkActivation 0 (ar_address act) (ar_requested_entitlement act) (ar_activation_frontier act) None None).
Notation activated k := (mkAsp k (as_world s) (change st i a' (av_memberships st)) (<[j := spent]> (as_activations s)) (as_forks s) (as_snapshots s)).
Notation handles_to p := (map (handle_at st i) (seqZ 0 p)).

(** The pages before [p] are active. *)
Record activating (p : Z) (k : kv) : Prop := {
  av_pages : pinv (ls_this (kv_store (as_kv s))) (length (kv_reservations (as_kv s))) (refs_of st ++ L)
               (handles_to p ++ actives_rest st i) (transfers_of s) k;
  av_writable : forall q, p <= q < ad_page_count a -> writable k (handle_at st i q);
}.

Lemma activating_step p k :
  0 <= p < ad_page_count a -> activating p k ->
  wp (activate_handle (handle_at st i p)) (fun _ => activating (p + 1)) no_error k.
Proof.
  intros Hp [Hk Hwr]. pose proof Ha as (Ha' & Hocc & _). pose proof (iv_store _ _ Hinv) as Hst.
  set (R' := prefix_tokens st i (ad_committed_frontier a) p ++ tokens_from st i a (p + 1) ++ refs_rest st i ++ L).
  assert (HR : refs_of st ++ L ≡ₚ (handle_at st i p, need (ad_committed_frontier a) p) :: R').
  { rewrite (refs_split _ _ _ Ha'). unfold addr_refs, address_tokens. rewrite Hocc. unfold R', prefix_tokens, tokens_from.
    replace (ad_page_count a) with (p + (1 + (ad_page_count a - (p + 1)))) at 1 by lia. rewrite (seqZ_app 0 p), (seqZ_app (0 + p) 1) by lia.
    rewrite !map_app, <- !app_assoc. change (seqZ (0 + p) 1) with [0 + p]. cbn [map app]. rewrite !Z.add_0_l. symmetry. apply Permutation_middle. }
  rewrite HR in Hk.
  assert (Hsub : handles_to p ++ actives_rest st i ⊆+ map fst R').
  { unfold R'. rewrite !map_app. apply submseteq_app.
    - unfold prefix_tokens. by rewrite map_map.
    - apply submseteq_inserts_l, submseteq_inserts_r. by apply actives_rest_sub. }
  destruct (active_lt _ _ _ _ _ _ _ _ Hk Hsub) as (page & Hpage & Hv & Hlt).
  eapply wp_conseq; [apply (activate_handle_gives _ Hk); [|apply Hwr; lia]| |done].
  { unfold page_test. rewrite Hv, Hpage. by apply Z.ltb_lt. }
  intros u k' [Hk' Hoth]. constructor.
  - rewrite seqZ_app, map_app by lia. change (seqZ (0 + p) 1) with [0 + p]. rewrite Z.add_0_l, HR, <- app_assoc. cbn [map app].
    by rewrite <- Permutation_middle.
  - intros q Hq page' Hp' Hone. destruct (decide (lh_index (handle_at st i q) = lh_index (handle_at st i p))) as [E|Hne].
    + exfalso. rewrite <- HR, (refs_split _ _ _ Ha') in Hk'. unfold addr_refs in Hk'. rewrite Hocc in Hk'.
      pose proof (pt_references _ _ _ _ _ _ (toks_at _ _ _ _ (pi_toks _ _ _ _ _ _ Hk') _ _ Hp')) as Er. rewrite !at_page_app, !vsize_app in Er.
      pose proof (two_tokens st i (ad_committed_frontier a) (ad_page_count a) p q _ ltac:(lia) ltac:(lia) (eq_sym E) eq_refl) as H2.
      change (prefix_tokens _ _ _ _) with (address_tokens st i a) in H2.
      pose proof (vsize_nonneg (at_page fst (lh_index (handle_at st i q)) (refs_rest st i))).
      pose proof (vsize_nonneg (at_page fst (lh_index (handle_at st i q)) L)). lia.
    + rewrite Hoth in Hp' by done. by apply (Hwr q); [lia|..].
Qed.

Lemma activated_inv k : activating (ad_page_count a) k -> inv L (activated k).
Proof.
  intros [Hk _]. pose proof Ha as (Ha' & Hocc & _).
  eapply inv_change; [exact Hinv|exact Ha'|apply own_cells_refl| |done| | |apply Hinv|apply Hinv].
  - destruct (denotes_ok _ _ _ _ Hinv Ha) as [K1 K2 K3 K4 K5 K6]. constructor; cbn; try done; lia.
  - rewrite (refs_split _ _ _ Ha'), <- app_assoc in Hk. exact Hk.
  - intros x. unfold accounts_of. cbn. rewrite !elem_of_app. intros [Hx|[Hx|Hx]].
    + apply list_elem_of_omap in Hx as (b & Hb & Eb). apply elem_vget in Hb as (m & Hm & _). destruct (decide (m = i)) as [->|Hne].
      * rewrite vget_vset_eq in Hm by (by eapply vget_Some_bounds). injection Hm as <-. right. left. apply list_elem_of_omap. exists act.
        split; [by eapply list_elem_of_lookup_2|exact Eb].
      * rewrite vget_vset_ne in Hm by done. left. apply list_elem_of_omap. exists b. split; [by eapply vget_elem|done].
    + right. left. exact (accounts_insert_None ar_page_reservation _ j spent eq_refl x Hx).
    + right. by right.
Qed.
End CommitActivation.

Lemma publish_membership_inv L s i : inv L s -> wp (publish_membership i) (fun _ => inv L) (thrown L) s.
Proof.
  intros Hinv. unfold publish_membership. wp_step. unfold address_ref. wp_step. wp_step. wp_step; [|by intros ?].
  simp_res. wp_step. wp_step; [|by intros ?]. simp_bool. rewrite has_true in Hguard. wp_step.
  pose proof (ao_count _ _ (so_address _ (iv_store _ _ Hinv) _ _ ltac:(eassumption))).
  eapply wp_conseq; [apply (page_handles_read _ _ s (thrown L)); [|by intros e ?]| |done].
  { intros p Hp%elem_of_seqZ. eapply membership_bounds; [apply Hinv|eassumption|lia]. }
  intros hs s' [-> _]. eapply wp_conseq; [by apply publish_row_kept| |].
  - intros u s' [Hs' _]. by eapply inv_same_tables.
  - intros e s' Hs' _. by eapply inv_same_tables.
Qed.

Lemma commit_activation_inv L s j : inv L s -> wp (commit_activation j) (fun _ => inv L) (thrown L) s.
Proof.
  intros Hinv. unfold commit_activation, activation_ref. wp_step. wp_step. wp_step.
  destruct (as_activations s !! j) as [act|] eqn:Hj; [|by apply wp_throw].
  wp_step. wp_step. wp_step. cbv zeta. do 3 (wp_step; wp_step; [|by intros ?]). wp_step. apply wp_require; [|by intros ?]. intros a Ha Hv.
  do 2 (wp_step; wp_step; [|by intros ?]). simp_bool. rewrite has_true in *. wp_step. rename Ha into Hden. pose proof Hden as (Ha' & Hocc & _).
  pose proof (ao_count _ _ (denotes_ok _ _ _ _ Hinv Hden)) as Hcnt.
  eapply wp_conseq; [apply wp_for_read with (F := fun p => writable (as_kv s) (handle_at (as_store s) (ah_index (ar_address act)) p))
    (G := fun e => is_exception e = true)| |by intros e s' [-> ?] ?].
  { intros p Hp%elem_of_seqZ. eapply activation_page_ok_spec; [done|done|lia]. }
  intros u s1 [-> Hw]. wp_step. unfold put_address. wp_step. wp_step. unfold put_activation. wp_step. wp_step.
  eapply wp_conseq; [apply (wp_for_range _ (fun p t => exists k, t = mkAsp k (as_world s)
      (change (as_store s) (ah_index (ar_address act)) (set_checkpoint_frontier 0 (set_activity (ar_page_reservation act) (ar_row act) true a)) (av_memberships (as_store s)))
      (<[j := mkActivation 0 (ar_address act) (ar_requested_entitlement act) (ar_activation_frontier act) None None]> (as_activations s)) (as_forks s) (as_snapshots s) /\
      activating L s act a p k) no_error)| |done].
  - lia.
  - exists (as_kv s). split; [done|]. constructor.
    + pose proof (inv_pages _ _ Hinv) as Hp. rewrite (actives_split _ _ _ Ha') in Hp. unfold addr_actives in Hp.
      by match goal with H : ad_active a = false |- _ => rewrite H in Hp end.
    + intros q Hq. apply Hw. apply elem_of_seqZ. lia.
  - intros p t Hp (k & -> & Hk). unfold activate_page. wp_step. apply wp_membership; [apply (own_cell L s (ar_address act) a); [done|done|lia]|].
    apply wp_on_pages. eapply wp_conseq; [apply (activating_step L s act a Hinv Hden p k ltac:(lia) Hk)| |done].
    intros u1 k' Hk'. exists k'. done.
  - intros u1 t (k & -> & Hk). rewrite Z.add_0_l in Hk. apply publish_membership_inv.
    apply (activated_inv L s j act a); try done. by apply has_true.
Qed.

(** * Reservations of the caller *)
Lemma wp_fold {S A B} (f : B -> A -> M S B) (J : B -> S -> Prop) E l b s :
  J b s -> (forall x b t, x ∈ l -> J b t -> wp (f b x) J E t) -> wp (mfold f b l) J E s.
Proof.
  revert b s. induction l as [|x l IH]; intros b s Hj Hf; [by apply wp_ret|]. cbn [mfold]. wp_step.
  eapply wp_conseq; [apply Hf; [by left|done]| |done]. intros b' t Ht. apply IH; [done|]. intros y b2 t2 Hy. apply Hf. by right.
Qed.

(** The state with a fresh account [k]. *)
Definition held (L : list token) (k : nat) (s : asp) : Prop := inv L s /\ (k < length (kv_reservations (as_kv s)))%nat.

Lemma wp_on_throw_held L k {A} (m : P A) Q s :
  wp m Q (fun e s' => is_exception e = true -> held L k s') s ->
  wp (on_throw m (on_pages (release_reservation_object (Some k)))) Q (thrown L) s.
Proof.
  intros Hm. apply wp_on_throw. eapply wp_conseq; [exact Hm|done|]. intros e s' Hs'. destruct (is_exception e) eqn:He; [|intros ?; congruence].
  destruct (Hs' He) as [Hinv Hk]. apply wp_on_pages. eapply wp_conseq; [apply (release_account (inv_pages _ _ Hinv)); exact Hk| |done].
  intros u k' Hk'. intros _. by eapply inv_set_kv.
Qed.

Lemma new_reservation_held L s : inv L s -> wp (on_pages new_reservation) (fun k s' => held L k s' /\ exists kv', s' = set_kv kv' s) no_error s.
Proof.
  intros Hinv. apply wp_on_pages. eapply wp_conseq; [apply (new_account (inv_pages _ _ Hinv))| |done].
  intros k kv' [-> Hk]. split; [|by exists kv']. split; [|apply Hk]. eapply inv_set_kv; [exact Hinv|].
  destruct Hk as [K1 K2 K3 K4]. constructor; try done. lia.
Qed.

Lemma resize_held L k n s : held L k s -> is_u32 n ->
  wp (on_pages (kv_resize k n)) (fun _ s' => held L k s' /\ exists kv', s' = set_kv kv' s) (fun e s' => is_exception e = true -> held L k s') s.
Proof.
  intros [Hinv Hk] Hn. apply wp_on_pages. eapply wp_conseq; [apply (resize_kept (inv_pages _ _ Hinv) k n Hn)| |].
  - intros u kv' Hkv'. split; [|by exists kv']. split; [by eapply inv_set_kv|]. pose proof (pi_accounts _ _ _ _ _ _ Hkv'). cbn. lia.
  - intros e kv' Hu He. rewrite Hu by (by intros ->). by rewrite set_kv_id.
Qed.

Lemma acquire_held L k r s : held L k s ->
  wp (on_tables (acquire_row r)) (fun _ s' => held L k s' /\ exists w, s' = set_world w s) (fun e s' => is_exception e = true -> held L k s') s.
Proof.
  intros [Hinv Hk]. apply wp_on_tables. eapply wp_conseq; [apply acquire_spec_kept| |].
  - intros l w Hw. split; [|by exists w]. split; [by apply inv_set_world|done].
  - intros e w Hw _. split; [by apply inv_set_world|done].
Qed.

Lemma reset_row_inv L o s : inv L s -> wp (on_tables (reset_row o)) (fun _ s' => inv L s' /\ exists w, s' = set_world w s) no_error s.
Proof.
  intros Hinv. apply wp_on_tables. eapply wp_conseq; [apply reset_row_spec_kept| |done]. intros u w Hw. split; [by apply inv_set_world|by exists w].
Qed.

(** New names for accounts that exist. *)
Lemma inv_objects L s acts fks sns :
  inv L s -> transfers_of (mkAsp (as_kv s) (as_world s) (as_store s) acts fks sns) ≡ₚ transfers_of s ->
  (forall x, x ∈ accounts_of (mkAsp (as_kv s) (as_world s) (as_store s) acts fks sns) -> x ∈ accounts_of s \/ (x < length (kv_reservations (as_kv s)))%nat) ->
  Forall (fork_ok (av_page_capacity (as_store s))) fks -> Forall (snapshot_ok (av_page_capacity (as_store s))) sns ->
  inv L (mkAsp (as_kv s) (as_world s) (as_store s) acts fks sns).
Proof.
  intros [H1 H2 H3 H4 H5 H6 H7 H8] HT Hacc Hf Hs. constructor; cbn; try done; [by rewrite HT|].
  rewrite Forall_forall in *. intros x Hx. destruct (Hacc x Hx); auto.
Qed.

Lemma push_activation_inv L s act k :
  inv L s -> ar_page_reservation act = Some k -> (k < length (kv_reservations (as_kv s)))%nat ->
  inv L (set_activations (as_activations s ++ [act]) s).
Proof.
  intros Hinv Hr Hk. apply inv_objects; [done|done| |apply Hinv|apply Hinv]. intros x. unfold accounts_of. cbn. rewrite omap_app, !elem_of_app. cbn.
  rewrite Hr. intros [Hx|[[Hx|Hx]|Hx]]; [tauto|tauto| |tauto]. apply list_elem_of_singleton in Hx as ->. by right.
Qed.

Lemma put_activation_inv L s act j : inv L s -> ar_page_reservation act = None -> inv L (set_activations (<[j := act]> (as_activations s)) s).
Proof.
  intros Hinv Hr. apply inv_objects; [done|done| |apply Hinv|apply Hinv]. intros x. unfold accounts_of. cbn. rewrite !elem_of_app.
  intros [Hx|[Hx|Hx]]; [tauto| |tauto]. left. right. left. exact (accounts_insert_None _ _ _ _ Hr x Hx).
Qed.

Lemma missing_pages_read L s h a n E :
  inv L s -> denotes s h a -> n <= ad_page_count a -> (forall e, is_exception e = true -> E e s) ->
  wp (missing_pages (ah_index h) n) (fun m s' => s' = s /\ 0 <= m) E s.
Proof.
  intros Hinv Ha Hn HE. eapply wp_conseq; [apply (wp_fold _ (fun m s' => s' = s /\ 0 <= m)); [done|]| |done].
  - intros p m t Hp%elem_of_seqZ [-> Hm]. wp_step. apply wp_membership; [apply (own_cell L s h a); [done|done|lia]|].
    wp_step. apply wp_read; [|intros _; by apply HE]. intros page _ _. apply wp_ret. split; [done|]. destruct (has _); lia.
  - done.
Qed.

Lemma prepare_activation_inv L s h n row f :
  inv L s -> is_u32 n -> (forall x, f = Some x -> is_u32 x) -> wp (prepare_activation h n row f) (fun _ => inv L) (thrown L) s.
Proof.
  intros Hinv Hn Hf. unfold prepare_activation. wp_step. apply wp_require; [|by intros ?]. intros a Ha Hv. wp_step. wp_step. wp_step. wp_step; [|by intros ?].
  cbv zeta. apply orb_false_iff in Hguard as [_ Hguard]. pose proof (denotes_ok _ _ _ _ Hinv Ha) as Hok.
  assert (Hreq : match f with Some x => pages_for_tokens x | None => ad_page_count a end <= ad_page_count a).
  { pose proof (ao_frontier _ _ Hok). destruct f as [x|]; [|lia]. simp_bool. destruct (Hf x eq_refl) as [? _].
    pose proof (pages_for_tokens_mono x (ad_committed_frontier a) ltac:(lia)). lia. }
  set (required := match f with Some x => pages_for_tokens x | None => ad_page_count a end) in *.
  wp_step. eapply wp_conseq; [by apply (new_reservation_held L)| |done]. intros k s1 [H1 [kv1 ->]]. apply wp_on_throw_held. wp_step.
  eapply wp_conseq; [apply (missing_pages_read L _ h a required (fun e s' => is_exception e = true -> held L k s')); [apply H1|exact Ha|done|by intros ? ? ?]| |done].
  intros m s1 [-> Hm]. wp_step. wp_step; [|by intros ?]. simp_bool. wp_step.
  eapply wp_conseq; [apply (resize_held L k _ _ H1)| |done].
  { destruct Hn. split; [destruct (required <? n) eqn:E; simp_bool; lia|done]. }
  intros u s2 [H2 [kv2 ->]]. wp_step. eapply wp_conseq; [apply (acquire_held L k row _ H2)| |done].
  intros l s3 [H3 [w ->]]. wp_step. wp_step. wp_step. wp_step. wp_step. destruct H3 as [H3 Hk3]. by eapply push_activation_inv.
Qed.

Lemma destroy_activation_inv L s j : inv L s -> wp (destroy_activation j) (fun _ => inv L) (thrown L) s.
Proof.
  intros Hinv. unfold destroy_activation, activation_ref. wp_step. wp_step. wp_step.
  destruct (as_activations s !! j) as [act|] eqn:Hj; [|by apply wp_throw]. wp_step. wp_step.
  eapply wp_conseq; [by apply (reset_row_inv L)| |done]. intros u s1 [H1 [w ->]]. wp_step. apply wp_on_pages.
  destruct (ar_page_reservation act) as [k|] eqn:Hr.
  - eapply wp_conseq; [apply (release_account (inv_pages _ _ H1) k)| |done].
    { pose proof (iv_accounts _ _ Hinv) as Hacc. rewrite Forall_forall in Hacc. apply Hacc. by eapply activation_account. }
    intros u1 k' Hk'. unfold put_activation. wp_step. apply (put_activation_inv L (set_kv k' (set_world w s))); [by eapply inv_set_kv|done].
  - apply wp_ret. unfold put_activation. wp_step. rewrite set_kv_id. by apply put_activation_inv.
Qed.

(** * Release of an address that may be active *)
Lemma wp_mall_true {A} (f : A -> P bool) E l s :
  (forall x, x ∈ l -> wp (f x) (fun b s' => s' = s /\ b = true) E s) -> wp (mall f l) (fun b s' => s' = s /\ b = true) E s.
Proof.
  induction l as [|x l IH]; intros Hf; [by apply wp_ret|]. cbn [mall]. wp_step. eapply wp_conseq; [apply Hf; by left| |done].
  intros b s' [-> ->]. apply IH. intros y Hy. apply Hf. by right.
Qed.

(** A mapped page of an inactive address that nothing pins can be released. *)
Lemma inactive_releasable L s h a p :
  inv L s -> denotes s h a -> ad_active a = false -> 0 <= p < ad_page_count a ->
  unpinned (as_kv s) (handle_at (as_store s) (ah_index h) p) ->
  can_release_reference (kv_store (as_kv s)) (handle_at (as_store s) (ah_index h) p) false = true.
Proof.
  intros Hinv (Ha & Hocc & _) Hna Hp Hu. pose proof (iv_store _ _ Hinv) as Hst. pose proof (inv_pages _ _ Hinv) as Hk.
  rewrite (refs_split _ _ _ Ha), (actives_split _ _ _ Ha) in Hk. unfold addr_refs, addr_actives in Hk. rewrite Hocc, Hna, <- app_assoc in Hk.
  unfold address_tokens in Hk. replace (ad_page_count a) with (p + (1 + (ad_page_count a - (p + 1)))) in Hk by lia.
  rewrite (seqZ_app 0 p), (seqZ_app (0 + p) 1), !map_app, <- !app_assoc in Hk by lia. change (seqZ (0 + p) 1) with [0 + p] in Hk. rewrite Z.add_0_l in Hk.
  cbn [map app] in Hk. rewrite <- Permutation_middle in Hk. eapply unpinned_releasable; [exact Hk| |exact Hu].
  rewrite !map_app. do 2 apply submseteq_inserts_l. apply submseteq_inserts_r. by apply actives_rest_sub.
Qed.

Lemma release_runs L s h a :
  inv L s -> address_valid (as_store s) h = true -> denotes s h a -> in_use a = false ->
  (forall p, 0 <= p < ad_page_count a -> unpinned (as_kv s) (handle_at (as_store s) (ah_index h) p)) ->
  wp (release h) (fun b s' => b = true /\ inv L s') no_error s.
Proof.
  intros Hinv Hv Ha Hiu Hu. apply wp_never_throws. wp_step.
  assert (Hc : wp (can_release h) (fun b s' => s' = s /\ b = true) no_error s).
  { apply wp_never_throws. wp_step. wp_step. rewrite Hv. cbn [negb]. wp_step. eapply wp_address_ref; [apply Ha|]. rewrite Hiu. apply wp_mall_true.
    intros p Hp%elem_of_seqZ. wp_step. apply wp_membership; [eapply own_cell; [done|done|lia]|]. apply wp_guard. split; [done|].
    unfold in_use in Hiu. simp_bool. eapply inactive_releasable; [done|done|done|lia|]. apply Hu. lia. }
  eapply wp_conseq; [exact Hc| |done]. intros b s' [-> ->]. cbn [negb]. wp_step.
  eapply wp_conseq; [by apply (release_address_inv L s h a)| |done]. intros u t Ht. by apply wp_ret.
Qed.

Lemma release_after_deactivate_inv L s h : inv L s -> wp (release_after_deactivate h) (fun _ => inv L) no_error s.
Proof.
  intros Hinv. apply wp_never_throws. wp_step.
  assert (Hc : wp (can_release_after_deactivate h) (fun b s' => s' = s /\ (b = true -> address_valid (as_store s) h = true /\
    exists a, denotes s h a /\ (ad_active a = false -> in_use a = false) /\
      forall p, 0 <= p < ad_page_count a -> unpinned (as_kv s) (handle_at (as_store s) (ah_index h) p))) no_error s).
  { apply wp_never_throws. wp_step. wp_step. destruct (address_valid _ h) eqn:Hv; cbn [negb]; [|by apply wp_ret].
    pose proof Hv as [_ [a Ha]]%address_valid_denotes. wp_step. eapply wp_address_ref; [apply Ha|].
    destruct (ad_active a) eqn:Hact; cbn [negb]; cycle 1.
    { eapply wp_conseq; [by apply (can_release_spec L)| |done]. intros b s' [-> Hb]. split; [done|]. intros ->. split; [done|].
      destruct (Hb eq_refl) as (a1 & Ha1 & Hiu & Hu). exists a1. auto. }
    destruct (has (ad_row a)); cbn [negb]; [|by apply wp_ret].
    eapply wp_conseq; [apply wp_mall_read with (F := fun p => unpinned (as_kv s) (handle_at (as_store s) (ah_index h) p)) (E := no_error)| |done].
    - intros p Hp%elem_of_seqZ. wp_step. apply wp_membership; [eapply own_cell; [done|done|lia]|]. apply wp_guard. split; [done|].
      intros (page & _ & Hp1 & _ & Hg)%page_test_true. simp_bool. intros q Hq _. rewrite Hp1 in Hq. injection Hq as <-. done.
    - intros b s' [-> Hb]. split; [done|]. intros ->. split; [done|]. exists a. split; [done|]. split; [congruence|].
      intros p Hp. apply (Hb eq_refl). apply elem_of_seqZ. lia. }
  eapply wp_conseq; [exact Hc| |done]. intros b s' [-> Hb]. destruct b; cbn [negb]; [|by apply wp_ret].
  destruct (Hb eq_refl) as (Hv & a & Ha & Hiu & Hu). pose proof Ha as (Ha' & Hocc & Hgen). wp_step. eapply wp_address_ref; [exact Ha'|].
  wp_step. destruct (ad_active a) eqn:Hact.
  - apply wp_never_throws. unfold deactivate. wp_step. eapply require_active_run; [done|done|done|done|].
    eapply wp_conseq; [by apply (deactivate_address_inv L s h a)| |done]. intros u s1 (H1 & Hpk & Hst1).
    set (a1 := set_activity None None false a) in *.
    assert (Ha1 : denotes s1 h a1). { unfold denotes. rewrite Hst1. cbn. rewrite vget_vset_eq by (by eapply vget_Some_bounds). done. }
    wp_step. eapply wp_conseq; [apply (release_runs L s1 h a1); [done| |done|done|]| |done].
    + apply address_valid_denotes. rewrite Hst1. cbn. split; [by apply address_valid_denotes in Hv as [? _]|by exists a1].
    + intros p Hp. rewrite Hst1. eapply unpinned_kept; [|exact Hpk]. by apply Hu.
    + intros b s2 [-> H2]. wp_step. wp_step; [by wp_step|done].
  - wp_step. wp_step. eapply wp_conseq; [apply (release_runs L s h a); auto| |done]. intros b s2 [-> H2]. wp_step. wp_step; [by wp_step|done].
Qed.

(** * Growth *)
Lemma inv_resize L s h a k n :
  inv L s -> denotes s h a -> ad_reservation a = Some k -> is_u32 n -> wp (on_pages (resize_object (ad_reservation a) n)) (fun _ => inv L) (thrown L) s.
Proof.
  intros Hinv Ha Hk Hn. rewrite Hk. cbn [resize_object]. eapply wp_conseq; [apply (resize_held L k n s)| |].
  - split; [done|by eapply account_named].
  - done.
  - by intros u s' [[? _] _].
  - intros e s' He Hx. by apply He.
Qed.

Lemma resize_entitlement_inv L s h n : inv L s -> is_u32 n -> wp (resize_entitlement h n) (fun _ => inv L) (thrown L) s.
Proof.
  intros Hinv Hn. unfold resize_entitlement. wp_step. apply wp_require_active; [|by intros ?..]. intros a k l Ha Hact Hres _. wp_step. wp_step.
  wp_step. wp_step; [|by intros ?]. simp_bool. pose proof (ao_count _ _ (denotes_ok _ _ _ _ Hinv Ha)). destruct Hn.
  eapply inv_resize; [done|done|done|]. split; lia.
Qed.

Lemma release_growth_inv L s h : inv L s -> wp (release_growth_entitlement h) (fun _ => inv L) (thrown L) s.
Proof.
  intros Hinv. unfold release_growth_entitlement. wp_step. apply wp_require_active; [|by intros ?..]. intros a k l Ha Hact Hres _.
  eapply inv_resize; [done|done|done|]. by vm_compute.
Qed.

(** * Creation *)
Lemma activate_inv L s h n row : inv L s -> is_u32 n -> wp (activate h n row) (fun _ => inv L) (thrown L) s.
Proof.
  intros Hinv Hn. unfold activate. wp_step. apply wp_require; [|by intros ?]. intros a Ha _. wp_step. wp_step; [|by intros ?].
  wp_step. eapply wp_conseq; [by apply prepare_activation_inv| |done]. intros j s1 H1. wp_step. apply wp_on_throw.
  eapply wp_conseq; [by apply (commit_activation_inv L)| |].
  - intros u s2 H2. by apply destroy_activation_inv.
  - intros e s2 H2. destruct (is_exception e) eqn:He; [|intros ?; congruence].
    eapply wp_conseq; [apply (destroy_activation_inv L); by apply H2| |done]. by intros u s3 H3 _.
Qed.

Lemma create_active_inv L s n row : inv L s -> is_u32 n -> wp (create_active n row) (fun _ => inv L) (thrown L) s.
Proof.
  intros Hinv Hn. unfold create_active. wp_step. wp_step. destruct (_ || _); [by apply wp_ret|]. wp_step.
  eapply wp_conseq; [by apply (create_inactive_inv L)| |done]. intros [h|] s1 H1; [|by apply wp_ret]. wp_step. apply wp_on_throw.
  eapply wp_conseq; [by apply (activate_inv L)| |].
  - intros u s2 H2. by apply wp_ret.
  - intros e s2 H2. destruct (is_exception e) eqn:He; [|intros ?; congruence]. wp_step.
    eapply wp_conseq; [apply (release_inv L); by apply H2| |done]. intros b s3 H3. apply wp_ret. by intros ?.
Qed.

(** * Commitment *)
Section CommitFrontier.
Context (L : list token) (s : asp) (h : KVAddressSpaceHandle) (a : Address) (f : Z).
Hypothesis Hinv : inv L s.
Hypothesis Ha : denotes s h a.
Hypothesis Hf : ad_committed_frontier a <= f <= U32_MAX.
Hypothesis Hfit : pages_for_tokens f <= ad_page_count a.
Notation st := (as_store s).
Notation i := (ah_index h).
Notation this := (ls_this (kv_store (as_kv s))).
Notation n := (length (kv_reservations (as_kv s))).

(** The pages below [p] cover the new frontier. *)
Definition columns_at (p q : Z) : Z := if q <? p then need f q else need (ad_committed_frontier a) q.
Definition mixed (p : Z) : list token := map (fun q => (handle_at st i q, columns_at p q)) (seqZ 0 (ad_page_count a)).
Definition committing (p : Z) (k : kv) : Prop := pinv this n (mixed p ++ refs_rest st i ++ L) (actives_of st) (transfers_of s) k.

Lemma mixed_split p : 0 <= p < ad_page_count a -> exists M,
  mixed p ≡ₚ (handle_at st i p, need (ad_committed_frontier a) p) :: M /\ mixed (p + 1) ≡ₚ (handle_at st i p, need f p) :: M.
Proof.
  intros Hp. unfold mixed. replace (ad_page_count a) with (p + (1 + (ad_page_count a - (p + 1)))) by lia.
  rewrite (seqZ_app 0 p), (seqZ_app (0 + p) 1) by lia. change (seqZ (0 + p) 1) with [0 + p]. rewrite Z.add_0_l, !map_app. cbn [map app].
  exists (map (fun q => (handle_at st i q, columns_at p q)) (seqZ 0 p) ++ map (fun q => (handle_at st i q, columns_at p q)) (seqZ (p + 1) (ad_page_count a - (p + 1)))).
  rewrite <- !Permutation_middle. unfold columns_at. split.
  - rewrite (proj2 (Z.ltb_ge p p)) by lia. done.
  - rewrite (proj2 (Z.ltb_lt p (p + 1))) by lia. apply Permutation_skip. apply Permutation_app; apply reflexive_eq, map_ext_in;
      intros q Hq%list_elem_of_In%elem_of_seqZ; destruct (Z.ltb_spec q p), (Z.ltb_spec q (p + 1)); done || lia.
Qed.

Lemma committing_start : committing (ad_committed_frontier a / kPagedKVPageSize) (as_kv s).
Proof.
  pose proof Ha as (Ha' & Hocc & _). pose proof (inv_pages _ _ Hinv) as Hp. rewrite (refs_split _ _ _ Ha') in Hp. unfold addr_refs in Hp.
  rewrite Hocc, <- app_assoc in Hp. unfold committing. replace (mixed _) with (address_tokens st i a); [done|].
  apply map_ext_in. intros q Hq%list_elem_of_In%elem_of_seqZ. f_equal. unfold columns_at. destruct (Z.ltb_spec q (ad_committed_frontier a / kPagedKVPageSize)) as [Hlt|]; [|done].
  pose proof (ao_frontier _ _ (denotes_ok _ _ _ _ Hinv Ha)). pose proof (Z.mul_div_le (ad_committed_frontier a) kPagedKVPageSize ltac:(unfold kPagedKVPageSize; lia)).
  unfold need, kPagedKVPageSize in *. lia.
Qed.

(** What an exception in the loop leaves. *)
Lemma committing_inv p k : committing p k -> inv L (set_kv k s).
Proof.
  intros Hk. pose proof Ha as (Ha' & Hocc & _). eapply inv_set_kv; [exact Hinv|]. rewrite (refs_split _ _ _ Ha'). unfold addr_refs. rewrite Hocc, <- app_assoc.
  eapply pinv_lower; [exact Hk|]. unfold mixed, address_tokens. apply Forall2_fmap_2, Forall_Forall2_diag, Forall_forall. intros q _. cbn.
  split; [done|]. unfold columns_at. destruct (q <? p); [|lia]. apply need_mono. lia.
Qed.

Lemma committed_inv p k :
  (f - 1) / kPagedKVPageSize < p -> 0 < f -> committing p k ->
  inv L (at_change s k i (set_committed_frontier f a) (av_memberships st)).
Proof.
  intros Hp Hpos Hk. pose proof Ha as (Ha' & Hocc & _). pose proof (denotes_ok _ _ _ _ Hinv Ha) as Hok.
  eapply inv_change; [exact Hinv|exact Ha'|apply own_cells_refl| |done| |by eapply accounts_put; [exact Ha'|done..|left]|apply Hinv|apply Hinv].
  - destruct Hok as [K1 K2 K3 K4 K5 K6]. constructor; cbn; try done; try lia. intros E. congruence.
  - unfold committing in Hk. rewrite (actives_split _ _ _ Ha') in Hk. unfold addr_refs. cbn [as_store ad_occupied set_committed_frontier]. rewrite Hocc.
    eapply pinv_lower; [exact Hk|]. unfold mixed, address_tokens. apply Forall2_fmap_2, Forall_Forall2_diag, Forall_forall. intros q Hq%elem_of_seqZ. cbn.
    split; [done|]. unfold columns_at. destruct (Z.ltb_spec q p); [lia|].
    pose proof (Z.div_mod (f - 1) kPagedKVPageSize ltac:(unfold kPagedKVPageSize; lia)). pose proof (Z.mod_pos_bound (f - 1) kPagedKVPageSize ltac:(unfold kPagedKVPageSize; lia)).
    unfold need, kPagedKVPageSize in *. lia.
Qed.
End CommitFrontier.

(** A rejected commitment changes nothing. *)
Lemma commit_covers this n R A T k h c columns page :
  pinv this n ((h, c) :: R) A T k -> is_u32 columns -> page_valid (kv_store k) h = true -> (ls_pages (kv_store k)).[lh_index h] = Some page ->
  wp (commit_coverage h columns) (fun _ => pinv this n ((h, columns) :: R) A T) (fun e k' => e = InvalidArgument /\ k' = k) k.
Proof.
  intros Hk Hu Hv Hp. pose proof (commit_raises _ _ columns Hk Hu) as Hw. unfold commit_coverage, wp in *. rewrite (require_run h k page) in * by done.
  unfold mthrow_if, throw_if, mlift, mbind, M_bind in *. destruct (_ || _); [done|exact Hw].
Qed.

Lemma commit_frontier_inv L s h f : inv L s -> is_u32 f -> wp (commit_frontier h f) (fun _ => inv L) (refused L) s.
Proof.
  intros Hinv [Hf0 Hf1]. unfold commit_frontier. wp_step. apply wp_require_active; [|done..]. intros a kk l Ha Hact Hres Hrow.
  wp_step. wp_step; [|done]. simp_bool. destruct (Z.eqb_spec f (ad_committed_frontier a)) as [E|Hne]; [by apply wp_ret|]. cbv zeta.
  pose proof Ha as (Ha' & Hocc & _). pose proof (denotes_ok _ _ _ _ Hinv Ha) as Hok. pose proof (ao_frontier _ _ Hok). pose proof (ao_count _ _ Hok).
  assert (Hord : ad_committed_frontier a / kPagedKVPageSize <= (f - 1) / kPagedKVPageSize) by (apply Z.div_le_mono; unfold kPagedKVPageSize; lia).
  assert (Hlast : (f - 1) / kPagedKVPageSize = pages_for_tokens f - 1).
  { unfold pages_for_tokens. rewrite (proj2 (Z.eqb_neq f 0)) by lia. lia. }
  assert (Hlo : 0 <= ad_committed_frontier a / kPagedKVPageSize) by (apply Z.div_pos; unfold kPagedKVPageSize; lia).
  wp_step. eapply wp_conseq; [apply (wp_for_range _ (fun p t => exists k, t = set_kv k s /\ committing L s h a f p k) (refused L))| |done].
  - lia.
  - exists (as_kv s). split; [by rewrite set_kv_id|]. by apply committing_start.
  - intros p t Hp (k & -> & Hk). cbv zeta. wp_step. apply wp_membership; [apply (own_cell L s h a); [done|done|lia]|].
    pose proof (committing_inv L s h a f Hinv Ha ltac:(lia) p k Hk) as Hik.
    destruct (mixed_split s h a f p ltac:(lia)) as (M & E1 & E2). destruct (need_below f p ltac:(lia) ltac:(lia)) as [En Hpos]. rewrite <- En.
    unfold committing in Hk. rewrite E1 in Hk. cbn [app] in Hk. change (handle_at (as_store (set_kv k s)) (ah_index h) p) with (handle_at (as_store s) (ah_index h) p).
    assert (Hdone : forall k', pinv (ls_this (kv_store (as_kv s))) (length (kv_reservations (as_kv s)))
        ((handle_at (as_store s) (ah_index h) p, need f p) :: (M ++ refs_rest (as_store s) (ah_index h) ++ L)) (actives_of (as_store s)) (transfers_of s) k' ->
      exists k2, set_kv k' s = set_kv k2 s /\ committing L s h a f (p + 1) k2).
    { intros k' Hk'. exists k'. split; [done|]. unfold committing. rewrite E2. exact Hk'. }
    wp_step. apply wp_read; [|done]. intros page Hv Hpage. destruct (Z.ltb_spec (pg_committed_columns page) (need f p)) as [Hlt|Hge].
    + apply wp_on_pages. eapply wp_conseq; [eapply (commit_covers _ _ _ _ _ _ _ _ (need f p) page Hk); [|done|exact Hpage]| |].
      * unfold need, is_u32, U32_MAX, kPagedKVPageSize. lia.
      * intros u k' Hk'. by apply Hdone.
      * intros e k' [-> ->]. done.
    + apply wp_ret. eexists. split; [done|]. unfold committing. rewrite E2. cbn [app]. eapply pinv_columns; [exact Hk|exact Hpage|done].
  - intros u t (k & -> & Hk). unfold put_address. wp_step. eapply (committed_inv L s h a f); [done|done|lia|lia| | |exact Hk]; lia.
Qed.
