(* ===== verification/AddressGrowth.v ===== *)
(** The calls that grow and cut the address space of an active address
    (src/src/runtime/logical_kv_store.h, [ensure_mapped_to_tokens] and
    [destructive_truncate]) keep the invariant of [AddressRefs]. *)

From S2P Require Import Prelude Tensor Layout PagedKv ExecTable LogicalKv PageTokens AddressSpace AddressRefs AddressActive.

(** * Cutting an active address *)

(** The only reference of a page cannot be another address's active one. *)
Lemma sole_not_active this n h c R A T k page :
  pinv this n ((h, c) :: R) A T k -> A ⊆+ map fst R -> (ls_pages (kv_store k)).[lh_index h] = Some page -> pg_references page = 1 -> h ∉ A.
Proof.
  intros Hk Hsub Hp Hr Hin. pose proof (pt_references _ _ _ _ _ _ (toks_at _ _ _ _ (pi_toks _ _ _ _ _ _ Hk) _ _ Hp)) as E.
  rewrite (at_page_cons_eq fst _ (h, c)), vsize_cons in E by done. pose proof (at_page_sub (lh_index h) _ _ Hsub).
  assert (Hx : h ∈ at_page id (lh_index h) A) by (by apply elem_of_at_page). destruct (at_page id (lh_index h) A) as [|y l]; [by apply elem_of_nil in Hx|].
  rewrite vsize_cons in *. pose proof (vsize_nonneg l). lia.
Qed.

Lemma release_active_droppable this n R A T k h :
  pinv this n R (h :: A) T k -> can_dematerialize (kv_store k) h = true ->
  wp (release_active_reference h)
    (fun _ k' => pinv this n R A T k' /\ can_dematerialize (kv_store k') h = true /\ others_kept k k' (lh_index h)) no_error k.
Proof.
  intros Hk Hg. apply wp_also; [by apply release_active_takes|]. intros u k' E. split.
  - pose proof Hg as (page & Hv & Hp & Hocc & Hg')%page_test_true. unfold release_active_reference in E. open_call. same_page Hp.
    unfold can_dematerialize, page_test, page_valid in *. cbn. rewrite vget_vset_eq by (by eapply vget_Some_bounds). cbn. rewrite Hp in *. exact Hg.
  - by apply (counter_others h _ _ (fun page => set_active_references (wrap32 (pg_active_references page - 1)) page) _ _ u) in E.
Qed.

Section DestructiveTruncate.
Context (L : list token) (s : asp) (h : KVAddressSpaceHandle) (a : Address) (account : nat) (f : Z).
Hypothesis Hinv : inv L s.
Hypothesis Ha : denotes s h a.
Hypothesis Hact : ad_active a = true.
Hypothesis Hres : ad_reservation a = Some account.
Hypothesis Hf : 0 <= f <= ad_committed_frontier a.
Notation st := (as_store s).
Notation i := (ah_index h).
Notation this := (ls_this (kv_store (as_kv s))).
Notation n := (length (kv_reservations (as_kv s))).
Notation target := (pages_for_tokens f).

Definition prefix_handles (m : Z) : list LogicalKVPageHandle := map (handle_at st i) (seqZ 0 m).

Lemma prefix_handles_snoc m : 0 <= m -> prefix_handles (m + 1) = prefix_handles m ++ [handle_at st i m].
Proof. intros Hm. unfold prefix_handles. rewrite seqZ_app by lia. by rewrite map_app. Qed.

(** The pages from [m] on are gone. *)
Record dropped_pages (m : Z) (t : asp) (k : kv) (ms : list LogicalKVPageHandle) : Prop := {
  dp_state : t = at_change s k i (set_page_count m a) ms;
  dp_own : own_cells st i ms;
  dp_cells : forall p, 0 <= p < m -> ms.[cell st i p] = (av_memberships st).[cell st i p];
  dp_pages : pinv this n (prefix_tokens st i (ad_committed_frontier a) m ++ refs_rest st i ++ L) (prefix_handles m ++ actives_rest st i) (transfers_of s) k;
  dp_others : forall x, (forall p, m <= p < ad_page_count a -> lh_index (handle_at st i p) <> x) ->
    (ls_pages (kv_store k)).[x] = (ls_pages (kv_store (as_kv s))).[x];
}.

Lemma dropped_start : dropped_pages (ad_page_count a) s (as_kv s) (av_memberships st).
Proof.
  pose proof Ha as (Ha' & Hocc & _). constructor; try done.
  - unfold at_change, change, set_page_count. rewrite vset_id by (rewrite Ha'; by destruct a). by destruct s as [? ? [] ? ? ?].
  - apply own_cells_refl.
  - pose proof (inv_pages _ _ Hinv) as Hp. rewrite (refs_split _ _ _ Ha'), (actives_split _ _ _ Ha') in Hp.
    unfold addr_refs, addr_actives in Hp. rewrite Hocc, Hact in Hp. by rewrite <- app_assoc in Hp.
Qed.

Lemma prefix_actives_sub m :
  prefix_handles m ++ actives_rest st i ⊆+ map fst (prefix_tokens st i (ad_committed_frontier a) m ++ refs_rest st i ++ L).
Proof.
  rewrite !map_app. unfold prefix_tokens. rewrite map_map. apply submseteq_app; [done|].
  apply submseteq_inserts_r, actives_rest_sub, Hinv.
Qed.

(** A page whose test looks at one descriptor that no dropped page names. *)
Lemma guard_kept m t k ms p test :
  0 <= p < m -> m <= ad_page_count a -> dropped_pages m t k ms -> page_test (kv_store (as_kv s)) (handle_at st i p) test = true ->
  (forall page, test page = true -> pg_references page = 1) -> page_test (kv_store k) (handle_at st i p) test = true.
Proof.
  intros Hp Hm Hd Hg Hone. pose proof Hg as (page & Hv & Hpage & _ & Ht)%page_test_true.
  assert (E : (ls_pages (kv_store k)).[lh_index (handle_at st i p)] = Some page).
  { rewrite (dp_others _ _ _ _ Hd); [done|]. intros q Hq. eapply (sole_page L s h a p q page); [done|done|lia|lia|done|by apply Hone]. }
  unfold page_test, page_valid in *. rewrite Hpage in Hg. rewrite E, (pi_this _ _ _ _ _ _ (dp_pages _ _ _ _ Hd)). exact Hg.
Qed.

Hypothesis Hready : forall p, target <= p < ad_page_count a -> can_dematerialize (kv_store (as_kv s)) (handle_at st i p) = true.

Lemma dematerialize_sole page : ((pg_references page =? 1) && (pg_writer_references page =? 1) && (pg_source_pins page =? 0) &&
    negb (pg_destination_pinned page) && negb (has (pg_host_replica page)) && has (pg_device_replica page)) = true -> pg_references page = 1.
Proof. intros H. by simp_bool. Qed.

Lemma drop_page_step m t k ms :
  target <= m -> 0 <= m < ad_page_count a -> dropped_pages (m + 1) t k ms ->
  wp (drop_active_page i (ad_reservation a) m) (fun _ t' => exists k' ms', dropped_pages m t' k' ms') no_error t.
Proof.
  intros Hm Hm' Hd. pose proof Hd as [-> Hown Hcells Hp Ho]. pose proof Ha as (Ha' & Hocc & _). pose proof (iv_store _ _ Hinv) as Hst.
  pose proof (ao_count _ _ (so_address _ Hst _ _ Ha')) as Hcnt. unfold drop_active_page. rewrite Hres.
  wp_step. eapply wp_update_change; [exact Ha'|]. wp_step.
  assert (Hcb : 0 <= cell st i m < vsize ms) by (rewrite (proj1 Hown); eapply membership_bounds; [exact Hst|exact Ha'|lia]).
  apply wp_membership; [exact Hcb|]. wp_step. apply wp_set_membership; [exact Hcb|]. wp_step. apply wp_on_pages. cbn [as_kv at_change set_store].
  assert (Hh : handle_at (as_store (at_change s k i (set_page_count m (set_page_count (m + 1) a)) ms)) i m = handle_at st i m).
  { unfold handle_at. cbn. unfold cell in *. cbn. rewrite Hcells by lia. done. }
  rewrite Hh. rewrite prefix_snoc, prefix_handles_snoc, <- !app_assoc in Hp by lia.
  assert (Hp' : pinv this n ((handle_at st i m, need (ad_committed_frontier a) m) :: (prefix_tokens st i (ad_committed_frontier a) m ++ refs_rest st i ++ L))
     (handle_at st i m :: (prefix_handles m ++ actives_rest st i)) (transfers_of s) k)
    by (by rewrite (Permutation_middle (prefix_tokens _ _ _ m)), (Permutation_middle (prefix_handles m))).
  assert (Hg : can_dematerialize (kv_store k) (handle_at st i m) = true)
    by (eapply (guard_kept (m + 1)); [lia|lia|exact Hd|apply Hready; lia|apply dematerialize_sole]).
  eapply wp_conseq; [exact (release_active_droppable _ _ _ _ _ _ _ Hp' Hg)| |done]. intros u k1 (Hk1 & Hg1 & Ho1).
  apply wp_on_pages. cbn [as_kv set_kv]. pose proof Hg1 as (page & Hv1 & Hp1 & _ & Hone)%page_test_true. apply dematerialize_sole in Hone.
  eapply wp_conseq; [apply (dematerialize_takes _ _ account Hk1 Hg1)| |done].
  - eapply account_named; [exact Hinv|exact Ha|exact Hres].
  - eapply sole_not_active; [exact Hk1|apply prefix_actives_sub|exact Hp1|exact Hone].
  - intros u' k' [Hk' Ho2]. exists k', (ms.[cell st i m <- null_logical_handle]). constructor.
    + reflexivity.
    + apply own_cells_set; [done|lia].
    + intros p Hpp. rewrite vget_vset_ne; [by apply Hcells; lia|]. intros E. apply membership_inj in E as [_ E]; lia.
    + exact Hk'.
    + intros x Hx. assert (x <> lh_index (handle_at st i m)) by (intros ->; by apply (Hx m); [lia|]).
      rewrite Ho2, Ho1 by done. apply Ho. intros p Hpp. apply Hx. lia.
Qed.

Lemma drop_pages_loop :
  0 <= target <= ad_page_count a ->
  wp (mfor (drop_active_page i (ad_reservation a)) (suffix_pages target (ad_page_count a))) (fun _ t => exists k ms, dropped_pages target t k ms) no_error s.
Proof.
  intros Ht. unfold suffix_pages. apply (wp_for_down _ (fun p t => exists k ms, dropped_pages p t k ms)); [lia| |].
  - exists (as_kv s), (av_memberships st). replace (target + (ad_page_count a - target)) with (ad_page_count a) by lia. apply dropped_start.
  - intros p t Hp (k & ms & Hd). eapply drop_page_step; [lia|lia|exact Hd].
Qed.

(** The state after the tail is cut. *)
Definition cut_pages (t : asp) (ms : list LogicalKVPageHandle) : Prop := exists k,
  t = at_change s k i (set_page_count target a) ms /\
  pinv this n (prefix_tokens st i f target ++ refs_rest st i ++ L) (prefix_handles target ++ actives_rest st i) (transfers_of s) k.

Lemma cut_active_tail t k ms :
  0 <= target <= ad_page_count a -> dropped_pages target t k ms ->
  (target <> 0 -> can_destructive_truncate (kv_store (as_kv s)) (handle_at st i (target - 1)) (tail_page_columns f target) = true) ->
  wp ((if negb (target =? 0) then
         logical ← membership i (target - 1);
         on_pages (LogicalKv.destructive_truncate logical (tail_page_columns f target))
       else mret tt) : P unit) (fun _ t' => cut_pages t' ms) no_error t.
Proof.
  intros Ht Hd Hcut. pose proof Hd as [Et Hown Hcells Hp _].
  destruct (Z.eqb_spec target 0) as [Hz|Hz]; cbn [negb].
  - apply wp_ret. exists k. split; [done|]. eapply pinv_lower; [exact Hp|]. apply prefix_lower. lia.
  - rewrite Et. wp_step. apply wp_membership; [cbn; rewrite (proj1 Hown); eapply own_cell; [exact Hinv|exact Ha|lia]|].
    assert (Hh : handle_at (as_store (at_change s k i (set_page_count target a) ms)) i (target - 1) = handle_at st i (target - 1)).
    { unfold handle_at, cell in *. cbn. by rewrite Hcells by lia. }
    rewrite Hh. replace target with (target - 1 + 1) in Hp at 1 by lia. rewrite prefix_snoc, <- app_assoc in Hp by lia.
    assert (Hp' : pinv this n ((handle_at st i (target - 1), need (ad_committed_frontier a) (target - 1)) ::
        (prefix_tokens st i (ad_committed_frontier a) (target - 1) ++ refs_rest st i ++ L)) (prefix_handles target ++ actives_rest st i) (transfers_of s) k)
      by (by rewrite Permutation_middle).
    apply wp_on_pages. cbn [as_kv at_change].
    assert (Hpos : 0 < f) by (destruct (decide (f = 0)) as [E0|]; [rewrite E0 in Hz; done|lia]).
    destruct (tail_page_columns_need f Hpos) as [_ Hcols].
    eapply wp_conseq; [eapply (truncate_lowers _ _ (tail_page_columns f target) Hp')| |done].
    + unfold is_u32, U32_MAX, kPagedKVPageSize in *. lia.
    + eapply (guard_kept target); [lia|lia|exact Hd|by apply Hcut|]. intros page Hg. by simp_bool.
    + intros u k' Hk'. exists k'. split; [done|]. rewrite app_assoc. rewrite <- (app_nil_r L). rewrite (app_assoc _ L []).
      eapply (pinv_lower _ _ _ []); [|rewrite <- !app_assoc; eapply (prefix_needs _ _ _ (ad_committed_frontier a)); [lia|lia|done]].
      rewrite app_nil_r, <- app_assoc. cbn. by rewrite <- Permutation_middle.
Qed.

Lemma cut_inv k ms :
  ad_checkpoint_frontier a <= f ->
  0 <= target <= ad_page_count a -> own_cells st i ms ->
  (forall p, 0 <= p < target -> ms.[cell st i p] = (av_memberships st).[cell st i p]) ->
  pinv this n (prefix_tokens st i f target ++ refs_rest st i ++ L) (prefix_handles target ++ actives_rest st i) (transfers_of s) k ->
  inv L (at_change s k i (set_committed_frontier f (set_page_count target a)) ms).
Proof.
  intros Hck Ht Hown Hcells Hk. pose proof Ha as (Ha' & Hocc & _). pose proof (denotes_ok _ _ _ _ Hinv Ha) as Hok. destruct Hok as [K1 K2 K3 K4 K5 K6].
  eapply inv_change; [exact Hinv|exact Ha'|exact Hown| |done| |by eapply accounts_put; [exact Ha'|done..|left]|apply Hinv|apply Hinv].
  - constructor; cbn; try done; lia || congruence.
  - unfold addr_refs, addr_actives. cbn [as_store at_change ad_occupied ad_active set_committed_frontier set_page_count]. rewrite Hocc, Hact.
    rewrite (change_tokens _ _ _ _ target Hcells), (change_handles _ _ _ _ target Hcells) by done. exact Hk.
Qed.
End DestructiveTruncate.

Lemma destructive_truncate_inv L s h f :
  inv L s -> is_u32 f -> (forall a, denotes s h a -> ad_checkpoint_frontier a <= f) ->
  wp (destructive_truncate h f) (fun _ => inv L) (refused L) s.
Proof.
  intros Hinv [Hf0 _] Hck. unfold destructive_truncate. wp_step. apply wp_require_active; [|done..]. intros a kk l Ha Hact Hres Hrow. cbv zeta.
  wp_step. wp_step; [|done]. simp_bool. destruct (_ && _); [by apply wp_ret|].
  pose proof (target_bounds L s h a f Hinv Ha ltac:(lia)) as Ht. set (target := pages_for_tokens f) in *.
  set (ready := fun p => can_dematerialize (kv_store (as_kv s)) (handle_at (as_store s) (ah_index h) p) = true).
  wp_step. eapply wp_conseq; [apply (wp_for_range _ (fun p t => t = s /\ forall q, target <= q < p -> ready q) (refused L))| |done].
  - lia.
  - split; [done|]. intros q Hq. lia.
  - intros p t Hp [-> Hq]. wp_step. apply wp_membership; [eapply own_cell; [done|done|lia]|]. wp_step. apply wp_guard. wp_step; [|done].
    simp_bool. split; [done|]. intros q Hqq. destruct (decide (q = p)) as [->|]; [done|]. apply Hq. lia.
  - intros u t [-> Hready]. wp_step.
    assert (Htail : wp ((if negb (target =? 0) then
        logical ← membership (ah_index h) (target - 1);
        ready ← page_guard (fun st => can_destructive_truncate st logical (tail_page_columns f target));
        mthrow_if (negb ready) LogicError else mret tt) : P unit)
      (fun _ t => t = s /\ (target <> 0 -> can_destructive_truncate (kv_store (as_kv s)) (handle_at (as_store s) (ah_index h) (target - 1)) (tail_page_columns f target) = true))
      (refused L) s).
    { destruct (Z.eqb_spec target 0) as [Hz|Hz]; cbn [negb]; [by apply wp_ret|]. wp_step. apply wp_membership; [eapply own_cell; [done|done|lia]|].
      wp_step. apply wp_guard. wp_step; [|done]. by simp_bool. }
    eapply wp_conseq; [exact Htail| |done]. intros u' t [-> Hcut]. wp_step.
    eapply wp_conseq; [apply (drop_pages_loop L s h a kk f); try done; intros p Hp; apply Hready; lia| |done].
    intros u2 t (k & ms & Hd). wp_step. eapply wp_conseq; [apply (cut_active_tail L s h a f Hinv Ha ltac:(lia) t k ms Ht Hd Hcut)| |done].
    intros u3 t' (k' & -> & Hk'). eapply wp_update_change; [apply Ha|]. eapply (cut_inv L s h a f); try done; try lia; try apply Hd. by apply Hck.
Qed.

(** * Mapping further pages *)

(** Cells that no page uses, and the calls on them. *)
Definition at_cells (s : asp) (k : kv) (ms : list LogicalKVPageHandle) : asp := set_store (with_memberships ms (as_store s)) (set_kv k s).

Lemma null_cell_dead L s c h :
  inv L s -> (av_memberships (as_store s)).[c] = Some h -> logical_handle_valid h = false -> dead_cell (as_store s) c.
Proof.
  intros Hinv Hc Hh j a p Ha Hp <-. unfold logical_handle_valid in Hh. simp_bool.
  destruct (ad_occupied a) eqn:Hocc; [|destruct (ao_vacant _ _ (so_address _ (iv_store _ _ Hinv) _ _ Ha) Hocc); lia].
  pose proof (token_in (as_store s) j a p Ha Hocc Hp) as Hin.
  destruct (toks_ref _ _ _ _ (iv_toks _ _ Hinv) (handle_at (as_store s) j p) (need (ad_committed_frontier a) p)) as (page & _ & Hv & _).
  { apply elem_of_app. by left. }
  unfold page_valid in Hv. simp_bool. pose proof (iv_this _ _ Hinv). unfold handle_at in *. rewrite Hc in *. cbn in *. lia.
Qed.

Lemma inv_cells L s k ms :
  inv L s -> agrees (as_store s) ms ->
  pinv (ls_this (kv_store (as_kv s))) (length (kv_reservations (as_kv s))) (refs_of (as_store s) ++ L) (actives_of (as_store s)) (transfers_of s) k ->
  inv L (at_cells s k ms).
Proof.
  intros Hinv Hms [K1 K2 K3 K4]. constructor; cbn; try done; try apply Hinv.
  - rewrite K2. apply Hinv.
  - unfold at_cells. cbn. rewrite refs_agrees, actives_agrees by done. done.
  - apply cells_ok; [apply Hinv|apply Hms].
  - eapply Forall_impl; [apply Hinv|]. cbn. intros x Hx. lia.
Qed.

Lemma mcollect_membership L s i l :
  inv L s ->
  wp (mcollect (membership i) l)
    (fun hs s' => s' = s /\ length hs = length l /\ (existsb logical_handle_valid hs = false ->
       Forall (fun p => 0 <= cell (as_store s) i p < vsize (av_memberships (as_store s)) /\ dead_cell (as_store s) (cell (as_store s) i p)) l))
    (thrown L) s.
Proof.
  intros Hinv. induction l as [|p l IH]; [apply wp_ret; done|]. cbn [mcollect]. wp_step. unfold membership at 1. wp_step. wp_step.
  apply wp_lift; [|by intros ? ? ?]. intros h Hh%vat_Ok. wp_step. eapply wp_conseq; [exact IH| |done]. intros hs s' (-> & Hl & Hd). apply wp_ret.
  split; [done|]. split; [cbn; by rewrite Hl|]. cbn. intros [H1 H2]%orb_false_iff. apply Forall_cons_2; [|by apply Hd].
  split; [by eapply vget_Some_bounds|by eapply null_cell_dead].
Qed.

(** The handles stored so far. *)
Definition stored (s : asp) (i begin : Z) (hs : list LogicalKVPageHandle) (ms : list LogicalKVPageHandle) : Prop :=
  forall j h, hs.[j] = Some h -> ms.[cell (as_store s) i (begin + j)] = Some h.

Definition free_cells (s : asp) (i begin : Z) (m : Z) : Prop :=
  forall p, begin <= p < begin + m -> 0 <= cell (as_store s) i p < vsize (av_memberships (as_store s)) /\ dead_cell (as_store s) (cell (as_store s) i p).

Lemma store_memberships_spec s k i hs : forall begin ms,
  agrees (as_store s) ms -> free_cells s i begin (vsize hs) ->
  wp (store_memberships i begin hs)
    (fun _ s' => exists ms', s' = at_cells s k ms' /\ agrees (as_store s) ms' /\ stored s i begin hs ms' /\
       (forall c, (forall p, begin <= p < begin + vsize hs -> cell (as_store s) i p <> c) -> ms'.[c] = ms.[c])) no_error (at_cells s k ms).
Proof.
  induction hs as [|h hs IH]; intros begin ms Hms Hd.
  { apply wp_ret. exists ms. split; [done|]. split; [done|]. split; [|done]. intros j h Hj%vget_Some_bounds. unfold vsize in Hj. cbn in Hj. lia. }
  cbn [store_memberships]. wp_step.
  rewrite vsize_cons in Hd. pose proof (vsize_nonneg hs). destruct (Hd begin ltac:(lia)) as [Hb Hdead].
  apply wp_set_membership; [cbn; by rewrite (proj1 Hms)|].
  change (set_store _ _) with (at_cells s k (ms.[cell (as_store s) i begin <- h])).
  eapply wp_conseq; [apply (IH (begin + 1) (ms.[cell (as_store s) i begin <- h]))| |done].
  - by apply agrees_set.
  - intros p Hp. apply Hd. lia.
  - intros u s' (ms' & -> & Hms' & Hst & Hoth). exists ms'. split; [done|]. split; [done|]. split.
    + intros j x Hj. pose proof (vget_Some_bounds _ _ _ Hj) as Hjb. rewrite vsize_cons in Hjb. destruct (decide (j = 0)) as [->|Hne].
      * cbn in Hj. injection Hj as <-. rewrite Z.add_0_r, Hoth; [apply vget_vset_eq; by rewrite (proj1 Hms)|].
        intros p Hp. unfold cell. lia.
      * rewrite vget_cons_succ in Hj by lia. replace (begin + j) with (begin + 1 + (j - 1)) by lia. by apply Hst.
    + intros c Hc. rewrite vsize_cons in Hc. rewrite Hoth by (intros p Hp; apply Hc; lia). apply vget_vset_ne. intros <-. apply (Hc begin); [lia|done].
Qed.

(** Pages just mapped. *)
Definition fresh_tokens (hs : list LogicalKVPageHandle) : list token := map (fun h => (h, 0)) hs.

Lemma droppable_kept this n h c R A T k k' h' c' :
  pinv this n ((h, c) :: R) A T k -> (h', c') ∈ R -> can_dematerialize (kv_store k) h = true -> others_kept k k' (lh_index h) ->
  ls_this (kv_store k') = ls_this (kv_store k) -> can_dematerialize (kv_store k) h' = true -> can_dematerialize (kv_store k') h' = true.
Proof.
  intros Hk Hin Hg Hoth Hthis Hg'. pose proof Hg as (page & _ & Hp & _ & Hone%dematerialize_sole)%page_test_true.
  assert (Hne : lh_index h' <> lh_index h).
  { intros E. pose proof (pt_references _ _ _ _ _ _ (toks_at _ _ _ _ (pi_toks _ _ _ _ _ _ Hk) _ _ Hp)) as Er.
    rewrite (at_page_cons_eq fst _ (h, c)), vsize_cons in Er by done.
    assert (Hx : (h', c') ∈ at_page fst (lh_index h) R) by (by apply elem_of_at_page).
    destruct (at_page fst (lh_index h) R) as [|y l]; [by apply elem_of_nil in Hx|]. rewrite vsize_cons in Er. pose proof (vsize_nonneg l). lia. }
  unfold can_dematerialize, page_test, page_valid in *. rewrite !(Hoth (lh_index h')), Hthis by done. exact Hg'.
Qed.

Lemma undo_mapping_spec s this n R A T i account hs : forall begin k ms,
  pinv this n (fresh_tokens hs ++ R) A T k -> A ⊆+ map fst R -> (account < n)%nat ->
  Forall (fun h => can_dematerialize (kv_store k) h = true) hs -> agrees (as_store s) ms -> free_cells s i begin (vsize hs) ->
  wp (undo_mapping i begin account hs)
    (fun _ s' => exists k' ms', s' = at_cells s k' ms' /\ agrees (as_store s) ms' /\ pinv this n R A T k') no_error (at_cells s k ms).
Proof.
  induction hs as [|h hs IH]; intros begin k ms Hk Hsub Hn Hg Hms Hd; [apply wp_ret; eauto|]. cbn [undo_mapping].
  rewrite vsize_cons in Hd. pose proof (vsize_nonneg hs). destruct (Hd begin ltac:(lia)) as [Hb Hdead]. apply Forall_cons_1 in Hg as [Hg Hgs].
  wp_step. apply wp_on_pages. cbn [as_kv at_cells set_store set_kv]. pose proof Hg as (page & _ & Hp & _ & Hone%dematerialize_sole)%page_test_true.
  assert (Hsub' : A ⊆+ map fst (fresh_tokens hs ++ R)) by (rewrite map_app; by apply submseteq_inserts_l).
  eapply wp_conseq; [apply (dematerialize_takes _ _ account Hk Hg Hn); eapply sole_not_active; [exact Hk|exact Hsub'|exact Hp|exact Hone]| |done].
  intros u k' [Hk' Hoth]. wp_step. apply wp_set_membership; [cbn; by rewrite (proj1 Hms)|].
  change (set_store _ _) with (at_cells s k' (ms.[cell (as_store s) i begin <- null_logical_handle])).
  apply IH; try done.
  - apply Forall_forall. intros h' Hh'. rewrite Forall_forall in Hgs. eapply (droppable_kept _ _ h 0 _ _ _ k k' h' 0); [exact Hk| |done|done| |by apply Hgs].
    + apply elem_of_app. left. apply list_elem_of_fmap. by exists h'.
    + by rewrite (pi_this _ _ _ _ _ _ Hk), (pi_this _ _ _ _ _ _ Hk').
  - by apply agrees_set.
  - intros p Hpp. apply Hd. lia.
Qed.

Lemma retain_active_all s this n R T hs : forall A k,
  pinv this n (fresh_tokens hs ++ R) A T k -> A ⊆+ map fst R ->
  wp (mfor (fun logical => on_pages (retain_active_reference logical)) hs)
    (fun _ s' => exists k', s' = set_kv k' s /\ pinv this n (fresh_tokens hs ++ R) (hs ++ A) T k') no_error (set_kv k s).
Proof.
  revert R. induction hs as [|h hs IH]; intros R A k Hk Hsub; [apply wp_ret; by exists k|]. cbn [mfor]. wp_step. apply wp_on_pages. cbn [as_kv set_kv].
  assert (Hsub' : A ⊆+ map fst (fresh_tokens hs ++ R)) by (rewrite map_app; by apply submseteq_inserts_l).
  destruct (active_lt _ _ _ _ _ _ _ _ Hk Hsub') as (page & Hp & Hv & Hlt).
  eapply wp_conseq; [apply (retain_active_gives h Hk)| |done].
  { unfold page_test. rewrite Hv, Hp. cbn. by apply Z.ltb_lt. }
  intros u k' Hk'. change (set_kv k' (set_kv k s)) with (set_kv k' s). cbn in Hk'. rewrite (Permutation_middle (fresh_tokens hs) R) in Hk'.
  eapply wp_conseq; [apply (IH ((h, 0) :: R) (h :: A) k' Hk')| |done].
  - cbn. by apply submseteq_skip.
  - intros u' s' (k2 & -> & Hk2). exists k2. split; [done|]. cbn. rewrite (Permutation_middle (fresh_tokens hs) R), (Permutation_middle hs A). exact Hk2.
Qed.

Lemma map_stored {B} (f : Z -> B) (g : LogicalKVPageHandle -> B) hs : forall b,
  (forall j h, hs.[j] = Some h -> f (b + j) = g h) -> map f (seqZ b (vsize hs)) = map g hs.
Proof.
  induction hs as [|h hs IH]; intros b Hf; [done|]. pose proof (vsize_nonneg hs). rewrite vsize_cons, seqZ_cons by lia. cbn [map]. f_equal.
  - rewrite <- (Z.add_0_r b) at 1. by apply Hf.
  - replace (Z.pred (1 + vsize hs)) with (vsize hs) by lia. apply IH. intros j x Hj. pose proof (vget_Some_bounds _ _ _ Hj).
    replace (Z.succ b + j) with (b + (j + 1)) by lia. apply Hf. rewrite vget_cons_succ by lia. by replace (j + 1 - 1) with j by lia.
Qed.

Section Mapping.
Context (L : list token) (s : asp) (h : KVAddressSpaceHandle) (a : Address) (account : nat) (hs : list LogicalKVPageHandle).
Hypothesis Hinv : inv L s.
Hypothesis Ha : denotes s h a.
Hypothesis Hact : ad_active a = true.
Hypothesis Hres : ad_reservation a = Some account.
Notation st := (as_store s).
Notation i := (ah_index h).
Notation this := (ls_this (kv_store (as_kv s))).
Notation n := (length (kv_reservations (as_kv s))).
Notation begin := (ad_page_count a).

Lemma mapped_inv k ms :
  begin + vsize hs <= av_page_capacity st -> agrees st ms -> stored s i begin hs ms ->
  (forall c, (forall p, begin <= p < begin + vsize hs -> cell st i p <> c) -> ms.[c] = (av_memberships st).[c]) ->
  pinv this n (fresh_tokens hs ++ refs_of st ++ L) (hs ++ actives_of st) (transfers_of s) k ->
  inv L (at_change s k i (set_page_count (begin + vsize hs) a) ms).
Proof.
  intros Hcap Hms Hst Hoth Hk. pose proof Ha as (Ha' & Hocc & _). pose proof (denotes_ok _ _ _ _ Hinv Ha) as Hok. destruct Hok as [K1 K2 K3 K4 K5 K6].
  pose proof (vsize_nonneg hs). set (a' := set_page_count (begin + vsize hs) a).
  assert (Hlow : forall p, 0 <= p < begin -> ms.[cell st i p] = (av_memberships st).[cell st i p]).
  { intros p Hp. apply Hoth. intros q Hq E. unfold cell in E. lia. }
  assert (Hhs : forall j x, hs.[j] = Some x -> handle_at (change st i a' ms) i (begin + j) = x).
  { intros j x Hj. unfold handle_at. change (av_memberships (change st i a' ms)) with ms. change (cell (change st i a' ms) i (begin + j)) with (cell st i (begin + j)).
    by rewrite (Hst j x Hj). }
  assert (Hold : forall p, 0 <= p < begin -> handle_at (change st i a' ms) i p = handle_at st i p).
  { intros p Hp. unfold handle_at, cell in *. cbn. by rewrite Hlow. }
  eapply inv_change; [exact Hinv|exact Ha'| | |done| |by eapply accounts_put; [exact Ha'|done..|left]|apply Hinv|apply Hinv].
  - split; [apply Hms|]. intros c. destruct (decide (Exists (fun p => cell st i p = c) (seqZ begin (vsize hs)))) as [Hx|Hx].
    + right. apply Exists_exists in Hx as (p & Hp%elem_of_seqZ & <-). exists p. split; [lia|done].
    + left. apply Hoth. intros p Hp E. apply Hx, Exists_exists. exists p. split; [apply elem_of_seqZ; lia|done].
  - constructor; cbn; try done; lia || congruence.
  - unfold addr_refs, addr_actives. cbn [as_store at_change]. change (ad_occupied a') with (ad_occupied a). change (ad_active a') with (ad_active a). rewrite Hocc, Hact.
    assert (Et : address_tokens (change st i a' ms) i a' = address_tokens st i a ++ fresh_tokens hs).
    { unfold address_tokens. cbn [ad_page_count a' set_page_count ad_committed_frontier]. rewrite seqZ_app, map_app by lia. f_equal.
      - apply map_ext_in. intros p Hp%list_elem_of_In%elem_of_seqZ. by rewrite Hold by lia.
      - rewrite Z.add_0_l. apply map_stored. intros j x Hj. rewrite (Hhs j x Hj). f_equal. pose proof (vget_Some_bounds _ _ _ Hj).
        pose proof (pages_for_tokens_spec (ad_committed_frontier a) ltac:(lia)). unfold need, kPagedKVPageSize in *. lia. }
    assert (Eh : address_handles (change st i a' ms) i a' = address_handles st i a ++ hs).
    { unfold address_handles. cbn [ad_page_count a' set_page_count]. rewrite seqZ_app, map_app by lia. f_equal.
      - apply map_ext_in. intros p Hp%list_elem_of_In%elem_of_seqZ. by rewrite Hold by lia.
      - rewrite Z.add_0_l, (map_stored _ (fun x => x)); [apply map_id|done]. }
    rewrite Et, Eh. rewrite (refs_split _ _ _ Ha'), (actives_split _ _ _ Ha') in Hk. unfold addr_refs, addr_actives in Hk. rewrite Hocc, Hact in Hk.
    rewrite (Permutation_app_comm (address_tokens st i a)), (Permutation_app_comm (address_handles st i a)), <- !app_assoc. by rewrite <- !app_assoc in Hk.
Qed.
End Mapping.

Lemma mcollect_physical s hs E :
  (forall e, E e s) -> wp (mcollect (fun logical => on_pages (physical logical)) hs) (fun ds s' => s' = s /\ length ds = length hs) E s.
Proof.
  intros He. induction hs as [|h hs IH]; [by apply wp_ret|]. cbn [mcollect]. wp_step. apply wp_on_pages. unfold wp at 1.
  pose proof (physical_reads h (as_kv s)) as Hr. destruct (physical h (as_kv s)) as [k [d|e]]; cbn in Hr; subst k; rewrite set_kv_id; [|apply He].
  wp_step. eapply wp_conseq; [exact IH| |done]. intros ds s' [-> Hl]. apply wp_ret. split; [done|]. cbn. by rewrite Hl.
Qed.

Lemma ensure_mapped_inv L s h tokens : inv L s -> wp (ensure_mapped_to_tokens h tokens) (fun _ => inv L) (thrown L) s.
Proof.
  intros Hinv. unfold ensure_mapped_to_tokens. wp_step. apply wp_require_active; [|by intros ?..]. intros a account l Ha Hact Hres Hrow. cbv zeta.
  wp_step. wp_step. wp_step. wp_step; [|by intros ?]. simp_bool. destruct (Z.leb_spec (pages_for_tokens tokens) (ad_page_count a)) as [|Hlt]; [by apply wp_ret|].
  rewrite Hres. set (target := pages_for_tokens tokens) in *. pose proof Ha as (Ha' & Hocc & _). pose proof (denotes_ok _ _ _ _ Hinv Ha) as Hok.
  pose proof (ao_count _ _ Hok). wp_step. eapply wp_conseq; [apply (mcollect_membership L); exact Hinv| |done]. intros ds s' (-> & Hl & Hd).
  assert (Hlen : vsize ds = target - ad_page_count a) by (unfold vsize; rewrite Hl, length_seqZ; lia).
  wp_step. eapply wp_conseq with (Q := fun _ t => t = s) (E := thrown L); [| |done].
  { destruct (Z.eqb_spec (ad_page_count a) 0); [by apply wp_ret|]. wp_step. apply wp_membership; [eapply own_cell; [done|done|lia]|]. by apply wp_ret. }
  intros pred s' ->. wp_step. apply wp_on_pages.
  eapply wp_conseq; [apply (materialize_batch_gives account ds pred (inv_pages _ _ Hinv)); intros ->; unfold vsize in Hlen; cbn in Hlen; lia| |].
  2:{ intros e k Hu He. unfold unchanged in Hu. rewrite Hu, set_kv_id by (intros ->; done). done. }
  intros hs k (Hk & Hlh & Hnull & Hdem). specialize (Hd Hnull).
  assert (Hfree : free_cells s (ah_index h) (ad_page_count a) (vsize hs)).
  { intros p Hp. rewrite Forall_forall in Hd. apply Hd, elem_of_seqZ. lia. }
  wp_step. replace (set_kv k s) with (at_cells s k (av_memberships (as_store s))) by (by destruct s as [? ? [] ? ? ?]).
  eapply wp_conseq; [apply (store_memberships_spec s k); [apply agrees_refl|exact Hfree]| |done].
  intros u t (ms & -> & Hms & Hst & Hoth). wp_step.
  assert (Hsub : actives_of (as_store s) ⊆+ map fst (refs_of (as_store s) ++ L)).
  { rewrite map_app. apply submseteq_inserts_r, actives_of_sub, Hinv. }
  assert (Hundo : forall s2, same_but_tables (at_cells s k ms) s2 ->
    wp (undo_mapping (ah_index h) (ad_page_count a) account hs) (fun _ => inv L) no_error s2).
  { intros s2 (w & -> & Hw). eapply wp_conseq; [eapply (undo_mapping_spec (set_world w s) _ _ _ _ _ _ account hs (ad_page_count a) k ms); try done; by eapply account_named| |done].
    intros u2 s3 (k' & ms' & -> & Hms' & Hk'). apply (inv_set_world L (at_cells s k' ms') w); [by apply inv_cells|done]. }
  eapply wp_conseq with (Q := fun _ t => exists w, t = set_world w (at_cells s k ms) /\ e_spec (w_table w) = e_spec (w_table (as_world s)) /\
      ad_page_count a + vsize hs <= av_page_capacity (as_store s)) (E := thrown L); [| |done].
  - apply wp_on_throw. wp_step. eapply wp_conseq; [apply (mcollect_physical _ _ (fun _ s2 => same_but_tables (at_cells s k ms) s2))| |].
    + intros e. by exists (as_world s).
    + intros ps s2 [-> Hps]. eapply wp_conseq; [apply publish_row_kept; congruence| |].
      * intros u2 s2 [(w & -> & Hw) Hcap]. exists w. split; [done|]. split; [done|]. cbn in Hcap. rewrite (iv_tables _ _ Hinv) in Hcap.
        unfold vsize in *. rewrite Hps in Hcap. exact Hcap.
      * intros e s2 Hs2. destruct (is_exception e) eqn:He; [|intros ?; congruence]. eapply wp_conseq; [by apply Hundo| |done]. by intros u2 s3 H3 _.
    + intros e s2 Hs2. destruct (is_exception e) eqn:He; [|intros ?; congruence]. eapply wp_conseq; [by apply Hundo| |done]. by intros u2 s3 H3 _.
  - intros u2 s2 (w & -> & Hw & Hcap). wp_step.
    change (set_world w (at_cells s k ms)) with (set_kv k (set_world w (at_cells s k ms))).
    eapply wp_conseq; [apply (retain_active_all (set_world w (at_cells s k ms)) _ _ _ _ hs _ k Hk Hsub)| |done].
    intros u3 s3 (k' & -> & Hk'). unfold put_address. wp_step. replace target with (ad_page_count a + vsize hs) by lia.
    apply (inv_set_world L (at_change s k' (ah_index h) (set_page_count (ad_page_count a + vsize hs) a) ms) w); [|done].
    by eapply mapped_inv.
Qed.
