(* ===== verification/AddressCopies.v ===== *)
(** Prefix forks and active snapshots (src/src/runtime/logical_kv_store.h,
    [prepare_prefix_fork] to [abort_prefix_fork] and [active_snapshot_shape] to
    [abort_active_snapshot]) keep the invariant of [AddressRefs]. The commit
    of either hands references to the destination one page at a time: when it
    throws between two of them, the references taken so far stay with no
    address. *)

From S2P Require Import Prelude Tensor Layout PagedKv ExecTable LogicalKv PageTokens AddressSpace AddressRefs AddressActive AddressGrowth.

(** * Loops over the pages of an address *)

(** The state with other pages. *)
Definition paged (s : asp) (this : Z) (n : nat) (R : list token) (A : list LogicalKVPageHandle) (T : list token) (t : asp) : Prop :=
  exists k, t = set_kv k s /\ pinv this n R A T k.

Definition if_thrown (J : asp -> Prop) : error -> asp -> Prop := fun e t => is_exception e = true -> J t.

Definition cells_exist (s : asp) (i lo hi : Z) : Prop :=
  forall p, lo <= p < hi -> 0 <= cell (as_store s) i p < vsize (av_memberships (as_store s)).

Section Loops.
Context {s : asp} {this : Z} {n : nat} {R : list token} {A : list LogicalKVPageHandle} {T : list token}.
Notation paged := (paged s this n R A T).

Lemma wp_kept (op : K unit) t :
  paged t -> (forall k, pinv this n R A T k -> wp op (fun _ => pinv this n R A T) (unchanged k) k) ->
  wp (on_pages op) (fun _ => paged) (if_thrown paged) t.
Proof.
  intros (k & -> & Hk) Hop. apply wp_on_pages. eapply wp_conseq; [apply Hop, Hk| |].
  - intros u k' Hk'. by exists k'.
  - intros e k' Hu He. cbn [as_kv set_kv] in Hu. rewrite Hu by (by intros ->). by exists k.
Qed.

Lemma wp_kept_page (op : LogicalKVPageHandle -> K unit) i p t :
  paged t -> 0 <= cell (as_store s) i p < vsize (av_memberships (as_store s)) ->
  (forall h k, pinv this n R A T k -> wp (op h) (fun _ => pinv this n R A T) (unchanged k) k) ->
  wp (logical ← membership i p; on_pages (op logical)) (fun _ => paged) (if_thrown paged) t.
Proof.
  intros Ht Hc Hop. pose proof Ht as (k & -> & Hk). wp_step. apply wp_membership; [exact Hc|]. apply wp_kept; [done|]. intros k'. apply Hop.
Qed.

Lemma pin_pages_kept i m t :
  paged t -> cells_exist s i 0 m -> wp (pin_pages i m) (fun _ => paged) (if_thrown paged) t.
Proof.
  intros Ht Hc. apply wp_for_in; [done|]. intros p t' Hp%elem_of_seqZ Ht'. apply wp_kept_page; [done|apply Hc; lia|]. intros h k Hk. by apply pin_kept.
Qed.

Lemma unpin_pages_kept i m (skip : Z -> bool) t :
  paged t -> cells_exist s i 0 m ->
  wp (mfor (fun page => if skip page then mret tt else logical ← membership i page; on_pages (unpin_source logical)) (seqZ 0 m))
    (fun _ => paged) (if_thrown paged) t.
Proof.
  intros Ht Hc. apply wp_for_in; [done|]. intros p t' Hp%elem_of_seqZ Ht'. destruct (skip p); [by apply wp_ret|].
  apply wp_kept_page; [done|apply Hc; lia|]. intros h k Hk. by apply unpin_kept.
Qed.

Lemma unpin_if_pinned_kept i p t :
  paged t -> 0 <= cell (as_store s) i p < vsize (av_memberships (as_store s)) ->
  wp (unpin_if_pinned i p) (fun _ => paged) (if_thrown paged) t.
Proof.
  intros Ht Hc. pose proof Ht as (k & -> & Hk). unfold unpin_if_pinned. wp_step. apply wp_membership; [exact Hc|].
  wp_step. apply wp_guard. destruct (page_valid _ _); cbn [negb]; [|by apply wp_ret]. wp_step. apply wp_read; [|by intros _ _].
  intros page _ _. destruct (_ =? 0); [by apply wp_ret|]. apply wp_kept; [done|]. intros k' Hk'. by apply unpin_kept.
Qed.
End Loops.

Lemma inv_paged L s : inv L s ->
  paged s (ls_this (kv_store (as_kv s))) (length (kv_reservations (as_kv s))) (refs_of (as_store s) ++ L) (actives_of (as_store s)) (transfers_of s) s.
Proof. intros Hinv. exists (as_kv s). split; [by rewrite set_kv_id|by apply inv_pages]. Qed.

Lemma paged_inv L s t : inv L s ->
  paged s (ls_this (kv_store (as_kv s))) (length (kv_reservations (as_kv s))) (refs_of (as_store s) ++ L) (actives_of (as_store s)) (transfers_of s) t -> inv L t.
Proof. intros Hinv (k & -> & Hk). by eapply inv_set_kv. Qed.

Lemma capacity_cells L s h a m : inv L s -> denotes s h a -> m <= av_page_capacity (as_store s) -> cells_exist s (ah_index h) 0 m.
Proof. intros Hinv (Ha & _) Hm p Hp. eapply membership_bounds; [apply Hinv|exact Ha|lia]. Qed.

(** * The reservation objects *)
Lemma concat_insert {A B} (g : A -> list B) l j x y :
  l !! j = Some x -> exists rest, concat (map g l) ≡ₚ g x ++ rest /\ concat (map g (<[j := y]> l)) ≡ₚ g y ++ rest.
Proof.
  revert j. induction l as [|z l IH]; intros j Hj; [done|]. destruct j as [|j]; cbn in *.
  - injection Hj as ->. eauto.
  - destruct (IH j Hj) as (rest & E1 & E2). exists (g z ++ rest). rewrite E1, E2. split; apply Permutation_app_swap_app.
Qed.

Lemma transfers_fork s j f f' :
  as_forks s !! j = Some f -> exists T, transfers_of s ≡ₚ fork_tail f ++ T /\ transfers_of (set_forks (<[j := f']> (as_forks s)) s) ≡ₚ fork_tail f' ++ T.
Proof.
  intros Hj. destruct (concat_insert fork_tail _ _ _ f' Hj) as (rest & E1 & E2). exists (rest ++ concat (map snapshot_tail (as_snapshots s))).
  unfold transfers_of. cbn. by rewrite E1, E2, !app_assoc.
Qed.

Lemma transfers_snapshot s j n n' :
  as_snapshots s !! j = Some n ->
  exists T, transfers_of s ≡ₚ snapshot_tail n ++ T /\ transfers_of (set_snapshots (<[j := n']> (as_snapshots s)) s) ≡ₚ snapshot_tail n' ++ T.
Proof.
  intros Hj. destruct (concat_insert snapshot_tail _ _ _ n' Hj) as (rest & E1 & E2). exists (concat (map fork_tail (as_forks s)) ++ rest).
  unfold transfers_of. cbn. rewrite E1, E2. split; by rewrite Permutation_app_swap_app.
Qed.

Lemma omap_insert {A} (g : A -> option nat) (l : list A) j x y z :
  l !! j = Some x -> g y = g x \/ g y = None -> z ∈ omap g (<[j := y]> l) -> z ∈ omap g l.
Proof.
  intros Hj Hy. rewrite !list_elem_of_omap. intros (w & Hw & E). apply list_elem_of_lookup in Hw as (i & Hi).
  apply list_lookup_insert_Some in Hi as [(-> & <- & Hlt)|[Hne Hi]]; [|exists w; split; [by eapply list_elem_of_lookup_2|done]].
  destruct Hy as [Hy|Hy]; [|congruence]. exists x. split; [by eapply list_elem_of_lookup_2|congruence].
Qed.

(** A fork or a snapshot changes, and the pages with it. *)
Lemma put_fork_inv L s k j f f' :
  inv L s -> as_forks s !! j = Some f -> fork_ok (av_page_capacity (as_store s)) f' ->
  (fr_page_reservation f' = fr_page_reservation f \/ fr_page_reservation f' = None) ->
  pinv (ls_this (kv_store (as_kv s))) (length (kv_reservations (as_kv s))) (refs_of (as_store s) ++ L) (actives_of (as_store s))
    (transfers_of (set_forks (<[j := f']> (as_forks s)) s)) k ->
  inv L (set_forks (<[j := f']> (as_forks s)) (set_kv k s)).
Proof.
  intros [H1 H2 H3 H4 H5 H6 H7 H8] Hj Hf Hr [K1 K2 K3 K4]. constructor; cbn; try done.
  - by rewrite K2.
  - rewrite Forall_forall in *. intros x Hx. eapply Nat.lt_le_trans; [apply H6|done]. unfold accounts_of in *. cbn in Hx. rewrite !elem_of_app in *.
    destruct Hx as [Hx|[Hx|[Hx|Hx]]]; [tauto|tauto| |tauto]. right. right. left. by eapply omap_insert.
  - by apply Forall_insert.
Qed.

Lemma put_snapshot_inv L s k j n n' :
  inv L s -> as_snapshots s !! j = Some n -> snapshot_ok (av_page_capacity (as_store s)) n' ->
  (sn_tail_reservation n' = sn_tail_reservation n \/ sn_tail_reservation n' = None) ->
  pinv (ls_this (kv_store (as_kv s))) (length (kv_reservations (as_kv s))) (refs_of (as_store s) ++ L) (actives_of (as_store s))
    (transfers_of (set_snapshots (<[j := n']> (as_snapshots s)) s)) k ->
  inv L (set_snapshots (<[j := n']> (as_snapshots s)) (set_kv k s)).
Proof.
  intros [H1 H2 H3 H4 H5 H6 H7 H8] Hj Hf Hr [K1 K2 K3 K4]. constructor; cbn; try done.
  - by rewrite K2.
  - rewrite Forall_forall in *. intros x Hx. eapply Nat.lt_le_trans; [apply H6|done]. unfold accounts_of in *. cbn in Hx. rewrite !elem_of_app in *.
    destruct Hx as [Hx|[Hx|[Hx|Hx]]]; [tauto|tauto|tauto|]. right. right. right. by eapply omap_insert.
  - by apply Forall_insert.
Qed.

(** The new object of a preparation, with the page its tail is copied to. *)
Lemma push_fork_inv L s k f a :
  inv L s -> fork_ok (av_page_capacity (as_store s)) f -> fr_page_reservation f = Some a -> (a < length (kv_reservations k))%nat ->
  pinv (ls_this (kv_store (as_kv s))) (length (kv_reservations (as_kv s))) (refs_of (as_store s) ++ L) (actives_of (as_store s)) (fork_tail f ++ transfers_of s) k ->
  inv L (set_forks (as_forks s ++ [f]) (set_kv k s)).
Proof.
  intros [H1 H2 H3 H4 H5 H6 H7 H8] Hf Hr Ha [K1 K2 K3 K4]. constructor; cbn; try done.
  - by rewrite K2.
  - unfold transfers_of. cbn. rewrite map_app, concat_app. cbn. rewrite app_nil_r, (Permutation_app_comm _ (fork_tail f)), <- app_assoc. exact K4.
  - rewrite Forall_forall in *. intros x. unfold accounts_of. cbn. rewrite omap_app, !elem_of_app. cbn. rewrite Hr.
    intros Hx. assert (x ∈ accounts_of s \/ x = a) as [Hin| ->]; [|apply H6 in Hin; lia|done].
    unfold accounts_of. rewrite !elem_of_app. rewrite list_elem_of_singleton in Hx. tauto.
  - apply Forall_app_2; [done|]. by apply Forall_cons_2.
Qed.

Lemma push_snapshot_inv L s k n a :
  inv L s -> snapshot_ok (av_page_capacity (as_store s)) n -> sn_tail_reservation n = Some a -> (a < length (kv_reservations k))%nat ->
  pinv (ls_this (kv_store (as_kv s))) (length (kv_reservations (as_kv s))) (refs_of (as_store s) ++ L) (actives_of (as_store s)) (snapshot_tail n ++ transfers_of s) k ->
  inv L (set_snapshots (as_snapshots s ++ [n]) (set_kv k s)).
Proof.
  intros [H1 H2 H3 H4 H5 H6 H7 H8] Hf Hr Ha [K1 K2 K3 K4]. constructor; cbn; try done.
  - by rewrite K2.
  - unfold transfers_of. cbn. rewrite map_app, concat_app. cbn. rewrite app_nil_r, app_assoc, (Permutation_app_comm _ (snapshot_tail n)). exact K4.
  - rewrite Forall_forall in *. intros x. unfold accounts_of. cbn. rewrite omap_app, !elem_of_app. cbn. rewrite Hr.
    intros Hx. assert (x ∈ accounts_of s \/ x = a) as [Hin| ->]; [|apply H6 in Hin; lia|done].
    unfold accounts_of. rewrite !elem_of_app. rewrite list_elem_of_singleton in Hx. tauto.
  - apply Forall_app_2; [done|]. by apply Forall_cons_2.
Qed.

(** * Preparing a fork *)
Notation reads s := (fun _ t => t = s) (only parsing).

Lemma wp_for_reads {A} (f : A -> P unit) l s :
  (forall x, x ∈ l -> wp (f x) (reads s) (reads s) s) -> wp (mfor f l) (reads s) (reads s) s.
Proof. intros Hf. apply wp_for_in; [done|]. intros x t Hx ->. by apply Hf. Qed.

Lemma fork_source_page_reads s i full tail p :
  0 <= cell (as_store s) i p < vsize (av_memberships (as_store s)) -> wp (fork_source_page_ok i full tail p) (reads s) (reads s) s.
Proof.
  intros Hc. unfold fork_source_page_ok. wp_step. apply wp_membership; [done|]. cbv zeta. wp_step. apply wp_read; [|done]. intros page _ _.
  destruct (has _); cbn [negb]; [|by apply wp_throw]. wp_step. apply wp_read; [|done]. intros page' _ _. wp_step. apply wp_guard. wp_step. apply wp_guard.
  by wp_step.
Qed.

(** The page a tail is copied to. *)
Lemma tail_destination_held L k c s :
  held L k s -> is_u32 c ->
  wp ((if negb (c =? 0) then t ← on_pages (materialize_transfer_destination k c); mret (Some t) else mret None) : P (option LogicalKVPageHandle))
    (fun o t => paged s (ls_this (kv_store (as_kv s))) (length (kv_reservations (as_kv s))) (refs_of (as_store s) ++ L) (actives_of (as_store s))
       (match o with Some h => [(h, c)] | None => [] end ++ transfers_of s) t /\ (o <> None -> c <> 0))
    (if_thrown (held L k)) s.
Proof.
  intros [Hinv Hk] Hc. destruct (Z.eqb_spec c 0) as [Hz|Hz]; cbn [negb].
  - apply wp_ret. split; [by apply inv_paged|done].
  - wp_step. apply wp_on_pages. eapply wp_conseq; [apply (materialize_transfer_gives k c (inv_pages _ _ Hinv) Hc)| |].
    + intros h kv' Hkv'. apply wp_ret. split; [by exists kv'|done].
    + intros e kv' Hu He. rewrite Hu by (by intros ->). by rewrite set_kv_id.
Qed.

(** The reference to the page is lost when a preparation throws after it. *)
Lemma forget_tail L k s c o t :
  held L k s ->
  paged s (ls_this (kv_store (as_kv s))) (length (kv_reservations (as_kv s))) (refs_of (as_store s) ++ L) (actives_of (as_store s))
    (match o with Some h => [(h, c)] | None => [] end ++ transfers_of s) t -> held L k t.
Proof.
  intros [Hinv Hk] (kv' & -> & Hkv'). assert (H' : pinv (ls_this (kv_store (as_kv s))) (length (kv_reservations (as_kv s))) (refs_of (as_store s) ++ L)
    (actives_of (as_store s)) (transfers_of s) kv') by (destruct o; [by eapply forget_transfer|done]).
  split; [by eapply inv_set_kv|]. pose proof (pi_accounts _ _ _ _ _ _ H'). cbn. lia.
Qed.

Lemma frontier_split f : 0 <= f -> f = f / kPagedKVPageSize * kPagedKVPageSize + f mod kPagedKVPageSize /\ 0 <= f mod kPagedKVPageSize < kPagedKVPageSize /\ 0 <= f / kPagedKVPageSize.
Proof. intros Hf. unfold kPagedKVPageSize. pose proof (Z.div_mod f 64 ltac:(lia)). pose proof (Z.mod_pos_bound f 64 ltac:(lia)). pose proof (Z.div_pos f 64 Hf ltac:(lia)). lia. Qed.

Lemma pages_split f : 0 <= f -> pages_for_tokens f = f / kPagedKVPageSize + (if f mod kPagedKVPageSize =? 0 then 0 else 1).
Proof.
  intros Hf. pose proof (frontier_split f Hf) as (E & Hm & Hd). unfold pages_for_tokens. destruct (Z.eqb_spec f 0) as [->|Hne]; [done|].
  set (q := f / kPagedKVPageSize) in *. set (r := f mod kPagedKVPageSize) in *. destruct (Z.eqb_spec r 0) as [Hz|Hz].
  - rewrite E, Hz. replace (q * kPagedKVPageSize + 0 - 1) with ((q - 1) * kPagedKVPageSize + (kPagedKVPageSize - 1)) by lia.
    rewrite Z.div_add_l by done. change ((kPagedKVPageSize - 1) / kPagedKVPageSize) with 0. lia.
  - rewrite E. replace (q * kPagedKVPageSize + r - 1) with (q * kPagedKVPageSize + (r - 1)) by lia. rewrite Z.div_add_l by done.
    rewrite (Z.div_small (r - 1)) by lia. lia.
Qed.

Lemma on_throw_reset L k {A} (m : P A) Q l s :
  wp m Q (if_thrown (held L k)) s -> wp (on_throw m (on_tables (reset_row l))) Q (if_thrown (held L k)) s.
Proof.
  intros Hm. apply wp_on_throw. eapply wp_conseq; [exact Hm|done|]. intros e t Ht. destruct (is_exception e) eqn:He; [|intros ?; congruence].
  destruct (Ht He) as [Hinv Hk]. eapply wp_conseq; [apply (reset_row_inv L), Hinv| |done]. intros u t' [Hi [w ->]] _. by split.
Qed.

Lemma prepare_prefix_fork_inv L s sh dh f n row staged :
  inv L s -> is_u32 f -> is_u32 n -> wp (prepare_prefix_fork sh dh f n row staged) (fun _ => inv L) (thrown L) s.
Proof.
  intros Hinv [Hf0 Hf1] [Hn0 Hn1]. unfold prepare_prefix_fork. wp_step. apply wp_require; [|by intros ?]. intros a Ha _. wp_step. apply wp_require; [|by intros ?].
  intros b Hb _. do 3 (wp_step; wp_step; [|by intros ?]). simp_bool. cbv zeta. wp_step. wp_step. wp_step. wp_step; [|by intros ?]. simp_bool.
  wp_step. wp_step; [|by intros ?]. pose proof (denotes_ok _ _ _ _ Hinv Ha) as Hok. pose proof (ao_frontier _ _ Hok). pose proof (ao_count _ _ Hok).
  pose proof (pages_for_tokens_mono f (ad_committed_frontier a) ltac:(lia)).
  pose proof (frontier_split f Hf0) as (_ & Hm & Hd). pose proof (pages_split f Hf0) as Hps.
  assert (Hcells : cells_exist s (ah_index sh) 0 (pages_for_tokens f)) by (eapply capacity_cells; [exact Hinv|exact Ha|lia]).
  wp_step. eapply wp_conseq; [apply (wp_for_reads _ _ s)| |intros e t ->; by intros ?].
  { intros p Hp%elem_of_seqZ. apply fork_source_page_reads, Hcells. lia. }
  intros u t ->. wp_step. eapply wp_conseq; [by apply (new_reservation_held L)| |done]. intros k s1 [K1 [kv1 ->]]. apply wp_on_throw_held. wp_step.
  eapply wp_conseq; [apply (resize_held L k _ _ K1)| |done].
  { destruct staged; [by vm_compute|]. split; [|lia]. destruct (_ =? 0); lia. }
  intros u2 s2 [K2 [kv2 ->]]. wp_step. eapply wp_conseq; [apply (acquire_held L k row _ K2)| |done].
  intros l s3 [K3 [w ->]]. apply (on_throw_reset L k). wp_step.
  eapply wp_conseq; [apply (tail_destination_held L k (f mod kPagedKVPageSize) _ K3)| |done].
  { unfold is_u32, U32_MAX, kPagedKVPageSize in *. lia. }
  intros o t [Ht Ho]. wp_step. eapply wp_conseq; [eapply pin_pages_kept; [exact Ht|exact Hcells]| |].
  - intros u3 t2 (kv3 & -> & Hk3). wp_step. wp_step. wp_step. wp_step. wp_step. destruct K3 as [K3 Hk].
    apply (push_fork_inv L (set_world w (set_kv kv2 (set_kv kv1 s))) kv3) with (a := k); [exact K3| |done| |exact Hk3].
    + split; [constructor; cbn; try done; [|lia]|by split].
      intros E. destruct Ha as (Ha & _), Hb as (Hb & _). rewrite E in Ha. assert (a = b) as -> by congruence. lia.
    + pose proof (pi_accounts _ _ _ _ _ _ Hk3). lia.
  - intros e t2 He Hx. eapply forget_tail; [exact K3|exact (He Hx)].
Qed.

(** * Ending a fork *)
Lemma wp_fork_ref j Q E s : (forall f, as_forks s !! j = Some f -> Q f s) -> E Undefined s -> wp (fork_ref j) Q E s.
Proof. intros Hq He. unfold fork_ref. wp_step. wp_step. destruct (as_forks s !! j) eqn:Hj; [by wp_step; apply Hq|by wp_step]. Qed.

Lemma fork_of L s j f : inv L s -> as_forks s !! j = Some f -> fork_ok (av_page_capacity (as_store s)) f.
Proof. intros Hinv Hj. pose proof (iv_forks _ _ Hinv) as H. rewrite Forall_forall in H. apply H. by eapply list_elem_of_lookup_2. Qed.

Lemma fork_account L s j f k : inv L s -> as_forks s !! j = Some f -> fr_page_reservation f = Some k -> (k < length (kv_reservations (as_kv s)))%nat.
Proof.
  intros Hinv Hj Hk. pose proof (iv_accounts _ _ Hinv) as H. rewrite Forall_forall in H. apply H. unfold accounts_of. rewrite !elem_of_app. right. right. left.
  apply list_elem_of_omap. exists f. split; [by eapply list_elem_of_lookup_2|done].
Qed.

(** In a function that does not throw, an error ends the process. *)
Lemma wp_noexcept {A} (m : P A) Q J s : wp m Q (fun _ _ => True) s -> wp (never_throws m) Q (if_thrown J) s.
Proof.
  intros Hm. apply wp_never_throws. eapply wp_conseq; [exact Hm|done|]. intros e t _ He. destruct (is_exception e) eqn:Hx; [done|congruence].
Qed.

Lemma abort_transfer_takes_any this n R A T k h c o :
  pinv this n R A ((h, c) :: T) k -> wp (abort_transfer_object h o) (fun _ => pinv this n R A T) (fun _ _ => True) k.
Proof.
  intros Hk. destruct o as [a|]; cbn [abort_transfer_object].
  - eapply wp_conseq; [by eapply abort_transfer_takes|done|done].
  - wp_step. wp_step. wp_step; [by eapply forget_transfer|done].
Qed.

Lemma abort_prefix_fork_inv L s j :
  inv L s -> wp (abort_prefix_fork j)
    (fun _ t => inv L t /\ (length (kv_reservations (as_kv s)) <= length (kv_reservations (as_kv t)))%nat /\ (exists f, as_forks t !! j = Some f))
    (thrown L) s.
Proof.
  intros Hinv. apply wp_noexcept. wp_step. apply wp_fork_ref; [|done]. intros f Hf. wp_step. wp_step.
  destruct (fr_owner f =? _); cbn [negb]; [|apply wp_ret; eauto]. pose proof (fork_of _ _ _ _ Hinv Hf) as [Hshape [Ht Hr]]. pose proof (proj2 (cs_frontier _ _ _ _ _ _ Hshape)) as Hcap.
  wp_step. eapply wp_conseq with (E := fun _ _ => True) (Q := fun _ t => paged s (ls_this (kv_store (as_kv s))) (length (kv_reservations (as_kv s))) (refs_of (as_store s) ++ L)
    (actives_of (as_store s)) (transfers_of s) t); [|  |done].
  - destruct (address_valid _ _) eqn:Hv; [|apply wp_ret; by apply inv_paged]. apply address_valid_denotes in Hv as [_ [a Ha]].
    apply wp_for_in; [by apply inv_paged|]. intros p t Hp%elem_of_seqZ Hpt. destruct (_ && _); [by apply wp_ret|].
    eapply wp_conseq; [apply (unpin_if_pinned_kept _ p t Hpt); eapply capacity_cells; [exact Hinv|exact Ha|exact Hcap|lia]|done|done].
  - intros u t (k & -> & Hk). set (f' := fork_with 0 (fr_page_reservation f) (fr_row f) None (fr_tail_source_settled f) f).
    destruct (transfers_fork s j f f' Hf) as (T & E1 & E2). rewrite E1 in Hk. wp_step.
    eapply wp_conseq with (E := fun _ _ => True) (Q := fun _ t => paged s (ls_this (kv_store (as_kv s))) (length (kv_reservations (as_kv s))) (refs_of (as_store s) ++ L)
      (actives_of (as_store s)) T t); [| |done].
    + unfold fork_tail in Hk. destruct (fr_tail_destination f) as [h|]; [|apply wp_ret; by exists k]. apply wp_on_pages.
      eapply wp_conseq; [by eapply abort_transfer_takes_any| |done]. intros u' k' Hk'. by exists k'.
    + intros u' t (k' & -> & Hk'). unfold put_fork. wp_step. split; [|split].
      * apply (put_fork_inv L s k' j f f'); [done|done|split; [apply Hshape|by split]|by left|rewrite E2; exact Hk'].
      * cbn. apply Hk'.
      * exists f'. apply list_lookup_insert_eq. by eapply lookup_lt_Some.
Qed.

Lemma release_object_inv L o s :
  inv L s -> (forall k, o = Some k -> (k < length (kv_reservations (as_kv s)))%nat) ->
  wp (on_pages (release_reservation_object o)) (fun _ t => inv L t /\ exists k, t = set_kv k s) no_error s.
Proof.
  intros Hinv Ho. apply wp_on_pages. destruct o as [k|]; [|apply wp_ret; rewrite set_kv_id; split; [done|]; exists (as_kv s); by rewrite set_kv_id].
  eapply wp_conseq; [apply (release_account (inv_pages _ _ Hinv)), Ho; done| |done]. intros u k' Hk'. split; [by eapply inv_set_kv|by exists k'].
Qed.

Lemma destroy_fork_inv L s j : inv L s -> wp (destroy_fork j) (fun _ => inv L) (thrown L) s.
Proof.
  intros Hinv. unfold destroy_fork. wp_step. apply wp_fork_ref; [|by intros ?]. intros f Hf. wp_step.
  eapply wp_conseq with (E := thrown L) (Q := fun _ t => inv L t /\ (length (kv_reservations (as_kv s)) <= length (kv_reservations (as_kv t)))%nat /\
    (exists f, as_forks t !! j = Some f)); [destruct (_ =? 0); cbn [negb]; [apply wp_ret; eauto|by apply abort_prefix_fork_inv]| |done].
  intros u t (Ht & Hlen & f2 & Hf2). wp_step. eapply wp_conseq; [apply (reset_row_inv L _ _ Ht)| |done]. intros u2 t2 [Ht2 [w ->]]. wp_step.
  eapply wp_conseq; [apply (release_object_inv L _ _ Ht2)| |done].
  { intros k Hk. cbn. eapply Nat.lt_le_trans; [eapply fork_account; [exact Hinv|exact Hf|exact Hk]|done]. }
  intros u3 t3 [Ht3 [k ->]]. wp_step. apply wp_fork_ref; [|by intros ?]. intros f3 Hf3. unfold put_fork. wp_step.
  set (t3 := set_kv k (set_world w t)) in *. set (f' := fork_with _ _ _ _ _ f3). pose proof (fork_of _ _ _ _ Ht3 Hf3) as [Hs [Htl Hr]].
  rewrite <- (set_kv_id t3). apply (put_fork_inv L t3 (as_kv t3) j f3 f'); [done|done|split; [apply Hs|split; [exact Htl|done]]|by right|].
  destruct (transfers_fork t3 j f3 f' Hf3) as (T & E1 & E2). rewrite E2. change (fork_tail f') with (fork_tail f3). rewrite <- E1. by apply inv_pages.
Qed.

Lemma wp_require_fork f Q E s :
  ((exists a, denotes s (fr_source f) a) -> (exists a, denotes s (fr_destination f) a) -> Q tt s) -> E LogicError s -> wp (require_prefix_fork f) Q E s.
Proof.
  intros Hq He. unfold require_prefix_fork. wp_step. wp_step. wp_step; [|done]. simp_bool.
  repeat match goal with H : address_valid _ _ = true |- _ => apply address_valid_denotes in H as [_ H] end. by apply Hq.
Qed.

Lemma tail_cell L s sh dh a f full tail :
  inv L s -> denotes s sh a -> copy_shape (av_page_capacity (as_store s)) sh dh f full tail -> tail <> 0 ->
  0 <= cell (as_store s) (ah_index sh) full < vsize (av_memberships (as_store s)).
Proof.
  intros Hinv Ha [_ [Hf Hcap] -> ->] Ht. eapply capacity_cells; [exact Hinv|exact Ha|exact Hcap|].
  rewrite pages_split by lia. rewrite (proj2 (Z.eqb_neq _ _)) by done. pose proof (frontier_split f ltac:(lia)). lia.
Qed.

Lemma settle_inv L s j : inv L s -> wp (settle_prefix_fork_tail_source j) (fun _ => inv L) (thrown L) s.
Proof.
  intros Hinv. unfold settle_prefix_fork_tail_source. wp_step. apply wp_fork_ref; [|by intros ?]. intros f Hf. wp_step. apply wp_require_fork; [|by intros ?].
  intros [a Ha] _. wp_step. wp_step; [|by intros ?]. simp_bool. wp_step. apply wp_require; [|by intros ?]. intros a' _ _. wp_step.
  pose proof (fork_of _ _ _ _ Hinv Hf) as [Hshape [Ht Hr]]. apply wp_membership; [by eapply tail_cell|]. wp_step. apply wp_guard.
  destruct (page_valid _ _) eqn:Hv; cbn [negb]; [|apply wp_throw; by intros ?]. wp_step. apply wp_read; [|by intros _ ?]. intros page _ _.
  destruct (_ =? 0); [apply wp_throw; by intros ?|]. wp_step. apply wp_read; [|by intros _ ?]. intros page' _ _.
  destruct (has _); cbn [negb]; [|apply wp_throw; by intros ?]. wp_step.
  eapply wp_conseq; [eapply wp_kept; [by apply inv_paged|]; intros k Hk; by apply unpin_kept| |].
  - intros u t (k & -> & Hk). unfold put_fork. wp_step. set (f' := fork_with _ _ _ _ _ f).
    apply (put_fork_inv L s k j f f'); [done|done|by split|by left|]. destruct (transfers_fork s j f f' Hf) as (T & E1 & E2).
    rewrite E2. change (fork_tail f') with (fork_tail f). by rewrite <- E1.
  - intros e t He Hx. eapply paged_inv; [exact Hinv|exact (He Hx)].
Qed.

Lemma is_u32_wrap x : is_u32 (wrap32 x).
Proof. unfold is_u32, wrap32, U32_MAX. pose proof (Z.mod_pos_bound x 4294967296 ltac:(lia)). lia. Qed.

Lemma complete_fork_inv L s j : inv L s -> wp (complete_prefix_fork_after_tail_release j) (fun _ => inv L) (thrown L) s.
Proof.
  intros Hinv. unfold complete_prefix_fork_after_tail_release. wp_step. apply wp_fork_ref; [|by intros ?]. intros f Hf. wp_step. apply wp_require_fork; [|by intros ?].
  intros [a Ha] _. wp_step. wp_step; [|by intros ?]. simp_bool. wp_step. apply wp_require; [|by intros ?]. intros a' _ _. wp_step.
  pose proof (fork_of _ _ _ _ Hinv Hf) as [Hshape [Ht Hr]]. apply wp_membership; [by eapply tail_cell|]. wp_step. apply wp_guard.
  destruct (page_valid _ _) eqn:Hv; cbn [negb]; [|apply wp_throw; by intros ?]. wp_step. apply wp_read; [|by intros _ ?]. intros page _ _.
  destruct (has _); [apply wp_throw; by intros ?|]. wp_step. apply wp_read; [|by intros _ ?]. intros page' _ _.
  destruct (has _); cbn [negb]; [|apply wp_throw; by intros ?]. cbv zeta. destruct (fr_page_reservation f) as [k|] eqn:Hk; cbn [resize_object].
  - eapply wp_conseq; [apply (resize_held L k); [split; [done|by eapply fork_account]|apply is_u32_wrap]| |].
    + by intros u t [[? _] _].
    + intros e t He Hx. by apply He.
  - apply wp_on_pages. wp_step. rewrite set_kv_id. by intros ?.
Qed.

(** * Sharing the full pages of the source *)

(** What an exception in a commit may leave: references of no address. *)
Definition leaky (L : list token) : error -> asp -> Prop := if_thrown (fun t => exists L', inv (L' ++ L) t).

Lemma thrown_leaky L e t : thrown L e t -> leaky L e t.
Proof. intros H He. exists []. by apply H. Qed.

Section Sharing.
Context (L : list token) (s : asp) (w : table_world) (sh dh : KVAddressSpaceHandle) (a b : Address) (full : Z).
Hypothesis Hinv : inv L s.
Hypothesis Ha : denotes s sh a.
Hypothesis Hb : denotes s dh b.
Hypothesis Hempty : ad_page_count b = 0.
Hypothesis Hdist : ah_index sh <> ah_index dh.
Hypothesis Hw : e_spec (w_table w) = e_spec (w_table (as_world s)).
Notation st := (as_store s).
Notation si := (ah_index sh).
Notation di := (ah_index dh).
Notation this := (ls_this (kv_store (as_kv s))).
Notation n := (length (kv_reservations (as_kv s))).

Definition shared (p : Z) : list token := map (fun q => (handle_at st si q, kPagedKVPageSize)) (seqZ 0 p).

Record sharing (p : Z) (R : list token) (t : asp) (k : kv) (ms : list LogicalKVPageHandle) : Prop := {
  sg_state : t = set_world w (at_cells s k ms);
  sg_agrees : agrees st ms;
  sg_cells : forall q, 0 <= q < p -> ms.[cell st di q] = Some (handle_at st si q);
  sg_others : forall c, (forall q, 0 <= q < av_page_capacity st -> cell st di q <> c) -> ms.[c] = (av_memberships st).[c];
  sg_pages : pinv this n (R ++ refs_of st ++ L) (actives_of st) (transfers_of s) k;
}.

Lemma sharing_start : sharing 0 (shared 0) (set_world w s) (as_kv s) (av_memberships st).
Proof.
  constructor; try done.
  - by destruct s as [? ? [] ? ? ?].
  - apply agrees_refl.
  - intros q Hq. lia.
  - cbn. by apply inv_pages.
Qed.

(** The shared pages leak when the commit stops here. *)
Lemma sharing_leaks p R t k ms : sharing p R t k ms -> inv (R ++ L) t.
Proof.
  intros [-> Hms _ _ Hk]. apply (inv_set_world (R ++ L) (at_cells s k ms)); [|done].
  assert (Hk' : pinv this n (refs_of st ++ R ++ L) (actives_of st) (transfers_of s) k) by (by rewrite Permutation_app_swap_app).
  constructor; cbn; try apply Hinv.
  - apply Hk'.
  - rewrite (pi_this _ _ _ _ _ _ Hk'). apply Hinv.
  - unfold at_cells. cbn. rewrite refs_agrees, actives_agrees by done. apply Hk'.
  - apply cells_ok; [apply Hinv|apply Hms].
  - eapply Forall_impl; [apply Hinv|]. cbn. intros x Hx. pose proof (pi_accounts _ _ _ _ _ _ Hk'). lia.
Qed.

Lemma source_cell p t R k ms q : sharing p R t k ms -> 0 <= q < av_page_capacity st ->
  0 <= cell (as_store t) si q < vsize (av_memberships (as_store t)) /\ handle_at (as_store t) si q = handle_at st si q.
Proof.
  intros [-> Hms Hc Ho Hk] Hq. pose proof Ha as (Ha' & _). pose proof (ao_count _ _ (denotes_ok _ _ _ _ Hinv Ha)).
  cbn [as_store set_world at_cells set_store av_memberships with_memberships]. rewrite (proj1 Hms).
  change (cell (with_memberships ms st) si q) with (cell st si q). split; [eapply membership_bounds; [apply Hinv|exact Ha'|lia]|].
  unfold handle_at. change (av_memberships (with_memberships ms st)) with ms. change (cell (with_memberships ms st) si q) with (cell st si q). rewrite Ho; [done|].
  intros q' Hq' E. apply membership_inj in E as [E _]; [by apply Hdist|lia|lia].
Qed.

Lemma destination_dead q : 0 <= q < av_page_capacity st -> 0 <= cell st di q < vsize (av_memberships st) /\ dead_cell st (cell st di q).
Proof.
  intros Hq. pose proof Hb as (Hb' & _). split; [eapply membership_bounds; [apply Hinv|exact Hb'|lia]|].
  eapply suffix_dead; [apply Hinv|exact Hb'|lia].
Qed.

Lemma sharing_refs p R t k ms k' R' :
  sharing p R t k ms -> pinv this n (R' ++ refs_of st ++ L) (actives_of st) (transfers_of s) k' -> sharing p R' (set_kv k' t) k' ms.
Proof. intros [-> H1 H2 H3 H4] Hk'. by constructor. Qed.

(** The page is still referenced. *)
Lemma source_referenced p R t k ms q :
  sharing p R t k ms -> 0 <= q < ad_page_count a ->
  page_test (kv_store k) (handle_at st si q) (fun page => ((1 <=? pg_references page) || shareable page) && (0 <=? pg_committed_columns page)) = true.
Proof.
  intros [_ _ _ _ Hk] Hq. pose proof Ha as (Ha' & Hocc & _).
  destruct (toks_ref _ _ _ _ (pi_toks _ _ _ _ _ _ Hk) (handle_at st si q) (need (ad_committed_frontier a) q)) as (page & Hp & Hv & _ & Hr).
  { apply elem_of_app. right. apply elem_of_app. left. by apply token_in. }
  pose proof (pk_columns _ (so_pages _ (ki_store _ _ (pi_ok _ _ _ _ _ _ Hk)) _ _ Hp)).
  unfold page_test. rewrite Hv, Hp. cbn. rewrite (proj2 (Z.leb_le 1 _)) by lia. apply Z.leb_le. lia.
Qed.

Lemma shared_snoc p : 0 <= p -> shared (p + 1) ≡ₚ (handle_at st si p, kPagedKVPageSize) :: shared p.
Proof. intros Hp. unfold shared. rewrite seqZ_app by lia. rewrite map_app. cbn. by rewrite Permutation_app_comm. Qed.

(** Taking a reference to a full page and storing it in the destination. *)
Lemma take_page_step p t k ms :
  0 <= p < full -> full <= av_page_capacity st -> sharing p (shared p) t k ms ->
  page_test (kv_store k) (handle_at st si p) (fun page => ((1 <=? pg_references page) || shareable page) && (0 <=? pg_committed_columns page)) = true ->
  wp (_ ← on_pages (retain_reference (handle_at st si p) false);
      _ ← on_pages (protect_coverage (handle_at st si p) kPagedKVPageSize);
      set_membership di p (handle_at st si p))
    (fun _ t' => exists k' ms', sharing (p + 1) (shared (p + 1)) t' k' ms' /\
       forall h, page_test (kv_store k') h shareable = page_test (kv_store k) h shareable) (leaky L) t.
Proof.
  intros Hp Hcap Hsh Hr. pose proof Hsh as [Et Hms Hc Ho Hk].
  wp_step. apply wp_on_pages. replace (as_kv t) with k by (by rewrite Et).
  eapply wp_conseq; [eapply (wp_also _ _ (fun _ k' => forall h, page_test (kv_store k') h shareable = page_test (kv_store k) h shareable)); [apply (retain_gives _ 0 Hk Hr)|intros u k' E h'; exact (retain_keeps_shareable _ _ _ _ h' E)]| |].
  2:{ intros e k' Hu He. rewrite Hu by (by intros ->). exists (shared p). eapply sharing_leaks, sharing_refs; [exact Hsh|exact Hk]. }
  intros u k1 [Hk1 Hsame1]. wp_step. apply wp_on_pages. cbn [as_kv set_kv].
  eapply wp_conseq; [eapply (wp_also _ _ (fun _ k' => forall h, page_test (kv_store k') h shareable = page_test (kv_store k1) h shareable)); [apply (protect_raises _ 0 kPagedKVPageSize Hk1); by vm_compute|intros u' k' E h'; exact (protect_keeps_shareable _ _ _ _ _ h' E)]| |].
  2:{ intros e k' Hu He. rewrite Hu by (by intros ->). exists ((handle_at st si p, 0) :: shared p).
      change (set_kv k1 (set_kv k1 t)) with (set_kv k1 t). eapply sharing_leaks, sharing_refs; [exact Hsh|exact Hk1]. }
  intros u2 k2 [Hk2 Hsame2]. destruct (destination_dead p ltac:(lia)) as [Hcb Hdead]. rewrite Et.
  apply wp_set_membership; [cbn; by rewrite (proj1 Hms)|]. exists k2, (ms.[cell st di p <- handle_at st si p]).
  split; [|intros h; by rewrite Hsame2, Hsame1]. constructor.
  - reflexivity.
  - by apply agrees_set.
  - intros q Hq. destruct (decide (q = p)) as [->|Hne]; [apply vget_vset_eq; by rewrite (proj1 Hms)|].
    rewrite vget_vset_ne by (unfold cell; lia). apply Hc. lia.
  - intros c Hcc. rewrite vget_vset_ne; [by apply Ho|]. intros E. by apply (Hcc p); [lia|].
  - rewrite shared_snoc by lia. exact Hk2.
Qed.

(** The full pages of a fork, which the commit has found on the device. *)
Lemma share_pages :
  0 <= full <= av_page_capacity st ->
  (forall q, 0 <= q < full -> page_test (kv_store (as_kv s)) (handle_at st si q) shareable = true) ->
  wp (mfor (share_page si di) (seqZ 0 full)) (fun _ t => exists k ms, sharing full (shared full) t k ms) (leaky L) (set_world w s).
Proof.
  intros Hf Hready. eapply wp_conseq; [apply (wp_for_range _ (fun p t => exists k ms, sharing p (shared p) t k ms /\
    forall h, page_test (kv_store k) h shareable = page_test (kv_store (as_kv s)) h shareable)); [lia| |]| |done].
  - exists (as_kv s), (av_memberships st). split; [apply sharing_start|done].
  - intros p t Hp (k & ms & Hsh & Hsame). rewrite Z.add_0_l in Hp. destruct (source_cell _ _ _ _ _ p Hsh ltac:(lia)) as [Hcb Hh].
    unfold share_page. wp_step. apply wp_membership; [done|]. rewrite Hh.
    eapply wp_conseq; [apply (take_page_step p t k ms Hp); [lia|exact Hsh|]| |done].
    + specialize (Hready p Hp). rewrite <- Hsame in Hready. apply page_test_true in Hready as (page & Hv & Hpg & _ & Hr).
      pose proof (pk_columns _ (so_pages _ (ki_store _ _ (pi_ok _ _ _ _ _ _ (sg_pages _ _ _ _ _ Hsh))) _ _ Hpg)).
      unfold page_test. rewrite Hv, Hpg. cbn. rewrite Hr, orb_true_r. apply Z.leb_le. lia.
    + intros u t' (k' & ms' & Hsh' & Hsame'). exists k', ms'. split; [done|]. intros h. by rewrite Hsame', Hsame.
  - intros u t (k & ms & Hsh & _). by exists k, ms.
Qed.

Lemma freeze_page_step p t k ms :
  0 <= p < full -> full <= ad_page_count a -> full <= av_page_capacity st -> sharing p (shared p) t k ms ->
  wp (freeze_page si di p) (fun _ t' => exists k' ms', sharing (p + 1) (shared (p + 1)) t' k' ms') (leaky L) t.
Proof.
  intros Hp Hcount Hcap Hsh. destruct (source_cell _ _ _ _ _ p Hsh ltac:(lia)) as [Hcb Hh]. pose proof Hsh as [Et Hms Hc Ho Hk].
  assert (Htake : forall t' k', sharing p (shared p) t' k' ms ->
    wp (_ ← on_pages (retain_reference (handle_at st si p) false);
        _ ← on_pages (protect_coverage (handle_at st si p) kPagedKVPageSize);
        set_membership di p (handle_at st si p))
      (fun _ t2 => exists k2 ms2, sharing (p + 1) (shared (p + 1)) t2 k2 ms2) (leaky L) t').
  { intros t' k' Hsh'. eapply wp_conseq; [apply (take_page_step p t' k' ms Hp Hcap Hsh')| |done].
    - eapply source_referenced; [exact Hsh'|lia].
    - intros u2 t2 (k2 & ms2 & H2 & _). by exists k2, ms2. }
  assert (Hleak : leaky L InvalidArgument t) by (intros _; exists (shared p); by eapply sharing_leaks).
  unfold freeze_page. wp_step. apply wp_membership; [done|]. rewrite Hh. wp_step. apply wp_read; [|done]. intros page _ _. wp_step.
  destruct (_ =? 0); cbn [negb]; [apply wp_ret; by eapply Htake|].
  apply wp_on_pages. replace (as_kv t) with k by (by rewrite Et). eapply wp_conseq; [apply (set_writer_kept Hk)| |].
  - intros u k' Hk'. eapply Htake, sharing_refs; [exact Hsh|exact Hk'].
  - intros e k' Hu He. rewrite Hu by (by intros ->). exists (shared p). eapply sharing_leaks, sharing_refs; [exact Hsh|exact Hk].
Qed.

Lemma share_loop (step : Z -> P unit) :
  0 <= full <= av_page_capacity st ->
  (forall p t k ms, 0 <= p < full -> full <= av_page_capacity st -> sharing p (shared p) t k ms ->
     wp (step p) (fun _ t' => exists k' ms', sharing (p + 1) (shared (p + 1)) t' k' ms') (leaky L) t) ->
  wp (mfor step (seqZ 0 full)) (fun _ t => exists k ms, sharing full (shared full) t k ms) (leaky L) (set_world w s).
Proof.
  intros Hf Hstep. eapply wp_conseq; [apply (wp_for_range _ (fun p t => exists k ms, sharing p (shared p) t k ms)); [lia| |]| |done].
  - exists (as_kv s), (av_memberships st). apply sharing_start.
  - intros p t Hp (k & ms & Hsh). eapply Hstep; [lia|lia|exact Hsh].
  - intros u t Ht. exact Ht.
Qed.
End Sharing.

(** * Active references of the new mapping *)
Section RetainActive.
Context (t : asp) (i m : Z) (cols : Z -> Z) (this : Z) (n : nat) (R T : list token) (A0 : list LogicalKVPageHandle).
Notation H q := (handle_at (as_store t) i q).
Notation tokens lo len := (map (fun q => (H q, cols q)) (seqZ lo len)).
Hypothesis Hcells : cells_exist t i 0 m.
Hypothesis Hsub : A0 ⊆+ map fst R.
Hypothesis Hm : 0 <= m.

Lemma tokens_split p : 0 <= p < m -> tokens 0 m ≡ₚ (H p, cols p) :: (tokens 0 p ++ tokens (p + 1) (m - (p + 1))).
Proof.
  intros Hp. replace m with (p + (1 + (m - (p + 1)))) at 1 by lia. rewrite (seqZ_app 0 p), (seqZ_app (0 + p) 1) by lia.
  change (seqZ (0 + p) 1) with [0 + p]. rewrite Z.add_0_l, !map_app. cbn [map app]. by rewrite <- Permutation_middle.
Qed.

Lemma retain_active_pages_spec k :
  pinv this n (tokens 0 m ++ R) A0 T k ->
  wp (retain_active_pages i m) (fun _ t' => exists k', t' = set_kv k' t /\ pinv this n (tokens 0 m ++ R) (map (fun q => H q) (seqZ 0 m) ++ A0) T k') no_error (set_kv k t).
Proof.
  intros Hk. unfold retain_active_pages.
  apply (wp_for_range _ (fun p t' => exists k', t' = set_kv k' t /\ pinv this n (tokens 0 m ++ R) (map (fun q => H q) (seqZ 0 p) ++ A0) T k')); [done|by exists k|].
  intros p t' Hp (k' & -> & Hk'). wp_step. apply wp_membership; [apply Hcells; lia|]. apply wp_on_pages. cbn [as_kv set_kv as_store].
  rewrite (tokens_split p) in Hk' by lia. cbn [app] in Hk'.
  destruct (active_lt _ _ _ _ _ _ _ _ Hk') as (page & Hpg & Hv & Hlt).
  { rewrite !map_app, map_map, <- !app_assoc. apply submseteq_app; [done|]. by apply submseteq_inserts_l. }
  eapply wp_conseq; [apply (retain_active_gives (H p) Hk')| |done].
  { unfold page_test. rewrite Hv, Hpg. cbn. by apply Z.ltb_lt. }
  intros u k2 Hk2. exists k2. split; [done|]. rewrite (tokens_split p) by lia. cbn [app]. rewrite seqZ_app, map_app by lia. rewrite Z.add_0_l. change (seqZ p 1) with [p]. cbn [map].
  rewrite (Permutation_app_comm (map _ (seqZ 0 p)) [H p]). exact Hk2.
Qed.
End RetainActive.

(** The tokens of the pages in the cells of an address. *)
Definition copied (s : asp) (i : Z) (ms : list LogicalKVPageHandle) (frontier : Z) : list token :=
  map (fun q => (default null_logical_handle (ms.[cell (as_store s) i q]), need frontier q)) (seqZ 0 (pages_for_tokens frontier)).

Lemma need_full f q : 0 <= q < f / kPagedKVPageSize -> need f q = kPagedKVPageSize.
Proof.
  intros Hq. assert (0 <= f) by (destruct (Z.lt_ge_cases f 0) as [Hn|]; [|done]; pose proof (Z.div_lt_upper_bound f kPagedKVPageSize 0 ltac:(done) ltac:(lia)); lia).
  pose proof (frontier_split f ltac:(lia)). unfold need, kPagedKVPageSize in *. lia.
Qed.

Lemma need_tail f : 0 <= f -> need f (f / kPagedKVPageSize) = f mod kPagedKVPageSize.
Proof. intros Hf. pose proof (frontier_split f Hf). unfold need, kPagedKVPageSize in *. lia. Qed.

Section Tail.
Context (L : list token) (s : asp) (w : table_world) (sh dh : KVAddressSpaceHandle) (a b : Address) (f : Z) (T : list token).
Hypothesis Hinv : inv L s.
Hypothesis Ha : denotes s sh a.
Hypothesis Hb : denotes s dh b.
Hypothesis Hempty : ad_page_count b = 0.
Hypothesis Hdist : ah_index sh <> ah_index dh.
Hypothesis Hw : e_spec (w_table w) = e_spec (w_table (as_world s)).
Hypothesis Hf : 0 < f <= U32_MAX.
Hypothesis Hcap : pages_for_tokens f <= av_page_capacity (as_store s).
Hypothesis Hsrc : pages_for_tokens f <= ad_page_count a.
Notation st := (as_store s).
Notation full := (f / kPagedKVPageSize).
Notation di := (ah_index dh).
Notation this := (ls_this (kv_store (as_kv s))).
Notation n := (length (kv_reservations (as_kv s))).

Lemma full_bounds : 0 <= full <= pages_for_tokens f.
Proof. pose proof (frontier_split f ltac:(lia)). rewrite pages_split by lia. destruct (_ =? 0); lia. Qed.

Lemma sharing_own p R t k ms : sharing L s w sh dh p R t k ms -> own_cells st di ms.
Proof.
  intros [_ Hms _ Ho _]. split; [apply Hms|]. intros c.
  destruct (decide (Exists (fun p => cell st di p = c) (seqZ 0 (av_page_capacity st)))) as [Hx|Hx].
  - right. apply Exists_exists in Hx as (q & Hq%elem_of_seqZ & <-). exists q. split; [lia|done].
  - left. apply Ho. intros q Hq E. apply Hx, Exists_exists. exists q. split; [apply elem_of_seqZ; lia|done].
Qed.

(** Without a tail the full pages are all of the copy. *)
Lemma copied_full t k ms :
  f mod kPagedKVPageSize = 0 -> sharing L s w sh dh full (shared s sh full) t k ms -> copied s di ms f = shared s sh full.
Proof.
  intros Hz [_ _ Hc _ _]. unfold copied, shared. rewrite pages_split, Hz by lia. rewrite Z.add_0_r.
  apply map_ext_in. intros q Hq%list_elem_of_In%elem_of_seqZ. rewrite Hc, need_full by lia. done.
Qed.

Lemma copied_tail t k ms h :
  f mod kPagedKVPageSize <> 0 -> sharing L s w sh dh full (shared s sh full) t k ms -> full < av_page_capacity st ->
  copied s di (ms.[cell st di full <- h]) f ≡ₚ (h, f mod kPagedKVPageSize) :: shared s sh full.
Proof.
  intros Hz [_ Hms Hc _ _] Hfc. pose proof full_bounds as Hfb. unfold copied, shared. rewrite pages_split by lia. rewrite (proj2 (Z.eqb_neq _ _)) by done.
  rewrite seqZ_app, map_app by lia. rewrite Z.add_0_l. change (seqZ full 1) with [full]. rewrite Permutation_app_comm. cbn [map app].
  rewrite vget_vset_eq, need_tail by (lia || (rewrite (proj1 Hms); eapply destination_dead; [exact Hinv|exact Hb|exact Hempty|lia])). apply Permutation_skip, reflexive_eq.
  apply map_ext_in. intros q Hq%list_elem_of_In%elem_of_seqZ. rewrite vget_vset_ne by (unfold cell; lia). rewrite Hc, need_full by lia. done.
Qed.

Lemma publish_tail t k ms R h tail :
  sharing L s w sh dh full R t k ms -> transfers_of s ≡ₚ (h, tail) :: T ->
  wp (on_pages (publish_transfer_destination h true))
    (fun _ t' => exists k', t' = set_kv k' t /\ pinv this n ((h, tail) :: R ++ refs_of st ++ L) (actives_of st) T k') (leaky L) t.
Proof.
  intros Hsh HT. pose proof Hsh as [Et _ _ _ Hk]. rewrite HT in Hk. apply wp_on_pages. replace (as_kv t) with k by (by rewrite Et).
  eapply wp_conseq; [apply (publish_transfer_moves h tail true Hk)| |].
  - intros u k' Hk'. by exists k'.
  - intros e k' Hu He. rewrite Hu by (by intros ->). replace (set_kv k t) with t by (rewrite Et; done). exists R. by eapply sharing_leaks.
Qed.

(** The destination takes the pages over. *)
Definition taken_over (reservation : option nat) (row : option KVExecutionRowLease) : Address :=
  set_activity reservation row true (set_committed_frontier f (set_page_count (pages_for_tokens f) b)).

Lemma taken_over_ok reservation row :
  reservation <> None -> row <> None -> address_ok (av_page_capacity st) (taken_over reservation row).
Proof.
  intros Hr Hrow. pose proof (denotes_ok _ _ _ _ Hinv Hb) as Hok. destruct Hok as [K1 K2 K3 K4 K5 K6]. pose proof full_bounds.
  assert (ad_committed_frontier b = 0) as E.
  { destruct (decide (ad_committed_frontier b = 0)) as [|Hne]; [done|]. pose proof (pages_for_tokens_spec (ad_committed_frontier b) ltac:(lia)).
    rewrite Hempty in K2. unfold kPagedKVPageSize in *. lia. }
  destruct Hb as (_ & Hocc & _). constructor; cbn; try done; try lia; congruence.
Qed.

Lemma handed_over k ms fks sns reservation row :
  own_cells st di ms -> reservation <> None -> row <> None ->
  pinv this n (copied s di ms f ++ refs_of st ++ L) (map (fun q => default null_logical_handle (ms.[cell st di q])) (seqZ 0 (pages_for_tokens f)) ++ actives_of st)
    (transfers_of (mkAsp k (as_world s) (change st di (taken_over reservation row) ms) (as_activations s) fks sns)) k ->
  (forall x, x ∈ accounts_of (mkAsp k (as_world s) (change st di (taken_over reservation row) ms) (as_activations s) fks sns) -> x ∈ accounts_of s) ->
  Forall (fork_ok (av_page_capacity st)) fks -> Forall (snapshot_ok (av_page_capacity st)) sns ->
  inv L (mkAsp k w (change st di (taken_over reservation row) ms) (as_activations s) fks sns).
Proof.
  intros Hown Hr Hrow Hk Hacc Hfk Hsn. pose proof Hb as (Hb' & Hocc & _).
  change (mkAsp k w ?st' ?x ?y ?z) with (set_world w (mkAsp k (as_world s) st' x y z)). apply inv_set_world; [|done].
  eapply inv_change; [exact Hinv|exact Hb'|exact Hown|by apply taken_over_ok|done| |done|done|done].
  rewrite (refs_split _ _ _ Hb'), (actives_split _ _ _ Hb') in Hk. destruct (no_pages st di b Hempty) as [E1 E2]. rewrite E1, E2 in Hk.
  unfold addr_refs, addr_actives. cbn [ad_occupied ad_active taken_over set_activity set_committed_frontier set_page_count as_store]. rewrite Hocc. exact Hk.
Qed.
End Tail.

(** * Committing a fork *)
Section CommitFork.
Context (L : list token) (s : asp) (j : nat) (f : KVPrefixForkReservation).
Hypothesis Hinv : inv L s.
Hypothesis Hj : as_forks s !! j = Some f.
Notation st := (as_store s).
Notation si := (ah_index (fr_source f)).
Notation di := (ah_index (fr_destination f)).

(** The fork after its members are moved out. *)
Notation spent owner := (fork_with owner None None None (fr_tail_source_settled f) f).

Lemma spent_ok owner : fork_ok (av_page_capacity st) (spent owner).
Proof. pose proof (fork_of _ _ _ _ Hinv Hj) as [Hs _]. split; [apply Hs|by split]. Qed.

Lemma moved_accounts k ms b b' fks :
  (av_addresses st).[di] = Some b -> ad_reservation b' = fr_page_reservation f -> fks = <[j := spent (fr_owner f)]> (as_forks s) ->
  forall x, x ∈ accounts_of (mkAsp k (as_world s) (change st di b' ms) (as_activations s) fks (as_snapshots s)) -> x ∈ accounts_of s.
Proof.
  intros Hb Hr -> x. unfold accounts_of. cbn. rewrite !elem_of_app. intros [Hx|[Hx|[Hx|Hx]]]; [|tauto| |tauto].
  - apply list_elem_of_omap in Hx as (y & Hy & Ey). apply elem_vget in Hy as (m & Hm & _). rewrite vget_vset in Hm. destruct (_ && _).
    + injection Hm as <-. right. right. left. apply list_elem_of_omap. exists f. split; [by eapply list_elem_of_lookup_2|congruence].
    + left. apply list_elem_of_omap. exists y. split; [by eapply vget_elem|done].
  - right. right. left. eapply omap_insert; [exact Hj| |exact Hx]. by right.
Qed.
End CommitFork.

(** The commit's test of a page, which finds the full pages on the device. *)
Lemma fork_commit_page_reads s i f p :
  0 <= cell (as_store s) i p < vsize (av_memberships (as_store s)) ->
  wp (fork_commit_page_ok i f p)
    (fun _ t => t = s /\ (p < fr_full_pages f -> page_test (kv_store (as_kv s)) (handle_at (as_store s) i p) shareable = true)) (reads s) s.
Proof.
  intros Hc. unfold fork_commit_page_ok. wp_step. apply wp_membership; [done|]. cbv zeta. wp_step.
  eapply wp_conseq with (E := reads s) (Q := fun _ t => t = s /\ (p < fr_full_pages f ->
    page_test (kv_store (as_kv s)) (handle_at (as_store s) i p) (fun page => has (pg_device_replica page)) = true)); [| |done].
  - destruct (Z.eqb_spec p (fr_full_pages f)) as [Ep|Ep]; cbn [andb]; [destruct (fr_tail_source_settled f)|]; cbn [negb].
    + apply wp_ret. split; [done|]. lia.
    + wp_step. apply wp_read; [|done]. intros page _ _. destruct (_ =? 0); [by apply wp_throw|].
      wp_step. apply wp_read; [|done]. intros page' _ _. wp_step; [|done]. split; [done|]. lia.
    + wp_step. apply wp_read; [|done]. intros page _ _. destruct (_ =? 0); [by apply wp_throw|].
      wp_step. apply wp_read; [|done]. intros page' Hv Hpg. wp_step; [|done]. split; [done|]. intros _.
      unfold page_test. rewrite Hv, Hpg. by apply negb_false_iff.
  - intros u t [-> Hdev]. wp_step. eapply wp_conseq with (Q := reads s) (E := reads s); [| |done].
    + destruct (_ && _); [|by apply wp_ret]. destruct (fr_staged_tail_release f); cbn [negb]; [|by apply wp_throw]. wp_step. apply wp_read; [|done].
      intros page _ _. destruct (has _); [by apply wp_throw|]. wp_step. apply wp_read; [|done]. intros page' _ _. by wp_step.
    + intros u' t ->. wp_step. apply wp_guard. wp_step; [|done]. split; [done|]. intros Hlt.
      rewrite (proj2 (Z.ltb_lt _ _) Hlt) in Hguard. apply negb_false_iff in Hguard.
      apply page_test_true in Hguard as (page & Hv & Hpg & _ & Hg). specialize (Hdev Hlt).
      apply page_test_true in Hdev as (page' & _ & Hpg' & _ & Hd). unfold page_test, shareable. rewrite Hv, Hpg. cbn. simplify_eq. simp_bool.
      rewrite Hd. by apply negb_true_iff.
Qed.

Lemma tail_physical_reads s (o : option LogicalKVPageHandle) :
  wp (match o with Some t => p ← on_pages (physical t); mret [p] | None => mret [] end : P (list DeviceKVPageHandle)) (reads s) (reads s) s.
Proof.
  destruct o as [h|]; [|by apply wp_ret]. wp_step. apply wp_on_pages. pose proof (physical_reads h (as_kv s)) as Hr. unfold wp.
  destruct (physical h (as_kv s)) as [k [d|e]]; cbn in Hr; subst k; by rewrite set_kv_id.
Qed.

Lemma paged_leaky L s e t :
  inv L s -> if_thrown (paged s (ls_this (kv_store (as_kv s))) (length (kv_reservations (as_kv s))) (refs_of (as_store s) ++ L) (actives_of (as_store s)) (transfers_of s)) e t ->
  leaky L e t.
Proof. intros Hinv Ht. apply thrown_leaky. intros He. eapply paged_inv; [exact Hinv|exact (Ht He)]. Qed.

Lemma actives_in_refs L s : inv L s -> actives_of (as_store s) ⊆+ map fst (refs_of (as_store s) ++ L).
Proof. intros Hinv. rewrite map_app. apply submseteq_inserts_r, actives_of_sub, Hinv. Qed.

Section CommitForkRun.
Context (L : list token) (s : asp) (j : nat) (f : KVPrefixForkReservation) (w : table_world) (a b : Address).
Hypothesis Hinv : inv L s.
Hypothesis Hj : as_forks s !! j = Some f.
Hypothesis Ha : denotes s (fr_source f) a.
Hypothesis Hb : denotes s (fr_destination f) b.
Hypothesis Hempty : ad_page_count b = 0.
Hypothesis Hw : e_spec (w_table w) = e_spec (w_table (as_world s)).
Hypothesis Htail : fr_tail_columns f <> 0 -> fr_tail_destination f <> None.
Notation st := (as_store s).
Notation si := (ah_index (fr_source f)).
Notation di := (ah_index (fr_destination f)).
Notation this := (ls_this (kv_store (as_kv s))).
Notation n := (length (kv_reservations (as_kv s))).
Notation spent owner := (fork_with owner None None None (fr_tail_source_settled f) f).
Notation frontier := (fr_frontier f).

(** The references are the destination's. *)
Definition fork_taken (t : asp) : Prop := exists k ms fks,
  t = mkAsp k w (with_memberships ms st) (as_activations s) fks (as_snapshots s) /\ own_cells st di ms /\
  <[j := spent (fr_owner f)]> fks = <[j := spent (fr_owner f)]> (as_forks s) /\
  pinv this n (copied s di ms frontier ++ refs_of st ++ L) (actives_of st) (transfers_of (set_forks (<[j := spent (fr_owner f)]> (as_forks s)) s)) k.

Lemma fork_tail_stage t k ms :
  sharing L s w (fr_source f) (fr_destination f) (fr_full_pages f) (shared s (fr_source f) (fr_full_pages f)) t k ms ->
  wp (match fr_tail_destination f with
      | Some t =>
          _ ← on_pages (publish_transfer_destination t true);
          _ ← set_membership di (fr_full_pages f) t;
          put_fork j (fork_with (fr_owner f) (fr_page_reservation f) (fr_row f) None (fr_tail_source_settled f) f)
      | None => mret tt
      end) (fun _ => fork_taken) (leaky L) t.
Proof.
  intros Hsh. pose proof (fork_of _ _ _ _ Hinv Hj) as [[Hne [Hfr Hcap] Hfull Htl] [Htd _]]. rewrite Hfull in *.
  pose proof (full_bounds frontier Hfr) as Hfb.
  destruct (transfers_fork s j f (spent (fr_owner f)) Hj) as (T & E1 & E2). cbn [app fork_tail fr_tail_destination fork_with] in E2. unfold fork_taken.
  pose proof (sharing_own L s w _ _ _ _ _ _ _ Hsh) as Hown. unfold fork_tail in E1. destruct (fr_tail_destination f) as [h|] eqn:Eh.
  - assert (Hz : frontier mod kPagedKVPageSize <> 0) by (rewrite <- Htl; by apply Htd).
    assert (Hlt : frontier / kPagedKVPageSize < av_page_capacity st) by (rewrite pages_split in Hcap by lia; rewrite (proj2 (Z.eqb_neq _ _)) in Hcap by done; lia).
    rewrite Htl in E1. wp_step. eapply wp_conseq; [apply (publish_tail L s w _ _ frontier T Hinv Hw t k ms _ h _ Hsh E1)| |done].
    intros u t1 (k1 & -> & Hk1). rewrite (sg_state _ _ _ _ _ _ _ _ _ _ Hsh). destruct (destination_dead L s _ b Hinv Hb Hempty (frontier / kPagedKVPageSize) ltac:(lia)) as [Hcb _].
    wp_step. apply wp_set_membership; [cbn; by rewrite (proj1 Hown)|]. unfold put_fork. wp_step.
    exists k1, (ms.[cell st di (frontier / kPagedKVPageSize) <- h]), (<[j := fork_with (fr_owner f) (fr_page_reservation f) (fr_row f) None (fr_tail_source_settled f) f]> (as_forks s)).
    split; [reflexivity|]. split; [by apply own_cells_set; [|lia]|]. split; [apply list_insert_insert_eq|].
    rewrite E2, (copied_tail L s w _ _ b frontier Hinv Hb Hempty Hfr _ _ _ h Hz Hsh Hlt). exact Hk1.
  - assert (Hz : frontier mod kPagedKVPageSize = 0).
    { destruct (decide (frontier mod kPagedKVPageSize = 0)) as [|Hx]; [done|]. destruct Htail; [by rewrite Htl|done]. }
    apply wp_ret. exists k, ms, (as_forks s). split; [apply Hsh|]. split; [done|]. split; [done|].
    rewrite (copied_full L s w _ _ frontier Hfr _ _ _ Hz Hsh), E2. pose proof (sg_pages _ _ _ _ _ _ _ _ _ _ Hsh) as Hk. by rewrite E1 in Hk.
Qed.

Lemma fork_finish t :
  fork_taken t -> fr_row f <> None ->
  wp (_ ← update_address di (fun a => set_activity (fr_page_reservation f) (fr_row f) true
             (set_committed_frontier frontier (set_page_count (pages_for_tokens frontier) a)));
      _ ← put_fork j (spent (fr_owner f));
      _ ← retain_active_pages di (pages_for_tokens frontier);
      _ ← mfor (fun page =>
                  if (page =? fr_full_pages f) && fr_tail_source_settled f then mret tt else
                  logical ← membership si page; on_pages (unpin_source logical)) (seqZ 0 (pages_for_tokens frontier));
      put_fork j (spent 0)) (fun _ => inv L) (thrown L) t.
Proof.
  intros (k & ms & fks & -> & Hown & Hfks & Hk) Hrow. pose proof (fork_of _ _ _ _ Hinv Hj) as [[Hne [Hfr Hcap] Hfull Htl] [_ Hres]].
  pose proof Hb as (Hb' & Hocc & _). pose proof (full_bounds frontier Hfr) as Hfb.
  wp_step. unfold update_address. wp_step. eapply wp_address_ref; [exact Hb'|]. unfold put_address. wp_step. wp_step. unfold put_fork at 1. wp_step.
  set (b' := taken_over b frontier (fr_page_reservation f) (fr_row f)). set (fks' := <[j := spent (fr_owner f)]> (as_forks s)).
  set (V := mkAsp k w (change st di b' ms) (as_activations s) fks' (as_snapshots s)).
  match goal with |- wp _ _ _ ?t => replace t with (set_kv k V) by (unfold V, fks'; cbn; by rewrite <- Hfks) end.
  wp_step. eapply wp_conseq; [apply (retain_active_pages_spec V di (pages_for_tokens frontier) (need frontier) this n (refs_of st ++ L)
    (transfers_of (set_forks fks' s)) (actives_of st))| |done].
  - intros q Hq. cbn. change (cell (change st di b' ms) di q) with (cell st di q). rewrite (proj1 Hown). eapply membership_bounds; [apply Hinv|exact Hb'|lia].
  - by apply actives_in_refs.
  - lia.
  - exact Hk.
  - intros u t (k' & -> & Hk'). change (set_kv k' V) with (mkAsp k' w (change st di b' ms) (as_activations s) fks' (as_snapshots s)).
    assert (Hu : inv L (mkAsp k' w (change st di b' ms) (as_activations s) fks' (as_snapshots s))).
    { apply (handed_over L s w (fr_destination f) b frontier Hinv Hb Hempty Hw Hfr Hcap k' ms fks' (as_snapshots s) (fr_page_reservation f) (fr_row f) Hown (Hres Hrow) Hrow).
      - exact Hk'.
      - by eapply (moved_accounts s j f Hj k' ms b b' fks').
      - apply Forall_insert; [apply Hinv|exact (spent_ok L s j f Hinv Hj _)].
      - apply Hinv. }
    set (U := mkAsp k' w (change st di b' ms) (as_activations s) fks' (as_snapshots s)) in *.
    assert (Hcells : cells_exist U si 0 (pages_for_tokens frontier)).
    { intros q Hq. cbn. change (cell (change st di b' ms) si q) with (cell st si q). rewrite (proj1 Hown). destruct Ha as (Ha' & _).
      eapply membership_bounds; [apply Hinv|exact Ha'|lia]. }
    wp_step. eapply wp_conseq; [eapply (unpin_pages_kept (s := U) si (pages_for_tokens frontier) (fun page => (page =? fr_full_pages f) && fr_tail_source_settled f) U);
      [by apply inv_paged|exact Hcells]| |].
    + intros u2 t (k2 & -> & Hk2). unfold put_fork. wp_step.
      assert (HjU : as_forks U !! j = Some (spent (fr_owner f))) by (apply list_lookup_insert_eq; by eapply lookup_lt_Some).
      eapply (put_fork_inv L U k2 j (spent (fr_owner f)) (spent 0)); [exact Hu|exact HjU|exact (spent_ok L s j f Hinv Hj _)|by left|].
      destruct (transfers_fork U j _ (spent 0) HjU) as (T & E1 & E2). rewrite E2. change (fork_tail (spent 0)) with (fork_tail (spent (fr_owner f))). by rewrite <- E1.
    + intros e t He Hx. eapply paged_inv; [exact Hu|exact (He Hx)].
Qed.
End CommitForkRun.

Lemma commit_prefix_fork_inv L s j :
  inv L s -> wp (commit_prefix_fork j) (fun _ => inv L) (leaky L) s.
Proof.
  intros Hinv. assert (Hs : forall e, leaky L e s) by (intros e _; by exists []).
  unfold commit_prefix_fork. wp_step. apply wp_fork_ref; [|done]. intros f Hj. wp_step. apply wp_require_fork; [|done].
  intros _ _. wp_step. apply wp_require; [|done]. intros a Ha Hva. wp_step. apply wp_require; [|done]. intros b Hb _. cbv zeta. wp_step. wp_step. wp_step. wp_step; [|done].
  simp_bool. pose proof (fork_of _ _ _ _ Hinv Hj) as [[Hne [Hfr Hcap] Hfull Htl] [_ Hres]].
  pose proof (full_bounds (fr_frontier f) Hfr) as Hfb.
  assert (Hcells : cells_exist s (ah_index (fr_source f)) 0 (pages_for_tokens (fr_frontier f))) by (eapply capacity_cells; [exact Hinv|exact Ha|lia]).
  wp_step. eapply wp_conseq; [apply (wp_for_range _ (fun p t => t = s /\ forall q, 0 <= q < p -> q < fr_full_pages f ->
    page_test (kv_store (as_kv s)) (handle_at (as_store s) (ah_index (fr_source f)) q) shareable = true) (reads s)); [lia| |]| |intros e t ->; done].
  { split; [done|]. lia. }
  { intros p t Hp [-> Hq]. eapply wp_conseq; [apply fork_commit_page_reads, Hcells; lia| |done]. intros u t [-> Hlast]. split; [done|].
    intros q Hqp Hqf. destruct (decide (q = p)) as [->|]; [by apply Hlast|]. apply Hq; [lia|done]. }
  intros u t [-> Hready]. wp_step. wp_step; [|done].
  assert (Htail : fr_tail_columns f <> 0 -> fr_tail_destination f <> None).
  { intros Hx E. rewrite E in Hguard. rewrite (proj2 (Z.eqb_neq _ _)) in Hguard by done. done. }
  wp_step. eapply wp_conseq; [apply (page_handles_read _ _ s (leaky L)); [|done]| |done].
  { intros p Hp%elem_of_seqZ. apply Hcells. lia. }
  intros hs t [-> _]. wp_step. eapply wp_conseq; [apply tail_physical_reads| |intros e t ->; done]. intros tl t ->. wp_step.
  match goal with Hrow : has (fr_row f) = true |- _ => apply has_true in Hrow; rename Hrow into Hrow' end.
  eapply wp_conseq; [by apply publish_row_kept| |].
  2:{ intros e t (w & -> & Hw). apply thrown_leaky. intros _. by apply inv_set_world. }
  intros u2 t [(w & -> & Hw) _]. wp_step.
  eapply wp_conseq; [apply (share_pages L s w (fr_source f) (fr_destination f) a b (fr_full_pages f)); try done; try lia| |done].
  { intros q Hq. apply Hready; lia. }
  intros u3 t (k & ms & Hsh). wp_step. eapply wp_conseq; [by eapply (fork_tail_stage L s j f w b)| |done].
  intros u4 t' Ht'. eapply wp_conseq; [by eapply (fork_finish L s j f w a b)|done|]. intros e t2 He. by apply thrown_leaky.
Qed.
