(* ===== verification/AddressSnapshots.v ===== *)
(** Active snapshots (src/src/runtime/logical_kv_store.h,
    [active_snapshot_shape] to [abort_active_snapshot]) keep the invariant of
    [AddressRefs]; the pages are shared as in [AddressCopies]. *)

From S2P Require Import Prelude Tensor Layout PagedKv ExecTable LogicalKv PageTokens AddressSpace AddressRefs AddressActive AddressGrowth AddressCopies.

Notation reads s := (fun _ t => t = s) (only parsing).

(** * The shape of a snapshot *)
Lemma shape_page_reads s i acc p :
  0 <= cell (as_store s) i p < vsize (av_memberships (as_store s)) -> wp (shape_page i acc p) (reads s) (reads s) s.
Proof.
  intros Hc. destruct acc as [[im un] mut]. unfold shape_page. wp_step. apply wp_membership; [done|].
  do 4 (wp_step; apply wp_read; [|done]; intros ? _ _). wp_step. apply wp_guard. wp_step. wp_step; [|done]. wp_step. apply wp_guard. wp_step. apply wp_guard.
  cbv zeta. repeat case_match; first [by apply wp_ret|by apply wp_throw].
Qed.

Lemma active_snapshot_shape_reads L s h f :
  inv L s -> 0 <= f ->
  wp (active_snapshot_shape h f)
    (fun shape t => t = s /\ sh_full_pages shape = f / kPagedKVPageSize /\ sh_tail_columns shape = f mod kPagedKVPageSize) (reads s) s.
Proof.
  intros Hinv Hf. unfold active_snapshot_shape. wp_step. apply wp_require_active; [|done|done]. intros a k l Ha Hact _ _. wp_step. wp_step; [|done].
  wp_step. wp_step. cbv zeta. wp_step. wp_step; [|done]. simp_bool. pose proof (full_bounds f ltac:(pose proof (ao_frontier _ _ (denotes_ok _ _ _ _ Hinv Ha)); lia)) as Hfb.
  wp_step. eapply wp_conseq; [apply (wp_fold _ (fun _ t => t = s) (fun _ t => t = s)); [done|]| |done].
  - intros p acc t Hp%elem_of_seqZ ->. apply shape_page_reads. eapply own_cell; [exact Hinv|exact Ha|lia].
  - intros [[im un] mut] t ->. wp_step. eapply wp_conseq with (Q := reads s) (E := reads s); [| |done].
    + destruct (Z.eqb_spec (f mod kPagedKVPageSize) 0) as [Hz|Hz]; cbn [negb]; [by apply wp_ret|]. wp_step.
      apply wp_membership; [eapply own_cell; [exact Hinv|exact Ha|]|].
      { rewrite pages_split in * by lia. rewrite (proj2 (Z.eqb_neq _ _)) in * by done. lia. }
      do 4 (wp_step; apply wp_read; [|done]; intros ? _ _). wp_step. apply wp_guard. by wp_step.
    + intros u t ->. by apply wp_ret.
Qed.

(** * Preparing *)
Lemma abort_destination_held L k s c o t :
  held L k s ->
  paged s (ls_this (kv_store (as_kv s))) (length (kv_reservations (as_kv s))) (refs_of (as_store s) ++ L) (actives_of (as_store s))
    (match o with Some h => [(h, c)] | None => [] end ++ transfers_of s) t ->
  wp (match o with Some h => on_pages (abort_transfer_destination h k) | None => mret tt end) (fun _ => held L k) (fun e t => is_exception e = true -> held L k t) t.
Proof.
  intros Hh Ht. destruct o as [h|]; [|apply wp_ret; exact (forget_tail L k s c None t Hh Ht)]. pose proof Ht as (kv' & -> & Hkv'). apply wp_on_pages.
  eapply wp_conseq; [apply (abort_transfer_takes h c k Hkv')| |].
  - intros u k' Hk'. destruct Hh as [Hinv Hk]. change (set_kv k' (set_kv kv' s)) with (set_kv k' s). split; [by eapply inv_set_kv|]. pose proof (pi_accounts _ _ _ _ _ _ Hk'). cbn. lia.
  - intros e k' Hu He. cbn [as_kv set_kv] in Hu. rewrite Hu by (by intros ->). eapply (forget_tail L k s c (Some h)); [exact Hh|]. by exists kv'.
Qed.

Lemma prepare_active_snapshot_inv L s sh dh f :
  inv L s -> is_u32 f -> wp (prepare_active_snapshot sh dh f) (fun _ => inv L) (thrown L) s.
Proof.
  intros Hinv [Hf0 Hf1]. unfold prepare_active_snapshot. wp_step. apply wp_require_active; [|by intros ?..]. intros a ka la Ha Hact Hres Hrow.
  wp_step. apply wp_require; [|by intros ?]. intros b Hb _. wp_step. wp_step; [|by intros ?]. simp_bool. wp_step.
  eapply wp_conseq; [by apply (active_snapshot_shape_reads L)| |intros e t ->; by intros ?]. intros shape t (-> & Hfull & Htl). cbv zeta. wp_step. wp_step.
  wp_step. wp_step; [|by intros ?]. simp_bool. pose proof (denotes_ok _ _ _ _ Hinv Ha) as Hok. pose proof (ao_count _ _ Hok).
  pose proof (frontier_split f Hf0) as (_ & Hm & Hd).
  assert (Hcells : cells_exist s (ah_index sh) 0 (pages_for_tokens f)) by (eapply capacity_cells; [exact Hinv|exact Ha|lia]).
  wp_step. eapply wp_conseq; [by apply (new_reservation_held L)| |done]. intros k s1 [K1 [kv1 ->]]. apply wp_on_throw_held. wp_step.
  eapply wp_conseq with (Q := fun _ t => held L k t /\ exists kv2, t = set_kv kv2 s) (E := fun e t => is_exception e = true -> held L k t).
  { destruct (_ =? 0); cbn [negb]; [apply wp_ret; split; [done|by exists kv1]|]. eapply wp_conseq; [apply (resize_held L k _ _ K1)| |done].
    - unfold copied_pages. destruct (_ =? 0); by vm_compute.
    - intros u t [Ht [kv2 ->]]. split; [done|by exists kv2]. }
  2: done.
  intros u t [K2 [kv2 ->]]. wp_step. rewrite Htl. eapply wp_conseq; [apply (tail_destination_held L k (f mod kPagedKVPageSize) _ K2)| |done].
  { unfold is_u32, U32_MAX, kPagedKVPageSize in *. lia. }
  intros o t [Ht Ho]. wp_step. eapply wp_conseq with (E := fun e t => is_exception e = true -> held L k t); [apply wp_on_throw; eapply wp_conseq; [eapply pin_pages_kept; [exact Ht|exact Hcells]|done|]| |done].
  - intros e t2 He. cbv beta. destruct (is_exception e) eqn:Hx; [|intros ?; congruence].
    eapply wp_conseq; [apply (abort_destination_held L k _ (f mod kPagedKVPageSize) o t2 K2 (He Hx))|by intros u2 t3 Ht3 _|done].
  - intros u3 t2 (kv3 & -> & Hk3). wp_step. wp_step. wp_step. wp_step. wp_step. destruct K2 as [K2 Hk].
    apply (push_snapshot_inv L (set_kv kv2 s) kv3) with (a := k); [exact K2| |done| |unfold snapshot_tail; cbn [sn_tail_destination sn_shape]; rewrite Htl; exact Hk3].
    + split; [constructor; cbn; try done; [|lia]|cbn; intros Hx; rewrite Htl; by apply Ho].
      intros E. destruct Ha as (Ha & _), Hb as (Hb & _). rewrite E in Ha. assert (a = b) as -> by congruence.
      pose proof (pages_for_tokens_spec f Hf0). unfold kPagedKVPageSize in *. lia.
    + pose proof (pi_accounts _ _ _ _ _ _ Hk3) as Hl. cbn in Hk, Hl |- *. lia.
Qed.

(** * Ending a snapshot *)
Lemma wp_snapshot_ref j Q E s : (forall n, as_snapshots s !! j = Some n -> Q n s) -> E Undefined s -> wp (snapshot_ref j) Q E s.
Proof. intros Hq He. unfold snapshot_ref. wp_step. wp_step. destruct (as_snapshots s !! j) eqn:Hj; [by wp_step; apply Hq|by wp_step]. Qed.

Lemma snapshot_of L s j n : inv L s -> as_snapshots s !! j = Some n -> snapshot_ok (av_page_capacity (as_store s)) n.
Proof. intros Hinv Hj. pose proof (iv_snapshots _ _ Hinv) as H. rewrite Forall_forall in H. apply H. by eapply list_elem_of_lookup_2. Qed.

Lemma snapshot_account L s j n k : inv L s -> as_snapshots s !! j = Some n -> sn_tail_reservation n = Some k -> (k < length (kv_reservations (as_kv s)))%nat.
Proof.
  intros Hinv Hj Hk. pose proof (iv_accounts _ _ Hinv) as H. rewrite Forall_forall in H. apply H. unfold accounts_of. rewrite !elem_of_app. right. right. right.
  apply list_elem_of_omap. exists n. split; [by eapply list_elem_of_lookup_2|done].
Qed.

Lemma abort_active_snapshot_inv L s j :
  inv L s -> wp (abort_active_snapshot j)
    (fun _ t => inv L t /\ (length (kv_reservations (as_kv s)) <= length (kv_reservations (as_kv t)))%nat /\ (exists n, as_snapshots t !! j = Some n))
    (thrown L) s.
Proof.
  intros Hinv. apply wp_noexcept. wp_step. apply wp_snapshot_ref; [|done]. intros n Hn. wp_step. wp_step.
  destruct (sn_owner n =? _); cbn [negb]; [|apply wp_ret; eauto]. pose proof (snapshot_of _ _ _ _ Hinv Hn) as [Hshape Ht].
  wp_step. eapply wp_conseq with (E := fun _ _ => True) (Q := fun _ t => paged s (ls_this (kv_store (as_kv s))) (length (kv_reservations (as_kv s))) (refs_of (as_store s) ++ L)
    (actives_of (as_store s)) (transfers_of s) t); [| |done].
  - destruct (address_valid _ _) eqn:Hv; [|apply wp_ret; by apply inv_paged]. apply address_valid_denotes in Hv as [_ [a Ha]].
    wp_step. eapply wp_address_ref; [apply Ha|]. apply wp_for_in; [by apply inv_paged|]. intros p t Hp%elem_of_seqZ Hpt.
    eapply wp_conseq; [apply (unpin_if_pinned_kept _ p t Hpt); eapply own_cell; [exact Hinv|exact Ha|lia]|done|done].
  - intros u t (k & -> & Hk). set (n' := snapshot_with 0 (sn_tail_reservation n) None n).
    destruct (transfers_snapshot s j n n' Hn) as (T & E1 & E2). rewrite E1 in Hk. wp_step.
    eapply wp_conseq with (E := fun _ _ => True) (Q := fun _ t => paged s (ls_this (kv_store (as_kv s))) (length (kv_reservations (as_kv s))) (refs_of (as_store s) ++ L)
      (actives_of (as_store s)) T t); [| |done].
    + unfold snapshot_tail in Hk. destruct (sn_tail_destination n) as [h|]; [|apply wp_ret; by exists k]. apply wp_on_pages.
      eapply wp_conseq; [by eapply abort_transfer_takes_any| |done]. intros u' k' Hk'. by exists k'.
    + intros u' t (k' & -> & Hk'). unfold put_snapshot. wp_step. split; [|split].
      * apply (put_snapshot_inv L s k' j n n'); [done|done|split; [apply Hshape|done]|by left|rewrite E2; exact Hk'].
      * cbn. apply Hk'.
      * exists n'. apply list_lookup_insert_eq. by eapply lookup_lt_Some.
Qed.

Lemma destroy_snapshot_inv L s j : inv L s -> wp (destroy_snapshot j) (fun _ => inv L) (thrown L) s.
Proof.
  intros Hinv. unfold destroy_snapshot. wp_step. apply wp_snapshot_ref; [|by intros ?]. intros n Hn. wp_step.
  eapply wp_conseq with (E := thrown L) (Q := fun _ t => inv L t /\ (length (kv_reservations (as_kv s)) <= length (kv_reservations (as_kv t)))%nat /\
    (exists n, as_snapshots t !! j = Some n)); [destruct (_ =? 0); cbn [negb]; [apply wp_ret; eauto|by apply abort_active_snapshot_inv]| |done].
  intros u t (Ht & Hlen & n2 & Hn2). wp_step. eapply wp_conseq; [apply (release_object_inv L _ _ Ht)| |done].
  { intros k Hk. cbn. eapply Nat.lt_le_trans; [eapply snapshot_account; [exact Hinv|exact Hn|exact Hk]|done]. }
  intros u3 t3 [Ht3 [k ->]]. wp_step. apply wp_snapshot_ref; [|by intros ?]. intros n3 Hn3. unfold put_snapshot. wp_step.
  set (t3 := set_kv k t) in *. set (n' := snapshot_with _ _ _ n3). pose proof (snapshot_of _ _ _ _ Ht3 Hn3) as [Hs Htl].
  rewrite <- (set_kv_id t3). apply (put_snapshot_inv L t3 (as_kv t3) j n3 n'); [done|done|split; [apply Hs|exact Htl]|by right|].
  destruct (transfers_snapshot t3 j n3 n' Hn3) as (T & E1 & E2). rewrite E2. change (snapshot_tail n') with (snapshot_tail n3). rewrite <- E1. by apply inv_pages.
Qed.

(** * Committing a snapshot *)
Lemma wp_require_snapshot n Q E s :
  ((exists a, denotes s (sn_source n) a) -> (exists a, denotes s (sn_destination n) a) -> Q tt s) -> E LogicError s -> wp (require_active_snapshot n) Q E s.
Proof.
  intros Hq He. unfold require_active_snapshot. wp_step. wp_step. wp_step; [|done]. simp_bool.
  repeat match goal with H : address_valid _ _ = true |- _ => apply address_valid_denotes in H as [_ H] end. by apply Hq.
Qed.

Lemma snapshot_commit_page_reads s i p :
  0 <= cell (as_store s) i p < vsize (av_memberships (as_store s)) -> wp (snapshot_commit_page_ok i p) (reads s) (reads s) s.
Proof.
  intros Hc. unfold snapshot_commit_page_ok. wp_step. apply wp_membership; [done|]. wp_step. apply wp_read; [|done]. intros page _ _.
  destruct (_ =? 0); [by apply wp_throw|]. wp_step. apply wp_read; [|done]. intros page' _ _. by wp_step.
Qed.

Section CommitSnapshot.
Context (L : list token) (s : asp) (j : nat) (m : KVActiveSnapshotReservation) (w : table_world) (a b : Address).
Hypothesis Hinv : inv L s.
Hypothesis Hj : as_snapshots s !! j = Some m.
Hypothesis Ha : denotes s (sn_source m) a.
Hypothesis Hb : denotes s (sn_destination m) b.
Hypothesis Hempty : ad_page_count b = 0.
Hypothesis Hact : ad_active a = true.
Hypothesis Hinact : ad_active b = false.
Hypothesis Hw : e_spec (w_table w) = e_spec (w_table (as_world s)).
Hypothesis Hcount : ad_page_count a = pages_for_tokens (sn_frontier m).
Hypothesis Hfrontier : ad_committed_frontier a = sn_frontier m.
Hypothesis Htail : sh_tail_columns (sn_shape m) <> 0 -> sn_tail_destination m <> None.
Notation st := (as_store s).
Notation si := (ah_index (sn_source m)).
Notation di := (ah_index (sn_destination m)).
Notation this := (ls_this (kv_store (as_kv s))).
Notation n := (length (kv_reservations (as_kv s))).
Notation f := (sn_frontier m).
Notation full := (sh_full_pages (sn_shape m)).
Notation tail := (sh_tail_columns (sn_shape m)).
Notation spent owner := (snapshot_with owner (sn_tail_reservation m) None m).

(** The references are the destination's. *)
Record snapshot_taken (t : asp) (k : kv) (ms : list LogicalKVPageHandle) (sns : list KVActiveSnapshotReservation) : Prop := {
  st_state : t = mkAsp k w (with_memberships ms st) (as_activations s) (as_forks s) sns;
  st_own : own_cells st di ms;
  st_objects : sns = <[j := spent (sn_owner m)]> (as_snapshots s);
  st_pages : pinv this n (copied s di ms f ++ refs_of st ++ L) (actives_of st) (transfers_of (set_snapshots (<[j := spent 0]> (as_snapshots s)) s)) k;
  st_full : forall q, 0 <= q < full -> ms.[cell st di q] = Some (handle_at st si q);
}.

Lemma shape_facts : 0 < f <= U32_MAX /\ pages_for_tokens f <= av_page_capacity st /\ full = f / kPagedKVPageSize /\ tail = f mod kPagedKVPageSize /\
  si <> di /\ 0 <= full <= pages_for_tokens f.
Proof.
  pose proof (snapshot_of _ _ _ _ Hinv Hj) as [[Hne [Hfr Hcap] Hfull Htl] _]. rewrite Hfull, Htl. pose proof (full_bounds f Hfr). done.
Qed.

Lemma snapshot_tail_stage t k ms :
  sharing L s w (sn_source m) (sn_destination m) full (shared s (sn_source m) full) t k ms ->
  wp (match sn_tail_destination m with
      | Some t =>
          source_tail ← membership si full;
          _ ← on_pages (set_writer source_tail false);
          _ ← on_pages (protect_coverage source_tail tail);
          _ ← on_pages (publish_transfer_destination t true);
          _ ← set_membership di full t;
          put_snapshot j (snapshot_with (sn_owner m) (sn_tail_reservation m) None m)
      | None => mret tt
      end) (fun _ t' => exists k' ms' sns, snapshot_taken t' k' ms' sns) (leaky L) t.
Proof.
  intros Hsh. pose proof shape_facts as (Hfr & Hcap & Hfull & Htl & Hne & Hfb). pose proof (snapshot_of _ _ _ _ Hinv Hj) as [_ Htd].
  destruct (transfers_snapshot s j m (spent 0) Hj) as (T & E1 & E2). cbn [app snapshot_tail sn_tail_destination snapshot_with] in E2.
  pose proof (sharing_own L s w _ _ _ _ _ _ _ Hsh) as Hown. unfold snapshot_tail in E1. destruct (sn_tail_destination m) as [h|] eqn:Eh.
  - assert (Hz : f mod kPagedKVPageSize <> 0) by (rewrite <- Htl; by apply Htd).
    assert (Hlt : full < pages_for_tokens f) by (rewrite pages_split by lia; rewrite (proj2 (Z.eqb_neq _ _)) by done; lia).
    destruct (source_cell L s w _ _ a Hinv Ha Hne _ _ _ _ _ full Hsh ltac:(lia)) as [Hcb Hh].
    wp_step. apply wp_membership; [done|]. rewrite Hh. pose proof Hsh as [Et _ _ _ Hk]. wp_step. apply wp_on_pages. replace (as_kv t) with k by (by rewrite Et).
    eapply wp_conseq; [apply (set_writer_kept Hk)| |].
    2:{ intros e k' Hu He. rewrite Hu by (by intros ->). eexists. eapply sharing_leaks; [exact Hinv|exact Hw|eapply sharing_refs; [exact Hsh|exact Hk]]. }
    intros u k1 Hk1. wp_step. apply wp_on_pages. cbn [as_kv set_kv]. eapply wp_conseq; [apply (protect_kept Hk1)| |].
    { rewrite Htl. pose proof (frontier_split f ltac:(lia)). unfold is_u32, U32_MAX, kPagedKVPageSize in *. lia. }
    2:{ intros e k' Hu He. rewrite Hu by (by intros ->). change (set_kv k1 (set_kv k1 t)) with (set_kv k1 t).
        eexists. eapply sharing_leaks; [exact Hinv|exact Hw|eapply sharing_refs; [exact Hsh|exact Hk1]]. }
    intros u2 k2 Hk2. change (set_kv k2 (set_kv k1 t)) with (set_kv k2 t).
    assert (Hsh2 : sharing L s w (sn_source m) (sn_destination m) full (shared s (sn_source m) full) (set_kv k2 t) k2 ms) by (eapply sharing_refs; [exact Hsh|exact Hk2]).
    wp_step. rewrite Hfull in *. eapply wp_conseq; [apply (publish_tail L s w _ _ f T Hinv Hw _ k2 ms _ h tail Hsh2 E1)| |done].
    intros u3 t1 (k3 & -> & Hk3). rewrite (sg_state _ _ _ _ _ _ _ _ _ _ Hsh).
    destruct (destination_dead L s _ b Hinv Hb Hempty (f / kPagedKVPageSize) ltac:(lia)) as [Hcb' _].
    wp_step. apply wp_set_membership; [cbn; by rewrite (proj1 Hown)|]. unfold put_snapshot. wp_step.
    exists k3, (ms.[cell st di (f / kPagedKVPageSize) <- h]), (<[j := snapshot_with (sn_owner m) (sn_tail_reservation m) None m]> (as_snapshots s)). constructor.
    + reflexivity.
    + by apply own_cells_set; [|lia].
    + reflexivity.
    + rewrite E2, (copied_tail L s w _ _ b f Hinv Hb Hempty Hfr _ _ _ h Hz Hsh ltac:(lia)). rewrite Htl in Hk3. exact Hk3.
    + rewrite Hfull. intros q Hq. rewrite vget_vset_ne by (unfold cell; lia). by apply (sg_cells _ _ _ _ _ _ _ _ _ _ Hsh).
  - assert (Hz : f mod kPagedKVPageSize = 0).
    { destruct (decide (f mod kPagedKVPageSize = 0)) as [|Hx]; [done|]. destruct Htail; [by rewrite Htl|done]. }
    apply wp_ret. exists k, ms, (as_snapshots s). rewrite Hfull in Hsh. constructor; try done.
    + apply Hsh.
    + symmetry. apply list_insert_id. rewrite Hj. f_equal. destruct m. cbn in *. by subst.
    + rewrite (copied_full L s w _ _ f Hfr _ _ _ Hz Hsh), E2. pose proof (sg_pages _ _ _ _ _ _ _ _ _ _ Hsh) as Hk. by rewrite E1 in Hk.
    + rewrite Hfull. apply Hsh.
Qed.

Hypothesis Hres : ad_reservation a <> None.
Hypothesis Hrow : ad_row a <> None.

Notation b' := (taken_over b f (ad_reservation a) (ad_row a)).
Notation a' := (set_checkpoint_frontier f (set_activity None None false a)).
Notation handles ms := (map (fun q => default null_logical_handle (ms.[cell st di q])) (seqZ 0 (pages_for_tokens f))).
Notation st1 ms := (change st di b' ms).
Notation st2 ms := (change (st1 ms) si a' ms).

Section Final.
Context (ms : list LogicalKVPageHandle).
Hypothesis Hown : own_cells st di ms.

Lemma new_ok : address_ok (av_page_capacity st) b'.
Proof. pose proof shape_facts as (Hfr & Hcap & _). by eapply taken_over_ok. Qed.

Lemma first_ok : astore_ok (st1 ms).
Proof. pose proof Hb as (Hb' & Hocc & _). eapply change_ok; [apply Hinv|exact Hb'|exact Hown|apply new_ok|done]. Qed.

Lemma source_in_first : (av_addresses (st1 ms)).[si] = Some a.
Proof. pose proof shape_facts as (_ & _ & _ & _ & Hne & _). cbn. rewrite vget_vset_ne by done. apply Ha. Qed.

Lemma second_own : own_cells (st1 ms) si ms.
Proof. split; [done|]. by left. Qed.

Lemma frozen_ok : address_ok (av_page_capacity st) a'.
Proof.
  pose proof shape_facts as (Hfr & _). destruct (denotes_ok _ _ _ _ Hinv Ha) as [K1 K2 K3 K4 K5 K6]. constructor; cbn; try done; lia.
Qed.

Lemma source_handles : address_handles (st1 ms) si a = address_handles st si a /\ address_tokens (st1 ms) si a = address_tokens st si a.
Proof.
  pose proof shape_facts as (_ & _ & _ & _ & Hne & _). pose proof Hb as (Hb' & _). pose proof Ha as (Ha' & _).
  assert (E : forall p, 0 <= p < ad_page_count a -> handle_at (st1 ms) si p = handle_at st si p).
  { intros p Hp. eapply (change_other st di b' ms); [apply Hinv|exact Hown|exact Hne|exact Ha'|exact Hp]. }
  split; apply map_ext_in; intros p Hp%list_elem_of_In%elem_of_seqZ; rewrite E by lia; done.
Qed.

Lemma final_refs : refs_of (st2 ms) ≡ₚ copied s di ms f ++ refs_of st.
Proof.
  pose proof Hb as (Hb' & Hocc & _). pose proof Ha as (Ha' & Hocca & _).
  rewrite (change_refs (st1 ms) si a a' ms first_ok source_in_first second_own).
  assert (E : addr_refs (st2 ms) si a' = addr_refs (st1 ms) si a) by (unfold addr_refs; cbn [ad_occupied set_checkpoint_frontier set_activity]; by rewrite Hocca).
  rewrite E, <- (refs_split _ _ _ source_in_first), (change_refs st di b b' ms (iv_store _ _ Hinv) Hb' Hown).
  rewrite (refs_split _ _ _ Hb'). destruct (no_pages st di b Hempty) as [-> _]. unfold addr_refs. cbn [ad_occupied taken_over set_activity set_committed_frontier set_page_count].
  by rewrite Hocc.
Qed.

Lemma final_actives : actives_of (st2 ms) ≡ₚ handles ms ++ actives_rest st si.
Proof.
  pose proof Hb as (Hb' & Hocc & _). pose proof Ha as (Ha' & Hocca & _).
  rewrite (change_actives (st1 ms) si a a' ms first_ok source_in_first second_own). unfold addr_actives at 1. cbn [ad_active set_checkpoint_frontier set_activity app].
  apply (Permutation_app_inv_l (address_handles st si a)). rewrite <- (proj1 source_handles).
  pose proof (actives_split _ _ _ source_in_first) as E. unfold addr_actives in E. rewrite Hact in E. rewrite <- E.
  rewrite (change_actives st di b b' ms (iv_store _ _ Hinv) Hb' Hown). unfold addr_actives at 1. cbn [ad_active taken_over set_activity].
  pose proof (actives_split _ _ _ Hb') as E1. pose proof (actives_split _ _ _ Ha') as E2. destruct (no_pages st di b Hempty) as [_ E3]. rewrite E3 in E1.
  cbn [app] in E1. rewrite <- E1, E2. unfold addr_actives. rewrite Hact, (proj1 source_handles). apply Permutation_app_swap_app.
Qed.

Lemma snapshot_final k owner :
  pinv this n (copied s di ms f ++ refs_of st ++ L) (handles ms ++ actives_rest st si) (transfers_of (set_snapshots (<[j := spent 0]> (as_snapshots s)) s)) k ->
  inv L (mkAsp k w (st2 ms) (as_activations s) (as_forks s) (<[j := spent owner]> (as_snapshots s))).
Proof.
  intros [K1 K2 K3 K4]. pose proof (snapshot_of _ _ _ _ Hinv Hj) as [Hs _].
  change (mkAsp k w ?x ?y ?z ?v) with (set_world w (mkAsp k (as_world s) x y z v)). apply inv_set_world; [|done]. constructor; cbn; try done.
  - rewrite K2. apply Hinv.
  - rewrite final_refs, final_actives, <- app_assoc.
    match goal with |- toks _ _ _ ?x => change x with (transfers_of (set_snapshots (<[j := spent owner]> (as_snapshots s)) s)) end.
    assert (E : transfers_of (set_snapshots (<[j := spent owner]> (as_snapshots s)) s) = transfers_of (set_snapshots (<[j := spent 0]> (as_snapshots s)) s)).
    { unfold transfers_of. cbn. f_equal. f_equal. rewrite !list_fmap_insert. done. }
    by rewrite E.
  - eapply change_ok; [apply first_ok|apply source_in_first|apply second_own|apply frozen_ok|done].
  - apply Hinv.
  - pose proof (iv_accounts _ _ Hinv) as Hacc. rewrite Forall_forall in *. intros x Hx. eapply Nat.lt_le_trans; [apply Hacc|exact K3]. revert Hx. unfold accounts_of. cbn. rewrite !elem_of_app.
    intros [Hx|[Hx|[Hx|Hx]]]; [|tauto|tauto|].
    + left. apply list_elem_of_omap in Hx as (y & Hy & Ey). apply elem_vget in Hy as (q & Hq & _). apply list_elem_of_omap.
      rewrite vget_vset in Hq. destruct (_ && _); [injection Hq as <-; done|]. rewrite vget_vset in Hq. destruct (_ && _).
      * injection Hq as <-. exists a. split; [by eapply vget_elem; apply Ha|done].
      * exists y. split; [by eapply vget_elem|done].
    + right. right. right. eapply omap_insert; [exact Hj| |exact Hx]. by left.
  - apply Hinv.
  - apply Forall_insert; [apply Hinv|]. by split.
Qed.
End Final.

(** The active references move with the pages; the tail's is a new one. *)
Lemma move_active_tail k ms sns t0 :
  snapshot_taken t0 k ms sns ->
  let V := mkAsp k w (st1 ms) (as_activations s) (as_forks s) sns in
  wp ((if negb (tail =? 0) then
         source_tail ← membership si full;
         _ ← on_pages (release_active_reference source_tail);
         tail ← membership di full;
         on_pages (retain_active_reference tail)
       else mret tt) : P unit)
    (fun _ t => exists k', t = set_kv k' V /\
       pinv this n (copied s di ms f ++ refs_of st ++ L) (handles ms ++ actives_rest st si) (transfers_of (set_snapshots (<[j := spent 0]> (as_snapshots s)) s)) k')
    no_error V.
Proof.
  intros [_ Hown _ Hk Hcells] V. pose proof shape_facts as (Hfr & Hcap & Hfull & Htl & Hne & Hfb). pose proof Ha as (Ha' & _). pose proof Hb as (Hb' & _).
  assert (Eh : address_handles st si a = map (handle_at st si) (seqZ 0 full) ++ map (handle_at st si) (seqZ full (pages_for_tokens f - full))).
  { unfold address_handles. rewrite Hcount. replace (pages_for_tokens f) with (full + (pages_for_tokens f - full)) at 1 by lia. by rewrite seqZ_app, map_app, Z.add_0_l by lia. }
  assert (Ed : handles ms = map (handle_at st si) (seqZ 0 full) ++ map (fun q => default null_logical_handle (ms.[cell st di q])) (seqZ full (pages_for_tokens f - full))).
  { replace (pages_for_tokens f) with (full + (pages_for_tokens f - full)) at 1 by lia. rewrite seqZ_app, map_app, Z.add_0_l by lia. f_equal.
    apply map_ext_in. intros q Hq%list_elem_of_In%elem_of_seqZ. by rewrite Hcells by lia. }
  pose proof (actives_split _ _ _ Ha') as EA. unfold addr_actives in EA. rewrite Hact, Eh in EA.
  pose proof (pages_split f ltac:(lia)) as Hps. rewrite <- Hfull, <- Htl in Hps.
  destruct (Z.eqb_spec tail 0) as [Hz|Hz]; cbn [negb].
  { apply wp_ret. exists k. split; [done|]. rewrite Ed. replace (pages_for_tokens f - full) with 0 in * by lia. cbn in *. rewrite app_nil_r in *. by rewrite EA in Hk. }
  replace (pages_for_tokens f - full) with 1 in * by lia. change (seqZ full 1) with [full] in *. cbn [map] in EA, Ed.
  assert (Hcap' : full < av_page_capacity st) by lia.
  assert (Hsc : handle_at (as_store V) si full = handle_at st si full).
  { eapply (change_other st di b' ms); [apply Hinv|exact Hown|exact Hne|exact Ha'|lia]. }
  wp_step. apply wp_membership. { cbn. change (cell (st1 ms) si full) with (cell st si full). rewrite (proj1 Hown). eapply membership_bounds; [apply Hinv|exact Ha'|lia]. }
  rewrite Hsc. wp_step. apply wp_on_pages. cbn [as_kv V].
  assert (Hk' : pinv this n (copied s di ms f ++ refs_of st ++ L) (handle_at st si full :: map (handle_at st si) (seqZ 0 full) ++ actives_rest st si)
    (transfers_of (set_snapshots (<[j := spent 0]> (as_snapshots s)) s)) k).
  { rewrite EA in Hk. rewrite (Permutation_app_comm (map _ _)) in Hk. exact Hk. }
  eapply wp_conseq; [exact (release_active_takes _ Hk')| |done]. intros u k1 Hk1. wp_step.
  apply wp_membership. { cbn. change (cell (st1 ms) di full) with (cell st di full). rewrite (proj1 Hown). eapply membership_bounds; [apply Hinv|exact Hb'|lia]. }
  change (handle_at (as_store (set_kv k1 V)) di full) with (default null_logical_handle (ms.[cell st di full])). set (h := default null_logical_handle (ms.[cell st di full])) in *.
  apply wp_on_pages. cbn [as_kv set_kv]. assert (Ec : copied s di ms f ≡ₚ (h, need f full) :: map (fun q => (default null_logical_handle (ms.[cell st di q]), need f q)) (seqZ 0 full)).
  { unfold copied. rewrite Hps. rewrite seqZ_app, map_app, Z.add_0_l by lia. change (seqZ full 1) with [full]. by rewrite Permutation_app_comm. }
  cbv beta in Hk1. rewrite Ec in Hk1. cbn [app] in Hk1. destruct (active_lt _ _ _ _ _ _ _ _ Hk1) as (page & Hpg & Hv & Hlt).
  { apply submseteq_trans with (actives_of st); [rewrite EA; apply submseteq_app; [apply submseteq_inserts_r|]; done|].
    rewrite map_app. apply submseteq_inserts_l. by apply actives_in_refs. }
  eapply wp_conseq; [apply (retain_active_gives h Hk1)| |done].
  { unfold page_test. rewrite Hv, Hpg. cbn. by apply Z.ltb_lt. }
  intros u2 k2 Hk2. exists k2. split; [done|]. rewrite Ed, Ec. cbn [app]. rewrite (Permutation_app_comm (map _ _) [h]). exact Hk2.
Qed.

Lemma snapshot_finish t0 k ms sns :
  snapshot_taken t0 k ms sns ->
  wp (_ ← update_address di (fun x => set_activity (ad_reservation a) (ad_row a) true (set_committed_frontier f (set_page_count (pages_for_tokens f) x)));
      _ ← ((if negb (tail =? 0) then
              source_tail ← membership si full;
              _ ← on_pages (release_active_reference source_tail);
              tail ← membership di full;
              on_pages (retain_active_reference tail)
            else mret tt) : P unit);
      _ ← update_address si (fun x => set_checkpoint_frontier f (set_activity None None false x));
      _ ← mfor (fun page => logical ← membership si page; on_pages (unpin_source logical)) (seqZ 0 (pages_for_tokens f));
      put_snapshot j (spent 0)) (fun _ => inv L) (thrown L) t0.
Proof.
  intros Hst. pose proof Hst as [-> Hown Hobj Hk Hcells]. pose proof shape_facts as (Hfr & Hcap & Hfull & Htl & Hne & Hfb). pose proof Ha as (Ha' & _). pose proof Hb as (Hb' & _).
  wp_step. unfold update_address at 1. wp_step. eapply wp_address_ref; [exact Hb'|]. unfold put_address. wp_step. wp_step.
  eapply wp_conseq; [apply (move_active_tail _ _ _ _ Hst)| |done]. intros u t (k1 & -> & Hk1). wp_step. unfold update_address. wp_step.
  eapply wp_address_ref; [apply source_in_first|]. unfold put_address. wp_step.
  rewrite Hobj. set (U := mkAsp k1 w (st2 ms) (as_activations s) (as_forks s) (<[j := spent (sn_owner m)]> (as_snapshots s))).
  assert (Hu : inv L U) by (by apply snapshot_final). match goal with |- wp _ _ _ ?x => change x with U end.
  wp_step. eapply wp_conseq; [apply (wp_for_in _ (paged U (ls_this (kv_store (as_kv U))) (length (kv_reservations (as_kv U))) (refs_of (as_store U) ++ L) (actives_of (as_store U)) (transfers_of U)))| |].
  - by apply inv_paged.
  - intros p t Hp%elem_of_seqZ Ht. apply wp_kept_page; [exact Ht| |intros h k' Hk'; by apply unpin_kept].
    cbn. change (cell (st2 ms) si p) with (cell st si p). rewrite (proj1 Hown). eapply membership_bounds; [apply Hinv|exact Ha'|lia].
  - intros u2 t (k2 & -> & Hk2). unfold put_snapshot. wp_step.
    assert (HjU : as_snapshots U !! j = Some (spent (sn_owner m))) by (apply list_lookup_insert_eq; by eapply lookup_lt_Some).
    pose proof (snapshot_of _ _ _ _ Hinv Hj) as [Hs _].
    eapply (put_snapshot_inv L U k2 j (spent (sn_owner m)) (spent 0)); [exact Hu|exact HjU|split; [exact Hs|done]|by left|].
    destruct (transfers_snapshot U j _ (spent 0) HjU) as (T & E1 & E2). rewrite E2. change (snapshot_tail (spent 0)) with (snapshot_tail (spent (sn_owner m))). by rewrite <- E1.
  - intros e t He Hx. eapply paged_inv; [exact Hu|exact (He Hx)].
Qed.
End CommitSnapshot.

Lemma commit_active_snapshot_inv L s j : inv L s -> wp (commit_active_snapshot j) (fun _ => inv L) (leaky L) s.
Proof.
  intros Hinv. assert (Hs : forall e, leaky L e s) by (intros e _; by exists []).
  unfold commit_active_snapshot. wp_step. apply wp_snapshot_ref; [|done]. intros m Hj. wp_step. apply wp_require_snapshot; [|done].
  intros _ _. wp_step. apply wp_require_active; [|done|done]. intros a ka la Ha Hact Hres Hrow. wp_step. apply wp_require; [|done]. intros b Hb _.
  pose proof (snapshot_of _ _ _ _ Hinv Hj) as [[Hne [Hfr Hcap] Hfull Htl] Htd].
  wp_step. eapply wp_conseq; [apply (active_snapshot_shape_reads L s (sn_source m) (sn_frontier m) Hinv); lia| |intros e t ->; done].
  intros shape t (-> & _). cbv zeta. wp_step. wp_step. wp_step. wp_step; [|done]. simp_bool.
  pose proof (full_bounds (sn_frontier m) Hfr) as Hfb.
  assert (Hcells : cells_exist s (ah_index (sn_source m)) 0 (pages_for_tokens (sn_frontier m))) by (eapply capacity_cells; [exact Hinv|exact Ha|lia]).
  wp_step. eapply wp_conseq; [apply (wp_for_reads _ _ s)| |intros e t ->; done].
  { intros p Hp%elem_of_seqZ. apply snapshot_commit_page_reads, Hcells. lia. }
  intros u t ->. wp_step. wp_step; [|done].
  assert (Htail : sh_tail_columns (sn_shape m) <> 0 -> sn_tail_destination m <> None).
  { intros Hx E. rewrite E in Hguard. rewrite (proj2 (Z.eqb_neq _ _)) in Hguard by done. done. }
  wp_step. eapply wp_conseq; [apply (page_handles_read _ _ s (leaky L)); [|done]| |done].
  { intros p Hp%elem_of_seqZ. apply Hcells. lia. }
  intros hs t [-> _]. wp_step. eapply wp_conseq; [apply tail_physical_reads| |intros e t ->; done]. intros tl t ->. wp_step.
  eapply wp_conseq; [apply publish_row_kept; congruence| |].
  2:{ intros e t (w & -> & Hw). apply thrown_leaky. intros _. by apply inv_set_world. }
  intros u2 t [(w & -> & Hw) _]. wp_step.
  eapply wp_conseq; [apply (share_loop L s w (sn_source m) (sn_destination m) a b (sh_full_pages (sn_shape m))); try done; try lia| |done].
  { intros p t k ms Hp Hc Hsh. eapply (freeze_page_step L s w (sn_source m) (sn_destination m) a b (sh_full_pages (sn_shape m))); try done. lia. }
  intros u3 t (k & ms & Hsh). wp_step. eapply wp_conseq; [by eapply (snapshot_tail_stage L s j m w a b)| |done].
  intros u4 t' (k' & ms' & sns & Ht'). eapply wp_conseq; [eapply (snapshot_finish L s j m w a b); try done; congruence|done|]. intros e t2 He. by apply thrown_leaky.
Qed.
