(* ===== verification/AddressRun.v ===== *)
(** Runs of the address spaces of src/src/runtime/logical_kv_store.h: the calls
    of [KVAddressSpaceStore], the destructors of its reservation objects and
    what others do to the pages meanwhile, and what holds in every state they
    reach. *)

From S2P Require Import Prelude Tensor Layout PagedKv ExecTable LogicalKv PageTokens AddressSpace AddressRefs AddressActive AddressGrowth AddressCopies AddressSnapshots.

(** * Calls *)
Inductive as_call : Type :=
  | ACreateInactive
  | ACreateActive (entitlement row : Z)
  | APrepareActivation (h : KVAddressSpaceHandle) (entitlement row : Z) (frontier : option Z)
  | ACommitActivation (j : nat)
  | ADestroyActivation (j : nat)
  | AActivate (h : KVAddressSpaceHandle) (entitlement row : Z)
  | ADeactivate (h : KVAddressSpaceHandle)
  | APrepareFork (source destination : KVAddressSpaceHandle) (frontier entitlement row : Z) (staged : bool)
  | ASettleFork (j : nat)
  | ACompleteFork (j : nat)
  | ACommitFork (j : nat)
  | AAbortFork (j : nat)
  | ADestroyFork (j : nat)
  | APrepareSnapshot (source destination : KVAddressSpaceHandle) (frontier : Z)
  | ACommitSnapshot (j : nat)
  | AAbortSnapshot (j : nat)
  | ADestroySnapshot (j : nat)
  | AResize (h : KVAddressSpaceHandle) (entitlement : Z)
  | AReleaseGrowth (h : KVAddressSpaceHandle)
  | AEnsureMapped (h : KVAddressSpaceHandle) (tokens : Z)
  | ACommitFrontier (h : KVAddressSpaceHandle) (frontier : Z)
  | ATruncate (h : KVAddressSpaceHandle) (frontier : Z)
  | ATruncateInactive (h : KVAddressSpaceHandle) (frontier : Z)
  | ATruncatePrefix (h : KVAddressSpaceHandle) (frontier : Z)
  | ASetCheckpoint (h : KVAddressSpaceHandle) (frontier : Z)
  | ARelease (h : KVAddressSpaceHandle)
  | AReleaseAfterDeactivate (h : KVAddressSpaceHandle)
  | ANewReservation
  | APages (c : call).

Definition done_with {A} (m : P A) : P unit := _ ← m; mret tt.

Definition run_as (c : as_call) : P unit :=
  match c with
  | ACreateInactive => done_with create_inactive
  | ACreateActive n row => done_with (create_active n row)
  | APrepareActivation h n row f => done_with (prepare_activation h n row f)
  | ACommitActivation j => commit_activation j
  | ADestroyActivation j => destroy_activation j
  | AActivate h n row => activate h n row
  | ADeactivate h => deactivate h
  | APrepareFork sh dh f n row staged => done_with (prepare_prefix_fork sh dh f n row staged)
  | ASettleFork j => settle_prefix_fork_tail_source j
  | ACompleteFork j => complete_prefix_fork_after_tail_release j
  | ACommitFork j => commit_prefix_fork j
  | AAbortFork j => abort_prefix_fork j
  | ADestroyFork j => destroy_fork j
  | APrepareSnapshot sh dh f => done_with (prepare_active_snapshot sh dh f)
  | ACommitSnapshot j => commit_active_snapshot j
  | AAbortSnapshot j => abort_active_snapshot j
  | ADestroySnapshot j => destroy_snapshot j
  | AResize h n => resize_entitlement h n
  | AReleaseGrowth h => release_growth_entitlement h
  | AEnsureMapped h tokens => ensure_mapped_to_tokens h tokens
  | ACommitFrontier h f => commit_frontier h f
  | ATruncate h f => destructive_truncate h f
  | ATruncateInactive h f => destructive_truncate_inactive h f
  | ATruncatePrefix h f => truncate_inactive_prefix h f
  | ASetCheckpoint h f => set_checkpoint_requirement h f
  | ARelease h => done_with (release h)
  | AReleaseAfterDeactivate h => done_with (release_after_deactivate h)
  | ANewReservation => done_with (on_pages new_reservation)
  | APages c => on_pages (run_call c)
  end.

(** What is done to pages outside the address spaces: transfers pin pages and
    move their content between device and host. References, active references
    and coverage belong to the address spaces. *)
Definition outside (c : call) : bool :=
  match c with
  | CResize _ _ | CReserveDevice _ _ | CPublishDevice _ | CAbortDevice _ _ | CDropDevice _ | CPin _ | CUnpin _
  | CAttachHost _ _ | CRebindHost _ _ _ | CDetachHost _ _ => true
  | _ => false
  end.

(** Arguments are unsigned, and no caller cuts an active address below its
    checkpoint requirement, which [destructive_truncate] does not check
    ([truncation_below_checkpoint] below). *)
Definition as_call_ok (s : asp) (c : as_call) : Prop :=
  match c with
  | ACreateActive n _ | AActivate _ n _ | AResize _ n => is_u32 n
  | APrepareActivation _ n _ f => is_u32 n /\ forall x, f = Some x -> is_u32 x
  | APrepareFork _ _ f n _ _ => is_u32 f /\ is_u32 n
  | APrepareSnapshot _ _ f | ACommitFrontier _ f | ATruncateInactive _ f | ATruncatePrefix _ f | ASetCheckpoint _ f => is_u32 f
  | ATruncate h f => is_u32 f /\ forall a, denotes s h a -> ad_checkpoint_frontier a <= f
  | APages c => outside c = true /\ call_ok (as_kv s) c
  | _ => True
  end.

(** The commits hand references over one by one. *)
Definition hands_over (c : as_call) : bool :=
  match c with ACommitFork _ | ACommitSnapshot _ => true | _ => false end.

(** * Runs *)

(** The three stores, just constructed. *)
Definition space_start (s : asp) : Prop :=
  exists this backing layout store_this capacity as_this addresses pages p0 st0 av0,
    0 < this /\ 0 < store_this /\ is_u32 (ps_page_group_count (pool_layout_spec layout)) /\ make_pool this backing layout = Ok p0 /\
    is_u32 capacity /\ make_store store_this p0 capacity = Ok st0 /\ is_u32 addresses /\ is_u32 pages /\
    make_address_store as_this (w_table (as_world s)) addresses pages = Ok av0 /\
    s = mkAsp (mkKv p0 [] st0) (as_world s) av0 [] [] [].

(** Calls that return and calls that throw; the flag says that a commit threw. *)
Inductive as_reachable : bool -> asp -> Prop :=
  | ar_start s : space_start s -> as_reachable false s
  | ar_return b s c s' : as_reachable b s -> as_call_ok s c -> run_as c s = (s', Ok tt) -> as_reachable b s'
  | ar_throw b s c s' e :
      as_reachable b s -> as_call_ok s c -> run_as c s = (s', Err e) -> is_exception e = true -> as_reachable (b || hands_over c) s'.

(** * The invariant along a run *)
Lemma start_store this tables addresses pages av :
  is_u32 addresses -> is_u32 pages -> make_address_store this tables addresses pages = Ok av ->
  astore_ok av /\ refs_of av = [] /\ actives_of av = [] /\ av_page_capacity av = logical_page_capacity tables /\ omap ad_reservation (av_addresses av) = [].
Proof.
  intros [Ha0 Ha1] [Hp0 Hp1] H. unfold make_address_store, checked_membership_cells in H. simp_res. simp_bool.
  assert (Hdef : forall i a, (replicate (Z.to_nat addresses) default_address).[i] = Some a -> a = default_address) by (by intros i a ->%vget_elem%elem_of_replicate_inv).
  assert (Hcap : capacity (mkAddressStore this pages (replicate (Z.to_nat addresses) default_address) (map (fun index => addresses - 1 - index) (seqZ 0 addresses))
    (replicate (Z.to_nat (addresses * pages)) null_logical_handle) addresses) = addresses) by (unfold capacity, vsize; cbn; rewrite length_replicate; lia).
  assert (Hfree : take (Z.to_nat addresses) (map (fun index => addresses - 1 - index) (seqZ 0 addresses)) = map (fun index => addresses - 1 - index) (seqZ 0 addresses)).
  { apply take_ge. rewrite length_map, length_seqZ. lia. }
  assert (Hnil : forall (B : Type) (l : list Z), concat (map (fun _ => @nil B) l) = []) by (intros B l; by induction l).
  split; [constructor; rewrite ?Hcap; cbn|split; [|split; [|split]]]; try done; try lia.
  - unfold vsize. rewrite length_replicate. nia.
  - intros i a ->%Hdef. constructor; cbn; try done; unfold pages_for_tokens; cbn; lia.
  - unfold vsize. rewrite length_map, length_seqZ. lia.
  - unfold free_addresses. cbn. rewrite Hfree. apply NoDup_fmap_2_strong; [intros x y _ _; lia|apply NoDup_seqZ].
  - unfold free_addresses. cbn. rewrite Hfree. intros i (x & -> & Hx%elem_of_seqZ)%list_elem_of_fmap. exists default_address. split; [apply vget_replicate; lia|done].
  - unfold refs_of. rewrite Hcap. rewrite <- (Hnil _ (seqZ 0 addresses)). apply concat_same. intros i. unfold refs_at. cbn. destruct ((replicate _ _).[i]) as [a|] eqn:E; [|done].
    by apply Hdef in E as ->.
  - unfold actives_of. rewrite Hcap. rewrite <- (Hnil _ (seqZ 0 addresses)). apply concat_same. intros i. unfold actives_at. cbn. destruct ((replicate _ _).[i]) as [a|] eqn:E; [|done].
    by apply Hdef in E as ->.
  - clear. cbn. by induction (Z.to_nat addresses).
Qed.

Lemma start_inv s : space_start s -> inv [] s.
Proof.
  intros (this & backing & layout & store_this & cap & as_this & addresses & pages & p0 & st0 & av0 & Ht & Hst & Hu & Hp & Hc & Hs & Ha & Hpg & Hav & ->).
  destruct (start_store _ _ _ _ _ Ha Hpg Hav) as (Hok & Er & Ea & Ec & Eo). cbn in Ec.
  assert (Hkv : kv_ok (mkKv p0 [] st0)).
  { apply (kv_of_ok this backing layout store_this cap). exists p0, st0. repeat (split; [done|]). apply kr_init. }
  constructor; cbn; try done.
  - unfold make_store in Hs. simp_res. done.
  - rewrite Er, Ea. cbn. intros i. unfold make_store in Hs. simp_res. cbn. destruct ((replicate _ _).[i]) as [page|] eqn:E; [|done].
    apply vget_elem, elem_of_replicate_inv in E as ->. constructor; cbn; try apply Forall_nil_2; unfold vsize; cbn; done || lia.
  - unfold accounts_of. cbn. rewrite Eo. apply Forall_nil_2.
Qed.

(** The page calls of others. *)
Lemma outside_inv L s c : inv L s -> outside c = true -> call_ok (as_kv s) c -> wp (on_pages (run_call c)) (fun _ => inv L) (thrown L) s.
Proof.
  intros Hinv Hout Hok. pose proof (inv_pages _ _ Hinv) as Hk.
  assert (Hkept : wp (run_call c) (fun _ => pinv (ls_this (kv_store (as_kv s))) (length (kv_reservations (as_kv s))) (refs_of (as_store s) ++ L) (actives_of (as_store s)) (transfers_of s))
    (unchanged (as_kv s)) (as_kv s)).
  { assert (Hign : forall A (m : K A), wp m (fun _ => pinv (ls_this (kv_store (as_kv s))) (length (kv_reservations (as_kv s))) (refs_of (as_store s) ++ L) (actives_of (as_store s)) (transfers_of s))
      (unchanged (as_kv s)) (as_kv s) -> wp (ignore m) (fun _ => pinv (ls_this (kv_store (as_kv s))) (length (kv_reservations (as_kv s))) (refs_of (as_store s) ++ L)
      (actives_of (as_store s)) (transfers_of s)) (unchanged (as_kv s)) (as_kv s)).
    { intros A m Hm. unfold ignore. wp_step. eapply wp_conseq; [exact Hm|by intros a k Ha; apply wp_ret|done]. }
    destruct c; try done; cbn [run_call call_ok] in *; try apply Hign.
    - by apply resize_kept.
    - by apply reserve_device_kept.
    - by apply publish_device_kept.
    - by apply abort_device_kept.
    - by apply drop_device_kept.
    - by apply pin_kept.
    - by apply unpin_kept.
    - by apply attach_kept.
    - by apply rebind_kept.
    - by apply detach_kept. }
  apply wp_on_pages. eapply wp_conseq; [exact Hkept| |].
  - intros u k Hk'. by eapply inv_set_kv.
  - intros e k Hu He. rewrite Hu by (by intros ->). by rewrite set_kv_id.
Qed.

Lemma done_with_inv {A} L E (m : P A) s : wp m (fun _ => inv L) E s -> wp (done_with m) (fun _ => inv L) E s.
Proof. intros Hm. unfold done_with. wp_step. eapply wp_conseq; [exact Hm|by intros a t Ht; apply wp_ret|done]. Qed.

(** Every call keeps the invariant, also when it throws; a commit that throws
    may leave references that no address holds. *)
Lemma run_as_inv L s c :
  inv L s -> as_call_ok s c -> wp (run_as c) (fun _ => inv L) (if hands_over c then leaky L else thrown L) s.
Proof.
  intros Hinv Hok. assert (Hnone : forall e t, no_error e t -> thrown L e t) by done.
  assert (Href : forall e t, refused L e t -> thrown L e t) by (intros e t; apply refused_thrown).
  destruct c; cbn [run_as as_call_ok hands_over] in *; try apply done_with_inv.
  - eapply wp_conseq; [by apply (create_inactive_inv L)|done|done].
  - by apply create_active_inv.
  - destruct Hok. by apply prepare_activation_inv.
  - by apply commit_activation_inv.
  - by apply destroy_activation_inv.
  - by apply activate_inv.
  - eapply wp_conseq; [by apply (deactivate_inv L)|done|exact Href].
  - destruct Hok. by apply prepare_prefix_fork_inv.
  - by apply settle_inv.
  - by apply complete_fork_inv.
  - by apply commit_prefix_fork_inv.
  - eapply wp_conseq; [by apply (abort_prefix_fork_inv L)|by intros u t [Ht _]|done].
  - by apply destroy_fork_inv.
  - by apply prepare_active_snapshot_inv.
  - by apply commit_active_snapshot_inv.
  - eapply wp_conseq; [by apply (abort_active_snapshot_inv L)|by intros u t [Ht _]|done].
  - by apply destroy_snapshot_inv.
  - by apply resize_entitlement_inv.
  - by apply release_growth_inv.
  - by apply ensure_mapped_inv.
  - eapply wp_conseq; [by apply (commit_frontier_inv L)|done|exact Href].
  - destruct Hok. eapply wp_conseq; [by apply (destructive_truncate_inv L)|done|exact Href].
  - eapply wp_conseq; [by apply (destructive_inactive_inv L)|done|exact Href].
  - eapply wp_conseq; [by apply (truncate_prefix_inv L)|done|exact Href].
  - eapply wp_conseq; [by apply (set_checkpoint_inv L)|done|exact Href].
  - eapply wp_conseq; [by apply (release_inv L)|done|done].
  - eapply wp_conseq; [by apply (release_after_deactivate_inv L)|done|done].
  - eapply wp_conseq; [by apply (new_reservation_held L)|by intros k t [[Ht _] _]|done].
  - destruct Hok. by apply outside_inv.
Qed.

Lemma reachable_inv b s : as_reachable b s -> exists L, inv L s /\ (b = false -> L = []).
Proof.
  induction 1 as [s Hs|b s c s' _ (L & Hinv & HL) Hok Hrun|b s c s' e _ (L & Hinv & HL) Hok Hrun He].
  - exists []. split; [by apply start_inv|done].
  - pose proof (run_as_inv L s c Hinv Hok) as Hw. unfold wp in Hw. rewrite Hrun in Hw. by exists L.
  - pose proof (run_as_inv L s c Hinv Hok) as Hw. unfold wp in Hw. rewrite Hrun in Hw. destruct (hands_over c).
    + destruct (Hw He) as [L' HL']. exists (L' ++ L). split; [done|]. rewrite orb_true_r. done.
    + exists L. split; [by apply Hw|]. by rewrite orb_false_r.
Qed.

(** * Properties *)

(** The pages that addresses map, once for each mapping, and those that active
    addresses map. *)
Definition mapped (st : KVAddressSpaceStore) : list LogicalKVPageHandle :=
  concat (map (fun i => match (av_addresses st).[i] with
                        | Some a => if ad_occupied a then map (handle_at st i) (seqZ 0 (ad_page_count a)) else []
                        | None => []
                        end) (seqZ 0 (capacity st))).

Definition actively_mapped (st : KVAddressSpaceStore) : list LogicalKVPageHandle :=
  concat (map (fun i => match (av_addresses st).[i] with
                        | Some a => if ad_active a then map (handle_at st i) (seqZ 0 (ad_page_count a)) else []
                        | None => []
                        end) (seqZ 0 (capacity st))).

Definition count_page (x : Z) (l : list LogicalKVPageHandle) : Z := vsize (filter (fun h => lh_index h = x) l).

Lemma mapped_refs st : mapped st = map fst (refs_of st).
Proof.
  unfold mapped, refs_of. rewrite concat_map, map_map. apply concat_same. intros i. unfold refs_at. destruct ((av_addresses st).[i]) as [a|]; [|done].
  destruct (ad_occupied a); [|done]. unfold address_tokens. by rewrite map_map.
Qed.

Lemma count_mapped x st : count_page x (mapped st) = vsize (at_page fst x (refs_of st)).
Proof. rewrite mapped_refs. change (count_page x ?l) with (vsize (at_page id x l)). rewrite at_page_map. unfold vsize. by rewrite length_map. Qed.

(** C38. References are memberships. In every state that calls on address
    spaces reach, returning or throwing, when no active address is truncated
    below its checkpoint requirement and references are taken and dropped by
    the address spaces only, every page that an address maps is a
    page of the store under its current generation, with its content on the
    device or current on the host, and it covers the address's committed
    frontier; the active references of every page are counted exactly by the
    mappings of active addresses, and its references by the mappings of all
    addresses: exactly, unless the commit of a fork or a snapshot threw, and
    then at least. *)
Theorem references_are_memberships failed s :
  as_reachable failed s ->
  (forall i a p, (av_addresses (as_store s)).[i] = Some a -> ad_occupied a = true -> 0 <= p < ad_page_count a ->
     exists page, (ls_pages (kv_store (as_kv s))).[lh_index (handle_at (as_store s) i p)] = Some page /\
       page_valid (kv_store (as_kv s)) (handle_at (as_store s) i p) = true /\
       Z.min kPagedKVPageSize (ad_committed_frontier a - p * kPagedKVPageSize) <= pg_committed_columns page /\
       (pg_device_replica page <> None \/ host_current page = true)) /\
  (forall x page, (ls_pages (kv_store (as_kv s))).[x] = Some page ->
     count_page x (mapped (as_store s)) <= pg_references page /\
     (failed = false -> pg_references page = count_page x (mapped (as_store s))) /\
     pg_active_references page = count_page x (actively_mapped (as_store s))).
Proof.
  intros (L & Hinv & HL)%reachable_inv. pose proof (iv_toks _ _ Hinv) as Ht. split.
  - intros i a p Ha Hocc Hp. destruct (toks_ref _ _ _ _ Ht (handle_at (as_store s) i p) (need (ad_committed_frontier a) p)) as (page & Hpg & Hv & Hc & Hr).
    { apply elem_of_app. left. by apply token_in. }
    exists page. split; [done|]. split; [done|]. split; [unfold need in Hc; lia|]. apply (@pk_content true page); [|done|lia]. by eapply so_pages; [apply (ki_store _ _ (iv_ok _ _ Hinv))|].
  - intros x page Hpg. pose proof (toks_at _ _ _ _ Ht _ _ Hpg) as Htok. rewrite (pt_references _ _ _ _ _ _ Htok), (pt_actives _ _ _ _ _ _ Htok), at_page_app, vsize_app, count_mapped.
    split; [pose proof (vsize_nonneg (at_page fst x L)); lia|]. split; [|done]. intros Hf. rewrite (HL Hf). unfold vsize. cbn. lia.
Qed.

(** The calls that cannot end the process. *)
Definition always_ends (c : as_call) : bool :=
  match c with
  | ACreateInactive | ADeactivate _ | ACommitFrontier _ _ | ATruncate _ _ | ATruncateInactive _ _ | ATruncatePrefix _ _
  | ASetCheckpoint _ _ | ARelease _ | AReleaseAfterDeactivate _ => true
  | _ => false
  end.

Lemma refused_ends {A} (m : P A) Q L s : wp m Q (refused L) s -> exists s' r, m s = (s', r) /\ r <> Err Terminate /\ r <> Err Undefined.
Proof.
  unfold wp. destruct (m s) as [s' [x|e]]; intros H; do 2 eexists; (split; [reflexivity|]); [done|]. destruct H as [He _]. by destruct e.
Qed.

Lemma no_error_refused {A} (m : P A) Q L s : wp m Q no_error s -> wp m Q (refused L) s.
Proof. intros H. by eapply wp_conseq. Qed.

(** C39. Cleaning up never ends the process, as long as no active address is
    truncated below its checkpoint requirement. In every state that such calls
    reach, creating an inactive address, deactivating, committing a frontier,
    truncating (an active address down to its checkpoint requirement at most,
    an inactive one, or its prefix), setting the checkpoint requirement of an
    active or inactive address and releasing an address, also an active one,
    return or throw a C++ exception: none of the std::terminate calls behind
    their checks is reached, and no index is out of bounds. A truncation below
    the requirement is accepted by the code and makes a later call terminate
    ([truncation_below_checkpoint] below). *)
Theorem cleanup_never_terminates failed s c :
  as_reachable failed s -> as_call_ok s c -> always_ends c = true ->
  exists s' r, run_as c s = (s', r) /\ r <> Err Terminate /\ r <> Err Undefined.
Proof.
  intros (L & Hinv & _)%reachable_inv Hok Hc.
  destruct c; try done; cbn [run_as as_call_ok] in *; eapply (refused_ends _ (fun _ => inv L) L); try apply done_with_inv.
  - by apply no_error_refused, create_inactive_inv.
  - by apply deactivate_inv.
  - by apply commit_frontier_inv.
  - destruct Hok. by apply destructive_truncate_inv.
  - by apply destructive_inactive_inv.
  - by apply truncate_prefix_inv.
  - by apply set_checkpoint_inv.
  - by apply no_error_refused, release_inv.
  - by apply no_error_refused, release_after_deactivate_inv.
Qed.

(** * A concrete run

    Three addresses of up to four pages over the pool and the tables of the
    other examples: one is filled with a hundred tokens and deactivated, and a
    second one forks it, sharing its full page. *)
Definition demo_space0 : asp :=
  mkAsp demo_kv0 (mkWorld demo_table [] (fun _ => -1))
    (match make_address_store 55 demo_table 3 4 with Ok st => st | Err _ => mkAddressStore 0 0 [] [] [] 0 end) [] [] [].

Definition demo_address (i : Z) : KVAddressSpaceHandle := mkAddressHandle 55 i 1.

Fixpoint as_exec (cs : list as_call) (s : asp) : asp :=
  match cs with
  | [] => s
  | c :: cs' => as_exec cs' (fst (run_as c s))
  end.

Fixpoint as_exec_ok (cs : list as_call) (s : asp) : Prop :=
  match cs with
  | [] => True
  | c :: cs' => as_call_ok s c /\ snd (run_as c s) = Ok tt /\ as_exec_ok cs' (fst (run_as c s))
  end.

Lemma as_exec_reachable b s cs : as_reachable b s -> as_exec_ok cs s -> as_reachable b (as_exec cs s).
Proof.
  revert s. induction cs as [|c cs IH]; intros s Hs Hok; [done|]. destruct Hok as (Hc & Hr & Hok). apply IH; [|done].
  eapply ar_return; [exact Hs|exact Hc|]. rewrite <- Hr. apply surjective_pairing.
Qed.

Definition demo_fill : list as_call :=
  [ACreateActive 2 0; AEnsureMapped (demo_address 0) 100; ACommitFrontier (demo_address 0) 100].

Definition demo_fork : list as_call :=
  [ADeactivate (demo_address 0); ACreateInactive; APrepareFork (demo_address 0) (demo_address 1) 100 3 1 false].

Definition demo_prepared : asp := as_exec demo_fork (as_exec demo_fill demo_space0).
Definition demo_space : asp := as_exec [ACommitFork 0] demo_prepared.

Lemma demo_space0_start : space_start demo_space0.
Proof.
  exists 1, (mkSpan 4096 65536), demo_layout, 77, 6, 55, 3, 4, demo_pool, (kv_store demo_kv0), (as_store demo_space0).
  repeat (split; [try lia; try (vm_compute; split; discriminate); try (vm_compute; reflexivity)|]). reflexivity.
Qed.

Lemma demo_space_reachable : as_reachable false demo_space.
Proof.
  assert (Hp : as_reachable false demo_prepared).
  { apply as_exec_reachable; [apply as_exec_reachable; [apply ar_start, demo_space0_start|]|];
      repeat (split; [try (vm_compute; split; discriminate); try (split; vm_compute; split; discriminate); done|split; [vm_compute; reflexivity|]]); done. }
  apply as_exec_reachable; [exact Hp|]. split; [done|split; [vm_compute; reflexivity|done]].
Qed.

Lemma references_are_memberships_witness :
  exists page, (ls_pages (kv_store (as_kv demo_space))).[0] = Some page /\ pg_references page = 2 /\
    pg_references page = count_page 0 (mapped (as_store demo_space)) /\ pg_active_references page = 1.
Proof.
  destruct (references_are_memberships false demo_space demo_space_reachable) as [_ H].
  destruct ((ls_pages (kv_store (as_kv demo_space))).[0]) as [page|] eqn:Ep; [|vm_compute in Ep; discriminate].
  destruct (H 0 page Ep) as (_ & Hr & Ha). specialize (Hr eq_refl). vm_compute in Ep. injection Ep as <-. eexists. split; [reflexivity|].
  split; [reflexivity|]. split; [exact Hr|reflexivity].
Defined.

Lemma cleanup_never_terminates_witness :
  exists s' r, run_as (AReleaseAfterDeactivate (demo_address 1)) demo_space = (s', r) /\ r <> Err Terminate /\ r <> Err Undefined.
Proof. exact (cleanup_never_terminates false demo_space (AReleaseAfterDeactivate (demo_address 1)) demo_space_reachable I eq_refl). Defined.

(** Why truncations are limited: [destructive_truncate] cuts an active address
    below its checkpoint requirement, and the next rebuild of the protection
    ends the process. *)
Example truncation_below_checkpoint :
  let s1 := as_exec [ASetCheckpoint (demo_address 0) 65] (as_exec demo_fill demo_space0) in
  let '(s2, r2) := run_as (ATruncate (demo_address 0) 64) s1 in
  r2 = Ok tt /\ snd (run_as ACreateInactive s2) = Ok tt /\
  snd (run_as (ASetCheckpoint (demo_address 1) 0) (fst (run_as ACreateInactive s2))) = Err Terminate.
Proof. vm_compute. done. Qed.
