(* ===== verification/Admission.v ===== *)
(** The protected-admission policy (src/src/runtime/engine/admission_policy.h
    and src/src/runtime/engine/admission_policy.cpp): while the head of the
    FIFO queue is blocked, the requests active when it blocked are its donors;
    later requests may only borrow. The scheduler that uses the policy is in
    [Scheduler]. *)

From S2P Require Import Prelude.

Definition kMaximumConcurrency : Z := 8.

Inductive BackfillClass : Type := NoBackfill | Persistent.

#[global] Instance BackfillClass_eq_dec : EqDecision BackfillClass.
Proof. solve_decision. Defined.

Record ActiveAdmissionSnapshot : Type := mkSnapshot {
  sn_request_id : Z;
  sn_backfill_epoch : Z;
  sn_backfill_class : BackfillClass;
}.

(** [donor_ids] with [donor_count]: the prefix in use. *)
Record AdmissionProtection : Type := mkProtection {
  ap_epoch_id : Z;
  ap_head_request_id : Z;
  ap_resource_revision : Z;
  ap_donor_ids : list Z;
}.

Definition contains (ids : list Z) (id : Z) : bool := existsb (Z.eqb id) ids.

Definition is_donor (p : AdmissionProtection) (id : Z) : bool := contains (ap_donor_ids p) id.

Definition is_persistent (c : BackfillClass) : bool :=
  match c with Persistent => true | NoBackfill => false end.

(** A request that borrowed under the protection's epoch. *)
Definition borrows (p : AdmissionProtection) (r : ActiveAdmissionSnapshot) : bool :=
  (sn_backfill_epoch r =? ap_epoch_id p) && is_persistent (sn_backfill_class r).

(** The loop of [validate_active_partition]; [prior] holds the rows before. *)
Fixpoint validate_rows (p : AdmissionProtection) (prior active : list ActiveAdmissionSnapshot)
  : result unit :=
  match active with
  | [] => Ok tt
  | r :: rows =>
      _ ← throw_if ((sn_request_id r =? 0) || (sn_request_id r =? ap_head_request_id p)) InvalidArgument;
      _ ← throw_if (contains (map sn_request_id prior) (sn_request_id r)) InvalidArgument;
      _ ← if is_donor p (sn_request_id r)
          then throw_if (borrows p r) LogicError
          else throw_if (negb (borrows p r)) LogicError;
      validate_rows p (prior ++ [r]) rows
  end.

Definition validate_active_partition (p : AdmissionProtection)
    (active : list ActiveAdmissionSnapshot) : result unit :=
  _ ← throw_if (kMaximumConcurrency <? vsize active) InvalidArgument;
  validate_rows p [] active.

Definition make_admission_protection (epoch_id head_request_id resource_revision : Z)
    (active : list ActiveAdmissionSnapshot) : result AdmissionProtection :=
  _ ← throw_if ((epoch_id =? 0) || (head_request_id =? 0) || (resource_revision =? 0) ||
                (vsize active =? 0) || (kMaximumConcurrency <? vsize active)) InvalidArgument;
  donors ← rfor (fun donors r =>
                   _ ← throw_if ((sn_request_id r =? 0) || (sn_request_id r =? head_request_id) ||
                                 contains donors (sn_request_id r)) InvalidArgument;
                   Ok (donors ++ [sn_request_id r])) [] active;
  Ok (mkProtection epoch_id head_request_id resource_revision donors).

Definition rebind_admission_protection (p : AdmissionProtection)
    (active : list ActiveAdmissionSnapshot) (resource_revision : Z) : result AdmissionProtection :=
  _ ← throw_if ((ap_epoch_id p =? 0) || (ap_head_request_id p =? 0) || (resource_revision =? 0))
        InvalidArgument;
  _ ← validate_active_partition p active;
  Ok (mkProtection (ap_epoch_id p) (ap_head_request_id p) resource_revision (ap_donor_ids p)).

Definition protection_has_live_donor (p : AdmissionProtection)
    (active : list ActiveAdmissionSnapshot) : bool :=
  existsb (fun r => is_donor p (sn_request_id r)) active.

Definition persistent_backfill_is_authorized (p : AdmissionProtection) (candidate_request_id : Z)
    (active : list ActiveAdmissionSnapshot) (program_proof_revision : Z) : bool :=
  if (candidate_request_id =? 0) || (candidate_request_id =? ap_head_request_id p) ||
     (program_proof_revision =? 0) ||
     negb (program_proof_revision =? ap_resource_revision p) ||
     negb (protection_has_live_donor p active)
  then false
  else forallb (fun r => negb (sn_request_id r =? candidate_request_id) &&
                         (is_donor p (sn_request_id r) || borrows p r)) active.

(** * Properties of the policy *)
Lemma contains_elem ids id : contains ids id = true <-> id ∈ ids.
Proof.
  unfold contains. rewrite existsb_exists. split.
  - intros (x & Hx & ->%Z.eqb_eq). by apply list_elem_of_In.
  - intros Hx%list_elem_of_In. exists id. by rewrite Z.eqb_refl.
Qed.

(** The active requests partition into donors and borrowers. *)
Definition partitioned (p : AdmissionProtection) (active : list ActiveAdmissionSnapshot) : Prop :=
  Forall (fun r => sn_request_id r <> 0 /\ sn_request_id r <> ap_head_request_id p /\
                   borrows p r = negb (is_donor p (sn_request_id r))) active /\
  NoDup (map sn_request_id active).

Lemma validate_rows_Ok p prior active :
  Forall (fun r => sn_request_id r <> 0 /\ sn_request_id r <> ap_head_request_id p /\
                   borrows p r = negb (is_donor p (sn_request_id r))) active ->
  NoDup (map sn_request_id active) ->
  (forall id, id ∈ map sn_request_id prior -> id ∉ map sn_request_id active) ->
  validate_rows p prior active = Ok tt.
Proof.
  revert prior. induction active as [|r rows IH]; intros prior Hf Hnd Hdis; [done|].
  apply Forall_cons_1 in Hf as [(H0 & Hh & Hb) Hf]. cbn in Hnd. apply NoDup_cons in Hnd as [Hni Hnd].
  cbn [validate_rows]. rewrite (proj2 (Z.eqb_neq _ 0)), (proj2 (Z.eqb_neq _ (ap_head_request_id p))) by done.
  cbn [orb throw_if mbind result_bind].
  replace (contains (map sn_request_id prior) (sn_request_id r)) with false.
  2:{ symmetry. apply not_true_is_false. rewrite contains_elem. intros Hin. apply (Hdis _ Hin). set_solver. }
  cbn [throw_if mbind result_bind]. rewrite Hb.
  destruct (is_donor p (sn_request_id r)); cbn [negb throw_if mbind result_bind]; apply IH; try done.
  all: intros id; rewrite map_app, elem_of_app; cbn; intros [Hin|Hin]; [|set_solver];
    specialize (Hdis id Hin); cbn in Hdis; set_solver.
Qed.

(** A successful construction freezes exactly the incumbents as donors. *)
Lemma make_admission_protection_Ok epoch head rev active p :
  make_admission_protection epoch head rev active = Ok p ->
  p = mkProtection epoch head rev (map sn_request_id active) /\
  epoch <> 0 /\ head <> 0 /\ rev <> 0 /\ 0 < vsize active <= kMaximumConcurrency /\
  NoDup (map sn_request_id active) /\ head ∉ map sn_request_id active.
Proof.
  unfold make_admission_protection. intros H. simp_res. simp_bool.
  assert (G : forall donors, NoDup donors -> head ∉ donors -> forall out,
    rfor (fun donors r =>
            _ ← throw_if ((sn_request_id r =? 0) || (sn_request_id r =? head) ||
                          contains donors (sn_request_id r)) InvalidArgument;
            Ok (donors ++ [sn_request_id r])) donors active = Ok out ->
    out = donors ++ map sn_request_id active /\ NoDup out /\ head ∉ out).
  { clear. induction active as [|r rows IH]; intros donors Hnd Hh out E; cbn in E.
    - injection E as <-. by rewrite app_nil_r.
    - apply bind_Ok in E as (d1 & Hd1 & E). apply bind_Ok in Hd1 as (u & G1%throw_if_Ok & [= <-]). simp_bool.
      match goal with H : contains _ _ = false |- _ => apply not_true_iff_false in H; rewrite contains_elem in H end.
      apply IH in E as (-> & ? & ?).
      + split; [by rewrite <- app_assoc|done].
      + apply NoDup_app. split; [done|]. split; [set_solver|apply NoDup_singleton].
      + set_solver. }
  match goal with H : rfor _ _ _ = Ok _ |- _ => apply G in H as (-> & ? & ?) end;
    [|apply NoDup_nil_2|apply not_elem_of_nil].
  pose proof (vsize_nonneg active). split; [done|]. repeat split; try done; lia.
Qed.

Lemma make_admission_protection_succeeds epoch head rev active :
  epoch <> 0 -> head <> 0 -> rev <> 0 -> 0 < vsize active <= kMaximumConcurrency ->
  Forall (fun r => sn_request_id r <> 0) active -> NoDup (map sn_request_id active) ->
  head ∉ map sn_request_id active ->
  make_admission_protection epoch head rev active =
    Ok (mkProtection epoch head rev (map sn_request_id active)).
Proof.
  intros He Hh Hr Hs Hz Hnd Hni. unfold make_admission_protection, throw_if.
  rewrite !(proj2 (Z.eqb_neq _ 0)), (proj2 (Z.ltb_ge _ _)) by (done || lia). cbn [orb mbind result_bind].
  assert (G : forall donors, (forall id, id ∈ donors -> id ∉ map sn_request_id active) ->
    rfor (fun donors r =>
            _ ← (if (sn_request_id r =? 0) || (sn_request_id r =? head) ||
                    contains donors (sn_request_id r) then Err InvalidArgument else Ok tt);
            Ok (donors ++ [sn_request_id r])) donors active = Ok (donors ++ map sn_request_id active)).
  { clear Hs. induction active as [|r rows IH]; intros donors Hd; cbn; [by rewrite app_nil_r|].
    apply Forall_cons_1 in Hz as [Hz0 Hz]. cbn in Hnd, Hni. apply NoDup_cons in Hnd as [Hn Hnd].
    rewrite (proj2 (Z.eqb_neq _ 0)), (proj2 (Z.eqb_neq _ head)) by set_solver.
    replace (contains donors (sn_request_id r)) with false.
    2:{ symmetry. apply not_true_is_false. rewrite contains_elem. intros Hin. apply (Hd _ Hin). set_solver. }
    cbn. rewrite IH; [by rewrite <- app_assoc|done|done|set_solver|].
    intros id. rewrite elem_of_app, list_elem_of_singleton. intros [Hin| ->]; [|done].
    specialize (Hd id Hin). set_solver. }
  rewrite G; [done|]. by intros id ?%not_elem_of_nil.
Qed.
