(* ===== verification/Scheduler.v ===== *)
(** The scheduler of the engine (src/src/runtime/engine/scheduler.h): membership
    of decode rounds and control batches, service accounting, the choice of the
    next unit, the FIFO head with its protection, and admission grants. The
    request the class template is instantiated with is an interface here; the
    generation budget it carries is
    src/src/runtime/generation/generation_budget.h. *)

From S2P Require Import Prelude Admission.

(** * Generation budgets *)
Inductive FinishReason : Type :=
  | FinishNone | OutputLimit | ContextCapacity | StopToken | StopString | Cancelled.

#[global] Instance FinishReason_eq_dec : EqDecision FinishReason.
Proof. solve_decision. Defined.

Record GenerationBudget : Type := mkBudget {
  gb_remaining : Z;
  gb_limit_reason : FinishReason;
}.

Definition make_budget (effective_tokens : Z) (limit_reason : FinishReason)
  : result GenerationBudget :=
  match limit_reason with
  | OutputLimit | ContextCapacity => Ok (mkBudget effective_tokens limit_reason)
  | _ => Err Terminate
  end.

Definition budget_commit (b : GenerationBudget) (tokens : Z) : result GenerationBudget :=
  _ ← throw_if (gb_remaining b <? tokens) Terminate;
  Ok (mkBudget (gb_remaining b - tokens) (gb_limit_reason b)).

(** * The request interface

    What the template reads of a request: its identity and admission record,
    its readiness, and its output session. *)
Class SchedulerRequest (R SequenceHandle : Type) : Type := {
  rq_id : R -> Z;
  rq_backfill_epoch : R -> Z;
  rq_backfill_class : R -> BackfillClass;
  rq_remaining_service_work : R -> Z;
  rq_set_service_work : Z -> R -> R;
  rq_is_decode_ready : R -> bool;
  rq_is_control_ready : R -> bool;
  rq_capture_pending : R -> bool;
  rq_budget : R -> option GenerationBudget;
  rq_sequence : R -> option SequenceHandle;
  rq_model_token_budget_remaining : R -> Z -> Z;
  rq_pending_control_tokens : R -> list Z;
}.

Section Membership.
Context {R SequenceHandle : Type} `{SchedulerRequest R SequenceHandle}.

(** One row of a membership: lane, sequence and round budget. *)
Record RoundRow : Type := mkRoundRow {
  rr_lane : Z;
  rr_sequence : SequenceHandle;
  rr_generated_tokens_remaining : Z;
}.

Fixpoint round_rows (lane : Z) (slots : list (option R)) : result (list RoundRow) :=
  match slots with
  | [] => Ok []
  | slot :: slots' =>
      row ← match slot with
            | None => Ok None
            | Some request =>
                if negb (rq_is_decode_ready request) || rq_capture_pending request then Ok None
                else match rq_budget request, rq_sequence request with
                     | None, _ => Err LogicError
                     | Some _, None => Err LogicError
                     | Some budget, Some sequence =>
                         let n := rq_model_token_budget_remaining request (gb_remaining budget) in
                         _ ← throw_if (n =? 0) LogicError;
                         Ok (Some (mkRoundRow lane sequence n))
                     end
            end;
      rest ← round_rows (lane + 1) slots';
      Ok (match row with Some r => r :: rest | None => rest end)
  end.

(** [slots] are the first [max_concurrency] slots. *)
Definition build_round_membership (slots : list (option R)) : result (list RoundRow) :=
  round_rows 0 slots.

Record ControlMembership : Type := mkControl {
  cm_lanes : list Z;
  cm_sequences : list SequenceHandle;
  cm_tokens : list Z;
  cm_row_stride : Z;
}.

Definition control_row (lane : Z) (slot : option R) (m : ControlMembership)
  : result ControlMembership :=
  match slot with
  | None => Ok m
  | Some request =>
      if negb (rq_is_control_ready request) || rq_capture_pending request then Ok m
      else match rq_budget request, rq_sequence request with
           | Some budget, Some sequence =>
               let control := rq_pending_control_tokens request in
               _ ← throw_if ((vsize control =? 0) || (gb_remaining budget <? vsize control)) LogicError;
               stride ← (if cm_row_stride m =? 0 then Ok (wrap32 (vsize control))
                         else _ ← throw_if (negb (vsize control =? cm_row_stride m)) LogicError;
                              Ok (cm_row_stride m));
               Ok (mkControl (cm_lanes m ++ [lane]) (cm_sequences m ++ [sequence])
                     (cm_tokens m ++ control) stride)
           | _, _ => Err LogicError
           end
  end.

Fixpoint control_rows (lane : Z) (slots : list (option R)) (m : ControlMembership)
  : result ControlMembership :=
  match slots with
  | [] => Ok m
  | slot :: slots' => m' ← control_row lane slot m; control_rows (lane + 1) slots' m'
  end.

Definition build_control_membership (slots : list (option R)) : result ControlMembership :=
  control_rows 0 slots (mkControl [] [] [] 0).

Fixpoint active_admission_set (slots : list (option R)) : result (list ActiveAdmissionSnapshot) :=
  match slots with
  | [] => Ok []
  | None :: slots' => active_admission_set slots'
  | Some request :: slots' =>
      _ ← throw_if (rq_remaining_service_work request =? 0) LogicError;
      rest ← active_admission_set slots';
      Ok (mkSnapshot (rq_id request) (rq_backfill_epoch request) (rq_backfill_class request) :: rest)
  end.

Definition consume_service_work (request : R) (work : Z) : result R :=
  _ ← throw_if ((work =? 0) || (rq_remaining_service_work request <? work)) LogicError;
  Ok (rq_set_service_work (rq_remaining_service_work request - work) request).

(** [FifoSnapshot]. *)
Definition fifo_head (requests : list R) : result R :=
  match requests with
  | [] => Err LogicError
  | r :: _ => Ok r
  end.

Definition backfill_candidates (requests : list R) : list R :=
  if vsize requests <=? 1 then [] else drop 1 requests.
End Membership.

(** The request record of the engine (src/src/runtime/engine/request_record.h),
    with what the scheduler reads of it. The output session belongs to the
    model package: the two answers the scheduler asks of it are fields. *)
Inductive EngineRequestState : Type :=
  | Waiting | Materializing | InPrefill | DecodeReady | ControlReady | ModelFinished.

#[global] Instance EngineRequestState_eq_dec : EqDecision EngineRequestState.
Proof. solve_decision. Defined.

Record RequestRecord : Type := mkRequestRecord {
  rec_id : Z;
  rec_model_state : EngineRequestState;
  rec_capture_pending : bool;
  rec_budget : option GenerationBudget;
  rec_sequence : option Z;
  rec_remaining_service_work : Z;
  rec_backfill_epoch : Z;
  rec_backfill_class : BackfillClass;
  rec_output_budget : Z -> Z;
  rec_control_tokens : list Z;
}.

Definition is_waiting (r : RequestRecord) : bool := bool_decide (rec_model_state r = Waiting).
Definition is_prefilling (r : RequestRecord) : bool := bool_decide (rec_model_state r = InPrefill).
Definition is_materializing (r : RequestRecord) : bool :=
  bool_decide (rec_model_state r = Materializing).
Definition is_decode_ready (r : RequestRecord) : bool := bool_decide (rec_model_state r = DecodeReady).
Definition is_control_ready (r : RequestRecord) : bool := bool_decide (rec_model_state r = ControlReady).
Definition is_model_finished (r : RequestRecord) : bool :=
  bool_decide (rec_model_state r = ModelFinished).

#[global] Instance RequestRecord_scheduled : SchedulerRequest RequestRecord Z := {|
  rq_id := rec_id;
  rq_backfill_epoch := rec_backfill_epoch;
  rq_backfill_class := rec_backfill_class;
  rq_remaining_service_work := rec_remaining_service_work;
  rq_set_service_work := fun w r =>
    mkRequestRecord (rec_id r) (rec_model_state r) (rec_capture_pending r) (rec_budget r)
      (rec_sequence r) w (rec_backfill_epoch r) (rec_backfill_class r) (rec_output_budget r)
      (rec_control_tokens r);
  rq_is_decode_ready := is_decode_ready;
  rq_is_control_ready := is_control_ready;
  rq_capture_pending := rec_capture_pending;
  rq_budget := rec_budget;
  rq_sequence := rec_sequence;
  rq_model_token_budget_remaining := rec_output_budget;
  rq_pending_control_tokens := rec_control_tokens;
|}.

(** * The scheduler's state *)
Record Scheduler : Type := mkScheduler {
  prefill_lane_ : option Z;
  fifo_head_id_ : option Z;
  protection_ : option AdmissionProtection;
  next_protection_epoch_ : Z;
}.

Definition initial_scheduler : Scheduler := mkScheduler None None None 1.

Inductive ExecutionAction : Type := Prefill | Decode | Wait.

#[global] Instance ExecutionAction_eq_dec : EqDecision ExecutionAction.
Proof. solve_decision. Defined.

Record AdmissionGrant : Type := mkGrant {
  gr_request_id : Z;
  gr_backfill_class : BackfillClass;
  gr_protection_epoch : Z;
  gr_resource_revision : Z;
  gr_service_work_quanta : Z;
}.

Definition should_attempt_admission (s : Scheduler)
    (have_pending admission_check_pending have_decode previous_unit_was_decode
     context_transaction : bool) : bool :=
  have_pending && admission_check_pending && negb context_transaction &&
  match prefill_lane_ s with Some _ => false | None => true end &&
  (negb have_decode || previous_unit_was_decode).

Definition choose_execution (have_decode prefill_runnable previous_unit_was_decode : bool)
  : ExecutionAction :=
  if prefill_runnable then
    if have_decode && negb previous_unit_was_decode then Decode else Prefill
  else if have_decode then Decode else Wait.

Definition protection_epoch (s : Scheduler) : option Z := ap_epoch_id <$> protection_ s.

Definition set_prefill_lane (lane : Z) (s : Scheduler) : result Scheduler :=
  match prefill_lane_ s with
  | Some _ => Err LogicError
  | None => Ok (mkScheduler (Some lane) (fifo_head_id_ s) (protection_ s) (next_protection_epoch_ s))
  end.

Definition clear_prefill_lane (lane : Z) (s : Scheduler) : result Scheduler :=
  match prefill_lane_ s with
  | Some l =>
      _ ← throw_if (negb (l =? lane)) LogicError;
      Ok (mkScheduler None (fifo_head_id_ s) (protection_ s) (next_protection_epoch_ s))
  | None => Err LogicError
  end.

Definition set_head (head : option Z) (protection : option AdmissionProtection) (s : Scheduler)
  : Scheduler :=
  mkScheduler (prefill_lane_ s) head protection (next_protection_epoch_ s).

Definition observe_fifo_head (request_id : option Z) (s : Scheduler) : Scheduler :=
  if bool_decide (fifo_head_id_ s = request_id) then s else set_head request_id None s.

Definition on_waiting_removed (request_id : Z) (s : Scheduler) : Scheduler :=
  match fifo_head_id_ s with
  | Some h => if h =? request_id then set_head None None s else s
  | None => s
  end.

Definition head_is (s : Scheduler) (id : Z) : bool :=
  match fifo_head_id_ s with Some h => h =? id | None => false end.

Definition grant_head (s : Scheduler) (request_id service_work_quanta : Z) : result AdmissionGrant :=
  _ ← throw_if (negb (head_is s request_id) || (request_id =? 0) || (service_work_quanta =? 0))
        LogicError;
  Ok (mkGrant request_id NoBackfill 0 0 service_work_quanta).

(** The epoch counter advances before the protection is built, also when
    building it throws. *)
Definition protect_blocked_head (request_id : Z) (active : list ActiveAdmissionSnapshot)
    (resource_revision : Z) : M Scheduler bool :=
  s ← mget;
  _ ← mthrow_if (negb (head_is s request_id)) LogicError;
  _ ← match protection_ s with
      | None =>
          let epoch := next_protection_epoch_ s in
          _ ← mput (mkScheduler (prefill_lane_ s) (fifo_head_id_ s) None (wrap64 (epoch + 1)));
          p ← mlift (make_admission_protection epoch request_id resource_revision active);
          mmodify (set_head (fifo_head_id_ s) (Some p))
      | Some p =>
          _ ← mthrow_if (negb (ap_head_request_id p =? request_id)) LogicError;
          p' ← mlift (rebind_admission_protection p active resource_revision);
          mmodify (set_head (fifo_head_id_ s) (Some p'))
      end;
  s' ← mget;
  match protection_ s' with
  | Some p => mret (protection_has_live_donor p active)
  | None => mthrow Undefined
  end.

Definition qualify_backfill (s : Scheduler) (request_id service_work_quanta : Z)
    (active : list ActiveAdmissionSnapshot) (program_proof_revision : Z)
  : result (option AdmissionGrant) :=
  match fifo_head_id_ s, protection_ s with
  | Some head, Some p =>
      _ ← throw_if (negb (ap_head_request_id p =? head)) LogicError;
      _ ← throw_if ((request_id =? 0) || (request_id =? head) || (service_work_quanta =? 0)) LogicError;
      Ok (if persistent_backfill_is_authorized p request_id active program_proof_revision
          then Some (mkGrant request_id Persistent (ap_epoch_id p) program_proof_revision
                       service_work_quanta)
          else None)
  | _, _ => Err LogicError
  end.

Definition validate_grant (s : Scheduler) (g : AdmissionGrant) : bool :=
  if (gr_request_id g =? 0) || (gr_service_work_quanta g =? 0) then false
  else match gr_backfill_class g with
       | NoBackfill => (gr_protection_epoch g =? 0) && (gr_resource_revision g =? 0) &&
                       head_is s (gr_request_id g)
       | Persistent =>
           match fifo_head_id_ s, protection_ s with
           | Some head, Some p =>
               (ap_head_request_id p =? head) && (ap_epoch_id p =? gr_protection_epoch g) &&
               (ap_resource_revision p =? gr_resource_revision g) &&
               negb (gr_request_id g =? head)
           | _, _ => false
           end
       end.

(** The grant is consumed: its identity and work are cleared. *)
Definition commit_admission (s : Scheduler) (g : AdmissionGrant) : result (Scheduler * AdmissionGrant) :=
  _ ← throw_if (negb (validate_grant s g)) LogicError;
  let g' := mkGrant 0 (gr_backfill_class g) (gr_protection_epoch g) (gr_resource_revision g) 0 in
  match gr_backfill_class g with
  | NoBackfill => Ok (set_head None None s, g')
  | Persistent => Ok (s, g')
  end.

Definition scheduler_reset (s : Scheduler) : Scheduler :=
  mkScheduler None None None (next_protection_epoch_ s).

(** * Membership *)
Section MembershipLemmas.
Context {R SequenceHandle : Type} `{SchedulerRequest R SequenceHandle}.

(** A slot takes part in a decode round. *)
Definition decode_member (slot : option R) : bool :=
  match slot with
  | Some r => rq_is_decode_ready r && negb (rq_capture_pending r)
  | None => false
  end.

Definition control_member (slot : option R) : bool :=
  match slot with
  | Some r => rq_is_control_ready r && negb (rq_capture_pending r)
  | None => false
  end.

(** The lanes, from [lane] on, whose slot satisfies [f]. *)
Fixpoint member_lanes (f : option R -> bool) (lane : Z) (slots : list (option R)) : list Z :=
  match slots with
  | [] => []
  | slot :: slots' =>
      if f slot then lane :: member_lanes f (lane + 1) slots'
      else member_lanes f (lane + 1) slots'
  end.

Lemma member_lanes_spec f lane slots l :
  l ∈ member_lanes f lane slots <->
  exists i slot, slots !! i = Some slot /\ f slot = true /\ l = lane + Z.of_nat i.
Proof.
  revert lane. induction slots as [|slot slots IH]; intros lane; cbn.
  - split; [by intros ?%not_elem_of_nil|]. intros (i & s & Hs & _). done.
  - assert (G : l ∈ member_lanes f (lane + 1) slots <->
      exists i s, slots !! i = Some s /\ f s = true /\ l = lane + Z.of_nat (S i)).
    { rewrite IH. split; intros (i & s & ? & ? & ?); exists i, s; repeat split; auto; lia. }
    destruct (f slot) eqn:E; rewrite ?elem_of_cons, G; split.
    + intros [->|(i & s & ? & ? & ->)]; [exists O, slot; repeat split; auto; lia|by exists (S i), s].
    + intros (i & s & Hi & Hf & ->). destruct i as [|i]; [left; lia|right]. by exists i, s.
    + intros (i & s & ? & ? & ->). by exists (S i), s.
    + intros (i & s & Hi & Hf & ->). destruct i as [|i]; [cbn in Hi; congruence|]. by exists i, s.
Qed.

Lemma round_rows_spec lane slots rows :
  round_rows lane slots = Ok rows ->
  map rr_lane rows = member_lanes decode_member lane slots /\
  Forall (fun r => exists i q b s, slots !! i = Some (Some q) /\ rr_lane r = lane + Z.of_nat i /\
            rq_budget q = Some b /\ rq_sequence q = Some s /\ rr_sequence r = s /\
            rr_generated_tokens_remaining r =
              rq_model_token_budget_remaining q (gb_remaining b) /\
            rr_generated_tokens_remaining r <> 0) rows.
Proof.
  revert lane rows. induction slots as [|slot slots IH]; intros lane rows E; cbn in E.
  { injection E as <-. split; [done|apply Forall_nil_2]. }
  apply bind_Ok in E as (row & Hrow & E). apply bind_Ok in E as (rest & Hrest & [= <-]).
  apply IH in Hrest as [Hl Hf].
  assert (Hf' : Forall (fun r => exists i q b s, (slot :: slots) !! i = Some (Some q) /\
            rr_lane r = lane + Z.of_nat i /\
            rq_budget q = Some b /\ rq_sequence q = Some s /\ rr_sequence r = s /\
            rr_generated_tokens_remaining r =
              rq_model_token_budget_remaining q (gb_remaining b) /\
            rr_generated_tokens_remaining r <> 0) rest).
  { eapply Forall_impl; [exact Hf|]. intros r (i & q & b & s & ? & ? & ?).
    exists (S i), q, b, s. split; [done|]. split; [lia|done]. }
  cbn [member_lanes]. destruct slot as [q|]; [|injection Hrow as <-; cbn; by rewrite Hl].
  unfold decode_member at 1. destruct (rq_is_decode_ready q), (rq_capture_pending q); cbn in Hrow |- *;
    try (injection Hrow as <-; cbn; by rewrite Hl).
  destruct (rq_budget q) as [b|] eqn:Eb; [|done]. destruct (rq_sequence q) as [s|] eqn:Es; [|done].
  apply bind_Ok in Hrow as (u & G%throw_if_Ok & [= <-]). simp_bool. cbn. rewrite Hl.
  split; [done|]. apply Forall_cons_2; [|done]. exists O, q, b, s. cbn. repeat split; auto. lia.
Qed.

Lemma control_rows_spec lane slots m m' :
  control_rows lane slots m = Ok m' ->
  vsize (cm_tokens m) = cm_row_stride m * vsize (cm_lanes m) ->
  (cm_row_stride m = 0 -> cm_lanes m = []) -> 0 <= cm_row_stride m <= U32_MAX ->
  vsize (cm_lanes m) = vsize (cm_sequences m) ->
  (forall r, Some r ∈ slots -> vsize (rq_pending_control_tokens r) <= U32_MAX) ->
  cm_lanes m' = cm_lanes m ++ member_lanes control_member lane slots /\
  vsize (cm_lanes m') = vsize (cm_sequences m') /\
  vsize (cm_tokens m') = cm_row_stride m' * vsize (cm_lanes m').
Proof.
  revert lane m. induction slots as [|slot slots IH]; intros lane m E Ht Hz Hs Hq Hb; cbn in E.
  { injection E as <-. cbn. by rewrite app_nil_r. }
  apply bind_Ok in E as (m1 & Hrow & E). cbn [member_lanes].
  assert (Hb' : forall r, Some r ∈ slots -> vsize (rq_pending_control_tokens r) <= U32_MAX) by set_solver.
  destruct slot as [q|]; [|injection Hrow as <-; by apply IH in E].
  unfold control_row in Hrow. unfold control_member at 1.
  destruct (rq_is_control_ready q), (rq_capture_pending q); cbn in Hrow |- *;
    try (injection Hrow as <-; by apply IH in E).
  destruct (rq_budget q) as [b|]; [|done]. destruct (rq_sequence q) as [s|]; [|done].
  apply bind_Ok in Hrow as (u & G%throw_if_Ok & Hrow). apply bind_Ok in Hrow as (stride & Hst & [= <-]).
  simp_bool. pose proof (vsize_nonneg (rq_pending_control_tokens q)).
  assert (Hstride : stride = vsize (rq_pending_control_tokens q) /\
                    (cm_row_stride m = stride \/ cm_lanes m = [])).
  { specialize (Hb q ltac:(set_solver)). destruct (Z.eqb_spec (cm_row_stride m) 0) as [Hm|Hm].
    - injection Hst as <-. rewrite wrap32_small by lia. auto.
    - apply bind_Ok in Hst as (v & G'%throw_if_Ok & [= <-]). simp_bool. auto. }
  destruct Hstride as [-> Hcase]. specialize (Hb q ltac:(set_solver)).
  apply IH in E as (El & ? & ?); cbn in *; try done.
  - split; [by rewrite El, <- app_assoc|done].
  - rewrite !vsize_app. change (vsize [lane]) with 1.
    destruct Hcase as [<-|Hnil]; [lia|]. rewrite Hnil in *. change (vsize []) with 0 in *. lia.
  - rewrite !vsize_app, Hq. done.
Qed.
End MembershipLemmas.

(** * The admission protocol

    The scheduler with the requests the engine has admitted: those in a slot
    ([sy_active], as [active_admission_set] reports them), the one being
    materialized, and every identity ever admitted. A step is what
    [EngineCore::try_admit_one], [admit_planned_request] and
    [progress_context_transaction] do to the scheduler: identities are never
    reused, a waiting request has not been admitted, one request materializes
    at a time, and no admission is attempted meanwhile. *)
Record system : Type := mkSystem {
  sy_scheduler : Scheduler;
  sy_active : list ActiveAdmissionSnapshot;
  sy_materializing : option ActiveAdmissionSnapshot;
  sy_admitted : list Z;
}.

Definition sy_members (y : system) : list ActiveAdmissionSnapshot :=
  sy_active y ++ option_list (sy_materializing y).

(** A fresh identity: not zero and never admitted. *)
Definition fresh (y : system) (id : Z) : Prop := id <> 0 /\ id ∉ sy_admitted y.

Inductive system_step : system -> system -> Prop :=
  | sys_observe s ac m ad head :
      match head with Some h => fresh (mkSystem s ac m ad) h | None => True end ->
      system_step (mkSystem s ac m ad) (mkSystem (observe_fifo_head head s) ac m ad)
  | sys_removed s ac m ad id :
      system_step (mkSystem s ac m ad) (mkSystem (on_waiting_removed id s) ac m ad)
  | sys_protect s ac ad head rev s' res :
      next_protection_epoch_ s < U64_MAX ->
      protect_blocked_head head ac rev s = (s', res) ->
      system_step (mkSystem s ac None ad) (mkSystem s' ac None ad)
  | sys_admit_head s ac ad id work g s' g' :
      fresh (mkSystem s ac None ad) id -> vsize ac < kMaximumConcurrency ->
      grant_head s id work = Ok g -> commit_admission s g = Ok (s', g') ->
      system_step (mkSystem s ac None ad)
        (mkSystem s' ac (Some (mkSnapshot id (gr_protection_epoch g) (gr_backfill_class g))) (id :: ad))
  | sys_backfill s ac ad id work rev g s' g' :
      fresh (mkSystem s ac None ad) id -> vsize ac < kMaximumConcurrency ->
      qualify_backfill s id work ac rev = Ok (Some g) -> commit_admission s g = Ok (s', g') ->
      system_step (mkSystem s ac None ad)
        (mkSystem s' ac (Some (mkSnapshot id (gr_protection_epoch g) (gr_backfill_class g))) (id :: ad))
  | sys_adopt s ac r ad pre post :
      ac = pre ++ post ->
      system_step (mkSystem s ac (Some r) ad) (mkSystem s (pre ++ r :: post) None ad)
  | sys_abort s ac r ad :
      system_step (mkSystem s ac (Some r) ad) (mkSystem s ac None ad)
  | sys_finish s ac m ad k :
      system_step (mkSystem s ac m ad) (mkSystem s (delete k ac) m ad)
  | sys_prefill s ac m ad lane s' :
      set_prefill_lane lane s = Ok s' \/ clear_prefill_lane lane s = Ok s' ->
      system_step (mkSystem s ac m ad) (mkSystem s' ac m ad)
  | sys_reset s ac m ad :
      system_step (mkSystem s ac m ad) (mkSystem (scheduler_reset s) ac m ad).

Inductive system_steps : system -> system -> Prop :=
  | steps_refl y : system_steps y y
  | steps_trans y y' y'' : system_step y y' -> system_steps y' y'' -> system_steps y y''.

Definition initial_system : system := mkSystem initial_scheduler [] None [].

(** Donors and borrowers of an open protection. *)
Definition protection_ok (head : option Z) (next : Z) (members : list ActiveAdmissionSnapshot)
    (admitted : list Z) (p : AdmissionProtection) : Prop :=
  head = Some (ap_head_request_id p) /\ 0 < ap_epoch_id p < next /\ ap_head_request_id p <> 0 /\
  ap_resource_revision p <> 0 /\
  Forall (fun id => id ∈ admitted) (ap_donor_ids p) /\
  Forall (fun r => borrows p r = negb (is_donor p (sn_request_id r))) members.

Record system_ok (y : system) : Prop := {
  so_next : 1 <= next_protection_epoch_ (sy_scheduler y) <= U64_MAX;
  so_members : Forall (fun r => sn_request_id r <> 0 /\ sn_request_id r ∈ sy_admitted y /\
                         sn_backfill_epoch r < next_protection_epoch_ (sy_scheduler y)) (sy_members y);
  so_nodup : NoDup (map sn_request_id (sy_members y));
  so_size : vsize (sy_members y) <= kMaximumConcurrency;
  so_head : forall h, fifo_head_id_ (sy_scheduler y) = Some h -> fresh y h;
  so_protection : forall p, protection_ (sy_scheduler y) = Some p ->
    protection_ok (fifo_head_id_ (sy_scheduler y)) (next_protection_epoch_ (sy_scheduler y))
      (sy_members y) (sy_admitted y) p;
}.

(** Members may leave: the rest of the invariant survives a sublist. *)
Lemma system_ok_members s ac m ad ac' m' :
  system_ok (mkSystem s ac m ad) ->
  sy_members (mkSystem s ac' m' ad) ⊆+ sy_members (mkSystem s ac m ad) ->
  system_ok (mkSystem s ac' m' ad).
Proof.
  intros H Hsub. set (y := mkSystem s ac m ad) in *. set (y' := mkSystem s ac' m' ad) in *.
  apply submseteq_Permutation in Hsub as [k Hk].
  assert (Hf : forall P, Forall P (sy_members y) -> Forall P (sy_members y'))
    by (intros P HP; rewrite Hk in HP; by apply Forall_app in HP as [? _]).
  constructor; try apply H.
  - apply Hf, (so_members _ H).
  - pose proof (so_nodup _ H) as Hnd. rewrite Hk, map_app in Hnd. by apply NoDup_app in Hnd as [? _].
  - pose proof (so_size _ H) as Hs. unfold vsize in *. rewrite Hk, length_app in Hs. lia.
  - intros p Hp. destruct (so_protection _ H p Hp) as (? & ? & ? & ? & ? & HP).
    do 5 (split; [done|]). by apply Hf.
Qed.

(** Admitting [id]: it becomes the member being materialized. *)
Lemma system_ok_admit s ac ad s' r :
  system_ok (mkSystem s ac None ad) -> fresh (mkSystem s ac None ad) (sn_request_id r) ->
  vsize ac < kMaximumConcurrency -> sn_backfill_epoch r < next_protection_epoch_ s ->
  next_protection_epoch_ s' = next_protection_epoch_ s ->
  (forall h, fifo_head_id_ s' = Some h -> fifo_head_id_ s = Some h /\ h <> sn_request_id r) ->
  (forall p, protection_ s' = Some p -> protection_ s = Some p /\ fifo_head_id_ s' = fifo_head_id_ s /\
     borrows p r = negb (is_donor p (sn_request_id r))) ->
  system_ok (mkSystem s' ac (Some r) (sn_request_id r :: ad)).
Proof.
  intros H [Hz Hni] Hs He Hn Hh Hp.
  assert (Hin : forall x, x ∈ map sn_request_id ac -> x ∈ ad).
  { intros x (q & -> & Hq)%list_elem_of_fmap. pose proof (so_members _ H) as Hm.
    unfold sy_members in Hm. cbn in Hm. rewrite app_nil_r, Forall_forall in Hm. by apply Hm. }
  constructor; unfold sy_members; cbn.
  - rewrite Hn. apply H.
  - apply Forall_app. split.
    + pose proof (so_members _ H) as Hm. unfold sy_members in Hm. cbn in Hm. rewrite app_nil_r in Hm.
      eapply Forall_impl; [exact Hm|]. intros q (? & ? & ?). rewrite Hn. repeat split; auto. set_solver.
    + apply Forall_singleton. rewrite Hn. repeat split; auto. set_solver.
  - pose proof (so_nodup _ H) as Hnd. unfold sy_members in Hnd. cbn in Hnd. rewrite app_nil_r in Hnd.
    rewrite map_app. apply NoDup_app. split; [done|]. split; [|apply NoDup_singleton].
    cbn. intros x Hx ->%list_elem_of_singleton. by apply Hin in Hx.
  - rewrite vsize_app. unfold vsize, kMaximumConcurrency in *. cbn. lia.
  - intros h Hhd. apply Hh in Hhd as [Hhd Hne]. apply (so_head _ H) in Hhd as [? ?].
    split; [done|]. cbn in *. set_solver.
  - intros p Hpp. destruct (Hp p Hpp) as (Hsp & Hhd & Hb).
    destruct (so_protection _ H p Hsp) as (? & ? & ? & ? & Hd & Hm). rewrite Hn, Hhd.
    do 4 (split; [done|]). split.
    + eapply Forall_impl; [exact Hd|]. cbn. intros x Hx. set_solver.
    + unfold sy_members in Hm. cbn in Hm. rewrite app_nil_r in Hm. apply Forall_app. split; [done|].
      by apply Forall_singleton.
Qed.

(** A request that was never admitted is no donor. *)
Lemma fresh_not_donor y p id :
  system_ok y -> protection_ (sy_scheduler y) = Some p -> fresh y id -> is_donor p id = false.
Proof.
  intros H Hp [_ Hni]. destruct (so_protection _ H p Hp) as (_ & _ & _ & _ & Hd & _).
  apply not_true_is_false. unfold is_donor. rewrite contains_elem. intros Hin.
  rewrite Forall_forall in Hd. by apply Hd in Hin.
Qed.

Lemma system_ok_protect s ac ad head rev s' res :
  system_ok (mkSystem s ac None ad) -> next_protection_epoch_ s < U64_MAX ->
  protect_blocked_head head ac rev s = (s', res) ->
  system_ok (mkSystem s' ac None ad).
Proof.
  intros H Hlt E. pose proof (so_next _ H) as Hn. cbn in Hn.
  unfold protect_blocked_head in E. rewrite (M_bind_run _ mget s s s) in E by done.
  unfold mthrow_if, throw_if in E.
  destruct (head_is s head) eqn:Hh; cbn [negb] in E; [|by injection E as <- <-].
  rewrite (M_bind_run _ (mlift (Ok tt)) s s tt) in E by done.
  assert (Hhd : fifo_head_id_ s = Some head).
  { unfold head_is in Hh. destruct (fifo_head_id_ s); [|done]. by apply Z.eqb_eq in Hh as ->. }
  pose proof (so_members _ H) as Hm. unfold sy_members in Hm. cbn in Hm. rewrite app_nil_r in Hm.
  destruct (protection_ s) as [p|] eqn:Ep.
  - destruct (so_protection _ H p Ep) as (Hph & Hpe & Hpz & Hpr & Hpd & Hpm). cbn in *.
    unfold mbind, M_bind, mlift, mmodify, mget, mret, M_ret in E.
    destruct (negb (ap_head_request_id p =? head)); [by injection E as <- <-|].
    destruct (rebind_admission_protection p ac rev) as [p'|e] eqn:Er; [|by injection E as <- <-].
    unfold rebind_admission_protection in Er. apply bind_Ok in Er as (u & G%throw_if_Ok & Er).
    apply bind_Ok in Er as (u' & _ & [= <-]). simp_bool. cbn in E. injection E as <- <-.
    constructor; try apply H; cbn.
    intros q [= <-]. do 3 (split; [done|]). split; [done|]. split; [done|].
    unfold sy_members in *. cbn in *. exact Hpm.
  - unfold mbind, M_bind, mput, mlift, mmodify, mget, mret, M_ret in E.
    rewrite wrap64_small in E by (unfold U64_MAX in *; lia).
    assert (Hbase : system_ok (mkSystem (mkScheduler (prefill_lane_ s) (fifo_head_id_ s) None
                      (next_protection_epoch_ s + 1)) ac None ad)).
    { constructor; try apply H; cbn; try done; try (unfold U64_MAX in *; lia).
      unfold sy_members. cbn. rewrite app_nil_r. eapply Forall_impl; [exact Hm|]. intros q (? & ? & ?).
      repeat split; auto. lia. }
    destruct (make_admission_protection _ _ _ _) as [p|e] eqn:Em; [|by injection E as <- <-].
    cbn in E. injection E as <- <-. apply make_admission_protection_Ok in Em as (-> & He & Hz & Hr & Hsz & Hnd & Hni).
    constructor; try apply Hbase. cbn. intros q [= <-]. cbn. split; [by rewrite Hhd|].
    split; [cbn; lia|]. split; [done|]. split; [done|]. split.
    + apply Forall_map. eapply Forall_impl; [exact Hm|]. by intros q (_ & ? & _).
    + unfold sy_members. cbn [sy_active sy_materializing option_list]. rewrite app_nil_r. apply Forall_forall. intros q Hq.
      rewrite Forall_forall in Hm. destruct (Hm q Hq) as (_ & _ & Hep). unfold borrows, is_donor. cbn [ap_epoch_id ap_donor_ids].
      rewrite (proj2 (Z.eqb_neq _ _)) by lia. replace (contains (map sn_request_id ac) (sn_request_id q)) with true; [done|].
      symmetry. apply contains_elem, list_elem_of_fmap_2. done.
Qed.

(** Changing the head or dropping the protection. *)
Lemma system_ok_set_head s ac m ad head pl :
  system_ok (mkSystem s ac m ad) ->
  (forall h, head = Some h -> fresh (mkSystem s ac m ad) h) ->
  system_ok (mkSystem (mkScheduler pl head None (next_protection_epoch_ s)) ac m ad).
Proof. intros H Hh. constructor; try apply H; cbn; done. Qed.

Lemma system_ok_prefill s ac m ad pl :
  system_ok (mkSystem s ac m ad) ->
  system_ok (mkSystem (mkScheduler pl (fifo_head_id_ s) (protection_ s) (next_protection_epoch_ s)) ac m ad).
Proof. intros H. constructor; apply H. Qed.

Lemma system_ok_backfill s ac ad id work rev g s' g' :
  system_ok (mkSystem s ac None ad) -> fresh (mkSystem s ac None ad) id ->
  vsize ac < kMaximumConcurrency ->
  qualify_backfill s id work ac rev = Ok (Some g) -> commit_admission s g = Ok (s', g') ->
  s' = s /\
  system_ok (mkSystem s' ac (Some (mkSnapshot id (gr_protection_epoch g) (gr_backfill_class g))) (id :: ad)).
Proof.
  intros H Hf Hs Hq Hc. unfold qualify_backfill in Hq.
  destruct (fifo_head_id_ s) as [h|] eqn:Eh; [|done]. destruct (protection_ s) as [p|] eqn:Ep; [|done].
  apply bind_Ok in Hq as (u1 & _ & Hq). apply bind_Ok in Hq as (u2 & G%throw_if_Ok & Hq). simp_bool.
  destruct (persistent_backfill_is_authorized _ _ _ _); [|done]. injection Hq as <-.
  unfold commit_admission in Hc. apply bind_Ok in Hc as (u3 & _ & [= <- _]). split; [done|].
  destruct (so_protection _ H p Ep) as (_ & He & _).
  apply (system_ok_admit s ac ad s (mkSnapshot id (ap_epoch_id p) Persistent)); try done.
  - cbn in *. lia.
  - intros h' Hh'. split; [done|]. cbn. congruence.
  - intros p' Hp'. split; [done|]. split; [done|]. assert (p' = p) as -> by congruence.
    cbn [sn_request_id]. rewrite (fresh_not_donor (mkSystem s ac None ad) p id H Ep Hf). unfold borrows. cbn.
    by rewrite Z.eqb_refl.
Qed.

Lemma system_step_ok y y' : system_ok y -> system_step y y' -> system_ok y'.
Proof.
  intros H Hs. destruct Hs as [s ac m ad head Hf|s ac m ad id|s ac ad head rev s' res Hlt E|
    s ac ad id work g s' g' Hf Hsz Hg Hc|s ac ad id work rev g s' g' Hf Hsz Hq Hc|
    s ac r ad pre post ->|s ac r ad|s ac m ad k|s ac m ad lane s' E|s ac m ad].
  - unfold observe_fifo_head. case_bool_decide; [done|]. apply system_ok_set_head; [done|].
    intros h ->. done.
  - unfold on_waiting_removed. destruct (fifo_head_id_ s) as [h|]; [|done]. destruct (h =? id); [|done].
    by apply system_ok_set_head.
  - by eapply system_ok_protect.
  - unfold grant_head in Hg. apply bind_Ok in Hg as (u & _ & [= <-]).
    unfold commit_admission in Hc. apply bind_Ok in Hc as (u' & _ & [= <- _]).
    apply (system_ok_admit s ac ad _ (mkSnapshot id 0 NoBackfill)); try done.
    pose proof (so_next _ H). cbn in *. lia.
  - by eapply system_ok_backfill.
  - eapply system_ok_members; [exact H|]. unfold sy_members. cbn. rewrite !app_nil_r.
    apply Permutation_submseteq. rewrite <- app_assoc. f_equiv. rewrite (Permutation_app_comm post). done.
  - eapply system_ok_members; [exact H|]. unfold sy_members. cbn. apply submseteq_inserts_r.
    by rewrite app_nil_r.
  - eapply system_ok_members; [exact H|]. unfold sy_members. cbn. apply submseteq_app; [|done].
    apply sublist_submseteq, sublist_delete.
  - destruct E as [E|E].
    + unfold set_prefill_lane in E. destruct (prefill_lane_ s); [done|]. injection E as <-.
      by apply system_ok_prefill.
    + unfold clear_prefill_lane in E. destruct (prefill_lane_ s); [|done]. simp_res. by apply system_ok_prefill.
  - by apply system_ok_set_head.
Qed.

Lemma initial_system_ok : system_ok initial_system.
Proof.
  constructor; cbn; try done; try (unfold U64_MAX, kMaximumConcurrency, vsize; cbn; lia).
  apply NoDup_nil_2.
Qed.

Lemma system_steps_ok y y' : system_ok y -> system_steps y y' -> system_ok y'.
Proof. intros H. induction 1; [done|]. eauto using system_step_ok. Qed.

(** ** A protection keeps its head and donors for its whole epoch *)
Definition same_protection (p p' : AdmissionProtection) : Prop :=
  ap_epoch_id p' = ap_epoch_id p /\ ap_head_request_id p' = ap_head_request_id p /\
  ap_donor_ids p' = ap_donor_ids p.

Lemma protect_protection s ac head rev s' res p' :
  next_protection_epoch_ s < U64_MAX -> 0 <= next_protection_epoch_ s ->
  protect_blocked_head head ac rev s = (s', res) ->
  next_protection_epoch_ s <= next_protection_epoch_ s' /\
  (protection_ s' = Some p' ->
   (exists p, protection_ s = Some p /\ same_protection p p') \/
   ap_epoch_id p' = next_protection_epoch_ s).
Proof.
  intros Hlt H0 E. unfold protect_blocked_head in E. rewrite (M_bind_run _ mget s s s) in E by done.
  unfold mthrow_if, throw_if in E.
  destruct (head_is s head) eqn:Hh; cbn [negb] in E.
  2:{ injection E as <- <-. split; [lia|]. intros Hp. left. exists p'. done. }
  rewrite (M_bind_run _ (mlift (Ok tt)) s s tt) in E by done.
  unfold mbind, M_bind, mput, mlift, mmodify, mget, mret, M_ret in E.
  destruct (protection_ s) as [p|] eqn:Ep.
  - destruct (negb (ap_head_request_id p =? head)).
    { injection E as <- <-. split; [lia|]. intros Hp. left. exists p. assert (p' = p) as -> by congruence. done. }
    destruct (rebind_admission_protection p ac rev) as [q|e] eqn:Er.
    + unfold rebind_admission_protection in Er. apply bind_Ok in Er as (u & _ & Er).
      apply bind_Ok in Er as (u' & _ & [= <-]). cbn in E. injection E as <- <-. cbn. split; [lia|].
      intros [= <-]. left. exists p. done.
    + injection E as <- <-. split; [lia|]. intros Hp. left. exists p. assert (p' = p) as -> by congruence. done.
  - rewrite wrap64_small in E by (unfold U64_MAX in *; lia).
    destruct (make_admission_protection _ _ _ _) as [q|e] eqn:Em; [|injection E as <- <-; cbn; split; [lia|done]].
    apply make_admission_protection_Ok in Em as (-> & _). cbn in E. injection E as <- <-. cbn.
    split; [lia|]. intros [= <-]. by right.
Qed.

Lemma step_protection y y' p' :
  system_ok y -> system_step y y' ->
  next_protection_epoch_ (sy_scheduler y) <= next_protection_epoch_ (sy_scheduler y') /\
  (protection_ (sy_scheduler y') = Some p' ->
   ap_epoch_id p' < next_protection_epoch_ (sy_scheduler y) ->
   exists p, protection_ (sy_scheduler y) = Some p /\ same_protection p p').
Proof.
  intros H Hs. pose proof (so_next _ H) as Hn.
  assert (Hsame : forall s s' : Scheduler, next_protection_epoch_ s' = next_protection_epoch_ s ->
    (protection_ s' = None \/ protection_ s' = protection_ s) ->
    next_protection_epoch_ s <= next_protection_epoch_ s' /\
    (protection_ s' = Some p' -> ap_epoch_id p' < next_protection_epoch_ s ->
     exists p, protection_ s = Some p /\ same_protection p p')).
  { intros s s' -> Hp. split; [lia|]. intros E _. exists p'. split; [|done].
    destruct Hp; congruence. }
  destruct Hs as [s ac m ad head Hf|s ac m ad id|s ac ad head rev s' res Hlt E|
    s ac ad id work g s' g' Hf Hsz Hg Hc|s ac ad id work rev g s' g' Hf Hsz Hq Hc|
    s ac r ad pre post ->|s ac r ad|s ac m ad k|s ac m ad lane s' E|s ac m ad]; cbn [sy_scheduler] in *;
    try (apply Hsame; auto; fail).
  - unfold observe_fifo_head. case_bool_decide; apply Hsame; auto.
  - unfold on_waiting_removed. destruct (fifo_head_id_ s) as [h|]; [|by apply Hsame; auto].
    destruct (h =? id); apply Hsame; auto.
  - destruct (protect_protection s ac head rev s' res p' Hlt ltac:(lia) E) as [Hle Hp]. split; [done|].
    intros Hp' Hlt'. destruct (Hp Hp') as [?|?]; [done|lia].
  - unfold grant_head in Hg. apply bind_Ok in Hg as (u & _ & [= <-]).
    unfold commit_admission in Hc. apply bind_Ok in Hc as (u' & _ & [= <- _]). apply Hsame; auto.
  - destruct (system_ok_backfill _ _ _ _ _ _ _ _ _ H Hf Hsz Hq Hc) as [-> _]. apply Hsame; auto.
  - destruct E as [E|E].
    + unfold set_prefill_lane in E. destruct (prefill_lane_ s); [done|]. injection E as <-. apply Hsame; auto.
    + unfold clear_prefill_lane in E. destruct (prefill_lane_ s); [|done]. simp_res. apply Hsame; auto.
Qed.

Lemma steps_protection y y' p' :
  system_ok y -> system_steps y y' -> protection_ (sy_scheduler y') = Some p' ->
  ap_epoch_id p' < next_protection_epoch_ (sy_scheduler y) ->
  exists p, protection_ (sy_scheduler y) = Some p /\ same_protection p p'.
Proof.
  intros H Hs. induction Hs as [y|y y1 y2 Hstep _ IH]; intros Hp Hlt; [by exists p'|].
  destruct (step_protection y y1 p' H Hstep) as [Hle _].
  destruct (IH (system_step_ok _ _ H Hstep) Hp) as (p1 & Hp1 & He1 & Hh1 & Hd1); [lia|].
  destruct (step_protection y y1 p1 H Hstep) as [_ Hback].
  destruct (Hback Hp1) as (p & Hpp & He & Hh & Hd); [lia|].
  exists p. split; [done|]. repeat split; congruence.
Qed.

(** * What the scheduler promises *)

(** Protecting a blocked head never trips over its own bookkeeping: in
    every state the admission protocol reaches, with requests active and none
    materializing, [protect_blocked_head] on the observed head neither reports
    a request outside the protected ownership nor a relabelled donor, but
    returns whether a donor is still active, and the protection it leaves
    names that head and the given resource revision. *)
Theorem blocked_head_is_protectable y head rev :
  system_steps initial_system y ->
  fifo_head_id_ (sy_scheduler y) = Some head -> sy_materializing y = None ->
  sy_active y <> [] -> rev <> 0 -> next_protection_epoch_ (sy_scheduler y) < U64_MAX ->
  exists s' p, protect_blocked_head head (sy_active y) rev (sy_scheduler y) =
                 (s', Ok (protection_has_live_donor p (sy_active y))) /\
    protection_ s' = Some p /\ ap_head_request_id p = head /\ ap_resource_revision p = rev.
Proof.
  intros Hr Hh Hm Ha Hrev Hlt. pose proof (system_steps_ok _ _ initial_system_ok Hr) as H.
  destruct y as [s ac m ad]. cbn in *. subst m. pose proof (so_next _ H) as Hn. cbn in Hn.
  pose proof (so_members _ H) as Hmem. pose proof (so_nodup _ H) as Hnd. pose proof (so_size _ H) as Hsz.
  unfold sy_members in Hmem, Hnd, Hsz. cbn [sy_active sy_materializing option_list sy_admitted] in *.
  rewrite app_nil_r in *. destruct (so_head _ H head Hh) as [Hz Hni]. cbn in Hni.
  assert (Hhn : head ∉ map sn_request_id ac).
  { intros (q & -> & Hq)%list_elem_of_fmap. rewrite Forall_forall in Hmem. by destruct (Hmem q Hq) as (_ & ? & _). }
  assert (Hpos : 0 < vsize ac) by (destruct ac; [done|]; rewrite vsize_cons; pose proof (vsize_nonneg ac); lia).
  unfold protect_blocked_head. rewrite (M_bind_run _ mget s s s) by done.
  unfold head_is, mthrow_if. rewrite Hh, Z.eqb_refl. cbn [negb throw_if].
  rewrite (M_bind_run _ (mlift (Ok tt)) s s tt) by done.
  unfold mbind, M_bind, mput, mlift, mmodify, mget, mret, M_ret.
  destruct (protection_ s) as [p|] eqn:Ep.
  - destruct (so_protection _ H p Ep) as (Hph & He & Hpz & Hpr & _ & Hpm). cbn in Hph, He.
    unfold sy_members in Hpm. cbn [sy_active sy_materializing option_list] in Hpm. rewrite app_nil_r in Hpm.
    assert (ap_head_request_id p = head) as Hph' by congruence. rewrite Hph', Z.eqb_refl. cbn [negb throw_if].
    unfold rebind_admission_protection, throw_if.
    rewrite !(proj2 (Z.eqb_neq _ 0)) by (done || lia). cbn [orb mbind result_bind].
    unfold validate_active_partition, throw_if. rewrite (proj2 (Z.ltb_ge _ _)) by lia. cbn [mbind result_bind].
    rewrite validate_rows_Ok; [|eapply Forall_impl; [apply Forall_and; split; [exact Hmem|exact Hpm]|]|done|by intros ? ?%not_elem_of_nil].
    + cbn. do 2 eexists. split; [done|]. split; [done|]. done.
    + intros q [(? & Hin & _) Hb]. split; [done|]. split; [congruence|done].
  - rewrite make_admission_protection_succeeds; try done; try lia.
    + cbn. do 2 eexists. split; [done|]. split; [done|]. done.
    + eapply Forall_impl; [exact Hmem|]. by intros q [? _].
Qed.

(** Backfill cannot move the head's frontier: as long as one protection
    epoch lasts, however many requests are admitted, finish or are removed,
    its head and its donors stay what they were when it was opened; each
    active request is a donor or a persistent borrower of the epoch, and no
    borrower is ever promoted to a donor. *)
Theorem donors_are_frozen y y' p p' :
  system_steps initial_system y -> system_steps y y' ->
  protection_ (sy_scheduler y) = Some p -> protection_ (sy_scheduler y') = Some p' ->
  ap_epoch_id p' = ap_epoch_id p ->
  ap_head_request_id p' = ap_head_request_id p /\ ap_donor_ids p' = ap_donor_ids p /\
  fifo_head_id_ (sy_scheduler y') = Some (ap_head_request_id p) /\
  Forall (fun r => borrows p r = negb (is_donor p (sn_request_id r))) (sy_members y').
Proof.
  intros Hr Hs Hp Hp' He. pose proof (system_steps_ok _ _ initial_system_ok Hr) as H.
  pose proof (system_steps_ok _ _ H Hs) as H'.
  destruct (so_protection _ H p Hp) as (_ & Hlt & _).
  destruct (so_protection _ H' p' Hp') as (Hh' & _ & _ & _ & _ & Hm').
  destruct (steps_protection y y' p' H Hs Hp') as (q & Hq & _ & Hh & Hd); [lia|].
  assert (q = p) as -> by congruence. split; [done|]. split; [done|]. split; [congruence|].
  unfold borrows, is_donor in *. by rewrite He, Hd in Hm'.
Qed.

(** C20. Backfill grants go stale: a grant that [qualify_backfill] issued is
    accepted later only while the protection it was issued under is still
    open with the same head, the same donors and the same resource revision;
    any head change, rebind to another revision or new epoch in between makes
    [validate_grant] refuse it. *)
Theorem backfill_grant_stays_bound y y' id work rev g :
  system_steps initial_system y ->
  qualify_backfill (sy_scheduler y) id work (sy_active y) rev = Ok (Some g) ->
  system_steps y y' -> validate_grant (sy_scheduler y') g = true ->
  exists p p', protection_ (sy_scheduler y) = Some p /\ protection_ (sy_scheduler y') = Some p' /\
    p' = p /\ fifo_head_id_ (sy_scheduler y') = fifo_head_id_ (sy_scheduler y).
Proof.
  intros Hr Hq Hs Hv. pose proof (system_steps_ok _ _ initial_system_ok Hr) as H.
  unfold qualify_backfill in Hq. destruct (fifo_head_id_ (sy_scheduler y)) as [h|] eqn:Eh; [|done].
  destruct (protection_ (sy_scheduler y)) as [p|] eqn:Ep; [|done].
  apply bind_Ok in Hq as (u & G%throw_if_Ok & Hq). apply bind_Ok in Hq as (u' & _ & Hq). simp_bool.
  destruct (persistent_backfill_is_authorized p id (sy_active y) rev) eqn:Ea; [|done]. injection Hq as <-.
  unfold persistent_backfill_is_authorized in Ea. destruct (_ || _) eqn:Eg; [done|]. simp_bool.
  unfold validate_grant in Hv. cbn in Hv. destruct (_ || _); [done|].
  destruct (fifo_head_id_ (sy_scheduler y')) as [h'|] eqn:Eh'; [|done].
  destruct (protection_ (sy_scheduler y')) as [p'|] eqn:Ep'; [|done]. simp_bool.
  destruct (so_protection _ H p Ep) as (_ & Hlt & _).
  destruct (steps_protection y y' p' H Hs Ep') as (q & Hqp & He & Hh & Hd); [lia|].
  assert (q = p) as -> by congruence. exists p, p'. split; [done|]. split; [done|].
  split; [destruct p, p'; cbn in *; congruence|congruence].
Qed.

(** ** The next unit *)

(** The units of a run, from what is runnable at each boundary. *)
Fixpoint run_units (previous_unit_was_decode : bool) (inputs : list (bool * bool))
  : list ExecutionAction :=
  match inputs with
  | [] => []
  | (have_decode, prefill_runnable) :: rest =>
      let a := choose_execution have_decode prefill_runnable previous_unit_was_decode in
      a :: run_units (bool_decide (a = Decode)) rest
  end.

(** Neither prefill nor decode starves: of any two consecutive units at
    whose boundaries decode work (or a runnable prefill) was present, one is a
    decode (or a prefill), and the engine never waits while something is
    runnable. *)
Theorem units_do_not_starve prev inputs i d1 p1 d2 p2 :
  inputs !! i = Some (d1, p1) -> inputs !! S i = Some (d2, p2) ->
  exists a1 a2, run_units prev inputs !! i = Some a1 /\ run_units prev inputs !! S i = Some a2 /\
    (d1 = true -> d2 = true -> a1 = Decode \/ a2 = Decode) /\
    (p1 = true -> p2 = true -> a1 = Prefill \/ a2 = Prefill) /\
    ((d1 || p1)%bool = true -> a1 <> Wait).
Proof.
  revert prev i. induction inputs as [|[d p] inputs IH]; intros prev i Hi Hj; [done|].
  destruct i as [|i].
  - cbn in Hi. injection Hi as -> ->. destruct inputs as [|[d' p'] inputs]; [done|].
    cbn in Hj. injection Hj as -> ->. cbn [run_units lookup list_lookup]. do 2 eexists.
    split; [done|]. split; [done|]. unfold choose_execution.
    destruct d1, p1, d2, p2, prev; cbn; repeat split; intros; auto; try discriminate.
  - cbn in Hi, Hj. cbn [run_units lookup list_lookup]. by apply IH.
Qed.

(** A decode round has exactly the right members: if building it
    succeeds, its lanes are, in increasing order, the lanes whose request is
    decode-ready and has no capture pending, each with its request's sequence
    and the non-zero number of tokens its output session licenses from its
    remaining budget. *)
Theorem round_membership_exact {R SequenceHandle : Type} `{SchedulerRequest R SequenceHandle}
    (slots : list (option R)) rows :
  build_round_membership slots = Ok rows ->
  (forall l, l ∈ map rr_lane rows <->
     exists i r, slots !! i = Some (Some r) /\ l = Z.of_nat i /\
       rq_is_decode_ready r = true /\ rq_capture_pending r = false) /\
  map rr_lane rows = member_lanes decode_member 0 slots /\
  Forall (fun row => exists i r b s, slots !! i = Some (Some r) /\ rr_lane row = Z.of_nat i /\
     rq_budget r = Some b /\ rq_sequence r = Some s /\ rr_sequence row = s /\
     rr_generated_tokens_remaining row = rq_model_token_budget_remaining r (gb_remaining b) /\
     rr_generated_tokens_remaining row <> 0) rows.
Proof.
  intros E. apply round_rows_spec in E as [El Hf]. split; [|split; [done|]].
  - intros l. rewrite El, member_lanes_spec. split.
    + intros (i & [r|] & Hi & Hd & ->); [|done]. cbn in Hd. apply andb_true_iff in Hd as [? Hc%negb_true_iff].
      exists i, r. repeat split; auto.
    + intros (i & r & Hi & -> & Hd & Hc). exists i, (Some r). cbn. rewrite Hd, Hc. repeat split; auto.
  - eapply Forall_impl; [exact Hf|]. intros row (i & r & b & s & ? & ? & ?). exists i, r, b, s.
    split; [done|]. split; [lia|done].
Qed.

(** A control batch is rectangular: if building it succeeds, its lanes
    are exactly the control-ready lanes, one sequence each, and its token
    buffer holds [row_stride] tokens per lane. *)
Theorem control_membership_rectangular {R SequenceHandle : Type} `{SchedulerRequest R SequenceHandle}
    (slots : list (option R)) m :
  (forall r, Some r ∈ slots -> vsize (rq_pending_control_tokens r) <= U32_MAX) ->
  build_control_membership slots = Ok m ->
  cm_lanes m = member_lanes control_member 0 slots /\
  vsize (cm_lanes m) = vsize (cm_sequences m) /\
  vsize (cm_tokens m) = cm_row_stride m * vsize (cm_lanes m).
Proof.
  intros Hb E. apply control_rows_spec in E; cbn in *; try done.
Qed.

(** * A concrete run

    Request 11 was admitted and is active; request 12 is the blocked head. *)
Definition demo_active : list ActiveAdmissionSnapshot := [mkSnapshot 11 0 NoBackfill].

Definition demo_blocked : system :=
  mkSystem (mkScheduler None (Some 12) None 1) demo_active None [11].

Definition demo_protection : AdmissionProtection := mkProtection 1 12 5 [11].

Definition demo_protected : system :=
  mkSystem (mkScheduler None (Some 12) (Some demo_protection) 2) demo_active None [11].

Lemma demo_blocked_reachable : system_steps initial_system demo_blocked.
Proof.
  eapply steps_trans; [apply (sys_observe _ _ _ _ (Some 11)); split; [lia|apply not_elem_of_nil]|].
  eapply steps_trans; [eapply (sys_admit_head _ _ _ 11 3)|].
  - split; [lia|apply not_elem_of_nil].
  - unfold vsize, kMaximumConcurrency. cbn. lia.
  - reflexivity.
  - reflexivity.
  - eapply steps_trans; [apply (sys_adopt _ _ _ _ [] []); reflexivity|].
    eapply steps_trans; [apply (sys_observe _ _ _ _ (Some 12)); split; [lia|cbn; set_solver]|].
    apply steps_refl.
Qed.

Lemma demo_protected_step : system_step demo_blocked demo_protected.
Proof.
  apply (sys_protect _ _ _ 12 5 _ (Ok true)); [cbn; unfold U64_MAX; lia|reflexivity].
Qed.

Lemma demo_protected_reachable : system_steps initial_system demo_protected.
Proof.
  assert (G : forall y y' z, system_steps y y' -> system_step y' z -> system_steps y z).
  { intros y y' z. induction 1; intros Hz; [eapply steps_trans; [exact Hz|apply steps_refl]|].
    eapply steps_trans; [done|auto]. }
  eapply G; [apply demo_blocked_reachable|apply demo_protected_step].
Qed.

Lemma blocked_head_is_protectable_witness :
  exists s' b, protect_blocked_head 12 demo_active 5 (sy_scheduler demo_blocked) = (s', Ok b).
Proof.
  destruct (blocked_head_is_protectable demo_blocked 12 5) as (s' & p & E & _).
  - apply demo_blocked_reachable.
  - reflexivity.
  - reflexivity.
  - discriminate.
  - discriminate.
  - cbn. unfold U64_MAX. lia.
  - exists s'. eexists. exact E.
Defined.

Lemma donors_are_frozen_witness :
  Forall (fun r => borrows demo_protection r = negb (is_donor demo_protection (sn_request_id r)))
    (sy_members demo_protected).
Proof.
  apply (donors_are_frozen demo_protected demo_protected demo_protection demo_protection);
    [apply demo_protected_reachable|apply steps_refl|reflexivity|reflexivity|reflexivity].
Defined.

Lemma backfill_grant_stays_bound_witness :
  exists p p', protection_ (sy_scheduler demo_protected) = Some p /\
    protection_ (sy_scheduler demo_protected) = Some p' /\ p' = p.
Proof.
  destruct (backfill_grant_stays_bound demo_protected demo_protected 13 4 5 (mkGrant 13 Persistent 1 5 4))
    as (p & p' & H1 & H2 & H3 & _);
    [apply demo_protected_reachable|reflexivity|apply steps_refl|reflexivity|].
  exists p, p'. split; [exact H1|split; [exact H2|exact H3]].
Defined.

Lemma units_do_not_starve_witness :
  exists a1 a2, run_units true [(true, true); (true, true)] !! 0%nat = Some a1 /\
    run_units true [(true, true); (true, true)] !! 1%nat = Some a2 /\ (a1 = Decode \/ a2 = Decode).
Proof.
  destruct (units_do_not_starve true [(true, true); (true, true)] 0 true true true true)
    as (a1 & a2 & H1 & H2 & H3 & _); [reflexivity|reflexivity|].
  exists a1, a2. split; [exact H1|split; [exact H2|apply H3; reflexivity]].
Defined.

Definition demo_request (state : EngineRequestState) : RequestRecord :=
  mkRequestRecord 11 state false (Some (mkBudget 9 OutputLimit)) (Some 77) 3 0 NoBackfill
    (fun n => n) [1; 2].

Lemma round_membership_exact_witness :
  map rr_lane [mkRoundRow 1 77 9] = [1].
Proof.
  destruct (round_membership_exact [None; Some (demo_request DecodeReady)] [mkRoundRow 1 77 9])
    as (_ & E & _); [reflexivity|]. rewrite E. reflexivity.
Defined.

Lemma control_membership_rectangular_witness :
  vsize [1; 2] = 2 * vsize [1].
Proof.
  apply (control_membership_rectangular [None; Some (demo_request ControlReady)]
           (mkControl [1] [77] [1; 2] 2)); [|reflexivity].
  intros r Hr. apply elem_of_cons in Hr as [Hr|Hr]; [discriminate Hr|].
  apply list_elem_of_singleton in Hr. injection Hr as ->. vm_compute. discriminate.
Defined.
