(* ===== verification/KvCapacity.v ===== *)
(** The resolution of the KV capacity at startup
    (src/src/runtime/engine/kv_capacity.cpp, with the types of
    src/src/runtime/contract/types.h and src/include/ninfer/types.h): from a
    policy, the target's capacity curve and the free device memory to the
    number of main page groups, their tokens and the reservation. *)

From S2P Require Import Prelude.

Inductive KvCapacityMode : Type := Explicit | Automatic.

Record KvCapacityPolicy : Type := mkPolicy {
  po_mode : KvCapacityMode;
  po_explicit_tokens : Z;
  po_automatic_headroom_bytes : Z;
  po_slack_floor_bytes : Z;
}.

Definition policy_explicit_capacity (tokens slack_floor_bytes : Z) : KvCapacityPolicy :=
  mkPolicy Explicit tokens 0 slack_floor_bytes.

Definition policy_automatic (headroom_bytes slack_floor_bytes : Z) : KvCapacityPolicy :=
  mkPolicy Automatic 0 headroom_bytes
    (if slack_floor_bytes =? 0 then headroom_bytes else slack_floor_bytes).

Record SequenceCapacityCurve : Type := mkCurve {
  cu_main_page_tokens : Z;
  cu_minimum_main_page_groups : Z;
  cu_maximum_main_page_groups : Z;
  cu_minimum_device_reservation_bytes : Z;
  cu_bytes_per_additional_main_page_group : Z;
}.

(** The fields the resolution computes; the rest of the C++ record are
    constants the caller overwrites. *)
Record KvCapacityResolution : Type := mkResolution {
  re_mode : KvCapacityMode;
  re_main_page_groups : Z;
  re_maximum_main_page_groups : Z;
  re_resolved_tokens : Z;
  re_minimum_runtime_reservation_bytes : Z;
  re_bytes_per_additional_main_page_group : Z;
  re_runtime_reservation_bytes : Z;
  re_available_after_weights_bytes : Z;
  re_automatic_headroom_bytes : Z;
  re_slack_floor_bytes : Z;
  re_planned_slack_bytes : Z;
}.

Definition validate_curve (c : SequenceCapacityCurve) : result unit :=
  _ ← throw_if ((cu_main_page_tokens c =? 0) || (cu_minimum_main_page_groups c =? 0) ||
                (cu_maximum_main_page_groups c <? cu_minimum_main_page_groups c) ||
                (cu_minimum_device_reservation_bytes c =? 0)) InvalidArgument;
  throw_if ((cu_minimum_main_page_groups c <? cu_maximum_main_page_groups c) &&
            (cu_bytes_per_additional_main_page_group c =? 0)) InvalidArgument.

Definition explicit_page_groups (po : KvCapacityPolicy) (c : SequenceCapacityCurve) : result Z :=
  _ ← throw_if (po_explicit_tokens po =? 0) InvalidArgument;
  let pages := 1 + (po_explicit_tokens po - 1) / cu_main_page_tokens c in
  _ ← throw_if (U32_MAX <? pages) OverflowError;
  Ok pages.

Definition outside_curve (c : SequenceCapacityCurve) (pages : Z) : bool :=
  (pages <? cu_minimum_main_page_groups c) || (cu_maximum_main_page_groups c <? pages).

Definition reservation_bytes (c : SequenceCapacityCurve) (pages : Z) : result Z :=
  _ ← validate_curve c;
  _ ← throw_if (outside_curve c pages) InvalidArgument;
  increment ← checked_mul_size (pages - cu_minimum_main_page_groups c)
                (cu_bytes_per_additional_main_page_group c);
  checked_add_size (cu_minimum_device_reservation_bytes c) increment.

Definition resolved_tokens (c : SequenceCapacityCurve) (pages : Z) : result Z :=
  _ ← validate_curve c;
  _ ← throw_if (outside_curve c pages) InvalidArgument;
  let tokens := wrap64 (pages * cu_main_page_tokens c) in
  _ ← throw_if (U32_MAX <? tokens) OverflowError;
  Ok tokens.

(** The [switch] on the mode: the page groups and the capacity budget. *)
Definition resolve_pages (po : KvCapacityPolicy) (c : SequenceCapacityCurve) (available : Z)
  : result (Z * Z) :=
  match po_mode po with
  | Explicit =>
      _ ← throw_if (negb (po_automatic_headroom_bytes po =? 0)) InvalidArgument;
      pages ← explicit_page_groups po c;
      if 0 <? po_slack_floor_bytes po then
        _ ← throw_if (available <? po_slack_floor_bytes po) InvalidArgument;
        Ok (pages, available - po_slack_floor_bytes po)
      else Ok (pages, available)
  | Automatic =>
      let required_slack := Z.max (po_automatic_headroom_bytes po) (po_slack_floor_bytes po) in
      _ ← throw_if (available <? required_slack) InvalidArgument;
      let budget := available - required_slack in
      _ ← throw_if (budget <? cu_minimum_device_reservation_bytes c) InvalidArgument;
      if cu_minimum_main_page_groups c <? cu_maximum_main_page_groups c then
        let additional := (budget - cu_minimum_device_reservation_bytes c) /
                          cu_bytes_per_additional_main_page_group c in
        let candidate := wrap64 (cu_minimum_main_page_groups c + additional) in
        Ok (wrap32 (Z.min candidate (cu_maximum_main_page_groups c)), budget)
      else Ok (cu_minimum_main_page_groups c, budget)
  end.

Definition resolve_kv_capacity (po : KvCapacityPolicy) (c : SequenceCapacityCurve) (available : Z)
  : result KvCapacityResolution :=
  _ ← validate_curve c;
  '(pages, budget) ← resolve_pages po c available;
  reservation ← reservation_bytes c pages;
  _ ← throw_if (budget <? reservation) InvalidArgument;
  tokens ← resolved_tokens c pages;
  Ok (mkResolution (po_mode po) pages (cu_maximum_main_page_groups c) tokens
        (cu_minimum_device_reservation_bytes c) (cu_bytes_per_additional_main_page_group c)
        reservation available (po_automatic_headroom_bytes po) (po_slack_floor_bytes po)
        (available - reservation)).

(** * The machine ranges of the arguments *)
Definition curve_ranges (c : SequenceCapacityCurve) : Prop :=
  is_u32 (cu_main_page_tokens c) /\ is_u32 (cu_minimum_main_page_groups c) /\
  is_u32 (cu_maximum_main_page_groups c) /\ is_u64 (cu_minimum_device_reservation_bytes c) /\
  is_u64 (cu_bytes_per_additional_main_page_group c).

Definition policy_ranges (po : KvCapacityPolicy) : Prop :=
  is_u32 (po_explicit_tokens po) /\ is_u64 (po_automatic_headroom_bytes po) /\
  is_u64 (po_slack_floor_bytes po).

(** The memory a reservation of [pages] page groups takes, without overflow. *)
Definition curve_bytes (c : SequenceCapacityCurve) (pages : Z) : Z :=
  cu_minimum_device_reservation_bytes c +
  (pages - cu_minimum_main_page_groups c) * cu_bytes_per_additional_main_page_group c.

Lemma validate_curve_Ok c u :
  curve_ranges c -> validate_curve c = Ok u ->
  0 < cu_main_page_tokens c /\
  0 < cu_minimum_main_page_groups c <= cu_maximum_main_page_groups c /\
  0 < cu_minimum_device_reservation_bytes c /\
  (cu_minimum_main_page_groups c < cu_maximum_main_page_groups c ->
   0 < cu_bytes_per_additional_main_page_group c).
Proof.
  intros Hr H. destruct Hr as ([] & [] & [] & [] & []). unfold validate_curve in H. apply bind_Ok in H as (u' & G%throw_if_Ok & H).
  apply throw_if_Ok in H. simp_bool. lia.
Qed.

Lemma reservation_bytes_Ok c pages b :
  curve_ranges c -> reservation_bytes c pages = Ok b ->
  b = curve_bytes c pages /\ b <= SIZE_MAX /\
  cu_minimum_main_page_groups c <= pages <= cu_maximum_main_page_groups c.
Proof.
  intros Hr H. unfold reservation_bytes in H. apply bind_Ok in H as (u & _ & H).
  apply bind_Ok in H as (u' & G%throw_if_Ok & H). unfold outside_curve in G. simp_bool.
  destruct Hr as ([] & [] & [] & [] & []).
  apply bind_Ok in H as (i & Hi & H). apply checked_mul_size_Ok in Hi as [-> _]; [|lia..].
  apply checked_add_size_Ok in H as [-> ?]. unfold curve_bytes. lia.
Qed.

Lemma reservation_bytes_succeeds c pages u :
  curve_ranges c -> validate_curve c = Ok u ->
  cu_minimum_main_page_groups c <= pages <= cu_maximum_main_page_groups c ->
  curve_bytes c pages <= SIZE_MAX -> reservation_bytes c pages = Ok (curve_bytes c pages).
Proof.
  intros Hr Hv Hp Hb. pose proof (validate_curve_Ok c u Hr Hv) as (_ & _ & ? & _).
  unfold reservation_bytes. rewrite Hv. cbn [mbind result_bind]. unfold outside_curve.
  rewrite !(proj2 (Z.ltb_ge _ _)) by lia. cbn [orb throw_if mbind result_bind].
  destruct Hr as ([] & [] & [] & [] & []). unfold curve_bytes in *.
  rewrite (proj2 (checked_mul_size_Ok (pages - cu_minimum_main_page_groups c)
    (cu_bytes_per_additional_main_page_group c) _ ltac:(lia) ltac:(lia))) by (split; [done|lia]).
  cbn [mbind result_bind]. by apply checked_add_size_Ok.
Qed.

Lemma resolved_tokens_Ok c pages t :
  curve_ranges c -> resolved_tokens c pages = Ok t -> t = pages * cu_main_page_tokens c /\ t <= U32_MAX.
Proof.
  intros Hr H. destruct Hr as ([] & [] & [] & _). unfold resolved_tokens in H. apply bind_Ok in H as (u & _ & H).
  apply bind_Ok in H as (u' & G%throw_if_Ok & H). unfold outside_curve in G.
  apply bind_Ok in H as (u'' & G'%throw_if_Ok & [= <-]). simp_bool.
  unfold U32_MAX in *. rewrite wrap64_small in G' |- * by (unfold U64_MAX; nia). done.
Qed.

(** [pages] is the largest number of page groups of the curve whose
    reservation fits in [budget]. *)
Definition largest_fitting (c : SequenceCapacityCurve) (budget pages : Z) : Prop :=
  cu_minimum_main_page_groups c <= pages <= cu_maximum_main_page_groups c /\
  curve_bytes c pages <= budget /\
  (pages = cu_maximum_main_page_groups c \/ budget < curve_bytes c (pages + 1)).

(** The 64-bit sum of the minimum and the additional page groups wraps: it
    takes an increment of one byte and a memory of almost [2^64] bytes. *)
Definition candidate_wraps (c : SequenceCapacityCurve) (budget : Z) : bool :=
  (cu_minimum_main_page_groups c <? cu_maximum_main_page_groups c) &&
  (cu_bytes_per_additional_main_page_group c =? 1) &&
  (U64_MAX <? cu_minimum_main_page_groups c + (budget - cu_minimum_device_reservation_bytes c)).

(** The page groups the automatic mode computes from [budget]. *)
Definition automatic_page_groups (c : SequenceCapacityCurve) (budget : Z) : Z :=
  if cu_minimum_main_page_groups c <? cu_maximum_main_page_groups c then
    wrap32 (Z.min (wrap64 (cu_minimum_main_page_groups c +
      (budget - cu_minimum_device_reservation_bytes c) / cu_bytes_per_additional_main_page_group c))
      (cu_maximum_main_page_groups c))
  else cu_minimum_main_page_groups c.

Lemma candidate_sum_fits c u budget :
  curve_ranges c -> validate_curve c = Ok u -> is_u64 budget ->
  cu_minimum_device_reservation_bytes c <= budget ->
  cu_minimum_main_page_groups c < cu_maximum_main_page_groups c ->
  candidate_wraps c budget = false ->
  0 <= cu_minimum_main_page_groups c + (budget - cu_minimum_device_reservation_bytes c) /
    cu_bytes_per_additional_main_page_group c <= U64_MAX.
Proof.
  intros Hr Hv [] Hfit Hlt Hw. pose proof (validate_curve_Ok c u Hr Hv) as (_ & Hmm & Hb & Hstride).
  specialize (Hstride Hlt). destruct Hr as (_ & [] & [] & [] & []). unfold candidate_wraps in Hw.
  rewrite (proj2 (Z.ltb_lt _ _) Hlt) in Hw. cbn [andb] in Hw.
  set (stride := cu_bytes_per_additional_main_page_group c) in *.
  set (room := budget - cu_minimum_device_reservation_bytes c) in *.
  assert (0 <= room / stride) by (apply Z.div_pos; lia). split; [lia|].
  destruct (Z.eqb_spec stride 1) as [->|Hne]; cbn [andb] in Hw.
  - rewrite Z.div_1_r in *. by apply Z.ltb_ge in Hw.
  - assert (room / stride <= room / 2) by (apply Z.div_le_compat_l; lia).
    pose proof (Z.mul_div_le room 2 ltac:(lia)). unfold U64_MAX, U32_MAX in *. lia.
Qed.

Lemma automatic_pages_largest c u budget :
  curve_ranges c -> validate_curve c = Ok u -> is_u64 budget ->
  cu_minimum_device_reservation_bytes c <= budget -> candidate_wraps c budget = false ->
  largest_fitting c budget (automatic_page_groups c budget).
Proof.
  intros Hr Hv Hbu Hfit Hw. pose proof (validate_curve_Ok c u Hr Hv) as (_ & Hmm & Hb & Hstride).
  pose proof (candidate_sum_fits c u budget Hr Hv Hbu Hfit) as Hsum.
  destruct Hr as (_ & [] & [] & [] & []). unfold largest_fitting, automatic_page_groups, curve_bytes.
  destruct (Z.ltb_spec (cu_minimum_main_page_groups c) (cu_maximum_main_page_groups c)) as [Hlt|Hge].
  2:{ split; [lia|]. split; [lia|]. left. lia. }
  specialize (Hstride Hlt). specialize (Hsum Hlt Hw). set (stride := cu_bytes_per_additional_main_page_group c) in *.
  set (room := budget - cu_minimum_device_reservation_bytes c) in *.
  assert (0 <= room / stride) by (apply Z.div_pos; lia).
  pose proof (Z.mul_div_le room stride Hstride). pose proof (Z.mul_succ_div_gt room stride Hstride).
  rewrite wrap64_small by lia. rewrite wrap32_small by (unfold U32_MAX in *; lia).
  destruct (Z.min_spec (cu_minimum_main_page_groups c + room / stride) (cu_maximum_main_page_groups c))
    as [[? ->]|[? ->]].
  - split; [lia|]. split; [|right]; nia.
  - split; [lia|]. split; [nia|by left].
Qed.

(** When the sum wraps, the page groups fall below the curve's minimum. *)
Lemma wrapped_candidate_outside c u budget :
  curve_ranges c -> validate_curve c = Ok u -> is_u64 budget ->
  cu_minimum_device_reservation_bytes c <= budget -> candidate_wraps c budget = true ->
  outside_curve c (automatic_page_groups c budget) = true.
Proof.
  intros Hr Hv [] Hfit Hw. pose proof (validate_curve_Ok c u Hr Hv) as (_ & Hmm & Hb & _).
  destruct Hr as (_ & [] & [] & [] & []). unfold candidate_wraps in Hw.
  apply andb_prop in Hw as [[Hlt Hone%Z.eqb_eq]%andb_prop Hsum%Z.ltb_lt].
  unfold outside_curve, automatic_page_groups. rewrite Hlt, Hone, Z.div_1_r. apply Z.ltb_lt in Hlt.
  set (sum := cu_minimum_main_page_groups c + (budget - cu_minimum_device_reservation_bytes c)) in *.
  assert (Hmod : wrap64 sum = sum - 2 ^ 64).
  { unfold wrap64. symmetry. apply (Z.mod_unique_pos _ _ 1); unfold U64_MAX, U32_MAX in *; lia. }
  rewrite Hmod, Z.min_l by (unfold U64_MAX in *; lia).
  rewrite wrap32_small by (unfold U64_MAX, U32_MAX in *; lia).
  rewrite (proj2 (Z.ltb_lt _ (cu_minimum_main_page_groups c))) by (unfold U64_MAX in *; lia). done.
Qed.

Lemma resolved_tokens_on_curve c u pages :
  curve_ranges c -> validate_curve c = Ok u ->
  cu_minimum_main_page_groups c <= pages <= cu_maximum_main_page_groups c ->
  resolved_tokens c pages =
    if U32_MAX <? pages * cu_main_page_tokens c then Err OverflowError
    else Ok (pages * cu_main_page_tokens c).
Proof.
  intros Hr Hv Hp. pose proof (validate_curve_Ok c u Hr Hv) as (Hpt & Hmm & _).
  destruct Hr as ([] & [] & [] & _). unfold resolved_tokens, outside_curve. rewrite Hv. cbn [mbind result_bind].
  rewrite (proj2 (Z.ltb_ge pages _)), (proj2 (Z.ltb_ge _ pages)) by lia. cbn [orb throw_if mbind result_bind].
  rewrite wrap64_small by (unfold U64_MAX, U32_MAX in *; nia). unfold throw_if. by destruct (_ <? _).
Qed.

(** The automatic branch of the switch, once the minimum fits. *)
Lemma resolve_pages_automatic po c available :
  po_mode po = Automatic ->
  let slack := Z.max (po_automatic_headroom_bytes po) (po_slack_floor_bytes po) in
  resolve_pages po c available =
    if slack + cu_minimum_device_reservation_bytes c <=? available
    then if available <? slack then Err InvalidArgument
         else Ok (automatic_page_groups c (available - slack), available - slack)
    else Err InvalidArgument.
Proof.
  intros Hmode slack. unfold resolve_pages. rewrite Hmode. fold slack. unfold throw_if, automatic_page_groups.
  destruct (Z.ltb_spec available slack), (Z.ltb_spec (available - slack) (cu_minimum_device_reservation_bytes c)),
    (Z.leb_spec (slack + cu_minimum_device_reservation_bytes c) available); try lia; try done;
    cbn [mbind result_bind]; by destruct (_ <? _).
Qed.

(** C24. Automatic capacity is the largest that fits, for every policy,
    valid curve and amount of memory. Resolution answers invalid_argument
    when the minimum reservation does not fit besides the required slack, and
    also when the 64-bit page sum wraps (an increment of one byte with almost
    [2^64] bytes free: the request is then refused although it fits).
    Otherwise there is a largest number of page groups of the curve whose
    reservation leaves the required slack; if its tokens exceed 32 bits the
    answer is overflow_error, and else the resolution has those page groups,
    their tokens, the curve's reservation and the memory left over. *)
Theorem automatic_capacity_is_maximal po c available :
  policy_ranges po -> curve_ranges c -> validate_curve c = Ok tt -> po_mode po = Automatic ->
  is_u64 available ->
  let slack := Z.max (po_automatic_headroom_bytes po) (po_slack_floor_bytes po) in
  let answer := resolve_kv_capacity po c available in
  if available <? slack + cu_minimum_device_reservation_bytes c then answer = Err InvalidArgument
  else if candidate_wraps c (available - slack) then answer = Err InvalidArgument
  else exists pages, largest_fitting c (available - slack) pages /\
    answer =
      if U32_MAX <? pages * cu_main_page_tokens c then Err OverflowError
      else Ok (mkResolution Automatic pages (cu_maximum_main_page_groups c)
                 (pages * cu_main_page_tokens c) (cu_minimum_device_reservation_bytes c)
                 (cu_bytes_per_additional_main_page_group c) (curve_bytes c pages) available
                 (po_automatic_headroom_bytes po) (po_slack_floor_bytes po)
                 (available - curve_bytes c pages)).
Proof.
  intros Hpr Hcr Hv Hmode Hav slack answer.
  assert (Hs : 0 <= slack) by (destruct Hpr as (_ & [] & _); unfold slack; lia).
  unfold answer, resolve_kv_capacity. rewrite Hv, (resolve_pages_automatic po c available Hmode).
  fold slack. cbn [mbind result_bind]. pose proof (validate_curve_Ok c tt Hcr Hv) as (_ & _ & Hmb & _).
  destruct (Z.ltb_spec available (slack + cu_minimum_device_reservation_bytes c)) as [Hno|Hfit].
  { by rewrite (proj2 (Z.leb_gt _ available)) by lia. }
  rewrite (proj2 (Z.leb_le _ available)), (proj2 (Z.ltb_ge available slack)) by lia. cbn [mbind result_bind].
  assert (Hbu : is_u64 (available - slack)) by (destruct Hav; split; lia).
  destruct (candidate_wraps c (available - slack)) eqn:Hw.
  { unfold reservation_bytes. rewrite Hv. cbn [mbind result_bind].
    by rewrite (wrapped_candidate_outside c tt _ Hcr Hv Hbu) by (done || lia). }
  pose proof (automatic_pages_largest c tt _ Hcr Hv Hbu ltac:(lia) Hw) as Hl.
  set (pages := automatic_page_groups _ _) in *. clearbody pages. exists pages. split; [done|].
  destruct Hl as (Hp & Hb & _), Hbu, Hav.
  rewrite (reservation_bytes_succeeds c pages tt) by (done || (unfold SIZE_MAX; lia)). cbn [mbind result_bind].
  rewrite (proj2 (Z.ltb_ge _ (curve_bytes c pages))) by lia. cbn [throw_if mbind result_bind].
  rewrite (resolved_tokens_on_curve c tt pages Hcr Hv Hp), Hmode. by destruct (_ <? _).
Qed.

(** Explicit capacity covers the request: if resolution succeeds, the page
    groups are the fewest whose tokens reach the requested number, they lie on
    the curve, and the reservation leaves the slack floor free. *)
Theorem explicit_capacity_covers_request po c available r :
  policy_ranges po -> curve_ranges c -> 0 <= available -> po_mode po = Explicit ->
  resolve_kv_capacity po c available = Ok r ->
  let pages := re_main_page_groups r in
  cu_minimum_main_page_groups c <= pages <= cu_maximum_main_page_groups c /\
  re_resolved_tokens r = pages * cu_main_page_tokens c /\
  po_explicit_tokens po <= re_resolved_tokens r < po_explicit_tokens po + cu_main_page_tokens c /\
  re_runtime_reservation_bytes r = curve_bytes c pages /\
  re_runtime_reservation_bytes r + po_slack_floor_bytes po <= available.
Proof.
  intros Hpr Hcr Hav Hmode H. unfold resolve_kv_capacity in H.
  apply bind_Ok in H as (u & Hv & H). apply bind_Ok in H as ([pages budget] & Hp & H).
  apply bind_Ok in H as (b & Hb & H). apply bind_Ok in H as (u' & G%throw_if_Ok & H).
  apply bind_Ok in H as (t & Ht & [= <-]). simp_bool. cbn.
  pose proof (validate_curve_Ok c u Hcr Hv) as (Hpt & _).
  apply reservation_bytes_Ok in Hb as (-> & _ & Hpages); [|done].
  apply resolved_tokens_Ok in Ht as [-> _]; [|done].
  unfold resolve_pages in Hp. rewrite Hmode in Hp. apply bind_Ok in Hp as (v & _ & Hp).
  apply bind_Ok in Hp as (pg & He & Hp). unfold explicit_page_groups in He.
  apply bind_Ok in He as (v' & G1%throw_if_Ok & He). apply bind_Ok in He as (v'' & _ & [= <-]).
  assert (Hpb : pages = 1 + (po_explicit_tokens po - 1) / cu_main_page_tokens c /\
                budget + po_slack_floor_bytes po <= available).
  { destruct Hpr as (_ & _ & [? _]). destruct (Z.ltb_spec 0 (po_slack_floor_bytes po)).
    - apply bind_Ok in Hp as (w & _ & [= <- <-]). lia.
    - injection Hp as <- <-. lia. }
  destruct Hpb as [-> Hbud]. simp_bool. destruct Hpr as ([] & _ & _).
  pose proof (Z.mul_div_le (po_explicit_tokens po - 1) (cu_main_page_tokens c) Hpt).
  pose proof (Z.mul_succ_div_gt (po_explicit_tokens po - 1) (cu_main_page_tokens c) Hpt).
  split; [done|]. split; [done|]. split; [lia|]. split; [done|lia].
Qed.

(** Sixteen-token pages, two to ten page groups of 100 bytes over 1000. *)
Definition demo_curve : SequenceCapacityCurve := mkCurve 16 2 10 1000 100.

Lemma automatic_capacity_is_maximal_witness :
  exists pages, largest_fitting demo_curve 1450 pages /\
    resolve_kv_capacity (policy_automatic 300 0) demo_curve 1750 =
      Ok (mkResolution Automatic pages 10 (pages * 16) 1000 100 (curve_bytes demo_curve pages) 1750
            300 300 (1750 - curve_bytes demo_curve pages)).
Proof.
  destruct (automatic_capacity_is_maximal (policy_automatic 300 0) demo_curve 1750)
    as (pages & Hl & E).
  - repeat split; vm_compute; discriminate.
  - repeat split; vm_compute; discriminate.
  - reflexivity.
  - reflexivity.
  - split; vm_compute; discriminate.
  - exists pages. split; [exact Hl|]. rewrite (proj2 (Z.ltb_ge U32_MAX _)) in E; [exact E|].
    destruct Hl as ([_ Hp] & _). cbn in Hp |- *. unfold U32_MAX. lia.
Defined.

(** The refused case is real: one byte per page group and [2^64 - 1] bytes. *)
Example wrapped_capacity_is_refused :
  let c := mkCurve 16 2 10 1 1 in
  candidate_wraps c U64_MAX = true /\ largest_fitting c U64_MAX 10 /\
  resolve_kv_capacity (policy_automatic 0 0) c U64_MAX = Err InvalidArgument.
Proof.
  cbv zeta. split; [reflexivity|]. split; [|vm_compute; reflexivity].
  split; [cbn; lia|]. split; [vm_compute; discriminate|by left].
Qed.

Lemma explicit_capacity_covers_request_witness :
  curve_bytes demo_curve 4 + 50 <= 1750.
Proof.
  apply (explicit_capacity_covers_request (policy_explicit_capacity 50 50) demo_curve 1750
           (mkResolution Explicit 4 10 64 1000 100 1200 1750 0 50 550)).
  - repeat split; vm_compute; discriminate.
  - repeat split; vm_compute; discriminate.
  - lia.
  - reflexivity.
  - vm_compute. reflexivity.
Defined.
