(* ===== verification/Ple.v ===== *)
(** Per-layer-embedding rows of the Flash-Next target
    (src/src/targets/qwen3_8_flash_next/impl/ple_index.{h,cpp} and
    ple_table.{h,cpp}): the token history, the bigram and trigram hashes that
    select sixteen rows of the embedding table, the sharded table, the gather
    of the compressed rows and the number formats of their scales. The
    dequantised product of a code and a scale is floating-point arithmetic and
    is not modelled; the conversions around it are bit manipulation and are. *)

From S2P Require Import Prelude.

(** * Token history *)
Definition kPleBoundaryTokenId : Z := 248044.

Record PleTokenHistory : Type := mkHistory { previous_ : Z; second_previous_ : Z }.

Definition empty_history : PleTokenHistory := mkHistory kPleBoundaryTokenId kPleBoundaryTokenId.

Definition history_commit (h : PleTokenHistory) (token : Z) : PleTokenHistory :=
  if token =? kPleBoundaryTokenId then mkHistory kPleBoundaryTokenId kPleBoundaryTokenId
  else mkHistory token (previous_ h).

(** * Row selection *)
Record PleIndexMetadata : Type := mkMetadata {
  multipliers : list Z;
  head_offsets : list Z;
  head_vocab_sizes : list Z;
}.

Definition kPleLayerMultipliers : list Z := [23703573157769; 20109073645365; 8052911324071].

Definition kPleHeadOffsets : list Z :=
  [0; 20000003; 40000026; 60000059; 80000106; 100000165; 120000228; 140000297;
   160000374; 180000455; 200000548; 220000655; 240000802; 260000955; 280001114; 300001275].

Definition kPleHeadVocabSizes : list Z :=
  [20000003; 20000023; 20000033; 20000047; 20000059; 20000063; 20000069; 20000077;
   20000081; 20000093; 20000107; 20000147; 20000153; 20000159; 20000161; 20000171].

Definition kPleIndexMetadata : PleIndexMetadata :=
  mkMetadata kPleLayerMultipliers kPleHeadOffsets kPleHeadVocabSizes.

Definition wrapped_product (lhs rhs : Z) : Z := wrap64 (wrap64 lhs * wrap64 rhs).

(** [std::bit_cast<std::int64_t>] of an unsigned value. *)
Definition to_i64 (z : Z) : Z :=
  let w := wrap64 z in if w <=? I64_MAX then w else w - 18446744073709551616.

(** C++'s [%] truncates towards zero. *)
Definition positive_remainder (bits divisor : Z) : result Z :=
  _ ← throw_if (divisor <=? 0) InvalidArgument;
  let r := Z.rem (to_i64 bits) divisor in
  Ok (if r <? 0 then r + divisor else r).

Definition ple_head (metadata : PleIndexMetadata) (bigram trigram head : Z) : result Z :=
  let hash := if head <? 8 then bigram else trigram in
  offset ← vat (head_offsets metadata) head;
  _ ← throw_if (offset <? 0) InvalidArgument;
  size ← vat (head_vocab_sizes metadata) head;
  r ← positive_remainder hash size;
  _ ← throw_if (I64_MAX <? offset + r) Undefined;
  Ok (offset + r).

Definition ple_indices (metadata : PleIndexMetadata) (history : PleTokenHistory) (token : Z)
    : result (list Z) :=
  m0 ← vat (multipliers metadata) 0;
  m1 ← vat (multipliers metadata) 1;
  m2 ← vat (multipliers metadata) 2;
  let bigram := Z.lxor (wrapped_product token m0) (wrapped_product (previous_ history) m1) in
  let trigram := Z.lxor bigram (wrapped_product (second_previous_ history) m2) in
  rmap (ple_head metadata bigram trigram) (seqZ 0 16).

(** * The sharded table *)
Definition kPleRowsPerShard : Z := 2500012.
Definition kPleShardCount : Z := 128.
Definition kPleTableRows : Z := kPleRowsPerShard * kPleShardCount.
Definition kPleRowWidth : Z := 160.

Record PleRowAddress : Type := mkAddress { ad_shard : Z; ad_row : Z }.

Definition locate_ple_row (global_row : Z) : result PleRowAddress :=
  _ ← throw_if (kPleTableRows <=? global_row) OutOfRange;
  Ok (mkAddress (wrap32 (global_row / kPleRowsPerShard)) (wrap32 (global_row mod kPleRowsPerShard))).

Record PleShardView : Type := mkShard {
  sh_codes : list Z;
  sh_scales : list Z;
  sh_rows : Z;
  sh_width : Z;
  sh_groups_per_row : Z;
}.

Definition ple_align_up (value alignment : Z) : Z :=
  wrap64 (wrap64 (wrap64 (value + alignment) - 1) / alignment * alignment).

Definition make_ple_shard_view (encoded : list Z) (rows width : Z) : result PleShardView :=
  _ ← throw_if ((rows =? 0) || (width =? 0) || negb (width mod 16 =? 0) || (U64_MAX / width <? rows))
        InvalidArgument;
  let elements := wrap64 (rows * width) in
  let code_bytes := elements / 2 in
  let scale_offset := ple_align_up code_bytes 256 in
  let scale_bytes := wrap64 (wrap64 (rows * (width / 16)) * 2) in
  _ ← throw_if ((vsize encoded <? scale_offset) ||
                (wrap64 (vsize encoded - scale_offset) <? scale_bytes) ||
                negb (wrap64 (scale_offset + scale_bytes) =? vsize encoded)) InvalidArgument;
  Ok (mkShard (mem_slice encoded 0 code_bytes) (mem_slice encoded scale_offset scale_bytes)
        rows width (width / 16)).

(** * The compressed gather *)
Definition kCodesPerRow : Z := 80.
Definition kScalesPerRow : Z := 20.

(** The two output buffers, which a gather that throws leaves partly
    written. *)
Notation gather_buffers := (list Z * list Z)%type.

Definition gather_row (table : list PleShardView) (row : Z * Z) : M gather_buffers unit :=
  let '(row_idx, g_row) := row in
  _ ← mthrow_if (g_row <? 0) OutOfRange;
  addr ← mlift (locate_ple_row g_row);
  shard ← mlift (vat table (ad_shard addr));
  bufs ← mget;
  codes ← mlift (mem_copy (fst bufs) (row_idx * kCodesPerRow)
                   (sh_codes shard) (ad_row addr * kCodesPerRow) kCodesPerRow);
  _ ← mput (codes, snd bufs);
  scales ← mlift (mem_copy (snd bufs) (row_idx * kScalesPerRow)
                    (sh_scales shard) (ad_row addr * kScalesPerRow) kScalesPerRow);
  mput (codes, scales).

(** [global_rows[t][head]] in the order of the two loops, with the row's index
    [t * 16 + head]. *)
Definition numbered_rows (global_rows : list (list Z)) : list (Z * Z) :=
  zip (seqZ 0 (vsize (concat global_rows))) (concat global_rows).

Definition gather_ple_rows_compressed (table : list PleShardView) (global_rows : list (list Z))
    : M gather_buffers unit :=
  let tokens := vsize global_rows in
  bufs ← mget;
  _ ← mthrow_if ((vsize (fst bufs) <? wrap64 (tokens * 16 * kCodesPerRow)) ||
                 (vsize (snd bufs) <? wrap64 (tokens * 16 * kScalesPerRow))) InvalidArgument;
  mfor (gather_row table) (numbered_rows global_rows).

(** * Number formats *)

(** [while ((mantissa & 0x0400) == 0) { mantissa <<= 1; --unbiased; }]: a
    nonzero ten-bit mantissa needs at most ten shifts. *)
Fixpoint normalize_mantissa (fuel : nat) (mantissa unbiased : Z) : Z * Z :=
  match fuel with
  | O => (mantissa, unbiased)
  | S fuel' =>
      if Z.land mantissa 0x0400 =? 0
      then normalize_mantissa fuel' (wrap32 (Z.shiftl mantissa 1)) (unbiased - 1)
      else (mantissa, unbiased)
  end.

(** The bits of the returned [float]. *)
Definition fp16_to_float (bits : Z) : Z :=
  let sign := wrap32 (Z.shiftl (Z.land bits 0x8000) 16) in
  let exponent := Z.land (Z.shiftr bits 10) 0x1F in
  let mantissa := Z.land bits 0x03FF in
  if exponent =? 0 then
    if mantissa =? 0 then sign
    else
      let '(mantissa, unbiased) := normalize_mantissa 10 mantissa (-14) in
      let mantissa := Z.land mantissa 0x03FF in
      Z.lor (Z.lor sign (wrap32 (Z.shiftl (wrap32 (unbiased + 127)) 23)))
        (wrap32 (Z.shiftl mantissa 13))
  else if exponent =? 0x1F then Z.lor (Z.lor sign 0x7F800000) (wrap32 (Z.shiftl mantissa 13))
  else Z.lor (Z.lor sign (wrap32 (Z.shiftl (exponent + 112) 23))) (wrap32 (Z.shiftl mantissa 13)).

(** From the bits of the [float] argument. *)
Definition float_to_bf16 (bits : Z) : Z :=
  if (Z.land bits 0x7F800000 =? 0x7F800000) && negb (Z.land bits 0x007FFFFF =? 0)
  then Z.land (Z.lor (Z.shiftr bits 16) 0x0040) 0xFFFF
  else
    let tie := Z.land (Z.shiftr bits 16) 1 in
    Z.land (Z.shiftr (wrap32 (wrap32 (bits + 0x7FFF) + tie)) 16) 0xFFFF.

(** * Lemmas *)
Lemma positive_remainder_total bits divisor :
  0 < divisor -> exists r, positive_remainder bits divisor = Ok r /\ 0 <= r < divisor.
Proof.
  intros Hd. unfold positive_remainder. rewrite (proj2 (Z.leb_gt divisor 0)) by done.
  cbn [throw_if mbind result_bind]. eexists. split; [done|].
  pose proof (Z.rem_bound_abs (to_i64 bits) divisor ltac:(lia)).
  destruct (Z.ltb_spec (Z.rem (to_i64 bits) divisor) 0); lia.
Qed.

(** The slices of the sixteen heads: consecutive, and inside the table. *)
Definition head_slice (metadata : PleIndexMetadata) (head lo hi : Z) : Prop :=
  exists size, (head_offsets metadata).[head] = Some lo /\
    (head_vocab_sizes metadata).[head] = Some size /\ hi = lo + size.

Lemma seqZ_16_all (P : Z -> Prop) :
  Forall P (map Z.of_nat (seq 0 16)) -> forall head, 0 <= head < 16 -> P head.
Proof.
  intros H head Hh. apply (proj1 (Forall_forall P _) H). apply list_elem_of_fmap. exists (Z.to_nat head).
  split; [lia|]. apply elem_of_seq. lia.
Qed.

Lemma head_slices_fit head :
  0 <= head < 16 ->
  exists lo hi, head_slice kPleIndexMetadata head lo hi /\ 0 <= lo < hi /\ hi <= kPleTableRows.
Proof.
  revert head. apply seqZ_16_all. cbn.
  repeat (apply Forall_cons_2; [do 2 eexists; split; [eexists; split; [reflexivity|]; split; reflexivity|];
                                unfold kPleTableRows, kPleRowsPerShard, kPleShardCount; lia|]).
  apply Forall_nil_2.
Qed.

Lemma ple_head_in_slice bigram trigram head :
  0 <= head < 16 ->
  exists row lo hi, ple_head kPleIndexMetadata bigram trigram head = Ok row /\
    head_slice kPleIndexMetadata head lo hi /\ lo <= row < hi /\ hi <= kPleTableRows.
Proof.
  intros (lo & hi & (size & Hlo & Hsize & ->) & Hrange & Hhi)%head_slices_fit.
  destruct (positive_remainder_total (if head <? 8 then bigram else trigram) size ltac:(lia)) as (r & Hr & Hr').
  exists (lo + r), lo, (lo + size). split; [|split; [by exists size|lia]].
  unfold ple_head, vat. rewrite Hlo. cbn [mbind result_bind].
  rewrite (proj2 (Z.ltb_ge lo 0)) by lia. cbn [throw_if mbind result_bind].
  rewrite Hsize. cbn [mbind result_bind]. rewrite Hr. cbn [mbind result_bind].
  assert (lo + r <= I64_MAX) by (unfold kPleTableRows, kPleRowsPerShard, kPleShardCount, I64_MAX in *; lia).
  by rewrite (proj2 (Z.ltb_ge I64_MAX (lo + r))).
Qed.

Lemma ple_indices_in_slices history token :
  exists rows, ple_indices kPleIndexMetadata history token = Ok rows /\ length rows = 16%nat /\
    forall head row, rows.[head] = Some row ->
      exists lo hi, head_slice kPleIndexMetadata head lo hi /\ lo <= row < hi /\ 0 <= lo /\ hi <= kPleTableRows.
Proof.
  unfold ple_indices. cbn [vat vget multipliers kPleIndexMetadata kPleLayerMultipliers mbind result_bind].
  change (vat kPleLayerMultipliers 0) with (Ok 23703573157769 : result Z).
  change (vat kPleLayerMultipliers 1) with (Ok 20109073645365 : result Z).
  change (vat kPleLayerMultipliers 2) with (Ok 8052911324071 : result Z).
  cbn [mbind result_bind].
  set (bigram := Z.lxor _ _). set (trigram := Z.lxor bigram _).
  destruct (rmap_total (ple_head kPleIndexMetadata bigram trigram) (seqZ 0 16)) as [rows Hrows].
  { apply Forall_seqZ. intros head Hh. destruct (ple_head_in_slice bigram trigram head) as (row & _ & _ & H & _); [lia|eauto]. }
  exists rows. split; [done|]. apply rmap_Ok in Hrows. split.
  { by rewrite <- (Forall2_length _ _ _ Hrows). }
  intros head row Hrow. destruct (vget_Some_bounds _ _ _ Hrow) as [Hh _].
  unfold vget in Hrow. rewrite (proj2 (Z.leb_le 0 head)) in Hrow by done.
  apply (Forall2_lookup_r _ _ _ _ _ Hrows) in Hrow as (head' & Hs & Hrow).
  apply lookup_seqZ in Hs as [-> Hlt]. rewrite Z.add_0_l, Z2Nat.id in Hrow by done.
  destruct (ple_head_in_slice bigram trigram head) as (row' & lo & hi & H & Hsl & Hin & Hhi); [lia|].
  rewrite Hrow in H. injection H as ->. exists lo, hi. split; [done|]. split; [done|].
  destruct (head_slices_fit head) as (lo' & hi' & (size & Hlo & _) & ? & _); [lia|].
  destruct Hsl as (size' & Hlo' & _). rewrite Hlo in Hlo'. injection Hlo' as ->. lia.
Qed.

Lemma locate_ple_row_total row :
  0 <= row < kPleTableRows ->
  locate_ple_row row = Ok (mkAddress (row / kPleRowsPerShard) (row mod kPleRowsPerShard)) /\
  0 <= row / kPleRowsPerShard < kPleShardCount /\ 0 <= row mod kPleRowsPerShard < kPleRowsPerShard.
Proof.
  intros Hr. unfold locate_ple_row. rewrite (proj2 (Z.leb_gt kPleTableRows row)) by lia.
  unfold kPleTableRows, kPleShardCount in *.
  assert (0 <= row / kPleRowsPerShard < 128)
    by (split; [apply Z.div_pos|apply Z.div_lt_upper_bound]; unfold kPleRowsPerShard in *; lia).
  pose proof (Z.mod_pos_bound row kPleRowsPerShard ltac:(unfold kPleRowsPerShard; lia)).
  cbn [throw_if mbind result_bind].
  rewrite !wrap32_small by (unfold U32_MAX, kPleRowsPerShard in *; lia). done.
Qed.

(** A shard of the default geometry holds eighty code bytes and twenty scale
    bytes per row. *)
Definition shard_ok (shard : PleShardView) : Prop :=
  vsize (sh_codes shard) = kPleRowsPerShard * kCodesPerRow /\
  vsize (sh_scales shard) = kPleRowsPerShard * kScalesPerRow.

Lemma make_ple_shard_view_ok encoded shard :
  make_ple_shard_view encoded kPleRowsPerShard kPleRowWidth = Ok shard -> shard_ok shard.
Proof.
  unfold make_ple_shard_view. intros H. apply bind_Ok in H as (u & _ & H).
  change (wrap64 (kPleRowsPerShard * kPleRowWidth) / 2) with 200000960 in H.
  change (ple_align_up 200000960 256) with 200001024 in H.
  change (wrap64 (wrap64 (kPleRowsPerShard * (kPleRowWidth / 16)) * 2)) with 50000240 in H.
  change (wrap64 (200001024 + 50000240)) with 250001264 in H.
  apply bind_Ok in H as (u' & Hg%throw_if_Ok & [= <-]). simp_bool.
  unfold shard_ok. cbn [sh_codes sh_scales]. split.
  - unfold vsize at 1. rewrite length_mem_slice by lia.
    rewrite Z2Nat.id by lia. reflexivity.
  - unfold vsize at 1. rewrite length_mem_slice by lia.
    rewrite Z2Nat.id by lia. reflexivity.
Qed.

(** Row [idx] of the output holds the table's row. *)
Definition row_gathered (table : list PleShardView) (bufs : gather_buffers) (idx row : Z) : Prop :=
  exists shard, table.[row / kPleRowsPerShard] = Some shard /\
    let r := row mod kPleRowsPerShard in
    mem_slice (fst bufs) (idx * kCodesPerRow) kCodesPerRow =
      mem_slice (sh_codes shard) (r * kCodesPerRow) kCodesPerRow /\
    mem_slice (snd bufs) (idx * kScalesPerRow) kScalesPerRow =
      mem_slice (sh_scales shard) (r * kScalesPerRow) kScalesPerRow.

Section Gather.
Context (table : list PleShardView) (rows : list Z) (bufs : gather_buffers).
Hypothesis Htable : vsize table = kPleShardCount.
Hypothesis Hshards : Forall shard_ok table.
Hypothesis Hrows : Forall (fun r => 0 <= r < kPleTableRows) rows.
Hypothesis Hcodes : vsize rows * kCodesPerRow <= vsize (fst bufs).
Hypothesis Hscales : vsize rows * kScalesPerRow <= vsize (snd bufs).

(** After the first [k] rows: those rows are in place, the bytes behind them
    are the initial ones. *)
Definition gathered (k : Z) (b : gather_buffers) : Prop :=
  (vsize (fst b) = vsize (fst bufs) /\ vsize (snd b) = vsize (snd bufs)) /\
  (forall i r, i < k -> rows.[i] = Some r -> row_gathered table b i r) /\
  (forall off n, 0 <= n -> k * kCodesPerRow <= off ->
     mem_slice (fst b) off n = mem_slice (fst bufs) off n) /\
  (forall off n, 0 <= n -> k * kScalesPerRow <= off ->
     mem_slice (snd b) off n = mem_slice (snd bufs) off n).

Lemma gather_row_step k r b :
  rows.[k] = Some r -> gathered k b ->
  exists b', gather_row table (k, r) b = (b', Ok tt) /\ gathered (k + 1) b'.
Proof.
  intros Hk ((Hc & Hs) & Hdone & Htailc & Htails).
  assert (Hr : 0 <= r < kPleTableRows).
  { unfold vget in Hk. destruct (0 <=? k); [|done]. by apply (Forall_lookup_1 _ _ _ _ Hrows Hk). }
  destruct (vget_Some_bounds _ _ _ Hk) as [Hk0 Hk1].
  destruct (locate_ple_row_total r Hr) as (Hloc & Hsh & Hro).
  destruct (vget_is_Some table (r / kPleRowsPerShard) ltac:(lia)) as [shard Hshard].
  assert (Hok : shard_ok shard).
  { unfold vget in Hshard. destruct (0 <=? _); [|done]. by apply (Forall_lookup_1 _ _ _ _ Hshards Hshard). }
  destruct Hok as [Hlc Hls]. destruct b as [bc bs]. cbn [fst snd] in *.
  unfold kCodesPerRow, kScalesPerRow in *.
  unfold gather_row. cbv beta iota. unfold mthrow_if, mlift, mget, mput, mbind, M_bind.
  rewrite (proj2 (Z.ltb_ge r 0)) by lia. cbn [throw_if fst snd]. rewrite Hloc. cbn [ad_shard ad_row].
  unfold vat. rewrite Hshard. unfold kCodesPerRow, kScalesPerRow.
  rewrite !mem_copy_total by lia. eexists. split; [done|].
  split; [cbn [fst snd]; by rewrite !vsize_copied by lia|].
  split; [|split; intros off n ??; cbn [fst snd]; unfold kCodesPerRow, kScalesPerRow in *;
           rewrite slice_copied_after by lia;
           [apply Htailc|apply Htails]; lia].
  intros i r' Hi Hr'. destruct (decide (i = k)) as [->|Hne].
  - rewrite Hk in Hr'. injection Hr' as <-. exists shard. split; [done|].
    cbn [fst snd]. unfold kCodesPerRow, kScalesPerRow. by rewrite !slice_copied_inside by lia.
  - destruct (vget_Some_bounds _ _ _ Hr') as [Hi0 _].
    destruct (Hdone i r' ltac:(lia) Hr') as (shard' & Ht' & Hsc & Hss).
    exists shard'. split; [done|]. cbn [fst snd] in *. unfold kCodesPerRow, kScalesPerRow in *.
    by rewrite !slice_copied_before by lia.
Qed.

Lemma gather_rows_total :
  exists b, mfor (gather_row table) (zip (seqZ 0 (vsize rows)) rows) bufs = (b, Ok tt) /\
    gathered (vsize rows) b.
Proof.
  assert (Hlen : length (zip (seqZ 0 (vsize rows)) rows) = length rows)
    by (rewrite length_zip_with, length_seqZ; unfold vsize; lia).
  destruct (mfor_total (gather_row table) (zip (seqZ 0 (vsize rows)) rows)
              (fun l b => gathered (vsize l) b) bufs) as (b & Hm & Hg).
  - split; [done|]. split; [|done]. intros i r Hi Hr.
    destruct (vget_Some_bounds _ _ _ Hr). unfold vsize in Hi. cbn in Hi. lia.
  - intros pre [k r] rest b Hl Hg.
    assert (Hat : zip (seqZ 0 (vsize rows)) rows !! length pre = Some (k, r))
      by (rewrite Hl; by apply list_lookup_middle).
    apply lookup_zip_with_Some in Hat as (k' & r' & [= <- <-] & Hs & Hr).
    apply lookup_seqZ in Hs as [Hk _]. rewrite Z.add_0_l in Hk. subst k.
    rewrite vsize_app, vsize_cons. change (1 + vsize []) with 1. apply gather_row_step; [|done].
    unfold vget, vsize. rewrite (proj2 (Z.leb_le 0 (Z.of_nat (length pre)))) by lia. by rewrite Nat2Z.id.
  - exists b. split; [done|]. unfold vsize at 1 in Hg. by rewrite Hlen in Hg.
Qed.
End Gather.

(** Row [head] of token [t] is row [16 * t + head] of the flattened list. *)
Lemma concat_arrays_lookup {A} n (ls : list (list A)) t l h x :
  (0 < n)%nat -> Forall (fun l => length l = n) ls -> ls !! t = Some l -> l !! h = Some x ->
  concat ls !! (t * n + h)%nat = Some x.
Proof.
  intros Hn Hls. revert t. induction Hls as [|l' ls Hl' Hls IH]; intros t Ht Hx; [done|]. cbn.
  destruct t as [|t]; cbn in Ht.
  - injection Ht as ->. cbn. by rewrite lookup_app_l by (by eapply lookup_lt_Some).
  - rewrite lookup_app_r by lia. rewrite Hl'. replace (S t * n + h - n)%nat with (t * n + h)%nat by lia.
    by apply IH.
Qed.

Lemma concat_arrays_length {A} n (ls : list (list A)) :
  Forall (fun l => length l = n) ls -> length (concat ls) = (length ls * n)%nat.
Proof. induction 1 as [|l ls Hl Hls IH]; cbn; [done|]. rewrite length_app. lia. Qed.

(** * The values of the number formats

    The magnitude of a finite number, in units of the smallest positive
    binary32 number, [2 ^ -149]. *)
Definition fp16_exponent (bits : Z) : Z := (bits / 2 ^ 10) mod 2 ^ 5.
Definition fp16_mantissa (bits : Z) : Z := bits mod 2 ^ 10.
Definition fp16_sign (bits : Z) : Z := (bits / 2 ^ 15) mod 2.
Definition fp16_magnitude (bits : Z) : Z :=
  let e := fp16_exponent bits in let m := fp16_mantissa bits in
  if e =? 0 then m * 2 ^ 125 else (2 ^ 10 + m) * 2 ^ (e + 124).

Definition fp32_exponent (bits : Z) : Z := (bits / 2 ^ 23) mod 2 ^ 8.
Definition fp32_mantissa (bits : Z) : Z := bits mod 2 ^ 23.
Definition fp32_sign (bits : Z) : Z := (bits / 2 ^ 31) mod 2.
Definition fp32_magnitude (bits : Z) : Z :=
  let e := fp32_exponent bits in let m := fp32_mantissa bits in
  if e =? 0 then m else (2 ^ 23 + m) * 2 ^ (e - 1).

Lemma fp32_fields s e m :
  0 <= s <= 1 -> 0 <= e < 2 ^ 8 -> 0 <= m < 2 ^ 23 ->
  let bits := s * 2 ^ 31 + e * 2 ^ 23 + m in
  Z.lor (Z.lor (s * 2 ^ 31) (e * 2 ^ 23)) m = bits /\
  fp32_sign bits = s /\ fp32_exponent bits = e /\ fp32_mantissa bits = m.
Proof.
  intros Hs He Hm bits. split; [|unfold fp32_sign, fp32_exponent, fp32_mantissa, bits; repeat split].
  - rewrite (lor_field s 31 (e * 2 ^ 23)) by lia.
    replace (s * 2 ^ 31 + e * 2 ^ 23) with ((s * 2 ^ 8 + e) * 2 ^ 23) by lia.
    rewrite lor_field by lia. unfold bits. lia.
  - replace (s * 2 ^ 31 + e * 2 ^ 23 + m) with (e * 2 ^ 23 + m + s * 2 ^ 31) by lia.
    rewrite Z.div_add, Z.div_small by lia. apply Z.mod_small. lia.
  - replace (s * 2 ^ 31 + e * 2 ^ 23 + m) with (m + (s * 2 ^ 8 + e) * 2 ^ 23) by lia.
    rewrite Z.div_add, Z.div_small by lia. rewrite Z.add_0_l.
    rewrite Z.add_comm, Z.mod_add by lia. by apply Z.mod_small.
  - replace (s * 2 ^ 31 + e * 2 ^ 23 + m) with (m + (s * 2 ^ 8 + e) * 2 ^ 23) by lia.
    rewrite Z.mod_add by lia. by apply Z.mod_small.
Qed.

(** The renormalised subnormals, all 1023 of them. *)
Definition subnormal_ok (m : Z) : bool :=
  let '(mantissa, unbiased) := normalize_mantissa 10 m (-14) in
  let m' := Z.land mantissa 0x03FF in
  (0 <=? m') && (m' <? 2 ^ 10) && (1 <=? unbiased + 127) && (unbiased + 127 <? 255) &&
  ((2 ^ 23 + m' * 2 ^ 13) * 2 ^ (unbiased + 126) =? m * 2 ^ 125).

Lemma subnormals_ok m : 0 < m < 2 ^ 10 -> subnormal_ok m = true.
Proof.
  intros Hm. assert (Hall : forallb subnormal_ok (seqZ 1 1023) = true) by (vm_compute; reflexivity).
  apply (proj1 (forallb_forall _ _) Hall). apply list_elem_of_In, elem_of_seqZ. lia.
Qed.

(** The bits of the result, field by field. *)
Lemma fp16_to_float_fields bits :
  0 <= bits < 2 ^ 16 ->
  let s := fp16_sign bits in let e := fp16_exponent bits in let m := fp16_mantissa bits in
  exists e' m', fp16_to_float bits = s * 2 ^ 31 + e' * 2 ^ 23 + m' /\
    0 <= e' < 2 ^ 8 /\ 0 <= m' < 2 ^ 23 /\
    (e = 31 -> e' = 255 /\ m' = m * 2 ^ 13) /\
    (e < 31 -> e' < 255 /\
      (if e' =? 0 then m' else (2 ^ 23 + m') * 2 ^ (e' - 1)) = fp16_magnitude bits).
Proof.
  intros Hb s e m.
  assert (Hs : 0 <= s <= 1) by (unfold s, fp16_sign; pose proof (Z.mod_pos_bound (bits / 2 ^ 15) 2); lia).
  assert (He : 0 <= e < 2 ^ 5) by (apply Z.mod_pos_bound; lia).
  assert (Hm : 0 <= m < 2 ^ 10) by (apply Z.mod_pos_bound; lia).
  assert (Hsign : wrap32 (Z.shiftl (Z.land bits 0x8000) 16) = s * 2 ^ 31).
  { change 0x8000 with (Z.shiftl (Z.ones 1) 15). rewrite land_field by lia. change ((bits / 2 ^ 15) mod 2 ^ 1) with s.
    rewrite Z.shiftl_mul_pow2, wrap32_small by (unfold U32_MAX; lia). lia. }
  assert (Hexp : Z.land (Z.shiftr bits 10) 0x1F = e).
  { change 0x1F with (Z.ones 5). by rewrite Z.land_ones, Z.shiftr_div_pow2 by lia. }
  assert (Hman : Z.land bits 0x03FF = m).
  { change 0x03FF with (Z.ones 10). by rewrite Z.land_ones by lia. }
  assert (Hshift : forall x, 0 <= x < 2 ^ 10 -> wrap32 (Z.shiftl x 13) = x * 2 ^ 13).
  { intros x Hx. rewrite Z.shiftl_mul_pow2, wrap32_small by (unfold U32_MAX; lia). done. }
  assert (Hexpo : forall x, 0 <= x < 2 ^ 8 -> wrap32 (Z.shiftl x 23) = x * 2 ^ 23).
  { intros x Hx. rewrite Z.shiftl_mul_pow2, wrap32_small by (unfold U32_MAX; lia). done. }
  unfold fp16_to_float, fp16_magnitude. rewrite Hsign, Hexp, Hman. cbv zeta. fold e m.
  destruct (Z.eqb_spec e 0) as [He0|He0].
  - destruct (Z.eqb_spec m 0) as [Hm0|Hm0].
    + exists 0, 0. rewrite Hm0. cbn. lia.
    + pose proof (subnormals_ok m ltac:(lia)) as Hsub. unfold subnormal_ok in Hsub.
      destruct (normalize_mantissa 10 m (-14)) as [mm u]. simp_bool.
      rewrite (wrap32_small (u + 127)) by (unfold U32_MAX; lia).
      rewrite Hshift, Hexpo by lia.
      rewrite (proj1 (fp32_fields s (u + 127) (Z.land mm 0x03FF * 2 ^ 13) Hs ltac:(lia) ltac:(lia))).
      exists (u + 127), (Z.land mm 0x03FF * 2 ^ 13).
      split; [done|]. split; [lia|]. split; [lia|]. split; [lia|]. intros _. split; [lia|].
      rewrite (proj2 (Z.eqb_neq (u + 127) 0)) by lia. by replace (u + 127 - 1) with (u + 126) by lia.
  - destruct (Z.eqb_spec e 31) as [He1|He1].
    + rewrite Hshift by done. change 0x7F800000 with (255 * 2 ^ 23).
      rewrite (proj1 (fp32_fields s 255 (m * 2 ^ 13) Hs ltac:(lia) ltac:(lia))).
      exists 255, (m * 2 ^ 13). repeat (split; [lia|]). lia.
    + rewrite Hshift, Hexpo by lia.
      rewrite (proj1 (fp32_fields s (e + 112) (m * 2 ^ 13) Hs ltac:(lia) ltac:(lia))).
      exists (e + 112), (m * 2 ^ 13). split; [done|]. split; [lia|]. split; [lia|]. split; [lia|].
      intros _. split; [lia|]. rewrite (proj2 (Z.eqb_neq (e + 112) 0)) by lia.
      replace (e + 124) with (13 + (e + 112 - 1)) by lia. rewrite Z.pow_add_r by lia. lia.
Qed.

(** A binary32 number is not a NaN exactly when the guard of [float_to_bf16]
    does not hold. *)
Definition fp32_is_nan (bits : Z) : Prop := fp32_exponent bits = 255 /\ fp32_mantissa bits <> 0.

Lemma float_to_bf16_guard bits :
  ((Z.land bits 0x7F800000 =? 0x7F800000) && negb (Z.land bits 0x007FFFFF =? 0)) = true <->
  fp32_is_nan bits.
Proof.
  change 0x007FFFFF with (Z.ones 23). rewrite Z.land_ones by lia. fold (fp32_mantissa bits).
  change (Z.land bits 0x7F800000) with (Z.land bits (Z.shiftl (Z.ones 8) 23)).
  rewrite land_field by lia. fold (fp32_exponent bits). unfold fp32_is_nan.
  change 0x7F800000 with (255 * 2 ^ 23). rewrite andb_true_iff, negb_true_iff, Z.eqb_eq, Z.eqb_neq. lia.
Qed.

(** Away from the NaNs the code is a rounded division of the bits by 65536. *)
Lemma float_to_bf16_rounds bits :
  0 <= bits < 2 ^ 32 -> ~ fp32_is_nan bits ->
  float_to_bf16 bits = (bits + 32767 + (bits / 65536) mod 2) / 65536 /\
  bits mod 2 ^ 31 <= 255 * 2 ^ 23.
Proof.
  intros Hb Hnan.
  assert (Hmax : bits mod 2 ^ 31 <= 255 * 2 ^ 23).
  { unfold fp32_is_nan, fp32_exponent, fp32_mantissa in Hnan.
    assert (0 <= (bits / 2 ^ 23) mod 2 ^ 8 < 2 ^ 8) by (apply Z.mod_pos_bound; lia).
    pose proof (Z.mod_pos_bound bits (2 ^ 23) ltac:(lia)).
    assert (bits mod 2 ^ 31 = (bits / 2 ^ 23) mod 2 ^ 8 * 2 ^ 23 + bits mod 2 ^ 23).
    { change (2 ^ 31) with (2 ^ 23 * 2 ^ 8). rewrite Z.rem_mul_r by lia. lia. }
    lia. }
  split; [|done]. unfold float_to_bf16.
  destruct (_ && _) eqn:G; [by apply float_to_bf16_guard in G|].
  change (Z.land (Z.shiftr bits 16) 1) with (Z.land (Z.shiftr bits 16) (Z.ones 1)).
  rewrite Z.land_ones, !Z.shiftr_div_pow2 by lia. change (2 ^ 16) with 65536. change (2 ^ 1) with 2.
  pose proof (Z.mod_pos_bound (bits / 65536) 2 ltac:(lia)).
  pose proof (Z.div_mod bits (2 ^ 31) ltac:(lia)).
  assert (bits / 2 ^ 31 <= 1) by (apply Z.lt_succ_r, Z.div_lt_upper_bound; lia).
  rewrite (wrap32_small (bits + 0x7FFF)) by (unfold U32_MAX; lia).
  rewrite wrap32_small by (unfold U32_MAX; lia).
  change 0xFFFF with (Z.ones 16). rewrite Z.land_ones by lia. apply Z.mod_small.
  split; [apply Z.div_pos; lia|apply Z.div_lt_upper_bound; lia].
Qed.

(** Truncating a NaN and setting the quiet bit gives a quiet NaN. *)
Lemma quiet_nan bits r :
  0 <= bits -> fp32_is_nan bits -> r = Z.land (Z.lor (Z.shiftr bits 16) (2 ^ 6)) (Z.ones 16) ->
  fp32_is_nan (r * 65536) /\ Z.testbit r 6 = true.
Proof.
  intros Hb [Hexp _] Hr.
  assert (H6 : Z.testbit r 6 = true).
  { by rewrite Hr, Z.land_spec, Z.lor_spec, Z.pow2_bits_true, orb_true_r by lia. }
  split; [|done]. unfold fp32_is_nan, fp32_exponent, fp32_mantissa in *. split.
  - rewrite <- Hexp. change (2 ^ 23) with (65536 * 2 ^ 7) at 1.
    rewrite (Z.mul_comm 65536), Z.div_mul_cancel_r by lia.
    apply Z.bits_inj'. intros n Hn. destruct (Z.lt_ge_cases n 8).
    + rewrite !Z.mod_pow2_bits_low, !Z.div_pow2_bits by lia.
      rewrite Hr, Z.land_spec, Z.lor_spec, Z.pow2_bits_false, Z.ones_spec_low, Z.shiftr_spec by lia.
      rewrite orb_false_r, andb_true_r. f_equal. lia.
    + by rewrite !Z.mod_pow2_bits_high by lia.
  - change (2 ^ 23) with (2 ^ 7 * 65536). rewrite Zmult_mod_distr_r. intros Hz.
    assert (Hz' : r mod 2 ^ 7 = 0) by lia.
    rewrite <- (Z.mod_pow2_bits_low r 7 6), Hz', Z.bits_0 in H6 by lia. done.
Qed.

(** C26. Every per-layer-embedding lookup stays in the table: for any token
    histories and tokens the sixteen rows are computed without an exception,
    each row lies in its head's own slice, and gathering the compressed rows
    from a table of 128 valid shards neither throws nor reads outside a shard;
    afterwards row [16 * t + head] of the two output buffers holds exactly the
    codes and the scales of the selected row, and the bytes behind the last
    row are unchanged. *)
Theorem ple_rows_gathered (encoded : list (list Z)) (table : list PleShardView)
    (requests : list (PleTokenHistory * Z)) (bufs : gather_buffers) :
  Forall2 (fun e s => make_ple_shard_view e kPleRowsPerShard kPleRowWidth = Ok s) encoded table ->
  vsize table = kPleShardCount ->
  vsize requests * 16 * kCodesPerRow <= vsize (fst bufs) <= U64_MAX ->
  vsize requests * 16 * kScalesPerRow <= vsize (snd bufs) <= U64_MAX ->
  exists rows bufs',
    rmap (fun req => ple_indices kPleIndexMetadata (fst req) (snd req)) requests = Ok rows /\
    gather_ple_rows_compressed table rows bufs = (bufs', Ok tt) /\
    (forall t token_rows head row, rows.[t] = Some token_rows -> token_rows.[head] = Some row ->
      row_gathered table bufs' (t * 16 + head) row /\
      exists lo hi, head_slice kPleIndexMetadata head lo hi /\ lo <= row < hi) /\
    (forall off n, 0 <= n -> vsize requests * 16 * kCodesPerRow <= off ->
      mem_slice (fst bufs') off n = mem_slice (fst bufs) off n) /\
    (forall off n, 0 <= n -> vsize requests * 16 * kScalesPerRow <= off ->
      mem_slice (snd bufs') off n = mem_slice (snd bufs) off n).
Proof.
  intros Henc Htable Hcodes Hscales.
  destruct (rmap_total (fun req => ple_indices kPleIndexMetadata (fst req) (snd req)) requests) as [rows Hrows].
  { apply Forall_forall. intros [h tok] _. destruct (ple_indices_in_slices h tok) as (r & H & _). eauto. }
  pose proof Hrows as Hrows'. apply rmap_Ok in Hrows'.
  assert (Hall : Forall (fun r => length r = 16%nat /\ forall head row, r.[head] = Some row ->
            exists lo hi, head_slice kPleIndexMetadata head lo hi /\ lo <= row < hi /\ 0 <= lo /\ hi <= kPleTableRows) rows).
  { eapply Forall2_Forall_r; [exact Hrows'|]. apply Forall_forall. intros [h tok] _ r Hr.
    destruct (ple_indices_in_slices h tok) as (r' & H & Hp). cbn [fst snd] in Hr.
    rewrite Hr in H. injection H as ->. exact Hp. }
  assert (H16 : Forall (fun r => length r = 16%nat) rows) by (eapply Forall_impl; [exact Hall|by intros r [? _]]).
  assert (Hlen : vsize (concat rows) = vsize requests * 16).
  { unfold vsize. rewrite (concat_arrays_length 16), (Forall2_length _ _ _ Hrows') by done. lia. }
  destruct (gather_rows_total table (concat rows) bufs) as (b & Hg & _ & Hdone & Hc & Hs).
  - done.
  - eapply Forall2_Forall_r; [exact Henc|]. apply Forall_forall. intros e _ s. apply make_ple_shard_view_ok.
  - apply Forall_concat. eapply Forall_impl; [exact Hall|]. intros r [_ Hr]. apply Forall_lookup.
    intros i x Hx. destruct (Hr (Z.of_nat i) x) as (lo & hi & _ & ? & ? & ?); [|lia].
    unfold vget. by rewrite (proj2 (Z.leb_le 0 (Z.of_nat i))), Nat2Z.id by lia.
  - rewrite Hlen. lia.
  - rewrite Hlen. lia.
  - exists rows, b. rewrite Hlen in Hc, Hs, Hdone. split; [done|]. split; [|split; [|done]].
    + unfold gather_ple_rows_compressed, numbered_rows.
      assert (vsize rows = vsize requests) as -> by (unfold vsize; by rewrite (Forall2_length _ _ _ Hrows')).
      unfold mget, mthrow_if, mlift, mbind, M_bind. pose proof (vsize_nonneg requests).
      unfold kCodesPerRow, kScalesPerRow in *.
      rewrite !wrap64_small by lia. rewrite !(proj2 (Z.ltb_ge _ _)) by lia. exact Hg.
    + intros t tr head row Ht Hr. destruct (vget_Some_bounds _ _ _ Ht), (vget_Some_bounds _ _ _ Hr).
      unfold vget in Ht, Hr. rewrite (proj2 (Z.leb_le 0 t)) in Ht by done.
      rewrite (proj2 (Z.leb_le 0 head)) in Hr by done.
      assert (Hat : (concat rows).[t * 16 + head] = Some row).
      { unfold vget. rewrite (proj2 (Z.leb_le 0 (t * 16 + head))) by lia.
        replace (Z.to_nat (t * 16 + head)) with (Z.to_nat t * 16 + Z.to_nat head)%nat by lia.
        eapply (concat_arrays_lookup 16); [lia|done|done|done]. }
      destruct (vget_Some_bounds _ _ _ Hat). split; [apply Hdone; [lia|done]|].
      pose proof (Forall_lookup_1 _ _ _ _ Hall Ht) as [_ Hp].
      destruct (Hp head row) as (lo & hi & ? & ? & _); [|eauto].
      unfold vget. by rewrite (proj2 (Z.leb_le 0 head)) by done.
Qed.

(** The half-precision scales are converted exactly: for each of the
    65,536 bit patterns the sign is kept, a finite number becomes a finite
    binary32 number of the same value, and infinities and NaNs keep their kind
    and payload. *)
Theorem fp16_to_float_exact bits :
  0 <= bits < 2 ^ 16 ->
  let f := fp16_to_float bits in
  0 <= f < 2 ^ 32 /\ fp32_sign f = fp16_sign bits /\
  (fp16_exponent bits < 31 -> fp32_exponent f < 255 /\ fp32_magnitude f = fp16_magnitude bits) /\
  (fp16_exponent bits = 31 -> fp32_exponent f = 255 /\ fp32_mantissa f = fp16_mantissa bits * 2 ^ 13).
Proof.
  intros Hb f. destruct (fp16_to_float_fields bits Hb) as (e & m & Hf & He & Hm & Hinf & Hfin).
  fold f in Hf. assert (Hs : 0 <= fp16_sign bits <= 1)
    by (unfold fp16_sign; pose proof (Z.mod_pos_bound (bits / 2 ^ 15) 2 ltac:(lia)); lia).
  destruct (fp32_fields (fp16_sign bits) e m Hs He Hm) as (_ & Hfs & Hfe & Hfm).
  rewrite <- Hf in Hfs, Hfe, Hfm. split; [rewrite Hf; lia|]. split; [done|].
  unfold fp32_magnitude. rewrite Hfe, Hfm. split; [done|]. intros H31. by destruct (Hinf H31).
Qed.

(** Storing as bfloat16 rounds to nearest, ties to even: for every
    binary32 pattern that is not a NaN the result is a 16-bit pattern of the
    same sign whose distance to the argument, measured on the encodings (which
    are evenly spaced between two neighbouring bfloat16 numbers), is at most
    half a step, and exactly half a step only to an even pattern; a NaN stays
    a quiet NaN. *)
Theorem float_to_bf16_nearest_even bits :
  0 <= bits < 2 ^ 32 ->
  let r := float_to_bf16 bits in
  (~ fp32_is_nan bits ->
     0 <= r < 2 ^ 16 /\ r / 2 ^ 15 = fp32_sign bits /\
     Z.abs (r * 65536 - bits) <= 32768 /\
     (Z.abs (r * 65536 - bits) = 32768 -> r mod 2 = 0)) /\
  (fp32_is_nan bits -> fp32_is_nan (r * 65536) /\ Z.testbit r 6 = true).
Proof.
  intros Hb r. split.
  - intros Hnan. destruct (float_to_bf16_rounds bits Hb Hnan) as [Hr Hmax]. fold r in Hr.
    pose proof (Z.div_mod bits 65536 ltac:(lia)). pose proof (Z.mod_pos_bound bits 65536 ltac:(lia)).
    pose proof (Z.mod_pos_bound (bits / 65536) 2 ltac:(lia)).
    pose proof (Z.div_mod (bits / 65536) 2 ltac:(lia)).
    pose proof (Z.div_mod bits (2 ^ 31) ltac:(lia)). pose proof (Z.mod_pos_bound bits (2 ^ 31) ltac:(lia)).
    assert (bits / 2 ^ 31 <= 1) by (apply Z.lt_succ_r, Z.div_lt_upper_bound; lia).
    assert (0 <= bits / 2 ^ 31) by (apply Z.div_pos; lia).
    set (q := bits / 65536) in *. set (x := bits mod 65536) in *. set (tie := q mod 2) in *.
    assert (Hcase : r = q /\ x <= 32768 - tie \/ r = q + 1 /\ 32768 - tie < x).
    { destruct (Z.le_gt_cases x (32768 - tie)); [left|right]; (split; [|done]);
        rewrite Hr; symmetry.
      - apply (Z.div_unique _ _ q (x + 32767 + tie)); lia.
      - apply (Z.div_unique _ _ (q + 1) (x + 32767 + tie - 65536)); lia. }
    assert (Hq : 0 <= r < 2 ^ 16) by (destruct Hcase as [[-> _]|[-> _]]; lia).
    split; [done|]. split; [|split].
    + unfold fp32_sign. rewrite (Z.mod_small (bits / 2 ^ 31)) by lia. symmetry.
      apply (Z.div_unique _ _ _ (r - 2 ^ 15 * (bits / 2 ^ 31))); lia.
    + lia.
    + intros Habs. destruct Hcase as [[-> ?]|[-> ?]].
      * fold tie. lia.
      * assert (tie = 1) by lia. rewrite Z.add_mod by lia. fold tie. by subst tie; replace (q mod 2) with 1.
  - intros Hnan. pose proof (proj2 (float_to_bf16_guard bits) Hnan) as G.
    assert (Hr : r = Z.land (Z.lor (Z.shiftr bits 16) (2 ^ 6)) (Z.ones 16))
      by (unfold r, float_to_bf16; by rewrite G).
    apply (quiet_nan bits); [lia|done|done].
Qed.

(** * Witnesses *)

(** The payload of a shard of the default geometry: 250,001,264 zero bytes. *)
Definition demo_encoded : list Z := replicate (Z.to_nat 250001264) 0.

Definition demo_shard : PleShardView :=
  mkShard (mem_slice demo_encoded 0 200000960) (mem_slice demo_encoded 200001024 50000240)
    kPleRowsPerShard kPleRowWidth (kPleRowWidth / 16).

Lemma vsize_replicate {A} n (x : A) : 0 <= n -> vsize (replicate (Z.to_nat n) x) = n.
Proof. intros. unfold vsize. rewrite length_replicate. lia. Qed.

Lemma demo_shard_view : make_ple_shard_view demo_encoded kPleRowsPerShard kPleRowWidth = Ok demo_shard.
Proof.
  unfold make_ple_shard_view.
  assert (Hv : vsize demo_encoded = 250001264) by (apply vsize_replicate; lia).
  rewrite Hv.
  change (wrap64 (kPleRowsPerShard * kPleRowWidth) / 2) with 200000960.
  change (ple_align_up 200000960 256) with 200001024.
  change (wrap64 (wrap64 (kPleRowsPerShard * (kPleRowWidth / 16)) * 2)) with 50000240.
  reflexivity.
Qed.

Definition demo_ple_table : list PleShardView := replicate 128 demo_shard.

Lemma ple_rows_gathered_witness :
  exists rows bufs',
    rmap (fun req => ple_indices kPleIndexMetadata (fst req) (snd req)) [(empty_history, 7)] = Ok rows /\
    gather_ple_rows_compressed demo_ple_table rows
      (replicate (Z.to_nat 1280) 1, replicate (Z.to_nat 320) 1) = (bufs', Ok tt).
Proof.
  destruct (ple_rows_gathered (replicate 128 demo_encoded) demo_ple_table [(empty_history, 7)]
              (replicate (Z.to_nat 1280) 1, replicate (Z.to_nat 320) 1)) as (rows & bufs' & H1 & H2 & _).
  - unfold demo_ple_table. apply Forall2_replicate. exact demo_shard_view.
  - unfold demo_ple_table, vsize. rewrite length_replicate. reflexivity.
  - cbn [fst]. rewrite vsize_replicate by lia. vm_compute. split; discriminate.
  - cbn [snd]. rewrite vsize_replicate by lia. vm_compute. split; discriminate.
  - exists rows, bufs'. split; [exact H1|exact H2].
Defined.

(** The half-precision number 0x3555, about a third. *)
Lemma fp16_to_float_exact_witness : fp32_magnitude (fp16_to_float 0x3555) = fp16_magnitude 0x3555.
Proof.
  destruct (fp16_to_float_exact 0x3555) as (_ & _ & H & _); [lia|].
  apply H. vm_compute. reflexivity.
Defined.

(** Halfway between two bfloat16 numbers. *)
Lemma float_to_bf16_nearest_even_witness : float_to_bf16 0x3F818000 mod 2 = 0.
Proof.
  destruct (float_to_bf16_nearest_even 0x3F818000) as [H _]; [lia|].
  destruct H as (_ & _ & _ & H).
  - intros [H1 _]. vm_compute in H1. discriminate H1.
  - apply H. vm_compute. reflexivity.
Defined.
