(* ===== verification/SlotRing.v ===== *)
(** The recurrent-state slots of the Flash-Next target
    (src/src/targets/qwen3_8_flash_next/impl/runtime_state.{h,cpp} and the slot
    counts of runtime_plan.{h,cpp}): every lane owns a band of consecutive
    slots used as a ring; a round reads the active slot and writes the standby
    slot, and committing it advances the ring. Modelled are the configuration
    checks, the counts of the plan and the slot selectors on the host and on
    the device; the bytes behind a slot are device memory that only the CUDA
    copies and memsets touch. *)

From S2P Require Import Prelude.

(** * Configuration and plan *)
Definition kPageTokens : Z := 64.
Definition kBlockTokens : Z := 4.
Definition kIndexerPageBlocks : Z := 64.
Definition kIndexerPageTokens : Z := kBlockTokens * kIndexerPageBlocks.
Definition kMainPageGroupTokens : Z := 256.
Definition kMaxStateSlots : Z := 64.
Definition kPrefillChunkAlignment : Z := 128.

Inductive KvCacheStorage : Type :=
  | BFloat16 | Int8Group64 | Fp8E4M3Row256 | Nvfp4Group16 | Fp8KeyNvfp4Value.

#[global] Instance KvCacheStorage_eq_dec : EqDecision KvCacheStorage.
Proof. solve_decision. Defined.

(** The fields of the configuration that the counts depend on. *)
Record FlashNextRuntimeConfig : Type := mkConfig {
  cf_max_concurrency : Z;
  cf_max_context : Z;
  cf_state_slot_capacity : Z;
  cf_continuation_capacity : Z;
  cf_prefill_chunk : Z;
  cf_speculative_draft_tokens : Z;
  cf_kv_cache : KvCacheStorage;
}.

(** The counts of the plan, without its byte sizes. *)
Record FlashNextRuntimePlan : Type := mkPlan {
  pl_config : FlashNextRuntimeConfig;
  pl_main_page_groups : Z;
  pl_resolved_tokens : Z;
  pl_attention_physical_pages : Z;
  pl_indexer_physical_pages : Z;
  pl_attention_logical_pages : Z;
  pl_indexer_logical_pages : Z;
  pl_state_slots : Z;
  pl_continuation_slots : Z;
  pl_maximum_blocks : Z;
}.

Definition flash_next_slots_per_lane (speculative_draft_tokens : Z) : Z :=
  if 0 <? speculative_draft_tokens then wrap32 (speculative_draft_tokens + 1) else 2.

Definition flash_next_floor_slots (max_concurrency speculative_draft_tokens : Z) : Z :=
  wrap32 (flash_next_slots_per_lane speculative_draft_tokens * max_concurrency).

Definition validate_config_invariants (c : FlashNextRuntimeConfig) : result Z :=
  _ ← throw_if ((cf_max_concurrency c <? 1) || (8 <? cf_max_concurrency c)) InvalidArgument;
  _ ← throw_if ((cf_max_context c <? 1) || (262144 <? cf_max_context c)) InvalidArgument;
  _ ← throw_if ((cf_prefill_chunk c =? 0) ||
                negb (cf_prefill_chunk c mod kPrefillChunkAlignment =? 0) ||
                (cf_max_context c <? cf_prefill_chunk c)) InvalidArgument;
  _ ← throw_if (4 <? cf_speculative_draft_tokens c) InvalidArgument;
  _ ← throw_if (negb (bool_decide (cf_kv_cache c = BFloat16)) &&
                negb (bool_decide (cf_kv_cache c = Fp8E4M3Row256))) InvalidArgument;
  let floor_slots := flash_next_floor_slots (cf_max_concurrency c) (cf_speculative_draft_tokens c) in
  let min_state_slots := wrap32 (floor_slots + cf_continuation_capacity c) in
  if cf_state_slot_capacity c =? 0 then Ok min_state_slots
  else
    _ ← throw_if ((cf_state_slot_capacity c <? min_state_slots) ||
                  (kMaxStateSlots <? cf_state_slot_capacity c)) InvalidArgument;
    Ok (cf_state_slot_capacity c).

Definition checked_mul_u32 (a b : Z) : result Z :=
  _ ← throw_if ((0 <? a) && (0 <? b) && (U32_MAX / b <? a)) OverflowError;
  Ok (a * b).

(** [(value + per - 1) / per] on [std::uint32_t]. *)
Definition ceil_div (value per : Z) : Z := wrap32 (wrap32 (value + per) - 1) / per.

(** The bounds of the capacity curve: its minimum and maximum page groups. *)
Definition flash_next_page_group_bounds (c : FlashNextRuntimeConfig) : result (Z * Z) :=
  _ ← validate_config_invariants c;
  let groups_per_seq := ceil_div (cf_max_context c) kMainPageGroupTokens in
  let min_groups := Z.max groups_per_seq (cf_max_concurrency c) in
  max_groups ← checked_mul_u32 (cf_max_concurrency c) groups_per_seq;
  Ok (min_groups, max_groups).

Definition finalize_flash_next_counts (c : FlashNextRuntimeConfig) (selected : Z)
    : result FlashNextRuntimePlan :=
  slots ← validate_config_invariants c;
  bounds ← flash_next_page_group_bounds c;
  _ ← throw_if ((selected <? fst bounds) || (snd bounds <? selected)) InvalidArgument;
  tokens ← checked_mul_u32 selected kMainPageGroupTokens;
  pages ← checked_mul_u32 4 selected;
  Ok (mkPlan
        (mkConfig (cf_max_concurrency c) (cf_max_context c) slots (cf_continuation_capacity c)
           (cf_prefill_chunk c) (cf_speculative_draft_tokens c) (cf_kv_cache c))
        selected tokens pages selected
        (ceil_div (cf_max_context c) kPageTokens)
        (ceil_div (cf_max_context c) kIndexerPageTokens)
        slots (cf_continuation_capacity c)
        (Z.min 65536 (ceil_div (cf_max_context c) kBlockTokens))).

(** * Slot selectors *)
Record SlotRing : Type := mkRing {
  sr_max_concurrency : Z;
  sr_state_slots : Z;
  slots_per_lane_ : Z;
  host_ring_offsets_ : list Z;
  host_active_slots_ : list Z;
  host_standby_slots_ : list Z;
  device_source_slots : list Z;
  device_destination_slots : list Z;
}.

Definition set_selectors (lane offset active standby : Z) (r : SlotRing) : SlotRing :=
  mkRing (sr_max_concurrency r) (sr_state_slots r) (slots_per_lane_ r) (host_ring_offsets_ r).[lane <- offset]
    (host_active_slots_ r).[lane <- active] (host_standby_slots_ r).[lane <- standby]
    (device_source_slots r) (device_destination_slots r).

Definition lane_base (r : SlotRing) (lane : Z) : Z := wrap32 (lane * slots_per_lane_ r).

(** The constructor's selectors; the device copies hold what the allocation
    leaves in memory until [initialize] uploads them. *)
Definition make_slot_ring (p : FlashNextRuntimePlan) (device : list Z) : SlotRing :=
  let c := pl_config p in
  let spl := if 0 <? cf_speculative_draft_tokens c
             then wrap32 (cf_speculative_draft_tokens c + 1) else 2 in
  let lanes := seqZ 0 (cf_max_concurrency c) in
  mkRing (cf_max_concurrency c) (pl_state_slots p) spl (map (fun _ => 0) lanes)
    (map (fun b => to_i32 (wrap32 (b * spl))) lanes)
    (map (fun b => to_i32 (wrap32 (wrap32 (b * spl) + 1 mod spl))) lanes) device device.

Definition sync_slots_to_device (r : SlotRing) : SlotRing :=
  mkRing (sr_max_concurrency r) (sr_state_slots r) (slots_per_lane_ r) (host_ring_offsets_ r) (host_active_slots_ r)
    (host_standby_slots_ r) (host_active_slots_ r) (host_standby_slots_ r).

Definition advance_lane_slot (lane_index step_count : Z) (upload_slots : bool) : M SlotRing unit :=
  r ← mget;
  _ ← mthrow_if (sr_max_concurrency r <=? lane_index) OutOfRange;
  offset ← mlift (vat (host_ring_offsets_ r) lane_index);
  let offset' := wrap32 (offset + step_count) mod slots_per_lane_ r in
  let base_slot := lane_base r lane_index in
  let r' := set_selectors lane_index offset' (to_i32 (wrap32 (base_slot + offset')))
              (to_i32 (wrap32 (base_slot + wrap32 (offset' + 1) mod slots_per_lane_ r))) r in
  mput (if upload_slots then sync_slots_to_device r' else r').

Definition commit_row_slot (row_index : Z) : M SlotRing unit := advance_lane_slot row_index 1 true.

(** [seen_mask] as the source keeps it, one bit per lane. *)
Definition check_accepted (max_concurrency seen_mask lane : Z) : result Z :=
  _ ← throw_if (max_concurrency <=? lane) OutOfRange;
  _ ← throw_if (negb (Z.land seen_mask (wrap32 (Z.shiftl 1 lane)) =? 0)) InvalidArgument;
  Ok (Z.lor seen_mask (wrap32 (Z.shiftl 1 lane))).

Definition commit_slots (accepted_lanes : list Z) : M SlotRing unit :=
  r ← mget;
  _ ← mlift (rfor (check_accepted (sr_max_concurrency r)) 0 accepted_lanes);
  mfor (fun lane => advance_lane_slot lane 1 false) accepted_lanes.

Definition restore_lane_slots (lane_index active_slot standby_slot : Z) : M SlotRing unit :=
  r ← mget;
  _ ← mthrow_if (sr_max_concurrency r <=? lane_index) OutOfRange;
  offset ← mlift (vat (host_ring_offsets_ r) lane_index);
  let base_slot := lane_base r lane_index in
  let inside := (to_i32 base_slot <=? active_slot) &&
                (active_slot <? to_i32 (wrap32 (base_slot + slots_per_lane_ r))) in
  let offset' := if inside then wrap32 (active_slot - base_slot) else offset in
  mput (sync_slots_to_device (set_selectors lane_index offset' active_slot standby_slot r)).

(** [zero_slot] checks its index before it clears the slot's device memory. *)
Definition zero_slot (r : SlotRing) (slot_index : Z) : result unit :=
  throw_if (sr_state_slots r <=? slot_index) OutOfRange.

Definition zero_lane_slots (lane_index : Z) : M SlotRing unit :=
  r ← mget;
  _ ← mthrow_if (sr_max_concurrency r <=? lane_index) OutOfRange;
  let base_slot := lane_base r lane_index in
  _ ← mlift (rfor (fun _ s => zero_slot r (wrap32 (base_slot + s))) tt (seqZ 0 (slots_per_lane_ r)));
  mput (set_selectors lane_index 0 (to_i32 base_slot)
          (to_i32 (wrap32 (base_slot + 1 mod slots_per_lane_ r))) r).

Definition current_source_slot (r : SlotRing) (row_index : Z) : result Z :=
  _ ← throw_if (sr_max_concurrency r <=? row_index) OutOfRange;
  vat (host_active_slots_ r) row_index.

Definition current_destination_slot (r : SlotRing) (row_index : Z) : result Z :=
  _ ← throw_if (sr_max_concurrency r <=? row_index) OutOfRange;
  vat (host_standby_slots_ r) row_index.

Definition lane_ring_slot (r : SlotRing) (lane_index step_offset : Z) : result Z :=
  _ ← throw_if (sr_max_concurrency r <=? lane_index) OutOfRange;
  offset ← vat (host_ring_offsets_ r) lane_index;
  Ok (to_i32 (wrap32 (lane_base r lane_index + wrap32 (offset + step_offset) mod slots_per_lane_ r))).

(** * Bit masks of lanes *)
Definition mask_repr (mask : Z) (seen : list Z) : Prop :=
  forall i, 0 <= i < 32 -> Z.testbit mask i = bool_decide (i ∈ seen).

Lemma mask_repr_empty : mask_repr 0 [].
Proof. intros i _. rewrite Z.bits_0. symmetry. by apply bool_decide_eq_false, not_elem_of_nil. Qed.

Lemma lane_bit lane : 0 <= lane < 32 -> wrap32 (Z.shiftl 1 lane) = 2 ^ lane.
Proof.
  intros. rewrite Z.shiftl_1_l. apply wrap32_small. split; [apply Z.pow_nonneg; lia|].
  assert (2 ^ lane <= 2 ^ 31) by (apply Z.pow_le_mono_r; lia). unfold U32_MAX. lia.
Qed.

Lemma mask_repr_test mask seen lane :
  mask_repr mask seen -> 0 <= lane < 32 ->
  (Z.land mask (wrap32 (Z.shiftl 1 lane)) =? 0) = negb (bool_decide (lane ∈ seen)).
Proof.
  intros Hm Hl. rewrite lane_bit, <- (Hm lane Hl) by done.
  assert (Hland : Z.land mask (2 ^ lane) = if Z.testbit mask lane then 2 ^ lane else 0).
  { apply Z.bits_inj'. intros n Hn. rewrite Z.land_spec, Z.pow2_bits_eqb by lia.
    destruct (Z.eqb_spec lane n) as [->|Hne].
    - rewrite andb_true_r. destruct (Z.testbit mask n).
      + by rewrite Z.pow2_bits_true.
      + by rewrite Z.bits_0.
    - rewrite andb_false_r. destruct (Z.testbit mask lane).
      + by rewrite Z.pow2_bits_false.
      + by rewrite Z.bits_0. }
  rewrite Hland. assert (2 ^ lane <> 0) by (pose proof (Z.pow_pos_nonneg 2 lane); lia).
  destruct (Z.testbit mask lane); cbn [negb]; [by apply Z.eqb_neq|done].
Qed.

Lemma mask_repr_set mask seen lane :
  mask_repr mask seen -> 0 <= lane < 32 -> mask_repr (Z.lor mask (wrap32 (Z.shiftl 1 lane))) (lane :: seen).
Proof.
  intros Hm Hl i Hi. rewrite lane_bit by done. rewrite Z.lor_spec, Z.pow2_bits_eqb, (Hm i Hi) by lia.
  destruct (Z.eqb_spec lane i) as [->|Hne].
  - rewrite orb_true_r. symmetry. apply bool_decide_eq_true. left.
  - rewrite orb_false_r. apply bool_decide_ext. set_solver.
Qed.

(** * The ring invariant *)
Definition ring_at (r : SlotRing) (lane o : Z) : Prop :=
  0 <= o < slots_per_lane_ r /\
  (host_ring_offsets_ r).[lane] = Some o /\
  (host_active_slots_ r).[lane] = Some (lane * slots_per_lane_ r + o) /\
  (host_standby_slots_ r).[lane] = Some (lane * slots_per_lane_ r + (o + 1) mod slots_per_lane_ r).

Record ring_ok (r : SlotRing) : Prop := {
  ring_concurrency : 1 <= sr_max_concurrency r <= 8;
  ring_band : 2 <= slots_per_lane_ r <= 5;
  ring_lanes : vsize (host_ring_offsets_ r) = sr_max_concurrency r /\
               vsize (host_active_slots_ r) = sr_max_concurrency r /\
               vsize (host_standby_slots_ r) = sr_max_concurrency r;
  ring_rows : forall lane, 0 <= lane < sr_max_concurrency r -> exists o, ring_at r lane o;
}.

Lemma lane_base_small r lane :
  ring_ok r -> 0 <= lane < sr_max_concurrency r ->
  lane_base r lane = lane * slots_per_lane_ r /\ 0 <= lane * slots_per_lane_ r <= 35.
Proof.
  intros [] ?. unfold lane_base. assert (0 <= lane * slots_per_lane_ r <= 35) by nia.
  rewrite wrap32_small by (unfold U32_MAX; lia). done.
Qed.

Lemma slot_small a b : 0 <= a <= 35 -> 0 <= b <= 5 -> to_i32 (wrap32 (a + b)) = a + b.
Proof.
  intros. rewrite wrap32_small by (unfold U32_MAX; lia). apply to_i32_small. unfold I32_MAX. lia.
Qed.

(** Writing one lane's selectors. *)
Lemma set_selectors_ok r lane o :
  ring_ok r -> 0 <= lane < sr_max_concurrency r -> 0 <= o < slots_per_lane_ r ->
  let r' := set_selectors lane o (lane * slots_per_lane_ r + o)
              (lane * slots_per_lane_ r + (o + 1) mod slots_per_lane_ r) r in
  ring_ok r' /\ ring_at r' lane o /\
  forall l o', l <> lane -> ring_at r l o' -> ring_at r' l o'.
Proof.
  intros [Hc Hb (Ho & Ha & Hd) Hrows] Hl Hlo r'.
  assert (Hat : ring_at r' lane o).
  { unfold ring_at, r'. cbn. rewrite !vget_vset_eq by lia. done. }
  assert (Hother : forall l o', l <> lane -> ring_at r l o' -> ring_at r' l o').
  { intros l o' Hne. unfold ring_at, r'. cbn. by rewrite !vget_vset_ne by done. }
  split; [|done]. split; unfold r'; cbn; try done.
  - by autorewrite with vecrw.
  - intros l Hl'. destruct (decide (l = lane)) as [->|Hne]; [by exists o|].
    destruct (Hrows l Hl') as [o' Ho']. exists o'. by apply Hother.
Qed.

Lemma sync_ok r : ring_ok r -> ring_ok (sync_slots_to_device r).
Proof. intros []. by split. Qed.

Definition same_geometry (r r' : SlotRing) : Prop :=
  sr_max_concurrency r' = sr_max_concurrency r /\ slots_per_lane_ r' = slots_per_lane_ r /\
  sr_state_slots r' = sr_state_slots r.

Lemma ring_at_inj r lane o o' : ring_at r lane o -> ring_at r lane o' -> o = o'.
Proof. intros (_ & H & _) (_ & H' & _). by simplify_eq. Qed.

Lemma advance_lane_slot_spec r lane step up o :
  ring_ok r -> 0 <= lane < sr_max_concurrency r -> is_u32 step -> ring_at r lane o ->
  exists r', advance_lane_slot lane step up r = (r', Ok tt) /\ ring_ok r' /\ same_geometry r r' /\
    ring_at r' lane (wrap32 (o + step) mod slots_per_lane_ r) /\
    forall l o', l <> lane -> ring_at r l o' -> ring_at r' l o'.
Proof.
  intros Hr Hl Hstep (Ho & Hoff & _). destruct (lane_base_small r lane Hr Hl) as [Hbase Hsmall].
  pose proof (ring_band r Hr) as Hb.
  set (o1 := wrap32 (o + step) mod slots_per_lane_ r).
  assert (Ho1 : 0 <= o1 < slots_per_lane_ r) by (apply Z.mod_pos_bound; lia).
  assert (Ho2 : 0 <= (o1 + 1) mod slots_per_lane_ r < slots_per_lane_ r) by (apply Z.mod_pos_bound; lia).
  destruct (set_selectors_ok r lane o1 Hr Hl Ho1) as (Hok & Hat & Hother).
  set (r' := set_selectors _ _ _ _ _) in *.
  exists (if up then sync_slots_to_device r' else r').
  split; [|split; [destruct up; [by apply sync_ok|done]|]; split; [by destruct up|]; by destruct up].
  unfold advance_lane_slot, mget, mthrow_if, mlift, mput, mbind, M_bind.
  rewrite (proj2 (Z.leb_gt (sr_max_concurrency r) lane)) by lia. cbn [throw_if].
  unfold vat. rewrite Hoff. fold o1. rewrite (wrap32_small (o1 + 1)) by (unfold U32_MAX; lia).
  rewrite Hbase, !slot_small by lia. done.
Qed.

(** Zeroing a lane rewinds it when its slots are inside the allocation, and
    otherwise throws before it touches the selectors. *)
Lemma zero_lane_slots_spec r lane :
  ring_ok r -> 0 <= lane < sr_max_concurrency r ->
  exists r' x, zero_lane_slots lane r = (r', x) /\ ring_ok r' /\ same_geometry r r' /\
    (forall l o', l <> lane -> ring_at r l o' -> ring_at r' l o') /\
    (slots_per_lane_ r * sr_max_concurrency r <= sr_state_slots r -> x = Ok tt /\ ring_at r' lane 0).
Proof.
  intros Hr Hl. destruct (lane_base_small r lane Hr Hl) as [Hbase Hsmall].
  pose proof (ring_band r Hr) as Hb.
  destruct (set_selectors_ok r lane 0 Hr Hl ltac:(lia)) as (Hok & Hat & Hother).
  set (r' := set_selectors _ _ _ _ _) in *.
  assert (Hz : slots_per_lane_ r * sr_max_concurrency r <= sr_state_slots r ->
    rfor (fun _ s => zero_slot r (wrap32 (lane * slots_per_lane_ r + s))) tt
                 (seqZ 0 (slots_per_lane_ r)) = Ok tt).
  { intros Hslots. assert (Hall : Forall (fun s => 0 <= s < slots_per_lane_ r) (seqZ 0 (slots_per_lane_ r)))
      by (apply Forall_seqZ; lia).
    induction Hall as [|s l Hs _ IH]; [done|]. cbn [rfor].
    assert (Hs' : zero_slot r (wrap32 (lane * slots_per_lane_ r + s)) = Ok tt).
    { unfold zero_slot. rewrite wrap32_small by (unfold U32_MAX; lia).
      by rewrite (proj2 (Z.leb_gt (sr_state_slots r) (lane * slots_per_lane_ r + s))) by nia. }
    rewrite Hs'. exact IH. }
  unfold zero_lane_slots, mget, mthrow_if, mlift, mput, mbind, M_bind.
  rewrite (proj2 (Z.leb_gt (sr_max_concurrency r) lane)) by lia. cbn [throw_if]. rewrite Hbase.
  destruct (rfor _ tt _) as [[]|e] eqn:E.
  - exists r', (Ok tt). split; [|split; [done|]; by split].
    unfold r'. rewrite Z.add_0_r, Z.add_0_l.
    rewrite slot_small by (pose proof (Z.mod_pos_bound 1 (slots_per_lane_ r)); lia).
    by rewrite to_i32_small by (unfold I32_MAX; lia).
  - exists r, (Err e). split; [done|]. split; [done|]. split; [by repeat split|]. split; [done|].
    intros Hslots. by specialize (Hz Hslots).
Qed.

Lemma restore_lane_slots_spec r lane o :
  ring_ok r -> 0 <= lane < sr_max_concurrency r -> 0 <= o < slots_per_lane_ r ->
  exists r', restore_lane_slots lane (lane * slots_per_lane_ r + o)
               (lane * slots_per_lane_ r + (o + 1) mod slots_per_lane_ r) r = (r', Ok tt) /\
    ring_ok r' /\ same_geometry r r' /\ ring_at r' lane o.
Proof.
  intros Hr Hl Ho. destruct (lane_base_small r lane Hr Hl) as [Hbase Hsmall].
  pose proof (ring_band r Hr) as Hb. destruct (ring_rows r Hr lane Hl) as (o0 & _ & Hoff & _).
  destruct (set_selectors_ok r lane o Hr Hl Ho) as (Hok & Hat & _).
  set (r' := set_selectors _ _ _ _ _) in *. exists (sync_slots_to_device r').
  split; [|split; [by apply sync_ok|]; by split].
  unfold restore_lane_slots, mget, mthrow_if, mlift, mput, mbind, M_bind.
  rewrite (proj2 (Z.leb_gt (sr_max_concurrency r) lane)) by lia. cbn [throw_if].
  unfold vat. rewrite Hoff, Hbase, slot_small, to_i32_small by (lia || (unfold I32_MAX; lia)).
  rewrite (proj2 (Z.leb_le _ (lane * slots_per_lane_ r + o))) by lia.
  rewrite (proj2 (Z.ltb_lt (lane * slots_per_lane_ r + o) _)) by lia. cbn [andb].
  rewrite wrap32_small by (unfold U32_MAX; lia).
  by replace (lane * slots_per_lane_ r + o - lane * slots_per_lane_ r) with o by lia.
Qed.

(** Duplicate-free lanes in range pass the checks of [commit_slots]; every
    other list is refused. *)
Lemma check_accepted_spec c lanes mask seen :
  c <= 32 -> Forall (fun l => 0 <= l) lanes -> mask_repr mask seen ->
  match rfor (check_accepted c) mask lanes with
  | Ok _ => NoDup lanes /\ Forall (fun l => l < c /\ l ∉ seen) lanes
  | Err _ => ~ (NoDup lanes /\ Forall (fun l => l < c /\ l ∉ seen) lanes)
  end.
Proof.
  intros Hc Hpos. revert mask seen. induction Hpos as [|l lanes Hl _ IH]; intros mask seen Hm; cbn [rfor].
  { split; constructor. }
  assert (Hcheck : check_accepted c mask l =
    (_ ← throw_if (c <=? l) OutOfRange;
     _ ← throw_if (negb (Z.land mask (wrap32 (Z.shiftl 1 l)) =? 0)) InvalidArgument;
     Ok (Z.lor mask (wrap32 (Z.shiftl 1 l))))) by done.
  rewrite Hcheck. clear Hcheck.
  destruct (Z.leb_spec c l) as [Hge|Hlt]; cbn [throw_if mbind result_bind].
  { intros [_ [[? _] _]%Forall_cons]. lia. }
  rewrite (mask_repr_test mask seen l Hm) by lia. rewrite negb_involutive.
  destruct (bool_decide_reflect (l ∈ seen)) as [Hin|Hout]; cbn [throw_if mbind result_bind].
  { intros [_ [[_ ?] _]%Forall_cons]. done. }
  specialize (IH _ _ (mask_repr_set mask seen l Hm ltac:(lia))).
  destruct (rfor _ _ lanes) as [m'|e].
  - destruct IH as [Hnd Hall]. split.
    + apply NoDup_cons_2; [|done]. intros Hin. rewrite Forall_forall in Hall.
      destruct (Hall l Hin) as [_ Hl']. apply Hl'. left.
    + apply Forall_cons_2; [done|]. eapply Forall_impl; [exact Hall|]. cbn. set_solver.
  - intros [Hnd Hall]. apply IH. apply NoDup_cons in Hnd as [Hnotin Hnd].
    apply Forall_cons_1 in Hall as [_ Hall]. split; [done|].
    rewrite Forall_forall in Hall. apply Forall_forall. intros x Hx. specialize (Hall x Hx).
    set_solver.
Qed.

Lemma advance_all_spec lanes r :
  ring_ok r -> NoDup lanes -> Forall (fun l => 0 <= l < sr_max_concurrency r) lanes ->
  exists r', mfor (fun lane => advance_lane_slot lane 1 false) lanes r = (r', Ok tt) /\
    ring_ok r' /\ same_geometry r r' /\
    forall l o, ring_at r l o ->
      ring_at r' l (if bool_decide (l ∈ lanes) then (o + 1) mod slots_per_lane_ r else o).
Proof.
  revert r. induction lanes as [|x lanes IH]; intros r Hr Hnd Hall.
  { exists r. split; [done|]. split; [done|]. split; [by repeat split|]. intros l o Hat.
    by rewrite bool_decide_eq_false_2 by set_solver. }
  apply NoDup_cons in Hnd as [Hx Hnd]. apply Forall_cons_1 in Hall as [Hxl Hall].
  destruct (ring_rows r Hr x Hxl) as [o Ho].
  destruct (advance_lane_slot_spec r x 1 false o Hr Hxl ltac:(unfold is_u32, U32_MAX; lia) Ho)
    as (r1 & Hrun & Hr1 & (Hg1 & Hg2 & Hg3) & Hat1 & Hoth1).
  pose proof (ring_band r Hr). rewrite wrap32_small in Hat1 by (destruct Ho; unfold U32_MAX; lia).
  destruct (IH r1 Hr1 Hnd) as (r2 & Hrun2 & Hr2 & (Hh1 & Hh2 & Hh3) & Hat2); [by rewrite Hg1|].
  exists r2. split; [cbn; unfold mbind, M_bind; by rewrite Hrun|]. split; [done|].
  split; [unfold same_geometry; split; [|split]; congruence|]. intros l o' Hl.
  destruct (decide (l = x)) as [->|Hne].
  - rewrite (ring_at_inj r x o' o Hl Ho). rewrite bool_decide_eq_true_2 by left.
    specialize (Hat2 x _ Hat1). by rewrite bool_decide_eq_false_2 in Hat2.
  - specialize (Hat2 l o' (Hoth1 l o' Hne Hl)). rewrite Hg2 in Hat2.
    replace (bool_decide (l ∈ x :: lanes)) with (bool_decide (l ∈ lanes)); [done|].
    apply bool_decide_ext. set_solver.
Qed.

(** Committing a round advances exactly the accepted lanes; a refused list
    changes nothing. *)
Lemma commit_slots_spec r lanes :
  ring_ok r -> Forall (fun l => 0 <= l) lanes ->
  (NoDup lanes /\ Forall (fun l => l < sr_max_concurrency r) lanes ->
    exists r', commit_slots lanes r = (r', Ok tt) /\ ring_ok r' /\ same_geometry r r' /\
      forall l o, ring_at r l o ->
        ring_at r' l (if bool_decide (l ∈ lanes) then (o + 1) mod slots_per_lane_ r else o)) /\
  (~ (NoDup lanes /\ Forall (fun l => l < sr_max_concurrency r) lanes) ->
    exists e, commit_slots lanes r = (r, Err e)).
Proof.
  intros Hr Hpos. pose proof (ring_concurrency r Hr) as Hc.
  pose proof (check_accepted_spec (sr_max_concurrency r) lanes 0 [] ltac:(lia) Hpos mask_repr_empty) as Hchk.
  unfold commit_slots, mget, mlift, mbind, M_bind. destruct (rfor _ 0 lanes) as [m|e] eqn:E; split.
  - intros [Hnd Hall]. apply advance_all_spec; [done..|]. apply Forall_and. by split.
  - intros H. exfalso. apply H. destruct Hchk as [? Hall]. split; [done|].
    eapply Forall_impl; [exact Hall|]. by intros l [? _].
  - intros [Hnd Hall]. exfalso. apply Hchk. split; [done|]. eapply Forall_impl; [exact Hall|].
    intros l Hl. cbn. split; [done|]. apply not_elem_of_nil.
  - by exists e.
Qed.

(** * Reachable rings *)

(** The machine ranges of a configuration. *)
Definition config_ranges (c : FlashNextRuntimeConfig) : Prop :=
  is_u32 (cf_max_concurrency c) /\ is_u32 (cf_max_context c) /\ is_u32 (cf_state_slot_capacity c) /\
  is_u32 (cf_continuation_capacity c) /\ is_u32 (cf_prefill_chunk c) /\
  is_u32 (cf_speculative_draft_tokens c).

(** The sum of the lanes' slots and the continuation slots fits in 32 bits. *)
Definition slot_sum_fits (c : FlashNextRuntimeConfig) : Prop :=
  flash_next_slots_per_lane (cf_speculative_draft_tokens c) * cf_max_concurrency c +
  cf_continuation_capacity c <= U32_MAX.

Lemma validate_config_Ok c slots :
  config_ranges c -> validate_config_invariants c = Ok slots ->
  let spl := flash_next_slots_per_lane (cf_speculative_draft_tokens c) in
  1 <= cf_max_concurrency c <= 8 /\ 1 <= cf_max_context c <= 262144 /\ 2 <= spl <= 5 /\
  (slot_sum_fits c -> spl * cf_max_concurrency c <= slots).
Proof.
  intros (Hc & Hx & Hs & Hcc & Hp & Hd) H spl. unfold validate_config_invariants in H.
  apply bind_Ok in H as (? & G1%throw_if_Ok & H). apply bind_Ok in H as (? & G2%throw_if_Ok & H).
  apply bind_Ok in H as (? & _ & H). apply bind_Ok in H as (? & G4%throw_if_Ok & H).
  apply bind_Ok in H as (? & _ & H). simp_bool. unfold is_u32 in *.
  assert (Hspl : 2 <= spl <= 5).
  { unfold spl, flash_next_slots_per_lane. destruct (Z.ltb_spec 0 (cf_speculative_draft_tokens c)); [|lia].
    rewrite wrap32_small by (unfold U32_MAX; lia). lia. }
  assert (Hfloor : flash_next_floor_slots (cf_max_concurrency c) (cf_speculative_draft_tokens c)
                   = spl * cf_max_concurrency c).
  { unfold flash_next_floor_slots. fold spl. apply wrap32_small. unfold U32_MAX. nia. }
  rewrite Hfloor in H. split; [lia|]. split; [lia|]. split; [lia|]. unfold slot_sum_fits. fold spl. intros Hfit.
  rewrite wrap32_small in H by (unfold U32_MAX in *; nia).
  destruct (cf_state_slot_capacity c =? 0); [injection H as <-; lia|].
  apply bind_Ok in H as (? & G6%throw_if_Ok & [= <-]). simp_bool. lia.
Qed.

Lemma finalize_counts_Ok c selected p :
  finalize_flash_next_counts c selected = Ok p ->
  exists slots, validate_config_invariants c = Ok slots /\ pl_state_slots p = slots /\
    cf_max_concurrency (pl_config p) = cf_max_concurrency c /\
    cf_speculative_draft_tokens (pl_config p) = cf_speculative_draft_tokens c.
Proof.
  unfold finalize_flash_next_counts. intros H. apply bind_Ok in H as (slots & Hv & H).
  apply bind_Ok in H as (? & _ & H). apply bind_Ok in H as (? & _ & H).
  apply bind_Ok in H as (? & _ & H). apply bind_Ok in H as (? & _ & [= <-]). by exists slots.
Qed.

Lemma vget_map_seqZ {A} (f : Z -> A) n i : 0 <= i < n -> (map f (seqZ 0 n)).[i] = Some (f i).
Proof.
  intros Hi. rewrite vget_map. unfold vget. rewrite (proj2 (Z.leb_le 0 i)) by lia.
  replace (seqZ 0 n !! Z.to_nat i) with (Some i); [done|]. symmetry. apply lookup_seqZ. lia.
Qed.

Lemma make_slot_ring_ok c selected p device :
  config_ranges c -> finalize_flash_next_counts c selected = Ok p -> ring_ok (make_slot_ring p device).
Proof.
  intros Hc (slots & Hv & Hs & Hmc & Hd)%finalize_counts_Ok.
  apply validate_config_Ok in Hv as (Hconc & _ & Hspl & _); [|done].
  unfold flash_next_slots_per_lane in *. unfold make_slot_ring. rewrite Hmc, Hd, Hs.
  set (spl := if 0 <? cf_speculative_draft_tokens c then _ else _) in *.
  split; cbn [sr_max_concurrency sr_state_slots slots_per_lane_ host_ring_offsets_ host_active_slots_
              host_standby_slots_]; try done.
  - unfold vsize. rewrite !length_map, length_seqZ. lia.
  - intros lane Hl. exists 0. unfold ring_at.
    cbn [slots_per_lane_ host_ring_offsets_ host_active_slots_ host_standby_slots_].
    rewrite !vget_map_seqZ by done. change (0 + 1) with 1.
    assert (0 <= lane * spl <= 35) by nia.
    rewrite (wrap32_small (lane * spl)), (Z.mod_small 1 spl), slot_small by (lia || (unfold U32_MAX; lia)).
    rewrite to_i32_small by (unfold I32_MAX; lia). split; [lia|]. split; [done|]. split; f_equal; lia.
Qed.

(** The operations of the executor on the selectors, whether they return or
    throw; [saved] holds the selector pairs read at the start of a prefill
    chunk, which an abort writes back. *)
Inductive ring_reachable (r0 : SlotRing) : SlotRing -> list (Z * Z * Z) -> Prop :=
  | reach_start : ring_reachable r0 r0 []
  | reach_advance r saved lane step up r' x :
      ring_reachable r0 r saved -> 0 <= lane -> is_u32 step ->
      advance_lane_slot lane step up r = (r', x) -> ring_reachable r0 r' saved
  | reach_commit r saved lanes r' x :
      ring_reachable r0 r saved -> Forall (fun l => 0 <= l) lanes ->
      commit_slots lanes r = (r', x) -> ring_reachable r0 r' saved
  | reach_zero r saved lane r' x :
      ring_reachable r0 r saved -> 0 <= lane ->
      zero_lane_slots lane r = (r', x) -> ring_reachable r0 r' saved
  | reach_save r saved lane a d :
      ring_reachable r0 r saved -> current_source_slot r lane = Ok a ->
      current_destination_slot r lane = Ok d -> ring_reachable r0 r ((lane, a, d) :: saved)
  | reach_restore r saved lane a d r' x :
      ring_reachable r0 r saved -> (lane, a, d) ∈ saved ->
      restore_lane_slots lane a d r = (r', x) -> ring_reachable r0 r' saved
  | reach_upload r saved :
      ring_reachable r0 r saved -> ring_reachable r0 (sync_slots_to_device r) saved.

(** A saved pair is a pair of neighbours in its lane's band. *)
Definition saved_ok (r : SlotRing) (s : Z * Z * Z) : Prop :=
  let '(lane, a, d) := s in
  0 <= lane < sr_max_concurrency r /\
  exists o, 0 <= o < slots_per_lane_ r /\ a = lane * slots_per_lane_ r + o /\
    d = lane * slots_per_lane_ r + (o + 1) mod slots_per_lane_ r.

Lemma saved_ok_geometry r r' saved :
  same_geometry r r' -> Forall (saved_ok r) saved -> Forall (saved_ok r') saved.
Proof.
  intros (Hc & Hb & _) H. eapply Forall_impl; [exact H|]. intros [[lane a] d].
  unfold saved_ok. by rewrite Hc, Hb.
Qed.

Lemma ring_step_ok r0 r r' saved :
  same_geometry r0 r -> Forall (saved_ok r) saved -> ring_ok r' -> same_geometry r r' ->
  ring_ok r' /\ same_geometry r0 r' /\ Forall (saved_ok r') saved.
Proof.
  intros (?&?&?) Hs Hr Hg. split; [done|]. split; [|by eapply saved_ok_geometry].
  destruct Hg as (?&?&?). unfold same_geometry. split; [|split]; congruence.
Qed.

Lemma out_of_range_throws {S A} (s : S) c lane (k : unit -> M S A) :
  c <= lane -> (mthrow_if (c <=? lane) OutOfRange ≫= k) s = (s, Err OutOfRange).
Proof. intros H. unfold mthrow_if, mlift, mbind, M_bind. by rewrite (proj2 (Z.leb_le c lane)). Qed.

Lemma ring_reachable_ok r0 r saved :
  ring_ok r0 -> ring_reachable r0 r saved ->
  ring_ok r /\ same_geometry r0 r /\ Forall (saved_ok r) saved.
Proof.
  intros H0. induction 1 as [|r saved lane step up r' x _ IH Hl Hst E|r saved lanes r' x _ IH Hl E
    |r saved lane r' x _ IH Hl E|r saved lane a d _ IH Ha Hd|r saved lane a d r' x _ IH Hin E|r saved _ IH].
  - split; [done|]. split; [by repeat split|constructor].
  - destruct IH as (Hr & Hg & Hs). destruct (Z.lt_ge_cases lane (sr_max_concurrency r)).
    + destruct (ring_rows r Hr lane) as [o Ho]; [lia|].
      destruct (advance_lane_slot_spec r lane step up o Hr) as (r2 & E2 & Hr2 & Hg2 & _); [lia|done..|].
      rewrite E2 in E. injection E as <- <-. by apply (ring_step_ok r0 r).
    + unfold advance_lane_slot in E. change ((mget ≫= ?k) r) with (k r r) in E. cbv beta in E.
      rewrite out_of_range_throws in E by lia. injection E as <- <-. done.
  - destruct IH as (Hr & Hg & Hs).
    destruct (commit_slots_spec r lanes Hr Hl) as [Hgood Hbad].
    destruct (decide (NoDup lanes /\ Forall (fun l => l < sr_max_concurrency r) lanes)) as [H|H].
    + destruct (Hgood H) as (r2 & E2 & Hr2 & Hg2 & _). rewrite E2 in E. injection E as <- <-.
      by apply (ring_step_ok r0 r).
    + destruct (Hbad H) as (e & E2). rewrite E2 in E. by injection E as <- <-.
  - destruct IH as (Hr & Hg & Hs). destruct (Z.lt_ge_cases lane (sr_max_concurrency r)).
    + destruct (zero_lane_slots_spec r lane Hr) as (r2 & x2 & E2 & Hr2 & Hg2 & _); [lia|].
      rewrite E2 in E. injection E as <- <-. by apply (ring_step_ok r0 r).
    + unfold zero_lane_slots in E. change ((mget ≫= ?k) r) with (k r r) in E. cbv beta in E.
      rewrite out_of_range_throws in E by lia. injection E as <- <-. done.
  - destruct IH as (Hr & Hg & Hs). split; [done|]. split; [done|]. apply Forall_cons_2; [|done].
    unfold current_source_slot in Ha. unfold current_destination_slot in Hd.
    apply bind_Ok in Ha as (_ & G%throw_if_Ok & Ha%vat_Ok). apply bind_Ok in Hd as (_ & _ & Hd%vat_Ok).
    simp_bool.
    destruct (vget_Some_bounds _ _ _ Ha). unfold saved_ok. split; [lia|].
    destruct (ring_rows r Hr lane) as (o & Ho & _ & Ha' & Hd'); [lia|]. exists o. by simplify_eq.
  - destruct IH as (Hr & Hg & Hs). rewrite Forall_forall in Hs.
    destruct (Hs _ Hin) as (Hl & o & Ho & -> & ->). rewrite <- Forall_forall in Hs.
    destruct (restore_lane_slots_spec r lane o Hr Hl Ho) as (r2 & E2 & Hr2 & Hg2 & _).
    rewrite E2 in E. injection E as <- <-. by apply (ring_step_ok r0 r).
  - destruct IH as (Hr & Hg & Hs). split; [by apply sync_ok|]. done.
Qed.

Lemma band_disjoint a b x y spl :
  0 <= x < spl -> 0 <= y < spl -> a <> b -> a * spl + x <> b * spl + y.
Proof. intros Hx Hy Hne Heq. apply Hne. nia. Qed.

(** C29. Recurrent state never aliases: for every accepted configuration, in
    every state the slot operations reach (rounds committed or refused, lanes
    zeroed, aborted prefill chunks rolled back to saved selectors), each lane
    reads and writes two different slots of its own band, and the slots of
    different lanes are different, so no round overwrites state that another
    lane, or the same lane's next round, still reads; the ring positions 0 and
    1 of a lane are the slot it reads and the slot it writes. The slots lie in
    the allocation whenever the sum of the lanes' slots and the continuation
    slots fits in 32 bits, which the configuration check does not test
    ([wrapped_slot_sum_is_accepted] below). *)
Theorem slots_never_alias c selected p device r saved :
  config_ranges c -> finalize_flash_next_counts c selected = Ok p ->
  ring_reachable (make_slot_ring p device) r saved ->
  let spl := flash_next_slots_per_lane (cf_speculative_draft_tokens c) in
  (slot_sum_fits c -> spl * cf_max_concurrency c <= pl_state_slots p) /\
  forall lane, 0 <= lane < cf_max_concurrency c ->
    exists s d, current_source_slot r lane = Ok s /\ current_destination_slot r lane = Ok d /\
      lane_ring_slot r lane 0 = Ok s /\ lane_ring_slot r lane 1 = Ok d /\
      s <> d /\ lane * spl <= s < (lane + 1) * spl /\ lane * spl <= d < (lane + 1) * spl /\
      (slot_sum_fits c -> s < pl_state_slots p /\ d < pl_state_slots p) /\
      forall other s' d', other <> lane ->
        current_source_slot r other = Ok s' -> current_destination_slot r other = Ok d' ->
        0 <= other -> s <> s' /\ s <> d' /\ d <> s' /\ d <> d'.
Proof.
  intros Hc Hp Hreach spl. pose proof (make_slot_ring_ok c selected p device Hc Hp) as H0.
  apply finalize_counts_Ok in Hp as (slots & Hv & -> & Hmc & Hdr).
  apply validate_config_Ok in Hv as (_ & _ & _ & Hsl); [|done]. fold spl in Hsl. split; [done|]. intros lane Hl.
  destruct (ring_reachable_ok _ _ _ H0 Hreach) as (Hr & (Hgc & Hgb & _) & _).
  cbn [make_slot_ring sr_max_concurrency slots_per_lane_] in Hgc, Hgb. rewrite Hmc in Hgc.
  rewrite Hdr in Hgb. change (slots_per_lane_ r = spl) in Hgb.
  assert (Hread : forall l, 0 <= l < cf_max_concurrency c -> exists o, 0 <= o < slots_per_lane_ r /\
            (host_ring_offsets_ r).[l] = Some o /\
            current_source_slot r l = Ok (l * slots_per_lane_ r + o) /\
            current_destination_slot r l = Ok (l * slots_per_lane_ r + (o + 1) mod slots_per_lane_ r)).
  { intros l Hll. destruct (ring_rows r Hr l) as (o & Ho & Hoff & Ha & Hd); [by rewrite Hgc|].
    exists o. unfold current_source_slot, current_destination_slot, vat.
    rewrite (proj2 (Z.leb_gt (sr_max_concurrency r) l)) by lia. cbn [throw_if mbind result_bind].
    by rewrite Ha, Hd. }
  destruct (Hread lane Hl) as (o & Ho & Hoff & Hs & Hd). pose proof (ring_band r Hr) as Hb.
  pose proof (Z.mod_pos_bound (o + 1) (slots_per_lane_ r) ltac:(lia)) as Ho1.
  destruct (lane_base_small r lane Hr) as [Hbase Hsmall]; [by rewrite Hgc|].
  assert (Hring : forall k, 0 <= k <= 1 ->
            lane_ring_slot r lane k = Ok (lane * slots_per_lane_ r + (o + k) mod slots_per_lane_ r)).
  { intros k Hk. unfold lane_ring_slot, vat.
    rewrite (proj2 (Z.leb_gt (sr_max_concurrency r) lane)) by lia. cbn [throw_if mbind result_bind].
    rewrite Hoff. cbn [mbind result_bind]. rewrite Hbase, (wrap32_small (o + k)) by (unfold U32_MAX; lia).
    pose proof (Z.mod_pos_bound (o + k) (slots_per_lane_ r) ltac:(lia)). by rewrite slot_small by lia. }
  exists (lane * slots_per_lane_ r + o), (lane * slots_per_lane_ r + (o + 1) mod slots_per_lane_ r).
  split; [done|]. split; [done|].
  split; [by rewrite Hring, Z.add_0_r, Z.mod_small by lia|]. split; [by rewrite Hring by lia|].
  split.
  { intros Heq. assert (Hmod : (o + 1) mod slots_per_lane_ r = o) by lia.
    destruct (Z.eq_dec (o + 1) (slots_per_lane_ r)) as [E|E].
    - rewrite E, Z.mod_same in Hmod by lia. lia.
    - rewrite Z.mod_small in Hmod by lia. lia. }
  rewrite Hgb in *. split; [nia|]. split; [nia|]. split; [intros Hfit%Hsl; nia|]. intros other s' d' Hne Hs' Hd' Hpos.
  assert (Hol : 0 <= other < cf_max_concurrency c).
  { unfold current_source_slot in Hs'. apply bind_Ok in Hs' as (_ & G%throw_if_Ok & _). simp_bool. lia. }
  destruct (Hread other Hol) as (o' & Ho' & _ & Hs2 & Hd2).
  rewrite Hs2 in Hs'. rewrite Hd2 in Hd'. injection Hs' as <-. injection Hd' as <-.
  pose proof (Z.mod_pos_bound (o' + 1) spl ltac:(lia)).
  split; [|split; [|split]]; (apply band_disjoint; [lia|lia|congruence]).
Qed.

(** Two lanes of two slots, 512 tokens of context, two page groups. *)
Definition demo_config : FlashNextRuntimeConfig := mkConfig 2 512 0 1 128 0 BFloat16.

Definition demo_plan : FlashNextRuntimePlan :=
  match finalize_flash_next_counts demo_config 3 with
  | Ok p => p
  | Err _ => mkPlan demo_config 0 0 0 0 0 0 0 0 0
  end.

Lemma slots_never_alias_witness :
  let r := fst (advance_lane_slot 1 1 false (make_slot_ring demo_plan [])) in
  exists s d, current_source_slot r 1 = Ok s /\ current_destination_slot r 1 = Ok d /\ s <> d /\
    s < pl_state_slots demo_plan /\ d < pl_state_slots demo_plan.
Proof.
  intros r. destruct (slots_never_alias demo_config 3 demo_plan [] r []) as [_ H].
  - vm_compute. repeat split; discriminate.
  - vm_compute. reflexivity.
  - eapply (reach_advance _ _ [] 1 1 false r (snd (advance_lane_slot 1 1 false (make_slot_ring demo_plan [])))).
    + apply reach_start.
    + lia.
    + vm_compute. split; discriminate.
    + reflexivity.
  - destruct (H 1) as (s & d & H1 & H2 & _ & _ & H3 & _ & _ & H4 & _).
    + vm_compute. split; [discriminate|reflexivity].
    + exists s, d. split; [exact H1|]. split; [exact H2|]. split; [exact H3|].
      apply H4. vm_compute. discriminate.
Defined.

(** [min_state_slots] wraps in 32 bits: with two lanes and [2^32 - 4]
    continuation slots the configuration is accepted with no slots at all. *)
Example wrapped_slot_sum_is_accepted :
  let c := mkConfig 2 512 0 (2 ^ 32 - 4) 128 0 BFloat16 in
  config_ranges c /\ (p ← finalize_flash_next_counts c 3; Ok (pl_state_slots p)) = Ok 0.
Proof. split; [vm_compute; repeat split; discriminate|vm_compute; reflexivity]. Qed.
