(* ===== verification/LaneLedger.v ===== *)
(** The lane ledger of the Flash-Next target
    (src/src/targets/qwen3_8_flash_next/impl/lane_ledger.{h,cpp}): lanes with
    their committed frontier and token history, the reference-counted physical
    page groups they map, the host block tables, and the transaction that a
    decode round, a speculative round or a prefill chunk opens and commits,
    aborts or rolls back. *)

From S2P Require Import Prelude Ple SlotRing.

(** * Data *)

(** [owner] is an address, 0 for a null pointer. *)
Record LaneHandle : Type := mkLaneHandle { lh_owner : Z; lh_lane : Z; lh_epoch : Z }.

#[global] Instance LaneHandle_eq_dec : EqDecision LaneHandle.
Proof. solve_decision. Defined.

(** A step request; the sampling configuration, the positions and the custom
    embedding pass through the ledger untouched. *)
Record LaneStepRequest : Type := mkStep {
  rq_handle : LaneHandle;
  rq_token_id : Z;
  rq_token_index : Z;
}.

Inductive LaneState : Type := Free | Active | Pending.

#[global] Instance LaneState_eq_dec : EqDecision LaneState.
Proof. solve_decision. Defined.

Record LaneInfo : Type := mkLane {
  li_owner : Z;
  li_state : LaneState;
  li_epoch : Z;
  li_committed_frontier : Z;
  li_history : PleTokenHistory;
}.

(** The page groups: the lanes' groups in logical order, the free list (the
    vector's back is the list's head), the reference counts and the two host
    block tables. *)
Record GroupStore : Type := mkStore {
  lane_physical_groups_ : list (list Z);
  free_physical_groups_ : list Z;
  physical_group_refcounts_ : list Z;
  host_attention_table_ : list Z;
  host_indexer_table_ : list Z;
  block_tables_dirty_ : bool;
}.

(** The transaction state. *)
Record Transaction : Type := mkTx {
  current_transaction_id_ : Z;
  has_pending_batch_ : bool;
  is_pending_prefill_chunk_ : bool;
  pending_requests_ : list LaneStepRequest;
  pending_lane_indices_ : list Z;
  previous_group_counts_ : list Z;
  pending_prefill_lane_ : Z;
  pending_prefill_tokens_ : list Z;
  pending_prefill_first_token_index_ : Z;
}.

Record FlashNextLaneLedger : Type := mkLedger {
  g_this : Z;
  plan_ : FlashNextRuntimePlan;
  lanes_ : list LaneInfo;
  g_store : GroupStore;
  g_tx : Transaction;
}.

Record PreparedRound : Type := mkPrepared {
  transaction_id : Z;
  max_active_blocks : Z;
  ple_rows : list (list Z);
}.

Definition max_concurrency (l : FlashNextLaneLedger) : Z := cf_max_concurrency (pl_config (plan_ l)).
Definition max_context (l : FlashNextLaneLedger) : Z := cf_max_context (pl_config (plan_ l)).

Definition set_lanes (lanes : list LaneInfo) (l : FlashNextLaneLedger) : FlashNextLaneLedger :=
  mkLedger (g_this l) (plan_ l) lanes (g_store l) (g_tx l).
Definition set_store (s : GroupStore) (l : FlashNextLaneLedger) : FlashNextLaneLedger :=
  mkLedger (g_this l) (plan_ l) (lanes_ l) s (g_tx l).
Definition set_tx (t : Transaction) (l : FlashNextLaneLedger) : FlashNextLaneLedger :=
  mkLedger (g_this l) (plan_ l) (lanes_ l) (g_store l) t.

Definition set_previous_counts (counts : list Z) (t : Transaction) : Transaction :=
  mkTx (current_transaction_id_ t) (has_pending_batch_ t) (is_pending_prefill_chunk_ t)
    (pending_requests_ t) (pending_lane_indices_ t) counts (pending_prefill_lane_ t)
    (pending_prefill_tokens_ t) (pending_prefill_first_token_index_ t).

(** [pending_requests_.clear()], [pending_lane_indices_.clear()] and
    [has_pending_batch_ = false]: how a round's transaction closes. *)
Definition close_round (t : Transaction) : Transaction :=
  mkTx (current_transaction_id_ t) false (is_pending_prefill_chunk_ t) [] []
    (previous_group_counts_ t) (pending_prefill_lane_ t) (pending_prefill_tokens_ t)
    (pending_prefill_first_token_index_ t).

(** How a prefill chunk's transaction closes. *)
Definition close_prefill (t : Transaction) : Transaction :=
  mkTx (current_transaction_id_ t) false false (pending_requests_ t) (pending_lane_indices_ t)
    (previous_group_counts_ t) (pending_prefill_lane_ t) [] (pending_prefill_first_token_index_ t).

(** * Page groups *)
Definition set_groups (groups : list (list Z)) (s : GroupStore) : GroupStore :=
  mkStore groups (free_physical_groups_ s) (physical_group_refcounts_ s)
    (host_attention_table_ s) (host_indexer_table_ s) (block_tables_dirty_ s).
Definition set_counts (free refs : list Z) (s : GroupStore) : GroupStore :=
  mkStore (lane_physical_groups_ s) free refs
    (host_attention_table_ s) (host_indexer_table_ s) (block_tables_dirty_ s).
Definition set_tables (att idx : list Z) (s : GroupStore) : GroupStore :=
  mkStore (lane_physical_groups_ s) (free_physical_groups_ s) (physical_group_refcounts_ s)
    att idx true.

(** Drop one reference to a group; the group is free when none is left. *)
Definition drop_reference (s : GroupStore) (g : Z) : GroupStore :=
  match (physical_group_refcounts_ s).[g] with
  | None => s
  | Some n =>
      let n' := if 0 <? n then n - 1 else n in
      set_counts (if n' =? 0 then g :: free_physical_groups_ s else free_physical_groups_ s)
        (physical_group_refcounts_ s).[g <- n'] s
  end.

Definition add_reference (s : GroupStore) (g : Z) : GroupStore :=
  match (physical_group_refcounts_ s).[g] with
  | None => s
  | Some n => set_counts (free_physical_groups_ s) (physical_group_refcounts_ s).[g <- wrap32 (n + 1)] s
  end.

(** The block-table entries of one logical group: [page s] is the logical
    attention page of its quarter [s]; a quarter or a group beyond the tables
    has no entry. *)
Definition write_entries (p : FlashNextRuntimePlan) (lane log_group : Z) (page : Z -> Z)
    (att_value : Z -> Z) (idx_value : Z) (s : GroupStore) : GroupStore :=
  let a := pl_attention_logical_pages p in
  let i := pl_indexer_logical_pages p in
  let put t q := if page q <? a then t.[lane * a + page q <- att_value q] else t in
  set_tables (fold_left put [0; 1; 2; 3] (host_attention_table_ s))
    (if log_group <? i then (host_indexer_table_ s).[lane * i + log_group <- idx_value]
     else host_indexer_table_ s) s.

Definition attention_page (log_group q : Z) : Z := wrap32 (log_group * 4 + q).
Definition physical_page (g q : Z) : Z := to_i32 (wrap32 (g * 4 + q)).

Definition map_group (p : FlashNextRuntimePlan) (lane log_group g : Z) : GroupStore -> GroupStore :=
  write_entries p lane log_group (attention_page log_group) (physical_page g) (to_i32 g).

Definition unmap_group (p : FlashNextRuntimePlan) (lane log_group : Z) : GroupStore -> GroupStore :=
  write_entries p lane log_group (attention_page log_group) (fun _ => -1) (-1).

(** [while (owned_groups.size() < req_groups)]: [n] more groups for the lane,
    each from the back of the free list. *)
Fixpoint grow_lane (p : FlashNextRuntimePlan) (lane : Z) (n : nat) (s : GroupStore)
    : result GroupStore :=
  match n with
  | O => Ok s
  | S n' =>
      owned ← vat (lane_physical_groups_ s) lane;
      match free_physical_groups_ s with
      | [] => Err Undefined
      | g :: free =>
          let refs := physical_group_refcounts_ s in
          let s1 := set_counts free (if g <? vsize refs then refs.[g <- 1] else refs) s in
          let log_group := wrap32 (vsize owned) in
          let s2 := set_groups (lane_physical_groups_ s).[lane <- owned ++ [g]] s1 in
          grow_lane p lane n' (map_group p lane log_group g s2)
      end
  end.

(** [while (owned.size() > prev_count)]: give back the last [n] groups. *)
Fixpoint shrink_lane (p : FlashNextRuntimePlan) (lane : Z) (n : nat) (s : GroupStore)
    : result GroupStore :=
  match n with
  | O => Ok s
  | S n' =>
      owned ← vat (lane_physical_groups_ s) lane;
      match last owned with
      | None => Err Undefined
      | Some g =>
          let log_group := wrap32 (vsize owned - 1) in
          let s1 := drop_reference (unmap_group p lane log_group s) g in
          shrink_lane p lane n'
            (set_groups (lane_physical_groups_ s1).[lane <- take (length owned - 1) owned] s1)
      end
  end.

(** [for (p = 0; p < logical_pages; ++p) table[lane * logical_pages + p] = -1] *)
Definition clear_row (lane pages : Z) (table : list Z) : list Z :=
  fold_left (fun t q => t.[lane * pages + q <- -1]) (seqZ 0 pages) table.

(** * Construction and lanes *)
Definition empty_lane : LaneInfo := mkLane 0 Free 0 0 empty_history.

Definition make_ledger (this : Z) (p : FlashNextRuntimePlan) : FlashNextLaneLedger :=
  let c := Z.to_nat (cf_max_concurrency (pl_config p)) in
  let n := pl_main_page_groups p in
  mkLedger this p (replicate c empty_lane)
    (mkStore (replicate c []) (seqZ 0 n) (replicate (Z.to_nat n) 0)
       (replicate (Z.to_nat (pl_attention_logical_pages p * cf_max_concurrency (pl_config p))) (-1))
       (replicate (Z.to_nat (pl_indexer_logical_pages p * cf_max_concurrency (pl_config p))) (-1))
       false)
    (mkTx 0 false false [] [] (replicate c 0) 0 [] 0).

Definition is_free (i : LaneInfo) : bool := bool_decide (li_state i = Free).

Definition set_state (st : LaneState) (i : LaneInfo) : LaneInfo :=
  mkLane (li_owner i) st (li_epoch i) (li_committed_frontier i) (li_history i).

Definition allocate_lane (owner : Z) : M FlashNextLaneLedger LaneHandle :=
  l ← mget;
  let actual_owner := if owner =? 0 then g_this l else owner in
  match find_index is_free (lanes_ l) with
  | None => mthrow RuntimeError
  | Some (k, info) =>
      let lane := Z.of_nat k in
      let epoch := wrap64 (li_epoch info + 1) in
      let s := g_store l in
      _ ← mput (mkLedger (g_this l) (plan_ l)
            (lanes_ l).[lane <- mkLane actual_owner Active epoch 0 empty_history]
            (set_groups (lane_physical_groups_ s).[lane <- []] s)
            (set_previous_counts (previous_group_counts_ (g_tx l)).[lane <- 0] (g_tx l)));
      mret (mkLaneHandle actual_owner lane epoch)
  end.

(** The checks of [validate_handle]; the accessors share all but the last. *)
Definition lane_of_handle (l : FlashNextLaneLedger) (h : LaneHandle) : result LaneInfo :=
  _ ← throw_if (max_concurrency l <=? lh_lane h) InvalidArgument;
  info ← vat (lanes_ l) (lh_lane h);
  _ ← throw_if (negb (li_owner info =? lh_owner h)) InvalidArgument;
  _ ← throw_if (negb (li_epoch info =? lh_epoch h)) InvalidArgument;
  Ok info.

Definition validate_handle (l : FlashNextLaneLedger) (h : LaneHandle) (expected : LaneState)
    : result LaneInfo :=
  info ← lane_of_handle l h;
  _ ← throw_if (negb (bool_decide (li_state info = expected))) InvalidArgument;
  Ok info.

Definition live_lane (l : FlashNextLaneLedger) (h : LaneHandle) : result LaneInfo :=
  info ← lane_of_handle l h;
  _ ← throw_if (is_free info) LogicError;
  Ok info.

Definition committed_frontier (l : FlashNextLaneLedger) (h : LaneHandle) : result Z :=
  info ← live_lane l h; Ok (li_committed_frontier info).

Definition lane_history (l : FlashNextLaneLedger) (h : LaneHandle) : result PleTokenHistory :=
  info ← live_lane l h; Ok (li_history info).

Definition lane_physical_groups (l : FlashNextLaneLedger) (h : LaneHandle) : result (list Z) :=
  _ ← live_lane l h; vat (lane_physical_groups_ (g_store l)) (lh_lane h).

Definition group_refcount (l : FlashNextLaneLedger) (group : Z) : Z :=
  default 0 (physical_group_refcounts_ (g_store l)).[group].

Definition active_lanes_count (l : FlashNextLaneLedger) : Z :=
  vsize (filter (fun i => is_free i = false) (lanes_ l)).

Definition release_lane (h : LaneHandle) : M FlashNextLaneLedger unit :=
  l ← mget;
  info ← mlift (validate_handle l h Active);
  let lane := lh_lane h in
  let p := plan_ l in
  owned ← mlift (vat (lane_physical_groups_ (g_store l)) lane);
  let s := fold_left drop_reference owned (g_store l) in
  mput (mkLedger (g_this l) p
          (lanes_ l).[lane <- mkLane 0 Free (wrap64 (li_epoch info + 1)) 0 empty_history]
          (set_tables (clear_row lane (pl_attention_logical_pages p) (host_attention_table_ s))
             (clear_row lane (pl_indexer_logical_pages p) (host_indexer_table_ s))
             (set_groups (lane_physical_groups_ s).[lane <- []] s))
          (set_previous_counts (previous_group_counts_ (g_tx l)).[lane <- 0] (g_tx l))).

Definition take_lane_physical_groups (h : LaneHandle) : M FlashNextLaneLedger (list Z) :=
  l ← mget;
  _ ← mlift (validate_handle l h Active);
  let lane := lh_lane h in
  groups ← mlift (vat (lane_physical_groups_ (g_store l)) lane);
  _ ← mput (mkLedger (g_this l) (plan_ l) (lanes_ l)
              (set_groups (lane_physical_groups_ (g_store l)).[lane <- []] (g_store l))
              (set_previous_counts (previous_group_counts_ (g_tx l)).[lane <- 0] (g_tx l)));
  mret groups.

Definition acquire_physical_groups (groups : list Z) : M FlashNextLaneLedger unit :=
  mmodify (fun l => set_store (fold_left add_reference groups (g_store l)) l).

Definition release_physical_groups (groups : list Z) : M FlashNextLaneLedger unit :=
  mmodify (fun l => set_store (fold_left drop_reference groups (g_store l)) l).

(** The entries of attached groups; [g_idx] is a [std::size_t] here. *)
Definition attach_group (p : FlashNextRuntimePlan) (lane : Z) (s : GroupStore) (entry : Z * Z)
    : GroupStore :=
  let '(g_idx, g) := entry in
  write_entries p lane g_idx (fun q => g_idx * 4 + q) (physical_page g) (to_i32 g) s.

Definition attach_physical_groups (h : LaneHandle) (groups : list Z) (frontier : Z)
    (history : PleTokenHistory) : M FlashNextLaneLedger unit :=
  l ← mget;
  info ← mlift (validate_handle l h Active);
  let lane := lh_lane h in
  let s := set_groups (lane_physical_groups_ (g_store l)).[lane <- groups] (g_store l) in
  let s := fold_left add_reference groups s in
  let s := fold_left (attach_group (plan_ l) lane) (zip (seqZ 0 (vsize groups)) groups) s in
  mput (mkLedger (g_this l) (plan_ l)
          (lanes_ l).[lane <- mkLane (li_owner info) (li_state info) (li_epoch info) frontier history]
          (set_tables (host_attention_table_ s) (host_indexer_table_ s) s)
          (set_previous_counts (previous_group_counts_ (g_tx l)).[lane <- vsize groups] (g_tx l))).

(** * Opening a transaction *)

(** [static_cast<std::size_t>(token_index / kMainPageGroupTokens) + 1] *)
Definition groups_for (token_index : Z) : Z := Z.quot token_index kMainPageGroupTokens + 1.

(** What the dry run of [begin_round] accumulates. *)
Record DryRun : Type := mkDry {
  dr_lane_mask : Z;
  dr_max_active_blocks : Z;
  dr_total_groups_needed : Z;
  dr_rows : list (Z * Z);  (** lane and required groups of each request *)
  dr_ple : list (list Z);
}.

Definition dry_run_request (l : FlashNextLaneLedger) (meta : PleIndexMetadata) (d : DryRun)
    (req : LaneStepRequest) : result DryRun :=
  info ← validate_handle l (rq_handle req) Active;
  let lane := lh_lane (rq_handle req) in
  let bit := wrap32 (Z.shiftl 1 lane) in
  _ ← throw_if (negb (Z.land (dr_lane_mask d) bit =? 0)) InvalidArgument;
  _ ← throw_if (negb (rq_token_index req =? li_committed_frontier info)) InvalidArgument;
  _ ← throw_if ((rq_token_index req <? 0) || (max_context l <=? wrap32 (rq_token_index req))) OutOfRange;
  rows ← ple_indices meta (li_history info) (rq_token_id req);
  let req_groups := groups_for (rq_token_index req) in
  owned ← vat (lane_physical_groups_ (g_store l)) lane;
  let needed := if vsize owned <? req_groups then req_groups - vsize owned else 0 in
  Ok (mkDry (Z.lor (dr_lane_mask d) bit)
        (Z.max (dr_max_active_blocks d) (Z.quot (rq_token_index req + 1) 4))
        (dr_total_groups_needed d + needed)
        (dr_rows d ++ [(lane, req_groups)]) (dr_ple d ++ [rows])).

(** Phase 2: remember the lane's group count and grow it. *)
Definition assign_groups (row : Z * Z) : M FlashNextLaneLedger unit :=
  let '(lane, req_groups) := row in
  l ← mget;
  owned ← mlift (vat (lane_physical_groups_ (g_store l)) lane);
  _ ← mput (set_tx (set_previous_counts (previous_group_counts_ (g_tx l)).[lane <- vsize owned] (g_tx l)) l);
  s ← mlift (grow_lane (plan_ l) lane (Z.to_nat (req_groups - vsize owned)) (g_store l));
  mmodify (set_store s).

Definition mark_state (st : LaneState) (lanes : list LaneInfo) (lane : Z) : list LaneInfo :=
  match lanes.[lane] with
  | Some info => lanes.[lane <- set_state st info]
  | None => lanes
  end.

Definition begin_round (requests : list LaneStepRequest) (meta : PleIndexMetadata)
    : M FlashNextLaneLedger PreparedRound :=
  l ← mget;
  _ ← mthrow_if (has_pending_batch_ (g_tx l)) LogicError;
  let batch_size := wrap32 (vsize requests) in
  _ ← mthrow_if ((batch_size <? 1) || (max_concurrency l <? batch_size)) InvalidArgument;
  _ ← mthrow_if (current_transaction_id_ (g_tx l) =? U64_MAX) OverflowError;
  d ← mlift (rfor (dry_run_request l meta) (mkDry 0 0 0 [] []) (take (Z.to_nat batch_size) requests));
  _ ← mthrow_if (vsize (free_physical_groups_ (g_store l)) <? dr_total_groups_needed d) RuntimeError;
  _ ← mfor assign_groups (dr_rows d);
  l' ← mget;
  let t := g_tx l' in
  let lanes := map fst (dr_rows d) in
  let tx_id := current_transaction_id_ t + 1 in
  _ ← mput (mkLedger (g_this l') (plan_ l') (fold_left (mark_state Pending) lanes (lanes_ l')) (g_store l')
              (mkTx tx_id true (is_pending_prefill_chunk_ t) requests lanes (previous_group_counts_ t)
                 (pending_prefill_lane_ t) (pending_prefill_tokens_ t)
                 (pending_prefill_first_token_index_ t)));
  mret (mkPrepared tx_id (dr_max_active_blocks d) (dr_ple d)).

(** The growth that a prefill chunk and a reservation for draft tokens share:
    refused before any group is taken if the free list is too short. *)
Definition extend_lane (lane req_groups : Z) : M FlashNextLaneLedger unit :=
  l ← mget;
  owned ← mlift (vat (lane_physical_groups_ (g_store l)) lane);
  if vsize owned <? req_groups then
    let needed := req_groups - vsize owned in
    _ ← mthrow_if (vsize (free_physical_groups_ (g_store l)) <? needed) RuntimeError;
    s ← mlift (grow_lane (plan_ l) lane (Z.to_nat needed) (g_store l));
    mmodify (set_store s)
  else mret tt.

(** [previous_group_counts_[lane] = lane_physical_groups_[lane].size()] *)
Definition remember_groups (lane : Z) : M FlashNextLaneLedger unit :=
  l ← mget;
  owned ← mlift (vat (lane_physical_groups_ (g_store l)) lane);
  mput (set_tx (set_previous_counts (previous_group_counts_ (g_tx l)).[lane <- vsize owned] (g_tx l)) l).

Definition begin_prefill_chunk (h : LaneHandle) (token_ids : list Z) (first_token_index : Z)
    : M FlashNextLaneLedger PreparedRound :=
  l ← mget;
  _ ← mthrow_if (has_pending_batch_ (g_tx l)) LogicError;
  info ← mlift (validate_handle l h Active);
  let num_tokens := wrap32 (vsize token_ids) in
  _ ← mthrow_if (num_tokens =? 0) InvalidArgument;
  let lane := lh_lane h in
  _ ← mthrow_if (negb (first_token_index =? li_committed_frontier info)) InvalidArgument;
  _ ← mthrow_if ((first_token_index <? 0) || (max_context l <? first_token_index + num_tokens)) OutOfRange;
  _ ← mthrow_if (current_transaction_id_ (g_tx l) =? U64_MAX) OverflowError;
  let last_token_index := first_token_index + to_i32 num_tokens - 1 in
  _ ← remember_groups lane;
  _ ← extend_lane lane (groups_for last_token_index);
  l' ← mget;
  let t := g_tx l' in
  let tx_id := current_transaction_id_ t + 1 in
  _ ← mput (mkLedger (g_this l') (plan_ l') (mark_state Pending (lanes_ l') lane) (g_store l')
              (mkTx tx_id true true (pending_requests_ t) (pending_lane_indices_ t)
                 (previous_group_counts_ t) lane token_ids first_token_index));
  mret (mkPrepared tx_id (Z.quot (last_token_index + 1) 4) []).

Definition reserve_mtp_pages (h : LaneHandle) (last_token_index : Z) : M FlashNextLaneLedger unit :=
  l ← mget;
  _ ← mlift (validate_handle l h Active);
  _ ← mthrow_if ((last_token_index <? 0) || (max_context l <=? wrap32 last_token_index)) OutOfRange;
  extend_lane (lh_lane h) (groups_for last_token_index).

(** The rows of a speculative round, on a copy of the history. *)
Fixpoint simulate_history (meta : PleIndexMetadata) (h : PleTokenHistory) (tokens : list Z)
    : result (list (list Z)) :=
  match tokens with
  | [] => Ok []
  | token :: rest =>
      rows ← ple_indices meta h token;
      more ← simulate_history meta (history_commit h token) rest;
      Ok (rows :: more)
  end.

(** The speculative round leaves the lane's state [Active]. *)
Definition begin_speculative_round (h : LaneHandle) (anchor_token_id : Z) (draft_tokens : list Z)
    (first_token_index : Z) (meta : PleIndexMetadata) : M FlashNextLaneLedger PreparedRound :=
  l ← mget;
  _ ← mthrow_if (has_pending_batch_ (g_tx l)) LogicError;
  info ← mlift (validate_handle l h Active);
  let num_tokens := wrap32 (1 + vsize draft_tokens) in
  let lane := lh_lane h in
  _ ← mthrow_if (negb (first_token_index =? li_committed_frontier info)) InvalidArgument;
  _ ← mthrow_if ((first_token_index <? 0) || (max_context l <? first_token_index + num_tokens)) OutOfRange;
  _ ← mthrow_if (current_transaction_id_ (g_tx l) =? U64_MAX) OverflowError;
  let last_token_index := first_token_index + to_i32 num_tokens - 1 in
  _ ← remember_groups lane;
  _ ← reserve_mtp_pages h last_token_index;
  rows ← mlift (simulate_history meta (li_history info) (anchor_token_id :: draft_tokens));
  l' ← mget;
  let t := g_tx l' in
  let tx_id := current_transaction_id_ t + 1 in
  let requests := zip_with (fun d token => mkStep h token (first_token_index + d))
                    (seqZ 0 (1 + vsize draft_tokens)) (anchor_token_id :: draft_tokens) in
  _ ← mput (set_tx (mkTx tx_id true (is_pending_prefill_chunk_ t) requests [lane]
                      (previous_group_counts_ t) (pending_prefill_lane_ t) (pending_prefill_tokens_ t)
                      (pending_prefill_first_token_index_ t)) l');
  mret (mkPrepared tx_id
          (Z.min (to_i32 (pl_maximum_blocks (plan_ l))) (Z.quot (last_token_index + 1) 4)) rows).

(** * Closing a transaction *)
Definition stale (l : FlashNextLaneLedger) (tx_id : Z) : bool :=
  negb (has_pending_batch_ (g_tx l)) || negb (tx_id =? current_transaction_id_ (g_tx l)).

Definition stale_prefill (l : FlashNextLaneLedger) (tx_id : Z) : bool :=
  negb (has_pending_batch_ (g_tx l)) || negb (is_pending_prefill_chunk_ (g_tx l)) ||
  negb (tx_id =? current_transaction_id_ (g_tx l)).

(** Give a lane back its groups of before the transaction. *)
Definition rollback_lane (lane : Z) : M FlashNextLaneLedger unit :=
  l ← mget;
  prev_count ← mlift (vat (previous_group_counts_ (g_tx l)) lane);
  owned ← mlift (vat (lane_physical_groups_ (g_store l)) lane);
  s ← mlift (shrink_lane (plan_ l) lane (Z.to_nat (vsize owned - prev_count)) (g_store l));
  mput (set_store s (set_lanes (mark_state Active (lanes_ l) lane) l)).

Definition rollback_prepared_prefill_chunk (tx_id : Z) : M FlashNextLaneLedger unit :=
  l ← mget;
  if stale_prefill l tx_id then mret tt
  else
    _ ← rollback_lane (pending_prefill_lane_ (g_tx l));
    mmodify (fun l' => set_tx (close_prefill (g_tx l')) l').

Definition rollback_prepared_round (tx_id : Z) : M FlashNextLaneLedger unit :=
  l ← mget;
  if stale l tx_id then mret tt
  else if is_pending_prefill_chunk_ (g_tx l) then rollback_prepared_prefill_chunk tx_id
  else
    _ ← mfor rollback_lane (pending_lane_indices_ (g_tx l));
    mmodify (fun l' => set_tx (close_round (g_tx l')) l').

Definition abort_prefill_chunk (tx_id : Z) (l : FlashNextLaneLedger) : FlashNextLaneLedger :=
  if stale_prefill l tx_id then l
  else set_tx (close_prefill (g_tx l))
         (set_lanes (mark_state Active (lanes_ l) (pending_prefill_lane_ (g_tx l))) l).

Definition abort_round (tx_id : Z) (l : FlashNextLaneLedger) : FlashNextLaneLedger :=
  if stale l tx_id then l
  else if is_pending_prefill_chunk_ (g_tx l) then abort_prefill_chunk tx_id l
  else set_tx (close_round (g_tx l))
         (set_lanes (fold_left (mark_state Active) (pending_lane_indices_ (g_tx l)) (lanes_ l)) l).

(** A lane that consumed [tokens]: its history and its frontier advance and it
    is active again. *)
Definition advance_lane (tokens : list Z) (info : LaneInfo) : LaneInfo :=
  mkLane (li_owner info) Active (li_epoch info)
    (li_committed_frontier info + to_i32 (vsize tokens))
    (fold_left history_commit tokens (li_history info)).

Definition advance_at (lanes : list LaneInfo) (lane : Z) (tokens : list Z) : result (list LaneInfo) :=
  info ← vat lanes lane;
  Ok lanes.[lane <- advance_lane tokens info].

Definition commit_prefill_chunk (tx_id : Z) : M FlashNextLaneLedger unit :=
  l ← mget;
  _ ← mthrow_if (stale_prefill l tx_id) LogicError;
  lanes ← mlift (advance_at (lanes_ l) (pending_prefill_lane_ (g_tx l)) (pending_prefill_tokens_ (g_tx l)));
  mput (set_tx (close_prefill (g_tx l)) (set_lanes lanes l)).

(** One row of a committed round: the token is consumed if it is accepted. *)
Definition commit_row (lanes : list LaneInfo) (row : Z * LaneStepRequest * bool) : result (list LaneInfo) :=
  let '(lane, req, accept) := row in
  advance_at lanes lane (if accept then [rq_token_id req] else []).

Definition accepted_lanes (lanes : list Z) (decisions : list bool) : list Z :=
  map fst (filter (fun x => snd x = true) (zip lanes decisions)).

Definition commit_round (tx_id : Z) (decisions : list bool) : M (FlashNextLaneLedger * SlotRing) unit :=
  st ← mget;
  let l := fst st in
  let t := g_tx l in
  _ ← mthrow_if (stale l tx_id) LogicError;
  if is_pending_prefill_chunk_ t then
    match decisions with
    | [true] => mfst (commit_prefill_chunk tx_id)
    | [false] => mfst (mmodify (abort_prefill_chunk tx_id))
    | _ => mthrow InvalidArgument
    end
  else
    _ ← mthrow_if (negb (vsize decisions =? vsize (pending_requests_ t))) InvalidArgument;
    _ ← mthrow_if (vsize (pending_lane_indices_ t) <? vsize (pending_requests_ t)) Undefined;
    let accepted := accepted_lanes (pending_lane_indices_ t) decisions in
    _ ← (if bool_decide (accepted = []) then mret tt else msnd (commit_slots accepted));
    lanes ← mlift (rfor commit_row (lanes_ l)
                     (zip (zip (pending_lane_indices_ t) (pending_requests_ t)) decisions));
    mfst (mput (set_tx (close_round t) (set_lanes lanes l))).

(** The consumed inputs are the first [accepted_tokens.size()] pending ones. *)
Definition commit_speculative_round (tx_id : Z) (accepted_tokens : list Z)
    : M (FlashNextLaneLedger * SlotRing) unit :=
  st ← mget;
  let l := fst st in
  let t := g_tx l in
  _ ← mthrow_if (stale l tx_id) LogicError;
  lane ← mlift (vat (pending_lane_indices_ t) 0);
  let count := vsize accepted_tokens in
  _ ← (if count =? 0 then mret tt else msnd (advance_lane_slot lane (wrap32 count) true));
  _ ← mthrow_if (vsize (pending_requests_ t) <? count) Undefined;
  let consumed := map rq_token_id (take (length accepted_tokens) (pending_requests_ t)) in
  lanes ← mlift (advance_at (lanes_ l) lane consumed);
  mfst (mput (set_tx (close_round t) (set_lanes lanes l))).

(** The upload of dirty tables, on the ledger and the device tables. *)
Definition sync_tables_if_dirty (l : FlashNextLaneLedger) (device : list Z * list Z)
    : FlashNextLaneLedger * (list Z * list Z) :=
  let s := g_store l in
  if block_tables_dirty_ s then
    (set_store (mkStore (lane_physical_groups_ s) (free_physical_groups_ s) (physical_group_refcounts_ s)
                  (host_attention_table_ s) (host_indexer_table_ s) false) l,
     (host_attention_table_ s, host_indexer_table_ s))
  else (l, device).

(** * Counting references *)
Definition count_refs (g : Z) (l : list Z) : Z := zsum (map (fun x => if x =? g then 1 else 0) l).

Lemma count_refs_app g l k : count_refs g (l ++ k) = count_refs g l + count_refs g k.
Proof. unfold count_refs. by rewrite map_app, zsum_app. Qed.

Lemma count_refs_cons g x l : count_refs g (x :: l) = (if x =? g then 1 else 0) + count_refs g l.
Proof. unfold count_refs. cbn [map]. by rewrite zsum_cons. Qed.

Lemma count_refs_bounds g l : 0 <= count_refs g l <= vsize l.
Proof.
  induction l as [|x l IH]; [done|]. rewrite count_refs_cons, vsize_cons. destruct (x =? g); lia.
Qed.

Lemma count_refs_perm g l k : l ≡ₚ k -> count_refs g l = count_refs g k.
Proof. intros H. unfold count_refs. apply zsum_permutation. by apply Permutation_map. Qed.

Lemma count_refs_pos g l : 0 < count_refs g l <-> g ∈ l.
Proof.
  induction l as [|x l IH].
  - change (count_refs g []) with 0. split; [lia|by intros H%not_elem_of_nil].
  - rewrite count_refs_cons, elem_of_cons. pose proof (count_refs_bounds g l).
    destruct (Z.eqb_spec x g) as [->|Hne]; split; try lia; auto.
    + intros. right. apply IH. lia.
    + intros [->|Hin]; [done|]. apply IH in Hin. lia.
Qed.

Lemma concat_vset (groups : list (list Z)) lane owned :
  groups.[lane] = Some owned ->
  exists rest, concat groups ≡ₚ owned ++ rest /\ forall new, concat groups.[lane <- new] ≡ₚ new ++ rest.
Proof.
  intros H. destruct (vget_Some_bounds _ _ _ H) as [Hl _]. unfold vget in H. unfold vset.
  rewrite (proj2 (Z.leb_le 0 lane)) in * by done. apply list_elem_of_split_length in H as (l1 & l2 & -> & Hlen).
  exists (concat l1 ++ concat l2). split.
  - rewrite concat_app. cbn. by rewrite !(Permutation_app_comm (concat l1)), <- app_assoc, (Permutation_app_comm (concat l2)).
  - intros new. rewrite Hlen, insert_app_r_alt, Nat.sub_diag by done. cbn. rewrite concat_app. cbn.
    by rewrite !(Permutation_app_comm (concat l1)), <- app_assoc, (Permutation_app_comm (concat l2)).
Qed.

(** * Invariants of the group store *)

(** The counts of a plan stay small. *)
Record plan_ok (p : FlashNextRuntimePlan) : Prop := {
  po_lanes : 1 <= cf_max_concurrency (pl_config p) <= 8;
  po_context : 1 <= cf_max_context (pl_config p) <= 262144;
  po_groups : 0 <= pl_main_page_groups p <= 8192;
  po_attention : pl_attention_logical_pages p = (cf_max_context (pl_config p) + 63) / 64;
  po_indexer : pl_indexer_logical_pages p = (cf_max_context (pl_config p) + 255) / 256;
}.

Lemma ceil_div_small v per : 1 <= v <= 262144 -> 1 <= per <= 256 -> ceil_div v per = (v + (per - 1)) / per.
Proof.
  intros. unfold ceil_div. rewrite (wrap32_small (v + per)), wrap32_small by (unfold U32_MAX; lia).
  f_equal. lia.
Qed.

Lemma finalize_plan_ok c selected p :
  config_ranges c -> finalize_flash_next_counts c selected = Ok p -> plan_ok p.
Proof.
  intros Hc H. unfold finalize_flash_next_counts in H. apply bind_Ok in H as (slots & Hv & H).
  apply bind_Ok in H as ([lo hi] & Hb & H). apply bind_Ok in H as (? & G%throw_if_Ok & H).
  apply bind_Ok in H as (? & _ & H). apply bind_Ok in H as (? & _ & [= <-]). cbn [fst snd] in G. simp_bool.
  unfold flash_next_page_group_bounds in Hb. apply bind_Ok in Hb as (? & _ & Hb).
  apply bind_Ok in Hb as (mx & Hm & [= <- <-]). unfold checked_mul_u32 in Hm.
  apply bind_Ok in Hm as (? & _ & [= <-]).
  apply validate_config_Ok in Hv as (Hconc & Hctx & _ & _); [|done].
  pose proof (ceil_div_small (cf_max_context c) kMainPageGroupTokens Hctx ltac:(unfold kMainPageGroupTokens; lia)) as Hceil.
  rewrite Hceil in *. unfold kMainPageGroupTokens in *.
  assert (0 <= (cf_max_context c + (256 - 1)) / 256 <= 1024)
    by (split; [apply Z.div_pos; lia|apply Z.lt_succ_r, Z.div_lt_upper_bound; lia]).
  split; cbn; try lia.
  - nia.
  - rewrite ceil_div_small by (unfold kPageTokens; lia). done.
  - change (ceil_div (cf_max_context c) kIndexerPageTokens) with (ceil_div (cf_max_context c) 256).
    rewrite ceil_div_small by lia. done.
Qed.

Section Store.
Context (p : FlashNextRuntimePlan).
Hypothesis Hplan : plan_ok p.

Notation C := (cf_max_concurrency (pl_config p)).
Notation N := (pl_main_page_groups p).
Notation A := (pl_attention_logical_pages p).
Notation I := (pl_indexer_logical_pages p).

(** Every reference of the list is counted; a group is free exactly when
    nobody refers to it. *)
Record counted (refs : list Z) (counts free : list Z) : Prop := {
  cn_size : vsize counts = N;
  cn_range : Forall (fun g => 0 <= g < N) refs;
  cn_counts : forall g, 0 <= g < N -> counts.[g] = Some (count_refs g refs);
  cn_nodup : NoDup free;
  cn_free : forall g, g ∈ free <-> 0 <= g < N /\ count_refs g refs = 0;
}.

(** The references are those of the lanes and the list [ext] of the
    references that clients hold. *)
Record counts_ok (ext : list Z) (s : GroupStore) : Prop := {
  co_lanes : vsize (lane_physical_groups_ s) = C;
  co_nodup : Forall NoDup (lane_physical_groups_ s);
  co_counted : counted (concat (lane_physical_groups_ s) ++ ext)
                 (physical_group_refcounts_ s) (free_physical_groups_ s);
}.

(** The table entries of logical group [j] of a lane that maps group [g]. *)
Definition entry_ok (s : GroupStore) (lane j g : Z) : Prop :=
  (forall q, 0 <= q < 4 -> j * 4 + q < A ->
     (host_attention_table_ s).[lane * A + (j * 4 + q)] = Some (g * 4 + q)) /\
  (j < I -> (host_indexer_table_ s).[lane * I + j] = Some g).

Record tables_ok (s : GroupStore) : Prop := {
  to_sizes : vsize (host_attention_table_ s) = A * C /\ vsize (host_indexer_table_ s) = I * C;
  to_entries : forall lane owned j g, (lane_physical_groups_ s).[lane] = Some owned ->
    owned.[j] = Some g -> entry_ok s lane j g;
}.

Lemma counted_perm refs refs' counts free :
  refs ≡ₚ refs' -> counted refs counts free -> counted refs' counts free.
Proof.
  intros Hp []. split; try done.
  - by rewrite <- Hp.
  - intros g Hg. by rewrite <- (count_refs_perm g _ _ Hp), cn_counts0.
  - intros g. by rewrite <- (count_refs_perm g _ _ Hp).
Qed.

(** Setting the count of [g] and nothing else. *)
Lemma counts_update refs refs' counts g n :
  vsize counts = N -> 0 <= g < N ->
  (forall x, 0 <= x < N -> counts.[x] = Some (count_refs x refs)) ->
  (forall x, x <> g -> count_refs x refs' = count_refs x refs) -> n = count_refs g refs' ->
  forall x, 0 <= x < N -> counts.[g <- n].[x] = Some (count_refs x refs').
Proof.
  intros Hsize Hg Hc Hne -> x Hx. destruct (decide (x = g)) as [->|Hxg].
  - by rewrite vget_vset_eq by lia.
  - by rewrite vget_vset_ne, Hc, Hne.
Qed.

Lemma count_refs_cons_ne g x refs : x <> g -> count_refs x (g :: refs) = count_refs x refs.
Proof. intros. rewrite count_refs_cons. by rewrite (proj2 (Z.eqb_neq g x)) by congruence. Qed.

Lemma count_refs_cons_eq g refs : count_refs g (g :: refs) = 1 + count_refs g refs.
Proof. by rewrite count_refs_cons, Z.eqb_refl. Qed.

Lemma counted_drop refs g s :
  counted (g :: refs) (physical_group_refcounts_ s) (free_physical_groups_ s) ->
  let s' := drop_reference s g in
  counted refs (physical_group_refcounts_ s') (free_physical_groups_ s') /\
  lane_physical_groups_ s' = lane_physical_groups_ s /\
  host_attention_table_ s' = host_attention_table_ s /\ host_indexer_table_ s' = host_indexer_table_ s.
Proof.
  intros [Hsize Hrange Hc Hnd Hfree]. apply Forall_cons_1 in Hrange as [Hg Hrange].
  unfold drop_reference. rewrite (Hc g Hg), count_refs_cons_eq. pose proof (count_refs_bounds g refs).
  rewrite (proj2 (Z.ltb_lt 0 (1 + count_refs g refs))) by lia.
  replace (1 + count_refs g refs - 1) with (count_refs g refs) by lia. cbn [set_counts
    physical_group_refcounts_ free_physical_groups_ lane_physical_groups_ host_attention_table_ host_indexer_table_].
  split; [|done]. split.
  - by autorewrite with vecrw.
  - done.
  - apply (counts_update (g :: refs)); try done. intros x Hx. by rewrite count_refs_cons_ne.
  - destruct (Z.eqb_spec (count_refs g refs) 0); [|done]. apply NoDup_cons_2; [|done].
    intros Hin. apply Hfree in Hin as [_ Hz]. rewrite count_refs_cons_eq in Hz. lia.
  - intros x. destruct (decide (x = g)) as [->|Hne].
    + destruct (Z.eqb_spec (count_refs g refs) 0) as [Hz|Hnz].
      * split; [done|]. intros _. left.
      * rewrite Hfree, count_refs_cons_eq. lia.
    + rewrite <- (count_refs_cons_ne g x refs Hne), <- Hfree.
      destruct (count_refs g refs =? 0); [|done]. rewrite elem_of_cons. naive_solver.
Qed.

Lemma counted_add refs g s :
  counted refs (physical_group_refcounts_ s) (free_physical_groups_ s) ->
  g ∈ refs -> vsize refs < U32_MAX ->
  let s' := add_reference s g in
  counted (g :: refs) (physical_group_refcounts_ s') (free_physical_groups_ s') /\
  lane_physical_groups_ s' = lane_physical_groups_ s /\
  host_attention_table_ s' = host_attention_table_ s /\ host_indexer_table_ s' = host_indexer_table_ s.
Proof.
  intros [Hsize Hrange Hc Hnd Hfree] Hin Hmax.
  assert (Hg : 0 <= g < N) by (rewrite Forall_forall in Hrange; by apply Hrange).
  unfold add_reference. rewrite (Hc g Hg). pose proof (count_refs_bounds g refs).
  rewrite wrap32_small by lia. cbn [set_counts
    physical_group_refcounts_ free_physical_groups_ lane_physical_groups_ host_attention_table_ host_indexer_table_].
  split; [|done]. split.
  - by autorewrite with vecrw.
  - by apply Forall_cons_2.
  - apply (counts_update refs); try done.
    + intros x Hx. by rewrite count_refs_cons_ne.
    + rewrite count_refs_cons_eq. lia.
  - done.
  - intros x. rewrite Hfree. destruct (decide (x = g)) as [->|Hne].
    + rewrite count_refs_cons_eq. apply count_refs_pos in Hin. lia.
    + by rewrite count_refs_cons_ne.
Qed.

(** The group at the back of the free list gets its first reference. *)
Lemma counted_take refs g free counts :
  counted refs counts (g :: free) ->
  counted (g :: refs) (if g <? vsize counts then counts.[g <- 1] else counts) free /\ g ∉ refs /\ 0 <= g < N.
Proof.
  intros [Hsize Hrange Hc Hnd Hfree]. apply NoDup_cons in Hnd as [Hnotin Hnd].
  destruct (proj1 (Hfree g) ltac:(left)) as [Hg Hz].
  assert (Hout : g ∉ refs) by (rewrite <- count_refs_pos; lia).
  rewrite (proj2 (Z.ltb_lt g (vsize counts))) by lia. split; [|done]. split.
  - by autorewrite with vecrw.
  - by apply Forall_cons_2.
  - apply (counts_update refs); try done.
    + intros x Hx. by rewrite count_refs_cons_ne.
    + rewrite count_refs_cons_eq. lia.
  - done.
  - intros x. destruct (decide (x = g)) as [->|Hne].
    + rewrite count_refs_cons_eq. split; [done|lia].
    + rewrite count_refs_cons_ne, <- Hfree, elem_of_cons by done. naive_solver.
Qed.

(** ** Table rows *)
Lemma cell_inj lane x lane' x' w :
  0 <= x < w -> 0 <= x' < w -> lane * w + x = lane' * w + x' -> lane = lane' /\ x = x'.
Proof. intros. assert (lane = lane') by nia. subst. lia. Qed.

Lemma cell_bounds lane x w : 0 <= lane < C -> 0 <= x < w -> 0 <= lane * w + x < w * C.
Proof. nia. Qed.

(** The attention and indexer rows after [write_entries]. *)
Lemma write_entries_att lane log page att_value idx_value s lane' x :
  vsize (host_attention_table_ s) = A * C -> 0 <= lane < C -> 0 <= log ->
  (forall q, 0 <= q < 4 -> page q = log * 4 + q) -> 0 <= x < A ->
  (host_attention_table_ (write_entries p lane log page att_value idx_value s)).[lane' * A + x] =
    if (lane' =? lane) && (x / 4 =? log) then Some (att_value (x mod 4))
    else (host_attention_table_ s).[lane' * A + x].
Proof.
  intros Hsize Hlane Hlog Hpage Hx. unfold write_entries. cbn [set_tables host_attention_table_ fold_left].
  rewrite !Hpage by lia. pose proof (Z.div_mod x 4 ltac:(lia)) as Hdm. pose proof (Z.mod_pos_bound x 4 ltac:(lia)) as Hmod.
  set (t := host_attention_table_ s) in *. clearbody t.
  assert (Hput : forall t q, vsize t = A * C -> 0 <= q < 4 ->
    let t' := if log * 4 + q <? A then t.[lane * A + (log * 4 + q) <- att_value q] else t in
    vsize t' = A * C /\
    t'.[lane' * A + x] = if (lane' =? lane) && (x =? log * 4 + q) then Some (att_value q) else t.[lane' * A + x]).
  { clear dependent t. intros t q Hs Hq. cbv zeta. destruct (Z.ltb_spec (log * 4 + q) A) as [Hlt|Hge].
    - split; [by autorewrite with vecrw|].
      destruct ((lane' =? lane) && (x =? log * 4 + q)) eqn:E.
      + simp_bool. subst. apply vget_vset_eq. rewrite Hs. apply cell_bounds; lia.
      + apply vget_vset_ne. intros Heq. apply cell_inj in Heq as [Hl Hx']; [|lia..].
        by rewrite Hl, Hx', !Z.eqb_refl in E.
    - split; [done|]. destruct ((lane' =? lane) && (x =? log * 4 + q)) eqn:E; [|done]. simp_bool. lia. }
  destruct (Hput t 0 Hsize ltac:(lia)) as [H0 E0].
  destruct (Hput _ 1 H0 ltac:(lia)) as [H1 E1]. destruct (Hput _ 2 H1 ltac:(lia)) as [H2 E2].
  destruct (Hput _ 3 H2 ltac:(lia)) as [_ E3]. rewrite E3, E2, E1, E0. clear - Hdm Hmod.
  destruct (lane' =? lane); [|done]. cbn [andb].
  destruct (Z.eqb_spec x (log * 4 + 3)), (Z.eqb_spec x (log * 4 + 2)), (Z.eqb_spec x (log * 4 + 1)),
    (Z.eqb_spec x (log * 4 + 0)), (Z.eqb_spec (x / 4) log); try lia; try done; repeat f_equal; lia.
Qed.

Lemma write_entries_idx lane log page att_value idx_value s lane' x :
  vsize (host_indexer_table_ s) = I * C -> 0 <= lane < C -> 0 <= log -> 0 <= x < I ->
  (host_indexer_table_ (write_entries p lane log page att_value idx_value s)).[lane' * I + x] =
    if (lane' =? lane) && (x =? log) then Some idx_value else (host_indexer_table_ s).[lane' * I + x].
Proof.
  intros Hsize Hlane Hlog Hx. unfold write_entries. cbn [set_tables host_indexer_table_].
  destruct (Z.ltb_spec log I) as [Hlt|Hge].
  - destruct ((lane' =? lane) && (x =? log)) eqn:E.
    + simp_bool. subst. apply vget_vset_eq. rewrite Hsize. apply cell_bounds; lia.
    + apply vget_vset_ne. intros Heq. apply cell_inj in Heq as [Hl Hx']; [|lia..].
      by rewrite Hl, Hx', !Z.eqb_refl in E.
  - destruct ((lane' =? lane) && (x =? log)) eqn:E; [|done]. simp_bool. lia.
Qed.

Lemma write_entries_sizes lane log page att_value idx_value s :
  let s' := write_entries p lane log page att_value idx_value s in
  vsize (host_attention_table_ s') = vsize (host_attention_table_ s) /\
  vsize (host_indexer_table_ s') = vsize (host_indexer_table_ s).
Proof.
  unfold write_entries. cbn [set_tables host_attention_table_ host_indexer_table_ fold_left]. split.
  - repeat case_match; by autorewrite with vecrw.
  - case_match; by autorewrite with vecrw.
Qed.

Definition sizes_ok (s : GroupStore) : Prop :=
  vsize (host_attention_table_ s) = A * C /\ vsize (host_indexer_table_ s) = I * C.

(** Writing the entries of one logical group leaves the others alone, *)
Lemma entry_ok_other lane log page att_value idx_value s lane' j g :
  sizes_ok s -> 0 <= lane < C -> 0 <= log ->
  (forall q, 0 <= q < 4 -> page q = log * 4 + q) -> 0 <= j -> ~ (lane' = lane /\ j = log) ->
  entry_ok s lane' j g -> entry_ok (write_entries p lane log page att_value idx_value s) lane' j g.
Proof.
  intros [Ha Hi] Hlane Hlog Hpage Hj Hne [Eatt Eidx]. split.
  - intros q Hq Hlt. rewrite write_entries_att by (done || lia).
    replace ((j * 4 + q) / 4) with j by (apply (Z.div_unique _ _ _ q); lia).
    destruct ((lane' =? lane) && (j =? log)) eqn:E; [simp_bool; naive_solver|]. by apply Eatt.
  - intros Hlt. rewrite write_entries_idx by (done || lia).
    destruct ((lane' =? lane) && (j =? log)) eqn:E; [simp_bool; naive_solver|]. by apply Eidx.
Qed.

(** and mapping a group makes its own entries right. *)
Lemma entry_ok_new lane log page g s :
  sizes_ok s -> 0 <= lane < C -> 0 <= log -> 0 <= g < N ->
  (forall q, 0 <= q < 4 -> page q = log * 4 + q) ->
  entry_ok (write_entries p lane log page (physical_page g) (to_i32 g) s) lane log g.
Proof.
  intros [Ha Hi] Hlane Hlog Hg Hpage. pose proof (po_groups p Hplan). split.
  - intros q Hq Hlt. rewrite write_entries_att by (done || lia).
    replace ((log * 4 + q) / 4) with log by (apply (Z.div_unique _ _ _ q); lia).
    replace ((log * 4 + q) mod 4) with q by (apply (Z.mod_unique _ _ log); lia).
    rewrite !Z.eqb_refl. cbn [andb]. f_equal. unfold physical_page.
    rewrite wrap32_small by (unfold U32_MAX; lia). apply to_i32_small. unfold I32_MAX. lia.
  - intros Hlt. rewrite write_entries_idx by (done || lia). rewrite !Z.eqb_refl. cbn [andb].
    f_equal. apply to_i32_small. unfold I32_MAX. lia.
Qed.

Lemma attention_page_small log q : 0 <= log <= 8192 -> 0 <= q < 4 -> attention_page log q = log * 4 + q.
Proof. intros. unfold attention_page. apply wrap32_small. unfold U32_MAX. lia. Qed.

(** Distinct groups in range: a lane cannot own more than there are. *)
Lemma lane_small ext s lane owned :
  counts_ok ext s -> (lane_physical_groups_ s).[lane] = Some owned -> 0 <= vsize owned <= N.
Proof.
  intros [_ Hnd [_ Hrange _ _ _]] H. pose proof (po_groups p Hplan). split; [apply vsize_nonneg|].
  unfold vget in H. destruct (0 <=? lane); [|done].
  assert (Hsub : owned ⊆+ seqZ 0 N).
  { apply NoDup_submseteq.
    - by apply (Forall_lookup_1 _ _ _ _ Hnd H).
    - intros g Hg. apply elem_of_seqZ. rewrite Forall_forall in Hrange. rewrite Z.add_0_l.
      apply Hrange. apply elem_of_app. left. apply list_elem_of_In, in_concat. exists owned.
      split; [|by apply list_elem_of_In]. apply list_elem_of_In. by eapply list_elem_of_lookup_2. }
  apply submseteq_length in Hsub. rewrite length_seqZ in Hsub. unfold vsize. lia.
Qed.

Definition store_ok (ext : list Z) (s : GroupStore) : Prop := counts_ok ext s /\ tables_ok s.

(** Cells of the tables outside the logical groups [lo .. hi - 1] of a lane
    are the same in two stores. *)
Definition same_cells (lane lo hi : Z) (s s' : GroupStore) : Prop :=
  (forall lane' x, 0 <= x < A -> ~ (lane' = lane /\ lo <= x / 4 < hi) ->
     (host_attention_table_ s').[lane' * A + x] = (host_attention_table_ s).[lane' * A + x]) /\
  (forall lane' x, 0 <= x < I -> ~ (lane' = lane /\ lo <= x < hi) ->
     (host_indexer_table_ s').[lane' * I + x] = (host_indexer_table_ s).[lane' * I + x]).

Lemma write_entries_same lane log page att_value idx_value s :
  sizes_ok s -> 0 <= lane < C -> 0 <= log -> (forall q, 0 <= q < 4 -> page q = log * 4 + q) ->
  same_cells lane log (log + 1) s (write_entries p lane log page att_value idx_value s).
Proof.
  intros [Ha Hi] Hlane Hlog Hpage. split; intros lane' x Hx Hne.
  - rewrite write_entries_att by done.
    destruct ((lane' =? lane) && (x / 4 =? log)) eqn:E; [|done]. simp_bool. exfalso. apply Hne. lia.
  - rewrite write_entries_idx by done.
    destruct ((lane' =? lane) && (x =? log)) eqn:E; [|done]. simp_bool. exfalso. apply Hne. lia.
Qed.

Lemma same_cells_trans lane lo mid hi s1 s2 s3 :
  lo <= mid <= hi -> same_cells lane lo mid s1 s2 -> same_cells lane mid hi s2 s3 ->
  same_cells lane lo hi s1 s3.
Proof.
  intros Hm [Ha1 Hi1] [Ha2 Hi2]. split; intros lane' x Hx Hne.
  - rewrite Ha2 by (done || lia). apply Ha1; [done|lia].
  - rewrite Hi2 by (done || lia). apply Hi1; [done|lia].
Qed.

(** What growing a lane that owns [owned] by the groups [fresh] does. *)
Record grown (ext : list Z) (lane : Z) (owned fresh : list Z) (s s' : GroupStore) : Prop := {
  gr_ok : store_ok ext s';
  gr_groups : lane_physical_groups_ s' = (lane_physical_groups_ s).[lane <- owned ++ fresh];
  gr_free : free_physical_groups_ s = fresh ++ free_physical_groups_ s';
  gr_cells : same_cells lane (vsize owned) (vsize owned + vsize fresh) s s';
}.

Lemma grow_one ext s lane owned g free :
  store_ok ext s -> (lane_physical_groups_ s).[lane] = Some owned ->
  free_physical_groups_ s = g :: free ->
  let refs := physical_group_refcounts_ s in
  let s1 := set_counts free (if g <? vsize refs then refs.[g <- 1] else refs) s in
  let s2 := set_groups (lane_physical_groups_ s).[lane <- owned ++ [g]] s1 in
  grown ext lane owned [g] s (map_group p lane (wrap32 (vsize owned)) g s2).
Proof.
  intros [Hc Ht] Hown Hfree refs s1 s2. destruct (vget_Some_bounds _ _ _ Hown) as [Hl0 Hl1].
  destruct (lane_small ext s lane owned Hc Hown) as [Hs0 Hs1]. pose proof (po_groups p Hplan).
  destruct Hc as [Hlanes Hnd Hcnt]. rewrite Hlanes in Hl1.
  rewrite Hfree in Hcnt. destruct (counted_take _ _ _ _ Hcnt) as (Hcnt' & Hnotin & Hg).
  rewrite wrap32_small by (unfold U32_MAX; lia).
  destruct (concat_vset _ _ _ Hown) as (rest & Hp1 & Hp2).
  assert (Hpages : forall q, 0 <= q < 4 -> attention_page (vsize owned) q = vsize owned * 4 + q)
    by (intros; apply attention_page_small; lia).
  assert (Hsz : sizes_ok s2) by (by destruct Ht as [[? ?] _]).
  split.
  - split; [split|split].
    + cbn. by autorewrite with vecrw.
    + apply Forall_vset; [done|]. apply NoDup_app. split; [|split].
      * by apply (Forall_vget _ _ _ _ Hnd Hown).
      * intros x Hx ->%list_elem_of_singleton. apply Hnotin. rewrite Hp1, <- app_assoc.
        apply elem_of_app. by left.
      * apply NoDup_singleton.
    + cbn. eapply counted_perm; [|exact Hcnt']. rewrite Hp1, (Hp2 (owned ++ [g])). solve_Permutation.
    + unfold map_group.
      destruct (write_entries_sizes lane (vsize owned) (attention_page (vsize owned)) (physical_page g) (to_i32 g) s2)
        as [-> ->]. exact Hsz.
    + intros lane' owned' j x Hl' Hj. cbn [map_group write_entries set_tables lane_physical_groups_] in Hl'.
      change (lane_physical_groups_ s2) with (lane_physical_groups_ s).[lane <- owned ++ [g]] in Hl'.
      destruct (vget_Some_bounds _ _ _ Hj) as [Hj0 Hj1].
      destruct (decide (lane' = lane)) as [->|Hne].
      * rewrite vget_vset_eq in Hl' by lia. injection Hl' as <-.
        destruct (decide (j = vsize owned)) as [->|Hjne].
        -- rewrite vget_app_r, Z.sub_diag in Hj by lia. injection Hj as <-.
           apply entry_ok_new; done || lia.
        -- rewrite vsize_app, vsize_cons in Hj1. change (1 + vsize []) with 1 in Hj1.
           rewrite vget_app_l in Hj by lia. apply entry_ok_other; try done; try lia.
           destruct Ht as [_ Hent]. by apply (Hent lane owned).
      * rewrite vget_vset_ne in Hl' by congruence. apply entry_ok_other; try done; try lia.
        destruct Ht as [_ Hent]. by apply (Hent lane' owned').
  - done.
  - by rewrite Hfree.
  - change (same_cells lane (vsize owned) (vsize owned + 1) s2 (map_group p lane (vsize owned) g s2)).
    apply write_entries_same; done || lia.
Qed.

Lemma grow_lane_spec ext n : forall s lane owned,
  store_ok ext s -> (lane_physical_groups_ s).[lane] = Some owned ->
  (n <= length (free_physical_groups_ s))%nat ->
  exists s', grow_lane p lane n s = Ok s' /\ grown ext lane owned (take n (free_physical_groups_ s)) s s'.
Proof.
  induction n as [|n IH]; intros s lane owned Hok Hown Hn.
  - exists s. split; [done|]. split; [done| |done|by split].
    cbn [take]. rewrite app_nil_r. symmetry. by apply vset_id.
  - cbn [grow_lane]. unfold vat. rewrite Hown. cbn [mbind result_bind].
    destruct (free_physical_groups_ s) as [|g free] eqn:Hfree; [cbn in Hn; lia|].
    pose proof (grow_one ext s lane owned g free Hok Hown Hfree) as [Hok1 Hg1 _ Hc1].
    cbv zeta in *. set (s1 := map_group _ _ _ _ _) in *. assert (Hf1 : free_physical_groups_ s1 = free) by done.
    destruct (IH s1 lane (owned ++ [g])) as (s2 & Hrun & [Hok2 Hg2 Hf2 Hc2]).
    + done.
    + rewrite Hg1. apply vget_vset_eq. by apply vget_Some_bounds in Hown.
    + rewrite Hf1. cbn in Hn. lia.
    + exists s2. rewrite Hf1 in *. split; [done|]. split.
      * done.
      * rewrite Hg2, Hg1, vset_vset_eq, <- app_assoc. done.
      * cbn [take]. rewrite Hfree, Hf2 at 1. done.
      * cbn [take]. rewrite vsize_cons. rewrite vsize_app in Hc2. change (vsize [g]) with 1 in *.
        eapply (same_cells_trans lane _ (vsize owned + 1)); [|exact Hc1|].
        -- pose proof (vsize_nonneg (take n free)). lia.
        -- by replace (vsize owned + (1 + vsize (take n free))) with (vsize owned + 1 + vsize (take n free)) by lia.
Qed.

(** The cells of the logical groups [lo .. hi - 1] of a lane are empty. *)
Definition cleared (lane lo hi : Z) (s : GroupStore) : Prop :=
  (forall x, 0 <= x < A -> lo <= x / 4 < hi -> (host_attention_table_ s).[lane * A + x] = Some (-1)) /\
  (forall x, 0 <= x < I -> lo <= x < hi -> (host_indexer_table_ s).[lane * I + x] = Some (-1)).

Lemma unmap_cleared lane log s :
  sizes_ok s -> 0 <= lane < C -> 0 <= log <= 8192 -> cleared lane log (log + 1) (unmap_group p lane log s).
Proof.
  intros [Ha Hi] Hlane Hlog.
  assert (Hpages : forall q, 0 <= q < 4 -> attention_page log q = log * 4 + q)
    by (intros; apply attention_page_small; lia).
  split; intros x Hx Hin.
  - unfold unmap_group. rewrite write_entries_att by (done || lia).
    by rewrite Z.eqb_refl, (proj2 (Z.eqb_eq (x / 4) log)) by lia.
  - unfold unmap_group. rewrite write_entries_idx by (done || lia).
    by rewrite Z.eqb_refl, (proj2 (Z.eqb_eq x log)) by lia.
Qed.

Lemma drop_reference_free refs g s :
  counted (g :: refs) (physical_group_refcounts_ s) (free_physical_groups_ s) ->
  free_physical_groups_ (drop_reference s g) =
    if count_refs g refs =? 0 then g :: free_physical_groups_ s else free_physical_groups_ s.
Proof.
  intros [_ Hrange Hc _ _]. apply Forall_cons_1 in Hrange as [Hg _].
  unfold drop_reference. rewrite (Hc g Hg), count_refs_cons_eq. pose proof (count_refs_bounds g refs).
  rewrite (proj2 (Z.ltb_lt 0 (1 + count_refs g refs))) by lia.
  by replace (1 + count_refs g refs - 1) with (count_refs g refs) by lia.
Qed.

(** What giving back the groups [gone] of a lane that owns [kept ++ gone]
    does. *)
Record shrunk (ext : list Z) (lane : Z) (kept gone : list Z) (s s' : GroupStore) : Prop := {
  sk_ok : store_ok ext s';
  sk_groups : lane_physical_groups_ s' = (lane_physical_groups_ s).[lane <- kept];
  sk_free : Forall (fun g => count_refs g (concat (lane_physical_groups_ s) ++ ext) = 1) gone ->
    free_physical_groups_ s' = gone ++ free_physical_groups_ s;
  sk_cells : same_cells lane (vsize kept) (vsize kept + vsize gone) s s';
  sk_cleared : cleared lane (vsize kept) (vsize kept + vsize gone) s';
}.

(** The tables stay right for a lane that keeps [kept] after its last group is unmapped. *)
Lemma unmap_tables lane kept g s s' :
  tables_ok s -> (lane_physical_groups_ s).[lane] = Some (kept ++ [g]) -> 0 <= lane < C ->
  (forall q, 0 <= q < 4 -> attention_page (vsize kept) q = vsize kept * 4 + q) ->
  lane_physical_groups_ s' = (lane_physical_groups_ s).[lane <- kept] ->
  host_attention_table_ s' = host_attention_table_ (unmap_group p lane (vsize kept) s) ->
  host_indexer_table_ s' = host_indexer_table_ (unmap_group p lane (vsize kept) s) ->
  tables_ok s'.
Proof.
  intros Ht Hown Hlane Hpages Hgroups Hatt Hidx. pose proof (vsize_nonneg kept). pose proof (to_sizes _ Ht) as Hsz.
  destruct (vget_Some_bounds _ _ _ Hown) as [_ Hl1]. split.
  - rewrite Hatt, Hidx. unfold unmap_group.
    destruct (write_entries_sizes lane (vsize kept) (attention_page (vsize kept)) (fun _ => -1) (-1) s)
      as [-> ->]. exact Hsz.
  - intros lane' owned' j x Hl' Hj. rewrite Hgroups in Hl'. destruct (vget_Some_bounds _ _ _ Hj) as [Hj0 Hj1].
    unfold entry_ok. rewrite Hatt, Hidx. change (entry_ok (unmap_group p lane (vsize kept) s) lane' j x).
    assert (Hent : entry_ok s lane' j x /\ ~ (lane' = lane /\ j = vsize kept)).
    { destruct (decide (lane' = lane)) as [->|Hne].
      - rewrite vget_vset_eq in Hl' by lia. injection Hl' as <-. split; [|lia].
        apply (to_entries _ Ht lane (kept ++ [g])); [done|]. by rewrite vget_app_l by lia.
      - rewrite vget_vset_ne in Hl' by congruence. split; [|lia].
        by apply (to_entries _ Ht lane' owned'). }
    destruct Hent as [Hent Hne]. apply entry_ok_other; done || lia.
Qed.

Lemma shrink_one ext s lane kept g :
  store_ok ext s -> (lane_physical_groups_ s).[lane] = Some (kept ++ [g]) ->
  let s1 := drop_reference (unmap_group p lane (wrap32 (vsize (kept ++ [g]) - 1)) s) g in
  shrunk ext lane kept [g] s (set_groups (lane_physical_groups_ s1).[lane <- kept] s1).
Proof.
  intros [Hc Ht] Hown s1. destruct (vget_Some_bounds _ _ _ Hown) as [Hl0 Hl1].
  destruct (lane_small ext s lane _ Hc Hown) as [_ Hs1]. pose proof (po_groups p Hplan).
  pose proof (vsize_nonneg kept) as Hs0.
  destruct Hc as [Hlanes Hnd Hcnt]. rewrite Hlanes in Hl1.
  rewrite vsize_app in Hs1. change (vsize [g]) with 1 in Hs1.
  assert (Hlog : wrap32 (vsize (kept ++ [g]) - 1) = vsize kept).
  { rewrite vsize_app. change (vsize [g]) with 1. rewrite wrap32_small by (unfold U32_MAX; lia). lia. }
  unfold s1. rewrite Hlog. clear Hlog s1. set (su := unmap_group p lane (vsize kept) s).
  destruct (concat_vset _ _ _ Hown) as (rest & Hp1 & Hp2).
  assert (Hcnt1 : counted (g :: (kept ++ rest ++ ext)) (physical_group_refcounts_ su) (free_physical_groups_ su)).
  { eapply counted_perm; [|exact Hcnt]. rewrite Hp1. solve_Permutation. }
  destruct (counted_drop _ _ _ Hcnt1) as (Hcnt2 & Hgr & Hat & Hix).
  assert (Hpages : forall q, 0 <= q < 4 -> attention_page (vsize kept) q = vsize kept * 4 + q)
    by (intros; apply attention_page_small; lia).
  assert (Hsz : sizes_ok s) by (by destruct Ht as [[? ?] _]).
  change (lane_physical_groups_ su) with (lane_physical_groups_ s) in Hgr. rewrite Hgr.
  set (s' := set_groups _ _).
  assert (Hgroups : lane_physical_groups_ s' = (lane_physical_groups_ s).[lane <- kept]) by done.
  assert (Hatt : host_attention_table_ s' = host_attention_table_ su) by (by rewrite <- Hat).
  assert (Hidx : host_indexer_table_ s' = host_indexer_table_ su) by (by rewrite <- Hix).
  split.
  - split; [split|exact (unmap_tables lane kept g s s' Ht Hown (conj Hl0 Hl1) Hpages Hgroups Hatt Hidx)].
    + rewrite Hgroups. by autorewrite with vecrw.
    + rewrite Hgroups. apply Forall_vset; [done|].
      pose proof (Forall_vget _ _ _ _ Hnd Hown) as Hnd'. by apply NoDup_app in Hnd' as [? _].
    + rewrite Hgroups. eapply counted_perm; [|exact Hcnt2]. by rewrite (Hp2 kept), <- app_assoc.
  - done.
  - intros [Hone _]%Forall_cons_1. change (free_physical_groups_ s') with (free_physical_groups_ (drop_reference su g)).
    rewrite (drop_reference_free _ _ _ Hcnt1).
    assert (Hz : count_refs g (kept ++ rest ++ ext) = 0).
    { rewrite (count_refs_perm g _ (g :: (kept ++ rest ++ ext))) in Hone.
      - rewrite count_refs_cons_eq in Hone. lia.
      - rewrite Hp1. solve_Permutation. }
    by rewrite Hz.
  - change (vsize [g]) with 1. unfold same_cells. rewrite Hatt, Hidx.
    apply (write_entries_same lane (vsize kept)); done || lia.
  - change (vsize [g]) with 1. unfold cleared. rewrite Hatt, Hidx.
    apply (unmap_cleared lane (vsize kept) s); done || lia.
Qed.

Lemma cleared_extend lane lo mid hi s s' :
  lo <= mid <= hi -> cleared lane mid hi s -> same_cells lane lo mid s s' -> cleared lane lo mid s' ->
  cleared lane lo hi s'.
Proof.
  intros Hm [Ha Hi] [Sa Si] [Ha' Hi']. split; intros x Hx Hin.
  - destruct (Z.lt_ge_cases (x / 4) mid); [apply Ha'; lia|].
    rewrite Sa by lia. apply Ha; lia.
  - destruct (Z.lt_ge_cases x mid); [apply Hi'; lia|]. rewrite Si by lia. apply Hi; lia.
Qed.

Lemma same_cells_trans' lane lo mid hi s1 s2 s3 :
  lo <= mid <= hi -> same_cells lane mid hi s1 s2 -> same_cells lane lo mid s2 s3 ->
  same_cells lane lo hi s1 s3.
Proof.
  intros Hm [Ha1 Hi1] [Ha2 Hi2]. split; intros lane' x Hx Hne.
  - rewrite Ha2 by (done || lia). apply Ha1; [done|lia].
  - rewrite Hi2 by (done || lia). apply Hi1; [done|lia].
Qed.

Lemma shrink_lane_spec ext gone : forall s lane kept,
  store_ok ext s -> (lane_physical_groups_ s).[lane] = Some (kept ++ gone) ->
  exists s', shrink_lane p lane (length gone) s = Ok s' /\ shrunk ext lane kept gone s s'.
Proof.
  induction gone as [|g gone IH] using rev_ind; intros s lane kept Hok Hown.
  - rewrite app_nil_r in Hown. exists s. split; [done|].
    split; [done|symmetry; by apply vset_id|done|by split|].
    change (vsize []) with 0. split; intros x Hx Hin; lia.
  - rewrite app_assoc in Hown. rewrite length_app, Nat.add_1_r. cbn [shrink_lane]. unfold vat. rewrite Hown.
    cbn [mbind result_bind]. rewrite last_snoc, length_app, Nat.add_sub, take_app_length.
    pose proof (shrink_one ext s lane (kept ++ gone) g Hok Hown) as [Hok1 Hg1 Hf1 Hc1 He1].
    cbv zeta in *. set (s1 := set_groups _ _) in *.
    destruct (IH s1 lane kept) as (s2 & Hrun & [Hok2 Hg2 Hf2 Hc2 He2]).
    { done. }
    { rewrite Hg1. apply vget_vset_eq. by apply vget_Some_bounds in Hown. }
    exists s2. split; [done|]. pose proof (vsize_nonneg gone).
    rewrite vsize_app in Hc1, He1. change (vsize [g]) with 1 in Hc1, He1. split.
    + done.
    + by rewrite Hg2, Hg1, vset_vset_eq.
    + intros [Hgone Hone]%Forall_app. rewrite Hf2; [rewrite Hf1 by done; by rewrite <- app_assoc|].
      destruct (concat_vset _ _ _ Hown) as (rest & Hp1 & Hp2). rewrite Hg1.
      destruct Hok as [[_ Hnd _] _]. pose proof (Forall_vget _ _ _ _ Hnd Hown) as Hnd'.
      apply NoDup_app in Hnd' as (_ & Hdis & _).
      apply Forall_forall. intros x Hx. rewrite Forall_forall in Hgone. rewrite <- (Hgone x Hx).
      rewrite (count_refs_perm x _ _ (Permutation_app_tail ext (Hp2 (kept ++ gone)))).
      rewrite (count_refs_perm x _ _ (Permutation_app_tail ext Hp1)).
      rewrite !count_refs_app. enough (count_refs x [g] = 0) by lia.
      rewrite count_refs_cons_ne; [done|].
      intros ->. apply (Hdis g); [apply elem_of_app; by right|]. left.
    + rewrite vsize_app, Z.add_assoc. change (vsize [g]) with 1.
      by apply (same_cells_trans' lane _ (vsize kept + vsize gone) _ s s1); [lia|..].
    + rewrite vsize_app, Z.add_assoc. change (vsize [g]) with 1.
      by apply (cleared_extend lane _ (vsize kept + vsize gone) _ s1); [lia|..].
Qed.

(** ** Lists of references *)
Definition same_tables (s s' : GroupStore) : Prop :=
  lane_physical_groups_ s' = lane_physical_groups_ s /\
  host_attention_table_ s' = host_attention_table_ s /\ host_indexer_table_ s' = host_indexer_table_ s.

Lemma counted_drop_all gs : forall refs s,
  counted (gs ++ refs) (physical_group_refcounts_ s) (free_physical_groups_ s) ->
  let s' := fold_left drop_reference gs s in
  counted refs (physical_group_refcounts_ s') (free_physical_groups_ s') /\ same_tables s s'.
Proof.
  induction gs as [|g gs IH]; intros refs s Hc; cbn [fold_left]; [split; [done|by repeat split]|].
  destruct (counted_drop (gs ++ refs) g s Hc) as (Hc1 & H1 & H2 & H3).
  destruct (IH refs _ Hc1) as (Hc2 & H4 & H5 & H6). split; [done|].
  unfold same_tables. split; [|split]; congruence.
Qed.

Lemma counted_add_all gs : forall refs s,
  counted refs (physical_group_refcounts_ s) (free_physical_groups_ s) ->
  Forall (fun g => g ∈ refs) gs -> vsize refs + vsize gs <= U32_MAX ->
  let s' := fold_left add_reference gs s in
  counted (gs ++ refs) (physical_group_refcounts_ s') (free_physical_groups_ s') /\ same_tables s s'.
Proof.
  induction gs as [|g gs IH]; intros refs s Hc Hin Hmax; cbn [fold_left]; [split; [done|by repeat split]|].
  apply Forall_cons_1 in Hin as [Hg Hin]. rewrite vsize_cons in Hmax. pose proof (vsize_nonneg gs).
  destruct (counted_add refs g s Hc Hg ltac:(lia)) as (Hc1 & H1 & H2 & H3).
  destruct (IH (g :: refs) _ Hc1) as (Hc2 & H4 & H5 & H6).
  - eapply Forall_impl; [exact Hin|]. intros x Hx. by right.
  - rewrite vsize_cons. lia.
  - split; [|unfold same_tables; split; [|split]; congruence].
    eapply counted_perm; [|exact Hc2]. by rewrite <- Permutation_middle.
Qed.

(** ** Whole rows *)
Lemma clear_row_size lane w table : vsize (clear_row lane w table) = vsize table.
Proof.
  unfold clear_row. generalize (seqZ 0 w). intros qs. revert table.
  induction qs as [|q qs IH]; intros table; cbn [fold_left]; [done|]. rewrite IH. by autorewrite with vecrw.
Qed.

Lemma clear_row_other lane w table lane' x :
  lane' <> lane -> 0 <= x < w -> (clear_row lane w table).[lane' * w + x] = table.[lane' * w + x].
Proof.
  intros Hne Hx. unfold clear_row. assert (Hall : Forall (fun q => 0 <= q < w) (seqZ 0 w))
    by (apply Forall_seqZ; lia).
  revert table. induction Hall as [|q qs Hq _ IH]; intros table; cbn [fold_left]; [done|].
  rewrite IH. apply vget_vset_ne. intros Heq. apply cell_inj in Heq as [? _]; [congruence|done|done].
Qed.

Lemma attach_all_spec lane gs : forall k s,
  0 <= lane < C -> 0 <= k -> sizes_ok s -> Forall (fun g => 0 <= g < N) gs ->
  let s' := fold_left (attach_group p lane) (zip (seqZ k (vsize gs)) gs) s in
  sizes_ok s' /\ lane_physical_groups_ s' = lane_physical_groups_ s /\
  physical_group_refcounts_ s' = physical_group_refcounts_ s /\
  free_physical_groups_ s' = free_physical_groups_ s /\
  (forall lane' j g, lane' <> lane \/ j < k -> 0 <= j -> entry_ok s lane' j g -> entry_ok s' lane' j g) /\
  (forall j g, gs.[j] = Some g -> entry_ok s' lane (k + j) g).
Proof.
  induction gs as [|g gs IH]; intros k s Hl Hk Hsz Hr.
  { do 4 (split; [done|]). split; [done|]. intros j g Hj. destruct (vget_Some_bounds _ _ _ Hj) as [? Hj'].
    change (vsize []) with 0 in Hj'. lia. }
  apply Forall_cons_1 in Hr as [Hg Hr]. rewrite vsize_cons, seqZ_cons by (pose proof (vsize_nonneg gs); lia).
  replace (Z.pred (1 + vsize gs)) with (vsize gs) by lia. cbn [zip_with fold_left].
  set (s1 := attach_group p lane s (k, g)).
  assert (Hsz1 : sizes_ok s1).
  { unfold s1, attach_group, sizes_ok.
    destruct (write_entries_sizes lane k (fun q => k * 4 + q) (physical_page g) (to_i32 g) s) as [-> ->].
    exact Hsz. }
  destruct (IH (Z.succ k) s1 Hl ltac:(lia) Hsz1 Hr) as (H1 & H2 & H3 & H4 & H5 & H6). cbv zeta in *.
  set (s2 := fold_left _ _ s1) in *.
  split; [done|]. split; [done|]. split; [done|]. split; [done|]. split.
  - intros lane' j x Hor Hj He. apply H5; [lia|done|]. apply entry_ok_other; done || lia.
  - intros j x Hj. destruct (vget_Some_bounds _ _ _ Hj) as [Hj0 _].
    destruct (decide (j = 0)) as [->|Hne].
    + injection Hj as <-. rewrite Z.add_0_r. apply H5; [lia|lia|]. apply entry_ok_new; done || lia.
    + rewrite vget_cons_succ in Hj by lia. apply H6 in Hj. by replace (k + j) with (Z.succ k + (j - 1)) by lia.
Qed.
End Store.

Lemma set_groups_id s : set_groups (lane_physical_groups_ s) s = s.
Proof. by destruct s. Qed.

(** * The ledger invariant *)
Definition counts_valid (p : FlashNextRuntimePlan) (counts : list Z) : Prop :=
  vsize counts = cf_max_concurrency (pl_config p) /\ Forall (fun c => 0 <= c) counts.

(** No prefill flag and no lanes linger when nothing is pending; a pending
    prefill chunk has no row lanes. *)
Definition flags_valid (t : Transaction) : Prop :=
  (has_pending_batch_ t = false -> is_pending_prefill_chunk_ t = false /\ pending_lane_indices_ t = []) /\
  (is_pending_prefill_chunk_ t = true -> pending_lane_indices_ t = []).

Definition tx_valid (p : FlashNextRuntimePlan) (t : Transaction) : Prop :=
  counts_valid p (previous_group_counts_ t) /\ flags_valid t.

Definition free_lanes_empty (lanes : list LaneInfo) (groups : list (list Z)) : Prop :=
  forall lane info, lanes.[lane] = Some info -> li_state info = Free -> groups.[lane] = Some [].

Record ledger_ok (ext : list Z) (l : FlashNextLaneLedger) : Prop := {
  lo_plan : plan_ok (plan_ l);
  lo_lanes : vsize (lanes_ l) = max_concurrency l;
  lo_previous : tx_valid (plan_ l) (g_tx l);
  lo_store : store_ok (plan_ l) ext (g_store l);
  lo_free : free_lanes_empty (lanes_ l) (lane_physical_groups_ (g_store l));
}.

(** Lanes may wake up, none falls asleep. *)
Definition only_wakes (lanes lanes' : list LaneInfo) : Prop :=
  vsize lanes' = vsize lanes /\
  forall lane info, lanes'.[lane] = Some info -> li_state info = Free ->
    exists info0, lanes.[lane] = Some info0 /\ li_state info0 = Free.

Lemma only_wakes_refl lanes : only_wakes lanes lanes.
Proof. split; [done|]. eauto. Qed.

Lemma only_wakes_trans l1 l2 l3 : only_wakes l1 l2 -> only_wakes l2 l3 -> only_wakes l1 l3.
Proof.
  intros [H1 W1] [H2 W2]. split; [congruence|]. intros lane info H Hf.
  destruct (W2 _ _ H Hf) as (info0 & H0 & Hf0). by eapply W1.
Qed.

Lemma only_wakes_set lanes lane info : li_state info <> Free -> only_wakes lanes lanes.[lane <- info].
Proof.
  intros Hne. split; [by autorewrite with vecrw|]. intros x i Hx Hf.
  destruct (vget_Some_bounds _ _ _ Hx) as [Hx0 Hx1]. autorewrite with vecrw in Hx1.
  destruct (decide (x = lane)) as [->|Hxl].
  - rewrite vget_vset_eq in Hx by lia. by simplify_eq.
  - rewrite vget_vset_ne in Hx by congruence. eauto.
Qed.

Lemma only_wakes_mark st lanes lane : st <> Free -> only_wakes lanes (mark_state st lanes lane).
Proof.
  intros Hst. unfold mark_state. destruct (lanes.[lane]); [by apply only_wakes_set|apply only_wakes_refl].
Qed.

Lemma only_wakes_mark_all st : st <> Free -> forall ls lanes, only_wakes lanes (fold_left (mark_state st) ls lanes).
Proof.
  intros Hst. induction ls as [|x ls IH]; intros lanes; cbn [fold_left]; [apply only_wakes_refl|].
  eapply only_wakes_trans; [|apply IH]. by apply only_wakes_mark.
Qed.

Lemma only_wakes_advance lanes lane tokens lanes' :
  advance_at lanes lane tokens = Ok lanes' -> only_wakes lanes lanes'.
Proof. intros H. apply bind_Ok in H as (info & _ & [= <-]). by apply only_wakes_set. Qed.

(** A new store, lanes that only wake, and valid counts keep the invariant. *)
Lemma ledger_ok_change ext l lanes s t ext' :
  ledger_ok ext l -> only_wakes (lanes_ l) lanes -> store_ok (plan_ l) ext' s ->
  tx_valid (plan_ l) t ->
  (forall lane info, (lanes_ l).[lane] = Some info -> li_state info = Free ->
     (lane_physical_groups_ (g_store l)).[lane] = Some [] -> (lane_physical_groups_ s).[lane] = Some []) ->
  ledger_ok ext' (mkLedger (g_this l) (plan_ l) lanes s t).
Proof.
  intros [] [Hs Hw] Hst Ht Hgr. split; cbn; try done.
  - unfold max_concurrency in *. cbn. congruence.
  - intros lane info Hl Hf. destruct (Hw _ _ Hl Hf) as (info0 & Hl0 & Hf0).
    eapply Hgr; [done|done|]. by eapply lo_free0.
Qed.

Lemma ledger_ok_same_store ext l lanes t :
  ledger_ok ext l -> only_wakes (lanes_ l) lanes -> tx_valid (plan_ l) t ->
  ledger_ok ext (mkLedger (g_this l) (plan_ l) lanes (g_store l) t).
Proof. intros H Hw Ht. eapply ledger_ok_change; [done|done|apply H|done|done]. Qed.

Lemma counts_valid_set p counts lane n : counts_valid p counts -> 0 <= n -> counts_valid p counts.[lane <- n].
Proof. intros [Hs Hf] Hn. split; [by autorewrite with vecrw|]. by apply Forall_vset. Qed.

Lemma validate_handle_Ok l h st info :
  validate_handle l h st = Ok info ->
  (lanes_ l).[lh_lane h] = Some info /\ li_state info = st /\ li_owner info = lh_owner h /\
  li_epoch info = lh_epoch h /\ 0 <= lh_lane h < max_concurrency l.
Proof.
  intros H. unfold validate_handle, lane_of_handle in H. apply bind_Ok in H as (info' & H & H').
  apply bind_Ok in H' as (? & G%throw_if_Ok & [= <-]).
  apply bind_Ok in H as (? & G1%throw_if_Ok & H). apply bind_Ok in H as (info & Hl%vat_Ok & H).
  apply bind_Ok in H as (? & G2%throw_if_Ok & H). apply bind_Ok in H as (? & G3%throw_if_Ok & [= <-]).
  apply negb_false_iff, bool_decide_eq_true in G. simp_bool. destruct (vget_Some_bounds _ _ _ Hl).
  split; [done|]. split; [done|]. split; [done|]. split; [done|lia].
Qed.

(** Growing a lane that is not free. *)
Lemma ledger_ok_grow ext l lane info owned n s t :
  ledger_ok ext l -> (lanes_ l).[lane] = Some info -> li_state info <> Free ->
  (lane_physical_groups_ (g_store l)).[lane] = Some owned ->
  (n <= length (free_physical_groups_ (g_store l)))%nat ->
  grow_lane (plan_ l) lane n (g_store l) = Ok s ->
  tx_valid (plan_ l) t ->
  ledger_ok ext (mkLedger (g_this l) (plan_ l) (lanes_ l) s t).
Proof.
  intros Hok Hl Hnf Hown Hn Hrun Ht.
  destruct (grow_lane_spec (plan_ l) (lo_plan _ _ Hok) ext n (g_store l) lane owned (lo_store _ _ Hok) Hown Hn)
    as (s' & Hrun' & Hg). rewrite Hrun in Hrun'. injection Hrun' as <-.
  apply (ledger_ok_change ext l); [done|apply only_wakes_refl|apply Hg|done|].
  intros x i Hx Hf He. rewrite (gr_groups _ _ _ _ _ _ _ Hg). rewrite vget_vset_ne; [done|]. congruence.
Qed.

Lemma grow_lane_enough p lane n : forall s s',
  grow_lane p lane n s = Ok s' -> (n <= length (free_physical_groups_ s))%nat.
Proof.
  induction n as [|n IH]; intros s s' H; [lia|]. cbn [grow_lane] in H. apply bind_Ok in H as (owned & _ & H).
  destruct (free_physical_groups_ s) as [|g free]; [done|]. apply IH in H. cbn in *. lia.
Qed.


(** ** Operations that keep the invariant, whether they return or throw *)
Section KeepsLedger.
Context (ext : list Z).
Notation P := (ledger_ok ext).

Lemma set_previous_ok l lane n :
  P l -> 0 <= n ->
  tx_valid (plan_ l) (set_previous_counts (previous_group_counts_ (g_tx l)).[lane <- n] (g_tx l)).
Proof. intros H Hn. destruct (lo_previous _ _ H) as [Hc Hf]. split; [by apply counts_valid_set|done]. Qed.

Lemma close_round_ok l : P l -> is_pending_prefill_chunk_ (g_tx l) = false -> tx_valid (plan_ l) (close_round (g_tx l)).
Proof. intros H Hf. destruct (lo_previous _ _ H) as [Hc _]. split; [done|]. by split. Qed.

Lemma close_prefill_ok l tx : P l -> stale_prefill l tx = false ->
  tx_valid (plan_ l) (close_prefill (g_tx l)).
Proof.
  intros H Hs. destruct (lo_previous _ _ H) as [Hc [_ Hf]]. unfold stale_prefill in Hs. simp_bool.
  split; [done|]. split; [intros _; split; [done|by apply Hf]|done].
Qed.

Lemma keeps_remember lane : keeps P (remember_groups lane).
Proof.
  intros l Hl. unfold remember_groups. step_M. step_M; [done|].
  apply ledger_ok_same_store; [done|apply only_wakes_refl|]. apply set_previous_ok; [done|apply vsize_nonneg].
Qed.

(** Facts about a lane that the growth operations leave alone. *)
Definition lane_awake (lane : Z) (l : FlashNextLaneLedger) : Prop :=
  exists info, (lanes_ l).[lane] = Some info /\ li_state info <> Free.

Lemma extend_lane_ok lane req l :
  P l -> lane_awake lane l -> P (fst (extend_lane lane req l)).
Proof.
  intros Hl (info & Hi & Hnf). unfold extend_lane. step_M. step_M; [done|].
  destruct (vsize a <? req); [|done]. step_M; [done|]. step_M; [done|].
  apply vat_Ok in H. apply (ledger_ok_grow ext l lane info a (Z.to_nat (req - vsize a))); try done.
  - by eapply grow_lane_enough.
  - apply Hl.
Qed.

Definition tx_flags (t : Transaction) : bool * bool * list Z :=
  (has_pending_batch_ t, is_pending_prefill_chunk_ t, pending_lane_indices_ t).

Definition same_tx (l l' : FlashNextLaneLedger) : Prop := g_tx l' = g_tx l.

Lemma keeps_tx_rollback_lane l lane : keeps (same_tx l) (rollback_lane lane).
Proof. intros l' Hl. unfold rollback_lane. step_M. do 2 (step_M; [done|]). by step_M. Qed.

Lemma assign_groups_ok row l :
  P l -> lane_awake (fst row) l ->
  P (fst (assign_groups row l)) /\ lanes_ (fst (assign_groups row l)) = lanes_ l /\
  tx_flags (g_tx (fst (assign_groups row l))) = tx_flags (g_tx l).
Proof.
  intros Hl (info & Hi & Hnf). destruct row as [lane req]. cbn [fst] in *. unfold assign_groups.
  set (Q := fun l' => P l' /\ lanes_ l' = lanes_ l /\ tx_flags (g_tx l') = tx_flags (g_tx l)).
  apply (after_get Q).
  apply (after_lift Q); [done|]. intros owned Hown%vat_Ok.
  apply (after_put Q).
  set (t := set_previous_counts _ _).
  assert (Ht : tx_valid (plan_ l) t)
    by (apply set_previous_ok; [done|apply vsize_nonneg]).
  apply (after_lift Q).
  { split; [|done]. by apply ledger_ok_same_store; [|apply only_wakes_refl|]. }
  intros s Hs. split; [|done].
  apply (ledger_ok_grow ext l lane info owned (Z.to_nat (req - vsize owned))); try done.
  by eapply grow_lane_enough.
Qed.

Lemma assign_all_ok lanes0 flags0 rows :
  (forall row, row ∈ rows -> exists info, lanes0.[fst row] = Some info /\ li_state info <> Free) ->
  keeps (fun l => P l /\ lanes_ l = lanes0 /\ tx_flags (g_tx l) = flags0) (mfor assign_groups rows).
Proof.
  intros Hrows. apply keeps_mfor. intros row Hin l (Hl & Hlanes & Hflags).
  destruct (assign_groups_ok row l Hl) as (H1 & H2 & H3).
  - destruct (Hrows row Hin) as (info & ? & ?). exists info. by rewrite Hlanes.
  - split; [done|]. split; congruence.
Qed.

(** The dry run accepts active lanes only. *)
Lemma dry_run_awake l meta requests : forall d d',
  (forall row, row ∈ dr_rows d -> lane_awake (fst row) l) ->
  rfor (dry_run_request l meta) d requests = Ok d' ->
  forall row, row ∈ dr_rows d' -> lane_awake (fst row) l.
Proof.
  induction requests as [|req requests IH]; intros d d' Hd H; cbn [rfor] in H; [by simplify_eq|].
  apply bind_Ok in H as (d1 & H1 & H2). eapply IH; [|exact H2].
  unfold dry_run_request in H1. apply bind_Ok in H1 as (info & Hv & H1).
  apply bind_Ok in H1 as (? & _ & H1). apply bind_Ok in H1 as (? & _ & H1). apply bind_Ok in H1 as (? & _ & H1).
  apply bind_Ok in H1 as (? & _ & H1). apply bind_Ok in H1 as (? & _ & [= <-]). cbn [dr_rows].
  intros row [Hin|Hin%list_elem_of_singleton]%elem_of_app; [by apply Hd|]. subst row.
  apply validate_handle_Ok in Hv as (Hi & Hs & _). exists info. by rewrite Hs.
Qed.

Lemma keeps_begin_round requests meta : keeps P (begin_round requests meta).
Proof.
  intros l Hl. unfold begin_round. step_M. step_M; [done|]. step_M; [done|]. step_M; [done|].
  step_M; [done|]. step_M; [done|].
  unfold mbind at 1, M_bind at 1.
  pose proof (assign_all_ok (lanes_ l) (tx_flags (g_tx l)) (dr_rows a)) as Hk.
  specialize (Hk (dry_run_awake l meta _ (mkDry 0 0 0 [] []) a ltac:(by intros row ?%not_elem_of_nil) H2)
                l (conj Hl (conj eq_refl eq_refl))).
  destruct (mfor assign_groups (dr_rows a) l) as [l' [u|e]]; cbn [fst] in Hk; [|apply Hk].
  destruct Hk as (Hl' & _ & [= _ Hpre _]). step_M.
  apply ledger_ok_same_store; [done|by apply only_wakes_mark_all|].
  destruct (lo_previous _ _ Hl') as [Hc _], (lo_previous _ _ Hl) as [_ [Hf _]].
  split; [done|]. destruct (Hf H) as [Hpre0 _]. split; [done|]. cbn. intros Hp. congruence.
Qed.

Lemma lane_awake_of_handle l h info : validate_handle l h Active = Ok info -> lane_awake (lh_lane h) l.
Proof. intros (Hi & Hs & _)%validate_handle_Ok. exists info. by rewrite Hs. Qed.

Lemma reserve_mtp_pages_ok h last l : P l -> P (fst (reserve_mtp_pages h last l)).
Proof.
  intros Hl. unfold reserve_mtp_pages. step_M. step_M; [done|]. step_M; [done|].
  apply extend_lane_ok; [done|]. by eapply lane_awake_of_handle.
Qed.

(** What opening a transaction on one lane keeps, beside the invariant. *)
Definition opening (l l' : FlashNextLaneLedger) : Prop :=
  lanes_ l' = lanes_ l /\ tx_flags (g_tx l') = tx_flags (g_tx l).

Lemma opening_remember l lane : keeps (opening l) (remember_groups lane).
Proof. intros l' []. unfold remember_groups. step_M. by step_M. Qed.

Lemma opening_extend l lane req : keeps (opening l) (extend_lane lane req).
Proof.
  intros l' []. unfold extend_lane. step_M. step_M; [done|]. destruct (vsize a <? req); [|done].
  step_M; [done|]. by step_M.
Qed.

Lemma opening_reserve l h last : keeps (opening l) (reserve_mtp_pages h last).
Proof.
  intros l' Hl. unfold reserve_mtp_pages. step_M. step_M; [done|]. step_M; [done|]. by apply opening_extend.
Qed.

(** The flags of a transaction opened when none was pending. *)
Lemma tx_valid_open l l' id prefill reqs lanes plane tokens first :
  P l -> P l' -> opening l l' -> has_pending_batch_ (g_tx l) = false ->
  prefill = is_pending_prefill_chunk_ (g_tx l') \/ prefill = true /\ lanes = pending_lane_indices_ (g_tx l') ->
  tx_valid (plan_ l') (mkTx id true prefill reqs lanes (previous_group_counts_ (g_tx l')) plane tokens first).
Proof.
  intros Hl Hl' [_ [= _ Hpre Hlns]] Hnp Hor. destruct (lo_previous _ _ Hl') as [Hc _].
  destruct (lo_previous _ _ Hl) as [_ [Hf _]]. destruct (Hf Hnp) as [Hpre0 Hnil].
  split; [done|]. split; [done|]. cbn. intros Htrue. destruct Hor as [Hor|[_ ->]]; congruence.
Qed.

Lemma keeps_begin_prefill h tokens first : keeps P (begin_prefill_chunk h tokens first).
Proof.
  intros l Hl. unfold begin_prefill_chunk. step_M. do 6 (step_M; [done|]).
  pose proof (lane_awake_of_handle l h a H0) as Haw.
  apply (after_framed P (opening l)); [done|done|apply keeps_remember|apply opening_remember|].
  intros _ l1 Hl1 Ho1. unfold mbind at 1, M_bind at 1.
  pose proof (extend_lane_ok (lh_lane h) (groups_for (first + to_i32 (wrap32 (vsize tokens)) - 1)) l1 Hl1) as Hl2.
  pose proof (opening_extend l (lh_lane h) (groups_for (first + to_i32 (wrap32 (vsize tokens)) - 1)) l1 Ho1) as Ho2.
  destruct (extend_lane _ _ l1) as [l2 [u'|e]]; cbn [fst] in Hl2, Ho2;
    (assert (P l2) as Hok2 by (apply Hl2; unfold lane_awake; by rewrite (proj1 Ho1))); [|done].
  step_M. apply ledger_ok_same_store; [done|by apply only_wakes_mark|].
  apply (tx_valid_open l); auto.
Qed.

Lemma keeps_begin_speculative h anchor drafts first meta :
  keeps P (begin_speculative_round h anchor drafts first meta).
Proof.
  intros l Hl. unfold begin_speculative_round. step_M. do 5 (step_M; [done|]).
  apply (after_framed P (opening l)); [done|done|apply keeps_remember|apply opening_remember|]. intros _ l1 Hl1 Ho1.
  apply (after_framed P (opening l));
    [done|done|intros l2 Hl2; by apply reserve_mtp_pages_ok|apply opening_reserve|]. intros _ l2 Hl2 Ho2.
  step_M; [done|]. step_M. apply ledger_ok_same_store; [done|apply only_wakes_refl|].
  apply (tx_valid_open l); auto.
Qed.

Lemma keeps_rollback_lane lane : keeps P (rollback_lane lane).
Proof.
  intros l Hl. unfold rollback_lane. step_M. step_M; [done|]. step_M; [done|]. step_M; [done|].
  apply vat_Ok in H, H0. destruct (lo_previous _ _ Hl) as [[_ Hpos] _].
  pose proof (Forall_vget _ _ _ _ Hpos H) as Hprev. cbn in Hprev.
  set (n := Z.to_nat (vsize a0 - a)) in *. set (kept := take (length a0 - n) a0). set (gone := drop (length a0 - n) a0).
  assert (Hsplit : a0 = kept ++ gone) by (symmetry; apply take_drop).
  assert (Hn : n = length gone) by (unfold gone, n, vsize; rewrite length_drop; lia).
  rewrite Hsplit in H0. rewrite Hn in H1.
  destruct (shrink_lane_spec (plan_ l) (lo_plan _ _ Hl) ext gone (g_store l) lane kept (lo_store _ _ Hl) H0)
    as (s' & Hrun & Hs). rewrite H1 in Hrun. injection Hrun as <-.
  apply (ledger_ok_change ext l); [done|by apply only_wakes_mark|apply Hs|apply Hl|].
  intros x i Hx Hf He. rewrite (sk_groups _ _ _ _ _ _ _ Hs).
  destruct (decide (x = lane)) as [->|Hne]; [|by rewrite vget_vset_ne].
  rewrite He in H0. injection H0 as Hnil. symmetry in Hnil. apply app_eq_nil in Hnil as [Hk _].
  rewrite Hk. apply vget_vset_eq. by apply vget_Some_bounds in He.
Qed.

Lemma keeps_rollback_prefill tx : keeps P (rollback_prepared_prefill_chunk tx).
Proof.
  intros l Hl. unfold rollback_prepared_prefill_chunk. step_M. destruct (stale_prefill l tx) eqn:Hst; [done|].
  apply (after_framed P (same_tx l));
    [done|done|apply keeps_rollback_lane|apply keeps_tx_rollback_lane|]. intros _ l1 Hl1 Ht.
  apply ledger_ok_same_store; [done|apply only_wakes_refl|]. apply (close_prefill_ok l1 tx); [done|].
  unfold stale_prefill. by rewrite (Ht : _ = _).
Qed.

Lemma keeps_rollback_round tx : keeps P (rollback_prepared_round tx).
Proof.
  intros l Hl. unfold rollback_prepared_round. step_M. destruct (stale l tx); [done|].
  destruct (is_pending_prefill_chunk_ (g_tx l)) eqn:Hpre; [by apply keeps_rollback_prefill|].
  apply (after_framed P (same_tx l));
    [done|done|apply keeps_mfor; intros x _; apply keeps_rollback_lane
    |apply keeps_mfor; intros x _; apply keeps_tx_rollback_lane|]. intros _ l1 Hl1 Ht.
  apply ledger_ok_same_store; [done|apply only_wakes_refl|]. apply close_round_ok; [done|by rewrite (Ht : _ = _)].
Qed.

Lemma abort_prefill_ok tx l : P l -> P (abort_prefill_chunk tx l).
Proof.
  intros Hl. unfold abort_prefill_chunk. destruct (stale_prefill l tx) eqn:Hst; [done|].
  apply (ledger_ok_same_store ext l); [done|by apply only_wakes_mark|by apply (close_prefill_ok l tx)].
Qed.

Lemma abort_round_ok tx l : P l -> P (abort_round tx l).
Proof.
  intros Hl. unfold abort_round. destruct (stale l tx); [done|].
  destruct (is_pending_prefill_chunk_ (g_tx l)) eqn:Hpre; [by apply abort_prefill_ok|].
  apply (ledger_ok_same_store ext l); [done|by apply only_wakes_mark_all|by apply close_round_ok].
Qed.

Lemma keeps_commit_prefill tx : keeps P (commit_prefill_chunk tx).
Proof.
  intros l Hl. unfold commit_prefill_chunk. step_M. step_M; [done|]. step_M; [done|].
  apply (ledger_ok_same_store ext l); [done|by eapply only_wakes_advance|by apply (close_prefill_ok l tx)].
Qed.

Lemma commit_rows_wake rows : forall lanes lanes',
  rfor commit_row lanes rows = Ok lanes' -> only_wakes lanes lanes'.
Proof.
  induction rows as [|[[lane req] acc] rows IH]; intros lanes lanes' H; cbn [rfor] in H.
  - injection H as <-. apply only_wakes_refl.
  - apply bind_Ok in H as (l1 & H1 & H2). eapply only_wakes_trans; [by eapply only_wakes_advance|by apply IH].
Qed.

Lemma keeps_allocate owner : keeps P (allocate_lane owner).
Proof.
  intros l Hl. unfold allocate_lane. step_M. destruct (find_index is_free (lanes_ l)) as [[k info]|] eqn:E; [|done].
  apply find_index_Some in E as [Hk Hfree]. step_M.
  assert (Hat : (lanes_ l).[Z.of_nat k] = Some info)
    by (unfold vget; rewrite (proj2 (Z.leb_le 0 (Z.of_nat k))), Nat2Z.id by lia; done).
  apply bool_decide_eq_true in Hfree. pose proof (lo_free _ _ Hl _ _ Hat Hfree) as Hnil.
  assert (Hsame : (lane_physical_groups_ (g_store l)).[Z.of_nat k <- []] = lane_physical_groups_ (g_store l))
    by (by apply vset_id).
  cbn [mret M_ret fst].
  apply (ledger_ok_change ext l); [done|by apply only_wakes_set| |by apply set_previous_ok|].
  - rewrite Hsame, set_groups_id. apply Hl.
  - intros x i _ _ He. cbn. by rewrite Hsame.
Qed.
End KeepsLedger.

(** ** Operations that move references to and from clients *)

(** The references of a lane's groups become the caller's. *)
Lemma store_ok_take p ext s lane owned :
  plan_ok p -> store_ok p ext s -> (lane_physical_groups_ s).[lane] = Some owned ->
  store_ok p (owned ++ ext) (set_groups (lane_physical_groups_ s).[lane <- []] s).
Proof.
  intros Hp [[Hl Hnd Hc] [Hsz Hent]] Hown. destruct (concat_vset _ _ _ Hown) as (rest & Hp1 & Hp2).
  split; [split|split]; cbn.
  - by autorewrite with vecrw.
  - apply Forall_vset; [done|constructor].
  - eapply counted_perm; [|exact Hc]. rewrite Hp1, (Hp2 []). solve_Permutation.
  - done.
  - intros lane' owned' j g Hl' Hj. destruct (vget_Some_bounds _ _ _ Hl') as [Hb1 Hb2].
    autorewrite with vecrw in Hb2. destruct (decide (lane' = lane)) as [->|Hne].
    + rewrite vget_vset_eq in Hl' by lia. injection Hl' as <-.
      destruct (vget_Some_bounds _ _ _ Hj) as [? Hj']. change (vsize []) with 0 in Hj'. lia.
    + rewrite vget_vset_ne in Hl' by congruence. by apply (Hent lane' owned').
Qed.

Lemma store_ok_drop p ext gs s :
  store_ok p (gs ++ ext) s -> store_ok p ext (fold_left drop_reference gs s).
Proof.
  intros [[Hl Hnd Hc] [Hsz Hent]].
  destruct (counted_drop_all p gs (concat (lane_physical_groups_ s) ++ ext) s) as (Hc' & Hg & Ha & Hi).
  { eapply counted_perm; [|exact Hc]. solve_Permutation. }
  split; [split|split].
  - by rewrite Hg.
  - by rewrite Hg.
  - by rewrite Hg.
  - by rewrite Ha, Hi.
  - intros lane owned j g. rewrite Hg. unfold entry_ok. rewrite Ha, Hi. apply Hent.
Qed.

Lemma store_ok_add p ext gs s :
  store_ok p ext s -> Forall (fun g => g ∈ concat (lane_physical_groups_ s) ++ ext) gs ->
  vsize (concat (lane_physical_groups_ s) ++ ext) + vsize gs <= U32_MAX ->
  store_ok p (gs ++ ext) (fold_left add_reference gs s).
Proof.
  intros [[Hl Hnd Hc] [Hsz Hent]] Hin Hmax.
  destruct (counted_add_all p gs (concat (lane_physical_groups_ s) ++ ext) s Hc Hin Hmax) as (Hc' & Hg & Ha & Hi).
  split; [split|split].
  - by rewrite Hg.
  - by rewrite Hg.
  - rewrite Hg. eapply counted_perm; [|exact Hc']. solve_Permutation.
  - by rewrite Ha, Hi.
  - intros lane owned j g. rewrite Hg. unfold entry_ok. rewrite Ha, Hi. apply Hent.
Qed.

Lemma store_ok_perm p ext ext' s : ext ≡ₚ ext' -> store_ok p ext s -> store_ok p ext' s.
Proof.
  intros He [[Hl Hnd Hc] Ht]. split; [|done]. split; [done|done|]. eapply counted_perm; [|exact Hc]. by rewrite He.
Qed.

(** Clearing the rows of a lane that maps nothing. *)
Lemma store_ok_clear p ext s lane :
  store_ok p ext s -> (lane_physical_groups_ s).[lane] = Some [] ->
  store_ok p ext (set_tables (clear_row lane (pl_attention_logical_pages p) (host_attention_table_ s))
                    (clear_row lane (pl_indexer_logical_pages p) (host_indexer_table_ s)) s).
Proof.
  intros [Hc [Hsz Hent]] Hown. split; [by destruct Hc; split|]. split; cbn.
  - by rewrite !clear_row_size.
  - intros lane' owned j g Hl' Hj. destruct (vget_Some_bounds _ _ _ Hj) as [Hj0 Hj'].
    destruct (decide (lane' = lane)) as [->|Hne].
    + rewrite Hown in Hl'. injection Hl' as <-. change (vsize []) with 0 in Hj'. lia.
    + destruct (Hent lane' owned j g Hl' Hj) as [Ea Ei]. split; cbn.
      * intros q Hq Hlt. rewrite clear_row_other by (done || lia). by apply Ea.
      * intros Hlt. rewrite clear_row_other by (done || lia). by apply Ei.
Qed.

Lemma store_ok_attach p ext gs s lane :
  plan_ok p -> store_ok p ext s -> (lane_physical_groups_ s).[lane] = Some [] -> NoDup gs ->
  Forall (fun g => g ∈ concat (lane_physical_groups_ s) ++ ext) gs ->
  vsize (concat (lane_physical_groups_ s) ++ ext) + vsize gs <= U32_MAX ->
  let s0 := set_groups (lane_physical_groups_ s).[lane <- gs] s in
  let s1 := fold_left add_reference gs s0 in
  let s2 := fold_left (attach_group p lane) (zip (seqZ 0 (vsize gs)) gs) s1 in
  store_ok p ext (set_tables (host_attention_table_ s2) (host_indexer_table_ s2) s2) /\
  lane_physical_groups_ s2 = (lane_physical_groups_ s).[lane <- gs].
Proof.
  intros Hp [[Hl Hnd Hc] [Hsz Hent]] Hown Hndg Hin Hmax s0 s1 s2.
  destruct (vget_Some_bounds _ _ _ Hown) as [Hb0 Hb1]. rewrite Hl in Hb1.
  destruct (concat_vset _ _ _ Hown) as (rest & Hp1 & Hp2).
  assert (Hrange : Forall (fun g => 0 <= g < pl_main_page_groups p) gs).
  { pose proof (cn_range _ _ _ _ Hc) as Hr. rewrite Forall_forall in Hr, Hin. apply Forall_forall. eauto. }
  destruct (counted_add_all p gs (concat (lane_physical_groups_ s) ++ ext) s0 Hc Hin Hmax) as (Hc1 & Hg1 & Ha1 & Hi1).
  fold s1 in Hc1, Hg1, Ha1, Hi1.
  destruct (attach_all_spec p Hp lane gs 0 s1) as (Hsz2 & Hg2 & Hr2 & Hf2 & Hother & Hnew); [lia|lia| |done|].
  { unfold sizes_ok. by rewrite Ha1, Hi1. }
  fold s2 in Hsz2, Hg2, Hr2, Hf2, Hother, Hnew.
  assert (Hgroups : lane_physical_groups_ s2 = (lane_physical_groups_ s).[lane <- gs]) by (by rewrite Hg2, Hg1).
  split; [|done]. split; [split|split]; cbn [set_tables lane_physical_groups_ physical_group_refcounts_
    free_physical_groups_ host_attention_table_ host_indexer_table_].
  - rewrite Hgroups. by autorewrite with vecrw.
  - rewrite Hgroups. by apply Forall_vset.
  - rewrite Hgroups, Hr2, Hf2. eapply counted_perm; [|exact Hc1]. rewrite Hp1, (Hp2 gs). solve_Permutation.
  - exact Hsz2.
  - intros lane' owned j g Hl' Hj. rewrite Hgroups in Hl'. destruct (vget_Some_bounds _ _ _ Hj) as [Hj0 _].
    change (entry_ok p s2 lane' j g). destruct (decide (lane' = lane)) as [->|Hne].
    + rewrite vget_vset_eq in Hl' by lia. injection Hl' as <-. by apply (Hnew j g).
    + rewrite vget_vset_ne in Hl' by congruence. apply Hother; [by left|done|].
      unfold entry_ok. rewrite Ha1, Hi1. by apply (Hent lane' owned).
Qed.

Lemma fold_add_groups gs s : lane_physical_groups_ (fold_left add_reference gs s) = lane_physical_groups_ s.
Proof.
  revert s. induction gs as [|g gs IH]; intros s; cbn [fold_left]; [done|]. rewrite IH.
  unfold add_reference. by destruct (_.[g]).
Qed.

Lemma fold_drop_groups gs s : lane_physical_groups_ (fold_left drop_reference gs s) = lane_physical_groups_ s.
Proof.
  revert s. induction gs as [|g gs IH]; intros s; cbn [fold_left]; [done|]. rewrite IH.
  unfold drop_reference. by destruct (_.[g]).
Qed.

Lemma fold_drop_set_groups gs gr s :
  fold_left drop_reference gs (set_groups gr s) = set_groups gr (fold_left drop_reference gs s).
Proof.
  revert s. induction gs as [|g gs IH]; intros s; cbn [fold_left]; [done|]. rewrite <- IH. f_equal.
  unfold drop_reference. cbn. by destruct (_.[g]).
Qed.

Lemma release_lane_ok ext h l : ledger_ok ext l -> ledger_ok ext (fst (release_lane h l)).
Proof.
  intros Hl. unfold release_lane. step_M. step_M; [done|]. step_M; [done|].
  apply vat_Ok in H0. pose proof (lo_plan _ _ Hl) as Hp. pose proof (lo_store _ _ Hl) as Hst.
  apply validate_handle_Ok in H as (Hi & Hs & _ & _ & Hrange).
  pose proof (store_ok_drop (plan_ l) ext a0 _ (store_ok_take (plan_ l) ext _ (lh_lane h) a0 Hp Hst H0)) as Hd.
  rewrite fold_drop_set_groups in Hd. destruct (vget_Some_bounds _ _ _ H0) as [_ Hb].
  split; cbn.
  - done.
  - rewrite vsize_vset. apply Hl.
  - by apply set_previous_ok with (ext := ext).
  - rewrite fold_drop_groups. apply (store_ok_clear _ _ _ _ Hd). cbn. apply vget_vset_eq. lia.
  - rewrite fold_drop_groups. intros x i Hx Hf.
    destruct (decide (x = lh_lane h)) as [->|Hne]; [apply vget_vset_eq; lia|].
    rewrite vget_vset_ne in Hx by congruence. rewrite vget_vset_ne by congruence.
    by apply (lo_free _ _ Hl x i).
Qed.

Lemma take_lane_ok ext h l :
  ledger_ok ext l ->
  match take_lane_physical_groups h l with
  | (l', Ok gs) => ledger_ok (gs ++ ext) l'
  | (l', Err _) => l' = l
  end.
Proof.
  intros Hl. unfold take_lane_physical_groups, mget, mlift, mput, mret, M_ret, mbind, M_bind.
  destruct (validate_handle l h Active) as [info|e] eqn:Hv; [|done].
  destruct (vat _ (lh_lane h)) as [gs|e] eqn:Hg; [|done]. apply vat_Ok in Hg.
  apply (ledger_ok_change ext l); [done|apply only_wakes_refl| |by apply set_previous_ok with (ext := ext)|].
  - apply store_ok_take; [apply Hl|apply Hl|done].
  - intros x i Hx Hf He. cbn. destruct (decide (x = lh_lane h)) as [->|Hne].
    + apply vget_vset_eq. by apply vget_Some_bounds in Hg.
    + by rewrite vget_vset_ne by congruence.
Qed.

(** What all references of a ledger and its clients are. *)
Definition references (l : FlashNextLaneLedger) (ext : list Z) : list Z :=
  concat (lane_physical_groups_ (g_store l)) ++ ext.

Lemma acquire_ok ext gs l :
  ledger_ok ext l -> Forall (fun g => g ∈ references l ext) gs ->
  vsize (references l ext) + vsize gs <= U32_MAX ->
  ledger_ok (gs ++ ext) (fst (acquire_physical_groups gs l)).
Proof.
  intros Hl Hin Hmax. apply (ledger_ok_change ext l); [done|apply only_wakes_refl| |apply Hl|].
  - apply store_ok_add; [apply Hl|done|done].
  - intros x i _ _ He. by rewrite fold_add_groups.
Qed.

Lemma release_groups_ok ext ext' gs l :
  ledger_ok ext l -> ext ≡ₚ gs ++ ext' -> ledger_ok ext' (fst (release_physical_groups gs l)).
Proof.
  intros Hl He. apply (ledger_ok_change ext l); [done|apply only_wakes_refl| |apply Hl|].
  - apply store_ok_drop. eapply store_ok_perm; [exact He|apply Hl].
  - intros x i _ _ Hx. by rewrite fold_drop_groups.
Qed.

Lemma attach_ok ext h gs frontier history l :
  ledger_ok ext l -> (lane_physical_groups_ (g_store l)).[lh_lane h] = Some [] -> NoDup gs ->
  Forall (fun g => g ∈ references l ext) gs -> vsize (references l ext) + vsize gs <= U32_MAX ->
  ledger_ok ext (fst (attach_physical_groups h gs frontier history l)).
Proof.
  intros Hl Hnil Hnd Hin Hmax. unfold attach_physical_groups. step_M. step_M; [done|].
  apply validate_handle_Ok in H as (Hi & Hs & _).
  destruct (store_ok_attach (plan_ l) ext gs (g_store l) (lh_lane h) (lo_plan _ _ Hl) (lo_store _ _ Hl) Hnil Hnd Hin Hmax)
    as [Hok Hgr].
  apply (ledger_ok_change ext l); [done| |exact Hok| |].
  - apply only_wakes_set. cbn. by rewrite Hs.
  - apply set_previous_ok with (ext := ext); [done|apply vsize_nonneg].
  - intros x i Hx Hf He. cbn [set_tables lane_physical_groups_]. rewrite Hgr. rewrite vget_vset_ne; [done|].
    intros <-. rewrite Hi in Hx. injection Hx as <-. congruence.
Qed.

Definition pair_ok (ext : list Z) (st : FlashNextLaneLedger * SlotRing) : Prop := ledger_ok ext (fst st).

(** A step on the slots leaves the ledger alone. *)
Lemma after_slots {A B} ext l ring (c : bool) (a : A) (m : M SlotRing A) (k : A -> M (FlashNextLaneLedger * SlotRing) B) :
  ledger_ok ext l -> (forall a' ring', pair_ok ext (fst (k a' (l, ring')))) ->
  pair_ok ext (fst (((if c then mret a else msnd m) ≫= k) (l, ring))).
Proof.
  intros Hl Hk. destruct c; [apply Hk|]. unfold msnd, mbind, M_bind. cbn [fst snd].
  destruct (m ring) as [ring' [a'|e]]; [apply Hk|exact Hl].
Qed.

Lemma commit_round_ok ext tx decisions st : pair_ok ext st -> pair_ok ext (fst (commit_round tx decisions st)).
Proof.
  destruct st as [l ring]. intros Hl. unfold commit_round. step_M. step_M; [done|]. cbn [fst].
  destruct (is_pending_prefill_chunk_ (g_tx l)) eqn:Hpre.
  - destruct decisions as [|[] [|? ?]]; try done.
    + unfold mfst. cbn [fst snd]. pose proof (keeps_commit_prefill ext tx l Hl) as Hk.
      by destruct (commit_prefill_chunk tx l).
    + by apply abort_prefill_ok.
  - step_M; [done|]. step_M; [done|]. apply after_slots; [done|]. intros _ ring'. step_M; [done|].
    apply (ledger_ok_same_store ext l); [done|by eapply commit_rows_wake|by apply (close_round_ok ext)].
Qed.

Lemma commit_speculative_ok ext tx tokens st :
  pair_ok ext st -> pair_ok ext (fst (commit_speculative_round tx tokens st)).
Proof.
  destruct st as [l ring]. intros Hl. unfold commit_speculative_round. step_M. step_M; [done|].
  step_M; [done|]. apply after_slots; [done|]. intros _ ring'. step_M; [done|]. step_M; [done|].
  apply (ledger_ok_same_store ext l); [done|by eapply only_wakes_advance|]. apply (close_round_ok ext); [done|].
  destruct (is_pending_prefill_chunk_ (g_tx l)) eqn:Hpre; [|done]. destruct (lo_previous _ _ Hl) as [_ [_ Hf]].
  apply vat_Ok in H0. cbn [fst] in *. by rewrite (Hf Hpre) in H0.
Qed.

(** * The ledger and its clients *)

(** The ledger, the slot selectors and the references that clients hold. *)
Record lane_system : Type := mkLaneSystem {
  ls_ledger : FlashNextLaneLedger;
  ls_ring : SlotRing;
  ls_ext : list Z;
}.

(** Every public operation, whether it returns or throws. A client takes over
    a lane's references, acquires references to groups that are in use,
    releases references it holds, and attaches groups in use to a lane that
    maps none; there are always fewer than [2 ^ 32] references. *)
Inductive lane_step : lane_system -> lane_system -> Prop :=
  | step_allocate l r e owner :
      lane_step (mkLaneSystem l r e) (mkLaneSystem (fst (allocate_lane owner l)) r e)
  | step_release l r e h :
      lane_step (mkLaneSystem l r e) (mkLaneSystem (fst (release_lane h l)) r e)
  | step_take l r e h l' gs :
      take_lane_physical_groups h l = (l', Ok gs) ->
      lane_step (mkLaneSystem l r e) (mkLaneSystem l' r (gs ++ e))
  | step_acquire l r e gs :
      Forall (fun g => g ∈ references l e) gs -> vsize (references l e) + vsize gs <= U32_MAX ->
      lane_step (mkLaneSystem l r e) (mkLaneSystem (fst (acquire_physical_groups gs l)) r (gs ++ e))
  | step_release_groups l r e gs e' :
      e ≡ₚ gs ++ e' ->
      lane_step (mkLaneSystem l r e) (mkLaneSystem (fst (release_physical_groups gs l)) r e')
  | step_attach l r e h gs frontier history :
      (lane_physical_groups_ (g_store l)).[lh_lane h] = Some [] -> NoDup gs ->
      Forall (fun g => g ∈ references l e) gs -> vsize (references l e) + vsize gs <= U32_MAX ->
      lane_step (mkLaneSystem l r e)
        (mkLaneSystem (fst (attach_physical_groups h gs frontier history l)) r e)
  | step_begin_round l r e requests meta :
      lane_step (mkLaneSystem l r e) (mkLaneSystem (fst (begin_round requests meta l)) r e)
  | step_begin_prefill l r e h tokens first :
      lane_step (mkLaneSystem l r e) (mkLaneSystem (fst (begin_prefill_chunk h tokens first l)) r e)
  | step_begin_speculative l r e h anchor drafts first meta :
      lane_step (mkLaneSystem l r e)
        (mkLaneSystem (fst (begin_speculative_round h anchor drafts first meta l)) r e)
  | step_reserve l r e h last :
      lane_step (mkLaneSystem l r e) (mkLaneSystem (fst (reserve_mtp_pages h last l)) r e)
  | step_rollback l r e tx :
      lane_step (mkLaneSystem l r e) (mkLaneSystem (fst (rollback_prepared_round tx l)) r e)
  | step_rollback_prefill l r e tx :
      lane_step (mkLaneSystem l r e) (mkLaneSystem (fst (rollback_prepared_prefill_chunk tx l)) r e)
  | step_abort l r e tx : lane_step (mkLaneSystem l r e) (mkLaneSystem (abort_round tx l) r e)
  | step_abort_prefill l r e tx :
      lane_step (mkLaneSystem l r e) (mkLaneSystem (abort_prefill_chunk tx l) r e)
  | step_commit l r e tx decisions l' r' x :
      commit_round tx decisions (l, r) = ((l', r'), x) ->
      lane_step (mkLaneSystem l r e) (mkLaneSystem l' r' e)
  | step_commit_speculative l r e tx tokens l' r' x :
      commit_speculative_round tx tokens (l, r) = ((l', r'), x) ->
      lane_step (mkLaneSystem l r e) (mkLaneSystem l' r' e)
  | step_commit_prefill l r e tx :
      lane_step (mkLaneSystem l r e) (mkLaneSystem (fst (commit_prefill_chunk tx l)) r e)
  | step_sync l r e device :
      lane_step (mkLaneSystem l r e) (mkLaneSystem (fst (sync_tables_if_dirty l device)) r e).

Inductive lane_reachable (y0 : lane_system) : lane_system -> Prop :=
  | lane_reach_start : lane_reachable y0 y0
  | lane_reach_step y y' : lane_reachable y0 y -> lane_step y y' -> lane_reachable y0 y'.

Definition system_ledger_ok (y : lane_system) : Prop := ledger_ok (ls_ext y) (ls_ledger y).

Lemma sync_tables_ok ext l device : ledger_ok ext l -> ledger_ok ext (fst (sync_tables_if_dirty l device)).
Proof.
  intros Hl. unfold sync_tables_if_dirty. destruct (block_tables_dirty_ (g_store l)); [|done].
  apply (ledger_ok_change ext l); [done|apply only_wakes_refl| |apply Hl|done].
  destruct (lo_store _ _ Hl) as [[] []]. by split; split.
Qed.

Lemma lane_step_ok y y' : lane_step y y' -> system_ledger_ok y -> system_ledger_ok y'.
Proof.
  intros Hstep. destruct Hstep; unfold system_ledger_ok; cbn [ls_ext ls_ledger]; intros Hl.
  - by apply keeps_allocate.
  - by apply release_lane_ok.
  - pose proof (take_lane_ok e h l Hl) as Ht. by rewrite H in Ht.
  - by apply acquire_ok.
  - by eapply release_groups_ok.
  - by apply attach_ok.
  - by apply keeps_begin_round.
  - by apply keeps_begin_prefill.
  - by apply keeps_begin_speculative.
  - by apply reserve_mtp_pages_ok.
  - by apply keeps_rollback_round.
  - by apply keeps_rollback_prefill.
  - by apply abort_round_ok.
  - by apply abort_prefill_ok.
  - pose proof (commit_round_ok e tx decisions (l, r) Hl) as Hc. by rewrite H in Hc.
  - pose proof (commit_speculative_ok e tx tokens (l, r) Hl) as Hc. by rewrite H in Hc.
  - by apply keeps_commit_prefill.
  - by apply sync_tables_ok.
Qed.

(** ** A new ledger *)
Lemma count_refs_nil g : count_refs g [] = 0.
Proof. done. Qed.

Lemma concat_replicate_nil (n : nat) : concat (replicate n ([] : list Z)) = [].
Proof. by induction n. Qed.

Lemma make_store_ok this p : plan_ok p -> store_ok p [] (g_store (make_ledger this p)).
Proof.
  intros Hp. pose proof (po_lanes p Hp). pose proof (po_groups p Hp). pose proof (po_context p Hp).
  assert (0 <= pl_attention_logical_pages p) by (rewrite (po_attention p Hp); apply Z.div_pos; lia).
  assert (0 <= pl_indexer_logical_pages p) by (rewrite (po_indexer p Hp); apply Z.div_pos; lia).
  assert (Hnil : forall lane (owned : list Z), (replicate (Z.to_nat (cf_max_concurrency (pl_config p))) []).[lane] = Some owned ->
            owned = []).
  { intros lane owned H'. unfold vget in H'. destruct (0 <=? lane); [|done]. by apply lookup_replicate_1 in H' as [-> _]. }
  split; [split|split]; cbn [make_ledger g_store lane_physical_groups_ physical_group_refcounts_
    free_physical_groups_ host_attention_table_ host_indexer_table_].
  - unfold vsize. rewrite length_replicate. lia.
  - apply Forall_replicate. constructor.
  - rewrite concat_replicate_nil. split.
    + unfold vsize. rewrite length_replicate. lia.
    + constructor.
    + intros g Hg. unfold vget. rewrite (proj2 (Z.leb_le 0 g)) by lia. apply lookup_replicate_2. lia.
    + apply NoDup_seqZ.
    + intros g. rewrite elem_of_seqZ, count_refs_nil. lia.
  - unfold vsize. rewrite !length_replicate. split; nia.
  - intros lane owned j g Hl Hj. apply Hnil in Hl as ->. destruct (vget_Some_bounds _ _ _ Hj) as [? Hb].
    change (vsize []) with 0 in Hb. lia.
Qed.

Lemma make_ledger_ok this p : plan_ok p -> ledger_ok [] (make_ledger this p).
Proof.
  intros Hp. pose proof (po_lanes p Hp). split.
  - done.
  - cbn. unfold max_concurrency, vsize. cbn. rewrite length_replicate. lia.
  - split; [split|by split]; cbn.
    + unfold vsize. rewrite length_replicate. lia.
    + by apply Forall_replicate.
  - by apply make_store_ok.
  - intros lane info Hl _. cbn in *. unfold vget in *. destruct (0 <=? lane); [|done].
    apply lookup_replicate in Hl as [_ Hl]. by apply lookup_replicate_2.
Qed.

(** What a system of a finalized plan can become. *)
Definition lane_system_of (c : FlashNextRuntimeConfig) (selected this : Z) (ring : SlotRing) (y : lane_system) : Prop :=
  exists p, config_ranges c /\ finalize_flash_next_counts c selected = Ok p /\
    lane_reachable (mkLaneSystem (make_ledger this p) ring []) y.

Lemma lane_system_ok c selected this ring y : lane_system_of c selected this ring y -> system_ledger_ok y.
Proof.
  intros (p & Hc & Hf & Hr). induction Hr as [|y y' Hr IH Hs]; [|by eapply lane_step_ok].
  apply make_ledger_ok. by eapply finalize_plan_ok.
Qed.

(** Page groups are accounted for: in every state that the public
    operations of the ledger reach from a new one, committed, rolled back and
    failed ones included, the reference count of a group is the number of
    places that refer to it (lanes that map it and references that clients
    hold), a group is on the free list, once, exactly when nothing refers to
    it, and the host block tables map every logical page of every lane to the
    page of the group the lane owns there. *)
Theorem groups_are_accounted c selected this ring y :
  lane_system_of c selected this ring y ->
  let l := ls_ledger y in
  let s := g_store l in
  let p := plan_ l in
  (forall g, 0 <= g < pl_main_page_groups p ->
     group_refcount l g = count_refs g (references l (ls_ext y)) /\
     (g ∈ free_physical_groups_ s <-> group_refcount l g = 0)) /\
  NoDup (free_physical_groups_ s) /\
  (forall lane owned j g, (lane_physical_groups_ s).[lane] = Some owned -> owned.[j] = Some g ->
     0 <= g < pl_main_page_groups p /\ g ∉ free_physical_groups_ s /\
     (forall q, 0 <= q < 4 -> j * 4 + q < pl_attention_logical_pages p ->
        (host_attention_table_ s).[lane * pl_attention_logical_pages p + (j * 4 + q)] = Some (g * 4 + q)) /\
     (j < pl_indexer_logical_pages p ->
        (host_indexer_table_ s).[lane * pl_indexer_logical_pages p + j] = Some g)).
Proof.
  intros Hy%lane_system_ok l s p. destruct Hy as [_ _ _ [[Hl Hnd Hc] [_ Hent]] _]. fold l s p in Hl, Hnd, Hc, Hent.
  destruct Hc as [Hsize Hrange Hcounts Hndf Hfree].
  assert (Hrc : forall g, 0 <= g < pl_main_page_groups p ->
            group_refcount l g = count_refs g (references l (ls_ext y))).
  { intros g Hg. unfold group_refcount. fold s. by rewrite (Hcounts g Hg). }
  split; [|split; [done|]].
  - intros g Hg. rewrite Hrc by done. split; [done|]. rewrite Hfree. unfold references. fold s. intuition lia.
  - intros lane owned j g Hlane Hj.
    assert (Hin : g ∈ concat (lane_physical_groups_ s) ++ ls_ext y).
    { apply elem_of_app. left. apply list_elem_of_In, in_concat. exists owned.
      split; apply list_elem_of_In; by eapply vget_elem. }
    rewrite Forall_forall in Hrange. split; [by apply Hrange|]. split; [|by apply (Hent lane owned j g)].
    rewrite Hfree. apply count_refs_pos in Hin. lia.
Qed.

(** Lane 0 of the demonstration plan, with a prefill chunk of 300 tokens
    pending. *)
Definition demo_lane : LaneHandle := mkLaneHandle 7 0 1.

Definition demo_ledger : FlashNextLaneLedger := fst (allocate_lane 7 (make_ledger 1 demo_plan)).

Definition demo_prefilled : FlashNextLaneLedger :=
  fst (begin_prefill_chunk demo_lane (replicate 300 5) 0 demo_ledger).

Lemma groups_are_accounted_witness :
  group_refcount demo_prefilled 0 = 1 /\ group_refcount demo_prefilled 2 = 0 /\
  2 ∈ free_physical_groups_ (g_store demo_prefilled).
Proof.
  pose (ring := make_slot_ring demo_plan []).
  destruct (groups_are_accounted demo_config 3 1 ring (mkLaneSystem demo_prefilled ring [])) as [H _].
  - exists demo_plan. split; [vm_compute; repeat split; discriminate|]. split; [vm_compute; reflexivity|].
    eapply lane_reach_step; [eapply lane_reach_step; [apply lane_reach_start|]|].
    + exact (step_allocate _ _ _ 7).
    + exact (step_begin_prefill demo_ledger ring [] demo_lane (replicate 300 5) 0).
  - split; [vm_compute; reflexivity|]. split; [vm_compute; reflexivity|].
    apply (H 2); [vm_compute; split; [discriminate|reflexivity]|vm_compute; reflexivity].
Defined.
