(* ===== verification/LaneRounds.v ===== *)
(** The transactions of the lane ledger
    (src/src/targets/qwen3_8_flash_next/impl/lane_ledger.cpp): opening a
    decode round succeeds as a whole or changes nothing, rolling it back
    restores the ledger, and committing it advances exactly the accepted
    lanes. *)

From S2P Require Import Prelude Ple SlotRing LaneLedger.

(** * The dry run *)

Definition row_of (r : LaneStepRequest) : Z * Z := (lh_lane (rq_handle r), groups_for (rq_token_index r)).

Definition request_lane (r : LaneStepRequest) : Z := lh_lane (rq_handle r).

(** The groups a row still needs. *)
Definition needed (s : GroupStore) (row : Z * Z) : Z :=
  match (lane_physical_groups_ s).[fst row] with
  | Some owned => if vsize owned <? snd row then snd row - vsize owned else 0
  | None => 0
  end.

Definition request_ok (l : FlashNextLaneLedger) (r : LaneStepRequest) : Prop :=
  exists info owned, (lanes_ l).[request_lane r] = Some info /\ li_state info = Active /\
    li_owner info = lh_owner (rq_handle r) /\ li_epoch info = lh_epoch (rq_handle r) /\
    rq_token_index r = li_committed_frontier info /\ 0 <= rq_token_index r < max_context l /\
    (lane_physical_groups_ (g_store l)).[request_lane r] = Some owned.

Record dry_ok (l : FlashNextLaneLedger) (seen : list LaneStepRequest) (d : DryRun) : Prop := {
  dk_mask : mask_repr (dr_lane_mask d) (map request_lane seen);
  dk_rows : dr_rows d = map row_of seen;
  dk_nodup : NoDup (map request_lane seen);
  dk_total : dr_total_groups_needed d = zsum (map (needed (g_store l)) (dr_rows d));
  dk_requests : Forall (request_ok l) seen;
}.

Lemma mask_repr_ext mask seen seen' :
  (forall x, x ∈ seen <-> x ∈ seen') -> mask_repr mask seen -> mask_repr mask seen'.
Proof. intros He Hm i Hi. rewrite (Hm i Hi). by apply bool_decide_ext. Qed.

Lemma dry_run_request_ok l meta seen d req d' :
  max_concurrency l <= 32 -> rq_token_index req <= I32_MAX ->
  dry_ok l seen d -> dry_run_request l meta d req = Ok d' -> dry_ok l (seen ++ [req]) d'.
Proof.
  intros Hmax Hidx [Hm Hrows Hnd Htot Hreq] H. unfold dry_run_request in H.
  apply bind_Ok in H as (info & Hv & H). apply bind_Ok in H as (? & Hbit%throw_if_Ok & H).
  apply bind_Ok in H as (? & Hfront%throw_if_Ok & H). apply bind_Ok in H as (? & Hrange%throw_if_Ok & H).
  apply bind_Ok in H as (ple & _ & H). apply bind_Ok in H as (owned & Hown%vat_Ok & [= <-]).
  apply validate_handle_Ok in Hv as (Hi & Hs & Ho & He & Hlane).
  rewrite (mask_repr_test _ _ _ Hm) in Hbit by lia. apply negb_false_iff, negb_true_iff, bool_decide_eq_false in Hbit.
  simp_bool.
  split; cbn [dr_lane_mask dr_rows dr_total_groups_needed]; rewrite ?map_app.
  - eapply mask_repr_ext; [|apply mask_repr_set; [exact Hm|lia]]. set_solver.
  - by rewrite Hrows.
  - cbn [map]. apply NoDup_app. split; [done|]. split; [|apply NoDup_singleton].
    intros lane Hx ->%list_elem_of_singleton. done.
  - rewrite zsum_app, Htot, Hrows. f_equal. cbn [map]. rewrite zsum_cons. unfold needed. cbn [fst snd].
    rewrite Hown. change (zsum []) with 0. lia.
  - apply Forall_app. split; [done|]. apply Forall_cons_2; [|constructor]. exists info, owned.
    assert (rq_token_index req < max_context l) by (rewrite wrap32_small in * by (unfold I32_MAX, U32_MAX in *; lia); lia).
    unfold request_lane. auto 10 with lia.
Qed.

Lemma dry_run_ok l meta : forall requests seen d d',
  max_concurrency l <= 32 -> Forall (fun r => rq_token_index r <= I32_MAX) requests ->
  dry_ok l seen d -> rfor (dry_run_request l meta) d requests = Ok d' -> dry_ok l (seen ++ requests) d'.
Proof.
  induction requests as [|r requests IH]; intros seen d d' Hmax Hidx Hd H; cbn [rfor] in H.
  - injection H as <-. by rewrite app_nil_r.
  - apply Forall_cons_1 in Hidx as [Hr Hidx]. apply bind_Ok in H as (d1 & H1 & H2).
    rewrite cons_middle, app_assoc. eapply IH; [done|done| |exact H2]. by eapply dry_run_request_ok.
Qed.

(** * Assigning groups *)

(** What assigning groups to the rows [rows] of a ledger [l] leaves. *)
Record assigned (ext : list Z) (l : FlashNextLaneLedger) (rows : list (Z * Z)) (l' : FlashNextLaneLedger) : Prop := {
  as_ok : ledger_ok ext l';
  as_plan : plan_ l' = plan_ l;
  as_lanes : lanes_ l' = lanes_ l;
  as_tx : g_tx l' = set_previous_counts (previous_group_counts_ (g_tx l')) (g_tx l);
  as_free : vsize (free_physical_groups_ (g_store l')) + zsum (map (needed (g_store l)) rows) =
              vsize (free_physical_groups_ (g_store l));
  as_rows : forall lane req, (lane, req) ∈ rows -> exists owned fresh,
    (lane_physical_groups_ (g_store l)).[lane] = Some owned /\
    (lane_physical_groups_ (g_store l')).[lane] = Some (owned ++ fresh) /\
    req <= vsize (owned ++ fresh) /\
    (previous_group_counts_ (g_tx l')).[lane] = Some (vsize owned);
  as_other : forall lane, lane ∉ map fst rows ->
    (lane_physical_groups_ (g_store l')).[lane] = (lane_physical_groups_ (g_store l)).[lane];
}.

Lemma needed_nonneg s row : 0 <= needed s row.
Proof. unfold needed. case_match; [|lia]. destruct (Z.ltb_spec (vsize l) (snd row)); lia. Qed.

Lemma needed_total_nonneg s rows : 0 <= zsum (map (needed s) rows).
Proof. apply zsum_nonneg, Forall_map, Forall_forall. intros. apply needed_nonneg. Qed.

Lemma ledger_counts_size ext l : ledger_ok ext l -> vsize (previous_group_counts_ (g_tx l)) = vsize (lanes_ l).
Proof. intros H. rewrite (lo_lanes _ _ H). apply (lo_previous _ _ H). Qed.

Lemma assigned_step ext l rows l1 lane req info owned :
  assigned ext l rows l1 -> lane ∉ map fst rows ->
  (lanes_ l).[lane] = Some info -> li_state info <> Free ->
  (lane_physical_groups_ (g_store l)).[lane] = Some owned ->
  needed (g_store l) (lane, req) <= vsize (free_physical_groups_ (g_store l1)) ->
  exists l2, assign_groups (lane, req) l1 = (l2, Ok tt) /\ assigned ext l (rows ++ [(lane, req)]) l2.
Proof.
  intros [Hok Hp Hl Htx Hfree Hrows Hother] Hnew Hi Hnf Hown Hneed.
  assert (Hneed' : needed (g_store l) (lane, req) = Z.of_nat (Z.to_nat (req - vsize owned))).
  { unfold needed. cbn. rewrite Hown. destruct (Z.ltb_spec (vsize owned) req); lia. }
  assert (Hown1 : (lane_physical_groups_ (g_store l1)).[lane] = Some owned) by (by rewrite Hother).
  destruct (vget_Some_bounds _ _ _ Hi) as [Hb0 Hb1].
  destruct (grow_lane_spec (plan_ l1) (lo_plan _ _ Hok) ext (Z.to_nat (req - vsize owned)) (g_store l1) lane owned
              (lo_store _ _ Hok) Hown1) as (s2 & Hgrow & Hg); [unfold vsize in *; lia|].
  pose proof (assign_groups_ok ext (lane, req) l1 Hok) as (Hok2 & _ & _); [exists info; by rewrite Hl|].
  unfold assign_groups, mget, mlift, mput, mmodify, mbind, M_bind in *. unfold vat in *. rewrite Hown1 in *.
  cbn [plan_ g_store set_tx] in *. rewrite Hgrow in *. cbn [fst] in Hok2. eexists. split; [reflexivity|].
  pose proof (vget_Some_bounds _ _ _ Hown1) as [_ Hb2].
  pose proof (ledger_counts_size ext l1 Hok) as Hcs. rewrite Hl in Hcs.
  split; cbn [plan_ lanes_ g_tx g_store set_store set_tx set_previous_counts previous_group_counts_].
  - done.
  - done.
  - done.
  - rewrite Htx. by destruct (g_tx l).
  - rewrite map_app, zsum_app. cbn [map]. rewrite zsum_cons, Hneed'. change (zsum []) with 0.
    rewrite <- Hfree. rewrite (gr_free _ _ _ _ _ _ _ Hg), vsize_app. unfold vsize at 3. rewrite length_take.
    unfold vsize in *. lia.
  - intros x r [Hin|[= -> ->]%list_elem_of_singleton]%elem_of_app.
    + destruct (Hrows x r Hin) as (o & f & H1 & H2 & H3 & H4). exists o, f.
      assert (x <> lane) by (intros ->; apply Hnew; apply list_elem_of_In, (in_map fst _ (lane, r)); by apply list_elem_of_In).
      rewrite (gr_groups _ _ _ _ _ _ _ Hg), !vget_vset_ne by congruence. done.
    + exists owned, (take (Z.to_nat (req - vsize owned)) (free_physical_groups_ (g_store l1))).
      rewrite (gr_groups _ _ _ _ _ _ _ Hg), !vget_vset_eq by lia. split; [done|]. split; [done|]. split; [|done].
      rewrite vsize_app. unfold vsize in *. rewrite length_take. lia.
  - intros x Hx. rewrite map_app, not_elem_of_app, (gr_groups _ _ _ _ _ _ _ Hg) in *.
    destruct Hx as [Hx1 Hx2]. cbn in Hx2. rewrite vget_vset_ne; [by apply Hother|]. set_solver.
Qed.

Lemma assign_total ext l rows :
  ledger_ok ext l -> NoDup (map fst rows) ->
  Forall (fun row => exists info owned, (lanes_ l).[fst row] = Some info /\ li_state info <> Free /\
            (lane_physical_groups_ (g_store l)).[fst row] = Some owned) rows ->
  zsum (map (needed (g_store l)) rows) <= vsize (free_physical_groups_ (g_store l)) ->
  exists l', mfor assign_groups rows l = (l', Ok tt) /\ assigned ext l rows l'.
Proof.
  intros Hok Hnd Hall Hfit. apply (mfor_total assign_groups rows (fun seen l' => assigned ext l seen l')).
  - split; try done.
    + by destruct l as [? ? ? ? []].
    + change (zsum (map (needed (g_store l)) [])) with 0. lia.
    + by intros lane req ?%not_elem_of_nil.
  - intros seen [lane req] rest l1 Heq Has. subst rows. rewrite map_app, map_cons in *.
    apply NoDup_app in Hnd as (_ & Hdis & _). apply Forall_app in Hall as [_ [Hrow _]%Forall_cons_1].
    destruct Hrow as (info & owned & Hi & Hnf & Hown). cbn [fst] in *.
    apply (assigned_step ext l seen l1 lane req info owned); try done.
    + intros Hin. apply (Hdis lane Hin). left.
    + pose proof (as_free _ _ _ _ Has). rewrite zsum_app in Hfit. cbn [map] in Hfit. rewrite zsum_cons in Hfit.
      pose proof (needed_total_nonneg (g_store l) rest). lia.
Qed.

(** * Opening a round *)
Lemma mark_all_get st ls : forall lanes x,
  (fold_left (mark_state st) ls lanes).[x] = if bool_decide (x ∈ ls) then set_state st <$> lanes.[x] else lanes.[x].
Proof.
  induction ls as [|lane ls IH]; intros lanes x; cbn [fold_left].
  { by rewrite bool_decide_eq_false_2 by apply not_elem_of_nil. }
  rewrite IH. unfold mark_state. destruct (lanes.[lane]) as [info|] eqn:E.
  - destruct (vget_Some_bounds _ _ _ E) as [Hb0 Hb1]. destruct (decide (x = lane)) as [->|Hne].
    + rewrite vget_vset_eq, E by done. rewrite (bool_decide_eq_true_2 (lane ∈ lane :: ls)) by (left; done).
      by destruct (bool_decide (lane ∈ ls)).
    + rewrite vget_vset_ne by congruence. by rewrite (bool_decide_ext (x ∈ lane :: ls) (x ∈ ls)) by set_solver.
  - destruct (decide (x = lane)) as [->|Hne].
    + rewrite E. by destruct (bool_decide (lane ∈ ls)), (bool_decide (lane ∈ lane :: ls)).
    + by rewrite (bool_decide_ext (x ∈ lane :: ls) (x ∈ ls)) by set_solver.
Qed.

(** An opened round: the groups are assigned, the lanes of the requests are
    pending, the transaction is the next one. *)
Record opened (ext : list Z) (l : FlashNextLaneLedger) (requests : list LaneStepRequest) (l' : FlashNextLaneLedger)
    (round : PreparedRound) : Prop := {
  op_fresh : has_pending_batch_ (g_tx l) = false;
  op_assigned : exists la, assigned ext l (map row_of requests) la /\ g_store l' = g_store la /\
    previous_group_counts_ (g_tx l') = previous_group_counts_ (g_tx la);
  op_ok : ledger_ok ext l';
  op_plan : plan_ l' = plan_ l;
  op_lanes : lanes_ l' = fold_left (mark_state Pending) (map request_lane requests) (lanes_ l);
  op_requests : Forall (request_ok l) requests;
  op_nodup : NoDup (map request_lane requests);
  op_id : transaction_id round = current_transaction_id_ (g_tx l) + 1;
  op_tx : current_transaction_id_ (g_tx l') = transaction_id round /\ has_pending_batch_ (g_tx l') = true /\
    is_pending_prefill_chunk_ (g_tx l') = false /\ pending_requests_ (g_tx l') = requests /\
    pending_lane_indices_ (g_tx l') = map request_lane requests;
}.

(** The ranges of the C++ types: 32-bit token indices, and a number of requests
    that the 32-bit batch size holds. *)
Definition batch_ranges (requests : list LaneStepRequest) : Prop :=
  vsize requests <= U32_MAX /\ Forall (fun r => is_i32 (rq_token_index r)) requests.

Lemma begin_round_spec ext l requests meta :
  ledger_ok ext l -> batch_ranges requests ->
  match begin_round requests meta l with
  | (l', Err _) => l' = l
  | (l', Ok round) => opened ext l requests l' round
  end.
Proof.
  intros Hok [Hsize Hidx]. pose proof (keeps_begin_round ext requests meta l Hok) as Hkeep.
  pose proof (po_lanes _ (lo_plan _ _ Hok)) as Hlanes. fold (max_concurrency l) in Hlanes.
  unfold begin_round, mget, mthrow_if, mlift, mbind, M_bind in *. cbv beta iota zeta in *.
  pose proof (vsize_nonneg requests). rewrite wrap32_small in * by lia.
  replace (take (Z.to_nat (vsize requests)) requests) with requests in *
    by (unfold vsize; by rewrite Nat2Z.id, firstn_all).
  destruct (has_pending_batch_ (g_tx l)) eqn:Hpend; cbn [throw_if] in *; [done|].
  destruct (_ || _); cbn [throw_if] in *; [done|].
  destruct (_ =? U64_MAX); cbn [throw_if] in *; [done|].
  destruct (rfor _ _ requests) as [d|e] eqn:Hd; [|done].
  assert (Hdry : dry_ok l requests d).
  { apply (dry_run_ok l meta requests [] (mkDry 0 0 0 [] []) d); [lia| | |done].
    { eapply Forall_impl; [exact Hidx|]. by intros r [_ ?]. }
    split; cbn; [apply mask_repr_empty|done|constructor|done|constructor]. }
  destruct Hdry as [_ Hrows Hnd Htot Hreq].
  assert (Hfst : map fst (dr_rows d) = map request_lane requests) by (rewrite Hrows, map_map; done).
  destruct (Z.ltb_spec (vsize (free_physical_groups_ (g_store l))) (dr_total_groups_needed d)) as [|Hfit];
    cbn [throw_if] in *; [done|].
  destruct (assign_total ext l (dr_rows d)) as (la & Hrun & Has).
  - done.
  - by rewrite Hfst.
  - rewrite Hrows. apply Forall_map. eapply Forall_impl; [exact Hreq|]. cbn.
    intros r (info & owned & Hi & Hs & _ & _ & _ & _ & Hown). exists info, owned. by rewrite Hs.
  - lia.
  - rewrite Hrun in *. unfold mput, mret, M_ret, mget in *. cbn [fst] in Hkeep.
    pose proof (as_tx _ _ _ _ Has) as Htx. pose proof (as_lanes _ _ _ _ Has) as Hl.
    destruct (lo_previous _ _ Hok) as [_ [Hflags _]]. destruct (Hflags Hpend) as [Hpre _].
    split; cbn [transaction_id plan_ lanes_ g_tx g_store current_transaction_id_ has_pending_batch_
      is_pending_prefill_chunk_ pending_requests_ pending_lane_indices_ previous_group_counts_].
    + done.
    + exists la. by rewrite <- Hrows.
    + exact Hkeep.
    + apply Has.
    + by rewrite Hl, Hfst.
    + done.
    + done.
    + by rewrite Htx.
    + rewrite Htx. cbn. by rewrite Hpre, Hfst.
Qed.

(** * Mapped positions *)
Lemma position_mapped ext l lane owned t :
  ledger_ok ext l -> (lane_physical_groups_ (g_store l)).[lane] = Some owned ->
  0 <= t < max_context l -> t / 256 < vsize owned ->
  let p := plan_ l in
  exists g, owned.[t / 256] = Some g /\
    (host_attention_table_ (g_store l)).[lane * pl_attention_logical_pages p + t / 64] = Some (g * 4 + (t / 64) mod 4) /\
    (host_indexer_table_ (g_store l)).[lane * pl_indexer_logical_pages p + t / 256] = Some g.
Proof.
  intros Hok Hown Ht Hlt p. assert (0 <= t / 256) by (apply Z.div_pos; lia).
  destruct (vget_is_Some owned (t / 256)) as [g Hg]; [lia|]. exists g. split; [done|].
  destruct (to_entries _ _ (proj2 (lo_store _ _ Hok)) lane owned (t / 256) g Hown Hg) as [Ha Hi].
  pose proof (po_attention p (lo_plan _ _ Hok)) as HA. pose proof (po_indexer p (lo_plan _ _ Hok)) as HI.
  fold p in Ha, Hi. unfold max_context in Ht. fold p in Ht.
  assert (Hpage : t / 64 = t / 256 * 4 + (t / 64) mod 4) by (rewrite (Z.div_mod (t / 64) 4) at 1 by lia; rewrite Z.div_div by lia; change (64 * 4) with 256; lia).
  pose proof (Z.mod_pos_bound (t / 64) 4 ltac:(lia)). split.
  - rewrite Hpage at 1. apply Ha; [lia|]. rewrite <- Hpage, HA.
    apply Z.lt_le_trans with (t / 64 + 1); [lia|]. rewrite <- Z.div_add by lia. apply Z.div_le_mono; lia.
  - apply Hi. rewrite HI. apply Z.lt_le_trans with (t / 256 + 1); [lia|].
    rewrite <- Z.div_add by lia. apply Z.div_le_mono; lia.
Qed.

(** C31. Opening a decode round is all or nothing: in every reachable state,
    if [begin_round] throws, whichever check fails, the ledger is unchanged
    (once the dry run has passed nothing can fail any more); if it returns,
    the transaction is the next one and pending, its requests name different
    lanes that were active with exactly that frontier and are pending now, all
    other lanes are untouched, and every position up to the token of a request
    is mapped in both block tables to a group the lane owns. *)
Theorem begin_round_all_or_nothing c selected this ring y requests meta :
  lane_system_of c selected this ring y -> batch_ranges requests ->
  let l := ls_ledger y in
  match begin_round requests meta l with
  | (l', Err _) => l' = l
  | (l', Ok round) =>
      let p := plan_ l' in
      transaction_id round = current_transaction_id_ (g_tx l) + 1 /\ stale l' (transaction_id round) = false /\
      NoDup (map request_lane requests) /\
      (forall lane, lane ∉ map request_lane requests ->
         (lanes_ l').[lane] = (lanes_ l).[lane] /\
         (lane_physical_groups_ (g_store l')).[lane] = (lane_physical_groups_ (g_store l)).[lane]) /\
      Forall (fun r => exists info owned, let lane := request_lane r in
        (lanes_ l).[lane] = Some info /\ li_state info = Active /\ rq_token_index r = li_committed_frontier info /\
        (lanes_ l').[lane] = Some (set_state Pending info) /\
        (lane_physical_groups_ (g_store l')).[lane] = Some owned /\
        forall t, 0 <= t <= rq_token_index r -> exists g, owned.[t / 256] = Some g /\
          (host_attention_table_ (g_store l')).[lane * pl_attention_logical_pages p + t / 64] =
            Some (g * 4 + (t / 64) mod 4) /\
          (host_indexer_table_ (g_store l')).[lane * pl_indexer_logical_pages p + t / 256] = Some g) requests
  end.
Proof.
  intros Hy%lane_system_ok Hidx l. unfold system_ledger_ok in Hy. fold l in Hy.
  pose proof (begin_round_spec (ls_ext y) l requests meta Hy Hidx) as H.
  destruct (begin_round requests meta l) as [l' [round|e]]; [|done].
  destruct H as [_ (la & Has & Hst & _) Hok Hpl Hlanes Hreq Hnd Hid (Htx & Hp & _)].
  assert (Hmap : map fst (map row_of requests) = map request_lane requests) by (by rewrite map_map).
  cbv zeta. split; [done|]. split; [unfold stale; by rewrite Hp, Htx, Z.eqb_refl|]. split; [done|]. split.
  - intros lane Hn. rewrite Hlanes, mark_all_get, bool_decide_eq_false_2, Hst by done. split; [done|].
    apply (as_other _ _ _ _ Has). by rewrite Hmap.
  - apply Forall_forall. intros r Hr. rewrite Forall_forall in Hreq.
    destruct (Hreq r Hr) as (info & owned0 & Hi & Hs & _ & _ & Hf & Hrange & Hown0).
    destruct (as_rows _ _ _ _ Has (request_lane r) (groups_for (rq_token_index r))) as (o & fresh & _ & Ho & Hcover & _).
    { apply list_elem_of_In, (in_map row_of), list_elem_of_In, Hr. }
    exists info, (o ++ fresh). split; [done|]. split; [done|]. split; [done|]. split; [|split].
    + rewrite Hlanes, mark_all_get, bool_decide_eq_true_2, Hi; [done|].
      apply list_elem_of_In, in_map, list_elem_of_In, Hr.
    + by rewrite Hst.
    + intros t Ht. apply (position_mapped (ls_ext y) l'); [done|by rewrite Hst|unfold max_context in *; rewrite Hpl; lia|].
      unfold groups_for, kMainPageGroupTokens in Hcover. rewrite Z.quot_div_nonneg in Hcover by lia.
      pose proof (Z.div_le_mono t (rq_token_index r) 256). lia.
Qed.

(** * Rolling back *)
Lemma rollback_lane_spec ext l lane owned fresh :
  ledger_ok ext l -> (lane_physical_groups_ (g_store l)).[lane] = Some (owned ++ fresh) ->
  (previous_group_counts_ (g_tx l)).[lane] = Some (vsize owned) ->
  exists l', rollback_lane lane l = (l', Ok tt) /\ ledger_ok ext l' /\ plan_ l' = plan_ l /\ g_tx l' = g_tx l /\
    lanes_ l' = mark_state Active (lanes_ l) lane /\
    lane_physical_groups_ (g_store l') = (lane_physical_groups_ (g_store l)).[lane <- owned].
Proof.
  intros Hok Hown Hprev. pose proof (keeps_rollback_lane ext lane l Hok) as Hkeep.
  destruct (shrink_lane_spec (plan_ l) (lo_plan _ _ Hok) ext fresh (g_store l) lane owned (lo_store _ _ Hok) Hown)
    as (s' & Hrun & Hs).
  unfold rollback_lane, mget, mlift, mput, mbind, M_bind, vat in *. rewrite Hprev, Hown in *.
  replace (Z.to_nat (vsize (owned ++ fresh) - vsize owned)) with (length fresh) in *
    by (rewrite vsize_app; unfold vsize; lia).
  rewrite Hrun in *. eexists. split; [reflexivity|]. split; [exact Hkeep|]. do 3 (split; [done|]). apply Hs.
Qed.

Lemma groups_determine ext l l' :
  ledger_ok ext l -> ledger_ok ext l' -> plan_ l' = plan_ l ->
  lane_physical_groups_ (g_store l') = lane_physical_groups_ (g_store l) ->
  physical_group_refcounts_ (g_store l') = physical_group_refcounts_ (g_store l) /\
  free_physical_groups_ (g_store l') ≡ₚ free_physical_groups_ (g_store l).
Proof.
  intros [_ _ _ [[_ _ []] _] _] [_ _ _ [[_ _ []] _] _] Hp Hg. rewrite Hp, Hg in *. split.
  - apply vget_ext. intros i. destruct (decide (0 <= i < pl_main_page_groups (plan_ l))) as [Hi|Hi].
    + by rewrite cn_counts, cn_counts0.
    + by rewrite !(proj2 (vget_None _ i)) by lia.
  - apply NoDup_Permutation; [done|done|]. intros g. by rewrite cn_free, cn_free0.
Qed.

(** Two restores of the pending lanes' states cancel. *)
Lemma mark_all_restore lanes ls :
  (forall x, x ∈ ls -> exists info, lanes.[x] = Some info /\ li_state info = Active) ->
  fold_left (mark_state Active) ls (fold_left (mark_state Pending) ls lanes) = lanes.
Proof.
  intros H. apply vget_ext. intros i. rewrite !mark_all_get. destruct (bool_decide_reflect (i ∈ ls)) as [Hin|]; [|done].
  destruct (H i Hin) as (info & -> & Hs). cbn. f_equal. destruct info. cbn in *. by subst.
Qed.

Lemma fold_mark_snoc st ls lane lanes :
  fold_left (mark_state st) (ls ++ [lane]) lanes = mark_state st (fold_left (mark_state st) ls lanes) lane.
Proof. by rewrite fold_left_app. Qed.

(** The state after the lanes [seen] of an opened round were rolled back. *)
Definition rolled_back (ext : list Z) (l l1 : FlashNextLaneLedger) (seen : list Z) (l' : FlashNextLaneLedger) : Prop :=
  ledger_ok ext l' /\ plan_ l' = plan_ l /\ g_tx l' = g_tx l1 /\
  lanes_ l' = fold_left (mark_state Active) seen (lanes_ l1) /\
  forall x, (lane_physical_groups_ (g_store l')).[x] =
    if bool_decide (x ∈ seen) then (lane_physical_groups_ (g_store l)).[x]
    else (lane_physical_groups_ (g_store l1)).[x].

Lemma rolled_back_step ext l requests l1 round seen lane l' :
  opened ext l requests l1 round -> lane ∈ map request_lane requests -> lane ∉ seen ->
  rolled_back ext l l1 seen l' ->
  exists l'', rollback_lane lane l' = (l'', Ok tt) /\ rolled_back ext l l1 (seen ++ [lane]) l''.
Proof.
  intros Hop Hin Hnew (Hok' & Hp' & Htx' & Hl' & Hg').
  destruct (op_assigned _ _ _ _ _ Hop) as (la & Has & Hst & Hprev).
  apply list_elem_of_In, in_map_iff in Hin as (r & Hlane & Hin).
  destruct (as_rows _ _ _ _ Has lane (groups_for (rq_token_index r))) as (o & fresh & Ho & Ho1 & _ & Hc).
  { apply list_elem_of_In, in_map_iff. exists r. unfold row_of. unfold request_lane in Hlane. by rewrite Hlane. }
  assert (Hown : (lane_physical_groups_ (g_store l')).[lane] = Some (o ++ fresh))
    by (by rewrite Hg', bool_decide_eq_false_2, Hst).
  destruct (rollback_lane_spec ext l' lane o fresh Hok' Hown) as (l'' & Hr & H1 & H2 & H3 & H4 & H5).
  { by rewrite Htx', Hprev. }
  exists l''. split; [done|]. split; [done|]. split; [congruence|]. split; [congruence|].
  split; [rewrite fold_mark_snoc; congruence|]. intros x. rewrite H5.
  destruct (decide (x = lane)) as [->|Hne].
  - rewrite bool_decide_eq_true_2 by set_solver. rewrite Ho. apply vget_vset_eq. by apply vget_Some_bounds in Hown.
  - rewrite vget_vset_ne, Hg' by congruence. by rewrite (bool_decide_ext (x ∈ seen) (x ∈ seen ++ [lane])) by set_solver.
Qed.

Lemma rollback_all ext l requests l1 round :
  opened ext l requests l1 round ->
  exists l2, mfor rollback_lane (map request_lane requests) l1 = (l2, Ok tt) /\ ledger_ok ext l2 /\
    plan_ l2 = plan_ l /\ lanes_ l2 = lanes_ l /\
    lane_physical_groups_ (g_store l2) = lane_physical_groups_ (g_store l).
Proof.
  intros Hop. destruct (op_assigned _ _ _ _ _ Hop) as (la & Has & Hst & _).
  destruct (mfor_total rollback_lane (map request_lane requests) (rolled_back ext l l1) l1)
    as (l2 & Hrun & Hok2 & Hp2 & _ & Hl2 & Hg2).
  - split; [apply Hop|]. split; [apply Hop|]. do 2 (split; [done|]).
    intros x. by rewrite bool_decide_eq_false_2 by apply not_elem_of_nil.
  - intros seen lane rest l' Heq Hrb. pose proof (op_nodup _ _ _ _ _ Hop) as Hnd.
    apply (rolled_back_step ext l requests l1 round seen lane l' Hop); [rewrite Heq; set_solver| |done].
    rewrite Heq in Hnd. apply NoDup_app in Hnd as (_ & Hd & _). set_solver.
  - exists l2. split; [done|]. split; [done|]. split; [done|]. split.
    + rewrite Hl2, (op_lanes _ _ _ _ _ Hop). apply mark_all_restore. intros x Hx.
      apply list_elem_of_In, in_map_iff in Hx as (r & <- & Hin).
      pose proof (op_requests _ _ _ _ _ Hop) as Hreq. rewrite Forall_forall in Hreq.
      destruct (Hreq r) as (info & _ & Hi & Hs & _); [by apply list_elem_of_In|]. eauto.
    + apply vget_ext. intros x. rewrite Hg2. destruct (bool_decide_reflect (x ∈ map request_lane requests)); [done|].
      rewrite Hst. apply (as_other _ _ _ _ Has). by rewrite map_map.
Qed.

(** C32. Rolling a prepared round back undoes it: after a round was opened in
    a reachable state, [rollback_prepared_round] with its transaction id
    returns; the lanes (states, frontiers, histories), the groups of every
    lane and all reference counts are those from before the round, the same
    groups are free, and nothing is pending, so that a second rollback with
    the id is a no-op. *)
Theorem rollback_restores_ledger c selected this ring y requests meta l1 round :
  lane_system_of c selected this ring y -> batch_ranges requests ->
  begin_round requests meta (ls_ledger y) = (l1, Ok round) ->
  let l := ls_ledger y in
  exists l2, rollback_prepared_round (transaction_id round) l1 = (l2, Ok tt) /\
    lanes_ l2 = lanes_ l /\
    lane_physical_groups_ (g_store l2) = lane_physical_groups_ (g_store l) /\
    physical_group_refcounts_ (g_store l2) = physical_group_refcounts_ (g_store l) /\
    free_physical_groups_ (g_store l2) ≡ₚ free_physical_groups_ (g_store l) /\
    has_pending_batch_ (g_tx l2) = false /\
    rollback_prepared_round (transaction_id round) l2 = (l2, Ok tt).
Proof.
  intros Hy%lane_system_ok Hidx Hbegin l. unfold system_ledger_ok in Hy. fold l in Hy, Hbegin.
  pose proof (begin_round_spec (ls_ext y) l requests meta Hy Hidx) as Hop. rewrite Hbegin in Hop.
  destruct (op_tx _ _ _ _ _ Hop) as (Htx & Hpend & Hpre & _ & Hpl_lanes).
  destruct (rollback_all _ _ _ _ _ Hop) as (l2 & Hrun & Hok2 & Hp2 & Hl2 & Hg2).
  destruct (groups_determine (ls_ext y) l l2 Hy Hok2 Hp2 Hg2) as [Hrefs Hfree].
  exists (set_tx (close_round (g_tx l2)) l2). split; [|by auto 10].
  unfold rollback_prepared_round, mget, mmodify, mbind, M_bind. unfold stale at 1.
  rewrite Hpend, Htx, Z.eqb_refl, Hpre, Hpl_lanes. cbn [negb orb]. by rewrite Hrun.
Qed.

(** * Committing *)
Definition commit_rows (lanes : list Z) (requests : list LaneStepRequest) (decisions : list bool)
  : list (Z * LaneStepRequest * bool) := zip (zip lanes requests) decisions.

Lemma commit_rows_spec (rows : list (Z * LaneStepRequest * bool)) : forall lanes,
  NoDup (map (fun row => fst (fst row)) rows) ->
  Forall (fun row => is_Some (lanes.[fst (fst row)])) rows ->
  exists lanes', rfor commit_row lanes rows = Ok lanes' /\
    (forall lane req (acc : bool) info, (lane, req, acc) ∈ rows -> lanes.[lane] = Some info ->
       lanes'.[lane] = Some (advance_lane (if acc then [rq_token_id req] else []) info)) /\
    (forall x, x ∉ map (fun row => fst (fst row)) rows -> lanes'.[x] = lanes.[x]).
Proof.
  induction rows as [|[[lane req] acc] rows IH]; intros lanes Hnd Hall; cbn [rfor].
  { exists lanes. split; [done|]. split; [|done]. by intros ? ? ? ? ?%not_elem_of_nil. }
  cbn [map fst] in *. apply NoDup_cons in Hnd as [Hnew Hnd]. apply Forall_cons_1 in Hall as [[info0 Hi] Hall].
  cbn [fst] in Hi.
  set (lanes1 := lanes.[lane <- advance_lane (if acc then [rq_token_id req] else []) info0]).
  assert (Hrow1 : commit_row lanes (lane, req, acc) = Ok lanes1) by (unfold commit_row, advance_at, vat; by rewrite Hi).
  rewrite Hrow1. cbn [mbind result_bind]. assert (Hb := vget_Some_bounds _ _ _ Hi).
  assert (Hother : forall x, x <> lane -> lanes1.[x] = lanes.[x]) by (intros; by apply vget_vset_ne).
  destruct (IH lanes1 Hnd) as (lanes' & Hrun & Hin & Hout).
  { eapply Forall_impl; [exact Hall|]. cbn. intros row Hrow. destruct (decide (fst (fst row) = lane)) as [->|Hne].
    - unfold lanes1. rewrite vget_vset_eq by lia. eauto.
    - by rewrite Hother. }
  exists lanes'. split; [done|]. split.
  - intros x r a info [[= -> -> ->]|Hx]%elem_of_cons Hinfo.
    + rewrite Hout by done. unfold lanes1. rewrite vget_vset_eq by lia. congruence.
    + apply (Hin x r a); [done|]. rewrite Hother; [done|]. intros ->. apply Hnew.
      apply list_elem_of_In, (in_map (fun row : Z * LaneStepRequest * bool => fst (fst row)) _ (lane, r, a)).
      by apply list_elem_of_In.
  - intros x Hx. apply not_elem_of_cons in Hx as [Hne Hx]. rewrite Hout, Hother by done. done.
Qed.

Lemma accepted_lanes_spec lanes : forall decisions,
  NoDup lanes -> NoDup (accepted_lanes lanes decisions) /\
  (forall x, x ∈ accepted_lanes lanes decisions -> x ∈ lanes) /\
  (forall i lane acc, lanes !! i = Some lane -> decisions !! i = Some acc ->
     (lane ∈ accepted_lanes lanes decisions <-> acc = true)).
Proof.
  induction lanes as [|lane lanes IH]; intros decisions Hnd.
  { split; [constructor|]. split; [by intros x ?%not_elem_of_nil|done]. }
  apply NoDup_cons in Hnd as [Hnew Hnd]. destruct decisions as [|a decisions].
  { split; [constructor|]. split; [by intros x ?%not_elem_of_nil|done]. }
  destruct (IH decisions Hnd) as (Hnd' & Hsub & Hiff). unfold accepted_lanes in *. cbn [zip_with].
  assert (Hcons : map fst (filter (fun x : Z * bool => snd x = true) ((lane, a) :: zip lanes decisions)) =
            (if a then [lane] else []) ++ map fst (filter (fun x : Z * bool => snd x = true) (zip lanes decisions))).
  { rewrite filter_cons. cbn. by destruct a. }
  rewrite Hcons. split; [|split].
  - destruct a; [|done]. apply NoDup_cons_2; [|done]. intros Hin. by apply Hnew, Hsub.
  - intros x [Hx|Hx]%elem_of_app; [|right; by apply Hsub]. destruct a; set_solver.
  - intros [|i] x acc Hx Ha; cbn in Hx, Ha.
    + injection Hx as <-. injection Ha as <-. destruct a; [set_solver|]. cbn. split; [|done].
      intros Hin. by apply Hsub in Hin.
    + rewrite <- (Hiff i x acc Hx Ha), elem_of_app. split; [|by right]. intros [Hin|?]; [|done].
      destruct a; [|set_solver]. apply list_elem_of_singleton in Hin as ->. exfalso. apply Hnew.
      by eapply list_elem_of_lookup_2.
Qed.

Lemma commit_row_elem requests decisions i req (acc : bool) :
  requests !! i = Some req -> decisions !! i = Some acc ->
  (request_lane req, req, acc) ∈ commit_rows (map request_lane requests) requests decisions.
Proof.
  intros Hr Ha. apply (list_elem_of_lookup_2 _ i). unfold commit_rows.
  rewrite !lookup_zip_with, list_lookup_fmap. change (requests !! i) with (requests !! i). by rewrite Hr, Ha.
Qed.

Lemma commit_rows_lanes requests decisions :
  length decisions = length requests ->
  map (fun row => fst (fst row)) (commit_rows (map request_lane requests) requests decisions) =
  map request_lane requests.
Proof.
  unfold commit_rows. revert decisions. induction requests as [|r requests IH]; intros [|a decisions] Hlen; try done.
  cbn in *. f_equal. apply IH. lia.
Qed.

(** The slots of the accepted lanes advance; with none accepted the selectors
    are not touched. *)
Lemma commit_accepted_slots r lanes (l : FlashNextLaneLedger) :
  ring_ok r -> NoDup lanes -> Forall (fun x => 0 <= x < sr_max_concurrency r) lanes ->
  exists r2, (if bool_decide (lanes = []) then mret tt else msnd (commit_slots lanes)) (l, r) = ((l, r2), Ok tt) /\
    forall x o, ring_at r x o -> ring_at r2 x (if bool_decide (x ∈ lanes) then (o + 1) mod slots_per_lane_ r else o).
Proof.
  intros Hr Hnd Hall. destruct (bool_decide_reflect (lanes = [])) as [->|Hne].
  - exists r. split; [done|]. intros x o Ho. by rewrite bool_decide_eq_false_2 by apply not_elem_of_nil.
  - destruct (commit_slots_spec r lanes Hr) as [Hgood _]; [eapply Forall_impl; [exact Hall|]; cbn; lia|].
    destruct Hgood as (r2 & Hrun & _ & _ & Hat).
    + split; [done|]. eapply Forall_impl; [exact Hall|]. cbn. lia.
    + exists r2. split; [|done]. unfold msnd. cbn [fst snd]. by rewrite Hrun.
Qed.

Lemma advance_pending (acc : bool) token info :
  li_state info = Active ->
  advance_lane (if acc then [token] else []) (set_state Pending info) =
  if acc then mkLane (li_owner info) Active (li_epoch info) (li_committed_frontier info + 1)
                (history_commit (li_history info) token)
  else info.
Proof.
  intros Hs. unfold advance_lane, set_state. destruct info, acc; cbn in *; subst; [done|]. by rewrite Z.add_0_r.
Qed.

(** The lanes of an opened round. *)
Lemma opened_lane ext l requests l1 round q :
  opened ext l requests l1 round -> q ∈ requests ->
  exists info, (lanes_ l).[request_lane q] = Some info /\ li_state info = Active /\
    (lanes_ l1).[request_lane q] = Some (set_state Pending info).
Proof.
  intros Hop Hq. pose proof (op_requests _ _ _ _ _ Hop) as Hreq. rewrite Forall_forall in Hreq.
  destruct (Hreq q Hq) as (info & _ & Hi & Hs & _). exists info. do 2 (split; [done|]).
  rewrite (op_lanes _ _ _ _ _ Hop), mark_all_get, bool_decide_eq_true_2, Hi; [done|].
  apply list_elem_of_In, in_map, list_elem_of_In, Hq.
Qed.

Lemma request_lane_elem requests x : x ∈ map request_lane requests -> exists q, q ∈ requests /\ x = request_lane q.
Proof.
  intros Hx. apply list_elem_of_In, in_map_iff in Hx as (q & <- & Hq). exists q. split; [by apply list_elem_of_In|done].
Qed.

Lemma commit_opened_lanes ext l requests l1 round decisions :
  opened ext l requests l1 round -> length decisions = length requests ->
  exists lanes2,
    rfor commit_row (lanes_ l1) (commit_rows (map request_lane requests) requests decisions) = Ok lanes2 /\
    (forall i req (acc : bool) info, requests !! i = Some req -> decisions !! i = Some acc ->
       (lanes_ l).[request_lane req] = Some info ->
       lanes2.[request_lane req] = Some
         (if acc then mkLane (li_owner info) Active (li_epoch info) (li_committed_frontier info + 1)
                        (history_commit (li_history info) (rq_token_id req))
          else info)) /\
    (forall lane, lane ∉ map request_lane requests -> lanes2.[lane] = (lanes_ l).[lane]).
Proof.
  intros Hop Hlen. pose proof (commit_rows_lanes requests decisions Hlen) as Hmap.
  destruct (commit_rows_spec (commit_rows (map request_lane requests) requests decisions) (lanes_ l1))
    as (lanes2 & Hrun & Hin & Hout).
  - rewrite Hmap. apply Hop.
  - apply Forall_forall. intros row Hrow. apply list_elem_of_In, (in_map (fun row => fst (fst row))), list_elem_of_In in Hrow.
    rewrite Hmap in Hrow. destruct (request_lane_elem _ _ Hrow) as (q & Hq & ->).
    destruct (opened_lane _ _ _ _ _ q Hop Hq) as (info & _ & _ & ->). eauto.
  - exists lanes2. split; [done|]. split.
    + intros i req acc info Hri Hai Hi.
      destruct (opened_lane _ _ _ _ _ req Hop) as (info' & Hi' & Hs & Hp); [by eapply list_elem_of_lookup_2|].
      rewrite Hi in Hi'. injection Hi' as <-.
      rewrite (Hin _ req acc _ (commit_row_elem _ _ i req acc Hri Hai) Hp). by rewrite advance_pending.
    + intros lane Hn. rewrite Hmap in Hout. rewrite Hout, (op_lanes _ _ _ _ _ Hop), mark_all_get by done.
      by rewrite bool_decide_eq_false_2.
Qed.

(** C33. Committing a round advances exactly the accepted lanes: after a round
    was opened in a reachable state, with a decision per request and slot
    selectors in order for these lanes, [commit_round] returns; an accepted
    request's lane has consumed its token (frontier, history and
    recurrent-state slot advance by one), a rejected request's lane is as it
    was before the round, no other lane or selector changes, the groups
    assigned stay with their lanes, and nothing is pending. *)
Theorem commit_round_advances_accepted c selected this ring y requests meta l1 round r decisions :
  lane_system_of c selected this ring y -> batch_ranges requests ->
  begin_round requests meta (ls_ledger y) = (l1, Ok round) ->
  ring_ok r -> sr_max_concurrency r = max_concurrency (ls_ledger y) ->
  length decisions = length requests ->
  let l := ls_ledger y in
  exists l2 r2, commit_round (transaction_id round) decisions (l1, r) = ((l2, r2), Ok tt) /\
    has_pending_batch_ (g_tx l2) = false /\ g_store l2 = g_store l1 /\
    (forall i req (acc : bool) info, requests !! i = Some req -> decisions !! i = Some acc ->
       (lanes_ l).[request_lane req] = Some info ->
       (lanes_ l2).[request_lane req] = Some
         (if acc then mkLane (li_owner info) Active (li_epoch info) (li_committed_frontier info + 1)
                        (history_commit (li_history info) (rq_token_id req))
          else info) /\
       forall o, ring_at r (request_lane req) o ->
         ring_at r2 (request_lane req) (if acc then (o + 1) mod slots_per_lane_ r else o)) /\
    (forall lane, lane ∉ map request_lane requests ->
       (lanes_ l2).[lane] = (lanes_ l).[lane] /\ forall o, ring_at r lane o -> ring_at r2 lane o).
Proof.
  intros Hy%lane_system_ok Hidx Hbegin Hr Hconc Hlen l. unfold system_ledger_ok in Hy. fold l in Hy, Hbegin, Hconc.
  pose proof (begin_round_spec (ls_ext y) l requests meta Hy Hidx) as Hop. rewrite Hbegin in Hop.
  destruct (op_tx _ _ _ _ _ Hop) as (Htx & Hpend & Hpre & Hprq & Hpl_lanes).
  destruct (commit_opened_lanes _ _ _ _ _ decisions Hop Hlen) as (lanes2 & Hrun & Hin & Hout).
  destruct (accepted_lanes_spec (map request_lane requests) decisions (op_nodup _ _ _ _ _ Hop)) as (Hnda & Hsub & Hiff).
  destruct (commit_accepted_slots r (accepted_lanes (map request_lane requests) decisions) l1 Hr Hnda)
    as (r2 & Hslots & Hat).
  { apply Forall_forall. intros x Hx%Hsub. destruct (request_lane_elem _ _ Hx) as (q & Hq & ->).
    destruct (opened_lane _ _ _ _ _ q Hop Hq) as (info & Hi & _). rewrite Hconc, <- (lo_lanes _ _ Hy).
    by apply vget_Some_bounds in Hi. }
  exists (set_tx (close_round (g_tx l1)) (set_lanes lanes2 l1)), r2. split; [|split; [done|split; [done|split]]].
  - unfold commit_round, mget, mthrow_if, mlift, mbind, M_bind. cbn [fst snd]. unfold stale.
    rewrite Hpend, Htx, Z.eqb_refl, Hpre, Hprq, Hpl_lanes. cbn [negb orb throw_if].
    unfold vsize. rewrite Hlen, Z.eqb_refl, length_map, Z.ltb_irrefl. cbn [negb throw_if].
    rewrite Hslots. unfold commit_rows in Hrun. by rewrite Hrun.
  - intros i req acc info Hri Hai Hi. split; [by apply (Hin i)|]. intros o Ho. apply Hat in Ho.
    assert (Hacc : request_lane req ∈ accepted_lanes (map request_lane requests) decisions <-> acc = true)
      by (apply (Hiff i); [rewrite list_lookup_fmap; by rewrite Hri|done]).
    destruct acc, (bool_decide_reflect (request_lane req ∈ accepted_lanes (map request_lane requests) decisions)); try done; naive_solver.
  - intros lane Hn. split; [by apply Hout|]. intros o Ho. apply Hat in Ho.
    by rewrite bool_decide_eq_false_2 in Ho by (intros ?%Hsub; done).
Qed.

(** * A demonstration round

    Two lanes of the demonstration plan, both at the start of their sequence. *)
Definition demo_two_lanes : FlashNextLaneLedger := fst (allocate_lane 9 demo_ledger).

Definition demo_system : lane_system := mkLaneSystem demo_two_lanes (make_slot_ring demo_plan []) [].

Definition demo_requests : list LaneStepRequest :=
  [mkStep demo_lane 11 0; mkStep (mkLaneHandle 9 1 1) 12 0].

Notation demo_round := (begin_round demo_requests kPleIndexMetadata (ls_ledger demo_system)).

Lemma demo_system_reached : lane_system_of demo_config 3 1 (make_slot_ring demo_plan []) demo_system.
Proof.
  exists demo_plan. split; [vm_compute; repeat split; discriminate|]. split; [vm_compute; reflexivity|].
  eapply lane_reach_step; [eapply lane_reach_step; [apply lane_reach_start|]|].
  - exact (step_allocate _ _ _ 7).
  - exact (step_allocate demo_ledger _ _ 9).
Qed.

Lemma demo_ranges : batch_ranges demo_requests.
Proof. split; [vm_compute; discriminate|]. repeat constructor; vm_compute; discriminate. Qed.

Lemma begin_round_all_or_nothing_witness :
  exists l' round, demo_round = (l', Ok round) /\ transaction_id round = 1 /\
    (lanes_ l').[0] = Some (mkLane 7 Pending 1 0 empty_history).
Proof.
  pose proof (begin_round_all_or_nothing demo_config 3 1 (make_slot_ring demo_plan []) demo_system demo_requests
                kPleIndexMetadata demo_system_reached demo_ranges) as H.
  cbv zeta in H.
  destruct demo_round as [l' [round|e]] eqn:E.
  - exists l', round. split; [reflexivity|]. destruct H as (Hid & _ & _ & _ & Hall). split; [exact Hid|].
    apply Forall_cons_1 in Hall as [(info & owned & Hi & _ & _ & Hp & _) _]. vm_compute in Hi. injection Hi as <-. exact Hp.
  - exfalso. vm_compute in E. discriminate E.
Defined.

Lemma rollback_restores_ledger_witness :
  exists l1 round l2, demo_round = (l1, Ok round) /\
    rollback_prepared_round (transaction_id round) l1 = (l2, Ok tt) /\ lanes_ l2 = lanes_ (ls_ledger demo_system).
Proof.
  destruct demo_round as [l1 [round|e]] eqn:E; [|exfalso; vm_compute in E; discriminate E].
  destruct (rollback_restores_ledger demo_config 3 1 (make_slot_ring demo_plan []) demo_system demo_requests
              kPleIndexMetadata l1 round demo_system_reached demo_ranges E) as (l2 & Hrun & Hl & _).
  exists l1, round, l2. split; [reflexivity|]. split; [exact Hrun|exact Hl].
Defined.

Lemma commit_round_advances_accepted_witness :
  exists l1 round l2 r2, demo_round = (l1, Ok round) /\
    commit_round (transaction_id round) [true; false] (l1, make_slot_ring demo_plan []) = ((l2, r2), Ok tt) /\
    (lanes_ l2).[0] = Some (mkLane 7 Active 1 1 (history_commit empty_history 11)) /\
    (lanes_ l2).[1] = Some (mkLane 9 Active 1 0 empty_history).
Proof.
  destruct demo_round as [l1 [round|e]] eqn:E; [|exfalso; vm_compute in E; discriminate E].
  destruct (commit_round_advances_accepted demo_config 3 1 (make_slot_ring demo_plan []) demo_system demo_requests
              kPleIndexMetadata l1 round (make_slot_ring demo_plan []) [true; false] demo_system_reached demo_ranges E)
    as (l2 & r2 & Hrun & _ & _ & Hin & _).
  - apply (make_slot_ring_ok demo_config 3 demo_plan []); [vm_compute; repeat split; discriminate|vm_compute; reflexivity].
  - vm_compute. reflexivity.
  - reflexivity.
  - exists l1, round, l2, r2. split; [reflexivity|]. split; [exact Hrun|]. split.
    + exact (proj1 (Hin 0%nat _ true (mkLane 7 Active 1 0 empty_history) eq_refl eq_refl eq_refl)).
    + exact (proj1 (Hin 1%nat _ false (mkLane 9 Active 1 0 empty_history) eq_refl eq_refl eq_refl)).
Defined.
