(* ===== verification/HostExtents.v ===== *)
(** Host KV extents (src/src/runtime/host_kv_extent_store.h,
    [HostKVExtentStore]): host allocations that hold the replicas of ordered
    logical pages. An extent names its pages through a linked list of
    membership nodes kept in a vector; both the extents and the nodes come
    from free stacks. The arena of [HostKvArena] and the page stores of
    [LogicalKv] the extents refer to are part of the state. *)

From S2P Require Import Prelude Tensor Layout PagedKv HostKvArena LogicalKv.

Definition kInvalidIndex : Z := U32_MAX.

(** * Data

    A [LogicalKVPageStore*] is the position of the store in the state, [None]
    the null pointer. *)
Inductive ExtentState : Type := XFree | XReserved | XPublished.

#[global] Instance ExtentState_eq_dec : EqDecision ExtentState.
Proof. solve_decision. Defined.

Record Extent : Type := mkXExtent {
  ex_state : ExtentState;
  ex_generation : Z;
  ex_page_store : option nat;
  ex_allocation : option HostKVAllocation;
  ex_head : Z;
  ex_tail : Z;
  ex_page_count : Z;
}.

Definition default_extent : Extent := mkXExtent XFree 1 None None kInvalidIndex kInvalidIndex 0.

Record Membership : Type := mkMember {
  mb_page : LogicalKVPageHandle;
  mb_epoch : Z;
  mb_coverage : Z;
  mb_extent : Z;
  mb_offset : Z;
  mb_next : Z;
}.

Definition default_member : Membership := mkMember null_logical_handle 0 0 kInvalidIndex 0 kInvalidIndex.

Definition set_next (next : Z) (m : Membership) : Membership :=
  mkMember (mb_page m) (mb_epoch m) (mb_coverage m) (mb_extent m) (mb_offset m) next.

Record PartitionRun : Type := mkPartitionRun {
  pr_begin : Z;
  pr_head : Z;
  pr_tail : Z;
  pr_count : Z;
  pr_release : bool;
}.

Record HostKVExtentReservation : Type := mkExtentReservation {
  xr_owner : Z;
  xr_descriptor : Z;
  xr_generation : Z;
  xr_page_store : option nat;
}.

Record HostKVPageReplicaRelease : Type := mkReplicaRelease {
  rr_pages : option nat;
  rr_page : LogicalKVPageHandle;
}.

#[global] Instance LogicalKVPageHandle_eq_dec : EqDecision LogicalKVPageHandle.
Proof. solve_decision. Defined.
#[global] Instance HostKVPageReplicaRelease_eq_dec : EqDecision HostKVPageReplicaRelease.
Proof. solve_decision. Defined.

(** The store; [partition_runs_], [extent_scan_scratch_] and
    [suballocation_scratch_] are cleared before every use and are local here. *)
Record HostKVExtentStore : Type := mkExtentStore {
  xs_this : Z;
  xs_extents : list Extent;
  xs_free : list Z;
  xs_free_count : Z;
  xs_memberships : list Membership;
  xs_free_memberships : list Z;
  xs_free_membership_count : Z;
  xs_release_marks : list Z;
  xs_extent_marks : list Z;
  xs_affected_extents : list Z;
  xs_release_stamp : Z;
}.

(** The store with the arena and the page stores it refers to. *)
Record host : Type := mkHost {
  he_arena : HostKVArena;
  he_pages : list kv;
  he_store : HostKVExtentStore;
}.

Notation H := (M host).

Definition set_arena (a : HostKVArena) (s : host) : host := mkHost a (he_pages s) (he_store s).
Definition set_kv (p : nat) (k : kv) (s : host) : host := mkHost (he_arena s) (<[p := k]> (he_pages s)) (he_store s).
Definition set_store (x : HostKVExtentStore) (s : host) : host := mkHost (he_arena s) (he_pages s) x.

Definition with_extents (l : list Extent) (x : HostKVExtentStore) : HostKVExtentStore :=
  mkExtentStore (xs_this x) l (xs_free x) (xs_free_count x) (xs_memberships x) (xs_free_memberships x)
    (xs_free_membership_count x) (xs_release_marks x) (xs_extent_marks x) (xs_affected_extents x) (xs_release_stamp x).
Definition with_free (l : list Z) (n : Z) (x : HostKVExtentStore) : HostKVExtentStore :=
  mkExtentStore (xs_this x) (xs_extents x) l n (xs_memberships x) (xs_free_memberships x)
    (xs_free_membership_count x) (xs_release_marks x) (xs_extent_marks x) (xs_affected_extents x) (xs_release_stamp x).
Definition with_memberships (l : list Membership) (x : HostKVExtentStore) : HostKVExtentStore :=
  mkExtentStore (xs_this x) (xs_extents x) (xs_free x) (xs_free_count x) l (xs_free_memberships x)
    (xs_free_membership_count x) (xs_release_marks x) (xs_extent_marks x) (xs_affected_extents x) (xs_release_stamp x).
Definition with_free_memberships (l : list Z) (n : Z) (x : HostKVExtentStore) : HostKVExtentStore :=
  mkExtentStore (xs_this x) (xs_extents x) (xs_free x) (xs_free_count x) (xs_memberships x) l n
    (xs_release_marks x) (xs_extent_marks x) (xs_affected_extents x) (xs_release_stamp x).
Definition with_marks (rm em affected : list Z) (stamp : Z) (x : HostKVExtentStore) : HostKVExtentStore :=
  mkExtentStore (xs_this x) (xs_extents x) (xs_free x) (xs_free_count x) (xs_memberships x) (xs_free_memberships x)
    (xs_free_membership_count x) rm em affected stamp.

(** The constructor. *)
Definition make_extent_store (this descriptor_capacity : Z) : result HostKVExtentStore :=
  _ ← throw_if (descriptor_capacity =? 0) InvalidArgument;
  let n := Z.to_nat descriptor_capacity in
  let free := map (fun index => descriptor_capacity - 1 - index) (seqZ 0 descriptor_capacity) in
  Ok (mkExtentStore this (replicate n default_extent) free descriptor_capacity (replicate n default_member) free
        descriptor_capacity (replicate n 0) (replicate n 0) [] 0).

Definition extent_capacity (x : HostKVExtentStore) : Z := vsize (xs_extents x).
Definition extents_occupied (x : HostKVExtentStore) : Z := wrap32 (extent_capacity x - xs_free_count x).

(** * References and stacks *)
Definition on_store (f : HostKVExtentStore -> HostKVExtentStore) : H unit :=
  mmodify (fun s => set_store (f (he_store s)) s).

Definition ext_ref (i : Z) : H Extent :=
  s ← mget;
  mlift (vat (xs_extents (he_store s)) i).

Definition put_ext (i : Z) (e : Extent) : H unit :=
  on_store (fun x => with_extents ((xs_extents x).[i <- e]) x).

Definition member_ref (n : Z) : H Membership :=
  s ← mget;
  mlift (vat (xs_memberships (he_store s)) n).

Definition put_member (n : Z) (m : Membership) : H unit :=
  on_store (fun x => with_memberships ((xs_memberships x).[n <- m]) x).

(** [free_[--free_count_]] and [free_[free_count_++] = index] *)
Definition pop_extent : H Z :=
  s ← mget;
  let x := he_store s in
  let n := wrap32 (xs_free_count x - 1) in
  _ ← mput (set_store (with_free (xs_free x) n x) s);
  mlift (vat (xs_free x) n).

Definition push_extent (index : Z) : H unit :=
  s ← mget;
  let x := he_store s in
  _ ← mlift (vat (xs_free x) (xs_free_count x));
  mput (set_store (with_free ((xs_free x).[xs_free_count x <- index]) (wrap32 (xs_free_count x + 1)) x) s).

Definition take_membership : H Z :=
  s ← mget;
  let x := he_store s in
  if xs_free_membership_count x =? 0 then mret kInvalidIndex else
  let n := wrap32 (xs_free_membership_count x - 1) in
  _ ← mput (set_store (with_free_memberships (xs_free_memberships x) n x) s);
  mlift (vat (xs_free_memberships x) n).

Definition push_membership (node : Z) : H unit :=
  s ← mget;
  let x := he_store s in
  _ ← mlift (vat (xs_free_memberships x) (xs_free_membership_count x));
  mput (set_store (with_free_memberships ((xs_free_memberships x).[xs_free_membership_count x <- node])
                     (wrap32 (xs_free_membership_count x + 1)) x) s).

(** A call through a pointer to a page store. *)
Definition on_pages {A} (p : option nat) (m : K A) : H A := fun s =>
  match p with
  | Some i => match he_pages s !! i with
              | Some k => let '(k', r) := m k in (set_kv i k' s, r)
              | None => (s, Err Undefined)
              end
  | None => (s, Err Undefined)
  end.

(** The page store behind a pointer, for the tests that only read it. *)
Definition pages_at (p : option nat) : H LogicalKVPageStore := on_pages p (s ← mget; mret (kv_store s)).

(** The end of an allocation: its destructor or an assignment over it. *)
Definition drop_allocation (o : option HostKVAllocation) : H unit :=
  mmodify (fun s => match o with
                    | Some al => set_arena (fst (fst (allocation_release (he_arena s) al))) s
                    | None => s
                    end).

(** An exception out of a [noexcept] function ends the process. *)
Definition nothrow {A} (m : H A) : H A := fun s =>
  match m s with
  | (s', Err _) => (s', Err Terminate)
  | r => r
  end.

(** [page_layout] *)
Definition page_layout (p : nat) : H HostKVPageLayout :=
  s ← mget;
  match he_pages s !! p with
  | None => mthrow Undefined
  | Some k => match layout_for (he_arena s) (ps_geometry (p_spec (kv_pool k))) with
              | Some layout => mret layout
              | None => mthrow InvalidArgument
              end
  end.

(** * Reservations *)
Definition arena_allocate (layout : HostKVPageLayout) (pages : Z) : H (option HostKVAllocation) :=
  s ← mget;
  '(a, al) ← mlift (allocate (he_arena s) layout pages);
  _ ← mput (set_arena a s);
  mret al.

(** One iteration of the membership loop of [prepare]. *)
Definition append_member (p : nat) (descriptor : Z) (page : LogicalKVPageHandle) : H unit :=
  node ← take_membership;
  _ ← mthrow_if (node =? kInvalidIndex) Terminate;
  _ ← member_ref node;
  epoch ← on_pages (Some p) (content_epoch page);
  coverage ← on_pages (Some p) (committed_columns page);
  extent ← ext_ref descriptor;
  _ ← put_member node (mkMember page epoch coverage descriptor (ex_page_count extent) kInvalidIndex);
  head ← (if ex_tail extent =? kInvalidIndex then mret node
          else tail ← member_ref (ex_tail extent);
               _ ← put_member (ex_tail extent) (set_next node tail);
               mret (ex_head extent));
  put_ext descriptor
    (mkXExtent (ex_state extent) (ex_generation extent) (ex_page_store extent) (ex_allocation extent) head node
       (wrap32 (ex_page_count extent + 1))).

Definition can_copy_to_host (st : LogicalKVPageStore) (page : LogicalKVPageHandle) : bool :=
  can_pin_source st page && page_test st page (fun pg => negb (has (pg_host_replica pg))).

Definition prepare (p : nat) (membership : list LogicalKVPageHandle) : H (option HostKVExtentReservation) :=
  s ← mget;
  let x := he_store s in
  if (vsize membership =? 0) || (xs_free_count x =? 0) || (xs_free_membership_count x <? vsize membership)
  then mret None else
  pages ← pages_at (Some p);
  if negb (forallb (can_copy_to_host pages) membership) then mret None else
  layout ← page_layout p;
  allocation ← arena_allocate layout (wrap32 (vsize membership));
  if negb (has allocation) then mret None else
  descriptor ← pop_extent;
  extent ← ext_ref descriptor;
  _ ← mthrow_if (negb (bool_decide (ex_state extent = XFree))) Terminate;
  _ ← drop_allocation (ex_allocation extent);
  _ ← put_ext descriptor
        (mkXExtent XReserved (ex_generation extent) (Some p) allocation (ex_head extent) (ex_tail extent)
           (ex_page_count extent));
  _ ← mfor (append_member p descriptor) membership;
  _ ← mfor (fun page => on_pages (Some p) (pin_source page)) membership;
  extent ← ext_ref descriptor;
  mret (Some (mkExtentReservation (xs_this x) descriptor (ex_generation extent) (Some p))).

(** [valid] of a reservation. *)
Definition reservation_valid (x : HostKVExtentStore) (r : HostKVExtentReservation) : bool :=
  if negb (xr_owner r =? xs_this x) || (vsize (xs_extents x) <=? xr_descriptor r) || negb (has (xr_page_store r))
  then false
  else match (xs_extents x).[xr_descriptor r] with
       | Some extent =>
           bool_decide (ex_state extent = XReserved) && (ex_generation extent =? xr_generation r) &&
           bool_decide (ex_page_store extent = xr_page_store r) && has (ex_allocation extent) &&
           negb (ex_page_count extent =? 0) && negb (ex_head extent =? kInvalidIndex) &&
           negb (ex_tail extent =? kInvalidIndex)
       | None => false
       end.

Definition consume (r : HostKVExtentReservation) : HostKVExtentReservation :=
  mkExtentReservation 0 (xr_descriptor r) (xr_generation r) None.

(** [validate], and the extent the reservation names. *)
Definition validate (r : HostKVExtentReservation) : H Extent :=
  s ← mget;
  _ ← mthrow_if (negb (reservation_valid (he_store s) r)) LogicError;
  ext_ref (xr_descriptor r).

Definition view_allocation (o : option HostKVAllocation) : H HostKVAllocationView :=
  s ← mget;
  match o with
  | Some al => mlift (arena_view (he_arena s) al)
  | None => mthrow Undefined
  end.

Definition writable_view (r : HostKVExtentReservation) : H HostKVAllocationView :=
  extent ← validate r;
  view_allocation (ex_allocation extent).

(** The loop of [device_sources] over the output. *)
Fixpoint collect_sources (p : option nat) (count : nat) (node : Z) : H (list DeviceKVPageHandle) :=
  match count with
  | O => _ ← mthrow_if (negb (node =? kInvalidIndex)) Terminate; mret []
  | S count' =>
      _ ← mthrow_if (node =? kInvalidIndex) Terminate;
      m ← member_ref node;
      d ← on_pages p (physical (mb_page m));
      rest ← collect_sources p count' (mb_next m);
      mret (d :: rest)
  end.

Definition device_sources_into (r : HostKVExtentReservation) (size : Z) : H (list DeviceKVPageHandle) :=
  extent ← validate r;
  _ ← mthrow_if (negb (size =? ex_page_count extent)) InvalidArgument;
  collect_sources (ex_page_store extent) (Z.to_nat size) (ex_head extent).

Definition device_sources (r : HostKVExtentReservation) : H (list DeviceKVPageHandle) :=
  extent ← validate r;
  device_sources_into r (ex_page_count extent).

Definition reservation_page_count (r : HostKVExtentReservation) : H Z :=
  extent ← validate r;
  mret (ex_page_count extent).

(** * Publication and abort *)
Fixpoint check_attachable (p : option nat) (count : nat) (node : Z) : H unit :=
  match count with
  | O => mthrow_if (negb (node =? kInvalidIndex)) Terminate
  | S count' =>
      _ ← mthrow_if (node =? kInvalidIndex) Terminate;
      entry ← member_ref node;
      pages ← pages_at p;
      _ ← mthrow_if (negb (can_attach_host_replica pages (mb_page entry) (mb_epoch entry) (mb_coverage entry))) Terminate;
      check_attachable p count' (mb_next entry)
  end.

Fixpoint attach_members (p : option nat) (capability : HostKVExtentCapability) (index : Z) (count : nat) (node : Z)
  : H unit :=
  match count with
  | O => mret tt
  | S count' =>
      entry ← member_ref node;
      _ ← nothrow (on_pages p (attach_host_replica (mb_page entry)
            (mkHostReplica capability index node (mb_epoch entry) (mb_coverage entry))));
      _ ← on_pages p (unpin_source (mb_page entry));
      attach_members p capability (index + 1) count' (mb_next entry)
  end.

Definition set_ex_state (st : ExtentState) (e : Extent) : Extent :=
  mkXExtent st (ex_generation e) (ex_page_store e) (ex_allocation e) (ex_head e) (ex_tail e) (ex_page_count e).

Definition publish (r : HostKVExtentReservation) : H (HostKVExtentCapability * HostKVExtentReservation) :=
  nothrow (
    s ← mget;
    _ ← mthrow_if (negb (reservation_valid (he_store s) r)) Terminate;
    extent ← ext_ref (xr_descriptor r);
    _ ← check_attachable (ex_page_store extent) (Z.to_nat (ex_page_count extent)) (ex_head extent);
    _ ← put_ext (xr_descriptor r) (set_ex_state XPublished extent);
    let capability := mkCapability (xs_this (he_store s)) (xr_descriptor r) (ex_generation extent) in
    _ ← attach_members (ex_page_store extent) capability 0 (Z.to_nat (ex_page_count extent)) (ex_head extent);
    mret (capability, consume r)).

(** [release_descriptor] *)
Fixpoint free_members (count : nat) (node : Z) : H unit :=
  match count with
  | O => mthrow_if (negb (node =? kInvalidIndex)) Terminate
  | S count' =>
      _ ← mthrow_if (node =? kInvalidIndex) Terminate;
      m ← member_ref node;
      _ ← put_member node default_member;
      _ ← push_membership node;
      free_members count' (mb_next m)
  end.

Definition release_extent (index : Z) : H unit :=
  nothrow (
    extent ← ext_ref index;
    _ ← free_members (Z.to_nat (ex_page_count extent)) (ex_head extent);
    _ ← drop_allocation (ex_allocation extent);
    _ ← put_ext index (mkXExtent XFree (increment_generation (ex_generation extent)) None None kInvalidIndex kInvalidIndex 0);
    push_extent index).

Fixpoint unpin_members (p : option nat) (count : nat) (node : Z) : H unit :=
  match count with
  | O => mret tt
  | S count' =>
      _ ← mthrow_if (node =? kInvalidIndex) Terminate;
      m ← member_ref node;
      pages ← pages_at p;
      _ ← mthrow_if (negb (page_test pages (mb_page m) (fun pg => negb (pg_source_pins pg =? 0)))) Terminate;
      _ ← nothrow (on_pages p (unpin_source (mb_page m)));
      unpin_members p count' (mb_next m)
  end.

(** [abort], which is also the destructor of an armed reservation. *)
Definition abort (r : HostKVExtentReservation) : H HostKVExtentReservation :=
  nothrow (
    s ← mget;
    if negb (reservation_valid (he_store s) r) then mret (consume r) else
    extent ← ext_ref (xr_descriptor r);
    _ ← unpin_members (ex_page_store extent) (Z.to_nat (ex_page_count extent)) (ex_head extent);
    _ ← release_extent (xr_descriptor r);
    mret (consume r)).

Definition destroy_reservation (r : HostKVExtentReservation) : H HostKVExtentReservation :=
  if negb (xr_owner r =? 0) then abort r else mret r.

(** * Published extents *)

(** [valid] of a capability. *)
Definition extent_valid (x : HostKVExtentStore) (c : HostKVExtentCapability) : bool :=
  (hx_owner c =? xs_this x) &&
  match (xs_extents x).[hx_index c] with
  | Some extent => bool_decide (ex_state extent = XPublished) && (ex_generation extent =? hx_generation c)
  | None => false
  end.

(** [require] *)
Definition require_extent (c : HostKVExtentCapability) : H Extent :=
  s ← mget;
  _ ← mthrow_if (negb (extent_valid (he_store s) c)) InvalidArgument;
  ext_ref (hx_index c).

Definition view (c : HostKVExtentCapability) : H HostKVAllocationView :=
  extent ← require_extent c;
  view_allocation (ex_allocation extent).

(** The validation loop of [release]. *)
Definition member_releasable (st : LogicalKVPageStore) (c : HostKVExtentCapability) (index node : Z) (m : Membership)
  : bool :=
  page_test st (mb_page m) (fun pg =>
    match pg_host_replica pg with
    | Some replica =>
        bool_decide (hr_extent replica = c) && (hr_page_offset replica =? index) && (hr_membership_node replica =? node) &&
        (has (pg_device_replica pg) || (pg_references pg =? 0))
    | None => false
    end) && (mb_extent m =? hx_index c) && (mb_offset m =? index).

Fixpoint members_releasable (p : option nat) (c : HostKVExtentCapability) (index : Z) (count : nat) (node : Z) : H bool :=
  match count with
  | O => mret (node =? kInvalidIndex)
  | S count' =>
      if node =? kInvalidIndex then mret false else
      m ← member_ref node;
      pages ← pages_at p;
      if negb (member_releasable pages c index node m) then mret false else
      members_releasable p c (index + 1) count' (mb_next m)
  end.

Fixpoint detach_members (p : option nat) (c : HostKVExtentCapability) (count : nat) (node : Z) : H unit :=
  match count with
  | O => mret tt
  | S count' =>
      m ← member_ref node;
      ok ← on_pages p (detach_host_replica (mb_page m) c);
      _ ← mthrow_if (negb ok) Terminate;
      detach_members p c count' (mb_next m)
  end.

Definition release (c : HostKVExtentCapability) : H bool :=
  nothrow (
    s ← mget;
    if negb (extent_valid (he_store s) c) then mret false else
    extent ← ext_ref (hx_index c);
    ok ← members_releasable (ex_page_store extent) c 0 (Z.to_nat (ex_page_count extent)) (ex_head extent);
    if negb ok then mret false else
    _ ← detach_members (ex_page_store extent) c (Z.to_nat (ex_page_count extent)) (ex_head extent);
    _ ← release_extent (hx_index c);
    mret true).

(** * Release of single pages *)

(** The membership a replica names is that of the page. *)
Definition replica_is_member (x : HostKVExtentStore) (p : nat) (page : LogicalKVPageHandle) (replica : HostKVPageReplica)
  : bool :=
  extent_valid x (hr_extent replica) &&
  match (xs_extents x).[hx_index (hr_extent replica)], (xs_memberships x).[hr_membership_node replica] with
  | Some extent, Some m =>
      bool_decide (ex_page_store extent = Some p) && (hr_page_offset replica <? ex_page_count extent) &&
      bool_decide (mb_page m = page) && (mb_extent m =? hx_index (hr_extent replica)) &&
      (mb_offset m =? hr_page_offset replica)
  | _, _ => false
  end.

Definition can_release_page_replica (x : HostKVExtentStore) (p : nat) (st : LogicalKVPageStore) (page : LogicalKVPageHandle)
  : bool :=
  page_test st page (fun pg =>
    match pg_host_replica pg with
    | Some replica =>
        (pg_source_pins pg =? 0) && (has (pg_device_replica pg) || (pg_references pg =? 0)) &&
        replica_is_member x p page replica
    | None => false
    end).

(** The test of a release that drops the page's last reference. *)
Definition can_release_last_reference (st : LogicalKVPageStore) (page : LogicalKVPageHandle) : bool :=
  page_test st page (fun pg =>
    has (pg_host_replica pg) && (pg_source_pins pg =? 0) && (pg_references pg =? 1)).

Definition begin_release_marks : H unit :=
  on_store (fun x =>
    let stamp := wrap32 (xs_release_stamp x + 1) in
    if stamp =? 0
    then with_marks (map (fun _ => 0) (xs_release_marks x)) (map (fun _ => 0) (xs_extent_marks x)) [] 1 x
    else with_marks (xs_release_marks x) (xs_extent_marks x) [] stamp x).

Definition mark_release (p : nat) (page : LogicalKVPageHandle) (last_reference : bool) : H bool :=
  s ← mget;
  let x := he_store s in
  st ← pages_at (Some p);
  if negb (if last_reference then can_release_last_reference st page else can_release_page_replica x p st page)
  then mret false else
  replica ← on_pages (Some p) (host_replica page);
  if negb (replica_is_member x p page replica) then mret false else
  let node := hr_membership_node replica in
  let index := hx_index (hr_extent replica) in
  mark ← mlift (vat (xs_release_marks x) node);
  if mark =? xs_release_stamp x then mret false else
  emark ← mlift (vat (xs_extent_marks x) index);
  let rm := (xs_release_marks x).[node <- xs_release_stamp x] in
  _ ← (if negb (emark =? xs_release_stamp x)
       then mput (set_store (with_marks rm ((xs_extent_marks x).[index <- xs_release_stamp x])
                               (xs_affected_extents x ++ [index]) (xs_release_stamp x) x) s)
       else mput (set_store (with_marks rm (xs_extent_marks x) (xs_affected_extents x) (xs_release_stamp x) x) s));
  mret true.

(** The loop over the releases of [can_release_page_replicas]. *)
Fixpoint mark_releases (releases : list HostKVPageReplicaRelease) : H bool :=
  match releases with
  | [] => mret true
  | release :: releases' =>
      match rr_pages release with
      | None => mret false
      | Some p =>
          ok ← mark_release p (rr_page release) false;
          if negb ok then mret false else mark_releases releases'
      end
  end.

Definition can_release_page_replicas (releases : list HostKVPageReplicaRelease) : H bool :=
  _ ← begin_release_marks;
  mark_releases releases.

(** The overload for the pages of one store. *)
Definition can_release_pages_of (p : nat) (releases : list LogicalKVPageHandle) : H bool :=
  can_release_page_replicas (map (mkReplicaRelease (Some p)) releases).

(** The loops of [can_allocate_after_page_releases]: mark each release and
    collect the part of the allocation it names. *)
Definition append_release (release : HostKVPageReplicaRelease) : H (option HostKVSuballocationRelease) :=
  match rr_pages release with
  | None => mret None
  | Some p =>
      replica ← on_pages (Some p) (host_replica (rr_page release));
      extent ← require_extent (hr_extent replica);
      match ex_allocation extent with
      | None => mret None
      | Some al => mret (Some (mkSubrelease (allocation_handle al) (hr_page_offset replica) 1))
      end
  end.

Fixpoint simulate_page_releases (last_reference : bool) (releases : list HostKVPageReplicaRelease)
    (scratch : list HostKVSuballocationRelease) : H (option (list HostKVSuballocationRelease)) :=
  match releases with
  | [] => mret (Some scratch)
  | release :: releases' =>
      match rr_pages release with
      | None => mret None
      | Some p =>
          ok ← mark_release p (rr_page release) last_reference;
          if negb ok then mret None else
          sub ← append_release release;
          match sub with
          | None => mret None
          | Some sub => simulate_page_releases last_reference releases' (scratch ++ [sub])
          end
      end
  end.

Definition can_allocate_after_page_releases (releases last_reference_releases : list HostKVPageReplicaRelease)
    (allocations : list HostKVAllocationRequest) : H bool :=
  _ ← begin_release_marks;
  scratch ← simulate_page_releases false releases [];
  match scratch with
  | None => mret false
  | Some scratch =>
      scratch' ← simulate_page_releases true last_reference_releases scratch;
      match scratch' with
      | None => mret false
      | Some scratch' =>
          s ← mget;
          mlift (can_allocate_after_suballocation_releases (he_arena s) scratch' allocations)
      end
  end.

(** * Partition of an extent *)

(** A predicate on the pages of an extent: the descriptor of the page and the
    node that names it. *)
Notation page_predicate := (HostKVExtentStore -> Page -> Z -> bool).

Record scan : Type := mkScan {
  sc_runs : list PartitionRun;
  sc_any_release : bool;
  sc_retained_runs : Z;
  sc_released_pages : Z;
}.

(** The runs after one more page. *)
Definition push_run (runs : list PartitionRun) (offset node : Z) (release : bool) : list PartitionRun * bool :=
  match last runs with
  | Some run =>
      if eqb (pr_release run) release
      then (removelast runs ++ [mkPartitionRun (pr_begin run) (pr_head run) node (wrap32 (pr_count run + 1)) release], false)
      else (runs ++ [mkPartitionRun offset node node 1 release], true)
  | None => (runs ++ [mkPartitionRun offset node node 1 release], true)
  end.

Definition scan_page (acc : scan) (offset node : Z) (release : bool) : scan :=
  let '(runs, fresh) := push_run (sc_runs acc) offset node release in
  mkScan runs (sc_any_release acc || release)
    (if fresh && negb release then wrap32 (sc_retained_runs acc + 1) else sc_retained_runs acc)
    (if release then wrap32 (sc_released_pages acc + 1) else sc_released_pages acc).

(** The replica is the one the membership says. *)
Definition replica_agrees (old : HostKVExtentCapability) (offset node : Z) (m : Membership) (r : HostKVPageReplica) : bool :=
  (mb_extent m =? hx_index old) && (mb_offset m =? offset) && bool_decide (hr_extent r = old) &&
  (hr_page_offset r =? offset) && (hr_membership_node r =? node) && (hr_content_epoch r =? mb_epoch m) &&
  (hr_committed_columns r =? mb_coverage m).

Definition unreleasable (pg : Page) : bool :=
  negb (pg_source_pins pg =? 0) || (negb (has (pg_device_replica pg)) && negb (pg_references pg =? 0)).

Fixpoint scan_members (x : HostKVExtentStore) (st : LogicalKVPageStore) (old : HostKVExtentCapability)
    (should_release : page_predicate) (count : nat) (offset node : Z) (acc : scan) : result (scan * Z) :=
  match count with
  | O => Ok (acc, node)
  | S count' =>
      _ ← throw_if ((node =? kInvalidIndex) || (vsize (xs_memberships x) <=? node)) LogicError;
      entry ← vat (xs_memberships x) node;
      _ ← throw_if (negb (page_test st (mb_page entry) (fun pg => has (pg_host_replica pg)))) LogicError;
      pg ← vat (ls_pages st) (lh_index (mb_page entry));
      _ ← throw_if (negb (match pg_host_replica pg with
                          | Some replica => replica_agrees old offset node entry replica
                          | None => false
                          end)) LogicError;
      let release := should_release x pg node in
      _ ← throw_if (release && unreleasable pg) LogicError;
      scan_members x st old should_release count' (offset + 1) (mb_next entry) (scan_page acc offset node release)
  end.

(** [arena_->split]; an exception destroys the allocation that was to be
    split. *)
Definition arena_split (al : HostKVAllocation) (count : Z) : H (HostKVAllocation * HostKVAllocation) :=
  s ← mget;
  match split_allocation (he_arena s) al count with
  | Ok (a, parts) => _ ← mput (set_arena a s); mret parts
  | Err e => _ ← drop_allocation (Some al); mthrow e
  end.

Fixpoint release_members (p : nat) (old : HostKVExtentCapability) (count : nat) (node : Z) : H unit :=
  match count with
  | O => mthrow_if (negb (node =? kInvalidIndex)) Terminate
  | S count' =>
      _ ← mthrow_if (node =? kInvalidIndex) Terminate;
      entry ← member_ref node;
      ok ← on_pages (Some p) (detach_host_replica (mb_page entry) old);
      _ ← mthrow_if (negb ok) Terminate;
      _ ← put_member node default_member;
      _ ← push_membership node;
      release_members p old count' (mb_next entry)
  end.

Definition release_allocation (al : HostKVAllocation) : H unit :=
  s ← mget;
  let '(a, _, ok) := allocation_release (he_arena s) al in
  _ ← mput (set_arena a s);
  mthrow_if (negb ok) Terminate.

Fixpoint rebind_members (p : nat) (old replacement : HostKVExtentCapability) (begin offset : Z) (count : nat) (node : Z)
  : H unit :=
  match count with
  | O => mthrow_if (negb (node =? kInvalidIndex)) Terminate
  | S count' =>
      _ ← mthrow_if (node =? kInvalidIndex) Terminate;
      entry ← member_ref node;
      _ ← on_pages (Some p) (rebind_host_replica (mb_page entry)
            (mkHostReplica old (wrap32 (begin + offset)) node (mb_epoch entry) (mb_coverage entry))
            (mkHostReplica replacement offset node (mb_epoch entry) (mb_coverage entry)));
      _ ← put_member node (mkMember (mb_page entry) (mb_epoch entry) (mb_coverage entry) (hx_index replacement) offset
                             (mb_next entry));
      rebind_members p old replacement begin (offset + 1) count' (mb_next entry)
  end.

(** One run: its part of the allocation is released, or becomes an extent. *)
Definition end_run (run : PartitionRun) : H unit :=
  tail ← member_ref (pr_tail run);
  put_member (pr_tail run) (set_next kInvalidIndex tail).

Definition retain_run (index : Z) (p : nat) (old : HostKVExtentCapability) (run : PartitionRun) (al : HostKVAllocation)
    (assigned : bool) : H unit :=
  target_index ← (if negb assigned then mret index else pop_extent);
  target ← ext_ref target_index;
  _ ← mthrow_if (negb (target_index =? index) && negb (bool_decide (ex_state target = XFree))) Terminate;
  _ ← drop_allocation (ex_allocation target);
  _ ← put_ext target_index
        (mkXExtent XPublished (ex_generation target) (Some p) (Some al) (pr_head run) (pr_tail run) (pr_count run));
  s ← mget;
  rebind_members p old (mkCapability (xs_this (he_store s)) target_index (ex_generation target)) (pr_begin run) 0
    (Z.to_nat (pr_count run)) (pr_head run).

Fixpoint partition_runs (index : Z) (p : nat) (old : HostKVExtentCapability) (runs : list PartitionRun)
    (remaining : HostKVAllocation) (assigned : bool) : H bool :=
  match runs with
  | [] => mret assigned
  | run :: runs' =>
      '(al, remaining') ← (match runs' with
                           | [] => mret (remaining, null_allocation)
                           | _ => arena_split remaining (pr_count run)
                           end);
      _ ← end_run run;
      if pr_release run
      then _ ← release_members p old (Z.to_nat (pr_count run)) (pr_head run);
           _ ← release_allocation al;
           partition_runs index p old runs' remaining' assigned
      else _ ← retain_run index p old run al assigned;
           partition_runs index p old runs' remaining' true
  end.

Definition partition_extent (index : Z) (should_release : page_predicate) : H Z :=
  s ← mget;
  let x := he_store s in
  _ ← mthrow_if (vsize (xs_extents x) <=? index) LogicError;
  original ← ext_ref index;
  match ex_page_store original, ex_allocation original with
  | Some p, Some al =>
      _ ← mthrow_if (negb (bool_decide (ex_state original = XPublished)) || (ex_page_count original =? 0) ||
                     negb (allocation_page_count (he_arena s) al =? ex_page_count original)) LogicError;
      let old := mkCapability (xs_this x) index (ex_generation original) in
      pages ← pages_at (Some p);
      '(found, node) ← mlift (scan_members x pages old should_release (Z.to_nat (ex_page_count original)) 0
                                (ex_head original) (mkScan [] false 0 0));
      _ ← mthrow_if (negb (node =? kInvalidIndex)) LogicError;
      if negb (sc_any_release found) then mret 0 else
      let additional := if sc_retained_runs found =? 0 then 0 else sc_retained_runs found - 1 in
      _ ← mthrow_if (xs_free_count x <? additional) LogicError;
      layout ← page_layout p;
      let stride := hl_page_stride layout in
      _ ← mthrow_if (SIZE_MAX / stride <? sc_released_pages found) OverflowError;
      _ ← put_ext index (mkXExtent (ex_state original) (increment_generation (ex_generation original)) (Some p) None
                           (ex_head original) (ex_tail original) (ex_page_count original));
      assigned ← partition_runs index p old (sc_runs found) al false;
      _ ← (if negb assigned
           then original ← ext_ref index;
                _ ← drop_allocation (ex_allocation original);
                _ ← put_ext index (mkXExtent XFree (ex_generation original) None None kInvalidIndex kInvalidIndex 0);
                push_extent index
           else mret tt);
      mret (stride * sc_released_pages found)
  | _, _ => mthrow LogicError
  end.

Definition marked : page_predicate := fun x _ node =>
  match (xs_release_marks x).[node] with
  | Some mark => mark =? xs_release_stamp x
  | None => false
  end.

Definition release_marked_extents : H unit :=
  s ← mget;
  mfor (fun index => _ ← partition_extent index marked; mret tt) (xs_affected_extents (he_store s)).

Definition release_page_replicas (releases : list HostKVPageReplicaRelease) : H bool :=
  ok ← can_release_page_replicas releases;
  if negb ok then mret false else
  _ ← release_marked_extents;
  mret true.

Definition release_pages_of (p : nat) (releases : list LogicalKVPageHandle) : H bool :=
  ok ← can_release_pages_of p releases;
  if negb ok then mret false else
  _ ← release_marked_extents;
  mret true.

Definition unreferenced : page_predicate := fun _ pg _ => (pg_references pg =? 0) && (pg_source_pins pg =? 0).

(** The extents [release_unreferenced] visits. *)
Definition published_extents (x : HostKVExtentStore) : list Z :=
  filter (fun index => match (xs_extents x).[index] with
                       | Some e => bool_decide (ex_state e = XPublished) && has (ex_allocation e) && has (ex_page_store e)
                       | None => false
                       end = true) (seqZ 0 (vsize (xs_extents x))).

Fixpoint partition_all (indices : list Z) (released_bytes : Z) : H Z :=
  match indices with
  | [] => mret released_bytes
  | index :: indices' =>
      bytes ← partition_extent index unreferenced;
      _ ← mthrow_if (SIZE_MAX - released_bytes <? bytes) Terminate;
      partition_all indices' (released_bytes + bytes)
  end.

Definition release_unreferenced : H Z :=
  nothrow (
    s ← mget;
    partition_all (published_extents (he_store s)) 0).
