(* ===== verification/ExtentPages.v ===== *)
(** What the host extents rely on in the page stores: the replicas and the
    pins an extent holds, as tokens of the pages, what the calls of a page
    store on replicas and pins do to the tokens, and that no other call
    touches them. *)

From S2P Require Import Prelude Tensor Layout PagedKv HostKvArena LogicalKv PageTokens HostExtents.

(** * Tokens *)

(** A replica of page [rt_page] of store [rt_store]; [rt_droppable] records
    that the page does not need it. *)
Record rtok : Type := mkRtok {
  rt_store : nat;
  rt_page : LogicalKVPageHandle;
  rt_replica : HostKVPageReplica;
  rt_droppable : bool;
}.

Notation ptok := (nat * LogicalKVPageHandle)%type.

Definition rt_key (t : rtok) : nat * Z := (rt_store t, lh_index (rt_page t)).
Definition pt_key (t : ptok) : nat * Z := (fst t, lh_index (snd t)).

Definition droppable (pg : Page) : Prop := pg_device_replica pg <> None \/ pg_references pg = 0.

(** What the token of a replica says of its page. *)
Record replica_on (pg : Page) (t : rtok) : Prop := {
  ro_replica : pg_host_replica pg = Some (rt_replica t);
  ro_epoch : hr_content_epoch (rt_replica t) = pg_content_epoch pg;
  ro_droppable : rt_droppable t = true -> droppable pg;
}.

Definition holds_replica (ks : list kv) (t : rtok) : Prop :=
  exists k pg, ks !! rt_store t = Some k /\ page_valid (kv_store k) (rt_page t) = true /\
    (ls_pages (kv_store k)).[lh_index (rt_page t)] = Some pg /\ replica_on pg t.

Definition holds_pin (ks : list kv) (t : ptok) : Prop :=
  exists k, ks !! fst t = Some k /\ page_valid (kv_store k) (snd t) = true.

Definition pin_count (P : list ptok) (key : nat * Z) : Z := vsize (filter (fun t => pt_key t = key) P).

(** What is known of the stores: the specifications of their pools, and a
    property of all their pages. *)
Record penv : Type := mkPenv {
  pe_specs : list DeviceKVPagePoolSpec;
  pe_page : nat -> Z -> Page -> Prop;
}.

(** The property allows the changes of host replicas, and of pins. *)
Class HostStable (e : penv) : Prop := {
  hs_replica p i pg r : pg_occupied pg = true -> pe_page e p i pg -> pe_page e p i (set_host_replica r pg);
  hs_vacated p i pg : pg_occupied pg = true -> pe_page e p i pg -> pg_references pg = 0 -> pg_source_pins pg = 0 -> pg_device_replica pg = None ->
    pe_page e p i (vacated pg);
}.

Class PinStable (e : penv) : Prop :=
  ps_pins p i pg n : pe_page e p i pg -> pe_page e p i (set_source_pins n pg).

Definition any_page (specs : list DeviceKVPagePoolSpec) : penv := mkPenv specs (fun _ _ _ => True).

#[global] Instance any_page_host specs : HostStable (any_page specs).
Proof. by constructor. Qed.
#[global] Instance any_page_pin specs : PinStable (any_page specs).
Proof. done. Qed.

(** The tokens [R] of all replicas and [P] of pins. *)
Record ptoks (specs : penv) (R : list rtok) (P : list ptok) (ks : list kv) : Prop := {
  px_ok : Forall (fun k => kv_sound k) ks;
  px_specs : map (fun k => p_spec (kv_pool k)) ks = pe_specs specs;
  px_page : forall p k i pg, ks !! p = Some k -> (ls_pages (kv_store k)).[i] = Some pg -> pe_page specs p i pg;
  px_held : Forall (holds_replica ks) R;
  px_keys : NoDup (map rt_key R);
  px_owned : forall p k i pg, ks !! p = Some k -> (ls_pages (kv_store k)).[i] = Some pg -> pg_host_replica pg <> None ->
               (p, i) ∈ map rt_key R;
  px_pinned : Forall (holds_pin ks) P;
  px_pins : forall p k i pg, ks !! p = Some k -> (ls_pages (kv_store k)).[i] = Some pg -> pin_count P (p, i) <= pg_source_pins pg;
}.

#[global] Instance pin_count_Proper : Proper (Permutation ==> eq ==> eq) pin_count.
Proof. intros P P' HP key ? <-. unfold pin_count. by rewrite HP. Qed.

#[global] Instance ptoks_Proper specs : Proper (Permutation ==> Permutation ==> eq ==> impl) (ptoks specs).
Proof.
  intros R R' HR P P' HP ks ? <- [H1 H2 H0 H3 H4 H5 H6 H7]. constructor; try done; rewrite <- ?HR, <- ?HP; try done.
  - intros. rewrite <- HR. by eapply H5.
  - intros. rewrite <- HP. by eapply H7.
Qed.

Lemma pin_count_cons t P key : pin_count (t :: P) key = (if decide (pt_key t = key) then 1 else 0) + pin_count P key.
Proof. unfold pin_count. rewrite filter_cons. destruct (decide (pt_key t = key)); [by rewrite vsize_cons|done]. Qed.

Lemma pin_count_nonneg P key : 0 <= pin_count P key.
Proof. apply vsize_nonneg. Qed.

Lemma pin_count_elem t P : t ∈ P -> 1 <= pin_count P (pt_key t).
Proof.
  intros (P1 & P2 & ->)%list_elem_of_split. rewrite <- Permutation_middle, pin_count_cons, decide_True by done.
  pose proof (pin_count_nonneg (P1 ++ P2) (pt_key t)). lia.
Qed.

(** * One page changes *)
Section Update.
Context (specs : penv) (ks : list kv) (p : nat) (k k' : kv) (i : Z) (pg pg' : Page).
Hypothesis Hk : ks !! p = Some k.
Hypothesis Hpg : (ls_pages (kv_store k)).[i] = Some pg.
Hypothesis Hok : kv_sound k'.
Hypothesis Hspec : p_spec (kv_pool k') = p_spec (kv_pool k).
Hypothesis Hrw : rewritten k k' i pg'.

Lemma upd_lookup q l :
  <[p := k']> ks !! q = Some l -> (q = p /\ l = k') \/ (q <> p /\ ks !! q = Some l).
Proof.
  intros Hl. destruct (decide (q = p)) as [->|Hne].
  - rewrite list_lookup_insert_eq in Hl by (by eapply lookup_lt_Some). left. naive_solver.
  - rewrite list_lookup_insert_ne in Hl by done. by right.
Qed.

Lemma upd_page j q : (ls_pages (kv_store k')).[j] = Some q -> (j = i /\ q = pg') \/ (j <> i /\ (ls_pages (kv_store k)).[j] = Some q).
Proof.
  rewrite (rw_pages _ _ _ _ Hrw). destruct (decide (j = i)) as [->|Hne].
  - rewrite vget_vset_eq by (by eapply vget_Some_bounds). left. naive_solver.
  - rewrite vget_vset_ne by done. by right.
Qed.

Lemma upd_valid_other h : lh_index h <> i -> page_valid (kv_store k') h = page_valid (kv_store k) h.
Proof. intros Hne. unfold page_valid. by rewrite (rw_this _ _ _ _ Hrw), (rw_pages _ _ _ _ Hrw), vget_vset_ne. Qed.

Lemma upd_valid_same h :
  lh_index h = i -> pg_occupied pg' = pg_occupied pg -> pg_generation pg' = pg_generation pg ->
  page_valid (kv_store k') h = page_valid (kv_store k) h.
Proof.
  intros <- Ho Hg. unfold page_valid. rewrite (rw_this _ _ _ _ Hrw), (rw_pages _ _ _ _ Hrw), Hpg.
  by rewrite vget_vset_eq, Ho, Hg by (by eapply vget_Some_bounds).
Qed.

Lemma holds_other t : rt_key t <> (p, i) -> holds_replica ks t -> holds_replica (<[p := k']> ks) t.
Proof.
  intros Hne (l & q & Hl & Hv & Hq & Hon). unfold holds_replica. destruct (decide (rt_store t = p)) as [E|E].
  - assert (lh_index (rt_page t) <> i) by (intros <-; apply Hne; unfold rt_key; by rewrite E).
    rewrite E in *. rewrite Hk in Hl. injection Hl as <-. exists k', q.
    rewrite list_lookup_insert_eq by (by eapply lookup_lt_Some). rewrite upd_valid_other by done.
    split; [done|]. split; [done|]. split; [|done]. by rewrite (rw_pages _ _ _ _ Hrw), vget_vset_ne.
  - exists l, q. rewrite list_lookup_insert_ne by done. done.
Qed.

Lemma pin_other t : pt_key t <> (p, i) -> holds_pin ks t -> holds_pin (<[p := k']> ks) t.
Proof.
  intros Hne (l & Hl & Hv). unfold holds_pin. destruct (decide (fst t = p)) as [E|E].
  - assert (lh_index (snd t) <> i) by (intros <-; apply Hne; unfold pt_key; by rewrite E).
    rewrite E in *. rewrite Hk in Hl. injection Hl as <-. exists k'.
    rewrite list_lookup_insert_eq by (by eapply lookup_lt_Some). by rewrite upd_valid_other.
  - exists l. by rewrite list_lookup_insert_ne.
Qed.

(** The tokens [T] of the page become [T']. *)
Lemma ptoks_upd T T' R P P' :
  ptoks specs (T ++ R) P ks ->
  (p, i) ∉ map rt_key R -> Forall (fun t => rt_key t = (p, i)) T ->
  (T' = [] \/ exists t, T' = [t] /\ rt_key t = (p, i) /\ page_valid (kv_store k') (rt_page t) = true /\ replica_on pg' t) ->
  (pg_host_replica pg' <> None -> T' <> []) ->
  (forall key, key <> (p, i) -> pin_count P' key = pin_count P key) ->
  Forall (fun t => holds_pin ks t /\ (pt_key t = (p, i) -> page_valid (kv_store k') (snd t) = true)) P' ->
  pin_count P' (p, i) <= pg_source_pins pg' -> pe_page specs p i pg' ->
  ptoks specs (T' ++ R) P' (<[p := k']> ks).
Proof.
  intros [H1 H2 H0 H3 H4 H5 H6 H7] Hfresh HT HT' Hhost Hcnt Hpin Hpins Hpage.
  apply Forall_app in H3 as [_ H3]. rewrite map_app in H4. apply NoDup_app in H4 as (_ & _ & H4).
  assert (Hne : forall t, t ∈ R -> rt_key t <> (p, i)).
  { intros t Ht E. apply Hfresh. rewrite <- E. by apply list_elem_of_fmap_2. }
  constructor.
  - by apply Forall_insert.
  - rewrite list_fmap_insert, list_insert_id; [done|]. rewrite list_lookup_fmap, Hk. cbn. by rewrite Hspec.
  - intros q l j pgj Hl Hj. destruct (upd_lookup _ _ Hl) as [[-> ->]|[Hq Hl']]; [|by eapply H0].
    destruct (upd_page _ _ Hj) as [[-> ->]|[_ Hj']]; [done|by eapply H0].
  - apply Forall_app. split; [|apply Forall_forall; intros t Ht; apply holds_other; [by apply Hne|by eapply Forall_forall in H3]].
    destruct HT' as [->|(t & -> & Hkey & Hv & Hon)]; [done|]. apply Forall_cons_2; [|done]. injection Hkey as Es Ei.
    exists k', pg'. rewrite Es, list_lookup_insert_eq by (by eapply lookup_lt_Some). split; [done|]. split; [done|].
    rewrite Ei, (rw_pages _ _ _ _ Hrw), vget_vset_eq by (by eapply vget_Some_bounds). done.
  - rewrite map_app. apply NoDup_app. split; [|split; [|done]].
    + destruct HT' as [->|(t & -> & _)]; [constructor|apply NoDup_singleton].
    + intros key Hin. destruct HT' as [->|(t & -> & Hkey & _)]; [by apply elem_of_nil in Hin|].
      apply list_elem_of_singleton in Hin as ->. by rewrite Hkey.
  - intros q l j pgj Hl Hj Hh. rewrite map_app, elem_of_app. destruct (upd_lookup _ _ Hl) as [[-> ->]|[Hq Hl']].
    + destruct (upd_page _ _ Hj) as [[-> ->]|[Hji Hj']].
      * left. destruct HT' as [->|(t & -> & Hkey & _)]; [by destruct (Hhost Hh)|]. rewrite <- Hkey. by left.
      * right. specialize (H5 _ _ _ _ Hk Hj' Hh). rewrite map_app in H5. apply elem_of_app in H5 as [Hin|]; [|done].
        apply list_elem_of_fmap in Hin as (t & E & Ht). rewrite Forall_forall in HT. rewrite (HT _ Ht) in E. naive_solver.
    + right. specialize (H5 _ _ _ _ Hl' Hj Hh). rewrite map_app in H5. apply elem_of_app in H5 as [Hin|]; [|done].
      apply list_elem_of_fmap in Hin as (t & E & Ht). rewrite Forall_forall in HT. rewrite (HT _ Ht) in E. naive_solver.
  - eapply Forall_impl; [exact Hpin|]. intros t [Ht Hi]. destruct (decide (pt_key t = (p, i))) as [E|E]; [|by apply pin_other].
    exists k'. pose proof E as E'. injection E' as E1 _. rewrite E1, list_lookup_insert_eq by (by eapply lookup_lt_Some). auto.
  - intros q l j pgj Hl Hj. destruct (upd_lookup _ _ Hl) as [[-> ->]|[Hq Hl']].
    + destruct (upd_page _ _ Hj) as [[-> ->]|[Hji Hj']]; [done|]. rewrite Hcnt by naive_solver. by eapply H7.
    + rewrite Hcnt by naive_solver. by eapply H7.
Qed.

(** A change that keeps the tokens. *)
Lemma ptoks_kept R P :
  ptoks specs R P ks -> pg_host_replica pg' = pg_host_replica pg ->
  (pg_host_replica pg <> None -> pg_content_epoch pg' = pg_content_epoch pg /\ pg_occupied pg' = pg_occupied pg /\
     pg_generation pg' = pg_generation pg /\ forall r b, mkRtok p r b true ∈ R -> lh_index r = i -> droppable pg') ->
  (pg_source_pins pg <> 0 -> pg_occupied pg' = pg_occupied pg /\ pg_generation pg' = pg_generation pg) ->
  pin_count P (p, i) <= pg_source_pins pg' -> pe_page specs p i pg' -> ptoks specs R P (<[p := k']> ks).
Proof.
  intros H Hh Hsame Hpsame Hpin Hpage.
  assert (HP : Forall (fun t => holds_pin ks t /\ (pt_key t = (p, i) -> page_valid (kv_store k') (snd t) = true)) P).
  { pose proof (px_pinned _ _ _ _ H) as Hp. rewrite Forall_forall in Hp |- *. intros t Ht. split; [by apply Hp|].
    intros E. pose proof E as [= E1 E2]. destruct (Hp _ Ht) as (l & Hl & Hv). rewrite E1, Hk in Hl. injection Hl as <-.
    pose proof (px_pins _ _ _ _ H _ _ _ _ Hk Hpg) as Hc. pose proof (pin_count_elem _ _ Ht) as Hge. rewrite E in Hge.
    destruct Hpsame; [lia|]. by rewrite upd_valid_same. }
  destruct (pg_host_replica pg) as [r|] eqn:Er.
  - assert ((p, i) ∈ map rt_key R) as Hin by (eapply (px_owned _ _ _ _ H); [done..|by rewrite Er]).
    apply list_elem_of_fmap in Hin as (t & Hkey & Ht). apply list_elem_of_split in Ht as (R1 & R2 & ->).
    rewrite <- Permutation_middle in H |- *. change (t :: R1 ++ R2) with ([t] ++ (R1 ++ R2)) in *.
    pose proof (px_keys _ _ _ _ H) as Hnd. cbn in Hnd. apply NoDup_cons in Hnd as [Hnot _].
    destruct Hsame as (He & Ho & Hg & Hdrop); [done|]. pose proof (px_held _ _ _ _ H) as Hheld. apply Forall_cons_1 in Hheld as [Hheld _].
    destruct Hheld as (l & q & Hl & Hv & Hq & [Hr1 Hr2 Hr3]). injection Hkey as E1 E2. rewrite <- E1, Hk in Hl. injection Hl as <-.
    rewrite <- E2, Hpg in Hq. injection Hq as <-. apply (ptoks_upd [t] [t] _ P).
    + done.
    + by rewrite E1, E2.
    + apply Forall_cons_2; [|done]. unfold rt_key. by rewrite E1, E2.
    + right. exists t. split; [done|]. split; [unfold rt_key; by rewrite E1, E2|]. split; [by rewrite upd_valid_same|]. constructor; [congruence|congruence|].
      intros Hd. destruct t as [ts tp tr td]; cbn in *. subst td ts. eapply Hdrop; [apply elem_of_app; right; by left|done].
    + done.
    + done.
    + done.
    + done.
    + done.
  - rewrite <- (app_nil_l R) in H |- *. apply (ptoks_upd [] [] R P).
    + done.
    + intros (t & Hkey & Ht)%list_elem_of_fmap. pose proof (px_held _ _ _ _ H) as Hheld. rewrite Forall_forall in Hheld.
      destruct (Hheld _ Ht) as (l & q & Hl & Hv & Hq & [Hr1 _ _]). injection Hkey as E1 E2. rewrite <- E1, Hk in Hl. injection Hl as <-.
      rewrite <- E2, Hpg in Hq. injection Hq as <-. congruence.
    + done.
    + by left.
    + by rewrite Hh.
    + done.
    + done.
    + done.
    + done.
Qed.
End Update.

(** * Pools keep their specification *)
Lemma lease_release_spec p l : p_spec (fst (fst (lease_release p l))) = p_spec p.
Proof. unfold lease_release, release_page. repeat case_match; done. Qed.

Lemma dropped_spec o p : p_spec (dropped o p) = p_spec p.
Proof. destruct o; [apply lease_release_spec|done]. Qed.

(** * Calls on replicas and pins *)

(** One page was rewritten, on the same pool. *)
Definition page_changed (k k' : kv) (i : Z) (pg' : Page) : Prop :=
  kv_sound k' /\ p_spec (kv_pool k') = p_spec (kv_pool k) /\ rewritten k k' i pg'.

Section Runs.
Context (k : kv) (Hs : kv_sound k) (h : LogicalKVPageHandle) (pg : Page).
Hypothesis Hv : page_valid (kv_store k) h = true.
Hypothesis Hp : (ls_pages (kv_store k)).[lh_index h] = Some pg.

Lemma put_changed {A} (m : K A) (a : A) pg' :
  @safe_at false _ k (m k) -> m k = (set_pages ((ls_pages (kv_store k)).[lh_index h <- pg']) k, Ok a) ->
  page_changed k (set_pages ((ls_pages (kv_store k)).[lh_index h <- pg']) k) (lh_index h) pg'.
Proof. intros Hsafe E. rewrite E in Hsafe. split; [done|]. split; [done|]. by constructor. Qed.

Lemma pin_run :
  pg_source_pins pg <> U32_MAX ->
  exists k', pin_source h k = (k', Ok tt) /\ page_changed k k' (lh_index h) (set_source_pins (pg_source_pins pg + 1) pg).
Proof.
  intros Hne. pose proof (pk_pins _ (so_pages _ (ki_store _ _ Hs) _ _ Hp)) as Hpin.
  assert (E : pin_source h k = (set_pages ((ls_pages (kv_store k)).[lh_index h <- set_source_pins (pg_source_pins pg + 1) pg]) k, Ok tt)).
  { unfold pin_source. rewrite (require_run _ _ _ _ Hv Hp). unfold mthrow_if, throw_if, mlift, mbind, M_bind.
    rewrite (proj2 (Z.eqb_neq _ _)) by done. cbn. by rewrite wrap32_small by (unfold U32_MAX in *; lia). }
  eexists. split; [exact E|]. eapply put_changed; [by apply pin_safe|exact E].
Qed.

Lemma unpin_run :
  pg_source_pins pg <> 0 ->
  exists k', unpin_source h k = (k', Ok tt) /\ page_changed k k' (lh_index h) (set_source_pins (pg_source_pins pg - 1) pg).
Proof.
  intros Hne. pose proof (pk_pins _ (so_pages _ (ki_store _ _ Hs) _ _ Hp)) as Hpin.
  assert (E : unpin_source h k = (set_pages ((ls_pages (kv_store k)).[lh_index h <- set_source_pins (pg_source_pins pg - 1) pg]) k, Ok tt)).
  { unfold unpin_source. rewrite (require_run _ _ _ _ Hv Hp). unfold mthrow_if, throw_if, mlift, mbind, M_bind.
    rewrite (proj2 (Z.eqb_neq _ _)) by done. cbn. by rewrite wrap32_small by (unfold U32_MAX in *; lia). }
  eexists. split; [exact E|]. eapply put_changed; [by apply unpin_safe|exact E].
Qed.

Lemma attach_run r :
  capability_valid (hr_extent r) = true -> hr_membership_node r <> U32_MAX ->
  can_attach_host_replica (kv_store k) h (hr_content_epoch r) (hr_committed_columns r) = true ->
  exists k', attach_host_replica h r k = (k', Ok tt) /\ page_changed k k' (lh_index h) (set_host_replica (Some r) pg).
Proof.
  intros Hc Hn Hcan.
  assert (E : attach_host_replica h r k = (set_pages ((ls_pages (kv_store k)).[lh_index h <- set_host_replica (Some r) pg]) k, Ok tt)).
  { unfold attach_host_replica. rewrite (require_run _ _ _ _ Hv Hp), (M_bind_run _ mget k k k) by done.
    unfold mthrow_if, throw_if, mlift, mbind, M_bind. rewrite Hc, Hcan, (proj2 (Z.eqb_neq _ _)) by done. done. }
  eexists. split; [exact E|]. eapply put_changed; [by apply attach_safe|exact E].
Qed.

Lemma rebind_run r r' :
  pg_host_replica pg = Some r -> hr_content_epoch r = pg_content_epoch pg -> capability_valid (hr_extent r') = true ->
  hr_membership_node r' = hr_membership_node r -> hr_content_epoch r' = hr_content_epoch r ->
  hr_committed_columns r' = hr_committed_columns r ->
  exists k', rebind_host_replica h r r' k = (k', Ok tt) /\ page_changed k k' (lh_index h) (set_host_replica (Some r') pg).
Proof.
  intros Hr He Hc Hn Hep Hcol.
  assert (E : rebind_host_replica h r r' k = (set_pages ((ls_pages (kv_store k)).[lh_index h <- set_host_replica (Some r') pg]) k, Ok tt)).
  { unfold rebind_host_replica. rewrite (M_bind_run _ mget k k k) by done. rewrite Hv. rewrite (M_bind_run _ _ k k tt) by done.
    rewrite (page_ref_run _ _ _ _ Hp), Hr. rewrite Hn, Hep, Hcol, He, Hc, !Z.eqb_refl, bool_decide_eq_true_2 by done. done. }
  eexists. split; [exact E|]. eapply put_changed; [by apply rebind_safe|exact E].
Qed.

(** A page without any other use is given up with its last replica. *)
Lemma detach_run r :
  pg_host_replica pg = Some r -> droppable pg ->
  exists k' pg', detach_host_replica h (hr_extent r) k = (k', Ok true) /\ page_changed k k' (lh_index h) pg' /\
    (pg' = set_host_replica None pg \/
     (pg' = vacated pg /\ pg_references pg = 0 /\ pg_source_pins pg = 0 /\ pg_device_replica pg = None)).
Proof.
  intros Hr Hdrop. pose proof (vget_Some_bounds _ _ _ Hp) as Hb. pose proof (page_valid_occupied _ _ _ Hv Hp) as Hocc.
  set (pg1 := set_host_replica None pg). set (k1 := set_pages ((ls_pages (kv_store k)).[lh_index h <- pg1]) k).
  pose proof (so_pages _ (ki_store _ _ Hs) _ _ Hp) as Hpk.
  assert (Hguard : negb (bool_decide (hr_extent r = hr_extent r)) || (negb (has (pg_device_replica pg)) && negb (pg_references pg =? 0)) = false).
  { rewrite bool_decide_eq_true_2 by done. cbn. destruct Hdrop as [Hd|Hd]; [by destruct (pg_device_replica pg)|].
    rewrite Hd. apply andb_false_r. }
  destruct ((pg_references pg =? 0) && (pg_source_pins pg =? 0) && negb (has (pg_device_replica pg))) eqn:Hrel.
  - revert Hguard. simp_bool. rewrite has_false in *. intros Hguard. destruct (vacate_ok k Hs _ _ Hp Hocc) as (Hinv & Hc & Hu). pose proof (pk_references _ Hpk).
    assert (Hl : page_leases pg = option_list (pg_pending_device_replica pg)).
    { unfold page_leases. by match goal with H : pg_device_replica pg = None |- _ => rewrite H end. }
    rewrite Hl in Hinv. pose proof (dropped_inv k _ _ Hinv) as Hfin. destruct (vget_is_Some _ _ Hc) as [y Hy].
    eexists (mkKv (dropped (pg_pending_device_replica pg) (kv_pool k)) (kv_reservations k) (vacate (lh_index h) pg (kv_store k))), (vacated pg).
    split; [|split; [split; [exact Hfin|split; [apply dropped_spec|by constructor]]|by right]].
    unfold detach_host_replica, noexcept. rewrite (M_bind_run _ mget k k k) by done. rewrite Hv. cbn [negb].
    rewrite (page_ref_run _ _ _ _ Hp), Hr, Hguard. rewrite (M_bind_run _ (put_page _ _) k k1 tt) by done.
    rewrite !(proj2 (Z.eqb_eq _ _)) by done.
    match goal with H : pg_device_replica pg = None |- _ => rewrite H; cbn [has negb andb]; rename H into Hd end.
    unfold release_descriptor at 1. unfold k1.
    unfold mbind at 1, M_bind at 1. rewrite (page_ref_run _ k1 pg1) by (by apply vget_vset_eq).
    unfold reset_lease, put_page, push_free, mthrow_if, throw_if, mmodify, mget, mlift, mput, mbind, M_bind. cbn [pg_active_references pg1 set_host_replica].
    rewrite (proj2 (Z.eqb_eq (pg_active_references pg) 0)) by lia. cbn.
    destruct (pg_pending_device_replica pg); cbn; rewrite (proj2 (vat_Ok _ _ _) Hy); cbn; rewrite wrap32_small by (unfold U32_MAX in *; lia);
      unfold vacate, vacated; rewrite vset_vset_eq, Hd; done.
  - assert (E : detach_host_replica h (hr_extent r) k = (k1, Ok true)).
    { unfold detach_host_replica, noexcept. rewrite (M_bind_run _ mget k k k) by done. rewrite Hv. cbn [negb].
      rewrite (page_ref_run _ _ _ _ Hp), Hr, Hguard. rewrite (M_bind_run _ (put_page _ _) k k1 tt) by done. by rewrite Hrel. }
    exists k1, pg1. split; [exact E|]. split; [eapply put_changed; [by apply detach_safe|exact E]|by left].
Qed.
End Runs.

Section Tokens.
Context {specs : penv}.
Implicit Types (R : list rtok) (P : list ptok) (ks : list kv).

Lemma ptoks_forget_pin R t P ks : ptoks specs R (t :: P) ks -> ptoks specs R P ks.
Proof.
  intros [H1 H2 H0 H3 H4 H5 H6 H7]. constructor; try done; [by apply Forall_cons_1 in H6 as [_ ?]|].
  intros p k i pg Hk Hp. specialize (H7 _ _ _ _ Hk Hp). rewrite pin_count_cons in H7. case_decide; lia.
Qed.

Lemma ptoks_pin R P ks p k h pg :
  ptoks specs R P ks -> ks !! p = Some k -> page_valid (kv_store k) h = true -> (ls_pages (kv_store k)).[lh_index h] = Some pg ->
  pin_count P (p, lh_index h) + 1 <= pg_source_pins pg -> ptoks specs R ((p, h) :: P) ks.
Proof.
  intros [H1 H2 H0 H3 H4 H5 H6 H7] Hk Hv Hp Hc. constructor; try done; [apply Forall_cons_2; [by exists k|done]|].
  intros q l i pg' Hl Hp'. specialize (H7 _ _ _ _ Hl Hp'). rewrite pin_count_cons. case_decide as E; [|lia].
  injection E as <- <-. cbn in *. simplify_eq. lia.
Qed.

Lemma ptoks_kv R P ks p k : ptoks specs R P ks -> ks !! p = Some k -> kv_sound k.
Proof. intros H Hk. by apply (Forall_lookup_1 _ _ _ _ (px_ok _ _ _ _ H) Hk). Qed.

(** The page of a token. *)
Lemma ptoks_held R P ks t :
  ptoks specs R P ks -> t ∈ R -> holds_replica ks t.
Proof. intros H Ht. pose proof (px_held _ _ _ _ H) as Hf. rewrite Forall_forall in Hf. by apply Hf. Qed.

Lemma ptoks_pinned R P ks t :
  ptoks specs R P ks -> t ∈ P ->
  exists k pg, ks !! fst t = Some k /\ page_valid (kv_store k) (snd t) = true /\
    (ls_pages (kv_store k)).[lh_index (snd t)] = Some pg /\ 1 <= pg_source_pins pg.
Proof.
  intros H Ht. pose proof (px_pinned _ _ _ _ H) as Hf. rewrite Forall_forall in Hf. destruct (Hf _ Ht) as (k & Hk & Hv).
  pose proof Hv as Hv'. unfold page_valid in Hv'. simp_bool. destruct ((ls_pages (kv_store k)).[lh_index (snd t)]) as [pg|] eqn:Hp; [|done].
  exists k, pg. split; [done|]. split; [done|]. split; [done|]. pose proof (px_pins _ _ _ _ H _ _ _ _ Hk Hp).
  pose proof (pin_count_elem _ _ Ht). unfold pt_key in *. lia.
Qed.

(** A replica token and the page it stands for. *)
Lemma token_unique R P ks t : ptoks specs (t :: R) P ks -> rt_key t ∉ map rt_key R.
Proof. intros H. pose proof (px_keys _ _ _ _ H) as Hn. cbn in Hn. by apply NoDup_cons in Hn as [? _]. Qed.

Lemma no_token R P ks p k i pg :
  ptoks specs R P ks -> ks !! p = Some k -> (ls_pages (kv_store k)).[i] = Some pg -> pg_host_replica pg = None -> (p, i) ∉ map rt_key R.
Proof.
  intros H Hk Hp Hh (t & Hkey & Ht)%list_elem_of_fmap. destruct (ptoks_held _ _ _ _ H Ht) as (l & q & Hl & _ & Hq & [Hr _ _]).
  injection Hkey as E1 E2. rewrite <- E1, Hk in Hl. injection Hl as <-. rewrite <- E2, Hp in Hq. injection Hq as <-. congruence.
Qed.

(** What the holder of a token may learn of its page. *)
Definition restated (ks : list kv) (t t' : rtok) : Prop :=
  rt_store t' = rt_store t /\ rt_page t' = rt_page t /\ rt_replica t' = rt_replica t /\
  (rt_droppable t' = true -> forall k pg, ks !! rt_store t = Some k -> (ls_pages (kv_store k)).[lh_index (rt_page t)] = Some pg -> droppable pg).

Lemma ptoks_restate R R' P ks : ptoks specs R P ks -> Forall2 (restated ks) R R' -> ptoks specs R' P ks.
Proof.
  intros [H1 H2 H0 H3 H4 H5 H6 H7] HR. assert (Hkeys : map rt_key R' = map rt_key R).
  { clear -HR. induction HR as [|t t' R R' (E1 & E2 & _) _ IH]; [done|]. cbn. rewrite IH. unfold rt_key. by rewrite E1, E2. }
  constructor; try done; [|by rewrite Hkeys|by rewrite Hkeys].
  clear -H3 HR. induction HR as [|t t' R R' (E1 & E2 & E3 & E4) _ IH]; [done|]. apply Forall_cons_1 in H3 as [Ht H3].
  apply Forall_cons_2; [|by apply IH]. destruct Ht as (k & pg & Hk & Hv & Hp & [Ho1 Ho2 Ho3]). exists k, pg.
  rewrite E1, E2. split; [done|]. split; [done|]. split; [done|]. constructor; [congruence|congruence|]. intros Hd. by eapply E4.
Qed.

(** The pins of the other tokens stay on a page that stays. *)
Lemma pins_stay P ks p k k' i pg pg' :
  Forall (holds_pin ks) P -> ks !! p = Some k -> (ls_pages (kv_store k)).[i] = Some pg -> rewritten k k' i pg' ->
  pin_count P (p, i) <= pg_source_pins pg ->
  (pg_source_pins pg <> 0 -> pg_occupied pg' = pg_occupied pg /\ pg_generation pg' = pg_generation pg) ->
  Forall (fun t => holds_pin ks t /\ (pt_key t = (p, i) -> page_valid (kv_store k') (snd t) = true)) P.
Proof.
  intros HP Hk Hp Hrw Hc Hsame. rewrite Forall_forall in HP |- *. intros t Ht. split; [by apply HP|]. intros E.
  pose proof (pin_count_elem _ _ Ht) as Hge. rewrite E in Hge. destruct (HP _ Ht) as (l & Hl & Hv). injection E as E1 E2.
  rewrite E1, Hk in Hl. injection Hl as <-. destruct Hsame; [lia|]. by erewrite upd_valid_same.
Qed.

Section Calls.
Context `{!HostStable specs} `{!PinStable specs}.
Context {R : list rtok} {P : list ptok} {ks : list kv} {p : nat} {k : kv} {h : LogicalKVPageHandle} {pg : Page}.
Hypothesis Hk : ks !! p = Some k.
Hypothesis Hv : page_valid (kv_store k) h = true.
Hypothesis Hp : (ls_pages (kv_store k)).[lh_index h] = Some pg.

Lemma pin_toks :
  ptoks specs R P ks -> pg_source_pins pg <> U32_MAX ->
  exists k' pg', pin_source h k = (k', Ok tt) /\ page_changed k k' (lh_index h) pg' /\
    pg_host_replica pg' = pg_host_replica pg /\ ptoks specs R ((p, h) :: P) (<[p := k']> ks).
Proof.
  intros H Hne. destruct (pin_run k (ptoks_kv _ _ _ _ _ H Hk) h pg Hv Hp Hne) as (k' & E & Hok & Hspec & Hrw).
  exists k'. eexists. split; [exact E|]. split; [by split|]. split; [done|].
  pose proof (px_pins _ _ _ _ H _ _ _ _ Hk Hp) as Hc. eapply (ptoks_pin _ _ _ p k').
  - eapply (ptoks_kept _ _ _ _ _ _ _ _ Hk Hp Hok Hspec Hrw); [done|done| |done|cbn; lia|by apply ps_pins, (px_page _ _ _ _ H _ _ _ _ Hk Hp)].
    intros Hh. split; [done|]. split; [done|]. split; [done|]. intros r b Hin Hi.
    destruct (ptoks_held _ _ _ _ H Hin) as (l & q & Hl & _ & Hq & [_ _ Hd]). cbn in *. rewrite Hi in Hq. simplify_eq. by apply Hd.
  - rewrite list_lookup_insert_eq; [done|]. by eapply lookup_lt_Some.
  - rewrite (upd_valid_same _ _ _ _ _ Hp Hrw h) by done. done.
  - rewrite (rw_pages _ _ _ _ Hrw), vget_vset_eq by (by eapply vget_Some_bounds). done.
  - cbn. lia.
Qed.

Lemma unpin_toks :
  ptoks specs R ((p, h) :: P) ks ->
  exists k' pg', unpin_source h k = (k', Ok tt) /\ page_changed k k' (lh_index h) pg' /\
    pg_host_replica pg' = pg_host_replica pg /\ ptoks specs R P (<[p := k']> ks).
Proof.
  intros H. pose proof (px_pins _ _ _ _ H _ _ _ _ Hk Hp) as Hc. rewrite pin_count_cons, decide_True in Hc by done.
  pose proof (pin_count_nonneg P (p, lh_index h)).
  destruct (unpin_run k (ptoks_kv _ _ _ _ _ H Hk) h pg Hv Hp ltac:(lia)) as (k' & E & Hok & Hspec & Hrw).
  exists k'. eexists. split; [exact E|]. split; [by split|]. split; [done|]. apply ptoks_forget_pin in H.
  eapply (ptoks_kept _ _ _ _ _ _ _ _ Hk Hp Hok Hspec Hrw); [done|done| |done|cbn; lia|by apply ps_pins, (px_page _ _ _ _ H _ _ _ _ Hk Hp)].
  intros Hh. split; [done|]. split; [done|]. split; [done|]. intros r b Hin Hi.
  destruct (ptoks_held _ _ _ _ H Hin) as (l & q & Hl & _ & Hq & [_ _ Hd]). cbn in *. rewrite Hi in Hq. simplify_eq. by apply Hd.
Qed.

Lemma attach_toks r :
  ptoks specs R P ks -> capability_valid (hr_extent r) = true -> hr_membership_node r <> U32_MAX ->
  can_attach_host_replica (kv_store k) h (hr_content_epoch r) (hr_committed_columns r) = true ->
  exists k', attach_host_replica h r k = (k', Ok tt) /\ page_changed k k' (lh_index h) (set_host_replica (Some r) pg) /\
    ptoks specs (mkRtok p h r false :: R) P (<[p := k']> ks).
Proof.
  intros H Hc Hn Hcan. destruct (attach_run k (ptoks_kv _ _ _ _ _ H Hk) h pg Hv Hp r Hc Hn Hcan) as (k' & E & Hok & Hspec & Hrw).
  exists k'. split; [exact E|]. split; [by split|].
  apply page_test_true in Hcan as (pg0 & _ & Hp0 & _ & Hg). rewrite Hp in Hp0. injection Hp0 as <-. simp_bool. rewrite has_false in *.
  pose proof (px_pins _ _ _ _ H _ _ _ _ Hk Hp) as Hcnt.
  apply (ptoks_upd specs ks p k k' _ pg _ Hk Hp Hok Hspec Hrw [] [mkRtok p h r false] R P P); try done.
  - by eapply no_token.
  - right. eexists. split; [done|]. split; [done|]. split; [cbn; by rewrite (upd_valid_same _ _ _ _ _ Hp Hrw h)|]. constructor; cbn; [done|lia|done].
  - eapply pins_stay; [apply H|done|done|exact Hrw|done|done].
  - apply hs_replica; [by eapply page_valid_occupied|by apply (px_page _ _ _ _ H _ _ _ _ Hk Hp)].
Qed.

Lemma rebind_toks r r' b :
  ptoks specs (mkRtok p h r b :: R) P ks -> capability_valid (hr_extent r') = true ->
  hr_membership_node r' = hr_membership_node r -> hr_content_epoch r' = hr_content_epoch r ->
  hr_committed_columns r' = hr_committed_columns r ->
  exists k', rebind_host_replica h r r' k = (k', Ok tt) /\ page_changed k k' (lh_index h) (set_host_replica (Some r') pg) /\
    ptoks specs (mkRtok p h r' b :: R) P (<[p := k']> ks).
Proof.
  intros H Hc Hn He Hcol. destruct (ptoks_held _ _ _ _ H ltac:(by left)) as (l & q & Hl & _ & Hq & [Hr Hep Hd]). cbn in *. simplify_eq.
  destruct (rebind_run k (ptoks_kv _ _ _ _ _ H Hk) h pg Hv Hp r r' Hr Hep Hc Hn He Hcol) as (k' & E & Hok & Hspec & Hrw).
  exists k'. split; [exact E|]. split; [by split|]. pose proof (px_pins _ _ _ _ H _ _ _ _ Hk Hp) as Hcnt.
  apply (ptoks_upd specs ks p k k' _ pg _ Hk Hp Hok Hspec Hrw [mkRtok p h r b] [mkRtok p h r' b] R P P); try done.
  - by apply token_unique in H.
  - by apply Forall_singleton.
  - right. eexists. split; [done|]. split; [done|]. split; [cbn; by rewrite (upd_valid_same _ _ _ _ _ Hp Hrw h)|]. constructor; cbn; [done|congruence|done].
  - eapply pins_stay; [apply H|done|done|exact Hrw|done|done].
  - apply hs_replica; [by eapply page_valid_occupied|by apply (px_page _ _ _ _ H _ _ _ _ Hk Hp)].
Qed.

Lemma detach_toks r x :
  ptoks specs (mkRtok p h r true :: R) P ks -> hr_extent r = x ->
  exists k' pg', detach_host_replica h x k = (k', Ok true) /\ page_changed k k' (lh_index h) pg' /\
    ptoks specs R P (<[p := k']> ks).
Proof.
  intros H <-. destruct (ptoks_held _ _ _ _ H ltac:(by left)) as (l & q & Hl & _ & Hq & [Hr _ Hd]). cbn in *. simplify_eq.
  destruct (detach_run k (ptoks_kv _ _ _ _ _ H Hk) h pg Hv Hp r Hr (Hd eq_refl)) as (k' & pg' & E & (Hok & Hspec & Hrw) & Hpg').
  exists k', pg'. split; [exact E|]. split; [by split|].
  assert (Hfacts : pg_host_replica pg' = None /\ pg_source_pins pg' = pg_source_pins pg /\
    (pg_source_pins pg <> 0 -> pg_occupied pg' = pg_occupied pg /\ pg_generation pg' = pg_generation pg) /\ pe_page specs p (lh_index h) pg').
  { pose proof (px_page _ _ _ _ H _ _ _ _ Hk Hp). pose proof (page_valid_occupied _ _ _ Hv Hp). destruct Hpg' as [->|(-> & ? & ? & ?)].
    - repeat split; try done. by apply hs_replica.
    - repeat split; try done. by apply hs_vacated. }
  destruct Hfacts as (Hn & Hpin & Hst & Hpage). pose proof (px_pins _ _ _ _ H _ _ _ _ Hk Hp) as Hcnt.
  apply (ptoks_upd specs ks p k k' _ pg _ Hk Hp Hok Hspec Hrw [mkRtok p h r true] [] R P P); try done.
  - by apply token_unique in H.
  - by apply Forall_singleton.
  - by left.
  - eapply pins_stay; [apply H|done|done|exact Hrw|done|done].
  - lia.
Qed.
End Calls.
End Tokens.
