(* ===== verification/ExtentTokens.v ===== *)
(** The state of the host extents as tokens: the membership nodes, the extents
    and the allocations in use, each with its value, beside the replicas and
    pins of the pages ([ExtentPages]). The operations of [HostExtents] on one
    node, extent, allocation or page change the tokens they are about and
    leave the others. *)

From S2P Require Import Prelude Tensor Layout PagedKv HostKvArena LogicalKv PageTokens HostExtents ExtentPages.

(** * Allocations *)
Notation atok := (HostKVAllocation * Descriptor)%type.

Definition arena_own (L : list atok) (a : HostKVArena) : Prop :=
  host_client_ok (mkHostClient a (map fst L)) /\ Forall (fun t => allocation_live a (fst t) (snd t)) L.

(** What no operation changes. *)
Record same_arena (a a' : HostKVArena) : Prop := {
  sa_this : a_this a' = a_this a;
  sa_layouts : a_layouts a' = a_layouts a;
  sa_backing : a_backing a' = a_backing a;
}.

#[global] Instance arena_own_Proper : Proper (Permutation ==> eq ==> impl) arena_own.
Proof.
  intros L L' HL a ? <- [[H1 H2 H3 H4] H]. pose proof (Permutation_map fst HL) as Hm. split; [|by rewrite <- HL].
  constructor; cbn in *; [done|by rewrite <- Hm|by rewrite <- Hm|]. intros i d Hi Ha. rewrite <- Hm. by eapply H4.
Qed.

Section Arena.
Context {a : HostKVArena} {L : list atok}.

Lemma own_wf : arena_own L a -> arena_wf a.
Proof. intros [H _]. apply H. Qed.

(** Another allocation stays where it is when a descriptor it does not have
    changes. *)
Lemma own_others a' (f : Z -> Prop) :
  Forall (fun t => allocation_live a (fst t) (snd t)) L -> a_this a' = a_this a ->
  (forall i, ~ f i -> (a_descriptors a').[i] = (a_descriptors a).[i]) -> Forall (fun t => ~ f (ha_descriptor (fst t))) L ->
  Forall (fun t => allocation_live a' (fst t) (snd t)) L.
Proof.
  intros HL Ht Hd Hf. rewrite Forall_forall in *. intros t Hin. destruct (HL _ Hin) as (Ho & Hi & Ha & Hg).
  split; [congruence|]. split; [|done]. rewrite Hd; [done|]. by apply Hf.
Qed.

Lemma own_release al d :
  arena_own ((al, d) :: L) a ->
  exists a', allocation_release a al = (a', null_allocation, true) /\ arena_own L a' /\ same_arena a a'.
Proof.
  intros [Hc HL]. apply Forall_cons_1 in HL as [Hal HL]. cbn in Hal. destruct (allocation_release a al) as [[a' al'] ok] eqn:E.
  destruct (host_step_release a _ 0 al a' al' ok Hc eq_refl E) as [-> Hc']. exists a'.
  pose proof (ho_nodup _ Hc) as Hnd. cbn in Hnd. apply NoDup_cons in Hnd as [Hni _].
  destruct (allocation_live_handle a al d (ho_wf _ Hc) Hal) as (Hv & _). pose proof Hal as (Ho & Hd & Ha & Hg).
  unfold allocation_release, HostKvArena.release_descriptor in E. rewrite Hv, Hd, Ha, Hg, Z.eqb_refl in E. cbn in E. injection E as <- <-.
  split; [done|]. split; [|by constructor]. split; [done|].
  eapply (own_others _ (fun i => i = ha_descriptor al)); [done|done|intros i Hi; by apply vget_vset_ne|].
  apply Forall_forall. intros t Ht Heq. apply Hni. rewrite <- Heq. by apply list_elem_of_fmap_2, list_elem_of_fmap_2.
Qed.

Lemma live_bytes al d layout :
  arena_wf a -> allocation_live a al d -> (a_layouts a).[d_layout d] = Some layout ->
  d_bytes d = hl_page_stride layout * d_pages d /\ 1 <= d_pages d <= U32_MAX.
Proof.
  intros Hwf (Ho & Hd & Ha & Hg) Hl. destruct (aw_desc _ Hwf _ _ Hd) as [_ Hok]. destruct (Hok Ha) as (_ & _ & Hp & l & Hl' & Hb).
  rewrite Hl in Hl'. injection Hl' as <-. done.
Qed.

Lemma own_split al d layout count :
  arena_own ((al, d) :: L) a -> 0 < count < d_pages d -> (a_layouts a).[d_layout d] = Some layout ->
  exists a' l r dl dr, split_allocation a al count = Ok (a', (l, r)) /\ arena_own ((l, dl) :: (r, dr) :: L) a' /\ same_arena a a' /\
    d_pages dl = count /\ d_pages dr = d_pages d - count /\ d_layout dl = d_layout d /\ d_layout dr = d_layout d /\
    d_offset dl = d_offset d /\ d_offset dr = d_offset d + hl_page_stride layout * count.
Proof.
  intros [Hc HL] Hcount Hl. apply Forall_cons_1 in HL as [Hal HL]. cbn in Hal. pose proof (ho_wf _ Hc) as Hwf. cbn in Hwf.
  destruct (split_Ok a al d count Hwf Hal Hcount) as (a' & l & r & dl & dr & E & Hwf' & Hll & Hlr & Hpl & Hpr & El & Er & Ol & Or & _ & Hne & Hold & _ & Hoth).
  pose proof (live_bytes _ _ _ Hwf Hal Hl) as [_ Hd].
  pose proof (host_step_split a _ 0 al count a' l r Hc ltac:(unfold is_u32; lia) eq_refl E) as Hc'.
  assert (Hsame : same_arena a a' /\ ha_descriptor l = ha_descriptor al).
  { unfold split_allocation in E. simp_res. destruct (take_descriptor a); simp_res. by split. }
  destruct Hsame as [Hsame Hal']. exists a', l, r, dl, dr. split; [done|].
  assert (Hbl : d_bytes dl = hl_page_stride layout * count).
  { destruct Hll as (_ & Hdl & Hal2 & _). destruct (aw_desc _ Hwf' _ _ Hdl) as [_ Hok]. destruct (Hok Hal2) as (_ & _ & _ & ly & Hly & Hb).
    rewrite (sa_layouts _ _ Hsame), El, Hl in Hly. injection Hly as <-. by rewrite Hb, Hpl. }
  split; [|split; [done|]]; [|repeat split; lia || congruence || done]. split; [exact Hc'|].
  apply Forall_cons_2; [done|]. apply Forall_cons_2; [done|].
  eapply (own_others _ (fun i => i = ha_descriptor l \/ i = ha_descriptor r)); [done|apply Hsame|intros i Hi; apply Hoth; naive_solver|].
  pose proof (ho_nodup _ Hc') as Hnd. cbn in Hnd. rewrite !NoDup_cons in Hnd. destruct Hnd as (Hn1 & Hn2 & _).
  apply Forall_forall. intros t Ht [Heq|Heq].
  - apply Hn1. rewrite <- Heq. right. by apply list_elem_of_fmap_2, list_elem_of_fmap_2.
  - apply Hn2. rewrite <- Heq. by apply list_elem_of_fmap_2, list_elem_of_fmap_2.
Qed.

Lemma own_allocate layout pages :
  arena_own L a -> 0 < pages <= U32_MAX ->
  exists a' o, allocate a layout pages = Ok (a', o) /\
    match o with
    | None => a' = a
    | Some al => same_arena a a' /\ exists d, arena_own ((al, d) :: L) a' /\ d_pages d = pages /\ (a_layouts a').[d_layout d] = Some layout
    end.
Proof.
  intros [Hc HL] Hp. pose proof (ho_wf _ Hc) as Hwf. cbn in Hwf.
  assert (Hu : is_u32 pages) by (unfold is_u32; lia).
  destruct (find_layout a layout) as [k|] eqn:Hk; [|exists a, None; unfold allocate; by rewrite Hk].
  destruct ((pages =? 0) || match a_free_descriptors a with [] => true | _ => false end || request_oversized layout pages) eqn:G.
  { exists a, None. unfold allocate. by rewrite Hk, G. }
  destruct (find_free_extent (a_free_extents a) (hl_page_stride layout * pages)) as [[i e]|] eqn:Hx.
  2:{ exists a, None. unfold allocate. by rewrite Hk, G, Hx. }
  simp_bool. destruct (allocate_Ok a layout k pages i e) as (a' & al & E & Hat & _); try done.
  exists a', (Some al). split; [done|]. pose proof (host_step_allocate _ _ _ _ _ _ Hc Hu E) as Hc'.
  assert (Hsame : same_arena a a').
  { constructor; [apply Hat|apply Hat|]. unfold allocate in E. rewrite Hk in E. destruct (_ || _); [done|]. rewrite Hx in E.
    destruct (take_descriptor a). destruct (_ =? _); [done|]. by simp_res. }
  split; [done|]. exists (mkDescriptor (x_offset e) (hl_page_stride layout * pages) k pages (ha_generation al) true). split; [split|].
  - exact Hc'.
  - apply Forall_cons_2.
    + split; [cbn; by rewrite (at_owner _ _ _ _ _ _ _ Hat), (sa_this _ _ Hsame)|]. split; [apply Hat|done].
    + destruct (at_fresh _ _ _ _ _ _ _ Hat) as (old & Hold & Hina).
      eapply (own_others _ (fun i => i = ha_descriptor al)); [done|apply Hsame|intros j Hj; by apply Hat|].
      rewrite Forall_forall in *. intros t Ht Heq. destruct (HL _ Ht) as (_ & Hd & Ha & _). rewrite Heq in Hd. congruence.
  - split; [done|]. cbn. rewrite (sa_layouts _ _ Hsame). by apply find_layout_Some in Hk as (? & _).
Qed.
End Arena.

(** * Free stacks

    A vector of values with a stack of the free positions: the tokens in use
    and the free positions make up all positions. *)
Section Stack.
Context {A : Type}.
Implicit Types (v : list A) (free : list Z) (count : Z) (T : list (Z * A)).

Definition stack_top free count : list Z := take (Z.to_nat count) free.

Record stack_own (vacant : A -> Prop) (cap : Z) T v free count : Prop := {
  sk_size : vsize v = cap;
  sk_free_size : vsize free = cap;
  sk_count : 0 <= count <= cap;
  sk_at : Forall (fun t => v.[fst t] = Some (snd t)) T;
  sk_all : map fst T ++ stack_top free count ≡ₚ seqZ 0 cap;
  sk_vacant : Forall (fun i => exists x, v.[i] = Some x /\ vacant x) (stack_top free count);
}.

#[global] Instance stack_own_Proper vacant cap : Proper (Permutation ==> eq ==> eq ==> eq ==> impl) (stack_own vacant cap).
Proof.
  intros T T' HT v ? <- free ? <- count ? <- [H1 H2 H3 H4 H5 H6]. constructor; try done; by rewrite <- HT.
Qed.

Section Own.
Context {vacant : A -> Prop} {cap : Z} {T : list (Z * A)} {v : list A} {free : list Z} {count : Z}.

Lemma stack_at i x : stack_own vacant cap T v free count -> (i, x) ∈ T -> v.[i] = Some x.
Proof. intros H Hin. pose proof (sk_at _ _ _ _ _ _ H) as Hf. rewrite Forall_forall in Hf. by apply (Hf (i, x)). Qed.

Lemma stack_range : stack_own vacant cap T v free count -> Forall (fun t => 0 <= fst t < cap) T.
Proof.
  intros H. apply Forall_forall. intros t Ht. assert (fst t ∈ seqZ 0 cap) as Hin.
  { rewrite <- (sk_all _ _ _ _ _ _ H). apply elem_of_app. left. by apply list_elem_of_fmap_2. }
  apply elem_of_seqZ in Hin. lia.
Qed.

Lemma stack_nodup : stack_own vacant cap T v free count -> NoDup (map fst T).
Proof.
  intros H. assert (Hn : NoDup (map fst T ++ stack_top free count)) by (rewrite (sk_all _ _ _ _ _ _ H); apply NoDup_seqZ).
  by apply NoDup_app in Hn as [? _].
Qed.

Lemma stack_total : stack_own vacant cap T v free count -> vsize T + count = cap.
Proof.
  intros H. pose proof (sk_all _ _ _ _ _ _ H) as Hp. apply Permutation_length in Hp. pose proof (sk_count _ _ _ _ _ _ H).
  pose proof (sk_free_size _ _ _ _ _ _ H). unfold stack_top, vsize in *.
  rewrite length_app, length_map, length_take, length_seqZ in Hp. lia.
Qed.

Lemma stack_set i x x' :
  stack_own vacant cap ((i, x) :: T) v free count -> stack_own vacant cap ((i, x') :: T) (v.[i <- x']) free count.
Proof.
  intros H. pose proof (sk_at _ _ _ _ _ _ H) as Hat. apply Forall_cons_1 in Hat as [Hi Hat].
  assert (Hn : NoDup (map fst ((i, x) :: T) ++ stack_top free count)) by (rewrite (sk_all _ _ _ _ _ _ H); apply NoDup_seqZ).
  cbn in Hn. apply NoDup_cons in Hn as [Hni _]. rewrite not_elem_of_app in Hni. destruct Hni as [Hn1 Hn2].
  cbn in Hi. pose proof (vget_Some_bounds _ _ _ Hi) as Hb. constructor; try apply H.
  - rewrite vsize_vset. apply H.
  - apply Forall_cons_2; [by apply vget_vset_eq|]. rewrite Forall_forall in *. intros t Ht. rewrite vget_vset_ne; [by apply Hat|].
    intros ->. apply Hn1. by apply list_elem_of_fmap_2.
  - pose proof (sk_vacant _ _ _ _ _ _ H) as Hv. rewrite Forall_forall in *. intros j Hj. rewrite vget_vset_ne; [by apply Hv|]. by intros ->.
Qed.

Lemma stack_pop :
  stack_own vacant cap T v free count -> count <> 0 ->
  exists i x, free.[count - 1] = Some i /\ v.[i] = Some x /\ vacant x /\ stack_own vacant cap ((i, x) :: T) v free (count - 1).
Proof.
  intros H Hc. pose proof (sk_count _ _ _ _ _ _ H) as Hcnt. pose proof (sk_free_size _ _ _ _ _ _ H) as Hs.
  destruct (vget_is_Some free (count - 1)) as [i Hi]; [lia|].
  assert (Htop : stack_top free count = stack_top free (count - 1) ++ [i]).
  { unfold stack_top. replace (Z.to_nat count) with (S (Z.to_nat (count - 1))) by lia. unfold vget in Hi.
    rewrite (proj2 (Z.leb_le _ _)) in Hi by lia. by apply take_S_r. }
  pose proof (sk_vacant _ _ _ _ _ _ H) as Hv. rewrite Htop in Hv. apply Forall_app in Hv as [Hv Hvi]. apply Forall_cons_1 in Hvi as [(x & Hx & Hvx) _].
  exists i, x. split; [done|]. split; [done|]. split; [done|]. constructor; try apply H; [lia| | |done].
  - apply Forall_cons_2; [done|apply H].
  - rewrite <- (sk_all _ _ _ _ _ _ H), Htop. cbn. solve_Permutation.
Qed.

Lemma stack_push i x :
  stack_own vacant cap ((i, x) :: T) v free count -> vacant x ->
  is_Some (free.[count]) /\ stack_own vacant cap T v (free.[count <- i]) (count + 1).
Proof.
  intros H Hx. pose proof (sk_count _ _ _ _ _ _ H) as Hcnt. pose proof (sk_free_size _ _ _ _ _ _ H) as Hs.
  assert (Hlt : count < cap).
  { pose proof (sk_all _ _ _ _ _ _ H) as Hp. apply Permutation_length in Hp. unfold stack_top, vsize in *. cbn in Hp.
    rewrite length_app, length_map, length_take, length_seqZ in Hp. lia. }
  split; [apply vget_is_Some; lia|].
  assert (Htop : stack_top (free.[count <- i]) (count + 1) = stack_top free count ++ [i]).
  { unfold stack_top. replace (Z.to_nat (count + 1)) with (S (Z.to_nat count)) by lia.
    assert (Hl : free.[count <- i] !! Z.to_nat count = Some i).
    { pose proof (vget_vset_eq free count i ltac:(lia)) as E. unfold vget in E. by rewrite (proj2 (Z.leb_le _ _)) in E by lia. }
    rewrite (take_S_r _ _ _ Hl). f_equal. unfold vset. rewrite (proj2 (Z.leb_le _ _)) by lia. by rewrite take_insert_ge by lia. }
  pose proof (sk_at _ _ _ _ _ _ H) as Hat. apply Forall_cons_1 in Hat as [Hi Hat]. constructor; try apply H; try done.
  - rewrite vsize_vset. apply H.
  - lia.
  - rewrite <- (sk_all _ _ _ _ _ _ H), Htop. cbn. solve_Permutation.
  - rewrite Htop. apply Forall_app. split; [apply H|]. apply Forall_singleton. by exists x.
Qed.
End Own.
End Stack.

(** * The state *)
Definition vacant_extent (g : Z) : Extent := mkXExtent XFree g None None kInvalidIndex kInvalidIndex 0.
Definition is_vacant (e : Extent) : Prop := exists g, 1 <= g <= U32_MAX /\ e = vacant_extent g.

(** What the calls on tokens leave alone. *)
Record consts : Type := mkConsts {
  c_this : Z;
  c_cap : Z;
  c_arena : Z;
  c_backing : Z;
  c_layouts : list HostKVPageLayout;
  c_env : penv;
  c_marks : list Z * list Z * list Z * Z;
}.

Definition marks_of (x : HostKVExtentStore) : list Z * list Z * list Z * Z :=
  (xs_release_marks x, xs_extent_marks x, xs_affected_extents x, xs_release_stamp x).

Notation ntok := (Z * Membership)%type.
Notation xtok := (Z * Extent)%type.

Record hres (c : consts) (N : list ntok) (X : list xtok) (L : list atok) (R : list rtok) (P : list ptok) (s : host) : Prop := {
  hv_this : xs_this (he_store s) = c_this c /\ 0 < c_this c;
  hv_cap : 1 <= c_cap c <= U32_MAX;
  hv_arena_const : a_this (he_arena s) = c_arena c /\ a_layouts (he_arena s) = c_layouts c /\ a_backing (he_arena s) = c_backing c;
  hv_marks : marks_of (he_store s) = c_marks c;
  hv_nodes : stack_own (eq default_member) (c_cap c) N (xs_memberships (he_store s)) (xs_free_memberships (he_store s))
               (xs_free_membership_count (he_store s));
  hv_exts : stack_own is_vacant (c_cap c) X (xs_extents (he_store s)) (xs_free (he_store s)) (xs_free_count (he_store s));
  hv_arena : arena_own L (he_arena s);
  hv_pages : ptoks (c_env c) R P (he_pages s);
}.

#[global] Instance hres_Proper c :
  Proper (Permutation ==> Permutation ==> Permutation ==> Permutation ==> Permutation ==> eq ==> impl) (hres c).
Proof.
  intros N N' HN X X' HX L L' HL R R' HR P P' HP s ? <- [H1 H2 H3 H4 H5 H6 H7 H8].
  constructor; [done..|by rewrite <- HN|by rewrite <- HX|by rewrite <- HL|by rewrite <- HR, <- HP].
Qed.

(** ** Calls on the tokens *)
Section Calls.
Context {c : consts} {N : list ntok} {X : list xtok} {L : list atok} {R : list rtok} {P : list ptok} {s : host}.

Lemma wp_member_ref n m Q E : hres c N X L R P s -> (n, m) ∈ N -> Q m s -> wp (member_ref n) Q E s.
Proof.
  intros H Hin HQ. pose proof (stack_at _ _ (hv_nodes _ _ _ _ _ _ _ H) Hin) as Hn.
  unfold wp, member_ref, mget, mlift, mbind, M_bind. by rewrite (proj2 (vat_Ok _ _ _) Hn).
Qed.

Lemma wp_ext_ref i e Q E : hres c N X L R P s -> (i, e) ∈ X -> Q e s -> wp (ext_ref i) Q E s.
Proof.
  intros H Hin HQ. pose proof (stack_at _ _ (hv_exts _ _ _ _ _ _ _ H) Hin) as Hn.
  unfold wp, ext_ref, mget, mlift, mbind, M_bind. by rewrite (proj2 (vat_Ok _ _ _) Hn).
Qed.

Lemma wp_put_member n m m' Q E :
  hres c ((n, m) :: N) X L R P s ->
  (forall s', hres c ((n, m') :: N) X L R P s' -> he_pages s' = he_pages s -> Q tt s') -> wp (put_member n m') Q E s.
Proof.
  intros H HQ. apply HQ; [|done]. destruct H as [H1 H2 H3 H4 H5 H6 H7 H8]. constructor; try done. cbn. by eapply stack_set.
Qed.

Lemma wp_put_ext i e e' Q E :
  hres c N ((i, e) :: X) L R P s ->
  (forall s', hres c N ((i, e') :: X) L R P s' -> he_pages s' = he_pages s -> Q tt s') -> wp (put_ext i e') Q E s.
Proof.
  intros H HQ. apply HQ; [|done]. destruct H as [H1 H2 H3 H4 H5 H6 H7 H8]. constructor; try done. cbn. by eapply stack_set.
Qed.

Lemma wp_pop_extent Q E :
  hres c N X L R P s -> xs_free_count (he_store s) <> 0 ->
  (forall s' i g, hres c N ((i, vacant_extent g) :: X) L R P s' -> 1 <= g <= U32_MAX -> he_pages s' = he_pages s -> Q i s') ->
  wp pop_extent Q E s.
Proof.
  intros H Hc HQ. pose proof (hv_cap _ _ _ _ _ _ _ H) as Hcap. pose proof (sk_count _ _ _ _ _ _ (hv_exts _ _ _ _ _ _ _ H)) as Hcnt.
  destruct (stack_pop (hv_exts _ _ _ _ _ _ _ H) Hc) as (i & x & Hi & Hx & (g & Hg & ->) & Hown).
  unfold wp, pop_extent, mget, mlift, mput, mbind, M_bind. rewrite wrap32_small by (unfold U32_MAX in *; lia).
  rewrite (proj2 (vat_Ok _ _ _) Hi). eapply HQ; [|done|done]. destruct H as [H1 H2 H3 H4 H5 H6 H7 H8]. by constructor.
Qed.

Lemma wp_push_extent i g Q E :
  hres c N ((i, vacant_extent g) :: X) L R P s -> 1 <= g <= U32_MAX ->
  (forall s', hres c N X L R P s' -> he_pages s' = he_pages s -> Q tt s') -> wp (push_extent i) Q E s.
Proof.
  intros H Hg HQ. pose proof (hv_cap _ _ _ _ _ _ _ H) as Hcap. pose proof (sk_count _ _ _ _ _ _ (hv_exts _ _ _ _ _ _ _ H)) as Hcnt.
  destruct (stack_push _ _ (hv_exts _ _ _ _ _ _ _ H) ltac:(by exists g)) as [[y Hy] Hown].
  pose proof (sk_count _ _ _ _ _ _ Hown). unfold wp, push_extent, mget, mlift, mput, mbind, M_bind.
  rewrite (proj2 (vat_Ok _ _ _) Hy), wrap32_small by (unfold U32_MAX in *; lia). apply HQ; [|done].
  destruct H as [H1 H2 H3 H4 H5 H6 H7 H8]. by constructor.
Qed.

Lemma wp_take_membership Q E :
  hres c N X L R P s -> xs_free_membership_count (he_store s) <> 0 ->
  (forall s' n, hres c ((n, default_member) :: N) X L R P s' -> he_pages s' = he_pages s ->
     xs_free_membership_count (he_store s') = xs_free_membership_count (he_store s) - 1 -> Q n s') ->
  wp take_membership Q E s.
Proof.
  intros H Hc HQ. pose proof (hv_cap _ _ _ _ _ _ _ H) as Hcap. pose proof (sk_count _ _ _ _ _ _ (hv_nodes _ _ _ _ _ _ _ H)) as Hcnt.
  destruct (stack_pop (hv_nodes _ _ _ _ _ _ _ H) Hc) as (i & x & Hi & Hx & <- & Hown).
  unfold wp, take_membership, mget, mlift, mput, mbind, M_bind. rewrite (proj2 (Z.eqb_neq _ _)) by done.
  rewrite wrap32_small by (unfold U32_MAX in *; lia).
  rewrite (proj2 (vat_Ok _ _ _) Hi). eapply HQ; [|done|done]. destruct H as [H1 H2 H3 H4 H5 H6 H7 H8]. by constructor.
Qed.

Lemma wp_push_membership n Q E :
  hres c ((n, default_member) :: N) X L R P s ->
  (forall s', hres c N X L R P s' -> he_pages s' = he_pages s -> Q tt s') -> wp (push_membership n) Q E s.
Proof.
  intros H HQ. pose proof (hv_cap _ _ _ _ _ _ _ H) as Hcap. pose proof (sk_count _ _ _ _ _ _ (hv_nodes _ _ _ _ _ _ _ H)) as Hcnt.
  destruct (stack_push _ _ (hv_nodes _ _ _ _ _ _ _ H) eq_refl) as [[y Hy] Hown].
  pose proof (sk_count _ _ _ _ _ _ Hown). unfold wp, push_membership, mget, mlift, mput, mbind, M_bind.
  rewrite (proj2 (vat_Ok _ _ _) Hy), wrap32_small by (unfold U32_MAX in *; lia). apply HQ; [|done].
  destruct H as [H1 H2 H3 H4 H5 H6 H7 H8]. by constructor.
Qed.

Lemma wp_store_call {A} p k k' (a : A) m Q E :
  he_pages s !! p = Some k -> m k = (k', Ok a) -> Q a (set_kv p k' s) -> wp (on_pages (Some p) m) Q E s.
Proof. intros Hk Hm HQ. unfold wp, on_pages. by rewrite Hk, Hm. Qed.

Lemma hres_pages R' P' p k' :
  hres c N X L R P s -> ptoks (c_env c) R' P' (<[p := k']> (he_pages s)) -> hres c N X L R' P' (set_kv p k' s).
Proof. intros [H1 H2 H3 H4 H5 H6 H7 H8] H. by constructor. Qed.

Lemma set_kv_same p k : he_pages s !! p = Some k -> set_kv p k s = s.
Proof. intros Hk. unfold set_kv. rewrite list_insert_id by done. by destruct s. Qed.

(** Reading through a pointer leaves the state. *)
Lemma wp_pages_at p k Q E : he_pages s !! p = Some k -> Q (kv_store k) s -> wp (pages_at (Some p)) Q E s.
Proof. intros Hk HQ. apply (wp_store_call p k k (kv_store k)); [done|done|]. by rewrite set_kv_same. Qed.

Lemma wp_read_page {A} p k h pg (field : Page -> A) Q E :
  he_pages s !! p = Some k -> page_valid (kv_store k) h = true -> (ls_pages (kv_store k)).[lh_index h] = Some pg ->
  Q (field pg) s -> wp (on_pages (Some p) (read_page h field)) Q E s.
Proof.
  intros Hk Hv Hp HQ. eapply (wp_store_call p k k (field pg)); [done| |by rewrite set_kv_same].
  unfold read_page. by rewrite (require_run _ _ _ _ Hv Hp).
Qed.

Lemma hres_arena L0 L' a' : hres c N X L0 R P s -> same_arena (he_arena s) a' -> arena_own L' a' -> hres c N X L' R P (set_arena a' s).
Proof.
  intros [H1 H2 (H3 & H3' & H3'') H4 H5 H6 H7 H8] [S1 S2 S3] H. constructor; try done. cbn. by rewrite S1, S2, S3.
Qed.

Lemma wp_drop_none Q E : Q tt s -> wp (drop_allocation None) Q E s.
Proof. intros HQ. unfold wp, drop_allocation, mmodify. done. Qed.

Lemma wp_drop_allocation al d Q E :
  hres c N X ((al, d) :: L) R P s -> (forall s', hres c N X L R P s' -> he_pages s' = he_pages s -> Q tt s') ->
  wp (drop_allocation (Some al)) Q E s.
Proof.
  intros H HQ. destruct (own_release _ _ (hv_arena _ _ _ _ _ _ _ H)) as (a' & Er & Hown & Hsame).
  unfold wp, drop_allocation, mmodify. rewrite Er. apply HQ; [|done]. by apply (hres_arena _ _ _ H Hsame Hown).
Qed.

Lemma wp_release_allocation al d Q E :
  hres c N X ((al, d) :: L) R P s -> (forall s', hres c N X L R P s' -> he_pages s' = he_pages s -> Q tt s') ->
  wp (release_allocation al) Q E s.
Proof.
  intros H HQ. destruct (own_release _ _ (hv_arena _ _ _ _ _ _ _ H)) as (a' & Er & Hown & Hsame).
  unfold wp, release_allocation, mthrow_if, throw_if, mlift, mget, mput, mbind, M_bind. rewrite Er. apply HQ; [|done]. by apply (hres_arena _ _ _ H Hsame Hown).
Qed.

Lemma wp_nothrow {A} (m : H A) Q s0 : wp m Q no_error s0 -> wp (nothrow m) Q no_error s0.
Proof. unfold wp, nothrow. by destruct (m s0) as [s' [a|e]]. Qed.

Lemma wp_nothrow_terminates {A} (m : H A) Q (F : host -> Prop) s0 :
  wp m Q (fun _ => F) s0 -> wp (nothrow m) Q (fun e s' => e = Terminate /\ F s') s0.
Proof. unfold wp, nothrow. by destruct (m s0) as [s' [a|e]]. Qed.
End Calls.
