(* ===== verification/ExtentSlots.v ===== *)
(** The pages of an extent as a list of slots: each slot is a membership node
    with the page, the content it was taken from and the host bytes that hold
    it. The loops of [HostExtents] along the linked lists of nodes, in terms
    of the slots. *)

From S2P Require Import Prelude Tensor Layout PagedKv HostKvArena LogicalKv PageTokens HostExtents ExtentPages ExtentTokens.

(** * Slots *)
Record slot : Type := mkSlot {
  sl_node : Z;
  sl_page : LogicalKVPageHandle;
  sl_epoch : Z;
  sl_coverage : Z;
  (** the offset of the page's bytes in the arena *)
  sl_loc : Z;
}.

Definition first_node (slots : list slot) : Z :=
  match slots with
  | [] => kInvalidIndex
  | sl :: _ => sl_node sl
  end.

Definition last_node (slots : list slot) : Z :=
  match last slots with
  | Some sl => sl_node sl
  | None => kInvalidIndex
  end.

(** The linked list of the slots, as pages [offset], [offset + 1], ... of
    extent [index]; [stop] is the link of the last node. *)
Definition node_of (index offset : Z) (sl : slot) (next : Z) : ntok :=
  (sl_node sl, mkMember (sl_page sl) (sl_epoch sl) (sl_coverage sl) index offset next).

Fixpoint chain (index offset : Z) (slots : list slot) (stop : Z) : list ntok :=
  match slots with
  | [] => []
  | sl :: rest =>
      node_of index offset sl (match rest with [] => stop | _ => first_node rest end) :: chain index (offset + 1) rest stop
  end.

(** A whole list ends with the invalid index. *)
Notation nodes_of index offset slots := (chain index offset slots kInvalidIndex).

Definition replica_of (c : HostKVExtentCapability) (offset : Z) (sl : slot) : HostKVPageReplica :=
  mkHostReplica c offset (sl_node sl) (sl_epoch sl) (sl_coverage sl).

Fixpoint reps_of (p : nat) (c : HostKVExtentCapability) (offset : Z) (drop : slot -> bool) (slots : list slot) : list rtok :=
  match slots with
  | [] => []
  | sl :: rest => mkRtok p (sl_page sl) (replica_of c offset sl) (drop sl) :: reps_of p c (offset + 1) drop rest
  end.

Definition pins_of (p : nat) (slots : list slot) : list ptok := map (fun sl => (p, sl_page sl)) slots.

(** The pages lie one after the other from [base]. *)
Fixpoint located (base stride : Z) (slots : list slot) : Prop :=
  match slots with
  | [] => True
  | sl :: rest => sl_loc sl = base /\ located (base + stride) stride rest
  end.

Lemma nodes_of_cons index offset sl rest :
  nodes_of index offset (sl :: rest) = node_of index offset sl (first_node rest) :: nodes_of index (offset + 1) rest.
Proof. by destruct rest. Qed.

Lemma located_app base stride l k :
  located base stride (l ++ k) <-> located base stride l /\ located (base + stride * vsize l) stride k.
Proof.
  revert base. induction l as [|sl l IH]; intros base; cbn.
  - change (vsize (@nil slot)) with 0. rewrite Z.mul_0_r, Z.add_0_r. tauto.
  - rewrite IH, vsize_cons. replace (base + stride + stride * vsize l) with (base + stride * (1 + vsize l)) by lia. tauto.
Qed.

Lemma reps_of_app p c offset drop l k :
  reps_of p c offset drop (l ++ k) = reps_of p c offset drop l ++ reps_of p c (offset + vsize l) drop k.
Proof.
  revert offset. induction l as [|sl l IH]; intros offset; cbn.
  - change (vsize (@nil slot)) with 0. by rewrite Z.add_0_r.
  - rewrite IH, vsize_cons. by replace (offset + 1 + vsize l) with (offset + (1 + vsize l)) by lia.
Qed.

Lemma reps_of_ext p c offset drop drop' slots :
  (forall sl, sl ∈ slots -> drop sl = drop' sl) -> reps_of p c offset drop slots = reps_of p c offset drop' slots.
Proof.
  revert offset. induction slots as [|sl slots IH]; intros offset Hd; [done|]. cbn. rewrite (Hd sl) by left.
  f_equal. apply IH. intros sl' Hin. apply Hd. by right.
Qed.

(** The slots of a token, and back. *)
Lemma elem_of_reps t p c offset drop slots :
  t ∈ reps_of p c offset drop slots <->
  exists j sl, slots !! j = Some sl /\ t = mkRtok p (sl_page sl) (replica_of c (offset + Z.of_nat j) sl) (drop sl).
Proof.
  revert offset. induction slots as [|sl slots IH]; intros offset; cbn.
  - split; [by intros ?%elem_of_nil|]. by intros (j & sl & ? & _).
  - rewrite elem_of_cons, IH. split.
    + intros [->|(j & sl' & Hj & ->)]; [exists O, sl; by rewrite Z.add_0_r|]. exists (S j), sl'. split; [done|].
      by replace (offset + Z.of_nat (S j)) with (offset + 1 + Z.of_nat j) by lia.
    + intros ([|j] & sl' & Hj & ->); cbn in Hj.
      * injection Hj as <-. left. by rewrite Z.add_0_r.
      * right. exists j, sl'. split; [done|]. by replace (offset + Z.of_nat (S j)) with (offset + 1 + Z.of_nat j) by lia.
Qed.

Lemma elem_of_nodes t index offset slots :
  t ∈ nodes_of index offset slots <->
  exists j sl, slots !! j = Some sl /\ t = node_of index (offset + Z.of_nat j) sl (first_node (drop (S j) slots)).
Proof.
  revert offset. induction slots as [|sl slots IH]; intros offset; [cbn|rewrite nodes_of_cons].
  - split; [by intros ?%elem_of_nil|]. by intros (j & sl & ? & _).
  - rewrite elem_of_cons, IH. split.
    + intros [->|(j & sl' & Hj & ->)]; [exists O, sl; by rewrite Z.add_0_r|]. exists (S j), sl'. split; [done|].
      by replace (offset + Z.of_nat (S j)) with (offset + 1 + Z.of_nat j) by lia.
    + intros ([|j] & sl' & Hj & ->); cbn in Hj.
      * injection Hj as <-. left. by rewrite Z.add_0_r.
      * right. exists j, sl'. split; [done|]. by replace (offset + Z.of_nat (S j)) with (offset + 1 + Z.of_nat j) by lia.
Qed.

Lemma chain_app index offset l k stop :
  k <> [] -> chain index offset (l ++ k) stop = chain index offset l (first_node k) ++ chain index (offset + vsize l) k stop.
Proof.
  intros Hk. revert offset. induction l as [|sl l IH]; intros offset; cbn [app chain].
  - change (vsize (@nil slot)) with 0. by rewrite Z.add_0_r.
  - rewrite IH, vsize_cons. replace (offset + (1 + vsize l)) with (offset + 1 + vsize l) by lia.
    destruct l as [|sl' l]; [by destruct k|done].
Qed.

(** The last node of a list, whose link can be changed. *)
Lemma chain_last index offset l sl stop :
  chain index offset (l ++ [sl]) stop = chain index offset l (sl_node sl) ++ [node_of index (offset + vsize l) sl stop].
Proof. by rewrite chain_app. Qed.

(** ** Nodes are valid indices *)
Section Loops.
Context {c : consts} `{!HostStable (c_env c)}.
Implicit Types (N : list ntok) (X : list xtok) (L : list atok) (R : list rtok) (P : list ptok) (s : host) (slots : list slot).

Lemma token_index N X L R P s n m : hres c N X L R P s -> (n, m) ∈ N -> 0 <= n < c_cap c /\ n <> kInvalidIndex.
Proof.
  intros H Hin. pose proof (stack_range (hv_nodes _ _ _ _ _ _ _ H)) as Hr. rewrite Forall_forall in Hr.
  specialize (Hr _ Hin). cbn in Hr. pose proof (hv_cap _ _ _ _ _ _ _ H). unfold kInvalidIndex. lia.
Qed.

(** The page of a replica token. *)
Lemma rep_page N X L R P s p h r b :
  hres c N X L (mkRtok p h r b :: R) P s ->
  exists k pg, he_pages s !! p = Some k /\ page_valid (kv_store k) h = true /\ (ls_pages (kv_store k)).[lh_index h] = Some pg /\
    pg_host_replica pg = Some r /\ hr_content_epoch r = pg_content_epoch pg /\ (b = true -> droppable pg).
Proof.
  intros H. destruct (ptoks_held _ _ _ _ (hv_pages _ _ _ _ _ _ _ H) ltac:(by left)) as (k & pg & Hk & Hv & Hp & [? ? ?]). by exists k, pg.
Qed.

(** ** Releasing nodes *)
Lemma free_members_slots X L R P index slots : forall N offset s,
  hres c (nodes_of index offset slots ++ N) X L R P s ->
  wp (free_members (length slots) (first_node slots)) (fun _ s' => hres c N X L R P s' /\ he_pages s' = he_pages s) no_error s.
Proof.
  induction slots as [|sl slots IH]; intros N offset s H; [done|]. rewrite nodes_of_cons in H. cbn [app length free_members first_node].
  destruct (token_index _ _ _ _ _ _ _ _ H ltac:(by left)) as [_ Hne].
  apply wp_bind, wp_throw_if; [intros _|by rewrite (proj2 (Z.eqb_neq _ _))].
  apply wp_bind. eapply wp_member_ref; [exact H|by left|]. apply wp_bind. eapply wp_put_member; [exact H|]. intros s1 H1 E1.
  apply wp_bind. eapply wp_push_membership; [exact H1|]. intros s2 H2 E2.
  eapply wp_conseq; [apply (IH _ _ _ H2)| |done]. cbn. intros _ s' [? ?]. split; [done|congruence].
Qed.

Lemma release_members_slots X L P p old index slots : forall N R offset s,
  hres c (nodes_of index offset slots ++ N) X L (reps_of p old offset (fun _ => true) slots ++ R) P s ->
  wp (release_members p old (length slots) (first_node slots)) (fun _ => hres c N X L R P) no_error s.
Proof.
  induction slots as [|sl slots IH]; intros N R offset s H; [done|]. rewrite nodes_of_cons in H. cbn [app length release_members first_node reps_of] in *.
  destruct (token_index _ _ _ _ _ _ _ _ H ltac:(by left)) as [_ Hne].
  apply wp_bind, wp_throw_if; [intros _|by rewrite (proj2 (Z.eqb_neq _ _))].
  apply wp_bind. eapply wp_member_ref; [exact H|by left|]. cbn [mb_page mb_next].
  destruct (rep_page _ _ _ _ _ _ _ _ _ _ H) as (k & pg & Hk & Hv & Hp & _).
  destruct (detach_toks Hk Hv Hp _ old (hv_pages _ _ _ _ _ _ _ H) eq_refl) as (k' & pg' & Ed & _ & Htok).
  apply wp_bind. eapply wp_store_call; [exact Hk|exact Ed|]. pose proof (hres_pages _ _ _ _ H Htok) as H1.
  apply wp_bind, wp_throw_if; [intros _|done].
  apply wp_bind. eapply wp_put_member; [exact H1|]. intros s2 H2 _.
  apply wp_bind. eapply wp_push_membership; [exact H2|]. intros s3 H3 _. by eapply IH.
Qed.

Lemma detach_members_slots X L P p old index slots : forall N R offset s,
  hres c (nodes_of index offset slots ++ N) X L (reps_of p old offset (fun _ => true) slots ++ R) P s ->
  wp (detach_members (Some p) old (length slots) (first_node slots))
    (fun _ => hres c (nodes_of index offset slots ++ N) X L R P) no_error s.
Proof.
  induction slots as [|sl slots IH]; intros N R offset s H; [done|]. rewrite nodes_of_cons in *. cbn [app length detach_members first_node reps_of] in *.
  apply wp_bind. eapply wp_member_ref; [exact H|by left|]. cbn [mb_page mb_next].
  destruct (rep_page _ _ _ _ _ _ _ _ _ _ H) as (k & pg & Hk & Hv & Hp & _).
  destruct (detach_toks Hk Hv Hp _ old (hv_pages _ _ _ _ _ _ _ H) eq_refl) as (k' & pg' & Ed & _ & Htok).
  apply wp_bind. eapply wp_store_call; [exact Hk|exact Ed|]. pose proof (hres_pages _ _ _ _ H Htok) as H1.
  apply wp_bind, wp_throw_if; [intros _|done]. rewrite Permutation_middle in H1.
  eapply wp_conseq; [apply (IH _ _ _ _ H1)| |done]. intros u s' H'. cbv beta in *. by rewrite <- Permutation_middle in H'.
Qed.

(** ** Rebinding *)
Lemma rebind_members_slots X L P p old new index begin drop slots : forall N R offset s,
  0 <= begin -> 0 <= offset -> begin + offset + vsize slots <= U32_MAX -> capability_valid new = true ->
  hres c (nodes_of index (begin + offset) slots ++ N) X L (reps_of p old (begin + offset) drop slots ++ R) P s ->
  wp (rebind_members p old new begin offset (length slots) (first_node slots))
    (fun _ => hres c (nodes_of (hx_index new) offset slots ++ N) X L (reps_of p new offset drop slots ++ R) P) no_error s.
Proof.
  induction slots as [|sl slots IH]; intros N R offset s Hb Ho Hu Hc H; [done|].
  rewrite !nodes_of_cons in *. cbn [app length rebind_members first_node reps_of] in *. rewrite vsize_cons in Hu. pose proof (vsize_nonneg slots).
  destruct (token_index _ _ _ _ _ _ _ _ H ltac:(by left)) as [_ Hne].
  apply wp_bind, wp_throw_if; [intros _|by rewrite (proj2 (Z.eqb_neq _ _))].
  apply wp_bind. eapply wp_member_ref; [exact H|by left|]. cbn [mb_page mb_next mb_epoch mb_coverage].
  destruct (rep_page _ _ _ _ _ _ _ _ _ _ H) as (k & pg & Hk & Hv & Hp & _).
  destruct (rebind_toks Hk Hv Hp _ (replica_of new offset sl) _ (hv_pages _ _ _ _ _ _ _ H) Hc eq_refl eq_refl eq_refl) as (k' & Er & _ & Htok).
  apply wp_bind. rewrite wrap32_small by lia. eapply wp_store_call; [exact Hk|exact Er|].
  pose proof (hres_pages _ _ _ _ H Htok) as H1.
  apply wp_bind. eapply wp_put_member; [exact H1|]. intros s2 H2 _. replace (begin + offset + 1) with (begin + (offset + 1)) in H2 by lia.
  rewrite !Permutation_middle in H2. eapply wp_conseq; [eapply (IH _ _ (offset + 1) s2); [lia|lia|lia|done|exact H2]| |done].
  intros u s' H'. cbv beta in *. by rewrite <- !Permutation_middle in H'.
Qed.
End Loops.

(** * Copying pages to an extent *)
Definition slot_index (sl : slot) : Z := lh_index (sl_page sl).

Lemma page_test_other k k' i pg' h f : rewritten k k' i pg' -> lh_index h <> i -> page_test (kv_store k') h f = page_test (kv_store k) h f.
Proof.
  intros Hrw Hne. unfold page_test. rewrite (upd_valid_other _ _ _ _ Hrw) by done. by rewrite (rw_pages _ _ _ _ Hrw), vget_vset_ne.
Qed.

Lemma page_test_at k h f :
  page_test (kv_store k) h f = true ->
  exists pg, page_valid (kv_store k) h = true /\ (ls_pages (kv_store k)).[lh_index h] = Some pg /\ f pg = true.
Proof. intros (pg & Hv & Hp & _ & Hf)%page_test_true. by exists pg. Qed.

Lemma last_node_snoc l sl : last_node (l ++ [sl]) = sl_node sl.
Proof. unfold last_node. by rewrite last_snoc. Qed.

Section Copy.
Context {c : consts} `{!HostStable (c_env c)} `{!PinStable (c_env c)}.
Implicit Types (N : list ntok) (X : list xtok) (L : list atok) (R : list rtok) (P : list ptok) (s : host) (slots : list slot).

(** The extent of a reservation after the slots [done]. *)
Definition reserved_extent (g : Z) (p : nat) (al : HostKVAllocation) (slots : list slot) : Extent :=
  mkXExtent XReserved g (Some p) (Some al) (first_node slots) (last_node slots) (vsize slots).

(** The slot records the content the page has. *)
Definition slot_current (k : kv) (sl : slot) : Prop :=
  can_attach_host_replica (kv_store k) (sl_page sl) (sl_epoch sl) (sl_coverage sl) = true.

(** Linking a fresh node behind the last one of a list. *)
Lemma link_member N X L R P d slots sl s :
  hres c (node_of d (vsize slots) sl kInvalidIndex :: nodes_of d 0 slots ++ N) X L R P s ->
  wp (if last_node slots =? kInvalidIndex then mret (sl_node sl)
      else tail ← member_ref (last_node slots); _ ← put_member (last_node slots) (set_next (sl_node sl) tail); mret (first_node slots))
    (fun head s' => head = first_node (slots ++ [sl]) /\ he_pages s' = he_pages s /\
       xs_free_membership_count (he_store s') = xs_free_membership_count (he_store s) /\
       hres c (nodes_of d 0 (slots ++ [sl]) ++ N) X L R P s') no_error s.
Proof.
  destruct slots as [|sl0 slots0 _] using rev_ind; intros H.
  - change (last_node []) with kInvalidIndex. rewrite Z.eqb_refl. apply wp_ret. done.
  - rewrite last_node_snoc. rewrite chain_last in H.
    assert (Hperm : node_of d (vsize (slots0 ++ [sl0])) sl kInvalidIndex ::
        (chain d 0 slots0 (sl_node sl0) ++ [node_of d (0 + vsize slots0) sl0 kInvalidIndex]) ++ N ≡ₚ
      node_of d (0 + vsize slots0) sl0 kInvalidIndex ::
        node_of d (vsize (slots0 ++ [sl0])) sl kInvalidIndex :: chain d 0 slots0 (sl_node sl0) ++ N) by solve_Permutation.
    rewrite Hperm in H. clear Hperm. destruct (token_index _ _ _ _ _ _ _ _ H ltac:(by left)) as [_ Hne0].
    rewrite (proj2 (Z.eqb_neq _ _)) by done. apply wp_bind. eapply wp_member_ref; [exact H|by left|].
    apply wp_bind. eapply wp_put_member; [exact H|]. intros s3 H3 E3. apply wp_ret. split; [by destruct slots0|]. split; [done|]. split.
    + pose proof (stack_total (hv_nodes _ _ _ _ _ _ _ H)). pose proof (stack_total (hv_nodes _ _ _ _ _ _ _ H3)). rewrite !vsize_cons in *. lia.
    + rewrite !chain_last. eapply hres_Proper; [| | | | |done|exact H3]; [|done..].
      unfold node_of, set_next. cbn [sl_node sl_page sl_epoch sl_coverage mb_page mb_epoch mb_coverage mb_extent mb_offset].
      rewrite !Z.add_0_l. solve_Permutation.
Qed.

Lemma append_member_slot N X L R P p k d g al slots h base stride s :
  hres c (nodes_of d 0 slots ++ N) ((d, reserved_extent g p al slots) :: X) L R P s -> he_pages s !! p = Some k ->
  can_copy_to_host (kv_store k) h = true -> xs_free_membership_count (he_store s) <> 0 -> vsize slots < U32_MAX ->
  located base stride slots ->
  wp (append_member p d h)
    (fun _ s' => exists sl, sl_page sl = h /\ slot_current k sl /\ located base stride (slots ++ [sl]) /\
       hres c (nodes_of d 0 (slots ++ [sl]) ++ N) ((d, reserved_extent g p al (slots ++ [sl])) :: X) L R P s' /\
       he_pages s' = he_pages s /\ xs_free_membership_count (he_store s') = xs_free_membership_count (he_store s) - 1) no_error s.
Proof.
  intros H Hk Hcan Hfree Hu Hloc. unfold can_copy_to_host in Hcan. apply andb_true_iff in Hcan as [_ Hcan].
  apply page_test_at in Hcan as (pg & Hv & Hp & Hhost). simp_bool.
  unfold append_member. apply wp_bind. eapply wp_take_membership; [exact H|done|]. intros s1 n H1 E1 C1.
  destruct (token_index _ _ _ _ _ _ _ _ H1 ltac:(by left)) as [_ Hne].
  apply wp_bind, wp_throw_if; [intros _|by rewrite (proj2 (Z.eqb_neq _ _))].
  apply wp_bind. eapply wp_member_ref; [exact H1|by left|].
  apply wp_bind. unfold content_epoch. eapply wp_read_page; [by rewrite E1|done|done|].
  apply wp_bind. unfold committed_columns. eapply wp_read_page; [by rewrite E1|done|done|].
  apply wp_bind. eapply wp_ext_ref; [exact H1|by left|]. cbn [ex_page_count ex_tail ex_head reserved_extent ex_state ex_generation ex_page_store ex_allocation].
  pose proof (vsize_nonneg slots). rewrite wrap32_small by lia.
  set (sl := mkSlot n h (pg_content_epoch pg) (pg_committed_columns pg) (base + stride * vsize slots)).
  apply wp_bind. eapply wp_put_member; [exact H1|]. intros s2 H2 E2.
  assert (Hcur : slot_current k sl).
  { unfold slot_current, can_attach_host_replica, page_test. cbn. rewrite Hv, Hp. cbn. rewrite Hhost, !Z.eqb_refl. done. }
  assert (Hlocs : located base stride (slots ++ [sl])) by (apply located_app; by split).
  assert (Hsize : vsize (slots ++ [sl]) = vsize slots + 1) by (rewrite vsize_app; unfold vsize; cbn; lia).
  apply wp_bind. eapply wp_conseq; [exact (link_member _ _ _ _ _ d slots sl s2 H2)| |done]. intros head s3 (-> & E3 & C3 & H3).
  eapply wp_put_ext; [exact H3|]. intros s4 H4 E4. exists sl. split; [done|]. split; [done|]. split; [done|]. split.
  - unfold reserved_extent in *. rewrite last_node_snoc, Hsize. exact H4.
  - split; [congruence|]. assert (C2 : xs_free_membership_count (he_store s2) = xs_free_membership_count (he_store s1)).
    { pose proof (stack_total (hv_nodes _ _ _ _ _ _ _ H2)). pose proof (stack_total (hv_nodes _ _ _ _ _ _ _ H1)). rewrite !vsize_cons in *. lia. }
    pose proof (stack_total (hv_nodes _ _ _ _ _ _ _ H4)). pose proof (stack_total (hv_nodes _ _ _ _ _ _ _ H3)). lia.
Qed.

Lemma append_members_slots X L R P p k d g al base stride membership : forall N slots s,
  hres c (nodes_of d 0 slots ++ N) ((d, reserved_extent g p al slots) :: X) L R P s -> he_pages s !! p = Some k ->
  forallb (can_copy_to_host (kv_store k)) membership = true -> vsize membership <= xs_free_membership_count (he_store s) ->
  vsize slots + vsize membership <= U32_MAX -> located base stride slots ->
  wp (mfor (append_member p d) membership)
    (fun _ s' => exists new, map sl_page new = membership /\ Forall (slot_current k) new /\ located base stride (slots ++ new) /\
       hres c (nodes_of d 0 (slots ++ new) ++ N) ((d, reserved_extent g p al (slots ++ new)) :: X) L R P s' /\
       he_pages s' = he_pages s) no_error s.
Proof.
  induction membership as [|h membership IH]; intros N slots s H Hk Hcan Hfree Hu Hloc.
  { exists []. rewrite app_nil_r. split; [done|]. split; [constructor|]. done. }
  cbn [forallb] in Hcan. apply andb_true_iff in Hcan as [Hh Hcan]. rewrite vsize_cons in *. pose proof (vsize_nonneg membership).
  apply wp_bind. eapply wp_conseq; [apply (append_member_slot _ _ _ _ _ _ k _ _ _ _ _ base stride _ H Hk Hh)| |done]; [lia|lia|done|].
  intros u s1 (sl & <- & Hcur & Hloc1 & H1 & E1 & C1).
  eapply wp_conseq; [apply (IH _ _ _ H1); [by rewrite E1|done|lia| |done]| |done].
  { rewrite vsize_app. unfold vsize in *. cbn. lia. }
  intros u' s2 (new & <- & Hnew & Hloc2 & H2 & E2). exists (sl :: new). rewrite <- !app_assoc in *. cbn [app] in *.
  split; [done|]. split; [by apply Forall_cons_2|]. split; [done|]. split; [done|]. congruence.
Qed.

(** A pin on each page; the pages are distinct. *)
Lemma pin_pages N X L R p membership : forall P k s,
  hres c N X L R P s -> he_pages s !! p = Some k -> forallb (can_pin_source (kv_store k)) membership = true ->
  NoDup (map lh_index membership) ->
  wp (mfor (fun page => on_pages (Some p) (pin_source page)) membership)
    (fun _ s' => hres c N X L R (map (fun h => (p, h)) membership ++ P) s') no_error s.
Proof.
  induction membership as [|h membership IH]; intros P k s H Hk Hcan Hnd; [done|].
  cbn [forallb] in Hcan. apply andb_true_iff in Hcan as [Hh Hcan]. cbn in Hnd. apply NoDup_cons in Hnd as [Hnot Hnd].
  apply page_test_at in Hh as (pg & Hv & Hp & Hg). simp_bool.
  destruct (pin_toks Hk Hv Hp (hv_pages _ _ _ _ _ _ _ H) ltac:(done)) as (k' & pg' & E & (_ & _ & Hrw) & _ & Htok).
  apply wp_bind. eapply wp_store_call; [exact Hk|exact E|].
  eapply wp_conseq; [eapply (IH _ k'); [exact (hres_pages _ _ _ _ H Htok)| | |done]| |done].
  - cbn. rewrite list_lookup_insert_eq; [done|]. by eapply lookup_lt_Some.
  - apply forallb_forall. intros h' Hin. rewrite <- list_elem_of_In in Hin.
    transitivity (can_pin_source (kv_store k) h').
    + eapply page_test_other; [exact Hrw|]. intros Heq. apply Hnot. rewrite <- Heq. by apply list_elem_of_fmap_2.
    + rewrite forallb_forall in Hcan. apply Hcan. by rewrite <- list_elem_of_In.
  - intros u s' H'. cbv beta in *. cbn [map app]. by rewrite <- Permutation_middle in H'.
Qed.

(** ** Publication *)
Lemma check_attachable_slots X L R P p k index slots : forall N offset s,
  hres c (nodes_of index offset slots ++ N) X L R P s -> he_pages s !! p = Some k ->
  wp (check_attachable (Some p) (length slots) (first_node slots)) (fun _ s' => s' = s /\ Forall (slot_current k) slots)
    (fun _ s' => s' = s /\ ~ Forall (slot_current k) slots) s.
Proof.
  induction slots as [|sl slots IH]; intros N offset s H Hk; [done|].
  rewrite nodes_of_cons in H. cbn [app length check_attachable first_node] in *.
  destruct (token_index _ _ _ _ _ _ _ _ H ltac:(by left)) as [_ Hne].
  apply wp_bind, wp_throw_if; [intros _|by rewrite (proj2 (Z.eqb_neq _ _))].
  apply wp_bind. eapply wp_member_ref; [exact H|by left|]. cbn [mb_page mb_next mb_epoch mb_coverage].
  apply wp_bind. eapply wp_pages_at; [exact Hk|].
  apply wp_bind, wp_throw_if; [intros Hsl%negb_false_iff|intros Hsl%negb_true_iff].
  - rewrite Permutation_middle in H. eapply wp_conseq; [by eapply IH| |]; cbv beta; intros ? s' [-> Hf]; (split; [done|]).
    + by apply Forall_cons_2.
    + by intros [_ ?]%Forall_cons_1.
  - split; [done|]. intros [Hf _]%Forall_cons_1. unfold slot_current in Hf. congruence.
Qed.

Lemma attach_members_slots X L p cap index slots : forall N R P k offset s,
  hres c (nodes_of index offset slots ++ N) X L R (pins_of p slots ++ P) s -> he_pages s !! p = Some k ->
  Forall (slot_current k) slots -> NoDup (map slot_index slots) -> capability_valid cap = true ->
  wp (attach_members (Some p) cap offset (length slots) (first_node slots))
    (fun _ => hres c (nodes_of index offset slots ++ N) X L (reps_of p cap offset (fun _ => false) slots ++ R) P) no_error s.
Proof.
  induction slots as [|sl slots IH]; intros N R P k offset s H Hk Hcur Hnd Hcap; [done|]. apply Forall_cons_1 in Hcur as [Hsl Hcur].
  cbn in Hnd. apply NoDup_cons in Hnd as [Hnot Hnd]. rewrite nodes_of_cons in *. cbn [app length attach_members first_node reps_of pins_of map] in *.
  destruct (token_index _ _ _ _ _ _ _ _ H ltac:(by left)) as [_ Hne].
  apply wp_bind. eapply wp_member_ref; [exact H|by left|]. cbn [mb_page mb_next mb_epoch mb_coverage].
  pose proof Hsl as (pg & Hv & Hp & _)%page_test_at. fold (replica_of cap offset sl).
  destruct (attach_toks Hk Hv Hp (replica_of cap offset sl) (hv_pages _ _ _ _ _ _ _ H) Hcap Hne Hsl) as (k1 & E1 & (_ & _ & Hrw1) & Htok1).
  apply wp_bind, wp_nothrow. eapply wp_store_call; [exact Hk|exact E1|]. pose proof (hres_pages _ _ _ _ H Htok1) as H1.
  assert (Hk1 : he_pages (set_kv p k1 s) !! p = Some k1) by (cbn; rewrite list_lookup_insert_eq; [done|by eapply lookup_lt_Some]).
  assert (Hv1 : page_valid (kv_store k1) (sl_page sl) = true) by (by rewrite (upd_valid_same _ _ _ _ _ Hp Hrw1)).
  assert (Hp1 : (ls_pages (kv_store k1)).[lh_index (sl_page sl)] = Some (set_host_replica (Some (replica_of cap offset sl)) pg))
    by (rewrite (rw_pages _ _ _ _ Hrw1); apply vget_vset_eq; by eapply vget_Some_bounds).
  destruct (unpin_toks Hk1 Hv1 Hp1 (hv_pages _ _ _ _ _ _ _ H1)) as (k2 & pg2 & E2 & (_ & _ & Hrw2) & _ & Htok2).
  apply wp_bind. eapply wp_store_call; [exact Hk1|exact E2|]. pose proof (hres_pages _ _ _ _ H1 Htok2) as H2.
  rewrite !Permutation_middle in H2. eapply wp_conseq; [eapply (IH _ _ _ k2 (offset + 1)); [exact H2| | |done|done]| |done].
  - cbn. rewrite list_lookup_insert_eq; [done|]. rewrite length_insert. by eapply lookup_lt_Some.
  - rewrite Forall_forall in *. intros sl' Hin. assert (Hi : lh_index (sl_page sl') <> lh_index (sl_page sl)).
    { intros Heq. apply Hnot. unfold slot_index. rewrite <- Heq. by apply (list_elem_of_fmap_2 slot_index). }
    unfold slot_current, can_attach_host_replica. rewrite (page_test_other _ _ _ _ _ _ Hrw2), (page_test_other _ _ _ _ _ _ Hrw1) by done.
    by apply Hcur.
  - intros u s' H'. cbv beta in *. by rewrite <- !Permutation_middle in H'.
Qed.

(** ** Abort *)
Lemma unpin_members_slots X L R p index slots : forall N P offset s,
  hres c (nodes_of index offset slots ++ N) X L R (pins_of p slots ++ P) s ->
  wp (unpin_members (Some p) (length slots) (first_node slots)) (fun _ => hres c (nodes_of index offset slots ++ N) X L R P) no_error s.
Proof.
  induction slots as [|sl slots IH]; intros N P offset s H; [done|].
  rewrite nodes_of_cons in *. cbn [app length unpin_members first_node pins_of map] in *.
  destruct (token_index _ _ _ _ _ _ _ _ H ltac:(by left)) as [_ Hne].
  apply wp_bind, wp_throw_if; [intros _|by rewrite (proj2 (Z.eqb_neq _ _))].
  apply wp_bind. eapply wp_member_ref; [exact H|by left|]. cbn [mb_page mb_next].
  destruct (ptoks_pinned _ _ _ _ (hv_pages _ _ _ _ _ _ _ H) ltac:(by left)) as (k & pg & Hk & Hv & Hp & Hpin). cbn in Hk, Hv, Hp.
  apply wp_bind. eapply wp_pages_at; [exact Hk|]. apply wp_bind, wp_throw_if; [intros _|].
  2:{ unfold page_test. rewrite Hv, Hp. cbn. by rewrite (proj2 (Z.eqb_neq _ _)) by lia. }
  destruct (unpin_toks Hk Hv Hp (hv_pages _ _ _ _ _ _ _ H)) as (k' & pg' & E & _ & _ & Htok).
  apply wp_bind, wp_nothrow. eapply wp_store_call; [exact Hk|exact E|]. pose proof (hres_pages _ _ _ _ H Htok) as H1.
  rewrite Permutation_middle in H1. eapply wp_conseq; [apply (IH _ _ _ _ H1)| |done].
  intros u s' H'. cbv beta in *. by rewrite <- Permutation_middle in H'.
Qed.

(** ** Device sources *)
Definition slot_source (s : host) (p : nat) (sl : slot) (d : DeviceKVPageHandle) : Prop :=
  exists k pg l, he_pages s !! p = Some k /\ page_valid (kv_store k) (sl_page sl) = true /\
    (ls_pages (kv_store k)).[slot_index sl] = Some pg /\ pg_device_replica pg = Some l /\ d = lease_handle l.

Lemma collect_sources_slots X L R P p index slots : forall N offset s,
  hres c (nodes_of index offset slots ++ N) X L R P s -> Forall (fun sl => exists d, slot_source s p sl d) slots ->
  wp (collect_sources (Some p) (length slots) (first_node slots)) (fun ds s' => Forall2 (slot_source s p) slots ds /\ s' = s) no_error s.
Proof.
  induction slots as [|sl slots IH]; intros N offset s H Hdev; [done|]. apply Forall_cons_1 in Hdev as [(d & Hd) Hdev].
  pose proof Hd as (k & pg & l & Hk & Hv & Hp & Hl & ->).
  rewrite nodes_of_cons in H. cbn [app length collect_sources first_node] in *.
  destruct (token_index _ _ _ _ _ _ _ _ H ltac:(by left)) as [_ Hne].
  apply wp_bind, wp_throw_if; [intros _|by rewrite (proj2 (Z.eqb_neq _ _))].
  apply wp_bind. eapply wp_member_ref; [exact H|by left|]. cbn [mb_page mb_next].
  apply wp_bind. eapply (wp_store_call p k k (lease_handle l)); [exact Hk| |].
  { unfold physical. rewrite (require_run _ _ _ _ Hv Hp), Hl. done. }
  rewrite set_kv_same by done. apply wp_bind. rewrite Permutation_middle in H.
  eapply wp_conseq; [by eapply IH| |done]. intros ds s' [Hall ->]. apply wp_ret. split; [|done]. by constructor.
Qed.
End Copy.

(** * What the pages allow *)
Definition slot_droppable (s : host) (p : nat) (sl : slot) : Prop :=
  exists k pg, he_pages s !! p = Some k /\ (ls_pages (kv_store k)).[slot_index sl] = Some pg /\ droppable pg.

Section Learn.
Context {c : consts} {N : list ntok} {X : list xtok} {L : list atok} {R : list rtok} {P : list ptok} {s : host}.

Lemma reps_restate p cap offset f f' slots :
  hres c N X L (reps_of p cap offset f slots ++ R) P s ->
  (forall sl, sl ∈ slots -> f' sl = true -> slot_droppable s p sl) ->
  hres c N X L (reps_of p cap offset f' slots ++ R) P s.
Proof.
  intros [H1 H2 H3 H4 H5 H6 H7 H8] Hd. constructor; try done. eapply ptoks_restate; [exact H8|]. apply Forall2_app.
  - clear -Hd. revert offset. induction slots as [|sl slots IH]; intros offset; [done|]. cbn. constructor; [|apply IH; intros; apply Hd; [by right|done]].
    split; [done|]. split; [done|]. split; [done|]. cbn. intros Hf k pg Hk Hp. destruct (Hd sl) as (k' & pg' & Hk' & Hp' & Hdr); [by left|done|].
    unfold slot_index in Hp'. by simplify_eq.
  - clear -H8. pose proof (px_held _ _ _ _ H8) as Hh. apply Forall_app in Hh as [_ Hh]. clear H8. induction Hh as [|t R Ht _ IH]; [done|]. constructor; [|done].
    split; [done|]. split; [done|]. split; [done|]. destruct Ht as (k & pg & Hk & Hv & Hp & [_ _ Hdr]). intros Hf k' pg' Hk' Hp'. simplify_eq. auto.
Qed.

(** The page of a slot. *)
Lemma slot_page_at p cap offset f slots sl :
  hres c N X L (reps_of p cap offset f slots ++ R) P s -> sl ∈ slots ->
  exists k pg, he_pages s !! p = Some k /\ page_valid (kv_store k) (sl_page sl) = true /\
    (ls_pages (kv_store k)).[slot_index sl] = Some pg /\ sl_epoch sl = pg_content_epoch pg /\
    exists j, slots !! j = Some sl /\ pg_host_replica pg = Some (replica_of cap (offset + Z.of_nat j) sl).
Proof.
  intros H Hin. apply list_elem_of_lookup in Hin as [j Hj].
  assert (Ht : mkRtok p (sl_page sl) (replica_of cap (offset + Z.of_nat j) sl) (f sl) ∈ reps_of p cap offset f slots ++ R).
  { apply elem_of_app. left. apply elem_of_reps. by exists j, sl. }
  destruct (ptoks_held _ _ _ _ (hv_pages _ _ _ _ _ _ _ H) Ht) as (k & pg & Hk & Hv & Hp & [Hr He _]). exists k, pg.
  split; [done|]. split; [done|]. split; [done|]. split; [done|]. by exists j.
Qed.
End Learn.

(** The validation loop of [release] answers whether every page can do
    without its replica. *)
Lemma members_releasable_slots c X L P p cap slots : forall N R offset s,
  hres c (nodes_of (hx_index cap) offset slots ++ N) X L (reps_of p cap offset (fun _ => false) slots ++ R) P s ->
  wp (members_releasable (Some p) cap offset (length slots) (first_node slots))
    (fun b s' => s' = s /\ (b = true <-> Forall (slot_droppable s p) slots)) no_error s.
Proof.
  induction slots as [|sl slots IH]; intros N R offset s H.
  { cbn. split; [done|]. split; [constructor|done]. }
  pose proof (slot_page_at _ _ _ _ _ _ H (list_elem_of_here _ _)) as (k & pg & Hk & Hv & Hp & He & _).
  rewrite nodes_of_cons in H. cbn [app length members_releasable first_node reps_of] in *.
  destruct (token_index _ _ _ _ _ _ _ _ H ltac:(by left)) as [_ Hne]. rewrite (proj2 (Z.eqb_neq _ _)) by done.
  destruct (rep_page _ _ _ _ _ _ _ _ _ _ H) as (k' & pg' & Hk' & _ & Hp' & Hr & _). unfold slot_index in Hp. simplify_eq.
  apply wp_bind. eapply wp_member_ref; [exact H|by left|]. cbn [mb_page mb_next].
  apply wp_bind. eapply wp_pages_at; [exact Hk|].
  assert (Eb : member_releasable (kv_store k) cap offset (sl_node sl)
      (snd (node_of (hx_index cap) offset sl (first_node slots))) = has (pg_device_replica pg) || (pg_references pg =? 0)).
  { unfold member_releasable, page_test. cbn. rewrite Hv, Hp, Hr. cbn. rewrite bool_decide_eq_true_2, !Z.eqb_refl by done. cbn. by rewrite !andb_true_r. }
  cbn [snd node_of] in Eb. rewrite Eb.
  assert (Hiff : has (pg_device_replica pg) || (pg_references pg =? 0) = true <-> slot_droppable s p sl).
  { unfold slot_droppable, droppable, slot_index. rewrite orb_true_iff, has_true, Z.eqb_eq. split; [intros ?; by exists k, pg|].
    intros (k0 & pg0 & Hk0 & Hp0 & ?). by simplify_eq. }
  destruct (has (pg_device_replica pg) || (pg_references pg =? 0)) eqn:Eg; cbn [negb].
  - rewrite !Permutation_middle in H. eapply wp_conseq; [apply (IH _ _ _ _ H)| |done]. intros b s' [-> Hb]. split; [done|]. rewrite Hb, Forall_cons. naive_solver.
  - apply wp_ret. split; [done|]. split; [done|]. intros Hf. apply Forall_cons_1 in Hf as [Hf _]. by apply Hiff in Hf.
Qed.
