(* ===== verification/ExtentInv.v ===== *)
(** The invariant of the host extent store: its state consists of segments,
    one per extent in use, and what [prepare], [publish], [abort] and
    [release] do to the segments. *)

From S2P Require Import Prelude Tensor Layout PagedKv HostKvArena LogicalKv PageTokens HostExtents ExtentPages ExtentTokens ExtentSlots.

(** * Segments *)
Record segment : Type := mkSegment {
  sg_index : Z;
  sg_generation : Z;
  sg_store : nat;
  sg_allocation : HostKVAllocation;
  sg_descriptor : Descriptor;
  sg_slots : list slot;
  sg_published : bool;
}.

Definition capability_of (c : consts) (sg : segment) : HostKVExtentCapability :=
  mkCapability (c_this c) (sg_index sg) (sg_generation sg).

Definition reservation_of (c : consts) (sg : segment) : HostKVExtentReservation :=
  mkExtentReservation (c_this c) (sg_index sg) (sg_generation sg) (Some (sg_store sg)).

(** The tokens of a segment. *)
Definition seg_nodes (sg : segment) : list ntok := nodes_of (sg_index sg) 0 (sg_slots sg).
Definition extent_of (state : ExtentState) (g : Z) (p : nat) (al : HostKVAllocation) (slots : list slot) : Extent :=
  mkXExtent state g (Some p) (Some al) (first_node slots) (last_node slots) (vsize slots).
Definition seg_extent (sg : segment) : xtok :=
  (sg_index sg, extent_of (if sg_published sg then XPublished else XReserved) (sg_generation sg) (sg_store sg) (sg_allocation sg) (sg_slots sg)).
Definition seg_allocation (sg : segment) : atok := (sg_allocation sg, sg_descriptor sg).
Definition seg_reps (c : consts) (sg : segment) : list rtok :=
  if sg_published sg then reps_of (sg_store sg) (capability_of c sg) 0 (fun _ => false) (sg_slots sg) else [].
Definition seg_pins (sg : segment) : list ptok := if sg_published sg then [] else pins_of (sg_store sg) (sg_slots sg).

(** [layout_for] depends on the layouts alone. *)
Definition layout_of (layouts : list HostKVPageLayout) (geometry : KVPageGeometry) : option HostKVPageLayout :=
  match find_index (fun l => bool_decide (hl_geometry l = geometry)) layouts with
  | Some (_, l) => Some l
  | None => None
  end.

(** The layout of the pages of store [p]. *)
Definition store_layout (c : consts) (p : nat) : option HostKVPageLayout :=
  match pe_specs (c_env c) !! p with
  | Some spec => layout_of (c_layouts c) (ps_geometry spec)
  | None => None
  end.

(** The allocation holds exactly the slots, at the stride of the store's
    layout. *)
Record block_ok (c : consts) (p : nat) (d : Descriptor) (slots : list slot) : Prop := {
  bk_some : slots <> [];
  bk_pages : d_pages d = vsize slots;
  bk_layout : exists layout, (c_layouts c).[d_layout d] = Some layout /\ store_layout c p = Some layout /\
                located (d_offset d) (hl_page_stride layout) slots;
}.

Record seg_ok (c : consts) (sg : segment) : Prop := {
  gk_generation : 1 <= sg_generation sg <= U32_MAX;
  gk_block : block_ok c (sg_store sg) (sg_descriptor sg) (sg_slots sg);
  gk_distinct : NoDup (map slot_index (sg_slots sg));
}.

(** [G] are the segments, [O] the pins that others hold. *)
Record xinv (c : consts) (G : list segment) (O : list ptok) (s : host) : Prop := {
  xv_segments : Forall (seg_ok c) G;
  xv_tokens : hres c (concat (map seg_nodes G)) (map seg_extent G) (map seg_allocation G)
                (concat (map (seg_reps c) G)) (concat (map seg_pins G) ++ O) s;
}.

#[global] Instance concat_Proper {A} : Proper (Permutation ==> Permutation) (@concat A).
Proof.
  induction 1 as [|x l l' _ IH|x y l|l l' l'' _ IH1 _ IH2]; cbn; [done|by rewrite IH| |by rewrite IH1, IH2].
  rewrite !app_assoc. by rewrite (Permutation_app_comm x y).
Qed.

#[global] Instance xinv_Proper c : Proper (Permutation ==> Permutation ==> eq ==> impl) (xinv c).
Proof.
  intros G G' HG O O' HO s ? <- [H1 H2]. constructor; [by rewrite <- HG|].
  eapply hres_Proper; [..|done|exact H2].
  - by rewrite (Permutation_map seg_nodes HG).
  - by rewrite (Permutation_map seg_extent HG).
  - by rewrite (Permutation_map seg_allocation HG).
  - by rewrite (Permutation_map (seg_reps c) HG).
  - by rewrite (Permutation_map seg_pins HG), HO.
Qed.

Lemma layout_for_of a geometry : layout_for a geometry = layout_of (a_layouts a) geometry.
Proof. done. Qed.

Section Facts.
Context {c : consts} {G : list segment} {O : list ptok} {s : host}.

Lemma xinv_this : xinv c G O s -> xs_this (he_store s) = c_this c /\ 0 < c_this c.
Proof. intros [_ H]. apply H. Qed.

Lemma xinv_seg sg : xinv c G O s -> sg ∈ G -> seg_ok c sg.
Proof. intros [H _] Hin. rewrite Forall_forall in H. by apply H. Qed.

Lemma seg_split sg : sg ∈ G -> exists G', G ≡ₚ sg :: G'.
Proof. intros (l1 & l2 & ->)%list_elem_of_split. exists (l1 ++ l2). by rewrite Permutation_middle. Qed.

(** The extents in use are the segments. *)
Lemma extent_at sg : xinv c G O s -> sg ∈ G -> (xs_extents (he_store s)).[sg_index sg] = Some (snd (seg_extent sg)).
Proof.
  intros [_ H] Hin. apply (stack_at (sg_index sg) _ (hv_exts _ _ _ _ _ _ _ H)). by apply (list_elem_of_fmap_2 seg_extent).
Qed.

Lemma extent_in_use i e : xinv c G O s -> (xs_extents (he_store s)).[i] = Some e -> ex_state e <> XFree ->
  exists sg, sg ∈ G /\ (i, e) = seg_extent sg.
Proof.
  intros [Hok H] Hi Hne. pose proof (hv_exts _ _ _ _ _ _ _ H) as Hx. pose proof (vget_Some_bounds _ _ _ Hi) as Hb.
  assert (Hin : i ∈ map fst (map seg_extent G) ++ stack_top (xs_free (he_store s)) (xs_free_count (he_store s))).
  { rewrite (sk_all _ _ _ _ _ _ Hx), elem_of_seqZ. rewrite (sk_size _ _ _ _ _ _ Hx) in Hb. lia. }
  apply elem_of_app in Hin as [Hin|Hin].
  - apply list_elem_of_fmap in Hin as (t & -> & Hin). apply list_elem_of_fmap in Hin as (sg & -> & Hin). exists sg. split; [done|].
    pose proof (stack_at (sg_index sg) (snd (seg_extent sg)) Hx ltac:(by apply (list_elem_of_fmap_2 seg_extent))) as E. cbn in Hi. rewrite E in Hi. naive_solver.
  - pose proof (sk_vacant _ _ _ _ _ _ Hx) as Hv. rewrite Forall_forall in Hv. destruct (Hv _ Hin) as (e' & He' & (g & _ & ->)). by simplify_eq.
Qed.

(** A valid capability names a published segment, a valid reservation an
    unpublished one. *)
Lemma extent_valid_iff cap :
  xinv c G O s -> extent_valid (he_store s) cap = true <-> exists sg, sg ∈ G /\ sg_published sg = true /\ cap = capability_of c sg.
Proof.
  intros H. destruct (xinv_this H) as [Hthis _]. unfold extent_valid. rewrite Hthis. split.
  - intros Hv. simp_bool. destruct ((xs_extents (he_store s)).[hx_index cap]) as [e|] eqn:He; [|done]. simp_bool.
    match goal with Hs : bool_decide _ = true |- _ => apply bool_decide_eq_true in Hs; rename Hs into Hst end.
    destruct (extent_in_use _ _ H He) as (sg & Hin & Heq); [by rewrite Hst|]. exists sg. split; [done|].
    unfold seg_extent, extent_of in Heq. injection Heq as Ei Ee. subst e. cbn in *. destruct (sg_published sg); [|done]. split; [done|].
    destruct cap; cbn in *. unfold capability_of. congruence.
  - intros (sg & Hin & Hpub & ->). rewrite andb_true_iff, Z.eqb_eq. split; [done|]. cbn. rewrite (extent_at _ H Hin). cbn. rewrite Hpub, Z.eqb_refl.
    by rewrite bool_decide_eq_true_2.
Qed.

Lemma first_node_valid sg : xinv c G O s -> sg ∈ G -> first_node (sg_slots sg) <> kInvalidIndex /\ last_node (sg_slots sg) <> kInvalidIndex.
Proof.
  intros H Hin. pose proof (bk_some _ _ _ _ (gk_block _ _ (xinv_seg _ H Hin))) as Hne.
  assert (Hn : forall sl, sl ∈ sg_slots sg -> sl_node sl <> kInvalidIndex).
  { intros sl (j & Hj)%list_elem_of_lookup.
    assert (Ht : node_of (sg_index sg) (0 + Z.of_nat j) sl (first_node (drop (S j) (sg_slots sg))) ∈ concat (map seg_nodes G)).
    { apply list_elem_of_In, in_concat. exists (seg_nodes sg). rewrite <- !list_elem_of_In. split; [by apply list_elem_of_fmap_2|].
      apply elem_of_nodes. by exists j, sl. }
    destruct (token_index _ _ _ _ _ _ _ _ (xv_tokens _ _ _ _ H) Ht) as [_ ?]. done. }
  destruct (sg_slots sg) as [|sl slots] eqn:Es; [done|]. split; [apply Hn; by left|].
  destruct (last (sl :: slots)) as [sl'|] eqn:El; [|by apply last_None in El]. unfold last_node. rewrite El. apply Hn.
  apply last_Some in El as [l' ->]. apply elem_of_app. right. by left.
Qed.

Lemma reservation_valid_iff r :
  xinv c G O s -> reservation_valid (he_store s) r = true <-> exists sg, sg ∈ G /\ sg_published sg = false /\ r = reservation_of c sg.
Proof.
  intros H. destruct (xinv_this H) as [Hthis _]. unfold reservation_valid. rewrite Hthis. split.
  - intros Hv. destruct (negb (xr_owner r =? c_this c) || _ || _) eqn:Eg; [done|]. simp_bool.
    destruct ((xs_extents (he_store s)).[xr_descriptor r]) as [e|] eqn:He; [|done]. simp_bool.
    repeat match goal with Hs : bool_decide _ = true |- _ => apply bool_decide_eq_true in Hs end.
    destruct (extent_in_use _ _ H He) as (sg & Hin & Heq); [congruence|]. exists sg. split; [done|].
    unfold seg_extent, extent_of in Heq. injection Heq as Ei Ee. subst e. cbn in *. destruct (sg_published sg); [done|]. split; [done|].
    destruct r; cbn in *. unfold reservation_of. congruence.
  - intros (sg & Hin & Hpub & ->). pose proof (extent_at _ H Hin) as He. destruct (first_node_valid _ H Hin) as [Hf Hl]. cbn.
    pose proof (vget_Some_bounds _ _ _ He). rewrite Z.eqb_refl, (proj2 (Z.leb_gt _ _)) by lia. cbn. rewrite He. cbn. rewrite Hpub, Z.eqb_refl.
    rewrite !bool_decide_eq_true_2 by done. cbn. rewrite !(proj2 (Z.eqb_neq _ kInvalidIndex)) by done.
    pose proof (bk_some _ _ _ _ (gk_block _ _ (xinv_seg _ H Hin))) as Hne. rewrite (proj2 (Z.eqb_neq _ 0)); [done|].
    destruct (sg_slots sg); [done|]. rewrite vsize_cons. pose proof (vsize_nonneg l). lia.
Qed.

(** The layout of the pages of a store. *)
Lemma page_layout_run p k :
  xinv c G O s -> he_pages s !! p = Some k ->
  page_layout p s = match store_layout c p with Some l => (s, Ok l) | None => (s, Err InvalidArgument) end.
Proof.
  intros [_ H] Hk. destruct (hv_arena_const _ _ _ _ _ _ _ H) as (_ & Hl & _). unfold page_layout, mget, mbind, M_bind. rewrite Hk.
  rewrite layout_for_of, Hl. unfold store_layout. pose proof (px_specs _ _ _ _ (hv_pages _ _ _ _ _ _ _ H)) as Hs.
  assert (Hspec : pe_specs (c_env c) !! p = Some (p_spec (kv_pool k))) by (rewrite <- Hs; by rewrite list_lookup_fmap, Hk).
  rewrite Hspec. by destruct (layout_of _ _).
Qed.
End Facts.

(** * Reservations *)
Definition unpublished (sg : segment) : segment :=
  mkSegment (sg_index sg) (sg_generation sg) (sg_store sg) (sg_allocation sg) (sg_descriptor sg) (sg_slots sg) false.
Definition published (sg : segment) : segment :=
  mkSegment (sg_index sg) (sg_generation sg) (sg_store sg) (sg_allocation sg) (sg_descriptor sg) (sg_slots sg) true.

Section Operations.
Context {c : consts} {O : list ptok} `{!HostStable (c_env c)} `{!PinStable (c_env c)}.
Implicit Types (G : list segment) (s : host).

(** Distinct pages to copy have distinct descriptors. *)
Lemma copied_distinct st l : forallb (can_copy_to_host st) l = true -> NoDup l -> NoDup (map lh_index l).
Proof.
  intros Hcan Hnd. assert (Hv : forall h, h ∈ l -> page_valid st h = true).
  { intros h Hin%list_elem_of_In. rewrite forallb_forall in Hcan. specialize (Hcan h Hin). unfold can_copy_to_host in Hcan. simp_bool.
    by match goal with H : can_pin_source _ _ = true |- _ => apply page_test_true in H as (? & ? & _) end. }
  apply NoDup_fmap_2_strong; [|done]. intros x y Hx Hy. apply (valid_unique st); by apply Hv.
Qed.

(** [prepare] gives a segment of its own to the pages, or leaves the state as
    it was. *)
Lemma prepare_segment G s p k membership :
  xinv c G O s -> he_pages s !! p = Some k -> NoDup membership ->
  wp (prepare p membership)
    (fun r s' => match r with
                 | None => s' = s
                 | Some r => exists sg, xinv c (sg :: G) O s' /\ sg_published sg = false /\ sg_store sg = p /\
                     map sl_page (sg_slots sg) = membership /\ Forall (slot_current k) (sg_slots sg) /\ r = reservation_of c sg /\
                     forallb (can_copy_to_host (kv_store k)) membership = true
                 end) (fun e s' => e = InvalidArgument /\ s' = s) s.
Proof.
  intros Hx Hk Hnd. pose proof (xv_tokens _ _ _ _ Hx) as H. destruct (xinv_this Hx) as [Hthis _]. unfold prepare.
  apply wp_bind, wp_get. apply wp_if; [intros _; by apply wp_ret|intros Hg]. simp_bool.
  apply wp_bind. eapply wp_pages_at; [exact Hk|]. destruct (forallb _ membership) eqn:Hcan; cbn [negb]; [|by apply wp_ret].
  apply wp_bind. unfold wp at 1. rewrite (page_layout_run _ _ Hx Hk). destruct (store_layout c p) as [layout|] eqn:Hlay; [|done].
  pose proof (hv_cap _ _ _ _ _ _ _ H) as Hcap. pose proof (sk_count _ _ _ _ _ _ (hv_nodes _ _ _ _ _ _ _ H)) as Hcnt. pose proof (vsize_nonneg membership).
  assert (Hpos : 0 < vsize membership <= U32_MAX) by lia. rewrite wrap32_small by lia.
  destruct (own_allocate layout (vsize membership) (hv_arena _ _ _ _ _ _ _ H) Hpos) as (a' & o & Ea & Ho).
  apply wp_bind. unfold arena_allocate. apply wp_bind, wp_get, wp_bind. unfold wp at 1, mlift. rewrite Ea. cbv beta iota.
  apply wp_bind, wp_put, wp_ret. destruct o as [al|]; cbn [has negb]; [|subst a'; apply wp_ret; by destruct s].
  destruct Ho as (Hsame & d & Hown & Hdp & Hdl). pose proof (hres_arena _ _ _ H Hsame Hown) as Hh1.
  apply wp_bind. eapply wp_pop_extent; [exact Hh1|done|]. intros s2 i g Hh2 Hgen E2.
  apply wp_bind. eapply wp_ext_ref; [exact Hh2|by left|]. apply wp_bind, wp_throw_if; [intros _|done].
  apply wp_bind, wp_drop_none. apply wp_bind. eapply wp_put_ext; [exact Hh2|]. intros s3 Hh3 E3.
  change (hres c ([] ++ concat (map seg_nodes G)) ((i, reserved_extent g p al []) :: map seg_extent G)
    ((al, d) :: map seg_allocation G) (concat (map (seg_reps c) G)) (concat (map seg_pins G) ++ O) s3) in Hh3.
  apply wp_bind. assert (Hk3 : he_pages s3 !! p = Some k) by (by rewrite E3, E2).
  assert (Hcnt3 : vsize membership <= xs_free_membership_count (he_store s3)).
  { pose proof (stack_total (hv_nodes _ _ _ _ _ _ _ Hh3)). pose proof (stack_total (hv_nodes _ _ _ _ _ _ _ H)). cbn [app] in *. lia. }
  eapply wp_conseq with (E := no_error);
    [apply (append_members_slots _ _ _ _ p k i g al (d_offset d) (hl_page_stride layout) membership _ [] _ Hh3 Hk3 Hcan Hcnt3); [|done]| |done].
  { change (vsize (@nil slot)) with 0. lia. }
  intros u s4 (slots & Hpages & Hcur & Hloc & Hh4 & E4). cbn [app] in *.
  apply wp_bind. eapply wp_conseq with (E := no_error); [eapply pin_pages; [exact Hh4|by rewrite E4| |by apply (copied_distinct (kv_store k))]| |done].
  { rewrite forallb_forall in Hcan |- *. intros h Hin. specialize (Hcan h Hin). unfold can_copy_to_host in Hcan. simp_bool. done. }
  intros u' s5 Hh5. cbv beta in Hh5. apply wp_bind. eapply wp_ext_ref; [exact Hh5|by left|]. apply wp_ret.
  set (sg := mkSegment i g p al d slots false). exists sg. rewrite Hthis. split; [|done]. constructor.
  - apply Forall_cons_2; [|apply Hx]. constructor; [done| |].
    + constructor; cbn.
      * intros ->. subst membership. unfold vsize in Hpos. cbn in Hpos. lia.
      * rewrite Hdp, <- Hpages. unfold vsize. by rewrite length_map.
      * exists layout. split; [|done]. destruct (hv_arena_const _ _ _ _ _ _ _ Hh1) as (_ & <- & _). done.
    + cbn. unfold slot_index. rewrite <- (map_map sl_page lh_index), Hpages. by apply (copied_distinct (kv_store k)).
  - cbn. unfold seg_nodes, seg_reps, seg_pins, pins_of, seg_extent, seg_allocation. cbn. rewrite <- Hpages, map_map, app_assoc in Hh5. exact Hh5.
Qed.

(** [publish] turns pins into replicas, when the pages still have the content
    the reservation was made for. *)
Lemma publish_segment G s sg k :
  xinv c (sg :: G) O s -> sg_published sg = false -> he_pages s !! sg_store sg = Some k ->
  wp (publish (reservation_of c sg))
    (fun r s' => Forall (slot_current k) (sg_slots sg) /\ r = (capability_of c sg, consume (reservation_of c sg)) /\ xinv c (published sg :: G) O s')
    (fun e s' => e = Terminate /\ s' = s /\ ~ Forall (slot_current k) (sg_slots sg)) s.
Proof.
  intros Hx Hpub Hk. pose proof (xv_tokens _ _ _ _ Hx) as H. destruct (xinv_this Hx) as [Hthis Hpos].
  apply wp_nothrow_terminates. apply wp_bind, wp_get. rewrite (proj2 (reservation_valid_iff _ Hx)) by (exists sg; split; [by left|done]).
  apply wp_bind, wp_throw_if; [intros _|done]. cbn in H. unfold seg_pins at 1, seg_reps at 1, seg_extent at 1, seg_nodes at 1 in H. rewrite Hpub in H. cbn [app] in H.
  apply wp_bind. eapply wp_ext_ref; [exact H|by left|]. cbn [ex_page_store ex_page_count ex_head extent_of].
  unfold vsize at 1 2. rewrite Nat2Z.id. apply wp_bind.
  eapply wp_conseq; [eapply check_attachable_slots; [exact H|exact Hk]| |done]. intros u s1 [-> Hcur].
  apply wp_bind. eapply wp_put_ext; [exact H|]. intros s2 H2 E2. rewrite Hthis. apply wp_bind. rewrite <- app_assoc in H2.
  eapply wp_conseq with (E := no_error); [eapply attach_members_slots; [exact H2|by rewrite E2|done|apply (xinv_seg _ Hx); by left|]| |done].
  { unfold capability_valid. cbn. by rewrite (proj2 (Z.eqb_neq _ _)) by lia. }
  intros u' s3 H3. apply wp_ret. split; [done|]. split; [done|]. constructor; [|exact H3].
  pose proof (xv_segments _ _ _ _ Hx) as Hs. apply Forall_cons_1 in Hs as [[Hs1 Hs2 Hs3] Hs]. by apply Forall_cons_2.
Qed.

(** The end of an extent whose replicas and pins are gone. *)
Lemma release_extent_segment G s sg R P :
  seg_ok c sg -> hres c (seg_nodes sg ++ concat (map seg_nodes G)) (seg_extent sg :: map seg_extent G) (seg_allocation sg :: map seg_allocation G) R P s ->
  wp (release_extent (sg_index sg))
    (fun _ => hres c (concat (map seg_nodes G)) (map seg_extent G) (map seg_allocation G) R P) no_error s.
Proof.
  intros Hok H. apply wp_nothrow. apply wp_bind. eapply wp_ext_ref; [exact H|by left|]. cbn [ex_page_count ex_head ex_allocation ex_generation extent_of].
  unfold vsize at 1. rewrite Nat2Z.id. apply wp_bind.
  eapply wp_conseq with (E := no_error); [eapply free_members_slots; exact H| |done]. intros u s1 [H1 _].
  apply wp_bind. eapply wp_drop_allocation; [exact H1|]. intros s2 H2 _. apply wp_bind. eapply wp_put_ext; [exact H2|]. intros s3 H3 _.
  eapply wp_push_extent; [exact H3| |by intros s4 H4 _]. by apply increment_generation_spec, Hok.
Qed.

(** [abort] gives a reservation back. *)
Lemma abort_segment G s sg :
  xinv c (sg :: G) O s -> sg_published sg = false ->
  wp (abort (reservation_of c sg)) (fun r s' => r = consume (reservation_of c sg) /\ xinv c G O s') no_error s.
Proof.
  intros Hx Hpub. pose proof (xv_tokens _ _ _ _ Hx) as H. apply wp_nothrow. apply wp_bind, wp_get.
  rewrite (proj2 (reservation_valid_iff _ Hx)) by (exists sg; split; [by left|done]). cbn [negb].
  cbn in H. unfold seg_pins at 1, seg_reps at 1, seg_extent at 1, seg_nodes at 1 in H. rewrite Hpub in H. cbn [app] in H.
  apply wp_bind. eapply wp_ext_ref; [exact H|by left|]. cbn [ex_page_store ex_page_count ex_head extent_of].
  unfold vsize at 1. rewrite Nat2Z.id. apply wp_bind. rewrite <- app_assoc in H.
  eapply wp_conseq with (E := no_error); [eapply unpin_members_slots; exact H| |done]. intros u s1 H1. cbv beta in H1.
  pose proof (xv_segments _ _ _ _ Hx) as Hs. apply Forall_cons_1 in Hs as [Hok Hs]. apply wp_bind.
  eapply wp_conseq with (E := no_error); [eapply (release_extent_segment G s1 sg)| |done].
  - done.
  - unfold seg_extent, seg_nodes. rewrite Hpub. exact H1.
  - intros u' s2 H2. apply wp_ret. split; [done|]. by constructor.
Qed.

(** [release] of a published extent: all of its pages, or nothing. *)
Lemma release_segment G s sg :
  xinv c (sg :: G) O s -> sg_published sg = true ->
  wp (release (capability_of c sg))
    (fun b s' => (b = true <-> Forall (slot_droppable s (sg_store sg)) (sg_slots sg)) /\
       if b then xinv c G O s' else s' = s) no_error s.
Proof.
  intros Hx Hpub. pose proof (xv_tokens _ _ _ _ Hx) as H. apply wp_nothrow. apply wp_bind, wp_get.
  rewrite (proj2 (extent_valid_iff _ Hx)) by (exists sg; split; [by left|done]). cbn [negb].
  cbn in H. unfold seg_pins at 1, seg_reps at 1, seg_extent at 1, seg_nodes at 1 in H. rewrite Hpub in H. cbn [app] in H.
  apply wp_bind. eapply wp_ext_ref; [exact H|by left|]. cbn [ex_page_store ex_page_count ex_head extent_of].
  unfold vsize at 1 2. rewrite Nat2Z.id. apply wp_bind.
  eapply wp_conseq with (E := no_error); [eapply (members_releasable_slots _ _ _ _ _ (capability_of c sg)); exact H| |done].
  intros b s1 [-> Hb]. destruct b; cbn [negb]; [|apply wp_ret; done].
  destruct Hb as [Hb _]. specialize (Hb eq_refl).
  apply (reps_restate _ _ _ _ (fun _ => true)) in H; [|intros sl Hin _; by rewrite Forall_forall in Hb; apply Hb].
  apply wp_bind. eapply wp_conseq with (E := no_error); [eapply detach_members_slots; exact H| |done]. intros u s1 H1. cbv beta in H1.
  pose proof (xv_segments _ _ _ _ Hx) as Hs. apply Forall_cons_1 in Hs as [Hok Hs]. apply wp_bind.
  eapply wp_conseq with (E := no_error); [eapply (release_extent_segment G s1 sg)| |done].
  - done.
  - unfold seg_extent, seg_nodes. rewrite Hpub. exact H1.
  - intros u' s2 H2. apply wp_ret. split; [done|]. by constructor.
Qed.
End Operations.
