(* ===== verification/ExtentPartition.v ===== *)
(** Partition of a published extent ([partition_extent]): the runs of pages to
    release are given back to the arena, each run that stays becomes an extent
    of its own, and the replicas that stay keep their pages and their bytes. *)

From S2P Require Import Prelude Tensor Layout PagedKv HostKvArena LogicalKv PageTokens HostExtents ExtentPages ExtentTokens ExtentSlots ExtentInv.

(** * Runs of slots *)
Notation srun := (bool * list slot)%type.

Definition snoc_run (runs : list srun) (b : bool) (sl : slot) : list srun :=
  match last runs with
  | Some (b', l) => if eqb b' b then removelast runs ++ [(b', l ++ [sl])] else runs ++ [(b, [sl])]
  | None => runs ++ [(b, [sl])]
  end.

Definition runs_of (f : slot -> bool) (slots : list slot) : list srun := foldl (fun runs sl => snoc_run runs (f sl) sl) [] slots.

Definition run_slots (runs : list srun) : list slot := concat (map snd runs).

Definition run_ok (f : slot -> bool) (run : srun) : Prop := snd run <> [] /\ Forall (fun sl => f sl = fst run) (snd run).

Definition retained_count (runs : list srun) : Z := vsize (filter (fun run => fst run = false) runs).

(** The runs as the code describes them. *)
Fixpoint to_runs (begin : Z) (runs : list srun) : list PartitionRun :=
  match runs with
  | [] => []
  | (b, l) :: runs' => mkPartitionRun begin (first_node l) (last_node l) (vsize l) b :: to_runs (begin + vsize l) runs'
  end.

Lemma runs_of_snoc f slots sl : runs_of f (slots ++ [sl]) = snoc_run (runs_of f slots) (f sl) sl.
Proof. unfold runs_of. by rewrite foldl_app. Qed.

Lemma run_slots_app l k : run_slots (l ++ k) = run_slots l ++ run_slots k.
Proof. unfold run_slots. by rewrite map_app, concat_app. Qed.

Lemma run_slots_snoc runs b sl : run_slots (snoc_run runs b sl) = run_slots runs ++ [sl].
Proof.
  unfold snoc_run. destruct (last runs) as [[b' l]|] eqn:El; [|rewrite run_slots_app; done].
  destruct (eqb b' b); [|rewrite run_slots_app; done]. apply last_Some in El as [runs' ->]. rewrite removelast_last, !run_slots_app.
  unfold run_slots. cbn. by rewrite !app_nil_r, app_assoc.
Qed.

Lemma run_slots_of f slots : run_slots (runs_of f slots) = slots.
Proof. induction slots as [|sl slots IH] using rev_ind; [done|]. by rewrite runs_of_snoc, run_slots_snoc, IH. Qed.

Lemma runs_of_ok f slots : Forall (run_ok f) (runs_of f slots).
Proof.
  induction slots as [|sl slots IH] using rev_ind; [constructor|]. rewrite runs_of_snoc. unfold snoc_run.
  assert (Hone : run_ok f (f sl, [sl])) by (split; [done|by apply Forall_singleton]).
  destruct (last (runs_of f slots)) as [[b l]|] eqn:El; [|apply Forall_app; split; [done|by apply Forall_singleton]].
  destruct (eqb b (f sl)) eqn:Eb; [|apply Forall_app; split; [done|by apply Forall_singleton]].
  apply eqb_prop in Eb as ->. apply last_Some in El as [runs' El]. rewrite El in *. rewrite removelast_last. apply Forall_app in IH as [IH Hl].
  apply Forall_cons_1 in Hl as [[_ Hl] _]. apply Forall_app. split; [done|]. apply Forall_singleton. split; [by destruct l|].
  cbn in *. apply Forall_app. split; [done|by apply Forall_singleton].
Qed.

Lemma to_runs_app begin l k : to_runs begin (l ++ k) = to_runs begin l ++ to_runs (begin + vsize (run_slots l)) k.
Proof.
  revert begin. induction l as [|[b r] l IH]; intros begin; cbn [app to_runs].
  - change (vsize (run_slots [])) with 0. by rewrite Z.add_0_r.
  - rewrite IH. cbn. do 2 f_equal. unfold run_slots. cbn. rewrite vsize_app. unfold run_slots. f_equal. lia.
Qed.

Lemma retained_count_app l k : retained_count (l ++ k) = retained_count l + retained_count k.
Proof. unfold retained_count. by rewrite filter_app, vsize_app. Qed.

Lemma retained_count_cons run runs : retained_count (run :: runs) = (if fst run then 0 else 1) + retained_count runs.
Proof. unfold retained_count. rewrite filter_cons. destruct (fst run); case_decide; try done. by rewrite vsize_cons. Qed.

Lemma retained_count_nonneg runs : 0 <= retained_count runs.
Proof. apply vsize_nonneg. Qed.

(** A run that stays holds at least one page. *)
Lemma retained_count_le f runs : Forall (run_ok f) runs -> retained_count runs <= vsize (run_slots runs).
Proof.
  induction 1 as [|[b l] runs [Hne _] _ IH]; [done|]. rewrite retained_count_cons. unfold run_slots in *. cbn in *. rewrite vsize_app.
  destruct l; [done|]. rewrite vsize_cons. pose proof (vsize_nonneg l). destruct b; lia.
Qed.

(** * The scan *)
Definition released_count (f : slot -> bool) (slots : list slot) : Z := vsize (filter (fun sl => f sl = true) slots).

Definition scan_of (f : slot -> bool) (slots : list slot) : scan :=
  mkScan (to_runs 0 (runs_of f slots)) (existsb f slots) (retained_count (runs_of f slots)) (released_count f slots).

Lemma released_count_snoc f slots sl : released_count f (slots ++ [sl]) = released_count f slots + (if f sl then 1 else 0).
Proof.
  unfold released_count. rewrite filter_app, vsize_app. f_equal. rewrite filter_cons, filter_nil.
  destruct (f sl); by case_decide.
Qed.

Lemma released_count_le f slots : 0 <= released_count f slots <= vsize slots.
Proof.
  unfold released_count. split; [apply vsize_nonneg|]. unfold vsize. pose proof (length_filter (fun sl => f sl = true) slots). lia.
Qed.

Lemma last_node_run l sl : last_node (l ++ [sl]) = sl_node sl.
Proof. apply last_node_snoc. Qed.

Lemma push_run_of f slots sl :
  vsize slots < U32_MAX ->
  push_run (to_runs 0 (runs_of f slots)) (vsize slots) (sl_node sl) (f sl) =
    (to_runs 0 (runs_of f (slots ++ [sl])), match last (runs_of f slots) with Some (b, _) => negb (eqb b (f sl)) | None => true end).
Proof.
  intros Hu. rewrite runs_of_snoc. pose proof (run_slots_of f slots) as Hs. pose proof (runs_of_ok f slots) as Hok.
  unfold push_run, snoc_run. destruct (last (runs_of f slots)) as [[b l]|] eqn:El.
  - apply last_Some in El as [runs El]. rewrite El in *. rewrite to_runs_app, last_app. cbn [to_runs last].
    change (pr_release (mkPartitionRun (0 + vsize (run_slots runs)) (first_node l) (last_node l) (vsize l) b)) with b.
    destruct (eqb b (f sl)) eqn:Eb; cbn [negb].
    + apply eqb_prop in Eb as ->. rewrite !removelast_last, to_runs_app. cbn [to_runs pr_begin pr_head pr_count]. f_equal. f_equal.
      rewrite last_node_snoc, vsize_app. apply Forall_app in Hok as [_ Hok]. apply Forall_cons_1 in Hok as [[Hne _] _]. cbn in Hne.
      rewrite run_slots_app in Hs. unfold run_slots at 2 in Hs. cbn in Hs. rewrite app_nil_r in Hs. rewrite <- Hs, vsize_app in Hu.
      pose proof (vsize_nonneg (run_slots runs)). pose proof (vsize_nonneg l). rewrite wrap32_small by lia. by destruct l.
    + rewrite !to_runs_app, <- !app_assoc. cbn [to_runs app]. f_equal. do 3 f_equal. rewrite <- Hs, run_slots_app, vsize_app. done.
  - apply last_None in El. rewrite El in *. cbn in Hs. subst slots. done.
Qed.

Lemma scan_page_of f slots sl :
  vsize slots < U32_MAX -> scan_page (scan_of f slots) (vsize slots) (sl_node sl) (f sl) = scan_of f (slots ++ [sl]).
Proof.
  intros Hu. unfold scan_page. cbn [sc_runs scan_of]. rewrite push_run_of by done. unfold scan_of. cbn.
  pose proof (released_count_le f slots). pose proof (retained_count_le f _ (runs_of_ok f slots)) as Hr. rewrite run_slots_of in Hr.
  pose proof (retained_count_nonneg (runs_of f slots)). f_equal.
  - rewrite existsb_app. cbn. by rewrite orb_false_r.
  - rewrite runs_of_snoc. unfold snoc_run. destruct (last (runs_of f slots)) as [[b l]|] eqn:El.
    + apply last_Some in El as [runs El]. rewrite El in *. destruct (eqb b (f sl)) eqn:Eb; cbn [negb andb].
      * apply eqb_prop in Eb as ->. rewrite removelast_last, !retained_count_app, !retained_count_cons. cbn. done.
      * rewrite !retained_count_app, !retained_count_cons in *. cbn [fst] in *. change (retained_count []) with 0 in *.
        destruct (f sl); cbn [negb]; [lia|]. rewrite wrap32_small by (destruct b; lia). lia.
    + apply last_None in El. rewrite El in *. cbn. destruct (f sl); done.
  - rewrite released_count_snoc. destruct (f sl); [rewrite wrap32_small by lia|]; lia.
Qed.

(** What the predicate must say of the pages. *)
Definition decides (s : host) (p : nat) (pred : page_predicate) (f : slot -> bool) (slots : list slot) : Prop :=
  forall sl k pg, sl ∈ slots -> he_pages s !! p = Some k -> (ls_pages (kv_store k)).[slot_index sl] = Some pg ->
    pred (he_store s) pg (sl_node sl) = f sl /\ (f sl = true -> unreleasable pg = false).

Section Scan.
Context {c : consts} {X : list xtok} {L : list atok} {P : list ptok} {N : list ntok} {R : list rtok}.
Context {s : host} {p : nat} {k : kv} {old : HostKVExtentCapability} {slots : list slot} {f : slot -> bool} {pred : page_predicate}.
Hypothesis H : hres c (nodes_of (hx_index old) 0 slots ++ N) X L (reps_of p old 0 (fun _ => false) slots ++ R) P s.
Hypothesis Hk : he_pages s !! p = Some k.
Hypothesis Hpred : decides s p pred f slots.
Hypothesis Hu : vsize slots <= U32_MAX.

Lemma slot_lookup_page j sl :
  slots !! j = Some sl ->
  exists pg, page_valid (kv_store k) (sl_page sl) = true /\ (ls_pages (kv_store k)).[slot_index sl] = Some pg /\
    pg_host_replica pg = Some (replica_of old (Z.of_nat j) sl).
Proof.
  intros Hj. assert (Ht : mkRtok p (sl_page sl) (replica_of old (0 + Z.of_nat j) sl) false ∈ reps_of p old 0 (fun _ => false) slots ++ R).
  { apply elem_of_app. left. apply elem_of_reps. by exists j, sl. }
  destruct (ptoks_held _ _ _ _ (hv_pages _ _ _ _ _ _ _ H) Ht) as (k' & pg & Hk' & Hv & Hp & [Hr _ _]). cbn in *. simplify_eq. by exists pg.
Qed.

Lemma slot_lookup_node j sl :
  slots !! j = Some sl ->
  (xs_memberships (he_store s)).[sl_node sl] =
    Some (mkMember (sl_page sl) (sl_epoch sl) (sl_coverage sl) (hx_index old) (Z.of_nat j) (first_node (drop (S j) slots))) /\
  sl_node sl <> kInvalidIndex.
Proof.
  intros Hj. assert (Ht : node_of (hx_index old) (0 + Z.of_nat j) sl (first_node (drop (S j) slots)) ∈ nodes_of (hx_index old) 0 slots ++ N).
  { apply elem_of_app. left. apply elem_of_nodes. by exists j, sl. }
  split; [exact (stack_at _ _ (hv_nodes _ _ _ _ _ _ _ H) Ht)|]. by destruct (token_index _ _ _ _ _ _ _ _ H Ht).
Qed.

Lemma scan_members_slots todo : forall done,
  slots = done ++ todo ->
  scan_members (he_store s) (kv_store k) old pred (length todo) (vsize done) (first_node todo) (scan_of f done) =
    Ok (scan_of f slots, kInvalidIndex).
Proof.
  induction todo as [|sl todo IH]; intros done Hs; [by rewrite Hs, app_nil_r|].
  assert (Hj : slots !! length done = Some sl) by (rewrite Hs; by apply list_lookup_middle).
  destruct (slot_lookup_node _ _ Hj) as [Hn Hne]. destruct (slot_lookup_page _ _ Hj) as (pg & Hv & Hp & Hr).
  destruct (Hpred sl k pg) as [Ef Hrel]; [by eapply list_elem_of_lookup_2|done|done|].
  assert (Hdrop : drop (S (length done)) slots = todo).
  { rewrite Hs. replace (S (length done)) with (length done + 1)%nat by lia. by rewrite <- drop_drop, drop_app_length. }
  rewrite Hdrop in Hn. pose proof (vget_Some_bounds _ _ _ Hn). cbn [length scan_members first_node].
  rewrite (proj2 (Z.eqb_neq _ _)), (proj2 (Z.leb_gt _ _)) by (done || lia). cbn [orb throw_if]. unfold slot_index in Hp.
  unfold mbind at 1, result_bind at 1. rewrite (proj2 (vat_Ok _ _ _) Hn). cbn [mb_page mb_next].
  unfold mbind, result_bind. cbv beta iota. cbn [mb_page mb_next]. unfold page_test. rewrite Hv, Hp. cbn [negb]. rewrite Hr. cbn [has negb throw_if].
  rewrite (proj2 (vat_Ok _ _ _) Hp). cbv iota beta. rewrite Hr. unfold replica_agrees, vsize. cbn. rewrite bool_decide_eq_true_2, !Z.eqb_refl by done.
  cbn. rewrite Ef. fold (vsize done). assert (Hnr : f sl && unreleasable pg = false) by (destruct (f sl); [by rewrite Hrel|done]). rewrite Hnr. cbn.
  rewrite Hs, vsize_app, vsize_cons in Hu. pose proof (vsize_nonneg todo).
  rewrite scan_page_of by lia. replace (vsize done + 1) with (vsize (done ++ [sl])) by (rewrite vsize_app; unfold vsize; cbn; lia).
  apply IH. rewrite Hs. by rewrite <- app_assoc.
Qed.
End Scan.

(** * The runs, one after the other *)
Section Runs.
Context {c : consts} {P : list ptok} `{!HostStable (c_env c)}.
Implicit Types (N : list ntok) (X : list xtok) (L : list atok) (R : list rtok) (s : host).

Lemma end_run_slots N X L R s index begin l rest run :
  l <> [] -> pr_tail run = last_node l -> hres c (nodes_of index begin (l ++ rest) ++ N) X L R P s ->
  wp (end_run run) (fun _ => hres c (nodes_of index begin l ++ nodes_of index (begin + vsize l) rest ++ N) X L R P) no_error s.
Proof.
  intros Hne Ht H. destruct l as [|sl l _] using rev_ind; [done|]. rewrite last_node_snoc in Ht. unfold end_run. rewrite Ht.
  set (stop := match rest with [] => kInvalidIndex | _ => first_node rest end).
  assert (Hperm : nodes_of index begin ((l ++ [sl]) ++ rest) ++ N ≡ₚ
    node_of index (begin + vsize l) sl stop :: chain index begin l (sl_node sl) ++ nodes_of index (begin + vsize (l ++ [sl])) rest ++ N).
  { destruct rest as [|sl' rest].
    - rewrite app_nil_r, chain_last. cbn. solve_Permutation.
    - rewrite chain_app by done. rewrite chain_last. cbn [first_node]. unfold stop. cbn [first_node]. solve_Permutation. }
  rewrite Hperm in H. apply wp_bind. eapply wp_member_ref; [exact H|by left|]. eapply wp_put_member; [exact H|]. intros s1 H1 _.
  unfold set_next in H1. cbn in H1. rewrite chain_last. eapply hres_Proper; [| | | | |done|exact H1]; [|done..]. unfold node_of. solve_Permutation.
Qed.

(** The extents during a partition: before one was assigned, the place of the
    original is still open. *)
Definition open_extents (index : Z) (hole : Extent) (assigned : bool) (X : list xtok) : list xtok :=
  if assigned then X else (index, hole) :: X.

Record hole_ok (hole : Extent) : Prop := {
  hl_allocation : ex_allocation hole = None;
  hl_generation : 1 <= ex_generation hole <= U32_MAX;
}.

Lemma retain_run_slots N X L R s index hole assigned p old run al d f begin l :
  hole_ok hole -> l <> [] -> run = mkPartitionRun begin (first_node l) (last_node l) (vsize l) false ->
  0 <= begin -> begin + vsize l <= U32_MAX -> (assigned = true -> xs_free_count (he_store s) <> 0) ->
  hres c (nodes_of index begin l ++ N) (open_extents index hole assigned X) ((al, d) :: L) (reps_of p old begin f l ++ R) P s ->
  wp (retain_run index p old run al assigned)
    (fun _ s' => exists target g, let sg := mkSegment target g p al d l true in 1 <= g <= U32_MAX /\
       hres c (seg_nodes sg ++ N) (seg_extent sg :: X) (seg_allocation sg :: L) (reps_of p (capability_of c sg) 0 f l ++ R) P s') no_error s.
Proof.
  intros [Hal Hgen] Hne -> Hb Hu Hfree H. unfold retain_run. apply wp_bind.
  enough (Hgoal : wp (if negb assigned then mret index else pop_extent)
    (fun target s' => exists e, hres c (nodes_of index begin l ++ N) ((target, e) :: X) ((al, d) :: L) (reps_of p old begin f l ++ R) P s' /\
       hole_ok e /\ (target = index \/ ex_state e = XFree)) no_error s).
  { eapply wp_conseq with (E := no_error); [exact Hgoal| |done]. intros target s1 (e & H1 & [Ha1 Hg1] & Hst).
    apply wp_bind. eapply wp_ext_ref; [exact H1|by left|]. apply wp_bind, wp_throw_if; [intros _|].
    2:{ destruct Hst as [->|Hst]; [by rewrite Z.eqb_refl|]. rewrite bool_decide_eq_true_2 by done. by rewrite andb_false_r. }
    rewrite Ha1. apply wp_bind, wp_drop_none. apply wp_bind. eapply wp_put_ext; [exact H1|]. intros s2 H2 _.
    apply wp_bind, wp_get. destruct (hv_this _ _ _ _ _ _ _ H2) as [Hthis Hpos]. rewrite Hthis. cbn [pr_begin pr_head pr_tail pr_count].
    unfold vsize at 1. rewrite Nat2Z.id.
    eapply wp_conseq with (E := no_error); [eapply (rebind_members_slots _ _ _ p old _ index begin f l _ _ 0); [lia|lia|lia| |]| |done].
    - unfold capability_valid. cbn. by rewrite (proj2 (Z.eqb_neq _ _)) by lia.
    - rewrite Z.add_0_r. exact H2.
    - intros u s3 H3. exists target, (ex_generation e). split; [done|]. exact H3. }
  destruct assigned; cbn [negb open_extents] in *.
  - eapply wp_pop_extent; [exact H|by apply Hfree|]. intros s1 i g H1 Hg _. exists (vacant_extent g). split; [done|]. split; [by constructor|by right].
  - apply wp_ret. exists hole. split; [done|]. split; [by constructor|by left].
Qed.
End Runs.

Section Partition.
Context {c : consts} {P : list ptok} `{!HostStable (c_env c)} (index : Z) (hole : Extent) (p : nat) (old : HostKVExtentCapability) (f : slot -> bool).
Implicit Types (N : list ntok) (X : list xtok) (L : list atok) (R : list rtok) (s : host).
Hypothesis Hhole : hole_ok hole.

(** The first pages of a block, and the rest. *)
Lemma arena_split_block N X L R s al d l rest :
  l <> [] -> rest <> [] -> block_ok c p d (l ++ rest) -> hres c N X ((al, d) :: L) R P s ->
  wp (arena_split al (vsize l))
    (fun parts s' => exists dl dr, block_ok c p dl l /\ block_ok c p dr rest /\
       hres c N X ((fst parts, dl) :: (snd parts, dr) :: L) R P s') no_error s.
Proof.
  intros Hl Hr [_ Hpages (layout & Hlay & Hst & Hloc)] H. rewrite vsize_app in Hpages.
  assert (1 <= vsize l) by (destruct l; [done|]; rewrite vsize_cons; pose proof (vsize_nonneg l); lia).
  assert (1 <= vsize rest) by (destruct rest; [done|]; rewrite vsize_cons; pose proof (vsize_nonneg rest); lia).
  destruct (hv_arena_const _ _ _ _ _ _ _ H) as (_ & Hlays & _). rewrite <- Hlays in Hlay.
  destruct (own_split al d layout (vsize l) (hv_arena _ _ _ _ _ _ _ H)) as (a' & x & y & dl & dr & E & Hown & Hsame & P1 & P2 & L1 & L2 & O1 & O2); [lia|done|].
  unfold arena_split. apply wp_bind, wp_get. rewrite E. apply wp_bind, wp_put, wp_ret. exists dl, dr.
  apply located_app in Hloc as [Hloc1 Hloc2]. rewrite Hlays in Hlay. split; [|split].
  - constructor; [done|done|]. exists layout. rewrite L1, O1. done.
  - constructor; [done|lia|]. exists layout. rewrite L2, O2. done.
  - by apply (hres_arena _ _ _ H Hsame Hown).
Qed.

Lemma filter_run b l : Forall (fun sl => f sl = b) l -> filter (fun sl => f sl = false) l = if b then [] else l.
Proof.
  induction 1 as [|sl l Hsl _ IH]; [by destruct b|]. rewrite filter_cons, IH. destruct b; case_decide; congruence.
Qed.

(** What walking the runs from [begin] leaves: a published segment per retained run with the slots [f]
    keeps, and the tokens of the others untouched. *)
Definition runs_partitioned runs assigned N X L R b s' : Prop :=
  exists G', b = assigned || (0 <? retained_count runs) /\ Forall (seg_ok c) G' /\
    Forall (fun sg => sg_published sg = true /\ sg_store sg = p) G' /\
    concat (map sg_slots G') = filter (fun sl => f sl = false) (run_slots runs) /\
    hres c (concat (map seg_nodes G') ++ N) (map seg_extent G' ++ open_extents index hole b X) (map seg_allocation G' ++ L)
      (concat (map (seg_reps c) G') ++ R) P s'.

Lemma partitioned_nil assigned N X L R s :
  hres c N (open_extents index hole assigned X) L R P s -> runs_partitioned [] assigned N X L R assigned s.
Proof using Type. intros H. exists []. cbn. rewrite orb_false_r. done. Qed.

Lemma partitioned_released l runs assigned N X L R b s :
  Forall (fun sl => f sl = true) l -> runs_partitioned runs assigned N X L R b s ->
  runs_partitioned ((true, l) :: runs) assigned N X L R b s.
Proof using Type.
  intros Hfl (G' & Eb & Hg1 & Hg2 & Hg3 & H). exists G'. rewrite retained_count_cons. split; [done|].
  split; [done|]. split; [done|]. split; [|done].
  change (run_slots ((true, l) :: runs)) with (l ++ run_slots runs). by rewrite filter_app, (filter_run true l).
Qed.

Lemma partitioned_retained sg runs assigned N X L R b s :
  seg_ok c sg -> sg_published sg = true -> sg_store sg = p -> Forall (fun sl => f sl = false) (sg_slots sg) ->
  runs_partitioned runs true (seg_nodes sg ++ N) (seg_extent sg :: X) (seg_allocation sg :: L) (seg_reps c sg ++ R) b s ->
  runs_partitioned ((false, sg_slots sg) :: runs) assigned N X L R b s.
Proof using Type.
  intros Hok Hpub Hp Hfl (G' & -> & Hg1 & Hg2 & Hg3 & H). pose proof (retained_count_nonneg runs). exists (sg :: G').
  rewrite retained_count_cons. cbn [fst]. rewrite (proj2 (Z.ltb_lt 0 (_ + _))), orb_true_r by lia. split; [done|].
  split; [by apply Forall_cons_2|]. split; [by apply Forall_cons_2|]. split.
  - change (run_slots ((false, sg_slots sg) :: runs)) with (sg_slots sg ++ run_slots runs).
    rewrite filter_app, (filter_run false _ Hfl). cbn [map concat]. by rewrite Hg3.
  - cbn [orb open_extents] in *. cbn. eapply hres_Proper; [..|done|exact H]; [solve_Permutation..|done].
Qed.

(** The allocation of the first run: all that remains for the last run, a split before. *)
Lemma run_allocation N X L R s remaining d begin l runs :
  l <> [] -> Forall (run_ok f) runs -> block_ok c p d (l ++ run_slots runs) -> hres c N X ((remaining, d) :: L) R P s ->
  wp (match to_runs begin runs with [] => mret (remaining, null_allocation) | _ => arena_split remaining (vsize l) end)
    (fun parts s' => exists dl dr, block_ok c p dl l /\ (runs <> [] -> block_ok c p dr (run_slots runs)) /\
       hres c N X ((fst parts, dl) :: (if runs then L else (snd parts, dr) :: L)) R P s') no_error s.
Proof using HostStable0.
  intros Hl Hok Hblock H. destruct runs as [|[b' l'] runs']; cbn [to_runs].
  - apply wp_ret. exists d, d. unfold run_slots in *. cbn in *. by rewrite app_nil_r in Hblock.
  - eapply wp_conseq with (E := no_error); [eapply (arena_split_block _ _ _ _ _ _ _ l _ Hl); [|exact Hblock|exact H]| |done].
    + apply Forall_cons_1 in Hok as [[Hl' _] _]. unfold run_slots. cbn in *. by destruct l'.
    + intros parts s1 (dl & dr & Bl & Br & Hh1). by exists dl, dr.
Qed.

Lemma partition_runs_slots runs : forall begin remaining d assigned N X L R s,
  Forall (run_ok f) runs -> (runs <> [] -> block_ok c p d (run_slots runs)) -> NoDup (map slot_index (run_slots runs)) ->
  0 <= begin -> begin + vsize (run_slots runs) <= U32_MAX -> vsize X + retained_count runs <= c_cap c ->
  hres c (nodes_of index begin (run_slots runs) ++ N) (open_extents index hole assigned X)
    (if runs then L else (remaining, d) :: L) (reps_of p old begin f (run_slots runs) ++ R) P s ->
  wp (partition_runs index p old (to_runs begin runs) remaining assigned)
    (runs_partitioned runs assigned N X L R) no_error s.
Proof using Hhole HostStable0.
  induction runs as [|[b l] runs IH]; intros begin remaining d assigned N X L R s Hok Hblock Hnd Hb Hu Hcap H.
  { apply wp_ret, partitioned_nil, H. }
  apply Forall_cons_1 in Hok as [[Hl Hfl] Hok]. specialize (Hblock ltac:(done)). cbn [fst snd] in *.
  change (run_slots ((b, l) :: runs)) with (l ++ run_slots runs) in *.
  rewrite vsize_app in Hu. pose proof (vsize_nonneg l). pose proof (vsize_nonneg (run_slots runs)). cbn [to_runs partition_runs].
  rewrite map_app in Hnd. apply NoDup_app in Hnd as (Hnd1 & _ & Hnd2). rewrite retained_count_cons in Hcap. cbn [fst] in *.
  pose proof (retained_count_nonneg runs). apply wp_bind.
  eapply wp_conseq with (E := no_error); [eapply run_allocation; [exact Hl|exact Hok|exact Hblock|exact H]| |done].
  intros [al remaining'] s1 (dl & dr & Hbl & Hbr & Hh1). cbn [fst snd] in Hh1. rewrite reps_of_app, <- app_assoc in Hh1.
  apply wp_bind. eapply wp_conseq with (E := no_error); [eapply end_run_slots; [exact Hl| |exact Hh1]; done| |done].
  intros u s2 Hh2. cbv beta in Hh2. cbn [pr_release pr_count pr_head]. destruct b; cbv iota in *.
  - rewrite (reps_of_ext p old begin f (fun _ => true) l) in Hh2 by (intros sl Hin; rewrite Forall_forall in Hfl; by apply Hfl).
    apply wp_bind. unfold vsize at 1. rewrite Nat2Z.id.
    eapply wp_conseq with (E := no_error); [eapply release_members_slots; exact Hh2| |done]. intros u' s3 Hh3. cbv beta in Hh3.
    apply wp_bind. eapply wp_release_allocation; [exact Hh3|]. intros s4 Hh4 _.
    eapply wp_conseq with (E := no_error); [eapply (IH _ _ dr); [done..|lia|lia| |exact Hh4]; lia| |done].
    intros b s5 Hp. by apply partitioned_released.
  - apply wp_bind. eapply wp_conseq with (E := no_error);
      [eapply (retain_run_slots _ X _ _ _ index hole assigned p old _ al dl f begin l Hhole Hl eq_refl Hb); [lia| |exact Hh2]| |done].
    { intros ->. pose proof (stack_total (hv_exts _ _ _ _ _ _ _ Hh2)). cbn [open_extents] in *. lia. }
    intros u' s3 (target & g & Hg & Hh3). set (sg := mkSegment target g p al dl l true) in *.
    rewrite (reps_of_ext p (capability_of c sg) 0 f (fun _ => false) l) in Hh3 by (intros sl Hin; rewrite Forall_forall in Hfl; by apply Hfl).
    eapply wp_conseq with (E := no_error);
      [apply (IH _ _ dr true (seg_nodes sg ++ N) (seg_extent sg :: X) (seg_allocation sg :: L) (seg_reps c sg ++ R)); [done..|lia|lia| |]| |done].
    + rewrite vsize_cons. lia.
    + eapply hres_Proper; [..|done|exact Hh3]; [solve_Permutation|done| |unfold seg_reps; cbn; solve_Permutation|done]. destruct runs; [done|]. solve_Permutation.
    + intros b s4 Hp. apply (partitioned_retained sg); done.
Qed.
End Partition.

(** * Bytes and descriptors *)

(** Values at distinct positions add up to no more than the vector. *)
Lemma zsum_positions {A} (g : A -> Z) (l : list A) (T : list (Z * A)) :
  Forall (fun x => 0 <= g x) l -> NoDup (map fst T) -> Forall (fun t => l.[fst t] = Some (snd t)) T ->
  zsum (map (fun t => g (snd t)) T) <= zsum (map g l).
Proof.
  intros Hg Hnd Hat. set (h := fun i => match l.[i] with Some x => g x | None => 0 end).
  assert (E1 : map (fun t => g (snd t)) T = map h (map fst T)).
  { rewrite map_map. apply map_ext_in. intros t Ht. rewrite Forall_forall in Hat. unfold h. rewrite (Hat t); [done|by apply list_elem_of_In]. }
  assert (E2 : map g l = map h (seqZ 0 (vsize l))).
  { apply list_eq. intros j. rewrite !lookup_map. destruct (l !! j) as [x|] eqn:Hj.
    - rewrite (lookup_seqZ_lt 0) by (apply lookup_lt_Some in Hj; unfold vsize; lia). cbn. unfold h, vget.
      rewrite (proj2 (Z.leb_le _ _)) by lia. by rewrite Z.add_0_l, Nat2Z.id, Hj.
    - rewrite lookup_ge_None_2; [done|]. rewrite length_seqZ. apply lookup_ge_None in Hj. unfold vsize. lia. }
  assert (Hsub : map fst T ⊆+ seqZ 0 (vsize l)).
  { apply NoDup_submseteq; [done|]. intros i (t & -> & Ht)%list_elem_of_fmap. rewrite Forall_forall in Hat.
    pose proof (vget_Some_bounds _ _ _ (Hat _ Ht)). apply elem_of_seqZ. lia. }
  apply submseteq_Permutation in Hsub as [rest Hrest]. rewrite E1, E2, (zsum_permutation _ _ (Permutation_map h Hrest)), map_app, zsum_app.
  assert (0 <= zsum (map h rest)); [|lia]. apply zsum_nonneg, Forall_map, Forall_forall. intros i _. unfold h.
  cbn. destruct (l.[i]) eqn:Ei; [|lia]. rewrite Forall_forall in Hg. apply Hg. by eapply vget_elem.
Qed.

Lemma own_bytes a L : arena_own L a -> zsum (map (fun t => d_bytes (snd t)) L) <= a_capacity a.
Proof.
  intros [Hc HL]. pose proof (ho_wf _ Hc) as Hwf. cbn in Hwf.
  transitivity (zsum (map active_bytes (a_descriptors a))).
  - transitivity (zsum (map (fun t => active_bytes (snd t)) (map (fun t => (ha_descriptor (fst t), snd t)) L))).
    + rewrite map_map. apply Z.eq_le_incl. f_equal. apply map_ext_in. intros t Ht. rewrite Forall_forall in HL.
      destruct (HL t) as (_ & _ & Ha & _); [by apply list_elem_of_In|]. cbn. unfold active_bytes. by rewrite Ha.
    + apply zsum_positions.
      * apply Forall_forall. intros d Hd. apply elem_vget in Hd as (i & Hi & _). unfold active_bytes. destruct (d_active d) eqn:Ha; [|lia].
        pose proof (active_descriptor _ _ _ Hwf Hi Ha). lia.
      * rewrite map_map. pose proof (ho_nodup _ Hc) as Hnd. cbn in Hnd. by rewrite map_map in Hnd.
      * apply Forall_map. eapply Forall_impl; [exact HL|]. intros t (_ & Hd & _). done.
  - rewrite <- (aw_occupied _ Hwf). pose proof (aw_total _ Hwf). pose proof (runs_total_bounds _ _ _ (aw_extents _ Hwf)) as [? _].
    unfold extents_total in *. lia.
Qed.

Definition seg_stride (c : consts) (p : nat) : Z := match store_layout c p with Some l => hl_page_stride l | None => 0 end.
Definition seg_bytes (c : consts) (sg : segment) : Z := seg_stride c (sg_store sg) * vsize (sg_slots sg).

Section Space.
Context {c : consts} {O : list ptok}.
Implicit Types (G : list segment) (s : host).

Lemma block_bytes G s sg :
  xinv c G O s -> sg ∈ G -> d_bytes (sg_descriptor sg) = seg_bytes c sg /\ 0 < seg_stride c (sg_store sg) /\ vsize (sg_slots sg) <= U32_MAX.
Proof.
  intros Hx Hin. pose proof (xv_tokens _ _ _ _ Hx) as H. destruct (gk_block _ _ (xinv_seg _ Hx Hin)) as [_ Hp (layout & Hlay & Hst & _)].
  destruct (hv_arena_const _ _ _ _ _ _ _ H) as (_ & Hlays & _). rewrite <- Hlays in Hlay. pose proof (own_wf (hv_arena _ _ _ _ _ _ _ H)) as Hwf.
  destruct (hv_arena _ _ _ _ _ _ _ H) as [_ HL]. rewrite Forall_forall in HL.
  specialize (HL (seg_allocation sg) ltac:(by apply list_elem_of_fmap_2)). cbn in HL.
  destruct (live_bytes _ _ _ Hwf HL Hlay) as [Hb Hu]. unfold seg_bytes, seg_stride. rewrite Hst, <- Hp.
  split; [done|]. split; [|lia]. apply (stride_bounds _ _ Hwf). by eapply vget_elem.
Qed.

Lemma total_bytes G s : xinv c G O s -> zsum (map (seg_bytes c) G) <= SIZE_MAX.
Proof.
  intros Hx. pose proof (xv_tokens _ _ _ _ Hx) as H. pose proof (own_bytes _ _ (hv_arena _ _ _ _ _ _ _ H)) as Hle.
  pose proof (aw_cap _ (own_wf (hv_arena _ _ _ _ _ _ _ H))). rewrite map_map in Hle.
  replace (map (seg_bytes c) G) with (map (fun sg => d_bytes (snd (seg_allocation sg))) G); [lia|].
  apply map_ext_in. intros sg Hin. apply (block_bytes G s); [done|by apply list_elem_of_In].
Qed.

(** Every extent in use has a node of its own. *)
Lemma segments_le_nodes G : Forall (seg_ok c) G -> vsize G <= vsize (concat (map seg_nodes G)).
Proof.
  induction 1 as [|sg G [_ [Hne _ _] _] _ IH]; [done|]. cbn. rewrite vsize_cons, vsize_app. unfold seg_nodes at 1.
  destruct (sg_slots sg) as [|sl slots]; [done|]. rewrite nodes_of_cons, vsize_cons. pose proof (vsize_nonneg (nodes_of (sg_index sg) (0 + 1) slots)). lia.
Qed.

Lemma length_chain index offset slots stop : length (chain index offset slots stop) = length slots.
Proof. revert offset. induction slots as [|sl slots IH]; intros offset; [done|]. cbn. by rewrite IH. Qed.

(** Descriptors are provisioned per page: they suffice for any partition. *)
Lemma descriptors_suffice G s sg f :
  xinv c (sg :: G) O s -> vsize (map seg_extent G) + retained_count (runs_of f (sg_slots sg)) <= c_cap c.
Proof.
  intros Hx. pose proof (retained_count_le f _ (runs_of_ok f (sg_slots sg))) as Hr. rewrite run_slots_of in Hr.
  pose proof (xv_segments _ _ _ _ Hx) as Hs. apply Forall_cons_1 in Hs as [_ Hs]. pose proof (segments_le_nodes _ Hs) as Hle.
  pose proof (xv_tokens _ _ _ _ Hx) as H. pose proof (stack_total (hv_nodes _ _ _ _ _ _ _ H)) as Ht. cbn in Ht. rewrite vsize_app in Ht.
  unfold seg_nodes at 1 in Ht. pose proof (sk_count _ _ _ _ _ _ (hv_nodes _ _ _ _ _ _ _ H)).
  unfold vsize in *. rewrite length_chain in Ht. rewrite length_map. lia.
Qed.
End Space.

(** * Partition of an extent *)
Lemma unreleasable_false pg : unreleasable pg = false -> pg_source_pins pg = 0 /\ droppable pg.
Proof.
  unfold unreleasable, droppable. intros Hu. apply orb_false_iff in Hu as [H1 H2]. simp_bool. split; [done|].
  destruct (pg_device_replica pg); [by left|]. cbn in H2. simp_bool. by right.
Qed.

Lemma existsb_filter f (slots : list slot) : existsb f slots = false -> filter (fun sl => f sl = false) slots = slots.
Proof.
  induction slots as [|sl slots IH]; cbn [existsb]; [done|]. intros [H1 H2]%orb_false_iff. rewrite filter_cons, decide_True by done. by rewrite IH.
Qed.

Lemma released_none f slots : existsb f slots = false -> released_count f slots = 0.
Proof.
  induction slots as [|sl slots IH]; cbn [existsb]; [done|]. intros [H1 H2]%orb_false_iff. unfold released_count in *.
  rewrite filter_cons, decide_False by congruence. by apply IH.
Qed.

(** The segments that replace [sg]: the pages [f] keeps, in their places. *)
Record kept_of (p : nat) (f : slot -> bool) (slots : list slot) (G' : list segment) : Prop := {
  kp_segments : Forall (fun sg => sg_published sg = true /\ sg_store sg = p) G';
  kp_slots : concat (map sg_slots G') = filter (fun sl => f sl = false) slots;
}.

Section Extent.
Context {c : consts} {O : list ptok} `{!HostStable (c_env c)}.
Implicit Types (G : list segment) (s : host).

Lemma released_nonzero f slots : existsb f slots = true -> runs_of f slots <> [].
Proof.
  intros He E. pose proof (run_slots_of f slots) as Hs. rewrite E in Hs. cbn in Hs. by subst.
Qed.

(** The guards of [partition_extent] hold for a published segment: its allocation has a page per
    member, *)
Lemma segment_guard s sg :
  arena_wf (he_arena s) -> allocation_live (he_arena s) (sg_allocation sg) (sg_descriptor sg) ->
  block_ok c (sg_store sg) (sg_descriptor sg) (sg_slots sg) ->
  negb (bool_decide (XPublished = XPublished)) || (vsize (sg_slots sg) =? 0) ||
  negb (allocation_page_count (he_arena s) (sg_allocation sg) =? vsize (sg_slots sg)) = false.
Proof using Type.
  intros Hwf Hal [Hne Hpages _]. destruct (allocation_live_handle _ _ _ Hwf Hal) as (Hv & _). destruct Hal as (_ & Hd & Ha & Hg).
  unfold allocation_page_count. pose proof (vget_Some_bounds _ _ _ Hd).
  rewrite Hv, (proj2 (Z.leb_gt _ _)), Hd, Ha, Hg, Z.eqb_refl, Hpages, Z.eqb_refl by lia. cbn.
  rewrite bool_decide_eq_true_2, (proj2 (Z.eqb_neq _ _)); [done| |done].
  destruct (sg_slots sg) as [|sl l]; [done|]. rewrite vsize_cons. pose proof (vsize_nonneg l). lia.
Qed.

(** and the bytes it may give back are within the arena. *)
Lemma released_bytes_fit G s sg f layout :
  xinv c (sg :: G) O s -> store_layout c (sg_store sg) = Some layout -> 0 < hl_page_stride layout ->
  released_count f (sg_slots sg) <= SIZE_MAX / hl_page_stride layout.
Proof using Type.
  intros Hx Hst Hstride. pose proof (released_count_le f (sg_slots sg)) as Hrel. pose proof (total_bytes _ _ Hx) as Ht.
  cbn [map] in Ht. rewrite zsum_cons in Ht. unfold seg_bytes at 1, seg_stride in Ht. rewrite Hst in Ht.
  assert (0 <= zsum (map (seg_bytes c) G)).
  { apply zsum_nonneg, Forall_map, Forall_forall. intros sg' Hin. destruct (block_bytes _ _ sg' Hx ltac:(by right)) as (_ & ? & _). cbn.
    unfold seg_bytes. pose proof (vsize_nonneg (sg_slots sg')). nia. }
  apply Z.div_le_lower_bound; nia.
Qed.

(** Published segments in place of the one that was partitioned. *)
Lemma xinv_replaced G G' s :
  Forall (seg_ok c) G -> Forall (seg_ok c) G' -> Forall (fun sg => sg_published sg = true) G' ->
  hres c (concat (map seg_nodes G') ++ concat (map seg_nodes G)) (map seg_extent G' ++ map seg_extent G)
    (map seg_allocation G' ++ map seg_allocation G) (concat (map (seg_reps c) G') ++ concat (map (seg_reps c) G))
    (concat (map seg_pins G) ++ O) s ->
  xinv c (G' ++ G) O s.
Proof using Type.
  intros HG HG' Hpub H. constructor; [by apply Forall_app|]. rewrite !map_app, !concat_app.
  assert (Hpins : concat (map seg_pins G') = []).
  { clear -Hpub. induction Hpub as [|sg' G' Hp _ IH]; [done|]. cbn. rewrite IH, app_nil_r. unfold seg_pins. by rewrite Hp. }
  by rewrite Hpins.
Qed.

(** The walk over the runs, after which an extent no run took is free again. *)
Lemma partition_walk G s sg f hole (bytes : Z) :
  Forall (seg_ok c) G -> seg_ok c sg -> existsb f (sg_slots sg) = true -> hole_ok hole ->
  vsize (sg_slots sg) <= U32_MAX -> vsize (map seg_extent G) + retained_count (runs_of f (sg_slots sg)) <= c_cap c ->
  hres c (nodes_of (sg_index sg) 0 (sg_slots sg) ++ concat (map seg_nodes G)) (open_extents (sg_index sg) hole false (map seg_extent G))
    ((sg_allocation sg, sg_descriptor sg) :: map seg_allocation G)
    (reps_of (sg_store sg) (capability_of c sg) 0 f (sg_slots sg) ++ concat (map (seg_reps c) G)) (concat (map seg_pins G) ++ O) s ->
  wp (assigned ← partition_runs (sg_index sg) (sg_store sg) (capability_of c sg) (to_runs 0 (runs_of f (sg_slots sg))) (sg_allocation sg) false;
      _ ← (if negb assigned
           then original ← ext_ref (sg_index sg);
                _ ← drop_allocation (ex_allocation original);
                _ ← put_ext (sg_index sg) (mkXExtent XFree (ex_generation original) None None kInvalidIndex kInvalidIndex 0);
                push_extent (sg_index sg)
           else mret tt);
      mret bytes)
    (fun bytes' s' => exists G', xinv c (G' ++ G) O s' /\ kept_of (sg_store sg) f (sg_slots sg) G' /\ bytes' = bytes) no_error s.
Proof using HostStable0.
  intros Hs [_ Hblock Hdist] Hany Hhole Hu Hroom H. pose proof (run_slots_of f (sg_slots sg)) as Hruns.
  pose proof (released_nonzero _ _ Hany) as Hne. apply wp_bind.
  eapply wp_conseq with (E := no_error);
    [eapply (partition_runs_slots (sg_index sg) hole (sg_store sg) (capability_of c sg) f Hhole (runs_of f (sg_slots sg)) 0 _ (sg_descriptor sg) false _ (map seg_extent G) (map seg_allocation G));
       rewrite ?Hruns; [apply runs_of_ok|done|done|lia|lia|exact Hroom|]| |done].
  { destruct (runs_of f (sg_slots sg)); [done|exact H]. }
  intros b s2 (G' & _ & Hg1 & Hg2 & Hg3 & H2). rewrite Hruns in Hg3.
  assert (Hpub : Forall (fun sg => sg_published sg = true) G') by (eapply Forall_impl; [exact Hg2|]; by intros ? [? _]).
  destruct b; cbn [negb open_extents] in *.
  - apply wp_bind, wp_ret, wp_ret. exists G'. split; [by apply xinv_replaced|by split].
  - rewrite <- Permutation_middle in H2. apply wp_bind, wp_bind. eapply wp_ext_ref; [exact H2|by left|]. destruct Hhole as [-> Hg].
    apply wp_bind, wp_drop_none. apply wp_bind. eapply wp_put_ext; [exact H2|]. intros s3 H3 _.
    eapply wp_push_extent; [exact H3|done|]. intros s4 H4 _. apply wp_ret. exists G'. split; [by apply xinv_replaced|by split].
Qed.

Lemma partition_extent_segment G s sg pred f :
  xinv c (sg :: G) O s -> sg_published sg = true -> decides s (sg_store sg) pred f (sg_slots sg) ->
  wp (partition_extent (sg_index sg) pred)
    (fun bytes s' => exists G', xinv c (G' ++ G) O s' /\ kept_of (sg_store sg) f (sg_slots sg) G' /\
       bytes = seg_stride c (sg_store sg) * released_count f (sg_slots sg)) no_error s.
Proof.
  intros Hx Hpub Hdec. pose proof (xv_tokens _ _ _ _ Hx) as H. destruct (xinv_this Hx) as [Hthis Hpos].
  pose proof (xv_segments _ _ _ _ Hx) as Hs. apply Forall_cons_1 in Hs as [Hok Hs]. pose proof Hok as [Hgen Hblock Hdist].
  destruct (block_bytes _ _ sg Hx ltac:(by left)) as (Hbytes & Hstride & Hu). pose proof (descriptors_suffice _ _ _ f Hx) as Hroom.
  pose proof (extent_at _ Hx (list_elem_of_here _ _)) as Hext. pose proof (vget_Some_bounds _ _ _ Hext) as Hib.
  pose proof Hblock as [_ _ (layout & _ & Hst & _)].
  assert (Hk : exists k, he_pages s !! sg_store sg = Some k).
  { pose proof Hst as Hst'. unfold store_layout in Hst'. rewrite <- (px_specs _ _ _ _ (hv_pages _ _ _ _ _ _ _ H)) in Hst'.
    rewrite list_lookup_fmap in Hst'. destruct (he_pages s !! sg_store sg); [by eexists|done]. }
  destruct Hk as [k Hk]. pose proof (page_layout_run (sg_store sg) k Hx Hk) as Hlay.
  rewrite Hst in Hlay. unfold seg_stride in *. rewrite Hst in *.
  cbn in H. unfold seg_pins at 1, seg_reps at 1, seg_extent at 1, seg_nodes at 1, seg_allocation at 1 in H. rewrite Hpub in H. cbn [app] in H.
  destruct (hv_arena _ _ _ _ _ _ _ H) as [Hclient Hlive]. apply Forall_cons_1 in Hlive as [Hal _]. cbn in Hal.
  unfold partition_extent. apply wp_bind, wp_get. apply wp_bind, wp_throw_if; [intros _|rewrite (proj2 (Z.leb_gt _ _)) by lia; done].
  apply wp_bind. eapply wp_ext_ref; [exact H|by left|]. cbn [ex_page_store ex_allocation extent_of ex_state ex_page_count ex_generation ex_head ex_tail].
  apply wp_bind, wp_throw_if; [intros _|by rewrite (segment_guard s sg (ho_wf _ Hclient) Hal Hblock)].
  apply wp_bind. eapply wp_pages_at; [exact Hk|]. rewrite Hthis. fold (capability_of c sg). apply wp_bind.
  assert (Escan : scan_members (he_store s) (kv_store k) (capability_of c sg) pred (Z.to_nat (vsize (sg_slots sg))) 0 (first_node (sg_slots sg)) (mkScan [] false 0 0) =
    Ok (scan_of f (sg_slots sg), kInvalidIndex)).
  { unfold vsize at 1. rewrite Nat2Z.id. exact (scan_members_slots (old := capability_of c sg) H Hk Hdec Hu (sg_slots sg) [] eq_refl). }
  unfold wp at 1, mlift. rewrite Escan. cbv beta iota. apply wp_bind, wp_throw_if; [intros _|done]. cbn [sc_any_release scan_of sc_retained_runs sc_released_pages sc_runs].
  destruct (existsb f (sg_slots sg)) eqn:Hany; cbn [negb].
  2:{ apply wp_ret. exists [sg]. split; [done|]. split.
      - constructor; [by apply Forall_singleton|]. cbn. rewrite app_nil_r. by rewrite existsb_filter.
      - rewrite released_none by done. lia. }
  pose proof (stack_total (hv_exts _ _ _ _ _ _ _ H)) as Htot. rewrite vsize_cons in Htot. pose proof (sk_count _ _ _ _ _ _ (hv_exts _ _ _ _ _ _ _ H)) as Hfc.
  pose proof (retained_count_nonneg (runs_of f (sg_slots sg))) as Hrn.
  apply wp_bind, wp_throw_if; [intros _|intros Hbad; exfalso; destruct (Z.eqb_spec (retained_count (runs_of f (sg_slots sg))) 0); simp_bool; lia].
  apply wp_bind. unfold wp at 1. rewrite Hlay. apply wp_bind, wp_throw_if; [intros _|].
  2:{ intros Hbad. simp_bool. pose proof (released_bytes_fit G s sg f layout Hx Hst Hstride). lia. }
  apply wp_bind. eapply wp_put_ext; [exact H|]. intros s1 H1 E1.
  eapply partition_walk; [done|done|done| |done|exact Hroom|]; [|eapply reps_restate; [exact H1|]].
  - constructor; [done|]. by apply increment_generation_spec.
  - intros sl Hin Hf. pose proof (slot_page_at _ _ _ _ _ _ H Hin) as (k' & pg & Hk' & _ & Hp & _).
    exists k', pg. rewrite E1. split; [done|]. split; [done|]. destruct (Hdec sl k' pg Hin Hk' Hp) as [_ Hun]. by destruct (unreleasable_false _ (Hun Hf)).
Qed.
End Extent.
