(* ===== verification/ExtentRelease.v ===== *)
(** Releasing pages from host extents: marking the pages, partitioning every
    extent that has one ([release_page_replicas]), and the collection of
    pages nobody refers to ([release_unreferenced]). *)

From S2P Require Import Prelude Tensor Layout PagedKv HostKvArena LogicalKv PageTokens HostExtents ExtentPages ExtentTokens ExtentSlots ExtentInv ExtentPartition.

(** * Slots with their stores *)
Notation pslot := (nat * slot)%type.

Definition pslots (G : list segment) : list pslot := concat (map (fun sg => map (pair (sg_store sg)) (sg_slots sg)) G).

Definition all_published (G : list segment) : Prop := Forall (fun sg => sg_published sg = true) G.

#[global] Instance pslots_Proper : Proper (Permutation ==> Permutation) pslots.
Proof. intros G G' HG. unfold pslots. by rewrite (Permutation_map _ HG). Qed.

Lemma pslots_app G G' : pslots (G ++ G') = pslots G ++ pslots G'.
Proof. unfold pslots. by rewrite map_app, concat_app. Qed.

Lemma elem_of_pslots G t : t ∈ pslots G <-> exists sg, sg ∈ G /\ fst t = sg_store sg /\ snd t ∈ sg_slots sg.
Proof.
  unfold pslots. rewrite list_elem_of_In, in_concat. setoid_rewrite <- list_elem_of_In. split.
  - intros (l & (sg & -> & Hin)%list_elem_of_fmap & Ht). apply list_elem_of_fmap in Ht as (sl & -> & Hsl). by exists sg.
  - intros (sg & Hin & E & Hsl). exists (map (pair (sg_store sg)) (sg_slots sg)). split; [by apply (list_elem_of_fmap_2 (fun sg => map (pair (sg_store sg)) (sg_slots sg)))|].
    destruct t as [p sl]. cbn in *. subst p. by apply list_elem_of_fmap_2.
Qed.

(** The pages of [kept_of]. *)
Lemma kept_pslots p f slots G' :
  kept_of p f slots G' -> pslots G' = map (pair p) (filter (fun sl => f sl = false) slots).
Proof.
  intros [Hs Hc]. rewrite <- Hc. clear Hc. induction Hs as [|sg G' [_ Ep] _ IH]; [done|]. unfold pslots in *. cbn. by rewrite IH, map_app, Ep.
Qed.

Lemma filter_pair p (F : nat -> slot -> bool) slots :
  filter (fun t : pslot => F (fst t) (snd t) = false) (map (pair p) slots) = map (pair p) (filter (fun sl => F p sl = false) slots).
Proof. induction slots as [|sl slots IH]; [done|]. cbn [map]. rewrite !filter_cons. cbn. case_decide; cbn [map]; by rewrite IH. Qed.

(** * Partitions one after the other *)
Section Each.
Context {c : consts} {O : list ptok} `{!HostStable (c_env c)} (pred : page_predicate) (F : nat -> slot -> bool) (T0 : list segment).
Implicit Types (G T U : list segment) (s : host).
Hypothesis Hdec : forall G s sg, xinv c G O s -> sg ∈ G -> sg ∈ T0 -> sg_published sg = true -> decides s (sg_store sg) pred (F (sg_store sg)) (sg_slots sg).

Notation kept U' T := (all_published U' /\ pslots U' ≡ₚ filter (fun t : pslot => F (fst t) (snd t) = false) (pslots T)).

Lemma partition_one T U s sg :
  xinv c (sg :: T ++ U) O s -> sg_published sg = true -> sg ∈ T0 ->
  wp (partition_extent (sg_index sg) pred)
    (fun bytes s' => exists U', xinv c (T ++ U' ++ U) O s' /\ all_published U' /\
       pslots U' = map (pair (sg_store sg)) (filter (fun sl => F (sg_store sg) sl = false) (sg_slots sg)) /\
       bytes = seg_stride c (sg_store sg) * released_count (F (sg_store sg)) (sg_slots sg)) no_error s.
Proof.
  intros Hx Hpub Hin. eapply wp_conseq with (E := no_error);
    [apply (partition_extent_segment _ _ sg pred (F (sg_store sg)) Hx Hpub); by eapply Hdec; [exact Hx|left|done|done]| |done].
  intros bytes s1 (U' & Hx1 & Hk & Hb). exists U'. split; [|split; [|split; [by apply kept_pslots|done]]].
  - eapply xinv_Proper; [..|exact Hx1]; [|done|done]. solve_Permutation.
  - eapply Forall_impl; [apply Hk|]. by intros sg' [? _].
Qed.

Lemma partition_each T : forall U s,
  xinv c (T ++ U) O s -> Forall (fun sg => sg_published sg = true /\ sg ∈ T0) T ->
  wp (mfor (fun index => _ ← partition_extent index pred; mret tt) (map sg_index T))
    (fun _ s' => exists U', xinv c (U' ++ U) O s' /\ kept U' T) no_error s.
Proof.
  induction T as [|sg T IH]; intros U s Hx HT.
  { exists []. split; [done|]. split; [constructor|done]. }
  apply Forall_cons_1 in HT as [[Hpub Hin] HT]. cbn [map mfor]. apply wp_bind, wp_bind.
  eapply wp_conseq with (E := no_error); [by apply (partition_one T U)| |done]. intros bytes s1 (U1 & Hx1 & Hp1 & Hs1 & _). apply wp_ret.
  eapply wp_conseq with (E := no_error); [by apply (IH _ _ Hx1)| |done]. intros u s2 (U2 & Hx2 & Hp2 & Hs2). exists (U2 ++ U1).
  rewrite <- app_assoc. split; [done|]. split; [by apply Forall_app|]. rewrite pslots_app, Hs2, Hs1.
  change (pslots (sg :: T)) with (map (pair (sg_store sg)) (sg_slots sg) ++ pslots T). rewrite filter_app, filter_pair. apply Permutation_app_comm.
Qed.

(** The same with the bytes added up. *)
Lemma released_bytes (f : slot -> bool) slots : vsize (filter (fun sl => f sl = false) slots) + released_count f slots = vsize slots.
Proof.
  unfold released_count. induction slots as [|sl slots IH]; [done|]. rewrite !filter_cons, vsize_cons. destruct (f sl) eqn:E; do 2 case_decide; try congruence; rewrite ?vsize_cons; lia.
Qed.

Definition slot_bytes (l : list pslot) : Z := zsum (map (fun t => seg_stride c (fst t)) l).

Lemma slot_bytes_app l k : slot_bytes (l ++ k) = slot_bytes l + slot_bytes k.
Proof. unfold slot_bytes. by rewrite map_app, zsum_app. Qed.

Lemma slot_bytes_pair p slots : slot_bytes (map (pair p) slots) = seg_stride c p * vsize slots.
Proof.
  unfold slot_bytes. rewrite map_map. cbn. induction slots as [|sl slots IH]; [unfold vsize, zsum; cbn; lia|].
  cbn [map]. rewrite zsum_cons, IH, vsize_cons. lia.
Qed.

Lemma slot_bytes_total G s : xinv c G O s -> slot_bytes (pslots G) <= SIZE_MAX.
Proof.
  intros Hx. pose proof (total_bytes _ _ Hx) as Ht. replace (slot_bytes (pslots G)) with (zsum (map (seg_bytes c) G)); [done|].
  clear. induction G as [|sg G IH]; [done|]. cbn [map]. rewrite zsum_cons, IH.
  change (pslots (sg :: G)) with (map (pair (sg_store sg)) (sg_slots sg) ++ pslots G). by rewrite slot_bytes_app, slot_bytes_pair.
Qed.

Lemma slot_bytes_nonneg G s : xinv c G O s -> 0 <= slot_bytes (pslots G).
Proof.
  intros Hx. apply zsum_nonneg, Forall_map, Forall_forall. intros t (sg & Hin & -> & _)%elem_of_pslots.
  destruct (block_bytes _ _ sg Hx Hin) as (_ & ? & _). cbn. lia.
Qed.
End Each.

Lemma partition_all_each {c O} `{!HostStable (c_env c)} F (T0 T : list segment) : forall U s released,
  (forall G s sg, xinv c G O s -> sg ∈ G -> sg ∈ T0 -> sg_published sg = true -> decides s (sg_store sg) unreferenced (F (sg_store sg)) (sg_slots sg)) ->
  xinv c (T ++ U) O s -> Forall (fun sg => sg_published sg = true /\ sg ∈ T0) T -> released + slot_bytes (c := c) (pslots (T ++ U)) <= SIZE_MAX ->
  wp (partition_all (map sg_index T) released)
    (fun total s' => exists U', xinv c (U' ++ U) O s' /\ all_published U' /\
       pslots U' ≡ₚ filter (fun t : pslot => F (fst t) (snd t) = false) (pslots T) /\
       total + slot_bytes (c := c) (pslots (U' ++ U)) = released + slot_bytes (c := c) (pslots (T ++ U))) no_error s.
Proof.
  induction T as [|sg T IH]; intros U s released Hdec Hx HT Hle.
  { exists []. split; [done|]. split; [constructor|]. done. }
  apply Forall_cons_1 in HT as [[Hpub Hin] HT]. cbn [map partition_all]. apply wp_bind.
  eapply wp_conseq with (E := no_error); [by apply (partition_one unreferenced F T0 Hdec T U)| |done]. intros bytes s1 (U1 & Hx1 & Hp1 & Hs1 & Hb).
  assert (Hsum : bytes + slot_bytes (c := c) (pslots (T ++ U1 ++ U)) = slot_bytes (c := c) (pslots ((sg :: T) ++ U))).
  { change (pslots ((sg :: T) ++ U)) with (map (pair (sg_store sg)) (sg_slots sg) ++ pslots (T ++ U)).
    rewrite !pslots_app, !slot_bytes_app, Hs1, !slot_bytes_pair. pose proof (released_bytes (F (sg_store sg)) (sg_slots sg)). nia. }
  pose proof (slot_bytes_nonneg _ _ Hx1). apply wp_bind, wp_throw_if; [intros _|intros Hbad; exfalso; simp_bool; lia].
  eapply wp_conseq with (E := no_error); [apply (IH _ _ (released + bytes) Hdec Hx1 HT); lia| |done].
  intros total s2 (U2 & Hx2 & Hp2 & Hs2 & Ht). exists (U2 ++ U1). rewrite <- app_assoc. split; [done|]. split; [by apply Forall_app|]. split; [|lia].
  rewrite pslots_app, Hs2, Hs1. change (pslots (sg :: T)) with (map (pair (sg_store sg)) (sg_slots sg) ++ pslots T).
  rewrite filter_app, filter_pair. apply Permutation_app_comm.
Qed.

(** * The pages before and after *)
Definition page_at (ks : list kv) (p : nat) (i : Z) : option Page :=
  match ks !! p with
  | Some k => (ls_pages (kv_store k)).[i]
  | None => None
  end.

(** The page as it was but for its host replica, or gone because nothing used it. *)
Definition unchanged_but_host (ks0 : list kv) (p : nat) (i : Z) (pg : Page) : Prop :=
  exists pg0, page_at ks0 p i = Some pg0 /\
    ((exists r, pg = set_host_replica r pg0) \/
     (pg_references pg0 = 0 /\ pg_source_pins pg0 = 0 /\ pg_device_replica pg0 = None /\ pg = vacated pg0)).

Definition since (ks0 : list kv) (specs : list DeviceKVPagePoolSpec) : penv := mkPenv specs (unchanged_but_host ks0).

#[global] Instance since_host ks0 specs : HostStable (since ks0 specs).
Proof.
  constructor; intros p i pg.
  - intros r Hocc (pg0 & H0 & [[r0 ->]|(_ & _ & _ & ->)]); [|done]. exists pg0. split; [done|]. left. by exists r.
  - intros Hocc (pg0 & H0 & [[r0 ->]|(_ & _ & _ & ->)]) ? ? ?; [|done]. exists pg0. split; [done|]. right. done.
Qed.

Definition with_env (e : penv) (c : consts) : consts := mkConsts (c_this c) (c_cap c) (c_arena c) (c_backing c) (c_layouts c) e (c_marks c).
Definition with_page (phi : nat -> Z -> Page -> Prop) (c : consts) : consts := with_env (mkPenv (pe_specs (c_env c)) phi) c.

(** What is said of the pages can be replaced by what is true of them. *)
Lemma xinv_with_page c G O s phi :
  xinv c G O s -> (forall p i pg, page_at (he_pages s) p i = Some pg -> phi p i pg) -> xinv (with_page phi c) G O s.
Proof.
  intros [Hs [H1 H2 H3 H4 H5 H6 H7 [P1 P2 P3 P4 P5 P6 P7 P8]]] Hphi. constructor.
  - eapply Forall_impl; [exact Hs|]. intros sg [Hg [Hb1 Hb2 Hb3] Hd]. by constructor.
  - constructor; try done. constructor; try done. intros p k i pg Hk Hp. apply Hphi. unfold page_at. by rewrite Hk.
Qed.

(** From now on: the snapshot of the present pages. *)
Lemma xinv_since c G O s : xinv c G O s -> xinv (with_page (unchanged_but_host (he_pages s)) c) G O s.
Proof.
  intros H. apply xinv_with_page; [done|]. intros p i pg Hp. exists pg. split; [done|]. left. exists (pg_host_replica pg). by destruct pg.
Qed.

Section Segments.
Context {c : consts} {O : list ptok}.
Implicit Types (G : list segment) (s : host).

(** The page of a slot of a published segment. *)
Lemma published_page G s sg sl :
  xinv c G O s -> sg ∈ G -> sg_published sg = true -> sl ∈ sg_slots sg ->
  exists k pg, he_pages s !! sg_store sg = Some k /\ page_valid (kv_store k) (sl_page sl) = true /\
    (ls_pages (kv_store k)).[slot_index sl] = Some pg /\ pg_occupied pg = true /\ sl_epoch sl = pg_content_epoch pg /\
    exists j, sg_slots sg !! j = Some sl /\ pg_host_replica pg = Some (replica_of (capability_of c sg) (Z.of_nat j) sl).
Proof.
  intros Hx Hin Hpub Hsl. destruct (seg_split _ Hin) as [G' HG]. rewrite HG in Hx. pose proof (xv_tokens _ _ _ _ Hx) as H. cbn in H.
  unfold seg_reps at 1 in H. rewrite Hpub in H. destruct (slot_page_at _ _ _ _ _ _ H Hsl) as (k & pg & Hk & Hv & Hp & He & j & Hj & Hr).
  exists k, pg. split; [done|]. split; [done|]. split; [done|]. split; [by eapply page_valid_occupied|]. split; [done|]. by exists j.
Qed.

(** A host replica is that of a slot. *)
Lemma replica_slot G s p k h pg r :
  xinv c G O s -> he_pages s !! p = Some k -> page_valid (kv_store k) h = true -> (ls_pages (kv_store k)).[lh_index h] = Some pg ->
  pg_host_replica pg = Some r ->
  exists sg j sl, sg ∈ G /\ sg_published sg = true /\ sg_store sg = p /\ sg_slots sg !! j = Some sl /\ sl_page sl = h /\
    r = replica_of (capability_of c sg) (Z.of_nat j) sl.
Proof.
  intros Hx Hk Hv Hp Hr. pose proof (hv_pages _ _ _ _ _ _ _ (xv_tokens _ _ _ _ Hx)) as Htok.
  assert (Hin : (p, lh_index h) ∈ map rt_key (concat (map (seg_reps c) G))) by (eapply (px_owned _ _ _ _ Htok); [done|done|by rewrite Hr]).
  apply list_elem_of_fmap in Hin as (t & Hkey & Ht). pose proof Ht as Ht'. apply list_elem_of_In, in_concat in Ht as (l & Hl & Ht).
  apply list_elem_of_In in Hl, Ht. apply list_elem_of_fmap in Hl as (sg & -> & Hin).
  unfold seg_reps in Ht. destruct (sg_published sg) eqn:Hpub; [|by apply elem_of_nil in Ht].
  apply elem_of_reps in Ht as (j & sl & Hj & ->). exists sg, j, sl. unfold rt_key in Hkey. cbn in Hkey. injection Hkey as Ep Ei.
  destruct (ptoks_held _ _ _ _ Htok Ht') as (k' & pg' & Hk' & Hv' & Hp' & [Hr' _ _]). cbn in Hk', Hv', Hp', Hr'. rewrite <- Ep, Hk in Hk'. injection Hk' as <-.
  rewrite <- Ei, Hp in Hp'. injection Hp' as <-. split; [done|]. split; [done|]. split; [done|]. split; [done|].
  split; [by eapply valid_unique|]. rewrite Z.add_0_l in Hr'. congruence.
Qed.

(** The indices and nodes of the segments are distinct. *)
Lemma index_nodup G s : xinv c G O s -> NoDup (map sg_index G).
Proof. intros Hx. pose proof (stack_nodup (hv_exts _ _ _ _ _ _ _ (xv_tokens _ _ _ _ Hx))) as Hn. by rewrite map_map in Hn. Qed.

Lemma index_unique G s sg sg' : xinv c G O s -> sg ∈ G -> sg' ∈ G -> sg_index sg = sg_index sg' -> sg = sg'.
Proof.
  intros Hx (i & Hi)%list_elem_of_lookup (j & Hj)%list_elem_of_lookup Heq. pose proof (index_nodup _ _ Hx) as Hn.
  assert (i = j); [|congruence]. eapply NoDup_lookup; [exact Hn|by rewrite lookup_map, Hi|rewrite lookup_map, Hj; cbn; by rewrite Heq].
Qed.

(** The segments with given indices, in their order. *)
Lemma pick_segments G s indices :
  xinv c G O s -> NoDup indices -> (forall i, i ∈ indices -> exists sg, sg ∈ G /\ sg_index sg = i) ->
  exists T U, G ≡ₚ T ++ U /\ map sg_index T = indices.
Proof.
  intros Hx Hnd. assert (Huniq : NoDup (map sg_index G)) by (by eapply index_nodup). clear Hx. revert G Huniq.
  induction indices as [|i indices IH]; intros G Huniq Hall; [by exists [], G|]. apply NoDup_cons in Hnd as [Hni Hnd].
  destruct (Hall i ltac:(by left)) as (sg & Hin & Hi). apply list_elem_of_split in Hin as (l1 & l2 & ->).
  destruct (IH Hnd (l1 ++ l2)) as (T & U & HG & HT).
  - rewrite <- (Permutation_middle l1 l2 sg) in Huniq. cbn in Huniq. by apply NoDup_cons in Huniq as [_ ?].
  - intros i' Hi'. destruct (Hall i' ltac:(by right)) as (sg' & Hin' & Hix). exists sg'. split; [|done].
    rewrite elem_of_app, elem_of_cons in Hin'. rewrite elem_of_app. destruct Hin' as [?|[->|?]]; [by left| |by right]. congruence.
  - exists (sg :: T), U. split; [|cbn; congruence]. rewrite <- Permutation_middle, HG. done.
Qed.
End Segments.

(** * Collecting pages nobody refers to *)
Definition unused (pg : Page) : bool := (pg_references pg =? 0) && (pg_source_pins pg =? 0).
Definition unused_at (ks : list kv) (p : nat) (sl : slot) : bool :=
  match page_at ks p (slot_index sl) with
  | Some pg => unused pg
  | None => false
  end.

Lemma unreferenced_decides c O ks0 G s sg :
  xinv (with_page (unchanged_but_host ks0) c) G O s -> sg ∈ G -> sg_published sg = true ->
  decides s (sg_store sg) unreferenced (unused_at ks0 (sg_store sg)) (sg_slots sg).
Proof.
  intros Hx Hin Hpub sl k pg Hsl Hk Hp. destruct (published_page _ _ _ _ Hx Hin Hpub Hsl) as (k' & pg' & Hk' & _ & Hp' & Hocc & _). simplify_eq.
  destruct (px_page _ _ _ _ (hv_pages _ _ _ _ _ _ _ (xv_tokens _ _ _ _ Hx)) _ _ _ _ Hk Hp) as (pg0 & H0 & [[r ->]|(_ & _ & _ & ->)]); [|done].
  unfold unused_at. rewrite H0. split; [done|]. unfold unused, unreleasable. cbn. intros Hu. simp_bool.
  match goal with H : pg_references _ = 0 |- _ => rewrite H end. match goal with H : pg_source_pins _ = 0 |- _ => rewrite H end. by destruct (has _).
Qed.

Lemma published_extents_segments c O G s :
  xinv c G O s -> exists T U, G ≡ₚ T ++ U /\ map sg_index T = published_extents (he_store s) /\
    all_published T /\ Forall (fun sg => sg_published sg = false) U.
Proof.
  intros Hx. assert (Hiff : forall i, i ∈ published_extents (he_store s) <-> exists sg, sg ∈ G /\ sg_published sg = true /\ sg_index sg = i).
  { intros i. unfold published_extents. rewrite list_elem_of_filter, elem_of_seqZ. split.
    - intros [Hp _]. destruct ((xs_extents (he_store s)).[i]) as [e|] eqn:He; [|done]. simp_bool.
      match goal with H : bool_decide _ = true |- _ => apply bool_decide_eq_true in H; rename H into Hst end.
      destruct (extent_in_use _ _ Hx He) as (sg & Hin & Heq); [by rewrite Hst|]. exists sg. split; [done|]. unfold seg_extent, extent_of in Heq.
      injection Heq as Ei Ee. subst e. cbn in Hst. by destruct (sg_published sg).
    - intros (sg & Hin & Hpub & <-). pose proof (extent_at _ Hx Hin) as He. pose proof (vget_Some_bounds _ _ _ He). split; [|lia].
      rewrite He. cbn. by rewrite Hpub. }
  destruct (pick_segments G s (published_extents (he_store s)) Hx) as (T & U & HG & HT).
  { apply NoDup_filter, NoDup_seqZ. }
  { intros i (sg & ? & _ & ?)%Hiff. by exists sg. }
  exists T, U. split; [done|]. split; [done|]. split; apply Forall_forall; intros sg Hin.
  - assert (sg_index sg ∈ published_extents (he_store s)) as (sg' & Hin' & Hpub & Heq)%Hiff by (rewrite <- HT; by apply list_elem_of_fmap_2).
    assert (sg' = sg) as ->; [|done]. eapply index_unique; [exact Hx|done| |done]. rewrite HG. apply elem_of_app. by left.
  - destruct (sg_published sg) eqn:Hpub; [|done]. exfalso.
    assert (Hi : sg_index sg ∈ map sg_index T). { rewrite HT. apply Hiff. exists sg. split; [|done]. rewrite HG. apply elem_of_app. by right. }
    pose proof (index_nodup _ _ Hx) as Hn. rewrite HG, map_app in Hn. apply NoDup_app in Hn as (_ & Hn & _). apply (Hn _ Hi). by apply list_elem_of_fmap_2.
Qed.

(** [release_unreferenced] always returns; what it leaves are the slots of the
    pages in use, in their places, and every page but for its replica. *)
Lemma release_unreferenced_segments c O G s :
  xinv c G O s ->
  wp release_unreferenced
    (fun _ s' => exists T U U', G ≡ₚ T ++ U /\ all_published T /\ Forall (fun sg => sg_published sg = false) U /\ all_published U' /\
       xinv (with_page (unchanged_but_host (he_pages s)) c) (U' ++ U) O s' /\
       pslots U' ≡ₚ filter (fun t : pslot => unused_at (he_pages s) (fst t) (snd t) = false) (pslots T)) no_error s.
Proof.
  intros Hx0. destruct (published_extents_segments _ _ _ _ Hx0) as (T & U & HG & HT & HpT & HpU). apply xinv_since in Hx0 as Hx.
  set (c' := with_page (unchanged_but_host (he_pages s)) c) in *. rewrite HG in Hx.
  apply wp_nothrow. apply wp_bind, wp_get. rewrite <- HT.
  eapply wp_conseq with (E := no_error); [apply (partition_all_each (c := c') (O := O) (unused_at (he_pages s)) T T U s 0)| |done].
  - intros G1 s1 sg Hx1 Hin _ Hpub. by apply (unreferenced_decides c O (he_pages s) G1 s1 sg).
  - done.
  - apply Forall_forall. intros sg Hin. split; [|done]. unfold all_published in HpT. rewrite Forall_forall in HpT. by apply HpT.
  - rewrite Z.add_0_l. by eapply slot_bytes_total.
  - intros total s1 (U' & Hx1 & Hp1 & Hs1 & _). exists T, U, U'. done.
Qed.
