(* ===== verification/ExtentMarks.v ===== *)
(** Releasing chosen pages from host extents ([release_page_replicas]): the
    pages are marked through stamps in two vectors, then every extent with a
    marked page is partitioned. *)

From S2P Require Import Prelude Tensor Layout PagedKv HostKvArena LogicalKv PageTokens HostExtents ExtentPages ExtentTokens ExtentSlots ExtentInv ExtentPartition ExtentRelease.

Notation marks := (list Z * list Z * list Z * Z)%type.

Definition m_nodes (m : marks) : list Z := let '(rm, _, _, _) := m in rm.
Definition m_extents (m : marks) : list Z := let '(_, em, _, _) := m in em.
Definition m_affected (m : marks) : list Z := let '(_, _, affected, _) := m in affected.
Definition m_stamp (m : marks) : Z := let '(_, _, _, stamp) := m in stamp.

(** * Stamps *)
Definition stamped (l : list Z) (stamp i : Z) : Prop := l.[i] = Some stamp.

Record stamps_ok (cap stamp : Z) (l : list Z) : Prop := {
  st_size : vsize l = cap;
  st_bound : Forall (fun x => 0 <= x <= stamp) l;
}.

Record marks_ok (cap : Z) (m : marks) : Prop := {
  mo_stamp : 0 <= m_stamp m <= U32_MAX;
  mo_nodes : stamps_ok cap (m_stamp m) (m_nodes m);
  mo_extents : stamps_ok cap (m_stamp m) (m_extents m);
}.

Lemma stamps_set cap stamp l i : stamps_ok cap stamp l -> 0 <= stamp -> stamps_ok cap stamp (l.[i <- stamp]).
Proof.
  intros [H1 H2] H0. constructor; [by rewrite vsize_vset|]. unfold vset. destruct (0 <=? i); [|done]. apply Forall_insert; [done|lia].
Qed.

Lemma stamped_set l stamp i j : 0 <= i < vsize l -> stamped (l.[i <- stamp]) stamp j <-> j = i \/ stamped l stamp j.
Proof.
  intros Hi. unfold stamped. destruct (decide (j = i)) as [->|Hne]; [rewrite vget_vset_eq by done; tauto|]. rewrite vget_vset_ne by done. naive_solver.
Qed.

(** A new stamp marks nothing. *)
Lemma stamps_fresh cap stamp l i : stamps_ok cap stamp l -> ~ stamped l (stamp + 1) i.
Proof. intros [_ Hb] Hi. pose proof (Forall_vget _ _ _ _ Hb Hi) as Hx. cbn in Hx. lia. Qed.

Lemma stamps_grow cap stamp stamp' l : stamps_ok cap stamp l -> stamp <= stamp' -> stamps_ok cap stamp' l.
Proof. intros [H1 H2] Hle. constructor; [done|]. eapply Forall_impl; [exact H2|]. cbn. intros. lia. Qed.

Lemma stamps_cleared cap stamp l : stamps_ok cap stamp l -> stamps_ok cap 0 (map (fun _ => 0) l).
Proof. intros [H1 _]. constructor; [by unfold vsize in *; rewrite length_map|]. apply Forall_map, Forall_forall. cbn. intros. lia. Qed.

(** * Marked slots *)
Definition page_of (t : pslot) : ptok := (fst t, sl_page (snd t)).
Definition pnode (t : pslot) : Z := sl_node (snd t).

(** [M] are the slots marked so far. *)
Record marking (cap : Z) (m : marks) (G : list segment) (M : list pslot) : Prop := {
  mk_ok : marks_ok cap m;
  mk_nodes : forall n, stamped (m_nodes m) (m_stamp m) n <-> n ∈ map pnode M;
  mk_extents : forall i, stamped (m_extents m) (m_stamp m) i <-> i ∈ m_affected m;
  mk_nodup : NoDup (m_affected m);
  mk_affected : forall i, i ∈ m_affected m <->
                  exists sg sl, sg ∈ G /\ sl ∈ sg_slots sg /\ (sg_store sg, sl) ∈ M /\ sg_index sg = i;
  mk_slots : forall t, t ∈ M -> exists sg, sg ∈ G /\ sg_published sg = true /\ fst t = sg_store sg /\ snd t ∈ sg_slots sg;
}.

Definition remark (m : marks) (c : consts) : consts :=
  mkConsts (c_this c) (c_cap c) (c_arena c) (c_backing c) (c_layouts c) (c_env c) m.

Lemma xinv_remark c G O s rm em affected stamp :
  xinv c G O s -> xinv (remark (rm, em, affected, stamp) c) G O (set_store (with_marks rm em affected stamp (he_store s)) s).
Proof.
  intros [Hs [H1 H2 H3 H4 H5 H6 H7 H8]]. constructor; [|by constructor].
  eapply Forall_impl; [exact Hs|]. intros sg [Hg [Hb1 Hb2 Hb3] Hd]. by constructor.
Qed.

Lemma xinv_marks c G O s : xinv c G O s -> marks_of (he_store s) = c_marks c.
Proof. intros [_ H]. apply H. Qed.

Lemma remark_same c G O s : xinv c G O s -> xinv (remark (marks_of (he_store s)) c) G O s.
Proof. intros H. rewrite (xinv_marks _ _ _ _ H). by destruct c. Qed.

Lemma marking_start cap m G :
  marks_ok cap m -> m_affected m = [] -> (forall n, ~ stamped (m_nodes m) (m_stamp m) n) -> (forall i, ~ stamped (m_extents m) (m_stamp m) i) ->
  marking cap m G [].
Proof.
  intros Hok Ha Hn He. constructor; rewrite ?Ha; [done| | |constructor| |by intros t ?%elem_of_nil].
  - intros n. split; [by intros ?%Hn|by intros ?%elem_of_nil].
  - intros i. split; [by intros ?%He|by intros ?%elem_of_nil].
  - intros i. split; [by intros ?%elem_of_nil|]. intros (sg & sl & _ & _ & ?%elem_of_nil & _). done.
Qed.

Lemma begin_release_marks_run c G O s :
  xinv c G O s -> marks_ok (c_cap c) (marks_of (he_store s)) ->
  wp begin_release_marks
    (fun _ s' => he_pages s' = he_pages s /\ he_arena s' = he_arena s /\
       xinv (remark (marks_of (he_store s')) c) G O s' /\ marking (c_cap c) (marks_of (he_store s')) G []) no_error s.
Proof.
  intros Hx [Hst Hn He]. cbn in Hst, Hn, He. unfold begin_release_marks, on_store. apply wp_modify. split; [done|]. split; [done|]. cbv zeta.
  destruct (wrap32 (xs_release_stamp (he_store s) + 1) =? 0) eqn:E.
  - split; [by apply xinv_remark|]. pose proof (stamps_cleared _ _ _ Hn) as Hn'. pose proof (stamps_cleared _ _ _ He) as He'.
    apply marking_start; cbn; [|done|intros n; by apply (stamps_fresh _ _ _ _ Hn')|intros n; by apply (stamps_fresh _ _ _ _ He')].
    constructor; cbn; [unfold U32_MAX; lia|eapply stamps_grow; [done|lia]..].
  - split; [by apply xinv_remark|]. apply Z.eqb_neq in E.
    assert (Es : wrap32 (xs_release_stamp (he_store s) + 1) = xs_release_stamp (he_store s) + 1 /\ xs_release_stamp (he_store s) + 1 <= U32_MAX).
    { destruct (decide (xs_release_stamp (he_store s) = U32_MAX)) as [Eq|Hne]; [by rewrite Eq in E|]. split; [apply wrap32_small|]; lia. }
    destruct Es as [-> Hle]. apply marking_start; cbn; [|done|intros n; by eapply stamps_fresh|intros n; by eapply stamps_fresh].
    constructor; cbn; [lia|eapply stamps_grow; [done|lia]..].
Qed.

(** * Marking a page *)
Definition release_test (last_reference : bool) (pg : Page) : bool :=
  has (pg_host_replica pg) && (pg_source_pins pg =? 0) &&
  (if last_reference then pg_references pg =? 1 else has (pg_device_replica pg) || (pg_references pg =? 0)).

Section Marking.
Context {c : consts} {O : list ptok}.
Implicit Types (G : list segment) (s : host) (M : list pslot).

Lemma node_at G s sg j sl :
  xinv c G O s -> sg ∈ G -> sg_slots sg !! j = Some sl ->
  (xs_memberships (he_store s)).[sl_node sl] =
    Some (mkMember (sl_page sl) (sl_epoch sl) (sl_coverage sl) (sg_index sg) (Z.of_nat j) (first_node (drop (S j) (sg_slots sg)))).
Proof.
  intros Hx Hin Hj. apply (stack_at _ _ (hv_nodes _ _ _ _ _ _ _ (xv_tokens _ _ _ _ Hx))).
  apply list_elem_of_In, in_concat. exists (seg_nodes sg). split; apply list_elem_of_In; [by apply list_elem_of_fmap_2|].
  apply elem_of_nodes. by exists j, sl.
Qed.

(** A node belongs to one slot of one segment. *)
Lemma node_unique G s sg sg' sl sl' :
  xinv c G O s -> sg ∈ G -> sg' ∈ G -> sl ∈ sg_slots sg -> sl' ∈ sg_slots sg' -> sl_node sl = sl_node sl' -> sg = sg' /\ sl = sl'.
Proof.
  intros Hx Hin Hin' (j & Hj)%list_elem_of_lookup (j' & Hj')%list_elem_of_lookup Hn.
  pose proof (node_at _ _ _ _ _ Hx Hin Hj) as H1. pose proof (node_at _ _ _ _ _ Hx Hin' Hj') as H2. rewrite Hn, H2 in H1.
  injection H1 as _ _ _ Hi Hjj _. assert (sg = sg') as <- by (symmetry; by eapply index_unique). split; [done|].
  assert (j' = j) as -> by lia. congruence.
Qed.

(** The replica of a slot passes the test of its membership. *)
Lemma replica_is_member_slot G s sg j sl :
  xinv c G O s -> sg ∈ G -> sg_published sg = true -> sg_slots sg !! j = Some sl ->
  replica_is_member (he_store s) (sg_store sg) (sl_page sl) (replica_of (capability_of c sg) (Z.of_nat j) sl) = true.
Proof.
  intros Hx Hin Hpub Hj. unfold replica_is_member. cbn. rewrite (proj2 (extent_valid_iff _ Hx)) by (by exists sg).
  rewrite (extent_at _ Hx Hin), (node_at _ _ _ _ _ Hx Hin Hj). cbn. rewrite !bool_decide_eq_true_2, !Z.eqb_refl by done.
  rewrite (proj2 (Z.ltb_lt _ _)); [done|]. apply lookup_lt_Some in Hj. unfold vsize. lia.
Qed.

(** A page that passes is that of a slot. *)
Lemma release_test_slot G s p k h last_reference :
  xinv c G O s -> he_pages s !! p = Some k -> page_test (kv_store k) h (release_test last_reference) = true ->
  exists pg sg j sl, page_valid (kv_store k) h = true /\ (ls_pages (kv_store k)).[lh_index h] = Some pg /\
    pg_host_replica pg = Some (replica_of (capability_of c sg) (Z.of_nat j) sl) /\ release_test last_reference pg = true /\
    sg ∈ G /\ sg_published sg = true /\ sg_store sg = p /\ sg_slots sg !! j = Some sl /\ sl_page sl = h.
Proof.
  intros Hx Hk Ht. unfold page_test in Ht. destruct (page_valid (kv_store k) h) eqn:Hv; [|done]. cbn in Ht.
  destruct ((ls_pages (kv_store k)).[lh_index h]) as [pg|] eqn:Hp; [|done]. destruct (pg_host_replica pg) as [r|] eqn:Hr; [|by unfold release_test in Ht; rewrite Hr in Ht].
  destruct (replica_slot _ _ _ _ _ _ _ Hx Hk Hv Hp Hr) as (sg & j & sl & H1 & H2 & H3 & H4 & H5 & ->). by exists pg, sg, j, sl.
Qed.

Lemma release_guard G s p k h (last_reference : bool) :
  xinv c G O s -> he_pages s !! p = Some k ->
  (if last_reference then can_release_last_reference (kv_store k) h else can_release_page_replica (he_store s) p (kv_store k) h) =
  page_test (kv_store k) h (release_test last_reference).
Proof.
  intros Hx Hk. destruct last_reference; [done|]. unfold can_release_page_replica, page_test.
  destruct (page_valid (kv_store k) h) eqn:Hv; [|done]. cbn. destruct ((ls_pages (kv_store k)).[lh_index h]) as [pg|] eqn:Hp; [|done].
  unfold release_test. destruct (pg_host_replica pg) as [r|] eqn:Hr; [|done].
  destruct (replica_slot _ _ _ _ _ _ _ Hx Hk Hv Hp Hr) as (sg & j & sl & H1 & H2 & <- & H4 & <- & ->).
  rewrite (replica_is_member_slot _ _ _ _ _ Hx H1 H2 H4), andb_true_r. done.
Qed.

(** Another slot is marked. *)
Definition mark (node index : Z) (m : marks) : marks :=
  let '(rm, em, affected, stamp) := m in
  if bool_decide (em.[index] = Some stamp) then (rm.[node <- stamp], em, affected, stamp)
  else (rm.[node <- stamp], em.[index <- stamp], affected ++ [index], stamp).

Lemma marking_mark cap m G M sg sl :
  marking cap m G M -> sg ∈ G -> sg_published sg = true -> sl ∈ sg_slots sg -> 0 <= sl_node sl < cap -> 0 <= sg_index sg < cap ->
  (forall sg', sg' ∈ G -> sl ∈ sg_slots sg' -> sg' = sg) ->
  marking cap (mark (sl_node sl) (sg_index sg) m) G (M ++ [(sg_store sg, sl)]).
Proof.
  destruct m as [[[rm em] affected] stamp]. intros [[Hs Hn He] Hno Hex Hnd Haff Hsl] Hin Hpub Hel Hr Hri Huniq. cbn in *.
  assert (Hnodes : forall n, stamped (rm.[sl_node sl <- stamp]) stamp n <-> n ∈ map pnode (M ++ [(sg_store sg, sl)])).
  { intros n. rewrite stamped_set by (by rewrite (st_size _ _ _ Hn)). rewrite map_app, elem_of_app, Hno. cbn. rewrite list_elem_of_singleton. tauto. }
  assert (Hslots : forall t, t ∈ M ++ [(sg_store sg, sl)] -> exists sg, sg ∈ G /\ sg_published sg = true /\ fst t = sg_store sg /\ snd t ∈ sg_slots sg).
  { intros t [Ht| ->%list_elem_of_singleton]%elem_of_app; [by apply Hsl|]. by exists sg. }
  assert (Hown : forall i, (exists sg0 sl0, sg0 ∈ G /\ sl0 ∈ sg_slots sg0 /\ (sg_store sg0, sl0) ∈ M ++ [(sg_store sg, sl)] /\ sg_index sg0 = i) <->
    i = sg_index sg \/ i ∈ affected).
  { intros i. rewrite Haff. split.
    - intros (sg0 & sl0 & H1 & H2 & [H3|H3%list_elem_of_singleton]%elem_of_app & <-); [right; by exists sg0, sl0|].
      injection H3 as _ ->. left. f_equal. by apply Huniq.
    - intros [->|(sg0 & sl0 & ? & ? & ? & <-)]; [exists sg, sl|exists sg0, sl0]; repeat split; try done; apply elem_of_app; [right; by left|by left]. }
  unfold mark. destruct (bool_decide_reflect (em.[sg_index sg] = Some stamp)) as [Hm|Hm].
  - constructor; cbn; try done; [constructor; cbn; [done|by apply stamps_set; [|lia]|done]|].
    intros i. rewrite Hown. split; [by right|]. intros [->|?]; [by apply Hex|done].
  - constructor; cbn; try done; [constructor; cbn; [done|by apply stamps_set; [|lia]..]| | |].
    + intros i. rewrite stamped_set by (by rewrite (st_size _ _ _ He)). rewrite elem_of_app, list_elem_of_singleton, Hex. tauto.
    + apply NoDup_app. split; [done|]. split; [|apply NoDup_singleton]. intros i Hi ->%list_elem_of_singleton. by apply Hm, Hex.
    + intros i. rewrite Hown, elem_of_app, list_elem_of_singleton. tauto.
Qed.
End Marking.

(** ** The calls that mark *)
Section Calls.
Context {O : list ptok}.
Implicit Types (c : consts) (G : list segment) (s : host) (M : list pslot).

(** The state with slots [M] marked; [c] up to its marks. *)
Record marked_state c G M (s0 s : host) : Prop := {
  ms_pages : he_pages s = he_pages s0;
  ms_arena : he_arena s = he_arena s0;
  ms_inv : xinv (remark (marks_of (he_store s)) c) G O s;
  ms_marking : marking (c_cap c) (marks_of (he_store s)) G M;
}.

(** A slot is marked when its page is. *)
Lemma page_marked c cap m G M s sg sl :
  xinv c G O s -> marking cap m G M -> sg ∈ G -> sg_published sg = true -> sl ∈ sg_slots sg ->
  sl_node sl ∈ map pnode M <-> (sg_store sg, sl_page sl) ∈ map page_of M.
Proof.
  intros Hx Hm Hin Hpub Hel. split.
  - intros (t & Hn & Ht')%list_elem_of_fmap. destruct (mk_slots _ _ _ _ Hm _ Ht') as (sg' & Hin' & _ & Hf & Hs').
    destruct (node_unique _ _ _ _ _ _ Hx Hin Hin' Hel Hs' Hn) as [<- E]. apply list_elem_of_fmap. exists t. unfold page_of. by rewrite Hf, <- E.
  - intros (t & Hpg & Ht')%list_elem_of_fmap. destruct (mk_slots _ _ _ _ Hm _ Ht') as (sg' & Hin' & Hpub' & Hf & Hs').
    unfold page_of in Hpg. injection Hpg as Hst' Hpage.
    destruct (published_page _ _ _ _ Hx Hin Hpub Hel) as (k & pg & Hk & _ & Hp & _ & _ & j & _ & Hr).
    destruct (published_page _ _ _ _ Hx Hin' Hpub' Hs') as (k' & pg' & Hk' & _ & Hp' & _ & _ & j' & _ & Hr').
    rewrite <- Hf, <- Hst', Hk in Hk'. injection Hk' as <-. unfold slot_index in Hp, Hp'. rewrite <- Hpage, Hp in Hp'. injection Hp' as <-.
    rewrite Hr in Hr'. injection Hr' as _ _ _ Hnd _ _. apply list_elem_of_fmap. by exists t.
Qed.

Lemma mark_release_run c G M s0 s p k h last_reference :
  marked_state c G M s0 s -> he_pages s0 !! p = Some k ->
  wp (mark_release p h last_reference)
    (fun b s' => if b
       then page_test (kv_store k) h (release_test last_reference) = true /\ (p, h) ∉ map page_of M /\
            exists sl, sl_page sl = h /\ marked_state c G (M ++ [(p, sl)]) s0 s'
       else (page_test (kv_store k) h (release_test last_reference) = false \/ (p, h) ∈ map page_of M) /\ s' = s) no_error s.
Proof.
  intros [Ep Ea Hx Hm] Hk. rewrite <- Ep in Hk. unfold mark_release. apply wp_bind, wp_get, wp_bind. eapply wp_pages_at; [exact Hk|].
  rewrite (release_guard _ _ _ _ _ _ Hx Hk). destruct (page_test _ _ _) eqn:Ht; cbn [negb]; [|apply wp_ret; by split; [left|]].
  destruct (release_test_slot _ _ _ _ _ _ Hx Hk Ht) as (pg & sg & j & sl & Hv & Hp & Hr & Hrt & Hin & Hpub & <- & Hj & <-).
  apply wp_bind. eapply (wp_store_call _ _ k); [exact Hk| |].
  { unfold host_replica. rewrite (require_run _ _ _ _ Hv Hp), Hr. done. }
  rewrite set_kv_same by done. rewrite (replica_is_member_slot _ _ _ _ _ Hx Hin Hpub Hj). cbn [negb].
  pose proof (node_at _ _ _ _ _ Hx Hin Hj) as Hnode. pose proof (extent_at _ Hx Hin) as Hext.
  pose proof (sk_size _ _ _ _ _ _ (hv_nodes _ _ _ _ _ _ _ (xv_tokens _ _ _ _ Hx))) as Hsn.
  pose proof (sk_size _ _ _ _ _ _ (hv_exts _ _ _ _ _ _ _ (xv_tokens _ _ _ _ Hx))) as Hse. cbn in Hsn, Hse.
  assert (Hbn : 0 <= sl_node sl < c_cap c) by (apply vget_Some_bounds in Hnode; lia).
  assert (Hbe : 0 <= sg_index sg < c_cap c) by (apply vget_Some_bounds in Hext; lia).
  pose proof (mk_ok _ _ _ _ Hm) as [_ [Hmn _] [Hme _]]. cbn in Hmn, Hme. apply list_elem_of_lookup_2 in Hj as Hel.
  destruct (vget_is_Some (xs_release_marks (he_store s)) (sl_node sl)) as [v Hmark]; [lia|].
  destruct (vget_is_Some (xs_extent_marks (he_store s)) (sg_index sg)) as [e Hemark]; [lia|].
  apply wp_bind, wp_lift; [|intros e' He'; cbn in He'; by rewrite (proj2 (vat_Ok _ _ _) Hmark) in He']. intros v' Hv'%vat_Ok. cbn in Hv'. simplify_eq.
  assert (Hiff : v = xs_release_stamp (he_store s) <-> (sg_store sg, sl_page sl) ∈ map page_of M).
  { rewrite <- (page_marked _ _ _ _ _ _ _ _ Hx Hm Hin Hpub Hel), <- (mk_nodes _ _ _ _ Hm). unfold stamped. cbn. rewrite Hmark. naive_solver. }
  destruct (v =? xs_release_stamp (he_store s)) eqn:Ev.
  { apply wp_ret. apply Z.eqb_eq in Ev. split; [|done]. right. by apply Hiff. }
  apply Z.eqb_neq in Ev. apply wp_bind, wp_lift; [|intros e' He'; cbn in He'; by rewrite (proj2 (vat_Ok _ _ _) Hemark) in He']. intros e' He'%vat_Ok. cbn in He'. simplify_eq.
  pose proof (marking_mark _ _ _ _ _ _ Hm Hin Hpub Hel Hbn Hbe) as Hm'. specialize (Hm' ltac:(intros sg' Hin' Hel'; symmetry; by apply (node_unique _ _ _ _ _ _ Hx Hin Hin' Hel Hel'))).
  cbn in Hm'. rewrite Hemark in Hm'.
  apply wp_bind. destruct (e =? xs_release_stamp (he_store s)) eqn:Ee; cbn [negb].
  - apply Z.eqb_eq in Ee. rewrite bool_decide_eq_true_2 in Hm' by congruence. apply wp_put, wp_ret. split; [done|]. split; [by intros ?%Hiff|].
    exists sl. split; [done|]. constructor; [done|done| |exact Hm']. apply (xinv_remark _ _ _ _ _ _ _ _ Hx).
  - apply Z.eqb_neq in Ee. rewrite bool_decide_eq_false_2 in Hm' by congruence. apply wp_put, wp_ret. split; [done|]. split; [by intros ?%Hiff|].
    exists sl. split; [done|]. constructor; [done|done| |exact Hm']. apply (xinv_remark _ _ _ _ _ _ _ _ Hx).
Qed.
End Calls.

(** ** Many pages *)
Definition release_of (t : pslot) : HostKVPageReplicaRelease := mkReplicaRelease (Some (fst t)) (sl_page (snd t)).

Definition releasable (ks : list kv) (r : HostKVPageReplicaRelease) : bool :=
  match rr_pages r with
  | Some p => match ks !! p with
              | Some k => page_test (kv_store k) (rr_page r) (release_test false)
              | None => false
              end
  | None => false
  end.

(** The pointer is null or to one of the stores. *)
Definition points_to_store (ks : list kv) (r : HostKVPageReplicaRelease) : Prop :=
  match rr_pages r with
  | Some p => (p < length ks)%nat
  | None => True
  end.

Lemma release_of_page p h M : (p, h) ∈ map page_of M <-> mkReplicaRelease (Some p) h ∈ map release_of M.
Proof.
  rewrite !list_elem_of_fmap. split; intros (t & E & Ht); exists t; (split; [|done]); destruct t as [q sl]; unfold page_of, release_of in *; cbn in *; congruence.
Qed.

Section Many.
Context {O : list ptok}.
Implicit Types (c : consts) (G : list segment) (s : host) (M : list pslot).

Lemma mark_releases_run c G s0 releases : forall M s,
  marked_state (O := O) c G M s0 s -> Forall (points_to_store (he_pages s0)) releases -> NoDup (map release_of M) ->
  Forall (fun r => releasable (he_pages s0) r = true) (map release_of M) ->
  wp (mark_releases releases)
    (fun b s' => (b = true <-> Forall (fun r => releasable (he_pages s0) r = true) releases /\ NoDup (map release_of M ++ releases)) /\
       exists M', marked_state (O := O) c G M' s0 s' /\ Forall (fun r => releasable (he_pages s0) r = true) (map release_of M') /\
         (b = true -> map release_of M' = map release_of M ++ releases)) no_error s.
Proof.
  induction releases as [|[[p|] h] releases IH]; intros M s Hm Hp Hnd Hr; cbn [mark_releases rr_pages rr_page].
  - apply wp_ret. rewrite app_nil_r. split; [split; [split; [constructor|done]|done]|]. by exists M.
  - apply Forall_cons_1 in Hp as [Hp0 Hp]. apply lookup_lt_is_Some in Hp0 as [k Hk]. cbn in Hk. apply wp_bind.
    eapply wp_conseq with (E := no_error); [by eapply mark_release_run| |done]. intros [] s1; cbn [negb].
    + intros (Ht & Hni & sl & <- & Hm1). assert (Hrel : releasable (he_pages s0) (mkReplicaRelease (Some p) (sl_page sl)) = true).
      { unfold releasable. cbn. by rewrite Hk. }
      eapply wp_conseq with (E := no_error); [apply (IH _ _ Hm1 Hp)| |done].
      * rewrite map_app. apply NoDup_app. split; [done|]. split; [|apply NoDup_singleton]. intros r Hin ->%list_elem_of_singleton. by apply Hni, release_of_page.
      * rewrite map_app. apply Forall_app. split; [done|]. by apply Forall_singleton.
      * intros b s2 (Hb & M' & Hm' & Hr' & HM'). rewrite map_app, <- app_assoc in Hb, HM'. split.
        -- rewrite Hb, Forall_cons. cbn [app map]. unfold release_of at 2. cbn. tauto.
        -- exists M'. done.
    + intros [Hno ->]. apply wp_ret. split; [|by exists M]. split; [done|]. intros [Hall Hdis]. apply Forall_cons_1 in Hall as [Hrel _].
      unfold releasable in Hrel. cbn in Hrel. rewrite Hk in Hrel. destruct Hno as [Hno|Hno]; [congruence|].
      apply NoDup_app in Hdis as (_ & Hdis & _). apply release_of_page in Hno. by destruct (Hdis _ Hno (list_elem_of_here _ _)).
  - apply wp_ret. split; [|by exists M]. split; [done|]. intros [Hall _]. by apply Forall_cons_1 in Hall as [? _].
Qed.

(** [can_release_page_replicas] tells whether the releases are distinct pages
    that can do without their replicas, and marks them if so. *)
Lemma can_release_page_replicas_run c G s releases :
  xinv c G O s -> marks_ok (c_cap c) (marks_of (he_store s)) -> Forall (points_to_store (he_pages s)) releases ->
  wp (can_release_page_replicas releases)
    (fun b s' => (b = true <-> Forall (fun r => releasable (he_pages s) r = true) releases /\ NoDup releases) /\
       exists M, marked_state (O := O) c G M s s' /\ Forall (fun r => releasable (he_pages s) r = true) (map release_of M) /\
         (b = true -> map release_of M = releases)) no_error s.
Proof.
  intros Hx Hok Hp. unfold can_release_page_replicas. apply wp_bind.
  eapply wp_conseq with (E := no_error); [by eapply begin_release_marks_run| |done]. intros u s1 (Ep & Ea & Hx1 & Hm1).
  apply (mark_releases_run c G s releases [] s1); [by constructor|done|constructor|constructor].
Qed.
End Many.

(** * The partitions *)
Definition published_of (G : list segment) : list segment := filter (fun sg => sg_published sg = true) G.
Definition reserved_of (G : list segment) : list segment := filter (fun sg => sg_published sg = false) G.

#[global] Instance published_of_Proper : Proper (Permutation ==> Permutation) published_of.
Proof. intros G G' HG. unfold published_of. by rewrite HG. Qed.
#[global] Instance reserved_of_Proper : Proper (Permutation ==> Permutation) reserved_of.
Proof. intros G G' HG. unfold reserved_of. by rewrite HG. Qed.

Lemma published_of_all G : all_published G -> published_of G = G /\ reserved_of G = [].
Proof.
  induction 1 as [|sg G Hp _ [IH1 IH2]]; [done|]. unfold published_of, reserved_of in *. rewrite !filter_cons, decide_True, decide_False by congruence.
  by rewrite IH1, IH2.
Qed.

Lemma published_of_app G G' : published_of (G ++ G') = published_of G ++ published_of G'.
Proof. apply filter_app. Qed.
Lemma reserved_of_app G G' : reserved_of (G ++ G') = reserved_of G ++ reserved_of G'.
Proof. apply filter_app. Qed.

(** Of the published slots the ones to [keep] are left, in their places; the
    reservations are as they were, and so is every page but for its replica. *)
Definition trimmed (c : consts) (G : list segment) (O : list ptok) (keep : pslot -> bool) (s s' : host) : Prop :=
  exists G', xinv (with_page (unchanged_but_host (he_pages s)) c) G' O s' /\ reserved_of G' ≡ₚ reserved_of G /\
    pslots (published_of G') ≡ₚ filter (fun t => keep t = true) (pslots (published_of G)).

Lemma filter_all {A} (P : A -> Prop) `{!forall x, Decision (P x)} (l : list A) : (forall x, x ∈ l -> P x) -> filter P l = l.
Proof.
  induction l as [|x l IH]; intros Hl; [done|]. rewrite filter_cons, decide_True by (apply Hl; by left). f_equal. apply IH. intros y Hy. apply Hl. by right.
Qed.

Lemma filter_ext_in {A} (P Q : A -> Prop) `{!forall x, Decision (P x)} `{!forall x, Decision (Q x)} (l : list A) :
  (forall x, x ∈ l -> P x <-> Q x) -> filter P l = filter Q l.
Proof.
  induction l as [|x l IH]; intros Hl; [done|]. rewrite !filter_cons, IH by (intros y Hy; apply Hl; by right).
  specialize (Hl x ltac:(by left)). do 2 case_decide; tauto.
Qed.

Lemma trimmed_parts c G O keep s s' T U U' :
  G ≡ₚ T ++ U -> all_published T -> all_published U' -> xinv (with_page (unchanged_but_host (he_pages s)) c) (U' ++ U) O s' ->
  pslots U' ≡ₚ filter (fun t => keep t = true) (pslots T) -> (forall t, t ∈ pslots (published_of U) -> keep t = true) -> trimmed c G O keep s s'.
Proof.
  intros HG HT HU' Hx Hs HU. exists (U' ++ U). destruct (published_of_all _ HT) as [E1 E2]. destruct (published_of_all _ HU') as [E3 E4].
  split; [done|]. rewrite HG, !reserved_of_app, !published_of_app, E1, E2, E3, E4, !pslots_app, filter_app, Hs. split; [done|]. f_equiv.
  by rewrite filter_all.
Qed.

Lemma release_unreferenced_trims c O G s :
  xinv c G O s -> wp release_unreferenced (fun _ => trimmed c G O (fun t => negb (unused_at (he_pages s) (fst t) (snd t))) s) no_error s.
Proof.
  intros Hx. eapply wp_conseq with (E := no_error); [by apply release_unreferenced_segments| |done].
  intros bytes s' (T & U & U' & HG & HT & HU & HU' & Hx' & Hs). eapply trimmed_parts; [exact HG|done|exact HU'|exact Hx'| |].
  - rewrite Hs. erewrite list_filter_iff; [done|]. intros t. cbn. by rewrite negb_true_iff.
  - intros t (sg & [Hpub Hin]%list_elem_of_filter & _)%elem_of_pslots. rewrite Forall_forall in HU. specialize (HU _ Hin). congruence.
Qed.

(** ** The marked slots *)
Definition slot_marked (m : marks) (sl : slot) : bool :=
  match (m_nodes m).[sl_node sl] with
  | Some mark => mark =? m_stamp m
  | None => false
  end.

Lemma slot_marked_iff m sl : slot_marked m sl = true <-> stamped (m_nodes m) (m_stamp m) (sl_node sl).
Proof.
  unfold slot_marked, stamped. destruct ((m_nodes m).[sl_node sl]) as [x|]; [|done]. rewrite Z.eqb_eq. naive_solver.
Qed.

Section Marked.
Context {O : list ptok} {c : consts} {G : list segment} {M : list pslot} {s0 s : host}.
Hypothesis Hm : marked_state (O := O) c G M s0 s.
Hypothesis Hrel : Forall (fun r => releasable (he_pages s0) r = true) (map release_of M).

Notation m := (marks_of (he_store s)).
Notation c' := (with_page (unchanged_but_host (he_pages s0)) (remark m c)).

Lemma slot_marked_page sg sl :
  sg ∈ G -> sg_published sg = true -> sl ∈ sg_slots sg -> slot_marked m sl = true <-> release_of (sg_store sg, sl) ∈ map release_of M.
Proof.
  intros Hin Hpub Hel. rewrite slot_marked_iff, (mk_nodes _ _ _ _ (ms_marking _ _ _ _ _ Hm)).
  rewrite (page_marked _ _ _ _ _ _ _ _ (ms_inv _ _ _ _ _ Hm) (ms_marking _ _ _ _ _ Hm) Hin Hpub Hel), release_of_page. done.
Qed.

(** A marked page stays releasable while others are released. *)
Lemma marked_decides G1 s1 sg :
  xinv c' G1 O s1 -> sg ∈ G1 -> sg ∈ G -> sg_published sg = true ->
  decides s1 (sg_store sg) marked (slot_marked m) (sg_slots sg).
Proof.
  intros Hx1 Hin1 Hin Hpub sl k pg Hel Hk Hp. split.
  { unfold marked, slot_marked. pose proof (xinv_marks _ _ _ _ Hx1) as E. cbn in E. unfold marks_of in E. injection E as -> _ _ ->. done. }
  intros Hmk. destruct (published_page _ _ _ _ Hx1 Hin1 Hpub Hel) as (k' & pg' & Hk' & _ & Hp' & Hocc & _). simplify_eq.
  destruct (px_page _ _ _ _ (hv_pages _ _ _ _ _ _ _ (xv_tokens _ _ _ _ Hx1)) _ _ _ _ Hk Hp) as (pg0 & H0 & [[r ->]|(_ & _ & _ & ->)]); [|done].
  apply (slot_marked_page _ _ Hin Hpub Hel) in Hmk. rewrite Forall_forall in Hrel. specialize (Hrel _ Hmk). unfold releasable in Hrel. cbn in Hrel.
  unfold page_at in H0. destruct (he_pages s0 !! sg_store sg) as [k0|] eqn:Hk0; [|done]. unfold page_test in Hrel. fold (slot_index sl) in Hrel.
  rewrite H0 in Hrel. destruct (negb _); [done|]. unfold release_test in Hrel. unfold unreleasable. cbn. simp_bool.
  match goal with H : pg_source_pins _ = 0 |- _ => rewrite H end. cbn.
  by destruct (has (pg_device_replica pg0)), (pg_references pg0 =? 0).
Qed.

Lemma release_marked_extents_run :
  wp release_marked_extents
    (fun _ s' => trimmed (remark m c) G O (fun t => negb (bool_decide (release_of t ∈ map release_of M))) s0 s') no_error s.
Proof.
  destruct Hm as [Ep Ea Hx Hmk]. unfold release_marked_extents. apply wp_bind, wp_get. change (xs_affected_extents (he_store s)) with (m_affected m).
  destruct (pick_segments G s (m_affected m) Hx (mk_nodup _ _ _ _ Hmk)) as (T & U & HG & HT).
  { intros i (sg & sl & ? & _ & _ & ?)%(mk_affected _ _ _ _ Hmk). by exists sg. }
  assert (Hpub : all_published T).
  { apply Forall_forall. intros sg Hin. assert (sg_index sg ∈ m_affected m) as (sg' & sl & Hin' & Hel & HM & Hi)%(mk_affected _ _ _ _ Hmk).
    { rewrite <- HT. by apply list_elem_of_fmap_2. }
    assert (sg' = sg) as ->. { eapply index_unique; [exact Hx|done| |done]. rewrite HG. apply elem_of_app. by left. }
    destruct (mk_slots _ _ _ _ Hmk _ HM) as (sg' & Hin'' & Hp' & _ & Hel'). cbn in Hel'.
    by destruct (node_unique _ _ _ _ _ _ Hx Hin' Hin'' Hel Hel' eq_refl) as [-> _]. }
  assert (Hx' : xinv c' (T ++ U) O s) by (rewrite <- HG, <- Ep; by apply xinv_since). rewrite <- HT.
  assert (HinT : forall sg, sg ∈ T -> sg ∈ G) by (intros; rewrite HG; apply elem_of_app; by left).
  eapply wp_conseq with (E := no_error); [apply (partition_each (c := c') (O := O) marked (fun _ => slot_marked m) T)| |done].
  - intros G1 s1 sg Hx1 Hin1 Hin Hp1. apply (marked_decides _ _ _ Hx1 Hin1); [by apply HinT|done].
  - exact Hx'.
  - apply Forall_forall. intros sg Hin. split; [|done]. unfold all_published in Hpub. rewrite Forall_forall in Hpub. by apply Hpub.
  - intros u s' (U' & Hx2 & HpU & Hs'). eapply trimmed_parts; [exact HG|done|exact HpU|exact Hx2| |].
    + rewrite Hs'. erewrite filter_ext_in; [done|]. intros t (sg & Hin & Ht1 & Ht2)%elem_of_pslots. destruct t as [p sl]. cbn in *. subst p.
      unfold all_published in Hpub. rewrite Forall_forall in Hpub.
      rewrite negb_true_iff, bool_decide_eq_false, <- (slot_marked_page sg sl) by auto. by destruct (slot_marked m sl).
    + intros t (sg & [Hp Hin]%list_elem_of_filter & Ht1 & Ht2)%elem_of_pslots. destruct t as [p sl]. cbn in *. subst p.
      assert (HinG : sg ∈ G) by (rewrite HG; apply elem_of_app; by right).
      rewrite negb_true_iff, bool_decide_eq_false, <- (slot_marked_page sg sl) by done. rewrite slot_marked_iff, (mk_nodes _ _ _ _ Hmk).
      intros (t & Hn & Ht)%list_elem_of_fmap. destruct (mk_slots _ _ _ _ Hmk _ Ht) as (sg' & Hin' & _ & Hf & Hel').
      destruct (node_unique _ _ _ _ _ _ Hx HinG Hin' Ht2 Hel' Hn) as [<- E]. 
      assert (Hi : sg_index sg ∈ map sg_index T). { rewrite HT. apply (mk_affected _ _ _ _ Hmk). exists sg, sl. repeat split; try done. destruct t; cbn in *. congruence. }
      pose proof (index_nodup _ _ Hx) as Hnd. rewrite HG, map_app in Hnd. apply NoDup_app in Hnd as (_ & Hnd & _). apply (Hnd _ Hi). by apply list_elem_of_fmap_2.
Qed.
End Marked.

(** * The calls *)
Section Release.
Context {O : list ptok} {c : consts} {G : list segment} {s : host}.
Hypothesis Hx : xinv c G O s.
Hypothesis Hok : marks_ok (c_cap c) (marks_of (he_store s)).

(** [release_page_replicas] returns true for distinct pages that can do
    without their replicas, and exactly these lose them. *)
Lemma release_page_replicas_run releases :
  Forall (points_to_store (he_pages s)) releases ->
  wp (release_page_replicas releases)
    (fun b s' => (b = true <-> Forall (fun r => releasable (he_pages s) r = true) releases /\ NoDup releases) /\
       marks_ok (c_cap c) (marks_of (he_store s')) /\
       if b then trimmed (remark (marks_of (he_store s')) c) G O (fun t => negb (bool_decide (release_of t ∈ releases))) s s'
       else he_pages s' = he_pages s /\ he_arena s' = he_arena s /\ xinv (remark (marks_of (he_store s')) c) G O s') no_error s.
Proof.
  intros Hp. unfold release_page_replicas. apply wp_bind.
  eapply wp_conseq with (E := no_error); [by apply (can_release_page_replicas_run _ _ _ _ Hx Hok Hp)| |done].
  intros b s1 (Hb & M & Hm & Hrel & HM). pose proof (mk_ok _ _ _ _ (ms_marking _ _ _ _ _ Hm)) as Hok1. destruct b; cbn [negb].
  - specialize (HM eq_refl). apply wp_bind. eapply wp_conseq with (E := no_error); [by apply (release_marked_extents_run Hm Hrel)| |done].
    intros u s2 Ht. apply wp_ret. assert (Em : marks_of (he_store s2) = marks_of (he_store s1)) by (destruct Ht as (G' & Hx2 & _); apply (xinv_marks _ _ _ _ Hx2)).
    rewrite Em. split; [done|]. split; [done|]. by rewrite <- HM.
  - apply wp_ret. split; [done|]. split; [done|]. destruct Hm as [Ep Ea Hx1 _]. done.
Qed.
End Release.
