(* ===== verification/ExtentFrame.v ===== *)
(** What the calls of others on a page store leave alone: the host replica of
    every page, its pins, and the content and identity of a page with a
    replica or a pin. *)

From S2P Require Import Prelude Tensor Layout PagedKv PageTransfer HostKvArena LogicalKv PageTokens HostExtents ExtentPages.

(** * Frames *)
Definition held (pg : Page) : Prop := pg_host_replica pg <> None \/ pg_source_pins pg <> 0.

Record page_frame (pg pg' : Page) : Prop := {
  pf_host : pg_host_replica pg' = pg_host_replica pg;
  pf_pins : pg_source_pins pg' = pg_source_pins pg;
  pf_held : held pg -> pg_content_epoch pg' = pg_content_epoch pg /\ pg_occupied pg' = pg_occupied pg /\ pg_generation pg' = pg_generation pg;
}.

Record framed (k k' : kv) : Prop := {
  fr_this : ls_this (kv_store k') = ls_this (kv_store k);
  fr_spec : p_spec (kv_pool k') = p_spec (kv_pool k);
  fr_size : vsize (ls_pages (kv_store k')) = vsize (ls_pages (kv_store k));
  fr_page : forall i pg, (ls_pages (kv_store k)).[i] = Some pg -> exists pg', (ls_pages (kv_store k')).[i] = Some pg' /\ page_frame pg pg';
}.

#[global] Instance page_frame_refl : Reflexive page_frame.
Proof. by constructor. Qed.

#[global] Instance page_frame_trans : Transitive page_frame.
Proof.
  intros p1 p2 p3 [H1 H2 H3] [K1 K2 K3]. constructor; [congruence..|]. intros Hh. destruct (H3 Hh) as (? & ? & ?).
  destruct K3 as (? & ? & ?); [unfold held in *; by rewrite H1, H2|]. repeat split; congruence.
Qed.

#[global] Instance framed_refl : Reflexive framed.
Proof. constructor; try done. intros i pg Hp. by exists pg. Qed.

#[global] Instance framed_trans : Transitive framed.
Proof.
  intros k1 k2 k3 [H1 H2 H3 H4] [K1 K2 K3 K4]. constructor; [congruence..|]. intros i pg Hp.
  destruct (H4 _ _ Hp) as (pg2 & Hp2 & F2). destruct (K4 _ _ Hp2) as (pg3 & Hp3 & F3). exists pg3. split; [done|]. by transitivity pg2.
Qed.

(** Calls that only touch the pool. *)
Lemma framed_pool k p rs st' :
  p_spec p = p_spec (kv_pool k) -> ls_pages st' = ls_pages (kv_store k) -> ls_this st' = ls_this (kv_store k) -> framed k (mkKv p rs st').
Proof. intros Hs Hp Ht. constructor; cbn; try congruence. intros i pg Hi. exists pg. split; [congruence|done]. Qed.

Lemma framed_put k i pg pg' :
  (ls_pages (kv_store k)).[i] = Some pg -> page_frame pg pg' -> framed k (set_pages ((ls_pages (kv_store k)).[i <- pg']) k).
Proof.
  intros Hp Hf. constructor; cbn; try done; [apply vsize_vset|]. intros j q Hq. destruct (decide (j = i)) as [->|Hne].
  - rewrite vget_vset_eq by (by eapply vget_Some_bounds). exists pg'. split; [done|]. congruence.
  - rewrite vget_vset_ne by done. by exists q.
Qed.

Lemma materialize_one_spec p r p' r' l : materialize_one p r = Ok (p', r', l) -> p_spec p' = p_spec p.
Proof. intros E. unfold materialize_one in E. simp_res. case_match; by simp_res. Qed.

Lemma dematerialize_one_spec p r l p' r' l' : dematerialize_one p r l = Ok (p', r', l') -> p_spec p' = p_spec p.
Proof.
  intros E. unfold dematerialize_one in E. simp_res. pose proof (lease_release_storage p l) as [_ Hs].
  destruct (lease_release p l) as [[p1 l1] ok]. by simp_res.
Qed.

Lemma materialize_spec p r n ds cap pred p' r' ls : PagedKv.materialize p r n ds cap pred = Ok (p', r', ls) -> p_spec p' = p_spec p.
Proof. intros E. unfold PagedKv.materialize in E. simp_res. case_match; simp_res; [done|]. repeat (case_match; simp_res; try done). Qed.

(** * Calls *)
Definition any_error {S} : error -> S -> Prop := fun _ _ => True.

Section Rules.
Context (k0 s : kv) (Hs : framed k0 s).

Lemma wp_any_error {A} (m : K A) Q : (forall s' a, m s = (s', Ok a) -> Q a s') -> wp m Q any_error s.
Proof. intros HQ. unfold wp. destruct (m s) as [s' [a|e]] eqn:E; [by apply HQ|done]. Qed.

Lemma wp_require_any {B} h (f : Page -> K B) Q :
  (forall pg, page_valid (kv_store s) h = true -> (ls_pages (kv_store s)).[lh_index h] = Some pg -> wp (f pg) Q any_error s) ->
  wp (LogicalKv.require h ≫= f) Q any_error s.
Proof.
  intros HQ. apply wp_bind, wp_any_error. intros s' pg (-> & Hv & Hp)%require_Ok. by apply HQ.
Qed.

Lemma wp_page_ref {B} i (f : Page -> K B) Q :
  (forall pg, (ls_pages (kv_store s)).[i] = Some pg -> wp (f pg) Q any_error s) -> wp (page_ref i ≫= f) Q any_error s.
Proof. intros HQ. apply wp_bind. unfold page_ref. apply wp_bind, wp_get, wp_lift; [|done]. intros pg Hp%vat_Ok. by apply HQ. Qed.

Lemma wp_put_page i pg pg' Q :
  (ls_pages (kv_store s)).[i] = Some pg -> page_frame pg pg' ->
  (framed k0 (set_pages ((ls_pages (kv_store s)).[i <- pg']) s) -> Q tt (set_pages ((ls_pages (kv_store s)).[i <- pg']) s)) ->
  wp (put_page i pg') Q any_error s.
Proof. intros Hp Hf HQ. apply wp_modify, HQ. etransitivity; [exact Hs|]. by eapply framed_put. Qed.

Lemma wp_noexcept_any {A} (m : K A) Q : wp m Q any_error s -> wp (noexcept m) Q any_error s.
Proof. unfold wp, noexcept. by destruct (m s) as [s' [a|e]]. Qed.

(** Calls that keep the pages as they are. *)
Definition same_pages (s' : kv) : Prop := framed k0 s' /\ ls_pages (kv_store s') = ls_pages (kv_store s) /\ ls_this (kv_store s') = ls_this (kv_store s).

Lemma same_pages_pool p rs : p_spec p = p_spec (kv_pool s) -> same_pages (mkKv p rs (kv_store s)).
Proof. intros E. split; [|done]. etransitivity; [exact Hs|]. by apply framed_pool. Qed.

Lemma wp_reset_lease o Q : (forall s', same_pages s' -> Q tt s') -> wp (reset_lease o) Q any_error s.
Proof.
  intros HQ. apply wp_modify, HQ. destruct o as [l|]; [|by split]. unfold set_pool. apply same_pages_pool. apply lease_release_storage.
Qed.

Lemma wp_pool_materialize_one k Q : (forall l s', same_pages s' -> kv_store s' = kv_store s -> Q l s') -> wp (pool_materialize_one k) Q any_error s.
Proof.
  intros HQ. apply wp_bind, wp_get. destruct (kv_reservations s !! k) as [r|]; [|done]. apply wp_bind, wp_lift; [|done].
  intros [[p r'] l] E. apply wp_bind, wp_put, wp_ret, HQ; [|done]. apply same_pages_pool. by eapply materialize_one_spec.
Qed.

Lemma wp_pool_dematerialize_one k l Q : (forall s', same_pages s' -> Q tt s') -> wp (pool_dematerialize_one k l) Q any_error s.
Proof.
  intros HQ. apply wp_bind, wp_get. destruct (kv_reservations s !! k) as [r|]; [|done]. apply wp_bind, wp_lift; [|done].
  intros [[p r'] l'] E. apply wp_put, HQ, same_pages_pool. by eapply dematerialize_one_spec.
Qed.

Lemma wp_push_free i Q : (forall s', same_pages s' -> Q tt s') -> wp (push_free i) Q any_error s.
Proof.
  intros HQ. apply wp_bind, wp_get, wp_bind, wp_lift; [|done]. intros y _. apply wp_put, HQ. split; [|done].
  etransitivity; [exact Hs|]. by apply framed_pool.
Qed.
End Rules.

Lemma wp_release_descriptor k0 s h :
  framed k0 s ->
  (forall pg, (ls_pages (kv_store s)).[lh_index h] = Some pg -> ~ held pg) -> wp (release_descriptor h) (fun _ => framed k0) any_error s.
Proof.
  intros Hs Hno. apply wp_page_ref. intros pg Hp. apply wp_bind, wp_throw_if; [intros _|done]. apply wp_bind, (wp_reset_lease k0); [done|].
  intros s1 (Hs1 & E1 & _). apply wp_bind. specialize (Hno _ Hp). eapply (wp_put_page k0 s1 Hs1 _ pg); [by rewrite E1| |].
  - constructor; cbn; [|unfold held in Hno; lia|done]. destruct (pg_host_replica pg) eqn:E; [|done]. exfalso. apply Hno. left. by rewrite E.
  - intros Hs2. eapply wp_push_free; [exact Hs2|]. by intros s3 [? _].
Qed.

(** ** The calls of others *)
Definition by_others (c : call) : bool :=
  match c with
  | CPin _ | CUnpin _ | CAttachHost _ _ | CRebindHost _ _ _ | CDetachHost _ _ => false
  | _ => true
  end.

Lemma not_held pg : pg_host_replica pg = None -> pg_source_pins pg = 0 -> ~ held pg.
Proof. intros Hh Hp [?|?]; [by rewrite Hh in *|done]. Qed.

Lemma not_transfer_held pg : not_transfer_destination pg = false -> ~ held pg.
Proof. intros H. unfold not_transfer_destination in H. simp_bool. rewrite has_false in *. by apply not_held. Qed.

Section Outside.
Context (k : kv) (Hok : kv_sound k).
Notation stays m := (wp m (fun _ => framed k) any_error k).
Let here : framed k k := reflexivity k.

(** A new page in place of one that nobody holds. *)
Lemma fresh_frame pg pg' : ~ held pg -> pg_host_replica pg' = pg_host_replica pg -> pg_source_pins pg' = pg_source_pins pg -> page_frame pg pg'.
Proof. by constructor. Qed.

Lemma truncate_frame columns pg : ~ held pg -> page_frame pg (truncate_page columns pg).
Proof. intros Hh. apply fresh_frame; [done|..]; unfold truncate_page; by case_match. Qed.

Lemma retain_framed h w : stays (retain_reference h w).
Proof.
  apply wp_require_any. intros pg _ Hp. apply wp_bind, wp_throw_if; [intros _|done]. eapply (wp_put_page k); [done|exact Hp| |done]. destruct w; by constructor.
Qed.

Lemma truncate_framed h columns : stays (destructive_truncate h columns).
Proof.
  apply wp_require_any. intros pg _ Hp. apply wp_bind, wp_throw_if; [intros Hg|done]. simp_bool. rewrite has_false in *.
  eapply (wp_put_page k); [done|exact Hp| |done]. by apply truncate_frame, not_held.
Qed.

Lemma truncate_inactive_framed h columns : stays (destructive_truncate_inactive h columns).
Proof.
  apply wp_require_any. intros pg _ Hp. apply wp_bind, wp_get, wp_bind, wp_throw_if; [intros Hg|done]. apply negb_false_iff, page_test_true in Hg as (pg' & _ & Hp' & _ & Hg).
  simplify_eq. simp_bool. rewrite has_false in *. eapply (wp_put_page k); [done|exact Hp| |done].
  transitivity (truncate_page columns pg); [by apply truncate_frame, not_held|by constructor].
Qed.

(** The tail of [dematerialize] and [abort_transfer_destination]. *)
Lemma give_back_framed h j pg l :
  (ls_pages (kv_store k)).[lh_index h] = Some pg -> ~ held pg ->
  stays (_ ← pool_dematerialize_one j l; _ ← put_page (lh_index h) (set_device_replica None pg); release_descriptor h).
Proof.
  intros Hp Hno. apply wp_bind, (wp_pool_dematerialize_one k); [done|]. intros s1 (H1 & E1 & _). apply wp_bind.
  eapply (wp_put_page k s1 H1 _ pg); [by rewrite E1|by constructor|]. intros H2. apply wp_release_descriptor; [done|]. intros pg' Hp'. cbn in Hp'.
  rewrite vget_vset_eq in Hp' by (rewrite E1; by eapply vget_Some_bounds). by injection Hp' as <-.
Qed.

Lemma dematerialize_framed h j : stays (dematerialize h j).
Proof.
  apply wp_require_any. intros pg _ Hp. apply wp_bind, wp_throw_if; [intros Hg|done]. simp_bool. rewrite has_false in *.
  destruct (pg_device_replica pg) as [l|]; [|done]. apply give_back_framed; [done|by apply not_held].
Qed.

Lemma abort_transfer_framed h j : stays (abort_transfer_destination h j).
Proof.
  apply wp_noexcept_any, wp_bind, wp_get. destruct (negb _); [by apply wp_ret|]. apply wp_page_ref. intros pg Hp.
  destruct (not_transfer_destination pg) eqn:Hnt; [by apply wp_ret|]. destruct (pg_device_replica pg) as [l|]; [|by apply wp_ret].
  apply give_back_framed; [done|by apply not_transfer_held].
Qed.

Lemma release_reference_framed h w : stays (release_reference h w).
Proof.
  apply wp_noexcept_any, wp_bind, wp_get. destruct (can_release_reference _ _ _) eqn:Hg; cbn [negb]; [|by apply wp_ret].
  apply page_test_true in Hg as (pg & _ & Hp & _ & Hg). simp_bool. pose proof (vget_Some_bounds _ _ _ Hp) as Hb. apply wp_page_ref. intros pg' Hp'. rewrite Hp in Hp'. injection Hp' as <-.
  apply wp_bind. set (pg2 := set_references _ _). assert (F2 : page_frame pg pg2) by (unfold pg2; destruct w; by constructor).
  eapply (wp_put_page k k here _ pg); [done|done|]. intros Hf1. destruct (negb (pg_references pg2 =? 0)); [by apply wp_ret|].
  apply wp_bind. unfold reset_device. apply wp_page_ref. intros pg' Hp'. cbn in Hp'. rewrite vget_vset_eq in Hp' by done. injection Hp' as <-.
  apply wp_bind, (wp_reset_lease k); [done|]. intros s2 (Hf2 & E2 & _). cbn in E2.
  eapply (wp_put_page k s2 Hf2 _ pg2); [rewrite E2; by apply vget_vset_eq|by constructor|]. intros Hf3.
  apply wp_bind. destruct (has (pg_host_replica pg2)) eqn:Hh; cbn [negb]; [by apply wp_ret, wp_ret|].
  eapply wp_conseq; [apply wp_release_descriptor; [exact Hf3|]|by intros u s3 Hs3; apply wp_ret|done].
  intros pg' Hp'. cbn in Hp'. rewrite E2, vset_vset_eq, vget_vset_eq in Hp' by done. injection Hp' as <-. apply has_false in Hh.
  apply not_held; [exact Hh|]. change (pg_source_pins pg2 = 0). by rewrite (pf_pins _ _ F2).
Qed.

(** Free descriptors are held by nobody. *)
Lemma free_not_held i pg : i ∈ free_descriptors (kv_store k) -> (ls_pages (kv_store k)).[i] = Some pg -> ~ held pg.
Proof.
  intros (q & Hq & Hvac)%(so_free _ (ki_store _ _ Hok)) Hp. rewrite Hp in Hq. injection Hq as <-.
  destruct (pk_vacant _ (so_pages _ (ki_store _ _ Hok) _ _ Hp) Hvac) as (_ & ? & _ & _ & _ & ?). by apply not_held.
Qed.

Lemma held_framed s i pg : framed k s -> i ∈ free_descriptors (kv_store k) -> (ls_pages (kv_store s)).[i] = Some pg -> ~ held pg.
Proof.
  intros Hf Hi Hp. pose proof (vget_Some_bounds _ _ _ Hp) as Hb. rewrite (fr_size _ _ Hf) in Hb. destruct (vget_is_Some _ _ Hb) as [pg0 H0].
  destruct (fr_page _ _ Hf _ _ H0) as (pg' & Hp' & F). rewrite Hp in Hp'. injection Hp' as <-. pose proof (free_not_held _ _ Hi H0) as Hno.
  unfold held in *. by rewrite (pf_host _ _ F), (pf_pins _ _ F).
Qed.

Lemma free_at j i : 0 <= j < ls_free_count (kv_store k) -> (ls_free (kv_store k)).[j] = Some i -> i ∈ free_descriptors (kv_store k).
Proof.
  intros Hj Hi. unfold free_descriptors. unfold vget in Hi. rewrite (proj2 (Z.leb_le 0 _)) in Hi by lia.
  apply (list_elem_of_lookup_2 _ (Z.to_nat j)). rewrite lookup_take_lt by lia. done.
Qed.

(** A descriptor from the free stack, for a new page. *)
Lemma wp_pop_free {B} s (f : Z -> K B) Q :
  framed k s -> kv_store s = kv_store k -> ls_free_count (kv_store k) <> 0 ->
  (forall i s', framed k s' -> (forall pg, (ls_pages (kv_store s')).[i] = Some pg -> ~ held pg) -> wp (f i) Q any_error s') ->
  wp (pop_free ≫= f) Q any_error s.
Proof.
  intros Hf Es Hc HQ. apply wp_bind, wp_bind, wp_get. apply wp_bind, wp_put, wp_lift; [|done]. intros i Hi%vat_Ok.
  pose proof (so_count _ (ki_store _ _ Hok)) as Hcnt. pose proof (so_capacity _ (ki_store _ _ Hok)) as Hcap. rewrite Es, wrap32_small in Hi by (unfold U32_MAX in *; lia).
  assert (Hf' : framed k (set_free (ls_free (kv_store s)) (wrap32 (ls_free_count (kv_store s) - 1)) s)).
  { etransitivity; [exact Hf|]. by apply framed_pool. }
  apply HQ; [done|]. intros pg Hp. eapply held_framed; [exact Hf'| |exact Hp]. eapply free_at; [|exact Hi]. lia.
Qed.

Lemma wp_new_page {B} s i lease (new : DeviceKVPageLease -> Page -> Page) (f : Page -> B) :
  framed k s -> (forall pg, (ls_pages (kv_store s)).[i] = Some pg -> ~ held pg) ->
  (forall pg, pg_host_replica (new lease pg) = pg_host_replica pg /\ pg_source_pins (new lease pg) = pg_source_pins pg) ->
  wp (page ← page_ref i; _ ← reset_lease (pg_device_replica page); _ ← put_page i (new lease page); mret (f page)) (fun _ => framed k) any_error s.
Proof.
  intros Hf Hno Hnew. apply wp_page_ref. intros pg Hp. apply wp_bind, (wp_reset_lease k); [done|]. intros s1 (Hf1 & E1 & _). apply wp_bind.
  destruct (Hnew pg). eapply (wp_put_page k s1 Hf1 _ pg); [by rewrite E1|by apply fresh_frame; [apply Hno|..]|]. intros Hf2. by apply wp_ret.
Qed.

Lemma materialize_framed j : stays (materialize j).
Proof.
  apply wp_bind, wp_get, wp_bind, wp_throw_if; [intros Hg|done]. simp_bool. apply wp_bind, (wp_pool_materialize_one k); [done|].
  intros l s1 (Hf1 & _) E1. eapply wp_pop_free; [done..|]. intros i s2 Hf2 Hno. by apply (wp_new_page s2 i l fresh_page).
Qed.

Lemma materialize_transfer_framed j columns : stays (materialize_transfer_destination j columns).
Proof.
  apply wp_bind, wp_get, wp_bind, wp_throw_if; [intros Hg|done]. simp_bool. apply wp_bind, (wp_pool_materialize_one k); [done|].
  intros l s1 (Hf1 & _) E1. eapply wp_pop_free; [done..|]. intros i s2 Hf2 Hno.
  by apply (wp_new_page s2 i l (fun lease page => mkPage (pg_generation page) (next_epoch (pg_content_epoch page)) columns 0 0 0 (pg_source_pins page) 0
           true true (Some lease) (pg_pending_device_replica page) (pg_host_replica page))).
Qed.

Lemma fill_descriptors_framed ls : forall offset s,
  framed k s -> ls_free (kv_store s) = ls_free (kv_store k) -> ls_free_count (kv_store s) = ls_free_count (kv_store k) ->
  0 <= offset -> offset + vsize ls <= ls_free_count (kv_store k) -> wp (fill_descriptors offset ls) (fun _ => framed k) any_error s.
Proof.
  induction ls as [|l ls IH]; intros offset s Hf Ef Ec Ho Hle; [by apply wp_ret|]. rewrite vsize_cons in Hle. pose proof (vsize_nonneg ls).
  pose proof (so_count _ (ki_store _ _ Hok)) as Hcnt. pose proof (so_capacity _ (ki_store _ _ Hok)) as Hcap.
  cbn [fill_descriptors]. apply wp_bind, wp_get, wp_bind, wp_lift; [|done]. intros i Hi%vat_Ok.
  rewrite Ef, Ec, (wrap32_small (_ - 1)), wrap64_small in Hi by (unfold U64_MAX, U32_MAX in *; lia). apply free_at in Hi; [|lia].
  apply wp_page_ref. intros pg Hp. pose proof (held_framed _ _ _ Hf Hi Hp) as Hno.
  apply wp_bind, wp_modify. set (s1 := match pg_device_replica pg with Some _ => _ | None => _ end).
  assert (H1 : framed k s1 /\ kv_store s1 = kv_store s).
  { unfold s1. destruct (pg_device_replica pg) as [l'|]; [|done]. split; [|done]. apply (same_pages_pool k s Hf). apply lease_release_storage. }
  destruct H1 as [Hf1 E1]. apply wp_bind. eapply (wp_put_page k s1 Hf1 _ pg); [by rewrite E1|by apply fresh_frame|]. intros Hf2.
  apply wp_bind. eapply wp_conseq; [apply (IH (offset + 1)); [exact Hf2|cbn; by rewrite E1|cbn; by rewrite E1|lia|lia]|by intros ? ? ?; apply wp_ret|done].
Qed.

Lemma materialize_batch_framed j ds pred : stays (materialize_batch j ds pred).
Proof.
  unfold materialize_batch. destruct (vsize ds =? 0); [by apply wp_ret|]. apply wp_bind, wp_get, wp_bind, wp_throw_if; [intros Hg|done]. simp_bool.
  apply wp_bind, wp_throw_if; [intros _|done]. apply wp_bind, wp_lift; [intros _ _|done]. apply wp_bind.
  eapply (wp_conseq _ (fun _ s => s = k)); [|intros hint s ->|done].
  { destruct pred as [h|]; [|by apply wp_ret]. apply wp_bind. unfold physical. apply wp_require_any. intros pg _ _. destruct (pg_device_replica pg); [|done]. by apply wp_ret, wp_ret. }
  pose proof (so_count _ (ki_store _ _ Hok)) as Hcnt. pose proof (so_capacity _ (ki_store _ _ Hok)) as Hcap. pose proof (vsize_nonneg ds).
  rewrite wrap32_small by (unfold U32_MAX in *; lia). apply wp_bind, wp_bind, wp_get. destruct (kv_reservations k !! j) as [r|] eqn:Hr; [|done].
  apply wp_bind, wp_lift; [|done]. intros [[p r'] ls] E. apply wp_bind, wp_put, wp_ret, wp_bind.
  assert (Hu : is_u32 (vsize ds)) by (unfold is_u32, U32_MAX in *; lia). pose proof (take_many_length _ _ _ _ _ _ _ _ _ _ Hok Hu Hr E) as Hlen.
  eapply wp_conseq; [apply (fill_descriptors_framed ls 0)| |done].
  - apply framed_pool; [by eapply materialize_spec|done|done].
  - done.
  - done.
  - lia.
  - lia.
  - intros hs s Hf. apply wp_bind, wp_modify, wp_ret. etransitivity; [exact Hf|]. by apply framed_pool.
Qed.

Lemma reserve_device_framed h j : stays (reserve_device_replica h j).
Proof.
  apply wp_require_any. intros pg _ Hp. apply wp_bind, wp_throw_if; [intros _|done]. apply wp_bind, (wp_pool_materialize_one k); [done|].
  intros l s1 (Hf1 & E1 & _) _. apply wp_bind. eapply (wp_put_page k s1 Hf1 _ pg); [by rewrite E1|by constructor|]. intros Hf2. by apply wp_ret.
Qed.

Lemma abort_device_framed h j : stays (abort_device_replica h j).
Proof.
  apply wp_noexcept_any, wp_bind, wp_get. destruct (negb _); [by apply wp_ret|]. apply wp_page_ref. intros pg Hp.
  destruct (pg_pending_device_replica pg) as [l|]; [|by apply wp_ret]. destruct (negb _); [by apply wp_ret|].
  apply wp_bind, (wp_pool_dematerialize_one k); [done|]. intros s1 (Hf1 & E1 & _). by eapply (wp_put_page k s1 Hf1 _ pg); [rewrite E1|constructor|].
Qed.

Lemma drop_device_framed h : stays (drop_device_replica h).
Proof.
  apply wp_bind, wp_get. destruct (negb _); [by apply wp_ret|]. apply wp_bind. unfold reset_device. apply wp_page_ref. intros pg Hp.
  apply wp_bind, (wp_reset_lease k); [done|]. intros s1 (Hf1 & E1 & _). eapply (wp_put_page k s1 Hf1 _ pg); [by rewrite E1|by constructor|]. intros Hf2. by apply wp_ret.
Qed.

Lemma reservations_framed p rs : p_spec p = p_spec (kv_pool k) -> framed k (mkKv p rs (kv_store k)).
Proof. intros Hs. by apply framed_pool. Qed.

Lemma ignore_framed {A} (m : K A) : stays m -> stays (ignore m).
Proof. intros H. apply wp_bind. eapply wp_conseq; [exact H| |done]. intros a s Hs. by apply wp_ret. Qed.

(** A call that checks and rewrites one page. *)
Ltac one_page := apply wp_require_any; intros ? _ Hp; apply wp_bind, wp_throw_if; [intros _|done]; (eapply (wp_put_page k); [done|exact Hp|by constructor|done]).

Lemma run_call_framed c : by_others c = true -> stays (run_call c).
Proof.
  intros Hout. destruct c; try discriminate Hout; cbn [run_call]; try apply ignore_framed; try one_page.
  - apply wp_modify. unfold reserve. destruct (_ || _); by apply reservations_framed.
  - apply wp_modify. by apply reservations_framed.
  - apply wp_bind, wp_get. destruct (kv_reservations k !! k0); [|done]. apply wp_bind, wp_lift; [|done]. intros [p r'] E. apply wp_put, reservations_framed.
    unfold resize_reservation in E. by simp_res.
  - apply wp_bind, wp_get. destruct (kv_reservations k !! k0); [|done]. apply wp_bind, wp_lift; [|done]. intros [p r'] E. apply wp_put, reservations_framed.
    unfold reservation_release, release_reservation in E. case_match; by simp_res.
  - apply materialize_framed.
  - apply materialize_batch_framed.
  - apply materialize_transfer_framed.
  - apply wp_bind, wp_get, wp_bind, wp_throw_if; [intros _|done]. apply wp_page_ref. intros pg Hp. apply wp_bind, wp_throw_if; [intros _|done].
    eapply (wp_put_page k); [done|exact Hp|by constructor|done].
  - apply abort_transfer_framed.
  - apply reserve_device_framed.
  - apply abort_device_framed.
  - apply drop_device_framed.
  - apply retain_framed.
  - apply truncate_framed.
  - apply truncate_inactive_framed.
  - apply release_reference_framed.
  - apply wp_bind, wp_get. destruct (negb _); [by apply wp_ret|]. apply wp_page_ref. intros pg Hp. apply release_reference_framed.
  - apply dematerialize_framed.
Qed.
End Outside.

(** * Tokens *)
Lemma framed_back k k' i pg' :
  framed k k' -> (ls_pages (kv_store k')).[i] = Some pg' -> exists pg, (ls_pages (kv_store k)).[i] = Some pg /\ page_frame pg pg'.
Proof.
  intros Hf Hp. pose proof (vget_Some_bounds _ _ _ Hp) as Hb. rewrite (fr_size _ _ Hf) in Hb. destruct (vget_is_Some _ _ Hb) as [pg H0].
  destruct (fr_page _ _ Hf _ _ H0) as (q & Hq & F). exists pg. split; [done|]. congruence.
Qed.

Lemma framed_valid k k' h pg :
  framed k k' -> page_valid (kv_store k) h = true -> (ls_pages (kv_store k)).[lh_index h] = Some pg -> held pg -> page_valid (kv_store k') h = true.
Proof.
  intros Hf Hv Hp Hh. destruct (fr_page _ _ Hf _ _ Hp) as (pg' & Hp' & F). destruct (pf_held _ _ F Hh) as (_ & Ho & Hg).
  unfold page_valid in *. by rewrite (fr_this _ _ Hf), Hp', Ho, Hg, <- (fr_this _ _ Hf), (fr_this _ _ Hf), Hp in *.
Qed.

Section Tokens.
Context {specs : penv} {R : list rtok} {P : list ptok} {ks : list kv} {p : nat} {k k' : kv}.
Hypothesis Henv : forall q i pg, pe_page specs q i pg.
Hypothesis Hdrop : Forall (fun t => rt_droppable t = false) R.
Hypothesis H : ptoks specs R P ks.
Hypothesis Hk : ks !! p = Some k.
Hypothesis Hok : kv_sound k'.
Hypothesis Hf : framed k k'.

Lemma framed_lookup q l : <[p := k']> ks !! q = Some l -> exists l0, ks !! q = Some l0 /\ framed l0 l.
Proof.
  destruct (decide (q = p)) as [->|Hne]; [|rewrite list_lookup_insert_ne by done; by exists l].
  rewrite list_lookup_insert_eq by (by eapply lookup_lt_Some). intros [= <-]. by exists k.
Qed.

Lemma framed_forward q l : ks !! q = Some l -> exists l', <[p := k']> ks !! q = Some l' /\ framed l l'.
Proof.
  intros Hl. destruct (decide (q = p)) as [->|Hne]; [|rewrite list_lookup_insert_ne by done; by exists l].
  rewrite list_lookup_insert_eq by (by eapply lookup_lt_Some). exists k'. split; [done|]. congruence.
Qed.

Lemma ptoks_framed : ptoks specs R P (<[p := k']> ks).
Proof.
  constructor.
  - apply Forall_insert; [apply H|done].
  - rewrite <- (px_specs _ _ _ _ H). change ((fun k => p_spec (kv_pool k)) <$> <[p := k']> ks = (fun k => p_spec (kv_pool k)) <$> ks).
    rewrite list_fmap_insert. apply list_insert_id. by rewrite list_lookup_fmap, Hk, (fr_spec _ _ Hf).
  - intros. apply Henv.
  - pose proof (px_held _ _ _ _ H) as Hh. rewrite Forall_forall in *. intros t Ht. destruct (Hh _ Ht) as (l & pg & Hl & Hv & Hp & [Hr He _]).
    destruct (framed_forward _ _ Hl) as (l' & Hl' & F). destruct (fr_page _ _ F _ _ Hp) as (pg' & Hp' & Fp).
    assert (Hheld : held pg) by (left; by rewrite Hr). destruct (pf_held _ _ Fp Hheld) as (Ee & _ & _). exists l', pg'.
    split; [done|]. split; [by eapply framed_valid|]. split; [done|]. constructor; [by rewrite (pf_host _ _ Fp)|congruence|by rewrite (Hdrop _ Ht)].
  - apply H.
  - intros q l i pg' (l0 & Hl & F)%framed_lookup Hp' Hne. destruct (framed_back _ _ _ _ F Hp') as (pg & Hp & Fp).
    rewrite (pf_host _ _ Fp) in Hne. by apply (px_owned _ _ _ _ H q l0 i pg).
  - apply Forall_forall. intros t Ht. destruct (ptoks_pinned _ _ _ _ H Ht) as (l & pg & Hl & Hv & Hp & Hpin).
    destruct (framed_forward _ _ Hl) as (l' & Hl' & F). exists l'. split; [done|]. eapply framed_valid; [exact F|done|exact Hp|]. right. lia.
  - intros q l i pg' (l0 & Hl & F)%framed_lookup Hp'. destruct (framed_back _ _ _ _ F Hp') as (pg & Hp & Fp). rewrite (pf_pins _ _ Fp). by eapply (px_pins _ _ _ _ H).
Qed.
End Tokens.
