(* ===== verification/ExtentViews.v ===== *)
(** The host bytes of a page: what the owners of the extents read through a
    page's replica, and that no two pages share them. *)

From S2P Require Import Prelude Tensor Layout PagedKv HostKvArena LogicalKv PageTokens HostExtents ExtentPages ExtentTokens ExtentSlots ExtentInv ExtentPartition ExtentRelease ExtentMarks.

(** The view of one page of an extent, as in the restore loop of the target
    programs: [extents.view(replica.extent).subview(replica.page_offset, 1)]. *)
Definition locate (p : nat) (h : LogicalKVPageHandle) : H (Z * option HostKVPageLayout) :=
  replica ← on_pages (Some p) (host_replica h);
  v ← view (hr_extent replica);
  s ← mget;
  v' ← mlift (subview (he_arena s) v (hr_page_offset replica) 1);
  mret (v_data v', v_layout v').

Section Views.
Context {c : consts} {G : list segment} {O : list ptok} {s : host}.
Hypothesis Hx : xinv c G O s.

Lemma segment_allocation sg :
  sg ∈ G -> allocation_live (he_arena s) (sg_allocation sg) (sg_descriptor sg) /\ arena_wf (he_arena s) /\
    exists layout, (a_layouts (he_arena s)).[d_layout (sg_descriptor sg)] = Some layout /\ store_layout c (sg_store sg) = Some layout /\
      located (d_offset (sg_descriptor sg)) (hl_page_stride layout) (sg_slots sg).
Proof.
  intros Hin. pose proof (xv_tokens _ _ _ _ Hx) as H. destruct (hv_arena _ _ _ _ _ _ _ H) as [Hc Hl]. rewrite Forall_forall in Hl.
  split; [apply (Hl (seg_allocation sg)); by apply list_elem_of_fmap_2|]. split; [apply Hc|].
  destruct (bk_layout _ _ _ _ (gk_block _ _ (xinv_seg _ Hx Hin))) as (layout & H1 & H2 & H3). exists layout.
  destruct (hv_arena_const _ _ _ _ _ _ _ H) as (_ & -> & _). done.
Qed.

Lemma located_at base stride slots j sl : located base stride slots -> slots !! j = Some sl -> sl_loc sl = base + stride * Z.of_nat j.
Proof.
  revert base j. induction slots as [|sl' slots IH]; intros base j Hl Hj; [done|]. destruct Hl as [E Hl]. destruct j as [|j]; cbn in Hj.
  - injection Hj as ->. lia.
  - rewrite (IH _ _ Hl Hj). lia.
Qed.

(** The bytes of the segment. *)
Definition segment_view (sg : segment) : HostKVAllocationView :=
  mkView (allocation_handle (sg_allocation sg)) (c_backing c + d_offset (sg_descriptor sg)) (store_layout c (sg_store sg)) (vsize (sg_slots sg)).

Lemma view_segment sg : sg ∈ G -> c_backing c <> 0 -> view_allocation (Some (sg_allocation sg)) s = (s, Ok (segment_view sg)).
Proof.
  intros Hin Hb. destruct (segment_allocation _ Hin) as (Hal & Hwf & layout & Hlay & Hst & Hloc).
  destruct (allocation_live_handle _ _ _ Hwf Hal) as (_ & _ & Hvh). pose proof Hal as (_ & Hd & _).
  destruct (hv_arena_const _ _ _ _ _ _ _ (xv_tokens _ _ _ _ Hx)) as (_ & _ & Hback).
  unfold view_allocation. rewrite (M_bind_run _ mget s s s) by done. unfold mlift, arena_view, throw_if. rewrite Hvh. cbn.
  rewrite (proj2 (vat_Ok _ _ _) Hd). cbn. rewrite (proj2 (vat_Ok _ _ _) Hlay). cbn.
  unfold allocation_data, segment_view. rewrite Hback, (proj2 (Z.eqb_neq _ 0)), Hst by done.
  by rewrite (bk_pages _ _ _ _ (gk_block _ _ (xinv_seg _ Hx Hin))).
Qed.

(** Page [j] of a segment. *)
Lemma subview_segment sg j sl :
  sg ∈ G -> sg_slots sg !! j = Some sl ->
  subview (he_arena s) (segment_view sg) (Z.of_nat j) 1 =
    Ok (mkView (allocation_handle (sg_allocation sg)) (c_backing c + sl_loc sl) (store_layout c (sg_store sg)) 1).
Proof.
  intros Hin Hj. destruct (segment_allocation _ Hin) as (Hal & Hwf & layout & Hlay & Hst & Hloc).
  destruct (allocation_live_handle _ _ _ Hwf Hal) as (_ & Eh & Hvh). pose proof Hal as (Ho & Hd & Ha & _).
  pose proof (located_at _ _ _ _ _ Hloc Hj) as El. pose proof (bk_pages _ _ _ _ (gk_block _ _ (xinv_seg _ Hx Hin))) as Epages.
  pose proof (lookup_lt_Some _ _ _ Hj) as Hlt. destruct (live_bytes _ _ _ Hwf Hal Hlay) as [Hbytes _].
  destruct (active_descriptor _ _ _ Hwf Hd Ha) as (Hpos & Hoff & Hend & _). pose proof (aw_cap _ Hwf) as Hcap. pose proof (aw_this _ Hwf) as Hthis.
  assert (Hstride : 0 < hl_page_stride layout). { destruct (block_bytes _ _ _ Hx Hin) as (_ & Hs & _). unfold seg_stride in Hs. by rewrite Hst in Hs. }
  unfold subview, view_valid, segment_view. cbn [v_handle v_page_count v_layout v_data].
  rewrite Hvh, Eh, Hst. cbn [hh_owner]. rewrite Ho, (proj2 (Z.eqb_neq _ 0)) by lia. unfold vsize.
  rewrite (proj2 (Z.ltb_ge _ _)), (proj2 (Z.ltb_ge _ _)) by lia. cbn. rewrite wrap64_small; [|unfold vsize, SIZE_MAX in *; nia].
  by replace (c_backing c + d_offset (sg_descriptor sg) + Z.of_nat j * hl_page_stride layout) with (c_backing c + sl_loc sl) by lia.
Qed.

(** A slot is at its place, for its layout. *)
Lemma locate_slot sg j sl :
  sg ∈ G -> sg_published sg = true -> sg_slots sg !! j = Some sl -> c_backing c <> 0 ->
  locate (sg_store sg) (sl_page sl) s = (s, Ok (c_backing c + sl_loc sl, store_layout c (sg_store sg))).
Proof.
  intros Hin Hpub Hj Hb. apply list_elem_of_lookup_2 in Hj as Hel. destruct (published_page _ _ _ _ Hx Hin Hpub Hel) as (k & pg & Hk & Hv & Hp & _ & _ & j' & Hj' & Hr).
  assert (j' = j) as ->.
  { eapply (NoDup_lookup (map slot_index (sg_slots sg))); [apply (xinv_seg _ Hx Hin)|rewrite lookup_map, Hj'; done|rewrite lookup_map, Hj; done]. }
  unfold locate. rewrite (M_bind_run _ _ s s (replica_of (capability_of c sg) (Z.of_nat j) sl)); cycle 1.
  { unfold on_pages. rewrite Hk. unfold host_replica. rewrite (require_run _ _ _ _ Hv Hp), Hr. cbn. by rewrite set_kv_same. }
  cbn [hr_extent replica_of hr_page_offset]. rewrite (M_bind_run _ _ s s (segment_view sg)); cycle 1.
  { unfold view, require_extent. rewrite (M_bind_run _ _ s s (snd (seg_extent sg))); [by apply view_segment|].
    unfold mbind, M_bind, mget, mthrow_if, throw_if, mlift. rewrite (proj2 (extent_valid_iff _ Hx)) by (by exists sg). cbn [negb].
    unfold ext_ref, mbind, M_bind, mget, mlift. cbn [hx_index capability_of]. by rewrite (proj2 (vat_Ok _ _ _) (extent_at _ Hx Hin)). }
  rewrite (M_bind_run _ mget s s s) by done. unfold mlift, mbind, M_bind. by rewrite (subview_segment _ _ _ Hin Hj).
Qed.

(** The view a reservation is filled through. *)
Lemma writable_view_segment sg :
  sg ∈ G -> sg_published sg = false -> c_backing c <> 0 -> writable_view (reservation_of c sg) s = (s, Ok (segment_view sg)).
Proof.
  intros Hin Hpub Hb. unfold writable_view, validate. rewrite (M_bind_run _ _ s s (snd (seg_extent sg))); [by apply view_segment|].
  unfold mbind, M_bind, mget, mthrow_if, throw_if, mlift. rewrite (proj2 (reservation_valid_iff _ Hx)) by (by exists sg). cbn [negb].
  unfold ext_ref, mbind, M_bind, mget, mlift. cbn [xr_descriptor reservation_of]. by rewrite (proj2 (vat_Ok _ _ _) (extent_at _ Hx Hin)).
Qed.
End Views.

(** * Pages with a replica *)
Definition resident (ks : list kv) (p : nat) (h : LogicalKVPageHandle) : bool :=
  match ks !! p with
  | Some k => page_test (kv_store k) h (fun pg => has (pg_host_replica pg))
  | None => false
  end.

Section Resident.
Context {c : consts} {G : list segment} {O : list ptok} {s : host}.
Hypothesis Hx : xinv c G O s.

Lemma elem_of_published t :
  t ∈ pslots (published_of G) <-> exists sg, sg ∈ G /\ sg_published sg = true /\ fst t = sg_store sg /\ snd t ∈ sg_slots sg.
Proof.
  rewrite elem_of_pslots. split.
  - intros (sg & [Hp Hin]%list_elem_of_filter & H1 & H2). by exists sg.
  - intros (sg & Hin & Hp & H1 & H2). exists sg. split; [by apply list_elem_of_filter|done].
Qed.

Lemma resident_slot p h : resident (he_pages s) p h = true <-> exists sl, (p, sl) ∈ pslots (published_of G) /\ sl_page sl = h.
Proof.
  unfold resident. split.
  - intros Hr. destruct (he_pages s !! p) as [k|] eqn:Hk; [|done]. apply page_test_true in Hr as (pg & Hv & Hp & _ & Hh).
    destruct (pg_host_replica pg) as [r|] eqn:Hr; [|done]. destruct (replica_slot _ _ _ _ _ _ _ Hx Hk Hv Hp Hr) as (sg & j & sl & H1 & H2 & <- & H4 & <- & _).
    exists sl. split; [|done]. apply elem_of_published. exists sg. apply list_elem_of_lookup_2 in H4. done.
  - intros (sl & (sg & Hin & Hpub & E & Hel)%elem_of_published & <-). cbn in E, Hel. subst p.
    destruct (published_page _ _ _ _ Hx Hin Hpub Hel) as (k & pg & Hk & Hv & Hp & _ & _ & j & _ & Hr). rewrite Hk. unfold page_test. rewrite Hv. cbn.
    unfold slot_index in Hp. by rewrite Hp, Hr.
Qed.

(** A page has one slot. *)
Lemma page_slot_unique t t' :
  t ∈ pslots (published_of G) -> t' ∈ pslots (published_of G) -> fst t = fst t' -> sl_page (snd t) = sl_page (snd t') -> t = t'.
Proof.
  intros (sg & Hin & Hpub & E & Hel)%elem_of_published (sg' & Hin' & Hpub' & E' & Hel')%elem_of_published Hst Hpg.
  destruct (published_page _ _ _ _ Hx Hin Hpub Hel) as (k & pg & Hk & _ & Hp & _ & _ & j & _ & Hr).
  destruct (published_page _ _ _ _ Hx Hin' Hpub' Hel') as (k' & pg' & Hk' & _ & Hp' & _ & _ & j' & _ & Hr').
  rewrite <- E', <- Hst, E, Hk in Hk'. injection Hk' as <-. unfold slot_index in Hp, Hp'. rewrite <- Hpg, Hp in Hp'. injection Hp' as <-.
  rewrite Hr in Hr'. injection Hr' as _ _ _ Hn _ _. destruct (node_unique _ _ _ _ _ _ Hx Hin Hin' Hel Hel' Hn) as [_ Es].
  destruct t, t'; cbn in *. congruence.
Qed.

Lemma locate_resident p sl :
  c_backing c <> 0 -> (p, sl) ∈ pslots (published_of G) -> locate p (sl_page sl) s = (s, Ok (c_backing c + sl_loc sl, store_layout c p)).
Proof.
  intros Hb (sg & Hin & Hpub & E & (j & Hj)%list_elem_of_lookup)%elem_of_published. cbn in E, Hj. subst p. by eapply locate_slot.
Qed.

(** No two slots share bytes. *)
Lemma slots_disjoint p p' sl sl' :
  (p, sl) ∈ pslots (published_of G) -> (p', sl') ∈ pslots (published_of G) -> (p, sl) <> (p', sl') ->
  sl_loc sl + seg_stride c p <= sl_loc sl' \/ sl_loc sl' + seg_stride c p' <= sl_loc sl.
Proof.
  intros (sg & Hin & Hpub & E & (j & Hj)%list_elem_of_lookup)%elem_of_published (sg' & Hin' & Hpub' & E' & (j' & Hj')%list_elem_of_lookup)%elem_of_published Hne.
  cbn in *. subst p p'. destruct (segment_allocation Hx _ Hin) as ((_ & Hd & Ha & _) & Hwf & l & _ & Hst & Hloc).
  destruct (segment_allocation Hx _ Hin') as ((_ & Hd' & Ha' & _) & _ & l' & _ & Hst' & Hloc').
  destruct (block_bytes _ _ _ Hx Hin) as (Hb & Hs & _). destruct (block_bytes _ _ _ Hx Hin') as (Hb' & Hs' & _).
  apply (located_at _ _ _ _ _ Hloc) in Hj as El. apply (located_at _ _ _ _ _ Hloc') in Hj' as El'. pose proof (lookup_lt_Some _ _ _ Hj) as Hlt. pose proof (lookup_lt_Some _ _ _ Hj') as Hlt'.
  unfold seg_bytes, seg_stride, vsize in *. rewrite Hst, Hst' in *. rewrite El, El'.
  destruct (decide (sg_index sg = sg_index sg')) as [Hi|Hsg].
  - assert (sg = sg') as <- by (by eapply index_unique). simplify_eq. destruct (lt_eq_lt_dec j j') as [[?| <-]|?]; [left; nia| |right; nia]. simplify_eq.
  - assert (Hdd : ha_descriptor (sg_allocation sg) <> ha_descriptor (sg_allocation sg')).
    { intros Heq. apply Hsg. f_equal. apply list_elem_of_lookup in Hin as [i Hi]. apply list_elem_of_lookup in Hin' as [i' Hi'].
      pose proof (ho_nodup _ (proj1 (hv_arena _ _ _ _ _ _ _ (xv_tokens _ _ _ _ Hx)))) as Hnd. cbn in Hnd. rewrite !map_map in Hnd. cbn in Hnd.
      assert (i = i') as ->; [|congruence]. eapply NoDup_lookup; [exact Hnd|by rewrite lookup_map, Hi|rewrite lookup_map, Hi'; cbn; by rewrite Heq]. }
    destruct (active_disjoint _ _ _ _ _ Hwf Hdd Hd Hd' Ha Ha'); [left; nia|right; nia].
Qed.
(** The layout of the pages of a store. *)
Lemma layout_of_page p sl :
  (p, sl) ∈ pslots (published_of G) -> exists l, store_layout c p = Some l /\ page_layout p s = (s, Ok l).
Proof.
  intros (sg & Hin & Hpub & E & Hel)%elem_of_published. cbn in E, Hel. subst p. destruct (segment_allocation Hx _ Hin) as (_ & _ & l & _ & Hst & _).
  destruct (published_page _ _ _ _ Hx Hin Hpub Hel) as (k & _ & Hk & _). exists l. split; [done|]. by rewrite (page_layout_run _ _ Hx Hk), Hst.
Qed.
End Resident.

(** * What a trim does to the pages *)
Section Trimmed.
Context {c : consts} {m : marks} {G : list segment} {O : list ptok} {keep : pslot -> bool} {s s' : host}.
Hypothesis Hx : xinv c G O s.
Hypothesis Ht : trimmed (remark m c) G O keep s s'.

Lemma trimmed_resident p h :
  resident (he_pages s') p h = true <-> exists sl, (p, sl) ∈ pslots (published_of G) /\ sl_page sl = h /\ keep (p, sl) = true.
Proof.
  destruct Ht as (G' & Hx' & _ & Hs'). rewrite (resident_slot Hx'). split; intros (sl & Hin & H).
  - rewrite Hs', list_elem_of_filter in Hin. exists sl. tauto.
  - exists sl. rewrite Hs', list_elem_of_filter. tauto.
Qed.

(** Of a page with a replica, in the slot [sl]. *)
Lemma trimmed_page p sl :
  c_backing c <> 0 -> (p, sl) ∈ pslots (published_of G) ->
  resident (he_pages s') p (sl_page sl) = keep (p, sl) /\
  (keep (p, sl) = true -> exists at_, locate p (sl_page sl) s = (s, Ok at_) /\ locate p (sl_page sl) s' = (s', Ok at_)).
Proof.
  intros Hb Hin. split.
  - apply eq_bool_prop_intro. rewrite !Is_true_true, trimmed_resident. split; [|intros ?; by exists sl].
    intros (sl' & Hin' & Hpg & Hk). assert ((p, sl) = (p, sl')) as ->; [|done]. by apply (page_slot_unique Hx).
  - intros Hk. exists (c_backing c + sl_loc sl, store_layout c p). split; [by apply (locate_resident Hx)|].
    destruct Ht as (G' & Hx' & _ & Hs'). apply (locate_resident Hx'); [done|]. rewrite Hs', list_elem_of_filter. done.
Qed.

(** All pages are what they were but for the replica. *)
Lemma trimmed_pages p i pg : page_at (he_pages s') p i = Some pg -> unchanged_but_host (he_pages s) p i pg.
Proof.
  destruct Ht as (G' & Hx' & _). unfold page_at. destruct (he_pages s' !! p) as [k|] eqn:Hk; [|done]. intros Hp.
  apply (px_page _ _ _ _ (hv_pages _ _ _ _ _ _ _ (xv_tokens _ _ _ _ Hx')) _ _ _ _ Hk Hp).
Qed.
End Trimmed.
