(* ===== verification/ExtentCopy.v ===== *)
(** A copy of pages to the host from beginning to end: the reservation, the
    device pages to copy from, the view to copy to, the publication, and where
    the pages are found afterwards. *)

From S2P Require Import Prelude Tensor Layout PagedKv HostKvArena LogicalKv PageTokens HostExtents ExtentPages ExtentTokens ExtentSlots ExtentInv ExtentPartition ExtentRelease ExtentMarks ExtentFrame ExtentViews.

(** What pins and replicas do not change of a page. *)
Definition content_kept (ks0 : list kv) (p : nat) (i : Z) (pg : Page) : Prop :=
  exists pg0, page_at ks0 p i = Some pg0 /\
    (pg_occupied pg = true -> pg_device_replica pg = pg_device_replica pg0 /\ pg_content_epoch pg = pg_content_epoch pg0 /\
       pg_committed_columns pg = pg_committed_columns pg0).

#[global] Instance content_kept_host ks0 specs : HostStable (mkPenv specs (content_kept ks0)).
Proof. constructor; intros p i pg; [intros r Hocc|intros Hocc]; (intros (pg0 & H0 & Hk)); [by exists pg0|]. intros _ _ _. exists pg0. split; [done|]. done. Qed.
#[global] Instance content_kept_pin ks0 specs : PinStable (mkPenv specs (content_kept ks0)).
Proof. intros p i pg n (pg0 & H0 & Hk). by exists pg0. Qed.

Section Copy.
Context {c : consts} {G : list segment} {O : list ptok} {s s1 : host} {p : nat} {k : kv} {sg : segment}.
Notation c' := (with_page (content_kept (he_pages s)) c).
Hypothesis Hx : xinv c G O s.
Hypothesis Hk : he_pages s !! p = Some k.
Hypothesis Hx1 : xinv c' (sg :: G) O s1.
Hypothesis Hpub : sg_published sg = false.
Hypothesis Hst : sg_store sg = p.
Hypothesis Hcur : Forall (slot_current k) (sg_slots sg).

Lemma xinv_content : xinv c' G O s.
Proof. apply xinv_with_page; [done|]. intros q i pg Hp. by exists pg. Qed.

(** The page of a slot after [prepare]. *)
Lemma copied_page sl :
  sl ∈ sg_slots sg -> exists k1 pg pg0, he_pages s1 !! p = Some k1 /\ page_valid (kv_store k1) (sl_page sl) = true /\
    (ls_pages (kv_store k1)).[slot_index sl] = Some pg /\ (ls_pages (kv_store k)).[slot_index sl] = Some pg0 /\
    pg_device_replica pg = pg_device_replica pg0 /\ pg_content_epoch pg = pg_content_epoch pg0 /\
    pg_committed_columns pg = pg_committed_columns pg0 /\ pg_host_replica pg = None.
Proof.
  intros Hel. pose proof (hv_pages _ _ _ _ _ _ _ (xv_tokens _ _ _ _ Hx1)) as Hp1.
  destruct (ptoks_pinned _ _ _ (p, sl_page sl) Hp1) as (k1 & pg & Hk1 & Hv & Hp & _).
  { cbn. unfold seg_pins at 1. rewrite Hpub, Hst. apply elem_of_app. left. apply elem_of_app. left. unfold pins_of. by apply (list_elem_of_fmap_2 (fun sl => (p, sl_page sl))). }
  cbn in Hk1, Hv, Hp. destruct (px_page _ _ _ _ Hp1 _ _ _ _ Hk1 Hp) as (pg0 & H0 & Hkept). unfold page_at in H0. rewrite Hk in H0.
  destruct Hkept as (? & ? & ?); [by eapply page_valid_occupied|]. exists k1, pg, pg0. repeat (split; [done|]).
  destruct (pg_host_replica pg) as [r|] eqn:Hr; [exfalso|done]. rewrite Forall_forall in Hcur. specialize (Hcur _ Hel).
  apply page_test_true in Hcur as (q & _ & Hq & _ & Hc). rewrite H0 in Hq. injection Hq as <-. simp_bool. rewrite has_false in *.
  pose proof (px_owned _ _ _ _ Hp1 _ _ _ _ Hk1 Hp ltac:(by rewrite Hr)) as Hin. cbn in Hin. unfold seg_reps at 1 in Hin. rewrite Hpub in Hin. cbn in Hin.
  revert Hin. eapply no_token; [apply (hv_pages _ _ _ _ _ _ _ (xv_tokens _ _ _ _ Hx))|exact Hk|exact H0|done].
Qed.

Lemma copied_current k1 : he_pages s1 !! p = Some k1 -> Forall (slot_current k1) (sg_slots sg).
Proof.
  intros Hk1. apply Forall_forall. intros sl Hel. destruct (copied_page _ Hel) as (k1' & pg & pg0 & Hk1' & Hv & Hp & Hp0 & _ & He & Hc & Hh).
  rewrite Hk1 in Hk1'. injection Hk1' as <-. rewrite Forall_forall in Hcur. specialize (Hcur _ Hel).
  apply page_test_true in Hcur as (q & _ & Hq & _ & Ht). unfold slot_index in *. rewrite Hp0 in Hq. injection Hq as <-.
  unfold slot_current, can_attach_host_replica, page_test. rewrite Hv, Hp, He, Hc, Hh. cbn. by simp_bool; rewrite !(proj2 (Z.eqb_eq _ _)).
Qed.

Lemma copied_sources :
  forallb (can_copy_to_host (kv_store k)) (map sl_page (sg_slots sg)) = true ->
  wp (device_sources (reservation_of c sg))
    (fun ds s' => s' = s1 /\ Forall2 (fun h d => physical h k = (k, Ok d)) (map sl_page (sg_slots sg)) ds) no_error s1.
Proof.
  intros Hcan. pose proof (extent_at _ Hx1 ltac:(by left)) as Hext.
  assert (Hval : validate (reservation_of c sg) s1 = (s1, Ok (snd (seg_extent sg)))).
  { unfold validate, mbind, M_bind, mget, mthrow_if, throw_if, mlift. rewrite (proj2 (reservation_valid_iff _ Hx1)) by (exists sg; split; [by left|done]). cbn [negb].
    unfold ext_ref, mbind, M_bind, mget, mlift. cbn [xr_descriptor reservation_of]. by rewrite (proj2 (vat_Ok _ _ _) Hext). }
  unfold device_sources, device_sources_into. apply wp_bind. eapply wp_run; [exact Hval|]. apply wp_bind. eapply wp_run; [exact Hval|].
  cbn [seg_extent extent_of snd ex_page_count ex_page_store ex_head]. rewrite Hst.
  apply wp_bind, wp_throw_if; [intros _|by rewrite Z.eqb_refl]. unfold vsize. rewrite Nat2Z.id.
  assert (Hphys : forall sl d, sl ∈ sg_slots sg -> slot_source s1 p sl d -> physical (sl_page sl) k = (k, Ok d)).
  { intros sl d Hel (k1 & pg & l & Hk1 & Hv & Hp & Hl & ->). destruct (copied_page _ Hel) as (k1' & pg' & pg0 & Hk1' & _ & Hp' & Hp0 & Hd & _). simplify_eq.
    rewrite Forall_forall in Hcur. specialize (Hcur _ Hel). apply page_test_true in Hcur as (q & Hv0 & Hq & _). unfold physical. rewrite (require_run _ _ _ _ Hv0 Hp0), <- Hd, Hl. done. }
  pose proof (xv_tokens _ _ _ _ Hx1) as H. cbn in H. unfold seg_nodes at 1 in H.
  eapply wp_conseq with (E := no_error); [eapply collect_sources_slots; [exact H|]| |done].
  - apply Forall_forall. intros sl Hel. destruct (copied_page _ Hel) as (k1 & pg & pg0 & Hk1 & Hv & Hp & Hp0 & Hd & _).
    rewrite forallb_forall in Hcan. specialize (Hcan (sl_page sl) ltac:(apply list_elem_of_In; by apply list_elem_of_fmap_2)). unfold can_copy_to_host in Hcan. simp_bool.
    match goal with H : can_pin_source _ _ = true |- _ => apply page_test_true in H as (q & _ & Hq & _ & Hc) end. unfold slot_index in *. simplify_eq. simp_bool.
    match goal with H : has (pg_device_replica _) = true |- _ => rewrite <- Hd in H; destruct (pg_device_replica pg) as [l|] eqn:El; [|done] end.
    exists (lease_handle l), k1, pg, l. done.
  - intros ds s' [Hall ->]. split; [done|]. apply Forall2_fmap_l. rewrite Forall2_lookup in Hall |- *. intros i. specialize (Hall i).
    destruct (sg_slots sg !! i) as [sl|] eqn:Ei; inversion Hall as [? d Hs'|]; subst; constructor. apply Hphys; [by eapply list_elem_of_lookup_2|done].
Qed.
End Copy.

(** From [prepare] to [publish]. *)
Lemma copy_run c G O s p k membership :
  xinv c G O s -> he_pages s !! p = Some k -> NoDup membership -> c_backing c <> 0 ->
  wp (prepare p membership)
    (fun o s1 => forall r, o = Some r -> exists v ds s2 cap,
       writable_view r s1 = (s1, Ok v) /\ v_page_count v = vsize membership /\
       device_sources r s1 = (s1, Ok ds) /\ Forall2 (fun h d => physical h k = (k, Ok d)) membership ds /\
       publish r s1 = (s2, Ok (cap, consume r)) /\
       forall i h, membership !! i = Some h -> exists w, subview (he_arena s1) v (Z.of_nat i) 1 = Ok w /\ locate p h s2 = (s2, Ok (v_data w, v_layout w)))
    any_error s.
Proof.
  intros Hx Hk Hnd Hb. set (c' := with_page (content_kept (he_pages s)) c).
  eapply wp_conseq; [apply (prepare_segment (c := c') (O := O) G s p k membership); [by apply xinv_content|done|done]| |done].
  intros [r|] s1; [|done]. intros (sg & Hx1 & Hpub & Hst & Hpages & Hcur & -> & Hcan) ? [= <-].
  pose proof (writable_view_segment Hx1 sg ltac:(by left) Hpub Hb) as Hw.
  rewrite <- Hpages in Hcan. pose proof (copied_sources Hx Hk Hx1 Hpub Hst Hcur Hcan) as Hds. unfold wp in Hds.
  destruct (device_sources (reservation_of c sg) s1) as [s1' [ds|e]] eqn:Ed; [|done]. destruct Hds as [-> Hds]. rewrite Hpages in Hds.
  assert (exists k1, he_pages s1 !! p = Some k1) as [k1 Hk1].
  { assert (exists sl, sl ∈ sg_slots sg) as [sl Hel].
    { pose proof (bk_some _ _ _ _ (gk_block _ _ (xinv_seg _ Hx1 ltac:(by left)))) as Hne. destruct (sg_slots sg) as [|sl slots]; [done|]. exists sl. by left. }
    destruct (copied_page Hx Hk Hx1 Hpub Hst Hcur sl Hel) as (k1 & _ & _ & Hk1 & _). by exists k1. }
  pose proof (publish_segment _ _ sg k1 Hx1 Hpub ltac:(by rewrite Hst)) as Hp. unfold wp in Hp.
  pose proof (copied_current Hx Hk Hx1 Hpub Hst Hcur k1 Hk1) as Hcur1.
  change (reservation_of c' sg) with (reservation_of c sg) in *.
  destruct (publish (reservation_of c sg) s1) as [s2 [[cap r']|e]] eqn:Ep; [|by destruct Hp as (_ & _ & ?)]. destruct Hp as (_ & [= -> ->] & Hx2).
  exists (segment_view (c := c') sg), ds, s2, (capability_of c' sg). split; [done|]. split.
  { cbn. rewrite <- Hpages. unfold vsize. by rewrite length_map. }
  split; [done|]. split; [done|]. split; [done|]. intros i h Hi. rewrite <- Hpages in Hi. rewrite lookup_map in Hi. destruct (sg_slots sg !! i) as [sl|] eqn:Ei; [|done].
  cbn in Hi. injection Hi as <-. eexists. split; [apply (subview_segment Hx1 _ _ _ ltac:(by left) Ei)|]. rewrite <- Hst.
  apply (locate_slot Hx2 (published sg) i sl); [by left|done|done|done].
Qed.
