(* ===== verification/ExtentRun.v ===== *)
(** Runs of the host extents of src/src/runtime/host_kv_extent_store.h: the
    calls of [HostKVExtentStore], the ends of its reservation objects, and
    what others do to the page stores meanwhile; and what holds in every state
    they reach. *)

From S2P Require Import Prelude Tensor Layout PagedKv HostKvArena LogicalKv PageTokens HostExtents ExtentPages ExtentTokens ExtentSlots ExtentInv ExtentPartition ExtentRelease ExtentMarks ExtentFrame ExtentViews.

(** * Calls *)

(** The store with what its callers hold: reservations, and pins on pages. *)
Record extent_client : Type := mkExtClient {
  ec_host : host;
  ec_reservations : list HostKVExtentReservation;
  ec_pins : list ptok;
}.

Inductive extent_call : Type :=
  | XPrepare (p : nat) (membership : list LogicalKVPageHandle)
  | XPublish (j : nat)
  | XAbort (j : nat)
  | XRelease (capability : HostKVExtentCapability)
  | XReleaseReplicas (releases : list HostKVPageReplicaRelease)
  | XReleasePages (p : nat) (pages : list LogicalKVPageHandle)
  | XReleaseUnreferenced
  | XCanAllocate (releases last_references : list HostKVPageReplicaRelease) (allocations : list HostKVAllocationRequest)
  | XPages (p : nat) (c : call).

Notation X := (M extent_client).

Definition on_host {A} (m : H A) : X A := fun s =>
  let '(h, r) := m (ec_host s) in (mkExtClient h (ec_reservations s) (ec_pins s), r).

Definition put_reservations (f : list HostKVExtentReservation -> list HostKVExtentReservation) : X unit :=
  mmodify (fun s => mkExtClient (ec_host s) (f (ec_reservations s)) (ec_pins s)).

(** The caller's [j]-th reservation, which the call consumes. *)
Definition with_reservation {A} (j : nat) (m : HostKVExtentReservation -> H A) : X unit :=
  s ← mget;
  match ec_reservations s !! j with
  | Some r => _ ← on_host (m r); put_reservations (delete j)
  | None => mthrow Undefined
  end.

#[global] Instance ptok_eq_dec : EqDecision ptok.
Proof. solve_decision. Defined.

(** Pins are counted for the caller. *)
Fixpoint remove_pin (t : ptok) (pins : list ptok) : list ptok :=
  match pins with
  | [] => []
  | t' :: pins' => if decide (t' = t) then pins' else t' :: remove_pin t pins'
  end.

Definition count_pin (p : nat) (c : call) (pins : list ptok) : list ptok :=
  match c with
  | CPin h => (p, h) :: pins
  | CUnpin h => remove_pin (p, h) pins
  | _ => pins
  end.

Definition run_extent (c : extent_call) : X unit :=
  match c with
  | XPrepare p membership =>
      r ← on_host (prepare p membership);
      match r with
      | Some r => put_reservations (cons r)
      | None => mret tt
      end
  | XPublish j => with_reservation j publish
  | XAbort j => with_reservation j destroy_reservation
  | XRelease capability => _ ← on_host (release capability); mret tt
  | XReleaseReplicas releases => _ ← on_host (release_page_replicas releases); mret tt
  | XReleasePages p pages => _ ← on_host (release_pages_of p pages); mret tt
  | XReleaseUnreferenced => _ ← on_host release_unreferenced; mret tt
  | XCanAllocate releases last allocations => _ ← on_host (can_allocate_after_page_releases releases last allocations); mret tt
  | XPages p c =>
      _ ← on_host (on_pages (Some p) (run_call c));
      mmodify (fun s => mkExtClient (ec_host s) (ec_reservations s) (count_pin p c (ec_pins s)))
  end.

(** The callers pass pages of existing stores, distinct ones to [prepare], and
    give back only pins they took; the replicas belong to the extents. *)
Definition page_call_ok (p : nat) (k : kv) (pins : list ptok) (c : call) : Prop :=
  call_ok k c /\
  match c with
  | CPin _ => True
  | CUnpin h => (p, h) ∈ pins
  | _ => by_others c = true
  end.

Definition extent_call_ok (s : extent_client) (c : extent_call) : Prop :=
  let ks := he_pages (ec_host s) in
  match c with
  | XPrepare p membership => (p < length ks)%nat /\ NoDup membership
  | XReleaseReplicas releases => Forall (points_to_store ks) releases
  | XReleasePages p _ => (p < length ks)%nat
  | XCanAllocate releases last _ => Forall (points_to_store ks) releases /\ Forall (points_to_store ks) last
  | XPages p c => exists k, ks !! p = Some k /\ page_call_ok p k (ec_pins s) c
  | _ => True
  end.

(** ** Runs *)
Definition fresh_store (k : kv) : Prop :=
  exists this backing layout store_this capacity p0 st0,
    0 < this /\ is_u32 (ps_page_group_count (pool_layout_spec layout)) /\ make_pool this backing layout = Ok p0 /\
    is_u32 capacity /\ make_store store_this p0 capacity = Ok st0 /\ k = mkKv p0 [] st0.

(** The arena, the page stores and the extent store, just constructed. *)
Definition extent_start (s : extent_client) : Prop :=
  exists this backing capacity layouts a0 store_this descriptors x0 ks,
    0 < this /\ 0 < backing /\ 0 < capacity <= SIZE_MAX /\ Forall (fun l => 0 <= g_page_tokens (hl_geometry l)) layouts /\
    make_host_arena this backing capacity layouts = Ok a0 /\
    0 < store_this /\ is_u32 descriptors /\ make_extent_store store_this descriptors = Ok x0 /\
    Forall fresh_store ks /\ s = mkExtClient (mkHost a0 ks x0) [] [].

Inductive extent_reachable : extent_client -> Prop :=
  | xt_start s : extent_start s -> extent_reachable s
  | xt_call s c s' r :
      extent_reachable s -> extent_call_ok s c -> run_extent c s = (s', r) -> r <> Err Terminate -> extent_reachable s'.

(** * The invariant *)
Lemma remove_pin_perm t pins : t ∈ pins -> pins ≡ₚ t :: remove_pin t pins.
Proof.
  induction pins as [|t' pins IH]; [by intros ?%elem_of_nil|]. cbn. case_decide as Hd; [by subst|].
  intros [->|Hin]%elem_of_cons; [done|]. rewrite (IH Hin) at 1. by apply perm_swap.
Qed.

Definition client_inv (c : consts) (s : extent_client) : Prop :=
  exists G, xinv (remark (marks_of (he_store (ec_host s))) c) G (ec_pins s) (ec_host s) /\
    marks_ok (c_cap c) (marks_of (he_store (ec_host s))) /\
    ec_reservations s ≡ₚ map (reservation_of c) (reserved_of G).

Lemma reservation_of_remark m c sg : reservation_of (remark m c) sg = reservation_of c sg.
Proof. done. Qed.

Lemma client_inv_intro c m G h rs pins :
  xinv (remark m c) G pins h -> marks_ok (c_cap c) m -> rs ≡ₚ map (reservation_of c) (reserved_of G) -> client_inv c (mkExtClient h rs pins).
Proof. intros Hx Hm Hr. exists G. cbn. pose proof (xinv_marks _ _ _ _ Hx) as E. cbn in E. by rewrite E. Qed.

(** ** The start *)
Lemma replicate_stamps n : stamps_ok (Z.of_nat n) 0 (replicate n 0).
Proof. constructor; [unfold vsize; by rewrite length_replicate|]. apply Forall_replicate. lia. Qed.

Lemma fresh_store_ok k : fresh_store k -> kv_sound k /\ forall i pg, (ls_pages (kv_store k)).[i] = Some pg -> pg_host_replica pg = None /\ pg_source_pins pg = 0.
Proof.
  intros (this & backing & layout & store_this & capacity & p0 & st0 & H1 & H2 & H3 & H4 & H5 & ->). split.
  - apply (kv_of_ok this backing layout store_this capacity). exists p0, st0. repeat (split; [done|]). apply kr_init.
  - intros i pg Hp. unfold make_store in H5. simp_res. cbn in Hp. apply vget_elem, elem_of_replicate_inv in Hp. by subst.
Qed.

Lemma stack_start {A} (vacant : A -> Prop) n (x : A) :
  0 <= n -> vacant x -> stack_own vacant n [] (replicate (Z.to_nat n) x) (map (fun index => n - 1 - index) (seqZ 0 n)) n.
Proof.
  intros Hn Hx. assert (Ht : stack_top (map (fun index => n - 1 - index) (seqZ 0 n)) n = map (fun index => n - 1 - index) (seqZ 0 n)).
  { unfold stack_top. apply take_ge. rewrite length_map, length_seqZ. lia. }
  assert (Hp : map (fun index => n - 1 - index) (seqZ 0 n) ≡ₚ seqZ 0 n).
  { apply NoDup_Permutation; [apply NoDup_fmap_2_strong; [intros; lia|apply NoDup_seqZ]|apply NoDup_seqZ|]. intros i. rewrite list_elem_of_fmap, elem_of_seqZ.
    split; [intros (j & -> & Hj%elem_of_seqZ); lia|]. intros Hi. exists (n - 1 - i). rewrite elem_of_seqZ. lia. }
  constructor; rewrite ?Ht; try done.
  - unfold vsize. rewrite length_replicate. lia.
  - unfold vsize. rewrite length_map, length_seqZ. lia.
  - apply Forall_forall. intros i Hi. rewrite Hp, elem_of_seqZ in Hi. exists x. split; [|done]. apply vget_replicate. lia.
Qed.

Definition consts_of (s : extent_client) : consts :=
  mkConsts (xs_this (he_store (ec_host s))) (vsize (xs_extents (he_store (ec_host s)))) (a_this (he_arena (ec_host s)))
    (a_backing (he_arena (ec_host s))) (a_layouts (he_arena (ec_host s)))
    (any_page (map (fun k => p_spec (kv_pool k)) (he_pages (ec_host s)))) (marks_of (he_store (ec_host s))).

Lemma extent_start_inv s : extent_start s -> client_inv (consts_of s) s /\ c_backing (consts_of s) <> 0.
Proof.
  intros (this & backing & capacity & layouts & a0 & store_this & descriptors & x0 & ks & H1 & H2 & H3 & H4 & Ha & H5 & H6 & Hx & Hks & ->).
  assert (Hb : a_backing a0 = backing).
  { unfold make_host_arena in Ha. apply bind_Ok in Ha as ([] & _ & Ha). rewrite (proj2 (Z.eqb_neq _ 0)) in Ha by lia. by simp_res. }
  split; [|cbn; lia]. destruct (make_host_arena_wf this backing capacity layouts a0 H1 ltac:(lia) H4 Ha) as [Hwf Hina].
  unfold make_extent_store in Hx. simp_res. simp_bool. unfold is_u32, U32_MAX in H6.
  assert (Hsz : vsize (replicate (Z.to_nat descriptors) default_extent) = descriptors) by (unfold vsize; rewrite length_replicate; lia).
  exists []. split; [|split; [|done]].
  - constructor; [constructor|]. cbn. constructor; cbn.
    + done.
    + rewrite Hsz. unfold U32_MAX. lia.
    + done.
    + done.
    + rewrite Hsz. apply stack_start; [lia|done].
    + rewrite Hsz. apply stack_start; [lia|]. exists 1. split; [unfold U32_MAX; lia|done].
    + split; [|constructor]. constructor; cbn; [done|constructor|constructor|]. intros i d Hi Hact. rewrite Forall_forall in Hina.
      rewrite (Hina d) in Hact by (by eapply vget_elem). done.
    + rewrite Forall_forall in Hks. constructor; try done.
      * apply Forall_forall. intros k Hk. by apply fresh_store_ok, Hks.
      * constructor.
      * intros p k i pg Hk Hp Hh. destruct (fresh_store_ok k) as [_ Hf]; [apply Hks; by eapply list_elem_of_lookup_2|]. by destruct (Hf _ _ Hp).
      * intros p k i pg Hk Hp. destruct (fresh_store_ok k) as [_ Hf]; [apply Hks; by eapply list_elem_of_lookup_2|]. destruct (Hf _ _ Hp) as [_ ->].
        unfold pin_count. done.
  - cbn. rewrite Hsz. pose proof (replicate_stamps (Z.to_nat descriptors)) as Hs. rewrite Z2Nat.id in Hs by lia. constructor; cbn; [unfold U32_MAX; lia|done|done].
Qed.

(** ** The calls *)
#[global] Instance remark_host m c `{!HostStable (c_env c)} : HostStable (c_env (remark m c)).
Proof. done. Qed.
#[global] Instance remark_pin m c `{!PinStable (c_env c)} : PinStable (c_env (remark m c)).
Proof. done. Qed.

Lemma wp_on_host {A} (m : H A) Q E s :
  wp m (fun a h => Q a (mkExtClient h (ec_reservations s) (ec_pins s))) (fun e h => E e (mkExtClient h (ec_reservations s) (ec_pins s))) (ec_host s) ->
  wp (on_host m) Q E s.
Proof. unfold wp, on_host. by destruct (m (ec_host s)) as [h [a|e]]. Qed.

(** Appends read. *)
Lemma wp_reads {A} (m : H A) s : fst (m s) = s -> wp m (fun _ s' => s' = s) (fun _ s' => s' = s) s.
Proof. unfold wp. by destruct (m s) as [s' [a|e]]. Qed.

Section Inv.
Context {specs : list DeviceKVPagePoolSpec} {c : consts} (Henv : c_env c = any_page specs).
Implicit Types (s : extent_client).

#[local] Instance env_host : HostStable (c_env c).
Proof. rewrite Henv. apply _. Qed.
#[local] Instance env_pin : PinStable (c_env c).
Proof. rewrite Henv. apply _. Qed.

(** Forgetting what was said of the pages. *)
Lemma xinv_forget phi m G O h : xinv (with_page phi (remark m c)) G O h -> xinv (remark m c) G O h.
Proof.
  intros Hx. apply (xinv_with_page _ _ _ _ (fun _ _ _ => True)) in Hx; [|done]. destruct c as [c1 c2 c3 c4 c5 c6 c7]. cbn in *. subst c6. exact Hx.
Qed.

Lemma store_at s p : client_inv c s -> (p < length (he_pages (ec_host s)))%nat -> exists k, he_pages (ec_host s) !! p = Some k.
Proof. intros _ Hp. by apply lookup_lt_is_Some in Hp. Qed.

Notation keeps call s := (wp (run_extent call) (fun _ => client_inv c) (fun e s' => e = Terminate \/ client_inv c s') s).

Lemma reserved_of_cons sg G : reserved_of (sg :: G) = if sg_published sg then reserved_of G else sg :: reserved_of G.
Proof. unfold reserved_of. rewrite filter_cons. by destruct (sg_published sg); case_decide. Qed.

Lemma prepare_keeps s p membership : client_inv c s -> extent_call_ok s (XPrepare p membership) -> keeps (XPrepare p membership) s.
Proof.
  intros (G & Hx & Hm & Hr) [Hp Hnd]. apply lookup_lt_is_Some in Hp as [k Hk]. apply wp_bind, wp_on_host.
  eapply wp_conseq; [by apply (prepare_segment _ _ _ k _ Hx)| |].
  - intros [r|] h; [|intros ->; apply wp_ret; by exists G]. intros (sg & Hx' & Hpub & _ & _ & _ & -> & _). apply wp_modify.
    eapply client_inv_intro; [exact Hx'|done|]. rewrite reserved_of_cons, Hpub. cbn. by rewrite Hr.
  - intros e h [_ ->]. right. by exists G.
Qed.

(** The segment of a reservation. *)
Lemma reservation_split s G j r :
  ec_reservations s ≡ₚ map (reservation_of c) (reserved_of G) -> ec_reservations s !! j = Some r ->
  exists sg G', G ≡ₚ sg :: G' /\ sg_published sg = false /\ r = reservation_of c sg /\
    delete j (ec_reservations s) ≡ₚ map (reservation_of c) (reserved_of G').
Proof.
  intros Hr Hj. assert (Hin : r ∈ map (reservation_of c) (reserved_of G)) by (rewrite <- Hr; by eapply list_elem_of_lookup_2).
  apply list_elem_of_fmap in Hin as (sg & -> & [Hpub Hin]%list_elem_of_filter). destruct (seg_split _ Hin) as [G' HG]. exists sg, G'.
  split; [done|]. split; [done|]. split; [done|]. rewrite HG, reserved_of_cons, Hpub in Hr. cbn in Hr. rewrite (delete_Permutation _ _ _ Hj) in Hr. by apply Permutation_cons_inv in Hr.
Qed.

Lemma publish_keeps s j : client_inv c s -> keeps (XPublish j) s.
Proof.
  intros (G & Hx & Hm & Hr). apply wp_bind, wp_get. destruct (ec_reservations s !! j) as [r|] eqn:Hj; [|right; by exists G].
  destruct (reservation_split _ _ _ _ Hr Hj) as (sg & G' & HG & Hpub & -> & Hr'). rewrite HG in Hx. apply wp_bind, wp_on_host.
  assert (exists k, he_pages (ec_host s) !! sg_store sg = Some k) as [k Hk].
  { pose proof (hv_pages _ _ _ _ _ _ _ (xv_tokens _ _ _ _ Hx)) as Hp. pose proof (bk_some _ _ _ _ (gk_block _ _ (xinv_seg _ Hx ltac:(by left)))) as Hne.
    destruct (sg_slots sg) as [|sl slots] eqn:Es; [done|]. destruct (ptoks_pinned _ _ _ (sg_store sg, sl_page sl) Hp) as (k & _ & Hk & _); [|by exists k].
    cbn. unfold seg_pins at 1. rewrite Hpub, Es. by left. }
  eapply wp_conseq; [apply (publish_segment _ _ sg k Hx Hpub Hk)| |].
  - intros r h (_ & _ & Hx'). apply wp_modify. eapply client_inv_intro; [exact Hx'|done|]. by rewrite reserved_of_cons.
  - intros e h (-> & _). by left.
Qed.

Lemma destroy_armed sg : 0 < c_this c -> destroy_reservation (reservation_of c sg) = abort (reservation_of c sg).
Proof. intros Ht. unfold destroy_reservation. cbn. by rewrite (proj2 (Z.eqb_neq _ 0)) by lia. Qed.

(** The destructor of a reservation. *)
Lemma destroy_run s G j r :
  xinv (remark (marks_of (he_store (ec_host s))) c) G (ec_pins s) (ec_host s) -> ec_reservations s ≡ₚ map (reservation_of c) (reserved_of G) ->
  ec_reservations s !! j = Some r ->
  wp (destroy_reservation r) (fun r' h => r' = consume r /\ exists G', xinv (remark (marks_of (he_store (ec_host s))) c) G' (ec_pins s) h /\
    delete j (ec_reservations s) ≡ₚ map (reservation_of c) (reserved_of G')) no_error (ec_host s).
Proof.
  intros Hx Hr Hj. destruct (reservation_split _ _ _ _ Hr Hj) as (sg & G' & HG & Hpub & -> & Hr'). rewrite HG in Hx. destruct (xinv_this Hx) as [_ Ht].
  rewrite destroy_armed by done. eapply wp_conseq with (E := no_error); [apply (abort_segment _ _ sg Hx Hpub)| |done].
  intros r h [-> Hx']. split; [done|]. by exists G'.
Qed.

Lemma abort_keeps s j : client_inv c s -> keeps (XAbort j) s.
Proof.
  intros (G & Hx & Hm & Hr). apply wp_bind, wp_get. destruct (ec_reservations s !! j) as [r|] eqn:Hj; [|right; by exists G].
  apply wp_bind, wp_on_host. eapply wp_conseq with (E := no_error); [by eapply destroy_run| |done].
  intros r' h (_ & G' & Hx' & Hr'). apply wp_modify. by eapply client_inv_intro.
Qed.

(** [release] of any capability. *)
Lemma release_run s cap G :
  xinv (remark (marks_of (he_store (ec_host s))) c) G (ec_pins s) (ec_host s) ->
  wp (release cap) (fun b h => exists G', xinv (remark (marks_of (he_store (ec_host s))) c) G' (ec_pins s) h /\ reserved_of G' ≡ₚ reserved_of G) no_error (ec_host s).
Proof.
  intros Hx. destruct (extent_valid (he_store (ec_host s)) cap) eqn:Hv.
  - apply (extent_valid_iff _ Hx) in Hv as (sg & Hin & Hpub & ->). destruct (seg_split _ Hin) as [G' HG]. rewrite HG in Hx.
    eapply wp_conseq with (E := no_error); [apply (release_segment _ _ sg Hx Hpub)| |done]. intros [] h [_ Hx'].
    + exists G'. split; [done|]. by rewrite HG, reserved_of_cons, Hpub.
    + subst h. exists (sg :: G'). split; [done|]. by rewrite HG.
  - apply wp_nothrow, wp_bind, wp_get. rewrite Hv. apply wp_ret. by exists G.
Qed.

Lemma release_keeps s cap : client_inv c s -> keeps (XRelease cap) s.
Proof.
  intros (G & Hx & Hm & Hr). apply wp_bind, wp_on_host. eapply wp_conseq with (E := no_error); [by apply release_run| |done].
  intros b h (G' & Hx' & HG'). apply wp_ret. eapply client_inv_intro; [exact Hx'|done|]. by rewrite HG'.
Qed.

Lemma trimmed_inv s m G keep h :
  trimmed (remark m c) G (ec_pins s) keep (ec_host s) h -> marks_ok (c_cap c) m -> ec_reservations s ≡ₚ map (reservation_of c) (reserved_of G) ->
  client_inv c (mkExtClient h (ec_reservations s) (ec_pins s)).
Proof. intros (G' & Hx & HG' & _) Hm Hr. eapply client_inv_intro; [by eapply xinv_forget|done|]. by rewrite HG'. Qed.

Lemma release_replicas_keeps s releases : client_inv c s -> extent_call_ok s (XReleaseReplicas releases) -> keeps (XReleaseReplicas releases) s.
Proof.
  intros (G & Hx & Hm & Hr) Hp. apply wp_bind, wp_on_host. eapply wp_conseq with (E := no_error); [by apply (release_page_replicas_run Hx Hm _ Hp)| |done].
  intros b h (_ & Hm' & Ht). apply wp_ret. destruct b; [by eapply trimmed_inv|]. destruct Ht as (_ & _ & Hx'). by eapply client_inv_intro.
Qed.

Lemma release_pages_keeps s p pages : client_inv c s -> extent_call_ok s (XReleasePages p pages) -> keeps (XReleasePages p pages) s.
Proof.
  intros Hi Hp. apply (release_replicas_keeps s (map (mkReplicaRelease (Some p)) pages)); [done|]. cbn in *. apply Forall_map, Forall_forall. done.
Qed.

Lemma release_unreferenced_keeps s : client_inv c s -> keeps XReleaseUnreferenced s.
Proof.
  intros (G & Hx & Hm & Hr). apply wp_bind, wp_on_host. eapply wp_conseq with (E := no_error); [by apply release_unreferenced_trims| |done].
  intros b h Ht. apply wp_ret.
  eapply trimmed_inv; [exact Ht|exact Hm|exact Hr].
Qed.

(** ** Calls of others *)
Lemma seg_reps_kept c0 G : Forall (fun t => rt_droppable t = false) (concat (map (seg_reps c0) G)).
Proof.
  apply Forall_concat, Forall_map, Forall_forall. intros sg _. unfold seg_reps. destruct (sg_published sg); [|constructor].
  apply Forall_forall. intros t (j & sl & _ & ->)%elem_of_reps. done.
Qed.

Lemma xinv_store m G O O' h p k k' :
  xinv (remark m c) G O h -> he_pages h !! p = Some k ->
  ptoks (c_env c) (concat (map (seg_reps (remark m c)) G)) (concat (map seg_pins G) ++ O') (<[p := k']> (he_pages h)) -> xinv (remark m c) G O' (set_kv p k' h).
Proof. intros [Hs H] Hk Hp. constructor; [done|]. by eapply hres_pages. Qed.

(** An outside call that returns leaves the invariant, with its pin counted. *)
Lemma page_call_inv m G O h p k k' call :
  xinv (remark m c) G O h -> he_pages h !! p = Some k -> page_call_ok p k O call -> run_call call k = (k', Ok tt) ->
  xinv (remark m c) G (count_pin p call O) (set_kv p k' h).
Proof.
  intros Hx Hk [Hok Hc] E. pose proof (hv_pages _ _ _ _ _ _ _ (xv_tokens _ _ _ _ Hx)) as Hp. cbn [c_env remark] in Hp.
  pose proof (ptoks_kv _ _ _ _ _ Hp Hk) as Hkv. destruct (by_others call) eqn:Hby.
  - pose proof (run_call_safe k call Hkv Hok ltac:(done)) as Hsafe. pose proof (run_call_framed k Hkv call Hby) as Hf. unfold wp in Hf. rewrite E in Hsafe, Hf. cbn in Hsafe.
    assert (count_pin p call O = O) as -> by (by destruct call). eapply xinv_store; [exact Hx|exact Hk|].
    apply (ptoks_framed (k := k)); [|apply seg_reps_kept|done|done|done|done]. by rewrite Henv.
  - destruct call; try discriminate Hc; cbn [run_call count_pin] in *.
    + assert (Hpin : exists pg, page_valid (kv_store k) h0 = true /\ (ls_pages (kv_store k)).[lh_index h0] = Some pg /\ pg_source_pins pg <> U32_MAX).
      { unfold pin_source in E. open_call. simp_bool. eauto. }
      destruct Hpin as (pg & Hv & Hpg & Hne). destruct (pin_toks Hk Hv Hpg Hp Hne) as (k2 & pg2 & E2 & _ & _ & Ht). rewrite E in E2. injection E2 as <-.
      eapply xinv_store; [exact Hx|exact Hk|]. by rewrite <- Permutation_middle.
    + assert (HO : concat (map seg_pins G) ++ O ≡ₚ (p, h0) :: concat (map seg_pins G) ++ remove_pin (p, h0) O).
      { rewrite (remove_pin_perm _ _ Hc) at 1. by rewrite Permutation_middle. }
      rewrite HO in Hp. destruct (ptoks_pinned _ _ _ (p, h0) Hp ltac:(by left)) as (l & pg & Hl & Hv & Hpg & _). cbn in *. simplify_eq.
      destruct (unpin_toks Hk Hv Hpg Hp) as (k2 & pg2 & E2 & _ & _ & Ht). rewrite E in E2. injection E2 as <-. by eapply xinv_store.
Qed.

Lemma pages_keeps s p call : client_inv c s -> extent_call_ok s (XPages p call) -> keeps (XPages p call) s.
Proof.
  intros (G & Hx & Hm & Hr) (k & Hk & Hok). pose proof (ptoks_kv _ _ _ _ _ (hv_pages _ _ _ _ _ _ _ (xv_tokens _ _ _ _ Hx)) Hk) as Hkv.
  pose proof (run_call_safe k call Hkv (proj1 Hok) ltac:(done)) as Hsafe. apply wp_bind, wp_on_host. unfold wp, on_pages. rewrite Hk.
  destruct (run_call call k) as [k' [[]|e]] eqn:E.
  - cbn. eapply client_inv_intro; [by eapply page_call_inv|done|done].
  - cbn in Hsafe. destruct (decide (e = Terminate)) as [->|Hne]; [by left|]. right. assert (k' = k) as -> by (destruct e; done). rewrite set_kv_same by done. by exists G.
Qed.

(** ** Simulated releases *)
Lemma append_release_reads r (s : host) : fst (append_release r s) = s.
Proof.
  unfold append_release. destruct (rr_pages r) as [p|]; [|done]. unfold mbind, M_bind, on_pages. destruct (he_pages s !! p) as [k|] eqn:Hk; [|done].
  unfold host_replica, LogicalKv.require, mthrow_if, throw_if, mlift, mget, mbind, M_bind. destruct (page_valid (kv_store k) (rr_page r)); cbn; [|by rewrite set_kv_same].
  destruct (vat (ls_pages (kv_store k)) (lh_index (rr_page r))) as [pg|e]; cbn; [|by rewrite set_kv_same].
  destruct (pg_host_replica pg) as [x|]; cbn; rewrite set_kv_same by done; [|done].
  unfold require_extent, ext_ref, mthrow_if, throw_if, mlift, mget, mbind, M_bind. destruct (extent_valid _ _); cbn; [|done].
  destruct (vat (xs_extents (he_store s)) _) as [e|]; cbn; [|done]. by destruct (ex_allocation e).
Qed.

Lemma simulate_keeps m0 G h0 last releases : forall M scratch h O,
  marked_state (O := O) (remark m0 c) G M h0 h -> Forall (points_to_store (he_pages h0)) releases ->
  wp (simulate_page_releases last releases scratch) (fun _ h' => exists M', marked_state (O := O) (remark m0 c) G M' h0 h')
    (fun _ h' => exists M', marked_state (O := O) (remark m0 c) G M' h0 h') h.
Proof.
  induction releases as [|r releases IH]; intros M scratch h O Hm Hp; cbn [simulate_page_releases]; [apply wp_ret; by exists M|].
  apply Forall_cons_1 in Hp as [Hp0 Hp]. destruct (rr_pages r) as [p|] eqn:Er; [|apply wp_ret; by exists M].
  unfold points_to_store in Hp0. rewrite Er in Hp0. apply lookup_lt_is_Some in Hp0 as [k Hk]. apply wp_bind.
  eapply wp_conseq with (E := no_error); [by eapply mark_release_run| |done]. intros [] h1; cbn [negb]; [|intros [_ ->]; apply wp_ret; by exists M].
  intros (_ & _ & sl & _ & Hm1). apply wp_bind. eapply wp_conseq; [apply wp_reads, append_release_reads| |]; cbv beta; [|by intros ? ? ->; eexists].
  intros o ? ->. destruct o as [sub|]; [by apply (IH _ _ _ _ Hm1)|apply wp_ret; by eexists].
Qed.

Lemma can_allocate_keeps s releases last allocations :
  client_inv c s -> extent_call_ok s (XCanAllocate releases last allocations) -> keeps (XCanAllocate releases last allocations) s.
Proof.
  intros (G & Hx & Hm & Hr) [Hp1 Hp2].
  assert (Hfin : forall M h, marked_state (O := ec_pins s) (remark (marks_of (he_store (ec_host s))) c) G M (ec_host s) h ->
    client_inv c (mkExtClient h (ec_reservations s) (ec_pins s))).
  { intros M h [_ _ Hx' Hmk]. eapply client_inv_intro; [exact Hx'|apply Hmk|done]. }
  apply wp_bind, wp_on_host. unfold can_allocate_after_page_releases. apply wp_bind.
  eapply wp_conseq with (E := no_error); [by apply (begin_release_marks_run _ _ _ _ Hx)| |done]. intros u h1 (E1 & E2 & Hx1 & Hm1).
  assert (Hs1 : marked_state (O := ec_pins s) (remark (marks_of (he_store (ec_host s))) c) G [] (ec_host s) h1) by (by constructor).
  apply wp_bind. eapply wp_conseq; [by apply (simulate_keeps _ _ _ false releases _ [] _ _ Hs1)| |intros e h [M HM]; right; by eapply Hfin].
  intros [scratch|] h2 [M2 Hs2]; [|apply wp_ret, wp_ret; by eapply Hfin].
  apply wp_bind. eapply wp_conseq; [by apply (simulate_keeps _ _ _ true last _ scratch _ _ Hs2)| |intros e h [M HM]; right; by eapply Hfin].
  intros [scratch'|] h3 [M3 Hs3]; [|apply wp_ret, wp_ret; by eapply Hfin].
  apply wp_bind, wp_get, wp_lift; [intros b _; apply wp_ret; by eapply Hfin|intros e _; right; by eapply Hfin].
Qed.

Lemma run_extent_keeps s call : client_inv c s -> extent_call_ok s call -> keeps call s.
Proof.
  intros Hi Hok. destruct call.
  - by apply prepare_keeps.
  - by apply publish_keeps.
  - by apply abort_keeps.
  - by apply release_keeps.
  - by apply release_replicas_keeps.
  - by apply release_pages_keeps.
  - by apply release_unreferenced_keeps.
  - by apply can_allocate_keeps.
  - by apply pages_keeps.
Qed.
End Inv.

Lemma extent_reachable_inv s : extent_reachable s -> exists specs c, c_env c = any_page specs /\ c_backing c <> 0 /\ client_inv c s.
Proof.
  induction 1 as [s Hs|s call s' r _ (specs & c & Henv & Hb & Hi) Hok E Hne].
  - destruct (extent_start_inv _ Hs) as [Hi Hb]. by exists (map (fun k => p_spec (kv_pool k)) (he_pages (ec_host s))), (consts_of s).
  - exists specs, c. split; [done|]. split; [done|]. pose proof (run_extent_keeps Henv s call Hi Hok) as Hw. unfold wp in Hw. rewrite E in Hw.
    destruct r as [u|e]; [done|]. destruct Hw as [->|?]; done.
Qed.
