(* ===== verification/ExtentClaims.v ===== *)
(** What the callers of the host extents of
    src/src/runtime/host_kv_extent_store.h can rely on in every reachable
    state, and a run of the whole. *)

From S2P Require Import Prelude Tensor Layout PagedKv HostKvArena LogicalKv PageTokens HostExtents ExtentPages ExtentTokens ExtentSlots ExtentInv ExtentPartition ExtentRelease ExtentMarks ExtentFrame ExtentViews ExtentCopy ExtentRun.

(** * Effects on the pages *)

(** The pages [gone] lose their replicas; the others keep theirs, at the same
    bytes, and all pages are otherwise as they were, or freed. *)
Record replicas_removed (h h' : host) (gone : nat -> LogicalKVPageHandle -> bool) : Prop := {
  rm_resident : forall p page, resident (he_pages h') p page = resident (he_pages h) p page && negb (gone p page);
  rm_located : forall p page, resident (he_pages h') p page = true ->
                 exists place, locate p page h = (h, Ok place) /\ locate p page h' = (h', Ok place);
  rm_pages : forall p i pg, page_at (he_pages h') p i = Some pg -> unchanged_but_host (he_pages h) p i pg;
}.

Lemma trimmed_effect c m G O h h' gone :
  xinv c G O h -> c_backing c <> 0 -> trimmed (remark m c) G O (fun t => negb (gone (fst t) (sl_page (snd t)))) h h' -> replicas_removed h h' gone.
Proof.
  intros Hx Hb Ht. constructor.
  - intros p page. destruct (resident (he_pages h) p page) eqn:Hr; cbn.
    + apply (resident_slot Hx) in Hr as (sl & Hin & <-). apply (trimmed_page Hx Ht _ _ Hb Hin).
    + destruct (resident (he_pages h') p page) eqn:Hr'; [|done]. apply (trimmed_resident Ht) in Hr' as (sl & Hin & Hp & _).
      rewrite (proj2 (resident_slot Hx p page)) in Hr; [done|]. by exists sl.
  - intros p page (sl & Hin & <- & Hk)%(trimmed_resident Ht). by apply (trimmed_page Hx Ht _ _ Hb Hin).
  - intros p i pg. by apply (trimmed_pages Ht).
Qed.

(** Nothing happens to the pages. *)
Lemma untouched_effect c G O h h' m :
  xinv c G O h -> c_backing c <> 0 -> he_pages h' = he_pages h -> xinv (remark m c) G O h' -> replicas_removed h h' (fun _ _ => false).
Proof.
  intros Hx Hb Ep Hx'. constructor.
  - intros p page. by rewrite Ep, andb_true_r.
  - intros p page (sl & Hin & <-)%(resident_slot Hx'). exists (c_backing c + sl_loc sl, store_layout c p). split; [by apply (locate_resident Hx)|].
    by apply (locate_resident Hx').
  - intros p i pg Hp. rewrite Ep in Hp. exists pg. split; [done|]. left. exists (pg_host_replica pg). by destruct pg.
Qed.

Lemma removed_ext h h' gone gone' : (forall p page, gone p page = gone' p page) -> replicas_removed h h' gone -> replicas_removed h h' gone'.
Proof. intros Hg [H1 H2 H3]. constructor; try done. intros p page. by rewrite <- Hg. Qed.

(** C3. Releasing chosen replicas is exact. In every reachable state
    [release_page_replicas], for any list of pages of existing stores, returns;
    it returns true exactly when the list has no duplicates and every page is
    on the host, unpinned, and on the device or unreferenced. Then exactly
    these pages lose their replicas, although the extents that held them are
    split into new extents: every other page with a replica keeps it, and the
    view of its bytes is where it was; no page changes otherwise, unless
    nothing uses it any more and it is freed. When it returns false nothing
    happens to any page. *)
Theorem release_replicas_exact s releases :
  extent_reachable s -> Forall (points_to_store (he_pages (ec_host s))) releases ->
  exists h' b, release_page_replicas releases (ec_host s) = (h', Ok b) /\
    (b = true <-> Forall (fun r => releasable (he_pages (ec_host s)) r = true) releases /\ NoDup releases) /\
    replicas_removed (ec_host s) h' (fun p page => b && bool_decide (mkReplicaRelease (Some p) page ∈ releases)).
Proof.
  intros (specs & c & Henv & Hb & G & Hx & Hm & Hr)%extent_reachable_inv Hp.
  pose proof (release_page_replicas_run Hx Hm releases Hp) as Hw. unfold wp in Hw.
  destruct (release_page_replicas releases (ec_host s)) as [h' [b|e]]; [|done]. destruct Hw as (Hiff & _ & He). exists h', b. split; [done|]. split; [done|].
  destruct b; cbn [andb].
  - exact (trimmed_effect _ _ _ _ _ _ (fun p page => bool_decide (mkReplicaRelease (Some p) page ∈ releases)) Hx Hb He).
  - destruct He as (Ep & _ & Hx'). by eapply untouched_effect.
Qed.

(** C23. A copy to the host ends where it was written. In every reachable
    state, when [prepare] reserves an extent for distinct pages, the view to
    fill has one page per page of the request, [device_sources] returns the
    device pages of the request in its order, and [publish] of the filled
    reservation returns; afterwards the replica of the [i]-th page of the
    request is found at exactly the [i]-th page of the view that was filled. *)
Theorem copied_pages_are_found s p k membership h1 r :
  extent_reachable s -> he_pages (ec_host s) !! p = Some k -> NoDup membership -> prepare p membership (ec_host s) = (h1, Ok (Some r)) ->
  exists v ds h2 capability,
    writable_view r h1 = (h1, Ok v) /\ v_page_count v = vsize membership /\
    device_sources r h1 = (h1, Ok ds) /\ Forall2 (fun page d => physical page k = (k, Ok d)) membership ds /\
    publish r h1 = (h2, Ok (capability, consume r)) /\
    forall i page, membership !! i = Some page ->
      exists w, subview (he_arena h1) v (Z.of_nat i) 1 = Ok w /\ locate p page h2 = (h2, Ok (v_data w, v_layout w)).
Proof.
  intros (specs & c & Henv & Hb & G & Hx & Hm & Hr)%extent_reachable_inv Hk Hnd E.
  pose proof (copy_run _ _ _ _ _ _ _ Hx Hk Hnd Hb) as Hw. unfold wp in Hw. rewrite E in Hw. by apply Hw.
Qed.

(** C25. Host replicas are always readable and never overlap. In every
    reachable state the view of the bytes of every page with a host replica
    is found through its extent, with the layout of the page's geometry, and
    the bytes of two different pages are disjoint. *)
Theorem host_replicas_disjoint s p page p' page' :
  extent_reachable s -> resident (he_pages (ec_host s)) p page = true -> resident (he_pages (ec_host s)) p' page' = true ->
  (p, page) <> (p', page') ->
  exists at1 at2 l1 l2,
    locate p page (ec_host s) = (ec_host s, Ok (at1, Some l1)) /\ locate p' page' (ec_host s) = (ec_host s, Ok (at2, Some l2)) /\
    page_layout p (ec_host s) = (ec_host s, Ok l1) /\ page_layout p' (ec_host s) = (ec_host s, Ok l2) /\
    (at1 + hl_page_stride l1 <= at2 \/ at2 + hl_page_stride l2 <= at1).
Proof.
  intros (specs & c & Henv & Hb & G & Hx & Hm & Hr)%extent_reachable_inv (sl & Hin & <-)%(resident_slot Hx) (sl' & Hin' & <-)%(resident_slot Hx) Hne.
  destruct (layout_of_page Hx _ _ Hin) as (l & Hl & Hpl). destruct (layout_of_page Hx _ _ Hin') as (l' & Hl' & Hpl').
  pose proof (slots_disjoint Hx p p' sl sl' Hin Hin' ltac:(congruence)) as Hd. unfold seg_stride in Hd. rewrite Hl, Hl' in Hd.
  exists (c_backing c + sl_loc sl), (c_backing c + sl_loc sl'), l, l'. rewrite (locate_resident Hx) by done. rewrite (locate_resident Hx) by done.
  rewrite Hl, Hl'. repeat (split; [done|]). cbn in *. lia.
Qed.

(** * No leaks *)
Lemma idle_empty s c G :
  xinv (remark (marks_of (he_store (ec_host s))) c) G (ec_pins s) (ec_host s) -> ec_reservations s ≡ₚ map (reservation_of c) (reserved_of G) ->
  ec_reservations s = [] -> (forall p page, resident (he_pages (ec_host s)) p page = false) -> G = [].
Proof.
  intros Hx Hr E Hno. destruct G as [|sg G]; [done|exfalso]. destruct (sg_published sg) eqn:Hpub.
  - pose proof (bk_some _ _ _ _ (gk_block _ _ (xinv_seg _ Hx ltac:(by left)))) as Hne. destruct (sg_slots sg) as [|sl slots] eqn:Es; [done|].
    specialize (Hno (sg_store sg) (sl_page sl)). rewrite (proj2 (resident_slot Hx _ _)) in Hno; [done|]. exists sl. split; [|done].
    apply elem_of_published. exists sg. split; [by left|]. split; [done|]. split; [done|]. cbn. rewrite Es. by left.
  - rewrite E, reserved_of_cons, Hpub in Hr. by apply Permutation_nil_l in Hr.
Qed.

Lemma idle_arena a : arena_own [] a -> a_occupied a = 0.
Proof.
  intros [Hc _]. pose proof (aw_occupied _ (ho_wf _ Hc)) as Ho. cbn in Ho. rewrite Ho. clear Ho. assert (Hall : Forall (fun d => active_bytes d = 0) (a_descriptors a)).
  { apply Forall_forall. intros d (i & Hi & _)%elem_vget. unfold active_bytes. destruct (d_active d) eqn:Ha; [|done].
    pose proof (ho_all _ Hc i d Hi Ha) as Hin. by apply elem_of_nil in Hin. }
  induction Hall as [|d ds Hd _ IH]; [done|]. cbn [map]. by rewrite zsum_cons, Hd, IH.
Qed.

(** The pages [release_unreferenced] collects. *)
Definition unused_page (ks : list kv) (p : nat) (page : LogicalKVPageHandle) : bool :=
  match page_at ks p (lh_index page) with
  | Some pg => unused pg
  | None => false
  end.

(** C40. Cleaning up never ends the process and gives everything back. In every
    reachable state the destructor of a reservation returns, [release] returns
    for any capability, stale ones included, and [release_unreferenced]
    returns and takes exactly the replicas of unpinned pages without
    references; and when no reservation is left and no page has a replica, no
    byte of the arena is occupied, and all extents and memberships are free. *)
Theorem extents_clean_up s :
  extent_reachable s -> let h := ec_host s in
  (forall j r, ec_reservations s !! j = Some r -> exists h', destroy_reservation r h = (h', Ok (consume r))) /\
  (forall capability, exists h' b, release capability h = (h', Ok b)) /\
  (exists h' bytes, release_unreferenced h = (h', Ok bytes) /\ replicas_removed h h' (unused_page (he_pages h))) /\
  (ec_reservations s = [] -> (forall p page, resident (he_pages h) p page = false) ->
   a_occupied (he_arena h) = 0 /\ extents_occupied (he_store h) = 0 /\
   xs_free_membership_count (he_store h) = vsize (xs_memberships (he_store h))).
Proof.
  intros (specs & c & Henv & Hb & G & Hx & Hm & Hr)%extent_reachable_inv h. split; [|split; [|split]].
  - intros j r Hj. pose proof (destroy_run Henv s G j r Hx Hr Hj) as Hw. unfold wp in Hw. fold h in Hw.
    destruct (destroy_reservation r h) as [h' [r'|e]]; [|done]. destruct Hw as [-> _]. by exists h'.
  - intros cap. pose proof (release_run Henv s cap G Hx) as Hw. unfold wp in Hw. fold h in Hw. destruct (release cap h) as [h' [b|e]]; [|done]. by exists h', b.
  - pose proof (release_unreferenced_trims _ _ _ _ Hx) as Hw. unfold wp in Hw. fold h in Hw. destruct (release_unreferenced h) as [h' [n|e]]; [|done].
    exists h', n. split; [done|]. exact (trimmed_effect _ _ _ _ _ _ (unused_page (he_pages h)) Hx Hb Hw).
  - intros E Hno. pose proof (idle_empty _ _ _ Hx Hr E Hno) as ->. pose proof (xv_tokens _ _ _ _ Hx) as H. cbn in H. fold h in H.
    pose proof (stack_total (hv_exts _ _ _ _ _ _ _ H)) as He. pose proof (stack_total (hv_nodes _ _ _ _ _ _ _ H)) as Hn.
    pose proof (sk_size _ _ _ _ _ _ (hv_exts _ _ _ _ _ _ _ H)) as Hse. pose proof (sk_size _ _ _ _ _ _ (hv_nodes _ _ _ _ _ _ _ H)) as Hsn.
    change (vsize (@nil (Z * Extent))) with 0 in He. change (vsize (@nil (Z * Membership))) with 0 in Hn.
    split; [apply idle_arena, (hv_arena _ _ _ _ _ _ _ H)|]. split; [|lia]. unfold extents_occupied, extent_capacity. replace (_ - _) with 0 by lia. done.
Qed.

(** * A run *)
Fixpoint extent_exec (cs : list extent_call) (s : extent_client) : extent_client :=
  match cs with
  | [] => s
  | c :: cs' => extent_exec cs' (fst (run_extent c s))
  end.

Fixpoint extent_exec_ok (cs : list extent_call) (s : extent_client) : Prop :=
  match cs with
  | [] => True
  | c :: cs' => extent_call_ok s c /\ snd (run_extent c s) = Ok tt /\ extent_exec_ok cs' (fst (run_extent c s))
  end.

Lemma extent_exec_reachable cs : forall s, extent_reachable s -> extent_exec_ok cs s -> extent_reachable (extent_exec cs s).
Proof.
  induction cs as [|c cs IH]; intros s Hs Hok; [done|]. destruct Hok as (Hc & Hr & Hok). apply IH; [|done].
  eapply xt_call; [exact Hs|exact Hc|apply surjective_pairing|by rewrite Hr].
Qed.

Definition extent_layout : HostKVPageLayout :=
  match plan_host_kv_page_layout (ps_geometry demo_spec) with
  | Ok l => l
  | Err _ => mkHostLayout (ps_geometry demo_spec) [] 0
  end.

Definition extent_demo0 : extent_client :=
  match make_host_arena 9 65536 1024 [extent_layout], make_extent_store 88 4 with
  | Ok a, Ok x => mkExtClient (mkHost a [demo_kv0] x) [] []
  | _, _ => mkExtClient (mkHost demo_arena [demo_kv0] (mkExtentStore 0 [] [] 0 [] [] 0 [] [] [] 0)) [] []
  end.

Definition demo_page (i : Z) : LogicalKVPageHandle := mkLogicalHandle 77 i 1.

(** Three pages are filled and no longer written. *)
Definition demo_fill_calls : list extent_call :=
  map (XPages 0)
    [CReserve 3; CMaterialize 0; CMaterialize 0; CMaterialize 0; CCommit (demo_page 0) 10; CCommit (demo_page 1) 20; CCommit (demo_page 2) 30;
     CSetWriter (demo_page 0) false; CSetWriter (demo_page 1) false; CSetWriter (demo_page 2) false].

Definition extent_demo1 : extent_client := extent_exec demo_fill_calls extent_demo0.
Definition extent_demo2 : extent_client := extent_exec [XPrepare 0 [demo_page 0; demo_page 1; demo_page 2]; XPublish 0] extent_demo1.
Definition extent_demo3 : extent_client := extent_exec [XReleaseReplicas [mkReplicaRelease (Some 0%nat) (demo_page 1)]] extent_demo2.

Lemma extent_demo0_start : extent_start extent_demo0.
Proof.
  destruct (make_host_arena 9 65536 1024 [extent_layout]) as [a|] eqn:Ea; [|vm_compute in Ea; discriminate].
  destruct (make_extent_store 88 4) as [x|] eqn:Ex; [|vm_compute in Ex; discriminate].
  exists 9, 65536, 1024, [extent_layout], a, 88, 4, x, [demo_kv0].
  split; [lia|]. split; [lia|]. split; [vm_compute; split; [reflexivity|discriminate]|]. split; [apply Forall_singleton; vm_compute; discriminate|]. split; [done|].
  split; [lia|]. split; [vm_compute; split; discriminate|]. split; [done|]. split; [|unfold extent_demo0; by rewrite Ea, Ex]. apply Forall_singleton.
  exists 1, (mkSpan 4096 65536), demo_layout, 77, 6, demo_pool, (kv_store demo_kv0).
  split; [lia|]. split; [vm_compute; split; discriminate|]. split; [vm_compute; reflexivity|]. split; [vm_compute; split; discriminate|]. split; [vm_compute; reflexivity|done].
Qed.

Ltac run_demo :=
  repeat (split; [first [exact I | eexists; split; [vm_compute; reflexivity|split; [vm_compute; first [done|split; discriminate]|done]]
                        | split; [vm_compute; lia|apply (bool_decide_unpack _); vm_compute; exact I]
                        | cbn; apply Forall_singleton; vm_compute; lia]
                 |split; [vm_compute; reflexivity|]]); exact I.

Lemma extent_demo1_reachable : extent_reachable extent_demo1.
Proof. apply extent_exec_reachable; [apply xt_start, extent_demo0_start|]. run_demo. Qed.
Lemma extent_demo2_reachable : extent_reachable extent_demo2.
Proof. apply extent_exec_reachable; [apply extent_demo1_reachable|]. run_demo. Qed.
Lemma extent_demo3_reachable : extent_reachable extent_demo3.
Proof. apply extent_exec_reachable; [apply extent_demo2_reachable|]. run_demo. Qed.

(** No page has a replica. *)
Lemma never_resident ks :
  forallb (fun k => forallb (fun pg => negb (has (pg_host_replica pg))) (ls_pages (kv_store k))) ks = true -> forall p page, resident ks p page = false.
Proof.
  intros Hall p page. unfold resident. destruct (ks !! p) as [k|] eqn:Hk; [|done]. rewrite forallb_forall in Hall.
  specialize (Hall k ltac:(apply list_elem_of_In; by eapply list_elem_of_lookup_2)). rewrite forallb_forall in Hall. unfold page_test.
  destruct (negb _); [done|]. destruct ((ls_pages (kv_store k)).[lh_index page]) as [pg|] eqn:Hp; [|done].
  specialize (Hall pg ltac:(apply list_elem_of_In; by eapply vget_elem)). by apply negb_true_iff.
Qed.

(** The middle page of an extent of three is released: the extent is split, and
    the last page stays at its bytes. *)
Lemma release_replicas_exact_witness :
  exists h' place, release_page_replicas [mkReplicaRelease (Some 0%nat) (demo_page 1)] (ec_host extent_demo2) = (h', Ok true) /\
    resident (he_pages h') 0 (demo_page 1) = false /\ resident (he_pages h') 0 (demo_page 2) = true /\
    locate 0 (demo_page 2) (ec_host extent_demo2) = (ec_host extent_demo2, Ok place) /\ locate 0 (demo_page 2) h' = (h', Ok place).
Proof.
  destruct (release_replicas_exact extent_demo2 [mkReplicaRelease (Some 0%nat) (demo_page 1)] extent_demo2_reachable) as (h' & b & E & Hb & [H1 H2 _]).
  - apply Forall_singleton. vm_compute. lia.
  - assert (b = true) as ->. { apply Hb. split; [apply Forall_singleton; vm_compute; reflexivity|apply NoDup_singleton]. }
    assert (Hr : resident (he_pages h') 0 (demo_page 2) = true) by (rewrite H1; vm_compute; reflexivity).
    destruct (H2 _ _ Hr) as (place & Hl & Hl'). exists h', place. split; [exact E|]. split; [rewrite H1; vm_compute; reflexivity|]. split; [exact Hr|]. split; [exact Hl|exact Hl'].
Defined.

Lemma copied_pages_are_found_witness :
  exists h1 r v h2 capability w, prepare 0 [demo_page 0; demo_page 1; demo_page 2] (ec_host extent_demo1) = (h1, Ok (Some r)) /\
    writable_view r h1 = (h1, Ok v) /\ publish r h1 = (h2, Ok (capability, consume r)) /\
    subview (he_arena h1) v 2 1 = Ok w /\ locate 0 (demo_page 2) h2 = (h2, Ok (v_data w, v_layout w)).
Proof.
  destruct (he_pages (ec_host extent_demo1) !! 0%nat) as [k|] eqn:Ek; [|vm_compute in Ek; discriminate].
  destruct (prepare 0 [demo_page 0; demo_page 1; demo_page 2] (ec_host extent_demo1)) as [h1 [[r|]|e]] eqn:E; [|vm_compute in E; discriminate..].
  destruct (copied_pages_are_found extent_demo1 0 k [demo_page 0; demo_page 1; demo_page 2] h1 r extent_demo1_reachable Ek ltac:(apply (bool_decide_unpack _); vm_compute; exact I) E)
    as (v & ds & h2 & capability & Hv & _ & _ & _ & Hp & Hl).
  destruct (Hl 2%nat (demo_page 2) eq_refl) as (w & Hw & Hw'). exists h1, r, v, h2, capability, w. split; [reflexivity|]. split; [exact Hv|]. split; [exact Hp|]. split; [exact Hw|exact Hw'].
Defined.

Lemma host_replicas_disjoint_witness :
  exists at1 at2 l1 l2,
    locate 0 (demo_page 0) (ec_host extent_demo3) = (ec_host extent_demo3, Ok (at1, Some l1)) /\
    locate 0 (demo_page 2) (ec_host extent_demo3) = (ec_host extent_demo3, Ok (at2, Some l2)) /\
    (at1 + hl_page_stride l1 <= at2 \/ at2 + hl_page_stride l2 <= at1).
Proof.
  destruct (host_replicas_disjoint extent_demo3 0 (demo_page 0) 0 (demo_page 2) extent_demo3_reachable) as (at1 & at2 & l1 & l2 & H1 & H2 & _ & _ & H3);
    [vm_compute; reflexivity|vm_compute; reflexivity|discriminate|]. exists at1, at2, l1, l2. split; [exact H1|]. split; [exact H2|exact H3].
Defined.

Lemma extents_clean_up_witness :
  exists h' bytes b, release_unreferenced (ec_host extent_demo3) = (h', Ok bytes) /\ resident (he_pages h') 0 (demo_page 0) = true /\
    release (mkCapability 88 3 1) (ec_host extent_demo3) = (ec_host extent_demo3, Ok b) /\
    a_occupied (he_arena (ec_host extent_demo1)) = 0.
Proof.
  destruct (extents_clean_up extent_demo3 extent_demo3_reachable) as (_ & Hr & (h' & bytes & Hu & [H1 _ _]) & _).
  destruct (Hr (mkCapability 88 3 1)) as (h2 & b & E). exists h', bytes, b. split; [exact Hu|]. split; [rewrite H1; vm_compute; reflexivity|].
  split; [rewrite E; vm_compute in E; injection E as <- _; reflexivity|].
  destruct (extents_clean_up extent_demo1 extent_demo1_reachable) as (_ & _ & _ & H). apply H; [vm_compute; reflexivity|].
  apply never_resident. vm_compute. reflexivity.
Defined.
