(* ===== verification/ContextCost.v ===== *)
(** The machine cost model of the planners (src/src/runtime/engine/context_cost.h,
    src/src/runtime/engine/context_cost.cpp and context_cost_defaults.cpp, with the
    work records of src/src/runtime/contract/types.h): fixed-point prices of
    transfers and prefill, coalescing of transfer batches, and the resolution of
    the coefficients from generic, compiled and external presets.

    Every price is a 64-bit number that saturates. The theorems say that each
    price is the exact mathematical cost, rounded up once per fixed-point product
    and cut at the largest 64-bit value, however the additions are nested; and
    that the two arithmetic branches of the source, [unsigned __int128] and the
    MSVC intrinsics, agree. *)

From Stdlib Require Import Ascii.
From stdpp Require Import strings pretty.
From S2P Require Import Prelude HostKvArena.

(** * Work records *)
Record PrefillWork : Type := mkPrefillWork {
  pw_chunks : Z;
  pw_tokens : Z;
  pw_attention_pairs : Z;
  pw_vision_items : Z;
  pw_vision_patches : Z;
}.

Inductive ContextTransferDirection : Type := DeviceToHost | HostToDevice | DeviceToDevice.
Inductive MaterializationCopyPhase : Type := PressureToHost | Candidate.

(** [std::array<TransferWork, 3>], by direction. *)
Definition CoalescedTransferWork : Type := list TransferWork.
Definition kContextTransferDirectionCount : Z := 3.
Definition no_work : TransferWork := mkWork 0 0.

Record MaterializationMachineWork : Type := mkMachineWork {
  mw_pressure_transfers : CoalescedTransferWork;
  mw_candidate_transfers : CoalescedTransferWork;
  mw_optimistic_candidate_transfers : CoalescedTransferWork;
  mw_remaining_prefill_work : PrefillWork;
  mw_reused_prompt_tokens : Z;
}.

Record CheckpointRecoveryAlternativeWork : Type := mkRecovery {
  ra_transfers : CoalescedTransferWork;
  ra_prefill : PrefillWork;
}.

Record TransferBatchWork : Type := mkBatch {
  tb_phase : MaterializationCopyPhase;
  tb_direction : ContextTransferDirection;
  tb_work : TransferWork;
}.

(** The fields of [ContextTransferRequirement] that are priced. *)
Record ContextTransferRequirement : Type := mkRequirement {
  tr_direction : ContextTransferDirection;
  tr_work : TransferWork;
}.

(** * Saturating and fixed-point arithmetic *)
Definition kContextCostQ32One : Z := 4294967296.

(** [unsigned __int128] *)
Definition wrap128 (z : Z) : Z := z mod 340282366920938463463374607431768211456.

(** The MSVC intrinsics [_umul128] (high and low half of a product) and
    [_addcarry_u64] (carry out and sum). *)
Definition umul128 (left right : Z) : Z * Z :=
  (wrap64 (left * right / 18446744073709551616), wrap64 (left * right)).
Definition addcarry_u64 (carry a b : Z) : Z * Z :=
  (if U64_MAX <? carry + a + b then 1 else 0, wrap64 (carry + a + b)).

Definition saturating_add (left right : Z) : Z :=
  if U64_MAX - left <? right then U64_MAX else wrap64 (left + right).

Definition saturating_product (left right : Z) : Z :=
  let product := wrap128 (left * right) in
  if U64_MAX <? product then U64_MAX else product.

Definition saturating_product_msvc (left right : Z) : Z :=
  let '(high, low) := umul128 left right in
  if 0 <? high then U64_MAX else low.

Definition q32_product_ns (coefficient units : Z) : Z :=
  if (coefficient =? 0) || (units =? 0) then 0 else
  let product := wrap128 (coefficient * units) in
  let maximum_scaled := wrap128 (Z.shiftl U64_MAX 32) in
  if maximum_scaled <=? product then U64_MAX
  else wrap64 (Z.shiftr (wrap128 (product + kContextCostQ32One - 1)) 32).

Definition q32_product_ns_msvc (coefficient units : Z) : Z :=
  if (coefficient =? 0) || (units =? 0) then 0 else
  let '(high, low) := umul128 coefficient units in
  if 4294967296 <=? high then U64_MAX else
  let '(carry, low) := addcarry_u64 0 low (4294967296 - 1) in
  let '(_, high) := addcarry_u64 carry high 0 in
  if 4294967296 <=? high then U64_MAX
  else Z.lor (wrap64 (Z.shiftl high 32)) (Z.shiftr low 32).

(** * Prefill features *)
Definition prefill_chunks (suffix_tokens prefill_chunk : Z) : Z :=
  if (suffix_tokens =? 0) || (prefill_chunk =? 0) then 0
  else 1 + (suffix_tokens - 1) / prefill_chunk.

Definition attention_pairs (prefix_tokens suffix_tokens : Z) : Z :=
  let linear := wrap128 (prefix_tokens * suffix_tokens) in
  let triangular := wrap128 (suffix_tokens * wrap128 (suffix_tokens + 1)) / 2 in
  let maximum := wrap128 (-1) in
  let attention := if maximum - linear <? triangular then maximum else wrap128 (linear + triangular) in
  if U64_MAX <? attention then U64_MAX else attention.

Definition attention_pairs_msvc (prefix_tokens suffix_tokens : Z) : Z :=
  let '(lin_high, linear) := umul128 prefix_tokens suffix_tokens in
  let '(tri_high, tri_low) := umul128 suffix_tokens (wrap64 (suffix_tokens + 1)) in
  let triangular := Z.lor (wrap64 (Z.shiftl tri_high 63)) (Z.shiftr tri_low 1) in
  let tri_h := Z.shiftr tri_high 1 in
  if (0 <? lin_high) || (0 <? tri_h) then U64_MAX
  else if U64_MAX - triangular <? linear then U64_MAX else wrap64 (linear + triangular).

Definition make_prefill_work (prefix_tokens suffix_tokens vision_items vision_patches prefill_chunk : Z)
  : PrefillWork :=
  mkPrefillWork (prefill_chunks suffix_tokens prefill_chunk) suffix_tokens
    (attention_pairs prefix_tokens suffix_tokens) vision_items vision_patches.

Definition make_prefill_work_msvc (prefix_tokens suffix_tokens vision_items vision_patches prefill_chunk : Z)
  : PrefillWork :=
  mkPrefillWork (prefill_chunks suffix_tokens prefill_chunk) suffix_tokens
    (attention_pairs_msvc prefix_tokens suffix_tokens) vision_items vision_patches.

(** * The cost model *)
Record ContextTransferCost : Type := mkTransferCost {
  tc_batch_ns : Z;
  tc_operation_ns : Z;
  tc_ns_per_byte_q32 : Z;
}.

Record ContextPrefillCost : Type := mkPrefillCost {
  pc_chunk_ns : Z;
  pc_token_ns_q32 : Z;
  pc_attention_pair_ns_q32 : Z;
  pc_vision_item_ns : Z;
  pc_vision_patch_ns_q32 : Z;
}.

Record ContextMachineCostModel : Type := mkCostModel {
  cm_transfer : list ContextTransferCost;
  cm_prefill : ContextPrefillCost;
}.

#[global] Instance ContextTransferCost_eq_dec : EqDecision ContextTransferCost.
Proof. solve_decision. Defined.
#[global] Instance ContextPrefillCost_eq_dec : EqDecision ContextPrefillCost.
Proof. solve_decision. Defined.

Definition direction_index (direction : ContextTransferDirection) : Z :=
  match direction with DeviceToHost => 0 | HostToDevice => 1 | DeviceToDevice => 2 end.
Definition phase_index (phase : MaterializationCopyPhase) : Z :=
  match phase with PressureToHost => 0 | Candidate => 1 end.

(** [constexpr std::array directions], and the casts of the loop indices. *)
Definition directions : list ContextTransferDirection := [DeviceToHost; HostToDevice; DeviceToDevice].

Definition transfer_ns (m : ContextMachineCostModel) (direction : ContextTransferDirection) (work : TransferWork) : Z :=
  if (payload_bytes_ work =? 0) && (copy_operations work =? 0) then 0 else
  match (cm_transfer m).[direction_index direction] with
  | None => U64_MAX
  | Some cost =>
      let operation_limited :=
        saturating_add (tc_batch_ns cost) (saturating_product (tc_operation_ns cost) (copy_operations work)) in
      let bandwidth_limited := q32_product_ns (tc_ns_per_byte_q32 cost) (payload_bytes_ work) in
      Z.max operation_limited bandwidth_limited
  end.

(** Adding a batch to the coalesced work of its direction. *)
Definition merge_work (work added : TransferWork) : TransferWork :=
  let operations := wrap64 (copy_operations work + copy_operations added) in
  mkWork (saturating_add (payload_bytes_ work) (payload_bytes_ added))
    (if U32_MAX <? operations then U32_MAX else wrap32 operations).

(** [total = saturating_add(total, transfer_ns(directions[i], phase[i]))] for every direction. *)
Definition add_phase_ns (m : ContextMachineCostModel) (total : Z) (phase : CoalescedTransferWork) : Z :=
  fold_left (fun total '(direction, work) => saturating_add total (transfer_ns m direction work))
    (combine directions phase) total.

Definition coalesce_at (index : Z) (work : TransferWork) (coalesced : list TransferWork) : list TransferWork :=
  match coalesced.[index] with
  | Some present => coalesced.[index <- merge_work present work]
  | None => coalesced
  end.

Definition coalesce_batches (batches : list TransferBatchWork) : list TransferWork :=
  fold_left (fun coalesced batch =>
      coalesce_at (phase_index (tb_phase batch) * 3 + direction_index (tb_direction batch)) (tb_work batch) coalesced)
    batches (replicate 6 no_work).

Definition transfer_batches_ns (m : ContextMachineCostModel) (batches : list TransferBatchWork) : Z :=
  let coalesced := coalesce_batches batches in
  add_phase_ns m (add_phase_ns m 0 (take 3 coalesced)) (drop 3 coalesced).

Definition prefill_ns (m : ContextMachineCostModel) (work : PrefillWork) : Z :=
  let prefill := cm_prefill m in
  let result := saturating_product (pc_chunk_ns prefill) (pw_chunks work) in
  let result := saturating_add result (q32_product_ns (pc_token_ns_q32 prefill) (pw_tokens work)) in
  let result := saturating_add result (q32_product_ns (pc_attention_pair_ns_q32 prefill) (pw_attention_pairs work)) in
  let result := saturating_add result (saturating_product (pc_vision_item_ns prefill) (pw_vision_items work)) in
  saturating_add result (q32_product_ns (pc_vision_patch_ns_q32 prefill) (pw_vision_patches work)).

(** * Pricing of work *)
Record PricedMaterializationMachineWork : Type := mkPriced {
  pr_optimistic_request_ns : Z;
  pr_immediate_ns : Z;
  pr_transferred_bytes : Z;
  pr_copy_operations : Z;
}.

Definition accumulate_shape (phase : CoalescedTransferWork) (shape : Z * Z) : Z * Z :=
  fold_left (fun '(bytes, operations) item =>
      (saturating_add bytes (payload_bytes_ item), saturating_add operations (copy_operations item))) phase shape.

Definition price_materialization_machine_work (m : ContextMachineCostModel) (work : MaterializationMachineWork)
  : PricedMaterializationMachineWork :=
  let phase_ns := add_phase_ns m 0 in
  let prefill := prefill_ns m (mw_remaining_prefill_work work) in
  let optimistic := saturating_add prefill (phase_ns (mw_optimistic_candidate_transfers work)) in
  let immediate := saturating_add prefill (phase_ns (mw_pressure_transfers work)) in
  let immediate := saturating_add immediate (phase_ns (mw_candidate_transfers work)) in
  let '(bytes, operations) :=
    accumulate_shape (mw_candidate_transfers work) (accumulate_shape (mw_pressure_transfers work) (0, 0)) in
  mkPriced optimistic immediate bytes (if U32_MAX <? operations then U32_MAX else wrap32 operations).

Definition price_checkpoint_recovery_work (m : ContextMachineCostModel)
    (alternatives : list CheckpointRecoveryAlternativeWork) : Z :=
  fold_left (fun best alternative =>
      Z.min best (add_phase_ns m (prefill_ns m (ra_prefill alternative)) (ra_transfers alternative)))
    alternatives U64_MAX.

Definition coalesce_requirements (requirements : list ContextTransferRequirement) : CoalescedTransferWork :=
  fold_left (fun coalesced requirement =>
      coalesce_at (direction_index (tr_direction requirement)) (tr_work requirement) coalesced)
    requirements (replicate 3 no_work).

Definition price_context_transfer_requirements (m : ContextMachineCostModel)
    (requirements : list ContextTransferRequirement) : Z :=
  add_phase_ns m 0 (coalesce_requirements requirements).

(** * Presets *)
Record ContextCostIdentity : Type := mkIdentity {
  ci_hardware_class : string;
  ci_model_id : string;
  ci_weights_id : string;
}.

Record ContextPrefillPreset : Type := mkPrefillPreset {
  pp_model_id : string;
  pp_weights_id : string;
  pp_cost : ContextPrefillCost;
}.

Record ContextCostMachinePreset : Type := mkMachinePreset {
  mp_hardware_class : string;
  mp_transfer : option (list ContextTransferCost);
  mp_prefill : list ContextPrefillPreset;
}.

Inductive ContextCostPresetSource : Type := GenericDefault | CompiledDefault | External.

(** [ResolvedContextMachineCost]: the model, where each part comes from, and the identity it is for. *)
Record ResolvedContextMachineCost : Type := mkResolved {
  rc_model : ContextMachineCostModel;
  rc_transfer_source : ContextCostPresetSource;
  rc_prefill_source : ContextCostPresetSource;
  rc_identity : ContextCostIdentity;
}.

Definition str_empty (s : string) : bool := bool_decide (s = ""%string).

Definition validate_transfer (transfer : list ContextTransferCost) : result unit :=
  throw_if (existsb (fun value => (tc_batch_ns value =? 0) && (tc_operation_ns value =? 0) &&
                                  (tc_ns_per_byte_q32 value =? 0)) transfer) InvalidArgument.

Definition validate_prefill (prefill : ContextPrefillCost) : result unit :=
  _ ← throw_if ((pc_chunk_ns prefill =? 0) && (pc_token_ns_q32 prefill =? 0) &&
                (pc_attention_pair_ns_q32 prefill =? 0)) InvalidArgument;
  throw_if ((pc_vision_item_ns prefill =? 0) && (pc_vision_patch_ns_q32 prefill =? 0)) InvalidArgument.

Definition same_prefill (model_id weights_id : string) (preset : ContextPrefillPreset) : bool :=
  bool_decide (pp_model_id preset = model_id) && bool_decide (pp_weights_id preset = weights_id).

Definition find_machine (presets : list ContextCostMachinePreset) (hardware_class : string)
  : option ContextCostMachinePreset :=
  List.find (fun preset => bool_decide (mp_hardware_class preset = hardware_class)) presets.

Definition find_prefill (machine : ContextCostMachinePreset) (model_id weights_id : string)
  : option ContextPrefillPreset :=
  List.find (same_prefill model_id weights_id) (mp_prefill machine).

(** The loop over the prefill presets of a machine; [prior] are the ones before. *)
Fixpoint validate_prefills (prior rest : list ContextPrefillPreset) : result unit :=
  match rest with
  | [] => Ok tt
  | prefill :: rest' =>
      _ ← throw_if (str_empty (pp_model_id prefill) || str_empty (pp_weights_id prefill)) InvalidArgument;
      _ ← validate_prefill (pp_cost prefill);
      _ ← throw_if (existsb (same_prefill (pp_model_id prefill) (pp_weights_id prefill)) prior) InvalidArgument;
      validate_prefills (prior ++ [prefill]) rest'
  end.

Fixpoint validate_machines (prior rest : list ContextCostMachinePreset) : result unit :=
  match rest with
  | [] => Ok tt
  | machine :: rest' =>
      _ ← throw_if (str_empty (mp_hardware_class machine)) InvalidArgument;
      _ ← match mp_transfer machine with Some transfer => validate_transfer transfer | None => Ok tt end;
      _ ← throw_if (match mp_transfer machine, mp_prefill machine with None, [] => true | _, _ => false end) InvalidArgument;
      _ ← throw_if (existsb (fun preset => bool_decide (mp_hardware_class preset = mp_hardware_class machine)) prior)
            InvalidArgument;
      _ ← validate_prefills [] (mp_prefill machine);
      validate_machines (prior ++ [machine]) rest'
  end.

Definition validate_presets (presets : list ContextCostMachinePreset) : result unit := validate_machines [] presets.

(** ** Compiled defaults *)
Definition generic_context_transfer_cost : list ContextTransferCost :=
  [mkTransferCost 100000 12000 107374182; mkTransferCost 50000 12000 107374182; mkTransferCost 25000 12000 42949673].

Definition generic_context_prefill_cost : ContextPrefillCost :=
  mkPrefillCost 40813570 1012273154411951 30497396515 5986585 23710212854694.

Definition compiled_context_cost_defaults : list ContextCostMachinePreset :=
  [mkMachinePreset "nvidia-geforce-rtx-5090-sm120"
     (Some [mkTransferCost 48655 7433 91692315; mkTransferCost 0 8457 83354284; mkTransferCost 3343 9520 2658314])
     [mkPrefillPreset "qwen3.6-27b" "groupwise-int"
        (mkPrefillCost 40813570 1012273154411951 30497396515 5986585 23710212854694);
      mkPrefillPreset "qwen3.8-27b" "nvfp4"
        (mkPrefillCost 14672989 375800765711778 8200474657 5860255 23832529381413)]].

Definition generic_context_machine_cost_model : ContextMachineCostModel :=
  mkCostModel generic_context_transfer_cost generic_context_prefill_cost.

(** ** Resolution *)

(** One preset table overrides the parts it has for this identity. *)
Definition override_costs (presets : list ContextCostMachinePreset) (source : ContextCostPresetSource)
    (r : ResolvedContextMachineCost) : ResolvedContextMachineCost :=
  match find_machine presets (ci_hardware_class (rc_identity r)) with
  | None => r
  | Some machine =>
      let r := match mp_transfer machine with
               | Some transfer => mkResolved (mkCostModel transfer (cm_prefill (rc_model r))) source
                                    (rc_prefill_source r) (rc_identity r)
               | None => r
               end in
      match find_prefill machine (ci_model_id (rc_identity r)) (ci_weights_id (rc_identity r)) with
      | Some prefill => mkResolved (mkCostModel (cm_transfer (rc_model r)) (pp_cost prefill)) (rc_transfer_source r)
                          source (rc_identity r)
      | None => r
      end
  end.

(** [external] is what reading and parsing the external preset file gives, when a path is set. *)
Definition resolve_context_machine_cost (identity : ContextCostIdentity)
    (external : option (result (list ContextCostMachinePreset))) : result ResolvedContextMachineCost :=
  _ ← throw_if (str_empty (ci_hardware_class identity) || str_empty (ci_model_id identity) ||
                str_empty (ci_weights_id identity)) InvalidArgument;
  let r := mkResolved generic_context_machine_cost_model GenericDefault GenericDefault identity in
  _ ← validate_presets compiled_context_cost_defaults;
  let r := override_costs compiled_context_cost_defaults CompiledDefault r in
  match external with
  | None => Ok r
  | Some parsed => presets ← parsed; Ok (override_costs presets External r)
  end.

(** ** Hardware class *)

(** [std::isalnum] and [std::tolower] of the "C" locale. *)
Definition is_alnum (c : ascii) : bool :=
  let n := Z.of_N (N_of_ascii c) in
  ((48 <=? n) && (n <=? 57)) || ((65 <=? n) && (n <=? 90)) || ((97 <=? n) && (n <=? 122)).
Definition to_lower (c : ascii) : ascii :=
  let n := Z.of_N (N_of_ascii c) in
  if (65 <=? n) && (n <=? 90) then ascii_of_N (Z.to_N (n + 32)) else c.

Definition dash : ascii := "-"%char.

(** The slug while it is built, last character first. *)
Definition slug_step (slug : list ascii) (c : ascii) : list ascii :=
  if is_alnum c then to_lower c :: slug
  else match slug with
       | [] => slug
       | back :: _ => if bool_decide (back = dash) then slug else dash :: slug
       end.

(** [while (!slug.empty() && slug.back() == '-') slug.pop_back();] *)
Fixpoint trim_dashes (slug : list ascii) : list ascii :=
  match slug with
  | [] => []
  | back :: slug' => if bool_decide (back = dash) then trim_dashes slug' else slug
  end.

Definition gpu_slug (gpu_name : list ascii) : list ascii :=
  let slug := rev (trim_dashes (fold_left slug_step gpu_name [])) in
  let slug := match slug with [] => String.list_ascii_of_string "gpu" | _ => slug end in
  let nvidia := String.list_ascii_of_string "nvidia" in
  if negb (bool_decide (slug = nvidia)) && negb (bool_decide (take 7 slug = nvidia ++ [dash]))
  then nvidia ++ dash :: slug else slug.

Definition context_cost_hardware_class (gpu_name : string) (major minor : Z) : string :=
  String.string_of_list_ascii (gpu_slug (String.list_ascii_of_string gpu_name)) +:+ "-sm" +:+ pretty major +:+ pretty minor.

(** The class of the compiled table is the one a board of that kind reports. *)
Example hardware_class_of_board :
  context_cost_hardware_class "NVIDIA GeForce RTX 5090" 12 0 = "nvidia-geforce-rtx-5090-sm120"%string.
Proof. reflexivity. Qed.

(** * Exact costs *)

(** A value cut at the largest 64-bit number. *)
Definition sat (x : Z) : Z := Z.min U64_MAX x.

(** A fixed-point product in nanoseconds, rounded up. *)
Definition ceil_q32 (x : Z) : Z := (x + 4294967295) / 4294967296.

Definition transfer_cost (cost : ContextTransferCost) (work : TransferWork) : Z :=
  Z.max (tc_batch_ns cost + tc_operation_ns cost * copy_operations work)
    (ceil_q32 (tc_ns_per_byte_q32 cost * payload_bytes_ work)).

Definition exact_transfer (m : ContextMachineCostModel) (direction : ContextTransferDirection) (work : TransferWork) : Z :=
  if (payload_bytes_ work =? 0) && (copy_operations work =? 0) then 0 else
  match (cm_transfer m).[direction_index direction] with Some cost => transfer_cost cost work | None => U64_MAX end.

Definition exact_phase (m : ContextMachineCostModel) (phase : CoalescedTransferWork) : Z :=
  zsum (map (fun p => exact_transfer m (fst p) (snd p)) (combine directions phase)).

Definition exact_prefill (c : ContextPrefillCost) (w : PrefillWork) : Z :=
  pc_chunk_ns c * pw_chunks w + ceil_q32 (pc_token_ns_q32 c * pw_tokens w) +
  ceil_q32 (pc_attention_pair_ns_q32 c * pw_attention_pairs w) + pc_vision_item_ns c * pw_vision_items w +
  ceil_q32 (pc_vision_patch_ns_q32 c * pw_vision_patches w).

(** Values of the C++ types. *)
Record cost_ok (c : ContextTransferCost) : Prop := {
  co_batch : is_u64 (tc_batch_ns c);
  co_operation : is_u64 (tc_operation_ns c);
  co_byte : is_u64 (tc_ns_per_byte_q32 c);
}.

Record prefill_cost_ok (c : ContextPrefillCost) : Prop := {
  fc_chunk : is_u64 (pc_chunk_ns c);
  fc_token : is_u64 (pc_token_ns_q32 c);
  fc_pair : is_u64 (pc_attention_pair_ns_q32 c);
  fc_item : is_u64 (pc_vision_item_ns c);
  fc_patch : is_u64 (pc_vision_patch_ns_q32 c);
}.

Record model_ok (m : ContextMachineCostModel) : Prop := {
  mo_transfer : Forall cost_ok (cm_transfer m);
  mo_prefill : prefill_cost_ok (cm_prefill m);
}.

Definition work_ok (w : TransferWork) : Prop := is_u64 (payload_bytes_ w) /\ is_u32 (copy_operations w).

Record prefill_ok (w : PrefillWork) : Prop := {
  fo_chunks : is_u64 (pw_chunks w);
  fo_tokens : is_u64 (pw_tokens w);
  fo_pairs : is_u64 (pw_attention_pairs w);
  fo_items : is_u64 (pw_vision_items w);
  fo_patches : is_u64 (pw_vision_patches w);
}.

Record machine_work_ok (w : MaterializationMachineWork) : Prop := {
  mk_pressure : Forall work_ok (mw_pressure_transfers w);
  mk_candidate : Forall work_ok (mw_candidate_transfers w);
  mk_optimistic : Forall work_ok (mw_optimistic_candidate_transfers w);
  mk_prefill : prefill_ok (mw_remaining_prefill_work w);
}.

(** ** Saturation *)
Lemma sat_u64 x : 0 <= x -> is_u64 (sat x).
Proof. unfold is_u64, sat, U64_MAX. lia. Qed.

Lemma sat_small x : is_u64 x -> sat x = x.
Proof. unfold is_u64, sat. lia. Qed.

Lemma sat_sat x : sat (sat x) = sat x.
Proof. unfold sat. lia. Qed.

Lemma sat_mono x y : x <= y -> sat x <= sat y.
Proof. unfold sat. lia. Qed.

Lemma sat_add_l x y : 0 <= y -> sat (sat x + y) = sat (x + y).
Proof. unfold sat. lia. Qed.

Lemma sat_add_r x y : 0 <= x -> sat (x + sat y) = sat (x + y).
Proof. unfold sat. lia. Qed.

Lemma sat_max x y : Z.max (sat x) (sat y) = sat (Z.max x y).
Proof. unfold sat. lia. Qed.

Lemma saturating_add_sat l r : is_u64 l -> is_u64 r -> saturating_add l r = sat (l + r).
Proof.
  unfold is_u64, saturating_add, sat. intros. destruct (Z.ltb_spec (U64_MAX - l) r); [lia|].
  rewrite wrap64_small; lia.
Qed.

(** Saturating sums of cut values are cut sums. *)
Lemma saturating_add_cut x y : 0 <= x -> 0 <= y -> saturating_add (sat x) (sat y) = sat (x + y).
Proof. intros. rewrite saturating_add_sat, sat_add_l, sat_add_r; [done|done|apply sat_u64; done..|by apply sat_u64]. Qed.

Lemma wrap128_small z : 0 <= z < 340282366920938463463374607431768211456 -> wrap128 z = z.
Proof. intros. by apply Z.mod_small. Qed.

Lemma u64_product l r : is_u64 l -> is_u64 r -> 0 <= l * r <= 340282366920938463426481119284349108225.
Proof. unfold is_u64, U64_MAX. intros. nia. Qed.

Lemma saturating_product_sat l r : is_u64 l -> is_u64 r -> saturating_product l r = sat (l * r).
Proof.
  intros Hl Hr. pose proof (u64_product l r Hl Hr). unfold saturating_product, sat.
  rewrite wrap128_small by lia. destruct (Z.ltb_spec U64_MAX (l * r)); lia.
Qed.

Lemma ceil_q32_nonneg x : 0 <= x -> 0 <= ceil_q32 x.
Proof. intros. apply Z.div_pos; lia. Qed.

Lemma ceil_q32_mono x y : x <= y -> ceil_q32 x <= ceil_q32 y.
Proof. intros. apply Z.div_le_mono; lia. Qed.

Lemma ceil_q32_add x y : ceil_q32 (x + y) <= ceil_q32 x + ceil_q32 y.
Proof.
  unfold ceil_q32. pose proof (Z.div_mod (x + 4294967295) 4294967296 ltac:(lia)).
  pose proof (Z.div_mod (y + 4294967295) 4294967296 ltac:(lia)).
  pose proof (Z.mod_pos_bound (x + 4294967295) 4294967296 ltac:(lia)).
  pose proof (Z.mod_pos_bound (y + 4294967295) 4294967296 ltac:(lia)).
  apply Z.lt_succ_r, Z.div_lt_upper_bound; lia.
Qed.

Lemma q32_product_sat c u : is_u64 c -> is_u64 u -> q32_product_ns c u = sat (ceil_q32 (c * u)).
Proof.
  intros Hc Hu. pose proof (u64_product c u Hc Hu) as Hp. unfold q32_product_ns.
  destruct ((c =? 0) || (u =? 0)) eqn:E.
  { assert (c * u = 0) as -> by (apply orb_true_iff in E as [?%Z.eqb_eq| ?%Z.eqb_eq]; subst; lia). reflexivity. }
  rewrite (wrap128_small (c * u)) by lia. change (wrap128 (Z.shiftl U64_MAX 32)) with (U64_MAX * 4294967296).
  rewrite Z.shiftr_div_pow2 by lia. change (2 ^ 32) with 4294967296. unfold ceil_q32, kContextCostQ32One, U64_MAX.
  destruct (Z.leb_spec (18446744073709551615 * 4294967296) (c * u)) as [Hge|Hlt].
  - unfold sat, U64_MAX. rewrite Z.min_l; [done|]. apply Z.div_le_lower_bound; lia.
  - rewrite wrap128_small by lia.
    assert (Hq : 0 <= (c * u + 4294967295) / 4294967296 <= 18446744073709551615).
    { split; [apply Z.div_pos; lia|]. apply Z.lt_succ_r, Z.div_lt_upper_bound; lia. }
    replace (c * u + 4294967296 - 1) with (c * u + 4294967295) by lia.
    rewrite wrap64_small by (unfold U64_MAX; lia). unfold sat, U64_MAX. lia.
Qed.

Create HintDb cost discriminated.
#[export] Hint Resolve sat_u64 ceil_q32_nonneg Z.mul_nonneg_nonneg Z.add_nonneg_nonneg : cost.

(** ** Prices are exact *)
Lemma transfer_cost_nonneg c w : cost_ok c -> work_ok w -> 0 <= transfer_cost c w.
Proof.
  intros [[? _] [? _] [? _]] [[? _] [? _]]. unfold transfer_cost. pose proof (ceil_q32_nonneg (tc_ns_per_byte_q32 c * payload_bytes_ w)). nia.
Qed.

Section Prices.
Context (m : ContextMachineCostModel) (Hm : model_ok m).

Lemma exact_transfer_nonneg d w : work_ok w -> 0 <= exact_transfer m d w.
Proof using Hm.
  intros Hw. unfold exact_transfer. destruct (_ && _); [done|]. destruct (_.[_]) as [c|] eqn:E; [|done].
  apply transfer_cost_nonneg; [|done]. by apply (Forall_vget _ _ _ _ (mo_transfer m Hm) E).
Qed.

Lemma transfer_ns_exact d w : work_ok w -> transfer_ns m d w = sat (exact_transfer m d w).
Proof using Hm.
  intros [Hb Ho]. unfold transfer_ns, exact_transfer. destruct (_ && _); [done|].
  destruct (_.[_]) as [c|] eqn:E; [|done]. destruct (Forall_vget _ _ _ _ (mo_transfer m Hm) E) as [Hc1 Hc2 Hc3].
  assert (Ho' : is_u64 (copy_operations w)) by (unfold is_u32, is_u64, U32_MAX, U64_MAX in *; lia).
  assert (0 <= tc_operation_ns c * copy_operations w) by (apply Z.mul_nonneg_nonneg; [apply Hc2|apply Ho]).
  rewrite saturating_product_sat, saturating_add_sat, sat_add_r, q32_product_sat, sat_max by (auto with cost; apply Hc1).
  done.
Qed.

Lemma transfer_ns_u64 d w : work_ok w -> is_u64 (transfer_ns m d w).
Proof using Hm. intros Hw. rewrite transfer_ns_exact by done. by apply sat_u64, exact_transfer_nonneg. Qed.

Lemma exact_phase_nonneg phase : Forall work_ok phase -> 0 <= exact_phase m phase.
Proof using Hm.
  intros Hp. apply zsum_nonneg, Forall_map, Forall_forall. intros [d w] Hin. apply exact_transfer_nonneg. cbn.
  rewrite Forall_forall in Hp. apply Hp. apply list_elem_of_In in Hin. apply in_combine_r in Hin. by apply list_elem_of_In.
Qed.

(** Adding the prices of a phase one after the other, cut at every step, is the cut sum. *)
Lemma add_phase_exact total phase :
  is_u64 total -> Forall work_ok phase -> add_phase_ns m total phase = sat (total + exact_phase m phase).
Proof using Hm.
  unfold add_phase_ns, exact_phase. revert phase total.
  induction directions as [|d ds IH]; intros [|w phase] total Ht Hp; cbn;
    try (rewrite Z.add_0_r, sat_small by done; done).
  apply Forall_cons_1 in Hp as [Hw Hp]. pose proof (transfer_ns_u64 d w Hw). pose proof (exact_transfer_nonneg d w Hw).
  rewrite IH; [|rewrite saturating_add_sat by done; apply sat_u64; unfold is_u64 in *; lia|done].
  rewrite saturating_add_sat, transfer_ns_exact, sat_add_r by (done || apply Ht).
  rewrite sat_add_l; [by rewrite zsum_cons, Z.add_assoc|].
  apply zsum_nonneg, Forall_map, Forall_forall. intros [d' w'] Hin. apply exact_transfer_nonneg.
  rewrite Forall_forall in Hp. apply Hp. apply list_elem_of_In in Hin. apply in_combine_r in Hin. by apply list_elem_of_In.
Qed.

Lemma exact_prefill_nonneg w : prefill_ok w -> 0 <= exact_prefill (cm_prefill m) w.
Proof using Hm.
  destruct (mo_prefill m Hm) as [[? _] [? _] [? _] [? _] [? _]]. intros [[? _] [? _] [? _] [? _] [? _]].
  unfold exact_prefill. repeat apply Z.add_nonneg_nonneg; auto with cost.
Qed.

Lemma prefill_ns_exact w : prefill_ok w -> prefill_ns m w = sat (exact_prefill (cm_prefill m) w).
Proof using Hm.
  destruct (mo_prefill m Hm) as [H1 H2 H3 H4 H5]. intros [W1 W2 W3 W4 W5]. unfold prefill_ns, exact_prefill.
  pose proof (proj1 H1). pose proof (proj1 H2). pose proof (proj1 H3). pose proof (proj1 H4). pose proof (proj1 H5).
  pose proof (proj1 W1). pose proof (proj1 W2). pose proof (proj1 W3). pose proof (proj1 W4). pose proof (proj1 W5).
  rewrite !saturating_product_sat, !q32_product_sat by done.
  by rewrite !saturating_add_cut by auto 10 with cost.
Qed.

Lemma prefill_ns_u64 w : prefill_ok w -> is_u64 (prefill_ns m w).
Proof using Hm. intros Hw. rewrite prefill_ns_exact by done. by apply sat_u64, exact_prefill_nonneg. Qed.
End Prices.

Lemma accumulate_shape_exact phase b o :
  is_u64 b -> is_u64 o -> Forall work_ok phase ->
  accumulate_shape phase (b, o) =
    (sat (b + zsum (map payload_bytes_ phase)), sat (o + zsum (map copy_operations phase))).
Proof.
  revert b o. induction phase as [|w phase IH]; intros b o Hb Ho Hp; cbn.
  { by rewrite !Z.add_0_r, !sat_small. }
  apply Forall_cons_1 in Hp as [[Hwb Hwo] Hp]. assert (is_u64 (copy_operations w)) by (unfold is_u32, is_u64, U32_MAX, U64_MAX in *; lia).
  unfold accumulate_shape in IH. rewrite !saturating_add_sat by done.
  rewrite IH by (done || apply sat_u64; unfold is_u64 in *; lia).
  rewrite !zsum_cons, !sat_add_l, !Z.add_assoc; [done|..];
    apply zsum_nonneg, Forall_map; (eapply Forall_impl; [exact Hp|]); intros x [[? _] [? _]]; done.
Qed.

Lemma shape_nonneg phase :
  Forall work_ok phase -> 0 <= zsum (map payload_bytes_ phase) /\ 0 <= zsum (map copy_operations phase).
Proof.
  intros Hp. split; apply zsum_nonneg, Forall_map; (eapply Forall_impl; [exact Hp|]); intros x [[? _] [? _]]; done.
Qed.

(** C2. The price of one materialization is exact: the prefill that remains, then the pressure and the
    candidate transfers, every fixed-point product rounded up, the total cut at the largest 64-bit
    value; the optimistic price has the optimistic transfers only; bytes are the sum over both phases
    cut at the largest 64-bit value, and copies are their sum cut at the largest 32-bit value. *)
Theorem machine_work_priced_exactly m w :
  model_ok m -> machine_work_ok w ->
  price_materialization_machine_work m w =
    let prefill := exact_prefill (cm_prefill m) (mw_remaining_prefill_work w) in
    mkPriced (sat (prefill + exact_phase m (mw_optimistic_candidate_transfers w)))
      (sat (prefill + exact_phase m (mw_pressure_transfers w) + exact_phase m (mw_candidate_transfers w)))
      (sat (zsum (map payload_bytes_ (mw_pressure_transfers w)) + zsum (map payload_bytes_ (mw_candidate_transfers w))))
      (Z.min U32_MAX (zsum (map copy_operations (mw_pressure_transfers w)) + zsum (map copy_operations (mw_candidate_transfers w)))).
Proof.
  intros Hm [Hp Hc Ho Hf]. unfold price_materialization_machine_work. cbv zeta.
  assert (H0 : is_u64 0) by done. pose proof (exact_prefill_nonneg m Hm _ Hf) as Hf0.
  pose proof (exact_phase_nonneg m Hm _ Hp) as Hp0. pose proof (exact_phase_nonneg m Hm _ Hc) as Hc0. pose proof (exact_phase_nonneg m Hm _ Ho) as Ho0.
  destruct (shape_nonneg _ Hp) as [Hpb Hpo]. destruct (shape_nonneg _ Hc) as [Hcb Hco].
  rewrite !add_phase_exact, prefill_ns_exact, !Z.add_0_l by done.
  rewrite (accumulate_shape_exact _ 0 0), !Z.add_0_l, accumulate_shape_exact by auto with cost.
  rewrite !saturating_add_cut, !sat_add_l by auto with cost. f_equal.
  set (ops := _ + _). assert (0 <= ops) by (unfold ops; lia). destruct (Z.ltb_spec U32_MAX (sat ops)).
  - unfold sat, U64_MAX, U32_MAX in *. lia.
  - rewrite wrap32_small; unfold sat, U64_MAX, U32_MAX in *; lia.
Qed.

Definition witness_work : MaterializationMachineWork :=
  mkMachineWork [mkWork 1048576 3; no_work; no_work] [no_work; mkWork 4096 1; no_work] (replicate 3 no_work)
    (make_prefill_work 100 50 0 0 32) 100.

Lemma machine_work_priced_exactly_witness :
  pr_immediate_ns (price_materialization_machine_work generic_context_machine_cost_model witness_work) =
    sat (exact_prefill generic_context_prefill_cost (mw_remaining_prefill_work witness_work) + 136000 + 62000).
Proof.
  rewrite machine_work_priced_exactly; [reflexivity|split; [repeat constructor; done|split; done]|].
  split; [repeat constructor; done..|split; done].
Defined.

(** ** Recovery takes the cheapest recipe *)
Definition recovery_ok (a : CheckpointRecoveryAlternativeWork) : Prop :=
  Forall work_ok (ra_transfers a) /\ prefill_ok (ra_prefill a).

Definition exact_recovery (m : ContextMachineCostModel) (a : CheckpointRecoveryAlternativeWork) : Z :=
  exact_prefill (cm_prefill m) (ra_prefill a) + exact_phase m (ra_transfers a).

Lemma recovery_price_exact m a :
  model_ok m -> recovery_ok a ->
  add_phase_ns m (prefill_ns m (ra_prefill a)) (ra_transfers a) = sat (exact_recovery m a).
Proof.
  intros Hm [Ht Hf]. rewrite add_phase_exact by (done || by apply prefill_ns_u64). rewrite prefill_ns_exact by done.
  by rewrite sat_add_l by (by apply exact_phase_nonneg).
Qed.

Lemma recovery_fold_min m alternatives best :
  model_ok m -> Forall recovery_ok alternatives ->
  let r := fold_left (fun best a => Z.min best (add_phase_ns m (prefill_ns m (ra_prefill a)) (ra_transfers a))) alternatives best in
  r <= best /\ (forall a, a ∈ alternatives -> r <= sat (exact_recovery m a)) /\
  (r = best \/ exists a, a ∈ alternatives /\ r = sat (exact_recovery m a)).
Proof.
  intros Hm. revert best. induction alternatives as [|a alternatives IH]; intros best Hok; cbn [fold_left]; cbv zeta.
  { split; [done|]. split; [intros a Ha; inversion Ha|by left]. }
  apply Forall_cons_1 in Hok as [Ha Hok]. rewrite recovery_price_exact by done.
  destruct (IH (Z.min best (sat (exact_recovery m a))) Hok) as (H1 & H2 & H3). split; [lia|]. split.
  - intros a' [->|Hin]%elem_of_cons; [lia|by apply H2].
  - destruct H3 as [->|(a' & Hin & ->)].
    + destruct (Z.min_spec best (sat (exact_recovery m a))) as [[_ ->]|[_ ->]]; [by left|right]. exists a. by split; [left|].
    + right. exists a'. by split; [right|].
Qed.

(** The recovery price is the least price among the recipes, the largest value without any. *)
Lemma recovery_price_least m alternatives :
  model_ok m -> Forall recovery_ok alternatives ->
  (forall a, a ∈ alternatives -> price_checkpoint_recovery_work m alternatives <= sat (exact_recovery m a)) /\
  (price_checkpoint_recovery_work m alternatives = U64_MAX \/
   exists a, a ∈ alternatives /\ price_checkpoint_recovery_work m alternatives = sat (exact_recovery m a)).
Proof. intros Hm Hok. destruct (recovery_fold_min m alternatives U64_MAX Hm Hok) as (_ & H2 & H3). by split. Qed.

Lemma recovery_price_u64 m alternatives :
  model_ok m -> Forall recovery_ok alternatives -> is_u64 (price_checkpoint_recovery_work m alternatives).
Proof.
  intros Hm Hok. destruct (recovery_price_least m alternatives Hm Hok) as [_ [->|(a & Hin & ->)]]; [done|].
  apply sat_u64. rewrite Forall_forall in Hok. destruct (Hok a Hin) as [Ht Hf].
  unfold exact_recovery. pose proof (exact_prefill_nonneg m Hm _ Hf). pose proof (exact_phase_nonneg m Hm _ Ht). lia.
Qed.

(** ** Coalescing *)
Lemma merge_work_ok w v : work_ok w -> work_ok v -> work_ok (merge_work w v).
Proof.
  intros [Hb Ho] [Hb' Ho']. unfold merge_work. split; cbn.
  - rewrite saturating_add_sat by done. apply sat_u64. unfold is_u64 in *. lia.
  - unfold is_u32, U32_MAX in *. rewrite wrap64_small by (unfold U64_MAX; lia). destruct (Z.ltb_spec 4294967295 (copy_operations w + copy_operations v)); [lia|].
    rewrite wrap32_small; unfold U32_MAX; lia.
Qed.

Lemma merge_work_le w v : work_ok w -> work_ok v ->
  payload_bytes_ (merge_work w v) <= payload_bytes_ w + payload_bytes_ v /\
  copy_operations (merge_work w v) <= copy_operations w + copy_operations v.
Proof.
  intros [Hb Ho] [Hb' Ho']. unfold merge_work. cbn. split.
  - rewrite saturating_add_sat by done. unfold sat. lia.
  - unfold is_u32, U32_MAX in *. rewrite wrap64_small by (unfold U64_MAX; lia). destruct (Z.ltb_spec 4294967295 (copy_operations w + copy_operations v)); [lia|].
    rewrite wrap32_small; unfold U32_MAX; lia.
Qed.

Lemma transfer_cost_mono c w v :
  cost_ok c -> work_ok w -> payload_bytes_ w <= payload_bytes_ v -> copy_operations w <= copy_operations v ->
  transfer_cost c w <= transfer_cost c v.
Proof.
  intros [[? _] [? _] [? _]] [[? _] [? _]] Hb Ho. unfold transfer_cost.
  pose proof (ceil_q32_mono (tc_ns_per_byte_q32 c * payload_bytes_ w) (tc_ns_per_byte_q32 c * payload_bytes_ v) ltac:(nia)). nia.
Qed.

Lemma transfer_cost_add c w v u :
  cost_ok c -> work_ok u -> payload_bytes_ u <= payload_bytes_ w + payload_bytes_ v ->
  copy_operations u <= copy_operations w + copy_operations v -> transfer_cost c u <= transfer_cost c w + transfer_cost c v.
Proof.
  intros Hc Hu Hb Ho. etransitivity;
    [apply (transfer_cost_mono c u (mkWork (payload_bytes_ w + payload_bytes_ v) (copy_operations w + copy_operations v))); done|].
  destruct Hc as [[? _] [? _] [? _]]. unfold transfer_cost. cbn. rewrite !Z.mul_add_distr_l.
  pose proof (ceil_q32_add (tc_ns_per_byte_q32 c * payload_bytes_ w) (tc_ns_per_byte_q32 c * payload_bytes_ v)). lia.
Qed.

(** Work merged into one batch costs no more than the batches apart. *)
Lemma exact_transfer_merge m d w v :
  model_ok m -> work_ok w -> work_ok v -> exact_transfer m d (merge_work w v) <= exact_transfer m d w + exact_transfer m d v.
Proof.
  intros Hm Hw Hv. destruct (merge_work_le w v Hw Hv) as [Hb Ho]. pose proof (merge_work_ok w v Hw Hv) as Hu.
  revert Hb Ho Hu. generalize (merge_work w v). intros u Hb Ho Hu. pose proof Hu as [[Hu1 _] [Hu2 _]].
  pose proof (exact_transfer_nonneg m Hm d w Hw) as Nw. pose proof (exact_transfer_nonneg m Hm d v Hv) as Nv.
  revert Nw Nv. unfold exact_transfer. destruct ((payload_bytes_ u =? 0) && _) eqn:Eu; [lia|].
  destruct (_.[_]) as [c|] eqn:E.
  - pose proof (Forall_vget _ _ _ _ (mo_transfer m Hm) E) as Hc.
    destruct ((payload_bytes_ w =? 0) && _) eqn:Ew, ((payload_bytes_ v =? 0) && _) eqn:Ev; intros; simp_bool.
    + apply andb_false_iff in Eu as [?%Z.eqb_neq| ?%Z.eqb_neq]; lia.
    + rewrite Z.add_0_l. apply transfer_cost_mono; done || lia.
    + rewrite Z.add_0_r. apply transfer_cost_mono; done || lia.
    + by apply transfer_cost_add.
  - destruct ((payload_bytes_ w =? 0) && _) eqn:Ew, ((payload_bytes_ v =? 0) && _) eqn:Ev; intros; simp_bool; try (unfold U64_MAX; lia).
Qed.

Lemma combine_vset {A B} (l : list A) (k : list B) i a x :
  l.[i] = Some a -> combine l k.[i <- x] = (combine l k).[i <- (a, x)].
Proof.
  unfold vget, vset. destruct (0 <=? i); [|done]. generalize (Z.to_nat i). clear i. intros i. revert k i.
  induction l as [|b l IH]; intros [|y k] [|i] Hl; try done; cbn in *; [congruence|]. by rewrite IH.
Qed.

Lemma combine_vget {A B} (l : list A) (k : list B) i a y :
  l.[i] = Some a -> k.[i] = Some y -> (combine l k).[i] = Some (a, y).
Proof.
  unfold vget. destruct (0 <=? i); [|done]. generalize (Z.to_nat i). clear i. intros i. revert k i.
  induction l as [|b l IH]; intros [|z k] [|i] Hl Hk; try done; cbn in *; [congruence|]. by apply IH.
Qed.

(** The exact price of coalesced work, by the direction of each entry. *)
Definition exact_sum (m : ContextMachineCostModel) (ds : list ContextTransferDirection) (work : list TransferWork) : Z :=
  zsum (map (fun p => exact_transfer m (fst p) (snd p)) (combine ds work)).

Lemma coalesce_at_ok i w work : work_ok w -> Forall work_ok work -> Forall work_ok (coalesce_at i w work).
Proof.
  intros Hw Hwork. unfold coalesce_at. destruct (work.[i]) as [v|] eqn:E; [|done].
  apply Forall_vset; [done|]. apply merge_work_ok; [|done]. by apply (Forall_vget _ _ _ _ Hwork E).
Qed.

Lemma coalesce_at_cost m ds i d w work :
  model_ok m -> work_ok w -> Forall work_ok work -> ds.[i] = Some d ->
  exact_sum m ds (coalesce_at i w work) <= exact_sum m ds work + exact_transfer m d w.
Proof.
  intros Hm Hw Hwork Hd. unfold coalesce_at. pose proof (exact_transfer_nonneg m Hm d w Hw).
  destruct (work.[i]) as [v|] eqn:E; [|lia]. pose proof (Forall_vget _ _ _ _ Hwork E) as Hv.
  unfold exact_sum. rewrite (combine_vset _ _ _ d) by done.
  rewrite (zsum_map_vset _ _ _ (d, v)) by (by apply combine_vget). cbn.
  pose proof (exact_transfer_merge m d v w Hm Hv Hw). lia.
Qed.

Section Coalescing.
Context {B : Type} (index : B -> Z) (direction : B -> ContextTransferDirection) (work : B -> TransferWork).
Context (m : ContextMachineCostModel) (Hm : model_ok m) (ds : list ContextTransferDirection).
Hypothesis Hindex : forall b, ds.[index b] = Some (direction b).

Lemma coalesced_cost batches acc :
  Forall (fun b => work_ok (work b)) batches -> Forall work_ok acc ->
  let r := fold_left (fun acc b => coalesce_at (index b) (work b) acc) batches acc in
  Forall work_ok r /\ exact_sum m ds r <= exact_sum m ds acc + zsum (map (fun b => exact_transfer m (direction b) (work b)) batches).
Proof using Hm Hindex.
  revert acc. induction batches as [|b batches IH]; intros acc Hb Hacc; cbn [fold_left map]; cbv zeta.
  { split; [done|]. change (zsum []) with 0. lia. }
  apply Forall_cons_1 in Hb as [Hb Hbs]. destruct (IH (coalesce_at (index b) (work b) acc)) as [H1 H2]; [done|by apply coalesce_at_ok|].
  split; [exact H1|]. rewrite zsum_cons. pose proof (coalesce_at_cost m ds (index b) (direction b) (work b) acc Hm Hb Hacc (Hindex b)). lia.
Qed.
End Coalescing.

Lemma exact_sum_app m ds1 ds2 work :
  exact_sum m (ds1 ++ ds2) work = exact_sum m ds1 (take (length ds1) work) + exact_sum m ds2 (drop (length ds1) work).
Proof.
  unfold exact_sum. rewrite <- zsum_app, <- map_app. f_equal. f_equal. revert work.
  induction ds1 as [|d ds1 IH]; intros work; cbn; [by rewrite drop_0|]. destruct work as [|w work]; cbn; [by destruct ds2|]. by rewrite IH.
Qed.

(** The sum of separate prices as a caller would take it. *)
Definition separate_ns (m : ContextMachineCostModel) (batches : list TransferBatchWork) : Z :=
  fold_left (fun total b => saturating_add total (transfer_ns m (tb_direction b) (tb_work b))) batches 0.

Lemma separate_fold_exact m batches t :
  model_ok m -> Forall (fun b => work_ok (tb_work b)) batches -> is_u64 t ->
  fold_left (fun total b => saturating_add total (transfer_ns m (tb_direction b) (tb_work b))) batches t =
    sat (t + zsum (map (fun b => exact_transfer m (tb_direction b) (tb_work b)) batches)).
Proof.
  intros Hm. revert t. induction batches as [|b batches IH]; intros t Hb Ht; cbn [fold_left map].
  { change (zsum []) with 0. by rewrite Z.add_0_r, sat_small. }
  apply Forall_cons_1 in Hb as [Hb Hbs]. pose proof (exact_transfer_nonneg m Hm (tb_direction b) (tb_work b) Hb) as Hn.
  assert (Hsum : 0 <= zsum (map (fun b => exact_transfer m (tb_direction b) (tb_work b)) batches)).
  { apply zsum_nonneg, Forall_map. eapply Forall_impl; [exact Hbs|]. intros x Hx. by apply exact_transfer_nonneg. }
  rewrite saturating_add_sat, transfer_ns_exact, sat_add_r by (done || apply Ht || by apply transfer_ns_u64).
  rewrite IH by (done || apply sat_u64; unfold is_u64 in *; lia). by rewrite sat_add_l, zsum_cons, Z.add_assoc.
Qed.

(** The price of transfer batches is the exact price of the work of every phase and direction put
    together, and putting it together never makes it dearer than the batches one by one. *)
Theorem coalesced_batches_price m batches :
  model_ok m -> Forall (fun b => work_ok (tb_work b)) batches ->
  transfer_batches_ns m batches = sat (exact_sum m (directions ++ directions) (coalesce_batches batches)) /\
  transfer_batches_ns m batches <= separate_ns m batches.
Proof.
  intros Hm Hb.
  destruct (coalesced_cost (fun b => phase_index (tb_phase b) * 3 + direction_index (tb_direction b)) tb_direction tb_work m Hm
              (directions ++ directions) ltac:(intros [[] [] ?]; done) batches (replicate 6 no_work) Hb) as [Hok Hle];
    [by apply Forall_replicate|]. fold (coalesce_batches batches) in Hok, Hle.
  assert (E : transfer_batches_ns m batches = sat (exact_sum m (directions ++ directions) (coalesce_batches batches))).
  { rewrite exact_sum_app. change (length directions) with 3%nat. unfold transfer_batches_ns. cbv zeta.
    pose proof (Forall_take _ 3 _ Hok) as H1. pose proof (Forall_drop _ 3 _ Hok) as H2.
    rewrite add_phase_exact, (add_phase_exact m Hm 0), Z.add_0_l by (done || rewrite add_phase_exact by done; apply sat_u64, exact_phase_nonneg; done).
    by rewrite sat_add_l by (by apply exact_phase_nonneg). }
  split; [done|]. rewrite E. unfold separate_ns. rewrite separate_fold_exact by done. apply sat_mono. rewrite Z.add_0_l. exact Hle.
Qed.

(** ** The two arithmetic branches *)
Lemma umul128_spec l r high low :
  is_u64 l -> is_u64 r -> umul128 l r = (high, low) ->
  l * r = high * 18446744073709551616 + low /\ is_u64 high /\ is_u64 low.
Proof.
  intros Hl Hr [= <- <-]. pose proof (u64_product l r Hl Hr) as Hp.
  assert (0 <= l * r / 18446744073709551616 <= U64_MAX).
  { split; [apply Z.div_pos; lia|]. unfold U64_MAX. apply Z.lt_succ_r, Z.div_lt_upper_bound; lia. }
  rewrite wrap64_small by done. unfold wrap64.
  pose proof (Z.div_mod (l * r) 18446744073709551616 ltac:(lia)). pose proof (Z.mod_pos_bound (l * r) 18446744073709551616 ltac:(lia)).
  unfold is_u64, U64_MAX in *. lia.
Qed.

Lemma saturating_product_branches l r :
  is_u64 l -> is_u64 r -> saturating_product_msvc l r = saturating_product l r.
Proof.
  intros Hl Hr. rewrite saturating_product_sat by done. unfold saturating_product_msvc.
  destruct (umul128 l r) as [high low] eqn:E. destruct (umul128_spec l r high low Hl Hr E) as (Hp & Hh & Hw). rewrite Hp.
  unfold sat, is_u64, U64_MAX in *. destruct (Z.ltb_spec 0 high); lia.
Qed.

Lemma q32_product_branches c u :
  is_u64 c -> is_u64 u -> q32_product_ns_msvc c u = q32_product_ns c u.
Proof.
  intros Hc Hu. rewrite q32_product_sat by done. unfold q32_product_ns_msvc.
  destruct ((c =? 0) || (u =? 0)) eqn:E0.
  { assert (c * u = 0) as -> by (apply orb_true_iff in E0 as [?%Z.eqb_eq| ?%Z.eqb_eq]; subst; lia). reflexivity. }
  destruct (umul128 c u) as [high low] eqn:E. destruct (umul128_spec c u high low Hc Hu E) as (Hp & Hh & Hw). rewrite Hp.
  unfold ceil_q32. set (x := high * 18446744073709551616 + low + 4294967295).
  assert (Hx : x = high * 18446744073709551616 + low + 4294967295) by done. clearbody x. unfold is_u64, U64_MAX in *.
  assert (Hbig : 340282366920938463463374607431768211456 / 4294967296 <= x / 4294967296 -> U64_MAX = sat (x / 4294967296)).
  { intros ?. unfold sat, U64_MAX. rewrite Z.min_l; [done|]. etransitivity; [|eassumption]. by vm_compute. }
  destruct (Z.leb_spec 4294967296 high).
  { unfold sat, U64_MAX. rewrite Z.min_l; [done|]. apply Z.div_le_lower_bound; lia. }
  unfold addcarry_u64. rewrite Z.add_0_l. set (s := low + (4294967296 - 1)).
  assert (Hs : exists k, 0 <= k <= 1 /\ (if U64_MAX <? s then 1 else 0) = k /\ wrap64 s = s - k * 18446744073709551616 /\
                        0 <= s - k * 18446744073709551616 < 18446744073709551616).
  { unfold wrap64, U64_MAX. destruct (Z.ltb_spec 18446744073709551615 s).
    - exists 1. split; [lia|]. split; [done|]. split; [|unfold s in *; lia].
      symmetry. apply (Z.mod_unique _ _ 1); unfold s in *; lia.
    - exists 0. split; [lia|]. split; [done|]. split; [|unfold s in *; lia]. rewrite Z.mod_small; unfold s in *; lia. }
  destruct Hs as (k & Hk & -> & -> & Hr). set (low' := s - k * 18446744073709551616) in *.
  rewrite Z.add_0_r, (wrap64_small (k + high)) by (unfold U64_MAX; lia).
  assert (Hx' : x = (k + high) * 18446744073709551616 + low') by (unfold low', s; lia).
  assert (Hq : x / 4294967296 = (k + high) * 4294967296 + low' / 4294967296).
  { rewrite Hx'. replace ((k + high) * 18446744073709551616) with ((k + high) * 4294967296 * 4294967296) by lia. by rewrite Z.div_add_l by lia. }
  assert (Hlow : 0 <= low' / 4294967296 < 4294967296) by (split; [apply Z.div_pos; lia|apply Z.div_lt_upper_bound; lia]).
  rewrite Hq. destruct (Z.leb_spec 4294967296 (k + high)).
  { unfold sat, U64_MAX. lia. }
  rewrite Z.shiftr_div_pow2, Z.shiftl_mul_pow2 by lia. change (2 ^ 32) with 4294967296.
  rewrite wrap64_small by (unfold U64_MAX; lia).
  change 4294967296 with (2 ^ 32) at 1. rewrite lor_field by (change (2 ^ 32) with 4294967296; lia). change (2 ^ 32) with 4294967296.
  unfold sat, U64_MAX. lia.
Qed.

(** ** Attention pairs *)
Definition exact_pairs (prefix suffix : Z) : Z := prefix * suffix + suffix * (suffix + 1) / 2.

Lemma even_product s : 2 * (s * (s + 1) / 2) = s * (s + 1).
Proof.
  assert (E : exists c, s * (s + 1) = c * 2).
  { destruct (Z.Even_or_Odd s) as [[k ->]|[k ->]]; [exists (k * (2 * k + 1))|exists ((2 * k + 1) * (k + 1))]; lia. }
  destruct E as [c ->]. rewrite Z.div_mul; lia.
Qed.

Lemma attention_pairs_exact p s : is_u64 p -> is_u64 s -> attention_pairs p s = sat (exact_pairs p s).
Proof.
  intros Hp Hs. pose proof (u64_product p s Hp Hs) as Hl. unfold attention_pairs, exact_pairs.
  assert (Ht : 0 <= s * (s + 1) < 340282366920938463463374607431768211456) by (unfold is_u64, U64_MAX in *; nia).
  rewrite (wrap128_small (s + 1)) by (unfold is_u64, U64_MAX in *; lia). rewrite (wrap128_small (p * s)), (wrap128_small (s * (s + 1))) by lia.
  change (wrap128 (-1)) with 340282366920938463463374607431768211455. set (t := s * (s + 1) / 2).
  assert (0 <= t < 170141183460469231731687303715884105728) by (split; [apply Z.div_pos; lia|apply Z.div_lt_upper_bound; lia]).
  unfold sat, U64_MAX. destruct (Z.ltb_spec (340282366920938463463374607431768211455 - p * s) t).
  { change (18446744073709551615 <? 340282366920938463463374607431768211455) with true. cbv iota. lia. }
  rewrite wrap128_small by lia. destruct (Z.ltb_spec 18446744073709551615 (p * s + t)); lia.
Qed.

(** Rebuilding a suffix in two parts touches the same attention pairs as in one. *)
Lemma exact_pairs_split p a b : exact_pairs p (a + b) = exact_pairs p a + exact_pairs (p + a) b.
Proof.
  unfold exact_pairs. pose proof (even_product a). pose proof (even_product b).
  pose proof (even_product (a + b)). lia.
Qed.

Lemma attention_branches p s :
  is_u64 p -> 0 <= s < U64_MAX -> attention_pairs_msvc p s = attention_pairs p s.
Proof.
  intros Hp Hs. assert (Hs64 : is_u64 s) by (unfold is_u64; lia). rewrite attention_pairs_exact by done.
  unfold attention_pairs_msvc, exact_pairs. rewrite (wrap64_small (s + 1)) by lia.
  destruct (umul128 p s) as [lh lin] eqn:El. destruct (umul128_spec p s lh lin Hp Hs64 El) as (Hl & Hlh & Hlin).
  destruct (umul128 s (s + 1)) as [th tl] eqn:Et. destruct (umul128_spec s (s + 1) th tl Hs64 ltac:(unfold is_u64; lia) Et) as (Ht & Hth & Htl).
  rewrite Hl, Ht. rewrite !Z.shiftr_div_pow2, Z.shiftl_mul_pow2 by lia. change (2 ^ 1) with 2. change (2 ^ 63) with 9223372036854775808.
  assert (Hhalf : (th * 18446744073709551616 + tl) / 2 = th * 9223372036854775808 + tl / 2).
  { replace (th * 18446744073709551616) with (th * 9223372036854775808 * 2) by lia. apply Z.div_add_l. lia. }
  rewrite Hhalf. unfold is_u64, U64_MAX in *.
  assert (Hq : 0 <= tl / 2 < 9223372036854775808) by (split; [apply Z.div_pos; lia|apply Z.div_lt_upper_bound; lia]).
  assert (Hd : 2 * (th / 2) <= th < 2 * (th / 2) + 2) by (pose proof (Z.div_mod th 2 ltac:(lia)); pose proof (Z.mod_pos_bound th 2 ltac:(lia)); lia).
  destruct (Z.ltb_spec 0 lh); cbn [orb]; [unfold sat, U64_MAX; lia|]. destruct (Z.ltb_spec 0 (th / 2)); [unfold sat, U64_MAX; lia|].
  rewrite (wrap64_small (th * _)) by (unfold U64_MAX; lia).
  change 9223372036854775808 with (2 ^ 63) at 1. change 9223372036854775808 with (2 ^ 63) at 1. rewrite lor_field by (change (2 ^ 63) with 9223372036854775808; lia).
  change (2 ^ 63) with 9223372036854775808. set (tri := th * 9223372036854775808 + tl / 2).
  assert (lh = 0) as -> by lia. unfold sat, U64_MAX. destruct (Z.ltb_spec (18446744073709551615 - tri) lin); [unfold tri in *; lia|].
  rewrite wrap64_small by (unfold U64_MAX, tri in *; lia). unfold tri in *. lia.
Qed.

(** The arithmetic of both builds, with and without 128-bit integers, gives the same numbers for all
    64-bit inputs: saturated products, fixed-point products rounded up, and, for suffixes below the
    largest 64-bit value, the prefill features. *)
Theorem arithmetic_branches_agree a b suffix items patches chunk :
  is_u64 a -> is_u64 b -> 0 <= suffix < U64_MAX ->
  saturating_product_msvc a b = saturating_product a b /\
  q32_product_ns_msvc a b = q32_product_ns a b /\
  make_prefill_work_msvc a suffix items patches chunk = make_prefill_work a suffix items patches chunk.
Proof.
  intros Ha Hb Hs. split; [by apply saturating_product_branches|]. split; [by apply q32_product_branches|].
  unfold make_prefill_work_msvc, make_prefill_work. by rewrite attention_branches.
Qed.

Lemma arithmetic_branches_agree_witness :
  saturating_product_msvc 18446744073709551615 2 = saturating_product 18446744073709551615 2 /\
  q32_product_ns_msvc 18446744073709551615 2 = q32_product_ns 18446744073709551615 2 /\
  make_prefill_work_msvc 18446744073709551615 5000000000 1 2 3 = make_prefill_work 18446744073709551615 5000000000 1 2 3.
Proof. apply (arithmetic_branches_agree 18446744073709551615 2 5000000000 1 2 3); done. Defined.

(** At the largest suffix the intrinsics' branch computes [suffix + 1] in 64 bits and wraps. *)
Theorem largest_suffix_wraps_in_msvc :
  pw_attention_pairs (make_prefill_work_msvc 0 U64_MAX 0 0 1) = 0 /\
  pw_attention_pairs (make_prefill_work 0 U64_MAX 0 0 1) = U64_MAX.
Proof. by vm_compute. Qed.

(** ** Resolution of the presets *)
Definition prefer {A} (first second : option A) (default : A) : A :=
  match first, second with Some a, _ => a | None, Some a => a | None, None => default end.

(** What a preset table has for an identity. *)
Definition table_transfer (identity : ContextCostIdentity) (presets : list ContextCostMachinePreset) : option (list ContextTransferCost) :=
  find_machine presets (ci_hardware_class identity) ≫= mp_transfer.
Definition table_prefill (identity : ContextCostIdentity) (presets : list ContextCostMachinePreset) : option ContextPrefillCost :=
  machine ← find_machine presets (ci_hardware_class identity);
  pp_cost <$> find_prefill machine (ci_model_id identity) (ci_weights_id identity).

Lemma override_costs_spec presets source r :
  let t := table_transfer (rc_identity r) presets in let f := table_prefill (rc_identity r) presets in
  override_costs presets source r =
    mkResolved (mkCostModel (default (cm_transfer (rc_model r)) t) (default (cm_prefill (rc_model r)) f))
      (if t then source else rc_transfer_source r) (if f then source else rc_prefill_source r) (rc_identity r).
Proof.
  destruct r as [[t f] ts fs id]. unfold override_costs, table_transfer, table_prefill. cbn.
  destruct (find_machine presets (ci_hardware_class id)) as [machine|]; [|done]. cbn.
  destruct (mp_transfer machine), (find_prefill machine _ _); done.
Qed.

(** For an identity without empty parts and without an external file, resolution always returns: the
    compiled table is valid. With one it returns whenever the file parses. Transfer and prefill
    coefficients are chosen independently, each from the external table if it has them, else from the
    compiled table, else the generic default. *)
Theorem costs_resolve_by_precedence identity external :
  ci_hardware_class identity <> ""%string -> ci_model_id identity <> ""%string -> ci_weights_id identity <> ""%string ->
  resolve_context_machine_cost identity (Ok <$> external) =
    let tables := default [] external in
    let et := table_transfer identity tables in let ef := table_prefill identity tables in
    let ct := table_transfer identity compiled_context_cost_defaults in
    let cf := table_prefill identity compiled_context_cost_defaults in
    Ok (mkResolved (mkCostModel (prefer et ct generic_context_transfer_cost) (prefer ef cf generic_context_prefill_cost))
          (if et then External else if ct then CompiledDefault else GenericDefault)
          (if ef then External else if cf then CompiledDefault else GenericDefault) identity).
Proof.
  intros H1 H2 H3. unfold resolve_context_machine_cost. unfold str_empty.
  rewrite !bool_decide_eq_false_2 by done. cbn [orb throw_if mbind result_bind].
  change (validate_presets compiled_context_cost_defaults) with (@Ok unit tt). cbn [mbind result_bind].
  rewrite override_costs_spec. cbn [rc_identity rc_model rc_transfer_source rc_prefill_source cm_transfer cm_prefill generic_context_machine_cost_model].
  destruct external as [presets|]; cbn [fmap option_fmap option_map mbind result_bind default].
  - change (id presets) with presets. rewrite override_costs_spec.
    cbn [rc_identity rc_model rc_transfer_source rc_prefill_source cm_transfer cm_prefill].
    destruct (table_transfer identity presets), (table_prefill identity presets),
      (table_transfer identity compiled_context_cost_defaults), (table_prefill identity compiled_context_cost_defaults); done.
  - change (table_transfer identity (default [] None)) with (@None (list ContextTransferCost)).
    change (table_prefill identity (default [] None)) with (@None ContextPrefillCost).
    by destruct (table_transfer identity compiled_context_cost_defaults), (table_prefill identity compiled_context_cost_defaults).
Qed.

(** ** Hardware classes *)

(** The characters of a slug: lower-case letters, digits and dashes. *)
Definition slug_char (c : ascii) : bool :=
  (is_alnum c && bool_decide (to_lower c = c)) || bool_decide (c = dash).

Lemma to_lower_slug c : is_alnum c = true -> slug_char (to_lower c) = true /\ to_lower c <> dash.
Proof. destruct c as [[] [] [] [] [] [] [] []]; intros H; try discriminate H; by vm_compute. Qed.

(** No two dashes meet and, read from the back, a slug never starts with two. *)
Fixpoint single_dashes (slug : list ascii) : bool :=
  match slug with
  | a :: (b :: _) as rest => negb (bool_decide (a = dash) && bool_decide (b = dash)) && single_dashes rest
  | _ => true
  end.

Lemma slug_step_ok slug c :
  forallb slug_char slug = true -> single_dashes slug = true ->
  forallb slug_char (slug_step slug c) = true /\ single_dashes (slug_step slug c) = true.
Proof.
  intros Hc Hs. unfold slug_step. destruct (is_alnum c) eqn:Ha.
  - destruct (to_lower_slug c Ha) as [Hl Hd]. cbn. rewrite Hl, Hc. split; [done|]. destruct slug as [|b slug]; [done|].
    by rewrite bool_decide_eq_false_2 by done.
  - destruct slug as [|b slug]; [done|]. destruct (decide (b = dash)) as [->|Hb]; [by rewrite bool_decide_eq_true_2|].
    rewrite bool_decide_eq_false_2 by done. split; [change (slug_char dash && forallb slug_char (b :: slug) = true); by rewrite Hc|].
    change (negb (bool_decide (dash = dash) && bool_decide (b = dash)) && single_dashes (b :: slug) = true).
    by rewrite Hs, (bool_decide_eq_false_2 (b = dash)), andb_false_r by done.
Qed.

Lemma slug_fold_ok name slug :
  forallb slug_char slug = true -> single_dashes slug = true ->
  forallb slug_char (fold_left slug_step name slug) = true /\ single_dashes (fold_left slug_step name slug) = true.
Proof.
  revert slug. induction name as [|c name IH]; intros slug Hc Hs; [done|]. cbn. destruct (slug_step_ok slug c Hc Hs). by apply IH.
Qed.

Lemma trim_dashes_sub slug : forallb slug_char slug = true -> forallb slug_char (trim_dashes slug) = true.
Proof. induction slug as [|b slug IH]; [done|]. cbn. intros [Hb Hs]%andb_true_iff. case_bool_decide; [by apply IH|]. cbn. by rewrite Hb. Qed.

(** Whatever the driver calls the board, its slug consists of lower-case letters, digits and dashes
    and starts with "nvidia". *)
Theorem gpu_slug_canonical gpu_name :
  forallb slug_char (gpu_slug gpu_name) = true /\ take 6 (gpu_slug gpu_name) = String.list_ascii_of_string "nvidia".
Proof.
  unfold gpu_slug. destruct (slug_fold_ok gpu_name [] eq_refl eq_refl) as [Hc _]. apply trim_dashes_sub in Hc.
  set (s := rev _). assert (Hs : forallb slug_char s = true).
  { unfold s. apply forallb_forall. intros x Hx%in_rev. rewrite forallb_forall in Hc. by apply Hc. }
  clearbody s. set (t := match s with [] => _ | _ => s end). assert (Ht : forallb slug_char t = true) by (unfold t; by destruct s).
  clearbody t. clear Hs Hc. destruct (decide (t = String.list_ascii_of_string "nvidia")) as [->|Hn]; [by vm_compute|].
  rewrite (bool_decide_eq_false_2 (t = _)) by done. cbn [negb andb].
  destruct (decide (take 7 t = String.list_ascii_of_string "nvidia" ++ [dash])) as [E|Hne].
  - rewrite bool_decide_eq_true_2 by done. cbn [negb]. split; [done|].
    replace (take 6 t) with (take 6 (take 7 t)) by (by rewrite take_take). by rewrite E.
  - rewrite bool_decide_eq_false_2 by done. cbn [negb]. split; [|done]. rewrite forallb_app. cbn [forallb]. rewrite Ht. by vm_compute.
Qed.
