(* ===== verification/PortfolioValue.v ===== *)
(** The value of a portfolio of inactive checkpoints
    (src/src/runtime/engine/context_portfolio_value.h): what the checkpoints save
    before and after a planned change, folded per demand bit and per owner into
    public values and a private loss. The theorem says what the fold computes:
    exact sums of maxima, cut at the largest 64-bit value, with the flag set
    exactly when one of them was cut. *)

From S2P Require Import Prelude HostKvArena ContextCost.

Record ContextPortfolioOwnerPolicy : Type := mkOwnerPolicy {
  op_owner : Z;
  op_private_retention_weight : Z;
  op_explicit_shared_credit : bool;
}.

Record ContextPortfolioCheckpointValue : Type := mkCheckpointValue {
  cv_owner : Z;
  cv_demand_mask : Z;
  cv_rebuild_ns : Z;
  cv_baseline_recovery_ns : Z;
  cv_target_recovery_ns : Z;
}.

Record ContextPortfolioValueResult : Type := mkPortfolio {
  pv_baseline_public_value : Z;
  pv_target_public_value : Z;
  pv_private_transition_loss : Z;
  pv_saturated : bool;
}.

(** * The fold *)
Record OwnerValue : Type := mkOwnerValue {
  ov_owner : Z;
  ov_private_retention_weight : Z;
  ov_explicit_shared_credit : bool;
  ov_baseline_best : Z;
  ov_target_best : Z;
  ov_private_transition_loss : Z;
}.

(** [add] and [add_weighted]: the new value and the flag. *)
Definition portfolio_add (value increment : Z) (saturated : bool) : Z * bool :=
  if U64_MAX - value <? increment then (U64_MAX, true) else (wrap64 (value + increment), saturated).

Definition portfolio_add_weighted (value increment weight : Z) (saturated : bool) : Z * bool :=
  if negb (weight =? 0) && (U64_MAX / weight <? increment)
  then (fst (portfolio_add value U64_MAX saturated), true)
  else portfolio_add value (wrap64 (increment * weight)) saturated.

(** The scratch entry of an owner; a duplicate is an error. *)
Definition push_owner (scratch : list OwnerValue) (policy : ContextPortfolioOwnerPolicy) : result (list OwnerValue) :=
  _ ← throw_if (existsb (fun item => ov_owner item =? op_owner policy) scratch) LogicError;
  Ok (scratch ++ [mkOwnerValue (op_owner policy) (op_private_retention_weight policy) (op_explicit_shared_credit policy) 0 0 0]).

(** [rebuild > recovery ? rebuild - recovery : 0] *)
Definition saving (rebuild recovery : Z) : Z := if recovery <? rebuild then rebuild - recovery else 0.

Definition update_owner (baseline_saving target_saving : Z) (o : OwnerValue) : OwnerValue :=
  mkOwnerValue (ov_owner o) (ov_private_retention_weight o) (ov_explicit_shared_credit o)
    (Z.max (ov_baseline_best o) baseline_saving) (Z.max (ov_target_best o) target_saving)
    (Z.max (ov_private_transition_loss o)
       (if target_saving <? baseline_saving then baseline_saving - target_saving else 0)).

Definition has_bit (mask : Z) (bit : nat) : bool := negb (Z.land mask (Z.shiftl 1 (Z.of_nat bit)) =? 0).

(** The loop over the 32 demand bits. *)
Definition raise_demand (mask value : Z) (demand : list Z) : list Z :=
  imap (fun bit d => if has_bit mask bit then Z.max d value else d) demand.

Definition fold_state : Type := list OwnerValue * list Z * list Z.

Definition fold_checkpoint (s : fold_state) (checkpoint : ContextPortfolioCheckpointValue) : result fold_state :=
  let '(scratch, baseline_demand, target_demand) := s in
  match find_index (fun item => ov_owner item =? cv_owner checkpoint) scratch with
  | None => Err LogicError
  | Some (i, owner) =>
      let baseline_saving := saving (cv_rebuild_ns checkpoint) (cv_baseline_recovery_ns checkpoint) in
      let target_saving := saving (cv_rebuild_ns checkpoint) (cv_target_recovery_ns checkpoint) in
      Ok (<[i := update_owner baseline_saving target_saving owner]> scratch,
          raise_demand (cv_demand_mask checkpoint) baseline_saving baseline_demand,
          raise_demand (cv_demand_mask checkpoint) target_saving target_demand)
  end.

Definition add_demand (r : ContextPortfolioValueResult) (demand : Z * Z) : ContextPortfolioValueResult :=
  let '(b, f) := portfolio_add (pv_baseline_public_value r) (fst demand) (pv_saturated r) in
  let '(t, f) := portfolio_add (pv_target_public_value r) (snd demand) f in
  mkPortfolio b t (pv_private_transition_loss r) f.

Definition add_owner (r : ContextPortfolioValueResult) (owner : OwnerValue) : ContextPortfolioValueResult :=
  let '(l, f) := if negb (ov_private_retention_weight owner =? 0)
                 then portfolio_add_weighted (pv_private_transition_loss r) (ov_private_transition_loss owner)
                        (ov_private_retention_weight owner) (pv_saturated r)
                 else (pv_private_transition_loss r, pv_saturated r) in
  let r := mkPortfolio (pv_baseline_public_value r) (pv_target_public_value r) l f in
  if ov_explicit_shared_credit owner then add_demand r (ov_baseline_best owner, ov_target_best owner) else r.

Definition portfolio_fold (owners : list ContextPortfolioOwnerPolicy) (checkpoints : list ContextPortfolioCheckpointValue)
  : result ContextPortfolioValueResult :=
  scratch ← rfor push_owner [] owners;
  '(scratch, baseline_demand, target_demand) ← rfor fold_checkpoint (scratch, replicate 32 0, replicate 32 0) checkpoints;
  Ok (fold_left add_owner scratch
        (fold_left add_demand (combine baseline_demand target_demand) (mkPortfolio 0 0 0 false))).

(** * What it means *)

(** The largest of some non-negative values, 0 without any. *)
Definition zmax (l : list Z) : Z := foldr Z.max 0 l.

Definition baseline_saving (c : ContextPortfolioCheckpointValue) : Z := saving (cv_rebuild_ns c) (cv_baseline_recovery_ns c).
Definition target_saving (c : ContextPortfolioCheckpointValue) : Z := saving (cv_rebuild_ns c) (cv_target_recovery_ns c).
Definition checkpoint_loss (c : ContextPortfolioCheckpointValue) : Z := saving (baseline_saving c) (target_saving c).

Section Meaning.
Context (value : ContextPortfolioCheckpointValue -> Z) (checkpoints : list ContextPortfolioCheckpointValue).
Definition demand_value (bit : nat) : Z := zmax (map value (filter (fun c => has_bit (cv_demand_mask c) bit = true) checkpoints)).
Definition owner_value (owner : Z) : Z := zmax (map value (filter (fun c => cv_owner c = owner) checkpoints)).
End Meaning.

(** Each demand is served by its best checkpoint; owners with explicit credit count once more with
    their best checkpoint. *)
Definition public_value (value : ContextPortfolioCheckpointValue -> Z) (owners : list ContextPortfolioOwnerPolicy)
    (checkpoints : list ContextPortfolioCheckpointValue) : Z :=
  zsum (map (demand_value value checkpoints) (seq 0 32)) +
  zsum (map (fun o => if op_explicit_shared_credit o then owner_value value checkpoints (op_owner o) else 0) owners).

(** Each owner loses its weight times the worst loss of one of its checkpoints. *)
Definition private_loss (owners : list ContextPortfolioOwnerPolicy) (checkpoints : list ContextPortfolioCheckpointValue) : Z :=
  zsum (map (fun o => op_private_retention_weight o * owner_value checkpoint_loss checkpoints (op_owner o)) owners).

Definition portfolio_of (owners : list ContextPortfolioOwnerPolicy) (checkpoints : list ContextPortfolioCheckpointValue)
  : ContextPortfolioValueResult :=
  let b := public_value baseline_saving owners checkpoints in
  let t := public_value target_saving owners checkpoints in
  let l := private_loss owners checkpoints in
  mkPortfolio (sat b) (sat t) (sat l) ((U64_MAX <? b) || (U64_MAX <? t) || (U64_MAX <? l)).

(** * The owners *)
Definition fresh_owner (o : ContextPortfolioOwnerPolicy) : OwnerValue :=
  mkOwnerValue (op_owner o) (op_private_retention_weight o) (op_explicit_shared_credit o) 0 0 0.

Lemma push_owners_spec owners acc :
  rfor push_owner acc owners =
    if decide (NoDup (map op_owner owners) /\ Forall (fun o => op_owner o ∉ map ov_owner acc) owners)
    then Ok (acc ++ map fresh_owner owners) else Err LogicError.
Proof.
  revert acc. induction owners as [|o owners IH]; intros acc; cbn [rfor].
  { rewrite decide_True; [by rewrite app_nil_r|]. split; constructor. }
  unfold push_owner at 2, throw_if. destruct (existsb _ acc) eqn:E; cbn [mbind result_bind].
  - rewrite decide_False; [done|]. intros [_ [H _]%Forall_cons_1]. apply existsb_exists in E as (x & Hx & Heq%Z.eqb_eq).
    apply H. rewrite <- Heq. apply list_elem_of_fmap_2. by apply list_elem_of_In.
  - rewrite IH. assert (Hnot : op_owner o ∉ map ov_owner acc).
    { intros (x & Hx & Hin)%list_elem_of_fmap. rewrite <- not_true_iff_false, existsb_exists in E. apply E.
      exists x. split; [by apply list_elem_of_In|by apply Z.eqb_eq]. }
    rewrite <- app_assoc. fold (fresh_owner o).
    assert (Hiff : (NoDup (map op_owner owners) /\ Forall (fun o0 => op_owner o0 ∉ map ov_owner (acc ++ [fresh_owner o])) owners) <->
      (NoDup (map op_owner (o :: owners)) /\ Forall (fun o0 => op_owner o0 ∉ map ov_owner acc) (o :: owners))).
    { cbn [map]. rewrite NoDup_cons, Forall_cons, !Forall_forall, map_app. split.
      - intros [Hn Hf]. split; [split; [|done]|split; [done|]].
        + intros (x & Hx & Hin)%list_elem_of_fmap. apply (Hf x Hin), elem_of_app. right. rewrite <- Hx. by left.
        + intros x Hin Hx. apply (Hf x Hin), elem_of_app. by left.
      - intros [[Ho Hn] [_ Hf]]. split; [done|]. intros x Hin [Hx|Hx%list_elem_of_singleton]%elem_of_app; [by apply (Hf x)|].
        apply Ho. cbn in Hx. rewrite <- Hx. by apply list_elem_of_fmap_2. }
    case_decide as H1; case_decide as H2; done || tauto.
Qed.

(** * The checkpoints *)
Lemma zmax_nonneg l : 0 <= zmax l.
Proof. unfold zmax. induction l; cbn; lia. Qed.

Lemma zmax_snoc l x : 0 <= x -> zmax (l ++ [x]) = Z.max (zmax l) x.
Proof. intros Hx. unfold zmax. induction l as [|y l IH]; cbn; [lia|]. rewrite IH. lia. Qed.

Lemma saving_nonneg r c : 0 <= saving r c.
Proof. unfold saving. destruct (Z.ltb_spec c r); lia. Qed.

Section Loop.
Context (value : ContextPortfolioCheckpointValue -> Z).
Hypothesis Hvalue : forall c, 0 <= value c.

Lemma demand_value_snoc cs c bit :
  demand_value value (cs ++ [c]) bit =
    if has_bit (cv_demand_mask c) bit then Z.max (demand_value value cs bit) (value c) else demand_value value cs bit.
Proof using Hvalue.
  unfold demand_value. rewrite filter_app, map_app, filter_cons, filter_nil.
  destruct (has_bit (cv_demand_mask c) bit); [rewrite decide_True by done; by apply zmax_snoc|].
  rewrite decide_False by done. by rewrite app_nil_r.
Qed.

Lemma owner_value_snoc cs c o :
  owner_value value (cs ++ [c]) o = if cv_owner c =? o then Z.max (owner_value value cs o) (value c) else owner_value value cs o.
Proof using Hvalue.
  unfold owner_value. rewrite filter_app, map_app, filter_cons, filter_nil.
  destruct (Z.eqb_spec (cv_owner c) o); [rewrite decide_True by done; by apply zmax_snoc|].
  rewrite decide_False by done. by rewrite app_nil_r.
Qed.

Lemma raise_demand_snoc cs c :
  raise_demand (cv_demand_mask c) (value c) (map (demand_value value cs) (seq 0 32)) = map (demand_value value (cs ++ [c])) (seq 0 32).
Proof using Hvalue.
  apply list_eq. intros i. unfold raise_demand. rewrite list_lookup_imap, !lookup_map.
  destruct (seq 0 32 !! i) as [bit|] eqn:E; [|done]. apply lookup_seq in E as [-> _]. cbn. by rewrite demand_value_snoc.
Qed.
End Loop.

Lemma baseline_saving_nonneg c : 0 <= baseline_saving c.
Proof. apply saving_nonneg. Qed.
Lemma target_saving_nonneg c : 0 <= target_saving c.
Proof. apply saving_nonneg. Qed.
Lemma checkpoint_loss_nonneg c : 0 <= checkpoint_loss c.
Proof. apply saving_nonneg. Qed.

Definition owner_after (cs : list ContextPortfolioCheckpointValue) (o : ContextPortfolioOwnerPolicy) : OwnerValue :=
  mkOwnerValue (op_owner o) (op_private_retention_weight o) (op_explicit_shared_credit o)
    (owner_value baseline_saving cs (op_owner o)) (owner_value target_saving cs (op_owner o))
    (owner_value checkpoint_loss cs (op_owner o)).

Definition state_after (owners : list ContextPortfolioOwnerPolicy) (cs : list ContextPortfolioCheckpointValue) : fold_state :=
  (map (owner_after cs) owners, map (demand_value baseline_saving cs) (seq 0 32), map (demand_value target_saving cs) (seq 0 32)).

Lemma owner_after_snoc cs c o :
  owner_after (cs ++ [c]) o = if cv_owner c =? op_owner o then update_owner (baseline_saving c) (target_saving c) (owner_after cs o) else owner_after cs o.
Proof.
  unfold owner_after, update_owner. cbn.
  rewrite !owner_value_snoc by (apply baseline_saving_nonneg || apply target_saving_nonneg || apply checkpoint_loss_nonneg).
  destruct (_ =? _); done.
Qed.

Lemma fold_checkpoint_after owners cs c :
  NoDup (map op_owner owners) ->
  fold_checkpoint (state_after owners cs) c =
    if decide (cv_owner c ∈ map op_owner owners) then Ok (state_after owners (cs ++ [c])) else Err LogicError.
Proof.
  intros Hnd. unfold state_after, fold_checkpoint. destruct (find_index _ _) as [[i o]|] eqn:E.
  - apply find_index_Some in E as [Hi Ho%Z.eqb_eq]. rewrite lookup_map in Hi.
    destruct (owners !! i) as [p|] eqn:Hp; [|done]. injection Hi as <-. cbn in Ho.
    rewrite decide_True by (rewrite <- Ho; apply list_elem_of_fmap_2; by eapply list_elem_of_lookup_2).
    fold (baseline_saving c) (target_saving c).
    rewrite (raise_demand_snoc baseline_saving baseline_saving_nonneg), (raise_demand_snoc target_saving target_saving_nonneg).
    f_equal. f_equal. f_equal. apply list_eq. intros j. rewrite lookup_map.
    destruct (decide (j = i)) as [->|Hne].
    + rewrite list_lookup_insert_eq by (rewrite length_map; by eapply lookup_lt_Some). rewrite Hp. cbn.
      by rewrite owner_after_snoc, Ho, Z.eqb_refl.
    + rewrite list_lookup_insert_ne, lookup_map by done. destruct (owners !! j) as [q|] eqn:Hq; [|done]. cbn.
      rewrite owner_after_snoc, (proj2 (Z.eqb_neq _ _)); [done|]. intros Heq. apply Hne.
      apply (NoDup_lookup _ _ _ (op_owner q) Hnd); rewrite lookup_map; [by rewrite Hq|rewrite Hp; cbn; congruence].
  - rewrite decide_False; [done|]. intros (p & Hp & Hin)%list_elem_of_fmap. rewrite find_index_None in E.
    rewrite Forall_forall in E. specialize (E (owner_after cs p) ltac:(by apply list_elem_of_fmap_2)). cbn in E.
    rewrite Hp, Z.eqb_refl in E. done.
Qed.

Lemma fold_checkpoints_spec owners cs done_ :
  NoDup (map op_owner owners) ->
  rfor fold_checkpoint (state_after owners done_) cs =
    if decide (Forall (fun c => cv_owner c ∈ map op_owner owners) cs) then Ok (state_after owners (done_ ++ cs)) else Err LogicError.
Proof.
  intros Hnd. revert done_. induction cs as [|c cs IH]; intros done_; cbn [rfor].
  { rewrite decide_True by constructor. by rewrite app_nil_r. }
  rewrite fold_checkpoint_after by done. destruct (decide (cv_owner c ∈ map op_owner owners)) as [Hc|Hc]; cbn [mbind result_bind].
  - rewrite IH, <- app_assoc. cbn [app]. case_decide as H1; case_decide as H2; try done; exfalso; [apply H2; by constructor|].
    apply Forall_cons_1 in H2 as [_ H2]. done.
  - rewrite decide_False; [done|]. by intros [? _]%Forall_cons_1.
Qed.

Lemma state_after_nil owners : state_after owners [] = (map fresh_owner owners, replicate 32 0, replicate 32 0).
Proof. done. Qed.

(** * The sums *)

(** An accumulated result stands for exact sums. *)
Definition result_of (b t l : Z) : ContextPortfolioValueResult :=
  mkPortfolio (sat b) (sat t) (sat l) ((U64_MAX <? b) || (U64_MAX <? t) || (U64_MAX <? l)).

Lemma portfolio_add_sat x inc f :
  0 <= x -> 0 <= inc -> portfolio_add (sat x) inc ((U64_MAX <? x) || f) = (sat (x + inc), (U64_MAX <? x + inc) || f).
Proof.
  intros Hx Hi. unfold portfolio_add, sat, U64_MAX.
  destruct (Z.ltb_spec (18446744073709551615 - Z.min 18446744073709551615 x) inc).
  - rewrite (proj2 (Z.ltb_lt 18446744073709551615 (x + inc))) by lia. cbn. f_equal. lia.
  - destruct (Z.ltb_spec 18446744073709551615 x).
    + assert (inc = 0) as -> by lia. rewrite !Z.add_0_r, wrap64_small by (unfold U64_MAX; lia).
      by rewrite (proj2 (Z.ltb_lt 18446744073709551615 x)) by lia.
    + rewrite (proj2 (Z.ltb_ge 18446744073709551615 (x + inc))), wrap64_small by (unfold U64_MAX; lia). f_equal. lia.
Qed.

Lemma add_demand_of b t l db dt :
  0 <= b -> 0 <= t -> 0 <= db -> 0 <= dt -> add_demand (result_of b t l) (db, dt) = result_of (b + db) (t + dt) l.
Proof.
  intros. unfold add_demand, result_of. cbn [fst snd pv_baseline_public_value pv_target_public_value pv_private_transition_loss pv_saturated].
  rewrite <- orb_assoc, portfolio_add_sat by done.
  rewrite (orb_comm (U64_MAX <? b + db)), <- orb_assoc, portfolio_add_sat by done. f_equal. by destruct (_ <? _), (_ <? _), (_ <? _).
Qed.

Lemma portfolio_add_weighted_sat x inc weight f :
  0 <= x -> 0 <= inc -> 0 < weight ->
  portfolio_add_weighted (sat x) inc weight ((U64_MAX <? x) || f) = (sat (x + weight * inc), (U64_MAX <? x + weight * inc) || f).
Proof.
  intros Hx Hi Hw. unfold portfolio_add_weighted. rewrite (proj2 (Z.eqb_neq weight 0)) by lia. cbn [negb andb].
  destruct (Z.ltb_spec (U64_MAX / weight) inc) as [Hlt|Hge].
  - assert (Hbig : U64_MAX < weight * inc).
    { apply Z.lt_nge. intros Hle. assert (inc <= U64_MAX / weight); [|lia]. apply Z.div_le_lower_bound; lia. }
    rewrite portfolio_add_sat by (done || unfold U64_MAX; lia). cbn.
    rewrite (proj2 (Z.ltb_lt U64_MAX (x + weight * inc))) by lia. cbn. f_equal. unfold sat. lia.
  - assert (Hsmall : weight * inc <= U64_MAX) by (pose proof (Z.mul_div_le U64_MAX weight ltac:(lia)); nia).
    rewrite (Z.mul_comm inc), wrap64_small by nia. apply portfolio_add_sat; [done|nia].
Qed.

Lemma add_owner_of b t l (o : OwnerValue) :
  0 <= b -> 0 <= t -> 0 <= l -> 0 <= ov_private_retention_weight o ->
  0 <= ov_baseline_best o -> 0 <= ov_target_best o -> 0 <= ov_private_transition_loss o ->
  let credit x := if ov_explicit_shared_credit o then x else 0 in
  add_owner (result_of b t l) o =
    result_of (b + credit (ov_baseline_best o)) (t + credit (ov_target_best o))
      (l + ov_private_retention_weight o * ov_private_transition_loss o).
Proof.
  intros Hb Ht Hl Hw Ob Ot Ol credit. unfold add_owner.
  assert (E : (if negb (ov_private_retention_weight o =? 0)
               then portfolio_add_weighted (pv_private_transition_loss (result_of b t l)) (ov_private_transition_loss o)
                      (ov_private_retention_weight o) (pv_saturated (result_of b t l))
               else (pv_private_transition_loss (result_of b t l), pv_saturated (result_of b t l))) =
              (sat (l + ov_private_retention_weight o * ov_private_transition_loss o),
               pv_saturated (result_of b t (l + ov_private_retention_weight o * ov_private_transition_loss o)))).
  { destruct (Z.eqb_spec (ov_private_retention_weight o) 0) as [->|]; cbn [negb]; [by rewrite Z.mul_0_l, Z.add_0_r|].
    cbn [pv_private_transition_loss pv_saturated result_of]. rewrite (orb_comm _ (U64_MAX <? l)), portfolio_add_weighted_sat by lia.
    f_equal. apply orb_comm. }
  rewrite E. cbn [pv_baseline_public_value pv_target_public_value result_of pv_saturated].
  fold (result_of b t (l + ov_private_retention_weight o * ov_private_transition_loss o)). unfold credit.
  destruct (ov_explicit_shared_credit o); [by rewrite add_demand_of|by rewrite !Z.add_0_r].
Qed.

Lemma add_demands_of demands b t l :
  0 <= b -> 0 <= t -> Forall (fun d => 0 <= fst d /\ 0 <= snd d) demands ->
  fold_left add_demand demands (result_of b t l) = result_of (b + zsum (map fst demands)) (t + zsum (map snd demands)) l.
Proof.
  revert b t. induction demands as [|[db dt] demands IH]; intros b t Hb Ht Hd; cbn [fold_left map].
  { change (zsum []) with 0. by rewrite !Z.add_0_r. }
  apply Forall_cons_1 in Hd as [[Hdb Hdt] Hd]. cbn in Hdb, Hdt. rewrite add_demand_of, IH by (done || lia).
  rewrite !zsum_cons. cbn. f_equal; lia.
Qed.

Lemma owner_value_nonneg value cs o : 0 <= owner_value value cs o.
Proof. apply zmax_nonneg. Qed.

Definition credited (value : ContextPortfolioCheckpointValue -> Z) (cs : list ContextPortfolioCheckpointValue) (o : ContextPortfolioOwnerPolicy) : Z :=
  if op_explicit_shared_credit o then owner_value value cs (op_owner o) else 0.

Lemma add_owners_of owners cs b t l :
  0 <= b -> 0 <= t -> 0 <= l -> Forall (fun o => 0 <= op_private_retention_weight o) owners ->
  fold_left add_owner (map (owner_after cs) owners) (result_of b t l) =
    result_of (b + zsum (map (credited baseline_saving cs) owners)) (t + zsum (map (credited target_saving cs) owners))
      (l + private_loss owners cs).
Proof.
  unfold private_loss. revert b t l. induction owners as [|o owners IH]; intros b t l Hb Ht Hl Hw; cbn [fold_left map].
  { change (zsum []) with 0. by rewrite !Z.add_0_r. }
  apply Forall_cons_1 in Hw as [Hw Hws]. rewrite add_owner_of by (done || apply owner_value_nonneg).
  pose proof (owner_value_nonneg baseline_saving cs (op_owner o)). pose proof (owner_value_nonneg target_saving cs (op_owner o)).
  pose proof (owner_value_nonneg checkpoint_loss cs (op_owner o)).
  rewrite IH; [|cbn; try (destruct (op_explicit_shared_credit o); lia); nia..|done].
  rewrite !zsum_cons. unfold credited. cbn. f_equal; lia.
Qed.

Lemma map_fst_combine {A B} (l : list A) (k : list B) : length l = length k -> map fst (combine l k) = l /\ map snd (combine l k) = k.
Proof. revert k. induction l as [|x l IH]; intros [|y k] E; try done. cbn in *. destruct (IH k ltac:(lia)) as [-> ->]. done. Qed.

(** The policies and checkpoints a portfolio accepts. *)
Definition portfolio_well_formed (owners : list ContextPortfolioOwnerPolicy) (checkpoints : list ContextPortfolioCheckpointValue) : Prop :=
  NoDup (map op_owner owners) /\ Forall (fun c => cv_owner c ∈ map op_owner owners) checkpoints.
#[global] Instance portfolio_well_formed_dec owners cs : Decision (portfolio_well_formed owners cs).
Proof. unfold portfolio_well_formed. apply _. Defined.

(** The fold, with its checks and its cuts. *)
Lemma portfolio_fold_spec owners checkpoints :
  Forall (fun o => 0 <= op_private_retention_weight o) owners ->
  portfolio_fold owners checkpoints =
    if decide (portfolio_well_formed owners checkpoints) then Ok (portfolio_of owners checkpoints) else Err LogicError.
Proof.
  intros Hw. unfold portfolio_fold. rewrite push_owners_spec. cbn [app].
  destruct (decide (NoDup (map op_owner owners))) as [Hnd|Hnd].
  2:{ rewrite !decide_False; [done|..]; by intros [? _]. }
  rewrite (decide_True _ (Err LogicError)) by (split; [done|]; apply Forall_forall; intros o _ Ho; inversion Ho).
  cbn [mbind result_bind]. rewrite <- state_after_nil, fold_checkpoints_spec by done. cbn [app].
  destruct (decide (Forall (fun c => cv_owner c ∈ map op_owner owners) checkpoints)) as [Hc|Hc].
  2:{ rewrite decide_False; [done|]. by intros [_ ?]. }
  rewrite decide_True by done. cbn [mbind result_bind state_after]. f_equal.
  change (mkPortfolio 0 0 0 false) with (result_of 0 0 0).
  set (db := map (demand_value baseline_saving checkpoints) (seq 0 32)). set (dt := map (demand_value target_saving checkpoints) (seq 0 32)).
  destruct (map_fst_combine db dt eq_refl) as [Eb Et].
  assert (Hdb : Forall (fun x => 0 <= x) db) by (apply Forall_map, Forall_forall; intros ? _; apply zmax_nonneg).
  assert (Hdt : Forall (fun x => 0 <= x) dt) by (apply Forall_map, Forall_forall; intros ? _; apply zmax_nonneg).
  rewrite add_demands_of, Eb, Et, !Z.add_0_l; [|done..|].
  - rewrite add_owners_of by (done || by apply zsum_nonneg). unfold portfolio_of, public_value, result_of. by rewrite Z.add_0_l.
  - apply Forall_forall. intros [x y] Hin%list_elem_of_In. rewrite !Forall_forall in Hdb, Hdt. split.
    + apply Hdb, list_elem_of_In. by eapply in_combine_l.
    + apply Hdt, list_elem_of_In. by eapply in_combine_r.
Qed.

(** C12. The fold throws exactly when an owner is listed twice or a checkpoint belongs to nobody. Otherwise
    it returns the exact values: every demand bit counts the best saving of a checkpoint that serves
    it, owners with explicit credit count their best saving once more, every owner loses its weight
    times the worst loss of one of its own checkpoints; each sum is cut at the largest 64-bit value and
    the flag tells whether one was. *)
Theorem portfolio_fold_exact owners checkpoints :
  Forall (fun o => 0 <= op_private_retention_weight o) owners ->
  portfolio_fold owners checkpoints =
    if decide (portfolio_well_formed owners checkpoints) then Ok (portfolio_of owners checkpoints) else Err LogicError.
Proof. apply portfolio_fold_spec. Qed.

Definition witness_owners : list ContextPortfolioOwnerPolicy := [mkOwnerPolicy 0 3 false; mkOwnerPolicy 1 0 true].
Definition witness_checkpoints : list ContextPortfolioCheckpointValue :=
  [mkCheckpointValue 0 1 1000 100 1000; mkCheckpointValue 0 1 1000 100 100; mkCheckpointValue 1 3 500 0 200].

Lemma portfolio_fold_exact_witness :
  portfolio_fold witness_owners witness_checkpoints = Ok (mkPortfolio 1900 1500 2700 false) /\
  portfolio_fold (witness_owners ++ witness_owners) [] = Err LogicError.
Proof. rewrite !portfolio_fold_exact by (repeat constructor; done). split; reflexivity. Defined.

(** ** Monotonicity *)
Lemma zmax_elem l x : x ∈ l -> x <= zmax l.
Proof. unfold zmax. induction 1; cbn; lia. Qed.

Lemma zmax_mono {A} (f g : A -> Z) l : (forall x, x ∈ l -> f x <= g x) -> zmax (map f l) <= zmax (map g l).
Proof.
  unfold zmax. induction l as [|y l IH]; intros H; cbn; [lia|]. pose proof (H y ltac:(by left)).
  specialize (IH ltac:(intros x Hx; apply H; by right)). lia.
Qed.

Lemma zsum_mono {A} (f g : A -> Z) l : (forall x, x ∈ l -> f x <= g x) -> zsum (map f l) <= zsum (map g l).
Proof.
  induction l as [|y l IH]; intros H; cbn [map]; [done|]. rewrite !zsum_cons. pose proof (H y ltac:(by left)).
  specialize (IH ltac:(intros x Hx; apply H; by right)). lia.
Qed.

(** The damage to one checkpoint always counts in full: what else of its owner survives does not hide it. *)
Lemma private_loss_not_masked owners checkpoints o c :
  Forall (fun o => 0 <= op_private_retention_weight o) owners ->
  o ∈ owners -> c ∈ checkpoints -> cv_owner c = op_owner o ->
  op_private_retention_weight o * checkpoint_loss c <= private_loss owners checkpoints.
Proof.
  intros Hw Ho Hc Howner. unfold private_loss. rewrite Forall_forall in Hw. pose proof (Hw o Ho).
  transitivity (op_private_retention_weight o * owner_value checkpoint_loss checkpoints (op_owner o)).
  - apply Z.mul_le_mono_nonneg_l; [done|]. apply zmax_elem, list_elem_of_fmap_2, list_elem_of_filter. by split.
  - apply zsum_elem_le; [|by apply (list_elem_of_fmap_2 (fun o => op_private_retention_weight o * owner_value checkpoint_loss checkpoints (op_owner o)))].
    apply Forall_map, Forall_forall. intros x Hx. cbn. pose proof (Hw x Hx). pose proof (owner_value_nonneg checkpoint_loss checkpoints (op_owner x)). nia.
Qed.

Lemma saving_anti r c c' : c <= c' -> saving r c' <= saving r c.
Proof. unfold saving. intros. destruct (Z.ltb_spec c r), (Z.ltb_spec c' r); lia. Qed.

(** A change that makes no recovery dearer costs nothing. *)
Lemma harmless_change owners checkpoints :
  Forall (fun c => cv_target_recovery_ns c <= cv_baseline_recovery_ns c) checkpoints ->
  public_value baseline_saving owners checkpoints <= public_value target_saving owners checkpoints /\
  private_loss owners checkpoints = 0.
Proof.
  intros H. rewrite Forall_forall in H.
  assert (Hle : forall c, c ∈ checkpoints -> baseline_saving c <= target_saving c) by (intros c Hc; by apply saving_anti, H).
  assert (Hown : forall o, owner_value baseline_saving checkpoints o <= owner_value target_saving checkpoints o).
  { intros o. apply zmax_mono. intros c [_ Hc]%list_elem_of_filter. by apply Hle. }
  split.
  - unfold public_value. apply Z.add_le_mono; apply zsum_mono.
    + intros bit _. apply zmax_mono. intros c [_ Hc]%list_elem_of_filter. by apply Hle.
    + intros o _. destruct (op_explicit_shared_credit o); [apply Hown|done].
  - unfold private_loss. assert (Hz : forall o, owner_value checkpoint_loss checkpoints o = 0).
    { intros o. apply Z.le_antisymm; [|apply owner_value_nonneg]. unfold owner_value.
      transitivity (zmax (map (fun _ => 0) (filter (fun c => cv_owner c = o) checkpoints))).
      - apply zmax_mono. intros c [_ Hc]%list_elem_of_filter. unfold checkpoint_loss, saving. pose proof (Hle c Hc). destruct (Z.ltb_spec (target_saving c) (baseline_saving c)); lia.
      - generalize (filter (fun c => cv_owner c = o) checkpoints). unfold zmax. intros l. induction l; cbn; lia. }
    induction owners as [|o owners IH]; [done|]. cbn [map]. rewrite zsum_cons, Hz, IH. lia.
Qed.
