(* ===== verification/SearchBudget.v ===== *)
(** The allowances of the planners (src/src/runtime/engine/materialization_budget.h)
    and the ledger of targets of a bounded search
    (src/src/runtime/engine/resource_search.h). Clock readings and the
    cancellation flag are arguments of the calls that read them. *)

From S2P Require Import Prelude.

(** * The boundary allowance *)
Record PlanningAllowance : Type := mkAllowance {
  al_started_ns : Z;
  al_limit_ns : Z;
  al_affected_requests : Z;
  (** whether there is a cancellation flag *)
  al_cancellation : bool;
  al_control_deadline_ns : Z;
}.

(** [PlanningAllowance::boundary] *)
Definition boundary_allowance (other_runnable now : Z) : PlanningAllowance :=
  mkAllowance now (if other_runnable =? 0 then 50000000 else 10000000) (wrap32 (1 + other_runnable)) false U64_MAX.

(** [cancelled] is what the flag holds when it is read. *)
Definition remaining (a : PlanningAllowance) (cancelled : bool) (now : Z) : Z :=
  if (al_cancellation a && cancelled) || (al_control_deadline_ns a <=? now) then 0 else
  let elapsed := if al_started_ns a <? now then now - al_started_ns a else 0 in
  Z.min (if elapsed <? al_limit_ns a then al_limit_ns a - elapsed else 0) (al_control_deadline_ns a - now).

(** * The search budget *)
Inductive MaterializationStopReason : Type :=
  | NoPressure | QueueExhausted | TargetBudget | ExpansionCapacity | TimeBudget | InsufficientExpectedGain | WorkBudget.

#[global] Instance MaterializationStopReason_eq_dec : EqDecision MaterializationStopReason.
Proof. solve_decision. Defined.

Record MaterializationSearchBudget : Type := mkBudget {
  sb_boundary_limited : bool;
  sb_allowance : PlanningAllowance;
  sb_started : Z;
  sb_granted : Z;
  sb_renewal_progress : Z;
  sb_renewals : Z;
  sb_discovery_used : bool;
  sb_reason : MaterializationStopReason;
}.

Definition economic (a : PlanningAllowance) (gain : Z) : Z :=
  if gain =? U64_MAX then 0 else gain / 20 / Z.max 1 (al_affected_requests a).

Definition make_budget (a : PlanningAllowance) (cancelled : bool) (started initial_cost : Z) : MaterializationSearchBudget :=
  mkBudget false a started
    (Z.min 5000000 (Z.min (economic a initial_cost) (remaining a cancelled started))) 0 0 false TimeBudget.

(** The arguments of one call of [allow], with what it reads of the flag. *)
Record AllowCall : Type := mkCall {
  ac_now : Z;
  ac_cancelled : bool;
  ac_next_operation_ns : Z;
  ac_completion_ns : Z;
  ac_gain_ns : Z;
  ac_complete_prediction : bool;
  ac_progress : Z;
  ac_discovery_eligible : bool;
}.

Definition stop_search (b : MaterializationSearchBudget) (limited : bool) (reason : MaterializationStopReason) : MaterializationSearchBudget :=
  mkBudget limited (sb_allowance b) (sb_started b) (sb_granted b) (sb_renewal_progress b) (sb_renewals b) (sb_discovery_used b) reason.

Definition budget_elapsed (b : MaterializationSearchBudget) (now : Z) : Z :=
  if sb_started b <? now then now - sb_started b else 0.

Definition allow (b : MaterializationSearchBudget) (c : AllowCall) : MaterializationSearchBudget * bool :=
  let elapsed := budget_elapsed b (ac_now c) in
  let left := remaining (sb_allowance b) (ac_cancelled c) (ac_now c) in
  let next_operation_ns := Z.max 1 (ac_next_operation_ns c) in
  let completion_ns := Z.max next_operation_ns (ac_completion_ns c) in
  if left <? next_operation_ns then (stop_search b true TimeBudget, false) else
  if (elapsed <? sb_granted b) && (next_operation_ns <=? sb_granted b - elapsed)
  then (stop_search b false (sb_reason b), true) else
  if (left <? completion_ns) || (economic (sb_allowance b) (ac_gain_ns c) <? completion_ns)
  then (stop_search b false InsufficientExpectedGain, false) else
  if negb (ac_complete_prediction c) && (negb (ac_discovery_eligible c) || sb_discovery_used b)
  then (stop_search b false InsufficientExpectedGain, false) else
  if negb (sb_renewals b =? 0) && (ac_progress c <=? sb_renewal_progress b)
  then (stop_search b false InsufficientExpectedGain, false) else
  let hard := wrap64 (elapsed + left) in
  let growth := Z.max (sb_granted b) next_operation_ns in
  let added := Z.min growth (if sb_granted b <? hard then hard - sb_granted b else 0) in
  let added := if ac_complete_prediction c then added else Z.min added 5000000 in
  if (added =? 0) || (wrap64 (sb_granted b + added) <? wrap64 (elapsed + next_operation_ns))
  then (stop_search b false TimeBudget, false) else
  (mkBudget false (sb_allowance b) (sb_started b) (wrap64 (sb_granted b + added)) (ac_progress c) (wrap32 (sb_renewals b + 1))
     (sb_discovery_used b || negb (ac_complete_prediction c)) (sb_reason b), true).

Definition overshoot (b : MaterializationSearchBudget) (now : Z) : Z :=
  let elapsed := budget_elapsed b now in
  if sb_granted b <? elapsed then elapsed - sb_granted b else 0.

(** A run of calls, with the answer and the budget after each. *)
Fixpoint allow_all (b : MaterializationSearchBudget) (calls : list AllowCall) : list (AllowCall * MaterializationSearchBudget * bool) :=
  match calls with
  | [] => []
  | c :: calls' => let '(b', ok) := allow b c in (c, b', ok) :: allow_all b' calls'
  end.

(** * The target ledger *)
Definition BoundedTargetLedger : Type := list Z.

Definition Discovered : Z := 1.
Definition Assessed : Z := 2.
Definition Expanded : Z := 4.

Definition ledger_reset (capacity : Z) : BoundedTargetLedger := replicate (Z.to_nat capacity) 0.

Definition require_ordinal (l : BoundedTargetLedger) (ordinal : Z) : result unit :=
  throw_if (vsize l <=? ordinal) LogicError.

Definition ledger_contains (l : BoundedTargetLedger) (ordinal mark : Z) : result bool :=
  _ ← require_ordinal l ordinal;
  state ← vat l ordinal;
  Ok (negb (Z.land state mark =? 0)).

Definition ledger_mark (l : BoundedTargetLedger) (ordinal mark : Z) : result BoundedTargetLedger :=
  _ ← require_ordinal l ordinal;
  state ← vat l ordinal;
  Ok l.[ordinal <- Z.lor state mark].

(** * Bounds of the budget *)

(** The last moment of the boundary: the end of its window or the control deadline. *)
Definition boundary_end (a : PlanningAllowance) : Z := Z.min (al_started_ns a + al_limit_ns a) (al_control_deadline_ns a).

Record allowance_ok (a : PlanningAllowance) : Prop := {
  ao_started : is_u64 (al_started_ns a);
  ao_limit : is_u64 (al_limit_ns a);
  ao_affected : is_u32 (al_affected_requests a);
  ao_deadline : is_u64 (al_control_deadline_ns a);
}.

Record call_ok (started : Z) (c : AllowCall) : Prop := {
  cc_now : started <= ac_now c <= U64_MAX;
  cc_next : is_u64 (ac_next_operation_ns c);
  cc_progress : is_u64 (ac_progress c);
}.

(** The granted window of a search ends inside the boundary it was started in. *)
Record budget_ok (a : PlanningAllowance) (started : Z) (b : MaterializationSearchBudget) : Prop := {
  bo_allowance : sb_allowance b = a;
  bo_started : sb_started b = started;
  bo_granted : 0 <= sb_granted b;
  bo_window : sb_granted b = 0 \/ started + sb_granted b <= boundary_end a;
  bo_renewals : 0 <= sb_renewals b;
  bo_progress : sb_renewals b <= sb_renewal_progress b + 1;
  bo_nonneg : 0 <= sb_renewal_progress b;
}.

Lemma economic_nonneg a gain : is_u64 gain -> 0 <= economic a gain.
Proof. intros [Hg _]. unfold economic. case_match; [done|]. apply Z.div_pos; [apply Z.div_pos|]; lia. Qed.

(** What is left of the boundary at a moment of the search. *)
Lemma remaining_bounds a cancelled now :
  allowance_ok a -> al_started_ns a <= now <= U64_MAX ->
  0 <= remaining a cancelled now /\ (remaining a cancelled now = 0 \/ now + remaining a cancelled now <= boundary_end a).
Proof.
  intros [[Hs _] [Hl _] _ [Hd _]] Hn. unfold remaining, boundary_end.
  destruct (_ || _) eqn:E; [lia|]. apply orb_false_iff in E as [_ E]. apply Z.leb_gt in E.
  destruct (Z.ltb_spec (al_started_ns a) now) as [H1|H1];
    [destruct (Z.ltb_spec (now - al_started_ns a) (al_limit_ns a))|destruct (Z.ltb_spec 0 (al_limit_ns a))]; lia.
Qed.

Lemma make_budget_ok a cancelled started cost :
  allowance_ok a -> al_started_ns a <= started <= U64_MAX -> is_u64 cost -> budget_ok a started (make_budget a cancelled started cost).
Proof.
  intros Ha Hs Hc. destruct (remaining_bounds a cancelled started Ha Hs) as [H0 Hend]. pose proof (economic_nonneg a cost Hc).
  constructor; cbn; try done; lia.
Qed.

Lemma stop_search_ok a started b limited reason : budget_ok a started b -> budget_ok a started (stop_search b limited reason).
Proof. by intros []. Qed.

Section Step.
Context (a : PlanningAllowance) (started : Z) (Ha : allowance_ok a) (Hs : is_u64 started) (Has : al_started_ns a <= started).

Lemma boundary_end_u64 : boundary_end a <= U64_MAX.
Proof using Ha. destruct Ha as [_ _ _ [_ ?]]. unfold boundary_end. lia. Qed.

(** A call keeps the window inside the boundary, and what it permits is predicted to end in the window. *)
Lemma allow_step b c :
  budget_ok a started b -> call_ok started c ->
  budget_ok a started (fst (allow b c)) /\
  (snd (allow b c) = true -> ac_now c + Z.max 1 (ac_next_operation_ns c) <= started + sb_granted (fst (allow b c))).
Proof using Ha Has Hs.
  intros Hb [Hn Hx Hp]. pose proof Hb as [Eal Est Hg Hw Hr Hrp Hp0].
  destruct (remaining_bounds a (ac_cancelled c) (ac_now c) Ha ltac:(lia)) as [Hl0 Hlend].
  pose proof boundary_end_u64 as Hend. unfold allow. rewrite Eal. set (left := remaining a (ac_cancelled c) (ac_now c)) in *.
  set (next := Z.max 1 (ac_next_operation_ns c)). assert (Hnext : 1 <= next) by lia.
  assert (Hel : budget_elapsed b (ac_now c) = ac_now c - started)
    by (unfold budget_elapsed; rewrite Est; destruct (Z.ltb_spec started (ac_now c)); lia).
  rewrite Hel. set (elapsed := ac_now c - started) in *.
  destruct (Z.ltb_spec left next); [split; [by apply stop_search_ok|done]|].
  destruct ((elapsed <? _) && _) eqn:E1; [split; [by apply stop_search_ok|]; intros _; cbn; simp_bool; lia|].
  destruct ((left <? _) || _) eqn:E2; [split; [by apply stop_search_ok|done]|].
  destruct (negb (ac_complete_prediction c) && _) eqn:E3; [split; [by apply stop_search_ok|done]|].
  destruct (negb (sb_renewals b =? 0) && _) eqn:E4; [split; [by apply stop_search_ok|done]|].
  rewrite (wrap64_small (elapsed + left)) by (unfold is_u64 in *; lia).
  set (hard := elapsed + left). set (added0 := Z.min _ _). set (added := if ac_complete_prediction c then added0 else _).
  assert (Hadd : added <= 0 \/ sb_granted b + added <= hard).
  { unfold added, added0. destruct (ac_complete_prediction c), (Z.ltb_spec (sb_granted b) hard); lia. }
  assert (Hadd0 : 0 <= added) by (unfold added, added0; destruct (ac_complete_prediction c), (Z.ltb_spec (sb_granted b) hard); lia).
  destruct (Z.eqb_spec added 0); cbn [orb]; [split; [by apply stop_search_ok|done]|].
  rewrite (wrap64_small (sb_granted b + added)), (wrap64_small (elapsed + next)) by (unfold is_u64 in *; lia).
  destruct (Z.ltb_spec (sb_granted b + added) (elapsed + next)); [split; [by apply stop_search_ok|done]|].
  split; [|intros _; cbn; lia].
  assert (Hwrap : 0 <= wrap32 (sb_renewals b + 1) <= sb_renewals b + 1).
  { unfold wrap32. pose proof (Z.mod_pos_bound (sb_renewals b + 1) 4294967296 ltac:(lia)). split; [lia|]. apply Z.mod_le; lia. }
  destruct Hp as [Hp _]. constructor; cbn; try done; try lia.
Qed.

Lemma allow_all_ok b calls :
  budget_ok a started b -> Forall (call_ok started) calls ->
  Forall (fun e => budget_ok a started (snd (fst e)) /\ started <= ac_now (fst (fst e)) /\
    (snd e = true -> ac_now (fst (fst e)) + Z.max 1 (ac_next_operation_ns (fst (fst e))) <= started + sb_granted (snd (fst e)))) (allow_all b calls).
Proof using Ha Has Hs.
  revert b. induction calls as [|c calls IH]; intros b Hb Hc; cbn [allow_all]; [constructor|].
  apply Forall_cons_1 in Hc as [Hc Hcs]. pose proof (allow_step b c Hb Hc) as [H1 H2].
  destruct (allow b c) as [b' ok]. constructor; [|by apply IH]. split; [done|]. split; [apply Hc|done].
Qed.
End Step.

(** Calls without a complete prediction that extend the grant. *)
Fixpoint uncertain_grants (b : MaterializationSearchBudget) (calls : list AllowCall) : nat :=
  match calls with
  | [] => O
  | c :: calls' =>
      let '(b', ok) := allow b c in
      (if ok && negb (ac_complete_prediction c) && (sb_granted b <? sb_granted b') then 1 else 0) + uncertain_grants b' calls'
  end.

Lemma allow_discovery b c b' ok :
  allow b c = (b', ok) ->
  (sb_discovery_used b = true -> sb_discovery_used b' = true /\
     (ac_complete_prediction c = false -> sb_granted b' = sb_granted b)) /\
  (ac_complete_prediction c = false -> sb_granted b' <> sb_granted b -> sb_discovery_used b' = true).
Proof.
  assert (Hstop : forall limited reason, b' = stop_search b limited reason ->
    (sb_discovery_used b = true -> sb_discovery_used b' = true /\ (ac_complete_prediction c = false -> sb_granted b' = sb_granted b)) /\
    (ac_complete_prediction c = false -> sb_granted b' <> sb_granted b -> sb_discovery_used b' = true)) by (intros ? ? ->; done).
  unfold allow. cbv zeta. intros E.
  destruct (remaining _ _ _ <? _); [injection E as <- _; by eapply Hstop|].
  destruct ((budget_elapsed b (ac_now c) <? _) && _); [injection E as <- _; by eapply Hstop|].
  destruct ((remaining _ _ _ <? _) || _); [injection E as <- _; by eapply Hstop|].
  destruct (negb (ac_complete_prediction c) && _) eqn:E3; [injection E as <- _; by eapply Hstop|].
  destruct (negb (sb_renewals b =? 0) && _); [injection E as <- _; by eapply Hstop|].
  destruct ((_ =? 0) || _); [injection E as <- _; by eapply Hstop|]. injection E as <- _. cbn. clear Hstop. split.
  - intros Hd. rewrite Hd in *. split; [done|]. intros Hc. rewrite Hc, orb_true_r in E3. done.
  - intros Hc _. rewrite Hc. apply orb_true_r.
Qed.

Lemma uncertain_grants_used b calls : sb_discovery_used b = true -> uncertain_grants b calls = O.
Proof.
  revert b. induction calls as [|c calls IH]; intros b Hd; cbn; [done|]. destruct (allow b c) as [b' ok] eqn:E.
  destruct (allow_discovery b c b' ok E) as [H1 _]. destruct (H1 Hd) as [Hd' Hg]. rewrite IH by done.
  destruct (ac_complete_prediction c); [by rewrite andb_false_r|]. by rewrite Hg, Z.ltb_irrefl, andb_false_r.
Qed.

Lemma uncertain_grants_once b calls : (uncertain_grants b calls <= 1)%nat.
Proof.
  revert b. induction calls as [|c calls IH]; intros b; cbn; [lia|]. destruct (allow b c) as [b' ok] eqn:E.
  destruct (allow_discovery b c b' ok E) as [_ H2]. destruct (_ && _) eqn:Hc; [|cbn; apply IH].
  simp_bool. rewrite uncertain_grants_used; [lia|]. apply H2; [done|lia].
Qed.

(** C16. However the calls come, as long as the clock does not run backwards: the first grant is at most
    5 ms, the granted window of the search ends inside the boundary (its time limit and the control
    deadline), every operation that is permitted is predicted to end in that window, and at most one
    grant of the whole search is made without a complete prediction. *)
Theorem search_stays_within_boundary a cancelled started cost calls :
  allowance_ok a -> is_u64 cost -> al_started_ns a <= started <= U64_MAX -> Forall (call_ok started) calls ->
  let b := make_budget a cancelled started cost in
  0 <= sb_granted b <= 5000000 /\
  Forall (fun '(c, b', ok) =>
      (sb_granted b' = 0 \/ started + sb_granted b' <= boundary_end a) /\
      (ok = true -> ac_now c + ac_next_operation_ns c <= started + sb_granted b' <= boundary_end a) /\
      sb_renewals b' <= sb_renewal_progress b' + 1) (allow_all b calls) /\
  (uncertain_grants b calls <= 1)%nat.
Proof.
  intros Ha Hc Hs Hcalls b. assert (Hs64 : is_u64 started) by (destruct Ha as [[? _]]; unfold is_u64; lia).
  pose proof (make_budget_ok a cancelled started cost Ha Hs Hc) as Hb. fold b in Hb.
  split; [split; [apply Hb|cbn; lia]|]. split; [|apply uncertain_grants_once].
  eapply Forall_impl; [apply (allow_all_ok a started Ha Hs64 (proj1 Hs) b calls Hb Hcalls)|].
  intros [[c b'] ok] ([_ _ Hg Hw _ Hp _] & Hn & Hok). cbn in *. split; [done|]. split; [|done].
  intros E. specialize (Hok E). lia.
Qed.

Definition witness_calls : list AllowCall :=
  [mkCall 2000000 false 20000 20000 100000000 true 1 true; mkCall 6500000 false 20000 20000 200000000 false 2 true;
   mkCall 9000000 false 2000000 2000000 400000000 true 3 true].

Lemma search_stays_within_boundary_witness :
  Forall (fun '(c, b', ok) =>
      (sb_granted b' = 0 \/ 1000000 + sb_granted b' <= 10000000) /\
      (ok = true -> ac_now c + ac_next_operation_ns c <= 1000000 + sb_granted b' <= 10000000) /\
      sb_renewals b' <= sb_renewal_progress b' + 1)
    (allow_all (make_budget (boundary_allowance 1 0) false 1000000 200000000) witness_calls).
Proof.
  apply (proj1 (proj2 (search_stays_within_boundary (boundary_allowance 1 0) false 1000000 200000000 witness_calls
    ltac:(split; done) ltac:(done) ltac:(done) ltac:(repeat constructor; done)))).
Defined.
