(* ===== verification/PressureTypes.v ===== *)
(** The facts a target program reports to the planners about one possible
    materialization (src/src/runtime/contract/types.h): assessments and guidance
    of pressure targets, outcomes for owners and checkpoints; and the
    lexicographic order of the [std::tuple] keys the planners compare. *)

From S2P Require Import Prelude HostKvArena ContextCost.

Inductive CheckpointKind : Type := SessionEndpoint | TurnClosure | ResponseReplay | SharedStablePrefix | LongAnchor.

Record CheckpointRef : Type := mkCheckpointRef {
  cr_kind : CheckpointKind;
  cr_frontier : Z;
  cr_ordinal : Z;
}.

Inductive PrivateSourceMode : Type := Retain | ConsumeToActive.
Inductive VictimDisposition : Type := Retained | Evicted.
Inductive MaterializationPhysicalStatus : Type := Feasible | Infeasible | StructuralInvalid.

#[global] Instance CheckpointKind_eq_dec : EqDecision CheckpointKind.
Proof. solve_decision. Defined.
#[global] Instance CheckpointRef_eq_dec : EqDecision CheckpointRef.
Proof. solve_decision. Defined.
#[global] Instance VictimDisposition_eq_dec : EqDecision VictimDisposition.
Proof. solve_decision. Defined.
#[global] Instance MaterializationPhysicalStatus_eq_dec : EqDecision MaterializationPhysicalStatus.
Proof. solve_decision. Defined.

Record PressureCheckpointRecoveryImpact : Type := mkImpact {
  pi_owner : Z;
  pi_checkpoint : CheckpointRef;
  pi_target_recovery_work : list CheckpointRecoveryAlternativeWork;
  pi_survives : bool;
}.

Record PressureCheckpointOutcome : Type := mkCheckpointOutcome {
  ko_owner : Z;
  ko_checkpoint : CheckpointRef;
  ko_survives : bool;
}.

Record PressureOwnerOutcome : Type := mkOwnerOutcome {
  oo_owner : Z;
  oo_disposition : VictimDisposition;
  oo_degradation_units : Z;
  oo_dropped_checkpoints : Z;
}.

Record PressurePhysicalGuidance : Type := mkPhysicalGuidance {
  pg_unsatisfied_constraints : Z;
  pg_estimated_remaining_steps : Z;
  pg_normalized_residual_q20 : Z;
  pg_requires_exact_feedback : bool;
}.

Record PressureOwnerRecoveryGuidance : Type := mkRecoveryGuidance {
  rg_owner : Z;
  rg_additional_restore : CoalescedTransferWork;
}.

Record PressureTargetGuidance : Type := mkGuidance {
  gd_physical : PressurePhysicalGuidance;
  gd_estimated_machine_work : MaterializationMachineWork;
  gd_owner_outcomes : list PressureOwnerOutcome;
  gd_candidate : Z;
  gd_stable_target_ordinal : Z;
  gd_degradation_units : Z;
  gd_dropped_checkpoints : Z;
  gd_source_mode : PrivateSourceMode;
  gd_checkpoint_changes : list PressureCheckpointOutcome;
  gd_recovery_estimates : list PressureOwnerRecoveryGuidance;
  gd_recovery_estimate_complete : bool;
}.

(** Without the digest, which no planner reads. *)
Record PressureTargetAssessment : Type := mkAssessment {
  as_physical_status : MaterializationPhysicalStatus;
  as_source_mode : PrivateSourceMode;
  as_machine_work : MaterializationMachineWork;
  as_owner_outcomes : list PressureOwnerOutcome;
  as_checkpoint_impacts : list PressureCheckpointRecoveryImpact;
  as_candidate : Z;
  as_stable_target_ordinal : Z;
  as_degradation_units : Z;
  as_dropped_checkpoints : Z;
  as_projection_work : Z;
  as_expandable : bool;
  as_root_maximal : bool;
}.

Record PressureConstructionOptionId : Type := mkOptionId {
  oi_cursor_generation : Z;
  oi_scan_generation : Z;
  oi_index : Z;
}.

Record PressureConstructionStep : Type := mkStep {
  st_guidance : option PressureTargetGuidance;
  st_option : PressureConstructionOptionId;
  st_exhausted : bool;
}.

Definition feasible (a : PressureTargetAssessment) : bool := bool_decide (as_physical_status a = Feasible).

(** The outcomes both planners copy out of an assessment. *)
Definition checkpoint_outcome (impact : PressureCheckpointRecoveryImpact) : PressureCheckpointOutcome :=
  mkCheckpointOutcome (pi_owner impact) (pi_checkpoint impact) (pi_survives impact).

(** [operator<] of [std::tuple], for keys of equal length. *)
Fixpoint lex_lt (a b : list Z) : bool :=
  match a, b with
  | x :: a', y :: b' => (x <? y) || ((x =? y) && lex_lt a' b')
  | [], _ :: _ => true
  | _, [] => false
  end.

Lemma lex_lt_irrefl a : lex_lt a a = false.
Proof. induction a as [|x a IH]; [done|]. cbn. by rewrite Z.ltb_irrefl, Z.eqb_refl, IH. Qed.

Lemma lex_lt_trans a b c : lex_lt a b = true -> lex_lt b c = true -> lex_lt a c = true.
Proof.
  revert b c. induction a as [|x a IH]; intros [|y b] [|z c]; cbn; try done.
  intros H1 H2. apply orb_true_iff in H1, H2. apply orb_true_iff.
  destruct H1 as [H1|[H1 H1']%andb_true_iff], H2 as [H2|[H2 H2']%andb_true_iff]; simp_bool; try (left; lia).
  right. apply andb_true_iff. split; [lia|by eapply IH].
Qed.

Lemma lex_lt_total a b : length a = length b -> lex_lt a b = false -> lex_lt b a = false -> a = b.
Proof.
  revert b. induction a as [|x a IH]; intros [|y b] Hl; cbn in *; try done.
  intros H1 H2. apply orb_false_iff in H1 as [H1 H1'], H2 as [H2 H2']. simp_bool. assert (x = y) as -> by lia.
  rewrite Z.eqb_refl in *. f_equal. apply IH; [lia|done|done].
Qed.

(** What is not below a bound stays so for smaller bounds. *)
Lemma lex_ge_trans a b c : lex_lt a b = false -> lex_lt c b = true -> lex_lt a c = false.
Proof.
  intros H1 H2. destruct (lex_lt a c) eqn:E; [|done]. exfalso. pose proof (lex_lt_trans a c b E H2). congruence.
Qed.
