(* ===== verification/CapturePlanner.v ===== *)
(** The planner for optional shared captures
    (src/src/runtime/engine/shared_capture_planner.h): a breadth-first search over
    the pressure targets of a program session, bounded by a target budget, that
    keeps the assessed target with the best strictly positive net value.

    The session is the planner's template parameter: class [CaptureSession] has the
    calls the planner makes, each on the state of the session. *)

From S2P Require Import Prelude HostKvArena ContextCost PortfolioValue SearchBudget PressureTypes.

(** * The session *)
Class CaptureSession (S T A E P : Type) : Type := {
  cs_candidate_id : S -> Z;
  cs_identity_target : M S T;
  cs_guidance : T -> M S PressureTargetGuidance;
  (** the assessed target and the view of its assessment *)
  cs_assess : T -> M S (A * PressureTargetAssessment);
  cs_prepare_expansion : T -> M S E;
  cs_new_canonical_count : E -> Z;
  cs_discard_expansion : E -> M S unit;
  (** the children and the number of new canonical targets *)
  cs_commit_expansion : E -> M S (list T * Z);
  cs_seal : A -> M S (option P);
}.

(** * Input and result *)
Record OwnerPolicy : Type := mkCaptureOwner {
  wp_owner : Z;
  wp_private_retention_weight : Z;
  wp_explicit_shared_credit : bool;
}.

Record CheckpointPolicy : Type := mkCaptureCheckpoint {
  kp_owner : Z;
  kp_checkpoint : CheckpointRef;
  kp_demand_mask : Z;
  kp_rebuild_ns : Z;
  kp_baseline_recovery_ns : Z;
}.

(** The fields of the package's capture assessment the planner reads. *)
Record CaptureAssessment : Type := mkCapture {
  ca_publishes_shared : bool;
  ca_shared_evidence : Z;
  ca_projected_recovery_work : list CheckpointRecoveryAlternativeWork;
}.

(** [SharedCandidateEvidence] *)
Definition ExplicitBoundary : Z := 1.
Definition RequestedAutomatic : Z := 2.
Definition has_shared_candidate_evidence (value evidence : Z) : bool := negb (Z.land value evidence =? 0).

Definition kTargetBudget : Z := 4096.

(** The owner handles themselves only go to the session; their numbers are checked. *)
Record Input : Type := mkInput {
  in_capture : option CaptureAssessment;
  in_private_owners : Z;
  in_private_owner_ids : list Z;
  in_shared_owners : Z;
  in_shared_owner_ids : list Z;
  in_owner_policies : list OwnerPolicy;
  in_checkpoint_policies : list CheckpointPolicy;
  in_direct_shared_victim : option Z;
  in_candidate_demand_mask : Z;
  in_candidate_rebuild_ns : Z;
  in_private_baseline_immediate_ns : Z;
  in_blocked_runnable_requests : Z;
  in_stable_scenario_ordinal : Z;
  in_target_budget : Z;
}.

Record CaptureResult (P : Type) : Type := mkCaptureResult {
  cp_pressure : P;
  cp_owner_outcomes : list PressureOwnerOutcome;
  cp_checkpoint_outcomes : list PressureCheckpointOutcome;
  cp_baseline_value : Z;
  cp_target_value : Z;
  cp_immediate_ns : Z;
  cp_net_gain : Z;
  cp_stable_scenario_ordinal : Z;
  cp_stable_target_ordinal : Z;
  cp_targets_evaluated : Z;
}.
Arguments mkCaptureResult {P}.
Arguments cp_pressure {P}.
Arguments cp_net_gain {P}.
Arguments cp_baseline_value {P}.
Arguments cp_target_value {P}.
Arguments cp_immediate_ns {P}.
Arguments cp_stable_target_ordinal {P}.
Arguments cp_targets_evaluated {P}.

Definition validate (input : Input) : result unit :=
  throw_if (match in_capture input with None => true | Some capture => negb (ca_publishes_shared capture) end ||
            (in_target_budget input =? 0) || (kTargetBudget <? in_target_budget input) ||
            negb (in_private_owners input =? vsize (in_private_owner_ids input)) ||
            negb (in_shared_owners input =? vsize (in_shared_owner_ids input))) InvalidArgument.

(** * The value of a target *)
Record CombinedImpact : Type := mkCombined {
  cb_owner : Z;
  cb_checkpoint : CheckpointRef;
  cb_target_ns : Z;
}.

Record TransitionValue : Type := mkTransition {
  tv_baseline_public : Z;
  tv_target_public : Z;
  tv_private_loss : Z;
  tv_immediate : Z;
  tv_gain : Z;
  tv_positive : bool;
  tv_saturated : bool;
}.

Definition policy_matches (owner : Z) (checkpoint : CheckpointRef) (policy : CheckpointPolicy) : bool :=
  (kp_owner policy =? owner) && bool_decide (kp_checkpoint policy = checkpoint).

Definition checkpoint_policy_for (policies : list CheckpointPolicy) (owner : Z) (checkpoint : CheckpointRef) : option CheckpointPolicy :=
  List.find (policy_matches owner checkpoint) policies.

Definition saturating_multiply (value multiplier : Z) : Z :=
  if negb (multiplier =? 0) && (U64_MAX / multiplier <? value) then U64_MAX else wrap64 (value * multiplier).

Definition impact_matches (owner : Z) (checkpoint : CheckpointRef) (impact : CombinedImpact) : bool :=
  (cb_owner impact =? owner) && bool_decide (cb_checkpoint impact = checkpoint).

Definition combine_impact (input : Input) (machine_cost : ContextMachineCostModel) (scratch : list CombinedImpact)
    (impact : PressureCheckpointRecoveryImpact) : result (list CombinedImpact) :=
  match checkpoint_policy_for (in_checkpoint_policies input) (pi_owner impact) (pi_checkpoint impact) with
  | None => Err LogicError
  | Some _ =>
      if existsb (impact_matches (pi_owner impact) (pi_checkpoint impact)) scratch then Err LogicError else
      match pi_target_recovery_work impact with
      | [] => Err LogicError
      | work => Ok (scratch ++ [mkCombined (pi_owner impact) (pi_checkpoint impact) (price_checkpoint_recovery_work machine_cost work)])
      end
  end.

Fixpoint next_candidate_owner_from (value : Z) (policies : list OwnerPolicy) : result Z :=
  match policies with
  | [] => Ok value
  | policy :: policies' =>
      _ ← throw_if (wp_owner policy =? U32_MAX) OverflowError;
      next_candidate_owner_from (Z.max value (wp_owner policy + 1)) policies'
  end.
Definition next_candidate_owner (policies : list OwnerPolicy) : result Z := next_candidate_owner_from 0 policies.

(** What a checkpoint costs to recover after the change. *)
Definition target_recovery (input : Input) (impacts : list CombinedImpact) (policy : CheckpointPolicy) : Z :=
  if bool_decide (in_direct_shared_victim input = Some (kp_owner policy)) then kp_rebuild_ns policy else
  match List.find (impact_matches (kp_owner policy) (kp_checkpoint policy)) impacts with
  | Some impact => cb_target_ns impact
  | None => kp_baseline_recovery_ns policy
  end.

(** The policies of the portfolio, the candidate last. *)
Definition portfolio_owners (input : Input) (capture : CaptureAssessment) (candidate_owner : Z) : list ContextPortfolioOwnerPolicy :=
  map (fun policy => mkOwnerPolicy (wp_owner policy) (wp_private_retention_weight policy) (wp_explicit_shared_credit policy))
    (in_owner_policies input) ++
  [mkOwnerPolicy candidate_owner 0
     (has_shared_candidate_evidence (ca_shared_evidence capture) ExplicitBoundary ||
      has_shared_candidate_evidence (ca_shared_evidence capture) RequestedAutomatic)].

Definition portfolio_checkpoints (input : Input) (capture : CaptureAssessment) (machine_cost : ContextMachineCostModel)
    (candidate_owner : Z) (impacts : list CombinedImpact) : list ContextPortfolioCheckpointValue :=
  map (fun policy => mkCheckpointValue (kp_owner policy) (kp_demand_mask policy) (kp_rebuild_ns policy)
                       (kp_baseline_recovery_ns policy) (target_recovery input impacts policy))
    (in_checkpoint_policies input) ++
  [mkCheckpointValue candidate_owner (in_candidate_demand_mask input) (in_candidate_rebuild_ns input) (in_candidate_rebuild_ns input)
     (price_checkpoint_recovery_work machine_cost (ca_projected_recovery_work capture))].

(** The comparison of the portfolio with the machine time of the change. *)
Definition transition_value (input : Input) (portfolio : ContextPortfolioValueResult) (immediate_ns : Z) : TransitionValue :=
  let multiplier := in_blocked_runnable_requests input + 1 in
  let target_immediate := saturating_multiply immediate_ns multiplier in
  let baseline_immediate := saturating_multiply (in_private_baseline_immediate_ns input) multiplier in
  let immediate := if baseline_immediate <? target_immediate then target_immediate - baseline_immediate else 0 in
  let saturated := pv_saturated portfolio || (target_immediate =? U64_MAX) || (baseline_immediate =? U64_MAX) in
  let '(threshold, saturated) :=
    portfolio_add (pv_baseline_public_value portfolio) (pv_private_transition_loss portfolio) saturated in
  let '(threshold, saturated) := portfolio_add threshold immediate saturated in
  let positive := negb saturated && (threshold <? pv_target_public_value portfolio) in
  mkTransition (pv_baseline_public_value portfolio) (pv_target_public_value portfolio) (pv_private_transition_loss portfolio)
    immediate (if positive then pv_target_public_value portfolio - threshold else 0) positive saturated.

Definition fold_target (input : Input) (capture : CaptureAssessment) (machine_cost : ContextMachineCostModel)
    (assessment : PressureTargetAssessment) : result TransitionValue :=
  impacts ← rfor (combine_impact input machine_cost) [] (as_checkpoint_impacts assessment);
  candidate_owner ← next_candidate_owner (in_owner_policies input);
  portfolio ← portfolio_fold (portfolio_owners input capture candidate_owner)
                (portfolio_checkpoints input capture machine_cost candidate_owner impacts);
  Ok (transition_value input portfolio (pr_immediate_ns (price_materialization_machine_work machine_cost (as_machine_work assessment)))).

(** The key [better] compares: larger is better. *)
Definition capture_rank (input : Input) (gain degradation_units dropped_checkpoints stable_target : Z) : list Z :=
  [gain; U32_MAX - degradation_units; U32_MAX - dropped_checkpoints; U32_MAX - in_stable_scenario_ordinal input; U32_MAX - stable_target].

(** * The search *)
Section Planner.
Context {S T A E P : Type} `{CaptureSession S T A E P}.

Record QueuedTarget : Type := mkQueued { qt_target : T; qt_ordinal : Z }.

Record Incumbent : Type := mkIncumbent {
  ic_target : T;
  ic_assessed : A;
  ic_value : TransitionValue;
  ic_stable_target : Z;
  ic_degradation_units : Z;
  ic_dropped_checkpoints : Z;
  ic_owner_outcomes : list PressureOwnerOutcome;
  ic_checkpoint_outcomes : list PressureCheckpointOutcome;
}.

(** The local variables of [plan] and the members it clears first. *)
Record search : Type := mkSearch {
  se_queue : list QueuedTarget;
  se_ledger : BoundedTargetLedger;
  se_incumbent : option Incumbent;
  se_canonical_targets : Z;
  se_targets_evaluated : Z;
  se_cursor : nat;
}.

Definition better (value : TransitionValue) (assessment : PressureTargetAssessment) (input : Input) (incumbent : Incumbent) : bool :=
  lex_lt (capture_rank input (tv_gain (ic_value incumbent)) (ic_degradation_units incumbent) (ic_dropped_checkpoints incumbent)
            (ic_stable_target incumbent))
    (capture_rank input (tv_gain value) (as_degradation_units assessment) (as_dropped_checkpoints assessment)
       (as_stable_target_ordinal assessment)).

Definition make_capture_incumbent (target : T) (assessed : A) (value : TransitionValue) (assessment : PressureTargetAssessment) : Incumbent :=
  mkIncumbent target assessed value (as_stable_target_ordinal assessment) (as_degradation_units assessment)
    (as_dropped_checkpoints assessment) (as_owner_outcomes assessment) (map checkpoint_outcome (as_checkpoint_impacts assessment)).

(** The incumbent after a feasible target was valued. *)
Definition update_incumbent (input : Input) (capture : CaptureAssessment) (machine_cost : ContextMachineCostModel)
    (target : T) (assessed : A) (assessment : PressureTargetAssessment) (incumbent : option Incumbent) : result (option Incumbent) :=
  if feasible assessment then
    value ← fold_target input capture machine_cost assessment;
    Ok (if tv_positive value && match incumbent with None => true | Some i => better value assessment input i end
        then Some (make_capture_incumbent target assessed value assessment) else incumbent)
  else Ok incumbent.

(** The loop over the children of an expansion. *)
Fixpoint queue_children (candidate_id : Z) (children : list T) (queue : list QueuedTarget) (ledger : BoundedTargetLedger)
  : M S (list QueuedTarget * BoundedTargetLedger) :=
  match children with
  | [] => mret (queue, ledger)
  | child :: children' =>
      guidance ← cs_guidance child;
      _ ← mthrow_if (negb (gd_candidate guidance =? candidate_id)) LogicError;
      discovered ← mlift (ledger_contains ledger (gd_stable_target_ordinal guidance) Discovered);
      if discovered : bool then queue_children candidate_id children' queue ledger else
      ledger ← mlift (ledger_mark ledger (gd_stable_target_ordinal guidance) Discovered);
      queue_children candidate_id children' (queue ++ [mkQueued child (gd_stable_target_ordinal guidance)]) ledger
  end.

(** The end of an iteration: expansion of the target, if the budget has room for all its children. *)
Definition expand (input : Input) (candidate_id : Z) (queued : QueuedTarget) (assessment : PressureTargetAssessment) (q : search) : M S search :=
  expanded ← mlift (if as_expandable assessment then ledger_contains (se_ledger q) (qt_ordinal queued) Expanded else Ok true);
  if expanded : bool then mret q else
  prepared ← cs_prepare_expansion (qt_target queued);
  let left := wrap32 (in_target_budget input - se_canonical_targets q) in
  if left <? cs_new_canonical_count prepared then
    _ ← cs_discard_expansion prepared;
    mret q
  else
    '(children, new_canonical_count) ← cs_commit_expansion prepared;
    ledger ← mlift (ledger_mark (se_ledger q) (qt_ordinal queued) Expanded);
    '(queue, ledger) ← queue_children candidate_id children (se_queue q) ledger;
    mret (mkSearch queue ledger (se_incumbent q) (wrap32 (se_canonical_targets q + new_canonical_count))
            (se_targets_evaluated q) (se_cursor q)).

(** One iteration on the target at the cursor. *)
Definition visit (input : Input) (capture : CaptureAssessment) (machine_cost : ContextMachineCostModel) (candidate_id : Z)
    (queued : QueuedTarget) (q : search) : M S search :=
  let q := mkSearch (se_queue q) (se_ledger q) (se_incumbent q) (se_canonical_targets q) (se_targets_evaluated q) (Datatypes.S (se_cursor q)) in
  assessed ← mlift (ledger_contains (se_ledger q) (qt_ordinal queued) Assessed);
  if assessed : bool then mret q else
  '(assessed, assessment) ← cs_assess (qt_target queued);
  _ ← mthrow_if (negb (as_candidate assessment =? candidate_id) || negb (as_stable_target_ordinal assessment =? qt_ordinal queued)) LogicError;
  ledger ← mlift (ledger_mark (se_ledger q) (qt_ordinal queued) Assessed);
  incumbent ← mlift (update_incumbent input capture machine_cost (qt_target queued) assessed assessment (se_incumbent q));
  expand input candidate_id queued assessment
    (mkSearch (se_queue q) ledger incumbent (se_canonical_targets q) (wrap32 (se_targets_evaluated q + 1)) (se_cursor q)).

(** [while (cursor < queue_.size() && targets_evaluated < input.target_budget)]; [None] when the fuel does not suffice. *)
Fixpoint search_loop (fuel : nat) (input : Input) (capture : CaptureAssessment) (machine_cost : ContextMachineCostModel) (candidate_id : Z)
    (q : search) : M S (option search) :=
  match se_queue q !! se_cursor q with
  | Some queued =>
      if se_targets_evaluated q <? in_target_budget input then
        match fuel with
        | O => mret None
        | Datatypes.S fuel' =>
            q ← visit input capture machine_cost candidate_id queued q;
            search_loop fuel' input capture machine_cost candidate_id q
        end
      else mret (Some q)
  | None => mret (Some q)
  end.

(** Enough for one iteration per ledger entry. *)
Definition search_fuel (input : Input) : nat := Z.to_nat (in_target_budget input + 1).

(** The outer [None] is a search that ran out of fuel, the inner one [std::nullopt]. *)
Definition plan_capture (machine_cost : ContextMachineCostModel) (input : Input) : M S (option (option (CaptureResult P))) :=
  _ ← mlift (validate input);
  match in_capture input with
  | None => mthrow Undefined
  | Some capture =>
      let ledger := ledger_reset (in_target_budget input + 1) in
      session ← mget;
      let candidate_id := cs_candidate_id session in
      identity ← cs_identity_target;
      identity_guide ← cs_guidance identity;
      _ ← mthrow_if (negb (gd_candidate identity_guide =? candidate_id)) LogicError;
      let ordinal := gd_stable_target_ordinal identity_guide in
      ledger ← mlift (ledger_mark ledger ordinal Discovered);
      found ← search_loop (search_fuel input) input capture machine_cost candidate_id
                (mkSearch [mkQueued identity ordinal] ledger None 1 0 0);
      match found with
      | None => mret None
      | Some q =>
          match se_incumbent q with
          | None => mret (Some None)
          | Some incumbent =>
              pressure ← cs_seal (ic_assessed incumbent);
              match pressure with
              | None => mthrow LogicError
              | Some pressure =>
                  mret (Some (Some (mkCaptureResult pressure (ic_owner_outcomes incumbent) (ic_checkpoint_outcomes incumbent)
                    (tv_baseline_public (ic_value incumbent)) (tv_target_public (ic_value incumbent)) (tv_immediate (ic_value incumbent))
                    (tv_gain (ic_value incumbent)) (in_stable_scenario_ordinal input) (ic_stable_target incumbent) (se_targets_evaluated q))))
              end
          end
      end
  end.
End Planner.

(** * The search ends *)
Section Termination.
Context {S T A E P : Type} `{!CaptureSession S T A E P}.
Implicit Types (q : @search T A).

Definition has_mark (l : BoundedTargetLedger) (ordinal mark : Z) : Prop := exists st, l.[ordinal] = Some st /\ Z.land st mark <> 0.

(** Every queued target has its own discovered entry in the ledger. *)
Record queue_ok (size : Z) (queue : list (@QueuedTarget T)) (l : BoundedTargetLedger) : Prop := {
  qo_size : vsize l = size;
  qo_nodup : NoDup (map qt_ordinal queue);
  qo_marked : Forall (fun t => has_mark l (qt_ordinal t) Discovered) queue;
}.

Lemma ledger_mark_Ok l l' ordinal m :
  ledger_mark l ordinal m = Ok l' -> exists st, l.[ordinal] = Some st /\ l' = l.[ordinal <- Z.lor st m].
Proof.
  unfold ledger_mark. intros (u & _ & (st & Hst%vat_Ok & Hr)%bind_Ok)%bind_Ok. injection Hr as <-. by exists st.
Qed.

Lemma ledger_mark_marked l l' ordinal m :
  ledger_mark l ordinal m = Ok l' -> vsize l' = vsize l /\ (m <> 0 -> has_mark l' ordinal m) /\ (forall o k, has_mark l o k -> has_mark l' o k).
Proof.
  intros (st & Hst & ->)%ledger_mark_Ok. pose proof (vget_Some_bounds _ _ _ Hst). split; [apply vsize_vset|]. split.
  - intros Hm. eexists. split; [by apply vget_vset_eq|]. intros Hz. apply Hm.
    rewrite Z.land_lor_distr_l, Z.land_diag in Hz. by apply Z.lor_eq_0_iff in Hz as [_ ?].
  - intros o k (st' & Hst' & Hk). destruct (decide (ordinal = o)) as [->|Hne].
    + eexists. split; [by apply vget_vset_eq|]. rewrite Hst' in Hst. injection Hst as ->. rewrite Z.land_lor_distr_l.
      intros Hz. by apply Z.lor_eq_0_iff in Hz as [? _].
    + exists st'. by rewrite vget_vset_ne.
Qed.

Lemma ledger_contains_Ok l ordinal m b : ledger_contains l ordinal m = Ok b -> (b = true <-> has_mark l ordinal m).
Proof.
  unfold ledger_contains. intros (u & _ & (st & Hst%vat_Ok & Hr)%bind_Ok)%bind_Ok. injection Hr as <-.
  unfold has_mark. rewrite Hst, negb_true_iff, Z.eqb_neq. naive_solver.
Qed.

(** No more targets are queued than the ledger has entries. *)
Lemma queue_length size queue l : queue_ok size queue l -> Z.of_nat (length queue) <= size.
Proof.
  intros [Hs Hnd Hm]. assert (Hsub : map qt_ordinal queue ⊆ seqZ 0 (vsize l)).
  { intros o (t & -> & Ht)%list_elem_of_fmap. rewrite Forall_forall in Hm. destruct (Hm t Ht) as (st & Hst & _).
    apply elem_of_seqZ. pose proof (vget_Some_bounds _ _ _ Hst). lia. }
  pose proof (NoDup_submseteq _ _ Hnd Hsub) as Hle%submseteq_length. rewrite length_map, length_seqZ in Hle.
  pose proof (vsize_nonneg l). lia.
Qed.

Lemma queue_ok_mark size queue l l' ordinal m :
  queue_ok size queue l -> ledger_mark l ordinal m = Ok l' -> queue_ok size queue l'.
Proof.
  intros [Hs Hnd Hq] (Hsize & _ & Hkeep)%ledger_mark_marked. split; [congruence|done|].
  eapply Forall_impl; [exact Hq|]. intros t Ht. by apply Hkeep.
Qed.

Lemma queue_ok_push size queue l l' t ordinal :
  queue_ok size queue l -> ledger_contains l ordinal Discovered = Ok false -> ledger_mark l ordinal Discovered = Ok l' ->
  queue_ok size (queue ++ [mkQueued t ordinal]) l'.
Proof.
  intros Hq Hnew Hmark. pose proof (queue_ok_mark _ _ _ _ _ _ Hq Hmark) as [Hs Hnd Hm].
  apply ledger_mark_marked in Hmark as (_ & Hd & _). split; [done|..].
  - rewrite map_app. cbn. apply NoDup_app. split; [done|]. split; [|apply NoDup_singleton].
    intros o Ho ->%list_elem_of_singleton. apply list_elem_of_fmap in Ho as (t' & Ht' & Hin). pose proof (qo_marked _ _ _ Hq) as Hold.
    rewrite Forall_forall in Hold. pose proof (Hold t' Hin) as Hm'. rewrite <- Ht' in Hm'. apply (ledger_contains_Ok _ _ _ _ Hnew) in Hm'. done.
  - apply Forall_app. split; [done|]. apply Forall_singleton. by apply Hd.
Qed.

Lemma queue_children_ok candidate_id children : forall size queue l s s' queue' l',
  queue_ok size queue l -> queue_children candidate_id children queue l s = (s', Ok (queue', l')) -> queue_ok size queue' l'.
Proof.
  induction children as [|child children IH]; intros size queue l s s' queue' l' Hq Hr; cbn in Hr; [simp_M; done|].
  apply M_bind_Ok in Hr as (s1 & g & _ & Hr). apply M_bind_Ok in Hr as (s2 & u & _ & Hr).
  apply M_bind_Ok in Hr as (s3 & d & [-> Hd]%mlift_Ok & Hr). destruct d; [by eapply IH|].
  apply M_bind_Ok in Hr as (s4 & l1 & [-> Hm]%mlift_Ok & Hr). eapply IH; [|exact Hr]. by eapply queue_ok_push.
Qed.

Lemma expand_frame input candidate_id queued assessment q s s' q' :
  expand input candidate_id queued assessment q s = (s', Ok q') ->
  se_cursor q' = se_cursor q /\ se_incumbent q' = se_incumbent q /\ se_targets_evaluated q' = se_targets_evaluated q.
Proof.
  intros Hr. unfold expand in Hr. apply M_bind_Ok in Hr as (s1 & e & _ & Hr). destruct e; [by apply mret_Ok in Hr as [_ ->]|].
  apply M_bind_Ok in Hr as (s2 & prepared & _ & Hr). destruct (_ <? _).
  { apply M_bind_Ok in Hr as (s3 & u & _ & Hr). by apply mret_Ok in Hr as [_ ->]. }
  apply M_bind_Ok in Hr as (s3 & [children n] & _ & Hr). apply M_bind_Ok in Hr as (s4 & l1 & _ & Hr).
  apply M_bind_Ok in Hr as (s5 & [queue l2] & _ & Hr). by apply mret_Ok in Hr as [_ ->].
Qed.

Lemma expand_ok input candidate_id queued assessment q s s' q' size :
  queue_ok size (se_queue q) (se_ledger q) -> expand input candidate_id queued assessment q s = (s', Ok q') ->
  queue_ok size (se_queue q') (se_ledger q').
Proof.
  intros Hq Hr. unfold expand in Hr. apply M_bind_Ok in Hr as (s1 & e & _ & Hr). destruct e; [by apply mret_Ok in Hr as [_ ->]|].
  apply M_bind_Ok in Hr as (s2 & prepared & _ & Hr). destruct (_ <? _).
  { apply M_bind_Ok in Hr as (s3 & u & _ & Hr). by apply mret_Ok in Hr as [_ ->]. }
  apply M_bind_Ok in Hr as (s3 & [children n] & _ & Hr). apply M_bind_Ok in Hr as (s4 & l1 & [-> Hm]%mlift_Ok & Hr).
  apply M_bind_Ok in Hr as (s5 & [queue l2] & Hc & Hr). apply mret_Ok in Hr as [_ ->]. cbn.
  eapply queue_children_ok; [|exact Hc]. by eapply queue_ok_mark.
Qed.

Lemma visit_ok input capture machine_cost candidate_id queued q s s' q' size :
  queue_ok size (se_queue q) (se_ledger q) -> visit input capture machine_cost candidate_id queued q s = (s', Ok q') ->
  queue_ok size (se_queue q') (se_ledger q') /\ se_cursor q' = Datatypes.S (se_cursor q).
Proof.
  intros Hq Hr. unfold visit in Hr. cbn [se_ledger se_queue se_incumbent se_cursor se_canonical_targets se_targets_evaluated] in Hr.
  apply M_bind_Ok in Hr as (s1 & e & _ & Hr). destruct e; [by apply mret_Ok in Hr as [_ ->]|].
  apply M_bind_Ok in Hr as (s2 & [a view] & _ & Hr). apply M_bind_Ok in Hr as (s3 & u & _ & Hr).
  apply M_bind_Ok in Hr as (s4 & l1 & [-> Hm]%mlift_Ok & Hr). apply M_bind_Ok in Hr as (s5 & i & _ & Hr).
  split; [eapply expand_ok; [|exact Hr]; by eapply queue_ok_mark|]. by destruct (expand_frame _ _ _ _ _ _ _ _ Hr).
Qed.

(** With an iteration left for every ledger entry behind the cursor the loop does not run out of fuel. *)
Lemma search_loop_fuel input capture machine_cost candidate_id fuel : forall q s s' r size,
  queue_ok size (se_queue q) (se_ledger q) -> size <= Z.of_nat fuel + Z.of_nat (se_cursor q) ->
  search_loop fuel input capture machine_cost candidate_id q s = (s', Ok r) -> r <> None.
Proof.
  induction fuel as [|fuel IH]; intros q s s' r size Hq Hf Hr; cbn in Hr;
    (destruct (se_queue q !! se_cursor q) as [queued|] eqn:Hat; [|by apply mret_Ok in Hr as [_ ->]]);
    (destruct (_ <? _); [|by apply mret_Ok in Hr as [_ ->]]);
    apply lookup_lt_Some in Hat; pose proof (queue_length _ _ _ Hq); [lia|].
  apply M_bind_Ok in Hr as (s1 & q1 & Hv & Hr). destruct (visit_ok _ _ _ _ _ _ _ _ _ _ Hq Hv) as [Hq1 Hc].
  eapply IH; [exact Hq1| |exact Hr]. lia.
Qed.

Lemma ledger_reset_size n : 0 <= n -> vsize (ledger_reset n) = n.
Proof. intros. unfold ledger_reset, vsize. rewrite length_replicate. lia. Qed.

(** Whatever the session answers, a planning call that returns has searched to the end of its loop. *)
Lemma plan_capture_fuel machine_cost input s s' r :
  plan_capture machine_cost input s = (s', Ok r) -> r <> None.
Proof.
  intros Hr. unfold plan_capture in Hr. apply M_bind_Ok in Hr as (s1 & u & [-> Hv]%mlift_Ok & Hr).
  assert (Hb : 0 < in_target_budget input \/ in_target_budget input < 0).
  { unfold validate in Hv. apply throw_if_Ok in Hv. simp_bool. lia. }
  destruct (in_capture input) as [capture|]; [|done].
  apply M_bind_Ok in Hr as (s2 & session & [-> ->]%mget_Ok & Hr). apply M_bind_Ok in Hr as (s3 & identity & _ & Hr).
  apply M_bind_Ok in Hr as (s4 & guide & _ & Hr). apply M_bind_Ok in Hr as (s5 & u' & _ & Hr).
  apply M_bind_Ok in Hr as (s6 & l & [-> Hm]%mlift_Ok & Hr). apply M_bind_Ok in Hr as (s7 & found & Hs & Hr).
  pose proof (ledger_mark_Ok _ _ _ _ Hm) as (st & Hst & _). pose proof (vget_Some_bounds _ _ _ Hst) as Hst'.
  assert (Hsize : vsize (ledger_reset (in_target_budget input + 1)) = in_target_budget input + 1).
  { apply ledger_reset_size. unfold ledger_reset, vsize in Hst'. rewrite length_replicate in Hst'. lia. }
  assert (Hfound : found <> None).
  { eapply (search_loop_fuel _ _ _ _ _ _ _ _ _ (in_target_budget input + 1)); [| |exact Hs]; cbn.
    - apply ledger_mark_marked in Hm as (Hs1 & Hd & _). split; [congruence|apply NoDup_singleton|]. apply Forall_singleton. by apply Hd.
    - unfold search_fuel. lia. }
  destruct found as [q|]; [|done]. destruct (se_incumbent q); [|by apply mret_Ok in Hr as [_ ->]].
  apply M_bind_Ok in Hr as (s8 & pr & _ & Hr). destruct pr; [by apply mret_Ok in Hr as [_ ->]|done].
Qed.
End Termination.

(** * The search keeps the best target

    To speak of the targets a search has assessed, the session is wrapped in one
    that notes every assessment it hands out. The planner behaves the same with
    both. *)
Section Log.
Context {S T A E P : Type} `{!CaptureSession S T A E P}.
Notation log := (list PressureTargetAssessment).

Definition lift_log {X} (m : M S X) : M (S * log) X := fun sl => let '(s', r) := m (fst sl) in ((s', snd sl), r).

Definition logged : CaptureSession (S * log) T A E P := {|
  cs_candidate_id := fun sl => cs_candidate_id (fst sl);
  cs_identity_target := lift_log cs_identity_target;
  cs_guidance := fun t => lift_log (cs_guidance t);
  cs_assess := fun t sl =>
    let '(s', r) := cs_assess t (fst sl) in
    ((s', match r with Ok (_, view) => snd sl ++ [view] | Err _ => snd sl end), r);
  cs_prepare_expansion := fun t => lift_log (cs_prepare_expansion t);
  cs_new_canonical_count := cs_new_canonical_count;
  cs_discard_expansion := fun e => lift_log (cs_discard_expansion e);
  cs_commit_expansion := fun e => lift_log (cs_commit_expansion e);
  cs_seal := fun a => lift_log (cs_seal a);
|}.

(** [ml] does to the session what [m] does. *)
Definition same_run {X} (ml : M (S * log) X) (m : M S X) : Prop :=
  forall s l, exists l', ml (s, l) = ((fst (m s), l'), snd (m s)).

Lemma same_bind {X Y} (ml : M (S * log) X) m (fl : X -> M (S * log) Y) f :
  same_run ml m -> (forall x, same_run (fl x) (f x)) -> same_run (ml ≫= fl) (m ≫= f).
Proof.
  intros Hm Hf s l. destruct (Hm s l) as [l1 E1]. unfold mbind, M_bind. rewrite E1. destruct (m s) as [s1 [x|e]]; cbn; [apply Hf|by eexists].
Qed.

Lemma same_lift_log {X} (m : M S X) : same_run (lift_log m) m.
Proof. intros s l. exists l. unfold lift_log. cbn. by destruct (m s). Qed.
Lemma same_ret {X} (x : X) : same_run (mret x) (mret x).
Proof. intros s l. by exists l. Qed.
Lemma same_lift {X} (r : result X) : same_run (mlift r) (mlift r).
Proof. intros s l. by exists l. Qed.
Lemma same_throw_if c e : same_run (mthrow_if c e) (mthrow_if c e).
Proof. intros s l. by exists l. Qed.
Lemma same_throw {X} e : same_run (mthrow e : M _ X) (mthrow e).
Proof. intros s l. by exists l. Qed.
Lemma same_assess t : same_run (@cs_assess _ _ _ _ _ logged t) (cs_assess t).
Proof. intros s l. cbn. destruct (cs_assess t s) as [s' r]. by eexists. Qed.

Create HintDb same discriminated.
#[local] Hint Resolve same_lift_log same_ret same_lift same_throw_if same_throw same_assess : same.
#[local] Ltac same_call := first [solve [auto with same] | apply same_assess | apply same_lift_log].
#[local] Ltac same_step := first [apply same_bind; [same_call|intros ?] | solve [auto with same] | case_match].

Lemma same_queue_children candidate_id children : forall queue l,
  same_run (@queue_children _ _ _ _ _ logged candidate_id children queue l) (queue_children candidate_id children queue l).
Proof.
  induction children as [|child children IH]; intros queue l; cbn [queue_children]; repeat same_step; apply IH.
Qed.

Lemma same_search_loop input capture machine_cost candidate_id fuel : forall q,
  same_run (@search_loop _ _ _ _ _ logged fuel input capture machine_cost candidate_id q)
    (search_loop fuel input capture machine_cost candidate_id q).
Proof.
  induction fuel as [|fuel IH]; intros q; cbn [search_loop]; repeat case_match; auto with same.
  apply same_bind; [|intros ?; apply IH]. unfold visit. same_step. case_match; [auto with same|]. same_step. case_match. do 3 same_step.
  unfold expand. same_step. case_match; [auto with same|]. same_step. cbn [cs_new_canonical_count logged]. case_match; [repeat same_step|].
  same_step. case_match. same_step. apply same_bind; [apply same_queue_children|]. intros [? ?]. auto with same.
Qed.

Lemma same_get {Y} (fl : S * log -> M (S * log) Y) (f : S -> M S Y) :
  (forall s l, same_run (fl (s, l)) (f s)) -> same_run (mget ≫= fl) (mget ≫= f).
Proof. intros Hf s l. exact (Hf s l s l). Qed.

(** The notes do not change what the planner does. *)
Lemma same_plan machine_cost input :
  same_run (@plan_capture _ _ _ _ _ logged machine_cost input) (plan_capture machine_cost input).
Proof.
  unfold plan_capture. same_step. destruct (in_capture input) as [capture|]; [|auto with same].
  apply same_get. intros s0 l0. cbn [cs_candidate_id logged fst]. do 4 same_step.
  apply same_bind; [apply same_search_loop|]. intros [q|]; [|auto with same].
  destruct (se_incumbent q); [|auto with same]. same_step. case_match; auto with same.
Qed.

(** ** The incumbent *)
Context (input : Input) (capture : CaptureAssessment) (machine_cost : ContextMachineCostModel).

Definition assessment_rank (v : TransitionValue) (a : PressureTargetAssessment) : list Z :=
  capture_rank input (tv_gain v) (as_degradation_units a) (as_dropped_checkpoints a) (as_stable_target_ordinal a).

(** Among the noted feasible targets none has a positive value, *)
Definition none_positive (l : log) : Prop :=
  Forall (fun a => feasible a = true -> exists v, fold_target input capture machine_cost a = Ok v /\ tv_positive v = false) l.

(** or [a], of value [v], is one with positive value and no other ranks above it. *)
Definition best_of (l : log) (a : PressureTargetAssessment) (v : TransitionValue) : Prop :=
  a ∈ l /\ feasible a = true /\ fold_target input capture machine_cost a = Ok v /\ tv_positive v = true /\
  Forall (fun a' => feasible a' = true -> exists v', fold_target input capture machine_cost a' = Ok v' /\
            (tv_positive v' = true -> lex_lt (assessment_rank v a) (assessment_rank v' a') = false)) l.

Definition incumbent_ok (l : log) (incumbent : option (@Incumbent T A)) : Prop :=
  match incumbent with
  | None => none_positive l
  | Some i => exists a, best_of l a (ic_value i) /\ ic_stable_target i = as_stable_target_ordinal a /\
      ic_degradation_units i = as_degradation_units a /\ ic_dropped_checkpoints i = as_dropped_checkpoints a
  end.

Lemma update_incumbent_ok l target assessed view incumbent incumbent' :
  incumbent_ok l incumbent -> update_incumbent input capture machine_cost target assessed view incumbent = Ok incumbent' ->
  incumbent_ok (l ++ [view]) incumbent'.
Proof.
  intros Hi Hu. unfold update_incumbent in Hu. destruct (feasible view) eqn:Hf.
  2:{ injection Hu as <-. destruct incumbent as [i|]; cbn in *.
      - destruct Hi as (a & (Hin & Hfa & Hv & Hp & Hall) & Hr). exists a. split; [|done]. split; [set_solver|]. do 3 (split; [done|]).
        apply Forall_app. split; [done|]. apply Forall_singleton. congruence.
      - apply Forall_app. split; [done|]. apply Forall_singleton. congruence. }
  apply bind_Ok in Hu as (v & Hv & Hu). injection Hu as <-. destruct (tv_positive v) eqn:Hp; cbn [andb].
  2:{ destruct incumbent as [i|]; cbn in *.
      - destruct Hi as (a & (Hin & Hfa & Hva & Hpa & Hall) & Hr). exists a. split; [|done]. split; [set_solver|]. do 3 (split; [done|]).
        apply Forall_app. split; [done|]. apply Forall_singleton. intros _. exists v. split; [done|]. congruence.
      - apply Forall_app. split; [done|]. apply Forall_singleton. intros _. by exists v. }
  destruct incumbent as [i|]; cbn [incumbent_ok] in *.
  - destruct Hi as (a & (Hin & Hfa & Hva & Hpa & Hall) & Hr1 & Hr2 & Hr3). unfold better. rewrite Hr1, Hr2, Hr3.
    change (lex_lt _ _) with (lex_lt (assessment_rank (ic_value i) a) (assessment_rank v view)).
    destruct (lex_lt (assessment_rank (ic_value i) a) (assessment_rank v view)) eqn:Hlt.
    + exists view. split; [|done]. split; [set_solver|]. do 3 (split; [done|]). apply Forall_app. split.
      * eapply Forall_impl; [exact Hall|]. intros a' Ha' Hf'. destruct (Ha' Hf') as (v' & Hv' & Hle). exists v'. split; [done|].
        intros Hp'. specialize (Hle Hp'). destruct (lex_lt (assessment_rank v view) (assessment_rank v' a')) eqn:E'; [|done].
        rewrite (lex_lt_trans _ _ _ Hlt E') in Hle. done.
      * apply Forall_singleton. intros _. exists v. split; [done|]. intros _. apply lex_lt_irrefl.
    + exists a. split; [|done]. split; [set_solver|]. do 3 (split; [done|]). apply Forall_app. split; [done|].
      apply Forall_singleton. intros _. by exists v.
  - exists view. split; [|done]. split; [set_solver|]. do 3 (split; [done|]). apply Forall_app. split.
    + eapply Forall_impl; [exact Hi|]. intros a' Ha' Hf'. destruct (Ha' Hf') as (v' & Hv' & Hn). exists v'. split; [done|]. congruence.
    + apply Forall_singleton. intros _. exists v. split; [done|]. intros _. apply lex_lt_irrefl.
Qed.

(** ** Calls that note nothing *)
Definition keeps_log {X} (m : M (S * log) X) : Prop := forall sl, snd (fst (m sl)) = snd sl.

Lemma keeps_run {X} (m : M (S * log) X) sl sl' r : keeps_log m -> m sl = (sl', r) -> snd sl' = snd sl.
Proof. intros Hk Hm. pose proof (Hk sl) as Hl. rewrite Hm in Hl. exact Hl. Qed.

Lemma keeps_bind {X Y} (m : M (S * log) X) (f : X -> M (S * log) Y) :
  keeps_log m -> (forall x, keeps_log (f x)) -> keeps_log (m ≫= f).
Proof.
  intros Hm Hf sl. unfold mbind, M_bind. pose proof (Hm sl) as Hl. destruct (m sl) as [sl1 [x|e]]; cbn in *; [|done]. rewrite <- Hl. apply Hf.
Qed.

Lemma keeps_lift_log {X} (m : M S X) : keeps_log (lift_log m).
Proof. intros sl. unfold lift_log. by destruct (m (fst sl)). Qed.
Lemma keeps_pure {X} (r : result X) : keeps_log (mlift r).
Proof. by intros sl. Qed.

#[local] Ltac keeps_call := first [apply keeps_lift_log | apply keeps_pure].
#[local] Ltac keeps_step := first [apply keeps_bind; [keeps_call|intros ?] | solve [by intros ?] | case_match].

Lemma keeps_queue_children candidate_id children : forall queue l,
  keeps_log (@queue_children _ _ _ _ _ logged candidate_id children queue l).
Proof.
  induction children as [|child children IH]; intros queue l; cbn [queue_children]; [by intros ?|].
  do 3 keeps_step. case_match; [apply IH|]. keeps_step. apply IH.
Qed.

Lemma keeps_expand candidate_id queued view q : keeps_log (@expand _ _ _ _ _ logged input candidate_id queued view q).
Proof.
  unfold expand. keeps_step. case_match; [by intros ?|]. keeps_step. case_match; [repeat keeps_step|]. keeps_step. case_match. keeps_step.
  apply keeps_bind; [apply keeps_queue_children|]. intros [? ?]. by intros ?.
Qed.

(** ** The whole search *)
Record search_ok (l : log) (q : @search T A) : Prop := {
  sr_incumbent : incumbent_ok l (se_incumbent q);
  sr_evaluated : se_targets_evaluated q = vsize l;
}.

Lemma visit_search_ok candidate_id queued q sl sl' q' :
  search_ok (snd sl) q -> 0 <= in_target_budget input <= kTargetBudget -> se_targets_evaluated q < in_target_budget input ->
  @visit _ _ _ _ _ logged input capture machine_cost candidate_id queued q sl = (sl', Ok q') ->
  search_ok (snd sl') q' /\ 0 <= se_targets_evaluated q' <= in_target_budget input.
Proof.
  intros [Hi He] Hb Hlt Hr. pose proof (vsize_nonneg (snd sl)) as Hn. unfold visit in Hr.
  cbn [se_ledger se_queue se_incumbent se_cursor se_canonical_targets se_targets_evaluated] in Hr.
  apply M_bind_Ok in Hr as (s1 & e & [-> _]%mlift_Ok & Hr). destruct e; [apply mret_Ok in Hr as [-> ->]; by split; [split|cbn; lia]|].
  apply M_bind_Ok in Hr as (s2 & [a view] & Ha & Hr). apply M_bind_Ok in Hr as (s3 & u & [-> _]%mthrow_if_Ok & Hr).
  apply M_bind_Ok in Hr as (s4 & l1 & [-> _]%mlift_Ok & Hr). apply M_bind_Ok in Hr as (s5 & i & [-> Hu]%mlift_Ok & Hr).
  assert (E2 : snd s2 = snd sl ++ [view]).
  { cbn in Ha. destruct (cs_assess (qt_target queued) (fst sl)) as [s' r]. injection Ha as <- ->. done. }
  pose proof (keeps_expand candidate_id queued view
    (mkSearch (se_queue q) l1 i (se_canonical_targets q) (wrap32 (se_targets_evaluated q + 1)) (Datatypes.S (se_cursor q))) s2) as Ek.
  rewrite Hr in Ek. cbn in Ek. destruct (expand_frame _ _ _ _ _ _ _ _ Hr) as (_ & Hi' & He'). cbn in Hi', He'.
  unfold kTargetBudget in Hb. rewrite wrap32_small in He' by (unfold U32_MAX; lia). rewrite Ek, E2, He'. split; [|lia]. split.
  - rewrite Hi'. by eapply update_incumbent_ok.
  - rewrite He', vsize_app. change (vsize [view]) with 1. lia.
Qed.

Lemma search_loop_ok candidate_id fuel : forall q sl sl' q',
  search_ok (snd sl) q -> 0 <= in_target_budget input <= kTargetBudget -> 0 <= se_targets_evaluated q <= in_target_budget input ->
  @search_loop _ _ _ _ _ logged fuel input capture machine_cost candidate_id q sl = (sl', Ok (Some q')) ->
  search_ok (snd sl') q' /\ se_targets_evaluated q' <= in_target_budget input.
Proof.
  induction fuel as [|fuel IH]; intros q sl sl' q' Hq Hb He Hr; cbn in Hr;
    (destruct (se_queue q !! se_cursor q) as [queued|]; [|apply mret_Ok in Hr as [-> [= ->]]; split; [done|lia]]);
    (destruct (Z.ltb_spec (se_targets_evaluated q) (in_target_budget input)); [|apply mret_Ok in Hr as [-> [= ->]]; split; [done|lia]]); [done|].
  apply M_bind_Ok in Hr as (sl1 & q1 & Hv & Hr). destruct (visit_search_ok _ _ _ _ _ _ Hq Hb ltac:(lia) Hv) as [Hq1 He1].
  eapply IH; [exact Hq1|done|exact He1|exact Hr].
Qed.
End Log.

(** * What a positive value means *)
Lemma saturating_multiply_sat x k : 0 <= x -> 0 <= k -> saturating_multiply x k = sat (x * k).
Proof.
  intros Hx Hk. unfold saturating_multiply, sat. destruct (Z.eqb_spec k 0) as [->|]; cbn [negb andb].
  { rewrite Z.mul_0_r. rewrite wrap64_small by done. unfold U64_MAX. lia. }
  destruct (Z.ltb_spec (U64_MAX / k) x).
  - assert (U64_MAX < x * k); [|lia]. apply Z.lt_nge. intros Hle. assert (x <= U64_MAX / k); [|lia]. apply Z.div_le_lower_bound; lia.
  - pose proof (Z.mul_div_le U64_MAX k ltac:(lia)). rewrite wrap64_small by nia. nia.
Qed.

(** The machine time the change adds, over all requests it keeps waiting. *)
Definition added_machine_time (input : Input) (immediate_ns : Z) : Z :=
  Z.max 0 ((immediate_ns - in_private_baseline_immediate_ns input) * (in_blocked_runnable_requests input + 1)).

(** A positive value is a real gain: nothing was cut, and the public value after the change exceeds
    the value before it plus the private loss plus the added machine time by exactly the gain. *)
Lemma transition_positive input owners checkpoints immediate_ns :
  0 <= in_blocked_runnable_requests input -> 0 <= in_private_baseline_immediate_ns input -> 0 <= immediate_ns ->
  Forall (fun o => 0 <= op_private_retention_weight o) owners ->
  let v := transition_value input (portfolio_of owners checkpoints) immediate_ns in
  tv_positive v = true ->
  0 < tv_gain v /\
  tv_gain v = public_value target_saving owners checkpoints - public_value baseline_saving owners checkpoints -
              private_loss owners checkpoints - added_machine_time input immediate_ns.
Proof.
  intros Hr Hb Hi Hw v Hp. subst v.
  assert (Hpub : forall value, 0 <= public_value value owners checkpoints).
  { intros value. unfold public_value. apply Z.add_nonneg_nonneg; apply zsum_nonneg, Forall_map, Forall_forall; intros x _; cbn; [apply zmax_nonneg|].
    destruct (op_explicit_shared_credit x); [apply owner_value_nonneg|done]. }
  assert (Hloss : 0 <= private_loss owners checkpoints).
  { apply zsum_nonneg, Forall_map. eapply Forall_impl; [exact Hw|]. intros o Ho. cbn in *.
    pose proof (owner_value_nonneg checkpoint_loss checkpoints (op_owner o)). nia. }
  pose proof (Hpub baseline_saving) as Hpb. pose proof (Hpub target_saving) as Hpt.
  revert Hp. unfold transition_value, portfolio_of.
  cbn [pv_baseline_public_value pv_target_public_value pv_private_transition_loss pv_saturated].
  rewrite !saturating_multiply_sat by lia. set (pb := public_value baseline_saving owners checkpoints) in *.
  set (pt := public_value target_saving owners checkpoints) in *. set (pl := private_loss owners checkpoints) in *.
  set (ti := immediate_ns * _). set (bi := in_private_baseline_immediate_ns input * _).
  assert (Hti : 0 <= ti) by (unfold ti; nia). assert (Hbi : 0 <= bi) by (unfold bi; nia).
  assert (Hadded : added_machine_time input immediate_ns = Z.max 0 (ti - bi)) by (unfold added_machine_time, ti, bi; f_equal; lia).
  clearbody pb pt pl ti bi. set (imm := if sat bi <? sat ti then _ else _).
  assert (Himm : imm = Z.max 0 (sat ti - sat bi)) by (unfold imm; destruct (Z.ltb_spec (sat bi) (sat ti)); lia).
  set (rest := (U64_MAX <? pt) || (U64_MAX <? pl) || (sat ti =? U64_MAX) || (sat bi =? U64_MAX)).
  assert (Hflag : (U64_MAX <? pb) || (U64_MAX <? pt) || (U64_MAX <? pl) || (sat ti =? U64_MAX) || (sat bi =? U64_MAX) = (U64_MAX <? pb) || rest)
    by (unfold rest; by rewrite !orb_assoc).
  assert (Hspl : 0 <= sat pl) by (unfold sat, U64_MAX; lia).
  rewrite Hflag, portfolio_add_sat, portfolio_add_sat by lia. cbn [tv_positive tv_gain]. intros Hp. rewrite Hp.
  apply andb_true_iff in Hp as [Hn Hlt]. apply negb_true_iff, orb_false_iff in Hn as [Hsmall Hrest]. unfold rest in Hrest. simp_bool.
  rewrite Hadded, Himm. unfold sat, U64_MAX in *. lia.
Qed.

Record input_ok (input : Input) : Prop := {
  io_weights : Forall (fun p => 0 <= wp_private_retention_weight p) (in_owner_policies input);
  io_blocked : 0 <= in_blocked_runnable_requests input;
  io_baseline : 0 <= in_private_baseline_immediate_ns input;
}.

Lemma saturating_add_nonneg l r : 0 <= saturating_add l r.
Proof. unfold saturating_add. case_match; [done|]. unfold wrap64. apply Z.mod_pos_bound. lia. Qed.

Lemma immediate_nonneg m w : 0 <= pr_immediate_ns (price_materialization_machine_work m w).
Proof. unfold price_materialization_machine_work. case_match. apply saturating_add_nonneg. Qed.

(** The gain of a target over skipping the capture, in exact arithmetic. *)
Definition exact_gain (input : Input) (capture : CaptureAssessment) (m : ContextMachineCostModel) (candidate : Z)
    (impacts : list CombinedImpact) (a : PressureTargetAssessment) : Z :=
  let owners := portfolio_owners input capture candidate in
  let checkpoints := portfolio_checkpoints input capture m candidate impacts in
  public_value target_saving owners checkpoints - public_value baseline_saving owners checkpoints - private_loss owners checkpoints -
  added_machine_time input (pr_immediate_ns (price_materialization_machine_work m (as_machine_work a))).

Lemma fold_target_positive input capture m a v :
  input_ok input -> fold_target input capture m a = Ok v -> tv_positive v = true ->
  exists candidate impacts, next_candidate_owner (in_owner_policies input) = Ok candidate /\
    rfor (combine_impact input m) [] (as_checkpoint_impacts a) = Ok impacts /\
    0 < tv_gain v /\ tv_gain v = exact_gain input capture m candidate impacts a.
Proof.
  intros [Hw Hb Hi] Hv Hp. unfold fold_target in Hv. apply bind_Ok in Hv as (impacts & Him & Hv).
  apply bind_Ok in Hv as (candidate & Hc & Hv). apply bind_Ok in Hv as (portfolio & Hf & Hv). injection Hv as <-.
  exists candidate, impacts. split; [done|]. split; [done|].
  assert (Hweights : Forall (fun o => 0 <= op_private_retention_weight o) (portfolio_owners input capture candidate)).
  { unfold portfolio_owners. apply Forall_app. split; [|by apply Forall_singleton]. apply Forall_map. exact Hw. }
  rewrite portfolio_fold_spec in Hf by done. case_decide; [|done]. injection Hf as <-.
  exact (transition_positive input _ _ _ Hb Hi (immediate_nonneg m (as_machine_work a)) Hweights Hp).
Qed.

(** ** When the fold returns *)

(** The portfolio of the input: owners below the largest number, listed once,
    and every checkpoint of a listed owner. *)
Record portfolio_ok (input : Input) : Prop := {
  pf_weights : Forall (fun p => 0 <= wp_private_retention_weight p) (in_owner_policies input);
  pf_owners : Forall (fun p => 0 <= wp_owner p < U32_MAX) (in_owner_policies input);
  pf_distinct : NoDup (map wp_owner (in_owner_policies input));
  pf_checkpoints : Forall (fun k => kp_owner k ∈ map wp_owner (in_owner_policies input)) (in_checkpoint_policies input);
}.

Definition impact_key (impact : PressureCheckpointRecoveryImpact) : Z * CheckpointRef := (pi_owner impact, pi_checkpoint impact).

(** The impacts of an assessment: on checkpoints of the portfolio, each once,
    and with a way to recover. *)
Record impacts_ok (input : Input) (assessment : PressureTargetAssessment) : Prop := {
  im_policy : Forall (fun i => impact_key i ∈ map (fun k => (kp_owner k, kp_checkpoint k)) (in_checkpoint_policies input))
                (as_checkpoint_impacts assessment);
  im_distinct : NoDup (map impact_key (as_checkpoint_impacts assessment));
  im_work : Forall (fun i => pi_target_recovery_work i <> []) (as_checkpoint_impacts assessment);
}.

Lemma checkpoint_policy_found policies owner checkpoint :
  (owner, checkpoint) ∈ map (fun k => (kp_owner k, kp_checkpoint k)) policies ->
  exists k, checkpoint_policy_for policies owner checkpoint = Some k.
Proof.
  intros (k & E & Hk)%list_elem_of_fmap. injection E as -> ->. unfold checkpoint_policy_for.
  destruct (List.find _ policies) as [k'|] eqn:Ef; [by exists k'|]. apply list_elem_of_In in Hk.
  pose proof (List.find_none _ _ Ef k Hk) as H. unfold policy_matches in H.
  by rewrite Z.eqb_refl, bool_decide_eq_true_2 in H.
Qed.

Lemma combine_impacts_Ok input m ims : forall scratch,
  Forall (fun i => impact_key i ∈ map (fun k => (kp_owner k, kp_checkpoint k)) (in_checkpoint_policies input)) ims ->
  NoDup (map impact_key ims) -> Forall (fun i => pi_target_recovery_work i <> []) ims ->
  Forall (fun i => impact_key i ∉ map (fun c => (cb_owner c, cb_checkpoint c)) scratch) ims ->
  exists impacts, rfor (combine_impact input m) scratch ims = Ok impacts.
Proof.
  induction ims as [|i ims IH]; intros scratch Hp Hd Hw Hs; [by eexists|]. cbn [rfor].
  apply Forall_cons_1 in Hp as [Hp1 Hp]. apply Forall_cons_1 in Hw as [Hw1 Hw]. apply Forall_cons_1 in Hs as [Hs1 Hs].
  apply NoDup_cons in Hd as [Hd1 Hd]. destruct (checkpoint_policy_found _ _ _ Hp1) as [k Hk].
  unfold combine_impact at 2. rewrite Hk. destruct (existsb _ scratch) eqn:E.
  { exfalso. apply Hs1. apply existsb_exists in E as (c & Hc%list_elem_of_In & Hm). unfold impact_matches in Hm.
    apply andb_prop in Hm as [Ho%Z.eqb_eq Hcp%bool_decide_eq_true]. apply list_elem_of_fmap. exists c. unfold impact_key. by rewrite Ho, Hcp. }
  destruct (pi_target_recovery_work i); [done|]. cbn [mbind result_bind]. apply IH; [done..|].
  rewrite Forall_forall in Hs. apply Forall_forall. intros j Hj. rewrite map_app, elem_of_app. intros [Hin|Hin]; [by apply (Hs j)|].
  apply list_elem_of_singleton in Hin. cbn in Hin. apply Hd1. change (impact_key j = impact_key i) in Hin. rewrite <- Hin.
  by apply list_elem_of_fmap_2.
Qed.

Lemma next_candidate_owner_Ok policies : forall value,
  Forall (fun p => 0 <= wp_owner p < U32_MAX) policies ->
  exists c, next_candidate_owner_from value policies = Ok c /\ value <= c /\ Forall (fun p => wp_owner p < c) policies.
Proof.
  induction policies as [|p policies IH]; intros value H; cbn [next_candidate_owner_from].
  { exists value. split; [done|]. split; [lia|constructor]. }
  apply Forall_cons_1 in H as [Hp H]. rewrite (proj2 (Z.eqb_neq _ _)) by lia. cbn [throw_if mbind result_bind].
  destruct (IH (Z.max value (wp_owner p + 1)) H) as (c & Hc & Hle & Hall). exists c. split; [done|]. split; [lia|].
  constructor; [lia|done].
Qed.

(** The fold of a target returns, whatever the numbers are. *)
Lemma fold_target_returns input capture m a :
  portfolio_ok input -> impacts_ok input a -> exists value, fold_target input capture m a = Ok value.
Proof.
  intros [Hw Ho Hd Hk] [I1 I2 I3].
  destruct (combine_impacts_Ok input m (as_checkpoint_impacts a) [] I1 I2 I3) as [impacts Him].
  { apply Forall_forall. intros i _. apply not_elem_of_nil. }
  destruct (next_candidate_owner_Ok (in_owner_policies input) 0 Ho) as (c & Hc & _ & Hlt).
  unfold fold_target, next_candidate_owner. rewrite Him, Hc. cbn [mbind result_bind].
  assert (Eo : map op_owner (portfolio_owners input capture c) = map wp_owner (in_owner_policies input) ++ [c])
    by (unfold portfolio_owners; by rewrite map_app, map_map).
  rewrite portfolio_fold_spec, decide_True.
  - by eexists.
  - split; rewrite Eo.
    + apply NoDup_app. split; [done|]. split; [|apply NoDup_singleton]. intros x (p & Ex & Hp)%list_elem_of_fmap Hx%list_elem_of_singleton.
      rewrite Forall_forall in Hlt. specialize (Hlt p Hp). cbn in Hlt. lia.
    + unfold portfolio_checkpoints. apply Forall_app. split.
      * apply Forall_map. eapply Forall_impl; [exact Hk|]. intros k Hkk. cbn. apply elem_of_app. by left.
      * apply Forall_singleton. cbn. apply elem_of_app. right. by apply list_elem_of_singleton.
  - unfold portfolio_owners. apply Forall_app. split; [by apply Forall_map|by apply Forall_singleton].
Qed.

(** * Planning does not fail *)
Lemma run_guard {S B} e (f : unit -> M S B) s : (mthrow_if false e ≫= f) s = f tt s.
Proof. done. Qed.
Lemma run_lift {S X B} (x : X) (f : X -> M S B) s : (mlift (Ok x) ≫= f) s = f x s.
Proof. done. Qed.

(** What the planner relies on in a session: calls return, targets keep their ordinals below the
    number of canonical targets, an expansion adds as many as it announced, and a target assessed as
    feasible has the impacts [valued] asks for and can be sealed later. [known], [sealable] and [canonical] are views of the session state. *)
Section Laws.
Context {S T A E P : Type} `{!CaptureSession S T A E P}.
Context (inv : S -> Prop) (canonical : S -> Z) (ordinal : T -> Z) (known : S -> T -> Prop) (sealable : S -> A -> Prop).

(** A later state of the same session. *)
Record extends (s s' : S) : Prop := {
  ex_inv : inv s';
  ex_candidate : cs_candidate_id s' = cs_candidate_id s;
  ex_known : forall t, known s t -> known s' t;
  ex_sealable : forall a, sealable s a -> sealable s' a;
}.

Record session_laws (valued : PressureTargetAssessment -> Prop) : Prop := {
  sl_ordinal : forall s t, inv s -> known s t -> 0 <= ordinal t < canonical s;
  sl_identity : forall s, inv s -> exists s' t, cs_identity_target s = (s', Ok t) /\ extends s s' /\ canonical s' = canonical s /\ known s' t;
  sl_guidance : forall s t, inv s -> known s t -> exists s' g, cs_guidance t s = (s', Ok g) /\ extends s s' /\ canonical s' = canonical s /\
    gd_candidate g = cs_candidate_id s /\ gd_stable_target_ordinal g = ordinal t;
  sl_assess : forall s t, inv s -> known s t -> exists s' a v, cs_assess t s = (s', Ok (a, v)) /\ extends s s' /\ canonical s' = canonical s /\
    as_candidate v = cs_candidate_id s /\ as_stable_target_ordinal v = ordinal t /\ (feasible v = true -> sealable s' a /\ valued v);
  sl_expand : forall s t, inv s -> known s t -> exists s1 e, cs_prepare_expansion t s = (s1, Ok e) /\ extends s s1 /\ canonical s1 = canonical s /\
    0 <= cs_new_canonical_count e /\
    (exists s2, cs_discard_expansion e s1 = (s2, Ok tt) /\ extends s1 s2 /\ canonical s2 = canonical s1) /\
    (exists s2 children, cs_commit_expansion e s1 = (s2, Ok (children, cs_new_canonical_count e)) /\ extends s1 s2 /\
       canonical s2 = canonical s1 + cs_new_canonical_count e /\ Forall (known s2) children);
  sl_seal : forall s a, inv s -> sealable s a -> exists s' p, cs_seal a s = (s', Ok (Some p));
}.

Context (input : Input) (capture : CaptureAssessment) (machine_cost : ContextMachineCostModel).
Hypothesis Hlaws : session_laws (impacts_ok input).
Hypothesis Hportfolio : portfolio_ok input.
Hypothesis Hbudget : 0 < in_target_budget input <= kTargetBudget.

Lemma extends_trans s1 s2 s3 : extends s1 s2 -> extends s2 s3 -> extends s1 s3.
Proof using Type. intros [H1 H2 H3 H4] [K1 K2 K3 K4]. split; [done|congruence|auto|auto]. Qed.

(** A queued target is a target of the session, listed under its ordinal. *)
Definition queued_ok (s : S) (t : @QueuedTarget T) : Prop := known s (qt_target t) /\ qt_ordinal t = ordinal (qt_target t).

Record plan_ok (candidate_id : Z) (s : S) (queue : list (@QueuedTarget T)) (ledger : BoundedTargetLedger) (canonicals : Z) : Prop := {
  po_inv : inv s;
  po_candidate : cs_candidate_id s = candidate_id;
  po_ledger : vsize ledger = in_target_budget input + 1;
  po_canonical : canonicals = canonical s;
  po_budget : canonical s <= in_target_budget input;
  po_queue : Forall (queued_ok s) queue;
}.

Lemma ledger_calls ledger o m :
  0 <= o < vsize ledger ->
  (exists b, ledger_contains ledger o m = Ok b) /\ (exists l', ledger_mark ledger o m = Ok l' /\ vsize l' = vsize ledger).
Proof using Type.
  intros Ho. destruct (vget_is_Some ledger o Ho) as [st Hst]. unfold ledger_contains, ledger_mark, require_ordinal, throw_if, vat.
  rewrite (proj2 (Z.leb_gt _ _)), Hst by lia. split; [by eexists|]. eexists. split; [done|]. apply vsize_vset.
Qed.

Lemma plan_ok_extends candidate_id s s' queue ledger canonicals :
  plan_ok candidate_id s queue ledger canonicals -> extends s s' -> canonical s' = canonical s -> plan_ok candidate_id s' queue ledger canonicals.
Proof using Type.
  intros [H1 H2 H3 H4 H5 H6] [K1 K2 K3 K4] Hc. split; try done; try congruence.
  eapply Forall_impl; [exact H6|]. intros t [Ht Ho]. split; [by apply K3|done].
Qed.

(** A mark of a known target. *)
Lemma plan_ok_mark candidate_id s queue ledger canonicals t m :
  plan_ok candidate_id s queue ledger canonicals -> known s t ->
  (exists b, ledger_contains ledger (ordinal t) m = Ok b) /\
  (exists l', ledger_mark ledger (ordinal t) m = Ok l' /\ plan_ok candidate_id s queue l' canonicals).
Proof using Hlaws.
  intros [H1 H2 H3 H4 H5 H6] Ht. pose proof (sl_ordinal _ Hlaws s t H1 Ht).
  destruct (ledger_calls ledger (ordinal t) m ltac:(lia)) as [Hb (l' & Hl & Hs)]. split; [done|]. exists l'. split; [done|]. split; try done. congruence.
Qed.

Lemma queue_children_total candidate_id children : forall s queue ledger canonicals,
  plan_ok candidate_id s queue ledger canonicals -> Forall (known s) children ->
  exists s' queue' ledger', queue_children candidate_id children queue ledger s = (s', Ok (queue', ledger')) /\
    extends s s' /\ plan_ok candidate_id s' queue' ledger' canonicals.
Proof using Hlaws.
  induction children as [|child children IH]; intros s queue ledger canonicals Hp Hk; cbn [queue_children].
  { exists s, queue, ledger. split; [done|]. split; [|done]. split; try done. apply Hp. }
  apply Forall_cons_1 in Hk as [Hk Hks]. pose proof (po_inv _ _ _ _ _ Hp) as Hi.
  destruct (sl_guidance _ Hlaws s child Hi Hk) as (s1 & g & Hg & Hx & Hc & Hgc & Hgo).
  rewrite (M_bind_run _ _ _ _ _ Hg). rewrite Hgc, (po_candidate _ _ _ _ _ Hp), Z.eqb_refl. cbn [negb].
  rewrite run_guard, Hgo.
  pose proof (plan_ok_extends _ _ _ _ _ _ Hp Hx Hc) as Hp1. pose proof (ex_known _ _ Hx child Hk) as Hk1.
  destruct (plan_ok_mark _ _ _ _ _ child Discovered Hp1 Hk1) as [[b Hb] (l' & Hl & Hp2)].
  assert (Hks1 : Forall (known s1) children) by (eapply Forall_impl; [exact Hks|]; apply (ex_known _ _ Hx)).
  rewrite Hb, run_lift. destruct b.
  - destruct (IH s1 queue ledger canonicals Hp1 Hks1) as (s' & q' & l2 & E' & Hx' & Hp').
    exists s', q', l2. split; [done|]. split; [by eapply extends_trans|done].
  - rewrite Hl, run_lift.
    assert (Hp3 : plan_ok candidate_id s1 (queue ++ [mkQueued child (ordinal child)]) l' canonicals).
    { destruct Hp2 as [K1 K2 K3 K4 K5 K6]. split; try done. apply Forall_app. split; [done|]. by apply Forall_singleton. }
    destruct (IH s1 _ l' canonicals Hp3 Hks1) as (s' & q' & l2 & E' & Hx' & Hp').
    exists s', q', l2. split; [done|]. split; [by eapply extends_trans|done].
Qed.

Definition incumbent_sealable (s : S) (q : @search T A) : Prop :=
  match se_incumbent q with None => True | Some i => sealable s (ic_assessed i) end.

Lemma incumbent_sealable_extends s s' q q' :
  incumbent_sealable s q -> extends s s' -> se_incumbent q' = se_incumbent q -> incumbent_sealable s' q'.
Proof using Type. unfold incumbent_sealable. intros Hs Hx ->. destruct (se_incumbent q); [by apply Hx|done]. Qed.

Lemma expand_total candidate_id queued view q s :
  plan_ok candidate_id s (se_queue q) (se_ledger q) (se_canonical_targets q) -> queued_ok s queued -> incumbent_sealable s q ->
  exists s' q', expand input candidate_id queued view q s = (s', Ok q') /\ incumbent_sealable s' q' /\
    plan_ok candidate_id s' (se_queue q') (se_ledger q') (se_canonical_targets q').
Proof using Hlaws Hbudget.
  intros Hp [Hk Ho] Hs. unfold expand. rewrite Ho.
  destruct (plan_ok_mark _ _ _ _ _ (qt_target queued) Expanded Hp Hk) as [[b Hb] _].
  assert (He : exists e, (if as_expandable view then ledger_contains (se_ledger q) (ordinal (qt_target queued)) Expanded else Ok true) = Ok e)
    by (destruct (as_expandable view); by eexists).
  destruct He as [e He]. rewrite He, run_lift. destruct e; [by exists s, q|].
  destruct (sl_expand _ Hlaws s _ (po_inv _ _ _ _ _ Hp) Hk) as (s1 & e & He1 & Hx1 & Hc1 & Hn & (s2 & Hd & Hx2 & Hc2) & (s3 & children & Hcm & Hx3 & Hc3 & Hch)).
  rewrite (M_bind_run _ _ _ _ _ He1). pose proof (plan_ok_extends _ _ _ _ _ _ Hp Hx1 Hc1) as Hp1.
  pose proof Hp1 as [_ _ _ Hcan Hbud _]. unfold kTargetBudget in Hbudget.
  assert (H0 : 0 <= canonical s1) by (pose proof (sl_ordinal _ Hlaws s1 _ (ex_inv _ _ Hx1) (ex_known _ _ Hx1 _ Hk)); lia).
  rewrite wrap32_small by (unfold U32_MAX; lia).
  destruct (Z.ltb_spec (in_target_budget input - se_canonical_targets q) (cs_new_canonical_count e)).
  - rewrite (M_bind_run _ _ _ _ _ Hd). exists s2, q. split; [done|].
    split; [eapply incumbent_sealable_extends; [exact Hs|by eapply extends_trans|done]|]. by eapply plan_ok_extends.
  - rewrite (M_bind_run _ _ _ _ _ Hcm).
    assert (Hp3 : plan_ok candidate_id s3 (se_queue q) (se_ledger q) (se_canonical_targets q + cs_new_canonical_count e)).
    { destruct Hp1 as [K1 K2 K3 K4 K5 K6]. split; [apply Hx3|rewrite (ex_candidate _ _ Hx3); done|done|lia|lia|].
      eapply Forall_impl; [exact K6|]. intros t [Ht Hto]. split; [by apply (ex_known _ _ Hx3)|done]. }
    assert (Hk3 : known s3 (qt_target queued)) by (by apply (ex_known _ _ Hx3), (ex_known _ _ Hx1)).
    destruct (plan_ok_mark _ _ _ _ _ (qt_target queued) Expanded Hp3 Hk3) as [_ (l' & Hl & Hp4)]. rewrite Hl, run_lift.
    destruct (queue_children_total candidate_id children s3 _ _ _ Hp4 Hch) as (s4 & queue' & l2 & Hq & Hx4 & Hp5).
    rewrite (M_bind_run _ _ _ _ _ Hq). eexists s4, _. split; [done|]. cbn.
    rewrite wrap32_small by (unfold U32_MAX; lia). split; [|done].
    eapply incumbent_sealable_extends; [exact Hs|eapply extends_trans; [exact Hx1|by eapply extends_trans]|done].
Qed.

Lemma visit_total candidate_id queued q s :
  plan_ok candidate_id s (se_queue q) (se_ledger q) (se_canonical_targets q) -> queued_ok s queued -> incumbent_sealable s q ->
  exists s' q', visit input capture machine_cost candidate_id queued q s = (s', Ok q') /\ incumbent_sealable s' q' /\
    plan_ok candidate_id s' (se_queue q') (se_ledger q') (se_canonical_targets q').
Proof using Hlaws Hbudget Hportfolio.
  intros Hp [Hk Ho] Hs. unfold visit. cbn [se_ledger se_queue se_incumbent se_cursor se_canonical_targets se_targets_evaluated]. rewrite Ho.
  destruct (plan_ok_mark _ _ _ _ _ (qt_target queued) Assessed Hp Hk) as [[b Hb] _]. rewrite Hb, run_lift.
  destruct b; [by eexists s, _|].
  destruct (sl_assess _ Hlaws s _ (po_inv _ _ _ _ _ Hp) Hk) as (s1 & a & v & Ha & Hx & Hc & Hvc & Hvo & Hf).
  rewrite (M_bind_run _ _ _ _ _ Ha). rewrite Hvc, (po_candidate _ _ _ _ _ Hp), Hvo, !Z.eqb_refl. cbn [negb orb]. rewrite run_guard.
  pose proof (plan_ok_extends _ _ _ _ _ _ Hp Hx Hc) as Hp1. pose proof (ex_known _ _ Hx _ Hk) as Hk1.
  destruct (plan_ok_mark _ _ _ _ _ (qt_target queued) Assessed Hp1 Hk1) as [_ (l' & Hl & Hp2)]. rewrite Hl, run_lift.
  assert (Hu : exists i, update_incumbent input capture machine_cost (qt_target queued) a v (se_incumbent q) = Ok i /\
                 match i with None => True | Some i => sealable s1 (ic_assessed i) end).
  { pose proof (incumbent_sealable_extends s s1 q q Hs Hx eq_refl) as Hs1. unfold incumbent_sealable in Hs1. unfold update_incumbent.
    destruct (feasible v); [|by eexists]. destruct (Hf eq_refl) as [Hse Him].
    destruct (fold_target_returns input capture machine_cost v Hportfolio Him) as [value Hv]. rewrite Hv. cbn [mbind result_bind].
    eexists. split; [done|]. by destruct (tv_positive value && _). }
  destruct Hu as (i & Hu & Hsi). rewrite Hu, run_lift.
  apply expand_total; cbn; [done|by split|]. unfold incumbent_sealable. cbn. done.
Qed.

Lemma search_loop_total candidate_id fuel : forall q s,
  plan_ok candidate_id s (se_queue q) (se_ledger q) (se_canonical_targets q) -> incumbent_sealable s q ->
  exists s' r, search_loop fuel input capture machine_cost candidate_id q s = (s', Ok r) /\ inv s' /\
    match r with None => True | Some q' => incumbent_sealable s' q' end.
Proof using Hlaws Hbudget Hportfolio.
  induction fuel as [|fuel IH]; intros q s Hp Hs; cbn [search_loop]; pose proof (po_inv _ _ _ _ _ Hp);
    (destruct (se_queue q !! se_cursor q) as [queued|] eqn:Hat; [|by eexists s, (Some q)]);
    (destruct (_ <? _); [|by eexists s, (Some q)]); [by eexists s, None|].
  assert (Hq : queued_ok s queued) by (pose proof (po_queue _ _ _ _ _ Hp) as Hall; rewrite Forall_lookup in Hall; by eapply Hall).
  destruct (visit_total candidate_id queued q s Hp Hq Hs) as (s1 & q1 & Hv & Hs1 & Hp1). rewrite (M_bind_run _ _ _ _ _ Hv). by apply IH.
Qed.
End Laws.
