(* ===== verification/CaptureClaims.v ===== *)
(** What the shared-capture planner guarantees, and a small session on which it runs:
    an infeasible target that expands into a dear and a cheap feasible one. *)

From S2P Require Import Prelude HostKvArena ContextCost PortfolioValue SearchBudget PressureTypes CapturePlanner.

(** C27. The plan of a shared capture is optimal among what was looked at. Against any session, noting the
    assessments it hands out: at most [target_budget] targets are assessed; without a plan, none of
    them is feasible with a positive value; with a plan, its target is one of them, feasible, with a
    net gain that is positive and exactly the public value after the change minus the value before
    it, the private loss and the added machine time; and no assessed feasible target of positive
    value ranks above it. The search always comes to its end. *)
Theorem capture_plan_is_optimal {S T A E P} `{!CaptureSession S T A E P} machine_cost input capture s s' l r :
  input_ok input -> 0 <= in_target_budget input -> in_capture input = Some capture ->
  @plan_capture _ _ _ _ _ logged machine_cost input (s, []) = ((s', l), Ok r) ->
  plan_capture machine_cost input s = (s', Ok r) /\ vsize l <= in_target_budget input /\
  match r with
  | None => False
  | Some None => none_positive input capture machine_cost l
  | Some (Some plan) => exists a v candidate impacts,
      best_of input capture machine_cost l a v /\ cp_stable_target_ordinal plan = as_stable_target_ordinal a /\
      cp_targets_evaluated plan = vsize l /\ cp_net_gain plan = tv_gain v /\ 0 < cp_net_gain plan /\
      next_candidate_owner (in_owner_policies input) = Ok candidate /\
      rfor (combine_impact input machine_cost) [] (as_checkpoint_impacts a) = Ok impacts /\
      cp_net_gain plan = exact_gain input capture machine_cost candidate impacts a
  end.
Proof.
  intros Hio Hb0 Hcap Hr. split.
  { destruct (same_plan machine_cost input s []) as [l' Hs]. rewrite Hr in Hs. injection Hs as E1 E2 E3.
    destruct (plan_capture machine_cost input s) as [s1 r1]. cbn in *. congruence. }
  pose proof (plan_capture_fuel _ _ _ _ _ Hr) as Hfuel. unfold plan_capture in Hr. rewrite Hcap in Hr.
  apply M_bind_Ok in Hr as (s1 & u & [-> Hv]%mlift_Ok & Hr).
  assert (Hb : 0 <= in_target_budget input <= kTargetBudget) by (unfold validate in Hv; apply throw_if_Ok in Hv; simp_bool; lia).
  apply M_bind_Ok in Hr as (s2 & session & [-> ->]%mget_Ok & Hr). apply M_bind_Ok in Hr as (s3 & identity & H3 & Hr).
  apply M_bind_Ok in Hr as (s4 & guide & H4 & Hr). apply M_bind_Ok in Hr as (s5 & u' & [-> _]%mthrow_if_Ok & Hr).
  apply M_bind_Ok in Hr as (s6 & ledger & [-> _]%mlift_Ok & Hr). apply M_bind_Ok in Hr as (s7 & found & Hs & Hr).
  assert (El : snd s4 = []).
  { rewrite (keeps_run _ _ _ _ (keeps_lift_log (cs_guidance identity)) H4).
    exact (keeps_run _ _ _ _ (keeps_lift_log cs_identity_target) H3). }
  assert (Hq0 : search_ok input capture machine_cost (snd s4) (mkSearch [mkQueued identity (gd_stable_target_ordinal guide)] ledger (@None (@Incumbent T A)) 1 0 0)).
  { rewrite El. split; [apply Forall_nil_2|done]. }
  destruct found as [q|]; [|apply mret_Ok in Hr as [_ ->]; done].
  destruct (search_loop_ok _ _ _ _ _ _ _ _ _ Hq0 Hb ltac:(cbn; lia) Hs) as [[Hi He] Hle].
  destruct (se_incumbent q) as [i|]; [|apply mret_Ok in Hr as [<- ->]; cbn in *; split; [lia|done]].
  apply M_bind_Ok in Hr as (s8 & pr & H8 & Hr). pose proof (keeps_run _ _ _ _ (keeps_lift_log (cs_seal (ic_assessed i))) H8) as E8.
  destruct pr as [pr|]; [|done]. apply mret_Ok in Hr as [<- ->]. cbn in E8. subst l. split; [lia|].
  destruct Hi as (a & Hbest & Hst & _). pose proof Hbest as (_ & _ & Hv' & Hp & _).
  destruct (fold_target_positive _ _ _ _ _ Hio Hv' Hp) as (candidate & impacts & Hc & Him & Hg & Hgain).
  exists a, (ic_value i), candidate, impacts. cbn. by rewrite He.
Qed.

(** C28. With a well-formed portfolio and a session that keeps its promises, planning always answers.
    The portfolio lists every owner once, below the largest number, and every checkpoint under a
    listed owner; the session's calls return, its targets keep their ordinals, and the impacts of a
    feasible target are on checkpoints of the portfolio, each once and with a recovery recipe. Then
    for every input the planner's own check accepts it returns, without an exception and without
    running out of its bound, either a plan or the decision to skip the capture: in particular the
    fold of every target returns, and the ledger, sized by the target budget, is never exceeded by a
    target of the session. *)
Theorem capture_plan_always_answers {S T A E P} `{!CaptureSession S T A E P} inv canonical ordinal known sealable
    machine_cost input capture s :
  session_laws inv canonical ordinal known sealable (impacts_ok input) -> portfolio_ok input ->
  validate input = Ok tt -> 0 <= in_target_budget input -> in_capture input = Some capture -> inv s -> canonical s = 1 ->
  exists s' r, plan_capture machine_cost input s = (s', Ok (Some r)).
Proof.
  intros Hlaws Hpf Hv Hb0 Hcap Hi Hc.
  assert (Hb : 0 < in_target_budget input <= kTargetBudget) by (pose proof Hv as Hv'; unfold validate in Hv'; apply throw_if_Ok in Hv'; simp_bool; lia).
  enough (Hrun : exists s' r, plan_capture machine_cost input s = (s', Ok r)).
  { destruct Hrun as (s' & r & Hr). pose proof (plan_capture_fuel _ _ _ _ _ Hr). destruct r as [r|]; [by exists s', r|done]. }
  unfold plan_capture. rewrite Hv, run_lift, Hcap. rewrite (M_bind_run _ mget s s s eq_refl).
  destruct (sl_identity _ _ _ _ _ _ Hlaws s Hi) as (s1 & t & Ht & Hx & Hc1 & Hk). pose proof (ex_inv _ _ _ _ _ Hx) as Hi1.
  rewrite (M_bind_run _ _ _ _ _ Ht).
  destruct (sl_guidance _ _ _ _ _ _ Hlaws s1 t Hi1 Hk) as (s2 & g & Hg & Hx2 & Hc2 & Hgc & Hgo).
  rewrite (M_bind_run _ _ _ _ _ Hg), Hgc, (ex_candidate _ _ _ _ _ Hx), Z.eqb_refl. cbn [negb]. rewrite run_guard, Hgo.
  pose proof (sl_ordinal _ _ _ _ _ _ Hlaws s1 t Hi1 Hk) as Hord.
  assert (Hsize : vsize (ledger_reset (in_target_budget input + 1)) = in_target_budget input + 1) by (apply ledger_reset_size; lia).
  destruct (ledger_calls (ledger_reset (in_target_budget input + 1)) (ordinal t) Discovered ltac:(lia)) as [_ (ledger & Hl & Hls)].
  rewrite Hl, run_lift. set (q0 := mkSearch _ ledger None 1 0 0).
  assert (Hp : plan_ok inv canonical ordinal known input (cs_candidate_id s) s2 (se_queue q0) (se_ledger q0) (se_canonical_targets q0)).
  { split; cbn; [apply Hx2|by rewrite (ex_candidate _ _ _ _ _ Hx2), (ex_candidate _ _ _ _ _ Hx)|lia|lia|lia|].
    apply Forall_singleton. split; [by apply (ex_known _ _ _ _ _ Hx2)|done]. }
  destruct (search_loop_total inv canonical ordinal known sealable input capture machine_cost Hlaws Hpf Hb (cs_candidate_id s) (search_fuel input) q0 s2 Hp I)
    as (s3 & found & Hs & Hi3 & Hf). rewrite (M_bind_run _ _ _ _ _ Hs).
  destruct found as [q|]; [|by eexists s3, None]. unfold incumbent_sealable in Hf. destruct (se_incumbent q) as [i|]; [|by eexists s3, (Some None)].
  destruct (sl_seal _ _ _ _ _ _ Hlaws s3 _ Hi3 Hf) as (s4 & p & Hseal). rewrite (M_bind_run _ _ _ _ _ Hseal). by eexists s4, _.
Qed.

(** * A session with three targets *)
Module DemoSession.

Definition idle : PrefillWork := mkPrefillWork 0 0 0 0 0.
Definition no_transfers : CoalescedTransferWork := replicate 3 no_work.
Definition work_of (tokens : Z) : MaterializationMachineWork :=
  mkMachineWork no_transfers no_transfers no_transfers (mkPrefillWork 0 tokens 0 0 0) 0.
Definition recovery_of (tokens : Z) : CheckpointRecoveryAlternativeWork := mkRecovery no_transfers (mkPrefillWork 0 tokens 0 0 0).
Definition endpoint : CheckpointRef := mkCheckpointRef SessionEndpoint 64 0.

(** One nanosecond per token. *)
Definition cost : ContextMachineCostModel := mkCostModel generic_context_transfer_cost (mkPrefillCost 0 4294967296 0 1 0).

(** Target 0 does not fit; target 1 fits and drops the checkpoint of owner 0; target 2 fits and only takes time. *)
Definition assessment (t : Z) : PressureTargetAssessment :=
  mkAssessment (if t =? 0 then Infeasible else Feasible) ConsumeToActive (work_of (if t =? 2 then 300 else 0)) []
    (if t =? 1 then [mkImpact 0 endpoint [recovery_of 1000] false] else []) 7 t t 0 0 (t =? 0) false.

Definition guidance (t : Z) : PressureTargetGuidance :=
  mkGuidance (mkPhysicalGuidance 0 0 0 false) (work_of 0) [] 7 t 0 0 ConsumeToActive [] [] false.

#[local] Instance demo : CaptureSession Z Z Z (list Z) Z := {|
  cs_candidate_id := fun _ => 7;
  cs_identity_target := mret 0;
  cs_guidance := fun t => mret (guidance t);
  cs_assess := fun t => mret (t, assessment t);
  cs_prepare_expansion := fun t => fun s => (s, Ok (if (s =? 1) && (t =? 0) then [1; 2] else []));
  cs_new_canonical_count := vsize;
  cs_discard_expansion := fun _ => mret tt;
  cs_commit_expansion := fun e => fun s => (s + vsize e, Ok (e, vsize e));
  cs_seal := fun a => mret (Some a);
|}.

Definition capture : CaptureAssessment := mkCapture true ExplicitBoundary [recovery_of 0].
Definition input : Input :=
  mkInput (Some capture) 1 [0] 0 [] [mkCaptureOwner 0 1 false] [mkCaptureCheckpoint 0 endpoint 1 1000 100] None 2 5000 0 0 0 64.

Lemma demo_run :
  @plan_capture _ _ _ _ _ (@logged _ _ _ _ _ demo) cost input (1, []) =
    ((3, [assessment 0; assessment 1; assessment 2]), Ok (Some (Some (mkCaptureResult 2 [] [] 900 10900 300 9700 0 2 3)))).
Proof. by vm_compute. Qed.

Definition inv (s : Z) : Prop := s = 1 \/ s = 3.
Definition known (s t : Z) : Prop := 0 <= t < s.

Lemma demo_laws :
  session_laws inv (fun s => s) (fun t => t) known (fun _ _ => True) (impacts_ok input).
Proof.
  assert (Hx : forall s, inv s -> extends inv known (fun _ _ => True) s s) by (intros s Hs; by split).
  split; unfold known.
  - done.
  - intros s Hs. exists s, 0. do 3 (split; [by auto|]). unfold inv in Hs. lia.
  - intros s t Hs Ht. exists s, (guidance t). do 2 (split; [by auto|]). done.
  - intros s t Hs Ht. exists s, t, (assessment t). do 5 (split; [by auto|]). intros Hf. split; [done|]. unfold inv in Hs.
    assert (t = 0 \/ t = 1 \/ t = 2) as [-> | [-> | ->]] by lia; [done|..];
      (split; repeat constructor; try done; try (by vm_compute); apply not_elem_of_nil).
  - intros s t Hs Ht. exists s. eexists. split; [done|]. do 2 (split; [by auto|]). split; [apply vsize_nonneg|]. split.
    + exists s. by auto.
    + set (e := if (s =? 1) && (t =? 0) then [1; 2] else []). exists (s + vsize e), e. split; [done|].
      assert (He : (s = 1 /\ e = [1; 2]) \/ e = []).
      { unfold e. destruct (Z.eqb_spec s 1); cbn; [|by right]. destruct (t =? 0); [by left|by right]. }
      split; [|split; [done|]].
      * destruct He as [[-> ->] | ->].
        { change (1 + vsize [1; 2]) with 3. split; [by right|done|unfold known; lia|done]. }
        change (vsize (@nil Z)) with 0. rewrite Z.add_0_r. by apply Hx.
      * destruct He as [[-> ->] | ->]; [|constructor]. change (1 + vsize [1; 2]) with 3. repeat constructor; lia.
  - intros s a Hs _. by exists s, a.
Qed.

Lemma demo_portfolio_ok : portfolio_ok input.
Proof. split; repeat constructor; try done; apply not_elem_of_nil. Qed.

Lemma input_is_ok : input_ok input.
Proof. split; [repeat constructor; done|done|done]. Qed.

Lemma capture_plan_is_optimal_witness :
  exists a v candidate impacts,
    best_of input capture cost [assessment 0; assessment 1; assessment 2] a v /\ 2 = as_stable_target_ordinal a /\ 3 = 3 /\
    9700 = tv_gain v /\ 0 < 9700 /\ next_candidate_owner (in_owner_policies input) = Ok candidate /\
    rfor (combine_impact input cost) [] (as_checkpoint_impacts a) = Ok impacts /\
    9700 = exact_gain input capture cost candidate impacts a.
Proof.
  exact (proj2 (proj2 (capture_plan_is_optimal cost input capture 1 3 _ _ input_is_ok ltac:(done) eq_refl demo_run))).
Defined.

Lemma capture_plan_always_answers_witness : exists s' r, plan_capture cost input 1 = (s', Ok (Some r)).
Proof.
  exact (capture_plan_always_answers inv (fun s => s) (fun t => t) known (fun _ _ => True) cost input capture 1
           demo_laws demo_portfolio_ok eq_refl ltac:(done) eq_refl (or_introl eq_refl) eq_refl).
Defined.
End DemoSession.
