(* ===== verification/StorageLayouts.v ===== *)
(** The byte layouts of the tensors in an artifact (src/src/artifact/storage_layouts.cpp): the formats
    and layouts with their names, the geometry of every layout, and the size a tensor must have.
    [planes] is the reference: the sizes of the planes by exact arithmetic, and where each begins. *)
From stdpp Require Import strings.
From S2P Require Import Prelude.

(** * Formats and layouts *)
Inductive NumericFormat : Type :=
  | BF16 | FP32 | I32 | I64 | Q4G64_F16S | Q5G64_F16S | Q6G64_F16S | W8G32_F16S | NVFP4
  | FP8_E4M3FN_ROW_BF16S | FP8_E4M3FN_ROW_F32S | U4Z8G16_F16S.

Inductive StorageLayout : Type :=
  | ContiguousLeV1 | RowSplitK128V1 | BlockScaleK16M128x4V1 | RowScaleV1 | RowScaleF32V1
  | PackedU4G16V1 | ExpertBlockScaleK16M128x4V1.

Inductive ResourceEncoding : Type := RawBytesV1.

#[global] Instance NumericFormat_eq_dec : EqDecision NumericFormat.
Proof. solve_decision. Defined.
#[global] Instance StorageLayout_eq_dec : EqDecision StorageLayout.
Proof. solve_decision. Defined.
#[global] Instance ResourceEncoding_eq_dec : EqDecision ResourceEncoding.
Proof. solve_decision. Defined.

Definition format_name (format : NumericFormat) : string :=
  match format with
  | BF16 => "BF16" | FP32 => "FP32" | I32 => "I32" | I64 => "I64"
  | Q4G64_F16S => "Q4G64_F16S" | Q5G64_F16S => "Q5G64_F16S" | Q6G64_F16S => "Q6G64_F16S"
  | W8G32_F16S => "W8G32_F16S" | NVFP4 => "NVFP4"
  | FP8_E4M3FN_ROW_BF16S => "FP8_E4M3FN_ROW_BF16S" | FP8_E4M3FN_ROW_F32S => "FP8_E4M3FN_ROW_F32S"
  | U4Z8G16_F16S => "U4Z8G16_F16S"
  end.

Definition layout_name (layout : StorageLayout) : string :=
  match layout with
  | ContiguousLeV1 => "contiguous-le-v1"
  | RowSplitK128V1 => "row-split-k128-v1"
  | BlockScaleK16M128x4V1 => "blockscale-k16-m128x4-v1"
  | RowScaleV1 => "row-scale-v1"
  | RowScaleF32V1 => "row-scale-f32-v1"
  | PackedU4G16V1 => "packed-u4-g16-v1"
  | ExpertBlockScaleK16M128x4V1 => "expert-blockscale-k16-m128x4-v1"
  end.

Definition encoding_name (encoding : ResourceEncoding) : string :=
  match encoding with RawBytesV1 => "raw-bytes-v1" end.

Definition kTensorAlignment : Z := 256.
Definition kKAlignment : Z := 128.

Definition tensor_alignment (layout : StorageLayout) : Z := kTensorAlignment.
Definition resource_alignment (encoding : ResourceEncoding) : Z := 1.

(** * Checked arithmetic; an [ArtifactError] is a [std::runtime_error] *)
Definition checked_add (a b : Z) : result Z :=
  _ ← throw_if (U64_MAX - a <? b) RuntimeError;
  Ok (a + b).

Definition checked_mul (a b : Z) : result Z :=
  _ ← throw_if (negb (a =? 0) && (U64_MAX / a <? b)) RuntimeError;
  Ok (a * b).

Definition align_up (value alignment : Z) : result Z :=
  biased ← checked_add value (alignment - 1);
  Ok (biased / alignment * alignment).

(** * Geometries *)
Record QuantGeometry : Type := mkQuant { qg_group_size : Z; qg_base_bytes_per_group : Z; qg_high_bytes_per_group : Z }.

Definition quant_geometry (format : NumericFormat) : result QuantGeometry :=
  match format with
  | Q4G64_F16S => Ok (mkQuant 64 32 0)
  | Q5G64_F16S => Ok (mkQuant 64 32 8)
  | Q6G64_F16S => Ok (mkQuant 64 32 16)
  | W8G32_F16S => Ok (mkQuant 32 32 0)
  | _ => Err RuntimeError
  end.

Definition direct_word_bytes (format : NumericFormat) : result Z :=
  match format with
  | BF16 => Ok 2
  | FP32 | I32 => Ok 4
  | I64 => Ok 8
  | _ => Err RuntimeError
  end.

Record RowSplitGeometry : Type := mkRowSplit {
  rs_rows : Z; rs_columns : Z; rs_padded_columns : Z; rs_group_size : Z; rs_groups_per_row : Z;
  rs_low_bytes_per_group : Z; rs_high_bytes_per_group : Z; rs_low_plane_bytes : Z; rs_high_plane_offset : Z;
  rs_high_plane_bytes : Z; rs_scale_plane_offset : Z; rs_scale_plane_bytes : Z; rs_encoded_bytes : Z;
}.

Record BlockScaleGeometry : Type := mkBlockScale {
  bs_rows : Z; bs_columns : Z; bs_groups_per_row : Z; bs_k_tiles : Z; bs_code_plane_bytes : Z;
  bs_scale_plane_offset : Z; bs_scale_plane_bytes : Z; bs_weight_divisor_offset : Z; bs_encoded_bytes : Z;
}.

Record BlockScaleBankGeometry : Type := mkBank {
  bg_experts : Z; bg_rows : Z; bg_columns : Z; bg_groups_per_row : Z; bg_k_tiles : Z; bg_code_plane_bytes : Z;
  bg_scale_plane_offset : Z; bg_scale_plane_bytes : Z; bg_weight_divisor_offset : Z; bg_weight_divisor_bytes : Z;
  bg_encoded_bytes : Z;
}.

Record RowScaleGeometry : Type := mkRowScale {
  rg_rows : Z; rg_columns : Z; rg_code_plane_bytes : Z; rg_scale_plane_offset : Z; rg_scale_plane_bytes : Z;
  rg_encoded_bytes : Z;
}.

Record PackedU4Geometry : Type := mkPackedU4 {
  pu_rows : Z; pu_columns : Z; pu_groups_per_row : Z; pu_code_plane_bytes : Z; pu_scale_plane_offset : Z;
  pu_scale_plane_bytes : Z; pu_encoded_bytes : Z;
}.

Definition row_split_geometry (format : NumericFormat) (shape : list Z) : result RowSplitGeometry :=
  match shape with
  | [rows; columns] =>
      _ ← throw_if ((rows =? 0) || (columns =? 0)) RuntimeError;
      format_geometry ← quant_geometry format;
      padded_columns ← align_up columns kKAlignment;
      let groups_per_row := padded_columns / qg_group_size format_geometry in
      groups ← checked_mul rows groups_per_row;
      low_plane_bytes ← checked_mul groups (qg_base_bytes_per_group format_geometry);
      high_plane_bytes ← checked_mul groups (qg_high_bytes_per_group format_geometry);
      scale_plane_bytes ← checked_mul groups 2;
      high_plane_offset ← align_up low_plane_bytes kTensorAlignment;
      aligned_high ← align_up high_plane_bytes kTensorAlignment;
      scale_plane_offset ← checked_add high_plane_offset aligned_high;
      encoded_bytes ← checked_add scale_plane_offset scale_plane_bytes;
      Ok (mkRowSplit rows columns padded_columns (qg_group_size format_geometry) groups_per_row
            (qg_base_bytes_per_group format_geometry) (qg_high_bytes_per_group format_geometry)
            low_plane_bytes high_plane_offset high_plane_bytes scale_plane_offset scale_plane_bytes encoded_bytes)
  | _ => Err RuntimeError
  end.

Definition block_scale_geometry (format : NumericFormat) (shape : list Z) : result BlockScaleGeometry :=
  _ ← throw_if (negb (bool_decide (format = NVFP4))) RuntimeError;
  match shape with
  | [rows; columns] =>
      _ ← throw_if ((rows =? 0) || (columns =? 0)) RuntimeError;
      _ ← throw_if (negb (rows mod 128 =? 0) || negb (columns mod 64 =? 0)) RuntimeError;
      elements ← checked_mul rows columns;
      let code_plane_bytes := elements / 2 in
      scale_plane_offset ← align_up code_plane_bytes kTensorAlignment;
      let scale_plane_bytes := elements / 16 in
      weight_divisor_offset ← checked_add scale_plane_offset scale_plane_bytes;
      encoded_bytes ← checked_add weight_divisor_offset 4;
      Ok (mkBlockScale rows columns (columns / 16) (columns / 64) code_plane_bytes scale_plane_offset scale_plane_bytes
            weight_divisor_offset encoded_bytes)
  | _ => Err RuntimeError
  end.

Definition block_scale_bank_geometry (format : NumericFormat) (shape : list Z) : result BlockScaleBankGeometry :=
  _ ← throw_if (negb (bool_decide (format = NVFP4))) RuntimeError;
  match shape with
  | [experts; rows; columns] =>
      _ ← throw_if ((experts =? 0) || (rows =? 0) || (columns =? 0)) RuntimeError;
      _ ← throw_if (negb (rows mod 128 =? 0) || negb (columns mod 64 =? 0)) RuntimeError;
      matrices ← checked_mul experts rows;
      elements ← checked_mul matrices columns;
      let code_plane_bytes := elements / 2 in
      scale_plane_offset ← align_up code_plane_bytes kTensorAlignment;
      let scale_plane_bytes := elements / 16 in
      weight_divisor_offset ← checked_add scale_plane_offset scale_plane_bytes;
      weight_divisor_bytes ← checked_mul experts 4;
      encoded_bytes ← checked_add weight_divisor_offset weight_divisor_bytes;
      Ok (mkBank experts rows columns (columns / 16) (columns / 64) code_plane_bytes scale_plane_offset scale_plane_bytes
            weight_divisor_offset weight_divisor_bytes encoded_bytes)
  | _ => Err RuntimeError
  end.

Definition row_scale_geometry (format : NumericFormat) (shape : list Z) : result RowScaleGeometry :=
  scale_word_bytes ← match format with
                     | FP8_E4M3FN_ROW_BF16S => Ok 2
                     | FP8_E4M3FN_ROW_F32S => Ok 4
                     | _ => Err RuntimeError
                     end;
  match shape with
  | [rows; columns] =>
      _ ← throw_if ((rows =? 0) || (columns =? 0)) RuntimeError;
      code_plane_bytes ← checked_mul rows columns;
      scale_plane_offset ← align_up code_plane_bytes kTensorAlignment;
      scale_plane_bytes ← checked_mul rows scale_word_bytes;
      encoded_bytes ← checked_add scale_plane_offset scale_plane_bytes;
      Ok (mkRowScale rows columns code_plane_bytes scale_plane_offset scale_plane_bytes encoded_bytes)
  | _ => Err RuntimeError
  end.

Definition packed_u4_geometry (format : NumericFormat) (shape : list Z) : result PackedU4Geometry :=
  _ ← throw_if (negb (bool_decide (format = U4Z8G16_F16S))) RuntimeError;
  match shape with
  | [rows; columns] =>
      _ ← throw_if ((rows =? 0) || (columns =? 0) || negb (columns mod 16 =? 0)) RuntimeError;
      let groups_per_row := columns / 16 in
      elements ← checked_mul rows columns;
      let code_plane_bytes := elements / 2 in
      scale_plane_offset ← align_up code_plane_bytes kTensorAlignment;
      groups ← checked_mul rows groups_per_row;
      scale_plane_bytes ← checked_mul groups 2;
      encoded_bytes ← checked_add scale_plane_offset scale_plane_bytes;
      Ok (mkPackedU4 rows columns groups_per_row code_plane_bytes scale_plane_offset scale_plane_bytes encoded_bytes)
  | _ => Err RuntimeError
  end.

(** One step of the loop over the dimensions of a contiguous tensor. *)
Definition multiply_dimension (elements dim : Z) : result Z :=
  _ ← throw_if (dim =? 0) RuntimeError;
  checked_mul elements dim.

Definition tensor_encoded_size (layout : StorageLayout) (format : NumericFormat) (shape : list Z) : result Z :=
  match layout with
  | ContiguousLeV1 =>
      _ ← throw_if (16 <? vsize shape) RuntimeError;
      elements ← rfor multiply_dimension 1 shape;
      word ← direct_word_bytes format;
      checked_mul elements word
  | RowSplitK128V1 =>
      _ ← match shape with
          | [rows; columns] => throw_if ((rows =? 0) || (columns =? 0)) RuntimeError
          | _ => Err RuntimeError
          end;
      g ← row_split_geometry format shape;
      Ok (rs_encoded_bytes g)
  | BlockScaleK16M128x4V1 =>
      g ← block_scale_geometry format shape;
      Ok (bs_encoded_bytes g)
  | RowScaleV1 =>
      _ ← throw_if (negb (bool_decide (format = FP8_E4M3FN_ROW_BF16S))) RuntimeError;
      g ← row_scale_geometry format shape;
      Ok (rg_encoded_bytes g)
  | RowScaleF32V1 =>
      _ ← throw_if (negb (bool_decide (format = FP8_E4M3FN_ROW_F32S))) RuntimeError;
      g ← row_scale_geometry format shape;
      Ok (rg_encoded_bytes g)
  | PackedU4G16V1 =>
      g ← packed_u4_geometry format shape;
      Ok (pu_encoded_bytes g)
  | ExpertBlockScaleK16M128x4V1 =>
      g ← block_scale_bank_geometry format shape;
      Ok (bg_encoded_bytes g)
  end.

(** * The reference *)

(** The least multiple of [alignment] from [value] on. *)
Definition round_up (value alignment : Z) : Z := (value + (alignment - 1)) / alignment * alignment.

Definition product (shape : list Z) : Z := foldr Z.mul 1 shape.

(** The bytes of every plane, by exact arithmetic; [None] for a format or shape the layout does not store. *)
Definition plane_sizes (layout : StorageLayout) (format : NumericFormat) (shape : list Z) : option (list Z) :=
  match layout, shape with
  | ContiguousLeV1, _ =>
      if (vsize shape <=? 16) && forallb (fun dim => negb (dim =? 0)) shape then
        match direct_word_bytes format with Ok word => Some [product shape * word] | Err _ => None end
      else None
  | RowSplitK128V1, [rows; columns] =>
      if (rows =? 0) || (columns =? 0) then None else
      match quant_geometry format with
      | Ok q => let groups := rows * (round_up columns 128 / qg_group_size q) in
                Some [groups * qg_base_bytes_per_group q; groups * qg_high_bytes_per_group q; groups * 2]
      | Err _ => None
      end
  | BlockScaleK16M128x4V1, [rows; columns] =>
      if bool_decide (format = NVFP4) && negb (rows =? 0) && negb (columns =? 0) && (rows mod 128 =? 0) && (columns mod 64 =? 0)
      then Some [rows * columns / 2; rows * columns / 16; 4] else None
  | RowScaleV1, [rows; columns] =>
      if bool_decide (format = FP8_E4M3FN_ROW_BF16S) && negb (rows =? 0) && negb (columns =? 0)
      then Some [rows * columns; rows * 2] else None
  | RowScaleF32V1, [rows; columns] =>
      if bool_decide (format = FP8_E4M3FN_ROW_F32S) && negb (rows =? 0) && negb (columns =? 0)
      then Some [rows * columns; rows * 4] else None
  | PackedU4G16V1, [rows; columns] =>
      if bool_decide (format = U4Z8G16_F16S) && negb (rows =? 0) && negb (columns =? 0) && (columns mod 16 =? 0)
      then Some [rows * columns / 2; rows * (columns / 16) * 2] else None
  | ExpertBlockScaleK16M128x4V1, [experts; rows; columns] =>
      if bool_decide (format = NVFP4) && negb (experts =? 0) && negb (rows =? 0) && negb (columns =? 0) &&
         (rows mod 128 =? 0) && (columns mod 64 =? 0)
      then Some [experts * rows * columns / 2; experts * rows * columns / 16; experts * 4] else None
  | _, _ => None
  end.

(** The largest count, beside the size itself, that the code computes in 64 bits. *)
Definition work_count (layout : StorageLayout) (shape : list Z) : Z :=
  match layout, shape with
  | RowSplitK128V1, [_; columns] => round_up columns 128
  | ContiguousLeV1, _ | RowScaleV1, _ | RowScaleF32V1, _ => 0
  | _, _ => product shape
  end.

(** Every plane begins at the first multiple of 256 behind the plane before it. *)
Fixpoint place (cursor : Z) (sizes : list Z) : list (Z * Z) :=
  match sizes with
  | [] => []
  | size :: sizes' => (round_up cursor kTensorAlignment, size) :: place (round_up cursor kTensorAlignment + size) sizes'
  end.

Fixpoint placed_end (cursor : Z) (sizes : list Z) : Z :=
  match sizes with
  | [] => cursor
  | size :: sizes' => placed_end (round_up cursor kTensorAlignment + size) sizes'
  end.

(** The planes, with their offsets and sizes, as the geometries of the source give them. *)
Definition geometry_planes (layout : StorageLayout) (format : NumericFormat) (shape : list Z) : result (list (Z * Z)) :=
  match layout with
  | ContiguousLeV1 => n ← tensor_encoded_size layout format shape; Ok [(0, n)]
  | RowSplitK128V1 =>
      g ← row_split_geometry format shape;
      Ok [(0, rs_low_plane_bytes g); (rs_high_plane_offset g, rs_high_plane_bytes g);
          (rs_scale_plane_offset g, rs_scale_plane_bytes g)]
  | BlockScaleK16M128x4V1 =>
      g ← block_scale_geometry format shape;
      Ok [(0, bs_code_plane_bytes g); (bs_scale_plane_offset g, bs_scale_plane_bytes g); (bs_weight_divisor_offset g, 4)]
  | RowScaleV1 | RowScaleF32V1 =>
      g ← row_scale_geometry format shape;
      Ok [(0, rg_code_plane_bytes g); (rg_scale_plane_offset g, rg_scale_plane_bytes g)]
  | PackedU4G16V1 =>
      g ← packed_u4_geometry format shape;
      Ok [(0, pu_code_plane_bytes g); (pu_scale_plane_offset g, pu_scale_plane_bytes g)]
  | ExpertBlockScaleK16M128x4V1 =>
      g ← block_scale_bank_geometry format shape;
      Ok [(0, bg_code_plane_bytes g); (bg_scale_plane_offset g, bg_scale_plane_bytes g);
          (bg_weight_divisor_offset g, bg_weight_divisor_bytes g)]
  end.

(** * Checked arithmetic is exact *)
Lemma checked_add_iff a b c : checked_add a b = Ok c <-> c = a + b /\ a + b <= U64_MAX.
Proof. unfold checked_add, throw_if. destruct (Z.ltb_spec (U64_MAX - a) b); cbn; split; intros; simp_res; naive_solver lia. Qed.

Lemma checked_mul_iff a b c : 0 <= a -> 0 <= b -> checked_mul a b = Ok c <-> c = a * b /\ a * b <= U64_MAX.
Proof.
  intros Ha Hb. unfold checked_mul, throw_if. destruct (Z.eqb_spec a 0) as [->|Hne]; cbn.
  - split; [intros [= <-]|by intros [-> _]]. split; [done|]. unfold U64_MAX. lia.
  - destruct (Z.ltb_spec (U64_MAX / a) b) as [Hlt|Hge]; cbn; split; intros H; simp_res.
    + destruct H as [_ Hle]. assert (b <= U64_MAX / a) by (apply Z.div_le_lower_bound; lia). lia.
    + split; [done|]. pose proof (Z.mul_div_le U64_MAX a ltac:(lia)). nia.
    + by destruct H as [-> _].
Qed.

Section RoundUp.
Context (alignment : Z) (Hpos : 0 < alignment).

Lemma round_up_spec v : (alignment | round_up v alignment) /\ v <= round_up v alignment < v + alignment.
Proof.
  unfold round_up. split; [apply Z.divide_factor_r|].
  pose proof (Z.div_mod (v + (alignment - 1)) alignment ltac:(lia)).
  pose proof (Z.mod_pos_bound (v + (alignment - 1)) alignment Hpos). lia.
Qed.

Lemma round_up_id v : (alignment | v) -> round_up v alignment = v.
Proof.
  intros [k ->]. unfold round_up. rewrite Z.add_comm, Z.div_add by lia.
  rewrite Z.div_small by lia. lia.
Qed.

Lemma round_up_least v w : (alignment | w) -> v <= w -> round_up v alignment <= w.
Proof.
  intros [k ->] Hle. destruct (round_up_spec v) as [[j ->] Hj].
  assert (j < k + 1) by nia. nia.
Qed.

Lemma round_up_add v w : (alignment | v) -> round_up (v + w) alignment = v + round_up w alignment.
Proof.
  intros [k ->]. unfold round_up. replace (k * alignment + w + (alignment - 1)) with (w + (alignment - 1) + k * alignment) by lia.
  rewrite Z.div_add by lia. lia.
Qed.

(** The bias overflows exactly when the rounded value does not fit. *)
Lemma align_up_iff v c : 0 <= v -> (alignment | U64_MAX + 1) ->
  align_up v alignment = Ok c <-> c = round_up v alignment /\ round_up v alignment <= U64_MAX.
Proof.
  intros Hv Hdiv. unfold align_up. rewrite bind_Ok. setoid_rewrite checked_add_iff. fold (round_up v alignment).
  destruct (round_up_spec v) as [Hd Hr]. split.
  - intros (b & [-> Hb] & [= <-]). fold (round_up v alignment). split; [done|]. lia.
  - intros [-> Hle]. exists (v + (alignment - 1)). split; [|done]. split; [done|].
    destruct Hd as [k Hk], Hdiv as [j Hj]. rewrite Hk in Hle, Hr.
    assert (k < j) by nia. nia.
Qed.
End RoundUp.

Lemma align_128 v c : 0 <= v -> align_up v kKAlignment = Ok c <-> c = round_up v 128 /\ round_up v 128 <= U64_MAX.
Proof. intros. apply align_up_iff; [done|done|]. by exists 144115188075855872. Qed.

Lemma align_256 v c : 0 <= v -> align_up v kTensorAlignment = Ok c <-> c = round_up v 256 /\ round_up v 256 <= U64_MAX.
Proof. intros. apply align_up_iff; [done|done|]. by exists 72057594037927936. Qed.

(** * Planes in their places *)
Lemma round_up_0 : round_up 0 kTensorAlignment = 0.
Proof. done. Qed.

Lemma round_up_past v w : round_up (round_up v kTensorAlignment + w) kTensorAlignment = round_up v kTensorAlignment + round_up w kTensorAlignment.
Proof. apply round_up_add; [done|]. apply (round_up_spec kTensorAlignment eq_refl). Qed.

Lemma place_1 a : place 0 [a] = [(0, a)] /\ placed_end 0 [a] = a.
Proof. done. Qed.

Lemma place_2 a b : place 0 [a; b] = [(0, a); (round_up a 256, b)] /\ placed_end 0 [a; b] = round_up a 256 + b.
Proof. done. Qed.

Lemma place_3 a b c :
  place 0 [a; b; c] = [(0, a); (round_up a 256, b); (round_up a 256 + round_up b 256, c)] /\
  placed_end 0 [a; b; c] = round_up a 256 + round_up b 256 + c.
Proof. cbn [place placed_end]. rewrite round_up_0, !Z.add_0_l, round_up_past. done. Qed.

(** Planes laid out one behind the other: aligned, inside the tensor, and disjoint. *)
Definition planes_sound (end_ : Z) (ps : list (Z * Z)) : Prop :=
  Forall (fun '(o, n) => (kTensorAlignment | o) /\ 0 <= o /\ 0 <= n /\ o + n <= end_) ps /\
  forall i j o n o' n', (i < j)%nat -> ps !! i = Some (o, n) -> ps !! j = Some (o', n') -> o + n <= o'.

Lemma placed_end_mono cursor sizes : 0 <= cursor -> Forall (fun n => 0 <= n) sizes -> cursor <= placed_end cursor sizes.
Proof.
  intros Hc H. revert cursor Hc. induction H as [|n sizes Hn _ IH]; intros cursor Hc; cbn; [lia|].
  destruct (round_up_spec kTensorAlignment eq_refl cursor) as [_ Hr].
  specialize (IH (round_up cursor kTensorAlignment + n) ltac:(lia)). lia.
Qed.

Lemma place_after cursor sizes i o n : 0 <= cursor -> Forall (fun n => 0 <= n) sizes ->
  place cursor sizes !! i = Some (o, n) -> (kTensorAlignment | o) /\ cursor <= o /\ 0 <= n /\ o + n <= placed_end cursor sizes.
Proof.
  intros Hc H. revert cursor Hc i. induction H as [|m sizes Hm Hs IH]; intros cursor Hc i Hi; [done|]. cbn in Hi |- *.
  destruct (round_up_spec kTensorAlignment eq_refl cursor) as [Hd Hr]. destruct i as [|i]; cbn in Hi.
  - injection Hi as <- <-. pose proof (placed_end_mono (round_up cursor kTensorAlignment + m) sizes ltac:(lia) Hs).
    split; [done|]. lia.
  - destruct (IH (round_up cursor kTensorAlignment + m) ltac:(lia) i Hi) as (? & ? & ? & ?). split; [done|]. lia.
Qed.

Lemma place_ordered cursor sizes i j o n o' n' : 0 <= cursor -> Forall (fun n => 0 <= n) sizes -> (i < j)%nat ->
  place cursor sizes !! i = Some (o, n) -> place cursor sizes !! j = Some (o', n') -> o + n <= o'.
Proof.
  intros Hc H. revert cursor Hc i j. induction H as [|m sizes Hm Hs IH]; intros cursor Hc i j Hij Hi Hj; [done|]. cbn in Hi, Hj.
  destruct (round_up_spec kTensorAlignment eq_refl cursor) as [_ Hr]. destruct j as [|j]; [lia|]. cbn in Hj. destruct i as [|i]; cbn in Hi.
  - injection Hi as <- <-. by destruct (place_after (round_up cursor kTensorAlignment + m) sizes j o' n' ltac:(lia) Hs Hj) as (_ & ? & _).
  - by apply (IH (round_up cursor kTensorAlignment + m) ltac:(lia) i j ltac:(lia)).
Qed.

Lemma place_sound sizes : Forall (fun n => 0 <= n) sizes -> planes_sound (placed_end 0 sizes) (place 0 sizes).
Proof.
  intros H. split.
  - apply Forall_lookup_2. intros i [o n] Hi. destruct (place_after 0 sizes i o n ltac:(lia) H Hi) as (? & ? & ? & ?). done.
  - intros. by eapply (place_ordered 0 sizes i j).
Qed.

(** * The geometries *)

(** Open the checked operations of a successful run, first to last. *)
Ltac nonneg := repeat first [assumption | apply Z.mul_nonneg_nonneg | apply Z.div_pos | lia].
Ltac checked H :=
  repeat (let x := fresh "x" in let Hx := fresh "Hx" in
    apply bind_Ok in H as (x & Hx & H);
    first [apply throw_if_Ok in Hx; clear x
          | apply checked_mul_iff in Hx as [-> Hx]; [|nonneg|nonneg]
          | apply checked_add_iff in Hx as [-> Hx]
          | apply align_256 in Hx as [-> Hx]; [|nonneg]
          | apply align_128 in Hx as [-> Hx]; [|nonneg]]).

(** Run the checked operations whose results fit. *)
Section RunChecked.
Context {B : Type} (f : Z -> result B).

Lemma checked_mul_run a b : 0 <= a -> 0 <= b -> a * b <= U64_MAX -> (checked_mul a b ≫= f) = f (a * b).
Proof. intros. by rewrite (proj2 (checked_mul_iff a b (a * b) ltac:(done) ltac:(done)) (conj eq_refl ltac:(done))). Qed.

Lemma checked_add_run a b : a + b <= U64_MAX -> (checked_add a b ≫= f) = f (a + b).
Proof. intros. by rewrite (proj2 (checked_add_iff a b (a + b)) (conj eq_refl ltac:(done))). Qed.

Lemma align_256_run a : 0 <= a -> round_up a 256 <= U64_MAX -> (align_up a kTensorAlignment ≫= f) = f (round_up a 256).
Proof. intros. by rewrite (proj2 (align_256 a (round_up a 256) ltac:(done)) (conj eq_refl ltac:(done))). Qed.

Lemma align_128_run a : 0 <= a -> round_up a 128 <= U64_MAX -> (align_up a kKAlignment ≫= f) = f (round_up a 128).
Proof. intros. by rewrite (proj2 (align_128 a (round_up a 128) ltac:(done)) (conj eq_refl ltac:(done))). Qed.
End RunChecked.

Ltac run_checked :=
  repeat first [rewrite checked_mul_run by nonneg | rewrite checked_add_run by nonneg
               | rewrite align_256_run by nonneg | rewrite align_128_run by nonneg].

Lemma row_split_exact format rows columns g : 0 <= rows -> 0 <= columns ->
  row_split_geometry format [rows; columns] = Ok g <->
  exists q, (rows =? 0) || (columns =? 0) = false /\ quant_geometry format = Ok q /\ round_up columns 128 <= U64_MAX /\
    let groups := rows * (round_up columns 128 / qg_group_size q) in
    let low := groups * qg_base_bytes_per_group q in
    let high := groups * qg_high_bytes_per_group q in
    round_up low 256 + round_up high 256 + groups * 2 <= U64_MAX /\
    g = mkRowSplit rows columns (round_up columns 128) (qg_group_size q) (round_up columns 128 / qg_group_size q)
          (qg_base_bytes_per_group q) (qg_high_bytes_per_group q) low (round_up low 256) high
          (round_up low 256 + round_up high 256) (groups * 2) (round_up low 256 + round_up high 256 + groups * 2).
Proof.
  intros Hr Hc. destruct (round_up_spec 128 eq_refl columns) as [_ Hpad].
  assert (Hq : forall q, quant_geometry format = Ok q -> 0 < qg_group_size q /\ qg_base_bytes_per_group q = 32 /\ 0 <= qg_high_bytes_per_group q).
  { intros q. destruct format; cbn; try discriminate; intros [= <-]; cbn; lia. }
  unfold row_split_geometry. split.
  - intros H. apply bind_Ok in H as ([] & Hz%throw_if_Ok & H). apply bind_Ok in H as (q & Hf & H).
    destruct (Hq q Hf) as (Hgs & Hb & Hh).
    assert (Hgr : 0 <= round_up columns 128 / qg_group_size q) by nonneg. checked H. simp_res. by exists q.
  - intros (q & -> & Hf & Hp & Hend & ->). destruct (Hq q Hf) as (Hgs & Hb & Hh). cbn [throw_if mbind result_bind].
    rewrite Hf. cbn [mbind result_bind]. cbn zeta in Hend.
    rewrite (proj2 (align_128 columns _ Hc) (conj eq_refl Hp)). cbn [mbind result_bind].
    assert (Hgr : 0 <= rows * (round_up columns 128 / qg_group_size q)) by nonneg. set (groups := rows * _) in *.
    assert (Hh' : 0 <= groups * qg_high_bytes_per_group q) by nonneg. rewrite Hb in *.
    destruct (round_up_spec 256 eq_refl (groups * 32)) as [_ H1].
    destruct (round_up_spec 256 eq_refl (groups * qg_high_bytes_per_group q)) as [_ H2].
    assert (Hpr : 0 <= round_up columns 128 / qg_group_size q) by nonneg. assert (Hg : groups <= U64_MAX) by lia.
    rewrite (proj2 (checked_mul_iff rows (round_up columns 128 / qg_group_size q) groups Hr Hpr) (conj eq_refl Hg)).
    cbn [mbind result_bind]. by run_checked.
Qed.

(** The shape of a matrix of blocks: its planes end on the alignment. *)
Lemma block_planes a rows columns : rows mod 128 = 0 -> columns mod 64 = 0 ->
  (256 | a * rows * columns / 2) /\ (256 | a * rows * columns / 16).
Proof.
  intros [k ->]%Z.mod_divide [j ->]%Z.mod_divide; [|done|done].
  replace (a * (k * 128) * (j * 64)) with (a * k * j * 4096 * 2) by ring.
  rewrite Z.div_mul by done. split; [exists (a * k * j * 16); ring|].
  replace (a * k * j * 4096 * 2) with (a * k * j * 512 * 16) by ring. rewrite Z.div_mul by done. exists (a * k * j * 2). ring.
Qed.

Lemma block_scale_exact rows columns g : 0 <= rows -> 0 <= columns ->
  block_scale_geometry NVFP4 [rows; columns] = Ok g <->
  rows <> 0 /\ columns <> 0 /\ rows mod 128 = 0 /\ columns mod 64 = 0 /\ rows * columns <= U64_MAX /\
  let codes := rows * columns / 2 in
  let scales := rows * columns / 16 in
  codes + scales + 4 <= U64_MAX /\
  g = mkBlockScale rows columns (columns / 16) (columns / 64) codes codes scales (codes + scales) (codes + scales + 4).
Proof.
  intros Hr Hc. unfold block_scale_geometry. cbn [bool_decide]. rewrite bool_decide_eq_true_2 by done. cbn [negb throw_if mbind result_bind].
  pose proof (block_planes 1 rows columns) as Hb. rewrite Z.mul_1_l in Hb. split.
  - intros H. checked H. simp_bool. destruct (Hb ltac:(lia) ltac:(lia)) as [Hd1 Hd2].
    rewrite (round_up_id 256 eq_refl _ Hd1) in *. simp_res. done.
  - intros (? & ? & Hr0 & Hc0 & He & Hend & ->). destruct (Hb Hr0 Hc0) as [Hd1 Hd2]. cbn zeta in Hend.
    rewrite (proj2 (Z.eqb_neq rows 0)), (proj2 (Z.eqb_neq columns 0)), Hr0, Hc0 by done. cbn [negb orb Z.eqb throw_if mbind result_bind].
    assert (He2 : 0 <= rows * columns / 2) by nonneg. assert (He16 : 0 <= rows * columns / 16) by nonneg.
    rewrite (proj2 (checked_mul_iff rows columns _ Hr Hc) (conj eq_refl He)). cbn [mbind result_bind].
    rewrite (proj2 (align_256 _ (rows * columns / 2) He2)) by (rewrite (round_up_id 256 eq_refl _ Hd1); split; [done|lia]).
    cbn [mbind result_bind]. by run_checked.
Qed.

Lemma block_scale_bank_exact experts rows columns g : 0 <= experts -> 0 <= rows -> 0 <= columns ->
  block_scale_bank_geometry NVFP4 [experts; rows; columns] = Ok g <->
  experts <> 0 /\ rows <> 0 /\ columns <> 0 /\ rows mod 128 = 0 /\ columns mod 64 = 0 /\ experts * rows * columns <= U64_MAX /\
  let codes := experts * rows * columns / 2 in
  let scales := experts * rows * columns / 16 in
  codes + scales + experts * 4 <= U64_MAX /\
  g = mkBank experts rows columns (columns / 16) (columns / 64) codes codes scales (codes + scales) (experts * 4)
        (codes + scales + experts * 4).
Proof.
  intros He Hr Hc. unfold block_scale_bank_geometry. rewrite bool_decide_eq_true_2 by done. cbn [negb throw_if mbind result_bind].
  pose proof (block_planes experts rows columns) as Hb. split.
  - intros H. checked H. simp_bool. destruct (Hb ltac:(lia) ltac:(lia)) as [Hd1 Hd2].
    rewrite (round_up_id 256 eq_refl _ Hd1) in *. simp_res. done.
  - intros (? & ? & ? & Hr0 & Hc0 & Hel & Hend & ->). destruct (Hb Hr0 Hc0) as [Hd1 Hd2]. cbn zeta in Hend.
    rewrite (proj2 (Z.eqb_neq experts 0)), (proj2 (Z.eqb_neq rows 0)), (proj2 (Z.eqb_neq columns 0)), Hr0, Hc0 by done.
    cbn [negb orb Z.eqb throw_if mbind result_bind].
    assert (He2 : 0 <= experts * rows * columns / 2) by nonneg. assert (He16 : 0 <= experts * rows * columns / 16) by nonneg.
    assert (Hm : experts * rows <= U64_MAX) by nia. assert (Hm0 : 0 <= experts * rows) by nonneg.
    rewrite (proj2 (checked_mul_iff experts rows _ He Hr) (conj eq_refl Hm)). cbn [mbind result_bind].
    rewrite (proj2 (checked_mul_iff _ columns _ Hm0 Hc) (conj eq_refl Hel)). cbn [mbind result_bind].
    rewrite (proj2 (align_256 _ (experts * rows * columns / 2) He2)) by (rewrite (round_up_id 256 eq_refl _ Hd1); split; [done|lia]).
    cbn [mbind result_bind]. by run_checked.
Qed.

Lemma row_scale_exact format word rows columns g : 0 <= rows -> 0 <= columns ->
  (format = FP8_E4M3FN_ROW_BF16S /\ word = 2 \/ format = FP8_E4M3FN_ROW_F32S /\ word = 4) ->
  row_scale_geometry format [rows; columns] = Ok g <->
  rows <> 0 /\ columns <> 0 /\ round_up (rows * columns) 256 + rows * word <= U64_MAX /\
  g = mkRowScale rows columns (rows * columns) (round_up (rows * columns) 256) (rows * word)
        (round_up (rows * columns) 256 + rows * word).
Proof.
  intros Hr Hc Hf. assert (Hw : 0 <= word) by lia. assert (He : 0 <= rows * columns) by nonneg.
  assert (Hs : 0 <= rows * word) by nonneg. destruct (round_up_spec 256 eq_refl (rows * columns)) as [_ Hu].
  assert (E : row_scale_geometry format [rows; columns] =
              (_ ← throw_if ((rows =? 0) || (columns =? 0)) RuntimeError;
               code ← checked_mul rows columns; o ← align_up code kTensorAlignment; s ← checked_mul rows word;
               e ← checked_add o s; Ok (mkRowScale rows columns code o s e))) by (by destruct Hf as [[-> ->] | [-> ->]]).
  rewrite E. split.
  - intros H. checked H. simp_bool. by simp_res.
  - intros (? & ? & Hend & ->). rewrite (proj2 (Z.eqb_neq rows 0)), (proj2 (Z.eqb_neq columns 0)) by done.
    cbn [orb throw_if mbind result_bind]. by run_checked.
Qed.

Lemma packed_u4_exact rows columns g : 0 <= rows -> 0 <= columns ->
  packed_u4_geometry U4Z8G16_F16S [rows; columns] = Ok g <->
  rows <> 0 /\ columns <> 0 /\ columns mod 16 = 0 /\ rows * columns <= U64_MAX /\
  let codes := rows * columns / 2 in
  let scales := rows * (columns / 16) * 2 in
  round_up codes 256 + scales <= U64_MAX /\
  g = mkPackedU4 rows columns (columns / 16) codes (round_up codes 256) scales (round_up codes 256 + scales).
Proof.
  intros Hr Hc. unfold packed_u4_geometry. rewrite bool_decide_eq_true_2 by done. cbn [negb throw_if mbind result_bind].
  assert (He2 : 0 <= rows * columns / 2) by nonneg. assert (Hg : 0 <= rows * (columns / 16)) by nonneg.
  destruct (round_up_spec 256 eq_refl (rows * columns / 2)) as [_ Hu]. split.
  - intros H. assert (0 <= columns / 16) by nonneg. checked H. simp_bool. by simp_res.
  - intros (? & ? & Hc0 & He & Hend & ->). cbn zeta in Hend.
    rewrite (proj2 (Z.eqb_neq rows 0)), (proj2 (Z.eqb_neq columns 0)), Hc0 by done. cbn [negb orb Z.eqb throw_if mbind result_bind].
    by run_checked.
Qed.

Lemma product_nonneg shape : Forall (fun d => 0 <= d) shape -> 0 <= product shape.
Proof. induction 1; cbn; [lia|]. nonneg. Qed.

Lemma multiply_dimensions acc shape e : 0 < acc <= U64_MAX -> Forall (fun d => 0 <= d) shape ->
  rfor multiply_dimension acc shape = Ok e <->
  forallb (fun dim => negb (dim =? 0)) shape = true /\ acc * product shape <= U64_MAX /\ e = acc * product shape.
Proof.
  intros Ha H. revert acc Ha. induction H as [|d shape Hd Hs IH]; intros acc Ha; cbn [rfor forallb].
  { change (product []) with 1. rewrite Z.mul_1_r. split; [intros [= <-]|intros (_ & _ & ->)]; naive_solver lia. }
  change (product (d :: shape)) with (d * product shape). pose proof (product_nonneg _ Hs).
  destruct (Z.eqb_spec d 0) as [->|Hd0]; [cbn; split; [done|by intros []]|]. cbn [negb andb].
  assert (Em : multiply_dimension acc d = checked_mul acc d) by (unfold multiply_dimension; by rewrite (proj2 (Z.eqb_neq d 0)) by done).
  rewrite Em.
  rewrite Z.mul_assoc. split.
  - intros H1. apply bind_Ok in H1 as (x & Hx & H1). apply checked_mul_iff in Hx as [-> Hx]; [|lia|lia].
    by apply (IH (acc * d)) in H1; [|nia].
  - intros (Hall & Hle & ->). assert (Hpos : 0 < product shape).
    { clear -Hs Hall. induction Hs as [|d shape Hd Hs IH]; cbn in *; [lia|]. simp_bool. specialize (IH ltac:(done)). unfold product in *. nia. }
    rewrite checked_mul_run by nia. by apply IH; [nia|].
Qed.

Lemma direct_word format word : direct_word_bytes format = Ok word -> 0 < word.
Proof. destruct format; cbn; try discriminate; intros [= <-]; done. Qed.

Lemma contiguous_exact format shape n : Forall (fun d => 0 <= d) shape ->
  tensor_encoded_size ContiguousLeV1 format shape = Ok n <->
  exists word, (vsize shape <=? 16) && forallb (fun dim => negb (dim =? 0)) shape = true /\ direct_word_bytes format = Ok word /\
    product shape * word <= U64_MAX /\ n = product shape * word.
Proof.
  intros Hs. pose proof (product_nonneg _ Hs) as Hp. cbn [tensor_encoded_size].
  assert (H1 : 0 < 1 <= U64_MAX) by done. split.
  - intros H. apply bind_Ok in H as ([] & Hr%throw_if_Ok & H). apply bind_Ok in H as (e & He & H). apply bind_Ok in H as (word & Hw & H).
    apply (multiply_dimensions 1) in He as (Hall & Hle & ->); [|done|done]. rewrite Z.mul_1_l in *. pose proof (direct_word _ _ Hw).
    apply checked_mul_iff in H as [-> H]; [|lia|lia]. exists word. rewrite Hall, andb_true_r. simp_bool. split; [by apply Z.leb_le|done].
  - intros (word & Hc & Hw & Hle & ->). simp_bool. pose proof (direct_word _ _ Hw).
    rewrite (proj2 (Z.ltb_ge 16 (vsize shape))) by lia. cbn [throw_if mbind result_bind].
    assert (He : rfor multiply_dimension 1 shape = Ok (product shape)).
    { apply multiply_dimensions; [done|done|]. rewrite Z.mul_1_l. split; [done|]. split; [nia|done]. }
    rewrite He. cbn [mbind result_bind]. rewrite Hw. cbn [mbind result_bind]. apply checked_mul_iff; [lia|lia|done].
Qed.

(** What the geometry of a layout promises: the planes of the reference, when their counts fit. *)
Definition exact_layout (layout : StorageLayout) (format : NumericFormat) (shape : list Z) : Prop :=
  (forall n, tensor_encoded_size layout format shape = Ok n <->
     exists sizes, plane_sizes layout format shape = Some sizes /\ work_count layout shape <= U64_MAX /\
       n = placed_end 0 sizes /\ n <= U64_MAX) /\
  (forall n sizes, tensor_encoded_size layout format shape = Ok n -> plane_sizes layout format shape = Some sizes ->
     geometry_planes layout format shape = Ok (place 0 sizes) /\ Forall (fun n => 0 <= n) sizes).

(** The pattern of the layouts below: the geometry has the planes of the reference, and fails only when
    they do not exist or do not fit. *)
Lemma exact_layout_intro {G} layout format shape (geometry : result G) (bytes : G -> Z) (planes : G -> list (Z * Z)) :
  (forall n, tensor_encoded_size layout format shape = Ok n <-> exists g, geometry = Ok g /\ n = bytes g) ->
  geometry_planes layout format shape = (g ← geometry; Ok (planes g)) ->
  (forall g, geometry = Ok g -> exists sizes, plane_sizes layout format shape = Some sizes /\ work_count layout shape <= U64_MAX /\
     placed_end 0 sizes <= U64_MAX /\ bytes g = placed_end 0 sizes /\ planes g = place 0 sizes /\ Forall (fun n => 0 <= n) sizes) ->
  (forall sizes, plane_sizes layout format shape = Some sizes -> work_count layout shape <= U64_MAX -> placed_end 0 sizes <= U64_MAX ->
     exists g, geometry = Ok g) ->
  exact_layout layout format shape.
Proof.
  intros Ht Hg Hfwd Hbwd. unfold exact_layout. rewrite Hg. split.
  - intros n. rewrite Ht. split.
    + intros (g & E & ->). destruct (Hfwd g E) as (sizes & ? & ? & ? & Hb & _). exists sizes. by rewrite Hb.
    + intros (sizes & Hs & Hw & -> & Hle). destruct (Hbwd sizes Hs Hw Hle) as [g E]. exists g. split; [done|].
      destruct (Hfwd g E) as (sizes' & Hs' & _ & _ & Hb & _). congruence.
  - intros n sizes (g & E & _)%Ht Hs. destruct (Hfwd g E) as (sizes' & Hs' & _ & _ & _ & Hp & Hn).
    rewrite Hs' in Hs. injection Hs as <-. rewrite E. cbn [mbind result_bind]. by rewrite Hp.
Qed.

(** A layout whose size is the size of its geometry, under a guard. *)
Lemma guarded_size {G} (c : bool) (geometry : result G) (bytes : G -> Z) n : c = false ->
  (_ ← throw_if c RuntimeError; g ← geometry; Ok (bytes g)) = Ok n <-> exists g, geometry = Ok g /\ n = bytes g.
Proof. intros ->. cbn [throw_if mbind result_bind]. rewrite bind_Ok. naive_solver. Qed.

Lemma contiguous_layout format shape : Forall (fun d => 0 <= d) shape -> exact_layout ContiguousLeV1 format shape.
Proof.
  intros Hs. pose proof (product_nonneg _ Hs) as Hp. unfold exact_layout, geometry_planes, plane_sizes, work_count.
  setoid_rewrite (contiguous_exact format shape _ Hs). split.
  - intros n. split.
    + intros (word & -> & Hw & Hle & ->). rewrite Hw. by exists [product shape * word].
    + intros (sizes & H & _ & -> & Hle). case_match eqn:Hc; [|done]. destruct (direct_word_bytes format) as [word|] eqn:Hw; [|done].
      injection H as <-. by exists word.
  - intros n sizes (word & Hc & Hw & Hle & ->) H. rewrite Hc, Hw in H. injection H as <-. pose proof (direct_word _ _ Hw).
    assert (Ht : tensor_encoded_size ContiguousLeV1 format shape = Ok (product shape * word)).
    { apply contiguous_exact; [done|]. by exists word. }
    rewrite Ht. split; [done|]. apply Forall_singleton. nonneg.
Qed.

Lemma row_split_layout format shape : Forall (fun d => 0 <= d) shape -> exact_layout RowSplitK128V1 format shape.
Proof.
  intros Hs. apply (exact_layout_intro _ _ _ (row_split_geometry format shape) rs_encoded_bytes
    (fun g => [(0, rs_low_plane_bytes g); (rs_high_plane_offset g, rs_high_plane_bytes g); (rs_scale_plane_offset g, rs_scale_plane_bytes g)])).
  - intros n. cbn [tensor_encoded_size]. destruct shape as [|rows [|columns [|? ?]]]; [naive_solver|naive_solver| |naive_solver].
    rewrite bind_Ok. cbn [row_split_geometry]. destruct ((rows =? 0) || (columns =? 0)); [naive_solver|].
    setoid_rewrite bind_Ok. cbn [throw_if]. naive_solver.
  - reflexivity.
  - intros g E. destruct shape as [|rows [|columns [|? ?]]]; [done|done| |done]. simp_forall.
    apply row_split_exact in E as (q & Hz & Hq & Hp & Hend & ->); [|done|done]. cbn zeta in *. set (groups := rows * _) in *.
    exists [groups * qg_base_bytes_per_group q; groups * qg_high_bytes_per_group q; groups * 2].
    destruct (place_3 (groups * qg_base_bytes_per_group q) (groups * qg_high_bytes_per_group q) (groups * 2)) as [Epl Eend].
    destruct (round_up_spec 128 eq_refl columns) as [_ Hpad]. cbn [plane_sizes]. rewrite Hz, Hq, Epl, Eend.
    repeat split; [done|done|]. assert (0 < qg_group_size q /\ 0 <= qg_high_bytes_per_group q /\ 0 <= qg_base_bytes_per_group q)
      by (destruct format; cbn in Hq; try discriminate; injection Hq as <-; cbn; lia).
    assert (0 <= groups) by (unfold groups; nonneg). simp_forall; nonneg.
  - intros sizes Hsz Hw Hle. destruct shape as [|rows [|columns [|? ?]]]; try done. simp_forall. cbn [plane_sizes] in Hsz.
    destruct ((rows =? 0) || (columns =? 0)) eqn:Hz; [done|]. destruct (quant_geometry format) as [q|] eqn:Hq; [|done]. injection Hsz as <-.
    set (groups := rows * _) in *.
    destruct (place_3 (groups * qg_base_bytes_per_group q) (groups * qg_high_bytes_per_group q) (groups * 2)) as [_ Eend].
    rewrite Eend in Hle. eexists. apply row_split_exact; [done|done|]. exists q. done.
Qed.

Lemma block_scale_layout format shape : Forall (fun d => 0 <= d) shape -> exact_layout BlockScaleK16M128x4V1 format shape.
Proof.
  intros Hs. apply (exact_layout_intro _ _ _ (block_scale_geometry format shape) bs_encoded_bytes
    (fun g => [(0, bs_code_plane_bytes g); (bs_scale_plane_offset g, bs_scale_plane_bytes g); (bs_weight_divisor_offset g, 4)])).
  - intros n. cbn [tensor_encoded_size]. rewrite bind_Ok. naive_solver.
  - reflexivity.
  - intros g E. destruct (decide (format = NVFP4)) as [->|Hf];
      [|unfold block_scale_geometry in E; by rewrite bool_decide_eq_false_2 in E].
    destruct shape as [|rows [|columns [|? ?]]]; try done. simp_forall.
    apply block_scale_exact in E as (Hr0 & Hc0 & Hr & Hc & He & Hend & ->); [|done|done]. cbn zeta in *.
    destruct (block_planes 1 rows columns Hr Hc) as [Hd1 Hd2]. rewrite Z.mul_1_l in *.
    exists [rows * columns / 2; rows * columns / 16; 4]. destruct (place_3 (rows * columns / 2) (rows * columns / 16) 4) as [Epl Eend].
    rewrite Epl, Eend, (round_up_id 256 eq_refl _ Hd1), (round_up_id 256 eq_refl _ Hd2). cbn [plane_sizes work_count product foldr].
    rewrite Hr, Hc, (proj2 (Z.eqb_neq rows 0)), (proj2 (Z.eqb_neq columns 0)), Z.mul_1_r by done.
    repeat split; try done. simp_forall; nonneg.
  - intros sizes Hsz Hw Hle. destruct shape as [|rows [|columns [|? ?]]]; try done. simp_forall. cbn [plane_sizes] in Hsz.
    case_match eqn:Hc; [|done]. injection Hsz as <-. simp_bool. cbn [work_count product foldr] in Hw. rewrite Z.mul_1_r in Hw.
    destruct (block_planes 1 rows columns) as [Hd1 Hd2]; [lia|lia|]. rewrite Z.mul_1_l in *.
    destruct (place_3 (rows * columns / 2) (rows * columns / 16) 4) as [_ Eend].
    rewrite Eend, (round_up_id 256 eq_refl _ Hd1), (round_up_id 256 eq_refl _ Hd2) in Hle.
    assert (format = NVFP4) as -> by (by eapply bool_decide_eq_true_1). eexists. apply block_scale_exact; [done|done|]. done.
Qed.

Lemma bank_layout format shape : Forall (fun d => 0 <= d) shape -> exact_layout ExpertBlockScaleK16M128x4V1 format shape.
Proof.
  intros Hs. apply (exact_layout_intro _ _ _ (block_scale_bank_geometry format shape) bg_encoded_bytes
    (fun g => [(0, bg_code_plane_bytes g); (bg_scale_plane_offset g, bg_scale_plane_bytes g); (bg_weight_divisor_offset g, bg_weight_divisor_bytes g)])).
  - intros n. cbn [tensor_encoded_size]. rewrite bind_Ok. naive_solver.
  - reflexivity.
  - intros g E. destruct (decide (format = NVFP4)) as [->|Hf];
      [|unfold block_scale_bank_geometry in E; by rewrite bool_decide_eq_false_2 in E].
    destruct shape as [|experts [|rows [|columns [|? ?]]]]; try done. simp_forall.
    apply block_scale_bank_exact in E as (He0 & Hr0 & Hc0 & Hr & Hc & He & Hend & ->); [|done|done|done]. cbn zeta in *.
    destruct (block_planes experts rows columns Hr Hc) as [Hd1 Hd2].
    exists [experts * rows * columns / 2; experts * rows * columns / 16; experts * 4].
    destruct (place_3 (experts * rows * columns / 2) (experts * rows * columns / 16) (experts * 4)) as [Epl Eend].
    rewrite Epl, Eend, (round_up_id 256 eq_refl _ Hd1), (round_up_id 256 eq_refl _ Hd2). cbn [plane_sizes work_count product foldr].
    rewrite Hr, Hc, (proj2 (Z.eqb_neq experts 0)), (proj2 (Z.eqb_neq rows 0)), (proj2 (Z.eqb_neq columns 0)), Z.mul_1_r, Z.mul_assoc by done.
    repeat split; try done. simp_forall; nonneg.
  - intros sizes Hsz Hw Hle. destruct shape as [|experts [|rows [|columns [|? ?]]]]; try done. simp_forall. cbn [plane_sizes] in Hsz.
    case_match eqn:Hc; [|done]. injection Hsz as <-. simp_bool. cbn [work_count product foldr] in Hw. rewrite Z.mul_1_r, Z.mul_assoc in Hw.
    destruct (block_planes experts rows columns) as [Hd1 Hd2]; [lia|lia|].
    destruct (place_3 (experts * rows * columns / 2) (experts * rows * columns / 16) (experts * 4)) as [_ Eend].
    rewrite Eend, (round_up_id 256 eq_refl _ Hd1), (round_up_id 256 eq_refl _ Hd2) in Hle.
    assert (format = NVFP4) as -> by (by eapply bool_decide_eq_true_1). eexists. apply block_scale_bank_exact; [done|done|done|]. done.
Qed.

(** Both layouts of rows with a scale each; [own] is the format the layout is for. *)
Lemma row_scale_layout layout own word format shape : Forall (fun d => 0 <= d) shape ->
  layout = RowScaleV1 /\ own = FP8_E4M3FN_ROW_BF16S /\ word = 2 \/ layout = RowScaleF32V1 /\ own = FP8_E4M3FN_ROW_F32S /\ word = 4 ->
  exact_layout layout format shape.
Proof.
  intros Hs Hlay. destruct (decide (format = own)) as [->|Hf].
  2: { unfold exact_layout. assert (Ht : tensor_encoded_size layout format shape = Err RuntimeError).
       { destruct Hlay as [(-> & -> & _) | (-> & -> & _)]; cbn [tensor_encoded_size]; by rewrite bool_decide_eq_false_2. }
       rewrite Ht. split; [|done]. intros n. split; [done|]. intros (sizes & Hz & _).
       destruct Hlay as [(-> & -> & _) | (-> & -> & _)]; destruct shape as [|? [|? [|? ?]]]; try done; cbn [plane_sizes] in Hz;
         by rewrite bool_decide_eq_false_2 in Hz. }
  assert (Hword : 0 < word /\ (own = FP8_E4M3FN_ROW_BF16S /\ word = 2 \/ own = FP8_E4M3FN_ROW_F32S /\ word = 4)) by naive_solver.
  destruct Hword as [Hpos Hword].
  assert (Hsz : forall rows columns, plane_sizes layout own [rows; columns] =
      if negb (rows =? 0) && negb (columns =? 0) then Some [rows * columns; rows * word] else None).
  { intros. by destruct Hlay as [(-> & -> & ->) | (-> & -> & ->)]; cbn [plane_sizes]; rewrite bool_decide_eq_true_2. }
  assert (Hnone : forall sizes, plane_sizes layout own shape = Some sizes -> exists rows columns, shape = [rows; columns]).
  { intros sizes. destruct Hlay as [(-> & _) | (-> & _)]; destruct shape as [|? [|? [|? ?]]]; try done; eauto. }
  assert (Hw : work_count layout shape = 0) by (by destruct Hlay as [(-> & _) | (-> & _)]).
  apply (exact_layout_intro _ _ _ (row_scale_geometry own shape) rg_encoded_bytes
    (fun g => [(0, rg_code_plane_bytes g); (rg_scale_plane_offset g, rg_scale_plane_bytes g)])).
  - intros n. destruct Hlay as [(-> & -> & _) | (-> & -> & _)]; cbn [tensor_encoded_size]; apply guarded_size; by rewrite bool_decide_eq_true_2.
  - by destruct Hlay as [(-> & _) | (-> & _)].
  - intros g E. assert (exists rows columns, shape = [rows; columns]) as (rows & columns & ->).
    { destruct Hword as [[-> _] | [-> _]]; destruct shape as [|? [|? [|? ?]]]; try done; eauto. }
    simp_forall. apply (row_scale_exact own word) in E as (Hr0 & Hc0 & Hend & ->); [|done|done|done].
    exists [rows * columns; rows * word]. destruct (place_2 (rows * columns) (rows * word)) as [Epl Eend].
    rewrite Epl, Eend, Hw, Hsz, (proj2 (Z.eqb_neq rows 0)), (proj2 (Z.eqb_neq columns 0)) by done.
    repeat split; try done. simp_forall; nonneg.
  - intros sizes E _ Hle. destruct (Hnone sizes E) as (rows & columns & ->). simp_forall. rewrite Hsz in E.
    destruct (negb (rows =? 0) && negb (columns =? 0)) eqn:Hc; [|done]. injection E as <-. simp_bool.
    destruct (place_2 (rows * columns) (rows * word)) as [_ Eend]. rewrite Eend in Hle.
    eexists. apply (row_scale_exact own word); [done|done|done|]. done.
Qed.

Lemma packed_u4_layout format shape : Forall (fun d => 0 <= d) shape -> exact_layout PackedU4G16V1 format shape.
Proof.
  intros Hs. apply (exact_layout_intro _ _ _ (packed_u4_geometry format shape) pu_encoded_bytes
    (fun g => [(0, pu_code_plane_bytes g); (pu_scale_plane_offset g, pu_scale_plane_bytes g)])).
  - intros n. cbn [tensor_encoded_size]. rewrite bind_Ok. naive_solver.
  - reflexivity.
  - intros g E. destruct (decide (format = U4Z8G16_F16S)) as [->|Hf];
      [|unfold packed_u4_geometry in E; by rewrite bool_decide_eq_false_2 in E].
    destruct shape as [|rows [|columns [|? ?]]]; try done. simp_forall.
    apply packed_u4_exact in E as (Hr0 & Hc0 & Hc & He & Hend & ->); [|done|done]. cbn zeta in *.
    exists [rows * columns / 2; rows * (columns / 16) * 2]. destruct (place_2 (rows * columns / 2) (rows * (columns / 16) * 2)) as [Epl Eend].
    rewrite Epl, Eend. cbn [plane_sizes work_count product foldr].
    rewrite Hc, (proj2 (Z.eqb_neq rows 0)), (proj2 (Z.eqb_neq columns 0)), Z.mul_1_r by done.
    repeat split; try done. simp_forall; nonneg.
  - intros sizes Hsz Hw Hle. destruct shape as [|rows [|columns [|? ?]]]; try done. simp_forall. cbn [plane_sizes] in Hsz.
    case_match eqn:Hc; [|done]. injection Hsz as <-. simp_bool. cbn [work_count product foldr] in Hw. rewrite Z.mul_1_r in Hw.
    destruct (place_2 (rows * columns / 2) (rows * (columns / 16) * 2)) as [_ Eend]. rewrite Eend in Hle.
    assert (format = U4Z8G16_F16S) as -> by (by eapply bool_decide_eq_true_1). eexists. apply packed_u4_exact; [done|done|]. done.
Qed.

Lemma every_layout_exact layout format shape : Forall (fun d => 0 <= d) shape -> exact_layout layout format shape.
Proof.
  intros Hs. destruct layout; [by apply contiguous_layout|by apply row_split_layout|by apply block_scale_layout| |
    |by apply packed_u4_layout|by apply bank_layout].
  - by eapply row_scale_layout; [|left].
  - by eapply row_scale_layout; [|right].
Qed.

(** C17. The stored size of a tensor is exact, in every layout: the code accepts a format and a shape exactly when
    the planes of the reference exist, where they end fits in 64 bits, and so does the count the code computes on
    the way, the padded columns of row-split tensors and the elements of block-scaled and packed ones; it
    returns where the planes end. The offsets and sizes of the planes in its geometry are exactly those of the
    reference, one behind the other, each aligned to 256 bytes, disjoint and inside the size. *)
Theorem encoded_size_exact layout format shape : Forall is_u64 shape ->
  (forall n, tensor_encoded_size layout format shape = Ok n <->
     exists sizes, plane_sizes layout format shape = Some sizes /\ work_count layout shape <= U64_MAX /\
       n = placed_end 0 sizes /\ n <= U64_MAX) /\
  (forall n, tensor_encoded_size layout format shape = Ok n ->
     exists sizes, plane_sizes layout format shape = Some sizes /\
       geometry_planes layout format shape = Ok (place 0 sizes) /\ planes_sound n (place 0 sizes)).
Proof.
  intros Hs. assert (Hs0 : Forall (fun d => 0 <= d) shape) by (eapply Forall_impl; [exact Hs|]; intros d []; done).
  destruct (every_layout_exact layout format shape Hs0) as [Hsize Hplanes]. split; [done|]. intros n Hn.
  pose proof Hn as (sizes & Hsz & _ & -> & _)%Hsize. destruct (Hplanes _ _ Hn Hsz) as [Hg Hnn].
  exists sizes. split; [done|]. split; [done|]. by apply place_sound.
Qed.

Lemma encoded_size_exact_witness :
  tensor_encoded_size RowSplitK128V1 Q5G64_F16S [3; 200] = Ok 792 /\
  exists sizes, plane_sizes RowSplitK128V1 Q5G64_F16S [3; 200] = Some sizes /\
    geometry_planes RowSplitK128V1 Q5G64_F16S [3; 200] = Ok (place 0 sizes) /\ planes_sound 792 (place 0 sizes).
Proof.
  split; [reflexivity|].
  apply (encoded_size_exact RowSplitK128V1 Q5G64_F16S [3; 200]); [|reflexivity].
  simp_forall; unfold is_u64, U64_MAX; lia.
Defined.
