(* ===== verification/ArtifactReader.v ===== *)
(** The reader of model artifacts (src/src/artifact/reader.cpp): prefix, JSON directory, objects and their
    payloads. The mapped file is a list of bytes; the JSON library is the parameter [parse], which gives the
    value of a text or throws. [write_artifact] is the format the reader is for. *)
From stdpp Require Import strings gmap.
From S2P Require Import Prelude StorageLayouts.

(** * JSON values, as the library hands them out *)
Inductive Json : Type :=
  | JNull
  | JBool (b : bool)
  | JUnsigned (n : Z)
  | JNegative (n : Z)
  | JFloat (bits : Z)
  | JString (s : string)
  | JArray (l : list Json)
  | JObject (members : list (string * Json)).

Definition is_object (value : Json) : bool := match value with JObject _ => true | _ => false end.

Definition json_size (value : Json) : Z :=
  match value with
  | JNull => 0
  | JArray l => vsize l
  | JObject m => vsize m
  | _ => 1
  end.

Definition json_find (value : Json) (key : string) : option Json :=
  match value with
  | JObject m => snd <$> List.find (fun kv => bool_decide (kv.1 = key)) m
  | _ => None
  end.

Definition contains (value : Json) (key : string) : bool := match json_find value key with Some _ => true | None => false end.

(** [value.at(key)] throws [Json::out_of_range]. *)
Definition json_at (value : Json) (key : string) : result Json :=
  match json_find value key with Some v => Ok v | None => Err OutOfRange end.

(** * Checks of the directory *)
Definition require_members (value : Json) (members : list string) : result unit :=
  _ ← throw_if (negb (is_object value) || negb (json_size value =? vsize members)) RuntimeError;
  rfor (fun _ member => throw_if (negb (contains value member)) RuntimeError) tt members.

Definition require_string (value : Json) : result string :=
  match value with
  | JString s => _ ← throw_if (bool_decide (s = ""%string)) RuntimeError; Ok s
  | _ => Err RuntimeError
  end.

Definition require_unsigned (value : Json) (positive : bool) : result Z :=
  match value with
  | JUnsigned n => _ ← throw_if (positive && (n =? 0)) RuntimeError; Ok n
  | _ => Err RuntimeError
  end.

Definition parse_format (name : string) : result NumericFormat :=
  if decide (name = "BF16"%string) then Ok BF16 else
  if decide (name = "FP32"%string) then Ok FP32 else
  if decide (name = "I32"%string) then Ok I32 else
  if decide (name = "I64"%string) then Ok I64 else
  if decide (name = "Q4G64_F16S"%string) then Ok Q4G64_F16S else
  if decide (name = "Q5G64_F16S"%string) then Ok Q5G64_F16S else
  if decide (name = "Q6G64_F16S"%string) then Ok Q6G64_F16S else
  if decide (name = "W8G32_F16S"%string) then Ok W8G32_F16S else
  if decide (name = "NVFP4"%string) then Ok NVFP4 else
  if decide (name = "FP8_E4M3FN_ROW_BF16S"%string) then Ok FP8_E4M3FN_ROW_BF16S else
  if decide (name = "FP8_E4M3FN_ROW_F32S"%string) then Ok FP8_E4M3FN_ROW_F32S else
  if decide (name = "U4Z8G16_F16S"%string) then Ok U4Z8G16_F16S else
  Err RuntimeError.

Definition parse_layout (name : string) : result StorageLayout :=
  if decide (name = "contiguous-le-v1"%string) then Ok ContiguousLeV1 else
  if decide (name = "row-split-k128-v1"%string) then Ok RowSplitK128V1 else
  if decide (name = "blockscale-k16-m128x4-v1"%string) then Ok BlockScaleK16M128x4V1 else
  if decide (name = "row-scale-v1"%string) then Ok RowScaleV1 else
  if decide (name = "row-scale-f32-v1"%string) then Ok RowScaleF32V1 else
  if decide (name = "packed-u4-g16-v1"%string) then Ok PackedU4G16V1 else
  if decide (name = "expert-blockscale-k16-m128x4-v1"%string) then Ok ExpertBlockScaleK16M128x4V1 else
  Err RuntimeError.

Definition parse_encoding (name : string) : result ResourceEncoding :=
  if decide (name = "raw-bytes-v1"%string) then Ok RawBytesV1 else Err RuntimeError.

(** * Objects *)
Record TensorDescriptor : Type := mkTensorDescriptor {
  td_name : string; td_shape : list Z; td_format : NumericFormat; td_layout : StorageLayout; td_offset : Z; td_bytes : Z;
}.

Record ResourceDescriptor : Type := mkResourceDescriptor {
  rd_name : string; rd_encoding : ResourceEncoding; rd_offset : Z; rd_bytes : Z;
}.

Inductive ObjectDescriptor : Type :=
  | TensorObject (t : TensorDescriptor)
  | ResourceObject (r : ResourceDescriptor).

Definition object_name (object : ObjectDescriptor) : string :=
  match object with TensorObject t => td_name t | ResourceObject r => rd_name r end.
Definition object_offset (object : ObjectDescriptor) : Z :=
  match object with TensorObject t => td_offset t | ResourceObject r => rd_offset r end.
Definition object_bytes (object : ObjectDescriptor) : Z :=
  match object with TensorObject t => td_bytes t | ResourceObject r => rd_bytes r end.
Definition object_alignment (object : ObjectDescriptor) : Z :=
  match object with TensorObject t => tensor_alignment (td_layout t) | ResourceObject r => resource_alignment (rd_encoding r) end.

Definition tensor_members : list string := ["name"; "kind"; "shape"; "format"; "layout"; "offset"; "bytes"]%string.
Definition resource_members : list string := ["name"; "kind"; "encoding"; "offset"; "bytes"]%string.

Definition parse_tensor (value : Json) : result TensorDescriptor :=
  _ ← require_members value tensor_members;
  name ← (v ← json_at value "name"; require_string v);
  format ← (v ← json_at value "format"; name ← require_string v; parse_format name);
  layout ← (v ← json_at value "layout"; name ← require_string v; parse_layout name);
  offset ← (v ← json_at value "offset"; require_unsigned v false);
  stored_size ← (v ← json_at value "bytes"; require_unsigned v true);
  raw_shape ← json_at value "shape";
  match raw_shape with
  | JArray dims =>
      shape ← rmap (fun dim => require_unsigned dim true) dims;
      expected_size ← tensor_encoded_size layout format shape;
      _ ← throw_if (negb (stored_size =? expected_size)) RuntimeError;
      Ok (mkTensorDescriptor name shape format layout offset stored_size)
  | _ => Err RuntimeError
  end.

Definition parse_resource (value : Json) : result ResourceDescriptor :=
  _ ← require_members value resource_members;
  name ← (v ← json_at value "name"; require_string v);
  encoding ← (v ← json_at value "encoding"; name ← require_string v; parse_encoding name);
  offset ← (v ← json_at value "offset"; require_unsigned v false);
  bytes ← (v ← json_at value "bytes"; require_unsigned v true);
  Ok (mkResourceDescriptor name encoding offset bytes).

Definition parse_object (value : Json) : result ObjectDescriptor :=
  _ ← throw_if (negb (is_object value)) RuntimeError;
  match json_find value "kind" with
  | Some (JString kind) =>
      if decide (kind = "tensor"%string) then t ← parse_tensor value; Ok (TensorObject t) else
      if decide (kind = "resource"%string) then r ← parse_resource value; Ok (ResourceObject r) else
      Err RuntimeError
  | _ => Err RuntimeError
  end.

(** * The file *)
Definition kMagic : list Z := [78; 73; 78; 70; 69; 82; 0; 2].
Definition kPrefixBytes : Z := 16.
Definition kPayloadAlignment : Z := 4096.

(** [read_u64_le(file.data() + 8)]: eight bytes, the lowest first. *)
Definition read_u64_le (data : list Z) : Z :=
  foldl Z.lor 0 (imap (fun i byte => wrap64 (Z.shiftl byte (Z.of_nat i * 8))) (take 8 data)).

Record ArtifactIdentity : Type := mkIdentity { ai_model_id : string; ai_weights_id : string }.

(** [Reader::Impl]. *)
Record Reader : Type := mkReader {
  rd_file : list Z;
  rd_identity : ArtifactIdentity;
  rd_entries : list ObjectDescriptor;
  rd_index : gmap string nat;
  rd_payload_start : Z;
}.

(** The loop over the directory: the cursor, the entries and their index. *)
Record directory : Type := mkDirectory { dir_cursor : Z; dir_entries : list ObjectDescriptor; dir_index : gmap string nat }.

Definition add_object (payload_bytes : Z) (d : directory) (raw_object : Json) : result directory :=
  object ← parse_object raw_object;
  let name := object_name object in
  let offset := object_offset object in
  let bytes := object_bytes object in
  let alignment := object_alignment object in
  _ ← throw_if (offset <? dir_cursor d) RuntimeError;
  _ ← throw_if (negb (offset mod alignment =? 0)) RuntimeError;
  end_ ← checked_add offset bytes;
  _ ← throw_if (payload_bytes <? end_) RuntimeError;
  let object_index := length (dir_entries d) in
  _ ← throw_if (bool_decide (is_Some (dir_index d !! name))) RuntimeError;
  Ok (mkDirectory end_ (dir_entries d ++ [object]) (<[name := object_index]> (dir_index d))).

(** The constructor of [Reader::Impl] on a mapped file. *)
Definition open_artifact (parse : list Z -> option Json) (file : list Z) : result Reader :=
  _ ← throw_if (vsize file <? kPrefixBytes) RuntimeError;
  _ ← throw_if (negb (bool_decide (take 8 file = kMagic))) RuntimeError;
  let json_bytes := read_u64_le (drop 8 file) in
  _ ← throw_if (json_bytes =? 0) RuntimeError;
  metadata_end ← checked_add kPrefixBytes json_bytes;
  payload_start ← align_up metadata_end kPayloadAlignment;
  _ ← throw_if ((vsize file <? metadata_end) || (vsize file <? payload_start)) RuntimeError;
  directory ← match parse (mem_slice file kPrefixBytes json_bytes) with Some d => Ok d | None => Err RuntimeError end;
  _ ← require_members directory ["identity"; "objects"]%string;
  raw_identity ← json_at directory "identity";
  _ ← require_members raw_identity ["model_id"; "weights_id"]%string;
  model_id ← (v ← json_at raw_identity "model_id"; require_string v);
  weights_id ← (v ← json_at raw_identity "weights_id"; require_string v);
  raw_objects ← json_at directory "objects";
  match raw_objects with
  | JArray (raw :: raws) =>
      let payload_bytes := vsize file - payload_start in
      d ← rfor (add_object payload_bytes) (mkDirectory 0 [] ∅) (raw :: raws);
      Ok (mkReader file (mkIdentity model_id weights_id) (dir_entries d) (dir_index d) payload_start)
  | _ => Err RuntimeError
  end.

(** * The reader *)
Definition file_bytes (r : Reader) : Z := vsize (rd_file r).
Definition payload_offset (r : Reader) : Z := rd_payload_start r.

(** A pointer to an entry is its position. *)
Definition find (r : Reader) (name : string) : option ObjectDescriptor :=
  match rd_index r !! name with
  | Some i => rd_entries r !! i
  | None => None
  end.

Record PayloadSpan : Type := mkPayload { ps_absolute_offset : Z; ps_data : list Z }.

Definition payload (r : Reader) (object : ObjectDescriptor) : result PayloadSpan :=
  absolute ← checked_add (rd_payload_start r) (object_offset object);
  end_ ← checked_add absolute (object_bytes object);
  _ ← throw_if (file_bytes r <? end_) RuntimeError;
  Ok (mkPayload absolute (mem_slice (rd_file r) absolute (object_bytes object))).

Definition payload_by_name (r : Reader) (name : string) : result PayloadSpan :=
  match find r name with
  | Some object => payload r object
  | None => Err RuntimeError
  end.

(** * What the reader guarantees *)

(** The numbers of a JSON value fit the type the library stores them in ([std::uint64_t]). *)
Fixpoint json_ok (value : Json) : bool :=
  match value with
  | JUnsigned n => (0 <=? n) && (n <=? U64_MAX)
  | JArray l => forallb json_ok l
  | JObject m => forallb (fun kv => json_ok (snd kv)) m
  | _ => true
  end.

(** An object that can be stored: positive size, and for a tensor the size of its layout. *)
Definition object_sound (o : ObjectDescriptor) : Prop :=
  is_u64 (object_offset o) /\ 0 < object_bytes o <= U64_MAX /\
  match o with
  | TensorObject t => Forall is_u64 (td_shape t) /\ tensor_encoded_size (td_layout t) (td_format t) (td_shape t) = Ok (td_bytes t)
  | ResourceObject _ => True
  end.

Lemma json_find_ok value key v : json_ok value = true -> json_find value key = Some v -> json_ok v = true.
Proof.
  intros Hok Hf. destruct value as [| | | | | | |m]; try done. cbn in Hok, Hf. rewrite forallb_forall in Hok.
  destruct (List.find _ m) as [kv|] eqn:E; [|done]. injection Hf as <-. apply List.find_some in E as [Hin _]. by apply Hok.
Qed.

Lemma json_at_ok value key v : json_ok value = true -> json_at value key = Ok v -> json_ok v = true.
Proof. unfold json_at. intros Hok H. destruct (json_find value key) eqn:E; [|done]. injection H as <-. by eapply json_find_ok. Qed.

Lemma require_unsigned_ok v positive n : json_ok v = true -> require_unsigned v positive = Ok n ->
  is_u64 n /\ (positive = true -> 0 < n) /\ v = JUnsigned n.
Proof.
  intros Hok H. destruct v; try done. cbn in *. simp_res. simp_bool. split; [done|]. split; [|done].
  intros ->. cbn in *. simp_bool. lia.
Qed.

Lemma member_unsigned_ok value key positive n : json_ok value = true ->
  (v ← json_at value key; require_unsigned v positive) = Ok n -> is_u64 n /\ (positive = true -> 0 < n).
Proof.
  intros Hok H. apply bind_Ok in H as (v & Hv & H). destruct (require_unsigned_ok v positive n) as (? & ? & _); [|done|done].
  by eapply json_at_ok.
Qed.

Lemma shape_ok dims shape : forallb json_ok dims = true -> rmap (fun dim => require_unsigned dim true) dims = Ok shape -> Forall is_u64 shape.
Proof.
  intros Hok H%rmap_Ok. rewrite forallb_forall in Hok. induction H as [|dim n dims shape Hd _ IH]; [apply Forall_nil_2|].
  apply Forall_cons_2; [|apply IH; intros x Hx; apply Hok; by right].
  destruct (require_unsigned_ok dim true n) as [? _]; [by apply Hok; left|done|done].
Qed.

Lemma parse_tensor_sound value t : json_ok value = true -> parse_tensor value = Ok t -> object_sound (TensorObject t).
Proof.
  intros Hok H. unfold parse_tensor in H. apply bind_Ok in H as ([] & _ & H). apply bind_Ok in H as (name & _ & H).
  apply bind_Ok in H as (format & _ & H). apply bind_Ok in H as (layout & _ & H).
  apply bind_Ok in H as (offset & [Ho _]%member_unsigned_ok & H); [|done].
  apply bind_Ok in H as (bytes & [Hb Hp]%member_unsigned_ok & H); [|done]. specialize (Hp eq_refl).
  apply bind_Ok in H as (raw & Hraw & H). apply json_at_ok in Hraw; [|done]. destruct raw as [| | | | | |dims|]; try done.
  apply bind_Ok in H as (shape & Hs & H). apply bind_Ok in H as (expected & He & H). simp_res. simp_bool. subst.
  destruct Hb. split; [done|]. split; [cbn; lia|]. split; [by eapply shape_ok|done].
Qed.

Lemma parse_object_sound value o : json_ok value = true -> parse_object value = Ok o -> object_sound o.
Proof.
  intros Hok H. unfold parse_object in H. apply bind_Ok in H as ([] & _ & H). destruct (json_find value "kind") as [[]|]; try done.
  case_decide; [|case_decide; [|done]].
  - apply bind_Ok in H as (t & Ht & H). injection H as <-. by eapply parse_tensor_sound.
  - apply bind_Ok in H as (r & Hr & H). injection H as <-. unfold parse_resource in Hr.
    apply bind_Ok in Hr as ([] & _ & Hr). apply bind_Ok in Hr as (name & _ & Hr). apply bind_Ok in Hr as (encoding & _ & Hr).
    apply bind_Ok in Hr as (offset & [Ho _]%member_unsigned_ok & Hr); [|done].
    apply bind_Ok in Hr as (bytes & [Hb Hp]%member_unsigned_ok & Hr); [|done]. injection Hr as <-.
    specialize (Hp eq_refl). destruct Hb. split; [done|]. split; [cbn; lia|done].
Qed.

(** The loop over the directory. *)
Record dir_ok (payload_bytes : Z) (d : directory) : Prop := {
  do_cursor : 0 <= dir_cursor d;
  do_objects : Forall (fun o => object_sound o /\ object_offset o mod object_alignment o = 0 /\
                                object_offset o + object_bytes o <= payload_bytes /\
                                object_offset o + object_bytes o <= dir_cursor d) (dir_entries d);
  do_ordered : forall i j o o', (i < j)%nat -> dir_entries d !! i = Some o -> dir_entries d !! j = Some o' ->
               object_offset o + object_bytes o <= object_offset o';
  do_index : forall name i, dir_index d !! name = Some i <-> exists o, dir_entries d !! i = Some o /\ object_name o = name;
}.

Lemma add_object_ok payload_bytes d raw d' : dir_ok payload_bytes d -> json_ok raw = true ->
  add_object payload_bytes d raw = Ok d' -> dir_ok payload_bytes d'.
Proof.
  intros [Hc Hf Ho Hi] Hok H. unfold add_object in H. apply bind_Ok in H as (o & Hp%parse_object_sound & H); [|done].
  apply bind_Ok in H as ([] & Hcur%throw_if_Ok & H). apply bind_Ok in H as ([] & Hal%throw_if_Ok & H).
  apply bind_Ok in H as (e & [-> He]%checked_add_iff & H). apply bind_Ok in H as ([] & Hend%throw_if_Ok & H).
  apply bind_Ok in H as ([] & Hname%throw_if_Ok & H). injection H as <-. simp_bool. pose proof Hp as ([Ho0 _] & [Hb0 _] & _).
  apply bool_decide_eq_false in Hname. split; cbn [dir_cursor dir_entries dir_index].
  - lia.
  - apply Forall_app. split; [|apply Forall_singleton; repeat split; try apply Hp; try done; lia].
    eapply Forall_impl; [exact Hf|]. cbn. intros o' (? & ? & ? & ?). repeat split; try apply H; try done; lia.
  - intros i j o1 o2 Hij H1 H2. apply lookup_app_Some in H2 as [H2 | [Hl H2]].
    + apply lookup_lt_Some in H2 as Hlt. rewrite lookup_app_l in H1 by lia. by eapply (Ho i j).
    + apply list_lookup_singleton_Some in H2 as [Hl' <-]. rewrite lookup_app_l in H1 by lia.
      eapply Forall_lookup_1 in Hf; [|exact H1]. destruct Hf as (_ & _ & _ & ?). lia.
  - intros name i. rewrite lookup_insert_Some. rewrite Hi. split.
    + intros [[<- <-] | [Hne (o' & Ho' & <-)]].
      * exists o. split; [|done]. by rewrite lookup_app_r, Nat.sub_diag by lia.
      * exists o'. split; [|done]. by apply lookup_app_l_Some.
    + intros (o' & Ho' & <-). apply lookup_app_Some in Ho' as [Ho' | [Hl Ho']].
      * right. split; [|by exists o']. intros Heq. apply Hname. exists i. apply Hi. exists o'. by rewrite Heq.
      * left. apply list_lookup_singleton_Some in Ho' as [Hl' <-]. split; [done|]. lia.
Qed.

Lemma add_objects_ok payload_bytes raws d d' : dir_ok payload_bytes d -> forallb json_ok raws = true ->
  rfor (add_object payload_bytes) d raws = Ok d' -> dir_ok payload_bytes d'.
Proof.
  revert d. induction raws as [|raw raws IH]; intros d Hd Hok H; cbn in *; [by injection H as <-|]. simp_bool.
  apply bind_Ok in H as (d1 & Hd1 & H). eapply (IH d1); [|done|done]. by eapply add_object_ok.
Qed.

Lemma read_u64_le_nonneg data : 0 <= read_u64_le data.
Proof.
  unfold read_u64_le. assert (Hb : Forall (fun x => 0 <= x) (imap (fun i byte => wrap64 (Z.shiftl byte (Z.of_nat i * 8))) (take 8 data))).
  { apply Forall_lookup_2. intros i x Hx. rewrite list_lookup_imap in Hx. destruct (take 8 data !! i); [|done]. injection Hx as <-.
    unfold wrap64. apply Z.mod_pos_bound. lia. }
  enough (Hgen : forall acc, 0 <= acc -> 0 <= foldl Z.lor acc (imap (fun i byte => wrap64 (Z.shiftl byte (Z.of_nat i * 8))) (take 8 data)))
    by by apply Hgen.
  induction Hb as [|x l Hx _ IH]; intros acc Ha; [done|]. cbn. apply IH. by apply Z.lor_nonneg.
Qed.

Lemma align_4096 v c : 0 <= v -> align_up v kPayloadAlignment = Ok c <-> c = round_up v 4096 /\ round_up v 4096 <= U64_MAX.
Proof. intros. apply align_up_iff; [done|done|]. by exists 4503599627370496. Qed.

Lemma open_artifact_ok parse file r : (forall text v, parse text = Some v -> json_ok v = true) ->
  open_artifact parse file = Ok r ->
  rd_file r = file /\ (kPayloadAlignment | rd_payload_start r) /\ 0 <= rd_payload_start r <= vsize file /\
  exists cursor, dir_ok (vsize file - rd_payload_start r) (mkDirectory cursor (rd_entries r) (rd_index r)).
Proof.
  intros Hparse H. unfold open_artifact in H. apply bind_Ok in H as ([] & _ & H). apply bind_Ok in H as ([] & _ & H).
  apply bind_Ok in H as ([] & _ & H). pose proof (read_u64_le_nonneg (drop 8 file)).
  apply bind_Ok in H as (m & [-> Hm]%checked_add_iff & H). apply bind_Ok in H as (start & Hstart & H).
  apply align_4096 in Hstart as [-> Hstart]; [|unfold kPrefixBytes; lia]. apply bind_Ok in H as ([] & Hend%throw_if_Ok & H).
  apply bind_Ok in H as (dir & Hdir & H). apply bind_Ok in H as ([] & _ & H). apply bind_Ok in H as (raw_identity & _ & H).
  apply bind_Ok in H as ([] & _ & H). apply bind_Ok in H as (model_id & _ & H). apply bind_Ok in H as (weights_id & _ & H).
  apply bind_Ok in H as (raw_objects & Hraw & H). destruct (parse _) as [v|] eqn:Ep; [|done]. injection Hdir as ->.
  apply Hparse in Ep. apply json_at_ok in Hraw; [|done]. destruct raw_objects as [| | | | | |[|raw raws]|]; try done.
  apply bind_Ok in H as (d & Hd & H). injection H as <-. cbn [rd_file rd_payload_start rd_entries rd_index].
  destruct (round_up_spec 4096 eq_refl (kPrefixBytes + read_u64_le (drop 8 file))) as [Hdiv Hr]. simp_bool.
  split; [done|]. split; [done|]. split; [unfold kPrefixBytes in *; lia|]. exists (dir_cursor d).
  apply add_objects_ok in Hd; [by destruct d| |done]. split; cbn; [done|apply Forall_nil_2|done|].
  intros name i. rewrite lookup_empty. naive_solver.
Qed.

(** An entry of the directory is found under its name, and its payload is where the directory says. *)
Lemma entry_payload r cursor i o :
  dir_ok (file_bytes r - rd_payload_start r) (mkDirectory cursor (rd_entries r) (rd_index r)) ->
  0 <= rd_payload_start r -> file_bytes r <= SIZE_MAX -> rd_entries r !! i = Some o ->
  find r (object_name o) = Some o /\
  payload r o = Ok (mkPayload (rd_payload_start r + object_offset o) (mem_slice (rd_file r) (rd_payload_start r + object_offset o) (object_bytes o))).
Proof.
  intros [_ Hobj _ Hidx] Hstart Hsize Ho. cbn [dir_entries dir_index] in *.
  pose proof (Forall_lookup_1 _ _ _ _ Hobj Ho) as (Hs & Hal & Hend & _). pose proof Hs as ([Ho0 _] & [Hb0 _] & _).
  split; [unfold find; by rewrite (proj2 (Hidx (object_name o) i)) by eauto|].
  unfold payload. unfold SIZE_MAX in *. rewrite !checked_add_run by lia. by rewrite (proj2 (Z.ltb_ge _ _)) by lia.
Qed.

(** C5. What an opened artifact promises. For every file, and every JSON library whose unsigned numbers fit in 64
    bits: the payload begins at a multiple of 4096 inside the file; every object is well formed (a
    tensor has exactly the size its format, layout and shape ask for), aligned, found under its name,
    and its payload is the bytes of the file at its offset; objects do not overlap and are in the order of the
    file; and a name finds only an object of that name. *)
Theorem artifact_objects_sound parse file r : (forall text v, parse text = Some v -> json_ok v = true) ->
  vsize file <= SIZE_MAX -> open_artifact parse file = Ok r ->
  (kPayloadAlignment | payload_offset r) /\ 0 <= payload_offset r <= vsize file /\
  (forall i o, rd_entries r !! i = Some o ->
     object_sound o /\ (object_alignment o | payload_offset r + object_offset o) /\ find r (object_name o) = Some o /\
     payload r o = Ok (mkPayload (payload_offset r + object_offset o) (mem_slice file (payload_offset r + object_offset o) (object_bytes o))) /\
     payload_offset r + object_offset o + object_bytes o <= vsize file) /\
  (forall i j o o', (i < j)%nat -> rd_entries r !! i = Some o -> rd_entries r !! j = Some o' ->
     object_offset o + object_bytes o <= object_offset o') /\
  (forall name o, find r name = Some o -> o ∈ rd_entries r /\ object_name o = name).
Proof.
  intros Hparse Hsize H. destruct (open_artifact_ok parse file r Hparse H) as (Hf & Hdiv & Hr & cursor & Hdir).
  pose proof Hdir as [_ Hobj Hord Hidx]. cbn [dir_entries dir_index] in *. unfold payload_offset. split; [done|]. split; [done|]. split.
  - intros i o Ho. pose proof (Forall_lookup_1 _ _ _ _ Hobj Ho) as (Hs & Hal & Hend & _).
    split; [done|]. assert (Hpos : 0 < object_alignment o) by (by destruct o). split.
    { apply Z.divide_add_r; [|apply Z.mod_divide; [lia|done]]. destruct o; [|apply Z.divide_1_l].
      cbn. apply (Z.divide_trans _ 4096); [by exists 16|done]. }
    subst file. destruct (entry_payload r cursor i o) as [? ?]; [done|lia|done|done|]. split; [done|]. split; [done|lia].
  - split; [done|]. intros name o Hfind. unfold find in Hfind. destruct (rd_index r !! name) as [i|] eqn:E; [|done].
    apply Hidx in E as (o' & Ho' & <-). rewrite Ho' in Hfind. injection Hfind as <-. split; [|done]. by eapply list_elem_of_lookup_2.
Qed.

(** * The format *)
Fixpoint le_bytes (k : nat) (n : Z) : list Z :=
  match k with
  | O => []
  | S k' => n mod 256 :: le_bytes k' (n / 256)
  end.

Definition tensor_json (t : TensorDescriptor) : Json :=
  JObject [("name", JString (td_name t)); ("kind", JString "tensor"); ("shape", JArray (map JUnsigned (td_shape t)));
           ("format", JString (format_name (td_format t))); ("layout", JString (layout_name (td_layout t)));
           ("offset", JUnsigned (td_offset t)); ("bytes", JUnsigned (td_bytes t))]%string.

Definition resource_json (r : ResourceDescriptor) : Json :=
  JObject [("name", JString (rd_name r)); ("kind", JString "resource"); ("encoding", JString (encoding_name (rd_encoding r)));
           ("offset", JUnsigned (rd_offset r)); ("bytes", JUnsigned (rd_bytes r))]%string.

Definition object_json (o : ObjectDescriptor) : Json :=
  match o with TensorObject t => tensor_json t | ResourceObject r => resource_json r end.

Definition directory_json (identity : ArtifactIdentity) (objects : list ObjectDescriptor) : Json :=
  JObject [("identity", JObject [("model_id", JString (ai_model_id identity)); ("weights_id", JString (ai_weights_id identity))]);
           ("objects", JArray (map object_json objects))]%string.

(** Prefix, directory text, padding to the payload, payload. *)
Definition write_artifact (text payload : list Z) : list Z :=
  kMagic ++ le_bytes 8 (vsize text) ++ text ++
  replicate (Z.to_nat (round_up (kPrefixBytes + vsize text) kPayloadAlignment - (kPrefixBytes + vsize text))) 0 ++ payload.

(** Objects one behind the other from [cursor] on, each aligned, inside a payload of [size] bytes. *)
Fixpoint laid_out (size cursor : Z) (objects : list ObjectDescriptor) : Prop :=
  match objects with
  | [] => True
  | o :: objects' =>
      object_sound o /\ object_name o <> ""%string /\ object_offset o mod object_alignment o = 0 /\ cursor <= object_offset o /\
      object_offset o + object_bytes o <= size /\ laid_out size (object_offset o + object_bytes o) objects'
  end.

(** ** Reading what was written *)
Lemma parse_format_name format : parse_format (format_name format) = Ok format.
Proof. by destruct format. Qed.
Lemma parse_layout_name layout : parse_layout (layout_name layout) = Ok layout.
Proof. by destruct layout. Qed.
Lemma parse_encoding_name encoding : parse_encoding (encoding_name encoding) = Ok encoding.
Proof. by destruct encoding. Qed.

Lemma require_string_ok s : s <> ""%string -> require_string (JString s) = Ok s.
Proof. intros. cbn. by rewrite bool_decide_eq_false_2. Qed.

Lemma require_positive n : 0 < n -> require_unsigned (JUnsigned n) true = Ok n.
Proof. intros. cbn. by rewrite (proj2 (Z.eqb_neq n 0)) by lia. Qed.

Lemma planes_positive layout format shape sizes : plane_sizes layout format shape = Some sizes -> Forall (fun d => d <> 0) shape.
Proof.
  intros H. destruct (decide (layout = ContiguousLeV1)) as [->|Hl]; cbn [plane_sizes] in H.
  - destruct (vsize shape <=? 16); [|done]. destruct (forallb _ shape) eqn:E; [|done]. rewrite forallb_forall in E.
    apply Forall_forall. intros d Hd%list_elem_of_In%E. by simp_bool.
  - destruct layout; try done; destruct shape as [|a [|b [|c [|? ?]]]]; try done; cbn [plane_sizes] in H;
      match type of H with (if ?c then _ else _) = _ => destruct c eqn:E end; try done; simp_bool; by simp_forall.
Qed.

Lemma encoded_dimensions layout format shape n : Forall is_u64 shape -> tensor_encoded_size layout format shape = Ok n ->
  Forall (fun d => 0 < d) shape.
Proof.
  intros Hs H. assert (Hs0 : Forall (fun d => 0 <= d) shape) by (eapply Forall_impl; [exact Hs|]; intros d []; done).
  apply (every_layout_exact layout format shape Hs0) in H as (sizes & Hne%planes_positive & _).
  rewrite Forall_forall in *. intros d Hd. specialize (Hne d Hd). specialize (Hs0 d Hd). lia.
Qed.

Lemma read_shape shape : Forall (fun d => 0 < d) shape -> rmap (fun dim => require_unsigned dim true) (map JUnsigned shape) = Ok shape.
Proof. intros H. apply rmap_Ok. induction H as [|d shape Hd _ IH]; constructor; [by apply require_positive|done]. Qed.

(** The members of a written object, by computation. *)
Ltac read_member value key v :=
  let H := fresh in assert (H : json_at value key = Ok v) by reflexivity; rewrite H; clear H; cbn [mbind result_bind].

Lemma read_tensor t : object_sound (TensorObject t) -> td_name t <> ""%string -> parse_tensor (tensor_json t) = Ok t.
Proof.
  intros (Ho & [Hb _] & Hs & Hsize) Hn. destruct t as [name shape format layout offset bytes]; cbn in *.
  unfold parse_tensor. assert (E : require_members (tensor_json (mkTensorDescriptor name shape format layout offset bytes)) tensor_members = Ok tt) by reflexivity.
  rewrite E. clear E. set (value := tensor_json _). cbn [mbind result_bind].
  read_member value "name"%string (JString name). rewrite (require_string_ok name Hn). cbn [mbind result_bind].
  read_member value "format"%string (JString (format_name format)). rewrite require_string_ok by (by destruct format).
  cbn [mbind result_bind]. rewrite parse_format_name. cbn [mbind result_bind].
  read_member value "layout"%string (JString (layout_name layout)). rewrite require_string_ok by (by destruct layout).
  cbn [mbind result_bind]. rewrite parse_layout_name. cbn [mbind result_bind].
  read_member value "offset"%string (JUnsigned offset). cbn [require_unsigned andb throw_if mbind result_bind].
  read_member value "bytes"%string (JUnsigned bytes). rewrite (require_positive bytes Hb). cbn [mbind result_bind].
  read_member value "shape"%string (JArray (map JUnsigned shape)).
  rewrite (read_shape shape (encoded_dimensions _ _ _ _ Hs Hsize)). cbn [mbind result_bind]. rewrite Hsize. cbn [mbind result_bind].
  by rewrite Z.eqb_refl.
Qed.

Lemma read_resource r : object_sound (ResourceObject r) -> rd_name r <> ""%string -> parse_resource (resource_json r) = Ok r.
Proof.
  intros (Ho & [Hb _] & _) Hn. destruct r as [name encoding offset bytes]; cbn in *.
  unfold parse_resource. assert (E : require_members (resource_json (mkResourceDescriptor name encoding offset bytes)) resource_members = Ok tt) by reflexivity.
  rewrite E. clear E. set (value := resource_json _). cbn [mbind result_bind].
  read_member value "name"%string (JString name). rewrite (require_string_ok name Hn). cbn [mbind result_bind].
  read_member value "encoding"%string (JString (encoding_name encoding)). rewrite require_string_ok by (by destruct encoding).
  cbn [mbind result_bind]. rewrite parse_encoding_name. cbn [mbind result_bind].
  read_member value "offset"%string (JUnsigned offset). cbn [require_unsigned andb throw_if mbind result_bind].
  read_member value "bytes"%string (JUnsigned bytes). by rewrite (require_positive bytes Hb).
Qed.

Lemma read_object o : object_sound o -> object_name o <> ""%string -> parse_object (object_json o) = Ok o.
Proof.
  intros Hs Hn. destruct o as [t|r].
  - change (parse_object _) with (t ← parse_tensor (tensor_json t); Ok (TensorObject t)). by rewrite read_tensor.
  - change (parse_object _) with (r ← parse_resource (resource_json r); Ok (ResourceObject r)). by rewrite read_resource.
Qed.

Lemma read_objects size objects d : dir_ok size d -> size <= U64_MAX -> laid_out size (dir_cursor d) objects ->
  NoDup (map object_name (dir_entries d ++ objects)) ->
  exists d', rfor (add_object size) d (map object_json objects) = Ok d' /\ dir_entries d' = dir_entries d ++ objects /\ dir_ok size d'.
Proof.
  revert d. induction objects as [|o objects IH]; intros d Hd Hsize Hl Hnd; [exists d; by rewrite app_nil_r|].
  cbn [laid_out] in Hl. destruct Hl as (Hs & Hn & Hal & Hcur & Hend & Hl). pose proof Hs as ([Ho0 _] & [Hb0 _] & _).
  set (d' := mkDirectory (object_offset o + object_bytes o) (dir_entries d ++ [o]) (<[object_name o := length (dir_entries d)]> (dir_index d))).
  assert (Hadd : add_object size d (object_json o) = Ok d').
  { unfold add_object. rewrite read_object by done. cbn [mbind result_bind]. rewrite (proj2 (Z.ltb_ge _ _)) by lia.
    rewrite Hal. cbn [Z.eqb negb throw_if mbind result_bind]. rewrite checked_add_run by lia. rewrite (proj2 (Z.ltb_ge _ _)) by lia.
    cbn [throw_if mbind result_bind]. rewrite bool_decide_eq_false_2; [done|].
    intros [i (o' & Ho' & E)%(do_index _ _ Hd)]. rewrite map_app in Hnd. apply NoDup_app in Hnd as (_ & Hdis & _).
    apply (Hdis (object_name o)); [|by left]. rewrite <- E. apply list_elem_of_fmap_2. by eapply list_elem_of_lookup_2. }
  cbn [map rfor]. rewrite Hadd. cbn [mbind result_bind].
  destruct (IH d') as (d2 & Hd2 & He & Hok); [|done|done|by unfold d'; cbn [dir_entries]; rewrite <- app_assoc|].
  - eapply (add_object_ok size d (object_json o)); [done| |done].
    destruct o as [t|r]; cbn; unfold is_u64 in *; cbn in *; repeat (apply andb_true_intro; split); try (apply Z.leb_le; lia); try done.
    destruct Hs as (_ & _ & Hshape & _). apply forallb_forall. intros x (n & <- & Hin)%in_map_iff. apply list_elem_of_In in Hin.
    rewrite Forall_forall in Hshape. destruct (Hshape n Hin). cbn. apply andb_true_intro. split; apply Z.leb_le; lia.
  - exists d2. split; [done|]. split; [|done]. rewrite He. unfold d'. cbn [dir_entries]. by rewrite <- app_assoc.
Qed.

Definition le_value (l : list Z) : Z := foldr (fun b v => b + 256 * v) 0 l.

Lemma le_value_bytes k n : 0 <= n < 256 ^ Z.of_nat k -> le_value (le_bytes k n) = n.
Proof.
  revert n. induction k as [|k IH]; intros n Hn; [cbn in *; lia|]. cbn [le_bytes le_value foldr]. fold (le_value (le_bytes k (n / 256))).
  rewrite Nat2Z.inj_succ, Z.pow_succ_r in Hn by lia. rewrite IH; [pose proof (Z.div_mod n 256); lia|].
  split; [apply Z.div_pos; lia|]. apply Z.div_lt_upper_bound; lia.
Qed.

Lemma le_bytes_ok k n : Forall (fun b => 0 <= b < 256) (le_bytes k n).
Proof. revert n. induction k as [|k IH]; intros n; cbn; [apply Forall_nil_2|]. apply Forall_cons_2; [apply Z.mod_pos_bound; lia|done]. Qed.

Lemma length_le_bytes k n : length (le_bytes k n) = k.
Proof. revert n. induction k as [|k IH]; intros n; cbn; [done|]. by rewrite IH. Qed.

(** The shifted bytes are disjoint bit fields, so their disjunction is their sum. *)
Lemma or_shifted_bytes l s acc : Forall (fun b => 0 <= b < 256) l -> (s + length l <= 8)%nat -> 0 <= acc < 2 ^ (Z.of_nat s * 8) ->
  foldl Z.lor acc (imap (fun i byte => wrap64 (Z.shiftl byte (Z.of_nat (s + i) * 8))) l) = acc + 2 ^ (Z.of_nat s * 8) * le_value l.
Proof.
  intros Hl. revert s acc. induction Hl as [|b l Hb Hl IH]; intros s acc Hlen Hacc; [cbn; lia|].
  cbn [imap foldl le_value foldr] in *. fold (le_value l). rewrite Nat.add_0_r.
  assert (Hp : 0 < 2 ^ (Z.of_nat s * 8)) by (apply Z.pow_pos_nonneg; lia).
  assert (Hs1 : 2 ^ (Z.of_nat (S s) * 8) = 256 * 2 ^ (Z.of_nat s * 8)) by (rewrite <- (Z.pow_add_r 2 8) by lia; f_equal; lia).
  assert (Hw : wrap64 (Z.shiftl b (Z.of_nat s * 8)) = b * 2 ^ (Z.of_nat s * 8)).
  { rewrite Z.shiftl_mul_pow2 by lia. apply wrap64_small. assert (2 ^ (Z.of_nat (S s) * 8) <= 2 ^ 64) by (cbn in Hlen; apply Z.pow_le_mono_r; lia).
    unfold U64_MAX. nia. }
  rewrite Hw, Z.lor_comm, lor_field by lia. rewrite (imap_ext _ (fun i byte => wrap64 (Z.shiftl byte (Z.of_nat (S s + i) * 8)))).
  2: { intros i x _. cbn. do 3 f_equal. lia. }
  rewrite (IH (S s)) by (cbn in Hlen; nia). nia.
Qed.

Lemma read_written_size n rest : 0 <= n <= U64_MAX -> read_u64_le (le_bytes 8 n ++ rest) = n.
Proof.
  intros Hn. unfold read_u64_le. rewrite take_app_length' by (by rewrite length_le_bytes).
  pose proof (or_shifted_bytes (le_bytes 8 n) 0 0 (le_bytes_ok 8 n) ltac:(by rewrite length_le_bytes) ltac:(lia)) as H.
  cbn [Nat.add] in H. rewrite H, le_value_bytes by (unfold U64_MAX in *; lia). lia.
Qed.

Section Written.
Context (text body : list Z) (Hsize : vsize (write_artifact text body) <= SIZE_MAX).

Let metadata_end : Z := kPrefixBytes + vsize text.
Let start : Z := round_up metadata_end kPayloadAlignment.

Lemma written_shape :
  0 <= vsize text /\ metadata_end <= start /\ vsize (write_artifact text body) = start + vsize body.
Proof.
  destruct (round_up_spec kPayloadAlignment eq_refl metadata_end) as [_ Hr]. fold start in Hr. pose proof (vsize_nonneg text).
  split; [done|]. split; [lia|]. unfold write_artifact. rewrite !vsize_app. fold metadata_end start.
  assert (vsize (le_bytes 8 (vsize text)) = 8) as -> by (unfold vsize at 1; by rewrite length_le_bytes).
  unfold vsize at 3. rewrite length_replicate, Z2Nat.id by lia. change (vsize kMagic) with 8. unfold metadata_end, kPrefixBytes. lia.
Qed.

Lemma written_text : mem_slice (write_artifact text body) kPrefixBytes (vsize text) = text.
Proof.
  unfold mem_slice, write_artifact, kPrefixBytes. change (Z.to_nat 16) with 16%nat.
  rewrite (app_assoc kMagic), drop_app_length' by (by rewrite length_app, length_le_bytes).
  apply take_app_length'. unfold vsize. by rewrite Nat2Z.id.
Qed.

Lemma written_payload o n : 0 <= o -> mem_slice (write_artifact text body) (start + o) n = mem_slice body o n.
Proof.
  intros Ho. destruct written_shape as (Ht & Hs & _). unfold mem_slice, write_artifact. fold metadata_end start. f_equal.
  rewrite !app_assoc, drop_app_ge; [f_equal|];
    rewrite !length_app, length_le_bytes, length_replicate; change (length kMagic) with 8%nat;
    unfold metadata_end, kPrefixBytes, vsize in *; lia.
Qed.
End Written.

(** The checks in front of the directory pass on a written file. *)
Lemma open_written parse identity objects text body :
  parse text = Some (directory_json identity objects) ->
  ai_model_id identity <> ""%string -> ai_weights_id identity <> ""%string -> objects <> [] ->
  text <> [] -> vsize (write_artifact text body) <= SIZE_MAX ->
  open_artifact parse (write_artifact text body) =
    (d ← rfor (add_object (vsize body)) (mkDirectory 0 [] ∅) (map object_json objects);
     Ok (mkReader (write_artifact text body) identity (dir_entries d) (dir_index d) (round_up (kPrefixBytes + vsize text) kPayloadAlignment))).
Proof.
  intros Hparse Hmodel Hweights Hne Htext Hsize. destruct (written_shape text body) as (Ht0 & Hms & Hsz).
  unfold SIZE_MAX in *. pose proof (vsize_nonneg body). change kPayloadAlignment with 4096 in *.
  assert (Hread : read_u64_le (drop 8 (write_artifact text body)) = vsize text).
  { unfold write_artifact. rewrite drop_app_length' by done. apply read_written_size. unfold kPrefixBytes in *. lia. }
  assert (Hpos : 0 < vsize text) by (destruct text; [done|]; rewrite vsize_cons; pose proof (vsize_nonneg text); lia).
  unfold open_artifact. rewrite (proj2 (Z.ltb_ge _ _)) by (unfold kPrefixBytes in *; lia). cbn [throw_if mbind result_bind].
  rewrite bool_decide_eq_true_2 by done. cbn [negb throw_if mbind result_bind]. rewrite Hread, (proj2 (Z.eqb_neq _ _)) by lia.
  cbn [throw_if mbind result_bind]. rewrite checked_add_run by lia.
  assert (Hstart : round_up (kPrefixBytes + vsize text) 4096 <= U64_MAX) by lia.
  rewrite (proj2 (align_4096 (kPrefixBytes + vsize text) _ ltac:(unfold kPrefixBytes; lia)) (conj eq_refl Hstart)).
  cbn [mbind result_bind]. rewrite !(proj2 (Z.ltb_ge (vsize (write_artifact text body)) _)) by lia. cbn [orb throw_if mbind result_bind].
  rewrite written_text, Hparse. cbn [mbind result_bind].
  assert (E1 : require_members (directory_json identity objects) ["identity"; "objects"]%string = Ok tt) by reflexivity.
  rewrite E1. cbn [mbind result_bind]. clear E1. set (value := directory_json identity objects).
  read_member value "identity"%string (JObject [("model_id", JString (ai_model_id identity)); ("weights_id", JString (ai_weights_id identity))]%string).
  set (raw_identity := JObject _). assert (E2 : require_members raw_identity ["model_id"; "weights_id"]%string = Ok tt) by reflexivity.
  rewrite E2. cbn [mbind result_bind]. clear E2.
  read_member raw_identity "model_id"%string (JString (ai_model_id identity)). rewrite (require_string_ok _ Hmodel). cbn [mbind result_bind].
  read_member raw_identity "weights_id"%string (JString (ai_weights_id identity)). rewrite (require_string_ok _ Hweights). cbn [mbind result_bind].
  read_member value "objects"%string (JArray (map object_json objects)).
  destruct objects as [|o objects]; [done|]. destruct identity. cbn [map ai_model_id ai_weights_id].
  by replace (vsize (write_artifact text body) - round_up (kPrefixBytes + vsize text) 4096) with (vsize body) by lia.
Qed.

(** C15. What the format says is what the reader reads: a file written from an identity, objects laid out one behind
    the other and a body, with a directory text that the JSON library reads back, opens, with
    exactly this identity and these objects, and the payload found under the name of an object is its part
    of the body. *)
Theorem written_artifact_reads parse identity objects text body :
  parse text = Some (directory_json identity objects) ->
  ai_model_id identity <> ""%string -> ai_weights_id identity <> ""%string -> objects <> [] ->
  laid_out (vsize body) 0 objects -> NoDup (map object_name objects) ->
  text <> [] -> vsize (write_artifact text body) <= SIZE_MAX ->
  exists r, open_artifact parse (write_artifact text body) = Ok r /\ rd_identity r = identity /\ rd_entries r = objects /\
    forall o, o ∈ objects -> exists p, payload_by_name r (object_name o) = Ok p /\
      ps_data p = mem_slice body (object_offset o) (object_bytes o).
Proof.
  intros Hparse Hmodel Hweights Hne Hlaid Hnd Htext Hsize. rewrite (open_written parse identity objects text body) by done.
  destruct (written_shape text body) as (Ht0 & Hms & Hsz). pose proof (vsize_nonneg body).
  destruct (read_objects (vsize body) objects (mkDirectory 0 [] ∅)) as (d & Hd & He & Hok); [|unfold SIZE_MAX, kPrefixBytes in *; lia|done|done|].
  { split; cbn; [done|apply Forall_nil_2|done|]. intros name i. rewrite lookup_empty. naive_solver. }
  rewrite Hd. cbn [mbind result_bind]. set (r := mkReader _ _ _ _ _). exists r. split; [done|]. split; [done|]. split; [by cbn; rewrite He|].
  intros o Ho. apply list_elem_of_lookup in Ho as [i Hi].
  destruct (entry_payload r (dir_cursor d) i o) as [Hf Hp].
  - unfold r, file_bytes. cbn [rd_file rd_payload_start rd_entries rd_index]. rewrite Hsz.
    replace (_ + vsize body - _) with (vsize body) by lia. by destruct d.
  - unfold r. cbn [rd_payload_start]. unfold kPrefixBytes in *. lia.
  - done.
  - unfold r. cbn [rd_entries]. by rewrite He.
  - unfold payload_by_name. rewrite Hf, Hp. eexists. split; [done|]. unfold r. cbn [ps_data rd_file rd_payload_start].
    apply written_payload. destruct d as [c es ix]. cbn in *. subst es.
    pose proof (Forall_lookup_1 _ _ _ _ (do_objects _ _ Hok) Hi) as (([? _] & _) & _). done.
Qed.

(** * A small artifact *)
Definition demo_objects : list ObjectDescriptor :=
  [TensorObject (mkTensorDescriptor "w" [2; 3] BF16 ContiguousLeV1 0 12); ResourceObject (mkResourceDescriptor "vocab" RawBytesV1 12 3)].
Definition demo_identity : ArtifactIdentity := mkIdentity "m" "w0".
Definition demo_text : list Z := [123; 125].
Definition demo_body : list Z := [0; 1; 2; 3; 4; 5; 6; 7; 8; 9; 10; 11; 65; 66; 67].
Definition demo_parse (text : list Z) : option Json :=
  if decide (text = demo_text) then Some (directory_json demo_identity demo_objects) else None.

Lemma demo_parse_ok text v : demo_parse text = Some v -> json_ok v = true.
Proof. unfold demo_parse. case_decide; [|done]. by intros [= <-]. Qed.

Lemma artifact_objects_sound_witness : exists r, open_artifact demo_parse (write_artifact demo_text demo_body) = Ok r /\
  (forall i j o o', (i < j)%nat -> rd_entries r !! i = Some o -> rd_entries r !! j = Some o' -> object_offset o + object_bytes o <= object_offset o').
Proof.
  destruct (open_artifact demo_parse (write_artifact demo_text demo_body)) as [r|e] eqn:E.
  - exists r. split; [done|].
    apply (artifact_objects_sound demo_parse (write_artifact demo_text demo_body) r demo_parse_ok); [|exact E].
    vm_compute. discriminate.
  - exfalso. vm_compute in E. discriminate.
Defined.

Lemma written_artifact_reads_witness : exists r, open_artifact demo_parse (write_artifact demo_text demo_body) = Ok r /\
  rd_identity r = demo_identity /\ rd_entries r = demo_objects /\
  forall o, o ∈ demo_objects -> exists p, payload_by_name r (object_name o) = Ok p /\
    ps_data p = mem_slice demo_body (object_offset o) (object_bytes o).
Proof.
  apply (written_artifact_reads demo_parse demo_identity demo_objects demo_text demo_body); try done.
  - cbn. unfold object_sound, is_u64, U64_MAX. cbn. repeat split; try done; simp_forall; unfold U64_MAX; lia.
  - apply (bool_decide_unpack _). vm_compute. done.
Defined.
