(* ===== verification/ArtifactBinder.v ===== *)
(** Binding the objects of an artifact to a target (src/src/artifact/binder.cpp, typed_binding.cpp): every
    object is consumed once and placed once, and the device tensors get the offsets that the arena will
    give them. *)
From stdpp Require Import strings gmap.
From S2P Require Import Prelude Tensor Layout StorageLayouts ArtifactReader.

(** [ObjectHandle], a [std::size_t] index. *)
Notation ObjectHandle := nat (only parsing).

Record DeviceMaterialization : Type := mkDevicePlacement { dm_object : ObjectHandle; dm_offset : Z; dm_bytes : Z; dm_alignment : Z }.

(** [HostMaterialization] and [MappedTensorMaterialization] hold a handle only. *)
Record MaterializationPlan : Type := mkPlan {
  mp_object_count : Z;
  mp_device_capacity_bytes : Z;
  mp_device_objects : list DeviceMaterialization;
  mp_host_objects : list ObjectHandle;
  mp_mapped_tensor_objects : list ObjectHandle;
}.

Inductive TensorPlacement : Type := PlaceDevice | ValidateOnly.

Record Binder : Type := mkBinder { bi_consumed : list bool; bi_planned : list bool; bi_materialization : MaterializationPlan }.

(** [align_up] of the binder: the mask of a power of two. *)
Definition mask_align_up (value alignment : Z) : result Z :=
  let mask := alignment - 1 in
  _ ← throw_if (U64_MAX - mask <? value) RuntimeError;
  Ok (Z.land (value + mask) (wrap64 (Z.lnot mask))).

Section Binder.
Context (reader_ : Reader).

Definition make_binder : Binder :=
  let n := length (rd_entries reader_) in
  mkBinder (replicate n false) (replicate n false) (mkPlan (Z.of_nat n) 0 [] [] []).

Definition descriptor (handle : ObjectHandle) : result ObjectDescriptor :=
  match rd_entries reader_ !! handle with
  | Some object => Ok object
  | None => Err RuntimeError
  end.

Definition set_consumed (index : nat) (b : Binder) : Binder :=
  mkBinder (<[index := true]> (bi_consumed b)) (bi_planned b) (bi_materialization b).
Definition set_planned (index : nat) (m : MaterializationPlan) (b : Binder) : Binder :=
  mkBinder (bi_consumed b) (<[index := true]> (bi_planned b)) m.

(** [v[i]] of a [std::vector<bool>]. *)
Definition flag_at (l : list bool) (i : nat) : result bool :=
  match l !! i with Some b => Ok b | None => Err Undefined end.

(** The position of the entry that [find] returns a pointer to. *)
Definition find_unconsumed (name : string) : M Binder ObjectHandle :=
  match rd_index reader_ !! name with
  | None => mthrow RuntimeError
  | Some index =>
      b ← mget;
      consumed ← mlift (flag_at (bi_consumed b) index);
      _ ← mthrow_if consumed RuntimeError;
      _ ← mput (set_consumed index b);
      mret index
  end.

Definition require_tensor (name : string) (format : NumericFormat) (layout : StorageLayout) (shape : list Z) : M Binder ObjectHandle :=
  handle ← find_unconsumed name;
  object ← mlift (descriptor handle);
  match object with
  | ResourceObject _ => mthrow RuntimeError
  | TensorObject tensor =>
      _ ← mthrow_if (negb (bool_decide (td_format tensor = format)) || negb (bool_decide (td_layout tensor = layout)) ||
                     negb (bool_decide (td_shape tensor = shape))) RuntimeError;
      mret handle
  end.

Definition require_resource (name : string) (encoding : ResourceEncoding) : M Binder ObjectHandle :=
  handle ← find_unconsumed name;
  object ← mlift (descriptor handle);
  match object with
  | TensorObject _ => mthrow RuntimeError
  | ResourceObject resource =>
      _ ← mthrow_if (negb (bool_decide (rd_encoding resource = encoding))) RuntimeError;
      mret handle
  end.

Definition binder_contains (name : string) : bool := match find reader_ name with Some _ => true | None => false end.

Definition binder_payload (handle : ObjectHandle) : result PayloadSpan :=
  object ← descriptor handle;
  payload reader_ object.

Definition materialize_on_device (handle : ObjectHandle) : M Binder unit :=
  object ← mlift (descriptor handle);
  match object with
  | ResourceObject _ => mthrow RuntimeError
  | TensorObject tensor =>
      b ← mget;
      planned ← mlift (flag_at (bi_planned b) handle);
      _ ← mthrow_if planned RuntimeError;
      let m := bi_materialization b in
      let alignment := tensor_alignment (td_layout tensor) in
      offset ← mlift (mask_align_up (mp_device_capacity_bytes m) alignment);
      _ ← mthrow_if (U64_MAX - offset <? td_bytes tensor) RuntimeError;
      mput (set_planned handle
              (mkPlan (mp_object_count m) (offset + td_bytes tensor)
                 (mp_device_objects m ++ [mkDevicePlacement handle offset (td_bytes tensor) alignment])
                 (mp_host_objects m) (mp_mapped_tensor_objects m)) b)
  end.

Definition retain_on_host (handle : ObjectHandle) : M Binder unit :=
  object ← mlift (descriptor handle);
  match object with
  | TensorObject _ => mthrow RuntimeError
  | ResourceObject _ =>
      b ← mget;
      planned ← mlift (flag_at (bi_planned b) handle);
      _ ← mthrow_if planned RuntimeError;
      let m := bi_materialization b in
      mput (set_planned handle (mkPlan (mp_object_count m) (mp_device_capacity_bytes m) (mp_device_objects m)
                                  (mp_host_objects m ++ [handle]) (mp_mapped_tensor_objects m)) b)
  end.

Definition retain_mapped_tensor (handle : ObjectHandle) : M Binder unit :=
  object ← mlift (descriptor handle);
  match object with
  | ResourceObject _ => mthrow RuntimeError
  | TensorObject _ =>
      b ← mget;
      planned ← mlift (flag_at (bi_planned b) handle);
      _ ← mthrow_if planned RuntimeError;
      let m := bi_materialization b in
      mput (set_planned handle (mkPlan (mp_object_count m) (mp_device_capacity_bytes m) (mp_device_objects m)
                                  (mp_host_objects m) (mp_mapped_tensor_objects m ++ [handle])) b)
  end.

Definition validate_only (handle : ObjectHandle) : M Binder unit :=
  _ ← mlift (descriptor handle);
  b ← mget;
  planned ← mlift (flag_at (bi_planned b) handle);
  _ ← mthrow_if planned RuntimeError;
  mput (set_planned handle (bi_materialization b) b).

Definition empty_plan : MaterializationPlan := mkPlan 0 0 [] [] [].

(** [finish] moves the plan out: the vectors are left empty, the numbers as they are. *)
Definition finish_binding : M Binder MaterializationPlan :=
  b ← mget;
  _ ← mthrow_if (existsb negb (bi_consumed b)) RuntimeError;
  _ ← mthrow_if (existsb negb (bi_planned b)) RuntimeError;
  let m := bi_materialization b in
  _ ← mput (mkBinder (bi_consumed b) (bi_planned b) (mkPlan (mp_object_count m) (mp_device_capacity_bytes m) [] [] []));
  mret m.

(** * Typed binding *)
Definition storage_layout_for (format : NumericFormat) : StorageLayout :=
  match format with
  | BF16 | FP32 | I32 | I64 => ContiguousLeV1
  | Q4G64_F16S | Q5G64_F16S | Q6G64_F16S | W8G32_F16S => RowSplitK128V1
  | NVFP4 => BlockScaleK16M128x4V1
  | FP8_E4M3FN_ROW_BF16S => RowScaleV1
  | FP8_E4M3FN_ROW_F32S => RowScaleF32V1
  | U4Z8G16_F16S => PackedU4G16V1
  end.

Definition bind_tensor (name : string) (format : NumericFormat) (shape : list Z) (placement : TensorPlacement) : M Binder ObjectHandle :=
  handle ← require_tensor name format (storage_layout_for format) shape;
  _ ← match placement with PlaceDevice => materialize_on_device handle | ValidateOnly => validate_only handle end;
  mret handle.

Definition bind_device_tensor (name : string) (format : NumericFormat) (shape : list Z) : M Binder ObjectHandle :=
  bind_tensor name format shape PlaceDevice.

Definition bind_raw_resource (name : string) : M Binder ObjectHandle :=
  handle ← require_resource name RawBytesV1;
  _ ← retain_on_host handle;
  mret handle.

(** Everything a target can call on a binder; a handle is any index. *)
Inductive binder_call : Type :=
  | CRequireTensor (name : string) (format : NumericFormat) (layout : StorageLayout) (shape : list Z)
  | CRequireResource (name : string) (encoding : ResourceEncoding)
  | CMaterializeOnDevice (handle : ObjectHandle)
  | CRetainOnHost (handle : ObjectHandle)
  | CRetainMapped (handle : ObjectHandle)
  | CValidateOnly (handle : ObjectHandle)
  | CBindTensor (name : string) (format : NumericFormat) (shape : list Z) (placement : TensorPlacement)
  | CBindRawResource (name : string).

Definition run_binder_call (c : binder_call) : M Binder unit :=
  match c with
  | CRequireTensor name format layout shape => _ ← require_tensor name format layout shape; mret tt
  | CRequireResource name encoding => _ ← require_resource name encoding; mret tt
  | CMaterializeOnDevice handle => materialize_on_device handle
  | CRetainOnHost handle => retain_on_host handle
  | CRetainMapped handle => retain_mapped_tensor handle
  | CValidateOnly handle => validate_only handle
  | CBindTensor name format shape placement => _ ← bind_tensor name format shape placement; mret tt
  | CBindRawResource name => _ ← bind_raw_resource name; mret tt
  end.

(** The state after some calls, thrown exceptions included. *)
Definition after_calls (calls : list binder_call) : Binder :=
  foldl (fun b c => fst (run_binder_call c b)) make_binder calls.
End Binder.

(** * What a plan promises *)

(** Device tensors one behind the other, each at the next multiple of its alignment. *)
Fixpoint placed (cursor : Z) (ds : list DeviceMaterialization) (capacity : Z) : Prop :=
  match ds with
  | [] => cursor = capacity
  | d :: ds' => dm_alignment d = kTensorAlignment /\ dm_offset d = round_up cursor kTensorAlignment /\ 0 < dm_bytes d /\
                placed (dm_offset d + dm_bytes d) ds' capacity
  end.

Definition plan_handles (m : MaterializationPlan) : list ObjectHandle :=
  map dm_object (mp_device_objects m) ++ mp_host_objects m ++ mp_mapped_tensor_objects m.

Section Plans.
Context (r : Reader) (Hentries : Forall object_sound (rd_entries r)).

Record plan_ok (m : MaterializationPlan) : Prop := {
  po_count : mp_object_count m = vsize (rd_entries r);
  po_capacity : 0 <= mp_device_capacity_bytes m <= U64_MAX;
  po_placed : placed 0 (mp_device_objects m) (mp_device_capacity_bytes m);
  po_device : Forall (fun d => exists t, rd_entries r !! dm_object d = Some (TensorObject t) /\ dm_bytes d = td_bytes t) (mp_device_objects m);
  po_host : Forall (fun h => exists x, rd_entries r !! h = Some (ResourceObject x)) (mp_host_objects m);
  po_mapped : Forall (fun h => exists t, rd_entries r !! h = Some (TensorObject t)) (mp_mapped_tensor_objects m);
  po_nodup : NoDup (plan_handles m);
}.

Record binder_ok (b : Binder) : Prop := {
  bo_consumed : length (bi_consumed b) = length (rd_entries r);
  bo_planned : length (bi_planned b) = length (rd_entries r);
  bo_plan : plan_ok (bi_materialization b);
  bo_flags : Forall (fun h => bi_planned b !! h = Some true) (plan_handles (bi_materialization b));
}.

Lemma placed_app cursor ds d capacity : placed cursor ds capacity -> dm_alignment d = kTensorAlignment ->
  dm_offset d = round_up capacity kTensorAlignment -> 0 < dm_bytes d -> placed cursor (ds ++ [d]) (dm_offset d + dm_bytes d).
Proof.
  intros H Ha Ho Hb. revert cursor H. induction ds as [|x ds IH]; intros cursor H; cbn in *; [by subst|].
  destruct H as (? & ? & ? & ?). auto.
Qed.

(** The mask rounds up to the alignment, and overflows exactly when the result does not fit. *)
Lemma mask_align_up_Ok v c : 0 <= v -> mask_align_up v kTensorAlignment = Ok c -> c = round_up v kTensorAlignment.
Proof.
  intros Hv H. unfold mask_align_up in H. apply bind_Ok in H as ([] & Hle%throw_if_Ok & H). simp_bool. injection H as <-.
  pose proof (mask_round_up v 8 ltac:(lia) Hv) as E. change (2 ^ 8) with 256 in E. unfold kTensorAlignment in *.
  rewrite E by lia. unfold round_up. do 2 f_equal. lia.
Qed.

(** Planning one more object, whose flag was not set. *)
Lemma set_planned_ok b h m : binder_ok b -> bi_planned b !! h = Some false -> plan_ok m ->
  plan_handles m ≡ₚ h :: plan_handles (bi_materialization b) -> binder_ok (set_planned h m b).
Proof.
  intros [Hc Hp Hm Hf] Hh Hok Hperm. apply lookup_lt_Some in Hh as Hlt. split; cbn; [done|by rewrite length_insert|done|].
  rewrite Hperm. apply Forall_cons_2; [by apply list_lookup_insert_eq|]. eapply Forall_impl; [exact Hf|]. cbn. intros i Hi.
  destruct (decide (i = h)) as [->|Hne]; [by apply list_lookup_insert_eq|by rewrite list_lookup_insert_ne].
Qed.

Lemma planned_fresh b h : binder_ok b -> bi_planned b !! h = Some false -> h ∉ plan_handles (bi_materialization b).
Proof. intros [_ _ _ Hf] Hh Hin. rewrite Forall_forall in Hf. pose proof (Hf h Hin) as E. cbv beta in E. by rewrite Hh in E. Qed.

Lemma descriptor_Ok h o : descriptor r h = Ok o -> rd_entries r !! h = Some o.
Proof. unfold descriptor. destruct (rd_entries r !! h); naive_solver. Qed.

Lemma flag_at_Ok l i b : flag_at l i = Ok b -> l !! i = Some b.
Proof. unfold flag_at. destruct (l !! i); naive_solver. Qed.

Lemma find_unconsumed_keeps name : keeps binder_ok (find_unconsumed r name).
Proof.
  intros b Hb. unfold find_unconsumed. destruct (rd_index r !! name) as [index|]; [|done]. step_M. step_M; [done|].
  step_M; [done|]. step_M. cbn. destruct Hb as [Hc Hp Hm Hf]. split; cbn; [by rewrite length_insert|done|done|done].
Qed.

Lemma require_tensor_keeps name format layout shape : keeps binder_ok (require_tensor r name format layout shape).
Proof.
  intros b Hb. unfold require_tensor. apply after_kept; [done|apply find_unconsumed_keeps|]. intros h b1 Hb1. step_M; [done|].
  destruct a; [|done]. by step_M.
Qed.

Lemma require_resource_keeps name encoding : keeps binder_ok (require_resource r name encoding).
Proof.
  intros b Hb. unfold require_resource. apply after_kept; [done|apply find_unconsumed_keeps|]. intros h b1 Hb1. step_M; [done|].
  destruct a; [done|]. by step_M.
Qed.

Lemma materialize_on_device_keeps h : keeps binder_ok (materialize_on_device r h).
Proof.
  intros b Hb. unfold materialize_on_device. apply after_lift; [done|]. intros o Ho%descriptor_Ok. destruct o as [t|x]; [|done].
  step_M. apply after_lift; [done|]. intros planned Hfl%flag_at_Ok. step_M; [done|]. simp_bool. subst planned.
  pose proof (bo_plan _ Hb) as [Hcount Hcap Hpl Hdev Hhost Hmap Hnd]. step_M; [done|]. apply mask_align_up_Ok in H; [|lia]. subst a.
  step_M; [done|]. cbn. simp_bool. destruct (round_up_spec kTensorAlignment eq_refl (mp_device_capacity_bytes (bi_materialization b))) as [_ Hr].
  pose proof (Forall_lookup_1 _ _ _ _ Hentries Ho) as (_ & [Hbytes _] & _). cbn in Hbytes.
  pose proof (planned_fresh b h Hb Hfl) as Hfresh. assert (Hperm : forall x : nat, map dm_object (mp_device_objects (bi_materialization b)) ++ [x] ++
      mp_host_objects (bi_materialization b) ++ mp_mapped_tensor_objects (bi_materialization b) ≡ₚ x :: plan_handles (bi_materialization b))
    by (intros x; unfold plan_handles; symmetry; apply Permutation_middle).
  apply set_planned_ok; [done|done| |]; [|unfold plan_handles at 1; cbn; rewrite map_app, <- app_assoc; apply Hperm].
  split; cbn; [done|lia|by apply (placed_app 0 _ (mkDevicePlacement h _ _ _) _ Hpl)| |done|done|].
  - apply Forall_app. split; [done|]. apply Forall_singleton. by exists t.
  - unfold plan_handles. cbn. rewrite map_app, <- app_assoc. cbn [map dm_object]. rewrite Hperm. by apply NoDup_cons.
Qed.

Lemma retain_on_host_keeps h : keeps binder_ok (retain_on_host r h).
Proof.
  intros b Hb. unfold retain_on_host. apply after_lift; [done|]. intros o Ho%descriptor_Ok. destruct o as [t|x]; [done|].
  step_M. apply after_lift; [done|]. intros planned Hfl%flag_at_Ok. step_M; [done|]. simp_bool. subst planned. cbn.
  pose proof (bo_plan _ Hb) as [Hcount Hcap Hpl Hdev Hhost Hmap Hnd]. pose proof (planned_fresh b h Hb Hfl) as Hfresh.
  assert (Hperm : map dm_object (mp_device_objects (bi_materialization b)) ++ (mp_host_objects (bi_materialization b) ++ [h]) ++
      mp_mapped_tensor_objects (bi_materialization b) ≡ₚ h :: plan_handles (bi_materialization b)).
  { unfold plan_handles. rewrite <- app_assoc, !(app_assoc (map _ _)). symmetry. apply Permutation_middle. }
  apply set_planned_ok; [done|done| |done]. split; cbn; [done|done|done|done| |done|].
  - apply Forall_app. split; [done|]. apply Forall_singleton. by exists x.
  - rewrite Hperm. by apply NoDup_cons.
Qed.

Lemma retain_mapped_tensor_keeps h : keeps binder_ok (retain_mapped_tensor r h).
Proof.
  intros b Hb. unfold retain_mapped_tensor. apply after_lift; [done|]. intros o Ho%descriptor_Ok. destruct o as [t|x]; [|done].
  step_M. apply after_lift; [done|]. intros planned Hfl%flag_at_Ok. step_M; [done|]. simp_bool. subst planned. cbn.
  pose proof (bo_plan _ Hb) as [Hcount Hcap Hpl Hdev Hhost Hmap Hnd]. pose proof (planned_fresh b h Hb Hfl) as Hfresh.
  assert (Hperm : map dm_object (mp_device_objects (bi_materialization b)) ++ mp_host_objects (bi_materialization b) ++
      mp_mapped_tensor_objects (bi_materialization b) ++ [h] ≡ₚ h :: plan_handles (bi_materialization b)).
  { unfold plan_handles. rewrite !app_assoc. symmetry. apply Permutation_cons_append. }
  apply set_planned_ok; [done|done| |done]. split; cbn; [done|done|done|done|done| |].
  - apply Forall_app. split; [done|]. apply Forall_singleton. by exists t.
  - rewrite Hperm. by apply NoDup_cons.
Qed.

Lemma validate_only_keeps h : keeps binder_ok (validate_only r h).
Proof.
  intros b Hb. unfold validate_only. step_M; [done|]. step_M. apply after_lift; [done|]. intros planned Hfl%flag_at_Ok. step_M; [done|].
  simp_bool. subst planned. cbn. destruct Hb as [Hc Hp Hm Hf]. split; cbn; [done|by rewrite length_insert|done|].
  eapply Forall_impl; [exact Hf|]. cbn. intros i Hi. apply lookup_lt_Some in Hfl.
  destruct (decide (i = h)) as [->|Hne]; [by apply list_lookup_insert_eq|by rewrite list_lookup_insert_ne].
Qed.

Lemma run_binder_call_keeps c : keeps binder_ok (run_binder_call r c).
Proof.
  destruct c; intros b Hb; cbn [run_binder_call].
  - apply after_kept; [done|apply require_tensor_keeps|done].
  - apply after_kept; [done|apply require_resource_keeps|done].
  - by apply materialize_on_device_keeps.
  - by apply retain_on_host_keeps.
  - by apply retain_mapped_tensor_keeps.
  - by apply validate_only_keeps.
  - apply after_kept; [done| |done]. intros b1 Hb1. unfold bind_tensor. apply after_kept; [done|apply require_tensor_keeps|].
    intros h b2 Hb2. apply after_kept; [done| |done]. destruct placement; [apply materialize_on_device_keeps|apply validate_only_keeps].
  - apply after_kept; [done| |done]. intros b1 Hb1. unfold bind_raw_resource. apply after_kept; [done|apply require_resource_keeps|].
    intros h b2 Hb2. apply after_kept; [done|apply retain_on_host_keeps|done].
Qed.

Lemma after_calls_ok calls : binder_ok (after_calls r calls).
Proof.
  unfold after_calls. assert (H0 : binder_ok (make_binder r)).
  { split; cbn; [by rewrite length_replicate|by rewrite length_replicate| |apply Forall_nil_2].
    split; cbn; [done|done|done|apply Forall_nil_2|apply Forall_nil_2|apply Forall_nil_2|apply NoDup_nil_2]. }
  revert H0. generalize (make_binder r) as b. induction calls as [|c calls IH]; intros b Hb; [done|]. cbn. apply IH. by apply run_binder_call_keeps.
Qed.

(** The plan that [finish] hands out after any calls. *)
Lemma finished_plan_ok calls b plan : finish_binding (after_calls r calls) = (b, Ok plan) ->
  plan_ok plan /\ Forall (fun c => c = true) (bi_consumed (after_calls r calls)) /\ Forall (fun c => c = true) (bi_planned (after_calls r calls)).
Proof.
  intros H. pose proof (after_calls_ok calls) as [_ _ Hp _]. unfold finish_binding in H. simp_M.
  assert (Hall : forall l, existsb negb l = false -> Forall (fun c => c = true) l).
  { induction l as [|c l IH]; cbn; intros; [apply Forall_nil_2|]. simp_bool. apply Forall_cons_2; [done|auto]. }
  split; [done|]. split; by apply Hall.
Qed.
End Plans.
