(* ===== verification/ArtifactLoad.v ===== *)
(** Loading an artifact (src/src/artifact/materializer.cpp): resources are copied, mapped tensors are kept
    in the file, and the other tensors go through a ring of pinned slots to the device. Copies to the
    device are queued on a stream and run at any later time: [w_schedule] says how many of them run before
    each step of the host, and the claims hold for all schedules. *)
From stdpp Require Import strings gmap sorting.
From S2P Require Import Prelude Tensor Layout StorageLayouts ArtifactReader ArtifactBinder.

(** * What is loaded *)
Record ObjectStorage : Type := mkStorage { os_device : Z; os_resource : list Z; os_mapped : list Z }.

Record MaterializationStats : Type := mkLoadStats {
  st_file_bytes : Z; st_h2d_bytes : Z; st_device_capacity_bytes : Z; st_retained_resource_bytes : Z;
  st_mapped_tensor_bytes : Z; st_peak_staging_bytes : Z; st_tensor_count : Z; st_mapped_tensor_count : Z; st_resource_count : Z;
}.

Record MaterializedArtifact : Type := mkMaterialized { ma_arena : DeviceArena; ma_objects : list ObjectStorage; ma_stats : MaterializationStats }.

Definition storage_of (art : MaterializedArtifact) (handle : ObjectHandle) (missing : ObjectStorage -> bool) : result ObjectStorage :=
  match ma_objects art !! handle with
  | Some s => _ ← throw_if (missing s) RuntimeError; Ok s
  | None => Err RuntimeError
  end.

Definition device_data (art : MaterializedArtifact) (handle : ObjectHandle) : result Z :=
  s ← storage_of art handle (fun s => os_device s =? 0);
  Ok (os_device s).

Definition resource_bytes (art : MaterializedArtifact) (handle : ObjectHandle) : result (list Z) :=
  s ← storage_of art handle (fun s => bool_decide (os_resource s = []));
  Ok (os_resource s).

Definition mapped_tensor_bytes (art : MaterializedArtifact) (handle : ObjectHandle) : result (list Z) :=
  s ← storage_of art handle (fun s => bool_decide (os_mapped s = []));
  Ok (os_mapped s).

Definition set_retained (n : Z) (s : MaterializationStats) : MaterializationStats :=
  mkLoadStats (st_file_bytes s) (st_h2d_bytes s) (st_device_capacity_bytes s) n (st_mapped_tensor_bytes s)
    (st_peak_staging_bytes s) (st_tensor_count s) (st_mapped_tensor_count s) (st_resource_count s).

Definition take_resource_bytes (art : MaterializedArtifact) (handle : ObjectHandle) : result (MaterializedArtifact * list Z) :=
  s ← storage_of art handle (fun s => bool_decide (os_resource s = []));
  Ok (mkMaterialized (ma_arena art) (<[handle := mkStorage (os_device s) [] (os_mapped s)]> (ma_objects art))
        (set_retained (wrap64 (st_retained_resource_bytes (ma_stats art) - vsize (os_resource s))) (ma_stats art)),
      os_resource s).

(** * The stream and the slots *)
Definition kSlotBytes : Z := 64 * 1024 * 1024.
Definition kMaximumSlotCount : Z := 4.
Definition direct_io_alignment : Z := 4096.

Record CopyRange : Type := mkRange { cr_source_begin : Z; cr_source_end : Z; cr_destination : Z }.
Record ReadSpan : Type := mkReadSpan { rs_begin : Z; rs_end : Z }.

(** A pinned buffer at an address, and whether its event was recorded and not yet waited for. *)
Record Slot : Type := mkSlot { sl_address : Z; sl_buffer : list Z; sl_pending : bool }.

Inductive stream_op : Type :=
  | OCopy (destination : Z) (slot : nat) (offset amount : Z)
  | OEvent (slot : nat).

Record load_world : Type := mkLoad {
  w_slots : list Slot;
  w_stream : list stream_op;
  w_device : Z -> Z;
  w_schedule : list nat;
  w_copied : Z;
  w_file_bytes : Z;
}.

Definition set_slots (slots : list Slot) (w : load_world) : load_world :=
  mkLoad slots (w_stream w) (w_device w) (w_schedule w) (w_copied w) (w_file_bytes w).
Definition set_stream (stream : list stream_op) (device : Z -> Z) (w : load_world) : load_world :=
  mkLoad (w_slots w) stream device (w_schedule w) (w_copied w) (w_file_bytes w).
Definition set_schedule (schedule : list nat) (w : load_world) : load_world :=
  mkLoad (w_slots w) (w_stream w) (w_device w) schedule (w_copied w) (w_file_bytes w).
Definition set_copied (copied : Z) (w : load_world) : load_world :=
  mkLoad (w_slots w) (w_stream w) (w_device w) (w_schedule w) copied (w_file_bytes w).
Definition set_file_bytes (n : Z) (w : load_world) : load_world :=
  mkLoad (w_slots w) (w_stream w) (w_device w) (w_schedule w) (w_copied w) n.

Definition buffer_of (slots : list Slot) (i : nat) : list Z := default [] (sl_buffer <$> slots !! i).

(** A queued operation when it runs: it reads the buffer as it is then. *)
Definition run_op (slots : list Slot) (device : Z -> Z) (op : stream_op) : Z -> Z :=
  match op with
  | OCopy destination slot offset amount => fun a =>
      if (destination <=? a) && (a <? destination + amount)
      then default 0 ((buffer_of slots slot).[offset + (a - destination)]) else device a
  | OEvent _ => device
  end.

Definition run_ops (slots : list Slot) (device : Z -> Z) (ops : list stream_op) : Z -> Z := foldl (run_op slots) device ops.
#[global] Arguments run_ops : simpl never.

(** The device runs the first [k] operations of the stream. *)
Definition advance (k : nat) (w : load_world) : load_world :=
  set_stream (drop k (w_stream w)) (run_ops (w_slots w) (w_device w) (take k (w_stream w))) w.

(** Some of the stream runs, as the schedule says, beside the host. *)
Definition tick : M load_world unit := mmodify (fun w =>
  match w_schedule w with
  | [] => w
  | k :: schedule => set_schedule schedule (advance k w)
  end).

(** [cudaEventSynchronize]: everything in front of the last record of the slot's event has run. *)
Definition is_event (slot : nat) (op : stream_op) : bool :=
  match op with OEvent i => (i =? slot)%nat | OCopy _ _ _ _ => false end.

Fixpoint after_last_event (slot : nat) (ops : list stream_op) : nat :=
  match ops with
  | [] => O
  | op :: ops' => if existsb (is_event slot) (op :: ops') then S (after_last_event slot ops') else O
  end.

Definition slot_wait (i : nat) : M load_world unit :=
  w ← mget;
  slot ← mlift (match w_slots w !! i with Some s => Ok s | None => Err Undefined end);
  if sl_pending slot then
    let w := advance (after_last_event i (w_stream w)) w in
    mput (set_slots (<[i := mkSlot (sl_address slot) (sl_buffer slot) false]> (w_slots w)) w)
  else mret tt.

Definition enqueue (op : stream_op) : M load_world unit := mmodify (fun w => set_stream (w_stream w ++ [op]) (w_device w) w).

(** * Reading *)
Section Load.
(** [pread] on the file, repeated while it is interrupted: the bytes it read, or an error. *)
Context (pread : Z -> Z -> option (list Z)).

(** [MappedFile::read_direct] into a buffer at [address], the branch of POSIX systems. *)
Definition read_direct (absolute_offset address size : Z) : result (list Z) :=
  _ ← throw_if (negb (absolute_offset mod direct_io_alignment =? 0) || negb (size mod direct_io_alignment =? 0) ||
                negb (address mod direct_io_alignment =? 0)) RuntimeError;
  _ ← throw_if ((I64_MAX <? absolute_offset) || (I64_MAX <? size)) RuntimeError;
  match pread absolute_offset size with Some bytes => Ok bytes | None => Err RuntimeError end.

(** ** Copying a chunk to the ranges it meets *)
Fixpoint copy_ranges (slot : nat) (source chunk_end : Z) (left : list CopyRange) : M load_world (list CopyRange) :=
  match left with
  | [] => mret []
  | range :: rest =>
      if cr_source_begin range <? chunk_end then
        let copy_begin := Z.max source (cr_source_begin range) in
        let copy_end := Z.min chunk_end (cr_source_end range) in
        _ ← (if copy_begin <? copy_end then
               let amount := copy_end - copy_begin in
               _ ← enqueue (OCopy (cr_destination range + (copy_begin - cr_source_begin range)) slot (copy_begin - source) amount);
               _ ← tick;
               w ← mget;
               copied ← mlift (StorageLayouts.checked_add (w_copied w) amount);
               mmodify (set_copied copied)
             else mret tt);
        if cr_source_end range <=? chunk_end then copy_ranges slot source chunk_end rest else mret left
      else mret left
  end.

Fixpoint skip_ranges (source : Z) (left : list CopyRange) : list CopyRange :=
  match left with
  | [] => []
  | range :: rest => if cr_source_end range <=? source then skip_ranges source rest else left
  end.

(** The body of the loop over the chunks of a span, on slot [i]. *)
Definition load_chunk (slot_bytes span_end : Z) (i : nat) (source : Z) (left : list CopyRange) : M load_world (list CopyRange) :=
  _ ← slot_wait i;
  _ ← tick;
  let remaining := span_end - source in
  aligned ← mlift (StorageLayouts.align_up remaining direct_io_alignment);
  let request := Z.min slot_bytes aligned in
  w ← mget;
  slot ← mlift (match w_slots w !! i with Some s => Ok s | None => Err Undefined end);
  bytes ← mlift (read_direct source (sl_address slot) request);
  _ ← mput (set_slots (<[i := mkSlot (sl_address slot) (bytes ++ drop (length bytes) (sl_buffer slot)) (sl_pending slot)]> (w_slots w)) w);
  let bytes_read := vsize bytes in
  let required := Z.min request remaining in
  _ ← mthrow_if (bytes_read <? required) RuntimeError;
  file_bytes ← mlift (StorageLayouts.checked_add (w_file_bytes w) bytes_read);
  _ ← mmodify (set_file_bytes file_bytes);
  chunk_end ← mlift (StorageLayouts.checked_add source bytes_read);
  left ← copy_ranges i source chunk_end (skip_ranges source left);
  _ ← enqueue (OEvent i);
  _ ← mmodify (fun w => set_slots (alter (fun s => mkSlot (sl_address s) (sl_buffer s) true) i (w_slots w)) w);
  mret left.

(** [for (source = span.begin; source < span.end; source += slot_bytes)]; the slots are used in turn. *)
Fixpoint load_span (fuel : nat) (slot_bytes : Z) (slot_count : nat) (span_end source : Z) (next_slot : nat) (left : list CopyRange)
  : M load_world (nat * list CopyRange) :=
  if source <? span_end then
    match fuel with
    | O => mthrow Undefined
    | S fuel' =>
        left ← load_chunk slot_bytes span_end (next_slot mod slot_count)%nat source left;
        load_span fuel' slot_bytes slot_count span_end (wrap64 (source + slot_bytes)) (S next_slot) left
    end
  else mret (next_slot, left).

(** A span of [n] bytes has at most [n / slot_bytes + 1] chunks. *)
Definition span_fuel (slot_bytes : Z) (span : ReadSpan) : nat := S (Z.to_nat ((rs_end span - rs_begin span) / slot_bytes)).

Fixpoint load_spans (slot_bytes : Z) (slot_count : nat) (spans : list ReadSpan) (next_slot : nat) (left : list CopyRange)
  : M load_world (list CopyRange) :=
  match spans with
  | [] => mret left
  | span :: spans' =>
      '(next_slot, left) ← load_span (span_fuel slot_bytes span) slot_bytes slot_count (rs_end span) (rs_begin span) next_slot left;
      load_spans slot_bytes slot_count spans' next_slot left
  end.

(** At the end every slot is waited for, and then the stream. *)
Definition drain_stream (slot_count : nat) : M load_world unit :=
  _ ← mfor slot_wait (seq 0 slot_count);
  mmodify (fun w => advance (length (w_stream w)) w).

(** * Planning the reads *)
Definition align_down (value alignment : Z) : Z := value / alignment * alignment.

(** The order of [std::sort] on the source offsets. Ranges that begin at the same byte overlap, and are
    refused by the next loop whatever their order. *)
Definition range_le (a b : CopyRange) : Prop := cr_source_begin a <= cr_source_begin b.
#[local] Instance range_le_dec : RelDecision range_le := fun a b => Z_le_dec _ _.
Definition sort_ranges (ranges : list CopyRange) : list CopyRange := merge_sort range_le ranges.

Fixpoint check_disjoint (ranges : list CopyRange) : result unit :=
  match ranges with
  | a :: (b :: _) as rest =>
      _ ← throw_if (cr_source_begin b <? cr_source_end a) RuntimeError;
      check_disjoint rest
  | _ => Ok tt
  end.

(** The spans, the last one first. *)
Definition add_span (spans : list ReadSpan) (range : CopyRange) : result (list ReadSpan) :=
  let begin := align_down (cr_source_begin range) direct_io_alignment in
  match spans with
  | [] => Ok [mkReadSpan begin (cr_source_end range)]
  | back :: rest =>
      limit ← StorageLayouts.align_up (rs_end back) direct_io_alignment;
      Ok (if limit <? begin then mkReadSpan begin (cr_source_end range) :: spans
          else mkReadSpan (rs_begin back) (Z.max (rs_end back) (cr_source_end range)) :: rest)
  end.

Definition read_spans (ranges : list CopyRange) : result (list ReadSpan) :=
  spans ← rfor add_span [] ranges;
  Ok (reverse spans).

Definition add_aligned (total : Z) (span : ReadSpan) : result Z :=
  n ← StorageLayouts.align_up (rs_end span - rs_begin span) direct_io_alignment;
  StorageLayouts.checked_add total n.

(** * [materialize] *)
Section Materialize.
Context (reader : Reader).

(** [objects_.at(i)] and [reader.objects().at(i)]. *)
Definition at_ {A} (l : list A) (i : nat) : result A := match l !! i with Some x => Ok x | None => Err OutOfRange end.

Definition keep_resource (acc : list ObjectStorage * Z * Z) (handle : ObjectHandle) : result (list ObjectStorage * Z * Z) :=
  let '(objects, retained, file_bytes) := acc in
  s ← at_ objects handle;
  object ← at_ (rd_entries reader) handle;
  p ← payload reader object;
  file_bytes ← StorageLayouts.checked_add file_bytes (vsize (ps_data p));
  Ok (<[handle := mkStorage (os_device s) (ps_data p) (os_mapped s)]> objects, wrap64 (retained + vsize (ps_data p)), file_bytes).

Definition keep_mapped (acc : list ObjectStorage * Z) (handle : ObjectHandle) : result (list ObjectStorage * Z) :=
  let '(objects, mapped_bytes) := acc in
  object ← at_ (rd_entries reader) handle;
  p ← payload reader object;
  s ← at_ objects handle;
  mapped_bytes ← StorageLayouts.checked_add mapped_bytes (vsize (ps_data p));
  Ok (<[handle := mkStorage (os_device s) (os_resource s) (ps_data p)]> objects, mapped_bytes).

Definition place_tensor (acc : DeviceArena * list ObjectStorage * list CopyRange) (placement : DeviceMaterialization)
  : result (DeviceArena * list ObjectStorage * list CopyRange) :=
  let '(arena, objects, ranges) := acc in
  object ← at_ (rd_entries reader) (dm_object placement);
  p ← payload reader object;
  match arena_alloc_bytes (dm_bytes placement) (dm_alignment placement) arena with
  | (arena, Ok storage) =>
      let actual_offset := span_data storage - base_ arena in
      _ ← throw_if (negb (actual_offset =? dm_offset placement) || negb (vsize (ps_data p) =? dm_bytes placement)) RuntimeError;
      s ← at_ objects (dm_object placement);
      source_end ← StorageLayouts.checked_add (ps_absolute_offset p) (dm_bytes placement);
      Ok (arena, <[dm_object placement := mkStorage (span_data storage) (os_resource s) (os_mapped s)]> objects,
          ranges ++ [mkRange (ps_absolute_offset p) source_end (span_data storage)])
  | (_, Err e) => Err e
  end.

(** The bytes come from [pread]; [base] is the device allocation, [slot_address] where the pinned slots are,
    [schedule] when the queued copies run, [device] the memory before. The result holds the memory after. *)
Definition materialize (plan : MaterializationPlan) (base : Z) (slot_address : nat -> Z)
    (schedule : list nat) (device : Z -> Z) : result (MaterializedArtifact * (Z -> Z)) :=
  total ← rfor (fun total placement => StorageLayouts.checked_add total (dm_bytes placement)) 0 (mp_device_objects plan);
  let objects := replicate (Z.to_nat (mp_object_count plan)) (mkStorage 0 [] []) in
  let capacity := mp_device_capacity_bytes plan in
  _ ← throw_if ((capacity =? 0) || (SIZE_MAX <? capacity)) RuntimeError;
  let arena := mkArena base capacity 0 0 in
  '(objects, retained, file_bytes) ← rfor keep_resource (objects, 0, 0) (mp_host_objects plan);
  '(objects, mapped_bytes) ← rfor keep_mapped (objects, 0) (mp_mapped_tensor_objects plan);
  '(arena, objects, ranges) ← rfor place_tensor (arena, objects, []) (mp_device_objects plan);
  _ ← throw_if (bool_decide (length ranges = 0%nat)) RuntimeError;
  let ranges := sort_ranges ranges in
  _ ← check_disjoint ranges;
  spans ← read_spans ranges;
  aligned_read_bytes ← rfor add_aligned 0 spans;
  let slot_bytes := Z.min kSlotBytes aligned_read_bytes in
  let slot_count := Z.min kMaximumSlotCount (1 + (aligned_read_bytes - 1) / slot_bytes) in
  let slots := map (fun i => mkSlot (slot_address i) (replicate (Z.to_nat slot_bytes) 0) false) (seq 0 (Z.to_nat slot_count)) in
  let w := mkLoad slots [] device schedule 0 file_bytes in
  match (rest ← load_spans slot_bytes (Z.to_nat slot_count) spans 0 ranges; _ ← drain_stream (Z.to_nat slot_count); mret rest) w with
  | (w, Ok rest) =>
      _ ← throw_if (negb (w_copied w =? total) || negb (bool_decide (length rest = 0%nat))) RuntimeError;
      Ok (mkMaterialized arena objects
            (mkLoadStats (w_file_bytes w) (w_copied w) capacity retained mapped_bytes (slot_bytes * slot_count)
               (vsize (mp_device_objects plan) + vsize (mp_mapped_tensor_objects plan)) (vsize (mp_mapped_tensor_objects plan))
               (vsize (mp_host_objects plan))),
          w_device w)
  | (_, Err e) => Err e
  end.
End Materialize.
End Load.
