(* ===== verification/ArtifactStream.v ===== *)
(** The copy loop of [materialize]: whatever the schedule of the device, when the loop is over every byte of
    every range was copied from its place in the file. [eff] is the device memory once the stream has run;
    it does not depend on how far the stream has run already, because no slot is written while a copy from
    it is queued. *)
From stdpp Require Import strings gmap sorting.
From S2P Require Import Prelude Tensor Layout StorageLayouts ArtifactReader ArtifactBinder ArtifactLoad.

(** * The stream *)
Definition eff (w : load_world) : Z -> Z := run_ops (w_slots w) (w_device w) (w_stream w).

(** Every queued copy from a slot is followed by an event of the slot. *)
Definition settled (i : nat) (ops : list stream_op) : Prop :=
  forall s1 d o n s2, ops = s1 ++ OCopy d i o n :: s2 -> OEvent i ∈ s2.

Definition no_copy (i : nat) (ops : list stream_op) : Prop := forall d o n, OCopy d i o n ∉ ops.

Lemma run_ops_app slots device ops1 ops2 : run_ops slots device (ops1 ++ ops2) = run_ops slots (run_ops slots device ops1) ops2.
Proof. unfold run_ops. apply foldl_app. Qed.

Lemma run_ops_ext slots slots' device ops :
  (forall d i o n, OCopy d i o n ∈ ops -> buffer_of slots i = buffer_of slots' i) -> run_ops slots device ops = run_ops slots' device ops.
Proof.
  revert device. induction ops as [|op ops IH]; intros device H; [done|].
  change (run_ops slots (run_op slots device op) ops = run_ops slots' (run_op slots' device op) ops).
  assert (E : run_op slots device op = run_op slots' device op).
  { destruct op as [d i o n|i]; [|done]. unfold run_op. rewrite (H d i o n) by left. done. }
  rewrite E. apply IH. intros d i o n Hin. apply (H d i o n). by right.
Qed.

Lemma advance_eff k w : eff (advance k w) = eff w.
Proof. unfold eff, advance, set_stream. cbn. by rewrite <- run_ops_app, take_drop. Qed.

Lemma settled_suffix i s1 s2 : settled i (s1 ++ s2) -> settled i s2.
Proof. intros H a d o n b ->. apply (H (s1 ++ a) d o n b). by rewrite app_assoc. Qed.

Lemma settled_drop i k ops : settled i ops -> settled i (drop k ops).
Proof. intros H. rewrite <- (take_drop k ops) in H. by eapply settled_suffix. Qed.

Lemma no_copy_settled i ops : no_copy i ops -> settled i ops.
Proof. intros H a d o n b ->. exfalso. apply (H d o n). set_solver. Qed.

Lemma no_copy_drop i k ops : no_copy i ops -> no_copy i (drop k ops).
Proof. intros H d o n Hin. apply (H d o n). rewrite <- (take_drop k ops). set_solver. Qed.

(** Past the last event of the slot there is no copy from it left. *)
Lemma after_last_event_none i ops : OEvent i ∉ drop (after_last_event i ops) ops.
Proof.
  induction ops as [|op ops IH]; [set_solver|]. cbn [after_last_event].
  destruct (existsb (is_event i) (op :: ops)) eqn:E; [exact IH|]. cbn [drop]. intros Hin.
  assert (existsb (is_event i) (op :: ops) = true); [|congruence].
  apply existsb_exists. exists (OEvent i). split; [by apply list_elem_of_In|]. cbn. apply Nat.eqb_refl.
Qed.

Lemma waited_no_copy i ops : settled i ops -> no_copy i (drop (after_last_event i ops) ops).
Proof.
  intros H d o n Hin. apply (after_last_event_none i ops). apply list_elem_of_split in Hin as (s1 & s2 & E).
  apply (settled_drop i (after_last_event i ops)) in H. specialize (H s1 d o n s2 E). rewrite E. set_solver.
Qed.

(** * The slots *)
Record slots_ok (slot_bytes : Z) (slot_count : nat) (busy : option nat) (w : load_world) : Prop := {
  so_count : length (w_slots w) = slot_count;
  so_slot : forall i s, w_slots w !! i = Some s -> sl_address s mod 4096 = 0 /\ vsize (sl_buffer s) = slot_bytes;
  so_settled : forall i, busy <> Some i -> settled i (w_stream w);
  so_idle : forall i s, busy <> Some i -> w_slots w !! i = Some s -> sl_pending s = false -> no_copy i (w_stream w);
}.

Section Steps.
Context (slot_bytes : Z) (slot_count : nat).

Lemma advance_slots_ok busy k w : slots_ok slot_bytes slot_count busy w -> slots_ok slot_bytes slot_count busy (advance k w).
Proof.
  intros [Hc Hs Hset Hidle]. split; cbn; [done|done| |].
  - intros i Hi. by apply settled_drop, Hset.
  - intros i s Hi Hl Hp. apply no_copy_drop. by eapply Hidle.
Qed.

Lemma wp_tick busy Q E w : slots_ok slot_bytes slot_count busy w ->
  (forall w', slots_ok slot_bytes slot_count busy w' -> eff w' = eff w -> w_slots w' = w_slots w -> w_copied w' = w_copied w ->
              w_file_bytes w' = w_file_bytes w -> (forall i, no_copy i (w_stream w) -> no_copy i (w_stream w')) -> Q tt w') ->
  wp tick Q E w.
Proof.
  intros Hw HQ. unfold tick. apply wp_modify. destruct (w_schedule w) as [|k schedule]; [by apply HQ|].
  pose proof (advance_slots_ok busy k w Hw) as [Hc Hs Hset Hidle].
  apply HQ; [|by rewrite <- (advance_eff k w)|done|done|done|]; [by split|]. intros i. apply no_copy_drop.
Qed.

(** Waiting for a slot leaves no copy from it in the stream. *)
Lemma wp_wait i Q E w : slots_ok slot_bytes slot_count None w -> (i < slot_count)%nat ->
  (forall w', slots_ok slot_bytes slot_count None w' -> no_copy i (w_stream w') -> eff w' = eff w ->
              w_copied w' = w_copied w -> w_file_bytes w' = w_file_bytes w -> Q tt w') ->
  wp (slot_wait i) Q E w.
Proof.
  intros Hw Hi HQ. pose proof Hw as [Hc Hs Hset Hidle]. unfold slot_wait. wp_step. wp_step. wp_step.
  destruct (lookup_lt_is_Some_2 (w_slots w) i) as [s Es]; [lia|]. rewrite Es. apply wp_lift; [|done]. intros ? [= <-].
  destruct (sl_pending s) eqn:Ep; [|wp_step; apply HQ; try done; by eapply Hidle].
  wp_step. set (k := after_last_event i (w_stream w)). pose proof (advance_slots_ok None k w Hw) as [Hc' Hs' Hset' Hidle'].
  pose proof (waited_no_copy i (w_stream w) (Hset i ltac:(done))) as Hno. apply HQ; [|exact Hno| |done|done].
  - split; cbn.
    + by rewrite length_insert.
    + intros j s' [(<- & <- & _) | [_ Hj]]%list_lookup_insert_Some; [cbn; by apply (Hs i)|by apply (Hs j)].
    + intros j _. by apply Hset'.
    + intros j s' _ [(<- & <- & _) | [_ Hj]]%list_lookup_insert_Some Hp; [exact Hno|by eapply Hidle'].
  - rewrite <- (advance_eff k w). unfold eff. cbn. symmetry. apply run_ops_ext. intros d j o n Hin. unfold buffer_of.
    destruct (decide (j = i)) as [->|Hne]; [exfalso; by apply (Hno d o n)|]. by rewrite list_lookup_insert_ne.
Qed.

(** The buffer of a waited slot may be written. *)
Lemma write_buffer i s buffer w : slots_ok slot_bytes slot_count None w -> no_copy i (w_stream w) -> w_slots w !! i = Some s ->
  vsize buffer = slot_bytes ->
  slots_ok slot_bytes slot_count (Some i) (set_slots (<[i := mkSlot (sl_address s) buffer (sl_pending s)]> (w_slots w)) w) /\
  eff (set_slots (<[i := mkSlot (sl_address s) buffer (sl_pending s)]> (w_slots w)) w) = eff w.
Proof.
  intros [Hc Hs Hset Hidle] Hno Hi Hb. split.
  - split; cbn; [by rewrite length_insert| | |].
    + intros j s' [(<- & <- & _) | [_ Hj]]%list_lookup_insert_Some; [cbn; split; [by apply (Hs i s)|done]|by apply (Hs j)].
    + intros j _. by apply Hset.
    + intros j s' Hne [(<- & <- & _) | [_ Hj]]%list_lookup_insert_Some Hp; [done|]. by eapply (Hidle j).
  - unfold eff. cbn. symmetry. apply run_ops_ext. intros d j o n Hin. unfold buffer_of.
    destruct (decide (j = i)) as [->|Hne]; [exfalso; by apply (Hno d o n)|]. by rewrite list_lookup_insert_ne.
Qed.

(** A copy is appended from the slot in use; it takes effect on [eff]. *)
Lemma enqueue_copy i d o n w : slots_ok slot_bytes slot_count (Some i) w ->
  let w' := set_stream (w_stream w ++ [OCopy d i o n]) (w_device w) w in
  slots_ok slot_bytes slot_count (Some i) w' /\ eff w' = run_op (w_slots w) (eff w) (OCopy d i o n).
Proof.
  intros [Hc Hs Hset Hidle]. split; [split; cbn; [done|done| |]|].
  - intros j Hj a d' o' n' b E. destruct b as [|x b _] using rev_ind.
    + apply app_inj_tail in E as [_ [= -> -> -> ->]]. done.
    + rewrite app_comm_cons, app_assoc in E. apply app_inj_tail in E as [E _]. apply elem_of_app. left. by eapply Hset.
  - intros j s Hj Hl Hp d' o' n' [Hin | Hin]%elem_of_app; [by eapply (Hidle j s)|].
    apply list_elem_of_singleton in Hin as [= -> -> -> ->]. done.
  - unfold eff. cbn. by rewrite run_ops_app.
Qed.

(** The event closes the use of the slot. *)
Lemma close_slot i w : slots_ok slot_bytes slot_count (Some i) w ->
  let w' := set_slots (alter (fun s => mkSlot (sl_address s) (sl_buffer s) true) i (w_slots w))
              (set_stream (w_stream w ++ [OEvent i]) (w_device w) w) in
  slots_ok slot_bytes slot_count None w' /\ eff w' = eff w.
Proof.
  intros [Hc Hs Hset Hidle]. split; [split; cbn|].
  - by rewrite length_alter.
  - intros j s Hj. destruct (decide (i = j)) as [->|Hne].
    + rewrite list_lookup_alter_eq in Hj. apply fmap_Some in Hj as (s' & Hj & ->). cbn; by apply (Hs j s').
    + rewrite list_lookup_alter_ne in Hj by done. by apply (Hs j).
  - intros j _ a d o n b E. destruct b as [|x b _] using rev_ind; [by apply app_inj_tail in E as [_ ?]|].
    rewrite app_comm_cons, app_assoc in E. apply app_inj_tail in E as [E <-].
    destruct (decide (i = j)) as [->|Hne]; [set_solver|]. apply elem_of_app. left. eapply (Hset j); [congruence|done].
  - intros j s _ Hj Hp d o n [Hin | Hin]%elem_of_app; [|by apply list_elem_of_singleton in Hin].
    destruct (decide (i = j)) as [->|Hne].
    + rewrite list_lookup_alter_eq in Hj. apply fmap_Some in Hj as (s' & Hj & ->). done.
    + rewrite list_lookup_alter_ne in Hj by done. eapply (Hidle j s); [congruence|done|done|done].
  - unfold eff. cbn. rewrite run_ops_app. trans (run_ops (alter (fun s => mkSlot (sl_address s) (sl_buffer s) true) i (w_slots w)) (w_device w) (w_stream w)); [done|].
    apply run_ops_ext. intros d j o n _. unfold buffer_of.
    destruct (decide (i = j)) as [->|Hne]; [|by rewrite list_lookup_alter_ne]. rewrite list_lookup_alter_eq.
    by destruct (w_slots w !! j).
Qed.
End Steps.

(** * Ranges *)
Definition cr_bytes (r : CopyRange) : Z := cr_source_end r - cr_source_begin r.

(** The destinations do not meet. *)
Definition apart (r r' : CopyRange) : Prop :=
  cr_destination r + cr_bytes r <= cr_destination r' \/ cr_destination r' + cr_bytes r' <= cr_destination r.

Fixpoint all_apart (l : list CopyRange) : Prop :=
  match l with
  | [] => True
  | r :: l' => Forall (apart r) l' /\ all_apart l'
  end.

Lemma all_apart_perm l k : l ≡ₚ k -> all_apart l -> all_apart k.
Proof.
  assert (Hsym : forall a b, apart a b -> apart b a) by (intros a b []; [by right|by left]).
  induction 1 as [|x l k Hp IH|x y l|l k m _ IH1 _ IH2]; [done| | |by auto]; cbn.
  - intros [Hf Ha]. split; [by rewrite <- Hp|by apply IH].
  - intros ([Hxy Hx]%Forall_cons_1 & Hy & Ha). split; [|done]. apply Forall_cons_2; [by apply Hsym|done].
Qed.

Lemma all_apart_middle l r k : all_apart (l ++ r :: k) -> Forall (apart r) (l ++ k).
Proof. intros H. apply (all_apart_perm _ (r :: l ++ k)) in H; [apply H|]. by rewrite Permutation_middle. Qed.

(** One behind the other in the file. *)
Fixpoint ordered (l : list CopyRange) : Prop :=
  match l with
  | [] => True
  | r :: l' => cr_source_begin r < cr_source_end r /\ Forall (fun r' => cr_source_end r <= cr_source_begin r') l' /\ ordered l'
  end.

(** The bytes of a range in front of position [p]. *)
Definition done_bytes (p : Z) (r : CopyRange) : Z := Z.max 0 (Z.min p (cr_source_end r) - cr_source_begin r).

Section Progress.
Context (file : list Z) (device0 : Z -> Z).

Definition file_byte (x : Z) : Z := default 0 (file.[x]).

Definition outside (a : Z) (r : CopyRange) : Prop := ~ (cr_destination r <= a < cr_destination r + cr_bytes r).

(** Every range was copied up to the position it is paired with, and nothing else was written. *)
Record progress (ps : list (CopyRange * Z)) (w : load_world) : Prop := {
  pr_copied : w_copied w = zsum (map (fun rp => done_bytes rp.2 rp.1) ps);
  pr_device : forall r p x, (r, p) ∈ ps -> cr_source_begin r <= x < cr_source_end r -> x < p ->
              eff w (cr_destination r + (x - cr_source_begin r)) = file_byte x;
  pr_frame : forall a, Forall (outside a) ps.*1 -> eff w a = device0 a;
}.

Lemma progress_world ps w w' : progress ps w -> eff w' = eff w -> w_copied w' = w_copied w -> progress ps w'.
Proof.
  intros [Hc Hd Hf] He Ec. split; [by rewrite Ec|intros; rewrite He; by eapply Hd|intros; rewrite He; by apply Hf].
Qed.

(** Positions may move where the range has no byte in between. *)
Lemma progress_move l r p q k w : p <= q -> cr_source_end r <= p \/ q <= cr_source_begin r ->
  cr_source_begin r < cr_source_end r -> progress (l ++ (r, p) :: k) w -> progress (l ++ (r, q) :: k) w.
Proof.
  intros Hpq Hgap Hne [Hc Hd Hf]. split.
  - rewrite Hc, !map_app. cbn [map]. rewrite !zsum_app, !zsum_cons. cbn. unfold done_bytes. lia.
  - intros r' p' x Hin Hx Hlt. apply elem_of_app in Hin as [Hin | Hin]; [eapply Hd; [apply elem_of_app; by left|done|done]|].
    apply elem_of_cons in Hin as [[= -> ->] | Hin]; [|eapply Hd; [apply elem_of_app; right; by right|done|done]].
    eapply (Hd r p); [apply elem_of_app; right; by left|done|lia].
  - intros a Ha. apply Hf. by rewrite fmap_app in *.
Qed.

(** One copied piece. *)
Lemma progress_copy l r k source chunk_end i w w' : all_apart (l.*1 ++ r :: k.*1) -> source <= chunk_end ->
  cr_source_begin r < cr_source_end r ->
  Z.max source (cr_source_begin r) < Z.min chunk_end (cr_source_end r) ->
  (forall x, source <= x < chunk_end -> (buffer_of (w_slots w) i).[x - source] = Some (file_byte x)) ->
  let copy_begin := Z.max source (cr_source_begin r) in
  let amount := Z.min chunk_end (cr_source_end r) - copy_begin in
  eff w' = run_op (w_slots w) (eff w) (OCopy (cr_destination r + (copy_begin - cr_source_begin r)) i (copy_begin - source) amount) ->
  w_copied w' = w_copied w + amount ->
  progress (l ++ (r, source) :: k) w -> progress (l ++ (r, chunk_end) :: k) w'.
Proof.
  intros Hap Hsc Hne Hlt Hbuf copy_begin amount Heff Hcop [Hc Hd Hf].
  assert (Hout : forall a, outside a r -> eff w' a = eff w a).
  { intros a Ha. rewrite Heff. cbn. unfold outside, cr_bytes in Ha. case_match eqn:E; [|done]. simp_bool. subst copy_begin amount. lia. }
  assert (Happ : forall r' p', (r', p') ∈ l ++ k -> apart r r').
  { intros r' p' Hin. apply all_apart_middle in Hap. rewrite <- fmap_app in Hap. rewrite Forall_forall in Hap. apply Hap.
    apply list_elem_of_fmap. by exists (r', p'). }
  split.
  - rewrite Hcop, Hc, !map_app. cbn [map]. rewrite !zsum_app, !zsum_cons. cbn. unfold done_bytes, amount, copy_begin. lia.
  - intros r' p' x Hin Hx Hxp. assert (Hcases : (r', p') = (r, chunk_end) \/ (r', p') ∈ l ++ k) by set_solver.
    destruct Hcases as [[= -> ->] | Hin'].
    + destruct (decide (x < source)) as [Hs|Hs].
      * assert (E : eff w' (cr_destination r + (x - cr_source_begin r)) = eff w (cr_destination r + (x - cr_source_begin r))).
        { rewrite Heff. cbn. rewrite (proj2 (Z.leb_gt _ _)); [done|]. unfold copy_begin. lia. }
        rewrite E. eapply Hd; [apply elem_of_app; right; by left|done|done].
      * rewrite Heff. cbn. rewrite (proj2 (Z.leb_le _ _)), (proj2 (Z.ltb_lt _ _)) by (unfold amount, copy_begin; lia). cbn.
        replace (copy_begin - source + _) with (x - source) by lia. by rewrite Hbuf by lia.
    + rewrite Hout; [apply (Hd r' p'); [set_solver|done|done]|]. specialize (Happ r' p' Hin'). unfold apart, outside, cr_bytes in *. lia.
  - intros a Ha. rewrite fmap_app in Ha. apply Forall_app in Ha as [Hal [Har Hak]%Forall_cons_1]. cbn in Har. rewrite Hout by done.
    apply Hf. rewrite fmap_app. apply Forall_app. split; [done|]. by apply Forall_cons_2.
Qed.

Definition at_pos (p : Z) (l : list CopyRange) : list (CopyRange * Z) := map (fun r => (r, p)) l.

Lemma at_pos_fst p l : (at_pos p l).*1 = l.
Proof. unfold at_pos. induction l as [|r l IH]; cbn; [done|]. by rewrite IH. Qed.

Lemma progress_move_mid l k m p q w : p <= q ->
  Forall (fun r => (cr_source_end r <= p \/ q <= cr_source_begin r) /\ cr_source_begin r < cr_source_end r) k ->
  progress (l ++ at_pos p k ++ m) w -> progress (l ++ at_pos q k ++ m) w.
Proof.
  intros Hpq H. revert l. induction H as [|r k [Hgap Hne] _ IH]; intros l Hp; [done|]. cbn [at_pos map app] in *.
  apply (progress_move l r p q _ w Hpq Hgap Hne) in Hp.
  rewrite cons_middle, app_assoc in Hp. apply IH in Hp. by rewrite <- app_assoc in Hp.
Qed.

Lemma progress_move_all l k p q w : p <= q ->
  Forall (fun r => (cr_source_end r <= p \/ q <= cr_source_begin r) /\ cr_source_begin r < cr_source_end r) k ->
  progress (l ++ at_pos p k) w -> progress (l ++ at_pos q k) w.
Proof. intros Hpq H Hp. pose proof (progress_move_mid l k [] p q w Hpq H) as Hm. rewrite !app_nil_r in Hm. auto. Qed.

Lemma ordered_positive l : ordered l -> Forall (fun r => cr_source_begin r < cr_source_end r) l.
Proof. induction l as [|r l IH]; cbn; [intros; apply Forall_nil_2|]. intros (? & _ & ?). apply Forall_cons_2; auto. Qed.

Lemma done_bytes_bound ps : Forall (fun rp => cr_source_begin rp.1 < cr_source_end rp.1) ps ->
  zsum (map (fun rp => done_bytes rp.2 rp.1) ps) <= zsum (map cr_bytes ps.*1).
Proof. induction 1 as [|[r p] ps H _ IH]; cbn; [done|]. rewrite !zsum_cons. unfold done_bytes, cr_bytes in *. cbn in *. lia. Qed.

Section Copy.
Context (slot_bytes : Z) (slot_count : nat) (i : nat) (source chunk_end : Z) (Hchunk : source < chunk_end).

(** The chunk is in the buffer of the slot. *)
Definition chunk_in (slots : list Slot) : Prop :=
  forall x, source <= x < chunk_end -> (buffer_of slots i).[x - source] = Some (file_byte x).

Lemma wp_copy_piece l r k E w (Q : unit -> load_world -> Prop) :
  all_apart (l.*1 ++ r :: k.*1) -> Forall (fun rp => cr_source_begin rp.1 < cr_source_end rp.1) (l ++ (r, source) :: k) ->
  zsum (map cr_bytes (l.*1 ++ r :: k.*1)) <= U64_MAX -> cr_source_begin r < chunk_end ->
  slots_ok slot_bytes slot_count (Some i) w -> chunk_in (w_slots w) -> progress (l ++ (r, source) :: k) w ->
  (forall w', slots_ok slot_bytes slot_count (Some i) w' -> w_slots w' = w_slots w -> w_file_bytes w' = w_file_bytes w ->
              progress (l ++ (r, chunk_end) :: k) w' -> Q tt w') ->
  wp (let copy_begin := Z.max source (cr_source_begin r) in
      let copy_end := Z.min chunk_end (cr_source_end r) in
      if copy_begin <? copy_end then
        let amount := copy_end - copy_begin in
        _ ← enqueue (OCopy (cr_destination r + (copy_begin - cr_source_begin r)) i (copy_begin - source) amount);
        _ ← tick;
        w ← mget;
        copied ← mlift (StorageLayouts.checked_add (w_copied w) amount);
        mmodify (set_copied copied)
      else mret tt) Q E w.
Proof.
  intros Hap Hpos Hsum Hb Hw Hin Hp HQ. cbv zeta. pose proof Hpos as [_ [Hr _]%Forall_cons_1]%Forall_app. cbn in Hr.
  destruct (Z.ltb_spec (Z.max source (cr_source_begin r)) (Z.min chunk_end (cr_source_end r))) as [Hlt|Hge].
  2: { wp_step. apply HQ; try done. apply (progress_move l r source chunk_end k w); [lia|lia|done|done]. }
  set (copy_begin := Z.max source (cr_source_begin r)) in *. set (amount := Z.min chunk_end (cr_source_end r) - copy_begin).
  wp_step. unfold enqueue. wp_step. destruct (enqueue_copy slot_bytes slot_count i (cr_destination r + (copy_begin - cr_source_begin r))
    (copy_begin - source) amount w Hw) as [Hw1 He1]. set (w1 := set_stream _ _ w) in *.
  wp_step. apply (wp_tick slot_bytes slot_count (Some i)); [done|]. intros w2 Hw2 He2 Hs2 Hc2 Hf2 _. wp_step. wp_step. wp_step.
  assert (Hp2 : progress (l ++ (r, chunk_end) :: k) (set_copied (w_copied w2 + amount) w2)).
  { apply (progress_copy l r k source chunk_end i w); [done|lia|done|done|done| | |done].
    - change (eff (set_copied _ w2)) with (eff w2). by rewrite He2.
    - cbn. by rewrite Hc2. }
  assert (Hfits : w_copied w2 + amount <= U64_MAX).
  { pose proof (pr_copied _ _ Hp2) as Hc. cbn [w_copied set_copied] in Hc. rewrite Hc.
    etrans; [apply done_bytes_bound|by rewrite fmap_app]. apply Forall_app in Hpos as [? [? ?]%Forall_cons_1].
    apply Forall_app. split; [done|]. by apply Forall_cons_2. }
  rewrite (proj2 (checked_add_iff (w_copied w2) amount _) (conj eq_refl Hfits)). apply wp_lift; [|done]. intros ? [= <-]. wp_step.
  apply HQ; [|by cbn; rewrite Hs2|by cbn; rewrite Hf2|done]. destruct Hw2. by split.
Qed.

Lemma wp_copy_ranges left l E w :
  all_apart (l.*1 ++ left) -> ordered left -> Forall (fun rp => cr_source_begin rp.1 < cr_source_end rp.1) l ->
  zsum (map cr_bytes (l.*1 ++ left)) <= U64_MAX ->
  slots_ok slot_bytes slot_count (Some i) w -> chunk_in (w_slots w) -> progress (l ++ at_pos source left) w ->
  wp (copy_ranges i source chunk_end left) (fun left' w' =>
    slots_ok slot_bytes slot_count (Some i) w' /\ progress (l ++ at_pos chunk_end left) w' /\ w_file_bytes w' = w_file_bytes w /\
    exists mid, left = mid ++ left' /\ Forall (fun r => cr_source_end r <= chunk_end) mid /\ Forall (fun r => chunk_end < cr_source_end r) left') E w.
Proof.
  revert l w. induction left as [|r rest IH]; intros l w Hap Hord Hl Hsum Hw Hin Hp; cbn [copy_ranges].
  { wp_step. split; [done|]. split; [done|]. split; [done|]. exists []. split; [done|]. split; apply Forall_nil_2. }
  pose proof (ordered_positive _ Hord) as Hpos. cbn in Hord. destruct Hord as (Hr & Hrest & Hord).
  assert (Hstop : forall w, chunk_end <= cr_source_begin r \/ chunk_end < cr_source_end r -> progress (l ++ (r, chunk_end) :: at_pos source rest) w ->
            progress (l ++ at_pos chunk_end (r :: rest)) w /\ Forall (fun r => chunk_end < cr_source_end r) (r :: rest)).
  { intros w' Hend Hp'. apply Forall_cons_1 in Hpos as [_ Hpos]. rewrite Forall_forall in Hrest, Hpos. split.
    - rewrite cons_middle, app_assoc in Hp'.
      apply (progress_move_all _ rest source chunk_end) in Hp'; [by rewrite <- app_assoc in Hp'|lia|]. apply Forall_forall. intros r' Hr'.
      specialize (Hrest r' Hr'). specialize (Hpos r' Hr'). lia.
    - apply Forall_cons_2; [lia|]. apply Forall_forall. intros r' Hr'. specialize (Hrest r' Hr'). specialize (Hpos r' Hr'). cbn in *. lia. }
  destruct (Z.ltb_spec (cr_source_begin r) chunk_end) as [Hb|Hb].
  2: { wp_step. apply (progress_move l r source chunk_end) in Hp; [|lia|lia|done].
       destruct (Hstop w ltac:(lia) Hp) as [? ?]. split; [done|]. split; [done|]. split; [done|]. exists []. split; [done|]. split; [apply Forall_nil_2|done]. }
  wp_step. apply (wp_copy_piece l r (at_pos source rest)); [by rewrite at_pos_fst| |by rewrite at_pos_fst|done|done|done|done|].
  { apply Forall_app. split; [done|]. apply Forall_cons_1 in Hpos as [? Hpos]. apply Forall_cons_2; [done|]. unfold at_pos. apply Forall_map.
    eapply Forall_impl; [exact Hpos|done]. }
  intros w1 Hw1 Hs1 Hf1 Hp1. destruct (Z.leb_spec (cr_source_end r) chunk_end) as [He|He].
  - eapply wp_conseq; [apply (IH (l ++ [(r, chunk_end)]) w1)| |done].
    + by rewrite (fmap_app fst), <- app_assoc.
    + done.
    + apply Forall_app. split; [done|]. by apply Forall_singleton.
    + by rewrite (fmap_app fst), <- app_assoc.
    + done.
    + by rewrite Hs1.
    + by rewrite <- app_assoc.
    + cbn. intros left' w2 (Hw2 & Hp2 & Hf2 & mid & -> & Hmid & Hleft). split; [done|]. split; [by rewrite <- app_assoc in Hp2|].
      split; [by rewrite Hf2|].
      exists (r :: mid). split; [done|]. split; [by apply Forall_cons_2|done].
  - wp_step. destruct (Hstop w1 ltac:(lia) Hp1) as [? ?]. split; [done|]. split; [done|]. split; [done|]. exists []. split; [done|]. split; [apply Forall_nil_2|done].
Qed.
End Copy.
End Progress.

(** * Chunks and spans *)

(** The documented behaviour of [pread] on the file: a prefix of what was asked for, with the bytes of the
    file; and, when nothing goes wrong, all of it up to the end of the file. *)
Definition pread_ok (file : list Z) (pread : Z -> Z -> option (list Z)) : Prop :=
  forall offset n bytes, 0 <= offset -> 0 <= n -> pread offset n = Some bytes ->
    vsize bytes <= n /\ bytes = mem_slice file offset (vsize bytes).

Definition pread_complete (file : list Z) (pread : Z -> Z -> option (list Z)) : Prop :=
  forall offset n, 0 <= offset <= vsize file -> 0 <= n ->
    exists bytes, pread offset n = Some bytes /\ vsize bytes = Z.min n (vsize file - offset).

Lemma vget_mem_slice {A} (l : list A) off n k : 0 <= off -> 0 <= k < n -> (mem_slice l off n).[k] = l.[off + k].
Proof.
  intros. unfold mem_slice, vget. rewrite (proj2 (Z.leb_le 0 k)), (proj2 (Z.leb_le 0 (off + k))) by lia.
  rewrite lookup_take_lt by lia. rewrite lookup_drop. f_equal. lia.
Qed.

Section Chunks.
Context (file : list Z) (device0 : Z -> Z) (pread : Z -> Z -> option (list Z)) (slot_bytes : Z) (slot_count : nat) (ranges : list CopyRange).
Context (Hfile : vsize file + 4096 <= I64_MAX) (Hpread : pread_ok file pread).
Context (Hslot : 0 < slot_bytes <= kSlotBytes) (Hslot4096 : (4096 | slot_bytes)) (Hcount : (0 < slot_count)%nat).
Context (Hord : ordered ranges) (Hap : all_apart ranges) (Hsum : zsum (map cr_bytes ranges) <= U64_MAX).

(** Everything in front of [p] was copied; [left] are the ranges that go on behind it. *)
Definition loaded (p : Z) (left : list CopyRange) (w : load_world) : Prop :=
  progress file device0 (at_pos p ranges) w /\
  exists pre, ranges = pre ++ left /\ Forall (fun r => cr_source_end r <= p) pre /\ Forall (fun r => p < cr_source_end r) left.

Lemma loaded_move p q left w : p <= q -> Forall (fun r => cr_source_end r <= p \/ q <= cr_source_begin r) ranges ->
  loaded p left w -> loaded q left w.
Proof.
  intros Hpq Hgap [Hp (pre & E & Hpre & Hleft)]. pose proof (ordered_positive _ Hord) as Hpos. split.
  - apply (progress_move_all file device0 [] ranges p q w Hpq); [|done]. apply Forall_and. done.
  - exists pre. split; [done|]. rewrite E in Hgap, Hpos. apply Forall_app in Hgap as [_ Hgap]. apply Forall_app in Hpos as [_ Hpos].
    rewrite Forall_forall in Hpre, Hleft, Hgap, Hpos. split; apply Forall_forall; [intros r Hr; specialize (Hpre r Hr); lia|].
    intros r Hr. specialize (Hgap r Hr). specialize (Hpos r Hr). specialize (Hleft r Hr). lia.
Qed.

Lemma skip_none p left : Forall (fun r => p < cr_source_end r) left -> skip_ranges p left = left.
Proof. destruct 1; cbn; [done|]. by rewrite (proj2 (Z.leb_gt _ _)) by done. Qed.

Lemma ordered_app l k : ordered (l ++ k) -> ordered k.
Proof. induction l as [|r l IH]; cbn; [done|]. intros (_ & _ & H). auto. Qed.

Definition E_incomplete : error -> load_world -> Prop := fun _ _ => ~ pread_complete file pread.

(** What was read, or the reason why not. *)
Lemma wp_read_file source address request Q w : 0 <= source -> source mod 4096 = 0 -> address mod 4096 = 0 -> request mod 4096 = 0 ->
  0 <= request <= I64_MAX -> source <= vsize file ->
  (forall bytes, vsize bytes <= request -> bytes = mem_slice file source (vsize bytes) ->
     (pread_complete file pread -> vsize bytes = Z.min request (vsize file - source)) -> Q bytes w) ->
  wp (mlift (read_direct pread source address request)) Q E_incomplete w.
Proof.
  intros Hs0 Hs Ha Hr Hreq Hle HQ. unfold read_direct, direct_io_alignment. rewrite Hs, Ha, Hr. cbn [Z.eqb negb orb throw_if mbind result_bind].
  rewrite (proj2 (Z.ltb_ge I64_MAX source)), (proj2 (Z.ltb_ge I64_MAX request)) by lia. cbn [orb throw_if mbind result_bind].
  destruct (pread source request) as [bytes|] eqn:E; apply wp_lift; intros x [= <-].
  - destruct (Hpread source request bytes ltac:(lia) ltac:(lia) E) as [Hn Hb]. apply HQ; [done|done|]. intros Hc.
    destruct (Hc source request ltac:(lia) ltac:(lia)) as (b & Hb' & Hv). rewrite <- Hv. congruence.
  - unfold E_incomplete. intros Hc. destruct (Hc source request ltac:(lia) ltac:(lia)) as (b & Hb' & _). congruence.
Qed.

Lemma align_4k v c : 0 <= v -> StorageLayouts.align_up v direct_io_alignment = Ok c <-> c = round_up v 4096 /\ round_up v 4096 <= U64_MAX.
Proof. apply align_4096. Qed.

(** The second half of a chunk: copies, event, flag. *)
Lemma wp_copy_chunk i source bytes tail left E w : 0 <= source -> 0 < vsize bytes -> bytes = mem_slice file source (vsize bytes) ->
  slots_ok slot_bytes slot_count (Some i) w -> loaded source left w -> buffer_of (w_slots w) i = bytes ++ tail ->
  wp (left ← copy_ranges i source (source + vsize bytes) (skip_ranges source left);
      _ ← enqueue (OEvent i);
      _ ← mmodify (fun w => set_slots (alter (fun s => mkSlot (sl_address s) (sl_buffer s) true) i (w_slots w)) w);
      mret left)
     (fun left' w' => slots_ok slot_bytes slot_count None w' /\ loaded (source + vsize bytes) left' w' /\ w_file_bytes w' = w_file_bytes w) E w.
Proof.
  intros Hs0 Hn Hbytes Hw [Hp (pre & Er & Hpre & Hleft)] Hbuf. rewrite (skip_none source left Hleft). wp_step.
  pose proof Hord as Hol. rewrite Er in Hol. pose proof (ordered_positive _ Hol) as [Hpos _]%Forall_app. apply ordered_app in Hol.
  assert (Happ : forall p, at_pos p ranges = at_pos p pre ++ at_pos p left) by (intros p; rewrite Er; apply map_app).
  assert (Hp' : progress file device0 (at_pos (source + vsize bytes) pre ++ at_pos source left) w).
  { rewrite Happ in Hp. apply (progress_move_mid file device0 [] pre _ source); [lia| |done].
    apply Forall_and. split; [|done]. eapply Forall_impl; [exact Hpre|]. intros r. by left. }
  assert (Hfst : (at_pos (source + vsize bytes) pre).*1 ++ left = ranges) by (by rewrite at_pos_fst).
  assert (Hlen : source + vsize bytes <= vsize file).
  { assert (vsize (mem_slice file source (vsize bytes)) <= vsize file - source \/ vsize (mem_slice file source (vsize bytes)) = 0).
    { unfold mem_slice, vsize. rewrite length_take, length_drop. lia. }
    rewrite <- Hbytes in *. lia. }
  eapply wp_conseq; [apply (wp_copy_ranges file device0 slot_bytes slot_count i source (source + vsize bytes) ltac:(lia) left (at_pos (source + vsize bytes) pre))| |].
  - by rewrite Hfst.
  - done.
  - unfold at_pos. apply Forall_map. eapply Forall_impl; [exact Hpos|done].
  - by rewrite Hfst.
  - done.
  - intros x Hx. rewrite Hbuf, vget_app_l by lia. rewrite Hbytes, vget_mem_slice by lia. unfold file_byte.
    replace (source + (x - source)) with x by lia. destruct (vget_is_Some file x) as [b ->]; [lia|done].
  - done.
  - cbn. intros left' w1 (Hw1 & Hp1 & Hf1 & mid & -> & Hmid & Hleft'). wp_step. unfold enqueue. wp_step. wp_step. wp_step. wp_step.
    destruct (close_slot slot_bytes slot_count i w1 Hw1) as [Hw2 He2]. split; [done|]. split; [|done]. split.
    + rewrite Happ. by apply (progress_world file device0 _ w1).
    + exists (pre ++ mid). split; [by rewrite <- app_assoc|]. split; [|done]. apply Forall_app. split; [|done].
      eapply Forall_impl; [exact Hpre|]. intros r Hr. cbn in *. lia.
  - done.
Qed.

Lemma wp_load_chunk span_end i source left w : (i < slot_count)%nat -> 0 <= source < span_end -> span_end <= vsize file ->
  (4096 | source) -> slots_ok slot_bytes slot_count None w -> loaded source left w -> 0 <= w_file_bytes w <= I64_MAX - 4096 + source ->
  wp (load_chunk pread slot_bytes span_end i source left) (fun left' w' => exists chunk_end,
        slots_ok slot_bytes slot_count None w' /\ loaded chunk_end left' w' /\
        0 <= w_file_bytes w' <= w_file_bytes w + (chunk_end - source) /\ source < chunk_end /\
        (slot_bytes < span_end - source -> chunk_end = source + slot_bytes) /\
        (span_end - source <= slot_bytes -> span_end <= chunk_end <= round_up span_end 4096)) E_incomplete w.
Proof.
  intros Hi Hsrc Hend Hdiv Hw Hl Hfb. unfold load_chunk. wp_step. apply (wp_wait slot_bytes slot_count); [done|done|].
  intros w1 Hw1 Hno1 He1 Hc1 Hf1. wp_step. apply (wp_tick slot_bytes slot_count None); [done|]. intros w2 Hw2 He2 Hs2 Hc2 Hf2 Hno2.
  specialize (Hno2 i Hno1). wp_step. destruct (round_up_spec 4096 eq_refl (span_end - source)) as [Hrd Hr].
  assert (Hfit : round_up (span_end - source) 4096 <= U64_MAX) by (unfold I64_MAX, U64_MAX in *; lia).
  rewrite (proj2 (align_4k (span_end - source) _ ltac:(lia)) (conj eq_refl Hfit)). apply wp_lift; [|done]. intros ? [= <-].
  set (request := Z.min slot_bytes (round_up (span_end - source) 4096)).
  assert (Hreq4096 : (4096 | request)) by (unfold request; destruct (Z.min_spec slot_bytes (round_up (span_end - source) 4096)) as [[_ ->] | [_ ->]]; done).
  wp_step. wp_step. wp_step. destruct (lookup_lt_is_Some_2 (w_slots w2) i) as [s Es]; [by rewrite (so_count _ _ _ _ Hw2)|]. rewrite Es.
  apply wp_lift; [|done]. intros ? [= <-]. destruct (so_slot _ _ _ _ Hw2 i s Es) as [Haddr Hbuf]. wp_step.
  assert (Hreq : 0 < request <= slot_bytes) by (unfold request; lia).
  apply wp_read_file; [lia|by apply Z.mod_divide|done|by apply Z.mod_divide|unfold kSlotBytes, I64_MAX in *; lia|lia|].
  intros bytes Hn Hbytes Hcomplete. set (buffer := bytes ++ drop (length bytes) (sl_buffer s)).
  assert (Hbl : vsize buffer = slot_bytes) by (unfold buffer, vsize in *; rewrite length_app, length_drop; lia).
  destruct (write_buffer slot_bytes slot_count i s buffer w2 Hw2 Hno2 Es Hbl) as [Hw3 He3]. set (w3 := set_slots _ w2) in *.
  wp_step. wp_step. wp_step. wp_step; [|unfold E_incomplete; intros Hc; specialize (Hcomplete Hc); simp_bool; lia]. simp_bool.
  assert (Hfb2 : w_file_bytes w2 = w_file_bytes w) by (by rewrite Hf2). rewrite Hfb2.
  assert (Hn0 : 0 < vsize bytes) by lia.
  assert (Hff : w_file_bytes w + vsize bytes <= U64_MAX) by (unfold I64_MAX, U64_MAX, kSlotBytes in *; lia).
  wp_step. rewrite (proj2 (checked_add_iff (w_file_bytes w) (vsize bytes) _) (conj eq_refl Hff)). apply wp_lift; [|done]. intros ? [= <-].
  wp_step. wp_step. wp_step. assert (Hce : source + vsize bytes <= U64_MAX) by (unfold I64_MAX, U64_MAX, kSlotBytes in *; lia).
  rewrite (proj2 (checked_add_iff source (vsize bytes) _) (conj eq_refl Hce)). apply wp_lift; [|done]. intros ? [= <-].
  set (w4 := set_file_bytes _ w3). assert (Hl4 : loaded source left w4).
  { destruct Hl as [Hp Hex]. split; [|done]. apply (progress_world file device0 _ w); [done| |by rewrite Hc1 in Hc2].
    change (eff w4) with (eff w3). by rewrite He3, He2, He1. }
  eapply wp_conseq; [apply (wp_copy_chunk i source bytes (drop (length bytes) (sl_buffer s)) left _ w4); [lia|done|done| |done|]| |done].
  - destruct Hw3. by split.
  - unfold w4, w3, buffer_of. cbn. rewrite list_lookup_insert_eq; [done|]. by rewrite (so_count _ _ _ _ Hw2).
  - cbn. intros left' w5 (Hw5 & Hl5 & Hf5). exists (source + vsize bytes). split; [done|]. split; [done|]. rewrite Hf5. cbn.
    split; [lia|]. split; [lia|]. split; [unfold request in *; lia|]. intros Hlast.
    destruct Hdiv as [k ->]. assert (Hru : round_up span_end 4096 = k * 4096 + round_up (span_end - k * 4096) 4096).
    { rewrite <- round_up_add by (done || apply Z.divide_factor_r). f_equal. lia. }
    unfold request in *. lia.
Qed.

(** ** Spans *)
Context (F : Z) (HF : F <= I64_MAX - 4096).

(** Loaded up to [p], with all slots in order. *)
Definition at_span (p : Z) (left : list CopyRange) (w : load_world) : Prop :=
  slots_ok slot_bytes slot_count None w /\ loaded p left w /\ 0 <= w_file_bytes w <= F + p.

Lemma wp_load_span fuel span_end source next_slot left w : 0 <= source < span_end -> span_end <= vsize file -> (4096 | source) ->
  span_end - source <= Z.of_nat fuel * slot_bytes -> at_span source left w ->
  wp (load_span pread fuel slot_bytes slot_count span_end source next_slot left) (fun res w' => exists q,
        span_end <= q <= round_up span_end 4096 /\ at_span q (snd res) w') E_incomplete w.
Proof.
  revert source next_slot left w. induction fuel as [|fuel IH]; intros source next_slot left w Hs Hend Hdiv Hfuel (Hw & Hl & Hfb); [lia|].
  cbn [load_span]. rewrite (proj2 (Z.ltb_lt source span_end)) by lia. wp_step.
  eapply wp_conseq; [apply wp_load_chunk; [apply Nat.mod_upper_bound; lia|done|done|done|done|done|lia]| |done].
  intros left' w1 (chunk_end & Hw1 & Hl1 & Hf1 & Hce & Hmid & Hlast).
  assert (Hwrap : wrap64 (source + slot_bytes) = source + slot_bytes) by (apply wrap64_small; unfold I64_MAX, U64_MAX, kSlotBytes in *; lia).
  rewrite Hwrap. destruct (Z.lt_ge_cases slot_bytes (span_end - source)) as [Hlt|Hge].
  - specialize (Hmid Hlt). subst chunk_end. apply IH; [lia|done|by apply Z.divide_add_r|lia|]. split; [done|]. split; [done|lia].
  - specialize (Hlast Hge). destruct fuel; cbn [load_span]; rewrite (proj2 (Z.ltb_ge _ _)) by lia; wp_step;
      exists chunk_end; (split; [done|]; split; [done|]; split; [done|lia]).
Qed.

Definition span_sound (s : ReadSpan) : Prop := (4096 | rs_begin s) /\ 0 <= rs_begin s < rs_end s /\ rs_end s <= vsize file.

Fixpoint separated (spans : list ReadSpan) : Prop :=
  match spans with
  | [] => True
  | s :: spans' => Forall (fun s' => round_up (rs_end s) 4096 < rs_begin s') spans' /\ separated spans'
  end.

Definition in_span (r : CopyRange) (s : ReadSpan) : Prop := rs_begin s <= cr_source_begin r /\ cr_source_end r <= rs_end s.

Lemma wp_load_spans spans p next_slot left w : Forall span_sound spans -> separated spans ->
  Forall (fun r => cr_source_end r <= p \/ Exists (in_span r) spans) ranges -> Forall (fun s => p <= rs_begin s) spans -> at_span p left w ->
  wp (load_spans pread slot_bytes slot_count spans next_slot left) (fun left' w' => exists q,
        at_span q left' w' /\ Forall (fun r => cr_source_end r <= q) ranges) E_incomplete w.
Proof.
  revert p next_slot left w. induction spans as [|s spans IH]; intros p next_slot left w Hs Hsep Hcov Hp Hat; cbn [load_spans].
  { wp_step. exists p. split; [done|]. eapply Forall_impl; [exact Hcov|]. intros r [? | ?%Exists_nil]; done. }
  apply Forall_cons_1 in Hs as [(Hdiv & Hb & Hend) Hs]. destruct Hsep as [Hsep Hsep']. apply Forall_cons_1 in Hp as [Hp Hps].
  destruct (round_up_spec 4096 eq_refl (rs_end s)) as [_ Hru]. rewrite Forall_forall in Hsep.
  assert (Hgap : Forall (fun r => cr_source_end r <= p \/ rs_begin s <= cr_source_begin r) ranges).
  { eapply Forall_impl; [exact Hcov|]. cbn. intros r [? | [[? _] | (s' & Hin & ? & _)%Exists_exists]%Exists_cons]; [by left|by right|].
    specialize (Hsep s' Hin). cbn in Hsep. lia. }
  wp_step. eapply wp_conseq; [apply (wp_load_span _ _ _ next_slot left)| |done].
  - lia.
  - done.
  - done.
  - unfold span_fuel. rewrite Nat2Z.inj_succ, Z2Nat.id by (apply Z.div_pos; lia).
    pose proof (Z.mod_pos_bound (rs_end s - rs_begin s) slot_bytes ltac:(lia)).
    pose proof (Z.div_mod (rs_end s - rs_begin s) slot_bytes ltac:(lia)). lia.
  - destruct Hat as (Hw & Hl & Hf). split; [done|]. split; [|lia]. by apply (loaded_move p).
  - intros [n left'] w1 (q & Hq & Hat1). cbn in Hat1 |- *. apply (IH q); [done|done| |by apply Forall_forall; intros s' Hin; specialize (Hsep s' Hin); cbn in Hsep; lia|done].
    eapply Forall_impl; [exact Hcov|]. cbn. intros r [? | [[? ?] | ?]%Exists_cons]; [left; lia|left; lia|by right].
Qed.

(** At the end nothing is queued, and the device holds all ranges. *)
Lemma wp_drain q left E w : at_span q left w -> Forall (fun r => cr_source_end r <= q) ranges ->
  wp (drain_stream slot_count) (fun _ w' => w_copied w' = zsum (map cr_bytes ranges) /\ left = [] /\ w_file_bytes w' = w_file_bytes w /\
    (forall r x, r ∈ ranges -> cr_source_begin r <= x < cr_source_end r -> w_device w' (cr_destination r + (x - cr_source_begin r)) = file_byte file x) /\
    (forall a, Forall (outside a) ranges -> w_device w' a = device0 a)) E w.
Proof.
  intros (Hw & Hl & _) Hq. unfold drain_stream. wp_step.
  eapply wp_conseq; [apply (wp_for_in slot_wait (fun w' => slots_ok slot_bytes slot_count None w' /\ loaded q left w' /\ w_file_bytes w' = w_file_bytes w))| |done].
  - done.
  - intros i t Hi (Ht & Hlt & Hft). apply elem_of_seq in Hi. apply (wp_wait slot_bytes slot_count); [done|lia|].
    intros t' Ht' _ He Hc Hf. split; [done|]. split; [|by rewrite Hf]. destruct Hlt as [Hp Hex]. split; [|done]. by apply (progress_world file device0 _ t).
  - intros _ w1 (Hw1 & [Hp (pre & Er & Hpre & Hleft)] & Hf1). cbv beta. wp_step. unfold advance. cbn.
    assert (Hdev : run_ops (w_slots w1) (w_device w1) (take (length (w_stream w1)) (w_stream w1)) = eff w1) by (by rewrite firstn_all).
    rewrite Hdev. destruct Hp as [Hc Hd Hfr]. pose proof (ordered_positive _ Hord) as Hpos. split; [|split; [|split; [done|split]]].
    + rewrite Hc. unfold at_pos. rewrite map_map. f_equal. apply map_ext_in. intros r Hr%list_elem_of_In. rewrite Forall_forall in Hq, Hpos.
      specialize (Hq r Hr). specialize (Hpos r Hr). unfold done_bytes, cr_bytes. cbn in *. lia.
    + destruct left as [|r left]; [done|]. exfalso. apply Forall_cons_1 in Hleft as [Hr _]. rewrite Forall_forall in Hq.
      specialize (Hq r). rewrite Er in Hq. specialize (Hq ltac:(set_solver)). lia.
    + intros r x Hr Hx. apply (Hd r q); [|done|]. { apply list_elem_of_fmap. by exists r. } rewrite Forall_forall in Hq. specialize (Hq r Hr). lia.
    + intros a Ha. apply Hfr. by rewrite at_pos_fst.
Qed.
End Chunks.
