(* ===== verification/ArtifactClaims.v ===== *)
(** From the bytes of a file to the device: the plan of the reads, the tables of loaded objects, and the claims
    on a whole load. *)
From stdpp Require Import strings gmap sorting.
From S2P Require Import Prelude Tensor Layout StorageLayouts ArtifactReader ArtifactBinder ArtifactLoad ArtifactStream.

(** * The order of the ranges *)
Definition source_apart (r r' : CopyRange) : Prop := cr_source_end r <= cr_source_begin r' \/ cr_source_end r' <= cr_source_begin r.

Lemma StronglySorted_ordered l : StronglySorted range_le l -> Forall (fun r => cr_source_begin r < cr_source_end r) l ->
  (forall l1 a l2 b l3, l = l1 ++ a :: l2 ++ b :: l3 -> source_apart a b) -> ordered l.
Proof.
  induction 1 as [|r l Hs IH Hr]; intros Hp Ha; [done|]. apply Forall_cons_1 in Hp as [Hr0 Hp]. cbn. split; [done|]. split.
  - rewrite Forall_forall in Hr, Hp |- *. intros r' Hin. specialize (Hr r' Hin). specialize (Hp r' Hin). unfold range_le in Hr. cbn in Hp.
    apply list_elem_of_split in Hin as (l2 & l3 & ->). destruct (Ha [] r l2 r' l3 eq_refl) as [? | ?]; [done|]. lia.
  - apply IH; [done|]. intros l1 a l2 b l3 ->. by apply (Ha (r :: l1) a l2 b l3).
Qed.

Fixpoint all_source_apart (l : list CopyRange) : Prop :=
  match l with
  | [] => True
  | r :: l' => Forall (source_apart r) l' /\ all_source_apart l'
  end.

Lemma all_source_apart_perm l k : l ≡ₚ k -> all_source_apart l -> all_source_apart k.
Proof.
  assert (Hsym : forall a b, source_apart a b -> source_apart b a) by (intros a b []; [by right|by left]).
  induction 1 as [|x l k Hp IH|x y l|l k m _ IH1 _ IH2]; [done| | |by auto]; cbn.
  - intros [Hf Ha]. split; [by rewrite <- Hp|by apply IH].
  - intros ([Hxy Hx]%Forall_cons_1 & Hy & Ha). split; [|done]. apply Forall_cons_2; [by apply Hsym|done].
Qed.

Lemma all_source_apart_pair l l1 a l2 b l3 : all_source_apart l -> l = l1 ++ a :: l2 ++ b :: l3 -> source_apart a b.
Proof.
  revert l1. induction l as [|r l IH]; intros l1 Ha E; [by destruct l1|]. destruct Ha as [Hr Ha]. destruct l1 as [|x l1]; injection E as <- E.
  - rewrite Forall_forall in Hr. apply Hr. rewrite E. set_solver.
  - by apply (IH l1).
Qed.

#[local] Instance range_le_trans : Transitive range_le.
Proof. intros a b c. unfold range_le. lia. Qed.
#[local] Instance range_le_total : Total range_le.
Proof. intros a b. unfold range_le. lia. Qed.

Lemma sort_ranges_ordered l : Forall (fun r => cr_source_begin r < cr_source_end r) l -> all_source_apart l ->
  ordered (sort_ranges l) /\ sort_ranges l ≡ₚ l.
Proof.
  intros Hp Ha. assert (Hperm : sort_ranges l ≡ₚ l) by apply merge_sort_Permutation. split; [|done]. apply StronglySorted_ordered.
  - apply (StronglySorted_merge_sort range_le).
  - by rewrite Hperm.
  - intros l1 a l2 b l3 E. apply (all_source_apart_pair (sort_ranges l) l1 a l2 b l3); [|done]. by apply (all_source_apart_perm l).
Qed.

Lemma ordered_check_disjoint l : ordered l -> check_disjoint l = Ok tt.
Proof.
  induction l as [|a l IH]; intros Ho; [done|]. destruct Ho as (Ha & Hf & Ho). specialize (IH Ho). destruct l as [|b l]; [done|].
  cbn [check_disjoint]. apply Forall_cons_1 in Hf as [Hb _]. cbn in Hb. by rewrite (proj2 (Z.ltb_ge _ _)) by done.
Qed.

(** * The spans *)
Section Spans.
Context (file : list Z) (Hfile : vsize file + 4096 <= I64_MAX).

Lemma separated_snoc l s : separated (l ++ [s]) <-> separated l /\ Forall (fun a => round_up (rs_end a) 4096 < rs_begin s) l.
Proof.
  induction l as [|a l IH]; cbn.
  - split; [intros _; split; [done|apply Forall_nil_2]|intros _; split; [apply Forall_nil_2|done]].
  - rewrite IH, Forall_app, !Forall_cons, Forall_nil. naive_solver.
Qed.

(** The spans so far, last first, cover the ranges so far. *)
Record spans_inv (acc : list ReadSpan) (seen : list CopyRange) : Prop := {
  si_sound : Forall (span_sound file) acc;
  si_separated : separated (reverse acc);
  si_cover : Forall (fun r => Exists (in_span r) acc) seen;
  si_last : match acc with [] => seen = [] | back :: _ => exists r, r ∈ seen /\ cr_source_end r = rs_end back end;
}.

Lemma align_down_spec v : (4096 | align_down v 4096) /\ align_down v 4096 <= v < align_down v 4096 + 4096.
Proof.
  unfold align_down. split; [apply Z.divide_factor_r|]. pose proof (Z.div_mod v 4096 ltac:(lia)).
  pose proof (Z.mod_pos_bound v 4096 ltac:(lia)). lia.
Qed.

Lemma add_span_ok acc seen r : spans_inv acc seen -> 0 <= cr_source_begin r < cr_source_end r -> cr_source_end r <= vsize file ->
  Forall (fun r' => cr_source_end r' <= cr_source_begin r) seen ->
  exists acc', add_span acc r = Ok acc' /\ spans_inv acc' (seen ++ [r]).
Proof.
  intros [Hs Hsep Hcov Hlast] Hr Hend Hseen. unfold add_span. change (align_down (cr_source_begin r) direct_io_alignment) with (align_down (cr_source_begin r) 4096).
  destruct (align_down_spec (cr_source_begin r)) as [Hd Ha].
  set (begin := align_down (cr_source_begin r) 4096) in *. assert (Hb0 : 0 <= begin) by (destruct Hd as [k Hk]; lia).
  assert (Hnew : span_sound file (mkReadSpan begin (cr_source_end r))) by (split; [done|cbn; lia]).
  assert (Hin : in_span r (mkReadSpan begin (cr_source_end r))) by (split; cbn; lia).
  destruct acc as [|back rest].
  { eexists. split; [done|]. subst seen. split; [by apply Forall_singleton|cbn; split; [apply Forall_nil_2|done]|apply Forall_singleton; by left|].
    exists r. split; [set_solver|done]. }
  destruct Hlast as (last & Hlin & Elast). rewrite Forall_forall in Hseen. specialize (Hseen last Hlin). cbn in Hseen.
  apply Forall_cons_1 in Hs as [(Hbd & Hbb & Hbe) Hs]. destruct (round_up_spec 4096 eq_refl (rs_end back)) as [_ Hru].
  assert (Hfit : round_up (rs_end back) 4096 <= U64_MAX) by (unfold I64_MAX, U64_MAX in *; lia).
  rewrite (proj2 (align_4k (rs_end back) _ ltac:(lia)) (conj eq_refl Hfit)). cbn [mbind result_bind]. rewrite reverse_cons in Hsep.
  eexists. split; [done|]. destruct (Z.ltb_spec (round_up (rs_end back) 4096) begin) as [Hlt|Hge].
  - split.
    + apply Forall_cons_2; [done|]. by apply Forall_cons_2.
    + rewrite reverse_cons, reverse_cons. apply separated_snoc. split; [done|]. apply separated_snoc in Hsep as [_ Hf]. apply Forall_app. split.
      * eapply Forall_impl; [exact Hf|]. cbn. intros a Ha'. lia.
      * by apply Forall_singleton.
    + apply Forall_app. split; [|apply Forall_singleton; by left]. eapply Forall_impl; [exact Hcov|]. intros r' Hr'. by right.
    + exists r. split; [set_solver|done].
  - assert (Emax : Z.max (rs_end back) (cr_source_end r) = cr_source_end r) by lia. rewrite Emax. split.
    + apply Forall_cons_2; [split; [done|cbn; lia]|done].
    + rewrite reverse_cons. apply separated_snoc in Hsep as [Hsep Hf]. by apply separated_snoc.
    + apply Forall_app. split; [|apply Forall_singleton; left; split; cbn; lia]. eapply Forall_impl; [exact Hcov|].
      intros r' [[H1 H2] | Hr']%Exists_cons; [left; split; cbn; lia|by right].
    + exists r. split; [set_solver|done].
Qed.

Lemma read_spans_ok l : ordered l -> l <> [] -> Forall (fun r => 0 <= cr_source_begin r /\ cr_source_end r <= vsize file) l ->
  exists spans, read_spans l = Ok spans /\ Forall (span_sound file) spans /\ separated spans /\
    Forall (fun r => Exists (in_span r) spans) l /\ spans <> [].
Proof.
  intros Hord Hne Hbounds.
  assert (Hgen : forall k seen acc, ordered (seen ++ k) -> Forall (fun r => 0 <= cr_source_begin r /\ cr_source_end r <= vsize file) k -> spans_inv acc seen ->
            exists acc', rfor add_span acc k = Ok acc' /\ spans_inv acc' (seen ++ k)).
  { clear -Hfile. induction k as [|r k IH]; intros seen acc Hord Hb Hinv; [exists acc; by rewrite app_nil_r|]. apply Forall_cons_1 in Hb as [[Hb0 Hb1] Hb].
    assert (Hsplit : ordered (r :: k) /\ Forall (fun r' => cr_source_end r' <= cr_source_begin r) seen).
    { clear -Hord. induction seen as [|x seen IH]; [split; [done|apply Forall_nil_2]|]. destruct Hord as (_ & Hf & Ho). destruct (IH Ho) as [? ?].
      split; [done|]. apply Forall_app in Hf as [_ [Hx _]%Forall_cons_1]. by apply Forall_cons_2. }
    destruct Hsplit as [(Hr & _) Hseen]. destruct (add_span_ok acc seen r Hinv ltac:(lia) Hb1 Hseen) as (acc1 & E & Hinv1).
    cbn [rfor]. rewrite E. cbn [mbind result_bind]. rewrite cons_middle, app_assoc in Hord |- *. by apply IH. }
  destruct (Hgen l [] []) as (acc & E & [Hs Hsep Hcov Hlast]); [done|done| |].
  { split; [apply Forall_nil_2|done|apply Forall_nil_2|done]. }
  exists (reverse acc). unfold read_spans. rewrite E. split; [done|]. split; [by rewrite reverse_Permutation|]. split; [done|]. split.
  - eapply Forall_impl; [exact Hcov|]. cbn. intros r Hr. by rewrite reverse_Permutation.
  - destruct acc as [|s acc]; [done|]. rewrite reverse_cons. by destruct (reverse acc).
Qed.

(** The bytes to read, in whole blocks: at most those of the file. *)
Lemma add_aligned_ok spans total lo : Forall (span_sound file) spans -> separated spans -> Forall (fun s => lo <= rs_begin s) spans ->
  0 <= total <= lo -> lo <= vsize file + 4096 -> (4096 | total) ->
  exists n, rfor add_aligned total spans = Ok n /\ (4096 | n) /\ total <= n <= vsize file + 4096 /\ (spans <> [] -> 0 < n).
Proof.
  revert total lo. induction spans as [|s spans IH]; intros total lo Hs Hsep Hlo Ht Hlo' Hdiv; [exists total; split; [done|]; split; [done|]; split; [lia|done]|].
  apply Forall_cons_1 in Hs as [(Hd & Hb & He) Hs]. destruct Hsep as [Hsep Hsep']. apply Forall_cons_1 in Hlo as [Hl _].
  destruct (round_up_spec 4096 eq_refl (rs_end s)) as [Hrd Hr].
  assert (Eru : round_up (rs_end s - rs_begin s) 4096 = round_up (rs_end s) 4096 - rs_begin s).
  { pose proof (round_up_add 4096 eq_refl (rs_begin s) (rs_end s - rs_begin s) Hd) as E.
    replace (rs_begin s + (rs_end s - rs_begin s)) with (rs_end s) in E by lia. lia. }
  assert (HU : I64_MAX + 4096 <= U64_MAX) by done.
  assert (Hfit : round_up (rs_end s - rs_begin s) 4096 <= U64_MAX) by lia.
  assert (Eadd : add_aligned total s = Ok (total + (round_up (rs_end s) 4096 - rs_begin s))).
  { unfold add_aligned. rewrite (proj2 (align_4k (rs_end s - rs_begin s) _ ltac:(lia)) (conj eq_refl Hfit)). cbn [mbind result_bind].
    rewrite <- Eru. apply checked_add_iff. split; [done|lia]. }
  cbn [rfor]. rewrite Eadd. cbn [mbind result_bind].
  destruct (IH (total + (round_up (rs_end s) 4096 - rs_begin s)) (round_up (rs_end s) 4096)) as (n & E & Hn & Hle & _); [done|done| |lia|lia| |].
  - eapply Forall_impl; [exact Hsep|]. cbn. lia.
  - apply Z.divide_add_r; [done|]. by apply Z.divide_sub_r.
  - exists n. split; [done|]. split; [done|]. split; lia.
Qed.
End Spans.

(** * Sums over the directory *)
Lemma zsum_submseteq l k : Forall (fun x => 0 <= x) k -> l ⊆+ k -> zsum l <= zsum k.
Proof.
  intros Hk (m & Hp)%submseteq_Permutation. rewrite (zsum_permutation _ _ Hp), zsum_app.
  rewrite Hp in Hk. apply Forall_app in Hk as [_ Hm]. pose proof (zsum_nonneg _ Hm). lia.
Qed.

(** Objects one behind the other fill at most the space up to the end of the last one. *)
Lemma ordered_sum size lo entries : Forall (fun o => 0 <= object_bytes o /\ lo <= object_offset o /\ object_offset o + object_bytes o <= size) entries ->
  (forall i j o o', (i < j)%nat -> entries !! i = Some o -> entries !! j = Some o' -> object_offset o + object_bytes o <= object_offset o') ->
  lo <= size -> zsum (map object_bytes entries) <= size - lo.
Proof.
  revert lo. induction entries as [|o entries IH]; intros lo Hf Hord Hlo; [cbn; unfold zsum; cbn; lia|].
  apply Forall_cons_1 in Hf as [(Hb & Ho & He) Hf]. cbn [map]. rewrite zsum_cons.
  pose proof (IH (object_offset o + object_bytes o)) as IH'. rewrite Forall_forall in Hf. lapply IH'; [intros IH1; lapply IH1; [lia|]|].
  - intros i j a b Hij Ha Hb'. by apply (Hord (S i) (S j) a b ltac:(lia)).
  - apply Forall_forall. intros o' Hin. pose proof (Hf o' Hin) as (? & _ & ?). split; [done|]. split; [|done].
    apply list_elem_of_lookup in Hin as [j Hj]. by apply (Hord O (S j) o o' ltac:(lia)).
Qed.

(** * The directory of an opened artifact *)
Record reader_sound (r : Reader) : Prop := {
  rs_start : 0 <= rd_payload_start r <= vsize (rd_file r);
  rs_entry : forall h o, rd_entries r !! h = Some o -> object_sound o /\
    rd_payload_start r + object_offset o + object_bytes o <= vsize (rd_file r) /\
    payload r o = Ok (mkPayload (rd_payload_start r + object_offset o)
                        (mem_slice (rd_file r) (rd_payload_start r + object_offset o) (object_bytes o)));
  rs_order : forall i j o o', (i < j)%nat -> rd_entries r !! i = Some o -> rd_entries r !! j = Some o' ->
    object_offset o + object_bytes o <= object_offset o';
}.

Lemma opened_sound parse file r : (forall text v, parse text = Some v -> json_ok v = true) -> vsize file <= SIZE_MAX ->
  open_artifact parse file = Ok r -> rd_file r = file /\ reader_sound r.
Proof.
  intros Hparse Hsize H. destruct (open_artifact_ok parse file r Hparse H) as (<- & _ & Hr & cursor & Hdir). split; [done|].
  pose proof Hdir as [_ Hobj Hord _]. cbn [dir_entries] in *. split; [done| |done]. intros h o Ho.
  pose proof (Forall_lookup_1 _ _ _ _ Hobj Ho) as (Hs & _ & Hend & _). split; [done|]. split; [lia|].
  destruct (entry_payload r cursor h o Hdir ltac:(lia) Hsize Ho) as [_ Hp]. exact Hp.
Qed.

Section Tables.
Context (r : Reader) (Hr : reader_sound r) (Hfile : vsize (rd_file r) + 4096 <= I64_MAX).

Definition entry_bytes (h : ObjectHandle) : Z := match rd_entries r !! h with Some o => object_bytes o | None => 0 end.
Definition entry_start (h : ObjectHandle) : Z := match rd_entries r !! h with Some o => rd_payload_start r + object_offset o | None => 0 end.
Definition entry_data (h : ObjectHandle) : list Z := mem_slice (rd_file r) (entry_start h) (entry_bytes h).

Lemma entry_at h o : rd_entries r !! h = Some o ->
  payload r o = Ok (mkPayload (entry_start h) (entry_data h)) /\ vsize (entry_data h) = entry_bytes h /\ object_bytes o = entry_bytes h /\
  0 < entry_bytes h /\ 0 <= entry_start h /\ entry_start h + entry_bytes h <= vsize (rd_file r).
Proof.
  intros Ho. destruct (rs_entry _ Hr h o Ho) as (([Hoff _] & [Hb _] & _) & Hend & Hp). pose proof (rs_start _ Hr) as Hs.
  unfold entry_data, entry_start, entry_bytes. rewrite Ho. split; [done|]. split; [|split; [done|lia]].
  unfold mem_slice, vsize in *. rewrite length_take, length_drop. lia.
Qed.

Lemma entries_apart h h' o o' : h <> h' -> rd_entries r !! h = Some o -> rd_entries r !! h' = Some o' ->
  entry_start h + entry_bytes h <= entry_start h' \/ entry_start h' + entry_bytes h' <= entry_start h.
Proof.
  intros Hne Ho Ho'. unfold entry_start, entry_bytes. rewrite Ho, Ho'. destruct (Nat.lt_gt_cases h h') as [[Hlt | Hgt] _]; [done| |].
  - pose proof (rs_order _ Hr h h' o o' Hlt Ho Ho'). lia.
  - pose proof (rs_order _ Hr h' h o' o Hgt Ho' Ho). lia.
Qed.

(** Objects named once are no more bytes than the file has. *)
Lemma handles_sum hs : NoDup hs -> Forall (fun h => is_Some (rd_entries r !! h)) hs ->
  0 <= zsum (map entry_bytes hs) <= vsize (rd_file r).
Proof.
  intros Hnd Hin. assert (Hpos : forall l, Forall (fun x => 0 <= x) (map entry_bytes l)).
  { intros l. apply Forall_map, Forall_forall. intros h _. cbn. unfold entry_bytes at 1. destruct (rd_entries r !! h) as [o|] eqn:Ho; [|done].
    destruct (entry_at h o Ho) as (_ & _ & -> & ? & _). lia. }
  split; [apply zsum_nonneg, Hpos|]. trans (zsum (map entry_bytes (seq 0 (length (rd_entries r))))).
  - apply zsum_submseteq; [done|]. apply (fmap_submseteq entry_bytes). apply NoDup_submseteq; [done|]. intros h Hh.
    rewrite Forall_forall in Hin. apply elem_of_seq. destruct (Hin h Hh) as [o Ho%lookup_lt_Some]. lia.
  - assert (Emap : map entry_bytes (seq 0 (length (rd_entries r))) = map object_bytes (rd_entries r)).
    { apply list_eq. intros i. rewrite !list_lookup_fmap. destruct (rd_entries r !! i) as [o|] eqn:Ho.
      - apply lookup_lt_Some in Ho as Hlt. rewrite lookup_seq_lt by done. cbn. unfold entry_bytes. by rewrite Ho.
      - apply lookup_ge_None in Ho. by rewrite lookup_seq_ge. }
    rewrite Emap. pose proof (rs_start _ Hr) as Hs.
    pose proof (ordered_sum (vsize (rd_file r) - rd_payload_start r) 0 (rd_entries r)) as Hsum. lapply Hsum; [intros H1; lapply H1; [intros H2; lapply H2; lia|]|].
    + apply (rs_order _ Hr).
    + apply Forall_forall. intros o [h Ho]%list_elem_of_lookup. destruct (rs_entry _ Hr h o Ho) as (([Hoff _] & [Hb _] & _) & Hend & _). lia.
Qed.

(** What the loops over the resources and the mapped tensors leave in the table. *)
Definition with_resource (h : ObjectHandle) (s : ObjectStorage) : ObjectStorage := mkStorage (os_device s) (entry_data h) (os_mapped s).
Definition with_mapped (h : ObjectHandle) (s : ObjectStorage) : ObjectStorage := mkStorage (os_device s) (os_resource s) (entry_data h).
Definition with_device (a : Z) (s : ObjectStorage) : ObjectStorage := mkStorage a (os_resource s) (os_mapped s).

Definition updated (f : ObjectHandle -> ObjectStorage -> ObjectStorage) (hs : list ObjectHandle) (t t' : list ObjectStorage) : Prop :=
  length t' = length t /\ forall h, t' !! h = if decide (h ∈ hs) then f h <$> t !! h else t !! h.

Lemma updated_nil f t : updated f [] t t.
Proof. split; [done|]. intros h. by rewrite decide_False by set_solver. Qed.

Lemma updated_cons f h hs t s t' : h ∉ hs -> t !! h = Some s -> updated f hs (<[h := f h s]> t) t' -> updated f (h :: hs) t t'.
Proof.
  intros Hfresh Hs [Hl Hu]. rewrite length_insert in Hl. split; [done|]. intros i. rewrite Hu. apply lookup_lt_Some in Hs as Hlt.
  destruct (decide (i = h)) as [->|Hne].
  - rewrite decide_False by done. rewrite decide_True by set_solver. rewrite list_lookup_insert_eq by done. by rewrite Hs.
  - rewrite list_lookup_insert_ne by done. by destruct (decide (i ∈ hs)), (decide (i ∈ h :: hs)); try set_solver.
Qed.

Lemma keep_resources_ok hs t retained total : NoDup hs -> Forall (fun h => is_Some (rd_entries r !! h)) hs -> length t = length (rd_entries r) ->
  0 <= total -> total + zsum (map entry_bytes hs) <= U64_MAX ->
  exists t' retained', rfor (keep_resource r) (t, retained, total) hs = Ok (t', retained', total + zsum (map entry_bytes hs)) /\ updated with_resource hs t t'.
Proof.
  intros Hnd. revert t retained total. induction Hnd as [|h hs Hfresh Hnd IH]; intros t retained total Hin Hlen Ht Hsum; cbn [rfor map].
  { exists t, retained. split; [unfold zsum; cbn; do 2 f_equal; lia|apply updated_nil]. }
  apply Forall_cons_1 in Hin as [[o Ho] Hin]. destruct (entry_at h o Ho) as (Hp & Hv & _ & Hpos & _).
  cbn [map] in Hsum. rewrite zsum_cons in Hsum |- *. pose proof (handles_sum hs Hnd Hin) as [Hnn _].
  apply lookup_lt_Some in Ho as Hlt. destruct (lookup_lt_is_Some_2 t h) as [s Hs]; [lia|].
  unfold keep_resource at 2. unfold at_. rewrite Hs, Ho. cbn [mbind result_bind]. rewrite Hp. cbn [mbind result_bind ps_data]. rewrite Hv.
  rewrite checked_add_run by lia. cbn [mbind result_bind].
  destruct (IH (<[h := with_resource h s]> t) (wrap64 (retained + entry_bytes h)) (total + entry_bytes h)) as (t' & retained' & E & Hu); [done| |lia|lia|].
  { by rewrite length_insert. }
  exists t', retained'. rewrite Z.add_assoc. split; [exact E|]. by apply (updated_cons _ h hs t s).
Qed.

Lemma keep_mapped_ok hs t total : NoDup hs -> Forall (fun h => is_Some (rd_entries r !! h)) hs -> length t = length (rd_entries r) ->
  0 <= total -> total + zsum (map entry_bytes hs) <= U64_MAX ->
  exists t', rfor (keep_mapped r) (t, total) hs = Ok (t', total + zsum (map entry_bytes hs)) /\ updated with_mapped hs t t'.
Proof.
  intros Hnd. revert t total. induction Hnd as [|h hs Hfresh Hnd IH]; intros t total Hin Hlen Ht Hsum; cbn [rfor map].
  { exists t. split; [unfold zsum; cbn; do 2 f_equal; lia|apply updated_nil]. }
  apply Forall_cons_1 in Hin as [[o Ho] Hin]. destruct (entry_at h o Ho) as (Hp & Hv & _ & Hpos & _).
  cbn [map] in Hsum. rewrite zsum_cons in Hsum |- *. pose proof (handles_sum hs Hnd Hin) as [Hnn _].
  apply lookup_lt_Some in Ho as Hlt. destruct (lookup_lt_is_Some_2 t h) as [s Hs]; [lia|].
  unfold keep_mapped at 2. unfold at_. rewrite Ho. cbn [mbind result_bind]. rewrite Hp, Hs. cbn [mbind result_bind ps_data]. rewrite Hv.
  rewrite checked_add_run by lia. cbn [mbind result_bind].
  destruct (IH (<[h := with_mapped h s]> t) (total + entry_bytes h)) as (t' & E & Hu); [done| |lia|lia|].
  { by rewrite length_insert. }
  exists t'. rewrite Z.add_assoc. split; [exact E|]. by apply (updated_cons _ h hs t s).
Qed.

(** ** Device tensors *)
Context (base capacity : Z) (Hbase : 0 < base) (Halign : (kTensorAlignment | base)) (Hspace : base + capacity + kTensorAlignment <= U64_MAX).

Lemma arena_place cursor peak bytes : 0 <= cursor -> 0 < bytes -> round_up cursor kTensorAlignment + bytes <= capacity ->
  exists peak', arena_alloc_bytes bytes kTensorAlignment (mkArena base capacity cursor peak) =
    (mkArena base capacity (round_up cursor kTensorAlignment + bytes) peak', Ok (mkSpan (base + round_up cursor kTensorAlignment) bytes)).
Proof.
  intros Hc Hb Hfit. destruct (round_up_spec kTensorAlignment eq_refl cursor) as [_ Hru]. unfold kTensorAlignment in *.
  unfold arena_alloc_bytes, mthrow_if, mlift, throw_if, align_up_addr. unfold mbind, M_bind, mget, mret, M_ret, mput. cbn [base_ cap_ off_ peak_].
  rewrite (proj2 (Z.eqb_neq base 0)), (proj2 (Z.eqb_neq bytes 0)) by lia. change (is_power_of_two 256) with true. cbn [negb].
  rewrite !checked_add_uintptr_eq by lia. cbn [mbind result_bind]. rewrite pow2_round_up by (done || lia).
  rewrite round_up_shift by (done || by apply Z.mod_divide). replace (cursor + 256 - 1) with (cursor + (256 - 1)) by lia.
  change ((cursor + (256 - 1)) / 256 * 256) with (round_up cursor 256). replace (base + round_up cursor 256 - base) with (round_up cursor 256) by lia.
  unfold SIZE_MAX. rewrite (proj2 (Z.ltb_ge U64_MAX (round_up cursor 256))), (proj2 (Z.ltb_ge (U64_MAX - round_up cursor 256) bytes)),
    (proj2 (Z.ltb_ge capacity (round_up cursor 256 + bytes))) by lia. by eexists.
Qed.

Lemma placed_bounds cursor ds : placed cursor ds capacity -> cursor <= capacity /\
  Forall (fun d => cursor <= dm_offset d /\ 0 < dm_bytes d /\ dm_offset d + dm_bytes d <= capacity) ds.
Proof.
  revert cursor. induction ds as [|d ds IH]; intros cursor H; [cbn in H; split; [lia|apply Forall_nil_2]|]. destruct H as (_ & Ho & Hb & H).
  destruct (IH _ H) as [Hle Hf]. destruct (round_up_spec kTensorAlignment eq_refl cursor) as [_ Hru]. split; [lia|].
  apply Forall_cons_2; [lia|]. eapply Forall_impl; [exact Hf|]. cbn. lia.
Qed.

Definition range_of (d : DeviceMaterialization) : CopyRange :=
  mkRange (entry_start (dm_object d)) (entry_start (dm_object d) + dm_bytes d) (base + dm_offset d).

(** A planned tensor with the size of its object. *)
Definition planned_tensor (d : DeviceMaterialization) : Prop := is_Some (rd_entries r !! dm_object d) /\ dm_bytes d = entry_bytes (dm_object d).

Lemma place_tensors_ok addr ds cursor peak t ranges : 0 <= cursor -> placed cursor ds capacity -> NoDup (map dm_object ds) ->
  Forall planned_tensor ds -> Forall (fun d => addr (dm_object d) = base + dm_offset d) ds -> length t = length (rd_entries r) ->
  exists t' peak', rfor (place_tensor r) (mkArena base capacity cursor peak, t, ranges) ds =
      Ok (mkArena base capacity capacity peak', t', ranges ++ map range_of ds) /\ updated (fun h => with_device (addr h)) (map dm_object ds) t t'.
Proof.
  revert cursor peak t ranges. induction ds as [|d ds IH]; intros cursor peak t ranges Hc Hpl Hnd Hin Haddr Hlen.
  { cbn in Hpl. subst cursor. exists t, peak. cbn. rewrite app_nil_r. split; [done|apply updated_nil]. }
  pose proof (placed_bounds cursor (d :: ds) Hpl) as [_ [(Hco & Hdb & Hend) _]%Forall_cons_1]. destruct Hpl as (Hal & Ho & Hb & Hpl).
  apply NoDup_cons in Hnd as [Hfresh Hnd]. apply Forall_cons_1 in Hin as [[[o Hd] Hsz] Hin]. apply Forall_cons_1 in Haddr as [Ha Haddr].
  destruct (entry_at _ o Hd) as (Hp & Hv & _ & _ & Hs0 & Hs1). rewrite <- Hsz in Hs1, Hv. assert (HU : I64_MAX <= U64_MAX) by done.
  destruct (arena_place cursor peak (dm_bytes d) Hc Hb ltac:(lia)) as [peak1 Ealloc]. rewrite <- Ho in Ealloc.
  apply lookup_lt_Some in Hd as Hlt. destruct (lookup_lt_is_Some_2 t (dm_object d)) as [s Hs]; [lia|].
  destruct (IH (dm_offset d + dm_bytes d) peak1 (<[dm_object d := with_device (addr (dm_object d)) s]> t) (ranges ++ [range_of d]))
    as (t' & peak' & E & Hu); [lia|done|done|done|done|by rewrite length_insert|].
  exists t', peak'. split; [|by apply (updated_cons (fun h => with_device (addr h)) _ _ t s)]. rewrite <- app_assoc in E. refine (eq_trans _ E). cbn [rfor].
  unfold place_tensor at 2. unfold at_. rewrite Hd, Hs. cbn [mbind result_bind]. rewrite Hp, Hal. cbn [mbind result_bind ps_data ps_absolute_offset].
  rewrite Ealloc. cbn [span_data base_]. rewrite Hv. replace (base + dm_offset d - base =? dm_offset d) with true by (symmetry; apply Z.eqb_eq; lia).
  rewrite Z.eqb_refl. cbn [negb orb throw_if mbind result_bind]. rewrite checked_add_run by lia. cbn [mbind result_bind]. by rewrite Ha.
Qed.

(** The ranges of the plan: apart on the device and in the file, inside the file. *)
Lemma ranges_apart cursor ds : placed cursor ds capacity -> NoDup (map dm_object ds) -> Forall planned_tensor ds ->
  all_apart (map range_of ds) /\ all_source_apart (map range_of ds) /\
  Forall (fun x => 0 <= cr_source_begin x /\ cr_source_end x <= vsize (rd_file r)) (map range_of ds) /\
  Forall (fun x => cr_source_begin x < cr_source_end x) (map range_of ds) /\
  zsum (map cr_bytes (map range_of ds)) = zsum (map entry_bytes (map dm_object ds)).
Proof.
  revert cursor. induction ds as [|d ds IH]; intros cursor Hpl Hnd Hin; [repeat split; apply Forall_nil_2|].
  destruct Hpl as (_ & _ & Hb & Hpl). apply NoDup_cons in Hnd as [Hfresh Hnd]. apply Forall_cons_1 in Hin as [[[o Hd] Hsz] Hin].
  destruct (IH _ Hpl Hnd Hin) as (H1 & H2 & H3 & H4 & H5). destruct (placed_bounds _ ds Hpl) as [_ Hbd].
  destruct (entry_at _ o Hd) as (_ & _ & _ & _ & Hs0 & Hs1). rewrite Forall_forall in Hbd, Hin.
  cbn [map all_apart all_source_apart]. split; [split; [|done]|split; [split; [|done]|split; [|split]]].
  - apply Forall_map, Forall_forall. intros d' Hd'. destruct (Hbd d' Hd') as (? & _ & _). left. unfold cr_bytes, range_of. cbn. lia.
  - apply Forall_map, Forall_forall. intros d' Hd'. destruct (Hin d' Hd') as [[o' Ho'] Hsz']. unfold source_apart, range_of. cbn. rewrite Hsz, Hsz'.
    apply (entries_apart _ _ o o'); [|done|done]. intros Heq. apply Hfresh. rewrite Heq. apply list_elem_of_fmap. by exists d'.
  - apply Forall_cons_2; [|done]. cbn. lia.
  - apply Forall_cons_2; [|done]. cbn. lia.
  - rewrite !zsum_cons, H5. unfold cr_bytes, range_of. cbn. lia.
Qed.

Lemma total_bytes_ok ds total : Forall planned_tensor ds -> 0 <= total -> Forall (fun d => 0 < dm_bytes d) ds ->
  total + zsum (map entry_bytes (map dm_object ds)) <= U64_MAX ->
  rfor (fun total placement => StorageLayouts.checked_add total (dm_bytes placement)) total ds = Ok (total + zsum (map entry_bytes (map dm_object ds))).
Proof.
  revert total. induction ds as [|d ds IH]; intros total Hin Ht Hpos Hsum; [cbn; unfold zsum; cbn; f_equal; lia|].
  apply Forall_cons_1 in Hin as [[_ Hsz] Hin]. apply Forall_cons_1 in Hpos as [Hd Hpos]. cbn [map rfor] in *. rewrite zsum_cons in Hsum |- *.
  assert (Hnn : 0 <= zsum (map entry_bytes (map dm_object ds))).
  { apply zsum_nonneg, Forall_map, Forall_map. rewrite Forall_forall in Hin, Hpos. apply Forall_forall. intros d' Hd'. destruct (Hin d' Hd') as [_ <-].
    specialize (Hpos d' Hd'). cbn in *. lia. }
  rewrite checked_add_run by lia. rewrite IH by (done || lia). f_equal. lia.
Qed.
End Tables.

(** * Running the copies *)
Section Run.
Context (file : list Z) (Hfile : vsize file + 4096 <= I64_MAX) (pread : Z -> Z -> option (list Z)) (Hpread : pread_ok file pread).
Context (slot_address : nat -> Z) (Haddress : forall i, slot_address i mod 4096 = 0).
Context (ranges : list CopyRange) (Hord : ordered ranges) (Hap : all_apart ranges) (Hsum : zsum (map cr_bytes ranges) <= U64_MAX).
Context (Hin : Forall (fun x => 0 <= cr_source_begin x /\ cr_source_end x <= vsize file) ranges).
Context (slot_bytes : Z) (slot_count : nat) (Hslot : 0 < slot_bytes <= kSlotBytes) (Hslot4096 : (4096 | slot_bytes)) (Hcount : (0 < slot_count)%nat).
Context (device : Z -> Z) (schedule : list nat) (file_bytes : Z) (Hfb : 0 <= file_bytes <= I64_MAX - 4096).

Definition fresh_slots : list Slot := map (fun i => mkSlot (slot_address i) (replicate (Z.to_nat slot_bytes) 0) false) (seq 0 slot_count).
Definition start_world : load_world := mkLoad fresh_slots [] device schedule 0 file_bytes.

Lemma start_slots_ok : slots_ok slot_bytes slot_count None start_world.
Proof.
  split; cbn.
  - unfold fresh_slots. by rewrite length_map, length_seq.
  - intros i s Hs. unfold fresh_slots in Hs. apply list_lookup_fmap_Some in Hs as (j & -> & _). cbn. split; [apply Haddress|].
    unfold vsize. rewrite length_replicate. lia.
  - intros i _. apply no_copy_settled. intros d o n. set_solver.
  - intros i s _ _ _ d o n. set_solver.
Qed.

Lemma start_at_span : at_span file device slot_bytes slot_count ranges file_bytes 0 ranges start_world.
Proof.
  pose proof (ordered_positive _ Hord) as Hpos. split; [apply start_slots_ok|]. split; [split|cbn; lia].
  - split.
    + cbn. unfold at_pos. rewrite map_map. cbn. clear -Hin Hpos. induction ranges as [|x l IH]; [done|]. apply Forall_cons_1 in Hin as [[Hb _] Hin].
      apply Forall_cons_1 in Hpos as [Hx Hpos]. cbn [map]. rewrite zsum_cons, <- IH by done. unfold done_bytes. cbn in *. lia.
    + intros x p y [z [[= -> ->] Hz]]%list_elem_of_fmap Hy Hlt. rewrite Forall_forall in Hin. destruct (Hin z Hz). lia.
    + intros a _. done.
  - exists []. split; [done|]. split; [apply Forall_nil_2|]. rewrite Forall_forall in Hin, Hpos. apply Forall_forall. intros x Hx.
    destruct (Hin x Hx). specialize (Hpos x Hx). cbn in *. lia.
Qed.

Lemma wp_copies spans : Forall (span_sound file) spans -> separated spans -> Forall (fun x => Exists (in_span x) spans) ranges ->
  wp (rest ← load_spans pread slot_bytes slot_count spans 0 ranges; _ ← drain_stream slot_count; mret rest)
    (fun rest w' => w_copied w' = zsum (map cr_bytes ranges) /\ rest = [] /\
       (forall x y, x ∈ ranges -> cr_source_begin x <= y < cr_source_end x ->
          w_device w' (cr_destination x + (y - cr_source_begin x)) = file_byte file y) /\
       (forall a, Forall (outside a) ranges -> w_device w' a = device a))
    (E_incomplete file pread) start_world.
Proof.
  intros Hs Hsep Hcov. wp_step.
  eapply wp_conseq; [apply (wp_load_spans file device pread slot_bytes slot_count ranges Hfile Hpread Hslot Hslot4096 Hcount Hord Hap Hsum file_bytes ltac:(lia) spans 0)| |done].
  - done.
  - done.
  - eapply Forall_impl; [exact Hcov|]. intros x Hx. by right.
  - eapply Forall_impl; [exact Hs|]. intros s (_ & ? & _). lia.
  - apply start_at_span.
  - intros rest w1 (q & Hat & Hq). cbn beta. wp_step.
    eapply wp_conseq; [apply (wp_drain file device pread slot_bytes slot_count ranges Hfile Hpread Hslot Hslot4096 Hcount Hord Hap Hsum file_bytes ltac:(lia) q rest (E_incomplete file pread) w1 Hat Hq)| |done].
    intros [] w2 (Hc & Hrest & _ & Hd & Hf). cbn beta. wp_step. done.
Qed.
End Run.

(** * The whole load *)

(** [n] bytes of device memory at [a]. *)
Definition read_device (device : Z -> Z) (a n : Z) : list Z := map (fun k => device (a + Z.of_nat k)) (seq 0 (Z.to_nat n)).

Lemma read_device_slice file device a start n : 0 <= start -> 0 <= n -> start + n <= vsize file ->
  (forall y, start <= y < start + n -> device (a + (y - start)) = file_byte file y) -> read_device device a n = mem_slice file start n.
Proof.
  intros Hs Hn Hend Hd. apply list_eq. intros k. unfold read_device. rewrite list_lookup_fmap. unfold mem_slice.
  destruct (decide (k < Z.to_nat n)%nat) as [Hlt|Hge].
  - rewrite lookup_seq_lt by done. rewrite lookup_take_lt, lookup_drop by done. cbn. specialize (Hd (start + Z.of_nat k) ltac:(lia)).
    replace (a + (start + Z.of_nat k - start)) with (a + Z.of_nat k) in Hd by lia. rewrite Hd. unfold file_byte, vget.
    rewrite (proj2 (Z.leb_le 0 _)) by lia. replace (Z.to_nat (start + Z.of_nat k)) with (Z.to_nat start + k)%nat by lia.
    destruct (lookup_lt_is_Some_2 file (Z.to_nat start + k)) as [b ->]; [unfold vsize in *; lia|done].
  - rewrite lookup_seq_ge by lia. rewrite lookup_take_ge by lia. done.
Qed.

(** Where a plan puts a tensor. *)
Fixpoint offset_of (ds : list DeviceMaterialization) (h : ObjectHandle) : Z :=
  match ds with
  | [] => 0
  | d :: ds' => if decide (dm_object d = h) then dm_offset d else offset_of ds' h
  end.

Lemma offset_of_in ds : NoDup (map dm_object ds) -> Forall (fun d => offset_of ds (dm_object d) = dm_offset d) ds.
Proof.
  induction ds as [|d ds IH]; intros Hnd; [apply Forall_nil_2|]. apply NoDup_cons in Hnd as [Hfresh Hnd]. apply Forall_cons_2; cbn.
  - by rewrite decide_True.
  - specialize (IH Hnd). rewrite Forall_forall in IH |- *. intros d' Hd'. rewrite decide_False; [by apply IH|].
    intros E. apply Hfresh. apply list_elem_of_fmap. by exists d'.
Qed.

(** The slots cover the reads: the size is a positive number of blocks, and there is a slot. *)
Lemma slot_sizes n : 0 < n -> (4096 | n) ->
  0 < Z.min kSlotBytes n <= kSlotBytes /\ (4096 | Z.min kSlotBytes n) /\
  (0 < Z.to_nat (Z.min kMaximumSlotCount (1 + (n - 1) / Z.min kSlotBytes n)))%nat.
Proof.
  intros Hn Hd. assert (Hk : 0 < kSlotBytes) by done. split; [lia|]. split.
  - destruct (Z.min_spec kSlotBytes n) as [[_ ->] | [_ ->]]; [by exists 16384|done].
  - assert (0 <= (n - 1) / Z.min kSlotBytes n) by (apply Z.div_pos; lia). unfold kMaximumSlotCount. lia.
Qed.

Section Whole.
Context (r : Reader) (Hr : reader_sound r) (Hfile : vsize (rd_file r) + 4096 <= I64_MAX).
Context (pread : Z -> Z -> option (list Z)) (Hpread : pread_ok (rd_file r) pread).
Context (plan : MaterializationPlan) (Hplan : plan_ok r plan) (Hsome : mp_device_objects plan <> []).
Context (base : Z) (Hbase : 0 < base) (Halign : (kTensorAlignment | base)) (Hspace : base + mp_device_capacity_bytes plan + kTensorAlignment <= U64_MAX).
Context (slot_address : nat -> Z) (Haddress : forall i, slot_address i mod 4096 = 0).

Lemma device_planned : Forall (planned_tensor r) (mp_device_objects plan).
Proof.
  eapply Forall_impl; [exact (po_device _ _ Hplan)|]. intros d (t & Ht & Hb). split; [by eexists|]. by unfold entry_bytes; rewrite Ht.
Qed.

(** The four kinds of handles do not meet, and name objects. *)
Lemma handles_ok : NoDup (map dm_object (mp_device_objects plan)) /\ NoDup (mp_host_objects plan) /\ NoDup (mp_mapped_tensor_objects plan) /\
  (forall h, h ∈ map dm_object (mp_device_objects plan) -> h ∉ mp_host_objects plan /\ h ∉ mp_mapped_tensor_objects plan) /\
  (forall h, h ∈ mp_host_objects plan -> h ∉ mp_mapped_tensor_objects plan) /\
  Forall (fun h => is_Some (rd_entries r !! h)) (mp_host_objects plan) /\ Forall (fun h => is_Some (rd_entries r !! h)) (mp_mapped_tensor_objects plan).
Proof.
  destruct Hplan as [_ _ _ _ Hhost Hmap Hnd]. unfold plan_handles in Hnd. apply NoDup_app in Hnd as (Hd & Hdis & Hnd). apply NoDup_app in Hnd as (Hh & Hdis' & Hm).
  split; [done|]. split; [done|]. split; [done|]. split; [intros h Hin; specialize (Hdis h Hin); set_solver|]. split; [done|].
  split; (eapply Forall_impl; [eassumption|]); intros h [? ?]; by eexists.
Qed.

Lemma device_sum : 0 <= zsum (map (entry_bytes r) (map dm_object (mp_device_objects plan))) <= vsize (rd_file r).
Proof.
  apply (handles_sum r Hr); [apply handles_ok|]. apply Forall_map. eapply Forall_impl; [exact device_planned|]. by intros d [? _].
Qed.

(** The table at the end. *)
Definition table_ok (t : list ObjectStorage) : Prop :=
  (forall d, d ∈ mp_device_objects plan -> t !! dm_object d = Some (mkStorage (base + dm_offset d) [] [])) /\
  (forall h, h ∈ mp_host_objects plan -> t !! h = Some (mkStorage 0 (entry_data r h) [])) /\
  (forall h, h ∈ mp_mapped_tensor_objects plan -> t !! h = Some (mkStorage 0 [] (entry_data r h))).

Lemma updates_table_ok t1 t2 t3 :
  updated (with_resource r) (mp_host_objects plan) (replicate (Z.to_nat (mp_object_count plan)) (mkStorage 0 [] [])) t1 ->
  updated (with_mapped r) (mp_mapped_tensor_objects plan) t1 t2 ->
  updated (fun h => with_device (base + offset_of (mp_device_objects plan) h)) (map dm_object (mp_device_objects plan)) t2 t3 -> table_ok t3.
Proof.
  intros [_ H1] [_ H2] [_ H3]. destruct handles_ok as (Hnd & _ & _ & Hdev & Hhost & Eh & Em).
  assert (H0 : forall h, is_Some (rd_entries r !! h) -> replicate (Z.to_nat (mp_object_count plan)) (mkStorage 0 [] []) !! h = Some (mkStorage 0 [] [])).
  { intros h [o Ho%lookup_lt_Some]. apply lookup_replicate. split; [done|]. rewrite (po_count _ _ Hplan). unfold vsize. lia. }
  rewrite Forall_forall in Eh, Em. pose proof device_planned as Ed. rewrite Forall_forall in Ed. split; [|split].
  - intros d Hd. assert (Hin : dm_object d ∈ map dm_object (mp_device_objects plan)) by (apply list_elem_of_fmap; by exists d).
    destruct (Hdev _ Hin). rewrite H3, decide_True, H2, decide_False, H1, decide_False by done. rewrite H0 by apply (Ed d Hd). cbn. unfold with_device. cbn.
    pose proof (offset_of_in _ Hnd) as Ho. rewrite Forall_forall in Ho. by rewrite (Ho d Hd).
  - intros h Hh. rewrite H3, decide_False by (intros Hin; by destruct (Hdev h Hin)). rewrite H2, decide_False by (by apply Hhost).
    rewrite H1, decide_True by done. by rewrite H0 by (by apply Eh).
  - intros h Hh. rewrite H3, decide_False by (intros Hin; by destruct (Hdev h Hin)). rewrite H2, decide_True by done.
    rewrite H1, decide_False by (intros Hin; by apply (Hhost h Hin)). by rewrite H0 by (by apply Em).
Qed.

(** The three loops that fill the table. *)
Lemma tables_built : let t0 := replicate (Z.to_nat (mp_object_count plan)) (mkStorage 0 [] []) in
  exists t1 t2 t3 retained peak,
    rfor (keep_resource r) (t0, 0, 0) (mp_host_objects plan) = Ok (t1, retained, zsum (map (entry_bytes r) (mp_host_objects plan))) /\
    rfor (keep_mapped r) (t1, 0) (mp_mapped_tensor_objects plan) = Ok (t2, zsum (map (entry_bytes r) (mp_mapped_tensor_objects plan))) /\
    rfor (place_tensor r) (mkArena base (mp_device_capacity_bytes plan) 0 0, t2, []) (mp_device_objects plan) =
      Ok (mkArena base (mp_device_capacity_bytes plan) (mp_device_capacity_bytes plan) peak, t3, map (range_of r base) (mp_device_objects plan)) /\
    table_ok t3.
Proof.
  intros t0. destruct handles_ok as (Hnd & Hndh & Hndm & _ & _ & Eh & Em). pose proof device_planned as Hdp. pose proof Hplan as [Hcount _ Hplaced _ _ _ _].
  assert (HU : I64_MAX <= U64_MAX) by done. pose proof (handles_sum r Hr _ Hndh Eh) as Hsh. pose proof (handles_sum r Hr _ Hndm Em) as Hsm.
  assert (Hl0 : length t0 = length (rd_entries r)). { unfold t0. rewrite length_replicate, Hcount. unfold vsize. lia. }
  destruct (keep_resources_ok r Hr Hfile (mp_host_objects plan) t0 0 0 Hndh Eh Hl0 ltac:(lia) ltac:(lia)) as (t1 & retained & E1 & Hu1).
  destruct (keep_mapped_ok r Hr Hfile (mp_mapped_tensor_objects plan) t1 0 Hndm Em) as (t2 & E2 & Hu2); [destruct Hu1; lia|lia|lia|].
  destruct (place_tensors_ok r Hr Hfile base (mp_device_capacity_bytes plan) Hbase Halign Hspace (fun h => base + offset_of (mp_device_objects plan) h)
    (mp_device_objects plan) 0 0 t2 []) as (t3 & peak & E3 & Hu3); [lia|done|done|done| |destruct Hu1, Hu2; lia|].
  { eapply Forall_impl; [exact (offset_of_in _ Hnd)|]. cbn. by intros d ->. }
  exists t1, t2, t3, retained, peak. split; [exact E1|]. split; [exact E2|]. split; [exact E3|]. by apply (updates_table_ok t1 t2).
Qed.

(** The reads cover the sorted ranges. *)
Lemma reads_planned : let ranges := sort_ranges (map (range_of r base) (mp_device_objects plan)) in
  ordered ranges /\ all_apart ranges /\ ranges ≡ₚ map (range_of r base) (mp_device_objects plan) /\
  Forall (fun x => 0 <= cr_source_begin x /\ cr_source_end x <= vsize (rd_file r)) ranges /\
  zsum (map cr_bytes ranges) = zsum (map (entry_bytes r) (map dm_object (mp_device_objects plan))) /\
  check_disjoint ranges = Ok tt /\
  exists spans n, read_spans ranges = Ok spans /\ rfor add_aligned 0 spans = Ok n /\ 0 < n /\ (4096 | n) /\
    Forall (span_sound (rd_file r)) spans /\ separated spans /\ Forall (fun x => Exists (in_span x) spans) ranges.
Proof.
  intros ranges. destruct handles_ok as (Hnd & _). pose proof (po_placed _ _ Hplan) as Hplaced.
  destruct (ranges_apart r Hr base _ 0 _ Hplaced Hnd device_planned) as (Hap & Hsap & Hin & Hpr & Hsum).
  destruct (sort_ranges_ordered _ Hpr Hsap) as [Hord Hperm]. fold ranges in Hord, Hperm. rewrite <- Hperm in Hin.
  split; [done|]. split; [exact (all_apart_perm _ _ (symmetry Hperm) Hap)|]. split; [done|]. split; [done|].
  split; [rewrite <- Hsum; apply zsum_permutation, fmap_Permutation, Hperm|]. split; [by apply ordered_check_disjoint|].
  destruct (read_spans_ok (rd_file r) Hfile ranges Hord) as (spans & E4 & Hs & Hsep & Hcov & Hne); [|done|].
  { intros E. rewrite E in Hperm. apply Permutation_nil_l in Hperm. by destruct (mp_device_objects plan). }
  destruct (add_aligned_ok (rd_file r) Hfile spans 0 0 Hs Hsep) as (n & E5 & Hn4096 & Hn & Hn0); [|lia|unfold vsize; lia|by exists 0|].
  { eapply Forall_impl; [exact Hs|]. intros s (_ & ? & _). lia. }
  exists spans, n. split; [done|]. split; [done|]. split; [by apply Hn0|]. done.
Qed.

(** What a load does: without an error of the file it is complete, and it is never wrong. *)
Definition load_ok (device : Z -> Z) (result : result (MaterializedArtifact * (Z -> Z))) : Prop :=
  match result with
  | Ok (art, device') =>
      table_ok (ma_objects art) /\
      (forall d, d ∈ mp_device_objects plan -> read_device device' (base + dm_offset d) (dm_bytes d) = entry_data r (dm_object d)) /\
      (forall a, Forall (fun d => a < base + dm_offset d \/ base + dm_offset d + dm_bytes d <= a) (mp_device_objects plan) -> device' a = device a)
  | Err _ => ~ pread_complete (rd_file r) pread
  end.

Lemma materialize_ok schedule device : load_ok device (materialize pread r plan base slot_address schedule device).
Proof.
  pose proof device_planned as Hdp. pose proof device_sum as Hds. destruct handles_ok as (_ & Hndh & _ & _ & _ & Eh & _).
  pose proof (handles_sum r Hr _ Hndh Eh) as Hsh. pose proof (po_capacity _ _ Hplan) as Hcap. assert (HU : I64_MAX <= U64_MAX) by done.
  destruct (placed_bounds _ 0 _ (po_placed _ _ Hplan)) as [_ Hbounds].
  unfold materialize. rewrite (total_bytes_ok r _ 0); [|done|done| |lia]; [|eapply Forall_impl; [exact Hbounds|]; cbn; lia]. cbn [mbind result_bind].
  assert (Hpos : 0 < mp_device_capacity_bytes plan). { destruct (mp_device_objects plan); [done|]. apply Forall_cons_1 in Hbounds as [? _]. lia. }
  rewrite (proj2 (Z.eqb_neq _ _)), (proj2 (Z.ltb_ge SIZE_MAX _)) by (unfold SIZE_MAX; lia). cbn [orb throw_if mbind result_bind].
  destruct tables_built as (t1 & t2 & t3 & retained & peak & -> & E2 & E3 & Ht). cbn [mbind result_bind]. rewrite E2. cbn [mbind result_bind].
  rewrite E3. cbn [mbind result_bind app]. rewrite (bool_decide_eq_false_2 (length _ = 0%nat)) by (by destruct (mp_device_objects plan)).
  cbn [throw_if mbind result_bind]. destruct reads_planned as (Hord & Hap & Hperm & Hin & Esum & -> & spans & n & E4 & E5 & Hn0 & Hn4096 & Hs & Hsep & Hcov).
  set (ranges := sort_ranges _) in *. cbn [mbind result_bind]. rewrite E4. cbn [mbind result_bind]. rewrite E5. cbn [mbind result_bind].
  destruct (slot_sizes n Hn0 Hn4096) as (Hslot & Hslot4096 & Hcnt). set (slot_bytes := Z.min kSlotBytes n) in *. set (slot_count := Z.min kMaximumSlotCount _) in *.
  pose proof (wp_copies (rd_file r) Hfile pread Hpread slot_address Haddress ranges Hord Hap ltac:(lia) Hin slot_bytes (Z.to_nat slot_count) Hslot Hslot4096
    Hcnt device schedule (zsum (map (entry_bytes r) (mp_host_objects plan))) ltac:(lia) spans Hs Hsep Hcov) as Hrun.
  unfold wp, start_world, fresh_slots in Hrun. match type of Hrun with match ?x with _ => _ end => destruct x as [w' [rest|e]] end; [|exact Hrun].
  destruct Hrun as (Hc & -> & Hd & Hf). rewrite Hc, Esum, Z.add_0_l, Z.eqb_refl. cbn. split; [done|]. split.
  - intros d Hdin. rewrite Forall_forall in Hdp. destruct (Hdp d Hdin) as [[o Ho] Hb]. destruct (entry_at r Hr _ o Ho) as (_ & _ & _ & Hb0 & Hs0 & Hs1).
    rewrite Hb. apply read_device_slice; [lia|lia|lia|]. intros y Hy. apply (Hd (range_of r base d)); [|cbn; lia].
    rewrite Hperm. apply list_elem_of_fmap. by exists d.
  - intros a Ha. apply Hf. rewrite Hperm. apply Forall_map. eapply Forall_impl; [exact Ha|]. cbn. unfold outside, cr_bytes. cbn. lia.
Qed.
End Whole.

(** A handle whose storage is in the table can be read. *)
Lemma storage_found art h s missing : ma_objects art !! h = Some s -> missing s = false -> storage_of art h missing = Ok s.
Proof. intros Hs Hm. unfold storage_of. by rewrite Hs, Hm. Qed.

Lemma entry_data_some r h o : reader_sound r -> rd_entries r !! h = Some o -> bool_decide (entry_data r h = []) = false.
Proof.
  intros Hr Ho. destruct (entry_at r Hr h o Ho) as (_ & Hv & _ & Hb & _). apply bool_decide_eq_false_2. intros E. rewrite E in Hv. unfold vsize in Hv. cbn in Hv. lia.
Qed.

(** * Claims *)

(** C18. Everything an artifact holds reaches its place. The file opens, a target binds its objects in any order, also
    with failing calls, and finishes with a plan that has a device tensor. Then, for every place of the device
    block and of the pinned slots, every schedule of the queued copies and every behaviour of [pread] that
    returns bytes of the file: when reads are not cut short the load succeeds; and when it succeeds, every
    planned tensor is in device memory, at the address the artifact gives for it and inside the block, with
    the bytes of its payload; every resource and every mapped tensor is its payload; and no byte of
    device memory outside the tensors has changed. *)
Theorem artifact_loads parse file r calls b plan pread base slot_address schedule device :
  (forall text v, parse text = Some v -> json_ok v = true) -> vsize file + 4096 <= I64_MAX -> open_artifact parse file = Ok r ->
  finish_binding (after_calls r calls) = (b, Ok plan) -> mp_device_objects plan <> [] ->
  0 < base -> (kTensorAlignment | base) -> base + mp_device_capacity_bytes plan + kTensorAlignment <= U64_MAX ->
  (forall i, slot_address i mod 4096 = 0) -> pread_ok file pread ->
  (pread_complete file pread -> exists loaded, materialize pread r plan base slot_address schedule device = Ok loaded) /\
  (forall art device', materialize pread r plan base slot_address schedule device = Ok (art, device') ->
     (forall d, d ∈ mp_device_objects plan -> exists t p, rd_entries r !! dm_object d = Some (TensorObject t) /\ payload r (TensorObject t) = Ok p /\
        device_data art (dm_object d) = Ok (base + dm_offset d) /\ read_device device' (base + dm_offset d) (td_bytes t) = ps_data p /\
        0 <= dm_offset d /\ dm_offset d + td_bytes t <= mp_device_capacity_bytes plan) /\
     (forall h, h ∈ mp_host_objects plan -> exists o p, rd_entries r !! h = Some o /\ payload r o = Ok p /\ resource_bytes art h = Ok (ps_data p)) /\
     (forall h, h ∈ mp_mapped_tensor_objects plan -> exists o p, rd_entries r !! h = Some o /\ payload r o = Ok p /\ mapped_tensor_bytes art h = Ok (ps_data p)) /\
     (forall a, Forall (fun d => a < base + dm_offset d \/ base + dm_offset d + dm_bytes d <= a) (mp_device_objects plan) -> device' a = device a)).
Proof.
  intros Hparse Hfile Hopen Hfinish Hsome Hbase Halign Hspace Haddress Hpread.
  destruct (opened_sound parse file r Hparse ltac:(unfold I64_MAX, SIZE_MAX, U64_MAX in *; lia) Hopen) as [<- Hr].
  assert (Hsound : Forall object_sound (rd_entries r)). { apply Forall_forall. intros o [h Ho]%list_elem_of_lookup. by apply (rs_entry _ Hr h o Ho). }
  destruct (finished_plan_ok r Hsound calls b plan Hfinish) as [Hplan _]. destruct (placed_bounds _ 0 _ (po_placed _ _ Hplan)) as [_ Hbounds].
  pose proof (materialize_ok r Hr Hfile pread Hpread plan Hplan Hsome base Hbase Halign Hspace slot_address Haddress schedule device) as Hload.
  unfold load_ok in Hload. destruct (materialize _ _ _ _ _ _ _) as [[art' device1]|e]; [|split; [|done]; intros Hc; by destruct (Hload Hc)].
  split; [by eexists|]. intros art device' [= -> ->]. destruct Hload as ((Htd & Hth & Htm) & Hdata & Hframe).
  destruct Hplan as [_ _ _ Hdev Hhost Hmap _]. rewrite Forall_forall in Hdev, Hbounds. rewrite Forall_forall in Hhost, Hmap. split; [|split; [|split; [|done]]].
  - intros d Hd. destruct (Hdev d Hd) as (t & Ht & Hb). destruct (entry_at r Hr _ _ Ht) as (Hp & _). destruct (Hbounds d Hd) as (? & ? & ?).
    exists t. eexists. split; [done|]. split; [exact Hp|]. unfold device_data. rewrite (storage_found _ _ _ _ (Htd d Hd)) by (cbn; lia).
    split; [done|]. rewrite <- Hb. split; [by apply Hdata|lia].
  - intros h Hh. destruct (Hhost h Hh) as (x & Hx). destruct (entry_at r Hr _ _ Hx) as (Hp & _). eexists. eexists. split; [done|]. split; [exact Hp|].
    unfold resource_bytes. by rewrite (storage_found _ _ _ _ (Hth h Hh)) by exact (entry_data_some r h _ Hr Hx).
  - intros h Hh. destruct (Hmap h Hh) as (x & Hx). destruct (entry_at r Hr _ _ Hx) as (Hp & _). eexists. eexists. split; [done|]. split; [exact Hp|].
    unfold mapped_tensor_bytes. by rewrite (storage_found _ _ _ _ (Htm h Hh)) by exact (entry_data_some r h _ Hr Hx).
Qed.

(** A file that is read as far as it goes. *)
Definition whole_pread (file : list Z) (offset n : Z) : option (list Z) := Some (mem_slice file offset n).

Lemma whole_pread_ok file : pread_ok file (whole_pread file).
Proof.
  intros offset n bytes Ho Hn [= <-]. unfold mem_slice, vsize. rewrite length_take, length_drop. split; [lia|].
  rewrite Nat2Z.id. apply list_eq. intros k. destruct (decide (k < Z.to_nat n `min` (length file - Z.to_nat offset))%nat) as [Hlt|Hge].
  - rewrite !lookup_take_lt by lia. done.
  - rewrite (lookup_take_ge _ (_ `min` _)) by lia. destruct (decide (k < Z.to_nat n)%nat); [|by rewrite lookup_take_ge by lia].
    rewrite lookup_take_lt, lookup_drop by lia. apply lookup_ge_None. lia.
Qed.

Definition demo_file : list Z := write_artifact demo_text demo_body.
Definition demo_reader : Reader :=
  match open_artifact demo_parse demo_file with Ok r => r | Err _ => mkReader [] (mkIdentity "" "") [] ∅ 0 end.
Definition demo_calls : list binder_call := [CBindRawResource "vocab"; CBindRawResource "vocab"; CBindTensor "w" BF16 [2; 3] PlaceDevice].
Definition demo_plan : MaterializationPlan :=
  match finish_binding (after_calls demo_reader demo_calls) with (_, Ok plan) => plan | (_, Err _) => empty_plan end.

Lemma artifact_loads_witness : exists art device',
  materialize (whole_pread demo_file) demo_reader demo_plan 1024 (fun i => 4096 * Z.of_nat i) [1%nat] (fun _ => 255) = Ok (art, device') /\
  device_data art 0 = Ok 1024 /\ read_device device' 1024 13 = [0; 1; 2; 3; 4; 5; 6; 7; 8; 9; 10; 11; 255] /\
  (forall h, h ∈ mp_host_objects demo_plan -> exists o p, rd_entries demo_reader !! h = Some o /\ payload demo_reader o = Ok p /\ resource_bytes art h = Ok (ps_data p)).
Proof.
  destruct (materialize (whole_pread demo_file) demo_reader demo_plan 1024 (fun i => 4096 * Z.of_nat i) [1%nat] (fun _ => 255)) as [[art device']|e] eqn:E;
    [|exfalso; vm_compute in E; discriminate].
  exists art, device'. split; [done|].
  assert (Hfinish : exists b, finish_binding (after_calls demo_reader demo_calls) = (b, Ok demo_plan)) by (eexists; vm_compute; reflexivity).
  destruct Hfinish as [b Hfinish].
  destruct (artifact_loads demo_parse demo_file demo_reader demo_calls b demo_plan (whole_pread demo_file) 1024
    (fun i => 4096 * Z.of_nat i) [1%nat] (fun _ => 255) demo_parse_ok) as [_ H].
  - vm_compute. discriminate.
  - vm_compute. reflexivity.
  - exact Hfinish.
  - vm_compute. discriminate.
  - lia.
  - by exists 4.
  - vm_compute. discriminate.
  - intros i. rewrite Z.mul_comm. apply Z.mod_mul. lia.
  - apply whole_pread_ok.
  - destruct (H art device' E) as (_ & Hh & _). split; [|split; [|exact Hh]]; vm_compute in E; injection E as <- <-; vm_compute; reflexivity.
Defined.
