(* ===== verification/TypedBinding.v ===== *)
(** The views of loaded tensors that the kernels get (src/src/artifact/typed_binding.cpp, [Weight] of
    src/src/core/tensor.h): pointers to the planes of a stored tensor. *)
From stdpp Require Import strings gmap.
From S2P Require Import Prelude Tensor Layout StorageLayouts ArtifactReader ArtifactBinder ArtifactLoad.

Inductive QType : Type :=
  | QQ4G64_F16S | QQ5G64_F16S | QQ6G64_F16S | QW8G32_F16S | QBF16_CTRL | QFP32_CTRL | QI32_CTRL | QNVFP4
  | QFP8_E4M3FN_ROW_BF16S | QFP8_E4M3FN_ROW_F32S.

Inductive QuantLayout : Type := LRowSplit | LContiguous | LBlockScaleK16M128x4 | LRowScale | LVoltaQpnPrepacked.

(** A null pointer is 0; the two float divisors are their bits. *)
Record Weight : Type := mkWeight {
  wt_payload : Z; wt_payload_bytes : Z; wt_high_plane_bytes : Z; wt_qtype : QType; wt_group_size : Z;
  wt_shape : list Z; wt_padded_shape : list Z; wt_ndim : Z;
  wt_qdata : Z; wt_qhigh : Z; wt_scales : Z; wt_n : Z; wt_k : Z; wt_group : Z;
  wt_layout : QuantLayout; wt_scale_dtype : DType; wt_scale_ne : list Z; wt_scale_nb : list Z;
  wt_weight_scale_divisor : Z; wt_input_scale_divisor : Z;
}.

Definition qtype_for (format : NumericFormat) : result QType :=
  match format with
  | StorageLayouts.BF16 => Ok QBF16_CTRL
  | StorageLayouts.FP32 => Ok QFP32_CTRL
  | StorageLayouts.I32 => Ok QI32_CTRL
  | StorageLayouts.I64 => Err LogicError
  | Q4G64_F16S => Ok QQ4G64_F16S
  | Q5G64_F16S => Ok QQ5G64_F16S
  | Q6G64_F16S => Ok QQ6G64_F16S
  | W8G32_F16S => Ok QW8G32_F16S
  | NVFP4 => Ok QNVFP4
  | FP8_E4M3FN_ROW_BF16S => Ok QFP8_E4M3FN_ROW_BF16S
  | FP8_E4M3FN_ROW_F32S => Ok QFP8_E4M3FN_ROW_F32S
  | U4Z8G16_F16S => Err LogicError
  end.

Definition dtype_for (format : NumericFormat) : result DType :=
  match format with
  | StorageLayouts.BF16 => Ok Tensor.BF16
  | StorageLayouts.FP32 => Ok Tensor.FP32
  | StorageLayouts.I32 => Ok Tensor.I32
  | _ => Err LogicError
  end.

(** The conversions of an [std::int32_t]: to [std::uint64_t], and products in it. *)
Definition contiguous_weight (materialized : MaterializedArtifact) (handle : ObjectHandle) (format : NumericFormat) (rows columns : Z) : result Weight :=
  p ← device_data materialized handle;
  dtype ← dtype_for format;
  qtype ← qtype_for format;
  Ok (mkWeight p (wrap64 (wrap64 (wrap64 rows * wrap64 columns) * dtype_size dtype)) 0 qtype 0
        [rows; columns; 1; 1] [rows; columns; 1; 1] 2 p 0 0 rows columns 0 LContiguous Tensor.FP32 [1; 1; 1; 1] [0; 0; 0; 0] 0 0).

Definition row_split_weight (materialized : MaterializedArtifact) (handle : ObjectHandle) (format : NumericFormat) (rows columns : Z) : result Weight :=
  geometry ← row_split_geometry format [wrap64 rows; wrap64 columns];
  bytes ← device_data materialized handle;
  qtype ← qtype_for format;
  Ok (mkWeight bytes (rs_encoded_bytes geometry) (rs_high_plane_bytes geometry) qtype (wrap32 (rs_group_size geometry))
        [rows; columns; 1; 1] [rows; to_i32 (rs_padded_columns geometry); 1; 1] 2
        bytes (if rs_high_plane_bytes geometry =? 0 then 0 else bytes + rs_high_plane_offset geometry) (bytes + rs_scale_plane_offset geometry)
        rows columns (to_i32 (rs_group_size geometry)) LRowSplit Tensor.FP16 [1; 1; 1; 1] [0; 0; 0; 0] 0 0).

Definition row_scale_weight (materialized : MaterializedArtifact) (handle : ObjectHandle) (format : NumericFormat) (rows columns : Z) : result Weight :=
  geometry ← row_scale_geometry format [wrap64 rows; wrap64 columns];
  bytes ← device_data materialized handle;
  let f32 := bool_decide (format = FP8_E4M3FN_ROW_F32S) in
  let scale_word_bytes := if f32 then 4 else 2 in
  qtype ← qtype_for format;
  let nb := rows * scale_word_bytes in
  Ok (mkWeight bytes (rg_encoded_bytes geometry) 0 qtype (wrap32 (rg_columns geometry))
        [rows; columns; 1; 1] [rows; columns; 1; 1] 2
        bytes 0 (bytes + rg_scale_plane_offset geometry) rows columns columns LRowScale (if f32 then Tensor.FP32 else Tensor.BF16)
        [rows; 1; 1; 1] [scale_word_bytes; nb; nb; nb] 0 0).

Definition materialized_weight (materialized : MaterializedArtifact) (handle : ObjectHandle) (format : NumericFormat) (rows columns : Z) : result Weight :=
  _ ← throw_if (bool_decide (format = NVFP4)) InvalidArgument;
  _ ← throw_if (bool_decide (format = U4Z8G16_F16S)) InvalidArgument;
  match storage_layout_for format with
  | ContiguousLeV1 => contiguous_weight materialized handle format rows columns
  | RowScaleV1 | RowScaleF32V1 => row_scale_weight materialized handle format rows columns
  | _ => row_split_weight materialized handle format rows columns
  end.

Definition materialized_tensor (materialized : MaterializedArtifact) (handle : ObjectHandle) (format : NumericFormat) (internal_shape : list Z) : result Tensor :=
  data ← device_data materialized handle;
  dtype ← dtype_for format;
  make_tensor data dtype internal_shape.

(** * The views are the planes *)

(** The pointers a kernel follows: codes, high bits of the codes, scales. *)
Definition weight_pointers (w : Weight) : Z * Z * Z := (wt_qdata w, wt_qhigh w, wt_scales w).

(** A tensor that kernels read as a weight. *)
Definition weight_format (format : NumericFormat) : bool :=
  match format with NVFP4 | U4Z8G16_F16S | StorageLayouts.I64 => false | _ => true end.

(** What a plane holds, by layout: codes in front, the high bits in the middle plane of a row-split tensor, and scales behind. A null pointer stands for a plane that the
    layout does not have, or that is empty. *)
Definition role_pointers (layout : StorageLayout) (a : Z) (planes : list (Z * Z)) : option (Z * Z * Z) :=
  match layout, planes with
  | ContiguousLeV1, [(codes, _)] => Some (a + codes, 0, 0)
  | RowSplitK128V1, [(codes, _); (high, bytes); (scales, _)] => Some (a + codes, if bytes =? 0 then 0 else a + high, a + scales)
  | RowScaleV1, [(codes, _); (scales, _)] | RowScaleF32V1, [(codes, _); (scales, _)] => Some (a + codes, 0, a + scales)
  | _, _ => None
  end.

Section Views.
Context (art : MaterializedArtifact) (h : ObjectHandle) (a rows columns : Z).
Context (Ha : 0 < a) (Hd : device_data art h = Ok a) (Hr : 0 <= rows <= I32_MAX) (Hc : 0 <= columns <= I32_MAX).

Definition views_planes (format : NumericFormat) : Prop := forall n,
  tensor_encoded_size (storage_layout_for format) format [rows; columns] = Ok n ->
  exists w planes, materialized_weight art h format rows columns = Ok w /\ geometry_planes (storage_layout_for format) format [rows; columns] = Ok planes /\
    wt_payload w = a /\ wt_payload_bytes w = n /\ wt_n w = rows /\ wt_k w = columns /\ role_pointers (storage_layout_for format) a planes = Some (weight_pointers w).

Lemma i32_u64 v : 0 <= v <= I32_MAX -> wrap64 v = v.
Proof. intros. apply wrap64_small. unfold I32_MAX, U64_MAX in *. lia. Qed.

Lemma row_split_views format : storage_layout_for format = RowSplitK128V1 -> views_planes format.
Proof.
  intros Hl n Hn. rewrite Hl in Hn |- *. unfold tensor_encoded_size in Hn. apply bind_Ok in Hn as ([] & _ & Hn). apply bind_Ok in Hn as (g & Hg & Hn).
  injection Hn as <-. unfold materialized_weight. rewrite !bool_decide_eq_false_2 by (by intros ->). cbn [throw_if mbind result_bind]. rewrite Hl.
  unfold row_split_weight. rewrite !i32_u64 by done. cbn [geometry_planes]. rewrite Hg, Hd. cbn [mbind result_bind].
  apply row_split_exact in Hg as (q & Hz & Hq & _ & _ & ->); [|lia|lia]. simp_bool. set (groups := rows * _).
  assert (Hqt : exists t, qtype_for format = Ok t) by (destruct format; cbn in Hl |- *; try discriminate; by eexists). destruct Hqt as [t ->].
  eexists. eexists. split; [done|]. split; [done|]. cbn [wt_payload wt_payload_bytes wt_n wt_k rs_encoded_bytes]. do 4 (split; [done|]).
  unfold weight_pointers, role_pointers. cbn [wt_qdata wt_qhigh wt_scales rs_low_plane_bytes rs_high_plane_bytes rs_high_plane_offset rs_scale_plane_offset rs_scale_plane_bytes].
  by rewrite Z.add_0_r.
Qed.

Lemma row_scale_views format word : format = FP8_E4M3FN_ROW_BF16S /\ word = 2 \/ format = FP8_E4M3FN_ROW_F32S /\ word = 4 -> views_planes format.
Proof.
  intros Hf n Hn.
  assert (Hgeo : exists g, row_scale_geometry format [rows; columns] = Ok g /\ n = rg_encoded_bytes g).
  { destruct Hf as [[-> ->] | [-> ->]]; cbn [storage_layout_for tensor_encoded_size] in Hn; apply bind_Ok in Hn as ([] & _ & Hn);
      apply bind_Ok in Hn as (g & Hg & [= <-]); by exists g. }
  destruct Hgeo as (g & Hg & ->). unfold materialized_weight. rewrite !bool_decide_eq_false_2 by (by destruct Hf as [[-> _] | [-> _]]).
  cbn [throw_if mbind result_bind].
  assert (Ew : exists t, (match storage_layout_for format with
      | ContiguousLeV1 => contiguous_weight art h format rows columns
      | RowScaleV1 | RowScaleF32V1 => row_scale_weight art h format rows columns
      | _ => row_split_weight art h format rows columns end) = row_scale_weight art h format rows columns /\ qtype_for format = Ok t).
  { destruct Hf as [[-> ->] | [-> ->]]; by eexists. }
  destruct Ew as (t & -> & Et). unfold row_scale_weight. rewrite !i32_u64 by done. rewrite Hg, Hd, Et. cbn [mbind result_bind].
  pose proof Hg as Hg'. apply (row_scale_exact format word) in Hg' as (Hr0 & Hc0 & _ & ->); [|lia|lia|done].
  eexists. eexists. split; [done|]. split; [destruct Hf as [[-> ->] | [-> ->]]; cbn [storage_layout_for geometry_planes]; by rewrite Hg|].
  cbn [wt_payload wt_payload_bytes wt_n wt_k rg_encoded_bytes]. do 4 (split; [done|]). unfold weight_pointers, role_pointers.
  destruct Hf as [[-> ->] | [-> ->]]; cbn [storage_layout_for wt_qdata wt_qhigh wt_scales rg_code_plane_bytes rg_scale_plane_offset rg_scale_plane_bytes]; by rewrite Z.add_0_r.
Qed.

Lemma contiguous_views format : storage_layout_for format = ContiguousLeV1 -> format <> StorageLayouts.I64 -> views_planes format.
Proof.
  intros Hl Hne n Hn. rewrite Hl in Hn |- *. cbn [geometry_planes]. rewrite Hn. cbn [mbind result_bind].
  destruct (every_layout_exact ContiguousLeV1 format [rows; columns]) as [Hsize _]; [repeat constructor; lia|].
  pose proof Hn as (sizes & Hsz & _ & -> & Hle)%Hsize. cbn [plane_sizes] in Hsz. case_match eqn:Hz; [|done].
  assert (Hdt : exists dt t, dtype_for format = Ok dt /\ qtype_for format = Ok t /\ direct_word_bytes format = Ok (dtype_size dt) /\ 0 < dtype_size dt).
  { destruct format; cbn in Hl; try discriminate; try done; by eexists; eexists. }
  destruct Hdt as (dt & t & Edt & Et & Ew & Hw). rewrite Ew in Hsz. injection Hsz as <-. cbn [forallb] in Hz. simp_bool.
  unfold product in *. cbn [foldr placed_end] in *. rewrite round_up_0, Z.mul_1_r, Z.add_0_l in *.
  assert (Hp : 0 < rows * columns) by (apply Z.mul_pos_pos; lia).
  assert (Hrc : rows * columns <= rows * columns * dtype_size dt) by nia.
  unfold materialized_weight. rewrite !bool_decide_eq_false_2 by (by intros ->). cbn [throw_if mbind result_bind]. rewrite Hl.
  unfold contiguous_weight. rewrite Hd, Edt, Et. cbn [mbind result_bind]. eexists. eexists. split; [done|]. split; [done|]. cbn [wt_payload wt_payload_bytes wt_n wt_k].
  split; [done|]. split; [|split; [done|split; [done|]]].
  - rewrite (i32_u64 rows), (i32_u64 columns) by done. rewrite (wrap64_small (rows * columns)) by lia. apply wrap64_small. lia.
  - unfold weight_pointers, role_pointers. cbn [wt_qdata wt_qhigh wt_scales]. by rewrite Z.add_0_r.
Qed.
End Views.

(** C22. A weight view is the stored tensor. For every format and every matrix with 32-bit rows and columns whose size
    the binder accepts ([n] is the size it checks), [materialized_weight] returns a view whose pointers to codes,
    high bits and scales are the planes of the layout that hold them, behind the address of the loaded tensor,
    and null exactly for what the layout does not have or what is empty; each plane is aligned and inside the payload, whose size
    is exactly [n], and no two meet. For the formats that have no view (I64, NVFP4, U4) it throws. *)
Theorem weight_views_are_planes art h a format rows columns n :
  0 < a -> device_data art h = Ok a -> 0 <= rows <= I32_MAX -> 0 <= columns <= I32_MAX ->
  tensor_encoded_size (storage_layout_for format) format [rows; columns] = Ok n ->
  if weight_format format then
    exists w sizes, materialized_weight art h format rows columns = Ok w /\ plane_sizes (storage_layout_for format) format [rows; columns] = Some sizes /\
      wt_payload w = a /\ wt_payload_bytes w = n /\ wt_n w = rows /\ wt_k w = columns /\
      role_pointers (storage_layout_for format) a (place 0 sizes) = Some (weight_pointers w) /\ planes_sound n (place 0 sizes)
  else exists e, materialized_weight art h format rows columns = Err e.
Proof.
  intros Ha Hd Hr Hc Hn. destruct (weight_format format) eqn:Hw.
  - destruct (every_layout_exact (storage_layout_for format) format [rows; columns]) as [Hsize Hplanes]; [repeat constructor; lia|].
    assert (Hv : views_planes art h a rows columns format).
    { destruct format; try discriminate Hw; (by apply contiguous_views) || (by apply row_split_views) || (by eapply row_scale_views; auto). }
    destruct (Hv n Hn) as (w & planes & E & Hp & H1 & H2 & H3 & H4 & H5).
    pose proof Hn as (sizes & Hsz & _ & En & _)%Hsize. destruct (Hplanes _ _ Hn Hsz) as [Hg Hnn]. rewrite Hp in Hg. injection Hg as ->. exists w, sizes.
    repeat (split; [done|]). rewrite En. by apply place_sound.
  - destruct format; try discriminate Hw; unfold materialized_weight, contiguous_weight; rewrite ?Hd; by eexists.
Qed.

Lemma weight_views_are_planes_witness : let art := mkMaterialized (mkArena 1024 4096 4096 4096) [mkStorage 1024 [] []] (mkLoadStats 0 0 0 0 0 0 0 0 0) in
  exists w, materialized_weight art 0 Q5G64_F16S 3 200 = Ok w /\ weight_pointers w = (1024, 1536, 1792).
Proof.
  intros art. destruct (weight_views_are_planes art 0 1024 Q5G64_F16S 3 200 792) as (w & sizes & E & Hp & _ & _ & _ & _ & Hv & _);
    [lia|reflexivity|unfold I32_MAX; lia|unfold I32_MAX; lia|reflexivity|].
  exists w. split; [exact E|]. vm_compute in Hp. injection Hp as <-. cbn in Hv. injection Hv as H1 H2 H3. unfold weight_pointers. by rewrite <- H1, <- H2, <- H3.
Defined.
