(* ===== verification/ExpertBank.v ===== *)
(** Views of the expert banks of a layer (src/src/targets/qwen3_8_flash_next/impl/expert_bank.h, expert_bank.cpp):
    pointers to the codes, scales and divisor of one expert inside the payload of a bank. *)
From stdpp Require Import strings gmap.
From S2P Require Import Prelude Tensor Layout StorageLayouts ArtifactReader ArtifactBinder ArtifactLoad.

(** Pointers are addresses; the float divisor is its bits. *)
Record Nvfp4ExpertMatrixView : Type := mkMatrix {
  mv_codes : Z; mv_scales : Z; mv_weight_scale_divisor : Z; mv_input_scale_divisor : Z; mv_rows : Z; mv_columns : Z;
}.

Record Nvfp4ExpertBankView : Type := mkBankView {
  bv_codes : Z; bv_scales : Z; bv_weight_scale_divisors : Z; bv_experts : Z; bv_rows : Z; bv_columns : Z;
  bv_code_bytes_per_expert : Z; bv_scale_bytes_per_expert : Z;
}.

(** The bits of [1.0F]. *)
Definition one_f32 : Z := 1065353216.

Definition bank_expert (b : Nvfp4ExpertBankView) (index : Z) : result Nvfp4ExpertMatrixView :=
  _ ← throw_if ((index <? 0) || (bv_experts b <=? index)) OutOfRange;
  Ok (mkMatrix (bv_codes b + wrap64 (wrap64 index * bv_code_bytes_per_expert b))
        (bv_scales b + wrap64 (wrap64 index * bv_scale_bytes_per_expert b))
        (bv_weight_scale_divisors b + 4 * index) one_f32 (bv_rows b) (bv_columns b)).

Definition make_nvfp4_expert_bank_view (payload payload_bytes experts rows columns : Z) : result Nvfp4ExpertBankView :=
  _ ← throw_if ((payload =? 0) || (experts <=? 0) || (rows <=? 0) || (columns <=? 0)) InvalidArgument;
  geometry ← block_scale_bank_geometry NVFP4 [wrap64 experts; wrap64 rows; wrap64 columns];
  _ ← throw_if (negb (payload_bytes =? bg_encoded_bytes geometry)) InvalidArgument;
  Ok (mkBankView payload (payload + bg_scale_plane_offset geometry) (payload + bg_weight_divisor_offset geometry) experts rows columns
        (bg_code_plane_bytes geometry / wrap64 experts) (bg_scale_plane_bytes geometry / wrap64 experts)).

Definition materialized_nvfp4_expert_bank_view (materialized : MaterializedArtifact) (handle : ObjectHandle) (experts rows columns : Z)
  : result Nvfp4ExpertBankView :=
  _ ← throw_if ((experts <=? 0) || (rows <=? 0) || (columns <=? 0)) InvalidArgument;
  geometry ← block_scale_bank_geometry NVFP4 [wrap64 experts; wrap64 rows; wrap64 columns];
  data ← device_data materialized handle;
  make_nvfp4_expert_bank_view data (bg_encoded_bytes geometry) experts rows columns.

(** [mapped_at] is where the bytes of a mapped tensor are in memory. *)
Definition mapped_nvfp4_expert_bank_view (mapped_at : ObjectHandle -> Z) (materialized : MaterializedArtifact) (handle : ObjectHandle)
    (experts rows columns : Z) : result Nvfp4ExpertBankView :=
  bytes ← mapped_tensor_bytes materialized handle;
  make_nvfp4_expert_bank_view (mapped_at handle) (vsize bytes) experts rows columns.

Record HostNvfp4ExpertPairView : Type := mkPair { pv_gate_up : Nvfp4ExpertMatrixView; pv_down : Nvfp4ExpertMatrixView }.
Record HostNvfp4ExpertLayerView : Type := mkLayer { lv_gate_up : Nvfp4ExpertBankView; lv_down : Nvfp4ExpertBankView }.

Definition layer_expert (v : HostNvfp4ExpertLayerView) (index : Z) : result HostNvfp4ExpertPairView :=
  _ ← throw_if (negb (bv_experts (lv_gate_up v) =? bv_experts (lv_down v))) LogicError;
  gate_up ← bank_expert (lv_gate_up v) index;
  down ← bank_expert (lv_down v) index;
  Ok (mkPair gate_up down).

Definition compact_bytes_per_expert_pair (v : HostNvfp4ExpertLayerView) : result Z :=
  _ ← throw_if ((bv_experts (lv_gate_up v) <=? 0) || negb (bv_experts (lv_gate_up v) =? bv_experts (lv_down v))) LogicError;
  Ok (wrap64 (wrap64 (wrap64 (wrap64 (wrap64 (bv_code_bytes_per_expert (lv_gate_up v) + bv_scale_bytes_per_expert (lv_gate_up v)) + 4) +
        bv_code_bytes_per_expert (lv_down v)) + bv_scale_bytes_per_expert (lv_down v)) + 4)).

Definition kFlashNextRoutedExpertLayers : Z := 48.

(** [HostNvfp4ExpertTableView], an array of 48 layers. *)
Definition table_expert (layers : list HostNvfp4ExpertLayerView) (layer index : Z) : result HostNvfp4ExpertPairView :=
  _ ← throw_if ((layer <? 0) || (vsize layers <=? layer)) OutOfRange;
  match layers.[layer] with
  | Some v => layer_expert v index
  | None => Err Undefined
  end.

Record Bf16ExpertMatrixView : Type := mkBf16Matrix { bm_data : Z; bm_rows : Z; bm_columns : Z }.
Record Bf16ExpertBankView : Type := mkBf16Bank { bb_data : Z; bb_experts : Z; bb_rows : Z; bb_columns : Z; bb_bytes_per_expert : Z }.

Definition bf16_expert (b : Bf16ExpertBankView) (index : Z) : result Bf16ExpertMatrixView :=
  _ ← throw_if ((index <? 0) || (bb_experts b <=? index)) OutOfRange;
  Ok (mkBf16Matrix (bb_data b + wrap64 (wrap64 index * bb_bytes_per_expert b)) (bb_rows b) (bb_columns b)).

Definition make_bf16_expert_bank_view (payload payload_bytes experts rows columns : Z) : result Bf16ExpertBankView :=
  _ ← throw_if ((payload =? 0) || (experts <=? 0) || (rows <=? 0) || (columns <=? 0)) InvalidArgument;
  let bytes_per_expert := wrap64 (wrap64 (wrap64 rows * wrap64 columns) * 2) in
  let expected_total_bytes := wrap64 (bytes_per_expert * wrap64 experts) in
  _ ← throw_if (payload_bytes <? expected_total_bytes) InvalidArgument;
  Ok (mkBf16Bank payload experts rows columns bytes_per_expert).

Definition materialized_bf16_expert_bank_view (materialized : MaterializedArtifact) (handle : ObjectHandle) (experts rows columns : Z)
  : result Bf16ExpertBankView :=
  _ ← throw_if ((experts <=? 0) || (rows <=? 0) || (columns <=? 0)) InvalidArgument;
  let total_bytes := wrap64 (wrap64 (wrap64 (wrap64 experts * wrap64 rows) * wrap64 columns) * 2) in
  data ← device_data materialized handle;
  make_bf16_expert_bank_view data total_bytes experts rows columns.

(** * Experts tile a bank *)

(** The bytes of one expert, by address and size. *)
Definition slices (m : Nvfp4ExpertMatrixView) : list (Z * Z) :=
  [(mv_codes m, mv_rows m * mv_columns m / 2); (mv_scales m, mv_rows m * mv_columns m / 16); (mv_weight_scale_divisor m, 4)].

Lemma block_exact rows columns : rows mod 128 = 0 -> columns mod 64 = 0 ->
  rows * columns = 2 * (rows * columns / 2) /\ rows * columns = 16 * (rows * columns / 16).
Proof.
  intros Hr Hc. apply Z.mod_divide in Hr as [a ->]; [|done]. apply Z.mod_divide in Hc as [b ->]; [|done].
  assert (E2 : a * 128 * (b * 64) / 2 = a * b * 4096) by (replace (a * 128 * (b * 64)) with (a * b * 4096 * 2) by lia; by apply Z.div_mul).
  assert (E16 : a * 128 * (b * 64) / 16 = a * b * 512) by (replace (a * 128 * (b * 64)) with (a * b * 512 * 16) by lia; by apply Z.div_mul).
  rewrite E2, E16. lia.
Qed.

(** What a bank is, once its view was made. *)
Lemma bank_view_parts payload payload_bytes experts rows columns b : experts <= I32_MAX -> rows <= I32_MAX -> columns <= I32_MAX ->
  make_nvfp4_expert_bank_view payload payload_bytes experts rows columns = Ok b ->
  let codes := rows * columns / 2 in let scales := rows * columns / 16 in
  0 < experts /\ 0 < codes /\ 0 < scales /\ payload_bytes = experts * (codes + scales + 4) /\ payload_bytes <= U64_MAX /\
  b = mkBankView payload (payload + experts * codes) (payload + experts * (codes + scales)) experts rows columns codes scales.
Proof.
  intros He Hr Hc H. unfold make_nvfp4_expert_bank_view in H. apply bind_Ok in H as ([] & Hz%throw_if_Ok & H). simp_bool.
  assert (Hw : forall v, 0 < v -> v <= I32_MAX -> wrap64 v = v) by (intros; apply wrap64_small; unfold I32_MAX, U64_MAX in *; lia).
  rewrite !Hw in H by lia. apply bind_Ok in H as (g & Hg & H). apply bind_Ok in H as ([] & Hn%throw_if_Ok & H). injection H as <-. simp_bool.
  apply block_scale_bank_exact in Hg as (_ & _ & _ & Hr0 & Hc0 & _ & Hend & ->); [|lia|lia|lia]. cbn in Hn |- *.
  destruct (block_exact rows columns Hr0 Hc0) as [E2 E16]. set (codes := rows * columns / 2) in *. set (scales := rows * columns / 16) in *.
  assert (Hp : 0 < rows * columns) by (apply Z.mul_pos_pos; lia).
  assert (Ec : experts * rows * columns / 2 = experts * codes).
  { replace (experts * rows * columns) with (experts * codes * 2) by lia. apply Z.div_mul. lia. }
  assert (Es : experts * rows * columns / 16 = experts * scales).
  { replace (experts * rows * columns) with (experts * scales * 16) by lia. apply Z.div_mul. lia. }
  rewrite Ec, Es in *. rewrite !(Z.mul_comm experts), !Z.div_mul by lia. split; [lia|]. split; [lia|]. split; [lia|]. split; [lia|]. split; [lia|].
  f_equal; lia.
Qed.

(** The experts of a bank tile its payload. For every bank view that is made, each index of the bank names an
    expert whose codes, scales and divisor are inside the payload, no two of these parts meet, of one
    expert or of two, and together they are exactly the bytes of the payload; any other index throws. *)
Theorem expert_slices_tile_bank payload payload_bytes experts rows columns b :
  experts <= I32_MAX -> rows <= I32_MAX -> columns <= I32_MAX ->
  make_nvfp4_expert_bank_view payload payload_bytes experts rows columns = Ok b ->
  (forall i, 0 <= i < experts -> exists m, bank_expert b i = Ok m /\
     Forall (fun s => payload <= fst s /\ 0 < snd s /\ fst s + snd s <= payload + payload_bytes) (slices m) /\
     experts * zsum (map snd (slices m)) = payload_bytes) /\
  (forall i j k l m m' s s', bank_expert b i = Ok m -> bank_expert b j = Ok m' -> slices m !! k = Some s -> slices m' !! l = Some s' ->
     (i, k) <> (j, l) -> fst s + snd s <= fst s' \/ fst s' + snd s' <= fst s) /\
  (forall i, ~ 0 <= i < experts -> bank_expert b i = Err OutOfRange).
Proof.
  intros He Hr Hc H. destruct (bank_view_parts payload payload_bytes experts rows columns b He Hr Hc H) as (Hx & Hcodes & Hscales & Hn & HU & ->).
  set (codes := rows * columns / 2) in *. set (scales := rows * columns / 16) in *.
  assert (Hin : forall i c, 0 <= i < experts -> 0 < c -> 0 <= i * c /\ i * c + c <= experts * c) by (intros; nia).
  assert (Hle : experts * codes <= U64_MAX /\ experts * scales <= U64_MAX) by nia.
  assert (Hexp : forall i, bank_expert (mkBankView payload (payload + experts * codes) (payload + experts * (codes + scales)) experts rows columns codes scales) i =
            if (i <? 0) || (experts <=? i) then Err OutOfRange
            else Ok (mkMatrix (payload + i * codes) (payload + experts * codes + i * scales) (payload + experts * (codes + scales) + 4 * i) one_f32 rows columns)).
  { intros i. unfold bank_expert. cbn. destruct ((i <? 0) || (experts <=? i)) eqn:Ei; [done|]. simp_bool. cbn [throw_if mbind result_bind].
    destruct (Hin i codes ltac:(lia) Hcodes). destruct (Hin i scales ltac:(lia) Hscales).
    rewrite (wrap64_small i) by (unfold I32_MAX, U64_MAX in *; lia). rewrite !wrap64_small by lia. done. }
  split; [|split].
  - intros i Hi. eexists. split; [rewrite Hexp, (proj2 (Z.ltb_ge i 0)), (proj2 (Z.leb_gt experts i)) by lia; reflexivity|].
    pose proof (Hin i codes Hi Hcodes). pose proof (Hin i scales Hi Hscales). unfold slices. cbn [mv_codes mv_scales mv_weight_scale_divisor mv_rows mv_columns].
    fold codes scales. split; [repeat apply Forall_cons_2; [cbn; lia|cbn; lia|cbn; lia|apply Forall_nil_2]|]. cbn [map snd]. unfold zsum. cbn [foldr]. lia.
  - intros i j k l m m' s s' Hi Hj Hk Hl Hne. rewrite Hexp in Hi, Hj. destruct ((i <? 0) || (experts <=? i)) eqn:Ei; [done|].
    destruct ((j <? 0) || (experts <=? j)) eqn:Ej; [done|]. injection Hi as <-. injection Hj as <-. simp_bool. unfold slices in Hk, Hl.
    cbn [mv_codes mv_scales mv_weight_scale_divisor mv_rows mv_columns] in Hk, Hl. fold codes scales in Hk, Hl.
    pose proof (Hin i codes ltac:(lia) Hcodes). pose proof (Hin i scales ltac:(lia) Hscales). pose proof (Hin j codes ltac:(lia) Hcodes).
    pose proof (Hin j scales ltac:(lia) Hscales).
    assert (Hsame : forall c, 0 < c -> i <> j -> i * c + c <= j * c \/ j * c + c <= i * c) by (intros; nia).
    pose proof (Hsame codes Hcodes) as Hsc. pose proof (Hsame scales Hscales) as Hss.
    destruct k as [|[|[|k]]], l as [|[|[|l]]]; cbn in Hk, Hl; try discriminate; injection Hk as <-; injection Hl as <-; cbn [fst snd]; try lia;
      assert (i <> j) by congruence; lia.
  - intros i Hi. rewrite Hexp. by rewrite (proj2 (orb_true_iff _ _)) by (destruct (Z.ltb_spec i 0); [by left|right; apply Z.leb_le; lia]).
Qed.

Lemma expert_slices_tile_bank_witness : exists b, make_nvfp4_expert_bank_view 4096 36896 8 128 64 = Ok b /\
  (forall i, ~ 0 <= i < 8 -> bank_expert b i = Err OutOfRange) /\
  exists m, bank_expert b 3 = Ok m /\ slices m = [(16384, 4096); (38400, 512); (40972, 4)].
Proof.
  eexists. split; [vm_compute; reflexivity|]. split; [|eexists; split; vm_compute; reflexivity].
  eapply (expert_slices_tile_bank 4096 36896 8 128 64); [vm_compute; discriminate|vm_compute; discriminate|vm_compute; discriminate|vm_compute; reflexivity].
Defined.
