(* ===== verification/ExpertCache.v ===== *)
(** The cache of experts on the device (src/src/targets/qwen3_8_flash_next/impl/expert_cache.h, expert_cache.cpp) and
    its use by a layer (moe.cpp). The inference thread looks experts up, computes with those that are
    ready and asks for others; a worker thread fills slots in the background; the device runs queued
    kernels. [env_step] is one step of the worker or of the device, and [w_schedule] says which of them happen
    between the calls of the inference thread: the claims hold for all schedules. Timing is off. *)
From stdpp Require Import strings gmap sorting.
From S2P Require Import Prelude StorageLayouts ArtifactBinder ArtifactLoad ExpertBank.

(** * The budget *)
Definition GiB : Z := 1073741824.
Definition kExpertPairBytes : Z := 2764808.
Definition kExpertSlotBytes : Z := Z.land (kExpertPairBytes + 255) (wrap64 (Z.lnot 255)).

Record FlashNextExpertCacheBudget : Type := mkBudget {
  bu_total_bytes : Z; bu_free_before_bytes : Z; bu_transfer_bytes : Z; bu_reserve_bytes : Z; bu_used_limit_bytes : Z;
  bu_cache_bytes : Z; bu_slots_per_layer : Z;
}.

Definition flash_next_expert_cache_budget (free total transfer : Z) (mtp : bool) (maximum : Z) : result FlashNextExpertCacheBudget :=
  let reserve_bytes := 2 * GiB in
  let used_limit_bytes := Z.min total ((if mtp then 30 else 28) * GiB) in
  _ ← throw_if ((total <? free) || (512 <? maximum)) InvalidArgument;
  let used := total - free in
  let available := Z.min (if reserve_bytes <? free then free - reserve_bytes else 0)
                         (if used <? used_limit_bytes then used_limit_bytes - used else 0) in
  let weights := if transfer <? available then available - transfer else 0 in
  let slots_per_layer := Z.min maximum (weights / (kFlashNextRoutedExpertLayers * kExpertSlotBytes)) in
  let cache_bytes := wrap64 (wrap64 (slots_per_layer * kFlashNextRoutedExpertLayers) * kExpertSlotBytes) in
  Ok (mkBudget total free transfer reserve_bytes used_limit_bytes cache_bytes slots_per_layer).

(** * State *)
Inductive slot_state : Type := EEmpty | EUploading | ECanonical | EReady.

#[global] Instance slot_state_eq_dec : EqDecision slot_state.
Proof. solve_decision. Defined.

Record Entry : Type := mkEntry { en_expert : Z; en_state : slot_state; en_epoch : Z; en_leases : Z }.
Definition empty_entry : Entry := mkEntry (-1) EEmpty 0 0.

(** The counters of [FlashNextExpertCacheStats]. *)
Inductive stat : Type :=
  | SHits | SMisses | SAdmitted | SReady | SEvicted | SFillBytes | SQueueDeclined | SVictimDeclined | SMaximumOutstanding
  | SBurst (admitted : Z).

#[global] Instance stat_eq_dec : EqDecision stat.
Proof. solve_decision. Defined.

Definition bump (name : stat) (amount : Z) (s : stat -> Z) : stat -> Z :=
  fun n => if decide (n = name) then wrap64 (s n + amount) else s n.

Record FlashNextCachedExpertTask : Type := mkTask {
  tk_expert : HostNvfp4ExpertPairView; tk_input : Z; tk_activation : Z; tk_output : Z;
}.

(** [FlashNextCachedExpertGroup]: its first [count] tasks. *)
Notation FlashNextCachedExpertGroup := (list FlashNextCachedExpertTask) (only parsing).

(** What is queued on the stream of the inference thread. *)
Inductive launch : Type :=
  | LScalar (task : FlashNextCachedExpertTask)
  | LBatch (tasks : list FlashNextCachedExpertTask)
  | LGroups (groups : list FlashNextCachedExpertGroup)
  | LDownload (bytes : Z).

(** What a kernel wrote to its output row: it is a function of the weights it read and of its input. *)
Record KernelOutput : Type := mkOutput { ko_weights : Z -> Z; ko_input : Z }.

(** The worker: waiting, with a slot taken from the queue, with the slot filled, or ended by an exception. *)
Inductive worker : Type := WIdle | WPopped (slot id : Z) | WCopied (slot : Z) | WStopped.

(** The state behind the mutex. *)
Record shared : Type := mkShared {
  c_entries : list Entry; c_queue : list Z; c_filling : bool; c_failure : option error; c_epoch : Z; c_stats : stat -> Z;
}.

(** The state only the inference thread touches. *)
Record owner : Type := mkOwner {
  o_consumers : list (Z * Z); o_batching_layer : bool; o_grouping_layer : bool;
  o_batched_prefill : bool; o_batched_decode : bool; o_grouped_prefill : bool; o_admissions_enabled : bool;
  o_descriptors : list FlashNextCachedExpertTask;
}.

(** The memory of the device (by address), the stream, the output rows (by address) and the pinned results (by path). *)
Record device : Type := mkDevice {
  d_storage : Z -> Z; d_stream : list launch; d_outputs : Z -> option KernelOutput; d_results : Z -> option KernelOutput;
}.

Inductive env : Type := EPop | ECopy | EPublish | EFail | EDevice.

Record world : Type := mkWorld {
  w_shared : shared; w_owner : owner; w_device : device; w_worker : worker;
  w_pair_outputs : Z -> option KernelOutput; w_schedule : list (list env);
}.

Definition with_shared (f : shared -> shared) (w : world) : world :=
  mkWorld (f (w_shared w)) (w_owner w) (w_device w) (w_worker w) (w_pair_outputs w) (w_schedule w).
Definition with_owner (f : owner -> owner) (w : world) : world :=
  mkWorld (w_shared w) (f (w_owner w)) (w_device w) (w_worker w) (w_pair_outputs w) (w_schedule w).
Definition with_gpu (f : device -> device) (w : world) : world :=
  mkWorld (w_shared w) (w_owner w) (f (w_device w)) (w_worker w) (w_pair_outputs w) (w_schedule w).
Definition with_worker (x : worker) (w : world) : world :=
  mkWorld (w_shared w) (w_owner w) (w_device w) x (w_pair_outputs w) (w_schedule w).
Definition with_pair_outputs (f : Z -> option KernelOutput) (w : world) : world :=
  mkWorld (w_shared w) (w_owner w) (w_device w) (w_worker w) f (w_schedule w).
Definition with_schedule (l : list (list env)) (w : world) : world :=
  mkWorld (w_shared w) (w_owner w) (w_device w) (w_worker w) (w_pair_outputs w) l.

Definition set_entries (l : list Entry) (c : shared) : shared := mkShared l (c_queue c) (c_filling c) (c_failure c) (c_epoch c) (c_stats c).
Definition set_queue (q : list Z) (filling : bool) (c : shared) : shared :=
  mkShared (c_entries c) q filling (c_failure c) (c_epoch c) (c_stats c).
Definition set_epoch (n : Z) (c : shared) : shared := mkShared (c_entries c) (c_queue c) (c_filling c) (c_failure c) n (c_stats c).
Definition count_stat (name : stat) (c : shared) : shared :=
  mkShared (c_entries c) (c_queue c) (c_filling c) (c_failure c) (c_epoch c) (bump name 1 (c_stats c)).
Definition set_stats (s : stat -> Z) (c : shared) : shared := mkShared (c_entries c) (c_queue c) (c_filling c) (c_failure c) (c_epoch c) s.

Definition set_consumers (l : list (Z * Z)) (o : owner) : owner :=
  mkOwner l (o_batching_layer o) (o_grouping_layer o) (o_batched_prefill o) (o_batched_decode o) (o_grouped_prefill o)
    (o_admissions_enabled o) (o_descriptors o).
Definition set_layer_mode (batching grouping : bool) (o : owner) : owner :=
  mkOwner (o_consumers o) batching grouping (o_batched_prefill o) (o_batched_decode o) (o_grouped_prefill o)
    (o_admissions_enabled o) (o_descriptors o).
Definition set_modes (batched_prefill batched_decode grouped_prefill : bool) (o : owner) : owner :=
  mkOwner (o_consumers o) (o_batching_layer o) (o_grouping_layer o) batched_prefill batched_decode grouped_prefill
    (o_admissions_enabled o) (o_descriptors o).
Definition set_admissions (b : bool) (o : owner) : owner :=
  mkOwner (o_consumers o) (o_batching_layer o) (o_grouping_layer o) (o_batched_prefill o) (o_batched_decode o) (o_grouped_prefill o)
    b (o_descriptors o).
Definition set_descriptors (l : list FlashNextCachedExpertTask) (o : owner) : owner :=
  mkOwner (o_consumers o) (o_batching_layer o) (o_grouping_layer o) (o_batched_prefill o) (o_batched_decode o) (o_grouped_prefill o)
    (o_admissions_enabled o) l.

(** What the constructor fixes: the host banks, the slots of a layer, the number of paths, the cap, and the addresses of
    the device buffers. *)
Record config : Type := mkConfig {
  cf_layers : list HostNvfp4ExpertLayerView; cf_slots : Z; cf_paths : Z; cf_admission_cap : Z;
  cf_storage : Z; cf_activations : Z; cf_outputs : Z;
}.

(** The byte at [o] of an expert pair in its canonical order: codes and scales of both matrices, then the divisors. *)
Definition pair_byte (memory : Z -> Z) (v : HostNvfp4ExpertPairView) (o : Z) : Z :=
  if o <? 1638400 then memory (mv_codes (pv_gate_up v) + o)
  else if o <? 1843200 then memory (mv_scales (pv_gate_up v) + (o - 1638400))
  else if o <? 2662400 then memory (mv_codes (pv_down v) + (o - 1843200))
  else if o <? 2764800 then memory (mv_scales (pv_down v) + (o - 2662400))
  else if o <? 2764804 then memory (mv_weight_scale_divisor (pv_gate_up v) + (o - 2764800))
  else memory (mv_weight_scale_divisor (pv_down v) + (o - 2764804)).

Section Cache.
Context (cf : config) (host : Z -> Z).

Definition output_row_bytes : Z := 2560 * 4.
Definition outputs_bytes : Z := cf_paths cf * 2560 * 4.

Definition view (slot : Z) : HostNvfp4ExpertPairView :=
  let base := cf_storage cf + slot * kExpertSlotBytes in
  mkPair (mkMatrix base (base + 1638400) (base + 2764800) one_f32 1280 2560)
         (mkMatrix (base + 1843200) (base + 2662400) (base + 2764804) one_f32 2560 640).

Definition slot_at (entries : list Entry) (i : Z) : result Entry :=
  match entries.[i] with Some e => Ok e | None => Err Undefined end.

(** * The device *)
Definition run_task (storage : Z -> Z) (outputs : Z -> option KernelOutput) (t : FlashNextCachedExpertTask) : Z -> option KernelOutput :=
  fun a => if a =? tk_output t then Some (mkOutput (pair_byte storage (tk_expert t)) (tk_input t)) else outputs a.

(** A group as its two kernels run it: the weights of its first task, decoded once, for the inputs of up to four tasks. *)
Definition group_work (g : list FlashNextCachedExpertTask) : list FlashNextCachedExpertTask :=
  match g with
  | [] => []
  | first :: _ => map (fun t => mkTask (tk_expert first) (tk_input t) (tk_activation t) (tk_output t)) (take 4 g)
  end.

Definition launch_tasks (l : launch) : list FlashNextCachedExpertTask :=
  match l with
  | LScalar t => [t]
  | LBatch ts => ts
  | LGroups gs => concat (map group_work gs)
  | LDownload _ => []
  end.

Definition run_launch (storage : Z -> Z) (state : (Z -> option KernelOutput) * (Z -> option KernelOutput)) (l : launch)
  : (Z -> option KernelOutput) * (Z -> option KernelOutput) :=
  let '(outputs, results) := state in
  match l with
  | LDownload bytes => (outputs, fun p => if (0 <=? p) && ((p + 1) * output_row_bytes <=? bytes) then outputs (cf_outputs cf + p * output_row_bytes) else results p)
  | _ => (foldl (run_task storage) outputs (launch_tasks l), results)
  end.

Definition run_launches (storage : Z -> Z) (state : (Z -> option KernelOutput) * (Z -> option KernelOutput)) (ls : list launch) :=
  foldl (run_launch storage) state ls.

(** The stream runs its first [k] launches. *)
Definition run_stream (k : nat) (d : device) : device :=
  let '(outputs, results) := run_launches (d_storage d) (d_outputs d, d_results d) (take k (d_stream d)) in
  mkDevice (d_storage d) (drop k (d_stream d)) outputs results.

Definition enqueue_launch (l : launch) : M world unit :=
  mmodify (with_gpu (fun d => mkDevice (d_storage d) (d_stream d ++ [l]) (d_outputs d) (d_results d))).

(** * The worker: the body of [fill_loop] in the steps between which other threads can run *)

(** The packed slot: the pair, then zeros. *)
Definition packed (src : HostNvfp4ExpertPairView) (o : Z) : Z := if o <? kExpertPairBytes then pair_byte host src o else 0.

Definition fill_slot (slot : Z) (src : HostNvfp4ExpertPairView) (storage : Z -> Z) : Z -> Z := fun a =>
  let base := cf_storage cf + slot * kExpertSlotBytes in
  if (base <=? a) && (a <? base + kExpertSlotBytes) then packed src (a - base) else storage a.

Definition fail_worker (e : error) (w : world) : world :=
  with_worker WStopped (with_shared (fun c => mkShared (c_entries c) [] false (Some e) (c_epoch c) (c_stats c)) w).

Definition publish_slot (slot : Z) (c : shared) : shared :=
  match (c_entries c).[slot] with
  | Some e =>
      let e := mkEntry (en_expert e) ECanonical (en_epoch e) (en_leases e) in
      let e := mkEntry (en_expert e) EReady (en_epoch e) (en_leases e) in
      mkShared ((c_entries c).[slot <- e]) (c_queue c) false (c_failure c) (c_epoch c)
        (bump SReady 1 (bump SFillBytes kExpertSlotBytes (c_stats c)))
  | None => c
  end.

Definition env_step (e : env) (w : world) : world :=
  match e, w_worker w with
  | EPop, WIdle =>
      match c_queue (w_shared w) with
      | slot :: rest =>
          match (c_entries (w_shared w)).[slot] with
          | Some x => with_worker (WPopped slot (en_expert x)) (with_shared (set_queue rest true) w)
          | None => w
          end
      | [] => w
      end
  | ECopy, WPopped slot id =>
      match table_expert (cf_layers cf) (slot / cf_slots cf) id with
      | Ok src => with_worker (WCopied slot)
                    (with_gpu (fun d => mkDevice (fill_slot slot src (d_storage d)) (d_stream d) (d_outputs d) (d_results d)) w)
      | Err e => fail_worker e w
      end
  | EPublish, WCopied slot => with_worker WIdle (with_shared (publish_slot slot) w)
  | EFail, WStopped => w
  | EFail, _ => fail_worker RuntimeError w
  | EDevice, _ => with_gpu (run_stream 1) w
  | _, _ => w
  end.

(** Other threads run, as the schedule says. *)
Definition others : M world unit := mmodify (fun w =>
  match w_schedule w with
  | [] => w
  | es :: rest => foldl (fun w e => env_step e w) (with_schedule rest w) es
  end).

(** * The calls of the inference thread *)
Definition check_failure : M world unit :=
  w ← mget;
  match c_failure (w_shared w) with Some e => mthrow e | None => mret tt end.

Fixpoint find_ready (entries : list Entry) (expert : Z) (count : nat) (i : Z) : result (option Z) :=
  match count with
  | O => Ok None
  | S count' =>
      e ← slot_at entries i;
      if (en_expert e =? expert) && bool_decide (en_state e = EReady) then Ok (Some i) else find_ready entries expert count' (i + 1)
  end.

Definition valid_key (layer expert : Z) : bool := negb ((48 <=? layer) || (expert <? 0) || (512 <=? expert)).

Definition ready_view (layer expert : Z) : M world HostNvfp4ExpertPairView :=
  _ ← check_failure;
  _ ← mthrow_if (negb (valid_key layer expert)) InvalidArgument;
  w ← mget;
  found ← mlift (find_ready (c_entries (w_shared w)) expert (Z.to_nat (cf_slots cf)) (layer * cf_slots cf));
  match found with Some i => mret (view i) | None => mthrow RuntimeError end.

Definition begin_layer (prefill : bool) : M world unit :=
  w ← mget;
  _ ← mthrow_if (negb (bool_decide (length (o_consumers (w_owner w)) = 0%nat))) LogicError;
  let o := w_owner w in
  mput (with_owner (set_layer_mode ((prefill && (o_batched_prefill o || o_grouped_prefill o)) || (negb prefill && o_batched_decode o))
                      (prefill && o_grouped_prefill o)) w).

Definition lease (slot : Z) (c : shared) : shared :=
  match (c_entries c).[slot] with
  | Some e => count_stat SHits (set_epoch (wrap64 (c_epoch c + 1))
                (set_entries ((c_entries c).[slot <- mkEntry (en_expert e) (en_state e) (wrap64 (c_epoch c + 1)) (wrap32 (en_leases e + 1))]) c))
  | None => c
  end.

Definition path_task (slot input path : Z) : FlashNextCachedExpertTask :=
  mkTask (view slot) input (cf_activations cf + path * 640 * 2) (cf_outputs cf + path * output_row_bytes).

Definition execute (layer expert input path : Z) : M world bool :=
  _ ← check_failure;
  _ ← mthrow_if (negb (valid_key layer expert)) InvalidArgument;
  w ← mget;
  found ← mlift (find_ready (c_entries (w_shared w)) expert (Z.to_nat (cf_slots cf)) (layer * cf_slots cf));
  match found with
  | None =>
      _ ← mmodify (with_shared (count_stat SMisses));
      mret false
  | Some slot =>
      _ ← mthrow_if (outputs_bytes <? (path + 1) * 2560 * 4) OutOfRange;
      _ ← mmodify (fun w => with_owner (fun o => set_consumers (o_consumers o ++ [(slot, path)]) o) (with_shared (lease slot) w));
      w ← mget;
      if o_batching_layer (w_owner w) then
        let index := vsize (o_consumers (w_owner w)) - 1 in
        _ ← mthrow_if (vsize (o_descriptors (w_owner w)) <=? index) Undefined;
        _ ← mmodify (with_owner (fun o => set_descriptors ((o_descriptors o).[index <- path_task slot input path]) o));
        mret true
      else
        _ ← enqueue_launch (LScalar (path_task slot input path));
        mret true
  end.

(** ** Grouping *)
Definition codes_of (t : FlashNextCachedExpertTask) : Z := mv_codes (pv_gate_up (tk_expert t)).

Definition task_le (a b : FlashNextCachedExpertTask) : Prop := codes_of a <= codes_of b.
#[global] Instance task_le_dec : RelDecision task_le := fun a b => Z_le_dec _ _.

(** [std::sort] of the tasks in use; tasks of the same expert stay in their order here. *)
Definition sort_tasks (ts : list FlashNextCachedExpertTask) : list FlashNextCachedExpertTask := merge_sort task_le ts.

Definition task_at (ts : list FlashNextCachedExpertTask) (i : Z) : result FlashNextCachedExpertTask :=
  match ts.[i] with Some t => Ok t | None => Err Undefined end.

(** [while (end < count && tasks[end] has the codes of tasks[i]) ++end], with [codes] those of [tasks[i]]. *)
Fixpoint run_end (fuel : nat) (ts : list FlashNextCachedExpertTask) (count codes end_ : Z) : result Z :=
  if end_ <? count then
    match fuel with
    | O => Err Undefined
    | S fuel' =>
        t ← task_at ts end_;
        if codes_of t =? codes then run_end fuel' ts count codes (end_ + 1) else Ok end_
    end
  else Ok end_.

Record grouping : Type := mkGrouping { gp_tasks : list FlashNextCachedExpertTask; gp_groups : list FlashNextCachedExpertGroup; gp_singles : Z }.

(** [while (i < end)]: groups of two to four, and singles moved to the front of the same array. *)
Fixpoint emit_run (fuel : nat) (end_ i : Z) (g : grouping) : result grouping :=
  if i <? end_ then
    match fuel with
    | O => Err Undefined
    | S fuel' =>
        let n := Z.min 4 (end_ - i) in
        if n =? 1 then
          t ← task_at (gp_tasks g) i;
          emit_run fuel' end_ (i + 1) (mkGrouping ((gp_tasks g).[gp_singles g <- t]) (gp_groups g) (gp_singles g + 1))
        else
          _ ← throw_if (cf_paths cf <=? vsize (gp_groups g)) Undefined;
          emit_run fuel' end_ (i + n) (mkGrouping (gp_tasks g) (gp_groups g ++ [mem_slice (gp_tasks g) i n]) (gp_singles g))
    end
  else Ok g.

Fixpoint group_tasks (fuel : nat) (count i : Z) (g : grouping) : result grouping :=
  if i <? count then
    match fuel with
    | O => Err Undefined
    | S fuel' =>
        t ← task_at (gp_tasks g) i;
        end_ ← run_end (Z.to_nat count) (gp_tasks g) count (codes_of t) (i + 1);
        g ← emit_run (Z.to_nat count) end_ i g;
        group_tasks fuel' count end_ g
    end
  else Ok g.

Definition begin_download (bytes : Z) : M world unit :=
  w ← mget;
  if bool_decide (length (o_consumers (w_owner w)) = 0%nat) then mret tt else
  _ ← mthrow_if (outputs_bytes <? bytes) OutOfRange;
  let count := vsize (o_consumers (w_owner w)) in
  let tasks := o_descriptors (w_owner w) in
  _ ← (if o_batching_layer (w_owner w) then
         if o_grouping_layer (w_owner w) then
           let sorted := sort_tasks (take (Z.to_nat count) tasks) ++ drop (Z.to_nat count) tasks in
           g ← mlift (group_tasks (Z.to_nat count) count 0 (mkGrouping sorted [] 0));
           _ ← mmodify (with_owner (set_descriptors (gp_tasks g)));
           _ ← (if 0 <? vsize (gp_groups g) then enqueue_launch (LGroups (gp_groups g)) else mret tt);
           if 0 <? gp_singles g then enqueue_launch (LBatch (mem_slice (gp_tasks g) 0 (gp_singles g))) else mret tt
         else enqueue_launch (LBatch (mem_slice tasks 0 count))
       else mret tt);
  enqueue_launch (LDownload bytes).

Definition release (slot : Z) (c : shared) : shared :=
  match (c_entries c).[slot] with
  | Some e => set_entries ((c_entries c).[slot <- mkEntry (en_expert e) (en_state e) (en_epoch e) (wrap32 (en_leases e - 1))]) c
  | None => c
  end.

Definition deliver (consumer : Z * Z) : M world unit :=
  let '(slot, path) := consumer in
  mmodify (fun w => with_shared (release slot)
    (with_pair_outputs (fun p => if p =? path then d_results (w_device w) path else w_pair_outputs w p) w)).

(** [cudaStreamSynchronize] runs what is queued; then the results are handed out and the leases given back. *)
Definition finish_download : M world unit :=
  w ← mget;
  if bool_decide (length (o_consumers (w_owner w)) = 0%nat) then mret tt else
  _ ← mmodify (with_gpu (fun d => run_stream (length (d_stream d)) d));
  _ ← check_failure;
  _ ← mfor deliver (o_consumers (w_owner w));
  mmodify (with_owner (set_consumers [])).

(** ** Admission *)
Fixpoint find_expert (entries : list Entry) (expert : Z) (count : nat) (i : Z) : result bool :=
  match count with
  | O => Ok false
  | S count' =>
      e ← slot_at entries i;
      if en_expert e =? expert then Ok true else find_expert entries expert count' (i + 1)
  end.

(** The loop that looks for a victim: the first empty slot, or the one that was used longest ago. *)
Fixpoint find_victim (entries : list Entry) (count : nat) (i : Z) (victim : option Z) : result (option Z) :=
  match count with
  | O => Ok victim
  | S count' =>
      e ← slot_at entries i;
      if negb (en_leases e =? 0) || bool_decide (en_state e = EUploading) then find_victim entries count' (i + 1) victim
      else
        take_ ← match victim with
                | None => Ok true
                | Some v => if bool_decide (en_state e = EEmpty) then Ok true
                            else best ← slot_at entries v; Ok (en_epoch e <? en_epoch best)
                end;
        let victim := if (take_ : bool) then Some i else victim in
        if bool_decide (en_state e = EEmpty) then Ok victim else find_victim entries count' (i + 1) victim
  end.

Definition outstanding (c : shared) : Z := vsize (c_queue c) + (if c_filling c then 1 else 0).

(** A slot is given to an expert and queued for the worker. *)
Definition admit_slot (victim id : Z) (c : shared) : shared :=
  let epoch := wrap64 (c_epoch c + 1) in
  let evicts := match (c_entries c).[victim] with Some e => negb (bool_decide (en_state e = EEmpty)) | None => false end in
  let stats := bump SAdmitted 1 (if evicts then bump SEvicted 1 (c_stats c) else c_stats c) in
  let c := mkShared ((c_entries c).[victim <- mkEntry id EUploading epoch 0]) (c_queue c ++ [victim]) (c_filling c) (c_failure c) epoch stats in
  set_stats (fun n => if decide (n = SMaximumOutstanding) then Z.max (c_stats c n) (outstanding c) else c_stats c n) c.

Fixpoint admit_ids (begin_ : Z) (ids : list Z) (admitted : Z) : M world Z :=
  match ids with
  | [] => mret admitted
  | id :: ids' =>
      _ ← mthrow_if ((id <? 0) || (512 <=? id)) InvalidArgument;
      w ← mget;
      present ← mlift (find_expert (c_entries (w_shared w)) id (Z.to_nat (cf_slots cf)) begin_);
      if present : bool then admit_ids begin_ ids' admitted else
      if 4 <=? outstanding (w_shared w) then
        _ ← mmodify (with_shared (count_stat SQueueDeclined));
        mret admitted
      else
        victim ← mlift (find_victim (c_entries (w_shared w)) (Z.to_nat (cf_slots cf)) begin_ None);
        match victim with
        | None =>
            _ ← mmodify (with_shared (count_stat SVictimDeclined));
            mret admitted
        | Some v =>
            _ ← mmodify (with_shared (admit_slot v id));
            if admitted + 1 =? cf_admission_cap cf then mret (admitted + 1) else admit_ids begin_ ids' (admitted + 1)
        end
  end.

Definition admit_experts (layer : Z) (ids : list Z) : M world unit :=
  _ ← check_failure;
  _ ← mthrow_if (48 <=? layer) InvalidArgument;
  w ← mget;
  if negb (o_admissions_enabled (w_owner w)) || (cf_slots cf =? 0) then mret tt else
  admitted ← admit_ids (layer * cf_slots cf) ids 0;
  mmodify (with_shared (count_stat (SBurst admitted))).

(** ** Waiting for the worker *)
Definition idle (w : world) : bool := bool_decide (length (c_queue (w_shared w)) = 0%nat) && negb (c_filling (w_shared w)).

(** The next step of the worker. *)
Definition worker_step (w : world) : world :=
  match w_worker w with
  | WIdle => env_step EPop w
  | WPopped _ _ => env_step ECopy w
  | WCopied _ => env_step EPublish w
  | WStopped => w
  end.

(** While [drain] waits the others run, and the worker goes on; four slots are at most twelve steps. *)
Fixpoint wait_idle (fuel : nat) : M world unit :=
  w ← mget;
  if idle w then mret tt else
  match fuel with
  | O => mthrow Undefined
  | S fuel' =>
      _ ← others;
      _ ← mmodify worker_step;
      wait_idle fuel'
  end.

Definition drain : M world unit :=
  _ ← wait_idle 12;
  check_failure.

Definition freeze_admissions : M world unit :=
  _ ← drain;
  mmodify (with_owner (set_admissions false)).

Definition reset : M world unit :=
  _ ← drain;
  w ← mget;
  _ ← mthrow_if (negb (bool_decide (length (o_consumers (w_owner w)) = 0%nat))) LogicError;
  _ ← mmodify (with_shared (fun c => mkShared (replicate (length (c_entries c)) empty_entry) (c_queue c) (c_filling c) (c_failure c) 0 (fun _ => 0)));
  mmodify (with_owner (set_admissions true)).

(** * A layer (moe.cpp) *)

(** The routed paths of a layer: those the cache takes, and the experts of the others for the processor. *)
Fixpoint run_routes (layer_view : HostNvfp4ExpertLayerView) (layer : Z) (routes : list (Z * Z)) (path : Z)
  : M world (list (option HostNvfp4ExpertPairView)) :=
  match routes with
  | [] => mret []
  | (id, input) :: routes' =>
      hit ← execute layer id input path;
      _ ← others;
      miss ← mlift (if hit : bool then Ok None else pair ← layer_expert layer_view id; Ok (Some pair));
      rest ← run_routes layer_view layer routes' (path + 1);
      mret (miss :: rest)
  end.

(** [routes] are the expert and the input row of every path. *)
Definition run_layer (layer_view : HostNvfp4ExpertLayerView) (layer : Z) (prefill : bool) (routes : list (Z * Z))
  : M world (list (option HostNvfp4ExpertPairView)) :=
  _ ← begin_layer prefill;
  _ ← others;
  misses ← run_routes layer_view layer routes 0;
  _ ← begin_download (vsize routes * 2560 * 4);
  _ ← others;
  _ ← finish_download;
  _ ← others;
  _ ← admit_experts layer (map fst routes);
  mret misses.
End Cache.

(** * The constructor *)
Definition kTaskBytes : Z := 104.
Definition kGroupBytes : Z := 424.

(** The options read from the environment. *)
Record cache_options : Type := mkOptions { op_batched_prefill : bool; op_batched_decode : bool; op_grouped_prefill : bool }.

Definition check_bank_layer (v : HostNvfp4ExpertLayerView) : result unit :=
  bytes ← compact_bytes_per_expert_pair v;
  throw_if (negb (bytes =? kExpertPairBytes) || negb (bv_experts (lv_gate_up v) =? 512) || negb (bv_experts (lv_down v) =? 512)) InvalidArgument.

Definition zero_matrix : Nvfp4ExpertMatrixView := mkMatrix 0 0 0 0 0 0.
Definition zero_task : FlashNextCachedExpertTask := mkTask (mkPair zero_matrix zero_matrix) 0 0 0.

(** [free] and [total] are what the driver reports; the three addresses are the device buffers, [memory] their contents. *)
Definition make_cache (layers : list HostNvfp4ExpertLayerView) (max_tokens : Z) (mtp : bool) (maximum admission_cap : Z) (options : cache_options)
    (free total storage activations outputs : Z) (memory : Z -> Z) : result (config * world) :=
  _ ← throw_if ((admission_cap <? 1) || (2 <? admission_cap)) InvalidArgument;
  _ ← throw_if (max_tokens =? 0) InvalidArgument;
  _ ← rfor (fun _ => check_bank_layer) tt layers;
  let paths := max_tokens * 10 in
  let transfer := paths * (640 * 2 + 2560 * 4 + kGroupBytes) in
  budget ← flash_next_expert_cache_budget free total transfer mtp maximum;
  let slots := bu_slots_per_layer budget in
  let descriptors := if slots =? 0 then [] else replicate (Z.to_nat paths) zero_task in
  Ok (mkConfig layers slots paths admission_cap storage activations outputs,
      mkWorld (mkShared (replicate (Z.to_nat (slots * 48)) empty_entry) [] false None 0 (fun _ => 0))
        (mkOwner [] false false (op_batched_prefill options) (op_batched_decode options) (op_grouped_prefill options) true descriptors)
        (mkDevice memory [] (fun _ => None) (fun _ => None)) WIdle (fun _ => None) []).
