(* ===== verification/ExpertCacheInv.v ===== *)
(** The invariant of the expert cache: slots that are read are never written, and what is ready is the expert it says. *)
From stdpp Require Import strings gmap sorting.
From S2P Require Import Prelude StorageLayouts ArtifactBinder ArtifactLoad ExpertBank ExpertCache.

(** * Slots in memory *)
Lemma slot_bytes_value : kExpertSlotBytes = 2765056.
Proof. reflexivity. Qed.

Section Memory.
Context (cf : config) (host : Z -> Z).

Definition slot_base (s : Z) : Z := cf_storage cf + s * kExpertSlotBytes.

(** Through the view of a slot a kernel reads the bytes of the slot in order. *)
Lemma pair_byte_view storage s o : 0 <= o < kExpertPairBytes -> pair_byte storage (view cf s) o = storage (slot_base s + o).
Proof.
  intros Ho. unfold pair_byte, view, slot_base. cbn [pv_gate_up pv_down mv_codes mv_scales mv_weight_scale_divisor].
  set (base := cf_storage cf + s * kExpertSlotBytes).
  destruct (o <? 1638400); [done|]. destruct (o <? 1843200); [f_equal; lia|]. destruct (o <? 2662400); [f_equal; lia|].
  destruct (o <? 2764800); [f_equal; lia|]. destruct (o <? 2764804); f_equal; lia.
Qed.

Lemma fill_slot_same s src storage o : 0 <= o < kExpertPairBytes -> fill_slot cf host s src storage (slot_base s + o) = pair_byte host src o.
Proof.
  intros Ho. unfold fill_slot. fold (slot_base s). unfold kExpertPairBytes in Ho.
  rewrite (proj2 (Z.leb_le _ _)), (proj2 (Z.ltb_lt _ _)) by (rewrite ?slot_bytes_value; lia). cbn [andb]. unfold packed.
  replace (slot_base s + o - slot_base s) with o by lia. by rewrite (proj2 (Z.ltb_lt o kExpertPairBytes)) by (unfold kExpertPairBytes; lia).
Qed.

Lemma fill_slot_other s s' src storage o : s <> s' -> 0 <= o < kExpertPairBytes -> fill_slot cf host s src storage (slot_base s' + o) = storage (slot_base s' + o).
Proof.
  intros Hne Ho. unfold fill_slot. fold (slot_base s). unfold kExpertPairBytes in Ho.
  assert (Hout : slot_base s' + o < slot_base s \/ slot_base s + kExpertSlotBytes <= slot_base s' + o).
  { unfold slot_base. rewrite slot_bytes_value. nia. }
  destruct (Z.leb_spec (slot_base s) (slot_base s' + o)); [|done]. rewrite (proj2 (Z.ltb_ge _ _)) by lia. done.
Qed.

(** The slot [s] holds expert [id] of its layer. *)
Definition content_ok (storage : Z -> Z) (s id : Z) : Prop :=
  exists v, table_expert (cf_layers cf) (s / cf_slots cf) id = Ok v /\ forall o, 0 <= o < kExpertPairBytes -> storage (slot_base s + o) = pair_byte host v o.

Lemma content_other s s' src storage id : s <> s' -> content_ok storage s' id -> content_ok (fill_slot cf host s src storage) s' id.
Proof. intros Hne (v & Hv & H). exists v. split; [done|]. intros o Ho. rewrite fill_slot_other by done. by apply H. Qed.

(** * The invariant *)
Definition busy (x : worker) : list Z := match x with WPopped s _ => [s] | WCopied s => [s] | WIdle | WStopped => [] end.

Definition entry_ok (e : Entry) : Prop :=
  match en_state e with
  | EEmpty => en_expert e = -1
  | ECanonical => False
  | EUploading | EReady => 0 <= en_expert e < 512
  end.

(** How often the slot is leased. *)
Definition leased (s : Z) (consumers : list (Z * Z)) : Z := vsize (filter (fun c => fst c = s) consumers).

Record cache_ok (w : world) : Prop := {
  k_size : vsize (c_entries (w_shared w)) = 48 * cf_slots cf;
  k_entry : forall s e, (c_entries (w_shared w)).[s] = Some e -> entry_ok e;
  k_distinct : forall i j a b, (c_entries (w_shared w)).[i] = Some a -> (c_entries (w_shared w)).[j] = Some b -> i <> j ->
    i / cf_slots cf = j / cf_slots cf -> en_expert a = en_expert b -> en_expert a = -1;
  k_uploads : NoDup (c_queue (w_shared w) ++ busy (w_worker w));
  k_uploading : forall s, s ∈ c_queue (w_shared w) ++ busy (w_worker w) ->
    exists e, (c_entries (w_shared w)).[s] = Some e /\ en_state e = EUploading;
  k_popped : forall s id, w_worker w = WPopped s id -> exists e, (c_entries (w_shared w)).[s] = Some e /\ en_expert e = id;
  k_copied : forall s, w_worker w = WCopied s -> exists e, (c_entries (w_shared w)).[s] = Some e /\ content_ok (d_storage (w_device w)) s (en_expert e);
  k_filling : c_filling (w_shared w) = negb (bool_decide (busy (w_worker w) = []));
  k_bound : outstanding (w_shared w) <= 4;
  k_leases : forall s e, (c_entries (w_shared w)).[s] = Some e -> en_leases e = leased s (o_consumers (w_owner w));
  k_consumers : forall s p, (s, p) ∈ o_consumers (w_owner w) -> 0 <= p < cf_paths cf /\
    exists e, (c_entries (w_shared w)).[s] = Some e /\ en_state e = EReady;
  k_paths : NoDup (o_consumers (w_owner w)).*2;
  k_ready : forall s e, (c_entries (w_shared w)).[s] = Some e -> en_state e = EReady -> content_ok (d_storage (w_device w)) s (en_expert e);
  k_failed : is_Some (c_failure (w_shared w)) <-> w_worker w = WStopped;
  k_descriptors : cf_slots cf <> 0 -> vsize (o_descriptors (w_owner w)) = cf_paths cf;
  k_quiet : o_consumers (w_owner w) = [] -> d_stream (w_device w) = [];
  k_error : forall e, c_failure (w_shared w) = Some e -> e = RuntimeError;
  k_stopped : w_worker w = WStopped -> c_queue (w_shared w) = [];
  k_progress : w_worker w <> WStopped -> forall s e, (c_entries (w_shared w)).[s] = Some e -> en_state e = EUploading ->
    s ∈ c_queue (w_shared w) ++ busy (w_worker w);
}.

Context (Hlayers : forall s id, 0 <= s < 48 * cf_slots cf -> 0 <= id < 512 -> exists v, table_expert (cf_layers cf) (s / cf_slots cf) id = Ok v).

(** ** The steps of the worker *)
Lemma pop_ok w slot rest e : cache_ok w -> w_worker w = WIdle -> c_queue (w_shared w) = slot :: rest -> (c_entries (w_shared w)).[slot] = Some e ->
  cache_ok (with_worker (WPopped slot (en_expert e)) (with_shared (set_queue rest true) w)).
Proof.
  intros [Hsize Hentry Hdist Hnd Hup Hpop Hcop Hfill Hbound Hlease Hcons Hpaths Hready Hfail Hdesc Hquiet Herr Hstop Hprog] Hw Hq He. rewrite Hw, Hq in *.
  cbn [busy] in *. rewrite app_nil_r in *. assert (Hperm : rest ++ [slot] ≡ₚ slot :: rest) by (by rewrite Permutation_app_comm).
  split; cbn; try done.
  - by rewrite Hperm.
  - intros s Hs. apply Hup. by rewrite Hperm in Hs.
  - intros s id [= <- <-]. by exists e.
  - unfold outstanding in *. rewrite Hq in Hbound. cbn in *. rewrite vsize_cons in Hbound. destruct (c_filling (w_shared w)); lia.
  - split; [intros Hf; apply Hfail in Hf; discriminate|discriminate].
  - intros _ s x Hx Hst. rewrite Hperm. by apply (Hprog ltac:(done) s x).
Qed.

(** The expert of a queued slot exists. *)
Lemma popped_source w slot id : cache_ok w -> w_worker w = WPopped slot id -> exists src, table_expert (cf_layers cf) (slot / cf_slots cf) id = Ok src.
Proof.
  intros H Hw. destruct (k_popped _ H slot id Hw) as (e & He & <-). destruct (k_uploading _ H slot) as (e' & He' & Hst); [rewrite Hw; set_solver|].
  rewrite He in He'. injection He' as <-. pose proof (vget_Some_bounds _ _ _ He) as Hb. rewrite (k_size _ H) in Hb. apply Hlayers; [done|].
  pose proof (k_entry _ H slot e He) as Ho. unfold entry_ok in Ho. by rewrite Hst in Ho.
Qed.

Lemma copy_ok w slot id src : cache_ok w -> w_worker w = WPopped slot id -> table_expert (cf_layers cf) (slot / cf_slots cf) id = Ok src ->
  cache_ok (with_worker (WCopied slot)
    (with_gpu (fun d => mkDevice (fill_slot cf host slot src (d_storage d)) (d_stream d) (d_outputs d) (d_results d)) w)).
Proof.
  intros [Hsize Hentry Hdist Hnd Hup Hpop Hcop Hfill Hbound Hlease Hcons Hpaths Hready Hfail Hdesc Hquiet Herr Hstop Hprog] Hw Hsrc. rewrite Hw in *. cbn [busy] in *.
  destruct (Hpop slot id eq_refl) as (e & He & Hid). destruct (Hup slot) as (e' & He' & Hst); [set_solver|]. rewrite He in He'. injection He' as <-.
  split; cbn; try done.
  - intros s [= <-]. exists e. split; [done|]. exists src. rewrite Hid. split; [done|]. intros o Ho. by apply fill_slot_same.
  - intros s x Hx Hr. apply content_other; [|by apply Hready]. intros <-. congruence.
  - split; [intros Hf; apply Hfail in Hf; discriminate|discriminate].
  - intros _ s x Hx Hs. by apply (Hprog ltac:(done) s x).
Qed.

Lemma publish_ok w slot : cache_ok w -> w_worker w = WCopied slot -> cache_ok (with_worker WIdle (with_shared (publish_slot slot) w)).
Proof.
  intros [Hsize Hentry Hdist Hnd Hup Hpop Hcop Hfill Hbound Hlease Hcons Hpaths Hready Hfail Hdesc Hquiet Herr Hstop Hprog] Hw. rewrite Hw in *. cbn [busy] in *.
  destruct (Hcop slot eq_refl) as (e & He & Hc). destruct (Hup slot) as (e' & He' & Hst); [set_solver|]. rewrite He in He'. injection He' as <-.
  pose proof (vget_Some_bounds _ _ _ He) as Hb. apply NoDup_app in Hnd as (Hndq & Hdis & _). 
  set (e1 := mkEntry (en_expert e) EReady (en_epoch e) (en_leases e)).
  assert (E : exists stats, publish_slot slot (w_shared w) =
    mkShared ((c_entries (w_shared w)).[slot <- e1]) (c_queue (w_shared w)) false (c_failure (w_shared w)) (c_epoch (w_shared w)) stats).
  { unfold publish_slot. rewrite He. by eexists. }
  destruct E as [stats E]. unfold with_worker, with_shared. cbn. rewrite E.
  assert (Hget : forall s x, (c_entries (w_shared w)).[slot <- e1].[s] = Some x -> s = slot /\ x = e1 \/ s <> slot /\ (c_entries (w_shared w)).[s] = Some x).
  { intros s x. destruct (decide (s = slot)) as [->|Hne]; [rewrite vget_vset_eq by done; intros [= <-]; by left|]. rewrite vget_vset_ne by done. by right. }
  split; cbn; rewrite ?app_nil_r; try done.
  - by rewrite vsize_vset.
  - intros s x [[-> ->] | [_ Hx]]%Hget; [|by eapply Hentry]. specialize (Hentry slot e He). unfold entry_ok in *. rewrite Hst in Hentry. done.
  - intros i j a b [[-> ->] | [Hi Ha]]%Hget [[-> ->] | [Hj Hb']]%Hget Hne; cbn; try (by eapply Hdist); done.
  - intros s Hs. destruct (Hup s) as (x & Hx & Hu); [set_solver|]. exists x. split; [|done]. rewrite vget_vset_ne; [done|].
    intros <-. apply (Hdis slot Hs). set_solver.
  - unfold outstanding in *. cbn. destruct (c_filling (w_shared w)); lia.
  - intros s x [[-> ->] | [_ Hx]]%Hget; [cbn; by apply Hlease|by apply Hlease].
  - intros s p Hsp. destruct (Hcons s p Hsp) as (Hp & x & Hx & Hr). split; [done|]. exists x. rewrite vget_vset_ne; [done|]. intros <-. congruence.
  - intros s x [[-> ->] | [_ Hx]]%Hget Hr; [done|by apply Hready].
  - split; [intros Hf; apply Hfail in Hf; discriminate|discriminate].
  - intros _ s x [[-> ->] | [Hne Hx]]%Hget Hs; [done|]. specialize (Hprog ltac:(done) s x Hx Hs). set_solver.
Qed.

Lemma fail_ok w : cache_ok w -> cache_ok (fail_worker RuntimeError w).
Proof.
  intros [Hsize Hentry Hdist Hnd Hup Hpop Hcop Hfill Hbound Hlease Hcons Hpaths Hready Hfail Hdesc Hquiet Herr Hstop Hprog].
  split; cbn; try done; try (apply NoDup_nil_2).
  - intros s Hs. set_solver.
  - by intros e [= <-].
Qed.

Lemma device_ok w : cache_ok w -> cache_ok (with_gpu (run_stream cf 1) w).
Proof.
  intros [Hsize Hentry Hdist Hnd Hup Hpop Hcop Hfill Hbound Hlease Hcons Hpaths Hready Hfail Hdesc Hquiet Herr Hstop Hprog].
  assert (Es : d_storage (run_stream cf 1 (w_device w)) = d_storage (w_device w)) by (unfold run_stream; by destruct (run_launches _ _ _ _)).
  assert (Eq : d_stream (w_device w) = [] -> d_stream (run_stream cf 1 (w_device w)) = []).
  { intros E. unfold run_stream. rewrite E. done. }
  split; cbn; rewrite ?Es; try done. intros Hc. by apply Eq, Hquiet.
Qed.

Lemma env_step_ok e w : cache_ok w -> cache_ok (env_step cf host e w).
Proof.
  intros H. unfold env_step. destruct e, (w_worker w) as [|slot id|slot|] eqn:Hw; try done; try (by apply fail_ok); try (by apply device_ok); try (by apply publish_ok).
  - destruct (c_queue (w_shared w)) as [|slot rest] eqn:Hq; [done|]. destruct ((c_entries (w_shared w)).[slot]) as [x|] eqn:Hx; [|done]. by apply pop_ok.
  - destruct (popped_source w slot id H Hw) as [src Hsrc]. rewrite Hsrc. by apply (copy_ok w slot id).
Qed.
End Memory.
