(* ===== verification/ExpertCacheRun.v ===== *)
(** The calls of the inference thread on the expert cache, and what the kernels they queue will write, whatever the worker and
    the device do in between. *)
From stdpp Require Import strings gmap sorting.
From S2P Require Import Prelude StorageLayouts ArtifactBinder ArtifactLoad ExpertBank ExpertCache ExpertCacheInv.

(** * Outputs, up to what a kernel reads *)
Definition agree (a b : option KernelOutput) : Prop :=
  match a, b with
  | None, None => True
  | Some x, Some y => ko_input x = ko_input y /\ forall o, 0 <= o < kExpertPairBytes -> ko_weights x o = ko_weights y o
  | _, _ => False
  end.

#[global] Instance agree_refl : Reflexive agree.
Proof. intros [x|]; cbn; done. Qed.

#[global] Instance agree_trans : Transitive agree.
Proof.
  intros [x|] [y|] [z|] H1 H2; cbn in *; try done. destruct H1 as [E1 H1], H2 as [E2 H2]. split; [congruence|]. intros o Ho. rewrite H1, H2; done.
Qed.

(** Two memories that a task cannot tell apart. *)
Definition same_weights (st st' : Z -> Z) (t : FlashNextCachedExpertTask) : Prop :=
  forall o, 0 <= o < kExpertPairBytes -> pair_byte st (tk_expert t) o = pair_byte st' (tk_expert t) o.

Section Effects.
Context (cf : config) (host : Z -> Z).

Lemma run_tasks_agree st st' ts outs outs' : Forall (same_weights st st') ts -> (forall a, agree (outs a) (outs' a)) ->
  forall a, agree (foldl (run_task st) outs ts a) (foldl (run_task st') outs' ts a).
Proof.
  intros Ht. revert outs outs'. induction Ht as [|t ts Ht _ IH]; intros outs outs' Ho; [done|]. cbn. apply IH. intros a. unfold run_task.
  destruct (a =? tk_output t); [|done]. cbn. split; [done|]. exact Ht.
Qed.

Lemma run_launches_agree st st' ls s s' : Forall (same_weights st st') (concat (map launch_tasks ls)) ->
  (forall a, agree (fst s a) (fst s' a)) -> (forall p, agree (snd s p) (snd s' p)) ->
  (forall a, agree (fst (run_launches cf st s ls) a) (fst (run_launches cf st' s' ls) a)) /\
  (forall p, agree (snd (run_launches cf st s ls) p) (snd (run_launches cf st' s' ls) p)).
Proof.
  revert s s'. induction ls as [|l ls IH]; intros [o r] [o' r'] Ht Ho Hr; [done|]. cbn [map concat] in Ht. apply Forall_app in Ht as [Hl Ht].
  change (run_launches cf st (o, r) (l :: ls)) with (run_launches cf st (run_launch cf st (o, r) l) ls).
  change (run_launches cf st' (o', r') (l :: ls)) with (run_launches cf st' (run_launch cf st' (o', r') l) ls). cbn [fst snd] in *.
  apply IH; [done| |]; destruct l as [t|ts|gs|bytes]; cbn [run_launch fst snd launch_tasks] in *; try done; try (by apply run_tasks_agree).
  intros p. by destruct ((0 <=? p) && _).
Qed.

(** What the output rows and the results will be once the stream has run. *)
Definition eff (w : world) : (Z -> option KernelOutput) * (Z -> option KernelOutput) :=
  run_launches cf (d_storage (w_device w)) (d_outputs (w_device w), d_results (w_device w)) (d_stream (w_device w)).

Lemma run_launches_app st s ls ls' : run_launches cf st s (ls ++ ls') = run_launches cf st (run_launches cf st s ls) ls'.
Proof. unfold run_launches. apply foldl_app. Qed.

Lemma eff_run_stream k w : eff (with_gpu (run_stream cf k) w) = eff w.
Proof.
  unfold eff, with_gpu. cbn. unfold run_stream.
  rewrite <- (take_drop k (d_stream (w_device w))) at 5. rewrite run_launches_app.
  destruct (run_launches cf (d_storage (w_device w)) (d_outputs (w_device w), d_results (w_device w)) (take k (d_stream (w_device w)))) as [o r] eqn:E.
  cbn. done.
Qed.

Definition append_launch (l : launch) (d : device) : device := mkDevice (d_storage d) (d_stream d ++ [l]) (d_outputs d) (d_results d).

Lemma eff_append l w : eff (with_gpu (append_launch l) w) = run_launch cf (d_storage (w_device w)) (eff w) l.
Proof. unfold eff. exact (run_launches_app _ _ _ [l]). Qed.

(** * Hits *)

(** A path whose expert was found in a slot. *)
Record hit : Type := mkHit { h_slot : Z; h_path : Z; h_expert : Z; h_input : Z }.

Definition hit_task (h : hit) : FlashNextCachedExpertTask := path_task cf (h_slot h) (h_input h) (h_path h).
Definition row_address (path : Z) : Z := cf_outputs cf + path * output_row_bytes.

Definition stream_tasks (w : world) : list FlashNextCachedExpertTask := concat (map launch_tasks (d_stream (w_device w))).

Record hits_ok (layer : Z) (hits : list hit) (w : world) : Prop := {
  ho_consumers : o_consumers (w_owner w) = map (fun h => (h_slot h, h_path h)) hits;
  ho_hit : Forall (fun h => h_slot h / cf_slots cf = layer /\
             exists e, (c_entries (w_shared w)).[h_slot h] = Some e /\ en_expert e = h_expert h) hits;
  ho_stream : Forall (fun t => exists h, h ∈ hits /\ t = hit_task h) (stream_tasks w);
}.

(** The output of a path that was computed with the expert it asked for, on its input. *)
Definition out_ok (layer expert input : Z) (o : option KernelOutput) : Prop :=
  exists out v, o = Some out /\ ko_input out = input /\ table_expert (cf_layers cf) layer expert = Ok v /\
    forall i, 0 <= i < kExpertPairBytes -> ko_weights out i = pair_byte host v i.

Lemma out_ok_agree layer expert input o o' : agree o o' -> out_ok layer expert input o -> out_ok layer expert input o'.
Proof.
  intros Ha (out & v & -> & Hi & Hv & Hw). destruct o' as [out'|]; [|done]. destruct Ha as [E Ha]. exists out', v. split; [done|].
  split; [congruence|]. split; [done|]. intros i Hb. rewrite <- Ha by done. by apply Hw.
Qed.

(** The slot of a hit is ready, and stays untouched by the others. *)
Lemma hit_ready layer hits w h : cache_ok cf host w -> hits_ok layer hits w -> h ∈ hits ->
  exists e, (c_entries (w_shared w)).[h_slot h] = Some e /\ en_state e = EReady /\ en_expert e = h_expert h /\ h_slot h / cf_slots cf = layer.
Proof.
  intros Hk [Hc Hh _] Hin. rewrite Forall_forall in Hh. destruct (Hh h Hin) as (Hl & e & He & Hx).
  destruct (k_consumers _ _ _ Hk (h_slot h) (h_path h)) as (_ & e' & He' & Hr); [rewrite Hc; apply list_elem_of_fmap; by exists h|].
  rewrite He in He'. injection He' as <-. by exists e.
Qed.

(** Computing with the slot of a hit gives what the path asked for. *)
Lemma hit_out_ok layer hits w h outs : cache_ok cf host w -> hits_ok layer hits w -> h ∈ hits ->
  out_ok layer (h_expert h) (h_input h) (run_task (d_storage (w_device w)) outs (hit_task h) (row_address (h_path h))).
Proof.
  intros Hk Hh Hin. destruct (hit_ready layer hits w h Hk Hh Hin) as (e & He & Hr & Hx & Hl). destruct (k_ready _ _ _ Hk _ e He Hr) as (v & Hv & Hc).
  unfold run_task. cbn [tk_output hit_task path_task]. unfold row_address. rewrite Z.eqb_refl. eexists. exists v. split; [done|]. split; [done|]. rewrite Hl, Hx in Hv.
  split; [done|]. intros i Hi.
  change (pair_byte (d_storage (w_device w)) (view cf (h_slot h)) i = pair_byte host v i). rewrite pair_byte_view by done. by apply Hc.
Qed.

(** * What the others can do *)
Record kept (w w' : world) : Prop := {
  kp_owner : w_owner w' = w_owner w;
  kp_pair : w_pair_outputs w' = w_pair_outputs w;
  kp_stream : exists k, d_stream (w_device w') = drop k (d_stream (w_device w));
  kp_outputs : forall a, agree (fst (eff w) a) (fst (eff w') a);
  kp_results : forall p, agree (snd (eff w) p) (snd (eff w') p);
}.

Lemma kept_refl w : kept w w.
Proof. split; [done|done|by exists 0%nat|done|done]. Qed.

Lemma kept_trans w1 w2 w3 : kept w1 w2 -> kept w2 w3 -> kept w1 w3.
Proof.
  intros [H1 H2 [k Hk] H4 H5] [G1 G2 [j Hj] G4 G5]. split; [congruence|congruence| |intros a; etrans; [apply H4|apply G4]|intros p; etrans; [apply H5|apply G5]].
  exists (k + j)%nat. by rewrite Hj, Hk, drop_drop.
Qed.

Context (Hlayers : forall s id, 0 <= s < 48 * cf_slots cf -> 0 <= id < 512 -> exists v, table_expert (cf_layers cf) (s / cf_slots cf) id = Ok v).

(** A step that leaves the stream, its memory and the leased entries alone. *)
Lemma hits_ok_entries layer hits w w' : cache_ok cf host w -> hits_ok layer hits w -> w_owner w' = w_owner w ->
  (forall s e, (c_entries (w_shared w)).[s] = Some e -> en_state e = EReady ->
     exists e', (c_entries (w_shared w')).[s] = Some e' /\ en_expert e' = en_expert e) ->
  (exists k, d_stream (w_device w') = drop k (d_stream (w_device w))) -> hits_ok layer hits w'.
Proof.
  intros Hk Hh Ho He [k Hs]. split.
  - rewrite Ho. by apply (ho_consumers _ _ _ Hh).
  - apply Forall_forall. intros h Hin. destruct (hit_ready layer hits w h Hk Hh Hin) as (e & Hx & Hr & Hexp & Hl). split; [done|].
    destruct (He _ e Hx Hr) as (e' & He' & Heq). exists e'. split; [done|congruence].
  - unfold stream_tasks. rewrite Hs. pose proof (ho_stream _ _ _ Hh) as Hst. unfold stream_tasks in Hst.
    rewrite <- (take_drop k (d_stream (w_device w))), map_app, concat_app in Hst. by apply Forall_app in Hst as [_ ?].
Qed.

Lemma env_step_kept e layer hits w : cache_ok cf host w -> hits_ok layer hits w ->
  hits_ok layer hits (env_step cf host e w) /\ kept w (env_step cf host e w).
Proof.
  intros Hk Hh. assert (Hsame : forall w', w_owner w' = w_owner w -> w_pair_outputs w' = w_pair_outputs w -> w_device w' = w_device w -> kept w w').
  { intros w' H1 H2 H3. split; [done|done|exists 0%nat; by rewrite H3|unfold eff; by rewrite H3|unfold eff; by rewrite H3]. }
  assert (Hstay : forall w', w_owner w' = w_owner w -> w_pair_outputs w' = w_pair_outputs w -> w_device w' = w_device w ->
            c_entries (w_shared w') = c_entries (w_shared w) -> hits_ok layer hits w' /\ kept w w').
  { intros w' H1 H2 H3 H4. split; [|by apply Hsame]. apply (hits_ok_entries layer hits w); [done|done|done| |exists 0%nat; by rewrite H3].
    intros s x Hx _. rewrite H4. by exists x. }
  assert (Hdev : hits_ok layer hits (with_gpu (run_stream cf 1) w) /\ kept w (with_gpu (run_stream cf 1) w)).
  { assert (Hs : exists k, d_stream (run_stream cf 1 (w_device w)) = drop k (d_stream (w_device w))) by (exists 1%nat; unfold run_stream; by destruct (run_launches _ _ _ _)).
    split; [apply (hits_ok_entries layer hits w); [done|done|done|intros s x Hx _; by exists x|exact Hs]|].
    split; [done|done|exact Hs|intros a; by rewrite eff_run_stream|intros p; by rewrite eff_run_stream]. }
  unfold env_step. destruct e, (w_worker w) as [|slot id|slot|] eqn:Hw; try exact Hdev; try (by apply Hstay).
  - destruct (c_queue (w_shared w)) as [|slot rest] eqn:Hq; [by apply Hstay|]. destruct ((c_entries (w_shared w)).[slot]) as [x|] eqn:Hx; by apply Hstay.
  - destruct (popped_source cf host Hlayers w slot id Hk Hw) as [src Hsrc]. rewrite Hsrc.
    set (w' := with_worker _ _). assert (Hst : forall t, t ∈ stream_tasks w -> same_weights (d_storage (w_device w)) (d_storage (w_device w')) t).
    { intros t Ht. pose proof (ho_stream _ _ _ Hh) as Hs. rewrite Forall_forall in Hs. destruct (Hs t Ht) as (h & Hin & ->).
      destruct (hit_ready layer hits w h Hk Hh Hin) as (e & He & Hr & _). intros o Hb.
      change (tk_expert (hit_task h)) with (view cf (h_slot h)). rewrite !pair_byte_view by done. cbn.
      rewrite (fill_slot_other cf host slot (h_slot h)); [done| |done]. intros E. rewrite <- E in He.
      destruct (k_uploading _ _ _ Hk slot) as (e' & He' & Hu); [rewrite Hw; set_solver|]. congruence. }
    split; [apply (hits_ok_entries layer hits w); [done|done|done|intros s x Hx _; by exists x|by exists 0%nat]|].
    destruct (run_launches_agree (d_storage (w_device w)) (d_storage (w_device w')) (d_stream (w_device w))
      (d_outputs (w_device w), d_results (w_device w)) (d_outputs (w_device w), d_results (w_device w))) as [H1 H2]; [by apply Forall_forall|done|done|].
    split; [done|done|by exists 0%nat|exact H1|exact H2].
  - split; [|by apply Hsame]. apply (hits_ok_entries layer hits w); [done|done|done| |by exists 0%nat]. intros s x Hx Hr. cbn. unfold publish_slot.
    destruct ((c_entries (w_shared w)).[slot]) as [y|] eqn:Hy; [|by exists x]. cbn. destruct (decide (s = slot)) as [->|Hne].
    + rewrite vget_vset_eq by (by eapply vget_Some_bounds). eexists. split; [done|]. cbn. congruence.
    + rewrite vget_vset_ne by done. by exists x.
Qed.

Lemma wp_others layer hits Q E w : cache_ok cf host w -> hits_ok layer hits w ->
  (forall w', cache_ok cf host w' -> hits_ok layer hits w' -> kept w w' -> Q tt w') -> wp (others cf host) Q E w.
Proof.
  intros Hk Hh HQ. unfold others. apply wp_modify. destruct (w_schedule w) as [|es rest]; [apply HQ; [done|done|apply kept_refl]|].
  assert (Hgen : forall es w0, cache_ok cf host w0 -> hits_ok layer hits w0 -> kept w w0 -> Q tt (foldl (fun w e => env_step cf host e w) w0 es)).
  { clear es. induction es as [|e es IH]; intros w0 Hk0 Hh0 Hw0; [by apply HQ|]. cbn. destruct (env_step_kept e layer hits w0 Hk0 Hh0) as [Hh1 Hw1].
    apply IH; [by apply env_step_ok|done|by eapply kept_trans]. }
  apply Hgen; [|destruct Hh; by split|destruct (kept_refl w); by split]. destruct Hk. by split.
Qed.

(** * Leases *)
Context (Hslots : 0 <= cf_slots cf <= 512) (Hpaths : 0 < cf_paths cf <= U32_MAX).

Lemma leased_cons s c l : leased s (c :: l) = (if decide (fst c = s) then 1 else 0) + leased s l.
Proof. unfold leased. rewrite filter_cons. destruct (decide (fst c = s)); [by rewrite vsize_cons|lia]. Qed.

Lemma leased_snoc s c l : leased s (l ++ [c]) = leased s l + (if decide (fst c = s) then 1 else 0).
Proof. unfold leased. rewrite filter_app, vsize_app, filter_cons. destruct (decide (fst c = s)); by rewrite ?vsize_cons. Qed.

Lemma leased_le s l : 0 <= leased s l <= vsize l.
Proof. unfold leased, vsize. pose proof (length_filter (fun c : Z * Z => fst c = s) l). lia. Qed.

(** Paths are used once, so there are no more leases than paths. *)
Lemma paths_bound (l : list (Z * Z)) : NoDup l.*2 -> (forall s p, (s, p) ∈ l -> 0 <= p < cf_paths cf) -> vsize l <= cf_paths cf.
Proof.
  intros Hnd Hin. assert (Hsub : l.*2 ⊆+ seqZ 0 (cf_paths cf)).
  { apply NoDup_submseteq; [done|]. intros p Hp. apply list_elem_of_fmap in Hp as ([s p'] & -> & Hsp). specialize (Hin s p' Hsp). apply elem_of_seqZ. cbn. lia. }
  apply submseteq_length in Hsub. rewrite length_fmap, length_seqZ in Hsub. unfold vsize. lia.
Qed.

Lemma consumers_bound w : cache_ok cf host w -> vsize (o_consumers (w_owner w)) <= cf_paths cf.
Proof. intros Hk. apply paths_bound; [apply (k_paths _ _ _ Hk)|]. intros s p Hin. by apply (k_consumers _ _ _ Hk s p). Qed.

Lemma NoDup_paths_snoc (l : list (Z * Z)) s p : NoDup l.*2 -> p ∉ l.*2 -> NoDup (l ++ [(s, p)]).*2.
Proof.
  intros Hnd Hp. rewrite fmap_app. apply NoDup_app. split; [done|]. split; [|apply NoDup_singleton]. intros q Hin Hin'.
  apply list_elem_of_singleton in Hin' as ->. done.
Qed.

(** A fresh path leaves room for one more. *)
Lemma consumers_room w path : cache_ok cf host w -> 0 <= path < cf_paths cf -> path ∉ (o_consumers (w_owner w)).*2 ->
  vsize (o_consumers (w_owner w)) + 1 <= cf_paths cf.
Proof.
  intros Hk Hp Hfresh. pose proof (paths_bound (o_consumers (w_owner w) ++ [(0, path)])) as H. rewrite vsize_app in H. apply H.
  - by apply NoDup_paths_snoc; [apply (k_paths _ _ _ Hk)|].
  - intros s p [Hin | Hin]%elem_of_app; [by apply (k_consumers _ _ _ Hk s p)|]. by apply list_elem_of_singleton in Hin as [= -> ->].
Qed.

(** An entry changes its leases, its epoch and nothing else. *)
Lemma relabel_ok w slot e e' c consumers : cache_ok cf host w -> (c_entries (w_shared w)).[slot] = Some e ->
  en_expert e' = en_expert e -> en_state e' = en_state e ->
  c_entries c = (c_entries (w_shared w)).[slot <- e'] -> c_queue c = c_queue (w_shared w) -> c_filling c = c_filling (w_shared w) ->
  c_failure c = c_failure (w_shared w) ->
  en_leases e' = leased slot consumers -> (forall s, s <> slot -> leased s consumers = leased s (o_consumers (w_owner w))) ->
  (forall s p, (s, p) ∈ consumers -> 0 <= p < cf_paths cf /\ exists x, (c_entries (w_shared w)).[s] = Some x /\ en_state x = EReady) -> NoDup consumers.*2 ->
  (consumers = [] -> d_stream (w_device w) = []) ->
  cache_ok cf host (with_owner (set_consumers consumers) (with_shared (fun _ => c) w)).
Proof.
  intros [Hsize Hentry Hdist Hnd Hup Hpop Hcop Hfill Hbound Hlease Hcons Hp Hready Hfail Hdesc Hquiet Herr Hstop Hprog] He Hx Hst Ec Eq Ef Efa Hl Hother Hcons' Hnd' Hq'.
  pose proof (vget_Some_bounds _ _ _ He) as Hb.
  assert (Hget : forall s x, (c_entries c).[s] = Some x -> exists y, (c_entries (w_shared w)).[s] = Some y /\ en_expert x = en_expert y /\ en_state x = en_state y).
  { intros s x. rewrite Ec. destruct (decide (s = slot)) as [->|Hne]; [rewrite vget_vset_eq by done; intros [= <-]; by exists e|].
    rewrite vget_vset_ne by done. intros Hs. by exists x. }
  assert (Hput : forall s y, (c_entries (w_shared w)).[s] = Some y -> exists x, (c_entries c).[s] = Some x /\ en_expert x = en_expert y /\ en_state x = en_state y).
  { intros s y Hy. rewrite Ec. destruct (decide (s = slot)) as [->|Hne]; [rewrite vget_vset_eq by done; exists e'; by rewrite He in Hy; injection Hy as <-|].
    rewrite vget_vset_ne by done. by exists y. }
  split; cbn; rewrite ?Eq, ?Ef, ?Efa; try done.
  - by rewrite Ec, vsize_vset.
  - intros s x (y & Hy & E1 & E2)%Hget. specialize (Hentry s y Hy). unfold entry_ok in *. by rewrite E1, E2.
  - intros i j a b' (y & Hy & E1 & _)%Hget (z & Hz & E2 & _)%Hget Hne Hd Hab. rewrite E1 in *. eapply (Hdist i j y z); [done|done|done|done|congruence].
  - intros s Hs. destruct (Hup s Hs) as (y & (x & Hx' & _ & E2)%Hput & Hu). exists x. split; [done|congruence].
  - intros s id Hw. destruct (Hpop s id Hw) as (y & (x & Hx' & E1 & _)%Hput & Hu). exists x. split; [done|congruence].
  - intros s Hw. destruct (Hcop s Hw) as (y & (x & Hx' & E1 & _)%Hput & Hc). exists x. split; [done|]. by rewrite E1.
  - unfold outstanding in *. by rewrite Eq, Ef.
  - intros s x Hs. rewrite Ec in Hs. destruct (decide (s = slot)) as [->|Hne].
    + rewrite vget_vset_eq in Hs by done. by injection Hs as <-.
    + rewrite vget_vset_ne in Hs by done. rewrite Hother by done. by apply Hlease.
  - intros s p Hsp. destruct (Hcons' s p Hsp) as (Hpp & y & (x & Hx' & _ & E2)%Hput & Hu). split; [done|]. exists x. split; [done|congruence].
  - intros s x (y & Hy & E1 & E2)%Hget Hr. rewrite E1. apply (Hready s y Hy). congruence.
  - intros Hw s x (y & Hy & _ & E2)%Hget Hu. apply (Hprog Hw s y Hy). congruence.
Qed.

Lemma with_shared_const f w : with_shared f w = with_shared (fun _ => f (w_shared w)) w.
Proof. done. Qed.

Lemma lease_ok w slot path e : cache_ok cf host w -> (c_entries (w_shared w)).[slot] = Some e -> en_state e = EReady -> 0 <= path < cf_paths cf ->
  path ∉ (o_consumers (w_owner w)).*2 ->
  cache_ok cf host (with_owner (fun o => set_consumers (o_consumers o ++ [(slot, path)]) o) (with_shared (lease slot) w)).
Proof.
  intros Hk He Hr Hp Hfresh. rewrite with_shared_const. pose proof (consumers_room w path Hk Hp Hfresh) as Hcb. pose proof (leased_le slot (o_consumers (w_owner w))) as Hle.
  set (e' := mkEntry (en_expert e) (en_state e) (wrap64 (c_epoch (w_shared w) + 1)) (wrap32 (en_leases e + 1))).
  assert (El : exists n s, lease slot (w_shared w) =
    mkShared ((c_entries (w_shared w)).[slot <- e']) (c_queue (w_shared w)) (c_filling (w_shared w)) (c_failure (w_shared w)) n s).
  { unfold lease. rewrite He. by eexists; eexists. }
  destruct El as (n & st & El).
  apply (relabel_ok w slot e e' _ (o_consumers (w_owner w) ++ [(slot, path)])); rewrite ?El; try done.
  - cbn. rewrite (k_leases _ _ _ Hk slot e He), leased_snoc. cbn. rewrite decide_True by done. apply wrap32_small. lia.
  - intros s Hs. rewrite leased_snoc. cbn. rewrite decide_False by done. lia.
  - intros s p [Hin | Hin]%elem_of_app; [by apply (k_consumers _ _ _ Hk)|]. apply list_elem_of_singleton in Hin as [= -> ->]. split; [done|by exists e].
  - by apply NoDup_paths_snoc; [apply (k_paths _ _ _ Hk)|].
  - intros E. by destruct (o_consumers (w_owner w)).
Qed.

Lemma release_ok w slot path rest : d_stream (w_device w) = [] -> cache_ok cf host (with_owner (set_consumers ((slot, path) :: rest)) w) ->
  cache_ok cf host (with_owner (set_consumers rest) (with_shared (release slot) w)).
Proof.
  intros Hstream Hk. destruct (k_consumers _ _ _ Hk slot path) as (_ & e & He & Hr); [cbn; set_solver|]. cbn in He.
  pose proof (consumers_bound _ Hk) as Hcb. cbn in Hcb. rewrite vsize_cons in Hcb. pose proof (leased_le slot rest) as Hle.
  set (e' := mkEntry (en_expert e) (en_state e) (en_epoch e) (wrap32 (en_leases e - 1))).
  assert (El : release slot (w_shared w) = set_entries ((c_entries (w_shared w)).[slot <- e']) (w_shared w)) by (unfold release; by rewrite He).
  assert (Hgoal : cache_ok cf host (with_owner (set_consumers rest) (with_shared (fun _ => release slot (w_shared w)) (with_owner (set_consumers ((slot, path) :: rest)) w)))).
  { apply (relabel_ok _ slot e e' _ rest Hk); rewrite ?El; try done.
    - cbn. rewrite (k_leases _ _ _ Hk slot e He). cbn. rewrite leased_cons. cbn. rewrite decide_True by done. replace (1 + leased slot rest - 1) with (leased slot rest) by lia. apply wrap32_small. lia.
    - intros s Hs. cbn. rewrite leased_cons. cbn. rewrite decide_False by done. lia.
    - intros s p Hin. apply (k_consumers _ _ _ Hk). cbn. set_solver.
    - pose proof (k_paths _ _ _ Hk) as Hnd. cbn in Hnd. by apply NoDup_cons in Hnd as [_ ?]. }
  exact Hgoal.
Qed.

(** * Looking an expert up *)
Lemma find_ready_ok entries expert n i : 0 <= i -> i + Z.of_nat n <= vsize entries ->
  exists r, find_ready entries expert n i = Ok r /\
    match r with
    | Some j => i <= j < i + Z.of_nat n /\ exists e, entries.[j] = Some e /\ en_expert e = expert /\ en_state e = EReady
    | None => True
    end.
Proof.
  revert i. induction n as [|n IH]; intros i Hi Hn; [by exists None|]. cbn [find_ready]. unfold slot_at.
  destruct (vget_is_Some entries i) as [e He]; [lia|]. rewrite He. cbn [mbind result_bind].
  destruct ((en_expert e =? expert) && bool_decide (en_state e = EReady)) eqn:Ec.
  - simp_bool. exists (Some i). split; [done|]. split; [lia|]. exists e. split; [done|]. split; [done|]. by eapply bool_decide_eq_true_1.
  - destruct (IH (i + 1) ltac:(lia) ltac:(lia)) as (r & E & Hr). exists r. split; [done|]. destruct r as [j|]; [|done]. destruct Hr as [Hj Hr]. split; [lia|done].
Qed.

(** The slots of a layer. *)
Lemma layer_slots w layer : cache_ok cf host w -> 0 <= layer < 48 ->
  0 <= layer * cf_slots cf /\ layer * cf_slots cf + Z.of_nat (Z.to_nat (cf_slots cf)) <= vsize (c_entries (w_shared w)).
Proof. intros Hk Hl. rewrite (k_size _ _ _ Hk), Z2Nat.id by lia. nia. Qed.

Lemma layer_of layer j : layer * cf_slots cf <= j < layer * cf_slots cf + Z.of_nat (Z.to_nat (cf_slots cf)) -> j / cf_slots cf = layer.
Proof. rewrite Z2Nat.id by lia. intros Hj. symmetry. apply (Z.div_unique_pos _ _ _ (j - layer * cf_slots cf)); lia. Qed.

(** What is owed to the paths that were hit, before the download. *)
Definition pending (layer : Z) (hits : list hit) (w : world) : Prop :=
  if o_batching_layer (w_owner w) then
    d_stream (w_device w) = [] /\ forall k h, hits !! k = Some h -> o_descriptors (w_owner w) !! k = Some (hit_task h)
  else forall h, h ∈ hits -> out_ok layer (h_expert h) (h_input h) (fst (eff w) (row_address (h_path h))).

Lemma pending_kept layer hits w w' : kept w w' -> pending layer hits w -> pending layer hits w'.
Proof.
  intros [Ho _ [k Hk] Hout _] Hp. unfold pending in *. rewrite Ho. destruct (o_batching_layer (w_owner w)).
  - destruct Hp as [Hs Hd]. rewrite Hk, Hs. split; [by destruct k|done].
  - intros h Hh. eapply out_ok_agree; [apply Hout|by apply Hp].
Qed.

Lemma count_stat_ok name w : cache_ok cf host w -> cache_ok cf host (with_shared (count_stat name) w).
Proof. intros []. by split. Qed.

Lemma wp_check_failure Q E w : cache_ok cf host w -> (c_failure (w_shared w) = None -> Q tt w) ->
  (c_failure (w_shared w) = Some RuntimeError -> E RuntimeError w) -> wp check_failure Q E w.
Proof.
  intros Hk HQ HE. unfold check_failure. wp_step. wp_step. destruct (c_failure (w_shared w)) as [e|] eqn:Ef; [|wp_step; by apply HQ].
  pose proof (k_error _ _ _ Hk e Ef) as ->. apply wp_throw. by apply HE.
Qed.

(** How a lookup can fail. *)
Definition call_error (expert path : Z) (e : error) (w : world) : Prop :=
  cache_ok cf host w /\
  (e = InvalidArgument /\ ~ 0 <= expert < 512 \/ e = OutOfRange /\ cf_paths cf <= path \/ e = RuntimeError /\ c_failure (w_shared w) = Some RuntimeError).

(** After the lease of a slot, before the kernel is queued. *)
Lemma lease_hits layer hits w slot path expert input e : cache_ok cf host w -> hits_ok layer hits w -> (c_entries (w_shared w)).[slot] = Some e ->
  en_expert e = expert -> slot / cf_slots cf = layer ->
  hits_ok layer (hits ++ [mkHit slot path expert input]) (with_owner (fun o => set_consumers (o_consumers o ++ [(slot, path)]) o) (with_shared (lease slot) w)).
Proof.
  intros Hk [Hc Hh Hs] He Hx Hl. pose proof (vget_Some_bounds _ _ _ He) as Hb. split; cbn.
  - by rewrite Hc, map_app.
  - assert (Hkeep : forall s x, (c_entries (w_shared w)).[s] = Some x -> exists y, (c_entries (lease slot (w_shared w))).[s] = Some y /\ en_expert y = en_expert x).
    { intros s x Hs'. unfold lease. rewrite He. cbn. destruct (decide (s = slot)) as [->|Hne]; [rewrite vget_vset_eq by done|rewrite vget_vset_ne by done; by exists x].
      eexists. split; [done|]. cbn. congruence. }
    apply Forall_app. split; [|apply Forall_singleton; cbn; split; [done|]; destruct (Hkeep slot e He) as (y & Hy & E); exists y; split; [done|congruence]].
    eapply Forall_impl; [exact Hh|]. cbn. intros h (Hhl & x & Hx' & Ex). split; [done|]. destruct (Hkeep _ x Hx') as (y & Hy & E). exists y. split; [done|congruence].
  - change (stream_tasks (with_owner _ _)) with (stream_tasks w). eapply Forall_impl; [exact Hs|]. cbn. intros t (h & Hin & ->). exists h. set_solver.
Qed.

(** A batched hit is described; a scalar one is launched. *)
Definition hit_done (layer : Z) (hits : list hit) (w : world) (found : bool) (w' : world) : Prop :=
  found = true /\ cache_ok cf host w' /\ w_pair_outputs w' = w_pair_outputs w /\ hits_ok layer hits w' /\ pending layer hits w'.

Lemma wp_describe layer hits h E w : cache_ok cf host w -> hits_ok layer (hits ++ [h]) w -> pending layer hits w -> o_batching_layer (w_owner w) = true ->
  cf_slots cf <> 0 -> vsize hits + 1 <= cf_paths cf ->
  wp (let index := vsize (o_consumers (w_owner w)) - 1 in
      _ ← mthrow_if (vsize (o_descriptors (w_owner w)) <=? index) Undefined;
      _ ← mmodify (with_owner (fun o => set_descriptors ((o_descriptors o).[index <- hit_task h]) o));
      mret true) (hit_done layer (hits ++ [h]) w) E w.
Proof.
  intros Hk Hh Hp Hb Hne Hroom. unfold pending in Hp. rewrite Hb in Hp. destruct Hp as [Hs Hd]. pose proof (k_descriptors _ _ _ Hk Hne) as Hsz.
  assert (Hlen : vsize (o_consumers (w_owner w)) - 1 = vsize hits).
  { rewrite (ho_consumers _ _ _ Hh). unfold vsize. rewrite length_map, length_app. cbn. lia. }
  cbv zeta. rewrite Hlen. wp_step. apply wp_throw_if; intros Hi; simp_bool; [|lia]. wp_step. wp_step. wp_step. unfold hit_done. split; [done|].
  split; [destruct Hk; split; try done; cbn; intros; by rewrite vsize_vset|]. split; [done|]. split; [destruct Hh; by split|].
  unfold pending. cbn. rewrite Hb. split; [done|]. intros k h' Hk'. unfold vset. rewrite (proj2 (Z.leb_le 0 (vsize hits))) by (unfold vsize; lia).
  unfold vsize. rewrite Nat2Z.id. apply lookup_app_Some in Hk' as [Hk' | [Hge Hk']].
  - rewrite list_lookup_insert_ne; [by apply Hd|]. apply lookup_lt_Some in Hk'. lia.
  - apply list_lookup_singleton_Some in Hk' as [Hk' <-]. replace k with (length hits) by lia. apply list_lookup_insert_eq. unfold vsize in *. lia.
Qed.

Lemma wp_launch_hit layer hits h E w : cache_ok cf host w -> hits_ok layer (hits ++ [h]) w -> pending layer hits w -> o_batching_layer (w_owner w) = false ->
  h_path h ∉ map h_path hits ->
  wp (_ ← enqueue_launch (LScalar (hit_task h)); mret true) (hit_done layer (hits ++ [h]) w) E w.
Proof.
  intros Hk Hh Hp Hb Hfresh. unfold pending in Hp. rewrite Hb in Hp. wp_step. unfold enqueue_launch. wp_step. wp_step.
  change (hit_done layer (hits ++ [h]) w true (with_gpu (append_launch (LScalar (hit_task h))) w)). set (w2 := with_gpu _ w).
  assert (Hh2 : hits_ok layer (hits ++ [h]) w2).
  { destruct Hh as [Hc1 Hh1 Hs1]. split; [done|done|]. unfold stream_tasks, w2. cbn. rewrite map_app, concat_app. apply Forall_app. split; [exact Hs1|].
    cbn. apply Forall_singleton. exists h. split; [set_solver|done]. }
  assert (Hk2 : cache_ok cf host w2).
  { pose proof (ho_consumers _ _ _ Hh) as Hc. destruct Hk. split; try done. cbn. intros Enil. rewrite Hc in Enil. by destruct hits. }
  split; [done|]. split; [done|]. split; [done|]. split; [done|].
  unfold pending. change (o_batching_layer (w_owner w2)) with (o_batching_layer (w_owner w)). rewrite Hb.
  assert (Heff : fst (eff w2) = run_task (d_storage (w_device w2)) (fst (eff w)) (hit_task h)) by (unfold w2; rewrite eff_append; by destruct (eff w)).
  intros h' [Hin | Hin]%elem_of_app; rewrite Heff; [|apply list_elem_of_singleton in Hin as ->; apply (hit_out_ok layer (hits ++ [h]) w2); [done|done|set_solver]].
  unfold run_task. destruct (Z.eqb_spec (row_address (h_path h')) (tk_output (hit_task h))) as [E0|E0]; [|by apply Hp]. exfalso. apply Hfresh.
  apply list_elem_of_fmap. exists h'. split; [|done]. unfold row_address in E0. cbn in E0. unfold output_row_bytes in E0. lia.
Qed.

Lemma wp_execute layer expert input path hits w : cache_ok cf host w -> hits_ok layer hits w -> pending layer hits w -> 0 <= layer < 48 -> 0 <= path ->
  path ∉ map h_path hits ->
  wp (execute cf layer expert input path) (fun found w' => cache_ok cf host w' /\ w_pair_outputs w' = w_pair_outputs w /\ 0 <= expert < 512 /\
      if found then path < cf_paths cf /\ exists s, hits_ok layer (hits ++ [mkHit s path expert input]) w' /\ pending layer (hits ++ [mkHit s path expert input]) w'
      else hits_ok layer hits w' /\ pending layer hits w') (call_error expert path) w.
Proof.
  intros Hk Hh Hp Hl Hpath Hfresh. unfold execute. wp_step. apply wp_check_failure; [done| |]; [|intros Hf; split; [done|]; by right; right].
  intros Hnone. wp_step. apply wp_throw_if; unfold valid_key; intros Hkey; simp_bool; [|split; [done|]; left; split; [done|lia]].
  wp_step. wp_step. wp_step. destruct (layer_slots w layer Hk Hl) as [Hlo Hend].
  destruct (find_ready_ok (c_entries (w_shared w)) expert _ _ Hlo Hend) as (r & -> & Hr). apply wp_lift; [|done]. intros ? [= <-].
  destruct r as [slot|].
  2: { wp_step. wp_step. wp_step. split; [by apply count_stat_ok|]. split; [done|]. split; [lia|]. split; [destruct Hh; by split|exact Hp]. }
  destruct Hr as (Hslot & e & He & Hx & Hst). apply layer_of in Hslot. wp_step. apply wp_throw_if; unfold outputs_bytes; intros Hcap; simp_bool;
    [|split; [done|]; right; left; split; [done|lia]].
  assert (Hfresh' : path ∉ (o_consumers (w_owner w)).*2).
  { rewrite (ho_consumers _ _ _ Hh). intros Hin. apply Hfresh. apply list_elem_of_fmap in Hin as (c & -> & Hc). apply list_elem_of_fmap in Hc as (h & -> & Hc).
    apply list_elem_of_fmap. by exists h. }
  pose proof (consumers_room w path Hk ltac:(lia) Hfresh') as Hroom. pose proof (lease_ok w slot path e Hk He Hst ltac:(lia) Hfresh') as Hk1.
  pose proof (lease_hits layer hits w slot path expert input e Hk Hh He Hx Hslot) as Hh1. wp_step. wp_step. set (w1 := with_owner _ _) in *.
  wp_step. wp_step. assert (Hlen : vsize (o_consumers (w_owner w)) = vsize hits) by (rewrite (ho_consumers _ _ _ Hh); unfold vsize; by rewrite length_map).
  assert (Hne : cf_slots cf <> 0) by (pose proof (vget_Some_bounds _ _ _ He) as Hbd; rewrite (k_size _ _ _ Hk) in Hbd; lia).
  eapply (wp_conseq _ (hit_done layer (hits ++ [mkHit slot path expert input]) w1)); [| |done].
  - destruct (o_batching_layer (w_owner w1)) eqn:Hb; 
    [apply (wp_describe layer hits (mkHit slot path expert input)); [done|done|exact Hp|done|done|lia]|
     apply (wp_launch_hit layer hits (mkHit slot path expert input)); [done|done|exact Hp|done|done]].
  - intros found w2 (-> & Hk2 & Hpo & Hh2 & Hp2). split; [done|]. split; [done|]. split; [lia|]. split; [lia|]. by exists slot.
Qed.
End Effects.
