(* ===== verification/ExpertGroups.v ===== *)
(** The grouping of hits by expert in [begin_download]: sorted tasks are cut, in place, into groups of two to four tasks of one
    expert and the tasks that are left alone. *)
From stdpp Require Import strings gmap sorting.
From S2P Require Import Prelude StorageLayouts ArtifactBinder ArtifactLoad ExpertBank ExpertCache.

Section Groups.
Context (cf : config) (arr : list FlashNextCachedExpertTask) (count : Z).
Context (Hcount : 0 <= count <= vsize arr) (Hpaths : count <= cf_paths cf).

(** A group the kernel accepts. *)
Definition group_ok (g : list FlashNextCachedExpertTask) : Prop := (2 <= length g <= 4)%nat /\ exists c, Forall (fun t => codes_of t = c) g.

(** Everything in front of [i] is in a group or among the singles, which fill the front of the array. *)
Record grouped (i : Z) (g : grouping) : Prop := {
  gd_range : 0 <= gp_singles g <= i /\ i <= count;
  gd_rest : forall j, i <= j -> (gp_tasks g).[j] = arr.[j];
  gd_size : vsize (gp_tasks g) = vsize arr;
  gd_groups : Forall group_ok (gp_groups g);
  gd_count : 2 * vsize (gp_groups g) <= i;
  gd_perm : concat (gp_groups g) ++ mem_slice (gp_tasks g) 0 (gp_singles g) ≡ₚ mem_slice arr 0 i;
}.

Lemma slice_snoc {A} (l : list A) n x : 0 <= n -> l.[n] = Some x -> mem_slice l 0 (n + 1) = mem_slice l 0 n ++ [x].
Proof.
  intros Hn Hx. unfold mem_slice. cbn [Z.to_nat drop]. rewrite Z2Nat.inj_add by lia. cbn. rewrite Nat.add_1_r. apply take_S_r.
  unfold vget in Hx. by rewrite (proj2 (Z.leb_le 0 n) Hn) in Hx.
Qed.

Lemma slice_app {A} (l : list A) i n : 0 <= i -> 0 <= n -> mem_slice l 0 (i + n) = mem_slice l 0 i ++ mem_slice l i n.
Proof. intros Hi Hn. unfold mem_slice. cbn [Z.to_nat drop]. rewrite Z2Nat.inj_add by lia. by rewrite take_take_drop. Qed.

Lemma slice_vset {A} (l : list A) n x : 0 <= n < vsize l -> mem_slice (l.[n <- x]) 0 (n + 1) = mem_slice l 0 n ++ [x].
Proof.
  intros Hn. rewrite (slice_snoc _ n x) by (lia || by apply vget_vset_eq). f_equal. unfold mem_slice, vset. cbn [Z.to_nat drop].
  rewrite (proj2 (Z.leb_le 0 n)) by lia. apply take_insert_ge. lia.
Qed.

Lemma run_end_ok fuel codes end_ : 0 <= end_ <= count -> count - end_ <= Z.of_nat fuel ->
  forall ts, (forall j, end_ <= j -> ts.[j] = arr.[j]) ->
  exists e, run_end fuel ts count codes end_ = Ok e /\ end_ <= e <= count /\ forall j t, end_ <= j < e -> arr.[j] = Some t -> codes_of t = codes.
Proof.
  revert end_. induction fuel as [|fuel IH]; intros end_ He Hf ts Hts; cbn [run_end].
  { rewrite (proj2 (Z.ltb_ge end_ count)) by lia. exists end_. split; [done|]. split; [lia|]. intros j t Hj. lia. }
  destruct (Z.ltb_spec end_ count) as [Hlt|Hge]; [|exists end_; split; [done|]; split; [lia|]; intros j t Hj; lia].
  unfold task_at. rewrite (Hts end_) by lia. destruct (vget_is_Some arr end_) as [t Ht]; [lia|]. rewrite Ht. cbn [mbind result_bind].
  destruct (Z.eqb_spec (codes_of t) codes) as [Ec|Ec]; [|exists end_; split; [done|]; split; [lia|]; intros j t' Hj; lia].
  destruct (IH (end_ + 1) ltac:(lia) ltac:(lia) ts) as (e & E & Hb & Hs); [intros j Hj; apply Hts; lia|]. exists e. split; [done|]. split; [lia|].
  intros j t' Hj Ht'. destruct (decide (j = end_)) as [->|Hne]; [congruence|]. apply (Hs j); [lia|done].
Qed.

(** One single. *)
Lemma grouped_single i g t : grouped i g -> i < count -> arr.[i] = Some t ->
  grouped (i + 1) (mkGrouping ((gp_tasks g).[gp_singles g <- t]) (gp_groups g) (gp_singles g + 1)).
Proof.
  intros [Hr Hrest Hsz Hg Hc Hp] Hi Ht. split; cbn; [lia| |by rewrite vsize_vset|done|lia|].
  - intros j Hj. rewrite vget_vset_ne by lia. apply Hrest. lia.
  - rewrite slice_vset by lia. rewrite (slice_snoc arr i t) by (lia || done). rewrite app_assoc, Hp. done.
Qed.

Lemma slice_same (ts : list FlashNextCachedExpertTask) i n : vsize ts = vsize arr -> (forall j, i <= j -> ts.[j] = arr.[j]) -> 0 <= i -> mem_slice ts i n = mem_slice arr i n.
Proof.
  intros Hsz H Hi. unfold mem_slice. f_equal. apply list_eq. intros k. rewrite !lookup_drop. specialize (H (i + Z.of_nat k) ltac:(lia)).
  unfold vget in H. rewrite (proj2 (Z.leb_le 0 (i + Z.of_nat k))) in H by lia. by replace (Z.to_nat (i + Z.of_nat k)) with (Z.to_nat i + k)%nat in H by lia.
Qed.

(** One group. *)
Lemma grouped_group i n codes g : grouped i g -> 2 <= n <= 4 -> i + n <= count -> (forall j t, i <= j < i + n -> arr.[j] = Some t -> codes_of t = codes) ->
  grouped (i + n) (mkGrouping (gp_tasks g) (gp_groups g ++ [mem_slice (gp_tasks g) i n]) (gp_singles g)).
Proof.
  intros [Hr Hrest Hsz Hg Hc Hp] Hn Hi Hcodes. rewrite (slice_same _ i n Hsz Hrest) by lia. split; cbn; [lia| |done| | |].
  - intros j Hj. apply Hrest. lia.
  - apply Forall_app. split; [done|]. apply Forall_singleton. split.
    + unfold mem_slice, vsize in *. rewrite length_take, length_drop. lia.
    + exists codes. apply Forall_forall. intros t [k Hk]%list_elem_of_lookup. unfold mem_slice in Hk. apply lookup_take_Some in Hk as [Hk Hkn]. rewrite lookup_drop in Hk.
      apply (Hcodes (i + Z.of_nat k)); [lia|]. unfold vget. rewrite (proj2 (Z.leb_le 0 _)) by lia. by replace (Z.to_nat (i + Z.of_nat k)) with (Z.to_nat i + k)%nat by lia.
  - rewrite vsize_app. unfold vsize at 2. cbn. lia.
  - rewrite (slice_app arr i n) by lia. rewrite concat_app. cbn [concat]. rewrite app_nil_r, <- app_assoc. rewrite (Permutation_app_comm (mem_slice arr i n)).
    by rewrite app_assoc, Hp.
Qed.

Lemma emit_run_ok fuel codes end_ i g : grouped i g -> i <= end_ <= count -> end_ - i <= Z.of_nat fuel ->
  (forall j t, i <= j < end_ -> arr.[j] = Some t -> codes_of t = codes) ->
  exists g', emit_run cf fuel end_ i g = Ok g' /\ grouped end_ g'.
Proof.
  revert i g. induction fuel as [|fuel IH]; intros i g Hg Hi Hf Hcodes; cbn [emit_run].
  { rewrite (proj2 (Z.ltb_ge i end_)) by lia. exists g. split; [done|]. by replace end_ with i by lia. }
  destruct (Z.ltb_spec i end_) as [Hlt|Hge]; [|exists g; split; [done|]; by replace end_ with i by lia]. cbv zeta.
  assert (Hi0 : 0 <= i) by (destruct (gd_range _ _ Hg); lia). destruct (vget_is_Some arr i) as [t Ht]; [lia|].
  destruct (Z.eqb_spec (Z.min 4 (end_ - i)) 1) as [E1|E1].
  - unfold task_at. rewrite (gd_rest _ _ Hg i) by lia. rewrite Ht. cbn [mbind result_bind]. apply IH; [by apply grouped_single; [|lia|]|lia|lia|].
    intros j t' Hj. apply Hcodes. lia.
  - pose proof (gd_count _ _ Hg) as Hc. rewrite (proj2 (Z.leb_gt (cf_paths cf) (vsize (gp_groups g)))) by lia. cbn [throw_if mbind result_bind].
    apply IH; [apply (grouped_group i _ codes); [done|lia|lia|]|lia|lia|]; intros j t' Hj; apply Hcodes; lia.
Qed.

Lemma group_tasks_ok fuel i g : grouped i g -> count - i <= Z.of_nat fuel -> exists g', group_tasks cf fuel count i g = Ok g' /\ grouped count g'.
Proof.
  revert i g. induction fuel as [|fuel IH]; intros i g Hg Hf; pose proof (gd_range _ _ Hg) as Hr; cbn [group_tasks].
  { rewrite (proj2 (Z.ltb_ge i count)) by lia. exists g. split; [done|]. by replace count with i by lia. }
  destruct (Z.ltb_spec i count) as [Hlt|Hge]; [|exists g; split; [done|]; by replace count with i by lia].
  destruct (vget_is_Some arr i) as [t Ht]; [lia|]. unfold task_at. rewrite (gd_rest _ _ Hg i), Ht by lia. cbn [mbind result_bind].
  destruct (run_end_ok (Z.to_nat count) (codes_of t) (i + 1) ltac:(lia) ltac:(lia) (gp_tasks g)) as (e & -> & He & Hcodes).
  { intros j Hj. apply (gd_rest _ _ Hg). lia. }
  cbn [mbind result_bind]. destruct (emit_run_ok (Z.to_nat count) (codes_of t) e i g Hg ltac:(lia) ltac:(lia)) as (g1 & -> & Hg1).
  { intros j t' Hj Ht'. destruct (decide (j = i)) as [->|Hne]; [congruence|]. apply (Hcodes j); [lia|done]. }
  cbn [mbind result_bind]. apply IH; [done|lia].
Qed.

(** The whole pass. *)
Lemma grouping_ok : exists g, group_tasks cf (Z.to_nat count) count 0 (mkGrouping arr [] 0) = Ok g /\ grouped count g.
Proof. apply group_tasks_ok; [|lia]. split; cbn; [lia|done|done|apply Forall_nil_2|done|done]. Qed.
End Groups.
