(* ===== verification/ExpertCacheLayer.v ===== *)
(** A layer on the expert cache: download, delivery, admission, and waiting for the worker. *)
From stdpp Require Import strings gmap sorting.
From S2P Require Import Prelude StorageLayouts ArtifactBinder ArtifactLoad ExpertBank ExpertCache ExpertCacheInv ExpertCacheRun ExpertGroups.

Section Layer.
Context (cf : config) (host : Z -> Z).
Context (Hlayers : forall s id, 0 <= s < 48 * cf_slots cf -> 0 <= id < 512 -> exists v, table_expert (cf_layers cf) (s / cf_slots cf) id = Ok v).
Context (Hslots : 0 <= cf_slots cf <= 512) (Hpaths : 0 < cf_paths cf <= U32_MAX).

(** * Download *)
Lemma run_tasks_other st ts outs a : a ∉ map tk_output ts -> foldl (run_task st) outs ts a = outs a.
Proof.
  revert outs. induction ts as [|t ts IH]; intros outs Ha; [done|]. cbn. rewrite IH by set_solver. unfold run_task.
  rewrite (proj2 (Z.eqb_neq a (tk_output t))); [done|]. set_solver.
Qed.

Lemma run_tasks_outputs st ts outs t : NoDup (map tk_output ts) -> t ∈ ts ->
  foldl (run_task st) outs ts (tk_output t) = Some (mkOutput (pair_byte st (tk_expert t)) (tk_input t)).
Proof.
  revert outs. induction ts as [|x ts IH]; intros outs Hnd Hin; [set_solver|]. apply NoDup_cons in Hnd as [Hx Hnd]. cbn.
  apply elem_of_cons in Hin as [-> | Hin]; [|by apply IH]. rewrite run_tasks_other by done. unfold run_task. by rewrite Z.eqb_refl.
Qed.

Lemma run_launches_outputs st ls o r : fst (run_launches cf st (o, r) ls) = foldl (run_task st) o (concat (map launch_tasks ls)).
Proof.
  revert o r. induction ls as [|l ls IH]; intros o r; [done|]. cbn [map concat]. rewrite foldl_app.
  change (run_launches cf st (o, r) (l :: ls)) with (run_launches cf st (run_launch cf st (o, r) l) ls). destruct l; apply IH.
Qed.

(** The paths of all hits are in the results. *)
Definition downloaded (layer : Z) (hits : list hit) (w : world) : Prop :=
  forall h, h ∈ hits -> out_ok cf host layer (h_expert h) (h_input h) (snd (eff cf w) (h_path h)).

Lemma downloaded_kept layer hits w w' : kept cf w w' -> downloaded layer hits w -> downloaded layer hits w'.
Proof. intros [_ _ _ _ Hr] Hd h Hh. eapply out_ok_agree; [apply Hr|by apply Hd]. Qed.

(** The state changed only where the inference thread keeps its own things. *)
Lemma cache_ok_frame w w' : cache_ok cf host w -> w_shared w' = w_shared w -> w_worker w' = w_worker w -> o_consumers (w_owner w') = o_consumers (w_owner w) ->
  d_storage (w_device w') = d_storage (w_device w) -> vsize (o_descriptors (w_owner w')) = vsize (o_descriptors (w_owner w)) ->
  (o_consumers (w_owner w) = [] -> d_stream (w_device w') = []) -> cache_ok cf host w'.
Proof. intros [] Es Ew Ec Est Ed Eq. split; rewrite ?Es, ?Ew, ?Ec, ?Est, ?Ed; done. Qed.

(** A queued download of rows that are, or will be, in place. *)
Lemma download_ok layer hits w n : (forall h, h ∈ hits -> 0 <= h_path h < n) ->
  (forall h, h ∈ hits -> out_ok cf host layer (h_expert h) (h_input h) (fst (eff cf w) (row_address cf (h_path h)))) ->
  downloaded layer hits (with_gpu (append_launch (LDownload (n * 2560 * 4))) w).
Proof.
  intros Hn Ho h Hh. rewrite eff_append. specialize (Hn h Hh). specialize (Ho h Hh). destruct (eff cf w) as [o r]. cbn [run_launch snd fst] in *.
  rewrite (proj2 (Z.leb_le 0 (h_path h))), (proj2 (Z.leb_le _ (n * 2560 * 4))) by (unfold output_row_bytes; lia). exact Ho.
Qed.

Lemma hits_distinct layer hits w : cache_ok cf host w -> hits_ok cf layer hits w -> NoDup (map tk_output (map (hit_task cf) hits)).
Proof.
  intros Hk Hh. pose proof (k_paths _ _ _ Hk) as Hnd. rewrite (ho_consumers _ _ _ _ Hh) in Hnd. rewrite map_map.
  assert (E : (map (fun h => (h_slot h, h_path h)) hits).*2 = map h_path hits) by (clear; induction hits as [|h l IH]; [done|]; cbn; f_equal; exact IH). rewrite E in Hnd.
  clear -Hnd. induction hits as [|h hits IH]; [apply NoDup_nil_2|]. apply NoDup_cons in Hnd as [Hh Hnd]. apply NoDup_cons. split; [|by apply IH].
  intros Hin. apply Hh. apply list_elem_of_fmap in Hin as (h' & E & Hin). apply list_elem_of_fmap. exists h'. split; [|done]. cbn in E. unfold output_row_bytes in E. lia.
Qed.

(** Launching all hits at once, in any order. *)
Lemma launched_ok layer hits w w' ls : cache_ok cf host w -> hits_ok cf layer hits w -> hits <> [] ->
  w_shared w' = w_shared w -> w_worker w' = w_worker w -> o_consumers (w_owner w') = o_consumers (w_owner w) ->
  d_storage (w_device w') = d_storage (w_device w) -> vsize (o_descriptors (w_owner w')) = vsize (o_descriptors (w_owner w)) ->
  d_stream (w_device w') = ls -> concat (map launch_tasks ls) ≡ₚ map (hit_task cf) hits ->
  cache_ok cf host w' /\ hits_ok cf layer hits w' /\
  forall h, h ∈ hits -> out_ok cf host layer (h_expert h) (h_input h) (fst (eff cf w') (row_address cf (h_path h))).
Proof.
  intros Hk Hh Hne Es Ew Ec Est Ed El Hperm.
  assert (Hk' : cache_ok cf host w').
  { apply (cache_ok_frame w); try done. intros E. rewrite (ho_consumers _ _ _ _ Hh) in E. by destruct hits. }
  assert (Hh' : hits_ok cf layer hits w').
  { pose proof Hh as [Hc He _]. split; [by rewrite Ec|by rewrite Es|]. unfold stream_tasks. rewrite El, Hperm. apply Forall_forall.
    intros t (h & -> & Hin)%list_elem_of_fmap. by exists h. }
  split; [done|]. split; [done|]. intros h Hin. unfold eff. rewrite run_launches_outputs, El.
  change (row_address cf (h_path h)) with (tk_output (hit_task cf h)). rewrite run_tasks_outputs.
  - pose proof (hit_out_ok cf host layer hits w' h (fun _ => None) Hk' Hh' Hin) as Ho. unfold run_task in Ho.
    change (row_address cf (h_path h)) with (tk_output (hit_task cf h)) in Ho. by rewrite Z.eqb_refl in Ho.
  - rewrite (fmap_Permutation tk_output _ _ Hperm). by apply (hits_distinct layer hits w).
  - rewrite Hperm. apply list_elem_of_fmap. by exists h.
Qed.

(** The descriptors in use are the tasks of the hits. *)
Lemma described layer hits w : hits_ok cf layer hits w -> o_batching_layer (w_owner w) = true -> pending cf host layer hits w ->
  take (length hits) (o_descriptors (w_owner w)) = map (hit_task cf) hits.
Proof.
  intros Hh Hb Hp. unfold pending in Hp. rewrite Hb in Hp. destruct Hp as [_ Hd]. apply list_eq. intros k. rewrite list_lookup_fmap.
  destruct (hits !! k) as [h|] eqn:Hk; cbn.
  - rewrite lookup_take_lt by (by eapply lookup_lt_Some). by apply Hd.
  - apply lookup_ge_None in Hk. by rewrite lookup_take_ge by lia.
Qed.

(** What the hits are owed once all kernels are queued. *)
Definition rows_ok (layer : Z) (hits : list hit) (w : world) : Prop :=
  forall h, h ∈ hits -> out_ok cf host layer (h_expert h) (h_input h) (fst (eff cf w) (row_address cf (h_path h))).

Definition in_layer (layer : Z) (hits : list hit) (w w' : world) : Prop :=
  cache_ok cf host w' /\ hits_ok cf layer hits w' /\ w_pair_outputs w' = w_pair_outputs w.

Lemma wp_enqueue_download layer hits n E w : cache_ok cf host w -> hits_ok cf layer hits w -> hits <> [] -> (forall h, h ∈ hits -> 0 <= h_path h < n) ->
  rows_ok layer hits w ->
  wp (enqueue_launch (LDownload (n * 2560 * 4))) (fun _ w' => in_layer layer hits w w' /\ downloaded layer hits w') E w.
Proof.
  intros Hk Hh Hne Hn Hr. unfold enqueue_launch. wp_step.
  split; [|by apply download_ok]. split; [|split; [|done]].
  - apply (cache_ok_frame w); try done. intros E0. rewrite (ho_consumers _ _ _ _ Hh) in E0. by destruct hits.
  - destruct Hh as [Hc Hh1 Hs]. split; [done|done|]. unfold stream_tasks in *. cbn. rewrite map_app, concat_app. cbn. by rewrite app_nil_r.
Qed.

(** The hits of a batching layer are launched together. *)
Lemma consumers_hits layer hits w : hits_ok cf layer hits w -> vsize (o_consumers (w_owner w)) = vsize hits.
Proof. intros Hh. rewrite (ho_consumers _ _ _ _ Hh). unfold vsize. by rewrite length_map. Qed.

Lemma wp_launch_batch layer hits E w : cache_ok cf host w -> hits_ok cf layer hits w -> hits <> [] -> o_batching_layer (w_owner w) = true ->
  pending cf host layer hits w ->
  wp (enqueue_launch (LBatch (mem_slice (o_descriptors (w_owner w)) 0 (vsize (o_consumers (w_owner w))))))
    (fun _ w' => in_layer layer hits w w' /\ rows_ok layer hits w') E w.
Proof.
  intros Hk Hh Hne Hb Hp. rewrite (consumers_hits layer hits w Hh). unfold enqueue_launch. wp_step. set (w' := with_gpu _ w).
  pose proof (described layer hits w Hh Hb Hp) as Hd. unfold pending in Hp. rewrite Hb in Hp. destruct Hp as [Hs _].
  destruct (launched_ok layer hits w w' [LBatch (map (hit_task cf) hits)] Hk Hh Hne) as (H1 & H2 & H3); try done.
  - change (d_stream (w_device w) ++ [LBatch (mem_slice (o_descriptors (w_owner w)) 0 (vsize hits))] = [LBatch (map (hit_task cf) hits)]).
    rewrite Hs, <- Hd. unfold mem_slice, vsize. by rewrite Nat2Z.id.
  - cbn. by rewrite app_nil_r.
Qed.

(** Sorting and grouping rearrange the tasks. *)
Lemma grouped_tasks layer hits w : cache_ok cf host w -> hits_ok cf layer hits w -> hits <> [] -> o_batching_layer (w_owner w) = true -> pending cf host layer hits w ->
  let count := vsize hits in let tasks := o_descriptors (w_owner w) in
  exists g, group_tasks cf (Z.to_nat count) count 0 (mkGrouping (sort_tasks (take (Z.to_nat count) tasks) ++ drop (Z.to_nat count) tasks) [] 0) = Ok g /\
    vsize (gp_tasks g) = vsize tasks /\ 0 <= gp_singles g /\ Forall group_ok (gp_groups g) /\
    concat (gp_groups g) ++ mem_slice (gp_tasks g) 0 (gp_singles g) ≡ₚ map (hit_task cf) hits.
Proof.
  intros Hk Hh Hne Hb Hp count tasks. pose proof (described layer hits w Hh Hb Hp) as Hd. fold tasks in Hd.
  assert (Hlen : length (sort_tasks (map (hit_task cf) hits)) = length hits) by (unfold sort_tasks; by rewrite merge_sort_Permutation, length_map).
  assert (Hlt : (length hits <= length tasks)%nat) by (apply (f_equal length) in Hd; rewrite length_take, length_map in Hd; lia).
  unfold count, vsize in *. rewrite Nat2Z.id in *. rewrite Hd. set (arr := sort_tasks _ ++ _).
  assert (Harr : length arr = length tasks) by (unfold arr; rewrite length_app, Hlen, length_drop; lia).
  pose proof (consumers_bound cf host Hpaths w Hk) as Hcb. rewrite (consumers_hits layer hits w Hh) in Hcb. unfold vsize in Hcb.
  destruct (grouping_ok cf arr (Z.of_nat (length hits))) as (g & Hg & Hok); [unfold vsize; lia|done|]. rewrite Nat2Z.id in Hg. exists g. split; [exact Hg|].
  split; [pose proof (gd_size _ _ _ _ Hok) as Hsz; unfold vsize in Hsz; lia|]. split; [apply (gd_range _ _ _ _ Hok)|]. split; [exact (gd_groups _ _ _ _ Hok)|].
  rewrite (gd_perm _ _ _ _ Hok). unfold mem_slice. rewrite Nat2Z.id. change (Z.to_nat 0) with 0%nat. rewrite drop_0. unfold arr. rewrite take_app_length' by done. apply merge_sort_Permutation.
Qed.

(** Tasks of hits with the same codes have the same slot, so a group of them computes what its tasks ask for. *)
Lemma group_work_hits g : group_ok g -> (forall t, t ∈ g -> exists h, t = hit_task cf h) -> group_work g = g.
Proof.
  intros [Hlen [c Hc]] Hin. destruct g as [|t0 g]; [done|]. unfold group_work. rewrite take_ge by lia. rewrite <- (map_id (t0 :: g)) at 2. apply map_ext_in. intros t Ht%list_elem_of_In.
  destruct (Hin t0) as [h0 E0]; [set_solver|]. destruct (Hin t Ht) as [h Eh]. rewrite Forall_forall in Hc. pose proof (Hc t0 ltac:(set_solver)) as H0. pose proof (Hc t Ht) as H1.
  subst t0 t. unfold codes_of, hit_task, path_task, view in H0, H1. cbn in H0, H1. assert (h_slot h0 = h_slot h) as E by (assert (kExpertSlotBytes = 2765056) as Eb by reflexivity; rewrite Eb in *; lia). unfold hit_task, path_task. cbn. by rewrite E.
Qed.

Lemma groups_work_hits (gs : list (list FlashNextCachedExpertTask)) hits rest : Forall group_ok gs -> concat gs ++ rest ≡ₚ map (hit_task cf) hits -> concat (map group_work gs) = concat gs.
Proof.
  intros Hok Hperm. assert (Hall : forall t, t ∈ concat gs -> exists h, t = hit_task cf h).
  { intros t Ht. assert (Hin : t ∈ map (hit_task cf) hits) by (rewrite <- Hperm; set_solver). apply list_elem_of_fmap in Hin as (h & -> & _). by exists h. }
  clear Hperm. induction Hok as [|g gs Hg _ IH]; [done|]. cbn [map concat] in *. rewrite IH by (intros t Ht; apply Hall; set_solver). f_equal. apply group_work_hits; [done|].
  intros t Ht. apply Hall. set_solver.
Qed.

Lemma wp_launch_groups layer hits E w : cache_ok cf host w -> hits_ok cf layer hits w -> hits <> [] -> o_batching_layer (w_owner w) = true ->
  pending cf host layer hits w ->
  wp (let count := vsize (o_consumers (w_owner w)) in let tasks := o_descriptors (w_owner w) in
      let sorted := sort_tasks (take (Z.to_nat count) tasks) ++ drop (Z.to_nat count) tasks in
      g ← mlift (group_tasks cf (Z.to_nat count) count 0 (mkGrouping sorted [] 0));
      _ ← mmodify (with_owner (set_descriptors (gp_tasks g)));
      _ ← (if 0 <? vsize (gp_groups g) then enqueue_launch (LGroups (gp_groups g)) else mret tt);
      if 0 <? gp_singles g then enqueue_launch (LBatch (mem_slice (gp_tasks g) 0 (gp_singles g))) else mret tt)
    (fun _ w' => in_layer layer hits w w' /\ rows_ok layer hits w') E w.
Proof.
  intros Hk Hh Hne Hb Hp. destruct (grouped_tasks layer hits w Hk Hh Hne Hb Hp) as (g & Hg & Hsz & Hs0 & Hgok & Hperm). rewrite (consumers_hits layer hits w Hh).
  cbv zeta in *. rewrite Hg. unfold pending in Hp. rewrite Hb in Hp. destruct Hp as [Hs _]. wp_step. apply wp_lift; [|done]. intros ? [= <-]. wp_step. wp_step.
  set (w1 := with_owner _ w).
  assert (Hdone : forall w', w_shared w' = w_shared w1 -> w_worker w' = w_worker w1 -> w_owner w' = w_owner w1 -> w_pair_outputs w' = w_pair_outputs w ->
    d_storage (w_device w') = d_storage (w_device w1) -> concat (map launch_tasks (d_stream (w_device w'))) = concat (gp_groups g) ++ mem_slice (gp_tasks g) 0 (gp_singles g) ->
    in_layer layer hits w w' /\ rows_ok layer hits w').
  { intros w' E1 E2 E3 E4 E5 E6. destruct (launched_ok layer hits w w' _ Hk Hh Hne E1 E2 ltac:(by rewrite E3) E5 ltac:(by rewrite E3) eq_refl) as (H1 & H2 & H3); [by rewrite E6|done]. }
  assert (Hgs : vsize (gp_groups g) <= 0 -> gp_groups g = []) by (destruct (gp_groups g); [done|rewrite vsize_cons; unfold vsize; lia]).
  pose proof (groups_work_hits _ _ _ Hgok Hperm) as Hwork.
  wp_step. unfold enqueue_launch. destruct (Z.ltb_spec 0 (vsize (gp_groups g))) as [Hgp|Hgp]; wp_step;
    destruct (Z.ltb_spec 0 (gp_singles g)) as [Hsp|Hsp]; wp_step; apply Hdone; try done; unfold w1; cbn; rewrite Hs; cbn;
    rewrite ?app_nil_r, ?Hwork, ?(Hgs Hgp); try done; replace (gp_singles g) with 0 by lia; by rewrite ?app_nil_r.
Qed.

Lemma wp_begin_download layer hits n w : cache_ok cf host w -> hits_ok cf layer hits w -> pending cf host layer hits w -> (forall h, h ∈ hits -> 0 <= h_path h < n) ->
  wp (begin_download cf (n * 2560 * 4)) (fun _ w' => in_layer layer hits w w' /\ downloaded layer hits w')
    (fun e w' => e = OutOfRange /\ cf_paths cf < n /\ cache_ok cf host w') w.
Proof.
  intros Hk Hh Hp Hn. unfold begin_download. wp_step. wp_step. rewrite (ho_consumers _ _ _ _ Hh), length_map.
  destruct hits as [|h0 hits0] eqn:Eh; [rewrite bool_decide_eq_true_2 by done; wp_step; split; [done|]; intros h Hin; set_solver|]. rewrite <- Eh in *. assert (Hne : hits <> []) by (by rewrite Eh).
  rewrite bool_decide_eq_false_2 by (by rewrite Eh). rewrite <- (ho_consumers _ _ _ _ Hh). wp_step. apply wp_throw_if; unfold outputs_bytes; intros Hcap; simp_bool;
    [|split; [done|]; split; [lia|done]].
  wp_step. eapply (wp_conseq _ (fun _ w' => in_layer layer hits w w' /\ rows_ok layer hits w')); [| |by intros ? ? H'; apply H'].
  - destruct (o_batching_layer (w_owner w)) eqn:Hb.
    + destruct (o_grouping_layer (w_owner w)); [by apply wp_launch_groups|by apply wp_launch_batch].
    + wp_step. split; [done|]. unfold pending in Hp. by rewrite Hb in Hp.
  - intros u w' ((Hk' & Hh' & Hpo) & Hr). eapply wp_conseq; [by apply (wp_enqueue_download layer hits)| |by intros ? ? H'; apply H'].
    intros ? w2 ((H1 & H2 & H3) & H4). split; [|done]. split; [done|]. split; [done|congruence].
Qed.

(** * Delivery *)

(** [todo] has not been handed out yet. *)
Record delivering (all todo : list (Z * Z)) (w w' : world) : Prop := {
  dl_ok : cache_ok cf host (with_owner (set_consumers todo) w');
  dl_device : w_device w' = w_device w;
  dl_done : forall p, p ∈ all.*2 -> p ∉ todo.*2 -> w_pair_outputs w' p = d_results (w_device w) p;
  dl_other : forall p, p ∉ all.*2 -> w_pair_outputs w' p = w_pair_outputs w p;
}.

Lemma wp_deliver all slot path todo E w w' : d_stream (w_device w) = [] -> path ∈ all.*2 -> delivering all ((slot, path) :: todo) w w' ->
  wp (deliver (slot, path)) (fun _ => delivering all todo w) E w'.
Proof.
  intros Hs Hin [Hk Hd Hdone Hother]. unfold deliver. wp_step. split.
  - apply (release_ok cf host Hlayers Hslots Hpaths (with_pair_outputs _ w') slot path todo); [cbn; by rewrite Hd|]. destruct Hk. by split.
  - done.
  - intros p Hp Hn. cbn. rewrite Hd. destruct (Z.eqb_spec p path) as [->|Hne]; [done|]. apply Hdone; [done|]. cbn. set_solver.
  - intros p Hp. cbn. destruct (Z.eqb_spec p path) as [->|Hne]; [done|]. by apply Hother.
Qed.

Lemma run_all w : with_gpu (fun d => run_stream cf (length (d_stream d)) d) w = with_gpu (run_stream cf (length (d_stream (w_device w)))) w.
Proof. done. Qed.

Lemma run_all_results w : let w' := with_gpu (run_stream cf (length (d_stream (w_device w)))) w in
  d_stream (w_device w') = [] /\ d_results (w_device w') = snd (eff cf w) /\ d_storage (w_device w') = d_storage (w_device w).
Proof.
  cbn. unfold run_stream, eff. rewrite firstn_all. destruct (run_launches cf _ _ _) as [o r]. cbn. by rewrite drop_all.
Qed.

(** What a layer has delivered. *)
Definition delivered (layer : Z) (hits : list hit) (before after : Z -> option KernelOutput) : Prop :=
  (forall h, h ∈ hits -> out_ok cf host layer (h_expert h) (h_input h) (after (h_path h))) /\
  forall p, p ∉ map h_path hits -> after p = before p.

Lemma hits_paths layer hits w : hits_ok cf layer hits w -> (o_consumers (w_owner w)).*2 = map h_path hits.
Proof. intros Hh. rewrite (ho_consumers _ _ _ _ Hh). clear. induction hits as [|h l IH]; [done|]. cbn. f_equal. exact IH. Qed.

Lemma wp_finish_download layer hits w : cache_ok cf host w -> hits_ok cf layer hits w -> downloaded layer hits w ->
  wp (finish_download cf) (fun _ w' => cache_ok cf host w' /\ o_consumers (w_owner w') = [] /\ delivered layer hits (w_pair_outputs w) (w_pair_outputs w'))
    (fun e w' => e = RuntimeError /\ c_failure (w_shared w') = Some RuntimeError /\ cache_ok cf host w') w.
Proof.
  intros Hk Hh Hd. unfold finish_download. wp_step. wp_step. destruct (bool_decide _) eqn:Eb.
  { apply bool_decide_eq_true in Eb. apply nil_length_inv in Eb. wp_step. split; [done|]. split; [done|]. rewrite (ho_consumers _ _ _ _ Hh) in Eb.
    destruct hits; [|done]. split; [set_solver|done]. }
  apply bool_decide_eq_false in Eb. wp_step. wp_step. rewrite run_all. destruct (run_all_results w) as (Hs & Hr & Hst). set (w1 := with_gpu _ w) in *.
  assert (Hk1 : cache_ok cf host w1) by (by apply (cache_ok_frame w)). wp_step. apply (wp_check_failure cf host); [done| |done]. intros Hnone. wp_step.
  assert (Hall : forall c, c ∈ o_consumers (w_owner w) -> c.2 ∈ (o_consumers (w_owner w)).*2) by (intros c Hc; apply list_elem_of_fmap; by exists c).
  eapply wp_conseq; [apply (wp_for _ (fun todo w' => delivering (o_consumers (w_owner w)) todo w1 w' /\ forall c, c ∈ todo -> c ∈ o_consumers (w_owner w)))| |by intros ? ? H'; apply H'].
  - split; [|done]. split; [by destruct Hk1; split|done| |done]. done.
  - intros [slot path] todo w' [Hdl Hsub]. eapply wp_conseq; [apply (wp_deliver (o_consumers (w_owner w)) slot path todo _ w1 w' Hs)| |by intros ? ? H'; apply H'].
    + apply (Hall (slot, path)), Hsub. set_solver.
    + done.
    + intros u w2 H2. split; [done|]. intros c Hc. apply Hsub. set_solver.
  - intros u w2 [[Hk2 Hd2 Hdone Hother] _]. wp_step. split; [done|]. split; [done|]. cbn. rewrite (hits_paths layer hits w Hh) in *. split.
    + intros h Hin. rewrite Hdone; [rewrite Hr; by apply Hd|apply list_elem_of_fmap; by exists h|set_solver].
    + intros p Hp. by apply Hother.
Qed.

(** * The start of a layer *)
Lemma no_hits layer w : cache_ok cf host w -> o_consumers (w_owner w) = [] -> hits_ok cf layer [] w.
Proof. intros Hk Hc. split; [done|done|]. unfold stream_tasks. by rewrite (k_quiet _ _ _ Hk Hc). Qed.

Lemma wp_begin_layer prefill w : cache_ok cf host w ->
  wp (begin_layer prefill) (fun _ w' => cache_ok cf host w' /\ o_consumers (w_owner w') = [] /\ w_pair_outputs w' = w_pair_outputs w)
    (fun e w' => e = LogicError /\ w' = w /\ o_consumers (w_owner w) <> []) w.
Proof.
  intros Hk. unfold begin_layer. wp_step. wp_step. wp_step. apply wp_throw_if; intros Hb.
  - apply negb_false_iff in Hb. apply bool_decide_eq_true, nil_length_inv in Hb. wp_step. split; [by apply (cache_ok_frame w); [| | | | | |intros; apply (k_quiet _ _ _ Hk)]|done].
  - apply negb_true_iff in Hb. apply bool_decide_eq_false in Hb. split; [done|]. split; [done|]. intros Enil. by rewrite Enil in Hb.
Qed.
End Layer.
