(* ===== verification/ExpertAdmit.v ===== *)
(** Admission to the expert cache: the choice of the slot that is given up, and the wait for the worker. *)
From stdpp Require Import strings gmap sorting.
From S2P Require Import Prelude StorageLayouts ArtifactBinder ArtifactLoad ExpertBank ExpertCache ExpertCacheInv ExpertCacheRun.

(** * The slot that is given up *)

(** A slot nobody reads or fills. *)
Definition free_slot (e : Entry) : Prop := en_leases e = 0 /\ en_state e <> EUploading.

(** The best slot among those in [lo, hi): none if none is free; else the first empty one, else the least recently used one. *)
Definition victim_of (entries : list Entry) (lo hi : Z) (r : option Z) : Prop :=
  match r with
  | None => forall j x, lo <= j < hi -> entries.[j] = Some x -> ~ free_slot x
  | Some v => lo <= v < hi /\ exists e, entries.[v] = Some e /\ free_slot e /\
      if decide (en_state e = EEmpty) then forall j x, lo <= j < v -> entries.[j] = Some x -> free_slot x -> en_state x <> EEmpty
      else forall j x, lo <= j < hi -> entries.[j] = Some x -> free_slot x -> en_state x <> EEmpty /\ en_epoch e <= en_epoch x
  end.

(** No empty slot was seen so far. *)
Definition scanning (entries : list Entry) (lo i : Z) (r : option Z) : Prop :=
  victim_of entries lo i r /\ forall j x, lo <= j < i -> entries.[j] = Some x -> free_slot x -> en_state x <> EEmpty.

Lemma scan_busy entries lo i r e : scanning entries lo i r -> entries.[i] = Some e -> ~ free_slot e -> scanning entries lo (i + 1) r.
Proof.
  intros [Hv Hs] He Hn.
  assert (Hstep : forall j x, lo <= j < i + 1 -> entries.[j] = Some x -> free_slot x -> lo <= j < i).
  { intros j x Hj Hx Hf. destruct (decide (j = i)) as [->|Hne]; [congruence|lia]. }
  split; [|intros j x Hj Hx Hf; by apply (Hs j x); [eapply Hstep| |]]. destruct r as [v|]; cbn in *.
  - destruct Hv as (Hb & e0 & He0 & Hf0 & Hm). split; [lia|]. exists e0. split; [done|]. split; [done|]. destruct (decide _); [done|].
    intros j x Hj Hx Hf. apply (Hm j x); [by eapply Hstep|done|done].
  - intros j x Hj Hx Hf. apply (Hv j x); [by eapply Hstep|done|done].
Qed.

Lemma scan_free entries lo i r e v : scanning entries lo i r -> lo <= i -> entries.[i] = Some e -> free_slot e -> en_state e <> EEmpty ->
  (v = i /\ (forall v0 e0, r = Some v0 -> entries.[v0] = Some e0 -> en_epoch e < en_epoch e0) \/
   r = Some v /\ forall e0, entries.[v] = Some e0 -> en_epoch e0 <= en_epoch e) -> scanning entries lo (i + 1) (Some v).
Proof.
  intros [Hv Hs] Hi He Hf Hne Hcase.
  assert (Hs' : forall j x, lo <= j < i + 1 -> entries.[j] = Some x -> free_slot x -> en_state x <> EEmpty).
  { intros j x Hj Hx Hfx. destruct (decide (j = i)) as [->|Hji]; [congruence|]. apply (Hs j x); [lia|done|done]. }
  split; [|done]. cbn. destruct Hcase as [[-> Hlt] | [-> Hle]].
  - split; [lia|]. exists e. split; [done|]. split; [done|]. rewrite decide_False by done. intros j x Hj Hx Hfx. split; [by apply (Hs' j)|].
    destruct (decide (j = i)) as [->|Hji]; [assert (x = e) as -> by congruence; lia|].
    destruct r as [v0|]; cbn in Hv; [|exfalso; apply (Hv j x); [lia|done|done]]. destruct Hv as (Hb & e0 & He0 & Hf0 & Hm). specialize (Hlt v0 e0 eq_refl He0).
    rewrite decide_False in Hm by (by apply (Hs v0)). destruct (Hm j x ltac:(lia) Hx Hfx). lia.
  - destruct Hv as (Hb & e0 & He0 & Hf0 & Hm). split; [lia|]. exists e0. split; [done|]. split; [done|]. rewrite decide_False in * by (by apply (Hs v)).
    intros j x Hj Hx Hfx. split; [by apply (Hs' j)|]. destruct (decide (j = i)) as [->|Hji]; [assert (x = e) as -> by congruence; by apply Hle|]. apply (Hm j x); [lia|done|done].
Qed.

Lemma find_victim_ok entries lo n i r : 0 <= lo <= i -> i + Z.of_nat n <= vsize entries -> scanning entries lo i r ->
  exists r', find_victim entries n i r = Ok r' /\ victim_of entries lo (i + Z.of_nat n) r'.
Proof.
  revert i r. induction n as [|n IH]; intros i r Hi Hn Hs; cbn [find_victim].
  { exists r. split; [done|]. replace (i + Z.of_nat 0) with i by lia. apply Hs. }
  unfold slot_at. destruct (vget_is_Some entries i) as [e He]; [lia|]. rewrite He. cbn [mbind result_bind].
  replace (i + Z.of_nat (S n)) with (i + 1 + Z.of_nat n) by lia.
  destruct (negb (en_leases e =? 0) || bool_decide (en_state e = EUploading)) eqn:Eb.
  { apply IH; [lia|lia|]. apply (scan_busy _ _ _ _ e); [done|done|]. intros [Hl Hu]. apply orb_true_iff in Eb as [Eb|Eb]; [|by apply bool_decide_eq_true in Eb].
    by rewrite Hl in Eb. }
  apply orb_false_iff in Eb as [El Eu]. apply negb_false_iff, Z.eqb_eq in El. apply bool_decide_eq_false in Eu. assert (Hf : free_slot e) by done.
  destruct (decide (en_state e = EEmpty)) as [Hemp|Hemp].
  - rewrite bool_decide_eq_true_2 by done. exists (Some i). destruct r; cbn; (split; [done|]; split; [lia|]; exists e; split; [done|]; split; [done|]; rewrite decide_True by done; apply Hs).
  - rewrite bool_decide_eq_false_2 by done. destruct r as [v|]; cbn [mbind result_bind].
    + destruct Hs as [Hv Hs]. destruct (Hv) as (Hb & e0 & He0 & Hf0 & Hm). rewrite He0. cbn [mbind result_bind].
      destruct (Z.ltb_spec (en_epoch e) (en_epoch e0)) as [Hlt|Hge]; apply IH; try lia; eapply (scan_free entries lo i (Some v) e); try done; try lia; [left|right];
        (split; [done|]); [intros v0 e1 [= <-] He1; congruence|intros e1 He1; by assert (e1 = e0) as -> by congruence].
    + apply IH; [lia|lia|]. eapply (scan_free entries lo i None e); try done; [lia|]. by left.
Qed.

Lemma find_expert_ok entries expert n i : 0 <= i -> i + Z.of_nat n <= vsize entries ->
  exists b, find_expert entries expert n i = Ok b /\
    if b then exists j x, i <= j < i + Z.of_nat n /\ entries.[j] = Some x /\ en_expert x = expert
    else forall j x, i <= j < i + Z.of_nat n -> entries.[j] = Some x -> en_expert x <> expert.
Proof.
  revert i. induction n as [|n IH]; intros i Hi Hn; [exists false; split; [done|]; lia|]. cbn [find_expert]. unfold slot_at.
  destruct (vget_is_Some entries i) as [e He]; [lia|]. rewrite He. cbn [mbind result_bind].
  destruct (Z.eqb_spec (en_expert e) expert) as [Ee|Ee]; [exists true; split; [done|]; exists i, e; split; [lia|done]|].
  destruct (IH (i + 1) ltac:(lia) ltac:(lia)) as (b & E & Hb). exists b. split; [done|]. destruct b.
  - destruct Hb as (j & x & Hj & Hx). exists j, x. split; [lia|done].
  - intros j x Hj Hx. destruct (decide (j = i)) as [->|Hne]; [congruence|]. apply (Hb j); [lia|done].
Qed.

(** * Admission *)
Section Admission.
Context (cf : config) (host : Z -> Z).
Context (Hslots : 0 <= cf_slots cf <= 512).

Lemma leased_pos s p l : (s, p) ∈ l -> 0 < leased s l.
Proof.
  intros Hin. induction l as [|c l IH]; [set_solver|]. rewrite leased_cons. pose proof (leased_le s l) as Hle. apply elem_of_cons in Hin as [<- | Hin].
  - cbn. rewrite decide_True by done. lia.
  - specialize (IH Hin). destruct (decide (c.1 = s)); lia.
Qed.

Lemma admit_slot_fields v id c : exists n stats,
  admit_slot v id c = mkShared ((c_entries c).[v <- mkEntry id EUploading n 0]) (c_queue c ++ [v]) (c_filling c) (c_failure c) n stats.
Proof. unfold admit_slot. by eexists _, _. Qed.

(** A free slot goes to an expert that the layer does not have. *)
Lemma admit_slot_ok w v e id : cache_ok cf host w -> c_failure (w_shared w) = None -> outstanding (w_shared w) < 4 ->
  (c_entries (w_shared w)).[v] = Some e -> free_slot e -> 0 <= id < 512 ->
  (forall j x, j / cf_slots cf = v / cf_slots cf -> (c_entries (w_shared w)).[j] = Some x -> en_expert x <> id) ->
  cache_ok cf host (with_shared (admit_slot v id) w).
Proof.
  intros [Hsize Hentry Hdist Hnd Hup Hpop Hcop Hfill Hbound Hlease Hcons Hp Hready Hfail Hdesc Hquiet Herr Hstop Hprog] Hnone Hout He [Hl Hu] Hid Hnew.
  destruct (admit_slot_fields v id (w_shared w)) as (n & stats & E). unfold with_shared. rewrite E. set (e' := mkEntry id EUploading n 0).
  pose proof (vget_Some_bounds _ _ _ He) as Hb.
  assert (Hrun : w_worker w <> WStopped) by (intros Hw; apply Hfail in Hw; rewrite Hnone in Hw; by destruct Hw).
  assert (Hget : forall s x, (c_entries (w_shared w)).[v <- e'].[s] = Some x -> s = v /\ x = e' \/ s <> v /\ (c_entries (w_shared w)).[s] = Some x).
  { intros s x. destruct (decide (s = v)) as [->|Hne]; [rewrite vget_vset_eq by done; intros [= <-]; by left|]. rewrite vget_vset_ne by done. by right. }
  assert (Hidle : v ∉ c_queue (w_shared w) ++ busy (w_worker w)) by (intros Hin; destruct (Hup v Hin) as (x & Hx & Hs); congruence).
  assert (Hperm : (c_queue (w_shared w) ++ [v]) ++ busy (w_worker w) ≡ₚ v :: c_queue (w_shared w) ++ busy (w_worker w)).
  { rewrite <- app_assoc. cbn. by rewrite <- Permutation_middle. }
  assert (Hother : forall s, s ∈ c_queue (w_shared w) ++ busy (w_worker w) -> s <> v) by (by intros s Hs ->).
  assert (Hkeep : forall s x, s <> v -> (c_entries (w_shared w)).[s] = Some x -> (c_entries (w_shared w)).[v <- e'].[s] = Some x) by (intros s x Hne Hx; by rewrite vget_vset_ne).
  split; cbn; try done.
  - by rewrite vsize_vset.
  - intros s x [[-> ->] | [_ Hx]]%Hget; [done|by eapply Hentry].
  - intros i j a b [[-> ->] | [Hi Ha]]%Hget [[-> ->] | [Hj Hb']]%Hget Hne Hdiv Hab; [done| | |by eapply (Hdist i j)].
    + exfalso. by apply (Hnew j b).
    + exfalso. by apply (Hnew i a).
  - rewrite Hperm. by apply NoDup_cons.
  - intros s Hs. rewrite Hperm in Hs. apply elem_of_cons in Hs as [-> | Hs]; [exists e'; by rewrite vget_vset_eq|].
    destruct (Hup s Hs) as (x & Hx & Hst). exists x. split; [apply Hkeep; [by apply Hother|done]|done].
  - intros s i Hw. destruct (Hpop s i Hw) as (x & Hx & Hst). exists x. split; [apply Hkeep; [apply Hother; rewrite Hw; set_solver|done]|done].
  - intros s Hw. destruct (Hcop s Hw) as (x & Hx & Hst). exists x. split; [apply Hkeep; [apply Hother; rewrite Hw; set_solver|done]|done].
  - unfold outstanding in *. cbn. rewrite vsize_app, vsize_cons. unfold vsize at 2. cbn. lia.
  - intros s x [[-> ->] | [_ Hx]]%Hget; [cbn; rewrite <- Hl; by apply Hlease|by apply Hlease].
  - intros s p Hsp. destruct (Hcons s p Hsp) as (Hpp & x & Hx & Hr). split; [done|]. exists x. split; [|done]. apply Hkeep; [|done].
    intros ->. pose proof (leased_pos v p _ Hsp). rewrite <- (Hlease v e He) in *. lia.
  - intros s x [[-> ->] | [_ Hx]]%Hget Hr; [done|by apply Hready].
  - intros _ s x [[-> ->] | [Hne Hx]]%Hget Hs; rewrite Hperm; [by left|]. right. by apply (Hprog Hrun s x).
Qed.

(** What admission leaves alone. *)
Definition admits (w w' : world) : Prop :=
  cache_ok cf host w' /\ w_owner w' = w_owner w /\ w_device w' = w_device w /\ w_pair_outputs w' = w_pair_outputs w /\ c_failure (w_shared w') = c_failure (w_shared w).

Lemma wp_admit_ids layer ids n w0 w : cache_ok cf host w -> admits w0 w -> c_failure (w_shared w) = None -> 0 <= layer < 48 -> 1 <= cf_admission_cap cf -> 0 <= n < cf_admission_cap cf ->
  wp (admit_ids cf (layer * cf_slots cf) ids n) (fun m w' => admits w0 w' /\ n <= m <= cf_admission_cap cf)
    (fun e w' => e = InvalidArgument /\ Exists (fun id => ~ 0 <= id < 512) ids /\ admits w0 w') w.
Proof.
  revert n w. induction ids as [|id ids IH]; intros n w Hk Ha Hnone Hl Hcap Hn; cbn [admit_ids]; [wp_step; split; [done|lia]|].
  assert (Hs : 0 <= layer * cf_slots cf /\ layer * cf_slots cf + Z.of_nat (Z.to_nat (cf_slots cf)) <= vsize (c_entries (w_shared w))) by (by apply (layer_slots cf host)).
  destruct Hs as [Hlo Hend]. wp_step. apply wp_throw_if; intros Hid; simp_bool; [|split; [done|]; split; [apply Exists_cons; left; lia|done]].
  assert (Hrec : forall m w1, admits w0 w1 -> c_failure (w_shared w1) = None -> n <= m < cf_admission_cap cf ->
    wp (admit_ids cf (layer * cf_slots cf) ids m) (fun m w' => admits w0 w' /\ n <= m <= cf_admission_cap cf)
      (fun e w' => e = InvalidArgument /\ Exists (fun id => ~ 0 <= id < 512) (id :: ids) /\ admits w0 w') w1).
  { intros m w1 Ha1 Hn1 Hm. eapply wp_conseq; [apply IH; try done; [apply Ha1|lia]| |]; [intros x w' [? ?]; split; [done|lia]|].
    intros e w' (? & ? & ?). split; [done|]. split; [by apply Exists_cons; right|done]. }
  wp_step. wp_step. wp_step. destruct (find_expert_ok (c_entries (w_shared w)) id _ _ Hlo Hend) as (b & -> & Hb). apply wp_lift; [|done]. intros ? [= <-].
  destruct b; [apply Hrec; [done|done|lia]|].
  assert (Hstat : forall s, admits w0 (with_shared (count_stat s) w)) by (intros s; destruct Ha as (? & ?); split; [by apply count_stat_ok|done]).
  destruct (Z.leb_spec 4 (outstanding (w_shared w))) as [Hq|Hq]; [wp_step; wp_step; wp_step; split; [done|lia]|].
  wp_step. destruct (find_victim_ok (c_entries (w_shared w)) (layer * cf_slots cf) (Z.to_nat (cf_slots cf)) (layer * cf_slots cf) None) as (r & -> & Hr); [lia|done|split; intros j x; lia|].
  apply wp_lift; [|done]. intros ? [= <-]. destruct r as [v|]; [|wp_step; wp_step; wp_step; split; [done|lia]].
  destruct Hr as (Hv & e & He & Hf & _). wp_step. wp_step. set (w1 := with_shared _ w).
  assert (Hk1 : cache_ok cf host w1).
  { apply (admit_slot_ok w v e id); try done. intros j x Hj Hx. apply (layer_of cf Hslots) in Hv. apply (Hb j x); [|done].
    rewrite Hv in Hj. rewrite Z2Nat.id in * by lia. pose proof (vget_Some_bounds _ _ _ Hx) as Hxb. rewrite (k_size _ _ _ Hk) in Hxb. 
    pose proof (Z.div_mod j (cf_slots cf) ltac:(nia)). pose proof (Z.mod_pos_bound j (cf_slots cf) ltac:(nia)). nia. }
  assert (Hf1 : c_failure (w_shared w1) = c_failure (w_shared w)) by reflexivity.
  assert (Ha1 : admits w0 w1) by (destruct Ha as (_ & A2 & A3 & A4 & A5); split; [done|]; split; [done|]; split; [done|]; split; [done|congruence]).
  destruct (Z.eqb_spec (n + 1) (cf_admission_cap cf)) as [E|E]; [wp_step; split; [done|lia]|]. apply Hrec; [done|congruence|lia].
Qed.

Lemma wp_admit layer ids w : cache_ok cf host w -> 0 <= layer -> 1 <= cf_admission_cap cf ->
  wp (admit_experts cf layer ids) (fun _ => admits w)
    (fun e w' => admits w w' /\ (e = InvalidArgument /\ (48 <= layer \/ Exists (fun id => ~ 0 <= id < 512) ids) \/ e = RuntimeError /\ c_failure (w_shared w) = Some RuntimeError)) w.
Proof.
  intros Hk Hl Hcap. unfold admit_experts. assert (Ha : admits w w) by done. wp_step. apply (wp_check_failure cf host); [done| |intros; split; [done|]; by right]. intros Hnone.
  wp_step. apply wp_throw_if; intros Hlay; simp_bool; [|split; [done|]; left; split; [done|left; lia]]. wp_step. wp_step.
  destruct (_ || _); [by wp_step|]. wp_step. eapply wp_conseq; [apply (wp_admit_ids layer ids 0 w w); [done|done|done|lia|lia|lia]| |].
  - intros m w' [(Hk' & Ha') _]. wp_step. split; [by apply count_stat_ok|done].
  - intros e w' (-> & He & Ha'). split; [done|]. left. split; [done|]. by right.
Qed.
End Admission.

(** * Waiting for the worker *)
Section Waiting.
Context (cf : config) (host : Z -> Z).
Context (Hlayers : forall s id, 0 <= s < 48 * cf_slots cf -> 0 <= id < 512 -> exists v, table_expert (cf_layers cf) (s / cf_slots cf) id = Ok v).

(** The steps the worker has left. *)
Definition phase (x : worker) : Z := match x with WPopped _ _ => 2 | WCopied _ => 1 | WIdle | WStopped => 0 end.
Definition load (w : world) : Z := 3 * vsize (c_queue (w_shared w)) + phase (w_worker w).

Lemma load_bound w : cache_ok cf host w -> 0 <= load w <= 12.
Proof.
  intros Hk. pose proof (k_bound _ _ _ Hk) as Hb. pose proof (k_filling _ _ _ Hk) as Hf. unfold load, outstanding in *. unfold vsize in *.
  destruct (w_worker w); cbn in *; rewrite Hf in Hb; lia.
Qed.

Lemma load_idle w : cache_ok cf host w -> idle w = (load w =? 0).
Proof.
  intros Hk. pose proof (k_filling _ _ _ Hk) as Hf. unfold idle, load. rewrite Hf. unfold vsize.
  destruct (c_queue (w_shared w)) as [|s q]; cbn [length]; [rewrite bool_decide_eq_true_2 by done|rewrite bool_decide_eq_false_2 by done];
    destruct (w_worker w); cbn [phase busy negb andb]; rewrite ?bool_decide_eq_true_2, ?bool_decide_eq_false_2 by done; cbn; try done; symmetry; apply Z.eqb_neq; lia.
Qed.

(** Only the worker's progress changes what is left, and only downwards. *)
Lemma env_step_load e w : cache_ok cf host w -> load (env_step cf host e w) <= load w.
Proof.
  intros Hk. pose proof (load_bound w Hk) as Hlb. assert (Hq0 : 0 <= vsize (c_queue (w_shared w))) by (unfold vsize; lia).
  assert (Hnil : vsize (@nil Z) = 0) by done. unfold env_step, load in *. destruct e, (w_worker w) as [|slot id|slot|] eqn:Hw; cbn; rewrite ?Hw; try done; try (cbn; lia).
  - destruct (c_queue (w_shared w)) as [|slot rest] eqn:Hq; [cbn; rewrite Hw, Hq; cbn; lia|]. destruct ((c_entries (w_shared w)).[slot]) as [x|]; cbn; rewrite ?Hw, ?Hq, ?vsize_cons; cbn; lia.
  - destruct (popped_source cf host Hlayers w slot id Hk Hw) as [src ->]. cbn. lia.
  - unfold publish_slot. destruct ((c_entries (w_shared w)).[slot]); cbn; lia.
Qed.

Lemma worker_step_load w : cache_ok cf host w -> 0 < load w -> cache_ok cf host (worker_step cf host w) /\ load (worker_step cf host w) < load w.
Proof.
  intros Hk Hl. split; [unfold worker_step; destruct (w_worker w); try done; by apply env_step_ok|]. unfold worker_step, env_step, load in *. destruct (w_worker w) as [|slot id|slot|] eqn:Hw.
  - destruct (c_queue (w_shared w)) as [|slot rest] eqn:Hq; [unfold vsize in Hl; cbn in Hl; lia|]. destruct (k_uploading _ _ _ Hk slot) as (x & -> & _); [rewrite Hq; set_solver|].
    cbn. rewrite vsize_cons. lia.
  - destruct (popped_source cf host Hlayers w slot id Hk Hw) as [src ->]. cbn. lia.
  - cbn. unfold publish_slot. destruct ((c_entries (w_shared w)).[slot]); cbn; lia.
  - rewrite (k_stopped _ _ _ Hk Hw) in Hl. unfold vsize in Hl. cbn in Hl. lia.
Qed.

(** What the inference thread keeps while the others run. *)
Definition same_owner (w w' : world) : Prop := w_owner w' = w_owner w /\ w_pair_outputs w' = w_pair_outputs w.

#[local] Instance same_owner_refl : Reflexive same_owner.
Proof. done. Qed.
#[local] Instance same_owner_trans : Transitive same_owner.
Proof. intros a b c [H1 H2] [H3 H4]. split; congruence. Qed.

Lemma env_step_owner e w : same_owner w (env_step cf host e w).
Proof.
  unfold env_step, same_owner. destruct e, (w_worker w); try done.
  - destruct (c_queue (w_shared w)); [done|]. by destruct ((c_entries (w_shared w)).[_]).
  - by destruct (table_expert _ _ _).
Qed.

Lemma wp_others_any Q E w : cache_ok cf host w -> (forall w', cache_ok cf host w' -> same_owner w w' -> load w' <= load w -> Q tt w') -> wp (others cf host) Q E w.
Proof.
  intros Hk HQ. unfold others. apply wp_modify. destruct (w_schedule w) as [|es rest]; [by apply HQ|].
  assert (Hgen : forall es w0, cache_ok cf host w0 -> same_owner w w0 -> load w0 <= load w -> Q tt (foldl (fun w e => env_step cf host e w) w0 es)).
  { clear es. induction es as [|e es IH]; intros w0 Hk0 Hs0 Hl0; [by apply HQ|]. cbn. apply IH; [by apply env_step_ok|etrans; [done|apply env_step_owner]|].
    pose proof (env_step_load e w0 Hk0). lia. }
  apply Hgen; [|done|done]. destruct Hk. by split.
Qed.

Lemma wp_wait_idle fuel E w : cache_ok cf host w -> load w <= Z.of_nat fuel ->
  wp (wait_idle cf host fuel) (fun _ w' => cache_ok cf host w' /\ same_owner w w' /\ load w' = 0) E w.
Proof.
  revert w. induction fuel as [|fuel IH]; intros w Hk Hf; cbn [wait_idle]; wp_step; wp_step; rewrite (load_idle w Hk); pose proof (load_bound w Hk) as Hb;
    (destruct (Z.eqb_spec (load w) 0) as [E0|E0]; [by wp_step|]); [lia|].
  wp_step. apply wp_others_any; [done|]. intros w1 Hk1 Hs1 Hl1. wp_step. wp_step. pose proof (load_bound w1 Hk1) as Hb1. set (w2 := worker_step cf host w1).
  assert (H2 : cache_ok cf host w2 /\ load w2 <= Z.of_nat fuel /\ same_owner w1 w2).
  { assert (Hown : same_owner w1 w2) by (unfold w2, worker_step; destruct (w_worker w1); try apply env_step_owner; done).
    destruct (decide (load w1 = 0)) as [E1|E1].
    - assert (Hstay : cache_ok cf host w2 /\ load w2 <= load w1).
      { unfold w2, worker_step. destruct (w_worker w1); try (split; [by apply env_step_ok|by apply env_step_load]). done. }
      destruct Hstay. split; [done|]. split; [lia|done].
    - destruct (worker_step_load w1 Hk1 ltac:(lia)) as [H1 H2]. split; [done|]. split; [unfold w2; lia|done]. }
  destruct H2 as (Hk2 & Hl2 & Hs2). eapply wp_conseq; [by apply IH| |done]. intros u w' (H3 & H4 & H5). split; [done|]. split; [|done]. etrans; [done|]. by etrans.
Qed.

(** The cache at rest: no slot is being filled. *)
Definition at_rest (w : world) : Prop := forall s e, (c_entries (w_shared w)).[s] = Some e -> en_state e = EEmpty \/ en_state e = EReady.

Lemma wp_cache_drain w : cache_ok cf host w ->
  wp (drain cf host) (fun _ w' => cache_ok cf host w' /\ same_owner w w' /\ load w' = 0 /\ c_failure (w_shared w') = None /\ at_rest w')
    (fun e w' => e = RuntimeError /\ c_failure (w_shared w') = Some RuntimeError /\ cache_ok cf host w' /\ same_owner w w') w.
Proof.
  intros Hk. unfold drain. wp_step. eapply wp_conseq; [apply (wp_wait_idle 12); [done|apply load_bound; done]| |by intros ? ? H'; apply H']. intros u w' (Hk' & Hs & Hl).
  apply (wp_check_failure cf host); [done| |done]. intros Hnone. split; [done|]. split; [done|]. split; [done|]. split; [done|]. intros s e He.
  pose proof (k_entry _ _ _ Hk' s e He) as Hok. unfold entry_ok in Hok. destruct (en_state e) eqn:Est; try done; [by left| |by right]. exfalso.
  assert (Hrun : w_worker w' <> WStopped) by (intros Hw; apply (k_failed _ _ _ Hk') in Hw; rewrite Hnone in Hw; by destruct Hw).
  pose proof (k_progress _ _ _ Hk' Hrun s e He Est) as Hin. unfold load in Hl. unfold vsize in Hl. destruct (c_queue (w_shared w')); [|cbn in Hl; destruct (w_worker w'); cbn in Hl; lia].
  destruct (w_worker w'); cbn in *; [set_solver|lia|lia|done].
Qed.

Lemma wp_freeze w : cache_ok cf host w ->
  wp (freeze_admissions cf host) (fun _ w' => cache_ok cf host w' /\ at_rest w' /\ o_admissions_enabled (w_owner w') = false /\ w_pair_outputs w' = w_pair_outputs w)
    (fun e w' => e = RuntimeError /\ c_failure (w_shared w') = Some RuntimeError /\ cache_ok cf host w') w.
Proof.
  intros Hk. unfold freeze_admissions. wp_step. eapply wp_conseq; [by apply wp_cache_drain| |by intros e w' (? & ? & ? & ?)]. intros u w' (Hk' & [Ho Hpo] & Hl & Hf & Hr). wp_step.
  split; [|done]. destruct Hk'. by split.
Qed.

Lemma leased_nil s : leased s [] = 0.
Proof. done. Qed.

(** A reset cache is as it was built, but for the modes. *)
Lemma wp_reset w : cache_ok cf host w ->
  wp (reset cf host) (fun _ w' => cache_ok cf host w' /\ (forall s e, (c_entries (w_shared w')).[s] = Some e -> e = empty_entry) /\
        o_consumers (w_owner w') = [] /\ o_admissions_enabled (w_owner w') = true /\ c_epoch (w_shared w') = 0 /\ (forall n, c_stats (w_shared w') n = 0) /\ w_pair_outputs w' = w_pair_outputs w)
    (fun e w' => cache_ok cf host w' /\ (e = RuntimeError /\ c_failure (w_shared w') = Some RuntimeError \/ e = LogicError /\ o_consumers (w_owner w) <> [])) w.
Proof.
  intros Hk. unfold reset. wp_step. eapply wp_conseq; [by apply wp_cache_drain| |intros e w' (? & ? & ? & ?); split; [done|]; by left].
  intros u w' (Hk' & [Ho Hpo] & Hl & Hf & Hr). wp_step. wp_step. wp_step. apply wp_throw_if; intros Hb.
  2: { apply negb_true_iff in Hb. apply bool_decide_eq_false in Hb. split; [done|]. right. split; [done|]. rewrite <- Ho. intros Enil. by rewrite Enil in Hb. }
  apply negb_false_iff in Hb. apply bool_decide_eq_true, nil_length_inv in Hb. wp_step. wp_step. wp_step.
  assert (Hentry : forall s e, (replicate (length (c_entries (w_shared w'))) empty_entry).[s] = Some e -> e = empty_entry).
  { intros s e He. unfold vget in He. destruct (0 <=? s); [|done]. by apply lookup_replicate in He as [-> _]. }
  split; [|done]. destruct Hk' as [Hsize _ _ Hnd Hup Hpop Hcop Hfill Hbound Hlease Hcons Hp Hready Hfail Hdesc Hquiet Herr Hstop Hprog].
  unfold load, vsize in Hl. assert (Hq : c_queue (w_shared w') = []) by (destruct (c_queue (w_shared w')); [done|cbn in Hl; destruct (w_worker w'); cbn in Hl; lia]).
  assert (Hw : w_worker w' = WIdle) by (destruct (w_worker w') eqn:Ew; [done| | |destruct (proj2 Hfail eq_refl); congruence]; rewrite Hq in Hl; cbn in Hl; lia).
  split; cbn; rewrite ?Hq, ?Hw, ?Hb in *; try done.
  - unfold vsize in *. by rewrite length_replicate.
  - by intros s e ->%Hentry.
  - intros i j a b ->%Hentry ->%Hentry. done.
  - intros s Hin. by apply not_elem_of_nil in Hin.
  - unfold outstanding, vsize. cbn. by destruct (c_filling (w_shared w')).
  - by intros s e ->%Hentry.
  - intros s p Hin. by apply not_elem_of_nil in Hin.
  - by intros s e ->%Hentry.
  - by intros _ s e ->%Hentry.
Qed.
End Waiting.
