(* ===== verification/ExpertSteps.v ===== *)
(** The expert cache as a step relation: the calls of the inference thread, and steps of the worker and the device at any time
    between them. *)
From stdpp Require Import strings gmap sorting.
From S2P Require Import Prelude StorageLayouts ArtifactBinder ArtifactLoad ExpertBank ExpertCache ExpertCacheInv ExpertCacheRun ExpertGroups ExpertCacheLayer ExpertAdmit.

Inductive call : Type :=
  | CModes (batched_prefill batched_decode grouped_prefill : bool)
  | CBeginLayer (prefill : bool)
  | CExecute (layer expert input path : Z)
  | CBeginDownload (bytes : Z)
  | CFinishDownload
  | CAdmit (layer : Z) (ids : list Z)
  | CReadyView (layer expert : Z)
  | CDrain | CFreeze | CReset.

Section Steps.
Context (cf : config) (host : Z -> Z).

Definition run_call (c : call) : M world unit :=
  match c with
  | CModes a b c => mmodify (with_owner (set_modes a b c))
  | CBeginLayer prefill => begin_layer prefill
  | CExecute layer expert input path => _ ← execute cf layer expert input path; mret tt
  | CBeginDownload bytes => begin_download cf bytes
  | CFinishDownload => finish_download cf
  | CAdmit layer ids => admit_experts cf layer ids
  | CReadyView layer expert => _ ← ready_view cf layer expert; mret tt
  | CDrain => drain cf host
  | CFreeze => freeze_admissions cf host
  | CReset => reset cf host
  end.

(** What the callers keep to: indices are unsigned, and a layer runs a path once. *)
Definition allowed (c : call) (w : world) : Prop :=
  match c with
  | CExecute layer _ _ path => 0 <= layer /\ 0 <= path /\ path ∉ (o_consumers (w_owner w)).*2
  | CAdmit layer _ | CReadyView layer _ => 0 <= layer
  | _ => True
  end.

Inductive step : world -> world -> Prop :=
  | step_others e w : step w (env_step cf host e w)
  | step_call c sched w : allowed c w -> step w (fst (run_call c (with_schedule sched w))).

(** * Every step keeps the invariant *)
Context (Hlayers : forall s id, 0 <= s < 48 * cf_slots cf -> 0 <= id < 512 -> exists v, table_expert (cf_layers cf) (s / cf_slots cf) id = Ok v).
Context (Hslots : 0 <= cf_slots cf <= 512) (Hpaths : 0 < cf_paths cf <= U32_MAX) (Hcap : 1 <= cf_admission_cap cf).

Definition keeps (m : M world unit) (w : world) : Prop := wp m (fun _ => cache_ok cf host) (fun _ => cache_ok cf host) w.

Lemma keeps_cache m w : keeps m w -> cache_ok cf host (fst (m w)).
Proof. unfold keeps, wp. by destruct (m w) as [w' [a|e]]. Qed.

(** A launch or a new description while slots are leased. *)
Lemma append_ok l w : cache_ok cf host w -> o_consumers (w_owner w) <> [] -> cache_ok cf host (with_gpu (append_launch l) w).
Proof. intros Hk Hc. by apply (cache_ok_frame cf host w). Qed.

Lemma descriptors_ok ts w : cache_ok cf host w -> vsize ts = vsize (o_descriptors (w_owner w)) -> cache_ok cf host (with_owner (set_descriptors ts) w).
Proof. intros Hk Hs. apply (cache_ok_frame cf host w); try done. apply (k_quiet _ _ _ Hk). Qed.

Lemma keeps_execute layer expert input path w : cache_ok cf host w -> 0 <= layer -> 0 <= path -> path ∉ (o_consumers (w_owner w)).*2 ->
  keeps (_ ← execute cf layer expert input path; mret tt) w.
Proof.
  intros Hk Hl Hp Hfresh. unfold keeps. apply wp_bind. unfold execute. wp_step. apply (wp_check_failure cf host); [done| |done].
  intros _. wp_step. apply wp_throw_if; unfold valid_key; intros Hkey; [|done]. simp_bool. wp_step. wp_step. wp_step.
  destruct (layer_slots cf host Hslots w layer Hk ltac:(lia)) as [Hlo Hend].
  destruct (find_ready_ok (c_entries (w_shared w)) expert _ _ Hlo Hend) as (r & -> & Hr). apply wp_lift; [|done]. intros ? [= <-].
  destruct r as [slot|]; [|wp_step; wp_step; wp_step; wp_step; by apply count_stat_ok].
  destruct Hr as (_ & e & He & _ & Hst). wp_step. apply wp_throw_if; unfold outputs_bytes; intros Hcap'; simp_bool; [|done].
  pose proof (lease_ok cf host Hpaths w slot path e Hk He Hst ltac:(lia) Hfresh) as Hk1. wp_step. wp_step. set (w1 := with_owner _ _) in *. wp_step. wp_step.
  assert (Hc1 : o_consumers (w_owner w1) <> []) by (cbn; by destruct (o_consumers (w_owner w))).
  destruct (o_batching_layer (w_owner w1)).
  - wp_step. apply wp_throw_if; intros _; [|done]. wp_step. wp_step. wp_step. wp_step. by apply (descriptors_ok ((o_descriptors (w_owner w1)).[_ <- _]) w1 Hk1); rewrite vsize_vset.
  - wp_step. unfold enqueue_launch. wp_step. wp_step. wp_step. by apply append_ok.
Qed.

Lemma keeps_enqueue l w : cache_ok cf host w -> o_consumers (w_owner w) <> [] -> keeps (enqueue_launch l) w.
Proof. intros Hk Hc. unfold keeps, enqueue_launch. wp_step. by apply append_ok. Qed.

Lemma consumers_slots w : cache_ok cf host w -> o_consumers (w_owner w) <> [] -> cf_slots cf <> 0.
Proof.
  intros Hk Hc E. destruct (o_consumers (w_owner w)) as [|[s p] l] eqn:Ec; [done|]. destruct (k_consumers _ _ _ Hk s p) as (_ & e & He & _); [rewrite Ec; by left|].
  pose proof (vget_Some_bounds _ _ _ He) as Hb. rewrite (k_size _ _ _ Hk) in Hb. lia.
Qed.

Lemma keeps_begin_download bytes w : cache_ok cf host w -> keeps (begin_download cf bytes) w.
Proof.
  intros Hk. unfold keeps, begin_download. wp_step. wp_step. destruct (bool_decide _) eqn:Eb; [by wp_step|]. apply bool_decide_eq_false in Eb.
  assert (Hc : o_consumers (w_owner w) <> []) by (intros Enil; by rewrite Enil in Eb). clear Eb. wp_step. apply wp_throw_if; intros _; [|done]. wp_step.
  set (Q := fun (_ : unit) w' => cache_ok cf host w' /\ o_consumers (w_owner w') = o_consumers (w_owner w)).
  assert (Hq : forall l w', Q tt w' -> wp (enqueue_launch l) Q (fun _ => cache_ok cf host) w').
  { intros l w' [H1 H2]. unfold enqueue_launch. wp_step. split; [|done]. apply append_ok; [done|by rewrite H2]. }
  eapply (wp_conseq _ Q); [| |by intros ? ? H'; apply H'].
  - destruct (o_batching_layer (w_owner w)); [|by wp_step]. destruct (o_grouping_layer (w_owner w)); [|by apply Hq].
    pose proof (k_descriptors _ _ _ Hk (consumers_slots w Hk Hc)) as Hd. pose proof (consumers_bound cf host Hpaths w Hk) as Hcb.
    set (count := vsize (o_consumers (w_owner w))) in *. set (sorted := sort_tasks _ ++ _).
    assert (Hsz : vsize sorted = vsize (o_descriptors (w_owner w))).
    { unfold sorted, vsize. rewrite length_app. unfold sort_tasks. rewrite merge_sort_Permutation, length_take, length_drop. lia. }
    destruct (grouping_ok cf sorted count) as (g & Hg & Hok); [unfold count, vsize in *; lia|done|]. rewrite Hg. wp_step. apply wp_lift; [|done]. intros ? [= <-].
    wp_step. wp_step. set (w1 := with_owner _ w). assert (H1 : Q tt w1) by (split; [apply descriptors_ok; [done|by rewrite (gd_size _ _ _ _ Hok)]|done]).
    wp_step. eapply (wp_conseq _ Q); [| |by intros ? ? H'; apply H'].
    + destruct (0 <? vsize (gp_groups g)); [by apply Hq|by wp_step].
    + intros [] w2 H2. destruct (0 <? gp_singles g); [by apply Hq|by wp_step].
  - intros [] w' H'. eapply wp_conseq; [by apply Hq|by intros ? ? [? ?]|done].
Qed.

Lemma keeps_finish w : cache_ok cf host w -> keeps (finish_download cf) w.
Proof.
  intros Hk. unfold keeps, finish_download. wp_step. wp_step. destruct (bool_decide _) eqn:Eb; [by wp_step|]. wp_step. wp_step. rewrite run_all.
  destruct (run_all_results cf w) as (Hs & _ & Hst). set (w1 := with_gpu _ w) in *. assert (Hk1 : cache_ok cf host w1) by (by apply (cache_ok_frame cf host w)).
  wp_step. apply (wp_check_failure cf host); [done| |done]. intros _. wp_step.
  eapply wp_conseq; [apply (wp_for _ (fun todo w' => d_stream (w_device w') = [] /\ cache_ok cf host (with_owner (set_consumers todo) w')))| |by intros ? ? H'; apply H'].
  - split; [done|]. destruct Hk1. by split.
  - intros [slot path] todo w' [Hs' Hk']. unfold deliver. wp_step. split; [done|]. apply (release_ok cf host Hlayers Hslots Hpaths (with_pair_outputs _ w') slot path todo); [done|].
    destruct Hk'. by split.
  - intros u w' [_ Hk']. wp_step. done.
Qed.

Lemma keeps_ready_view layer expert w : cache_ok cf host w -> 0 <= layer -> keeps (_ ← ready_view cf layer expert; mret tt) w.
Proof.
  intros Hk Hl. unfold keeps. apply wp_bind. unfold ready_view. wp_step. apply (wp_check_failure cf host); [done| |done]. intros _. wp_step.
  apply wp_throw_if; intros _; [|done]. wp_step. wp_step. wp_step. apply wp_lift; [|done]. intros [i|] _; [wp_step; by wp_step|by wp_step].
Qed.

Lemma run_call_ok c w : cache_ok cf host w -> allowed c w -> keeps (run_call c) w.
Proof.
  intros Hk Ha. destruct c; cbn [run_call allowed] in *; unfold keeps.
  - wp_step. apply (cache_ok_frame cf host w); try done. apply (k_quiet _ _ _ Hk).
  - eapply wp_conseq; [by apply (wp_begin_layer cf host)|by intros ? ? (? & ?)|by intros ? ? (_ & -> & _)].
  - destruct Ha as (? & ? & ?). by apply keeps_execute.
  - by apply keeps_begin_download.
  - by apply keeps_finish.
  - eapply wp_conseq; [by apply (wp_admit cf host)|by intros ? ? (? & _)|by intros ? ? ((? & _) & _)].
  - by apply keeps_ready_view.
  - eapply wp_conseq; [by apply (wp_cache_drain cf host)|by intros ? ? (? & _)|by intros ? ? (_ & _ & ? & _)].
  - eapply wp_conseq; [by apply (wp_freeze cf host)|by intros ? ? (? & _)|by intros ? ? (_ & _ & ?)].
  - eapply wp_conseq; [by apply (wp_reset cf host)|by intros ? ? (? & _)|by intros ? ? (? & _)].
Qed.

Lemma schedule_ok sched w : cache_ok cf host w -> cache_ok cf host (with_schedule sched w).
Proof. intros []. by split. Qed.

Lemma step_ok w w' : step w w' -> cache_ok cf host w -> cache_ok cf host w'.
Proof.
  intros Hs Hk. destruct Hs as [e w|c sched w Ha]; [by apply env_step_ok|]. apply keeps_cache. apply run_call_ok; [by apply schedule_ok|by destruct c].
Qed.

Lemma steps_ok w w' : rtc step w w' -> cache_ok cf host w -> cache_ok cf host w'.
Proof. induction 1 as [|w1 w2 w3 H1 _ IH]; [done|]. intros Hk. apply IH. by eapply step_ok. Qed.
End Steps.
