(* ===== verification/ExpertCacheClaims.v ===== *)
(** What the expert cache promises: its budget, stable reads, correct layers, and that waiting ends. *)
From stdpp Require Import strings gmap sorting.
From S2P Require Import Prelude StorageLayouts ArtifactBinder ArtifactLoad ExpertBank ExpertCache ExpertCacheInv ExpertCacheRun ExpertGroups ExpertCacheLayer ExpertAdmit ExpertSteps.

(** * The budget *)
Lemma pool_bytes_value : kFlashNextRoutedExpertLayers * kExpertSlotBytes = 132722688.
Proof. reflexivity. Qed.

Lemma slots_bounds maximum weights : 0 <= maximum <= 512 -> 0 <= weights ->
  let n := Z.min maximum (weights / 132722688) in
  0 <= n <= maximum /\ n * 132722688 <= weights /\ (n < maximum -> weights < (n + 1) * 132722688) /\
  wrap64 (wrap64 (n * kFlashNextRoutedExpertLayers) * kExpertSlotBytes) = n * 132722688.
Proof.
  intros Hm Hw. cbv zeta. set (q := weights / 132722688).
  assert (Hq : 0 <= q /\ q * 132722688 <= weights < (q + 1) * 132722688).
  { unfold q. pose proof (Z.div_mod weights 132722688 ltac:(done)). pose proof (Z.mod_pos_bound weights 132722688 ltac:(done)). nia. }
  split; [lia|]. split; [lia|]. split; [lia|]. unfold kFlashNextRoutedExpertLayers. rewrite slot_bytes_value.
  rewrite (wrap64_small (Z.min maximum q * 48)) by (unfold U64_MAX; lia). rewrite wrap64_small by (unfold U64_MAX; lia). lia.
Qed.

(** The cache takes what is left, and no more. For sizes of 64 bits the budget is refused exactly when the driver
    reports more free than total memory or more than 512 slots are asked for. Otherwise the slots of a layer are at most the
    maximum, the cache bytes are those of the slots of 48 layers; with a cache, two GiB stay free after cache and
    transfer buffers, the memory in use stays under the limit of 28 GiB (30 with prediction) and of the device; and one
    more slot per layer would break the maximum, the reserve or the limit. *)
Theorem cache_budget_is_largest free total transfer mtp maximum :
  0 <= free <= U64_MAX -> 0 <= total <= U64_MAX -> 0 <= transfer <= U64_MAX -> 0 <= maximum <= U32_MAX ->
  let limit := Z.min total ((if mtp : bool then 30 else 28) * GiB) in
  let fits n := transfer + n * (48 * kExpertSlotBytes) <= free - 2 * GiB /\ total - free + transfer + n * (48 * kExpertSlotBytes) <= limit in
  match flash_next_expert_cache_budget free total transfer mtp maximum with
  | Err e => e = InvalidArgument /\ (total < free \/ 512 < maximum)
  | Ok b => free <= total /\ maximum <= 512 /\ 0 <= bu_slots_per_layer b <= maximum /\ bu_cache_bytes b = bu_slots_per_layer b * (48 * kExpertSlotBytes) /\
      (0 < bu_slots_per_layer b -> fits (bu_slots_per_layer b)) /\
      (bu_slots_per_layer b < maximum -> ~ fits (bu_slots_per_layer b + 1))
  end.
Proof.
  intros Hf Ht Htr Hm limit fits. unfold flash_next_expert_cache_budget. destruct ((total <? free) || (512 <? maximum)) eqn:Eb; simp_bool; cbn [throw_if mbind result_bind].
  { split; [done|]. apply orb_true_iff in Eb as [Eb|Eb]; apply Z.ltb_lt in Eb; [by left|by right]. }
  fold limit. unfold fits. rewrite pool_bytes_value. change (48 * kExpertSlotBytes) with 132722688. cbn [bu_slots_per_layer bu_cache_bytes].
  set (room := Z.min (if 2 * GiB <? free then _ else _) _). set (weights := if transfer <? room then room - transfer else 0).
  assert (Hw : 0 <= weights) by (unfold weights; destruct (Z.ltb_spec transfer room); lia).
  destruct (slots_bounds maximum weights ltac:(lia) Hw) as (H1 & H2 & H3 & H4). cbv zeta in *. rewrite H4. generalize dependent (Z.min maximum (weights / 132722688)). intros n H1 H2 H3 H4.
  unfold weights, room in H2, H3, Hw. clear weights room H4.
  split; [lia|]. split; [lia|]. split; [lia|]. split; [done|].
  destruct (Z.ltb_spec (2 * GiB) free); destruct (Z.ltb_spec (total - free) limit);
    match type of H2 with context [if ?c then _ else _] => destruct c eqn:Ec end;
    [apply Z.ltb_lt in Ec|apply Z.ltb_ge in Ec|apply Z.ltb_lt in Ec|apply Z.ltb_ge in Ec|apply Z.ltb_lt in Ec|apply Z.ltb_ge in Ec|apply Z.ltb_lt in Ec|apply Z.ltb_ge in Ec]; split; intros; try specialize (H3 ltac:(lia)); lia.
Qed.

Lemma cache_budget_is_largest_witness : exists b, flash_next_expert_cache_budget (30 * GiB) (32 * GiB) 12000000 false 512 = Ok b /\
  0 < bu_slots_per_layer b <= 512 /\ 12000000 + bu_slots_per_layer b * (48 * kExpertSlotBytes) <= 30 * GiB - 2 * GiB.
Proof.
  pose proof (cache_budget_is_largest (30 * GiB) (32 * GiB) 12000000 false 512 ltac:(vm_compute; split; discriminate) ltac:(vm_compute; split; discriminate)
    ltac:(vm_compute; split; discriminate) ltac:(vm_compute; split; discriminate)) as H.
  destruct (flash_next_expert_cache_budget (30 * GiB) (32 * GiB) 12000000 false 512) as [b|e] eqn:E; [|discriminate]. exists b. split; [done|].
  destruct H as (_ & _ & H1 & _ & H2 & _). assert (Hpos : 0 < bu_slots_per_layer b) by (injection E as <-; vm_compute; reflexivity).
  split; [lia|]. apply H2. done.
Defined.

(** * A new cache *)
Record cache_setup (cf : config) : Prop := {
  cs_layers : forall s id, 0 <= s < 48 * cf_slots cf -> 0 <= id < 512 -> exists v, table_expert (cf_layers cf) (s / cf_slots cf) id = Ok v;
  cs_table : forall layer lv id, (cf_layers cf).[layer] = Some lv -> 0 <= id < 512 -> exists v, layer_expert lv id = Ok v;
  cs_size : vsize (cf_layers cf) = 48;
  cs_slots : 0 <= cf_slots cf <= 512;
  cs_paths : 0 < cf_paths cf <= U32_MAX;
  cs_cap : 1 <= cf_admission_cap cf;
}.

Lemma checked_layers layers : rfor (fun _ => check_bank_layer) tt layers = Ok tt ->
  Forall (fun v => bv_experts (lv_gate_up v) = 512 /\ bv_experts (lv_down v) = 512) layers.
Proof.
  induction layers as [|v layers IH]; intros H; [apply Forall_nil_2|]. cbn [rfor] in H. apply bind_Ok in H as ([] & Hv & H).
  apply Forall_cons_2; [|by apply IH]. unfold check_bank_layer in Hv. apply bind_Ok in Hv as (bytes & _ & Hv). apply throw_if_Ok in Hv.
  apply orb_false_iff in Hv as [Hv H2]. apply orb_false_iff in Hv as [_ H1]. apply negb_false_iff, Z.eqb_eq in H1, H2. done.
Qed.

Lemma checked_expert v id : bv_experts (lv_gate_up v) = 512 -> bv_experts (lv_down v) = 512 -> 0 <= id < 512 -> exists p, layer_expert v id = Ok p.
Proof.
  intros H1 H2 Hid. unfold layer_expert, bank_expert. rewrite H1, H2. rewrite (proj2 (Z.ltb_ge id 0)), (proj2 (Z.leb_gt 512 id)) by lia. cbn. by eexists.
Qed.

Lemma make_cache_ok layers max_tokens mtp maximum cap options free total storage activations outputs memory host cf w :
  vsize layers = 48 -> 0 <= max_tokens -> max_tokens * 10 <= U32_MAX -> 0 <= maximum ->
  make_cache layers max_tokens mtp maximum cap options free total storage activations outputs memory = Ok (cf, w) -> cache_setup cf /\ cache_ok cf host w.
Proof.
  intros Hl Ht0 Ht Hm H. unfold make_cache in H. apply bind_Ok in H as ([] & Hc%throw_if_Ok & H). apply bind_Ok in H as ([] & Htz%throw_if_Ok & H).
  apply bind_Ok in H as ([] & Hb%checked_layers & H). apply bind_Ok in H as (budget & Hbud & H). injection H as <- <-. simp_bool.
  assert (Hs : 0 <= bu_slots_per_layer budget <= 512).
  { unfold flash_next_expert_cache_budget in Hbud. apply bind_Ok in Hbud as ([] & Hg%throw_if_Ok & Hbud). injection Hbud as <-. simp_bool.
    cbn [bu_slots_per_layer]. rewrite pool_bytes_value. match goal with |- context [?w0 / _] => set (weights := w0) end.
    assert (Hw : 0 <= weights) by (unfold weights; match goal with |- context [?a <? ?b] => destruct (Z.ltb_spec a b) end; try lia; destruct (_ <? _); lia).
    destruct (slots_bounds maximum weights ltac:(lia) Hw) as (Hn1 & _). cbv zeta in Hn1. lia. }
  assert (Htab : forall layer lv id, layers.[layer] = Some lv -> 0 <= id < 512 -> exists v, layer_expert lv id = Ok v).
  { intros layer lv id Hlv Hid. rewrite Forall_forall in Hb. unfold vget in Hlv. destruct (0 <=? layer); [|done]. destruct (Hb lv) as [Hg1 Hg2]; [by eapply list_elem_of_lookup_2|].
    by apply checked_expert. }
  split.
  - split; cbn; [| done | done | done | lia | lia]. intros s id Hsl Hid. assert (Hd : 0 <= s / bu_slots_per_layer budget < 48).
    { split; [apply Z.div_pos; lia|]. apply Z.div_lt_upper_bound; lia. }
    destruct (vget_is_Some layers (s / bu_slots_per_layer budget)) as [lv Hlv]; [lia|]. unfold table_expert.
    rewrite (proj2 (Z.ltb_ge _ 0)), (proj2 (Z.leb_gt _ _)) by lia. cbn [orb throw_if mbind result_bind]. rewrite Hlv. by eapply Htab.
  - assert (Hentry : forall s e, (replicate (Z.to_nat (bu_slots_per_layer budget * 48)) empty_entry).[s] = Some e -> e = empty_entry).
    { intros s e He. unfold vget in He. destruct (0 <=? s); [|done]. by apply lookup_replicate in He as [-> _]. }
    split; cbn; try done.
    + unfold vsize. rewrite length_replicate. lia.
    + by intros s e ->%Hentry.
    + by intros i j a b ->%Hentry ->%Hentry.
    + apply NoDup_nil_2.
    + intros s Hin. by apply not_elem_of_nil in Hin.
    + by intros s e ->%Hentry.
    + intros s p Hin. by apply not_elem_of_nil in Hin.
    + apply NoDup_nil_2.
    + by intros s e ->%Hentry.
    + intros Hne. rewrite (proj2 (Z.eqb_neq _ 0)) by done. unfold vsize. rewrite length_replicate. lia.
    + by intros _ s e ->%Hentry.
Qed.

(** The worlds of a cache that was built for 48 layers. Tokens are so few that paths fit in 32 bits. *)
Inductive reachable (cf : config) (host : Z -> Z) : world -> Prop :=
  | reach_new layers max_tokens mtp maximum cap options free total storage activations outputs memory w :
      vsize layers = kFlashNextRoutedExpertLayers -> 0 <= max_tokens -> max_tokens * 10 <= U32_MAX -> 0 <= maximum ->
      make_cache layers max_tokens mtp maximum cap options free total storage activations outputs memory = Ok (cf, w) -> reachable cf host w
  | reach_step w w' : reachable cf host w -> step cf host w w' -> reachable cf host w'.

Lemma reachable_ok cf host w : reachable cf host w -> cache_setup cf /\ cache_ok cf host w.
Proof.
  induction 1 as [layers max_tokens mtp maximum cap options free total storage activations outputs memory w Hl H0 Ht Hm Hw|w w' _ [Hc IH] Hs].
  - eapply make_cache_ok; [exact Hl|exact H0|exact Ht|exact Hm|exact Hw].
  - split; [done|]. destruct Hc. by eapply (step_ok cf host).
Qed.

(** * Stable reads *)

(** C19. What is leased stays put. In every reachable state, with the worker at any point of a fill and any kernels queued, every slot that a queued
    computation uses is ready, holds byte for byte the expert of its layer that it is labelled with, is neither
    waiting for the worker nor being filled, and its lease count is the number of paths that use it; at most four
    fills are outstanding, and no layer has an expert twice. *)
Theorem leased_slots_are_stable cf host w : reachable cf host w ->
  (forall s p, (s, p) ∈ o_consumers (w_owner w) -> exists e v,
     (c_entries (w_shared w)).[s] = Some e /\ en_state e = EReady /\ en_leases e = vsize (filter (fun c => fst c = s) (o_consumers (w_owner w))) /\
     table_expert (cf_layers cf) (s / cf_slots cf) (en_expert e) = Ok v /\
     (forall o, 0 <= o < kExpertPairBytes -> pair_byte (d_storage (w_device w)) (view cf s) o = pair_byte host v o) /\
     s ∉ c_queue (w_shared w) /\ (forall id, w_worker w <> WPopped s id) /\ w_worker w <> WCopied s) /\
  outstanding (w_shared w) <= 4 /\
  (forall i j a b, (c_entries (w_shared w)).[i] = Some a -> (c_entries (w_shared w)).[j] = Some b -> en_state a <> EEmpty -> i <> j ->
     i / cf_slots cf = j / cf_slots cf -> en_expert a <> en_expert b).
Proof.
  intros [Hc Hk]%reachable_ok. split; [|split; [apply (k_bound _ _ _ Hk)|]].
  - intros s p Hin. destruct (k_consumers _ _ _ Hk s p Hin) as (_ & e & He & Hr). destruct (k_ready _ _ _ Hk s e He Hr) as (v & Hv & Hb).
    assert (Hidle : s ∉ c_queue (w_shared w) ++ busy (w_worker w)) by (intros Hq; destruct (k_uploading _ _ _ Hk s Hq) as (x & Hx & Hu); congruence).
    apply not_elem_of_app in Hidle as [Hq Hw]. exists e, v. split; [done|]. split; [done|]. split; [by apply (k_leases _ _ _ Hk)|]. split; [done|].
    split; [intros o Ho; rewrite pair_byte_view by done; by apply Hb|]. split; [done|]. split; [intros id E|intros E]; rewrite E in Hw; apply Hw; cbn; set_solver.
  - intros i j a b Ha Hb Hne Hij Hd Hab. pose proof (k_distinct _ _ _ Hk i j a b Ha Hb Hij Hd Hab) as Hx. pose proof (k_entry _ _ _ Hk i a Ha) as Ho. unfold entry_ok in Ho.
    rewrite Hx in Ho. destruct (en_state a); [done|lia|done|lia].
Qed.

(** * A layer *)
Section Layers.
Context (cf : config) (host : Z -> Z) (Hsetup : cache_setup cf).

(** How the routes of a layer were split into hits and misses. *)
Definition routed (layer : Z) (routes : list (Z * Z)) (path : Z) (misses : list (option HostNvfp4ExpertPairView)) (hits : list hit) : Prop :=
  length misses = length routes /\ (forall h, h ∈ hits -> path <= h_path h < path + vsize routes) /\
  forall k id input, routes !! k = Some (id, input) ->
    (misses !! k = Some None /\ exists h, h ∈ hits /\ h_path h = path + Z.of_nat k /\ h_expert h = id /\ h_input h = input) \/
    (exists v, misses !! k = Some (Some v) /\ table_expert (cf_layers cf) layer id = Ok v /\ path + Z.of_nat k ∉ map h_path hits).

Lemma routed_cons layer id input routes path m misses hits first : routed layer routes (path + 1) misses hits ->
  (m = None /\ exists h, first = [h] /\ h_path h = path /\ h_expert h = id /\ h_input h = input) \/
  (exists v, m = Some v /\ first = [] /\ table_expert (cf_layers cf) layer id = Ok v) ->
  routed layer ((id, input) :: routes) path (m :: misses) (first ++ hits).
Proof.
  intros (Hlen & Hb & Hr) Hm. split; [cbn; by rewrite Hlen|]. rewrite vsize_cons. assert (Hv : 0 <= vsize routes) by (unfold vsize; lia).
  assert (Hfirst : forall h, h ∈ first -> h_path h = path).
  { intros h Hin. destruct Hm as [(_ & h0 & -> & Hp & _) | (_ & _ & -> & _)]; [by apply list_elem_of_singleton in Hin as ->|by apply not_elem_of_nil in Hin]. }
  split; [intros h [Hin | Hin]%elem_of_app; [rewrite (Hfirst h Hin); lia|specialize (Hb h Hin); lia]|].
  intros [|k] id' input' Hk; cbn in Hk |- *.
  - injection Hk as <- <-. destruct Hm as [(-> & h & -> & Hp & Hx & Hi) | (v & -> & -> & Hv')]; [left|right].
    + split; [done|]. exists h. split; [set_solver|]. split; [lia|done].
    + exists v. split; [done|]. split; [done|]. intros Hin. apply list_elem_of_fmap in Hin as (h & E & Hin). cbn in Hin. specialize (Hb h Hin). lia.
  - destruct (Hr k id' input' Hk) as [(H1 & h & Hin & Hp & Hx) | (v & H1 & H2 & H3)]; [left|right].
    + split; [done|]. exists h. split; [set_solver|]. split; [lia|done].
    + exists v. split; [done|]. split; [done|]. intros Hin. apply list_elem_of_fmap in Hin as (h & E & Hin). apply elem_of_app in Hin as [Hin|Hin].
      * rewrite (Hfirst h Hin) in E. lia.
      * apply H3. apply list_elem_of_fmap. exists h. split; [lia|done].
Qed.

(** Why a layer can fail. *)
Definition layer_error (routes : list (Z * Z)) (path : Z) (e : error) (w : world) : Prop :=
  cache_ok cf host w /\
  (e = InvalidArgument /\ Exists (fun r => ~ 0 <= fst r < 512) routes \/ e = OutOfRange /\ cf_paths cf < path + vsize routes \/
   e = RuntimeError /\ c_failure (w_shared w) = Some RuntimeError).

Lemma layer_error_cons r routes path e w : layer_error routes (path + 1) e w -> layer_error (r :: routes) path e w.
Proof.
  intros [Hk He]. split; [done|]. rewrite vsize_cons. destruct He as [[-> H] | [[-> H] | H]]; [left; split; [done|by apply Exists_cons; right]|right; left; split; [done|lia]|by right; right].
Qed.

Lemma table_layer layer lv id : (cf_layers cf).[layer] = Some lv -> table_expert (cf_layers cf) layer id = layer_expert lv id.
Proof.
  intros Hl. pose proof (vget_Some_bounds _ _ _ Hl) as Hb. unfold table_expert. rewrite (proj2 (Z.ltb_ge layer 0)), (proj2 (Z.leb_gt _ layer)) by lia. cbn [orb throw_if mbind result_bind]. by rewrite Hl.
Qed.

Lemma wp_run_routes lv layer routes path hits w : (cf_layers cf).[layer] = Some lv -> 0 <= layer < 48 -> 0 <= path ->
  cache_ok cf host w -> hits_ok cf layer hits w -> pending cf host layer hits w -> (forall h, h ∈ hits -> h_path h < path) ->
  wp (run_routes cf host lv layer routes path)
    (fun misses w' => exists new, in_layer cf host layer (hits ++ new) w w' /\ pending cf host layer (hits ++ new) w' /\ routed layer routes path misses new)
    (layer_error routes path) w.
Proof.
  pose proof Hsetup as [Hlayers Htable Hsize Hslots Hpaths Hcap]. intros Hlv Hl. revert path hits w.
  induction routes as [|[id input] routes IH]; intros path hits w Hp Hk Hh Hpend Hbelow; cbn [run_routes].
  { wp_step. exists []. rewrite app_nil_r. split; [done|]. split; [done|]. split; [done|]. split; [intros h Hin; by apply not_elem_of_nil in Hin|]. intros k ? ? Hn. by rewrite lookup_nil in Hn. }
  wp_step. eapply wp_conseq; [apply (wp_execute cf host Hlayers Hslots Hpaths layer id input path hits w); try done| |].
  { intros Hin. apply list_elem_of_fmap in Hin as (h & E & Hin). specialize (Hbelow h Hin). lia. }
  2: { intros e w' [Hk' He]. split; [done|]. rewrite vsize_cons. assert (Hv : 0 <= vsize routes) by (unfold vsize; lia).
       destruct He as [[-> H] | [[-> H] | H]]; [left; split; [done|by apply Exists_cons; left]|right; left; split; [done|lia]|by right; right]. }
  cbv beta. intros found w1 (Hk1 & Hpo1 & Hid & Hf). wp_step.
  assert (Hnext : exists first, hits_ok cf layer (hits ++ first) w1 /\ pending cf host layer (hits ++ first) w1 /\ (forall h, h ∈ first -> h_path h = path) /\
            (found = true /\ (exists h, first = [h] /\ h_path h = path /\ h_expert h = id /\ h_input h = input) \/ found = false /\ first = [])).
  { destruct found.
    - destruct Hf as (_ & s & Hh1 & Hp1). exists [mkHit s path id input]. split; [done|]. split; [done|]. split; [by intros h ->%list_elem_of_singleton|]. left. split; [done|]. by eexists.
    - exists []. rewrite app_nil_r. destruct Hf. split; [done|]. split; [done|]. split; [intros h Hin; by apply not_elem_of_nil in Hin|]. by right. }
  destruct Hnext as (first & Hh1 & Hp1 & Hfirst & Hcase). apply (wp_others cf host Hlayers layer (hits ++ first)); [done|done|]. intros w2 Hk2 Hh2 Hkept.
  pose proof (pending_kept cf host layer _ _ _ Hkept Hp1) as Hp2. wp_step.
  destruct (Htable layer lv id Hlv Hid) as [v Hv]. apply wp_lift; [|intros e He; destruct found; [done|]; rewrite Hv in He; done].
  intros m Hm. wp_step. eapply wp_conseq; [apply (IH (path + 1) (hits ++ first) w2); try done; [lia|]| |intros e w'; apply layer_error_cons].
  { intros h [Hin|Hin]%elem_of_app; [specialize (Hbelow h Hin); lia|rewrite (Hfirst h Hin); lia]. }
  cbv beta. intros misses w3 (new & (Hk3 & Hh3 & Hpo3) & Hp3 & Hr). wp_step. exists (first ++ new). rewrite app_assoc. split.
  { split; [done|]. split; [done|]. rewrite Hpo3, (kp_pair _ _ _ Hkept). done. }
  split; [done|]. apply routed_cons; [done|]. destruct Hcase as [(-> & Hx) | [-> ->]].
  - left. by injection Hm as <-.
  - right. exists v. rewrite Hv in Hm. cbn in Hm. injection Hm as <-. split; [done|]. split; [done|]. by rewrite (table_layer layer lv).
Qed.

Definition layer_result (layer : Z) (routes : list (Z * Z)) (before : Z -> option KernelOutput) (misses : list (option HostNvfp4ExpertPairView)) (w' : world) : Prop :=
  length misses = length routes /\ o_consumers (w_owner w') = [] /\
  forall k id input, routes !! k = Some (id, input) -> exists v, table_expert (cf_layers cf) layer id = Ok v /\
    (misses !! k = Some None /\ (exists out, w_pair_outputs w' (Z.of_nat k) = Some out /\ ko_input out = input /\
                                    forall i, 0 <= i < kExpertPairBytes -> ko_weights out i = pair_byte host v i) \/
     misses !! k = Some (Some v) /\ w_pair_outputs w' (Z.of_nat k) = before (Z.of_nat k)).

Lemma routed_result layer routes misses hits before w' : routed layer routes 0 misses hits -> delivered cf host layer hits before (w_pair_outputs w') ->
  o_consumers (w_owner w') = [] -> layer_result layer routes before misses w'.
Proof.
  intros (Hlen & _ & Hr) [Hd Ho] Hc. split; [done|]. split; [done|]. intros k id input Hk.
  destruct (Hr k id input Hk) as [(Hm & h & Hin & Hp & Hx & Hi) | (v & Hm & Hv & Hn)].
  - destruct (Hd h Hin) as (out & v & E & Hin' & Hv & Hw). rewrite Hx in Hv. rewrite Hp in E. exists v. split; [done|]. left. split; [done|]. exists out. split; [done|]. split; [congruence|done].
  - exists v. split; [done|]. right. split; [done|]. by apply Ho.
Qed.

Lemma wp_run_layer lv layer prefill routes w : (cf_layers cf).[layer] = Some lv -> cache_ok cf host w ->
  wp (run_layer cf host lv layer prefill routes) (layer_result layer routes (w_pair_outputs w))
    (fun e w' => layer_error routes 0 e w' \/ e = LogicError /\ o_consumers (w_owner w) <> []) w.
Proof.
  pose proof Hsetup as [Hlayers Htable Hsize Hslots Hpaths Hcap]. intros Hlv Hk. pose proof (vget_Some_bounds _ _ _ Hlv) as Hl. rewrite Hsize in Hl.
  unfold run_layer. wp_step. eapply wp_conseq; [by apply (wp_begin_layer cf host)| |by intros e w' (-> & _ & Hc); right].
  intros u w1 (Hk1 & Hc1 & Hp1). pose proof (no_hits cf host layer w1 Hk1 Hc1) as Hh1. wp_step. apply (wp_others cf host Hlayers layer []); [done|done|].
  intros w2 Hk2 Hh2 Hkept2. wp_step.
  assert (Hpend2 : pending cf host layer [] w2).
  { assert (Hq : d_stream (w_device w2) = []) by (apply (k_quiet _ _ _ Hk2); by apply (ho_consumers _ _ _ _ Hh2)). unfold pending.
    destruct (o_batching_layer (w_owner w2)); [split; [done|]; intros k h Hn; by rewrite lookup_nil in Hn|]. intros h Hin. by apply not_elem_of_nil in Hin. }
  eapply wp_conseq; [apply (wp_run_routes lv layer routes 0 []); try done; intros h Hin; by apply not_elem_of_nil in Hin| |by intros e w' He; left].
  cbv beta. intros misses w3 (hits & (Hk3 & Hh3 & Hp3) & Hpend3 & Hr). cbn [app] in *. wp_step.
  eapply wp_conseq; [apply (wp_begin_download cf host Hlayers Hslots Hpaths layer hits (vsize routes)); try done| |].
  { intros h Hin. destruct Hr as (_ & Hb & _). specialize (Hb h Hin). lia. }
  2: { intros e w' (-> & Hn & Hk'). left. split; [done|]. right. left. split; [done|lia]. }
  cbv beta. intros u4 w4 ((Hk4 & Hh4 & Hp4) & Hd4). wp_step. apply (wp_others cf host Hlayers layer hits); [done|done|]. intros w5 Hk5 Hh5 Hkept5.
  pose proof (downloaded_kept cf host layer hits _ _ Hkept5 Hd4) as Hd5. wp_step.
  eapply wp_conseq; [by apply (wp_finish_download cf host Hlayers Hslots Hpaths layer hits)| |intros e w' (-> & Hf & Hk'); left; split; [done|]; by right; right].
  cbv beta. intros u6 w6 (Hk6 & Hc6 & Hdel). wp_step. apply (wp_others_any cf host Hlayers); [done|]. intros w7 Hk7 [Ho7 Hp7] _. wp_step.
  assert (Hpo : w_pair_outputs w5 = w_pair_outputs w) by (rewrite (kp_pair _ _ _ Hkept5), Hp4, Hp3, (kp_pair _ _ _ Hkept2), Hp1; done).
  eapply wp_conseq; [apply (wp_admit cf host Hslots layer (map fst routes)); [done|lia|done]| |].
  - cbv beta. intros u8 w8 (Hk8 & Ho8 & _ & Hp8 & _). wp_step. apply (routed_result layer routes misses hits); [done| |by rewrite Ho8, Ho7]. rewrite Hp8, Hp7, <- Hpo. done.
  - cbv beta. intros e w8 ((Hk8 & _ & _ & _ & Hf8) & He). left. split; [done|]. destruct He as [[-> [He|He]] | [-> He]]; [lia| |right; right; split; [done|congruence]].
    left. split; [done|]. apply Exists_exists in He as (id & Hin & Hid). apply list_elem_of_fmap in Hin as (r & -> & Hin). apply Exists_exists. by exists r.
Qed.
End Layers.

(** C1. A layer with the cache computes every path with the expert it was routed to. From every reachable state, for every layer, route list, mode and every
    interleaving with the worker and the device: if the layer returns, each path either was computed on the device from its own
    input and exactly the bytes that the host bank has for its expert in its layer, and this result was
    delivered at its place, or is left to the processor with the view of that expert and its place untouched; no lease is
    left. Group kernels take the weights of their first task, so groups are of one expert. It throws only for an expert out of range, for more paths than the buffers have, if the worker has failed, or
    if an earlier layer was left unfinished. *)
Theorem cached_layer_is_exact cf host w sched lv layer prefill routes : reachable cf host w -> (cf_layers cf).[layer] = Some lv ->
  let '(w', r) := run_layer cf host lv layer prefill routes (with_schedule sched w) in
  match r with
  | Ok misses => length misses = length routes /\ o_consumers (w_owner w') = [] /\
      forall k id input, routes !! k = Some (id, input) -> exists v, table_expert (cf_layers cf) layer id = Ok v /\
        (misses !! k = Some None /\ (exists out, w_pair_outputs w' (Z.of_nat k) = Some out /\ ko_input out = input /\
                                       forall i, 0 <= i < kExpertPairBytes -> ko_weights out i = pair_byte host v i) \/
         misses !! k = Some (Some v) /\ w_pair_outputs w' (Z.of_nat k) = w_pair_outputs w (Z.of_nat k))
  | Err e => e = InvalidArgument /\ Exists (fun r => ~ 0 <= fst r < 512) routes \/ e = OutOfRange /\ cf_paths cf < vsize routes \/
      e = RuntimeError /\ c_failure (w_shared w') = Some RuntimeError \/ e = LogicError /\ o_consumers (w_owner w) <> []
  end.
Proof.
  intros [Hc Hk]%reachable_ok Hlv. pose proof (wp_run_layer cf host Hc lv layer prefill routes _ Hlv (schedule_ok cf host sched w Hk)) as H. unfold wp in H.
  destruct (run_layer _ _ _ _ _ _ _) as [w' [misses|e]]; [exact H|]. destruct H as [[_ H] | H]; [|by right; right; right].
  destruct H as [H | [[He Hn] | H]]; [by left|right; left; split; [done|lia]|by right; right; left].
Qed.

(** * Waiting *)
Section Progress.
Context (cf : config) (host : Z -> Z).
Context (Hlayers : forall s id, 0 <= s < 48 * cf_slots cf -> 0 <= id < 512 -> exists v, table_expert (cf_layers cf) (s / cf_slots cf) id = Ok v).

(** The device and the copies do not fail. *)
Definition calm (sched : list (list env)) : Prop := Forall (fun es => EFail ∉ es) sched.

Definition grows (w0 w : world) : Prop :=
  c_failure (w_shared w) = None /\ calm (w_schedule w) /\
  forall s e, (c_entries (w_shared w0)).[s] = Some e ->
    exists e', (c_entries (w_shared w)).[s] = Some e' /\ en_expert e' = en_expert e /\ (en_state e' = EEmpty <-> en_state e = EEmpty).

Lemma env_step_grows e w0 w : cache_ok cf host w -> e <> EFail -> grows w0 w -> grows w0 (env_step cf host e w).
Proof.
  intros Hk Hne (Hf & Hc & Hg). unfold env_step. destruct e, (w_worker w) as [|slot id|slot|] eqn:Hw; try done.
  - destruct (c_queue (w_shared w)); [done|]. by destruct ((c_entries (w_shared w)).[_]).
  - destruct (popped_source cf host Hlayers w slot id Hk Hw) as [src ->]. done.
  - destruct (k_uploading _ _ _ Hk slot) as (x & Hx & Hu); [rewrite Hw; set_solver|]. pose proof (vget_Some_bounds _ _ _ Hx) as Hb.
    split; [|split; [done|]]; cbn; unfold publish_slot; rewrite Hx; cbn; [done|]. intros s e He. destruct (Hg s e He) as (e' & He' & H1 & H2).
    destruct (decide (s = slot)) as [->|Hsn]; [rewrite vget_vset_eq by done|rewrite vget_vset_ne by done; by exists e'].
    eexists. split; [done|]. cbn. assert (e' = x) as -> by congruence. split; [done|]. split; [done|]. intros E. apply H2 in E. congruence.
Qed.

Lemma wp_others_grows w0 E w : cache_ok cf host w -> grows w0 w -> wp (others cf host) (fun _ => grows w0) E w.
Proof.
  intros Hk Hg. unfold others. apply wp_modify. destruct (w_schedule w) as [|es rest] eqn:Es; [done|].
  assert (Hcalm : EFail ∉ es /\ calm rest) by (destruct Hg as (_ & Hc & _); rewrite Es in Hc; by apply Forall_cons_1 in Hc). destruct Hcalm as [Hes Hrest].
  assert (Hgen : forall es w1, EFail ∉ es -> cache_ok cf host w1 -> grows w0 w1 -> grows w0 (foldl (fun w e => env_step cf host e w) w1 es)).
  { clear -Hlayers. induction es as [|e es IH]; intros w1 Hes Hk1 Hg1; [done|]. cbn. apply not_elem_of_cons in Hes as [He Hes]. apply IH; [done|by apply env_step_ok|by apply env_step_grows]. }
  apply Hgen; [done|by apply schedule_ok|]. destruct Hg as (H1 & _ & H2). done.
Qed.

Lemma wp_wait_idle_grows fuel w0 E w : cache_ok cf host w -> load w <= Z.of_nat fuel -> grows w0 w -> wp (wait_idle cf host fuel) (fun _ => grows w0) E w.
Proof.
  revert w. induction fuel as [|fuel IH]; intros w Hk Hf Hg; cbn [wait_idle]; wp_step; wp_step; rewrite (load_idle cf host w Hk); pose proof (load_bound cf host w Hk) as Hb;
    (destruct (Z.eqb_spec (load w) 0) as [E0|E0]; [by wp_step|]); [lia|].
  wp_step. pose proof (wp_others_grows w0 E w Hk Hg) as H1.
  assert (H2 : wp (others cf host) (fun _ w' => cache_ok cf host w' /\ load w' <= load w) E w) by (apply (wp_others_any cf host Hlayers); [done|]; by intros w' ? _ ?).
  unfold wp in H1, H2 |- *. destruct (others cf host w) as [w1 [[]|e]]; [|done]. destruct H2 as [Hk1 Hl1]. cbv beta.
  assert (H3 : cache_ok cf host (worker_step cf host w1) /\ load (worker_step cf host w1) <= Z.of_nat fuel /\ grows w0 (worker_step cf host w1)).
  { pose proof (load_bound cf host w1 Hk1) as Hb1. assert (Hw : cache_ok cf host (worker_step cf host w1) /\ load (worker_step cf host w1) <= Z.of_nat fuel).
    { destruct (decide (load w1 = 0)) as [E1|E1]; [|destruct (worker_step_load cf host Hlayers w1 Hk1 ltac:(lia)); split; [done|lia]].
      unfold worker_step. destruct (w_worker w1); try (split; [by apply env_step_ok|etrans; [by apply (env_step_load cf host Hlayers)|lia]]). split; [done|lia]. }
    destruct Hw as [Hw1 Hw2]. split; [done|]. split; [done|]. unfold worker_step. destruct (w_worker w1); try done; by apply env_step_grows. }
  destruct H3 as (Hk2 & Hl2 & Hg2). exact (IH _ Hk2 Hl2 Hg2).
Qed.
End Progress.

(** C7. Everything that was admitted becomes ready. In every reachable state whose worker has not failed, waiting for the cache ends
    for every interleaving without a failure of the device: it returns normally, nothing is queued or being filled,
    the experts are in the slots they were given, and every slot that is not empty is ready and holds the bytes of its expert. *)
Theorem drain_makes_ready cf host w sched : reachable cf host w -> c_failure (w_shared w) = None -> Forall (fun es => EFail ∉ es) sched ->
  exists w', drain cf host (with_schedule sched w) = (w', Ok tt) /\ outstanding (w_shared w') = 0 /\
    forall s e, (c_entries (w_shared w)).[s] = Some e -> exists e', (c_entries (w_shared w')).[s] = Some e' /\ en_expert e' = en_expert e /\
      (en_state e = EEmpty /\ en_state e' = EEmpty \/
       en_state e <> EEmpty /\ en_state e' = EReady /\ exists v, table_expert (cf_layers cf) (s / cf_slots cf) (en_expert e) = Ok v /\
         forall o, 0 <= o < kExpertPairBytes -> pair_byte (d_storage (w_device w')) (view cf s) o = pair_byte host v o).
Proof.
  intros [Hc Hk]%reachable_ok Hf Hcalm. pose proof (schedule_ok cf host sched w Hk) as Hks. set (w0 := with_schedule sched w) in *. pose proof (cs_layers _ Hc) as Hl.
  pose proof (load_bound cf host w0 Hks) as Hb.
  assert (Hg0 : grows w0 w0) by (split; [done|]; split; [done|]; intros s e He; by exists e).
  pose proof (wp_wait_idle_grows cf host Hl 12 w0 (fun _ _ => False) w0 Hks ltac:(lia) Hg0) as H1. pose proof (wp_cache_drain cf host Hl w0 Hks) as H2.
  unfold wp, drain in *. unfold mbind, M_bind in H2 |- *. destruct (wait_idle cf host 12 w0) as [w' [[]|e]]; [|done]. destruct H1 as (Hf' & _ & Hg). revert H2.
  unfold check_failure, mbind, M_bind, mget. rewrite Hf'. intros (Hk' & _ & Hload & _ & Hrest). exists w'. split; [done|].
  assert (Hidle : idle w' = true) by (rewrite (load_idle cf host w' Hk'), Hload; done). unfold idle in Hidle. apply andb_true_iff in Hidle as [Hq Hfl].
  apply bool_decide_eq_true in Hq. apply negb_true_iff in Hfl. split; [unfold outstanding, vsize; by rewrite Hq, Hfl|].
  intros s e He. destruct (Hg s e He) as (e' & He' & Hx & Hempty). exists e'. split; [done|]. split; [done|].
  destruct (decide (en_state e = EEmpty)) as [Ee|Ee]; [left; split; [done|by apply Hempty]|right]. split; [done|].
  destruct (Hrest s e' He') as [Hr | Hr]; [by apply Hempty in Hr|]. split; [done|]. destruct (k_ready _ _ _ Hk' s e' He' Hr) as (v & Hv & Hbytes). exists v. rewrite <- Hx. split; [done|].
  intros o Ho. rewrite pair_byte_view by done. by apply Hbytes.
Qed.

(** * The slot that is given up *)

(** The slot that an admission takes. For every layer of a reachable cache the search for a slot returns: none exactly when each slot of the layer
    is leased or being filled; otherwise a slot of the layer that is neither, the first empty one if there is one,
    and else one whose last use is no later than that of any other such slot. *)
Theorem victim_is_least_recent cf host w layer : reachable cf host w -> 0 <= layer < 48 ->
  let entries := c_entries (w_shared w) in let lo := layer * cf_slots cf in let hi := lo + cf_slots cf in
  let free e := en_leases e = 0 /\ en_state e <> EUploading in
  exists r, find_victim entries (Z.to_nat (cf_slots cf)) lo None = Ok r /\
  match r with
  | None => forall j x, lo <= j < hi -> entries.[j] = Some x -> ~ free x
  | Some v => lo <= v < hi /\ exists e, entries.[v] = Some e /\ free e /\
      if decide (en_state e = EEmpty) then forall j x, lo <= j < v -> entries.[j] = Some x -> free x -> en_state x <> EEmpty
      else forall j x, lo <= j < hi -> entries.[j] = Some x -> free x -> en_state x <> EEmpty /\ en_epoch e <= en_epoch x
  end.
Proof.
  intros [Hc Hk]%reachable_ok Hl. cbv zeta. pose proof (cs_slots _ Hc) as Hs. destruct (layer_slots cf host Hs w layer Hk Hl) as [Hlo Hend].
  destruct (find_victim_ok (c_entries (w_shared w)) (layer * cf_slots cf) (Z.to_nat (cf_slots cf)) (layer * cf_slots cf) None) as (r & Er & Hr); [lia|done|split; intros j x; lia|].
  exists r. split; [done|]. rewrite Z2Nat.id in Hr by lia. exact Hr.
Qed.

(** * An example cache *)

(** A bank at [base] of 512 experts, and 48 layers of two banks; memory that tells addresses apart. *)
Definition demo_bank (base rows columns : Z) : Nvfp4ExpertBankView :=
  let codes := rows * columns / 2 in let scales := rows * columns / 16 in
  mkBankView base (base + 512 * codes) (base + 512 * (codes + scales)) 512 rows columns codes scales.
Definition demo_layers : list HostNvfp4ExpertLayerView :=
  map (fun l => mkLayer (demo_bank (l * 2000000000) 1280 2560) (demo_bank (l * 2000000000 + 1000000000) 2560 640)) (seqZ 0 48).
Definition demo_host : Z -> Z := fun a => (a * 7 + a / 1000) mod 256.

Definition demo_config : config := mkConfig demo_layers 2 10 1 1000 500000000000 600000000000.
Definition demo_new : world :=
  mkWorld (mkShared (replicate 96 empty_entry) [] false None 0 (fun _ => 0))
    (mkOwner [] false false false false true true (replicate 10 zero_task)) (mkDevice (fun _ => 0) [] (fun _ => None) (fun _ => None)) WIdle (fun _ => None) [].
(** Expert 5 of layer 0 is admitted; it is filled; a layer uses it on path 3. *)
Definition demo_admitted : world := fst (run_call demo_config demo_host (CAdmit 0 [5]) demo_new).
Definition demo_filled : world := foldl (fun w e => env_step demo_config demo_host e w) demo_admitted [EPop; ECopy; EPublish].
Definition demo_started : world := fst (run_call demo_config demo_host (CBeginLayer true) (with_schedule [] demo_filled)).
Definition demo_leased : world := fst (run_call demo_config demo_host (CExecute 0 5 77 3) (with_schedule [] demo_started)).

Lemma demo_new_reachable : reachable demo_config demo_host demo_new.
Proof.
  apply (reach_new _ _ demo_layers 1 false 2 1 (mkOptions false false true) (4 * GiB) (4 * GiB) 1000 500000000000 600000000000 (fun _ => 0));
    [reflexivity|lia|vm_compute; discriminate|lia|vm_compute; reflexivity].
Qed.

Lemma demo_admitted_reachable : reachable demo_config demo_host demo_admitted.
Proof. eapply reach_step; [apply demo_new_reachable|]. apply (step_call _ _ (CAdmit 0 [5]) [] demo_new). cbn. lia. Qed.

Lemma demo_filled_reachable : reachable demo_config demo_host demo_filled.
Proof. unfold demo_filled. cbn [foldl]. repeat (eapply reach_step; [|apply step_others]). apply demo_admitted_reachable. Qed.

Lemma demo_leased_reachable : reachable demo_config demo_host demo_leased.
Proof.
  eapply reach_step; [eapply reach_step; [apply demo_filled_reachable|apply (step_call _ _ (CBeginLayer true) [] demo_filled); done]|].
  apply (step_call _ _ (CExecute 0 5 77 3) [] demo_started). cbn [allowed]. split; [lia|]. split; [lia|]. vm_compute. by apply not_elem_of_nil.
Qed.

Lemma leased_slots_are_stable_witness : o_consumers (w_owner demo_leased) = [(0, 3)] /\ 0 ∉ c_queue (w_shared demo_leased) /\
  exists e v, (c_entries (w_shared demo_leased)).[0] = Some e /\ en_state e = EReady /\ table_expert demo_layers 0 (en_expert e) = Ok v /\
    forall o, 0 <= o < kExpertPairBytes -> pair_byte (d_storage (w_device demo_leased)) (view demo_config 0) o = pair_byte demo_host v o.
Proof.
  assert (Hc : o_consumers (w_owner demo_leased) = [(0, 3)]) by (vm_compute; reflexivity).
  destruct (leased_slots_are_stable demo_config demo_host demo_leased demo_leased_reachable) as [H _].
  destruct (H 0 3) as (e & v & H1 & H2 & _ & H3 & H4 & H5 & _); [rewrite Hc; left|]. split; [exact Hc|]. split; [exact H5|]. exists e, v.
  split; [exact H1|]. split; [exact H2|]. split; [exact H3|exact H4].
Defined.

Lemma cached_layer_is_exact_witness : exists w' misses out v,
  run_layer demo_config demo_host (mkLayer (demo_bank 0 1280 2560) (demo_bank 1000000000 2560 640)) 0 true [(5, 70); (6, 70); (5, 71)]
    (with_schedule [[EDevice]; []; [EDevice]; [EPop; EDevice]] demo_filled) = (w', Ok misses) /\
  misses !! 2%nat = Some None /\ w_pair_outputs w' 2 = Some out /\ ko_input out = 71 /\ table_expert demo_layers 0 5 = Ok v /\
  forall i, 0 <= i < kExpertPairBytes -> ko_weights out i = pair_byte demo_host v i.
Proof.
  pose proof (cached_layer_is_exact demo_config demo_host demo_filled [[EDevice]; []; [EDevice]; [EPop; EDevice]]
    (mkLayer (demo_bank 0 1280 2560) (demo_bank 1000000000 2560 640)) 0 true [(5, 70); (6, 70); (5, 71)] demo_filled_reachable ltac:(reflexivity)) as H.
  destruct (run_layer demo_config demo_host _ 0 true _ _) as [w' r] eqn:E.
  assert (Er : match r with Ok misses => misses !! 2%nat = Some None | Err _ => False end) by (apply (f_equal snd) in E; cbn [snd] in E; rewrite <- E; vm_compute; reflexivity).
  destruct r as [misses|e]; [|destruct Er]. destruct H as (_ & _ & H). destruct (H 2%nat 5 71 eq_refl) as (v & Hv & [[Hm (out & H1 & H2 & H3)] | [Hm _]]); [|congruence].
  exists w', misses, out, v. split; [reflexivity|]. split; [exact Hm|]. split; [exact H1|]. split; [exact H2|]. split; [exact Hv|exact H3].
Defined.

Lemma drain_makes_ready_witness : exists w' e v,
  drain demo_config demo_host (with_schedule [[EPop]; [EDevice]] demo_admitted) = (w', Ok tt) /\ (c_entries (w_shared w')).[0] = Some e /\ en_state e = EReady /\
  table_expert demo_layers 0 5 = Ok v /\ forall o, 0 <= o < kExpertPairBytes -> pair_byte (d_storage (w_device w')) (view demo_config 0) o = pair_byte demo_host v o.
Proof.
  destruct (drain_makes_ready demo_config demo_host demo_admitted [[EPop]; [EDevice]] demo_admitted_reachable) as (w' & H1 & _ & H).
  - vm_compute. reflexivity.
  - repeat apply Forall_cons_2; [intros Hin; apply list_elem_of_singleton in Hin; discriminate|intros Hin; apply list_elem_of_singleton in Hin; discriminate|apply Forall_nil_2].
  - destruct (H 0 (mkEntry 5 EUploading 1 0) ltac:(vm_compute; reflexivity)) as (e & He & _ & [[Hx _] | (_ & Hr & v & Hv & Hb)]); [discriminate|].
    exists w', e, v. split; [exact H1|]. split; [exact He|]. split; [exact Hr|]. split; [exact Hv|exact Hb].
Defined.

Lemma victim_is_least_recent_witness : find_victim (c_entries (w_shared demo_leased)) 2 0 None = Ok (Some 1) /\
  exists r, find_victim (c_entries (w_shared demo_leased)) 2 0 None = Ok r /\
    match r with None => False | Some v => 0 <= v < 2 end.
Proof.
  assert (E : find_victim (c_entries (w_shared demo_leased)) 2 0 None = Ok (Some 1)) by (vm_compute; reflexivity). split; [exact E|].
  destruct (victim_is_least_recent demo_config demo_host demo_leased 0 demo_leased_reachable ltac:(lia)) as (r & Hr & H). exists r. split; [exact Hr|].
  change (Z.to_nat (cf_slots demo_config)) with 2%nat in Hr. change (0 * cf_slots demo_config) with 0 in Hr. rewrite E in Hr. injection Hr as <-. lia.
Defined.
