(* ===== verification/Unicode.v ===== *)
(** UTF-8 text (src/src/text/unicode.cpp). Strings are lists of bytes. The library utf8proc is the class [Utf8proc], and what
    its documentation says is the class [Utf8Laws]. *)
From stdpp Require Import strings gmap.
From S2P Require Import Prelude.

(** The general categories the code asks for. *)
Inductive category : Type :=
  | UC_LU | UC_LL | UC_LT | UC_LM | UC_LO | UC_MN | UC_MC | UC_ME | UC_ND | UC_NL | UC_NO | UC_ZS | UC_ZL | UC_ZP | UC_OTHER.

Class Utf8proc : Type := {
  (** the bytes read, negative for an error, and the code point *)
  utf8proc_iterate : list Z -> Z * Z;
  (** [utf8proc_map] with [UTF8PROC_STABLE | UTF8PROC_COMPOSE] *)
  utf8proc_map : list Z -> option (list Z);
  (** the bytes of a code point, none if it is invalid *)
  utf8proc_encode_char : Z -> list Z;
  utf8proc_category : Z -> category;
}.

Record CodepointSpan : Type := mkSpan { cs_value : Z; cs_offset : Z; cs_length : Z }.

Section Unicode.
Context `{Utf8proc}.

Definition is_ascii_whitespace (codepoint : Z) : bool :=
  (codepoint =? 32) || (codepoint =? 9) || (codepoint =? 10) || (codepoint =? 13) || (codepoint =? 11) || (codepoint =? 12).

Definition normalize_nfc (text : list Z) : result (list Z) :=
  if forallb (fun byte => byte <? 128) text then Ok text else
  match utf8proc_map text with
  | Some normalized => Ok normalized
  | None => Err InvalidArgument
  end.

Definition utf8_codepoint_at (text : list Z) (offset : Z) : result CodepointSpan :=
  _ ← throw_if (vsize text <=? offset) OutOfRange;
  let '(length, codepoint) := utf8proc_iterate (drop (Z.to_nat offset) text) in
  _ ← throw_if (length <? 0) InvalidArgument;
  _ ← throw_if (length =? 0) InvalidArgument;
  Ok (mkSpan codepoint offset length).

Fixpoint utf8_codepoints_from (fuel : nat) (text : list Z) (offset : Z) : result (list CodepointSpan) :=
  if offset <? vsize text then
    match fuel with
    | O => Err Undefined
    | S fuel' =>
        codepoint ← utf8_codepoint_at text offset;
        rest ← utf8_codepoints_from fuel' text (offset + cs_length codepoint);
        Ok (codepoint :: rest)
    end
  else Ok [].

Definition utf8_codepoints (text : list Z) : result (list CodepointSpan) := utf8_codepoints_from (length text) text 0.

Definition codepoint_to_utf8 (codepoint : Z) : result (list Z) :=
  let buffer := utf8proc_encode_char codepoint in
  _ ← throw_if (vsize buffer <=? 0) InvalidArgument;
  Ok buffer.

Definition is_letter (codepoint : Z) : bool :=
  match utf8proc_category codepoint with UC_LU | UC_LL | UC_LT | UC_LM | UC_LO => true | _ => false end.
Definition is_mark (codepoint : Z) : bool :=
  match utf8proc_category codepoint with UC_MN | UC_MC | UC_ME => true | _ => false end.
Definition is_number (codepoint : Z) : bool :=
  match utf8proc_category codepoint with UC_ND | UC_NL | UC_NO => true | _ => false end.
Definition is_whitespace (codepoint : Z) : bool :=
  if is_ascii_whitespace codepoint then true else
  match utf8proc_category codepoint with UC_ZS | UC_ZL | UC_ZP => true | _ => false end.
End Unicode.

(** * What the library promises *)
Class Utf8Laws `{Utf8proc} : Prop := {
  (** a code point is read from the front of the text and depends on the bytes that were read only *)
  law_length : forall text n cp, utf8proc_iterate text = (n, cp) -> n <= vsize text;
  law_prefix : forall text more n cp, utf8proc_iterate text = (n, cp) -> 0 < n -> utf8proc_iterate (text ++ more) = (n, cp);
  (** ASCII bytes are code points, and no other bytes give ASCII code points *)
  law_ascii : forall b text, 0 <= b < 128 -> utf8proc_iterate (b :: text) = (1, b);
  law_high : forall b text n cp, 128 <= b -> utf8proc_iterate (b :: text) = (n, cp) -> 0 < n -> 128 <= cp;
  (** the bytes of a code point are read back as that code point (surrogates apart) *)
  law_encode : forall cp, 0 <= cp < 55296 ->
    0 < vsize (utf8proc_encode_char cp) /\ utf8proc_iterate (utf8proc_encode_char cp) = (vsize (utf8proc_encode_char cp), cp);
  (** a normalized text is UTF-8 *)
  law_map : forall text normalized, utf8proc_map text = Some normalized ->
    Forall (fun b => 0 <= b < 256) normalized /\ exists cps, utf8_codepoints normalized = Ok cps;
  (** the canonical composition of a text has at most three times its bytes *)
  law_expand : forall text normalized, utf8proc_map text = Some normalized -> vsize normalized <= 3 * vsize text;
}.

(** * Reading code points *)
Section Reading.
Context `{Utf8Laws}.

(** [reads text cps]: the text is exactly these code points, each with its bytes. *)
Inductive reads : list Z -> list (Z * list Z) -> Prop :=
  | reads_nil : reads [] []
  | reads_cons cp bytes text cps : 0 < vsize bytes -> utf8proc_iterate (bytes ++ text) = (vsize bytes, cp) -> reads text cps ->
      reads (bytes ++ text) ((cp, bytes) :: cps).

Lemma reads_concat text cps : reads text cps -> text = concat (map snd cps).
Proof. induction 1 as [|cp bytes text cps Hn Hi Hr IH]; [done|]. cbn. by rewrite <- IH. Qed.

Lemma codepoint_at pre bytes text cp : 0 < vsize bytes -> utf8proc_iterate (bytes ++ text) = (vsize bytes, cp) ->
  utf8_codepoint_at (pre ++ bytes ++ text) (vsize pre) = Ok (mkSpan cp (vsize pre) (vsize bytes)).
Proof.
  intros Hn Hi. unfold utf8_codepoint_at. rewrite !vsize_app. assert (0 <= vsize text) by (unfold vsize; lia). rewrite (proj2 (Z.leb_gt _ _)) by lia.
  cbn [throw_if mbind result_bind]. replace (Z.to_nat (vsize pre)) with (length pre) by (unfold vsize; lia). rewrite drop_app_length, Hi.
  rewrite (proj2 (Z.ltb_ge _ 0)), (proj2 (Z.eqb_neq _ 0)) by lia. done.
Qed.

(** A valid text is read code point by code point. *)
Lemma codepoints_reads fuel pre text cps : utf8_codepoints_from fuel (pre ++ text) (vsize pre) = Ok cps ->
  exists rs, reads text rs /\ map cs_value cps = map fst rs.
Proof.
  revert pre text cps. induction fuel as [|fuel IH]; intros pre text cps E; cbn [utf8_codepoints_from] in E; rewrite vsize_app in E;
    (destruct (Z.ltb_spec (vsize pre) (vsize pre + vsize text)) as [Hlt|Hge];
     [|destruct text as [|b text]; [injection E as <-; exists []; split; [constructor|done]|rewrite vsize_cons in Hge; unfold vsize in Hge; lia]]); [done|].
  apply bind_Ok in E as (span & Hs & E). apply bind_Ok in E as (rest & Hrest & E). injection E as <-. unfold utf8_codepoint_at in Hs.
  apply bind_Ok in Hs as ([] & _ & Hs). replace (Z.to_nat (vsize pre)) with (length pre) in Hs by (unfold vsize; lia). rewrite drop_app_length in Hs.
  destruct (utf8proc_iterate text) as [n cp] eqn:Hi. apply bind_Ok in Hs as ([] & H1%throw_if_Ok & Hs). apply bind_Ok in Hs as ([] & H2%throw_if_Ok & Hs).
  injection Hs as <-. simp_bool. pose proof (law_length _ _ _ Hi) as Hn.
  assert (Hsplit : text = take (Z.to_nat n) text ++ drop (Z.to_nat n) text) by (by rewrite take_drop).
  assert (Hsz : vsize (take (Z.to_nat n) text) = n) by (unfold vsize in *; rewrite length_take; lia). cbn [cs_length] in Hrest.
  rewrite Hsplit, app_assoc in Hrest. replace (vsize pre + n) with (vsize (pre ++ take (Z.to_nat n) text)) in Hrest by (rewrite vsize_app; lia).
  destruct (IH _ _ _ Hrest) as (rs & Hr & Em). exists ((cp, take (Z.to_nat n) text) :: rs). split; [|cbn; by rewrite Em].
  rewrite Hsplit at 1. constructor; [lia|by rewrite take_drop, Hsz|done].
Qed.

Lemma reads_codepoints fuel pre text rs : reads text rs -> vsize text <= Z.of_nat fuel ->
  exists cps, utf8_codepoints_from fuel (pre ++ text) (vsize pre) = Ok cps /\ map cs_value cps = map fst rs.
Proof.
  intros Hr. revert fuel pre. induction Hr as [|cp bytes text rs Hn Hi Hr IH]; intros fuel pre Hf.
  { rewrite app_nil_r. exists []. split; [|done]. destruct fuel; cbn; by rewrite Z.ltb_irrefl. }
  rewrite vsize_app in Hf. assert (0 <= vsize text) by (unfold vsize; lia). destruct fuel as [|fuel]; [lia|]. cbn [utf8_codepoints_from].
  rewrite (proj2 (Z.ltb_lt _ _)) by (rewrite !vsize_app; lia). rewrite (codepoint_at pre bytes text cp Hn Hi). cbn [mbind result_bind cs_length].
  destruct (IH fuel (pre ++ bytes) ltac:(lia)) as (cps & E & Em). rewrite <- app_assoc, vsize_app in E. rewrite E. eexists. split; [done|]. cbn. by rewrite Em.
Qed.

Lemma codepoints_iff text : (exists cps, utf8_codepoints text = Ok cps) <-> exists rs, reads text rs.
Proof.
  split.
  - intros [cps E]. destruct (codepoints_reads (length text) [] text cps E) as (rs & Hr & _). by exists rs.
  - intros [rs Hr]. destruct (reads_codepoints (length text) [] text rs Hr) as (cps & E & _); [done|]. by exists cps.
Qed.

(** Texts are read one after the other. *)
Lemma reads_app text more rs rs' : reads text rs -> reads more rs' -> reads (text ++ more) (rs ++ rs').
Proof.
  intros Hr Hm. induction Hr as [|cp bytes text rs Hn Hi Hr IH]; [done|]. rewrite <- app_assoc. cbn. constructor; [done| |done].
  rewrite app_assoc. by apply law_prefix.
Qed.

Lemma reads_ascii text : Forall (fun b => 0 <= b < 128) text -> reads text (map (fun b => (b, [b])) text).
Proof. induction 1 as [|b text Hb _ IH]; [constructor|]. cbn. apply (reads_cons b [b] text); [done|by apply law_ascii|done]. Qed.

Lemma reads_empty rs : reads [] rs -> rs = [].
Proof. intros Hr. apply reads_concat in Hr as E. destruct rs as [|[cp b] rs]; [done|]. inversion Hr; subst. cbn in E. by destruct b. Qed.

Lemma reads_unique text rs rs' : reads text rs -> reads text rs' -> rs = rs'.
Proof.
  intros Hr. revert rs'. induction Hr as [|cp b text rs Hn Hi Hr IH]; intros rs' Hr'; [symmetry; by apply reads_empty|].
  inversion Hr' as [E|cp' b' text' rs0 Hn' Hi' Hr'' E]; subst; [by destruct b|].
  rewrite <- E, Hi' in Hi. injection Hi as Hsz <-. apply app_inj_1 in E as [-> ->]; [|unfold vsize in Hsz; lia]. f_equal. by apply IH.
Qed.

(** Normalization gives UTF-8. *)
Lemma normalized_reads text normalized : Forall (fun b => 0 <= b < 256) text -> normalize_nfc text = Ok normalized ->
  Forall (fun b => 0 <= b < 256) normalized /\ exists rs, reads normalized rs.
Proof.
  intros Hb E. unfold normalize_nfc in E. destruct (forallb _ text) eqn:Ea.
  - injection E as <-. split; [done|]. eexists. apply reads_ascii. apply Forall_forall. intros b Hin. rewrite Forall_forall in Hb. specialize (Hb b Hin).
    rewrite forallb_forall in Ea. specialize (Ea b (proj1 (list_elem_of_In _ _) Hin)). apply Z.ltb_lt in Ea. lia.
  - destruct (utf8proc_map text) as [t|] eqn:Em; [|done]. injection E as <-. destruct (law_map _ _ Em) as [Hb' Hc]. split; [done|]. by apply codepoints_iff.
Qed.

Lemma normalized_size text normalized : normalize_nfc text = Ok normalized -> vsize normalized <= 3 * vsize text.
Proof.
  unfold normalize_nfc. destruct (forallb _ text); [intros [= <-]; unfold vsize; lia|]. destruct (utf8proc_map text) as [t|] eqn:Em; [|done]. intros [= <-]. by apply law_expand.
Qed.

Lemma normalize_ascii text : Forall (fun b => 0 <= b < 128) text -> normalize_nfc text = Ok text.
Proof.
  intros Ha. unfold normalize_nfc. replace (forallb _ text) with true; [done|]. symmetry. apply forallb_forall. intros b Hb%list_elem_of_In.
  rewrite Forall_forall in Ha. specialize (Ha b Hb). apply Z.ltb_lt. lia.
Qed.
End Reading.
