(* ===== verification/Tokenizer.v ===== *)
(** The tokenizer (src/src/targets/qwen3_6/impl/frontend/tokenizer.h, tokenizer.cpp): loading, the split into words, byte-pair merges
    with a priority queue over linked nodes and an open-addressed merge table, encoding with byte boundaries, and
    decoding. Strings are lists of bytes; [parse] is the JSON library. *)
From stdpp Require Import strings gmap.
From S2P Require Import Prelude StorageLayouts ArtifactReader Unicode.

Definition bytes_of (s : string) : list Z := map (fun c => Z.of_N (Ascii.N_of_ascii c)) (String.list_ascii_of_string s).

(** * The merge table *)
Record BpeMergeRule : Type := mkRule { br_rank : Z; br_result : Z }.
Record BpeMergeEntry : Type := mkMerge { me_key : Z; me_rank : Z; me_result : Z }.
Definition empty_merge : BpeMergeEntry := mkMerge 0 0 (-1).

Record BpeMergeTable : Type := mkTable { mt_slots : list BpeMergeEntry; mt_mask : Z }.

Definition mix (key : Z) : Z :=
  let key := wrap64 (key + 11400714819323198485) in
  let key := wrap64 (Z.lxor key (Z.shiftr key 30) * 13787848793156543929) in
  let key := wrap64 (Z.lxor key (Z.shiftr key 27) * 10723151780598845931) in
  Z.lxor key (Z.shiftr key 31).

(** [while (capacity < rule_count * 2U) { capacity <<= 1U; }] *)
Fixpoint grow_capacity (fuel : nat) (rule_count capacity : Z) : result Z :=
  if capacity <? wrap64 (rule_count * 2) then
    match fuel with
    | O => Err Undefined
    | S fuel' => grow_capacity fuel' rule_count (wrap64 (Z.shiftl capacity 1))
    end
  else Ok capacity.

Definition reset (rule_count : Z) : result BpeMergeTable :=
  capacity ← grow_capacity 64 rule_count 1;
  Ok (mkTable (replicate (Z.to_nat capacity) empty_merge) (capacity - 1)).

Definition next_slot (t : BpeMergeTable) (index : Z) : Z := Z.land (wrap64 (index + 1)) (mt_mask t).

(** The probing of [insert] and of [find]; a table has as many steps as slots. *)
Fixpoint insert_from (fuel : nat) (t : BpeMergeTable) (index key : Z) (rule : BpeMergeRule) : result (bool * BpeMergeTable) :=
  match fuel with
  | O => Err Undefined
  | S fuel' =>
      entry ← vat (mt_slots t) index;
      if 0 <=? me_result entry then
        if me_key entry =? key then Ok (false, t) else insert_from fuel' t (next_slot t index) key rule
      else Ok (true, mkTable ((mt_slots t).[index <- mkMerge key (br_rank rule) (br_result rule)]) (mt_mask t))
  end.

Definition insert (t : BpeMergeTable) (key : Z) (rule : BpeMergeRule) : result (bool * BpeMergeTable) :=
  insert_from (length (mt_slots t)) t (Z.land (mix key) (mt_mask t)) key rule.

Fixpoint find_from (fuel : nat) (t : BpeMergeTable) (index key : Z) : result (option BpeMergeEntry) :=
  match fuel with
  | O => Err Undefined
  | S fuel' =>
      entry ← vat (mt_slots t) index;
      if me_result entry <? 0 then Ok None
      else if me_key entry =? key then Ok (Some entry) else find_from fuel' t (next_slot t index) key
  end.

Definition find (t : BpeMergeTable) (key : Z) : result (option BpeMergeEntry) :=
  find_from (length (mt_slots t)) t (Z.land (mix key) (mt_mask t)) key.

Definition merge_pair_key (left right : Z) : Z := Z.lor (wrap64 (Z.shiftl (wrap32 left) 32)) (wrap32 right).

(** * The byte-level alphabet *)
Definition visible (byte : Z) : bool :=
  ((33 <=? byte) && (byte <=? 126)) || ((161 <=? byte) && (byte <=? 172)) || ((174 <=? byte) && (byte <=? 255)).

(** The code point of every byte; invisible bytes are numbered from 256 on. *)
Fixpoint byte_codepoints (bytes : list Z) (next : Z) : list (Z * Z) :=
  match bytes with
  | [] => []
  | byte :: bytes' => if visible byte then (byte, byte) :: byte_codepoints bytes' next else (byte, next) :: byte_codepoints bytes' (next + 1)
  end.

Definition byte_alphabet : list (Z * Z) := byte_codepoints (seqZ 0 256) 256.

Definition build_byte_level_decoder (codepoint : Z) : option Z :=
  fst <$> List.find (fun bc => snd bc =? codepoint) byte_alphabet.

Section Tokenizer.
Context `{Utf8proc}.

Definition decode_byte_level_token (token : list Z) : result (list Z) :=
  codepoints ← utf8_codepoints token;
  rmap (fun codepoint => match build_byte_level_decoder (cs_value codepoint) with Some byte => Ok byte | None => Err InvalidArgument end) codepoints.

Definition build_byte_level_encoder : result (list (list Z)) := rmap (fun bc => codepoint_to_utf8 (snd bc)) byte_alphabet.

(** * Words *)
Definition is_newline (codepoint : Z) : bool := (codepoint =? 13) || (codepoint =? 10).
Definition is_letter_or_mark (codepoint : Z) (include_marks : bool) : bool := is_letter codepoint || (include_marks && is_mark codepoint).
Definition is_non_newline_non_letter_non_number (codepoint : Z) : bool :=
  negb (is_newline codepoint) && negb (is_letter codepoint) && negb (is_number codepoint).
Definition is_non_space_non_letter_mark_number (codepoint : Z) (include_marks : bool) : bool :=
  negb (is_whitespace codepoint) && negb (is_letter codepoint) && (negb include_marks || negb (is_mark codepoint)) && negb (is_number codepoint).

Definition tolower (c : Z) : Z := if (65 <=? c) && (c <=? 90) then c + 32 else c.

Fixpoint ci_equal (text suffix : list Z) : bool :=
  match text, suffix with
  | _, [] => true
  | [], _ :: _ => false
  | a :: text', b :: suffix' => (tolower a =? tolower b) && ci_equal text' suffix'
  end.

Definition ascii_ci_matches (text : list Z) (offset : Z) (suffix : list Z) : bool :=
  if vsize text <? offset + vsize suffix then false else ci_equal (drop (Z.to_nat offset) text) suffix.

(** [while (end < text.size() && test(code point at end)) end += length] *)
Fixpoint skip_while (fuel : nat) (text : list Z) (test : Z -> bool) (end_ : Z) : result Z :=
  if end_ <? vsize text then
    match fuel with
    | O => Err Undefined
    | S fuel' =>
        value ← utf8_codepoint_at text end_;
        if test (cs_value value) then skip_while fuel' text test (end_ + cs_length value) else Ok end_
    end
  else Ok end_.

Record spaces : Type := mkSpaces { sp_end : Z; sp_last_begin : Z; sp_last_newline_end : option Z; sp_count : Z }.

Fixpoint skip_spaces (fuel : nat) (text : list Z) (s : spaces) : result spaces :=
  if sp_end s <? vsize text then
    match fuel with
    | O => Err Undefined
    | S fuel' =>
        value ← utf8_codepoint_at text (sp_end s);
        if is_whitespace (cs_value value) then
          let end_ := sp_end s + cs_length value in
          skip_spaces fuel' text (mkSpaces end_ (sp_end s) (if is_newline (cs_value value) then Some end_ else sp_last_newline_end s) (sp_count s + 1))
        else Ok s
    end
  else Ok s.

(** The endings of a contraction: s, t, re, ve, m, ll, d. *)
Definition suffixes : list (list Z) := [[115]; [116]; [114; 101]; [118; 101]; [109]; [108; 108]; [100]].

Definition qwen_word_end (text : list Z) (begin_ : Z) (include_marks : bool) : result Z :=
  first ← utf8_codepoint_at text begin_;
  let after_first := begin_ + cs_length first in
  let cp := cs_value first in
  match (if cp =? 39 then List.find (ascii_ci_matches text after_first) suffixes else None) with
  | Some suffix => Ok (after_first + vsize suffix)
  | None =>
      let has_next := after_first <? vsize text in
      next ← (if has_next then value ← utf8_codepoint_at text after_first; Ok (cs_value value) else Ok 0);
      if is_letter_or_mark cp include_marks || (is_non_newline_non_letter_non_number cp && has_next && is_letter_or_mark next include_marks) then
        skip_while (length text) text (fun v => is_letter_or_mark v include_marks) (if is_letter_or_mark cp include_marks then begin_ else after_first)
      else if is_number cp then Ok after_first
      else if ((cp =? 32) && has_next && is_non_space_non_letter_mark_number next include_marks) || is_non_space_non_letter_mark_number cp include_marks then
        end_ ← skip_while (length text) text (fun v => is_non_space_non_letter_mark_number v include_marks) (if cp =? 32 then after_first else begin_);
        skip_while (length text) text is_newline end_
      else if is_whitespace cp then
        s ← skip_spaces (length text) text (mkSpaces begin_ begin_ None 0);
        match sp_last_newline_end s with
        | Some last_newline_end => Ok last_newline_end
        | None => if sp_end s =? vsize text then Ok (sp_end s) else Ok (if 2 <=? sp_count s then sp_last_begin s else sp_end s)
        end
      else Ok after_first
  end.

(** * Merges *)
Record BpeNode : Type := mkNode { nd_symbol : Z; nd_previous : Z; nd_next : Z; nd_end : Z; nd_generation : Z; nd_live : bool }.
Record BpeCandidate : Type := mkCandidate {
  ca_rank : Z; ca_left : Z; ca_right : Z; ca_result : Z; ca_left_generation : Z; ca_right_generation : Z;
}.
Record BpeWordEnd : Type := mkWordEnd { we_normalized_offset : Z; we_token_frontier : Z }.

(** [LaterBpeCandidate] *)
Definition later (lhs rhs : BpeCandidate) : bool :=
  if negb (ca_rank lhs =? ca_rank rhs) then ca_rank rhs <? ca_rank lhs else ca_left rhs <? ca_left lhs.

(** [queue.top(); queue.pop()]: a candidate that is not later than any other. *)
Fixpoint pop_candidate (queue : list BpeCandidate) : option (BpeCandidate * list BpeCandidate) :=
  match queue with
  | [] => None
  | c :: queue' =>
      match pop_candidate queue' with
      | None => Some (c, [])
      | Some (top, rest) => if later c top then Some (top, c :: rest) else Some (c, queue')
      end
  end.

Record word_state : Type := mkWord { ws_nodes : list BpeNode; ws_queue : list BpeCandidate }.

Definition push_candidate (rules : BpeMergeTable) (left : Z) (w : word_state) : result word_state :=
  if left <? 0 then Ok w else
  node ← vat (ws_nodes w) left;
  if negb (nd_live node) then Ok w else
  let right := nd_next node in
  if right <? 0 then Ok w else
  next ← vat (ws_nodes w) right;
  rule ← find rules (merge_pair_key (nd_symbol node) (nd_symbol next));
  match rule with
  | None => Ok w
  | Some rule =>
      Ok (mkWord (ws_nodes w) (ws_queue w ++ [mkCandidate (me_rank rule) left right (me_result rule) (nd_generation node) (nd_generation next)]))
  end.

Definition merge_nodes (candidate : BpeCandidate) (left right : BpeNode) (nodes : list BpeNode) : result (list BpeNode) :=
  let left' := mkNode (ca_result candidate) (nd_previous left) (nd_next right) (nd_end right) (wrap32 (nd_generation left + 1)) (nd_live left) in
  let right' := mkNode (nd_symbol right) (nd_previous right) (nd_next right) (nd_end right) (wrap32 (nd_generation right + 1)) false in
  let nodes := nodes.[ca_left candidate <- left'].[ca_right candidate <- right'] in
  if 0 <=? nd_next left' then
    after ← vat nodes (nd_next left');
    Ok (nodes.[nd_next left' <- mkNode (nd_symbol after) (ca_left candidate) (nd_next after) (nd_end after) (nd_generation after) (nd_live after)])
  else Ok nodes.

Fixpoint merge_loop (fuel : nat) (rules : BpeMergeTable) (w : word_state) : result word_state :=
  match pop_candidate (ws_queue w) with
  | None => Ok w
  | Some (candidate, queue) =>
      match fuel with
      | O => Err Undefined
      | S fuel' =>
          left ← vat (ws_nodes w) (ca_left candidate);
          right ← vat (ws_nodes w) (ca_right candidate);
          if negb (nd_live left) || negb (nd_live right) || negb (nd_next left =? ca_right candidate) ||
             negb (nd_generation left =? ca_left_generation candidate) || negb (nd_generation right =? ca_right_generation candidate)
          then merge_loop fuel' rules (mkWord (ws_nodes w) queue)
          else
            nodes ← merge_nodes candidate left right (ws_nodes w);
            w ← push_candidate rules (nd_previous left) (mkWord nodes queue);
            w ← push_candidate rules (ca_left candidate) w;
            merge_loop fuel' rules w
      end
  end.

(** The nodes of a word, one per byte. *)
Fixpoint byte_nodes (byte_token_ids : list Z) (word : list Z) (index size : Z) : result (list BpeNode) :=
  match word with
  | [] => Ok []
  | byte :: word' =>
      symbol ← vat byte_token_ids byte;
      _ ← throw_if (symbol <? 0) InvalidArgument;
      rest ← byte_nodes byte_token_ids word' (index + 1) size;
      Ok (mkNode symbol (if index =? 0 then -1 else index - 1) (if index + 1 =? size then -1 else index + 1) (index + 1) 0 true :: rest)
  end.

Record bpe_output : Type := mkOutput { bo_ids : list Z; bo_token_ends : list Z; bo_word_ends : list BpeWordEnd }.

(** The tokens of a word in order, until there are [max_tokens]; whether the word was finished. *)
Fixpoint emit_nodes (fuel : nat) (nodes : list BpeNode) (begin_ max_tokens node : Z) (o : bpe_output) : result (bool * bpe_output) :=
  if node <? 0 then Ok (true, o) else
  match fuel with
  | O => Err Undefined
  | S fuel' =>
      n ← vat nodes node;
      let o := mkOutput (bo_ids o ++ [nd_symbol n]) (bo_token_ends o ++ [begin_ + nd_end n]) (bo_word_ends o) in
      if vsize (bo_ids o) =? max_tokens then Ok (false, o) else emit_nodes fuel' nodes begin_ max_tokens (nd_next n) o
  end.

Definition merge_word (rules : BpeMergeTable) (byte_token_ids word : list Z) : result (list BpeNode) :=
  nodes ← byte_nodes byte_token_ids word 0 (vsize word);
  w ← rfor (fun w index => push_candidate rules index w) (mkWord nodes []) (seqZ 0 (vsize nodes - 1));
  w ← merge_loop (3 * length word) rules w;
  Ok (ws_nodes w).

Fixpoint append_words (fuel : nat) (o : bpe_output) (normalized : list Z) (rules : BpeMergeTable) (byte_token_ids : list Z) (max_tokens : Z)
    (include_marks : bool) (begin_ : Z) : result (bool * bpe_output) :=
  if begin_ <? vsize normalized then
    match fuel with
    | O => Err Undefined
    | S fuel' =>
        end_ ← qwen_word_end normalized begin_ include_marks;
        let word := mem_slice normalized begin_ (end_ - begin_) in
        nodes ← merge_word rules byte_token_ids word;
        '(complete, o) ← emit_nodes (length nodes) nodes begin_ max_tokens (if vsize nodes =? 0 then -1 else 0) o;
        if negb complete then Ok (false, o) else
        append_words fuel' (mkOutput (bo_ids o) (bo_token_ends o) (bo_word_ends o ++ [mkWordEnd end_ (vsize (bo_ids o))]))
          normalized rules byte_token_ids max_tokens include_marks end_
    end
  else Ok (true, o).

Definition append_normalized_bpe_ids (ids normalized : list Z) (rules : BpeMergeTable) (byte_token_ids : list Z) (max_tokens : Z) (include_marks : bool)
  : result (bool * bpe_output) :=
  if vsize normalized =? 0 then Ok (true, mkOutput ids [] []) else
  if vsize ids =? max_tokens then Ok (false, mkOutput ids [] []) else
  append_words (length normalized) (mkOutput ids [] []) normalized rules byte_token_ids max_tokens include_marks 0.

(** * Text with byte boundaries *)
Record TokenBoundaryResult : Type := mkBoundary { tb_exact_frontier : option Z; tb_stable_frontier : Z }.
Definition no_boundary : TokenBoundaryResult := mkBoundary None 0.
Record BoundaryEncodedText : Type := mkEncoded { en_input_ids : list Z; en_boundaries : list TokenBoundaryResult }.
Record IndexedByteBoundary : Type := mkIndexed { ib_offset : Z; ib_index : Z }.

Definition set_boundary (b : IndexedByteBoundary) (r : TokenBoundaryResult) (l : list TokenBoundaryResult) : list TokenBoundaryResult := l.[ib_index b <- r].
Definition frontier (n : Z) : TokenBoundaryResult := mkBoundary (Some n) n.

(** The requests normalized piece by piece: where each request ends up, and the whole. *)
Fixpoint normalize_pieces (text : list Z) (text_offset : Z) (boundaries : list IndexedByteBoundary) (raw_begin : Z) (normalized : list Z)
  : result (list Z * list Z) :=
  match boundaries with
  | [] =>
      if negb (raw_begin =? vsize text) then piece ← normalize_nfc (drop (Z.to_nat raw_begin) text); Ok ([], normalized ++ piece)
      else Ok ([], normalized)
  | b :: boundaries' =>
      let raw_end := ib_offset b - text_offset in
      if negb (raw_end =? raw_begin) then
        piece ← normalize_nfc (mem_slice text raw_begin (raw_end - raw_begin));
        let normalized := normalized ++ piece in
        '(ends, whole) ← normalize_pieces text text_offset boundaries' raw_end normalized;
        Ok (vsize normalized :: ends, whole)
      else
        '(ends, whole) ← normalize_pieces text text_offset boundaries' raw_begin normalized;
        Ok (vsize normalized :: ends, whole)
  end.

(** [while (token_cursor < token_ends.size() && token_ends[token_cursor] <= boundary) ++token_cursor] on what is left of the list. *)
Fixpoint advance_tokens (token_ends : list Z) (boundary cursor : Z) (last : option Z) : list Z * Z * option Z :=
  match token_ends with
  | e :: rest => if e <=? boundary then advance_tokens rest boundary (cursor + 1) (Some e) else (token_ends, cursor, last)
  | [] => ([], cursor, last)
  end.

Fixpoint advance_words (word_ends : list BpeWordEnd) (boundary stable_frontier : Z) : list BpeWordEnd * Z :=
  match word_ends with
  | e :: rest => if we_normalized_offset e <=? boundary then advance_words rest boundary (we_token_frontier e) else (word_ends, stable_frontier)
  | [] => ([], stable_frontier)
  end.

Fixpoint place_boundaries (requests : list (IndexedByteBoundary * Z)) (token_base : Z) (token_ends : list Z) (cursor : Z) (last : option Z)
    (word_ends : list BpeWordEnd) (stable_frontier : Z) (results : list TokenBoundaryResult) : list TokenBoundaryResult :=
  match requests with
  | [] => results
  | (b, normalized_boundary) :: requests' =>
      let '(token_ends, cursor, last) := advance_tokens token_ends normalized_boundary cursor last in
      let '(word_ends, stable_frontier) := advance_words word_ends normalized_boundary stable_frontier in
      let exact := (normalized_boundary =? 0) || match last with Some e => e =? normalized_boundary | None => false end in
      place_boundaries requests' token_base token_ends cursor last word_ends stable_frontier
        (set_boundary b (mkBoundary (if exact then Some (token_base + cursor) else None) stable_frontier) results)
  end.

Definition append_ordinary_text (encoded : BoundaryEncodedText) (text : list Z) (text_offset : Z) (boundaries : list IndexedByteBoundary)
    (rules : BpeMergeTable) (byte_token_ids : list Z) (max_tokens : Z) (include_marks : bool) : result (bool * BoundaryEncodedText) :=
  let token_base := vsize (en_input_ids encoded) in
  let set_all f := foldl (fun l b => set_boundary b (f b) l) (en_boundaries encoded) boundaries in
  if vsize text =? 0 then Ok (true, mkEncoded (en_input_ids encoded) (set_all (fun _ => frontier token_base))) else
  normalized ← normalize_nfc text;
  let local b := ib_offset b - text_offset in
  let has_internal_boundary := existsb (fun b => negb (local b =? 0) && negb (local b =? vsize text)) boundaries in
  '(complete, o) ← append_normalized_bpe_ids (en_input_ids encoded) normalized rules byte_token_ids max_tokens include_marks;
  if negb complete then Ok (false, mkEncoded (bo_ids o) (en_boundaries encoded)) else
  let token_end := vsize (bo_ids o) in
  if negb has_internal_boundary then
    Ok (true, mkEncoded (bo_ids o) (set_all (fun b => frontier (if ib_offset b =? text_offset then token_base else token_end)))) else
  '(normalized_boundaries, independently_normalized) ← normalize_pieces text text_offset boundaries 0 [];
  if bool_decide (independently_normalized <> normalized) then
    Ok (true, mkEncoded (bo_ids o) (set_all (fun b =>
      if (local b =? 0) || (local b =? vsize text) then frontier (if local b =? 0 then token_base else token_end) else mkBoundary None token_base)))
  else
    Ok (true, mkEncoded (bo_ids o)
      (place_boundaries (zip boundaries normalized_boundaries) token_base (bo_token_ends o) 0 None (bo_word_ends o) token_base (en_boundaries encoded))).

(** * The tokenizer *)
Record AddedToken : Type := mkAdded {
  at_id : Z; at_content : list Z; at_single_word : bool; at_lstrip : bool; at_rstrip : bool; at_normalized : bool; at_special : bool;
}.

Record Tokenizer : Type := mkTokenizer {
  tz_decoded_token_bytes : list (list Z); tz_split_unicode_marks_as_letters : bool; tz_valid_token_ids : list bool; tz_special_token_ids : list bool;
  tz_vocab_token_to_id : gmap (list Z) Z; tz_bpe_merge_rules : BpeMergeTable; tz_byte_token_ids : list Z; tz_added_tokens : list AddedToken;
  tz_default_stop_token_ids : list Z;
}.

Record EncodeOptions : Type := mkEncodeOptions { eo_parse_added_tokens : bool; eo_max_tokens : Z }.
Record ByteSpan : Type := mkByteSpan { bs_begin : Z; bs_end : Z }.
Record DecodeOptions : Type := mkDecodeOptions { do_skip_special_tokens : bool; do_stop_token_ids : list Z }.

Fixpoint check_literal_spans (spans : list ByteSpan) (size previous_end : Z) : result unit :=
  match spans with
  | [] => Ok tt
  | s :: spans' =>
      _ ← throw_if ((bs_end s <=? bs_begin s) || (size <? bs_end s) || (bs_begin s <? previous_end)) InvalidArgument;
      check_literal_spans spans' size (bs_end s)
  end.

(** [std::stable_sort] by offset *)
Fixpoint insert_boundary (b : IndexedByteBoundary) (l : list IndexedByteBoundary) : list IndexedByteBoundary :=
  match l with
  | [] => [b]
  | c :: l' => if ib_offset b <=? ib_offset c then b :: l else c :: insert_boundary b l'
  end.
Definition sort_boundaries (l : list IndexedByteBoundary) : list IndexedByteBoundary := foldr insert_boundary [] l.

Fixpoint is_prefix (content text : list Z) : bool :=
  match content, text with
  | [], _ => true
  | a :: content', b :: text' => (a =? b) && is_prefix content' text'
  | _ :: _, [] => false
  end.

(** The candidates that start with the byte at [pos], in order; [literal] is what is left of the literal spans. *)
Fixpoint match_added (candidates : list AddedToken) (text : list Z) (pos : Z) (literal : list ByteSpan) : option AddedToken * list ByteSpan :=
  match candidates with
  | [] => (None, literal)
  | token :: candidates' =>
      if is_prefix (at_content token) (drop (Z.to_nat pos) text) then
        let literal := snd (span_while (fun s => bs_end s <=? pos) literal) in
        let token_end := pos + vsize (at_content token) in
        match literal with
        | s :: _ => if bs_begin s <? token_end then match_added candidates' text pos literal else (Some token, literal)
        | [] => (Some token, literal)
        end
      else match_added candidates' text pos literal
  end.

(** [added_token_candidates_] at a byte *)
Definition added_token_candidates (tz : Tokenizer) (byte : Z) : list AddedToken :=
  List.filter (fun token => match at_content token with b :: _ => b =? byte | [] => false end) (tz_added_tokens tz).

Record encoding : Type := mkEncoding { ec_encoded : BoundaryEncodedText; ec_requests : list IndexedByteBoundary }.

Definition append_ordinary (tz : Tokenizer) (max_tokens : Z) (text : list Z) (begin_ end_ : Z) (e : encoding) : result (bool * encoding) :=
  let '(now, later) := span_while (fun b => ib_offset b <=? end_) (ec_requests e) in
  '(complete, encoded) ← append_ordinary_text (ec_encoded e) (mem_slice text begin_ (end_ - begin_)) begin_ now (tz_bpe_merge_rules tz)
      (tz_byte_token_ids tz) max_tokens (tz_split_unicode_marks_as_letters tz);
  Ok (complete, mkEncoding encoded later).

(** An added token at [pos]. *)
Definition append_added (max_tokens : Z) (token : AddedToken) (pos : Z) (e : encoding) : bool * encoding :=
  let token_end := pos + vsize (at_content token) in
  let stable_frontier := vsize (en_input_ids (ec_encoded e)) in
  let '(inside, rest) := span_while (fun b => ib_offset b <? token_end) (ec_requests e) in
  let results := foldl (fun l b => set_boundary b (mkBoundary None stable_frontier) l) (en_boundaries (ec_encoded e)) inside in
  let ids := en_input_ids (ec_encoded e) ++ [at_id token] in
  if vsize ids =? max_tokens then (false, mkEncoding (mkEncoded ids results) rest) else
  let '(ends, rest) := span_while (fun b => ib_offset b =? token_end) rest in
  (true, mkEncoding (mkEncoded ids (foldl (fun l b => set_boundary b (frontier (vsize ids)) l) results ends)) rest).

Fixpoint encode_from (fuel : nat) (tz : Tokenizer) (max_tokens : Z) (text : list Z) (ordinary_begin pos : Z) (literal : list ByteSpan) (e : encoding)
  : result BoundaryEncodedText :=
  if pos <? vsize text then
    match fuel with
    | O => Err Undefined
    | S fuel' =>
        byte ← vat text pos;
        let '(matched, literal) := match_added (added_token_candidates tz byte) text pos literal in
        match matched with
        | None => encode_from fuel' tz max_tokens text ordinary_begin (pos + 1) literal e
        | Some token =>
            '(complete, e) ← append_ordinary tz max_tokens text ordinary_begin pos e;
            if negb complete then Ok (ec_encoded e) else
            let '(more, e) := append_added max_tokens token pos e in
            if negb more then Ok (ec_encoded e) else
            let token_end := pos + vsize (at_content token) in
            encode_from fuel' tz max_tokens text token_end token_end literal e
        end
    end
  else
    '(_, e) ← append_ordinary tz max_tokens text ordinary_begin (vsize text) e;
    Ok (ec_encoded e).

Definition encode_with_boundaries (tz : Tokenizer) (text : list Z) (byte_boundaries : list Z) (options : EncodeOptions) (literal_spans : list ByteSpan)
  : result BoundaryEncodedText :=
  let encoded := mkEncoded [] (replicate (length byte_boundaries) no_boundary) in
  _ ← check_literal_spans literal_spans (vsize text) 0;
  _ ← rfor (fun _ b => throw_if (vsize text <? b) OutOfRange) tt byte_boundaries;
  let boundaries := sort_boundaries (zip_with mkIndexed byte_boundaries (seqZ 0 (vsize byte_boundaries))) in
  if eo_max_tokens options =? 0 then Ok encoded else
  let e := mkEncoding encoded boundaries in
  if negb (eo_parse_added_tokens options) then
    '(_, e) ← append_ordinary tz (eo_max_tokens options) text 0 (vsize text) e;
    Ok (ec_encoded e)
  else encode_from (length text) tz (eo_max_tokens options) text 0 0 literal_spans e.

Definition encode (tz : Tokenizer) (text : list Z) (options : EncodeOptions) : result (list Z) :=
  encoded ← encode_with_boundaries tz text [] options [];
  Ok (en_input_ids encoded).

(** * Decoding *)
Definition decoded_token (tz : Tokenizer) (id : Z) : result (list Z * bool) :=
  _ ← throw_if (id <? 0) InvalidArgument;
  match (tz_valid_token_ids tz).[id], (tz_decoded_token_bytes tz).[id], (tz_special_token_ids tz).[id] with
  | Some true, Some bytes, Some special => Ok (bytes, special)
  | Some true, Some _, None => Err Undefined
  | _, _, _ => Err OutOfRange
  end.

Definition decode_token_bytes (tz : Tokenizer) (id : Z) (skip_special_tokens : bool) : result (list Z) :=
  '(bytes, special) ← decoded_token tz id;
  Ok (if skip_special_tokens && special then [] else bytes).

Definition is_stop_token_id (stop_token_ids : list Z) (id : Z) : bool := existsb (Z.eqb id) stop_token_ids.

Definition decode (tz : Tokenizer) (ids : list Z) (options : DecodeOptions) : result (list Z) :=
  let ids := match last ids with Some id => if is_stop_token_id (do_stop_token_ids options) id then removelast ids else ids | None => ids end in
  pieces ← rmap (fun id => decode_token_bytes tz id (do_skip_special_tokens options)) ids;
  let text := concat pieces in
  _ ← utf8_codepoints text;
  Ok text.

Definition is_special_token (tz : Tokenizer) (id : Z) : bool := match (tz_special_token_ids tz).[id] with Some b => b | None => false end.
Definition is_valid_token (tz : Tokenizer) (id : Z) : bool := match (tz_valid_token_ids tz).[id] with Some b => b | None => false end.
Definition has_exact_token_domain (tz : Tokenizer) (size : Z) : bool := (vsize (tz_valid_token_ids tz) =? size) && forallb id (tz_valid_token_ids tz).
End Tokenizer.
