(* ===== verification/TokenizerLoad.v ===== *)
(** The constructor of the tokenizer (src/src/targets/qwen3_6/impl/frontend/tokenizer.cpp): vocabulary, added tokens, merges and stop
    tokens from three JSON files. *)
From stdpp Require Import strings gmap sorting.
From S2P Require Import Prelude StorageLayouts ArtifactReader Unicode Tokenizer.

Definition kMaxTokenId : Z := 1000000.

Record VocabMetadata : Type := mkVocab { vm_id_to_token : list (list Z); vm_token_to_id : gmap (list Z) Z; vm_occupied_ids : gset Z }.

(** * Fields *)
Definition require_object_field (object : Json) (field : string) : result (list (string * Json)) :=
  match json_find object field with
  | Some (JObject members) => Ok members
  | _ => Err InvalidArgument
  end.

Definition require_array_field (object : Json) (field : string) : result (list Json) :=
  match json_find object field with
  | Some (JArray items) => Ok items
  | _ => Err InvalidArgument
  end.

Definition parse_token_id (value : Json) : result Z :=
  match value with
  | JUnsigned id => _ ← throw_if (kMaxTokenId <? id) InvalidArgument; Ok id
  | JNegative id => _ ← throw_if (id <? 0) InvalidArgument; _ ← throw_if (kMaxTokenId <? id) InvalidArgument; Ok id
  | _ => Err InvalidArgument
  end.

Definition require_string_field (object : Json) (field : string) : result (list Z) :=
  match json_find object field with
  | Some (JString s) => Ok (bytes_of s)
  | _ => Err InvalidArgument
  end.

Definition require_bool_field (object : Json) (field : string) : result bool :=
  match json_find object field with
  | Some (JBool b) => Ok b
  | _ => Err InvalidArgument
  end.

(** * The vocabulary *)
Definition check_vocab_id (acc : gset Z * Z) (item : string * Json) : result (gset Z * Z) :=
  let '(occupied, max_id) := acc in
  id ← parse_token_id (snd item);
  _ ← throw_if (bool_decide (id ∈ occupied)) InvalidArgument;
  Ok ({[id]} ∪ occupied, Z.max max_id id).

Definition add_vocab_item (acc : list (list Z) * gmap (list Z) Z) (item : string * Json) : result (list (list Z) * gmap (list Z) Z) :=
  let '(id_to_token, token_to_id) := acc in
  id ← parse_token_id (snd item);
  let key := bytes_of (fst item) in
  _ ← throw_if (vsize id_to_token <=? id) OutOfRange;
  Ok (id_to_token.[id <- key], match token_to_id !! key with Some _ => token_to_id | None => <[key := id]> token_to_id end).

Definition load_vocab (model : Json) : result VocabMetadata :=
  _ ← match json_find model "type" with
      | Some (JString s) => throw_if (bool_decide (s <> "BPE"%string)) InvalidArgument
      | _ => Err InvalidArgument
      end;
  vocab ← require_object_field model "vocab";
  _ ← throw_if (vsize vocab =? 0) InvalidArgument;
  '(occupied, max_id) ← rfor check_vocab_id (∅, -1) vocab;
  '(id_to_token, token_to_id) ← rfor add_vocab_item (replicate (Z.to_nat (max_id + 1)) [], ∅) vocab;
  Ok (mkVocab id_to_token token_to_id occupied).

(** * Added tokens *)
Definition parse_added_token_decoder_entry (id : Z) (item : Json) : result AddedToken :=
  _ ← throw_if (negb (is_object item)) InvalidArgument;
  content ← require_string_field item "content";
  single_word ← require_bool_field item "single_word";
  lstrip ← require_bool_field item "lstrip";
  rstrip ← require_bool_field item "rstrip";
  normalized ← require_bool_field item "normalized";
  special ← require_bool_field item "special";
  Ok (mkAdded id content single_word lstrip rstrip normalized special).

Definition parse_added_token (item : Json) : result AddedToken :=
  _ ← throw_if (negb (is_object item)) InvalidArgument;
  match json_find item "id" with
  | None => Err InvalidArgument
  | Some value => id ← parse_token_id value; parse_added_token_decoder_entry id item
  end.

Definition validate_supported_added_token (token : AddedToken) : result unit :=
  _ ← throw_if (vsize (at_content token) =? 0) InvalidArgument;
  throw_if (at_single_word token || at_lstrip token || at_rstrip token || at_normalized token) InvalidArgument.

#[global] Instance added_token_eq_dec : EqDecision AddedToken.
Proof. solve_decision. Defined.

Definition same_added_token (lhs rhs : AddedToken) : bool := bool_decide (lhs = rhs).

(** [id_to_token.resize(index + 1)] if it is shorter *)
Definition resized {A} (l : list A) (index : Z) (x : A) : list A := l ++ replicate (Z.to_nat (index + 1) - length l) x.

Record added_state : Type := mkAddedState { as_id_to_token : list (list Z); as_tokens : list AddedToken }.

Definition load_added_token (v : VocabMetadata) (s : added_state) (item : Json) : result added_state :=
  token ← parse_added_token item;
  _ ← validate_supported_added_token token;
  _ ← throw_if (bool_decide (at_id token ∈ vm_occupied_ids v)) InvalidArgument;
  _ ← throw_if (existsb (fun t => at_id t =? at_id token) (as_tokens s)) InvalidArgument;
  _ ← throw_if (bool_decide (is_Some (vm_token_to_id v !! at_content token)) || existsb (fun t => bool_decide (at_content t = at_content token)) (as_tokens s)) InvalidArgument;
  Ok (mkAddedState ((resized (as_id_to_token s) (at_id token) []).[at_id token <- at_content token]) (as_tokens s ++ [token])).

Definition load_added_tokens (v : VocabMetadata) (root : Json) : result added_state :=
  added ← require_array_field root "added_tokens";
  rfor (load_added_token v) (mkAddedState (vm_id_to_token v) []) added.

(** [std::from_chars] and the comparison with [std::to_string]: digits without a leading zero. *)
Definition digit (c : Z) : option Z := if (48 <=? c) && (c <=? 57) then Some (c - 48) else None.
Fixpoint parse_digits (key : list Z) (value : Z) : option Z :=
  match key with
  | [] => Some value
  | c :: key' => match digit c with Some d => parse_digits key' (value * 10 + d) | None => None end
  end.

Definition parse_added_token_decoder_id (key : list Z) : result Z :=
  match key with
  | [] => Err InvalidArgument
  | c :: key' =>
      match parse_digits key 0 with
      | Some parsed => _ ← throw_if ((kMaxTokenId <? parsed) || ((c =? 48) && negb (vsize key' =? 0))) InvalidArgument; Ok parsed
      | None => Err InvalidArgument
      end
  end.

(** [before] are the tokens of the first file, among which the definitions of an id must agree. *)
Definition merge_added_token (v : VocabMetadata) (acc : added_state * list Z) (item : string * Json) : result (added_state * list Z) :=
  let '(s, decoder_ids) := acc in
  id ← parse_added_token_decoder_id (bytes_of (fst item));
  _ ← throw_if (existsb (Z.eqb id) decoder_ids) InvalidArgument;
  token ← parse_added_token_decoder_entry id (snd item);
  _ ← validate_supported_added_token token;
  match List.find (fun t => at_id t =? id) (as_tokens s) with
  | Some existing =>
      _ ← throw_if (negb (same_added_token existing token)) InvalidArgument;
      Ok (s, id :: decoder_ids)
  | None =>
      _ ← throw_if (bool_decide (id ∈ vm_occupied_ids v)) InvalidArgument;
      _ ← throw_if (existsb (fun t => bool_decide (at_content t = at_content token)) (as_tokens s) || bool_decide (is_Some (vm_token_to_id v !! at_content token))) InvalidArgument;
      let id_to_token := resized (as_id_to_token s) id [] in
      _ ← throw_if (match id_to_token.[id] with Some l => negb (vsize l =? 0) | None => false end) InvalidArgument;
      Ok (mkAddedState (id_to_token.[id <- at_content token]) (as_tokens s ++ [token]), id :: decoder_ids)
  end.

Definition added_le (a b : AddedToken) : Prop := at_id a <= at_id b.
#[global] Instance added_le_dec : RelDecision added_le := fun a b => Z_le_dec _ _.

Definition merge_added_tokens_decoder (v : VocabMetadata) (root : Json) (s : added_state) : result added_state :=
  if negb (contains root "added_tokens_decoder") then Ok s else
  decoder ← require_object_field root "added_tokens_decoder";
  '(s, _) ← rfor (merge_added_token v) (s, []) decoder;
  Ok (mkAddedState (as_id_to_token s) (merge_sort added_le (as_tokens s))).

(** * Merges and stop tokens *)
Definition load_default_stop_token_ids (root : Json) : result (list Z) :=
  match json_find root "eos_token_id" with
  | Some (JUnsigned n) => id ← parse_token_id (JUnsigned n); Ok [id]
  | Some (JNegative n) => id ← parse_token_id (JNegative n); Ok [id]
  | Some (JArray items) => _ ← throw_if (vsize items =? 0) InvalidArgument; rmap parse_token_id items
  | _ => Err InvalidArgument
  end.

(** A merge as a pair, or as two symbols with one space between them. *)
Definition split_merge (item : Json) : result (list Z * list Z) :=
  match item with
  | JArray [JString lhs; JString rhs] => Ok (bytes_of lhs, bytes_of rhs)
  | JString text =>
      let '(lhs, rest) := span_while (fun c => negb (c =? 32)) (bytes_of text) in
      match rest with
      | [] => Err InvalidArgument
      | _ :: rhs =>
          _ ← throw_if ((vsize lhs =? 0) || (vsize rhs =? 0) || existsb (fun c => c =? 32) rhs) InvalidArgument;
          Ok (lhs, rhs)
      end
  | _ => Err InvalidArgument
  end.

Definition load_merge (token_to_id : gmap (list Z) Z) (acc : BpeMergeTable * Z) (item : Json) : result (BpeMergeTable * Z) :=
  let '(rules, rank) := acc in
  '(lhs, rhs) ← split_merge item;
  match token_to_id !! lhs, token_to_id !! rhs, token_to_id !! (lhs ++ rhs) with
  | Some left_id, Some right_id, Some result_id =>
      '(inserted, rules) ← insert rules (merge_pair_key left_id right_id) (mkRule rank result_id);
      _ ← throw_if (negb inserted) InvalidArgument;
      Ok (rules, rank + 1)
  | _, _, _ => Err InvalidArgument
  end.

Definition load_bpe_merge_rules (model : Json) (token_to_id : gmap (list Z) Z) : result BpeMergeTable :=
  merges ← require_array_field model "merges";
  rules ← Tokenizer.reset (vsize merges);
  '(rules, _) ← rfor (load_merge token_to_id) (rules, 0) merges;
  Ok rules.

(** * The constructor *)
Section Load.
Context `{Utf8proc} (parse : list Z -> option Json).

Definition read_json_asset (contents : list Z) : result Json :=
  match parse contents with Some root => Ok root | None => Err InvalidArgument end.

Definition load_byte_token_ids (token_to_id : gmap (list Z) Z) : result (list Z) :=
  byte_encoder ← build_byte_level_encoder;
  Ok (map (fun token => match token_to_id !! token with Some id => id | None => -1 end) byte_encoder).

Definition letters_only : string :=
  "(?i:'s|'t|'re|'ve|'m|'ll|'d)|[^\r\n\p{L}\p{N}]?\p{L}+|\p{N}| ?[^\s\p{L}\p{N}]+[\r\n]*|\s*[\r\n]+|\s+(?!\S)|\s+".
Definition letters_and_marks : string :=
  "(?i:'s|'t|'re|'ve|'m|'ll|'d)|[^\r\n\p{L}\p{N}]?[\p{L}\p{M}]+|\p{N}| ?[^\s\p{L}\p{M}\p{N}]+[\r\n]*|\s*[\r\n]+|\s+(?!\S)|\s+".

(** [sequence.at(0)] *)
Definition json_front (value : Json) : result Json :=
  match value with JArray (item :: _) => Ok item | _ => Err OutOfRange end.

Definition pre_split_marks (root : Json) : result bool :=
  if contains root "pre_tokenizer" then
    pre ← json_at root "pre_tokenizer";
    sequence ← json_at pre "pretokenizers";
    item ← json_front sequence;
    outer ← json_at item "pattern";
    regex ← json_at outer "Regex";
    match regex with
    | JString pattern =>
        _ ← throw_if (bool_decide (pattern <> letters_only) && bool_decide (pattern <> letters_and_marks)) InvalidArgument;
        Ok (bool_decide (pattern = letters_and_marks))
    | _ => Err RuntimeError
    end
  else Ok true.

(** The flags of all ids, from the tokens of the vocabulary and the added ones. *)
Definition flags (size : nat) (marked : list Z) : list bool := map (fun id => existsb (Z.eqb id) marked) (seqZ 0 (Z.of_nat size)).

Definition decode_vocab_token (valid added : list bool) (index : Z) (token : list Z) : result (list Z) :=
  match valid.[index], added.[index] with
  | Some true, Some false => decode_byte_level_token token
  | _, _ => Ok token
  end.

Definition make_tokenizer (tokenizer_json tokenizer_config_json generation_config_json : list Z) : result Tokenizer :=
  _ ← throw_if ((vsize tokenizer_json =? 0) || (vsize tokenizer_config_json =? 0) || (vsize generation_config_json =? 0)) InvalidArgument;
  root ← read_json_asset tokenizer_json;
  marks ← pre_split_marks root;
  tokenizer_config ← read_json_asset tokenizer_config_json;
  model ← require_object_field root "model";
  let model := JObject model in
  vocab ← load_vocab model;
  s ← load_added_tokens vocab root;
  s ← merge_added_tokens_decoder vocab tokenizer_config s;
  let size := length (as_id_to_token s) in
  let added := flags size (map at_id (as_tokens s)) in
  let valid := flags size (elements (vm_occupied_ids vocab) ++ map at_id (as_tokens s)) in
  let special := flags size (map at_id (List.filter at_special (as_tokens s))) in
  decoded ← rmap (fun '(index, token) => decode_vocab_token valid added index token) (zip (seqZ 0 (Z.of_nat size)) (as_id_to_token s));
  rules ← load_bpe_merge_rules model (vm_token_to_id vocab);
  byte_token_ids ← load_byte_token_ids (vm_token_to_id vocab);
  generation_config ← read_json_asset generation_config_json;
  stop ← load_default_stop_token_ids generation_config;
  Ok (mkTokenizer decoded marks valid special (vm_token_to_id vocab) rules byte_token_ids (as_tokens s) stop).
End Load.
