(* ===== verification/TokenTable.v ===== *)
(** The open-addressed merge table is a map: what was inserted is found, nothing else is, and every probe ends. *)
From stdpp Require Import strings gmap.
From S2P Require Import Prelude StorageLayouts ArtifactReader Unicode Tokenizer.

Lemma land_ones_mod x k : 0 <= k -> Z.land x (2 ^ k - 1) = x mod 2 ^ k.
Proof. intros Hk. rewrite <- Z.land_ones by done. f_equal. rewrite Z.ones_equiv. lia. Qed.

(** The least number with a decidable property. *)
Lemma first_stop (P : Z -> Prop) `{forall d, Decision (P d)} n : 0 <= n -> P n -> exists d, 0 <= d <= n /\ P d /\ forall d', 0 <= d' < d -> ~ P d'.
Proof.
  intros Hn. revert n Hn. apply (natlike_rec2 (fun n => P n -> exists d, 0 <= d <= n /\ P d /\ forall d', 0 <= d' < d -> ~ P d')).
  - intros HP. exists 0. split; [lia|]. split; [done|]. lia.
  - intros n Hn IH HP.
    destruct (decide (Exists P (seqZ 0 (Z.succ n)))) as [He|He].
    + apply Exists_exists in He as (m & Hm & HPm). apply elem_of_seqZ in Hm.
      assert (Hgen : forall m, 0 <= m -> m <= n -> P m -> exists d, 0 <= d <= m /\ P d /\ forall d', 0 <= d' < d -> ~ P d').
      { clear -H. intros m0 Hm0. pattern m0. apply Zlt_0_ind; [|done]. intros x IHx Hx0 Hx HPx.
        destruct (decide (Exists P (seqZ 0 x))) as [Hy|Hy].
        - apply Exists_exists in Hy as (y & Hy & HPy). apply elem_of_seqZ in Hy. destruct (IHx y ltac:(lia) ltac:(lia) HPy) as (d & Hd & HPd & Hmin). exists d. split; [lia|done].
        - exists x. split; [lia|]. split; [done|]. intros d' Hd' HPd'. apply Hy. apply Exists_exists. exists d'. split; [apply elem_of_seqZ; lia|done]. }
      destruct (Hgen m ltac:(lia) ltac:(lia) HPm) as (d & Hd & HPd & Hmin). exists d. split; [lia|done].
    + exists (Z.succ n). split; [lia|]. split; [done|]. intros d' Hd' HPd'. apply He. apply Exists_exists. exists d'. split; [apply elem_of_seqZ; lia|done].
Qed.

(** * Capacity *)
Lemma grow_capacity_ok fuel n k : 0 <= n -> 0 <= k -> k + Z.of_nat fuel = 64 -> 2 * n <= 2 ^ 62 -> k <= 62 -> exists j, k <= j <= 62 /\ grow_capacity fuel n (2 ^ k) = Ok (2 ^ j) /\ 2 * n <= 2 ^ j.
Proof.
  intros Hn. revert k. induction fuel as [|fuel IH]; intros k Hk Hf Hb Hk62; [lia|]. cbn [grow_capacity].
  rewrite wrap64_small by (unfold U64_MAX; lia). destruct (Z.ltb_spec (2 ^ k) (n * 2)) as [Hlt|Hge].
  - assert (Hk1 : k < 62). { destruct (decide (k = 62)) as [->|]; [lia|lia]. }
    rewrite Z.shiftl_mul_pow2 by lia. change (2 ^ 1) with 2. assert (Hp : 2 ^ k * 2 = 2 ^ (k + 1)) by (rewrite Z.pow_add_r by lia; lia).
    assert (Hm : 2 ^ (k + 1) <= 2 ^ 62) by (apply Z.pow_le_mono_r; lia). rewrite Hp, wrap64_small by (pose proof (Z.pow_pos_nonneg 2 (k + 1)); unfold U64_MAX; lia).
    destruct (IH (k + 1) ltac:(lia) ltac:(lia) Hb ltac:(lia)) as (j & Hj & E & Hc). exists j. split; [lia|done].
  - exists k. split; [lia|]. split; [done|lia].
Qed.

(** * The table as a map *)
Definition occupied (e : BpeMergeEntry) : Prop := 0 <= me_result e.
#[global] Instance occupied_dec e : Decision (occupied e).
Proof. unfold occupied. apply _. Defined.

Definition rule_of (e : BpeMergeEntry) : BpeMergeRule := mkRule (me_rank e) (me_result e).
Definition filled (slots : list BpeMergeEntry) : Z := vsize (filter occupied slots).

Section Table.
Context (k : Z) (Hk : 0 <= k <= 62).

Definition cap : Z := 2 ^ k.
Definition home (key : Z) : Z := mix key mod cap.
Definition slot_of (key d : Z) : Z := (home key + d) mod cap.

Lemma cap_pos : 0 < cap.
Proof. apply Z.pow_pos_nonneg; lia. Qed.

(** Every occupied slot has the rule of its key; every key is found before the first empty slot from its home on. *)
Record table_ok (t : BpeMergeTable) (m : gmap Z BpeMergeRule) : Prop := {
  ta_size : vsize (mt_slots t) = cap;
  ta_mask : mt_mask t = cap - 1;
  ta_slot : forall i e, (mt_slots t).[i] = Some e -> occupied e -> m !! me_key e = Some (rule_of e);
  ta_chain : forall key, is_Some (m !! key) -> exists d e, 0 <= d < cap /\ (mt_slots t).[slot_of key d] = Some e /\ occupied e /\ me_key e = key /\
    forall d', 0 <= d' < d -> exists e', (mt_slots t).[slot_of key d'] = Some e' /\ occupied e';
  ta_filled : filled (mt_slots t) = Z.of_nat (size m);
}.

Lemma slot_range key d : 0 <= slot_of key d < cap.
Proof. apply Z.mod_pos_bound, cap_pos. Qed.

Lemma slot_entry t m key d : table_ok t m -> exists e, (mt_slots t).[slot_of key d] = Some e.
Proof. intros Ht. apply vget_is_Some. rewrite (ta_size _ _ Ht). apply slot_range. Qed.

Lemma home_slot t m key : table_ok t m -> Z.land (mix key) (mt_mask t) = slot_of key 0.
Proof. intros Ht. rewrite (ta_mask _ _ Ht). unfold cap at 1. rewrite land_ones_mod by lia. unfold slot_of, home. rewrite Z.add_0_r, Z.mod_mod; [done|]. pose proof cap_pos. lia. Qed.

Lemma next_slot_of t m key d : table_ok t m -> 0 <= d -> next_slot t (slot_of key d) = slot_of key (d + 1).
Proof.
  intros Ht Hd. unfold next_slot. rewrite (ta_mask _ _ Ht). pose proof (slot_range key d) as Hr. assert (Hc : cap <= 2 ^ 62) by (apply Z.pow_le_mono_r; lia).
  rewrite wrap64_small by (unfold U64_MAX; lia). unfold cap at 1. rewrite land_ones_mod by lia. fold cap. unfold slot_of. rewrite Z.add_mod_idemp_l by (pose proof cap_pos; lia).
  f_equal. lia.
Qed.

(** Not all slots are occupied. *)
Lemma empty_slot t m key : table_ok t m -> Z.of_nat (size m) < cap -> exists d e, 0 <= d < cap /\ (mt_slots t).[slot_of key d] = Some e /\ ~ occupied e.
Proof.
  intros Ht Hm. destruct (decide (Forall occupied (mt_slots t))) as [Hall|Hne].
  - exfalso. pose proof (ta_filled _ _ Ht) as Hf. unfold filled in Hf. pose proof (ta_size _ _ Ht) as Hs. unfold vsize in *.
    assert (E : filter occupied (mt_slots t) = mt_slots t) by (clear -Hall; induction Hall as [|x l Hx _ IH]; [done|]; rewrite filter_cons, decide_True by done; by rewrite IH).
    rewrite E in Hf. lia.
  - apply not_Forall_Exists in Hne; [|apply _]. apply Exists_exists in Hne as (e & Hin & He). apply list_elem_of_lookup in Hin as [i Hi]. pose proof cap_pos as Hcp.
    pose proof (lookup_lt_Some _ _ _ Hi) as Hlt. pose proof (ta_size _ _ Ht) as Hs. unfold vsize in Hs.
    exists ((Z.of_nat i - home key) mod cap), e. split; [apply Z.mod_pos_bound; lia|]. split; [|done]. unfold slot_of. rewrite Z.add_mod_idemp_r by lia.
    replace (home key + (Z.of_nat i - home key)) with (Z.of_nat i) by lia. rewrite Z.mod_small by lia. unfold vget. rewrite (proj2 (Z.leb_le 0 (Z.of_nat i))) by lia. by rewrite Nat2Z.id.
Qed.

(** Where the probing for a key stops. *)
Definition stops (t : BpeMergeTable) (key d : Z) : Prop :=
  match (mt_slots t).[slot_of key d] with Some e => ~ occupied e \/ me_key e = key | None => True end.
#[local] Instance stops_dec t key d : Decision (stops t key d).
Proof. unfold stops. destruct ((mt_slots t).[slot_of key d]); apply _. Defined.

Lemma probe t m key : table_ok t m -> Z.of_nat (size m) < cap ->
  exists d e, 0 <= d < cap /\ (mt_slots t).[slot_of key d] = Some e /\
    (if decide (occupied e) then me_key e = key /\ m !! key = Some (rule_of e) else m !! key = None) /\
    forall d', 0 <= d' < d -> exists e', (mt_slots t).[slot_of key d'] = Some e' /\ occupied e' /\ me_key e' <> key.
Proof.
  intros Ht Hm. destruct (empty_slot t m key Ht Hm) as (d0 & e0 & Hd0 & He0 & Hn0).
  destruct (first_stop (stops t key) d0) as (d & Hd & Hs & Hmin); [lia|unfold stops; rewrite He0; by left|].
  destruct (slot_entry t m key d Ht) as [e He]. exists d, e. split; [lia|]. split; [done|].
  assert (Hbefore : forall d', 0 <= d' < d -> exists e', (mt_slots t).[slot_of key d'] = Some e' /\ occupied e' /\ me_key e' <> key).
  { intros d' Hd'. destruct (slot_entry t m key d' Ht) as [e' He']. exists e'. split; [done|]. specialize (Hmin d' Hd'). unfold stops in Hmin. rewrite He' in Hmin.
    split; [destruct (decide (occupied e')); [done|]; exfalso; apply Hmin; by left|]. intros E. apply Hmin. by right. }
  split; [|done]. unfold stops in Hs. rewrite He in Hs. destruct (decide (occupied e)) as [Ho|Ho].
  - destruct Hs as [Hs|Hs]; [done|]. split; [done|]. rewrite <- Hs. by apply (ta_slot _ _ Ht (slot_of key d)).
  - destruct (m !! key) as [r|] eqn:Er; [|done]. exfalso. destruct (ta_chain _ _ Ht key ltac:(by exists r)) as (d1 & e1 & Hd1 & He1 & Ho1 & Hk1 & Hc).
    destruct (Z_lt_le_dec d d1) as [Hlt|Hge].
    + destruct (Hc d ltac:(lia)) as (e' & He' & Ho'). assert (e' = e) as -> by congruence. done.
    + destruct (decide (d1 = d)) as [->|Hne]; [assert (e1 = e) as -> by congruence; done|]. destruct (Hbefore d1 ltac:(lia)) as (e' & He' & _ & Hk'). congruence.
Qed.

Lemma find_from_ok fuel t m key d D e : table_ok t m -> 0 <= d <= D -> D - d < Z.of_nat fuel -> (mt_slots t).[slot_of key D] = Some e ->
  (occupied e -> me_key e = key) -> (forall d', 0 <= d' < D -> exists e', (mt_slots t).[slot_of key d'] = Some e' /\ occupied e' /\ me_key e' <> key) ->
  find_from fuel t (slot_of key d) key = Ok (if decide (occupied e) then Some e else None).
Proof.
  intros Ht. revert d. induction fuel as [|fuel IH]; intros d Hd Hf He Hkey Hb; [lia|]. cbn [find_from]. destruct (decide (d = D)) as [->|Hne].
  - unfold vat. rewrite He. cbn [mbind result_bind]. destruct (decide (occupied e)) as [Ho|Ho]; unfold occupied in *.
    + rewrite (proj2 (Z.ltb_ge _ _)) by lia. by rewrite (proj2 (Z.eqb_eq _ _) (Hkey Ho)).
    + by rewrite (proj2 (Z.ltb_lt _ _)) by lia.
  - destruct (Hb d ltac:(lia)) as (e' & He' & Ho' & Hk'). unfold vat. rewrite He'. cbn [mbind result_bind]. unfold occupied in Ho'. rewrite (proj2 (Z.ltb_ge _ _)) by lia.
    rewrite (proj2 (Z.eqb_neq _ _)) by done. rewrite (next_slot_of t m) by (done || lia). apply IH; try done; lia.
Qed.

Lemma find_ok t m key : table_ok t m -> Z.of_nat (size m) < cap ->
  exists r, find t key = Ok r /\ rule_of <$> r = m !! key.
Proof.
  intros Ht Hm. destruct (probe t m key Ht Hm) as (d & e & Hd & He & Hcase & Hb). unfold find. rewrite (home_slot t m key Ht).
  assert (Hfuel : Z.of_nat (length (mt_slots t)) = cap) by exact (ta_size _ _ Ht).
  rewrite (find_from_ok (length (mt_slots t)) t m key 0 d e); try done; [|lia|lia|].
  - eexists. split; [done|]. destruct (decide (occupied e)); cbn; [by destruct Hcase|done].
  - intros Ho. rewrite decide_True in Hcase by done. by destruct Hcase.
Qed.

Lemma insert_from_ok fuel t m key rule d D e : table_ok t m -> 0 <= d <= D -> D - d < Z.of_nat fuel -> (mt_slots t).[slot_of key D] = Some e ->
  (occupied e -> me_key e = key) -> (forall d', 0 <= d' < D -> exists e', (mt_slots t).[slot_of key d'] = Some e' /\ occupied e' /\ me_key e' <> key) ->
  insert_from fuel t (slot_of key d) key rule =
    Ok (if decide (occupied e) then (false, t) else (true, mkTable ((mt_slots t).[slot_of key D <- mkMerge key (br_rank rule) (br_result rule)]) (mt_mask t))).
Proof.
  intros Ht. revert d. induction fuel as [|fuel IH]; intros d Hd Hf He Hkey Hb; [lia|]. cbn [insert_from]. destruct (decide (d = D)) as [->|Hne].
  - unfold vat. rewrite He. cbn [mbind result_bind]. destruct (decide (occupied e)) as [Ho|Ho]; unfold occupied in *.
    + rewrite (proj2 (Z.leb_le _ _)) by lia. by rewrite (proj2 (Z.eqb_eq _ _) (Hkey Ho)).
    + by rewrite (proj2 (Z.leb_gt _ _)) by lia.
  - destruct (Hb d ltac:(lia)) as (e' & He' & Ho' & Hk'). unfold vat. rewrite He'. cbn [mbind result_bind]. unfold occupied in Ho'. rewrite (proj2 (Z.leb_le _ _)) by lia.
    rewrite (proj2 (Z.eqb_neq _ _)) by done. rewrite (next_slot_of t m) by (done || lia). apply IH; try done; lia.
Qed.

Lemma filled_vset slots i e e' : slots.[i] = Some e -> ~ occupied e -> occupied e' -> filled (slots.[i <- e']) = filled slots + 1.
Proof.
  intros Hi He He'. pose proof (vget_Some_bounds _ _ _ Hi) as Hb. unfold vget in Hi. rewrite (proj2 (Z.leb_le 0 i)) in Hi by lia. unfold vset. rewrite (proj2 (Z.leb_le 0 i)) by lia.
  unfold filled, vsize. rewrite insert_take_drop by (by eapply lookup_lt_Some). rewrite <- (take_drop_middle slots (Z.to_nat i) e Hi) at 3.
  rewrite !filter_app, !filter_cons, (decide_True (P := occupied e')), (decide_False (P := occupied e)) by done. rewrite !length_app. cbn. lia.
Qed.

(** Inserting refuses a key that is there and adds any other. *)
Lemma insert_ok t m key rule : table_ok t m -> Z.of_nat (size m) < cap -> 0 <= br_result rule ->
  match m !! key with
  | Some _ => insert t key rule = Ok (false, t)
  | None => exists t', insert t key rule = Ok (true, t') /\ table_ok t' (<[key := rule]> m)
  end.
Proof.
  intros Ht Hm Hres. destruct (probe t m key Ht Hm) as (d & e & Hd & He & Hcase & Hb).
  assert (Hfuel : Z.of_nat (length (mt_slots t)) = cap) by exact (ta_size _ _ Ht).
  assert (E : insert t key rule = Ok (if decide (occupied e) then (false, t) else (true, mkTable ((mt_slots t).[slot_of key d <- mkMerge key (br_rank rule) (br_result rule)]) (mt_mask t)))).
  { unfold insert. rewrite (home_slot t m key Ht). apply (insert_from_ok _ t m); try done; [lia|lia|]. intros Ho. rewrite decide_True in Hcase by done. by destruct Hcase. }
  rewrite E. destruct (decide (occupied e)) as [Ho|Ho]; [by destruct Hcase as [_ ->]|]. rewrite Hcase. eexists. split; [done|].
  set (e' := mkMerge key (br_rank rule) (br_result rule)). pose proof (vget_Some_bounds _ _ _ He) as Hbound.
  assert (Hkeep : forall i x, (mt_slots t).[i] = Some x -> occupied x -> (mt_slots t).[slot_of key d <- e'].[i] = Some x).
  { intros i x Hx Hox. rewrite vget_vset_ne; [done|]. intros <-. assert (x = e) as -> by congruence. done. }
  split; cbn.
  - by rewrite vsize_vset, (ta_size _ _ Ht).
  - apply (ta_mask _ _ Ht).
  - intros i x Hx Hox. destruct (decide (i = slot_of key d)) as [->|Hne].
    + rewrite vget_vset_eq in Hx by done. injection Hx as <-. cbn. rewrite lookup_insert_eq. by destruct rule.
    + rewrite vget_vset_ne in Hx by done. pose proof (ta_slot _ _ Ht i x Hx Hox) as Hr. rewrite lookup_insert_ne; [done|]. intros E'. rewrite <- E', Hcase in Hr. done.
  - intros key' Hkey'. destruct (decide (key' = key)) as [->|Hne].
    + exists d, e'. split; [done|]. split; [by apply vget_vset_eq|]. split; [done|]. split; [done|]. intros d' Hd'. destruct (Hb d' Hd') as (x & Hx & Hox & _). exists x. split; [by apply Hkeep|done].
    + rewrite lookup_insert_ne in Hkey' by done. destruct (ta_chain _ _ Ht key' Hkey') as (d1 & e1 & Hd1 & He1 & Ho1 & Hk1 & Hc). exists d1, e1. split; [done|]. split; [by apply Hkeep|].
      split; [done|]. split; [done|]. intros d' Hd'. destruct (Hc d' Hd') as (x & Hx & Hox). exists x. split; [by apply Hkeep|done].
  - rewrite (filled_vset _ _ e) by done. rewrite (ta_filled _ _ Ht), map_size_insert_None by done. lia.
Qed.
End Table.

(** A new table is empty. *)
Lemma reset_ok n : 0 <= n -> 2 * n <= 2 ^ 62 -> exists k t, 0 <= k <= 62 /\ 2 * n <= cap k /\ Tokenizer.reset n = Ok t /\ table_ok k t ∅.
Proof.
  intros Hn Hb. destruct (grow_capacity_ok 64 n 0) as (k & Hk & E & Hc); [done|done|done|done|lia|]. change (2 ^ 0) with 1 in E.
  exists k. eexists. split; [lia|]. split; [done|]. unfold Tokenizer.reset. rewrite E. cbn [mbind result_bind]. split; [done|]. pose proof (cap_pos k ltac:(lia)) as Hp.
  fold (cap k). assert (Hget : forall i e, (replicate (Z.to_nat (cap k)) empty_merge).[i] = Some e -> e = empty_merge).
  { intros i e He. unfold vget in He. destruct (0 <=? i); [|done]. by apply lookup_replicate in He as [-> _]. }
  split; cbn.
  - unfold vsize. rewrite length_replicate. lia.
  - done.
  - intros i e ->%Hget Ho. unfold occupied in Ho. cbn in Ho. lia.
  - intros key Hx. rewrite lookup_empty in Hx. by destruct Hx.
  - unfold filled. rewrite map_size_empty. clear. induction (Z.to_nat (cap k)) as [|n IH]; [done|]. cbn [replicate]. rewrite filter_cons, decide_False; [done|]. unfold occupied. cbn. lia.
Qed.
