(* ===== verification/TokenMerges.v ===== *)
(** Byte-pair merges: the queue over linked nodes does the merges of the definition, that is always a pair of lowest rank, and of those the
    leftmost, until no pair has a rule. *)
From stdpp Require Import strings gmap.
From S2P Require Import Prelude StorageLayouts ArtifactReader Unicode Tokenizer TokenTable.

(** * The definition *)
Section Reference.
Context (look : Z -> Z -> option BpeMergeRule).

(** The leftmost pair of lowest rank. *)
Fixpoint best_pair (l : list Z) : option (nat * BpeMergeRule) :=
  match l with
  | a :: ((b :: _) as l') =>
      match look a b, best_pair l' with
      | Some r, Some (i, r') => if br_rank r' <? br_rank r then Some (S i, r') else Some (O, r)
      | Some r, None => Some (O, r)
      | None, Some (i, r') => Some (S i, r')
      | None, None => None
      end
  | _ => None
  end.

Definition merge_at (i : nat) (r : BpeMergeRule) (l : list Z) : list Z := take i l ++ br_result r :: drop (S (S i)) l.

Fixpoint bpe_steps (fuel : nat) (l : list Z) : list Z :=
  match best_pair l with
  | None => l
  | Some (i, r) => match fuel with O => l | S fuel' => bpe_steps fuel' (merge_at i r l) end
  end.

(** A merge makes the word shorter, so there are fewer merges than symbols. *)
Definition bpe (l : list Z) : list Z := bpe_steps (length l) l.

(** Position [p] has the pair of [r], and no pair is better. *)
Definition pair_at (l : list Z) (p : nat) (r : BpeMergeRule) : Prop :=
  exists a b, l !! p = Some a /\ l !! S p = Some b /\ look a b = Some r.

Definition is_best (l : list Z) (p : nat) (r : BpeMergeRule) : Prop :=
  pair_at l p r /\ forall q r', pair_at l q r' -> br_rank r < br_rank r' \/ br_rank r = br_rank r' /\ (p <= q)%nat.

Lemma pair_at_cons x l p r : pair_at (x :: l) (S p) r <-> pair_at l p r.
Proof. done. Qed.

Lemma best_pair_spec l : match best_pair l with Some (p, r) => is_best l p r | None => forall p r, ~ pair_at l p r end.
Proof.
  induction l as [|a l IH]; [intros p r (x & y & Hx & _); by rewrite lookup_nil in Hx|]. destruct l as [|b l].
  { intros p r (x & y & _ & Hy & _). destruct p; done. }
  change (best_pair (a :: b :: l)) with (match look a b, best_pair (b :: l) with
      | Some r, Some (i, r') => if br_rank r' <? br_rank r then Some (S i, r') else Some (O, r)
      | Some r, None => Some (O, r) | None, Some (i, r') => Some (S i, r') | None, None => None end).
  assert (H0 : forall r, pair_at (a :: b :: l) 0 r <-> look a b = Some r).
  { intros r. split; [intros (x & y & [= ->] & [= ->] & E); done|intros E; by exists a, b]. }
  destruct (look a b) as [r|] eqn:El; destruct (best_pair (b :: l)) as [[i r']|].
  - destruct IH as [Hp Hbest]. destruct (Z.ltb_spec (br_rank r') (br_rank r)) as [Hlt|Hge].
    + split; [by apply pair_at_cons|]. intros [|q] r'' Hq; [apply H0 in Hq; left; congruence|]. apply pair_at_cons, Hbest in Hq. destruct Hq as [Hq|[Hq Hle]]; [by left|right; split; [done|lia]].
    + split; [by apply H0|]. intros [|q] r'' Hq; [apply H0 in Hq; injection Hq as <-; right; split; [done|lia]|]. apply pair_at_cons, Hbest in Hq.
      destruct (decide (br_rank r < br_rank r'')); [by left|right; split; [lia|lia]].
  - split; [by apply H0|]. intros [|q] r'' Hq; [apply H0 in Hq; injection Hq as <-; right; split; [done|lia]|]. apply pair_at_cons in Hq. by apply IH in Hq.
  - destruct IH as [Hp Hbest]. split; [by apply pair_at_cons|]. intros [|q] r'' Hq; [apply H0 in Hq; congruence|]. apply pair_at_cons, Hbest in Hq. destruct Hq as [Hq|[Hq Hle]]; [by left|right; split; [done|lia]].
  - intros [|q] r'' Hq; [apply H0 in Hq; congruence|]. apply pair_at_cons in Hq. by apply IH in Hq.
Qed.

Lemma is_best_unique l p r : is_best l p r -> best_pair l = Some (p, r).
Proof.
  intros [Hp Hb]. pose proof (best_pair_spec l) as Hs. destruct (best_pair l) as [[q r']|]; [|by apply Hs in Hp]. destruct Hs as [Hq Hb'].
  destruct (Hb q r' Hq) as [H1|[H1 H2]]; destruct (Hb' p r Hp) as [H3|[H3 H4]]; try lia. assert (p = q) as <- by lia.
  destruct Hp as (a & b & Ha & Hbb & E), Hq as (a' & b' & Ha' & Hb'' & E'). f_equal. f_equal. congruence.
Qed.

Lemma pair_at_length l p r : pair_at l p r -> (S p < length l)%nat.
Proof. intros (a & b & _ & Hb & _). by apply lookup_lt_Some in Hb. Qed.

Lemma length_merge_at l p r : (S p < length l)%nat -> length (merge_at p r l) = (length l - 1)%nat.
Proof. intros Hp. unfold merge_at. rewrite length_app, length_take. cbn [length]. rewrite length_drop. lia. Qed.

Lemma lookup_merge_at l p r q : (S p < length l)%nat ->
  merge_at p r l !! q = if decide (q < p)%nat then l !! q else if decide (q = p) then Some (br_result r) else l !! S q.
Proof.
  intros Hp. unfold merge_at. destruct (decide (q < p)%nat) as [Hq|Hq].
  - rewrite lookup_app_l by (rewrite length_take; lia). by rewrite lookup_take_lt by lia.
  - rewrite lookup_app_r by (rewrite length_take; lia). rewrite length_take, Nat.min_l by lia. destruct (decide (q = p)) as [->|Hne]; [by rewrite Nat.sub_diag|].
    destruct (q - p)%nat as [|d] eqn:Ed; [lia|]. rewrite lookup_cons, lookup_drop. f_equal. lia.
Qed.

Lemma bpe_step l p r : is_best l p r -> bpe l = bpe (merge_at p r l).
Proof.
  intros Hb. pose proof (pair_at_length l p r (proj1 Hb)) as Hl. unfold bpe at 1. destruct (length l) as [|n] eqn:En; [lia|]. cbn [bpe_steps].
  rewrite (is_best_unique l p r Hb). unfold bpe. rewrite length_merge_at by lia. by replace (length l - 1)%nat with n by lia.
Qed.

Lemma bpe_done l : (forall p r, ~ pair_at l p r) -> bpe l = l.
Proof.
  intros Hn. pose proof (best_pair_spec l) as Hs. unfold bpe. destruct (length l); cbn [bpe_steps]; (destruct (best_pair l) as [[p r]|]; [destruct Hs as [Hp _]; by apply Hn in Hp|done]).
Qed.
End Reference.

(** * The queue *)
Lemma pop_candidate_ok queue : match pop_candidate queue with
  | None => queue = []
  | Some (c, rest) => c :: rest ≡ₚ queue /\ forall x, x ∈ queue -> later c x = false
  end.
Proof.
  induction queue as [|c queue IH]; [done|]. cbn [pop_candidate]. destruct (pop_candidate queue) as [[top rest]|].
  - destruct IH as [Hp Hmin]. destruct (later c top) eqn:El.
    + split; [by rewrite perm_swap, Hp|]. intros x [-> | Hx]%elem_of_cons; [|by apply Hmin]. unfold later in *.
      destruct (Z.eqb_spec (ca_rank c) (ca_rank top)) as [E|E]; cbn in El; destruct (Z.eqb_spec (ca_rank top) (ca_rank c)); cbn; try lia; apply Z.ltb_lt in El; apply Z.ltb_ge; lia.
    + split; [done|]. intros x [-> | Hx]%elem_of_cons; [unfold later; rewrite Z.eqb_refl; cbn; by apply Z.ltb_irrefl|]. specialize (Hmin x Hx). unfold later in *.
      destruct (Z.eqb_spec (ca_rank c) (ca_rank top)) as [E|E]; cbn in El; destruct (Z.eqb_spec (ca_rank top) (ca_rank x)) as [E'|E']; cbn in Hmin;
        destruct (Z.eqb_spec (ca_rank c) (ca_rank x)); cbn; apply Z.ltb_ge in El, Hmin; apply Z.ltb_ge; lia.
  - rewrite IH. split; [done|]. intros x ->%list_elem_of_singleton. unfold later. rewrite Z.eqb_refl. cbn. apply Z.ltb_irrefl.
Qed.

Section Merging.
Context (rules : BpeMergeTable) (look : Z -> Z -> option BpeMergeRule) (n : Z).
Definition is_symbol (a : Z) : Prop := 0 <= a <= I32_MAX.
Context (Hn : 0 < n <= I32_MAX).
Context (Hfind : forall a b, is_symbol a -> is_symbol b -> exists r, find rules (merge_pair_key a b) = Ok r /\ rule_of <$> r = look a b).
Context (Hlook : forall a b r, look a b = Some r -> is_symbol (br_result r)).

(** * Linked nodes *)
Definition symbol_at (nodes : list BpeNode) (i : Z) : Z := match nodes.[i] with Some nd => nd_symbol nd | None => -1 end.

Definition node_ok (chain : list Z) (p : nat) (nd : BpeNode) : Prop :=
  nd_live nd = true /\ is_symbol (nd_symbol nd) /\ nd_previous nd = match p with O => -1 | S p' => default (-1) (chain !! p') end /\
  nd_next nd = default (-1) (chain !! S p) /\ nd_end nd = default n (chain !! S p).

Record chain_ok (nodes : list BpeNode) (chain : list Z) : Prop := {
  cn_size : vsize nodes = n;
  cn_head : chain !! 0%nat = Some 0;
  cn_order : forall p q i j, chain !! p = Some i -> chain !! q = Some j -> (p < q)%nat -> i < j;
  cn_node : forall p i, chain !! p = Some i -> exists nd, nodes.[i] = Some nd /\ node_ok chain p nd;
  cn_live : forall i nd, nodes.[i] = Some nd -> nd_live nd = true -> i ∈ chain;
  cn_generation : forall i nd, nodes.[i] = Some nd -> 0 <= nd_generation nd <= n - vsize chain;
}.

Lemma chain_inj nodes chain p q i : chain_ok nodes chain -> chain !! p = Some i -> chain !! q = Some i -> p = q.
Proof.
  intros Hc Hp Hq. destruct (decide (p = q)) as [|Hne]; [done|]. destruct (decide (p < q)%nat) as [Hlt|Hge].
  - pose proof (cn_order _ _ Hc p q i i Hp Hq Hlt). lia.
  - pose proof (cn_order _ _ Hc q p i i Hq Hp ltac:(lia)). lia.
Qed.

Lemma chain_range nodes chain p i : chain_ok nodes chain -> chain !! p = Some i -> 0 <= i < n.
Proof.
  intros Hc Hp. destruct (cn_node _ _ Hc p i Hp) as (nd & Hnd & _). pose proof (vget_Some_bounds _ _ _ Hnd) as Hb. by rewrite (cn_size _ _ Hc) in Hb.
Qed.

(** The successor of a node of the chain. *)
Lemma chain_next nodes chain p i nd j : chain_ok nodes chain -> chain !! p = Some i -> nodes.[i] = Some nd -> nd_next nd = j -> 0 <= j -> chain !! S p = Some j.
Proof.
  intros Hc Hp Hnd Hj Hj0. destruct (cn_node _ _ Hc p i Hp) as (nd' & Hnd' & _ & _ & _ & Hnext & _). assert (nd' = nd) as -> by congruence.
  destruct (chain !! S p) as [x|]; cbn in Hnext; [congruence|lia].
Qed.

Definition symbols (nodes : list BpeNode) (chain : list Z) : list Z := map (symbol_at nodes) chain.

(** What a merge does to the nodes. *)
Section MergeStep.
Context (nodes : list BpeNode) (chain : list Z) (k : nat) (cand : BpeCandidate) (left right : BpeNode).
Context (Hc : chain_ok nodes chain) (Hi : chain !! k = Some (ca_left cand)) (Hj : chain !! S k = Some (ca_right cand)).
Context (Hleft : nodes.[ca_left cand] = Some left) (Hright : nodes.[ca_right cand] = Some right) (Hres : is_symbol (ca_result cand)).

Lemma left_ok : node_ok chain k left.
Proof. destruct (cn_node _ _ Hc k _ Hi) as (nd & Hnd & Hok). by assert (nd = left) as <- by congruence. Qed.
Lemma right_ok : node_ok chain (S k) right.
Proof. destruct (cn_node _ _ Hc (S k) _ Hj) as (nd & Hnd & Hok). by assert (nd = right) as <- by congruence. Qed.

Definition merged_chain : list Z := delete (S k) chain.

Lemma merged_before p : (p < S k)%nat -> merged_chain !! p = chain !! p.
Proof. intros Hp. unfold merged_chain. by apply list_lookup_delete_lt. Qed.
Lemma merged_after p : (S k <= p)%nat -> merged_chain !! p = chain !! S p.
Proof. intros Hp. unfold merged_chain. by apply list_lookup_delete_ge. Qed.

Lemma merged_previous p : (p <= S k)%nat ->
  match p with O => -1 | S p' => default (-1) (merged_chain !! p') end = match p with O => -1 | S p' => default (-1) (chain !! p') end.
Proof. intros Hp. destruct p as [|p']; [done|]. by rewrite merged_before by lia. Qed.

Lemma merged_lookup p x : merged_chain !! p = Some x -> exists q, chain !! q = Some x /\ q <> S k /\ (if decide (p < S k)%nat then q = p else q = S p).
Proof.
  intros Hx. destruct (decide (p < S k)%nat) as [Hp|Hp].
  - rewrite merged_before in Hx by done. exists p. split; [done|]. split; [lia|done].
  - rewrite merged_after in Hx by lia. exists (S p). split; [done|]. split; [lia|done].
Qed.

(** The nodes after the merge: every node but the two and the one behind them is as it was. *)
Lemma merge_nodes_ok : exists nodes', merge_nodes cand left right nodes = Ok nodes' /\ vsize nodes' = n /\
  nodes'.[ca_left cand] = Some (mkNode (ca_result cand) (nd_previous left) (nd_next right) (nd_end right) (wrap32 (nd_generation left + 1)) (nd_live left)) /\
  nodes'.[ca_right cand] = Some (mkNode (nd_symbol right) (nd_previous right) (nd_next right) (nd_end right) (wrap32 (nd_generation right + 1)) false) /\
  forall x nd, x <> ca_left cand -> x <> ca_right cand -> nodes.[x] = Some nd ->
    nodes'.[x] = Some (if decide (x = nd_next right) then mkNode (nd_symbol nd) (ca_left cand) (nd_next nd) (nd_end nd) (nd_generation nd) (nd_live nd) else nd).
Proof.
  destruct right_ok as (_ & _ & _ & Hnext & _). pose proof (vget_Some_bounds _ _ _ Hleft) as Hbl. pose proof (vget_Some_bounds _ _ _ Hright) as Hbr.
  assert (Hlr : ca_left cand < ca_right cand) by (apply (cn_order _ _ Hc k (S k)); [done|done|lia]).
  unfold merge_nodes. cbn [nd_next]. set (l' := mkNode (ca_result cand) _ _ _ _ _). set (r' := mkNode (nd_symbol right) _ _ _ _ _).
  destruct (Z.leb_spec 0 (nd_next right)) as [Hnx|Hnx].
  - assert (Ha : chain !! S (S k) = Some (nd_next right)) by (by eapply (chain_next nodes chain (S k))).
    destruct (cn_node _ _ Hc _ _ Ha) as (after & Hafter & _). pose proof (vget_Some_bounds _ _ _ Hafter) as Hba.
    pose proof (cn_order _ _ Hc (S k) (S (S k)) _ _ Hj Ha ltac:(lia)) as Hra.
    unfold vat. rewrite !vget_vset_ne by lia. rewrite Hafter. cbn [mbind result_bind]. eexists. split; [done|]. rewrite !vsize_vset. split; [apply (cn_size _ _ Hc)|].
    split; [rewrite !vget_vset_ne by lia; by rewrite vget_vset_eq by done|]. split; [rewrite vget_vset_ne by lia; rewrite vget_vset_eq; [done|by rewrite vsize_vset]|].
    intros x nd Hxl Hxr Hx. destruct (decide (x = nd_next right)) as [->|Hxn].
    + rewrite vget_vset_eq by (by rewrite !vsize_vset). by assert (nd = after) as -> by congruence.
    + by rewrite !vget_vset_ne by done.
  - eexists. split; [done|]. rewrite !vsize_vset. split; [apply (cn_size _ _ Hc)|].
    split; [rewrite vget_vset_ne by lia; by rewrite vget_vset_eq by done|]. split; [rewrite vget_vset_eq; [done|by rewrite vsize_vset]|].
    intros x nd Hxl Hxr Hx. pose proof (vget_Some_bounds _ _ _ Hx) as Hbx. rewrite decide_False by lia. by rewrite !vget_vset_ne by done.
Qed.

(** How a node changes. *)
Definition node_step (x : Z) (nd nd' : BpeNode) : Prop :=
  if decide (x = ca_left cand \/ x = ca_right cand) then nd_generation nd' = nd_generation nd + 1
  else nd_generation nd' = nd_generation nd /\ nd_symbol nd' = nd_symbol nd.

Lemma left_right_differ : ca_left cand <> ca_right cand.
Proof. pose proof (cn_order _ _ Hc k (S k) _ _ Hi Hj ltac:(lia)). lia. Qed.

Lemma generation_room i nd : nodes.[i] = Some nd -> wrap32 (nd_generation nd + 1) = nd_generation nd + 1.
Proof.
  intros Hnd. pose proof (cn_generation _ _ Hc i nd Hnd) as Hg. apply wrap32_small. unfold I32_MAX, U32_MAX in *.
  assert (0 <= vsize chain) by (unfold vsize; lia). lia.
Qed.

Lemma merged_node nodes' p i :
  nodes'.[ca_left cand] = Some (mkNode (ca_result cand) (nd_previous left) (nd_next right) (nd_end right) (wrap32 (nd_generation left + 1)) (nd_live left)) ->
  (forall x nd, x <> ca_left cand -> x <> ca_right cand -> nodes.[x] = Some nd ->
    nodes'.[x] = Some (if decide (x = nd_next right) then mkNode (nd_symbol nd) (ca_left cand) (nd_next nd) (nd_end nd) (nd_generation nd) (nd_live nd) else nd)) ->
  merged_chain !! p = Some i -> exists nd, nodes'.[i] = Some nd /\ node_ok merged_chain p nd.
Proof.
  intros Hl Hother Hp. pose proof left_ok as (Hlive & Hsym & Hprev & _). pose proof right_ok as (_ & _ & _ & Hnext & Hend).
  destruct (merged_lookup p i Hp) as (q & Hq & Hqk & Hcase). destruct (cn_node _ _ Hc q i Hq) as (nd & Hnd & Hn1 & Hn2 & Hn3 & Hn4 & Hn5).
  assert (Hir : i <> ca_right cand) by (intros ->; apply Hqk; by eapply (chain_inj nodes chain)).
  destruct (decide (p < S k)%nat) as [Hlt|Hge]; subst q.
  - destruct (decide (p = k)) as [->|Hpk].
    + assert (i = ca_left cand) as -> by congruence. eexists. split; [exact Hl|]. split; [done|]. split; [done|]. cbn [nd_previous nd_next nd_end].
      split; [rewrite merged_previous by lia; exact Hprev|]. rewrite merged_after by lia. done.
    + assert (Hil : i <> ca_left cand) by (intros ->; apply Hpk; by eapply (chain_inj nodes chain)).
      assert (Hin : i <> nd_next right).
      { intros ->. pose proof (chain_range nodes chain p _ Hc Hq) as Hr. pose proof (chain_next nodes chain (S k) _ right _ Hc Hj Hright eq_refl ltac:(lia)) as Hs.
        pose proof (chain_inj nodes chain p (S (S k)) _ Hc Hq Hs). lia. }
      exists nd. split; [rewrite (Hother i nd) by done; by rewrite decide_False|]. split; [done|]. split; [done|].
      split; [rewrite merged_previous by lia; exact Hn3|]. by rewrite merged_before by lia.
  - assert (Hil : i <> ca_left cand) by (intros ->; pose proof (chain_inj nodes chain (S p) k _ Hc Hq Hi); lia).
    rewrite (Hother i nd) by done. destruct (decide (i = nd_next right)) as [Hin|Hin].
    + pose proof (chain_range nodes chain (S p) _ Hc Hq) as Hr. pose proof (chain_next nodes chain (S k) _ right _ Hc Hj Hright (eq_sym Hin) ltac:(lia)) as Hs.
      pose proof (chain_inj nodes chain (S p) (S (S k)) _ Hc Hq Hs) as Epk. eexists. split; [done|]. split; [done|]. split; [done|]. cbn [nd_previous nd_next nd_end].
      assert (p = S k) as -> by lia. split; [rewrite merged_before by lia; by rewrite Hi|]. by rewrite merged_after by lia.
    + exists nd. split; [done|]. split; [done|]. split; [done|].
      assert (Hpk : p <> S k).
      { intros ->. apply Hin. rewrite Hnext, Hq. done. }
      split; [rewrite Hn3; destruct p as [|p']; [lia|]; by rewrite merged_after by lia|]. by rewrite merged_after by lia.
Qed.

Lemma length_merged : vsize merged_chain = vsize chain - 1.
Proof. unfold merged_chain, vsize. rewrite length_delete by (by exists (ca_right cand)). apply lookup_lt_Some in Hj. lia. Qed.

Lemma merge_step : exists nodes', merge_nodes cand left right nodes = Ok nodes' /\ chain_ok nodes' merged_chain /\
  (forall x nd, nodes.[x] = Some nd -> exists nd', nodes'.[x] = Some nd' /\ node_step x nd nd') /\
  symbols nodes' merged_chain = merge_at k (mkRule (ca_rank cand) (ca_result cand)) (symbols nodes chain).
Proof.
  destruct merge_nodes_ok as (nodes' & E & Hsz & Hl & Hr & Hother). exists nodes'. split; [done|]. pose proof left_right_differ as Hlr.
  assert (Hsteps : forall x nd, nodes.[x] = Some nd -> exists nd', nodes'.[x] = Some nd' /\ node_step x nd nd').
  { intros x nd Hx. unfold node_step. destruct (decide (x = ca_left cand)) as [->|Hxl].
    - eexists. split; [exact Hl|]. rewrite decide_True by (by left). cbn. assert (nd = left) as -> by congruence. by apply (generation_room (ca_left cand)).
    - destruct (decide (x = ca_right cand)) as [->|Hxr].
      + eexists. split; [exact Hr|]. rewrite decide_True by (by right). cbn. assert (nd = right) as -> by congruence. by apply (generation_room (ca_right cand)).
      + eexists. split; [by apply Hother|]. rewrite decide_False by (by intros [?|?]). by destruct (decide _). }
  assert (Hnodes : forall p i, merged_chain !! p = Some i -> exists nd, nodes'.[i] = Some nd /\ node_ok merged_chain p nd) by (intros p i; by apply merged_node).
  assert (Hback : forall x nd', nodes'.[x] = Some nd' -> exists nd, nodes.[x] = Some nd).
  { intros x nd' Hx. apply vget_is_Some. pose proof (vget_Some_bounds _ _ _ Hx) as Hb. rewrite Hsz in Hb. by rewrite (cn_size _ _ Hc). }
  split; [|split; [done|]].
  - split; [done|rewrite merged_before by lia; apply (cn_head _ _ Hc)| |done| |].
    + intros p q i j Hp Hq Hlt. destruct (merged_lookup p i Hp) as (p' & Hp' & _ & Cp). destruct (merged_lookup q j Hq) as (q' & Hq' & _ & Cq).
      apply (cn_order _ _ Hc p' q'); [done|done|]. destruct (decide (p < S k)%nat), (decide (q < S k)%nat); lia.
    + intros i nd' Hx Hlv. destruct (Hback i nd' Hx) as [nd Hnd]. assert (Hir : i <> ca_right cand) by (intros ->; rewrite Hr in Hx; injection Hx as <-; done).
      assert (Hlive : nd_live nd = true).
      { destruct (decide (i = ca_left cand)) as [->|Hil]; [rewrite Hl in Hx; injection Hx as <-; cbn in Hlv; congruence|].
        rewrite (Hother i nd) in Hx by done. injection Hx as <-. by destruct (decide _). }
      pose proof (cn_live _ _ Hc i nd Hnd Hlive) as Hin. apply list_elem_of_lookup in Hin as [q Hq]. apply list_elem_of_lookup.
      destruct (decide (q < S k)%nat) as [Hqk|Hqk]; [exists q; by rewrite merged_before|]. assert (q <> S k) by (intros ->; congruence).
      exists (q - 1)%nat. rewrite merged_after by lia. by replace (S (q - 1)) with q by lia.
    + intros i nd' Hx. destruct (Hback i nd' Hx) as [nd Hnd]. destruct (Hsteps i nd Hnd) as (nd'' & Hx' & Hst). assert (nd'' = nd') as -> by congruence.
      pose proof (cn_generation _ _ Hc i nd Hnd) as Hg. rewrite length_merged. unfold node_step in Hst. destruct (decide _); [lia|]. destruct Hst as [-> _]. lia.
  - apply list_eq. intros p. unfold symbols. rewrite list_lookup_fmap.
    assert (Hlen : (S k < length (map (symbol_at nodes) chain))%nat) by (rewrite length_map; by eapply lookup_lt_Some).
    rewrite lookup_merge_at by done. cbn [br_result]. rewrite !list_lookup_fmap.
    assert (Hsame : forall x q, chain !! q = Some x -> x <> ca_left cand -> x <> ca_right cand -> symbol_at nodes' x = symbol_at nodes x).
    { intros x q Hq Hxl Hxr. destruct (cn_node _ _ Hc q x Hq) as (nd & Hnd & _). destruct (Hsteps x nd Hnd) as (nd' & Hnd' & Hst). unfold node_step in Hst.
      rewrite decide_False in Hst by (by intros [?|?]). unfold symbol_at. rewrite Hnd, Hnd'. by destruct Hst. }
    destruct (decide (p < k)%nat) as [Hpk|Hpk].
    + rewrite merged_before by lia. destruct (chain !! p) as [x|] eqn:Hx; [|done]. cbn. f_equal. apply (Hsame x p Hx).
      * intros ->. pose proof (chain_inj nodes chain p k _ Hc Hx Hi). lia.
      * intros ->. pose proof (chain_inj nodes chain p (S k) _ Hc Hx Hj). lia.
    + destruct (decide (p = k)) as [->|Hne].
      * rewrite merged_before, Hi by lia. cbn. unfold symbol_at. by rewrite Hl.
      * rewrite merged_after by lia. destruct (chain !! S p) as [x|] eqn:Hx; [|done]. cbn. f_equal. apply (Hsame x (S p) Hx).
        -- intros ->. pose proof (chain_inj nodes chain (S p) k _ Hc Hx Hi). lia.
        -- intros ->. pose proof (chain_inj nodes chain (S p) (S k) _ Hc Hx Hj). lia.
Qed.
End MergeStep.

(** * The queue and the nodes *)
Definition cand_rule (c : BpeCandidate) : BpeMergeRule := mkRule (ca_rank c) (ca_result c).

(** A candidate is about two nodes; if neither has changed since, it is the rule of their symbols. *)
Definition cand_ok (nodes : list BpeNode) (c : BpeCandidate) : Prop :=
  exists l r, nodes.[ca_left c] = Some l /\ nodes.[ca_right c] = Some r /\ ca_left_generation c <= nd_generation l /\ ca_right_generation c <= nd_generation r /\
    (nd_generation l = ca_left_generation c -> nd_generation r = ca_right_generation c -> look (nd_symbol l) (nd_symbol r) = Some (cand_rule c)).

(** The candidate of the nodes [i] and [j], as they are. *)
Definition current (nodes : list BpeNode) (i j : Z) (rule : BpeMergeRule) (c : BpeCandidate) : Prop :=
  exists l r, nodes.[i] = Some l /\ nodes.[j] = Some r /\
    c = mkCandidate (br_rank rule) i j (br_result rule) (nd_generation l) (nd_generation r).

Record queue_ok (nodes : list BpeNode) (chain : list Z) (queue : list BpeCandidate) : Prop := {
  qu_sound : Forall (cand_ok nodes) queue;
  qu_complete : forall p i j rule, chain !! p = Some i -> chain !! S p = Some j -> look (symbol_at nodes i) (symbol_at nodes j) = Some rule ->
    exists c, c ∈ queue /\ current nodes i j rule c;
}.

(** Pushing the pair that starts at position [p]. *)
Lemma push_ok nodes chain queue p i : chain_ok nodes chain -> chain !! p = Some i -> Forall (cand_ok nodes) queue ->
  exists more, push_candidate rules i (mkWord nodes queue) = Ok (mkWord nodes (queue ++ more)) /\ (length more <= 1)%nat /\ Forall (cand_ok nodes) (queue ++ more) /\
    forall j rule, chain !! S p = Some j -> look (symbol_at nodes i) (symbol_at nodes j) = Some rule -> exists c, c ∈ more /\ current nodes i j rule c.
Proof.
  intros Hc Hp Hq. pose proof (chain_range nodes chain p i Hc Hp) as Hr. destruct (cn_node _ _ Hc p i Hp) as (nd & Hnd & Hlive & Hsym & _ & Hnext & _).
  unfold push_candidate. rewrite (proj2 (Z.ltb_ge i 0)) by lia. cbn [ws_nodes ws_queue]. unfold vat. rewrite Hnd. cbn [mbind result_bind]. rewrite Hlive. cbn [negb].
  destruct (chain !! S p) as [j|] eqn:Hj; cbn in Hnext; rewrite Hnext.
  2: { exists []. rewrite app_nil_r. split; [done|]. split; [cbn; lia|]. split; [done|]. done. }
  pose proof (chain_range nodes chain (S p) j Hc Hj) as Hrj. destruct (cn_node _ _ Hc (S p) j Hj) as (nj & Hnj & _ & Hsymj & _).
  rewrite (proj2 (Z.ltb_ge j 0)) by lia. unfold vat. rewrite Hnj. cbn [mbind result_bind]. destruct (Hfind (nd_symbol nd) (nd_symbol nj) Hsym Hsymj) as (r & -> & Hlk). cbn [mbind result_bind].
  assert (Hs : look (symbol_at nodes i) (symbol_at nodes j) = rule_of <$> r) by (unfold symbol_at; by rewrite Hnd, Hnj).
  destruct r as [e|].
  - eexists [_]. split; [done|]. split; [done|]. cbn in Hlk. split.
    + apply Forall_app. split; [done|]. apply Forall_singleton. exists nd, nj. cbn. split; [done|]. split; [done|]. split; [lia|]. split; [lia|]. intros _ _. by rewrite <- Hlk.
    + intros j' rule [= <-] Hrule. eexists. split; [by left|]. rewrite Hs in Hrule. cbn in Hrule. injection Hrule as <-. by exists nd, nj.
  - exists []. rewrite app_nil_r. split; [done|]. split; [cbn; lia|]. split; [done|]. intros j' rule [= <-] Hrule. rewrite Hs in Hrule. done.
Qed.

(** A merge keeps the candidates sound. *)
Lemma cand_ok_step cand nodes nodes' c : (forall x nd, nodes.[x] = Some nd -> exists nd', nodes'.[x] = Some nd' /\ node_step cand x nd nd') ->
  cand_ok nodes c -> cand_ok nodes' c.
Proof.
  intros Hstep (l & r & Hl & Hr & Hgl & Hgr & Hrule). destruct (Hstep _ _ Hl) as (l' & Hl' & Sl). destruct (Hstep _ _ Hr) as (r' & Hr' & Sr). exists l', r'. split; [done|]. split; [done|].
  unfold node_step in Sl, Sr. destruct (decide (ca_left c = _ \/ _)); destruct (decide (ca_right c = _ \/ _)).
  - split; [lia|]. split; [lia|]. lia.
  - destruct Sr as [Er Es]. split; [lia|]. split; [lia|]. lia.
  - destruct Sl as [El Es]. split; [lia|]. split; [lia|]. lia.
  - destruct Sl as [El Esl], Sr as [Er Esr]. rewrite El, Er, Esl, Esr. done.
Qed.

Lemma current_step cand nodes nodes' i j rule c : (forall x nd, nodes.[x] = Some nd -> exists nd', nodes'.[x] = Some nd' /\ node_step cand x nd nd') ->
  i <> ca_left cand -> i <> ca_right cand -> j <> ca_left cand -> j <> ca_right cand -> current nodes i j rule c -> current nodes' i j rule c.
Proof.
  intros Hstep H1 H2 H3 H4 (l & r & Hl & Hr & ->). destruct (Hstep _ _ Hl) as (l' & Hl' & Sl). destruct (Hstep _ _ Hr) as (r' & Hr' & Sr). exists l', r'. split; [done|]. split; [done|].
  unfold node_step in Sl, Sr. rewrite decide_False in Sl by (by intros [?|?]). rewrite decide_False in Sr by (by intros [?|?]). destruct Sl as [-> _], Sr as [-> _]. done.
Qed.

Lemma symbol_step cand nodes nodes' i nd : (forall x nd, nodes.[x] = Some nd -> exists nd', nodes'.[x] = Some nd' /\ node_step cand x nd nd') ->
  i <> ca_left cand -> i <> ca_right cand -> nodes.[i] = Some nd -> symbol_at nodes' i = symbol_at nodes i.
Proof.
  intros Hstep H1 H2 Hi. destruct (Hstep _ _ Hi) as (nd' & Hi' & Sl). unfold node_step in Sl. rewrite decide_False in Sl by (by intros [?|?]). unfold symbol_at. rewrite Hi, Hi'. by destruct Sl.
Qed.

(** A candidate that passes the test is the best pair of the word. *)
Lemma valid_candidate nodes chain queue c rest l r : chain_ok nodes chain -> queue_ok nodes chain queue -> c :: rest ≡ₚ queue -> (forall x, x ∈ queue -> later c x = false) ->
  nodes.[ca_left c] = Some l -> nodes.[ca_right c] = Some r -> nd_live l = true -> nd_next l = ca_right c ->
  nd_generation l = ca_left_generation c -> nd_generation r = ca_right_generation c ->
  exists k, chain !! k = Some (ca_left c) /\ chain !! S k = Some (ca_right c) /\ is_best look (symbols nodes chain) k (cand_rule c).
Proof.
  intros Hc [Hs Hcomp] Hperm Hmin Hl Hr Hlive Hnext Hgl Hgr. pose proof (cn_live _ _ Hc _ _ Hl Hlive) as Hin. apply list_elem_of_lookup in Hin as [k Hk].
  pose proof (vget_Some_bounds _ _ _ Hr) as Hbr. pose proof (chain_next nodes chain k _ l _ Hc Hk Hl Hnext ltac:(lia)) as Hk1. exists k. split; [done|]. split; [done|].
  rewrite Forall_forall in Hs. destruct (Hs c) as (l' & r' & Hl' & Hr' & _ & _ & Hrule); [rewrite <- Hperm; by left|].
  assert (l' = l) as -> by congruence. assert (r' = r) as -> by congruence. specialize (Hrule Hgl Hgr). unfold symbols. split.
  - exists (nd_symbol l), (nd_symbol r). rewrite !list_lookup_fmap, Hk, Hk1. cbn. unfold symbol_at. rewrite Hl, Hr. done.
  - intros q r' (a & b & Ha & Hb & E). rewrite list_lookup_fmap in Ha, Hb. destruct (chain !! q) as [i|] eqn:Hi; [|done]. destruct (chain !! S q) as [j|] eqn:Hj; [|done].
    injection Ha as <-. injection Hb as <-. destruct (Hcomp q i j r' Hi Hj E) as (x & Hx & (li & rj & _ & _ & ->)). specialize (Hmin _ Hx). unfold later in Hmin. cbn in Hmin. cbn.
    destruct (Z.eqb_spec (ca_rank c) (br_rank r')) as [Er|Er]; cbn in Hmin; apply Z.ltb_ge in Hmin; [|left; lia]. right. split; [done|].
    destruct (decide (k <= q)%nat) as [|Hgt]; [done|]. pose proof (cn_order _ _ Hc q k i _ Hi Hk ltac:(lia)). lia.
Qed.

(** After a merge at [k], the pairs that are new are those at [k - 1] and [k]. *)
Lemma queue_after_merge nodes nodes' chain queue rest cand k more : chain_ok nodes chain -> queue_ok nodes chain queue -> cand :: rest ≡ₚ queue ->
  chain !! k = Some (ca_left cand) -> chain !! S k = Some (ca_right cand) ->
  (forall x nd, nodes.[x] = Some nd -> exists nd', nodes'.[x] = Some nd' /\ node_step cand x nd nd') ->
  Forall (cand_ok nodes') (rest ++ more) ->
  (forall p i j rule, (p = k \/ S p = k) -> merged_chain chain k !! p = Some i -> merged_chain chain k !! S p = Some j -> look (symbol_at nodes' i) (symbol_at nodes' j) = Some rule ->
     exists c, c ∈ more /\ current nodes' i j rule c) ->
  queue_ok nodes' (merged_chain chain k) (rest ++ more).
Proof.
  intros Hc [_ Hcomp] Hperm Hi Hj Hstep Hsound Hnew. split; [done|]. intros p i j rule Hp Hp1 Hrule.
  destruct (decide (p = k \/ S p = k)) as [Hpk|Hpk]; [destruct (Hnew p i j rule Hpk Hp Hp1 Hrule) as (c & Hin & Hcur); exists c; split; [set_solver|done]|].
  assert (Hpos : exists q, chain !! q = Some i /\ chain !! S q = Some j /\ q <> k /\ q <> S k /\ S q <> k /\ S q <> S k).
  { destruct (decide (S p < S k)%nat) as [Hlt|Hge].
    - rewrite merged_before in Hp, Hp1 by lia. exists p. split; [done|]. split; [done|]. lia.
    - rewrite merged_after in Hp, Hp1 by lia. exists (S p). split; [done|]. split; [done|]. lia. }
  destruct Hpos as (q & Hq & Hq1 & N1 & N2 & N3 & N4).
  assert (Hdiff : forall q' x, chain !! q' = Some x -> q' <> k -> q' <> S k -> x <> ca_left cand /\ x <> ca_right cand).
  { intros q' x Hx M1 M2. split; intros ->; [apply M1|apply M2]; by eapply (chain_inj nodes chain). }
  destruct (Hdiff q i Hq N1 N2) as [D1 D2]. destruct (Hdiff (S q) j Hq1 N3 N4) as [D3 D4].
  destruct (cn_node _ _ Hc q i Hq) as (ni & Hni & _). destruct (cn_node _ _ Hc (S q) j Hq1) as (nj & Hnj & _).
  rewrite (symbol_step cand nodes nodes' i ni Hstep D1 D2 Hni), (symbol_step cand nodes nodes' j nj Hstep D3 D4 Hnj) in Hrule.
  destruct (Hcomp q i j rule Hq Hq1 Hrule) as (c & Hin & Hcur). exists c. split; [|by eapply current_step]. apply elem_of_app. left. rewrite <- Hperm in Hin. apply elem_of_cons in Hin as [-> | Hin]; [|done].
  destruct Hcur as (? & ? & _ & _ & E). exfalso. apply D1. by rewrite E.
Qed.

Lemma push_none w left : left < 0 -> push_candidate rules left w = Ok w.
Proof. intros Hl. unfold push_candidate. by rewrite (proj2 (Z.ltb_lt left 0)). Qed.

(** The two pushes after a merge. *)
Lemma pushes_ok nodes nodes' chain queue rest cand k left : chain_ok nodes chain -> queue_ok nodes chain queue -> cand :: rest ≡ₚ queue ->
  chain !! k = Some (ca_left cand) -> chain !! S k = Some (ca_right cand) -> nodes.[ca_left cand] = Some left ->
  (forall x nd, nodes.[x] = Some nd -> exists nd', nodes'.[x] = Some nd' /\ node_step cand x nd nd') -> chain_ok nodes' (merged_chain chain k) ->
  exists more, (w ← push_candidate rules (nd_previous left) (mkWord nodes' rest); push_candidate rules (ca_left cand) w) = Ok (mkWord nodes' (rest ++ more)) /\
    (length more <= 2)%nat /\ queue_ok nodes' (merged_chain chain k) (rest ++ more).
Proof.
  intros Hc Hq Hperm Hi Hj Hleft Hstep Hc'.
  assert (Hrest : Forall (cand_ok nodes') rest).
  { pose proof (qu_sound _ _ _ Hq) as Hs. rewrite <- Hperm in Hs. apply Forall_cons_1 in Hs as [_ Hs]. eapply Forall_impl; [exact Hs|]. intros c. by apply (cand_ok_step cand nodes). }
  destruct (cn_node _ _ Hc k _ Hi) as (l' & Hl' & _ & _ & Hprev & _). assert (l' = left) as -> by congruence.
  assert (Hi' : merged_chain chain k !! k = Some (ca_left cand)) by (by rewrite merged_before by lia).
  assert (Hfirst : exists more1, push_candidate rules (nd_previous left) (mkWord nodes' rest) = Ok (mkWord nodes' (rest ++ more1)) /\ (length more1 <= 1)%nat /\
            Forall (cand_ok nodes') (rest ++ more1) /\
            forall p i j rule, S p = k -> merged_chain chain k !! p = Some i -> merged_chain chain k !! S p = Some j -> look (symbol_at nodes' i) (symbol_at nodes' j) = Some rule ->
              exists c, c ∈ more1 /\ current nodes' i j rule c).
  { destruct k as [|k'].
    - exists []. rewrite app_nil_r. split; [apply push_none; lia|]. split; [cbn; lia|]. split; [done|]. lia.
    - destruct (chain !! k') as [prev|] eqn:Hpv; [|apply lookup_ge_None in Hpv; apply lookup_lt_Some in Hi; lia]. cbn in Hprev. rewrite Hprev.
      assert (Hpv' : merged_chain chain (S k') !! k' = Some prev) by (by rewrite merged_before by lia).
      destruct (push_ok nodes' _ rest k' prev Hc' Hpv' Hrest) as (more1 & E & Hlen & Hf & Hx). exists more1. split; [done|]. split; [done|]. split; [done|].
      intros p i j rule [= ->] Hp Hp1 Hrule. assert (i = prev) as -> by congruence. by apply (Hx j). }
  destruct Hfirst as (more1 & E1 & Hlen1 & Hf1 & Hx1). rewrite E1. cbn [mbind result_bind].
  destruct (push_ok nodes' _ (rest ++ more1) k (ca_left cand) Hc' Hi' Hf1) as (more2 & E2 & Hlen2 & Hf2 & Hx2). exists (more1 ++ more2). rewrite app_assoc. split; [exact E2|].
  split; [rewrite length_app; lia|]. rewrite <- app_assoc. apply (queue_after_merge nodes nodes' chain queue rest cand k); try done; [by rewrite app_assoc|].
  intros p i j rule [-> | Hpk] Hp Hp1 Hrule.
  - assert (i = ca_left cand) as -> by congruence. destruct (Hx2 j rule Hp1 Hrule) as (c & Hin & Hcur). exists c. split; [set_solver|done].
  - destruct (Hx1 p i j rule Hpk Hp Hp1 Hrule) as (c & Hin & Hcur). exists c. split; [set_solver|done].
Qed.

(** A candidate that fails the test can be dropped. *)
Lemma drop_stale nodes chain queue rest cand l r : chain_ok nodes chain -> queue_ok nodes chain queue -> cand :: rest ≡ₚ queue ->
  nodes.[ca_left cand] = Some l -> nodes.[ca_right cand] = Some r ->
  ~ (nd_live l = true /\ nd_live r = true /\ nd_next l = ca_right cand /\ nd_generation l = ca_left_generation cand /\ nd_generation r = ca_right_generation cand) ->
  queue_ok nodes chain rest.
Proof.
  intros Hc [Hs Hcomp] Hperm Hl Hr Hbad. split; [rewrite <- Hperm in Hs; by apply Forall_cons_1 in Hs as [_ ?]|]. intros p i j rule Hp Hp1 Hrule.
  destruct (Hcomp p i j rule Hp Hp1 Hrule) as (c & Hin & Hcur). exists c. split; [|done]. rewrite <- Hperm in Hin. apply elem_of_cons in Hin as [-> | Hin]; [|done]. exfalso. apply Hbad.
  destruct Hcur as (l' & r' & Hl' & Hr' & E). subst cand. cbn in *. assert (l' = l) as -> by congruence. assert (r' = r) as -> by congruence.
  destruct (cn_node _ _ Hc p i Hp) as (x & Hx & Hlive & _ & _ & Hnext & _). assert (x = l) as -> by congruence. destruct (cn_node _ _ Hc (S p) j Hp1) as (y & Hy & Hlive' & _).
  assert (y = r) as -> by congruence. rewrite Hp1 in Hnext. done.
Qed.

(** With an empty queue there is no pair left. *)
Lemma idle_done nodes chain : queue_ok nodes chain [] -> bpe look (symbols nodes chain) = symbols nodes chain.
Proof.
  intros Hq. apply bpe_done. intros p r (a & b & Ha & Hb & E). unfold symbols in *. rewrite list_lookup_fmap in Ha, Hb.
  destruct (chain !! p) as [i|] eqn:Hi; [|done]. destruct (chain !! S p) as [j|] eqn:Hj; [|done]. injection Ha as <-. injection Hb as <-.
  destruct (qu_complete _ _ _ Hq p i j r Hi Hj E) as (c & Hin & _). by apply not_elem_of_nil in Hin.
Qed.

Lemma merge_loop_ok fuel nodes chain queue : chain_ok nodes chain -> queue_ok nodes chain queue -> (length queue + 2 * (length chain - 1) <= fuel)%nat ->
  exists nodes' chain', merge_loop fuel rules (mkWord nodes queue) = Ok (mkWord nodes' []) /\ chain_ok nodes' chain' /\ symbols nodes' chain' = bpe look (symbols nodes chain).
Proof.
  revert nodes chain queue. induction fuel as [|fuel IH]; intros nodes chain queue Hc Hq Hf; cbn [merge_loop ws_queue ws_nodes];
    pose proof (pop_candidate_ok queue) as Hpop; destruct (pop_candidate queue) as [[cand rest]|].
  - destruct Hpop as [Hperm _]. apply Permutation_length in Hperm. cbn in Hperm. lia.
  - subst queue. exists nodes, chain. split; [done|]. split; [done|]. symmetry. by apply idle_done.
  - destruct Hpop as [Hperm Hmin]. pose proof (Permutation_length Hperm) as Hlen. cbn in Hlen. pose proof (qu_sound _ _ _ Hq) as Hs. rewrite Forall_forall in Hs.
    destruct (Hs cand) as (l & r & Hl & Hr & _); [rewrite <- Hperm; by left|]. unfold vat. rewrite Hl, Hr. cbn [mbind result_bind].
    destruct (_ || _) eqn:Et.
    + apply IH; [done| |lia]. apply (drop_stale nodes chain queue rest cand l r); try done. intros (T1 & T2 & T3 & T4 & T5). rewrite T1, T2, T3, T4, T5, !Z.eqb_refl in Et. done.
    + repeat (apply orb_false_iff in Et as [Et ?]). simp_bool.
      destruct (valid_candidate nodes chain queue cand rest l r) as (k & Hk & Hk1 & Hbest); try done; try (by symmetry).
      pose proof (pair_at_length _ _ _ _ (proj1 Hbest)) as Hsz. unfold symbols in Hsz. rewrite length_map in Hsz.
      assert (Hres : is_symbol (ca_result cand)) by (destruct Hbest as [(a & b & _ & _ & E) _]; by apply Hlook in E).
      destruct (merge_step nodes chain k cand l r Hc Hk Hk1 Hl Hr Hres) as (nodes' & Em & Hc' & Hstep & Hsym). rewrite Em. cbn [mbind result_bind].
      destruct (pushes_ok nodes nodes' chain queue rest cand k l Hc Hq Hperm Hk Hk1 Hl Hstep Hc') as (more & Ep & Hm & Hq').
      change (result_bind word_state word_state) with (@mbind result _ word_state word_state) in *.
      apply bind_Ok in Ep as (w1 & E1 & E2). rewrite E1. cbn [mbind result_bind]. rewrite E2. cbn [mbind result_bind].
      assert (Hmlen : length (merged_chain chain k) = (length chain - 1)%nat) by (unfold merged_chain; rewrite length_delete; [lia|by exists (ca_right cand)]).
      destruct (IH nodes' (merged_chain chain k) (rest ++ more) Hc' Hq') as (nodes2 & chain2 & E & Hc2 & Hs2); [rewrite length_app; lia|].
      exists nodes2, chain2. split; [done|]. split; [done|]. rewrite Hs2, Hsym. symmetry. by apply bpe_step.
  - subst queue. exists nodes, chain. split; [done|]. split; [done|]. symmetry. by apply idle_done.
Qed.

(** * A whole word *)
Definition first_node (symbol index : Z) : BpeNode :=
  mkNode symbol (if index =? 0 then -1 else index - 1) (if index + 1 =? n then -1 else index + 1) (index + 1) 0 true.

Lemma byte_nodes_ok ids word syms index : Forall2 (fun b s => ids.[b] = Some s /\ 0 <= s) word syms ->
  byte_nodes ids word index n = Ok (zip_with first_node syms (seqZ index (vsize syms))).
Proof.
  intros Hw. revert index. induction Hw as [|b s word syms [Hb Hs] Hw IH]; intros index; [done|]. cbn [byte_nodes]. unfold vat. rewrite Hb. cbn [mbind result_bind].
  rewrite (proj2 (Z.ltb_ge s 0)) by lia. cbn [throw_if mbind result_bind]. rewrite IH. cbn [mbind result_bind]. rewrite vsize_cons, (seqZ_cons index) by (unfold vsize; lia).
  cbn [zip_with]. unfold first_node at 1. do 3 f_equal. f_equal; lia.
Qed.

Lemma first_nodes_get syms p s : syms !! p = Some s -> (zip_with first_node syms (seqZ 0 (vsize syms))).[Z.of_nat p] = Some (first_node s (Z.of_nat p)).
Proof.
  intros Hs. unfold vget. rewrite (proj2 (Z.leb_le 0 _)) by lia. rewrite Nat2Z.id, lookup_zip_with, Hs. cbn. rewrite lookup_seqZ_lt by (apply lookup_lt_Some in Hs; unfold vsize; lia).
  cbn. by rewrite Z.add_0_l.
Qed.

Lemma first_chain_ok syms : vsize syms = n -> Forall is_symbol syms -> chain_ok (zip_with first_node syms (seqZ 0 (vsize syms))) (seqZ 0 n).
Proof.
  intros Hsz Hsym. set (nodes := zip_with _ _ _).
  assert (Hlen : vsize nodes = n) by (unfold nodes, vsize in *; rewrite length_zip_with, length_seqZ; lia).
  assert (Hchain : forall p i, seqZ 0 n !! p = Some i <-> i = Z.of_nat p /\ Z.of_nat p < n) by (intros p i; rewrite lookup_seqZ; lia).
  assert (Hnode : forall p, Z.of_nat p < n -> exists s, syms !! p = Some s /\ nodes.[Z.of_nat p] = Some (first_node s (Z.of_nat p))).
  { intros p Hp. destruct (lookup_lt_is_Some_2 syms p) as [s Hs]; [unfold vsize in Hsz; lia|]. exists s. split; [done|]. by apply first_nodes_get. }
  assert (Hget : forall i nd, nodes.[i] = Some nd -> exists s, syms !! Z.to_nat i = Some s /\ nd = first_node s i /\ 0 <= i < n).
  { intros i nd Hi. pose proof (vget_Some_bounds _ _ _ Hi) as Hb. destruct (Hnode (Z.to_nat i) ltac:(lia)) as (s & Hs & E). rewrite Z2Nat.id in E by lia. exists s.
    split; [done|]. split; [congruence|lia]. }
  assert (Hnext : forall p, seqZ 0 n !! S p = if Z.of_nat p + 1 <? n then Some (Z.of_nat p + 1) else None).
  { intros p. destruct (Z.ltb_spec (Z.of_nat p + 1) n) as [Hlt|Hge]; [apply Hchain; lia|]. apply lookup_seqZ_ge. lia. }
  split; [done|apply Hchain; lia| | | |].
  - intros p q i j [-> _]%Hchain [-> _]%Hchain Hlt. lia.
  - intros p i [-> Hp]%Hchain. destruct (Hnode p Hp) as (s & Hs & E). eexists. split; [done|]. rewrite Forall_forall in Hsym. split; [done|].
    split; [apply Hsym; by eapply list_elem_of_lookup_2|]. cbn. rewrite Hnext. split; [|destruct (Z.ltb_spec (Z.of_nat p + 1) n); cbn; destruct (Z.eqb_spec (Z.of_nat p + 1) n); split; lia].
    destruct p as [|p']; [done|]. rewrite (proj2 (Hchain p' (Z.of_nat p'))) by lia. cbn [default from_option id]. destruct (Z.eqb_spec (Z.of_nat (S p')) 0); lia.
  - intros i nd Hi _. destruct (Hget i nd Hi) as (s & _ & _ & Hb). apply elem_of_seqZ. lia.
  - intros i nd Hi. destruct (Hget i nd Hi) as (s & _ & -> & _). cbn. unfold vsize. rewrite length_seqZ. lia.
Qed.

Lemma first_symbols syms : vsize syms = n -> symbols (zip_with first_node syms (seqZ 0 (vsize syms))) (seqZ 0 n) = syms.
Proof.
  intros Hsz. apply list_eq. intros p. unfold symbols. rewrite list_lookup_fmap. destruct (syms !! p) as [s|] eqn:Hs.
  - pose proof (lookup_lt_Some _ _ _ Hs) as Hlt. rewrite lookup_seqZ_lt by (unfold vsize in Hsz; lia). cbn. rewrite Z.add_0_l. unfold symbol_at. by rewrite (first_nodes_get syms p s Hs).
  - apply lookup_ge_None in Hs. rewrite lookup_seqZ_ge by (unfold vsize in Hsz; lia). done.
Qed.

(** Pushing all pairs of a new word. *)
Lemma push_all_ok nodes chain k : chain_ok nodes chain -> (k <= length chain - 1)%nat ->
  exists queue, rfor (fun w index => push_candidate rules index w) (mkWord nodes []) (take k chain) = Ok (mkWord nodes queue) /\ (length queue <= k)%nat /\ Forall (cand_ok nodes) queue /\
    forall p i j rule, (p < k)%nat -> chain !! p = Some i -> chain !! S p = Some j -> look (symbol_at nodes i) (symbol_at nodes j) = Some rule -> exists c, c ∈ queue /\ current nodes i j rule c.
Proof.
  intros Hc. assert (Hsnoc : forall (f : word_state -> Z -> result word_state) a l x, rfor f a (l ++ [x]) = (b ← rfor f a l; f b x)).
  { intros f a l x. revert a. induction l as [|y l IH]; intros a; cbn; [by destruct (f a x)|]. destruct (f a y); [apply IH|done]. }
  induction k as [|k IH]; intros Hk.
  { exists []. split; [done|]. split; [done|]. split; [apply Forall_nil_2|]. lia. }
  destruct IH as (queue & E & Hlen & Hs & Hcomp); [lia|]. destruct (lookup_lt_is_Some_2 chain k) as [i Hi]; [lia|]. rewrite (take_S_r chain k i Hi), Hsnoc, E. cbn [mbind result_bind].
  destruct (push_ok nodes chain queue k i Hc Hi Hs) as (more & E' & Hm & Hs' & Hx). exists (queue ++ more). split; [done|]. split; [rewrite length_app; lia|]. split; [done|].
  intros p i' j rule Hp Hi' Hj Hrule. destruct (decide (p = k)) as [->|Hne].
  - assert (i' = i) as -> by congruence. destruct (Hx j rule Hj Hrule) as (c & Hin & Hcur). exists c. split; [set_solver|done].
  - destruct (Hcomp p i' j rule ltac:(lia) Hi' Hj Hrule) as (c & Hin & Hcur). exists c. split; [set_solver|done].
Qed.

(** The merges of a word are those of the definition. *)
Lemma merge_word_ok ids word syms : Forall2 (fun b s => ids.[b] = Some s /\ is_symbol s) word syms -> vsize word = n ->
  exists nodes chain, merge_word rules ids word = Ok nodes /\ chain_ok nodes chain /\ symbols nodes chain = bpe look syms.
Proof.
  intros Hw Hsz. assert (Hlen : vsize syms = n) by (unfold vsize in *; by rewrite <- (Forall2_length _ _ _ Hw)).
  assert (Hsym : Forall is_symbol syms) by (clear -Hw; induction Hw as [|b s l l' [_ Hs] _ IH]; [apply Forall_nil_2|by apply Forall_cons_2]).
  assert (Hw' : Forall2 (fun b s => ids.[b] = Some s /\ 0 <= s) word syms) by (eapply Forall2_impl; [exact Hw|]; intros b s [? [? ?]]; done).
  unfold merge_word. rewrite Hsz, (byte_nodes_ok ids word syms 0 Hw'). cbn [mbind result_bind]. set (nodes := zip_with _ _ _).
  pose proof (first_chain_ok syms Hlen Hsym) as Hc. fold nodes in Hc.
  assert (Hnl : vsize nodes = n) by (unfold nodes, vsize in *; rewrite length_zip_with, length_seqZ; lia). rewrite Hnl.
  assert (Hlc : length (seqZ 0 n) = Z.to_nat n) by apply length_seqZ.
  assert (Htake : seqZ 0 (n - 1) = take (Z.to_nat n - 1) (seqZ 0 n)).
  { apply list_eq. intros p. destruct (decide (p < Z.to_nat n - 1)%nat) as [Hp|Hp]; [rewrite lookup_take_lt by done; rewrite !lookup_seqZ_lt by lia; done|].
    rewrite lookup_take_ge by lia. by rewrite lookup_seqZ_ge by lia. }
  rewrite Htake. destruct (push_all_ok nodes (seqZ 0 n) (Z.to_nat n - 1) Hc) as (queue & E & Hq & Hs & Hcomp); [lia|]. rewrite E. cbn [mbind result_bind].
  assert (Hqok : queue_ok nodes (seqZ 0 n) queue).
  { split; [done|]. intros p i j rule Hp Hp1. apply (Hcomp p); [|done|done]. apply lookup_lt_Some in Hp1. lia. }
  destruct (merge_loop_ok (3 * length word) nodes (seqZ 0 n) queue Hc Hqok) as (nodes' & chain' & E' & Hc' & Hsy); [unfold vsize in Hsz; lia|].
  rewrite E'. exists nodes', chain'. split; [done|]. split; [done|]. rewrite Hsy. unfold nodes. by rewrite first_symbols.
Qed.

(** * The tokens of a word *)
Definition ends (chain : list Z) : list Z := drop 1 chain ++ [n].

Lemma ends_lookup chain p i : chain !! p = Some i -> ends chain !! p = Some (default n (chain !! S p)).
Proof.
  intros Hp. unfold ends. destruct (chain !! S p) as [j|] eqn:Hj; cbn.
  - rewrite lookup_app_l; [by rewrite lookup_drop|]. rewrite length_drop. apply lookup_lt_Some in Hj. lia.
  - apply lookup_ge_None in Hj. apply lookup_lt_Some in Hp. rewrite lookup_app_r by (rewrite length_drop; lia). rewrite length_drop. by replace (p - (length chain - 1))%nat with 0%nat by lia.
Qed.

Lemma emit_end fuel nodes chain begin_ max o : chain_ok nodes chain -> vsize (bo_ids o) < max ->
  exists o', emit_nodes fuel nodes begin_ max (default (-1) (chain !! length chain)) o = Ok (vsize (bo_ids o) + Z.of_nat (length chain - length chain) <? max, o') /\
    bo_ids o' = take (Z.to_nat max) (bo_ids o ++ drop (length chain) (symbols nodes chain)) /\ bo_word_ends o' = bo_word_ends o /\
    (vsize (bo_ids o) + Z.of_nat (length chain - length chain) < max -> bo_token_ends o' = bo_token_ends o ++ map (Z.add begin_) (drop (length chain) (ends chain))).
Proof.
  intros Hc Hm. pose proof (lookup_lt_Some _ _ _ (cn_head _ _ Hc)) as Hne. rewrite lookup_ge_None_2 by lia. rewrite Nat.sub_diag. cbn [Z.of_nat].
  exists o. split; [rewrite Z.add_0_r, (proj2 (Z.ltb_lt _ _) Hm); by destruct fuel|]. unfold symbols, ends. rewrite !drop_ge by (rewrite ?length_map, ?length_app, ?length_drop; cbn; lia).
  cbn [map]. rewrite !app_nil_r. split; [|done]. rewrite take_ge; [done|]. unfold vsize in Hm. lia.
Qed.

Lemma emit_ok fuel nodes chain begin_ max p o : chain_ok nodes chain -> (length chain - p <= fuel)%nat -> (p <= length chain)%nat -> vsize (bo_ids o) < max ->
  exists o', emit_nodes fuel nodes begin_ max (default (-1) (chain !! p)) o = Ok (vsize (bo_ids o) + Z.of_nat (length chain - p) <? max, o') /\
    bo_ids o' = take (Z.to_nat max) (bo_ids o ++ drop p (symbols nodes chain)) /\ bo_word_ends o' = bo_word_ends o /\
    (vsize (bo_ids o) + Z.of_nat (length chain - p) < max -> bo_token_ends o' = bo_token_ends o ++ map (Z.add begin_) (drop p (ends chain))).
Proof.
  intros Hc. revert p o. induction fuel as [|fuel IH]; intros p o Hf Hp Hm.
  { assert (p = length chain) as -> by lia. by apply emit_end. }
  destruct (chain !! p) as [i|] eqn:Hi.
  2: { apply lookup_ge_None in Hi. assert (p = length chain) as -> by lia. rewrite <- (lookup_ge_None_2 chain (length chain)) by lia. by apply emit_end. }
  pose proof (chain_range nodes chain p i Hc Hi) as Hr. pose proof (lookup_lt_Some _ _ _ Hi) as Hlt. destruct (cn_node _ _ Hc p i Hi) as (nd & Hnd & _ & _ & _ & Hnext & Hend).
  cbn [emit_nodes default from_option id]. rewrite (proj2 (Z.ltb_ge i 0)) by lia. unfold vat. rewrite Hnd. cbn [mbind result_bind bo_ids]. set (o1 := mkOutput _ _ _).
  assert (Hsym : drop p (symbols nodes chain) = nd_symbol nd :: drop (S p) (symbols nodes chain)).
  { apply drop_S. unfold symbols. rewrite list_lookup_fmap, Hi. cbn. unfold symbol_at. by rewrite Hnd. }
  rewrite vsize_app, vsize_cons. change (vsize (@nil Z)) with 0. rewrite Z.add_0_r. destruct (Z.eqb_spec (vsize (bo_ids o) + 1) max) as [Em|Em].
  - exists o1. rewrite (proj2 (Z.ltb_ge _ max)) by lia. split; [done|]. split; [|split; [done|lia]]. subst o1; cbn [bo_ids]. rewrite Hsym. change (nd_symbol nd :: drop (S p) (symbols nodes chain)) with ([nd_symbol nd] ++ drop (S p) (symbols nodes chain)). rewrite app_assoc.
    rewrite take_app_length'; [done|]. rewrite length_app. cbn. unfold vsize in Em. lia.
  - rewrite Hnext. destruct (IH (S p) o1) as (o' & E & Hids & Hw & Hends); [lia|lia|subst o1; cbn [bo_ids]; rewrite vsize_app, vsize_cons; change (vsize (@nil Z)) with 0; lia|].
    assert (Hsz1 : vsize (bo_ids o1) = vsize (bo_ids o) + 1) by (subst o1; cbn [bo_ids]; rewrite vsize_app, vsize_cons; change (vsize (@nil Z)) with 0; lia).
    rewrite Hsz1 in *. exists o'. replace (vsize (bo_ids o) + Z.of_nat (length chain - p)) with (vsize (bo_ids o) + 1 + Z.of_nat (length chain - S p)) by lia. split; [exact E|].
    split; [rewrite Hids, Hsym; subst o1; cbn [bo_ids]; by rewrite <- app_assoc|]. split; [done|]. intros Hlt'. rewrite Hends by done. subst o1; cbn [bo_token_ends]. rewrite <- app_assoc. f_equal.
    rewrite (drop_S (ends chain) (nd_end nd) p); [done|]. rewrite (ends_lookup chain p i Hi). by rewrite Hend.
Qed.
End Merging.
