(* ===== verification/TokenWords.v ===== *)
(** The split into words: [qwen_word_end] finds the match of the regular expression the tokenizer files ask for. *)
From stdpp Require Import strings gmap.
From S2P Require Import Prelude StorageLayouts ArtifactReader Unicode Tokenizer.

(** * Regular expressions *)

(** Characters are code points with their bytes. *)
Notation char := (Z * list Z)%type (only parsing).

Inductive regex : Type :=
  | RClass (test : Z -> bool)
  | RSeq (r1 r2 : regex)
  | RAlt (r1 r2 : regex)
  | ROpt (r : regex)
  | RStar (test : Z -> bool)
  | RPlus (test : Z -> bool)
  | RNotFollowedBy (test : Z -> bool).

Fixpoint star_matches (test : Z -> bool) (l : list char) : list (list char) :=
  match l with
  | x :: l' => if test (fst x) then star_matches test l' ++ [l] else [l]
  | [] => [[]]
  end.

(** What can be left after a match at the front, in the order in which a backtracking matcher tries: left alternatives first, and as many
    repetitions as possible. *)
Fixpoint matches (r : regex) (l : list char) : list (list char) :=
  match r with
  | RClass test => match l with x :: l' => if test (fst x) then [l'] else [] | [] => [] end
  | RSeq r1 r2 => flat_map (matches r2) (matches r1 l)
  | RAlt r1 r2 => matches r1 l ++ matches r2 l
  | ROpt r => matches r l ++ [l]
  | RStar test => star_matches test l
  | RPlus test => match l with x :: l' => if test (fst x) then star_matches test l' else [] | [] => [] end
  | RNotFollowedBy test => match l with x :: _ => if test (fst x) then [] else [l] | [] => [l] end
  end.

Section Words.
Context `{Utf8Laws} (marks : bool).

Definition letter (c : Z) : bool := is_letter_or_mark c marks.
Definition other (c : Z) : bool := is_non_space_non_letter_mark_number c marks.

(** A letter, in either case. *)
Definition ci (c : Z) : regex := RClass (fun x => tolower x =? tolower c).
Definition ci_word (w : list Z) : regex := match w with [a] => ci a | a :: b :: _ => RSeq (ci a) (ci b) | [] => ROpt (RClass (fun _ => false)) end.

(** [(?i:'s|'t|'re|'ve|'m|'ll|'d)] *)
Definition contraction : regex :=
  RSeq (RClass (Z.eqb 39)) (RAlt (ci_word [115]) (RAlt (ci_word [116]) (RAlt (ci_word [114; 101]) (RAlt (ci_word [118; 101])
    (RAlt (ci_word [109]) (RAlt (ci_word [108; 108]) (ci_word [100]))))))).

(** The pattern of the tokenizer, with [\p{M}] or without. *)
Definition pattern : regex :=
  RAlt contraction
  (RAlt (RSeq (ROpt (RClass is_non_newline_non_letter_non_number)) (RPlus letter))
  (RAlt (RClass is_number)
  (RAlt (RSeq (ROpt (RClass (Z.eqb 32))) (RSeq (RPlus other) (RStar is_newline)))
  (RAlt (RSeq (RStar is_whitespace) (RPlus is_newline))
  (RAlt (RSeq (RPlus is_whitespace) (RNotFollowedBy (fun c => negb (is_whitespace c))))
  (RPlus is_whitespace)))))).

(** * The code, on code points *)
Definition on_char (test : Z -> bool) : char -> bool := fun x => test (fst x).
Definition bytes (l : list char) : list Z := concat (map snd l).
Definition bsize (l : list char) : Z := vsize (bytes l).

Fixpoint ci_chars (l : list char) (suffix : list Z) : bool :=
  match l, suffix with
  | _, [] => true
  | [], _ :: _ => false
  | x :: l', b :: suffix' => (tolower (fst x) =? tolower b) && ci_chars l' suffix'
  end.

(** What is behind the last newline of a run of spaces. *)
Fixpoint last_newline (run : list char) : option (list char) :=
  match run with
  | [] => None
  | x :: run' => match last_newline run' with Some t => Some t | None => if is_newline (fst x) then Some run' else None end
  end.

Definition next_is (test : Z -> bool) (l : list char) : bool := match l with x :: _ => test (fst x) | [] => false end.

(** What is left behind the first word. *)
Definition word_rest (l : list char) : list char :=
  match l with
  | [] => []
  | x :: tl =>
      let cp := fst x in
      match (if cp =? 39 then List.find (ci_chars tl) suffixes else None) with
      | Some suffix => drop (length suffix) tl
      | None =>
          if letter cp || (is_non_newline_non_letter_non_number cp && next_is letter tl) then snd (span_while (on_char letter) (if letter cp then l else tl))
          else if is_number cp then tl
          else if ((cp =? 32) && next_is other tl) || other cp then
            snd (span_while (on_char is_newline) (snd (span_while (on_char other) (if cp =? 32 then tl else l))))
          else if is_whitespace cp then
            let '(run, rest) := span_while (on_char is_whitespace) l in
            match last_newline run with
            | Some t => t ++ rest
            | None => match rest with [] => [] | _ => if (2 <=? length run)%nat then drop (length run - 1) run ++ rest else rest end
            end
          else tl
      end
  end.

(** ** The pattern *)
Lemma span_split {A} (f : A -> bool) l : let '(p, s) := span_while f l in l = p ++ s.
Proof. induction l as [|x l IH]; [done|]. cbn. destruct (f x); [|done]. destruct (span_while f l) as [p s]. cbn. by rewrite IH. Qed.

Lemma star_head test l : exists more, star_matches test l = snd (span_while (on_char test) l) :: more.
Proof.
  induction l as [|x l [more IH]]; [by exists []|]. cbn. unfold on_char at 1. destruct (test (fst x)); [|by exists []]. rewrite IH.
  destruct (span_while (on_char test) l) as [p s]. cbn. by eexists.
Qed.

Lemma hd_app {A} (l1 l2 : list A) : hd_error (l1 ++ l2) = match hd_error l1 with Some x => Some x | None => hd_error l2 end.
Proof. by destruct l1. Qed.

Lemma newline_space c : is_newline c = true -> is_whitespace c = true.
Proof.
  unfold is_newline, is_whitespace, is_ascii_whitespace. intros [E%Z.eqb_eq | E%Z.eqb_eq]%orb_true_iff; by rewrite E.
Qed.

(** [\s*[\r\n]+] ends with the last newline of the spaces. *)
Lemma newline_matches l : let '(run, rest) := span_while (on_char is_whitespace) l in
  hd_error (flat_map (matches (RPlus is_newline)) (star_matches is_whitespace l)) = (fun t => t ++ rest) <$> last_newline run.
Proof.
  induction l as [|x l IH]; [done|]. cbn [span_while star_matches]. unfold on_char at 1. destruct (is_whitespace (fst x)) eqn:Ew.
  - destruct (span_while (on_char is_whitespace) l) as [run rest] eqn:Es. rewrite flat_map_app, hd_app, IH. cbn [last_newline]. destruct (last_newline run) as [t|] eqn:El; [done|].
    cbn [fmap option_fmap option_map flat_map matches]. rewrite app_nil_r. destruct (is_newline (fst x)); [|done]. destruct (star_head is_newline l) as [more ->]. cbn. f_equal.
    pose proof (span_split (on_char is_whitespace) l) as Hl. rewrite Es in Hl. subst l. destruct run as [|y run].
    + destruct rest as [|y rest]; [done|]. cbn. destruct (on_char is_newline y) eqn:Ey; [|done]. cbn [span_while app] in Es. assert (Hws : on_char is_whitespace y = true) by (apply newline_space; exact Ey).
      rewrite Hws in Es. destruct (span_while (on_char is_whitespace) rest). discriminate Es.
    + cbn in El |- *. unfold on_char at 1. destruct (last_newline run); [done|]. by destruct (is_newline (fst y)).
  - cbn. destruct (is_newline (fst x)) eqn:En; [|done]. by rewrite (newline_space _ En) in Ew.
Qed.

Lemma last_drop {A} (x : A) l : l <> [] -> drop (length (x :: l) - 1) (x :: l) = drop (length l - 1) l.
Proof. intros Hl. destruct l as [|y l]; [done|]. cbn [length]. rewrite !Nat.sub_succ, !Nat.sub_0_r. done. Qed.

(** [\s+(?!\S)] leaves one space in front of a word. *)
Lemma trailing_matches l : let '(run, rest) := span_while (on_char is_whitespace) l in
  hd_error (flat_map (matches (RNotFollowedBy (fun c => negb (is_whitespace c)))) (star_matches is_whitespace l)) =
    match rest with [] => Some [] | _ => match run with [] => None | _ => Some (drop (length run - 1) run ++ rest) end end.
Proof.
  induction l as [|x l IH]; [done|]. cbn [span_while star_matches]. unfold on_char at 1. destruct (is_whitespace (fst x)) eqn:Ew.
  - destruct (span_while (on_char is_whitespace) l) as [run rest] eqn:Es. rewrite flat_map_app, hd_app, IH. destruct rest as [|y rest]; [done|]. destruct run as [|z run].
    + cbn [flat_map matches]. rewrite Ew. cbn. pose proof (span_split (on_char is_whitespace) l) as Hl. rewrite Es in Hl. by subst l.
    + by rewrite (last_drop x (z :: run)).
  - cbn. by rewrite Ew.
Qed.

Lemma find_first {A} (f : A -> bool) x l : List.find f (x :: l) = if f x then Some x else List.find f l.
Proof. done. Qed.

Lemma ci_chars_nil l : ci_chars l [] = true.
Proof. by destruct l. Qed.

(** A word of one or two letters. *)
Lemma ci_word_matches w l : (1 <= length w <= 2)%nat -> matches (ci_word w) l = if ci_chars l w then [drop (length w) l] else [].
Proof.
  intros Hw. destruct w as [|a [|b [|c w]]]; cbn in Hw; try lia; cbn [ci_word matches ci].
  - destruct l as [|x l]; [done|]. cbn. rewrite ci_chars_nil, andb_true_r. destruct (_ =? _); [|done]. by rewrite drop_0.
  - destruct l as [|x l]; [done|]. cbn. destruct (tolower (fst x) =? tolower a); [|done]. cbn. rewrite app_nil_r. destruct l as [|y l]; [done|]. cbn. rewrite ci_chars_nil, andb_true_r.
    destruct (_ =? _); [|done]. by rewrite drop_0.
Qed.

Lemma contraction_matches x tl : hd_error (matches contraction (x :: tl)) =
  if fst x =? 39 then (fun s => drop (length s) tl) <$> List.find (ci_chars tl) suffixes else None.
Proof.
  unfold contraction. cbn [matches]. rewrite (Z.eqb_sym 39). destruct (fst x =? 39); [|done]. cbn [flat_map]. rewrite app_nil_r. cbn [matches].
  rewrite !ci_word_matches by (cbn; lia). unfold suffixes. rewrite !find_first. cbn [List.find].
  repeat (match goal with |- context [ci_chars tl ?w] => destruct (ci_chars tl w) end; [done|]). done.
Qed.

(** A run of letters, with one character in front of it. *)
Lemma letters_matches x tl : let cp := fst x in
  hd_error (flat_map (matches (RPlus letter)) ((if is_non_newline_non_letter_non_number cp then [tl] else []) ++ [x :: tl])) =
    if letter cp || (is_non_newline_non_letter_non_number cp && next_is letter tl) then Some (snd (span_while (on_char letter) (if letter cp then x :: tl else tl))) else None.
Proof.
  intros cp.
  rewrite flat_map_app, hd_app. cbn [flat_map matches]. rewrite !app_nil_r. fold cp.
  assert (Hplus : forall l, hd_error (matches (RPlus letter) l) = if next_is letter l then Some (snd (span_while (on_char letter) l)) else None).
  { intros [|y l]; [done|]. cbn. unfold on_char at 1. destruct (letter (fst y)); [|done]. destruct (star_head letter l) as [more ->]. by destruct (span_while (on_char letter) l). }
  assert (Hfirst : hd_error (if letter cp then star_matches letter tl else []) = if letter cp then Some (snd (span_while (on_char letter) (x :: tl))) else None).
  { destruct (letter cp) eqn:El; [|done]. destruct (star_head letter tl) as [more ->]. cbn. unfold on_char at 2. fold cp. rewrite El. by destruct (span_while (on_char letter) tl). }
  rewrite Hfirst. destruct (is_non_newline_non_letter_non_number cp); cbn [flat_map]; [|cbn; rewrite orb_false_r; by destruct (letter cp)]. specialize (Hplus tl). cbn [matches] in Hplus.
  rewrite app_nil_r, Hplus. cbn [andb].
  destruct (next_is letter tl) eqn:En; [|rewrite orb_false_r; by destruct (letter cp)]. rewrite orb_true_r. destruct (letter cp) eqn:El; [|done].
  cbn. unfold on_char at 2. fold cp. rewrite El. by destruct (span_while (on_char letter) tl).
Qed.

(** A run of other characters, with a space in front of it and newlines behind. *)
Lemma other_matches x tl : let cp := fst x in
  hd_error (flat_map (matches (RSeq (RPlus other) (RStar is_newline))) ((if 32 =? cp then [tl] else []) ++ [x :: tl])) =
    if ((cp =? 32) && next_is other tl) || other cp then Some (snd (span_while (on_char is_newline) (snd (span_while (on_char other) (if cp =? 32 then tl else x :: tl))))) else None.
Proof.
  intros cp.
  rewrite flat_map_app, hd_app. cbn [flat_map]. rewrite app_nil_r.
  assert (Hplus : forall l, hd_error (matches (RSeq (RPlus other) (RStar is_newline)) l) =
    if next_is other l then Some (snd (span_while (on_char is_newline) (snd (span_while (on_char other) l)))) else None).
  { intros [|y l]; [done|]. cbn [matches next_is]. destruct (other (fst y)) eqn:Eo; [|done]. destruct (star_head other l) as [more ->]. cbn [flat_map]. rewrite hd_app.
    cbn [span_while]. unfold on_char at 3. rewrite Eo. destruct (span_while (on_char other) l) as [p s]. cbn [snd matches]. destruct (star_head is_newline s) as [more' ->]. done. }
  rewrite Z.eqb_sym. destruct (Z.eqb_spec cp 32) as [E32|E32]; cbn [flat_map andb].
  - rewrite app_nil_r, !Hplus. cbn [next_is]. fold cp. assert (Ho : other cp = false) by (rewrite E32; reflexivity). rewrite Ho, orb_false_r. by destruct (next_is other tl).
  - rewrite Hplus. cbn [hd_error orb next_is]. by fold cp.
Qed.

(** The first match of the pattern leaves what the code leaves. *)
Lemma pattern_matches x tl : hd_error (matches pattern (x :: tl)) = Some (word_rest (x :: tl)).
Proof.
  unfold pattern. cbn [matches]. rewrite !hd_app. rewrite contraction_matches. unfold word_rest.
  destruct (if fst x =? 39 then List.find (ci_chars tl) suffixes else None) as [suffix|] eqn:Ec.
  { destruct (fst x =? 39); [|done]. by rewrite Ec. }
  replace (if fst x =? 39 then _ <$> List.find (ci_chars tl) suffixes else None) with (@None (list char)) by (destruct (fst x =? 39); [by rewrite Ec|done]). clear Ec.
  set (cp := fst x). cbv zeta.
  pose proof (letters_matches x tl) as Hletters. fold cp in Hletters.
  cbn [matches] in Hletters. rewrite Hletters. clear Hletters.
  destruct (letter cp || _) eqn:El; [done|].
  destruct (is_number cp) eqn:En; [done|]. cbn [hd_error].
  pose proof (other_matches x tl) as Hother. fold cp in Hother.
  cbn [matches] in Hother. rewrite Hother. clear Hother.
  destruct (((cp =? 32) && _) || other cp) eqn:Eo; [done|].
  (* spaces *)
  pose proof (newline_matches (x :: tl)) as Hnl. cbn [matches] in Hnl. pose proof (trailing_matches tl) as Htr. cbn [matches] in Htr.
  destruct (is_whitespace cp) eqn:Ew.
  - cbn [span_while] in *. unfold on_char at 1 in Hnl. unfold on_char at 1. fold cp in Hnl |- *. rewrite Ew in *. destruct (span_while (on_char is_whitespace) tl) as [run rest] eqn:Es. rewrite Hnl.
    destruct (last_newline (x :: run)) as [t|]; [done|]. cbn [fmap option_fmap option_map]. rewrite Htr. destruct rest as [|y rest]; [done|]. destruct run as [|z run].
    + cbn. destruct (star_head is_whitespace tl) as [more ->]. rewrite Es. done.
    + by rewrite (last_drop x (z :: run)).
  - exfalso. apply orb_false_iff in Eo as [_ Eo]. apply orb_false_iff in El as [El _]. unfold other, is_non_space_non_letter_mark_number in Eo.
    unfold letter, is_letter_or_mark in El. rewrite Ew, En in Eo. destruct (is_letter cp), marks, (is_mark cp); discriminate.
Qed.

(** ** The code *)

(** [tail_at full rs]: the text ends with these code points; a position is written from the end. *)
Definition tail_at (full : list Z) (rs : list char) : Prop := exists pre text, full = pre ++ text /\ reads text rs.
Definition pos_of (full : list Z) (rs : list char) : Z := vsize full - bsize rs.

Lemma bsize_cons x l : bsize (x :: l) = vsize (snd x) + bsize l.
Proof. unfold bsize, bytes. cbn. by rewrite vsize_app. Qed.
Lemma bsize_app l1 l2 : bsize (l1 ++ l2) = bsize l1 + bsize l2.
Proof. unfold bsize, bytes. by rewrite map_app, concat_app, vsize_app. Qed.
Lemma bsize_nonneg l : 0 <= bsize l.
Proof. unfold bsize, vsize. lia. Qed.

Lemma reads_split text p s : reads text (p ++ s) -> exists t, text = bytes p ++ t /\ reads t s.
Proof.
  revert text. induction p as [|[cp b] p IH]; intros text Hr; [by exists text|]. inversion Hr as [|? ? text' ? Hn Hi Hr']; subst.
  destruct (IH _ Hr') as (t & -> & Ht). exists t. unfold bytes. cbn. by rewrite <- app_assoc.
Qed.

Lemma tail_app full p s : tail_at full (p ++ s) -> tail_at full s.
Proof. intros (pre & text & -> & Hr). destruct (reads_split _ _ _ Hr) as (t & -> & Ht). exists (pre ++ bytes p), t. by rewrite app_assoc. Qed.

Lemma tail_span full f rs : tail_at full rs -> tail_at full (snd (span_while f rs)).
Proof. intros Ht. pose proof (span_split f rs) as E. destruct (span_while f rs) as [p s]. subst rs. by apply tail_app in Ht. Qed.

Lemma tail_bounds full rs : tail_at full rs -> bsize rs <= vsize full /\ (length rs <= length full)%nat.
Proof.
  intros (pre & text & -> & Hr). rewrite vsize_app, length_app. unfold bsize, bytes. rewrite <- (reads_concat _ _ Hr). split; [unfold vsize; lia|].
  assert (length rs <= length text)%nat; [|lia]. induction Hr as [|cp b text rs Hn Hi Hr IH]; [done|]. rewrite length_app. unfold vsize in Hn. cbn. lia.
Qed.

Lemma tail_codepoint full x rs : tail_at full (x :: rs) ->
  utf8_codepoint_at full (pos_of full (x :: rs)) = Ok (mkSpan (fst x) (pos_of full (x :: rs)) (vsize (snd x))) /\ 0 < vsize (snd x).
Proof.
  intros (pre & text & -> & Hr). destruct x as [cp b]. inversion Hr as [|? ? text' ? Hn Hi Hr']; subst. split; [|done].
  replace (pos_of (pre ++ b ++ text') ((cp, b) :: rs)) with (vsize pre); [by apply codepoint_at|].
  unfold pos_of. rewrite bsize_cons. unfold bsize, bytes. rewrite <- (reads_concat _ _ Hr'), !vsize_app. cbn. lia.
Qed.

Lemma pos_next full x rs : pos_of full (x :: rs) + vsize (snd x) = pos_of full rs.
Proof. unfold pos_of. rewrite bsize_cons. lia. Qed.
Lemma pos_end full : pos_of full [] = vsize full.
Proof. unfold pos_of, bsize, vsize. cbn. lia. Qed.
Lemma pos_before full x rs : 0 < vsize (snd x) -> (pos_of full (x :: rs) <? vsize full) = true.
Proof. intros Hx. unfold pos_of. rewrite bsize_cons. pose proof (bsize_nonneg rs). apply Z.ltb_lt. lia. Qed.

(** Runs *)
Lemma skip_while_ok fuel full test rs : tail_at full rs -> (length rs <= fuel)%nat ->
  skip_while fuel full test (pos_of full rs) = Ok (pos_of full (snd (span_while (on_char test) rs))).
Proof.
  revert fuel. induction rs as [|x rs IH]; intros fuel Ht Hf.
  { rewrite pos_end. destruct fuel; cbn; by rewrite Z.ltb_irrefl, pos_end. }
  destruct fuel as [|fuel]; [cbn in Hf; lia|]. destruct (tail_codepoint full x rs Ht) as [E Hx]. cbn [skip_while]. rewrite (pos_before full x rs Hx), E. cbn [mbind result_bind cs_value cs_length].
  cbn [span_while]. unfold on_char at 1. destruct (test (fst x)); [|done]. rewrite pos_next. rewrite (IH fuel) by (try (by apply (tail_app full [x])); cbn in Hf; lia).
  by destruct (span_while (on_char test) rs).
Qed.

Lemma skip_spaces_ok fuel full rs s : tail_at full rs -> (length rs <= fuel)%nat -> sp_end s = pos_of full rs ->
  let '(run, rest) := span_while (on_char is_whitespace) rs in
  skip_spaces fuel full s = Ok (mkSpaces (pos_of full rest) (match run with [] => sp_last_begin s | _ => pos_of full (drop (length run - 1) run ++ rest) end)
    (match last_newline run with Some t => Some (pos_of full (t ++ rest)) | None => sp_last_newline_end s end) (sp_count s + vsize run)).
Proof.
  revert fuel s. induction rs as [|x rs IH]; intros fuel [e lb ln c] Ht Hf Hs; cbn [sp_end sp_last_begin sp_last_newline_end sp_count] in *; subst e.
  { cbn [span_while last_newline]. rewrite pos_end, Z.add_0_r. destruct fuel; cbn; by rewrite Z.ltb_irrefl. }
  destruct fuel as [|fuel]; [cbn in Hf; lia|]. destruct (tail_codepoint full x rs Ht) as [E Hx]. cbn [skip_spaces span_while sp_end]. rewrite (pos_before full x rs Hx), E.
  cbn [mbind result_bind cs_value cs_length]. unfold on_char at 1. destruct (is_whitespace (fst x)) eqn:Ew; [|cbn [last_newline]; by rewrite Z.add_0_r].
  rewrite pos_next. cbn [sp_last_newline_end sp_count].
  specialize (IH fuel (mkSpaces (pos_of full rs) (pos_of full (x :: rs)) (if is_newline (fst x) then Some (pos_of full rs) else ln) (c + 1))
    (tail_app full [x] rs Ht) ltac:(cbn in Hf; lia) eq_refl).
  pose proof (span_split (on_char is_whitespace) rs) as Hrs. destruct (span_while (on_char is_whitespace) rs) as [run rest]. rewrite IH. subst rs. f_equal. cbn [sp_last_begin sp_last_newline_end sp_count last_newline].
  rewrite vsize_cons. f_equal; [|destruct (last_newline run); [done|by destruct (is_newline (fst x))]|lia]. destruct run as [|y run]; [done|]. by rewrite (last_drop x (y :: run)).
Qed.

(** Endings of contractions, compared as bytes *)
Definition is_byte (b : Z) : Prop := 0 <= b < 256.
Definition is_ascii (b : Z) : Prop := 0 <= b < 128.

Lemma tolower_high a b : 128 <= a -> is_ascii b -> (tolower a =? tolower b) = false.
Proof. intros Ha [? ?]. unfold tolower. apply Z.eqb_neq. destruct (Z.leb_spec 65 a), (Z.leb_spec a 90), (Z.leb_spec 65 b), (Z.leb_spec b 90); cbn; lia. Qed.

Lemma reads_first b text x rs : is_byte b -> reads (b :: text) (x :: rs) -> (is_ascii b /\ x = (b, [b]) /\ reads text rs) \/ (128 <= b /\ 128 <= fst x).
Proof.
  intros Hb Hr. inversion Hr as [|cp c t ? Hn Hi Hr' Et]; subst. destruct c as [|b' c]; [done|]. injection Et as -> <-. cbn [app] in *.
  destruct (Z.lt_ge_cases b 128) as [Hlow|Hhigh].
  - left. split; [unfold is_ascii, is_byte in *; lia|]. rewrite law_ascii in Hi by (unfold is_byte in Hb; lia). injection Hi as Hsz <-.
    destruct c as [|b' c]; [by cbn in *|]. exfalso. clear -Hsz. unfold vsize in Hsz. cbn [length] in Hsz. lia.
  - right. split; [done|]. by eapply law_high.
Qed.

Lemma ci_equal_chars text rs suffix : reads text rs -> Forall is_byte text -> Forall is_ascii suffix -> ci_equal text suffix = ci_chars rs suffix.
Proof.
  revert text rs. induction suffix as [|s suffix IH]; intros text rs Hr Hb Hs; [by destruct text, rs|]. destruct text as [|b text].
  { apply reads_empty in Hr as ->. done. }
  destruct rs as [|x rs]; [by inversion Hr|]. apply Forall_cons in Hb as [Hb0 Hb], Hs as [Hs0 Hs]. cbn [ci_equal ci_chars].
  destruct (reads_first b text x rs Hb0 Hr) as [(? & -> & Hr')|[H1 H2]]; [by rewrite (IH text rs)|]. by rewrite !tolower_high.
Qed.

Lemma ci_chars_size text rs suffix : reads text rs -> Forall is_byte text -> Forall is_ascii suffix -> ci_chars rs suffix = true ->
  bsize rs = vsize suffix + bsize (drop (length suffix) rs) /\ (length suffix <= length rs)%nat.
Proof.
  revert text rs. induction suffix as [|s suffix IH]; intros text rs Hr Hb Hs E; [cbn [length]; rewrite drop_0; change (vsize []) with 0; lia|]. destruct rs as [|x rs]; [done|]. destruct text as [|b text].
  { by apply reads_empty in Hr. }
  apply Forall_cons in Hb as [Hb0 Hb], Hs as [Hs0 Hs]. cbn [ci_chars] in E. apply andb_true_iff in E as [E1 E2].
  destruct (reads_first b text x rs Hb0 Hr) as [(? & -> & Hr')|[H1 H2]]; [|by rewrite tolower_high in E1].
  destruct (IH text rs Hr' Hb Hs E2) as [IH1 IH2]. rewrite bsize_cons, IH1, vsize_cons. cbn [snd length drop]. change (vsize [b]) with 1. split; lia.
Qed.

Lemma ci_equal_short text suffix : vsize text < vsize suffix -> ci_equal text suffix = false.
Proof.
  revert text. induction suffix as [|s suffix IH]; intros text Hlt; [unfold vsize in Hlt; cbn in Hlt; lia|]. destruct text as [|b text]; [done|]. rewrite !vsize_cons in Hlt. cbn.
  rewrite (IH text) by lia. apply andb_false_r.
Qed.

Lemma ascii_ci_matches_ok full rs suffix : tail_at full rs -> Forall is_byte full -> Forall is_ascii suffix ->
  ascii_ci_matches full (pos_of full rs) suffix = ci_chars rs suffix.
Proof.
  intros (pre & text & -> & Hr) Hb Hs. apply Forall_app in Hb as [_ Hb]. unfold ascii_ci_matches.
  assert (Hpos : pos_of (pre ++ text) rs = vsize pre). { unfold pos_of, bsize, bytes. rewrite <- (reads_concat _ _ Hr), vsize_app. lia. }
  rewrite Hpos. replace (Z.to_nat (vsize pre)) with (length pre) by (unfold vsize; lia). rewrite drop_app_length, <- (ci_equal_chars text rs) by done.
  rewrite vsize_app. destruct (Z.ltb_spec (vsize pre + vsize text) (vsize pre + vsize suffix)) as [Hlt|]; [|done]. rewrite ci_equal_short by lia. done.
Qed.

Lemma suffixes_ascii : Forall (Forall is_ascii) suffixes.
Proof. unfold suffixes, is_ascii. repeat constructor; lia. Qed.

Lemma find_ext {A} (f g : A -> bool) l : Forall (fun x => f x = g x) l -> List.find f l = List.find g l.
Proof. induction 1 as [|x l E _ IH]; [done|]. cbn. by rewrite E, IH. Qed.

(** The word of the code ends where the match of the pattern ends. *)
Lemma qwen_word_end_ok full x tl : tail_at full (x :: tl) -> Forall is_byte full ->
  qwen_word_end full (pos_of full (x :: tl)) marks = Ok (pos_of full (word_rest (x :: tl))).
Proof.
  intros Ht Hb. destruct (tail_codepoint full x tl Ht) as [E Hx]. pose proof (tail_app full [x] tl Ht) as Htl. destruct (tail_bounds _ _ Ht) as [_ Hlen].
  unfold qwen_word_end, word_rest. rewrite E. cbn [mbind result_bind cs_value cs_length]. rewrite pos_next. set (cp := fst x).
  rewrite (find_ext (ascii_ci_matches full (pos_of full tl)) (ci_chars tl)) by (eapply Forall_impl; [exact suffixes_ascii|intros; by apply ascii_ci_matches_ok]).
  destruct (if cp =? 39 then List.find (ci_chars tl) suffixes else None) as [suffix|] eqn:Ef.
  { destruct (cp =? 39); [|done]. apply List.find_some in Ef as [Hin Hci]. destruct Htl as (pre & text & -> & Hr). apply Forall_app in Hb as [_ Hb].
    pose proof suffixes_ascii as Ha. rewrite Forall_forall in Ha. destruct (ci_chars_size text tl suffix Hr Hb (Ha _ (proj2 (list_elem_of_In _ _) Hin)) Hci) as [Hsz _]. unfold pos_of. rewrite Hsz. f_equal. lia. }
  clear Ef. assert (Hnext : forall test, (if pos_of full tl <? vsize full then value ← utf8_codepoint_at full (pos_of full tl); Ok (cs_value value) else Ok 0) =
    Ok (match tl with y :: _ => fst y | [] => 0 end) /\ (pos_of full tl <? vsize full) && test (match tl with y :: _ => fst y | [] => 0 end) = next_is test tl).
  { intros test. destruct tl as [|y tl']; [rewrite pos_end, Z.ltb_irrefl; done|]. destruct (tail_codepoint full y tl' Htl) as [Ey Hy]. rewrite (pos_before full y tl' Hy), Ey. done. }
  rewrite (proj1 (Hnext letter)). cbn [mbind result_bind]. rewrite <- !andb_assoc.
  pose proof (proj2 (Hnext letter)) as Hl. pose proof (proj2 (Hnext other)) as Ho. unfold letter in Hl at 1. unfold other in Ho at 1. rewrite Hl, Ho. fold (letter cp) (other cp).
  assert (Hskip : forall test (b : bool), skip_while (length full) full test (if b then pos_of full (x :: tl) else pos_of full tl) =
    Ok (pos_of full (snd (span_while (on_char test) (if b then x :: tl else tl))))).
  { intros test b. destruct b; apply skip_while_ok; try done; cbn in Hlen; lia. }
  destruct (letter cp || _); [apply (Hskip letter)|]. destruct (is_number cp); [done|]. destruct (((cp =? 32) && _) || other cp).
  { replace (if cp =? 32 then pos_of full tl else pos_of full (x :: tl)) with (if negb (cp =? 32) then pos_of full (x :: tl) else pos_of full tl) by (by destruct (cp =? 32)).
    replace (if cp =? 32 then tl else x :: tl) with (if negb (cp =? 32) then x :: tl else tl) by (by destruct (cp =? 32)).
    unfold other in Hskip |- *. rewrite (Hskip other). cbn [mbind result_bind]. assert (Ht' : tail_at full (if negb (cp =? 32) then x :: tl else tl)) by (by destruct (negb (cp =? 32))).
    apply (tail_span full (on_char other)) in Ht'. apply skip_while_ok; [exact Ht'|]. by destruct (tail_bounds _ _ Ht'). }
  destruct (is_whitespace cp) eqn:Ew; [|done].
  pose proof (skip_spaces_ok (length full) full (x :: tl) (mkSpaces (pos_of full (x :: tl)) (pos_of full (x :: tl)) None 0) Ht Hlen eq_refl) as Hsp.
  pose proof (span_split (on_char is_whitespace) (x :: tl)) as Hsplit. destruct (span_while (on_char is_whitespace) (x :: tl)) as [run rest] eqn:Es.
  rewrite Hsp. cbn [mbind result_bind sp_last_newline_end sp_end sp_count sp_last_begin]. destruct (last_newline run) as [t|]; [done|].
  assert (Hrun : run <> []). { cbn in Es. unfold on_char at 1 in Es. fold cp in Es. rewrite Ew in Es. destruct (span_while _ tl). by injection Es as <- _. }
  destruct rest as [|y rest]; [by rewrite pos_end, Z.eqb_refl|]. assert (Hrest : tail_at full (y :: rest)) by (rewrite Hsplit in Ht; by apply tail_app in Ht).
  destruct (tail_codepoint full y rest Hrest) as [_ Hy]. pose proof (pos_before full y rest Hy) as Hlt. apply Z.ltb_lt in Hlt. rewrite (proj2 (Z.eqb_neq _ _)) by lia.
  destruct run as [|z run]; [done|]. unfold vsize. rewrite Z.add_0_l. destruct (Z.leb_spec 2 (Z.of_nat (length (z :: run)))), (Nat.leb_spec 2 (length (z :: run))); try lia; done.
Qed.

(** * The words of a text *)

(** The pattern is matched again and again, each time behind the last match. *)
Fixpoint pattern_words_from (fuel : nat) (l : list char) : list (list char) :=
  match fuel, l with
  | S fuel', _ :: _ =>
      match hd_error (matches pattern l) with
      | Some rest => take (length l - length rest) l :: pattern_words_from fuel' rest
      | None => []
      end
  | _, _ => []
  end.
Definition pattern_words (l : list char) : list (list char) := pattern_words_from (length l) l.

Lemma last_newline_split run t : last_newline run = Some t -> exists p, p <> [] /\ run = p ++ t.
Proof.
  revert t. induction run as [|x run IH]; intros t E; [done|]. cbn in E. destruct (last_newline run) as [t'|].
  - injection E as <-. destruct (IH t' eq_refl) as (p & _ & ->). by exists (x :: p).
  - destruct (is_newline (fst x)); [|done]. injection E as <-. by exists [x].
Qed.

(** A match is not empty. *)
Lemma word_rest_split x tl : exists w, w <> [] /\ x :: tl = w ++ word_rest (x :: tl).
Proof.
  unfold word_rest. set (cp := fst x). destruct (if cp =? 39 then _ else None) as [suffix|]; [exists (x :: take (length suffix) tl); cbn; by rewrite take_drop|].
  assert (Hrun : forall test, test cp = true -> exists w, w <> [] /\ x :: tl = w ++ snd (span_while (on_char test) (x :: tl))).
  { intros test E. pose proof (span_split (on_char test) tl) as Hs. cbn. unfold on_char at 1. fold cp. rewrite E. destruct (span_while (on_char test) tl) as [p s]. exists (x :: p). cbn. by rewrite Hs. }
  assert (Htl : forall test, exists w, w <> [] /\ x :: tl = w ++ snd (span_while (on_char test) tl)).
  { intros test. pose proof (span_split (on_char test) tl) as Hs. destruct (span_while (on_char test) tl) as [p s]. exists (x :: p). cbn. by rewrite Hs. }
  destruct (letter cp || _) eqn:El; [destruct (letter cp) eqn:El'; [by apply Hrun|apply Htl]|]. destruct (is_number cp); [by exists [x]|].
  destruct (((cp =? 32) && _) || other cp) eqn:Eo.
  { assert (Hw : exists w, w <> [] /\ x :: tl = w ++ snd (span_while (on_char other) (if cp =? 32 then tl else x :: tl))) by (destruct (cp =? 32); [apply Htl|by apply Hrun]).
    destruct Hw as (w & Hw & E). pose proof (span_split (on_char is_newline) (snd (span_while (on_char other) (if cp =? 32 then tl else x :: tl)))) as Hs.
    destruct (span_while (on_char is_newline) _) as [p s]. exists (w ++ p). split; [by destruct w|]. cbn [snd]. by rewrite <- app_assoc, <- Hs. }
  destruct (is_whitespace cp) eqn:Ew; [|by exists [x]]. pose proof (span_split (on_char is_whitespace) (x :: tl)) as Hs.
  destruct (span_while (on_char is_whitespace) (x :: tl)) as [run rest] eqn:Es.
  assert (Hne : run <> []). { cbn in Es. unfold on_char at 1 in Es. fold cp in Es. rewrite Ew in Es. destruct (span_while _ tl). by injection Es as <- _. }
  rewrite Hs. destruct (last_newline run) as [t|] eqn:El'.
  { destruct (last_newline_split run t El') as (p & Hp & ->). exists p. by rewrite <- app_assoc. }
  destruct rest as [|y rest]; [by exists run; rewrite !app_nil_r|]. destruct (Nat.leb_spec 2 (length run)); [|by exists run].
  exists (take (length run - 1) run). rewrite app_assoc, take_drop. split; [|done]. intros E. apply (f_equal length) in E. rewrite length_take in E. cbn in E. lia.
Qed.

(** The words of a text, one after the other, are the text. *)
Lemma pattern_words_step fuel x tl : exists w, w <> [] /\ x :: tl = w ++ word_rest (x :: tl) /\
  pattern_words_from (S fuel) (x :: tl) = w :: pattern_words_from fuel (word_rest (x :: tl)).
Proof.
  destruct (word_rest_split x tl) as (w & Hw & E). exists w. split; [done|]. split; [done|]. cbn [pattern_words_from]. rewrite pattern_matches. f_equal.
  generalize (word_rest (x :: tl)) E. intros rest ->. rewrite length_app. replace (length w + length rest - length rest)%nat with (length w) by lia. by rewrite take_app_length.
Qed.

Lemma pattern_words_concat fuel l : (length l <= fuel)%nat -> concat (pattern_words_from fuel l) = l.
Proof.
  revert l. induction fuel as [|fuel IH]; intros [|x tl] Hf; try done; [cbn in Hf; lia|]. destruct (pattern_words_step fuel x tl) as (w & Hw & E & ->). cbn [concat].
  rewrite IH; [done|]. apply (f_equal length) in E. rewrite length_app in E. destruct w as [|y w]; [done|]. cbn [length] in E, Hf. lia.
Qed.
End Words.
