(* ===== verification/TokenEncode.v ===== *)
(** Ordinary text: the ids of a normalized text are those of the definition, byte-pair merges in every word of the pattern, cut off at the limit;
    and they stand for the bytes of the text. *)
From stdpp Require Import strings gmap.
From S2P Require Import Prelude StorageLayouts ArtifactReader Unicode Tokenizer TokenTable TokenMerges TokenWords.

Section Fuel.
Context `{Utf8Laws} (marks : bool).

Lemma pattern_words_fuel fuel l : (length l <= fuel)%nat -> pattern_words_from marks fuel l = pattern_words marks l.
Proof.
  unfold pattern_words. assert (Hle : (length l <= length l)%nat) by done. revert Hle. generalize (length l) at 2 4. intros n Hn Hf. revert n l Hn Hf.
  induction fuel as [|fuel IH]; intros [|n] [|x tl] Hn Hf; try done; try (cbn in Hn, Hf; lia).
  destruct (pattern_words_step marks fuel x tl) as (w & Hw & E & ->), (pattern_words_step marks n x tl) as (w' & Hw' & E' & ->).
  assert (w = w') as -> by (rewrite E in E' at 1; by apply app_inv_tail in E'). f_equal. apply IH; apply (f_equal length) in E; rewrite length_app in E; destruct w'; try done; cbn [length] in *; lia.
Qed.

Lemma pattern_words_cons x tl : exists w, w <> [] /\ x :: tl = w ++ word_rest marks (x :: tl) /\ pattern_words marks (x :: tl) = w :: pattern_words marks (word_rest marks (x :: tl)).
Proof.
  destruct (pattern_words_step marks (length tl) x tl) as (w & Hw & E & Es). exists w. split; [done|]. split; [done|]. unfold pattern_words at 1. cbn [length]. rewrite Es. f_equal.
  apply pattern_words_fuel. apply (f_equal length) in E. rewrite length_app in E. destruct w; [done|]. cbn [length] in E. lia.
Qed.
End Fuel.

Section Text.
Context `{Utf8Laws} (marks : bool) (rules : BpeMergeTable) (look : Z -> Z -> option BpeMergeRule) (byte_token_ids : list Z).
Context (Hfind : forall a b, is_symbol a -> is_symbol b -> exists r, find rules (merge_pair_key a b) = Ok r /\ rule_of <$> r = look a b).
Context (Hlook : forall a b r, look a b = Some r -> is_symbol (br_result r)).
Context (Hbytes : forall b, is_byte b -> exists s, byte_token_ids.[b] = Some s /\ is_symbol s).

Definition byte_symbol (b : Z) : Z := default (-1) (byte_token_ids.[b]).
Definition word_tokens (w : list (Z * list Z)) : list Z := bpe look (map byte_symbol (bytes w)).
Definition text_tokens (rs : list (Z * list Z)) : list Z := concat (map word_tokens (pattern_words marks rs)).

Lemma word_symbols word : Forall is_byte word -> Forall2 (fun b s => byte_token_ids.[b] = Some s /\ is_symbol s) word (map byte_symbol word).
Proof. induction 1 as [|b word Hb _ IH]; [constructor|]. cbn. constructor; [|done]. destruct (Hbytes b Hb) as (s & E & Hs). unfold byte_symbol. by rewrite E. Qed.

Lemma mem_slice_mid pre b (t : list Z) n : n = vsize b -> mem_slice (pre ++ b ++ t) (vsize pre) n = b.
Proof. intros ->. unfold mem_slice. replace (Z.to_nat (vsize pre)) with (length pre) by (unfold vsize; lia). rewrite drop_app_length. unfold vsize. by rewrite Nat2Z.id, take_app_length. Qed.

(** The word of the code is the word of the pattern. *)
Lemma tail_word full w rest : tail_at full (w ++ rest) -> mem_slice full (pos_of full (w ++ rest)) (pos_of full rest - pos_of full (w ++ rest)) = bytes w.
Proof.
  intros (pre & text & -> & Hr). destruct (reads_split _ _ _ Hr) as (t & -> & Ht).
  assert (Hpos : pos_of (pre ++ bytes w ++ t) rest = vsize pre + vsize (bytes w)). { unfold pos_of, bsize, bytes at 2. rewrite <- (reads_concat _ _ Ht), !vsize_app. lia. }
  assert (Hpos' : pos_of (pre ++ bytes w ++ t) (w ++ rest) = vsize pre). { unfold pos_of in *. rewrite bsize_app. unfold bsize at 1. lia. }
  rewrite Hpos, Hpos'. apply mem_slice_mid. lia.
Qed.

Lemma append_words_end fuel o full max : vsize (bo_ids o) < max ->
  exists o', append_words fuel o full rules byte_token_ids max marks (pos_of full []) = Ok (vsize (bo_ids o ++ text_tokens []) <? max, o') /\
    bo_ids o' = take (Z.to_nat max) (bo_ids o ++ text_tokens []).
Proof.
  intros Hm. exists o. unfold text_tokens. cbn [pattern_words pattern_words_from length map concat]. rewrite pos_end, app_nil_r, (proj2 (Z.ltb_lt _ _) Hm).
  split; [destruct fuel; cbn; by rewrite Z.ltb_irrefl|]. rewrite take_ge; [done|]. unfold vsize in Hm. lia.
Qed.

Lemma tail_bytes full w rest : tail_at full (w ++ rest) -> Forall is_byte full -> w <> [] -> Forall is_byte (bytes w) /\ 0 < vsize (bytes w) /\ vsize (bytes w) <= vsize full.
Proof.
  intros Ht Hb Hw. destruct (tail_bounds _ _ Ht) as [Hle _]. destruct w as [|x w]; [done|]. destruct (tail_codepoint full x (w ++ rest) Ht) as [_ Hx].
  destruct Ht as (pre & text & -> & Hr). destruct (reads_split _ _ _ Hr) as (t & -> & _). rewrite !Forall_app in Hb. split; [tauto|].
  rewrite bsize_app in Hle. unfold bsize in Hle at 1. rewrite !vsize_app. change (bytes (x :: w)) with (snd x ++ bytes w) in *. rewrite vsize_app in *. unfold vsize in *. lia.
Qed.

Lemma chain_start n nodes chain : chain_ok n nodes chain -> default (-1) (chain !! 0%nat) = 0.
Proof. intros Hc. by rewrite (cn_head _ _ _ Hc). Qed.

(** There are no more tokens than bytes. *)
Lemma chain_length n nodes chain : chain_ok n nodes chain -> (length chain - 0 <= length nodes)%nat.
Proof.
  intros Hc. pose proof (cn_size _ _ _ Hc) as Hn. assert (Hge : forall p i, chain !! p = Some i -> Z.of_nat p <= i).
  { induction p as [|p IH]; intros i Hi; [rewrite (cn_head _ _ _ Hc) in Hi; by injection Hi as <-|]. destruct (chain !! p) as [j|] eqn:Hj; [|apply lookup_lt_Some in Hi; apply lookup_ge_None in Hj; lia].
    pose proof (cn_order _ _ _ Hc p (S p) j i Hj Hi ltac:(lia)). specialize (IH j eq_refl). lia. }
  destruct (chain !! (length chain - 1)%nat) as [i|] eqn:Hi.
  - pose proof (Hge _ _ Hi). destruct (cn_node _ _ _ Hc _ _ Hi) as (nd & Hnd & _). apply vget_Some_bounds in Hnd. unfold vsize in *. lia.
  - apply lookup_ge_None in Hi. pose proof (lookup_lt_Some _ _ _ (cn_head _ _ _ Hc)). lia.
Qed.

Lemma append_words_ok fuel o full max rs : tail_at full rs -> Forall is_byte full -> vsize full <= I32_MAX -> (length rs <= fuel)%nat -> vsize (bo_ids o) < max ->
  exists o', append_words fuel o full rules byte_token_ids max marks (pos_of full rs) = Ok (vsize (bo_ids o ++ text_tokens rs) <? max, o') /\
    bo_ids o' = take (Z.to_nat max) (bo_ids o ++ text_tokens rs).
Proof.
  revert o rs. induction fuel as [|fuel IH]; intros o [|x tl] Ht Hb Hsz Hf Hm; try (cbn in Hf; lia); try by apply append_words_end.
  destruct (tail_codepoint full x tl Ht) as [_ Hx]. cbn [append_words]. rewrite (pos_before full x tl Hx), (qwen_word_end_ok marks full x tl Ht Hb). cbn [mbind result_bind].
  destruct (pattern_words_cons marks x tl) as (w & Hw & E & Ewords). set (rest := word_rest marks (x :: tl)) in *. rewrite E in Ht, Hf |- *.
  assert (Htext : text_tokens (w ++ rest) = word_tokens w ++ text_tokens rest). { rewrite <- E. unfold text_tokens. by rewrite Ewords. }
  rewrite (tail_word full w rest Ht). destruct (tail_bytes full w rest Ht Hb Hw) as (Hwb & Hwn & Hwl). set (n := vsize (bytes w)) in *.
  assert (Hn : 0 < n <= I32_MAX) by lia.
  destruct (merge_word_ok rules look n Hn Hfind Hlook byte_token_ids (bytes w) _ (word_symbols _ Hwb) eq_refl) as (nodes & chain & Em & Hc & Hs). rewrite Em. cbn [mbind result_bind].
  rewrite (cn_size _ _ _ Hc), (proj2 (Z.eqb_neq n 0)) by lia. rewrite <- (chain_start n nodes chain Hc).
  pose proof (chain_length n nodes chain Hc) as Hcl. destruct (emit_ok n (length nodes) nodes chain (pos_of full (w ++ rest)) max 0 o Hc Hcl ltac:(lia) Hm) as (o' & Ee & Hids & _).
  rewrite Ee. cbn [mbind result_bind]. rewrite Hs in Hids. rewrite Nat.sub_0_r, drop_0 in *. fold (word_tokens w) in Hids.
  assert (Hlen : Z.of_nat (length chain) = vsize (word_tokens w)). { unfold word_tokens. rewrite <- Hs. unfold symbols, vsize. by rewrite length_map. }
  rewrite Hlen. destruct (Z.ltb_spec (vsize (bo_ids o) + vsize (word_tokens w)) max) as [Hlt|Hge]; cbn [negb].
  - rewrite take_ge in Hids by (rewrite length_app; unfold vsize in Hlt; lia). set (o1 := mkOutput _ _ _).
    destruct (IH o1 rest) as (o'' & Ea & Hids''); [by apply tail_app in Ht|done|done|rewrite length_app in Hf; destruct w; [done|cbn [length] in Hf; lia]|subst o1; cbn; rewrite Hids, vsize_app; done|].
    exists o''. rewrite Ea. subst o1. cbn [bo_ids] in *. rewrite Hids, <- app_assoc in *. by rewrite Htext.
  - exists o'. rewrite Htext, !vsize_app. assert (0 <= vsize (text_tokens rest)) by (unfold vsize; lia). rewrite (proj2 (Z.ltb_ge _ max)) by lia. split; [done|].
    rewrite Hids, app_assoc, (take_app_le (bo_ids o ++ word_tokens w)); [done|]. rewrite length_app. unfold vsize in *. lia.
Qed.

(** The ids of a normalized text. *)
Lemma append_normalized_ok ids full max rs : reads full rs -> Forall is_byte full -> vsize full <= I32_MAX -> vsize ids < max ->
  exists o, append_normalized_bpe_ids ids full rules byte_token_ids max marks = Ok (vsize (ids ++ text_tokens rs) <? max, o) /\
    bo_ids o = take (Z.to_nat max) (ids ++ text_tokens rs).
Proof.
  intros Hr Hb Hsz Hm. unfold append_normalized_bpe_ids. destruct (Z.eqb_spec (vsize full) 0) as [E0|_].
  - destruct full; [|unfold vsize in E0; cbn in E0; lia]. apply reads_empty in Hr as ->. unfold text_tokens. cbn [pattern_words pattern_words_from length map concat].
    rewrite app_nil_r, (proj2 (Z.ltb_lt _ _) Hm). eexists. split; [done|]. cbn. rewrite take_ge; [done|]. unfold vsize in Hm. lia.
  - rewrite (proj2 (Z.eqb_neq _ _)) by lia. assert (Ht : tail_at full rs) by (by exists [], full). assert (Hpos : pos_of full rs = 0). { unfold pos_of, bsize, bytes. rewrite <- (reads_concat _ _ Hr). lia. }
    destruct (append_words_ok (length full) (mkOutput ids [] []) full max rs Ht Hb Hsz) as (o & E & Hids); [by destruct (tail_bounds _ _ Ht)|done|].
    rewrite Hpos in E. by exists o.
Qed.

Lemma bpe_steps_all (P : Z -> Prop) fuel l : (forall a b r, look a b = Some r -> P (br_result r)) -> Forall P l -> Forall P (bpe_steps look fuel l).
Proof.
  intros Hr'.
  revert l. induction fuel as [|fuel IH]; intros l Hl; cbn [bpe_steps]; pose proof (best_pair_spec look l) as Hb; destruct (best_pair look l) as [[p r]|]; try done.
  apply IH. destruct Hb as [(a & b & _ & _ & Hr) _]. unfold merge_at. apply Forall_app. split; [by apply Forall_take|]. constructor; [by eapply Hr'|by apply Forall_drop].
Qed.

(** ** What the tokens stand for *)
Context (spell : Z -> list Z).
Context (Hmerge : forall a b r, look a b = Some r -> spell (br_result r) = spell a ++ spell b).
Context (Hspell : forall b, is_byte b -> spell (byte_symbol b) = [b]).
Definition spelled (l : list Z) : list Z := concat (map spell l).

Lemma spelled_app l1 l2 : spelled (l1 ++ l2) = spelled l1 ++ spelled l2.
Proof. unfold spelled. by rewrite map_app, concat_app. Qed.

(** A merge keeps the bytes. *)
Lemma bpe_steps_spelled fuel l : spelled (bpe_steps look fuel l) = spelled l.
Proof.
  revert l. induction fuel as [|fuel IH]; intros l; cbn [bpe_steps]; pose proof (best_pair_spec look l) as Hb; destruct (best_pair look l) as [[p r]|]; try done.
  rewrite IH. destruct Hb as [(a & b & Ha & Hb & Hr) _]. unfold merge_at. rewrite <- (take_drop p l) at 3. rewrite (drop_S _ _ _ Ha), (drop_S _ _ _ Hb), !spelled_app. f_equal.
  change (br_result r :: ?t) with ([br_result r] ++ t). unfold spelled. cbn. rewrite (Hmerge _ _ _ Hr). by rewrite <- app_assoc.
Qed.

Lemma word_tokens_spelled w : Forall is_byte (bytes w) -> spelled (word_tokens w) = bytes w.
Proof.
  intros Hb. unfold word_tokens, bpe. rewrite bpe_steps_spelled. unfold spelled. induction Hb as [|b l Hb _ IH]; [done|]. cbn. by rewrite IH, Hspell.
Qed.

Lemma words_spelled words : Forall is_byte (bytes (concat words)) -> spelled (concat (map word_tokens words)) = bytes (concat words).
Proof.
  induction words as [|w words IH]; intros Hb; [done|]. cbn [concat map] in *. unfold bytes in Hb |- *. rewrite map_app, concat_app in Hb |- *. apply Forall_app in Hb as [Hw Hb].
  by rewrite spelled_app, IH, word_tokens_spelled.
Qed.

(** The tokens of a text stand for the text. *)
Lemma text_tokens_spelled rs : Forall is_byte (bytes rs) -> spelled (text_tokens rs) = bytes rs.
Proof. intros Hb. unfold text_tokens. pose proof (pattern_words_concat marks (length rs) rs (le_n _)) as E. fold (pattern_words marks rs) in E. rewrite words_spelled; by rewrite E. Qed.

(** Every token is the symbol of a byte or the result of a merge. *)
Lemma text_tokens_all (P : Z -> Prop) rs : (forall b, is_byte b -> P (byte_symbol b)) -> (forall a b r, look a b = Some r -> P (br_result r)) ->
  Forall is_byte (bytes rs) -> Forall P (text_tokens rs).
Proof.
  intros Hp1 Hp2 Hb. unfold text_tokens. pose proof (pattern_words_concat marks (length rs) rs (le_n _)) as E. fold (pattern_words marks rs) in E. rewrite <- E in Hb. clear E.
  induction (pattern_words marks rs) as [|w words IH]; [constructor|]. cbn [concat map] in *. unfold bytes in Hb. rewrite map_app, concat_app in Hb. apply Forall_app in Hb as [Hw Hb].
  apply Forall_app. split; [|by apply IH]. unfold word_tokens, bpe. apply bpe_steps_all; [done|]. apply Forall_map. eapply Forall_impl; [exact Hw|]. intros b. apply Hp1.
Qed.
End Text.
