(* ===== verification/TokenText.v ===== *)
(** Whole texts: a text is cut at its added tokens, and its ids are the ids of the pieces up to the limit, with or without byte boundaries. *)
From stdpp Require Import strings gmap.
From S2P Require Import Prelude StorageLayouts ArtifactReader Unicode Tokenizer TokenTable TokenMerges TokenWords TokenEncode.

Inductive piece : Type :=
  | Ordinary (raw : list Z)
  | Added (token : AddedToken).
Definition raw_bytes (p : piece) : list Z := match p with Ordinary raw => raw | Added token => at_content token end.

(** A literal span has a byte in common with the token at [pos]. *)
Definition in_literal (literal : list ByteSpan) (pos : Z) (token : AddedToken) : bool :=
  existsb (fun s => (pos <? bs_end s) && (bs_begin s <? pos + vsize (at_content token))) literal.

(** The added token at [pos]: the first of the table whose text stands there and that no literal span touches. *)
Definition starts_at (text : list Z) (literal : list ByteSpan) (pos : Z) (token : AddedToken) : bool :=
  (0 <? vsize (at_content token)) && bool_decide (mem_slice text pos (vsize (at_content token)) = at_content token) && negb (in_literal literal pos token).
Definition added_at (tz : Tokenizer) (text : list Z) (literal : list ByteSpan) (pos : Z) : option AddedToken :=
  List.find (starts_at text literal pos) (tz_added_tokens tz).

(** The pieces of a text, from [pos] on; [ordinary_begin] is where the current ordinary piece starts. *)
Fixpoint pieces_from (fuel : nat) (tz : Tokenizer) (text : list Z) (literal : list ByteSpan) (ordinary_begin pos : Z) : list piece :=
  if pos <? vsize text then
    match fuel with
    | S fuel' =>
        match added_at tz text literal pos with
        | None => pieces_from fuel' tz text literal ordinary_begin (pos + 1)
        | Some token =>
            let token_end := pos + vsize (at_content token) in
            Ordinary (mem_slice text ordinary_begin (pos - ordinary_begin)) :: Added token :: pieces_from fuel' tz text literal token_end token_end
        end
    | O => []
    end
  else [Ordinary (mem_slice text ordinary_begin (vsize text - ordinary_begin))].

Definition pieces (tz : Tokenizer) (parse_added : bool) (text : list Z) (literal : list ByteSpan) : list piece :=
  if parse_added then pieces_from (length text) tz text literal 0 0 else [Ordinary text].

(** The same with the code's search among the candidates of a byte, which drops the literal spans it has passed. *)
Fixpoint matched_pieces (fuel : nat) (tz : Tokenizer) (text : list Z) (ordinary_begin pos : Z) (literal : list ByteSpan) : list piece :=
  if pos <? vsize text then
    match fuel, text.[pos] with
    | S fuel', Some byte =>
        match match_added (added_token_candidates tz byte) text pos literal with
        | (None, literal) => matched_pieces fuel' tz text ordinary_begin (pos + 1) literal
        | (Some token, literal) =>
            let token_end := pos + vsize (at_content token) in
            Ordinary (mem_slice text ordinary_begin (pos - ordinary_begin)) :: Added token :: matched_pieces fuel' tz text token_end token_end literal
        end
    | _, _ => []
    end
  else [Ordinary (mem_slice text ordinary_begin (vsize text - ordinary_begin))].

Lemma is_prefix_split content text : is_prefix content text = true -> exists rest, text = content ++ rest.
Proof.
  revert text. induction content as [|a content IH]; intros text E; [by exists text|]. destruct text as [|b text]; [done|]. cbn in E. apply andb_true_iff in E as [->%Z.eqb_eq E].
  destruct (IH _ E) as [rest ->]. by exists rest.
Qed.

Lemma match_added_some candidates text pos literal token literal' : match_added candidates text pos literal = (Some token, literal') ->
  token ∈ candidates /\ is_prefix (at_content token) (drop (Z.to_nat pos) text) = true.
Proof.
  revert literal. induction candidates as [|t candidates IH]; intros literal E; [done|]. cbn [match_added] in E. destruct (is_prefix (at_content t) _) eqn:Ep.
  - destruct (snd (span_while _ literal)) as [|s lits]; [injection E as <- <-; split; [set_solver|done]|]. destruct (bs_begin s <? _); [|injection E as <- <-; split; [set_solver|done]].
    destruct (IH _ E) as [? ?]. split; [set_solver|done].
  - destruct (IH _ E) as [? ?]. split; [set_solver|done].
Qed.

Lemma candidate_nonempty tz byte token : token ∈ added_token_candidates tz byte -> token ∈ tz_added_tokens tz /\ 0 < vsize (at_content token).
Proof.
  unfold added_token_candidates. intros Hin%list_elem_of_In. apply List.filter_In in Hin as [Hin Hb]. split; [by apply list_elem_of_In|]. destruct (at_content token); [done|]. unfold vsize. cbn. lia.
Qed.

(** The matched token is in the text. *)
Lemma matched_bounds tz byte text pos literal token literal' : 0 <= pos -> match_added (added_token_candidates tz byte) text pos literal = (Some token, literal') ->
  token ∈ tz_added_tokens tz /\ 0 < vsize (at_content token) /\ pos + vsize (at_content token) <= vsize text /\
  mem_slice text pos (vsize (at_content token)) = at_content token.
Proof.
  intros Hp E. destruct (match_added_some _ _ _ _ _ _ E) as [Hin Hpre]. destruct (candidate_nonempty _ _ _ Hin) as [Ht Hne]. split; [done|]. split; [done|].
  destruct (is_prefix_split _ _ Hpre) as [rest Hrest]. assert (Hsz := f_equal length Hrest). rewrite length_drop, length_app in Hsz. split; [unfold vsize in *; lia|].
  unfold mem_slice. rewrite Hrest. unfold vsize. by rewrite Nat2Z.id, take_app_length.
Qed.

Lemma mem_slice_app (text : list Z) a n rest : 0 <= a -> 0 <= n -> rest = drop (Z.to_nat (a + n)) text -> mem_slice text a n ++ rest = drop (Z.to_nat a) text.
Proof. intros Ha Hn ->. unfold mem_slice. rewrite Z2Nat.inj_add, <- drop_drop by lia. by rewrite take_drop. Qed.

Lemma added_at_bounds tz text literal pos token : 0 <= pos -> added_at tz text literal pos = Some token ->
  token ∈ tz_added_tokens tz /\ 0 < vsize (at_content token) /\ mem_slice text pos (vsize (at_content token)) = at_content token.
Proof.
  intros Hp E. apply List.find_some in E as [Hin Hs]. unfold starts_at in Hs. apply andb_prop in Hs as [[Hne%Z.ltb_lt Hc%bool_decide_eq_true]%andb_prop _].
  split; [by apply list_elem_of_In|done].
Qed.

Lemma slice_end (text content : list Z) pos : 0 <= pos -> 0 < vsize content -> mem_slice text pos (vsize content) = content -> pos + vsize content <= vsize text.
Proof. intros Hp Hne Hc. apply (f_equal length) in Hc. unfold mem_slice in Hc. rewrite length_take, length_drop in Hc. unfold vsize in *. lia. Qed.

Lemma pieces_from_concat fuel tz text literal ob pos : 0 <= ob <= pos -> pos <= vsize text -> vsize text - pos <= Z.of_nat fuel ->
  concat (map raw_bytes (pieces_from fuel tz text literal ob pos)) = drop (Z.to_nat ob) text.
Proof.
  revert ob pos. induction fuel as [|fuel IH]; intros ob pos Ho Hp Hf; cbn [pieces_from]; destruct (Z.ltb_spec pos (vsize text)) as [Hlt|Hge]; try lia;
    try by (cbn [map concat raw_bytes]; apply mem_slice_app; [lia|lia|]; rewrite drop_ge; [done|unfold vsize; lia]).
  destruct (added_at tz text literal pos) as [token|] eqn:Em; [|apply IH; lia].
  destruct (added_at_bounds tz text literal pos token ltac:(lia) Em) as (_ & Hne & Hc). pose proof (slice_end text _ pos ltac:(lia) Hne Hc).
  cbn [map concat raw_bytes]. apply mem_slice_app; [lia|lia|].
  rewrite IH by lia. rewrite <- Hc at 1. replace (ob + (pos - ob)) with pos by lia. apply mem_slice_app; [lia|lia|done].
Qed.

Lemma pieces_concat tz parse_added text literal : concat (map raw_bytes (pieces tz parse_added text literal)) = text.
Proof. unfold pieces. destruct parse_added; [|apply app_nil_r]. rewrite pieces_from_concat; [by rewrite drop_0|lia|unfold vsize; lia|unfold vsize; lia]. Qed.

Lemma pieces_from_added fuel tz text literal ob pos token : 0 <= pos -> Added token ∈ pieces_from fuel tz text literal ob pos -> token ∈ tz_added_tokens tz.
Proof.
  revert ob pos. induction fuel as [|fuel IH]; intros ob pos Hp Hin; cbn [pieces_from] in Hin; destruct (pos <? vsize text); try set_solver.
  destruct (added_at tz text literal pos) as [t|] eqn:Em; [|eapply IH; [|exact Hin]; lia].
  destruct (added_at_bounds _ _ _ _ _ Hp Em) as (Ht & Hne & _). apply elem_of_cons in Hin as [E|Hin]; [done|]. apply elem_of_cons in Hin as [[= ->]|Hin]; [done|].
  eapply IH; [|exact Hin]. lia.
Qed.

(** ** The code's search finds the same tokens *)

(** Checked literal spans: not empty, in order and apart from each other. *)
Fixpoint spans_from (lo : Z) (spans : list ByteSpan) : Prop :=
  match spans with
  | [] => True
  | s :: spans' => lo <= bs_begin s < bs_end s /\ spans_from (bs_end s) spans'
  end.

Lemma checked_spans spans size lo : check_literal_spans spans size lo = Ok tt -> spans_from lo spans.
Proof.
  revert lo. induction spans as [|s spans IH]; intros lo E; [done|]. cbn [check_literal_spans] in E. apply bind_Ok in E as (u & G%throw_if_Ok & E).
  simp_bool. split; [lia|by apply IH].
Qed.

Lemma later_spans spans lo pos token : spans_from lo spans -> pos + vsize (at_content token) <= lo -> in_literal spans pos token = false.
Proof.
  revert lo. induction spans as [|s spans IH]; intros lo H Hlo; [done|]. destruct H as [Hs H]. unfold in_literal. cbn [existsb].
  rewrite (proj2 (Z.ltb_ge (bs_begin s) _)), andb_false_r by lia. by apply (IH (bs_end s)); [|lia].
Qed.

(** Dropping the spans that end before [pos]. *)
Lemma passed_spans spans lo pos :
  spans_from lo spans ->
  let rest := snd (span_while (fun s => bs_end s <=? pos) spans) in
  (exists lo', spans_from lo' rest) /\ (forall p token, pos <= p -> in_literal rest p token = in_literal spans p token) /\
  (forall token, in_literal rest pos token = match rest with s :: _ => bs_begin s <? pos + vsize (at_content token) | [] => false end).
Proof.
  revert lo. induction spans as [|s spans IH]; intros lo H; cbv zeta; cbn [span_while].
  { split; [by exists 0|done]. }
  pose proof H as [Hs Hr]. destruct (Z.leb_spec (bs_end s) pos) as [Hle|Hgt].
  - destruct (IH _ Hr) as (H1 & H2 & H3). destruct (span_while _ spans) as [p rest]. cbn [snd] in *. split; [done|]. split; [|done].
    intros q token Hq. rewrite H2 by done. unfold in_literal. cbn [existsb]. by rewrite (proj2 (Z.ltb_ge q (bs_end s))) by lia.
  - cbn [snd]. split; [by exists lo|]. split; [done|]. intros token. unfold in_literal at 1. cbn [existsb]. rewrite (proj2 (Z.ltb_lt pos (bs_end s))) by lia. cbn [andb].
    destruct (Z.ltb_spec (bs_begin s) (pos + vsize (at_content token))) as [|Hge]; [done|]. cbn [orb]. by apply (later_spans spans (bs_end s)); [|lia].
Qed.

Lemma is_prefix_slice content text pos : 0 <= pos -> is_prefix content (drop (Z.to_nat pos) text) = bool_decide (mem_slice text pos (vsize content) = content).
Proof.
  intros Hp. unfold mem_slice, vsize. rewrite Nat2Z.id. generalize (drop (Z.to_nat pos) text) as t. clear text pos Hp.
  induction content as [|a content IH]; intros t; [cbn; by rewrite take_0|]. destruct t as [|b t]; [done|]. cbn [is_prefix length take]. rewrite IH.
  destruct (Z.eqb_spec a b) as [->|Hne]; cbn [andb].
  - apply bool_decide_ext. split; [by intros ->|by intros [= ?]].
  - symmetry. apply bool_decide_eq_false_2. intros [= ? _]. congruence.
Qed.

Lemma match_added_finds text pos candidates : 0 <= pos -> Forall (fun t => 0 < vsize (at_content t)) candidates -> forall lo literal, spans_from lo literal ->
  exists literal', match_added candidates text pos literal = (List.find (starts_at text literal pos) candidates, literal') /\
    (exists lo', spans_from lo' literal') /\ forall p token, pos <= p -> in_literal literal' p token = in_literal literal p token.
Proof.
  intros Hp. induction 1 as [|t candidates Hne _ IH]; intros lo literal Hl; cbn [match_added List.find].
  { exists literal. split; [done|]. split; [by exists lo|done]. }
  unfold starts_at at 1. rewrite (proj2 (Z.ltb_lt 0 _) Hne), is_prefix_slice by done. cbn [andb].
  destruct (bool_decide (mem_slice text pos (vsize (at_content t)) = at_content t)); cbn [andb]; [|by eapply IH].
  destruct (passed_spans literal lo pos Hl) as ([lo' H1] & H2 & H3). set (rest := snd _) in *. rewrite <- (H2 pos t ltac:(lia)), H3.
  assert (Hsame : List.find (starts_at text rest pos) candidates = List.find (starts_at text literal pos) candidates).
  { clear -H2. induction candidates as [|c candidates IHc]; [done|]. cbn [List.find]. unfold starts_at at 1 3. rewrite (H2 pos c ltac:(lia)). by rewrite IHc. }
  destruct rest as [|sp rest'] eqn:Er; cbn [negb]; [by exists []; split; [|split; [by exists 0|]]|].
  destruct (bs_begin sp <? _); cbn [negb]; [|exists (sp :: rest'); split; [done|]; split; [by exists lo'|done]].
  destruct (IH lo' (sp :: rest') H1) as (l' & E & Hlo & Hin). exists l'. rewrite E, Hsame. split; [done|]. split; [done|]. intros p token Hpp. by rewrite Hin, H2.
Qed.

Lemma candidates_suffice tz text literal pos byte : 0 <= pos -> text.[pos] = Some byte ->
  List.find (starts_at text literal pos) (added_token_candidates tz byte) = added_at tz text literal pos.
Proof.
  intros Hp Hb. unfold added_at, added_token_candidates. induction (tz_added_tokens tz) as [|t ts IH]; [done|]. cbn [List.filter List.find].
  destruct (at_content t) as [|c content] eqn:Ec.
  { unfold starts_at at 2. rewrite Ec. exact IH. }
  destruct (Z.eqb_spec c byte) as [->|Hne]; cbn [List.find].
  { by rewrite IH. }
  replace (starts_at text literal pos t) with false; [exact IH|]. symmetry. unfold starts_at. rewrite Ec, bool_decide_eq_false_2; [by rewrite andb_false_r|].
  intros E. unfold vget in Hb. destruct (Z.leb_spec 0 pos); [|done]. unfold mem_slice in E.
  rewrite (drop_S _ _ _ Hb) in E. unfold vsize in E. rewrite Nat2Z.id in E. cbn in E. injection E as E _. congruence.
Qed.

Lemma matched_pieces_from fuel tz text : forall ob pos literal literal' lo, 0 <= pos -> spans_from lo literal' ->
  (forall p token, pos <= p -> in_literal literal' p token = in_literal literal p token) ->
  matched_pieces fuel tz text ob pos literal' = pieces_from fuel tz text literal ob pos.
Proof.
  induction fuel as [|fuel IH]; intros ob pos literal literal' lo Hp Hl Hin; cbn [matched_pieces pieces_from]; destruct (Z.ltb_spec pos (vsize text)) as [Hlt|]; try done.
  destruct (vget_is_Some text pos ltac:(lia)) as [byte Eb]. rewrite Eb.
  assert (Hne : Forall (fun t => 0 < vsize (at_content t)) (added_token_candidates tz byte)) by (apply Forall_forall; intros t Ht; by apply (candidate_nonempty _ _ _ Ht)).
  destruct (match_added_finds text pos _ Hp Hne lo literal' Hl) as (l2 & E & [lo2 Hl2] & Hin2). rewrite E.
  assert (Hsame : List.find (starts_at text literal' pos) (added_token_candidates tz byte) = added_at tz text literal pos).
  { rewrite <- (candidates_suffice tz text literal pos byte Hp Eb). clear -Hin. induction (added_token_candidates tz byte) as [|t ts IHt]; [done|]. cbn [List.find].
    unfold starts_at at 1 3. by rewrite Hin, IHt by lia. }
  rewrite Hsame. destruct (added_at tz text literal pos) as [token|] eqn:Ea.
  - destruct (added_at_bounds _ _ _ _ _ Hp Ea) as (_ & Hpos & _). do 2 f_equal. eapply IH; [lia|exact Hl2|]. intros p t Hpp. rewrite Hin2, Hin by lia. done.
  - eapply IH; [lia|exact Hl2|]. intros p t Hpp. rewrite Hin2, Hin by lia. done.
Qed.

Section Encoding.
Context `{Utf8Laws} (tz : Tokenizer) (look : Z -> Z -> option BpeMergeRule).
Context (Hfind : forall a b, is_symbol a -> is_symbol b -> exists r, find (tz_bpe_merge_rules tz) (merge_pair_key a b) = Ok r /\ rule_of <$> r = look a b).
Context (Hlook : forall a b r, look a b = Some r -> is_symbol (br_result r)).
Context (Hbytes : forall b, is_byte b -> exists s, (tz_byte_token_ids tz).[b] = Some s /\ is_symbol s).

Definition tokens_of (rs : list (Z * list Z)) : list Z := text_tokens (tz_split_unicode_marks_as_letters tz) look (tz_byte_token_ids tz) rs.

(** The ids of a piece. *)
Inductive piece_tokens : piece -> list Z -> Prop :=
  | ordinary_tokens raw normalized rs : normalize_nfc raw = Ok normalized -> reads normalized rs -> piece_tokens (Ordinary raw) (tokens_of rs)
  | added_tokens token : piece_tokens (Added token) [at_id token].

Definition ids_of (e : encoding) : list Z := en_input_ids (ec_encoded e).

Lemma tokens_of_nil : tokens_of [] = [].
Proof. done. Qed.

(** ** Ordinary text *)
Lemma ordinary_ids encoded text off bs max normalized rs complete encoded' : Forall is_byte text -> 3 * vsize text <= I32_MAX -> vsize (en_input_ids encoded) < max ->
  normalize_nfc text = Ok normalized -> reads normalized rs ->
  append_ordinary_text encoded text off bs (tz_bpe_merge_rules tz) (tz_byte_token_ids tz) max (tz_split_unicode_marks_as_letters tz) = Ok (complete, encoded') ->
  en_input_ids encoded' = take (Z.to_nat max) (en_input_ids encoded ++ tokens_of rs) /\ complete = (vsize (en_input_ids encoded ++ tokens_of rs) <? max).
Proof.
  intros Hb Hsz Hm Hn Hr E. unfold append_ordinary_text in E. destruct (Z.eqb_spec (vsize text) 0) as [E0|_].
  { injection E as <- <-. destruct text; [|unfold vsize in E0; cbn in E0; lia]. injection Hn as <-. apply reads_empty in Hr as ->. rewrite tokens_of_nil, app_nil_r, (proj2 (Z.ltb_lt _ _) Hm).
    cbn [en_input_ids]. split; [|done]. rewrite take_ge; [done|]. unfold vsize in Hm. lia. }
  rewrite Hn in E. cbn [mbind result_bind] in E. destruct (normalized_reads text normalized Hb Hn) as [Hb' _]. pose proof (normalized_size _ _ Hn) as Hsz'.
  destruct (append_normalized_ok (tz_split_unicode_marks_as_letters tz) _ look _ Hfind Hlook Hbytes (en_input_ids encoded) normalized max rs Hr Hb' ltac:(lia) Hm) as (o & Ea & Hids).
  fold (tokens_of rs) in Ea, Hids. rewrite Ea in E. cbn [mbind result_bind] in E. destruct (_ <? max); cbn [negb] in E; [|by injection E as <- <-].
  destruct (negb (existsb _ bs)); [by injection E as <- <-|]. apply bind_Ok in E as ([ends whole] & _ & E). by destruct (bool_decide _); injection E as <- <-.
Qed.

(** Without boundaries inside, only the normalization can fail. *)
Lemma ordinary_runs encoded text off max normalized : Forall is_byte text -> 3 * vsize text <= I32_MAX -> vsize (en_input_ids encoded) < max ->
  normalize_nfc text = Ok normalized ->
  exists r, append_ordinary_text encoded text off [] (tz_bpe_merge_rules tz) (tz_byte_token_ids tz) max (tz_split_unicode_marks_as_letters tz) = Ok r.
Proof.
  intros Hb Hsz Hm Hn. destruct (normalized_reads text normalized Hb Hn) as [Hb' [rs Hr]]. pose proof (normalized_size _ _ Hn) as Hsz'.
  destruct (append_normalized_ok (tz_split_unicode_marks_as_letters tz) _ look _ Hfind Hlook Hbytes (en_input_ids encoded) normalized max rs Hr Hb' ltac:(lia) Hm) as (o & Ea & _).
  unfold append_ordinary_text. destruct (vsize text =? 0); [by eexists|]. rewrite Hn. cbn [mbind result_bind]. rewrite Ea. cbn [mbind result_bind]. destruct (_ <? max); by eexists.
Qed.

Lemma ordinary_normalizes encoded text off bs max r : 
  append_ordinary_text encoded text off bs (tz_bpe_merge_rules tz) (tz_byte_token_ids tz) max (tz_split_unicode_marks_as_letters tz) = Ok r ->
  exists normalized, normalize_nfc text = Ok normalized.
Proof.
  intros E. unfold append_ordinary_text in E. destruct (Z.eqb_spec (vsize text) 0) as [E0|_].
  { destruct text; [|unfold vsize in E0; cbn in E0; lia]. by exists []. }
  apply bind_Ok in E as (normalized & Hn & _). by exists normalized.
Qed.

Lemma append_ordinary_ids text a b e max complete e' : Forall is_byte text -> 3 * vsize text <= I32_MAX -> vsize (ids_of e) < max ->
  append_ordinary tz max text a b e = Ok (complete, e') ->
  exists l, piece_tokens (Ordinary (mem_slice text a (b - a))) l /\ ids_of e' = take (Z.to_nat max) (ids_of e ++ l) /\ complete = (vsize (ids_of e ++ l) <? max) /\
    (ec_requests e = [] -> ec_requests e' = []).
Proof.
  intros Hb Hsz Hm E. unfold append_ordinary in E. destruct (span_while _ (ec_requests e)) as [now later] eqn:Es. apply bind_Ok in E as ([c encoded] & Ea & E). injection E as <- <-.
  destruct (ordinary_normalizes _ _ _ _ _ _ Ea) as [normalized Hn]. assert (Hb' : Forall is_byte (mem_slice text a (b - a))) by (unfold mem_slice; by apply Forall_take, Forall_drop).
  assert (Hsz' : vsize (mem_slice text a (b - a)) <= vsize text) by (unfold mem_slice, vsize; rewrite length_take, length_drop; lia).
  destruct (normalized_reads _ _ Hb' Hn) as [_ [rs Hr]]. destruct (ordinary_ids _ _ _ _ _ _ _ _ _ Hb' ltac:(lia) Hm Hn Hr Ea) as [Hids Hc].
  exists (tokens_of rs). split; [by econstructor|]. split; [done|]. split; [done|]. intros E0. rewrite E0 in Es. cbn in *. by injection Es as _ <-.
Qed.

Lemma append_ordinary_runs text a b e max l : Forall is_byte text -> 3 * vsize text <= I32_MAX -> vsize (ids_of e) < max ->
  ec_requests e = [] -> piece_tokens (Ordinary (mem_slice text a (b - a))) l -> exists r, append_ordinary tz max text a b e = Ok r.
Proof.
  intros Hb Hsz Hm E0 Hl. unfold append_ordinary. rewrite E0. cbn [span_while]. inversion Hl as [raw normalized rs Hn Hr|]; subst.
  destruct (ordinary_runs (ec_encoded e) (mem_slice text a (b - a)) a max normalized) as [[c r] Er]; [unfold mem_slice; by apply Forall_take, Forall_drop| |done|done|].
  - unfold mem_slice, vsize in *. rewrite length_take, length_drop. lia.
  - rewrite Er. by eexists.
Qed.

Lemma piece_tokens_unique p l l' : piece_tokens p l -> piece_tokens p l' -> l = l'.
Proof.
  intros H1 H2. destruct H1 as [raw normalized rs Hn Hr|token]; inversion H2 as [? normalized' rs' Hn' Hr'|]; subst; [|done].
  rewrite Hn in Hn'. injection Hn' as <-. by rewrite (reads_unique _ _ _ Hr Hr').
Qed.

(** ** The whole text *)
Lemma append_added_ids max token pos e more e' : vsize (ids_of e) < max -> append_added max token pos e = (more, e') ->
  ids_of e' = take (Z.to_nat max) (ids_of e ++ [at_id token]) /\ more = (vsize (ids_of e ++ [at_id token]) <? max) /\ (ec_requests e = [] -> ec_requests e' = []).
Proof.
  intros Hm E. unfold append_added in E. destruct (span_while _ (ec_requests e)) as [inside rest] eqn:Es. fold (ids_of e) in E. rewrite vsize_app in *. change (vsize [at_id token]) with 1 in *.
  assert (Htake : take (Z.to_nat max) (ids_of e ++ [at_id token]) = ids_of e ++ [at_id token]) by (apply take_ge; rewrite length_app; unfold vsize in Hm; cbn; lia). rewrite Htake.
  assert (Hrest : ec_requests e = [] -> rest = []) by (intros E0; rewrite E0 in Es; by injection Es as _ <-).
  destruct (Z.eqb_spec (vsize (ids_of e) + 1) max) as [Em|Em].
  - injection E as <- <-. cbn. rewrite (proj2 (Z.ltb_ge _ _)) by lia. done.
  - destruct (span_while _ rest) as [ends rest'] eqn:Es'. injection E as <- <-. cbn. rewrite (proj2 (Z.ltb_lt _ _)) by lia. split; [done|]. split; [done|].
    intros E0. rewrite (Hrest E0) in Es'. by injection Es' as _ <-.
Qed.

Lemma take_more (max : Z) (a l rest : list Z) : (vsize (a ++ l) <? max) = false -> take (Z.to_nat max) (a ++ l) = take (Z.to_nat max) (a ++ l ++ rest).
Proof. intros E%Z.ltb_ge. rewrite (app_assoc a l rest), (take_app_le (a ++ l)); [done|]. unfold vsize in E. lia. Qed.

Lemma full_take (max : Z) (l : list Z) : 0 < max -> (vsize l <? max) = false -> ~ vsize (take (Z.to_nat max) l) < max.
Proof. intros Hm E%Z.ltb_ge. unfold vsize in *. rewrite length_take. lia. Qed.

Lemma encode_last max text ob e ls : Forall is_byte text -> 3 * vsize text <= I32_MAX -> vsize (ids_of e) < max ->
  Forall2 piece_tokens [Ordinary (mem_slice text ob (vsize text - ob))] ls ->
  match ('(_, e') ← append_ordinary tz max text ob (vsize text) e; Ok (ec_encoded e')) with
  | Ok encoded => en_input_ids encoded = take (Z.to_nat max) (ids_of e ++ concat ls)
  | Err _ => ec_requests e <> []
  end.
Proof.
  intros Hb Hsz Hm Hls. apply Forall2_cons_inv_l in Hls as (l & ls' & Hl & ->%Forall2_nil_inv_l & ->). cbn [concat]. rewrite app_nil_r.
  destruct (append_ordinary tz max text ob (vsize text) e) as [[c e']|er] eqn:Ea; cbn [mbind result_bind].
  - destruct (append_ordinary_ids _ _ _ _ _ _ _ Hb Hsz Hm Ea) as (l' & Hl' & Hids & _). by rewrite (piece_tokens_unique _ _ _ Hl Hl').
  - intros E0. destruct (append_ordinary_runs _ _ _ _ _ _ Hb Hsz Hm E0 Hl) as [r Er]. congruence.
Qed.

(** If every piece has its ids, then the encoding has as many of them as the limit allows; it fails only for a boundary. *)
Lemma encode_from_pieces fuel max text ob pos literal e ls : Forall is_byte text -> 3 * vsize text <= I32_MAX -> 0 <= ob <= pos -> pos <= vsize text -> vsize text - pos <= Z.of_nat fuel ->
  vsize (ids_of e) < max -> Forall2 piece_tokens (matched_pieces fuel tz text ob pos literal) ls ->
  match encode_from fuel tz max text ob pos literal e with
  | Ok encoded => en_input_ids encoded = take (Z.to_nat max) (ids_of e ++ concat ls)
  | Err _ => ec_requests e <> []
  end.
Proof.
  intros Hb Hsz. revert ob pos literal e ls. induction fuel as [|fuel IH]; intros ob pos literal e ls Ho Hp Hf Hm Hls; cbn [encode_from matched_pieces] in *;
    destruct (Z.ltb_spec pos (vsize text)) as [Hlt|Hge]; try lia; try by apply encode_last.
  destruct (vget_is_Some text pos ltac:(lia)) as [byte Eb]. unfold vat. rewrite Eb in *. cbn [mbind result_bind].
  destruct (match_added _ text pos literal) as [[token|] literal'] eqn:Em; [|apply IH; (done || lia)].
  destruct (matched_bounds tz byte text pos literal token literal' ltac:(lia) Em) as (_ & Hne & Hend & _).
  apply Forall2_cons_inv_l in Hls as (l & ls1 & Hl & Hls & ->). apply Forall2_cons_inv_l in Hls as (l2 & ls2 & Hl2 & Hls & ->). inversion Hl2; subst l2; subst. cbn [concat].
  destruct (append_ordinary tz max text ob pos e) as [[complete e1]|er] eqn:Ea; cbn [mbind result_bind].
  2: { intros E0. destruct (append_ordinary_runs _ _ _ _ _ _ Hb Hsz Hm E0 Hl) as [r Er]. congruence. }
  destruct (append_ordinary_ids _ _ _ _ _ _ _ Hb Hsz Hm Ea) as (l' & Hl' & Hids & Hc & Hreq). rewrite <- (piece_tokens_unique _ _ _ Hl Hl') in *. clear l' Hl'.
  subst complete. destruct (vsize (ids_of e ++ l) <? max) eqn:Ec; cbn [negb]; [|change (en_input_ids (ec_encoded e1)) with (ids_of e1); rewrite Hids; by apply take_more].
  apply Z.ltb_lt in Ec. rewrite take_ge in Hids by (unfold vsize in Ec; lia). rewrite <- Hids in Ec. destruct (append_added max token pos e1) as [more e2] eqn:Ead.
  destruct (append_added_ids _ _ _ _ _ _ Ec Ead) as (Hids2 & Hmore & Hreq2). subst more. rewrite (app_assoc (ids_of e) l), <- Hids.
  destruct (vsize (ids_of e1 ++ [at_id token]) <? max) eqn:Ec2; cbn [negb]; [|change (en_input_ids (ec_encoded e2)) with (ids_of e2); rewrite Hids2; by apply (take_more max (ids_of e1) [at_id token])].
  apply Z.ltb_lt in Ec2. rewrite take_ge in Hids2 by (unfold vsize in Ec2; lia). rewrite <- Hids2 in Ec2. rewrite (app_assoc (ids_of e1) [at_id token]), <- Hids2.
  assert (Hte : 0 <= pos + vsize (at_content token) <= pos + vsize (at_content token)) by lia. assert (Hf' : vsize text - (pos + vsize (at_content token)) <= Z.of_nat fuel) by lia.
  specialize (IH _ _ literal' e2 ls2 Hte Hend Hf' Ec2 Hls).
  destruct (encode_from fuel tz max text _ _ literal' e2); [done|]. intros E0. apply IH. by apply Hreq2, Hreq.
Qed.

(** An encoding below the limit has the ids of every piece. *)
Lemma encode_from_complete fuel max text ob pos literal e encoded : Forall is_byte text -> 3 * vsize text <= I32_MAX -> 0 <= ob <= pos -> pos <= vsize text ->
  vsize text - pos <= Z.of_nat fuel -> vsize (ids_of e) < max -> encode_from fuel tz max text ob pos literal e = Ok encoded -> vsize (en_input_ids encoded) < max ->
  exists ls, Forall2 piece_tokens (matched_pieces fuel tz text ob pos literal) ls.
Proof.
  intros Hb Hsz. revert ob pos literal e. induction fuel as [|fuel IH]; intros ob pos literal e Ho Hp Hf Hm E Hlt'; cbn [encode_from matched_pieces] in *;
    destruct (Z.ltb_spec pos (vsize text)) as [Hlt|Hge]; try lia.
  1, 3: apply bind_Ok in E as ([c e'] & Ea & _); destruct (append_ordinary_ids _ _ _ _ _ _ _ Hb Hsz Hm Ea) as (l & Hl & _); exists [l]; by repeat constructor.
  destruct (vget_is_Some text pos ltac:(lia)) as [byte Eb]. unfold vat in E. rewrite Eb in *. cbn [mbind result_bind] in E.
  destruct (match_added _ text pos literal) as [[token|] literal'] eqn:Em; [|eapply IH; [| | | |exact E|]; (done || lia)].
  destruct (matched_bounds tz byte text pos literal token literal' ltac:(lia) Em) as (_ & Hne & Hend & _).
  apply bind_Ok in E as ([complete e1] & Ea & E). destruct (append_ordinary_ids _ _ _ _ _ _ _ Hb Hsz Hm Ea) as (l & Hl & Hids & Hc & _). subst complete.
  destruct (vsize (ids_of e ++ l) <? max) eqn:Ec; cbn [negb] in E; [|injection E as <-; exfalso; fold (ids_of e1) in Hlt'; rewrite Hids in Hlt'; revert Hlt'; apply full_take; [unfold vsize in Hm; lia|done]].
  apply Z.ltb_lt in Ec. rewrite take_ge in Hids by (unfold vsize in Ec; lia). rewrite <- Hids in Ec. destruct (append_added max token pos e1) as [more e2] eqn:Ead.
  destruct (append_added_ids _ _ _ _ _ _ Ec Ead) as (Hids2 & Hmore & _). subst more.
  destruct (vsize (ids_of e1 ++ [at_id token]) <? max) eqn:Ec2; cbn [negb] in E; [|injection E as <-; exfalso; fold (ids_of e2) in Hlt'; rewrite Hids2 in Hlt'; revert Hlt'; apply full_take; [unfold vsize in Hm; lia|done]].
  apply Z.ltb_lt in Ec2. rewrite take_ge in Hids2 by (unfold vsize in Ec2; lia). rewrite <- Hids2 in Ec2.
  assert (Hte : 0 <= pos + vsize (at_content token) <= pos + vsize (at_content token)) by lia. assert (Hf' : vsize text - (pos + vsize (at_content token)) <= Z.of_nat fuel) by lia.
  destruct (IH _ _ literal' e2 Hte Hend Hf' Ec2 E Hlt') as [ls Hls]. exists (l :: [at_id token] :: ls). constructor; [done|]. constructor; [constructor|done].
Qed.

Lemma slice_all (text : list Z) : mem_slice text 0 (vsize text - 0) = text.
Proof. unfold mem_slice, vsize. rewrite Z.sub_0_r, Nat2Z.id, take_ge by (rewrite length_drop; lia). apply drop_0. Qed.

(** ** The interface *)
Lemma encode_ids text bs options literal ls : Forall is_byte text -> 3 * vsize text <= I32_MAX -> 0 <= eo_max_tokens options ->
  Forall2 piece_tokens (pieces tz (eo_parse_added_tokens options) text literal) ls ->
  match encode_with_boundaries tz text bs options literal with
  | Ok encoded => en_input_ids encoded = take (Z.to_nat (eo_max_tokens options)) (concat ls)
  | Err _ => bs <> [] \/ literal <> []
  end.
Proof.
  intros Hb Hsz Hmax Hls. unfold encode_with_boundaries. destruct (check_literal_spans literal (vsize text) 0) as [[]|er] eqn:Ec; cbn [mbind result_bind]; [|right; by intros ->].
  destruct (rfor _ tt bs) as [[]|er] eqn:Er; cbn [mbind result_bind]; [|left; by intros ->]. destruct (Z.eqb_spec (eo_max_tokens options) 0) as [->|Hne]; [done|].
  set (e := mkEncoding _ _). assert (Hm : vsize (ids_of e) < eo_max_tokens options) by (change (vsize (ids_of e)) with 0; lia). assert (Hreq : ec_requests e <> [] -> bs <> []) by (intros Hr ->; by apply Hr).
  unfold pieces in Hls. destruct (eo_parse_added_tokens options); cbn [negb].
  - rewrite <- (matched_pieces_from (length text) tz text 0 0 literal literal 0 ltac:(lia) (checked_spans _ _ _ Ec)) in Hls by done. assert (Hz : 0 <= 0 <= 0) by lia. assert (Hv : 0 <= vsize text) by (unfold vsize; lia). assert (Hf : vsize text - 0 <= Z.of_nat (length text)) by (unfold vsize; lia).
    pose proof (encode_from_pieces (length text) _ text 0 0 literal e ls Hb Hsz Hz Hv Hf Hm Hls) as Hfrom. destruct (encode_from _ _ _ _ _ _ _ e); [done|left; auto].
  - rewrite <- (slice_all text) in Hls at 1. pose proof (encode_last _ text 0 e ls Hb Hsz Hm Hls) as Hlast. destruct (_ ← append_ordinary _ _ _ _ _ e; _); [done|left; auto].
Qed.

Lemma encode_complete text bs options literal encoded : Forall is_byte text -> 3 * vsize text <= I32_MAX -> 0 <= eo_max_tokens options ->
  encode_with_boundaries tz text bs options literal = Ok encoded -> vsize (en_input_ids encoded) < eo_max_tokens options ->
  exists ls, Forall2 piece_tokens (pieces tz (eo_parse_added_tokens options) text literal) ls.
Proof.
  intros Hb Hsz Hmax E Hlt. unfold encode_with_boundaries in E. apply bind_Ok in E as ([] & Ec & E). apply bind_Ok in E as ([] & _ & E).
  destruct (Z.eqb_spec (eo_max_tokens options) 0) as [E0|Hne]; [injection E as <-; cbn [en_input_ids] in Hlt; unfold vsize in Hlt; cbn in Hlt; lia|].
  set (e := mkEncoding _ _) in E. assert (Hm : vsize (ids_of e) < eo_max_tokens options) by (change (vsize (ids_of e)) with 0; lia).
  unfold pieces. destruct (eo_parse_added_tokens options); cbn [negb] in E.
  - rewrite <- (matched_pieces_from (length text) tz text 0 0 literal literal 0 ltac:(lia) (checked_spans _ _ _ Ec)) by done. assert (Hz : 0 <= 0 <= 0) by lia. assert (Hv : 0 <= vsize text) by (unfold vsize; lia). assert (Hf : vsize text - 0 <= Z.of_nat (length text)) by (unfold vsize; lia).
    by apply (encode_from_complete (length text) _ text 0 0 literal e encoded Hb Hsz Hz Hv Hf Hm E).
  - apply bind_Ok in E as ([c e'] & Ea & _). destruct (append_ordinary_ids _ _ _ _ _ _ _ Hb Hsz Hm Ea) as (l & Hl & _). rewrite slice_all in Hl. exists [l]. by repeat constructor.
Qed.
End Encoding.
