(* ===== verification/TokenLoaded.v ===== *)
(** What the constructor of the tokenizer guarantees: ids and tokens agree, every merge spells what its two sides spell, the ids of bytes spell
    one byte, and added tokens spell their content. *)
From stdpp Require Import strings gmap sorting.
From S2P Require Import Prelude StorageLayouts ArtifactReader Unicode Tokenizer TokenizerLoad TokenTable TokenMerges TokenWords.

Definition is_token_id (id : Z) : Prop := 0 <= id <= kMaxTokenId.

Lemma token_id_symbol id : is_token_id id -> is_symbol id.
Proof. unfold is_token_id, is_symbol, kMaxTokenId, I32_MAX. lia. Qed.

Lemma parse_token_id_ok v id : json_ok v = true -> parse_token_id v = Ok id -> is_token_id id.
Proof. intros Hok E. unfold is_token_id. destruct v; try done; cbn in Hok, E; simp_res; simp_bool; lia. Qed.

(** * The vocabulary *)
Definition item_id (item : string * Json) (id : Z) : Prop := parse_token_id (snd item) = Ok id.

Lemma check_ids items occ mx occ' mx' : forallb (fun kv => json_ok (snd kv)) items = true -> rfor check_vocab_id (occ, mx) items = Ok (occ', mx') ->
  exists ids, Forall2 item_id items ids /\ NoDup ids /\ occ ⊆ occ' /\ Forall (fun id => id ∉ occ /\ id ∈ occ' /\ is_token_id id) ids.
Proof.
  revert occ mx. induction items as [|item items IH]; intros occ mx Hok E.
  { injection E as <- <-. exists []. repeat split; try constructor; done. }
  cbn [forallb] in Hok. apply andb_true_iff in Hok as [Hok1 Hok]. cbn [rfor] in E. apply bind_Ok in E as ([occ1 mx1] & E1 & E). unfold check_vocab_id in E1.
  apply bind_Ok in E1 as (id & Hid & E1). apply bind_Ok in E1 as ([] & Hnew%throw_if_Ok & E1). injection E1 as <- <-. apply bool_decide_eq_false in Hnew.
  destruct (IH _ _ Hok E) as (ids & Hids & Hnd & Hsub & Hall). exists (id :: ids). split; [by constructor|]. rewrite Forall_forall in Hall.
  split; [constructor; [|done]; intros Hin; destruct (Hall _ Hin) as [Hn _]; set_solver|]. split; [set_solver|].
  constructor; [split; [done|]; split; [set_solver|by eapply parse_token_id_ok]|]. apply Forall_forall. intros x Hx. destruct (Hall x Hx) as (? & ? & ?). split; [set_solver|done].
Qed.

(** Every token of the vocabulary is at its id. *)
Definition vocab_ok (occ : gset Z) (id_to_token : list (list Z)) (T : gmap (list Z) Z) : Prop :=
  forall tok id, T !! tok = Some id -> id_to_token.[id] = Some tok /\ id ∈ occ /\ is_token_id id.

Lemma add_items occ items ids l T l' T' : Forall2 item_id items ids -> NoDup ids -> Forall (fun id => id ∈ occ /\ is_token_id id) ids ->
  (forall tok id, T !! tok = Some id -> id ∉ ids) -> vocab_ok occ l T -> rfor add_vocab_item (l, T) items = Ok (l', T') -> vocab_ok occ l' T'.
Proof.
  intros Hids. revert l T. induction Hids as [|item id items ids Hid Hids IH]; intros l T Hnd Hall Hfree Hv E; [by injection E as <- <-|].
  apply NoDup_cons in Hnd as [Hnew Hnd]. apply Forall_cons in Hall as [[Hocc Hr] Hall]. cbn [rfor] in E. apply bind_Ok in E as ([l1 T1] & E1 & E).
  unfold add_vocab_item in E1. unfold item_id in Hid. rewrite Hid in E1. cbn [mbind result_bind] in E1. apply bind_Ok in E1 as ([] & Hlt%throw_if_Ok & E1). apply Z.leb_gt in Hlt.
  injection E1 as <- <-. revert E. apply IH; try done.
  - intros tok id'. destruct (T !! bytes_of (fst item)) eqn:Eo; [intros Ht; specialize (Hfree _ _ Ht); set_solver|].
    rewrite lookup_insert_Some. intros [[_ <-]|[_ Ht]]; [done|]. specialize (Hfree _ _ Ht). set_solver.
  - assert (Hset : forall tok id', T !! tok = Some id' -> (l.[id <- bytes_of (fst item)]).[id'] = Some tok /\ id' ∈ occ /\ is_token_id id').
    { intros tok id' Ht. destruct (Hv _ _ Ht) as (Hl & ? & ?). split; [|done]. rewrite vget_vset_ne; [done|]. intros <-. apply (Hfree _ _ Ht). set_solver. }
    intros tok id'. destruct (T !! bytes_of (fst item)) eqn:Eo; [apply Hset|]. rewrite lookup_insert_Some. intros [[<- <-]|[_ Ht]]; [|by apply Hset].
    split; [|done]. apply vget_vset_eq. unfold is_token_id in Hr. lia.
Qed.

Lemma load_vocab_ok model v : json_ok model = true -> load_vocab model = Ok v -> vocab_ok (vm_occupied_ids v) (vm_id_to_token v) (vm_token_to_id v).
Proof.
  intros Hok E. unfold load_vocab in E. apply bind_Ok in E as ([] & _ & E). apply bind_Ok in E as (vocab & Hvoc & E). apply bind_Ok in E as ([] & _ & E).
  apply bind_Ok in E as ([occ mx] & Hocc & E). apply bind_Ok in E as ([l T] & Hadd & E). injection E as <-. cbn.
  assert (Hitems : forallb (fun kv => json_ok (snd kv)) vocab = true).
  { unfold require_object_field in Hvoc. destruct (json_find model "vocab") as [jv|] eqn:Ef; [|done]. apply (json_find_ok _ _ _ Hok) in Ef. destruct jv; try done. by injection Hvoc as <-. }
  destruct (check_ids _ _ _ _ _ Hitems Hocc) as (ids & Hids & Hnd & _ & Hall). eapply (add_items occ vocab ids); [done|done| | | |exact Hadd].
  - eapply Forall_impl; [exact Hall|]. by intros x (_ & ? & ?).
  - intros tok id. by rewrite lookup_empty.
  - intros tok id. by rewrite lookup_empty.
Qed.

(** * Added tokens *)
Record added_ok (v : VocabMetadata) (s : added_state) : Prop := {
  ad_vocab : vocab_ok (vm_occupied_ids v) (as_id_to_token s) (vm_token_to_id v);
  ad_token : forall t, t ∈ as_tokens s -> (as_id_to_token s).[at_id t] = Some (at_content t) /\ at_id t ∉ vm_occupied_ids v /\ is_token_id (at_id t);
}.

Lemma resized_get {A} (l : list A) i x j y : l.[j] = Some y -> (resized l i x).[j] = Some y.
Proof. unfold resized. intros E. rewrite vget_app_l; [done|]. apply vget_Some_bounds in E. lia. Qed.

Lemma resized_size {A} (l : list A) i x : 0 <= i -> i < vsize (resized l i x).
Proof. intros Hi. unfold resized, vsize. rewrite length_app, length_replicate. lia. Qed.

Lemma entry_id id item t : parse_added_token_decoder_entry id item = Ok t -> at_id t = id.
Proof. unfold parse_added_token_decoder_entry. intros E. repeat (apply bind_Ok in E as (? & _ & E)). by injection E as <-. Qed.

(** A new id, which is neither in the vocabulary nor among the tokens. *)
Lemma add_token_ok v s t : added_ok v s -> is_token_id (at_id t) -> at_id t ∉ vm_occupied_ids v -> (forall t', t' ∈ as_tokens s -> at_id t' <> at_id t) ->
  added_ok v (mkAddedState ((resized (as_id_to_token s) (at_id t) []).[at_id t <- at_content t]) (as_tokens s ++ [t])).
Proof.
  intros [Hv Ht] Hr Hocc Hnew. split; cbn [as_id_to_token as_tokens].
  - intros tok id Htok. destruct (Hv _ _ Htok) as (Hl & Hin & ?). split; [|done]. rewrite vget_vset_ne by (intros <-; done). by apply resized_get.
  - intros t' [Hin|Hin]%elem_of_app; [|apply list_elem_of_singleton in Hin as ->].
    + destruct (Ht _ Hin) as (Hl & ? & ?). split; [|done]. rewrite vget_vset_ne by (intros E; by apply (Hnew _ Hin)). by apply resized_get.
    + split; [|done]. apply vget_vset_eq. unfold is_token_id in Hr. split; [lia|]. apply resized_size. lia.
Qed.

Lemma existsb_id (tokens : list AddedToken) id : existsb (fun t => at_id t =? id) tokens = false -> forall t, t ∈ tokens -> at_id t <> id.
Proof.
  intros E t Hin Heq. assert (existsb (fun t => at_id t =? id) tokens = true); [|congruence]. apply existsb_exists. exists t. split; [by apply list_elem_of_In|by apply Z.eqb_eq].
Qed.

Lemma load_added_token_ok v s item s' : json_ok item = true -> added_ok v s -> load_added_token v s item = Ok s' -> added_ok v s'.
Proof.
  intros Hok Hs E. unfold load_added_token in E. apply bind_Ok in E as (t & Ht & E). apply bind_Ok in E as ([] & _ & E). apply bind_Ok in E as ([] & Hocc%throw_if_Ok & E).
  apply bind_Ok in E as ([] & Hnew%throw_if_Ok & E). apply bind_Ok in E as ([] & _ & E). injection E as <-. apply bool_decide_eq_false in Hocc.
  unfold parse_added_token in Ht. apply bind_Ok in Ht as ([] & _ & Ht). destruct (json_find item "id") as [value|] eqn:Ef; [|done]. apply bind_Ok in Ht as (id & Hid & Ht).
  apply entry_id in Ht as Eid. apply add_token_ok; [done| |done|].
  - rewrite Eid. eapply parse_token_id_ok; [|exact Hid]. by eapply json_find_ok.
  - by apply existsb_id.
Qed.

Lemma load_added_tokens_ok v root s : json_ok root = true -> vocab_ok (vm_occupied_ids v) (vm_id_to_token v) (vm_token_to_id v) -> load_added_tokens v root = Ok s -> added_ok v s.
Proof.
  intros Hok Hv E. unfold load_added_tokens in E. apply bind_Ok in E as (items & Hi & E). unfold require_array_field in Hi. destruct (json_find root "added_tokens") as [ja|] eqn:Ef; [|done].
  apply (json_find_ok _ _ _ Hok) in Ef. destruct ja; try done. injection Hi as <-. cbn in Ef.
  assert (Hs : added_ok v (mkAddedState (vm_id_to_token v) [])) by (split; [done|]; intros t Ht; by apply elem_of_nil in Ht).
  revert Hs E. generalize (mkAddedState (vm_id_to_token v) []). induction l as [|item l IH]; intros s0 Hs E; [by injection E as <-|].
  cbn [forallb] in Ef. apply andb_true_iff in Ef as [E1 Ef]. cbn [rfor] in E. apply bind_Ok in E as (s1 & Hs1 & E). apply (IH Ef s1); [|done]. by eapply load_added_token_ok.
Qed.

Lemma parse_digits_nonneg key value r : 0 <= value -> parse_digits key value = Some r -> 0 <= r.
Proof.
  revert value. induction key as [|c key IH]; intros value Hv E; [by injection E as <-|]. cbn in E. unfold digit in E. destruct ((48 <=? c) && (c <=? 57)) eqn:Ed; [|done].
  eapply IH; [|exact E]. simp_bool. lia.
Qed.

Lemma decoder_id_ok key id : parse_added_token_decoder_id key = Ok id -> is_token_id id.
Proof.
  unfold parse_added_token_decoder_id. destruct key as [|c key]; [done|]. destruct (parse_digits (c :: key) 0) as [p|] eqn:Ep; [|done]. intros E. apply bind_Ok in E as ([] & Hc%throw_if_Ok & E).
  injection E as <-. apply orb_false_iff in Hc as [Hc%Z.ltb_ge _]. apply parse_digits_nonneg in Ep; [|lia]. unfold is_token_id. lia.
Qed.

Lemma merge_added_token_ok v s ids item s' ids' : added_ok v s -> merge_added_token v (s, ids) item = Ok (s', ids') -> added_ok v s'.
Proof.
  intros Hs E. unfold merge_added_token in E. apply bind_Ok in E as (id & Hid & E). apply bind_Ok in E as ([] & _ & E). apply bind_Ok in E as (t & Ht & E). apply bind_Ok in E as ([] & _ & E).
  destruct (List.find _ (as_tokens s)) as [old|] eqn:Ef; [apply bind_Ok in E as ([] & _ & E); by injection E as <- <-|].
  apply bind_Ok in E as ([] & Hocc%throw_if_Ok & E). apply bind_Ok in E as ([] & _ & E). apply bind_Ok in E as ([] & _ & E). injection E as <- <-. apply bool_decide_eq_false in Hocc.
  apply entry_id in Ht as Eid. subst id. apply add_token_ok; [done|by eapply decoder_id_ok|done|].
  intros t' Hin Heq. apply list_elem_of_In in Hin. pose proof (List.find_none _ _ Ef t' Hin) as Hn. cbn in Hn. by apply Z.eqb_neq in Hn.
Qed.

Lemma merge_added_tokens_ok v root s s' : added_ok v s -> merge_added_tokens_decoder v root s = Ok s' -> added_ok v s'.
Proof.
  intros Hs E. unfold merge_added_tokens_decoder in E. destruct (negb _); [by injection E as <-|]. apply bind_Ok in E as (items & _ & E). apply bind_Ok in E as ([s1 ids1] & Hf & E). injection E as <-.
  assert (Hs1 : added_ok v s1).
  { revert Hs Hf. generalize (@nil Z). generalize s at 1 2. induction items as [|item items IH]; intros s0 ids Hs0 Hf; [by injection Hf as <- _|].
    cbn [rfor] in Hf. apply bind_Ok in Hf as ([s2 ids2] & Hm & Hf). apply (IH s2 ids2); [|done]. by eapply merge_added_token_ok. }
  destruct Hs1 as [Hv Ht]. split; [done|]. cbn [as_tokens as_id_to_token]. intros t Hin. apply Ht. by rewrite merge_sort_Permutation in Hin.
Qed.

(** * Merges *)
Lemma merge_pair_key_value a b : is_symbol a -> is_symbol b -> merge_pair_key a b = a * 2 ^ 32 + b.
Proof.
  unfold is_symbol, I32_MAX. intros Ha Hb. unfold merge_pair_key. rewrite !wrap32_small by (unfold U32_MAX; lia). rewrite Z.shiftl_mul_pow2 by lia.
  rewrite wrap64_small by (unfold U64_MAX; lia). apply lor_field; lia.
Qed.

Lemma merge_pair_key_inj a b c d : is_symbol a -> is_symbol b -> is_symbol c -> is_symbol d -> merge_pair_key a b = merge_pair_key c d -> a = c /\ b = d.
Proof. intros Ha Hb Hc Hd. rewrite !merge_pair_key_value by done. unfold is_symbol, I32_MAX in *. lia. Qed.

Section Merges.
Context (T : gmap (list Z) Z).
Context (HT : forall tok id, T !! tok = Some id -> is_token_id id).

(** The merge of a rank: its two sides and the result are in the vocabulary. *)
Definition rule_at (pairs : list (list Z * list Z)) (rank : nat) (a b : Z) (rule : BpeMergeRule) : Prop :=
  exists lhs rhs result, pairs !! rank = Some (lhs, rhs) /\ T !! lhs = Some a /\ T !! rhs = Some b /\ T !! (lhs ++ rhs) = Some result /\ rule = mkRule (Z.of_nat rank) result.

Definition rules_of (pairs : list (list Z * list Z)) (m : gmap Z BpeMergeRule) : Prop :=
  forall key rule, m !! key = Some rule <-> exists rank a b, rule_at pairs rank a b rule /\ key = merge_pair_key a b.

Lemma rule_at_app pairs p rank a b rule : rule_at (pairs ++ [p]) rank a b rule <->
  rule_at pairs rank a b rule \/ rank = length pairs /\ exists result, T !! fst p = Some a /\ T !! snd p = Some b /\ T !! (fst p ++ snd p) = Some result /\ rule = mkRule (Z.of_nat rank) result.
Proof.
  split.
  - intros (lhs & rhs & result & Hp & H1 & H2 & H3 & H4). apply lookup_app_Some in Hp as [Hp|[Hge Hp]]; [left; by exists lhs, rhs, result|].
    apply list_lookup_singleton_Some in Hp as [Hl ->]. right. split; [lia|]. by exists result.
  - intros [(lhs & rhs & result & Hp & ?)|[-> (result & ?)]].
    + exists lhs, rhs, result. split; [by apply lookup_app_l_Some|done].
    + exists (fst p), (snd p), result. split; [|done]. rewrite lookup_app_r, Nat.sub_diag by lia. by destruct p.
Qed.

Lemma load_merge_ok k rules m pairs rank item rules' rank' : 0 <= k <= 62 -> table_ok k rules m -> Z.of_nat (size m) < cap k -> rules_of pairs m -> rank = Z.of_nat (length pairs) ->
  load_merge T (rules, rank) item = Ok (rules', rank') ->
  exists p m', split_merge item = Ok p /\ rank' = rank + 1 /\ table_ok k rules' m' /\ size m' = S (size m) /\ rules_of (pairs ++ [p]) m'.
Proof.
  intros Hk Ht Hsz Hm Hrank E. unfold load_merge in E. apply bind_Ok in E as ([lhs rhs] & Hp & E).
  destruct (T !! lhs) as [a|] eqn:Ea; [|done]. destruct (T !! rhs) as [b|] eqn:Eb; [|done]. destruct (T !! (lhs ++ rhs)) as [c|] eqn:Ec; [|done].
  apply bind_Ok in E as ([ok rules1] & Hins & E). apply bind_Ok in E as ([] & Hok%throw_if_Ok & E). injection E as <- <-. apply negb_false_iff in Hok. subst ok.
  pose proof (insert_ok k Hk rules m (merge_pair_key a b) (mkRule rank c) Ht Hsz (proj1 (HT _ _ Ec))) as Hi.
  destruct (m !! merge_pair_key a b) as [r|] eqn:Em; [rewrite Hi in Hins; discriminate Hins|]. destruct Hi as (t' & Hi & Ht'). rewrite Hi in Hins. injection Hins as <-.
  exists (lhs, rhs), (<[merge_pair_key a b := mkRule rank c]> m). split; [done|]. split; [done|]. split; [done|]. split; [by rewrite map_size_insert_None|].
  intros key rule. rewrite lookup_insert_Some. setoid_rewrite rule_at_app. split.
  - intros [[<- <-]|[Hne Hin]].
    + exists (length pairs), a, b. split; [right; split; [done|]; exists c; by subst rank|done].
    + apply Hm in Hin as (r & a' & b' & Hr & ->). exists r, a', b'. by split; [left|].
  - intros (r & a' & b' & [Hr|[-> (c' & H1 & H2 & H3 & ->)]] & ->).
    + assert (Hin : m !! merge_pair_key a' b' = Some rule) by (apply Hm; by exists r, a', b'). right. split; [|done]. intros E. rewrite <- E, Em in Hin. done.
    + cbn in H1, H2, H3. rewrite Ea in H1. rewrite Eb in H2. rewrite Ec in H3. injection H1 as <-. injection H2 as <-. injection H3 as <-. left. by subst rank.
Qed.

Lemma load_merges_ok k items rules m pairs rank rules' rank' : 0 <= k <= 62 -> table_ok k rules m -> Z.of_nat (size m + length items) < cap k \/ items = [] /\ Z.of_nat (size m) < cap k ->
  rules_of pairs m -> rank = Z.of_nat (length pairs) -> rfor (load_merge T) (rules, rank) items = Ok (rules', rank') ->
  exists more m', rmap split_merge items = Ok more /\ table_ok k rules' m' /\ Z.of_nat (size m') < cap k /\ rules_of (pairs ++ more) m'.
Proof.
  intros Hk. revert rules m pairs rank. induction items as [|item items IH]; intros rules m pairs rank Ht Hsz Hm Hrank E.
  { injection E as <- _. exists [], m. rewrite app_nil_r. split; [done|]. split; [done|]. split; [|done]. destruct Hsz as [Hsz|[_ Hsz]]; [cbn in Hsz; lia|done]. }
  cbn [rfor] in E. apply bind_Ok in E as ([rules1 rank1] & E1 & E). destruct Hsz as [Hsz|[? _]]; [|done]. cbn [length] in Hsz.
  destruct (load_merge_ok k _ _ _ _ _ _ _ Hk Ht ltac:(lia) Hm Hrank E1) as (p & m1 & Hp & -> & Ht1 & Hs1 & Hm1).
  destruct (IH rules1 m1 (pairs ++ [p]) (rank + 1) Ht1) as (more & m' & Hmore & Ht' & Hs' & Hm'); [left; lia|done|rewrite length_app; cbn; lia|done|].
  exists (p :: more), m'. split; [|by rewrite <- app_assoc in Hm']. cbn [rmap]. rewrite Hp. cbn [mbind result_bind]. by rewrite Hmore.
Qed.

Lemma load_rules_ok model rules merges : require_array_field model "merges" = Ok merges -> vsize merges <= I32_MAX -> load_bpe_merge_rules model T = Ok rules ->
  exists k m pairs, 0 <= k <= 62 /\ rmap split_merge merges = Ok pairs /\ table_ok k rules m /\ Z.of_nat (size m) < cap k /\ rules_of pairs m.
Proof.
  intros Hm Hsz E. unfold load_bpe_merge_rules in E. rewrite Hm in E. cbn [mbind result_bind] in E. apply bind_Ok in E as (r0 & Hr0 & E). apply bind_Ok in E as ([r1 n1] & Hf & E). injection E as <-.
  destruct (reset_ok (vsize merges)) as (k & t & Hk & Hcap & Hreset & Ht); [unfold vsize; lia|unfold I32_MAX in Hsz; lia|]. rewrite Hreset in Hr0. injection Hr0 as <-.
  destruct (load_merges_ok k merges t ∅ [] 0 r1 n1 Hk Ht) as (more & m & Hmore & Ht' & Hs & Hm'); try done.
  - pose proof (cap_pos k ltac:(lia)). rewrite map_size_empty. unfold vsize in Hcap. destruct merges; [right; split; [done|cbn; lia]|left; cbn [length] in *; lia].
  - intros key rule. rewrite lookup_empty. split; [done|]. by intros (? & ? & ? & (? & ? & ? & Hx & _) & _).
  - by exists k, m, more.
Qed.
End Merges.

(** * Bytes *)
Section Decoding.
Context `{Utf8Laws}.

Lemma decode_reads tok bs : decode_byte_level_token tok = Ok bs -> exists rs, reads tok rs /\ Forall2 (fun x b => build_byte_level_decoder (fst x) = Some b) rs bs.
Proof.
  unfold decode_byte_level_token. intros E. apply bind_Ok in E as (cps & Hc & E). apply rmap_Ok in E. destruct (codepoints_reads (length tok) [] tok cps Hc) as (rs & Hr & Em).
  exists rs. split; [done|]. clear Hc Hr. revert rs Em. induction E as [|c b cps bs Hcb _ IH]; intros [|x rs] Em; try done. cbn in Em. injection Em as Ec Em. constructor; [|by apply IH].
  rewrite <- Ec. by destruct (build_byte_level_decoder (cs_value c)); [injection Hcb as ->|].
Qed.

Lemma decoded_unique (rs : list (Z * list Z)) bs bs' : Forall2 (fun x b => build_byte_level_decoder (fst x) = Some b) rs bs ->
  Forall2 (fun x b => build_byte_level_decoder (fst x) = Some b) rs bs' -> bs = bs'.
Proof. intros H1. revert bs'. induction H1 as [|x b rs bs Hb _ IH]; intros bs' H2; inversion H2; subst; [done|]. f_equal; [congruence|by apply IH]. Qed.

(** The two sides of a merge decode to the two halves. *)
Lemma decode_app lhs rhs a b c : decode_byte_level_token lhs = Ok a -> decode_byte_level_token rhs = Ok b -> decode_byte_level_token (lhs ++ rhs) = Ok c -> c = a ++ b.
Proof.
  intros (r1 & Hr1 & D1)%decode_reads (r2 & Hr2 & D2)%decode_reads (r3 & Hr3 & D3)%decode_reads. pose proof (reads_app _ _ _ _ Hr1 Hr2) as Hr.
  rewrite (reads_unique _ _ _ Hr3 Hr) in D3. eapply decoded_unique; [exact D3|]. by apply Forall2_app.
Qed.

(** The alphabet is a bijection, of code points below the surrogates. *)
Definition alphabet_entry_ok (bc : Z * Z) : bool :=
  (0 <=? snd bc) && (snd bc <? 55296) && match build_byte_level_decoder (snd bc) with Some b => b =? fst bc | None => false end.

Lemma alphabet_ok : forallb alphabet_entry_ok byte_alphabet = true /\ map fst byte_alphabet = seqZ 0 256.
Proof. split; vm_compute; reflexivity. Qed.

Lemma alphabet_entry_at (l : list (Z * Z)) b : forallb alphabet_entry_ok l = true -> map fst l = seqZ 0 256 -> is_byte b ->
  exists cp, l.[b] = Some (b, cp) /\ 0 <= cp < 55296 /\ build_byte_level_decoder cp = Some b.
Proof.
  intros Hok Hfst Hb. assert (Hm : map fst l !! Z.to_nat b = Some b) by (rewrite Hfst, lookup_seqZ_lt; unfold is_byte in Hb; [f_equal|]; lia).
  apply list_lookup_fmap_Some in Hm as ([b' cp] & -> & E). cbn [fst]. exists cp. split; [unfold vget; cbn [fst] in *; rewrite (proj2 (Z.leb_le 0 b')) by (unfold is_byte in Hb; cbn in Hb; lia); done|].
  rewrite forallb_forall in Hok. apply list_elem_of_lookup_2, list_elem_of_In in E. specialize (Hok _ E). unfold alphabet_entry_ok in Hok. cbn [fst snd] in *.
  apply andb_true_iff in Hok as [Hr Hd]. destruct (build_byte_level_decoder cp) as [b''|]; [|done]. simp_bool. split; [lia|]. f_equal. lia.
Qed.

Lemma alphabet_at b : is_byte b -> exists cp, byte_alphabet.[b] = Some (b, cp) /\ 0 <= cp < 55296 /\ build_byte_level_decoder cp = Some b.
Proof. destruct alphabet_ok as [Hok Hfst]. by apply alphabet_entry_at. Qed.

Lemma encoded_at (l : list (Z * Z)) enc b cp : rmap (fun bc => codepoint_to_utf8 (snd bc)) l = Ok enc -> l.[b] = Some (b, cp) ->
  enc.[b] = Some (utf8proc_encode_char cp).
Proof.
  intros Henc%rmap_Ok Hcp. unfold vget in *. destruct (0 <=? b); [|done]. destruct (Forall2_lookup_l _ _ _ _ _ Henc Hcp) as (tok & Htok & Hu). rewrite Htok. f_equal.
  unfold codepoint_to_utf8 in Hu. apply bind_Ok in Hu as ([] & _ & Hu). by injection Hu.
Qed.

Lemma encoder_eq : build_byte_level_encoder = rmap (fun bc => codepoint_to_utf8 (snd bc)) byte_alphabet.
Proof. reflexivity. Qed.

Lemma load_byte_ids_eq T : load_byte_token_ids T =
  (byte_encoder ← build_byte_level_encoder; Ok (map (fun token => match T !! token with Some id => id | None => -1 end) byte_encoder)).
Proof. reflexivity. Qed.

(** The id of a byte decodes to that byte. *)
Lemma decode_byte T ids b : load_byte_token_ids T = Ok ids -> is_byte b -> exists id, ids.[b] = Some id /\
  (0 <= id -> exists tok, T !! tok = Some id /\ forall bs, decode_byte_level_token tok = Ok bs -> bs = [b]).
Proof.
  intros E Hb. destruct (alphabet_at b Hb) as (cp & Hcp & Hr & Hd). rewrite load_byte_ids_eq in E. apply bind_Ok in E as (enc & Henc & E). injection E as <-. rewrite encoder_eq in Henc.
  pose proof (encoded_at _ _ _ _ Henc Hcp) as Htok. eexists. split; [by rewrite vget_map, Htok|]. cbn [fmap option_fmap option_map]. intros Hpos. set (tok := utf8proc_encode_char cp) in *.
  destruct (T !! tok) as [i|] eqn:Et; [|cbn in Hpos; lia]. exists tok. split; [done|]. intros bs (rs & Hrs & D)%decode_reads. destruct (law_encode cp Hr) as [Hsz Hi].
  assert (Hone : reads tok [(cp, tok)]) by (rewrite <- (app_nil_r tok) at 1; constructor; [done|by rewrite app_nil_r|constructor]).
  rewrite (reads_unique _ _ _ Hrs Hone) in D. eapply decoded_unique; [exact D|]. by constructor; [|constructor].
Qed.
End Decoding.

(** * The merges of the file *)
Fixpoint merge_rule_from (T : gmap (list Z) Z) (pairs : list (list Z * list Z)) (rank a b : Z) : option BpeMergeRule :=
  match pairs with
  | [] => None
  | (lhs, rhs) :: pairs' =>
      match T !! lhs, T !! rhs, T !! (lhs ++ rhs) with
      | Some a', Some b', Some result => if (a' =? a) && (b' =? b) then Some (mkRule rank result) else merge_rule_from T pairs' (rank + 1) a b
      | _, _, _ => merge_rule_from T pairs' (rank + 1) a b
      end
  end.
(** The rank of a merge is its position in the file. *)
Definition merge_rule (T : gmap (list Z) Z) (pairs : list (list Z * list Z)) : Z -> Z -> option BpeMergeRule := merge_rule_from T pairs 0.

Lemma merge_rule_from_some T pairs before a b rule : merge_rule_from T pairs (Z.of_nat (length before)) a b = Some rule -> exists rank, rule_at T (before ++ pairs) rank a b rule.
Proof.
  revert before. induction pairs as [|[lhs rhs] pairs IH]; intros before E; [done|]. cbn in E.
  assert (Hrest : merge_rule_from T pairs (Z.of_nat (length before) + 1) a b = Some rule -> exists rank, rule_at T (before ++ (lhs, rhs) :: pairs) rank a b rule).
  { intros E'. destruct (IH (before ++ [(lhs, rhs)])) as [rank Hr]; [rewrite length_app; cbn; by rewrite Nat2Z.inj_add|]. exists rank. by rewrite <- app_assoc in Hr. }
  destruct (T !! lhs) as [a'|] eqn:Ea; [|by apply Hrest]. destruct (T !! rhs) as [b'|] eqn:Eb; [|by apply Hrest]. destruct (T !! (lhs ++ rhs)) as [c|] eqn:Ec; [|by apply Hrest].
  destruct (Z.eqb_spec a' a) as [->|]; [|by apply Hrest]. destruct (Z.eqb_spec b' b) as [->|]; [|by apply Hrest]. injection E as <-.
  exists (length before), lhs, rhs, c. rewrite lookup_app_r, Nat.sub_diag by lia. done.
Qed.

Lemma merge_rule_from_none T pairs k a b rank rule : merge_rule_from T pairs k a b = None -> ~ rule_at T pairs rank a b rule.
Proof.
  revert k rank rule. induction pairs as [|[lhs rhs] pairs IH]; intros k rank rule E (l & r & c & Hp & Hl & Hr & Hc & ->); [done|]. cbn in E. destruct rank as [|rank].
  - injection Hp as -> ->. rewrite Hl, Hr, Hc, !Z.eqb_refl in E. done.
  - assert (E' : merge_rule_from T pairs (k + 1) a b = None) by (destruct (T !! lhs), (T !! rhs), (T !! (lhs ++ rhs)); try done; by destruct (_ && _)).
    apply (IH _ rank (mkRule (Z.of_nat rank) c) E'). by exists l, r, c.
Qed.

Lemma rules_lookup T pairs m a b : (forall tok id, T !! tok = Some id -> is_token_id id) -> rules_of T pairs m -> is_symbol a -> is_symbol b -> m !! merge_pair_key a b = merge_rule T pairs a b.
Proof.
  intros HT Hm Ha Hb. destruct (merge_rule T pairs a b) as [rule|] eqn:E.
  - apply (merge_rule_from_some T pairs []) in E as [rank Hr]. apply Hm. by exists rank, a, b.
  - destruct (m !! merge_pair_key a b) as [rule|] eqn:Em; [|done]. exfalso. apply Hm in Em as (rank & a' & b' & Hr & Hkey). pose proof Hr as (lhs & rhs & c & _ & Hl & Hrr & _).
    apply merge_pair_key_inj in Hkey as [-> ->]; try done; try by eapply token_id_symbol, HT. by eapply merge_rule_from_none in E.
Qed.

(** * The constructor *)
Definition spell (tz : Tokenizer) (id : Z) : list Z := default [] (tz_decoded_token_bytes tz).[id].
Definition known (tz : Tokenizer) (id : Z) : Prop := exists special, decoded_token tz id = Ok (spell tz id, special).

Record tokenizer_ok `{Utf8proc} (tz : Tokenizer) (pairs : list (list Z * list Z)) : Prop := {
  tk_ids : forall tok id, tz_vocab_token_to_id tz !! tok = Some id -> is_token_id id;
  tk_find : forall a b, is_symbol a -> is_symbol b ->
    exists r, find (tz_bpe_merge_rules tz) (merge_pair_key a b) = Ok r /\ rule_of <$> r = merge_rule (tz_vocab_token_to_id tz) pairs a b;
  tk_vocab : forall tok id, tz_vocab_token_to_id tz !! tok = Some id -> known tz id /\ decode_byte_level_token tok = Ok (spell tz id);
  tk_bytes : forall b, is_byte b -> exists id, (tz_byte_token_ids tz).[b] = Some id /\ (0 <= id -> is_symbol id /\ known tz id /\ spell tz id = [b]);
  tk_added : forall t, t ∈ tz_added_tokens tz -> known tz (at_id t) /\ spell tz (at_id t) = at_content t;
}.

Lemma flags_get size marked i : 0 <= i < Z.of_nat size -> (flags size marked).[i] = Some (existsb (Z.eqb i) marked).
Proof. intros Hi. unfold flags. rewrite vget_map. replace ((seqZ 0 (Z.of_nat size)).[i]) with (Some i); [done|]. symmetry. unfold vget. rewrite (proj2 (Z.leb_le 0 i)), lookup_seqZ_lt by lia. f_equal. lia. Qed.

Lemma existsb_eqb i l : existsb (Z.eqb i) l = bool_decide (i ∈ l).
Proof.
  destruct (bool_decide_reflect (i ∈ l)) as [Hin|Hout].
  - apply existsb_exists. exists i. split; [by apply list_elem_of_In|apply Z.eqb_refl].
  - destruct (existsb (Z.eqb i) l) eqn:E; [|done]. apply existsb_exists in E as (x & Hx & ->%Z.eqb_eq). by apply list_elem_of_In in Hx.
Qed.

Lemma zip_get (l : list (list Z)) i tok : l.[i] = Some tok -> (zip (seqZ 0 (Z.of_nat (length l))) l).[i] = Some (i, tok).
Proof.
  intros E. pose proof (vget_Some_bounds _ _ _ E) as Hb. unfold vget, vsize in *. rewrite (proj2 (Z.leb_le 0 i)) in * by lia. apply lookup_zip_with_Some. exists i, tok.
  split; [done|]. split; [|done]. rewrite lookup_seqZ_lt by lia. f_equal. lia.
Qed.

Lemma rmap_get {A B} (f : A -> result B) l k i x : rmap f l = Ok k -> l.[i] = Some x -> exists y, k.[i] = Some y /\ f x = Ok y.
Proof. intros E%rmap_Ok Hx. unfold vget in *. destruct (0 <=? i); [|done]. by destruct (Forall2_lookup_l _ _ _ _ _ E Hx) as (y & ? & ?); exists y. Qed.

(** The merges of a tokenizer file. *)
Definition merges_of (parse : list Z -> option Json) (tokenizer_json : list Z) : result (list (list Z * list Z)) :=
  root ← read_json_asset parse tokenizer_json;
  model ← require_object_field root "model";
  merges ← require_array_field (JObject model) "merges";
  rmap split_merge merges.

(** A token whose flags say that it is valid, with its bytes. *)
Lemma known_at `{Utf8proc} tz id bytes special : 0 <= id -> (tz_valid_token_ids tz).[id] = Some true -> (tz_decoded_token_bytes tz).[id] = Some bytes ->
  (tz_special_token_ids tz).[id] = Some special -> known tz id /\ spell tz id = bytes.
Proof.
  intros Hi Hv Hd Hs. assert (Hsp : spell tz id = bytes) by (unfold spell; by rewrite Hd). split; [|done]. exists special. unfold decoded_token. rewrite (proj2 (Z.ltb_ge id 0)) by lia.
  cbn [throw_if mbind result_bind]. by rewrite Hv, Hd, Hs, Hsp.
Qed.

Section Flags.
Context `{Utf8Laws} (v : VocabMetadata) (s : added_state) (Ha : added_ok v s) (decoded : list (list Z)) (marks : bool) (rules : BpeMergeTable) (bids stop : list Z).
Let size := length (as_id_to_token s).
Let added := flags size (map at_id (as_tokens s)).
Let valid := flags size (elements (vm_occupied_ids v) ++ map at_id (as_tokens s)).
Let special := flags size (map at_id (List.filter at_special (as_tokens s))).
Context (Hdec : rmap (fun '(index, token) => decode_vocab_token valid added index token) (zip (seqZ 0 (Z.of_nat size)) (as_id_to_token s)) = Ok decoded).
Let tz := mkTokenizer decoded marks valid special (vm_token_to_id v) rules bids (as_tokens s) stop.

Lemma token_decoded id tok : (as_id_to_token s).[id] = Some tok -> exists bytes, decoded.[id] = Some bytes /\ decode_vocab_token valid added id tok = Ok bytes /\ 0 <= id < Z.of_nat size.
Proof.
  intros E. destruct (rmap_get _ _ _ id (id, tok) Hdec (zip_get _ _ _ E)) as (bytes & Hb & Hd). exists bytes. split; [done|]. split; [done|]. by apply vget_Some_bounds in E.
Qed.

Lemma vocab_known tok id : vm_token_to_id v !! tok = Some id -> known tz id /\ decode_byte_level_token tok = Ok (spell tz id).
Proof.
  intros Ht. destruct (ad_vocab _ _ Ha _ _ Ht) as (Hl & Hocc & Hr). destruct (token_decoded _ _ Hl) as (bytes & Hb & Hd & Hi).
  assert (Hvalid : valid.[id] = Some true). { unfold valid. rewrite flags_get by done. rewrite existsb_eqb, bool_decide_true; [done|]. apply elem_of_app. left. by apply elem_of_elements. }
  assert (Hadded : added.[id] = Some false).
  { unfold added. rewrite flags_get by done. rewrite existsb_eqb, bool_decide_false; [done|]. intros (t & -> & Hin)%list_elem_of_fmap. destruct (ad_token _ _ Ha t Hin) as (_ & Hno & _). done. }
  unfold decode_vocab_token in Hd. rewrite Hvalid, Hadded in Hd.
  destruct (known_at tz id bytes (existsb (Z.eqb id) (map at_id (List.filter at_special (as_tokens s))))) as [Hk Hsp]; [lia|done|done|by apply flags_get|]. by rewrite Hsp.
Qed.

Lemma added_known t : t ∈ as_tokens s -> known tz (at_id t) /\ spell tz (at_id t) = at_content t.
Proof.
  intros Hin. destruct (ad_token _ _ Ha t Hin) as (Hl & Hno & Hr). destruct (token_decoded _ _ Hl) as (bytes & Hb & Hd & Hi).
  assert (Hid : at_id t ∈ map at_id (as_tokens s)) by (apply list_elem_of_fmap; by exists t).
  assert (Hvalid : valid.[at_id t] = Some true). { unfold valid. rewrite flags_get by done. rewrite existsb_eqb, bool_decide_true; [done|]. apply elem_of_app. by right. }
  assert (Hadded : added.[at_id t] = Some true). { unfold added. rewrite flags_get by done. by rewrite existsb_eqb, bool_decide_true. }
  unfold decode_vocab_token in Hd. rewrite Hvalid, Hadded in Hd. injection Hd as <-.
  apply (known_at tz (at_id t) (at_content t) (existsb (Z.eqb (at_id t)) (map at_id (List.filter at_special (as_tokens s))))); [lia|done|done|by apply flags_get].
Qed.
End Flags.

Section Constructor.
Context `{Utf8Laws} (parse : list Z -> option Json).
Context (Hparse : forall text v, parse text = Some v -> json_ok v = true).

Lemma make_tokenizer_ok a b c tz pairs : make_tokenizer parse a b c = Ok tz -> merges_of parse a = Ok pairs -> vsize pairs <= I32_MAX -> tokenizer_ok tz pairs.
Proof.
  intros E Hpairs Hsz. unfold make_tokenizer in E. apply bind_Ok in E as ([] & _ & E). apply bind_Ok in E as (root & Hroot & E). apply bind_Ok in E as (marks & _ & E).
  apply bind_Ok in E as (config & _ & E). apply bind_Ok in E as (model & Hmodel & E). apply bind_Ok in E as (v & Hv & E). apply bind_Ok in E as (s0 & Hs0 & E).
  apply bind_Ok in E as (s & Hs & E). apply bind_Ok in E as (decoded & Hdec & E). apply bind_Ok in E as (rules & Hrules & E). apply bind_Ok in E as (bids & Hbids & E).
  apply bind_Ok in E as (gen & _ & E). apply bind_Ok in E as (stop & _ & E). injection E as <-.
  unfold merges_of in Hpairs. rewrite Hroot in Hpairs. cbn [mbind result_bind] in Hpairs. rewrite Hmodel in Hpairs. cbn [mbind result_bind] in Hpairs.
  apply bind_Ok in Hpairs as (merges & Hmerges & Hpairs).
  assert (Hroot_ok : json_ok root = true) by (unfold read_json_asset in Hroot; destruct (parse a) as [r|] eqn:Ep; [injection Hroot as <-; by eapply Hparse|done]).
  assert (Hmodel_ok : json_ok (JObject model) = true).
  { unfold require_object_field in Hmodel. destruct (json_find root "model") as [jm|] eqn:Ef; [|done]. apply (json_find_ok _ _ _ Hroot_ok) in Ef. destruct jm; try done. by injection Hmodel as <-. }
  pose proof (load_vocab_ok _ _ Hmodel_ok Hv) as Hvo. pose proof (load_added_tokens_ok _ _ _ Hroot_ok Hvo Hs0) as Ha0. pose proof (merge_added_tokens_ok _ _ _ _ Ha0 Hs) as Ha.
  assert (Hids : forall tok id, vm_token_to_id v !! tok = Some id -> is_token_id id) by (intros tok id Ht; by destruct (Hvo _ _ Ht) as (_ & _ & ?)).
  assert (Hmsz : vsize merges <= I32_MAX) by (apply rmap_Ok, Forall2_length in Hpairs; unfold vsize in *; lia).
  destruct (load_rules_ok _ Hids _ _ _ Hmerges Hmsz Hrules) as (k & m & pairs' & Hk & Hp' & Ht & Hms & Hm). rewrite Hpairs in Hp'. injection Hp' as <-.
  pose proof (vocab_known v s Ha decoded marks rules bids stop Hdec) as Hvk. split; cbn [tz_vocab_token_to_id tz_bpe_merge_rules tz_byte_token_ids tz_added_tokens].
  - exact Hids.
  - intros x y Hx Hy. rewrite <- (rules_lookup _ _ _ _ _ Hids Hm Hx Hy). by apply (find_ok k Hk rules m).
  - exact Hvk.
  - intros x Hx. destruct (decode_byte _ _ _ Hbids Hx) as (id & Hid & Hd). exists id. split; [done|]. intros Hpos. destruct (Hd Hpos) as (tok & Htok & Hbs).
    destruct (Hvk _ _ Htok) as [Hkn Hdt]. split; [by eapply token_id_symbol, Hids|]. split; [done|]. by apply Hbs.
  - exact (added_known v s Ha decoded marks rules bids stop Hdec).
Qed.
End Constructor.
