(* ===== verification/TokenDemo.v ===== *)
(** A concrete UTF-8 library with the promises of [Utf8Laws], and a concrete tokenizer file: the inputs of the witnesses. *)
From stdpp Require Import strings gmap sorting.
From S2P Require Import Prelude StorageLayouts ArtifactReader Unicode Tokenizer TokenizerLoad TokenTable TokenMerges TokenWords TokenEncode TokenText TokenLoaded.

Definition continuation (b : Z) : bool := (128 <=? b) && (b <=? 191).

(** UTF-8 up to three bytes, without overlong forms and surrogates. *)
Definition demo_iterate (text : list Z) : Z * Z :=
  match text with
  | [] => (0, -1)
  | a :: rest =>
      if (0 <=? a) && (a <? 128) then (1, a) else
      match rest with
      | b :: rest' =>
          if (194 <=? a) && (a <=? 223) && continuation b then (2, (a - 192) * 64 + (b - 128)) else
          match rest' with
          | c :: _ =>
              let cp := (a - 224) * 4096 + (b - 128) * 64 + (c - 128) in
              if (224 <=? a) && (a <=? 239) && continuation b && continuation c && (2048 <=? cp) && negb ((55296 <=? cp) && (cp <=? 57343)) then (3, cp) else (-3, -1)
          | [] => (-3, -1)
          end
      | [] => (-3, -1)
      end
  end.

Definition demo_encode (cp : Z) : list Z :=
  if cp <? 128 then [cp] else
  if cp <? 2048 then [192 + cp / 64; 128 + cp mod 64] else [224 + cp / 4096; 128 + (cp / 64) mod 64; 128 + cp mod 64].

Definition demo_category (cp : Z) : category :=
  if (65 <=? cp) && (cp <=? 90) then UC_LU else if (97 <=? cp) && (cp <=? 122) then UC_LL else if (48 <=? cp) && (cp <=? 57) then UC_ND else UC_OTHER.

(** Nothing composes: valid text is its own normal form. *)
Definition demo_reader : Utf8proc := Build_Utf8proc demo_iterate (fun _ => None) demo_encode demo_category.
Definition demo_map (text : list Z) : option (list Z) :=
  if forallb (fun b => (0 <=? b) && (b <? 256)) text then match @utf8_codepoints demo_reader text with Ok _ => Some text | Err _ => None end else None.

#[export] Instance demo_utf8 : Utf8proc := Build_Utf8proc demo_iterate demo_map demo_encode demo_category.

Lemma demo_bounds text n cp : demo_iterate text = (n, cp) -> n <= vsize text.
Proof.
  intros E. destruct text as [|a [|b [|c text]]]; rewrite ?vsize_cons; unfold vsize; cbn [demo_iterate] in E; repeat case_match; injection E as <- _; cbn [length]; lia.
Qed.

Lemma demo_prefix text more n cp : demo_iterate text = (n, cp) -> 0 < n -> demo_iterate (text ++ more) = (n, cp).
Proof.
  intros E Hn. destruct text as [|a [|b [|c text]]]; cbn [demo_iterate app] in E |- *; repeat case_match; try done; injection E as <- <-; try lia; done.
Qed.

Lemma demo_high b text n cp : 128 <= b -> demo_iterate (b :: text) = (n, cp) -> 0 < n -> 128 <= cp.
Proof.
  intros Hb E Hn. cbn [demo_iterate] in E. rewrite (proj2 (Z.ltb_ge b 128) Hb), andb_false_r in E. unfold continuation in E.
  destruct text as [|c [|d text]]; repeat case_match; injection E as <- <-; simp_bool; lia.
Qed.

Lemma demo_encode_ok cp : 0 <= cp < 55296 -> 0 < vsize (demo_encode cp) /\ demo_iterate (demo_encode cp) = (vsize (demo_encode cp), cp).
Proof.
  intros Hcp. unfold demo_encode. destruct (Z.ltb_spec cp 128) as [H1|H1].
  { split; [done|]. cbn. rewrite (proj2 (Z.leb_le 0 cp)), (proj2 (Z.ltb_lt cp 128)) by lia. done. }
  pose proof (Z.mod_pos_bound cp 64 ltac:(lia)) as Hm. pose proof (Z.div_mod cp 64 ltac:(lia)) as Hd. destruct (Z.ltb_spec cp 2048) as [H2|H2].
  { split; [done|]. cbn [demo_iterate]. rewrite (proj2 (Z.ltb_ge (192 + cp / 64) 128)), andb_false_r by lia. unfold continuation.
    rewrite !(proj2 (Z.leb_le _ _)) by lia. cbn [andb]. f_equal. lia. }
  pose proof (Z.mod_pos_bound (cp / 64) 64 ltac:(lia)) as Hm'. pose proof (Z.div_mod (cp / 64) 64 ltac:(lia)) as Hd'. rewrite Z.div_div in Hd' by lia. change (64 * 64) with 4096 in Hd'.
  split; [done|]. cbn [demo_iterate]. set (q := cp / 4096) in *. set (r := (cp / 64) mod 64) in *. set (s := cp mod 64) in *.
  rewrite (proj2 (Z.ltb_ge (224 + q) 128)), andb_false_r by lia. rewrite (proj2 (Z.leb_gt (224 + q) 223)), andb_false_r by lia. cbn [andb].
  replace ((224 + q - 224) * 4096 + (128 + r - 128) * 64 + (128 + s - 128)) with cp by lia. unfold continuation. rewrite (proj2 (Z.leb_gt 55296 cp)) by lia.
  rewrite !(proj2 (Z.leb_le _ _)) by lia. done.
Qed.

#[export] Instance demo_utf8_laws : Utf8Laws.
Proof.
  split.
  - exact demo_bounds.
  - exact demo_prefix.
  - intros b text Hb. cbn. by rewrite (proj2 (Z.leb_le 0 b)), (proj2 (Z.ltb_lt b 128)) by lia.
  - exact demo_high.
  - exact demo_encode_ok.
  - intros text normalized E. unfold utf8proc_map, demo_utf8, demo_map in E. destruct (forallb _ text) eqn:Eb; [|done]. destruct (utf8_codepoints text) as [cps|] eqn:Ec; [|done]. injection E as <-.
    split; [|by exists cps]. apply Forall_forall. intros b Hb%list_elem_of_In. rewrite forallb_forall in Eb. specialize (Eb b Hb). simp_bool. lia.
  - intros text normalized E. unfold utf8proc_map, demo_utf8, demo_map in E. destruct (forallb _ text); [|done]. destruct (utf8_codepoints text); [|done]. injection E as <-. unfold vsize. lia.
Qed.

(** * A tokenizer file *)
Definition string_of (bytes : list Z) : string := String.string_of_list_ascii (map (fun b => Ascii.ascii_of_N (Z.to_N b)) bytes).

(** A token for every byte, two longer ones, and one added token. *)
Definition token_vocab : list (string * Json) :=
  map (fun bc => (string_of (demo_encode (snd bc)), JUnsigned (fst bc))) byte_alphabet ++ [("th", JUnsigned 256); ("the", JUnsigned 257)]%string.

Definition token_file : Json :=
  JObject [("model", JObject [("type", JString "BPE"); ("vocab", JObject token_vocab); ("merges", JArray [JString "t h"; JArray [JString "th"; JString "e"]])]);
           ("added_tokens", JArray [JObject [("id", JUnsigned 258); ("content", JString "<end>"); ("single_word", JBool false); ("lstrip", JBool false); ("rstrip", JBool false);
                                             ("normalized", JBool false); ("special", JBool true)]])]%string.
Definition config_file : Json := JObject [].
Definition generation_file : Json := JObject [("eos_token_id", JUnsigned 258)]%string.

Definition token_parse (text : list Z) : option Json :=
  match text with [1] => Some token_file | [2] => Some config_file | [3] => Some generation_file | _ => None end.

Lemma token_parse_ok text v : token_parse text = Some v -> json_ok v = true.
Proof.
  intros E. assert (Hv : v = token_file \/ v = config_file \/ v = generation_file).
  { unfold token_parse in E. repeat case_match; try done; injection E as <-; auto. }
  destruct Hv as [->|[->| ->]]; vm_compute; reflexivity.
Qed.

Definition token_pairs : list (list Z * list Z) := [(bytes_of "t", bytes_of "h"); (bytes_of "th", bytes_of "e")].

Definition demo_tokenizer : Tokenizer :=
  match make_tokenizer token_parse [1] [2] [3] with Ok tz => tz | Err _ => mkTokenizer [] false [] [] ∅ (mkTable [] 0) [] [] [] end.

Lemma demo_loads : make_tokenizer token_parse [1] [2] [3] = Ok demo_tokenizer /\ merges_of token_parse [1] = Ok token_pairs.
Proof. split; vm_compute; reflexivity. Qed.

(** [the cat<end>] *)
Definition demo_text : list Z := bytes_of "the cat<end>".
Definition demo_options : EncodeOptions := mkEncodeOptions true 100.
Definition demo_ids : list Z := [257; 32; 99; 97; 116; 258].
