(* ===== verification/TokenizerClaims.v ===== *)
(** The tokenizer as a whole: the merge table is a map, the ids of a text are its byte-pair encoding, a limit gives the first ids, boundaries do not
    change ids, and decoding the ids of a text gives the text. *)
From stdpp Require Import strings gmap sorting.
From S2P Require Import Prelude StorageLayouts ArtifactReader Unicode Tokenizer TokenizerLoad TokenTable TokenMerges TokenWords TokenEncode TokenText TokenLoaded TokenDemo.

Definition tokenizer_rule (tz : Tokenizer) (pairs : list (list Z * list Z)) : Z -> Z -> option BpeMergeRule := merge_rule (tz_vocab_token_to_id tz) pairs.

(** A vocabulary with a token for every byte. *)
Definition all_bytes (tz : Tokenizer) : bool := forallb (fun id => 0 <=? id) (tz_byte_token_ids tz).

(** What an ordinary piece spells is its normal form. *)
Definition normal_form `{Utf8proc} (p : piece) (n : list Z) : Prop :=
  match p with Ordinary raw => normalize_nfc raw = Ok n | Added token => n = at_content token end.

Definition plain : DecodeOptions := mkDecodeOptions false [].

Section Loaded.
Context `{Utf8Laws} (tz : Tokenizer) (pairs : list (list Z * list Z)) (Hok : tokenizer_ok tz pairs) (Hall : all_bytes tz = true).
Let look := tokenizer_rule tz pairs.

Lemma loaded_rule a b r : look a b = Some r -> is_symbol (br_result r) /\ known tz (br_result r) /\ spell tz (br_result r) = spell tz a ++ spell tz b.
Proof.
  intros E. apply (merge_rule_from_some _ pairs []) in E as (rank & lhs & rhs & c & _ & Ha & Hb & Hc & ->). cbn [br_result].
  destruct (tk_vocab _ _ Hok _ _ Ha) as [_ Da], (tk_vocab _ _ Hok _ _ Hb) as [_ Db], (tk_vocab _ _ Hok _ _ Hc) as [Hk Dc].
  split; [by eapply token_id_symbol, (tk_ids _ _ Hok)|]. split; [done|]. by apply (decode_app lhs rhs).
Qed.

Lemma loaded_byte b : is_byte b -> exists id, (tz_byte_token_ids tz).[b] = Some id /\ is_symbol id /\ known tz id /\ spell tz id = [b].
Proof.
  intros Hb. destruct (tk_bytes _ _ Hok b Hb) as (id & Hid & Hs). exists id. split; [done|]. apply Hs. unfold all_bytes in Hall. rewrite forallb_forall in Hall.
  apply vget_elem, list_elem_of_In in Hid. apply Hall in Hid. by apply Z.leb_le.
Qed.

Lemma loaded_symbol b : is_byte b -> exists s, (tz_byte_token_ids tz).[b] = Some s /\ is_symbol s.
Proof. intros Hb. destruct (loaded_byte b Hb) as (id & ? & ? & _). by exists id. Qed.

(** ** The tokens of a piece spell it *)
Lemma piece_spelled p l : Forall is_byte (raw_bytes p) -> (forall t, p = Added t -> t ∈ tz_added_tokens tz) -> piece_tokens tz look p l ->
  exists n, normal_form p n /\ spelled (spell tz) l = n /\ Forall (known tz) l.
Proof.
  intros Hb Hadd Hp. destruct Hp as [raw normalized rs Hn Hr|t].
  - destruct (normalized_reads raw normalized Hb Hn) as [Hb' _]. exists normalized. split; [done|]. assert (Hbytes : bytes rs = normalized) by (symmetry; by apply reads_concat). split.
    + unfold tokens_of. rewrite text_tokens_spelled; [done| | |by rewrite Hbytes].
      * intros a b r Er. by apply loaded_rule.
      * intros b Hb0. destruct (loaded_byte b Hb0) as (id & Hid & _ & _ & Hs). unfold byte_symbol. by rewrite Hid.
    + apply text_tokens_all; [| |by rewrite Hbytes].
      * intros b Hb0. destruct (loaded_byte b Hb0) as (id & Hid & _ & Hk & _). unfold byte_symbol. by rewrite Hid.
      * intros a b r Er. by apply (loaded_rule a b r).
  - destruct (tk_added _ _ Hok t (Hadd t eq_refl)) as [Hk Hs]. exists (at_content t). split; [done|]. split; [unfold spelled; cbn; by rewrite app_nil_r|by repeat constructor].
Qed.

Lemma pieces_spelled ps ls : Forall is_byte (concat (map raw_bytes ps)) -> (forall t, Added t ∈ ps -> t ∈ tz_added_tokens tz) -> Forall2 (piece_tokens tz look) ps ls ->
  exists ns, Forall2 normal_form ps ns /\ spelled (spell tz) (concat ls) = concat ns /\ Forall (known tz) (concat ls).
Proof.
  intros Hb Hadd Hls. revert Hb Hadd. induction Hls as [|p l ps ls Hp _ IH]; intros Hb Hadd; [exists []; repeat constructor|]. cbn [map concat] in *. apply Forall_app in Hb as [Hb1 Hb2].
  destruct (piece_spelled p l Hb1) as (n & Hn & Hs & Hk); [intros t ->; apply Hadd; set_solver|done|]. destruct (IH Hb2) as (ns & Hns & Hss & Hks); [set_solver|].
  exists (n :: ns). split; [by constructor|]. rewrite spelled_app, Hs, Hss. split; [done|]. by apply Forall_app.
Qed.

(** Known ids decode to what they spell. *)
Lemma decode_known ids : Forall (known tz) ids -> decode tz ids plain = (_ ← utf8_codepoints (spelled (spell tz) ids); Ok (spelled (spell tz) ids)).
Proof.
  intros Hk. unfold decode, plain. cbn [do_stop_token_ids do_skip_special_tokens]. assert (Hids : match last ids with Some id => if is_stop_token_id [] id then removelast ids else ids | None => ids end = ids)
    by (by destruct (last ids)). rewrite Hids.
  assert (Hm : rmap (fun id => decode_token_bytes tz id false) ids = Ok (map (spell tz) ids)).
  { apply rmap_Ok. clear Hids. induction Hk as [|id ids [sp Hid] _ IH]; [constructor|]. cbn. constructor; [|done]. unfold decode_token_bytes. by rewrite Hid. }
  rewrite Hm. done.
Qed.
End Loaded.

(** ** Pieces of ASCII text *)
Lemma ascii_byte b : is_ascii b -> is_byte b.
Proof. unfold is_ascii, is_byte. lia. Qed.

Lemma pieces_added tz parse_added text t : Added t ∈ pieces tz parse_added text [] -> t ∈ tz_added_tokens tz.
Proof. unfold pieces. destruct parse_added; [by apply pieces_from_added|]. intros Hin. set_solver. Qed.

Lemma ascii_normal `{Utf8Laws} ps ns : Forall is_ascii (concat (map raw_bytes ps)) -> Forall2 normal_form ps ns -> concat ns = concat (map raw_bytes ps).
Proof.
  intros Ha Hn. revert Ha. induction Hn as [|p n ps ns Hp _ IH]; intros Ha; [done|]. cbn [map concat] in *. apply Forall_app in Ha as [Ha1 Ha2]. rewrite (IH Ha2). f_equal.
  destruct p as [raw|t]; cbn in *; [|done]. rewrite (normalize_ascii raw Ha1) in Hp. by injection Hp.
Qed.

Lemma ascii_tokens `{Utf8Laws} tz look ps : Forall is_ascii (concat (map raw_bytes ps)) -> exists ls, Forall2 (piece_tokens tz look) ps ls.
Proof.
  induction ps as [|p ps IH]; intros Ha; [by exists []|]. cbn [map concat] in Ha. apply Forall_app in Ha as [Ha1 Ha2]. destruct (IH Ha2) as [ls Hls]. destruct p as [raw|t]; cbn in Ha1.
  - eexists (_ :: ls). constructor; [|done]. eapply ordinary_tokens; [by apply normalize_ascii|by apply reads_ascii].
  - exists ([at_id t] :: ls). constructor; [constructor|done].
Qed.

(** * The merge table *)

(** A map that keeps the first rule of a key. *)
Definition add_rule (m : gmap Z BpeMergeRule) (kr : Z * BpeMergeRule) : gmap Z BpeMergeRule :=
  match m !! fst kr with Some _ => m | None => <[fst kr := snd kr]> m end.
Definition insert_rule (t : BpeMergeTable) (kr : Z * BpeMergeRule) : result BpeMergeTable :=
  '(_, t') ← insert t (fst kr) (snd kr);
  Ok t'.

Lemma insert_rules_ok k t m items : 0 <= k <= 62 -> table_ok k t m -> Z.of_nat (size m) + vsize items < cap k -> Forall (fun kr => 0 <= br_result (snd kr)) items ->
  exists t', rfor insert_rule t items = Ok t' /\ table_ok k t' (foldl add_rule m items) /\ Z.of_nat (size (foldl add_rule m items)) < cap k.
Proof.
  intros Hk. revert t m. induction items as [|[key rule] items IH]; intros t m Ht Hsz Hpos; [exists t; change (vsize []) with 0 in Hsz; split; [done|split; [done|cbn; lia]]|].
  rewrite vsize_cons in Hsz. apply Forall_cons in Hpos as [Hr Hpos]. assert (0 <= vsize items) by (unfold vsize; lia).
  pose proof (insert_ok k Hk t m key rule Ht ltac:(lia) Hr) as Hi. cbn [rfor foldl].
  assert (Hstep : exists t', insert_rule t (key, rule) = Ok t' /\ table_ok k t' (add_rule m (key, rule)) /\ Z.of_nat (size (add_rule m (key, rule))) <= Z.of_nat (size m) + 1).
  { unfold insert_rule, add_rule. cbn [fst snd]. destruct (m !! key) as [r|] eqn:Em; [exists t; rewrite Hi; split; [done|split; [done|lia]]|].
    destruct Hi as (t' & Hi & Ht'). exists t'. rewrite Hi. split; [done|]. split; [done|]. rewrite map_size_insert_None by done. lia. }
  destruct Hstep as (t' & E & Ht' & Hs'). rewrite E. cbn [mbind result_bind]. apply IH; try done; lia.
Qed.

(** C13. The open-addressed merge table refines a map: in a table made for a number of rules, that many insertions end, and looking up any key ends with the rule that
    was inserted first under it, or with none. *)
Theorem merge_table_is_a_map n items : 0 <= n <= 2 ^ 61 -> vsize items <= n -> Forall (fun kr => 0 <= br_result (snd kr)) items ->
  exists t0 t, Tokenizer.reset n = Ok t0 /\ rfor insert_rule t0 items = Ok t /\
    forall key, exists r, find t key = Ok r /\ rule_of <$> r = foldl add_rule ∅ items !! key.
Proof.
  intros Hn Hsz Hpos. destruct (reset_ok n) as (k & t0 & Hk & Hcap & Hreset & Ht0); [lia|lia|]. pose proof (cap_pos k ltac:(lia)).
  destruct (insert_rules_ok k t0 ∅ items Hk Ht0) as (t & Ht & Hok & Hs); [rewrite map_size_empty; unfold vsize in *; destruct (decide (n = 0)); lia|done|].
  exists t0, t. split; [done|]. split; [done|]. intros key. by apply (find_ok k Hk t).
Qed.

(** * Encoding and decoding *)

(** C4. The ids of a text are its byte-pair encoding: the text is cut at the added tokens (at every byte the first of the table whose text stands there), every ordinary piece is normalized and split by the pattern, and in every word the
    leftmost pair of lowest rank among the merges of the file is merged until there is none; of these ids as many as the limit allows are given. *)
Theorem encode_is_byte_pair_encoding `{Utf8Laws} parse a b c tz pairs text options ls : (forall text v, parse text = Some v -> json_ok v = true) ->
  make_tokenizer parse a b c = Ok tz -> merges_of parse a = Ok pairs -> vsize pairs <= I32_MAX -> all_bytes tz = true ->
  Forall is_byte text -> 3 * vsize text <= I32_MAX -> 0 <= eo_max_tokens options ->
  Forall2 (piece_tokens tz (tokenizer_rule tz pairs)) (pieces tz (eo_parse_added_tokens options) text []) ls ->
  encode tz text options = Ok (take (Z.to_nat (eo_max_tokens options)) (concat ls)).
Proof.
  intros Hparse Htz Hpairs Hsz Hall Hb Hlen Hmax Hls. pose proof (make_tokenizer_ok parse Hparse a b c tz pairs Htz Hpairs Hsz) as Hok.
  pose proof (encode_ids tz (tokenizer_rule tz pairs) (tk_find _ _ Hok) (fun x y r E => proj1 (loaded_rule tz pairs Hok x y r E)) (loaded_symbol tz pairs Hok Hall) text [] options [] ls Hb Hlen Hmax Hls) as He.
  unfold encode. destruct (encode_with_boundaries tz text [] options []) as [enc|]; [cbn; by rewrite He|by destruct He].
Qed.

(** C30. Decoding the ids of a text, below the limit, gives the text: its added tokens as they are and its ordinary pieces normalized. ASCII text is encoded without error and
    given back exactly. *)
Theorem decode_encode `{Utf8Laws} parse a b c tz pairs text options : (forall text v, parse text = Some v -> json_ok v = true) ->
  make_tokenizer parse a b c = Ok tz -> merges_of parse a = Ok pairs -> vsize pairs <= I32_MAX -> all_bytes tz = true ->
  Forall is_byte text -> 3 * vsize text <= I32_MAX -> 0 <= eo_max_tokens options ->
  (forall ids, encode tz text options = Ok ids -> vsize ids < eo_max_tokens options -> exists ns, Forall2 normal_form (pieces tz (eo_parse_added_tokens options) text []) ns /\
    decode tz ids plain = (_ ← utf8_codepoints (concat ns); Ok (concat ns)) /\ (Forall is_ascii text -> decode tz ids plain = Ok text)) /\
  (Forall is_ascii text -> exists ids, encode tz text options = Ok ids).
Proof.
  intros Hparse Htz Hpairs Hsz Hall Hb Hlen Hmax. pose proof (make_tokenizer_ok parse Hparse a b c tz pairs Htz Hpairs Hsz) as Hok. set (look := tokenizer_rule tz pairs).
  set (ps := pieces tz (eo_parse_added_tokens options) text []). pose proof (pieces_concat tz (eo_parse_added_tokens options) text []) as Hcat. fold ps in Hcat.
  assert (Hrule : forall x y r, look x y = Some r -> is_symbol (br_result r)) by (intros x y r E; by apply (loaded_rule tz pairs Hok x y r)).
  assert (Henc : forall ls, Forall2 (piece_tokens tz look) ps ls -> encode tz text options = Ok (take (Z.to_nat (eo_max_tokens options)) (concat ls))).
  { intros ls Hls. pose proof (encode_ids tz look (tk_find _ _ Hok) Hrule (loaded_symbol tz pairs Hok Hall) text [] options [] ls Hb Hlen Hmax Hls) as He.
    unfold encode. destruct (encode_with_boundaries tz text [] options []) as [enc|]; [cbn; by rewrite He|by destruct He]. }
  split.
  - intros ids E Hlt. unfold encode in E. apply bind_Ok in E as (enc & He & E). injection E as <-.
    destruct (encode_complete tz look (tk_find _ _ Hok) Hrule (loaded_symbol tz pairs Hok Hall) text [] options [] enc Hb Hlen Hmax He Hlt) as [ls Hls]. fold ps in Hls.
    pose proof (Henc ls Hls) as E. unfold encode in E. rewrite He in E. cbn in E. injection E as E. assert (Hids : en_input_ids enc = concat ls).
    { rewrite E in Hlt |- *. unfold vsize in Hlt. rewrite length_take in Hlt. apply take_ge. lia. }
    destruct (pieces_spelled tz pairs Hok Hall ps ls) as (ns & Hns & Hs & Hk); [by rewrite Hcat|apply pieces_added|done|]. exists ns. split; [done|].
    rewrite Hids, (decode_known tz _ Hk), Hs. split; [done|]. intros Ha. rewrite (ascii_normal ps ns), Hcat by (by rewrite ?Hcat).
    destruct (proj2 (codepoints_iff text)) as [cps ->]; [|done]. eexists. by apply reads_ascii.
  - intros Ha. destruct (ascii_tokens tz look ps) as [ls Hls]; [by rewrite Hcat|]. eexists. by apply Henc.
Qed.

(** C21. A limit gives the first ids, and boundaries do not change ids: whatever the limit and the boundaries, an encoding has the first ids of the encoding without them; and only a
    boundary can make it fail. *)
Theorem limited_encoding_is_prefix `{Utf8Laws} parse a b c tz pairs text parse_added big all : (forall text v, parse text = Some v -> json_ok v = true) ->
  make_tokenizer parse a b c = Ok tz -> merges_of parse a = Ok pairs -> vsize pairs <= I32_MAX -> all_bytes tz = true ->
  Forall is_byte text -> 3 * vsize text <= I32_MAX -> encode tz text (mkEncodeOptions parse_added big) = Ok all -> vsize all < big ->
  forall max bs, 0 <= max ->
  match encode_with_boundaries tz text bs (mkEncodeOptions parse_added max) [] with
  | Ok encoded => en_input_ids encoded = take (Z.to_nat max) all
  | Err _ => bs <> []
  end.
Proof.
  intros Hparse Htz Hpairs Hsz Hall Hb Hlen E Hbig max bs Hmax. pose proof (make_tokenizer_ok parse Hparse a b c tz pairs Htz Hpairs Hsz) as Hok. set (look := tokenizer_rule tz pairs).
  assert (Hrule : forall x y r, look x y = Some r -> is_symbol (br_result r)) by (intros x y r Er; by apply (loaded_rule tz pairs Hok x y r)).
  unfold encode in E. apply bind_Ok in E as (enc & He & E). injection E as <-. assert (Hbig0 : 0 <= big) by (unfold vsize in Hbig; lia).
  destruct (encode_complete tz look (tk_find _ _ Hok) Hrule (loaded_symbol tz pairs Hok Hall) text [] (mkEncodeOptions parse_added big) [] enc Hb Hlen Hbig0 He Hbig) as [ls Hls].
  assert (Hids : forall n bs', 0 <= n -> match encode_with_boundaries tz text bs' (mkEncodeOptions parse_added n) [] with
    Ok e => en_input_ids e = take (Z.to_nat n) (concat ls) | Err _ => bs' <> [] \/ (@nil ByteSpan) <> [] end).
  { intros n bs' Hn. exact (encode_ids tz look (tk_find _ _ Hok) Hrule (loaded_symbol tz pairs Hok Hall) text bs' (mkEncodeOptions parse_added n) [] ls Hb Hlen Hn Hls). }
  pose proof (Hids big [] Hbig0) as Hfull. rewrite He in Hfull. assert (Hall' : en_input_ids enc = concat ls).
  { rewrite Hfull in Hbig |- *. unfold vsize in Hbig. rewrite length_take in Hbig. apply take_ge. lia. }
  specialize (Hids max bs Hmax). rewrite Hall'. destruct (encode_with_boundaries tz text bs _ []); [done|]. by destruct Hids.
Qed.

(** * Witnesses *)
Lemma demo_text_bytes : Forall is_byte demo_text /\ 3 * vsize demo_text <= I32_MAX.
Proof. split; [|vm_compute; discriminate]. apply Forall_forall. intros b Hb. assert (Hall : forallb (fun b => (0 <=? b) && (b <? 256)) demo_text = true) by (vm_compute; reflexivity).
  rewrite forallb_forall in Hall. specialize (Hall b (proj1 (list_elem_of_In _ _) Hb)). unfold is_byte. simp_bool. lia. Qed.

Lemma merge_table_is_a_map_witness : exists t0 t, Tokenizer.reset 3 = Ok t0 /\
  rfor insert_rule t0 [(7, mkRule 0 1); (9, mkRule 1 2); (7, mkRule 2 3)] = Ok t /\
  forall key, exists r, find t key = Ok r /\ rule_of <$> r = foldl add_rule ∅ [(7, mkRule 0 1); (9, mkRule 1 2); (7, mkRule 2 3)] !! key.
Proof. apply (merge_table_is_a_map 3); [lia|vm_compute; discriminate|repeat constructor; cbn; lia]. Defined.

Lemma encode_is_byte_pair_encoding_witness : encode demo_tokenizer demo_text demo_options = Ok demo_ids.
Proof.
  refine (encode_is_byte_pair_encoding token_parse [1] [2] [3] demo_tokenizer token_pairs demo_text demo_options [[257; 32; 99; 97; 116]; [258]; []]
    token_parse_ok (proj1 demo_loads) (proj2 demo_loads) _ _ (proj1 demo_text_bytes) (proj2 demo_text_bytes) _ _).
  - vm_compute; discriminate.
  - vm_compute; reflexivity.
  - vm_compute; discriminate.
  - assert (Hp : exists token, pieces demo_tokenizer (eo_parse_added_tokens demo_options) demo_text [] = [Ordinary (bytes_of "the cat"); Added token; Ordinary []] /\ at_id token = 258)
      by (eexists; split; [vm_compute; reflexivity|reflexivity]).
    destruct Hp as (token & -> & Hid). rewrite <- Hid.
    assert (Hascii : reads (bytes_of "the cat") (map (fun b => (b, [b])) (bytes_of "the cat"))) by (apply reads_ascii; repeat constructor; lia).
    constructor; [|constructor; [constructor|constructor; [|constructor]]].
    + replace [257; 32; 99; 97; 116] with (tokens_of demo_tokenizer (tokenizer_rule demo_tokenizer token_pairs) (map (fun b => (b, [b])) (bytes_of "the cat"))) by (vm_compute; reflexivity).
      eapply ordinary_tokens; [vm_compute; reflexivity|exact Hascii].
    + apply (ordinary_tokens demo_tokenizer _ [] [] []); [reflexivity|constructor].
Defined.

Lemma decode_encode_witness : decode demo_tokenizer demo_ids plain = Ok demo_text.
Proof.
  assert (Ha : Forall is_ascii demo_text).
  { apply Forall_forall. intros b Hb. assert (Hall : forallb (fun b => (0 <=? b) && (b <? 128)) demo_text = true) by (vm_compute; reflexivity).
    rewrite forallb_forall in Hall. specialize (Hall b (proj1 (list_elem_of_In _ _) Hb)). unfold is_ascii. simp_bool. lia. }
  destruct (decode_encode token_parse [1] [2] [3] demo_tokenizer token_pairs demo_text demo_options token_parse_ok (proj1 demo_loads) (proj2 demo_loads)) as [Hdec _];
    [vm_compute; discriminate|vm_compute; reflexivity|exact (proj1 demo_text_bytes)|exact (proj2 demo_text_bytes)|vm_compute; discriminate|].
  destruct (Hdec demo_ids) as (ns & _ & _ & Hd); [vm_compute; reflexivity|vm_compute; reflexivity|exact (Hd Ha)].
Defined.

Lemma limited_encoding_is_prefix_witness :
  match encode_with_boundaries demo_tokenizer demo_text [5; 0] (mkEncodeOptions true 3) [] with Ok encoded => en_input_ids encoded = [257; 32; 99] | Err _ => [5; 0] <> [] end.
Proof.
  refine (limited_encoding_is_prefix token_parse [1] [2] [3] demo_tokenizer token_pairs demo_text true 100 demo_ids token_parse_ok (proj1 demo_loads) (proj2 demo_loads)
    _ _ (proj1 demo_text_bytes) (proj2 demo_text_bytes) _ _ 3 [5; 0] _); [vm_compute; discriminate|vm_compute; reflexivity|vm_compute; reflexivity|vm_compute; reflexivity|vm_compute; discriminate].
Defined.
